(* ===== verification/_CoqProject ===== *)
-Q . S2P
Prelude.v
CMem.v
Ctype.v
Fnmatch.v
Atexit.v
Environ.v
Getopt.v
GetoptRotate.v
GetoptSpec.v
MemBlock.v
CString.v
StrTo.v
Futex.v
Mutex.v
RecMutex.v
Lock.v
Cond.v
Semaphore.v
Once.v
Props.v
Threads.v
Join.v
Tls.v
Buddy.v
Digest.v
Md5.v
Sha1.v
Time64.v
Tz.v
TzMk.v
TzMkSpec.v
Base64.v
Sort.v
Links.v
DnsQuery.v
DnsCache.v
DnsRefine.v
Bytes.v
Digits.v
NsName.v
NsPack.v
NsText.v
NsParse.v
NsQuery.v
Inet.v
TzRule.v
TzSafe.v
TzText.v
TzRuleSpec.v
TzFile.v
TzIndex.v
TzSet.v
Stdio.v
StdioRead.v
StdioWrite.v
Elf.v
Linker.v
LinkerPool.v
LinkerInv.v
LinkerLoad.v
LinkerUnload.v
LinkerSpec.v
LinkerSym.v
