(* ===== verification/Prelude.v ===== *)
(** * A verification library for Bionic

    Bionic is Android's C library, with its dynamic linker.  This library models
    the parts of it that carry logic of their own, function by function, and
    proves what makes them correct.  Paths below are under src/.

    ** The parts and their models

    - Shared by all: [Prelude] (fixed-width integers, tactics, computations over
      arrays that may leave their bounds), [CMem] (a byte memory and programs
      over it that may run out of fuel or make an invalid access).
    - Strings and memory (libc/string, libc/stdlib): [MemBlock] (bcopy, memmove,
      memset, memcmp, memmem and the other block routines, word copies and
      unrolled loops included), [CString] (the str* routines), [Ctype] (the
      character tables and the functions that index them), [StrTo] (strtol,
      strtoul, strtoimax, strtoumax and the ato* functions), [Sort] (qsort and
      bsearch).
    - Programs and their surroundings (libc/unistd, libc/stdlib): [Fnmatch] (fnmatch),
      [Atexit] (atexit.c, exit.c and the cleanup of abort), [Environ] (getenv, setenv,
      unsetenv, putenv), [Getopt] (getopt_long.c) with [GetoptRotate] (permute_args)
      and [GetoptSpec] (what the calls of getopt read).
    - Threads (libc/bionic/pthread.c, semaphore.c): [Futex] (threads that
      interleave, futexes), [Mutex] (normal mutexes), [RecMutex] (recursive and
      error-checking mutexes), [Lock] (what a mutex promises its users, an
      interface the two kinds of mutex implement), [Cond] (condition variables,
      over that interface), [Semaphore], [Threads] (attributes, thread
      descriptors and the critical sections of pthread_create, pthread_exit,
      pthread_join and pthread_detach), [Join] (these sections as a system of
      threads), [Tls] (thread-specific data), [Once] (pthread_once).
    - System properties (libc/bionic/system_properties.c): [Props], the area that
      init writes and every process reads without a lock.
    - The linker (linker/ba.c, linker.c, dlfcn.c): [Buddy], the buddy allocator of
      the address space of libraries; [Links], singly linked lists; [Elf], symbol
      hash tables and segments; [Linker], the libraries, dlopen and dlclose, with
      the proofs in [LinkerPool] (the pool of soinfo structures), [LinkerInv] (the
      invariant), [LinkerLoad], [LinkerUnload] and [LinkerSpec] (the theorems);
      [LinkerSym], symbol resolution, constructors and paths.
    - Digests (libc/bionic/md5.c, sha1.c): [Digest] (hashing in pieces, the
      interface of both), [Md5], [Sha1].
    - Time (libc/bionic/time64.c): [Time64], calendar time in 64 bits.
    - Time zones (libc/tzcode/localtime.c): [Tz] (localtime and gmtime on the data of a
      zone), [TzMk] and [TzMkSpec] (mktime), [TzRule] (tzparse, the reader of zone
      strings), [TzSafe] (zone data in order), [TzText] (zone strings as they are
      written) and [TzRuleSpec] (what a zone string means), [TzFile] (tzload, zone
      files; what tzload reads without having set it, in its arrays and in front of
      them, is an argument), [TzIndex] (where a zone file is found), [TzSet] (tzset).
    - Encodings (libc/netbsd/net/base64.c): [Base64].
    - The resolver cache (libc/netbsd/resolv/res_cache.c): [DnsQuery] (checking,
      hashing and comparing query packets), [DnsCache] (entries in a heap, linked
      into hash chains and a most-recently-used list), [DnsRefine] (the abstract
      cache and the refinement).
    - Domain names (libc/netbsd/nameser/ns_name.c, resolv/res_comp.c): [Bytes] and
      [Digits] (arrays of bytes and the digits of numbers, shared with [Inet] and [TzText]),
      [NsName] (expansion of names, skipping, lower case), [NsPack] (compression),
      [NsText] (names as text, bit strings, dn_comp and dn_expand).
    - Messages of the name service (nameser/ns_parse.c, ns_netint.c,
      ns_samedomain.c, resolv/res_mkquery.c, res_send.c): [NsParse] (sections and
      records), [NsQuery] (queries, names compared as text, questions compared).
    - Internet addresses (libc/inet): [Inet].
    - Streams (libc/stdio): [Stdio] (FILE, the device, buffers and flushing),
      [StdioRead] (getc, ungetc, fread, fgets), [StdioWrite] (putc, fwrite, fputs,
      puts).

    ** How code is modelled

    A C integer is a [Z] that is wrapped to its width where the code's arithmetic
    can leave it; [int], [long], [size_t] and pointers have 32 bits, as on all
    four architectures of the tree.  Functions over buffers that are reached
    through pointers are programs over the byte memory of [CMem]: the outcome is a
    value and a memory, an invalid access, or the end of the fuel.  Functions over
    arrays of their own use [cres]: a value, an index out of bounds, or the end of
    the fuel.  A theorem that gives the value of a call therefore also says that
    the call stays within its buffers and that its loops end.  Fuel is either an
    argument, and the theorems hold for every large enough one, or a bound of the
    model: the length of the array and one more for loops over arrays, the number
    of years or months left for the loops of time64.c, the order for the loops
    over buddies, the size of the heap for the hash chains.  Concurrent code is a
    step relation, under sequential consistency: each atomic access and each system call is one step of one
    thread, and steps interleave freely; what the code does under a lock is one
    step where the lock's exclusion is proved.  Invariants are proved by induction
    over the steps.

    ** What the theorems show

    - Mutexes: exclusion and no lost wake-up in every interleaving, for normal,
      recursive and error-checking mutexes; the interface of [Lock] is
      implemented by both.  Condition variables: no lost wake-up for fewer than
      2^32 signals; a wait returns with the mutex held.  Semaphores: no more
      successful waits than units; and the interleaving in which sem_post loses a
      wake-up.
    - Threads: pthread_join returns after the thread ended, with its value, and
      descriptors are released once, without spurious wake-ups; with one, it
      returns early.  Attribute setters and getters.
    - pthread_once: a routine runs at most once and every call returns after it;
      a nested call of a routine that has not run never returns.
    - System properties: what a reader returns is a value that was published,
      current when the reader loaded the serial number, if fewer than 2^23 writes
      overlap the read; a reader is done while the writer is idle.
    - Thread-specific data: fresh keys read as NULL in every thread, also while
      destructors run; each destructor runs once per value.
    - Buddy allocator: refinement of a set of disjoint aligned blocks, with
      completeness of allocation, and the read out of bounds in the last free.
    - Linker: dlopen and dlclose end, whatever the files hold and the kernel
      answers, and keep an invariant by which reference counts are exact; so after
      any sequence of calls libraries do not overlap, each linked library finds what
      it needs linked before it, nothing is unloaded that is in use, and the
      destructors that have run account for what is no longer linked; symbol search.  The recursion of
      find_library and unload_library has fuel for one level per library of the
      pool (256, and two), which is enough because every level of loading takes a
      structure of its own, and unloading follows the order in which libraries were
      linked.
    - Strings, memory, conversions, sorting, searching: the functional behaviour
      on every branch, saturation and errno of the conversions included.
    - Patterns, handlers, environment, options: fnmatch answers what the tokens of the
      pattern denote, for all flags, with fuel for every character of the pattern (with
      FNM_PERIOD and FNM_PATHNAME the denotation follows the code, which forgets
      FNM_PERIOD after a star that no slash follows); exit and dlclose call
      each handler once, the last first, and handlers that finalize in turn are bounded by
      the fuel of the caller, which the theorem on exit shows to be enough when they only
      register; the environment is a finite map (unsetenv goes round once per string, and
      once more); calls of getopt until -1 refine a stateless reading of the arguments,
      with long options by exact name or unambiguous abbreviation,
      with one call per event and one for the end, and permute_args exchanges its two
      blocks.
    - Digests: equality with the digests of RFC 1321 and FIPS 180-1 for every way
      to cut the message into updates of less than 2^29 bytes; the digest of RFC 1321
      is written from the RFC, its table computed from the sine.  MD5 is right on
      big-endian hosts only when WORDS_BIGENDIAN is defined, which the tree does not do.
    - Time: every 64-bit time is broken down by the Gregorian rule or reported as
      an overflow, and back; local times use the system's functions on safe years
      only.
    - Time zones: localtime shows the Gregorian date of a time moved by the offset
      in force and by the leap seconds; mktime ends for every zone in order, its
      answer is shown as what was asked for, and away from the changes of a zone it
      inverts localtime; the zone made of a zone string has summer time when the
      rules of the string say so; a zone written as a file is loaded as it was; tzset
      leaves a zone in order whatever the files and the memory hold that it reads,
      provided that the memory in front of the array of times can be read: the tests for
      400-year repeats look there for every zone of at most 800 transitions.  The bisection of mktime has fuel for
      40 rounds, which suffice because the interval halves from 2^32 on; the loops
      over the years have as many rounds as there are days, and two more.
    - Base64: the encoder fits its buffer, and the decoder accepts exactly the
      encodings and inverts the encoder.

    - Resolver cache: the check accepts exactly the well-formed queries, the
      comparison decides whether two queries ask the same, and equal queries have
      equal hashes; the table and the list implement a bounded list of answers in
      the order of their last use, and lookups return only answers added for the
      same query in the current generation, less than ten minutes before.

    - Domain names: the expansion of a name reads inside the message, or one octet
      behind it when the message ends with the first octet of a bit string; it ends for
      every arrangement of pointers and gives the labels that the octets denote;
      a compressed name expands to itself up to case, and so does its text through
      dn_comp and dn_expand.  The fuel of a loop is the length of the message or
      of the text and one more; a name whose pointers form a cycle is cut off by
      the count of octets of the code, not by the fuel.
    - Messages: ns_initparse accepts exactly the messages whose sections have the
      records they count, and calls of ns_parserr in any order read the records
      they ask for; a query of res_nmkquery is parsed back, matches itself and is
      accepted by the check of the resolver cache; res_queriesmatch decides
      whether the questions of a query are those of a reply.
    - Internet addresses: what inet_ntop and inet_ntoa print is parsed back.
    - Streams: over any device, whose reads and writes may be short or fail, every
      sequence of reads and push-backs gives the bytes of the file in their order
      (on unbuffered streams, where an fread drops what was pushed back, if each fread
      comes with nothing pushed back and no end of file), and every sequence of writes sends its bytes in their order or reports an
      error.  The fuel of the loops is the number of bytes that are left and at
      most two more, or twice that number for __sfvwrite, which may flush a full
      buffer between two steps that take bytes.

    ** Not modelled

    libm (floating point and assembly), printf, scanf and strtod (variable arguments
    and floating point), opening and closing of streams, dlmalloc (third-party allocator), the
    printing of dates (strftime and asctime; the contents of zone files are an argument of the
    time zones, and time64.c takes the functions of libc/tzcode as parameters), the network
    code of libc/netbsd apart from the encodings, the names, the messages and the
    resolver cache (sockets, timeouts, configuration files and printing), the
    relocations and the start-up of linker/linker.c (the success of a library's
    relocation is an argument of [Linker]), system call stubs,
    assembly, kernel headers, wide characters, libstdc++, libthread_db, and the
    thin wrappers around system calls in libc/unistd: these are input and output,
    generated, or have no logic of their own beyond a call. *)

From Stdlib Require Import ZArith Lia.
From stdpp Require Import base gmap list numbers.

Open Scope Z_scope.

(** ** Fixed-width integers

    A w-bit C integer is a [Z]; the conversions below write out the
    wrap-around of unsigned and two's complement arithmetic. *)

Definition u8 (z : Z) : Z := z mod 2 ^ 8.
Definition u16 (z : Z) : Z := z mod 2 ^ 16.
Definition u32 (z : Z) : Z := z mod 2 ^ 32.
Definition u64 (z : Z) : Z := z mod 2 ^ 64.
Definition s8 (z : Z) : Z := (z + 2 ^ 7) mod 2 ^ 8 - 2 ^ 7.
Definition s32 (z : Z) : Z := (z + 2 ^ 31) mod 2 ^ 32 - 2 ^ 31.
Definition s64 (z : Z) : Z := (z + 2 ^ 63) mod 2 ^ 64 - 2 ^ 63.

(** The truth value of a C scalar, and the C value of a comparison. *)
Definition truthy (z : Z) : bool := negb (z =? 0).
Definition b2z (b : bool) : Z := if b then 1 else 0.

Definition INT_MAX : Z := 2 ^ 31 - 1.
Definition INT_MIN : Z := - 2 ^ 31.
Definition UINT_MAX : Z := 2 ^ 32 - 1.

(** errno values (asm-generic/errno-base.h and errno.h). *)
Definition EPERM : Z := 1.
Definition ENOENT : Z := 2.
Definition EINTR : Z := 4.
Definition EAGAIN : Z := 11.
Definition ENOMEM : Z := 12.
Definition EBUSY : Z := 16.
Definition ENODEV : Z := 19.
Definition EINVAL : Z := 22.
Definition ERANGE : Z := 34.
Definition EDEADLK : Z := 35.
Definition ENAMETOOLONG : Z := 36.
Definition ENOSYS : Z := 38.
Definition ENOSPC : Z := 28.
Definition EMSGSIZE : Z := 90.
Definition ENOTSUP : Z := 95.
Definition EAFNOSUPPORT : Z := 97.
Definition ETIMEDOUT : Z := 110.

Declare Scope cint_scope.
Delimit Scope cint_scope with cint.
Notation "a .& b" := (Z.land a b) (at level 40, left associativity) : cint_scope.
Notation "a .| b" := (Z.lor a b) (at level 50, left associativity) : cint_scope.
Notation "a .^ b" := (Z.lxor a b) (at level 50, left associativity) : cint_scope.

Create HintDb cint.

(** ** Tactics *)

(** Decide the boolean comparison in front, keeping its meaning. *)
Ltac bcase :=
  match goal with
  | |- context [?a =? ?b] => destruct (Z.eqb_spec a b)
  | |- context [?a <? ?b] => destruct (Z.ltb_spec a b)
  | |- context [?a <=? ?b] => destruct (Z.leb_spec a b)
  end.

(** Decide, by arithmetic, a comparison some [if] of the goal tests. *)
Ltac zif :=
  match goal with
  | |- context [?a <=? ?b] =>
      first [rewrite (proj2 (Z.leb_le a b)) by lia | rewrite (proj2 (Z.leb_gt a b)) by lia]
  | |- context [?a <? ?b] =>
      first [rewrite (proj2 (Z.ltb_lt a b)) by lia | rewrite (proj2 (Z.ltb_ge a b)) by lia]
  | |- context [?a =? ?b] =>
      first [rewrite (proj2 (Z.eqb_eq a b)) by (assumption || lia)
            | rewrite (proj2 (Z.eqb_neq a b)) by (assumption || lia)]
  end; cbn [orb andb negb]; cbv iota.

(** Turn boolean hypotheses about [Z] into propositions. *)
Ltac zbool :=
  repeat match goal with
  | H : context [Z.eqb ?a ?b = true] |- _ => rewrite Z.eqb_eq in H
  | H : (_ =? _) = true |- _ => apply Z.eqb_eq in H
  | H : (_ =? _) = false |- _ => apply Z.eqb_neq in H
  | H : (_ <? _) = true |- _ => apply Z.ltb_lt in H
  | H : (_ <? _) = false |- _ => apply Z.ltb_ge in H
  | H : (_ <=? _) = true |- _ => apply Z.leb_le in H
  | H : (_ <=? _) = false |- _ => apply Z.leb_gt in H
  | H : (_ && _)%bool = true |- _ => apply andb_true_iff in H; destruct H
  | H : (_ || _)%bool = false |- _ => apply orb_false_iff in H; destruct H
  end.

Ltac solve_range := unfold u8, u16, u32, u64, s8, s32, s64 in *; lia.

(** Arithmetic with [/] and [mod] by constants. *)
Ltac zdm := Z.div_mod_to_equations; lia.

(** ** Integer lemmas *)

Lemma u8_range z : 0 <= u8 z < 256.
Proof. unfold u8. change (2 ^ 8) with 256. apply Z.mod_pos_bound. lia. Qed.

Lemma u32_range z : 0 <= u32 z < 2 ^ 32.
Proof. unfold u32. apply Z.mod_pos_bound. lia. Qed.

Lemma u64_range z : 0 <= u64 z < 2 ^ 64.
Proof. unfold u64. apply Z.mod_pos_bound. lia. Qed.

Lemma s32_range z : - 2 ^ 31 <= s32 z < 2 ^ 31.
Proof. unfold s32. pose proof (Z.mod_pos_bound (z + 2 ^ 31) (2 ^ 32)). lia. Qed.

Lemma s64_range z : - 2 ^ 63 <= s64 z < 2 ^ 63.
Proof. unfold s64. pose proof (Z.mod_pos_bound (z + 2 ^ 63) (2 ^ 64)). lia. Qed.

Lemma u8_small z : 0 <= z < 256 -> u8 z = z.
Proof. intros H. unfold u8. apply Z.mod_small. lia. Qed.

Lemma u32_small z : 0 <= z < 2 ^ 32 -> u32 z = z.
Proof. intros H. unfold u32. apply Z.mod_small. lia. Qed.

Lemma u64_small z : 0 <= z < 2 ^ 64 -> u64 z = z.
Proof. intros H. unfold u64. apply Z.mod_small. lia. Qed.

Lemma s32_small z : - 2 ^ 31 <= z < 2 ^ 31 -> s32 z = z.
Proof. intros H. unfold s32. rewrite Z.mod_small; lia. Qed.

Lemma s64_small z : - 2 ^ 63 <= z < 2 ^ 63 -> s64 z = z.
Proof. intros H. unfold s64. rewrite Z.mod_small; lia. Qed.

Lemma truthy_ne z : z <> 0 -> truthy z = true.
Proof. intros H. unfold truthy. bcase; [lia | done]. Qed.

Lemma truthy_pos z : 0 < z -> truthy z = true.
Proof. intros H. unfold truthy. bcase; [lia | done]. Qed.

#[export] Hint Resolve u8_range u32_range u64_range s32_range s64_range : cint.
#[export] Hint Rewrite u8_small u32_small u64_small s32_small s64_small
  using lia : cint.

(** Or of values without a common bit. *)
Lemma lor_add a b : Z.land a b = 0 -> Z.lor a b = a + b.
Proof. intros H. pose proof (Z.add_lor_land a b). lia. Qed.

(** The low and the high bits of a word. *)
Lemma lor_low a b n : 0 <= n -> 0 <= b < 2 ^ n -> Z.lor (Z.shiftl a n) b = a * 2 ^ n + b.
Proof.
  intros Hn Hb. rewrite lor_add; [by rewrite Z.shiftl_mul_pow2|]. apply Z.bits_inj'. intros i Hi.
  rewrite Z.land_spec, Z.bits_0. destruct (Z.ltb_spec i n).
  - by rewrite Z.shiftl_spec_low.
  - rewrite <- (Z.mod_small b (2 ^ n)) by done. rewrite Z.mod_pow2_bits_high by lia. apply andb_false_r.
Qed.

(** A mask below a power of two only sees the low bits. *)
Lemma land_low n w mask : 0 <= n -> 0 <= mask < 2 ^ n -> Z.land w mask = Z.land (w mod 2 ^ n) mask.
Proof.
  intros Hn Hm. rewrite <- (Z.mod_small mask (2 ^ n)) at 1 by done.
  rewrite <- !Z.land_ones, (Z.land_comm mask), Z.land_assoc by done. done.
Qed.

(** One bit of a word. *)
Lemma land_bit w j : 0 <= j -> Z.land w (Z.shiftl 1 j) = if Z.testbit w j then 2 ^ j else 0.
Proof.
  intros Hj. rewrite Z.shiftl_1_l. apply Z.bits_inj'. intros i Hi.
  rewrite Z.land_spec, Z.pow2_bits_eqb by done.
  destruct (Z.eqb_spec j i) as [->|Hne].
  - destruct (Z.testbit w i); [by rewrite Z.pow2_bits_true | by rewrite Z.bits_0].
  - rewrite andb_false_r. destruct (Z.testbit w j); [by rewrite Z.pow2_bits_false | by rewrite Z.bits_0].
Qed.

(** A statement about every integer of a small range, decided by evaluation. *)
Fixpoint all_from (f : Z -> bool) (n : nat) (z : Z) : bool :=
  match n with O => true | S n' => f z && all_from f n' (z + 1) end.

Lemma range_check (f : Z -> bool) (a n : Z) :
  all_from f (Z.to_nat n) a = true -> forall z, a <= z < a + n -> f z = true.
Proof.
  intros H z Hz. assert (Hz' : a <= z < a + Z.of_nat (Z.to_nat n)) by lia. clear Hz.
  revert a H Hz'. induction (Z.to_nat n) as [|k IH]; intros a H Hz'; [lia|].
  simpl in H. apply andb_true_iff in H as [H1 H2].
  destruct (Z.eq_dec z a) as [->|]; [done|]. apply (IH (a + 1)); [done|lia].
Qed.

(** ** Lists indexed by [Z] *)

(** Slice [l[i .. i+n)]. *)
Definition slice {A} (i n : nat) (l : list A) : list A := take n (drop i l).

Lemma slice_length {A} i n (l : list A) :
  (i + n <= length l)%nat -> length (slice i n l) = n.
Proof. intros H. unfold slice. rewrite length_take, length_drop. lia. Qed.

Lemma take_add_slice {A} i n (l : list A) :
  take (i + n) l = take i l ++ slice i n l.
Proof.
  revert l. induction i as [|i IH]; [done|].
  intros [|x l]; simpl.
  - unfold slice. by rewrite !drop_nil, !take_nil.
  - by rewrite IH.
Qed.

(** ** Computations that may go wrong

    Code over arrays and other data that is not modelled byte by byte: an access
    out of bounds is [CUndef], a loop that is cut off [CFuel]. *)
Inductive cres (A : Type) : Type :=
| CVal (a : A)
| CUndef
| CFuel.
Arguments CVal {A} a.
Arguments CUndef {A}.
Arguments CFuel {A}.

#[export] Instance cres_ret : MRet cres := fun A a => CVal a.
#[export] Instance cres_bind : MBind cres := fun A B k c =>
  match c with CVal a => k a | CUndef => CUndef | CFuel => CFuel end.

(** Array accesses. *)
Definition aget {A} (l : list A) (i : Z) : cres A :=
  if i <? 0 then CUndef else match l !! Z.to_nat i with Some a => CVal a | None => CUndef end.

Definition aset {A} (l : list A) (i : Z) (a : A) : cres (list A) :=
  if (i <? 0) || (Z.of_nat (length l) <=? i) then CUndef else CVal (<[Z.to_nat i := a]> l).

Lemma aget_val {A} (l : list A) i a : 0 <= i -> l !! Z.to_nat i = Some a -> aget l i = CVal a.
Proof. intros Hi H. unfold aget. zif. by rewrite H. Qed.

Lemma aset_val {A} (l : list A) i a :
  0 <= i < Z.of_nat (length l) -> aset l i a = CVal (<[Z.to_nat i := a]> l).
Proof. intros Hi. unfold aset. by repeat zif. Qed.

(** The element behind a prefix. *)
Lemma aset_app {A} (pre post : list A) x a :
  aset (pre ++ x :: post) (Z.of_nat (length pre)) a = CVal (pre ++ a :: post).
Proof.
  rewrite aset_val by (rewrite length_app; cbn [length]; lia). rewrite Nat2Z.id. f_equal.
  rewrite insert_app_r_alt, Nat.sub_diag by lia. done.
Qed.

Lemma aget_app {A} (pre post : list A) x : aget (pre ++ x :: post) (Z.of_nat (length pre)) = CVal x.
Proof.
  apply aget_val; [lia|]. rewrite Nat2Z.id, lookup_app_r, Nat.sub_diag by lia. done.
Qed.
