(* ===== verification/CMem.v ===== *)
(** * The C memory and the programs that run on it

    The string library, the digests and the other routines of libc that walk
    through buffers are modelled as programs over a flat byte memory: a finite
    map from addresses to bytes, whose domain is the set of addresses the
    program may touch.  An access outside of it is undefined behaviour and is
    a separate outcome, so a specification that says [f m = Ok r m'] also says
    that [f] makes no invalid access.  Loops are bounded by fuel; running out
    of it is a third outcome, so a specification [f fuel m = Ok r m'] for every
    large enough [fuel] also says that the loops of [f] terminate. *)

From Stdlib Require Import ZArith Lia.
From stdpp Require Import base gmap list numbers.
From S2P Require Import Prelude.

Open Scope Z_scope.

Notation mem := (gmap Z Z).

Inductive outcome (A : Type) : Type :=
| Ok (a : A) (m : mem)
| Undef
| Timeout.
Arguments Ok {A} a m.
Arguments Undef {A}.
Arguments Timeout {A}.

Definition M (A : Type) : Type := mem -> outcome A.

#[export] Instance M_ret : MRet M := fun A a m => Ok a m.
#[export] Instance M_bind : MBind M := fun A B k c m =>
  match c m with
  | Ok a m' => k a m'
  | Undef => Undef
  | Timeout => Timeout
  end.

Definition NULL : Z := 0.

(** One byte read as [unsigned char]; writes keep the low eight bits. *)
Definition load (p : Z) : M Z := fun m =>
  match m !! p with Some b => Ok b m | None => Undef end.

Definition store (p v : Z) : M unit := fun m =>
  match m !! p with Some _ => Ok tt (<[p := u8 v]> m) | None => Undef end.

(** [loop fuel body s] runs [body] until it leaves with [inr]. *)
Fixpoint loop {S R : Type} (fuel : nat) (body : S -> M (S + R)) (s : S) : M R :=
  match fuel with
  | O => fun _ => Timeout
  | S fuel' =>
      r ← body s;
      match r with
      | inl s' => loop fuel' body s'
      | inr v => mret v
      end
  end.

(** Several bytes at once, as a list. *)
Fixpoint load_bytes (p : Z) (n : nat) : M (list Z) :=
  match n with
  | O => mret []
  | S n' => b ← load p; l ← load_bytes (p + 1) n'; mret (b :: l)
  end.

Fixpoint store_bytes (p : Z) (l : list Z) : M unit :=
  match l with
  | [] => mret tt
  | b :: l' => store p b;; store_bytes (p + 1) l'
  end.

(** An access through a [n]-byte word pointer must be aligned. *)
Definition load_word (n : nat) (p : Z) : M (list Z) :=
  if p mod Z.of_nat n =? 0 then load_bytes p n else fun _ => Undef.

Definition store_word (n : nat) (p : Z) (l : list Z) : M unit :=
  if p mod Z.of_nat n =? 0 then store_bytes p l else fun _ => Undef.

(** Plain [char] is signed on x86 and MIPS and unsigned on ARM and PowerPC. *)
Class CharModel := char_signed : bool.

Definition char_of `{CharModel} (b : Z) : Z := if char_signed then s8 b else u8 b.

Definition loadc `{CharModel} (p : Z) : M Z := b ← load p; mret (char_of b).

(** ** Descriptions of memory *)

Fixpoint mem_write (a : Z) (l : list Z) (m : mem) : mem :=
  match l with
  | [] => m
  | b :: l' => mem_write (a + 1) l' (<[a := b]> m)
  end.

Fixpoint bytes_at (m : mem) (a : Z) (l : list Z) : Prop :=
  match l with
  | [] => True
  | b :: l' => m !! a = Some b /\ bytes_at m (a + 1) l'
  end.

Definition is_byte (b : Z) : Prop := 0 <= b < 256.
Definition is_char (b : Z) : Prop := 0 < b < 256.

Definition bytes (l : list Z) : Prop := Forall is_byte l.

(** A NUL-terminated string [s] at address [a]. *)
Definition cstr (m : mem) (a : Z) (s : list Z) : Prop :=
  bytes_at m a (s ++ [0]) /\ Forall is_char s.

(** The addresses [a .. a + n) may be accessed. *)
Definition valid (m : mem) (a n : Z) : Prop :=
  forall i, 0 <= i < n -> is_Some (m !! (a + i)).

(** Two address ranges do not overlap. *)
Definition disjoint_ranges (a n b k : Z) : Prop := a + n <= b \/ b + k <= a.

#[export] Instance is_byte_dec b : Decision (is_byte b).
Proof. unfold is_byte. apply _. Defined.
#[export] Instance is_char_dec b : Decision (is_char b).
Proof. unfold is_char. apply _. Defined.
#[export] Instance bytes_dec l : Decision (bytes l).
Proof. unfold bytes. apply _. Defined.
#[export] Instance bytes_at_dec m a l : Decision (bytes_at m a l).
Proof. revert a. induction l as [|b l IH]; intros a; simpl; apply _. Defined.
#[export] Instance cstr_dec m a s : Decision (cstr m a s).
Proof. unfold cstr. apply _. Defined.
#[export] Instance disjoint_ranges_dec a n b k : Decision (disjoint_ranges a n b k).
Proof. unfold disjoint_ranges. apply _. Defined.

(** Close a decidable goal about concrete data by evaluation. *)
Ltac by_compute := apply (bool_decide_unpack _); vm_compute; exact I.

(** ** Running programs *)

Lemma bind_ok {A B} (c : M A) (k : A -> M B) m a m' :
  c m = Ok a m' -> (c ≫= k) m = k a m'.
Proof. intros H. unfold mbind, M_bind. by rewrite H. Qed.

Lemma bind_assoc {A B C} (c : M A) (k : A -> M B) (h : B -> M C) m :
  ((c ≫= k) ≫= h) m = (c ≫= fun a => k a ≫= h) m.
Proof. unfold mbind, M_bind. by destruct (c m). Qed.

(** Run the first command of a sequence, whose outcome [tac] computes. *)
Ltac mstep tac := erewrite bind_ok by (solve [tac]); cbv beta iota zeta.

Section Loop.
Context {A B : Type} (body : A -> M (A + B)).

Lemma loop_continue fuel s s' m m' :
  body s m = Ok (inl s') m' -> loop (S fuel) body s m = loop fuel body s' m'.
Proof. intros H. simpl. by rewrite (bind_ok _ _ _ _ _ H). Qed.

Lemma loop_exit fuel s r m m' :
  body s m = Ok (inr r) m' -> loop (S fuel) body s m = Ok r m'.
Proof. intros H. simpl. by rewrite (bind_ok _ _ _ _ _ H). Qed.
End Loop.

Lemma load_ok m p b : m !! p = Some b -> load p m = Ok b m.
Proof. intros H. unfold load. by rewrite H. Qed.

Lemma store_ok m p v : is_Some (m !! p) -> store p v m = Ok tt (<[p := u8 v]> m).
Proof. intros [b H]. unfold store. by rewrite H. Qed.

Lemma loadc_ok `{CharModel} m p b : m !! p = Some b -> loadc p m = Ok (char_of b) m.
Proof. intros H'. unfold loadc. erewrite bind_ok by by apply load_ok. done. Qed.

(** Run a load or a store of an address that is known to be accessible. *)
Ltac mload := mstep ltac:(apply load_ok; eassumption).
Ltac mstore := mstep ltac:(apply store_ok; eauto).

(** ** Facts about memory descriptions *)

Lemma lookup_mem_write a l m p :
  mem_write a l m !! p =
  if decide (a <= p < a + Z.of_nat (length l)) then l !! Z.to_nat (p - a) else m !! p.
Proof.
  revert a m. induction l as [|b l IH]; intros a m; simpl.
  - rewrite decide_False by lia. done.
  - rewrite IH. repeat case_decide; try lia.
    + replace (Z.to_nat (p - a)) with (S (Z.to_nat (p - (a + 1)))) by lia. done.
    + assert (p = a) as -> by lia. rewrite lookup_insert_eq.
      by rewrite Z.sub_diag.
    + by rewrite lookup_insert_ne by lia.
Qed.

Lemma lookup_mem_write_in a l m i :
  (i < length l)%nat -> mem_write a l m !! (a + Z.of_nat i) = l !! i.
Proof.
  intros H. rewrite lookup_mem_write, decide_True by lia.
  f_equal. lia.
Qed.

Lemma lookup_mem_write_out a l m p :
  p < a \/ a + Z.of_nat (length l) <= p -> mem_write a l m !! p = m !! p.
Proof. intros H. rewrite lookup_mem_write, decide_False by lia. done. Qed.

Lemma mem_write_app a l1 l2 m :
  mem_write a (l1 ++ l2) m = mem_write (a + Z.of_nat (length l1)) l2 (mem_write a l1 m).
Proof.
  revert a m. induction l1 as [|b l1 IH]; intros a m; simpl.
  - by rewrite Z.add_0_r.
  - rewrite IH. f_equal. lia.
Qed.

Lemma mem_write_insert_comm a l p b m :
  p < a \/ a + Z.of_nat (length l) <= p ->
  mem_write a l (<[p := b]> m) = <[p := b]> (mem_write a l m).
Proof.
  intros H. apply map_eq. intros q. rewrite lookup_mem_write.
  destruct (decide (p = q)) as [->|Hne].
  - rewrite !lookup_insert_eq. by rewrite decide_False by lia.
  - rewrite !lookup_insert_ne by done. by rewrite lookup_mem_write.
Qed.

Lemma mem_write_cover a l1 l2 m :
  length l1 = length l2 -> mem_write a l2 (mem_write a l1 m) = mem_write a l2 m.
Proof.
  intros H. apply map_eq. intros p. rewrite !lookup_mem_write, H.
  by destruct (decide _).
Qed.

Lemma bytes_at_lookup m a l :
  bytes_at m a l <->
  forall i, (i < length l)%nat -> m !! (a + Z.of_nat i) = l !! i.
Proof.
  revert a. induction l as [|b l IH]; intros a; simpl.
  - split; [lia | done].
  - rewrite IH. split.
    + intros [H1 H2] [|i] Hi; simpl.
      * by rewrite Z.add_0_r.
      * rewrite <- H2 by lia. f_equal. lia.
    + intros H. split.
      * specialize (H 0%nat). rewrite Z.add_0_r in H. apply H. lia.
      * intros i Hi. specialize (H (S i)). simpl in H. rewrite <- H by lia.
        f_equal. lia.
Qed.

Lemma bytes_at_app m a l1 l2 :
  bytes_at m a (l1 ++ l2) <->
  bytes_at m a l1 /\ bytes_at m (a + Z.of_nat (length l1)) l2.
Proof.
  revert a. induction l1 as [|b l1 IH]; intros a; simpl.
  - rewrite Z.add_0_r. tauto.
  - rewrite IH.
    replace (a + 1 + Z.of_nat (length l1)) with (a + Z.of_nat (S (length l1))) by lia.
    tauto.
Qed.

Lemma bytes_at_ext m m' a l :
  (forall p, a <= p < a + Z.of_nat (length l) -> m' !! p = m !! p) ->
  bytes_at m a l -> bytes_at m' a l.
Proof.
  intros Hm. rewrite !bytes_at_lookup. intros H i Hi. rewrite Hm by lia. by apply H.
Qed.

Lemma bytes_at_insert m p b a l :
  p < a \/ a + Z.of_nat (length l) <= p ->
  bytes_at m a l -> bytes_at (<[p := b]> m) a l.
Proof.
  intros H. apply bytes_at_ext. intros q Hq. rewrite lookup_insert_ne; [done | lia].
Qed.

Lemma bytes_at_write_disjoint m b k a l :
  disjoint_ranges a (Z.of_nat (length l)) b (Z.of_nat (length k)) ->
  bytes_at m a l -> bytes_at (mem_write b k m) a l.
Proof.
  intros H. apply bytes_at_ext. intros q Hq.
  apply lookup_mem_write_out. unfold disjoint_ranges in H. lia.
Qed.

Lemma bytes_at_write m a l : bytes_at (mem_write a l m) a l.
Proof. apply bytes_at_lookup. intros i Hi. by apply lookup_mem_write_in. Qed.

Lemma bytes_at_valid m a l : bytes_at m a l -> valid m a (Z.of_nat (length l)).
Proof.
  rewrite bytes_at_lookup. intros H i Hi.
  rewrite <- (Z2Nat.id i) by lia. rewrite H by lia.
  apply lookup_lt_is_Some. lia.
Qed.

Lemma valid_insert m a n p b : valid m a n -> valid (<[p := b]> m) a n.
Proof.
  intros H i Hi. destruct (decide (p = a + i)) as [->|Hne].
  - rewrite lookup_insert_eq. eauto.
  - rewrite lookup_insert_ne by done. auto.
Qed.

Lemma valid_sub m a n b k :
  valid m a n -> a <= b -> b + k <= a + n -> valid m b k.
Proof.
  intros H H1 H2 i Hi. replace (b + i) with (a + (b + i - a)) by lia. apply H. lia.
Qed.

Lemma valid_head m a n : valid m a n -> 0 < n -> is_Some (m !! a).
Proof. intros H Hn. specialize (H 0). rewrite Z.add_0_r in H. apply H. lia. Qed.

Lemma valid_tail m a n : valid m a n -> valid m (a + 1) (n - 1).
Proof. intros H. by apply (valid_sub m a n); [|lia|lia]. Qed.

Lemma valid_write m a n b l : valid m a n -> valid (mem_write b l m) a n.
Proof.
  intros H i Hi. rewrite lookup_mem_write. destruct (decide _) as [Hd|Hd].
  - apply lookup_lt_is_Some. lia.
  - auto.
Qed.

Lemma cstr_nil m a : cstr m a [] <-> m !! a = Some 0.
Proof. unfold cstr. simpl. intuition. Qed.

Lemma cstr_cons m a c s :
  cstr m a (c :: s) <-> m !! a = Some c /\ is_char c /\ cstr m (a + 1) s.
Proof. unfold cstr. simpl. rewrite Forall_cons_iff. tauto. Qed.

Lemma cstr_drop m a s i :
  (i <= length s)%nat -> cstr m a s -> cstr m (a + Z.of_nat i) (drop i s).
Proof.
  revert a s. induction i as [|i IH]; intros a s Hi H.
  - by rewrite Z.add_0_r, drop_0.
  - destruct s as [|c s]; simpl in Hi; [lia|]. apply cstr_cons in H as (_ & _ & H).
    replace (a + Z.of_nat (S i)) with (a + 1 + Z.of_nat i) by lia.
    apply IH; [lia | done].
Qed.

Lemma cstr_bytes m a s : cstr m a s -> bytes (s ++ [0]).
Proof.
  intros [_ H]. apply Forall_app. split; [|repeat constructor; lia].
  eapply list.Forall_impl; [exact H|]. unfold is_char, is_byte. lia.
Qed.

Lemma cstr_head_valid m a s : cstr m a s -> is_Some (m !! a).
Proof.
  intros H. destruct s as [|c s].
  - apply cstr_nil in H. eauto.
  - apply cstr_cons in H as [H _]. eauto.
Qed.

Lemma load_bytes_ok m p l : bytes_at m p l -> load_bytes p (length l) m = Ok l m.
Proof.
  revert p. induction l as [|b l IH]; intros p H; simpl; [done|].
  destruct H as [H1 H2]. erewrite bind_ok by by apply load_ok.
  by erewrite bind_ok by by apply IH.
Qed.

Lemma store_bytes_ok m p l :
  bytes l -> valid m p (Z.of_nat (length l)) -> store_bytes p l m = Ok tt (mem_write p l m).
Proof.
  revert p m. induction l as [|b l IH]; intros p m Hb Hv; simpl; [done|].
  inversion Hb; subst.
  erewrite bind_ok by (apply store_ok; eapply valid_head; [done | simpl; lia]).
  rewrite u8_small by done. apply IH; [done|].
  apply valid_insert. replace (Z.of_nat (length l)) with (Z.of_nat (S (length l)) - 1) by lia.
  by apply valid_tail.
Qed.
