(* ===== verification/Ctype.v ===== *)
(** * Character classes: stdlib/ctype_.c, tolower_.c, toupper_.c and the
      case map of string/strcasecmp.c

    The four tables are written out as in the sources; the classification
    functions index them the way the sources do. *)

From Stdlib Require Import ZArith Lia.
From stdpp Require Import base list numbers.
From S2P Require Import Prelude.

Open Scope Z_scope.
Open Scope cint_scope.

Definition EOF : Z := -1.

(** ** The flags of include/ctype.h *)

Definition CT_U : Z := 0x01.
Definition CT_L : Z := 0x02.
Definition CT_N : Z := 0x04.
Definition CT_S : Z := 0x08.
Definition CT_P : Z := 0x10.
Definition CT_C : Z := 0x20.
Definition CT_X : Z := 0x40.
Definition CT_B : Z := 0x80.

(** The table _C_ctype_, whose first entry is the one of EOF. *)
Definition C_ctype : list Z :=
  [0;
   CT_C; CT_C; CT_C; CT_C; CT_C; CT_C; CT_C; CT_C;
   CT_C; (CT_C .| CT_S); (CT_C .| CT_S); (CT_C .| CT_S); (CT_C .| CT_S); (CT_C .| CT_S); CT_C; CT_C;
   CT_C; CT_C; CT_C; CT_C; CT_C; CT_C; CT_C; CT_C;
   CT_C; CT_C; CT_C; CT_C; CT_C; CT_C; CT_C; CT_C;
   (CT_S .| CT_B); CT_P; CT_P; CT_P; CT_P; CT_P; CT_P; CT_P;
   CT_P; CT_P; CT_P; CT_P; CT_P; CT_P; CT_P; CT_P;
   CT_N; CT_N; CT_N; CT_N; CT_N; CT_N; CT_N; CT_N;
   CT_N; CT_N; CT_P; CT_P; CT_P; CT_P; CT_P; CT_P;
   CT_P; (CT_U .| CT_X); (CT_U .| CT_X); (CT_U .| CT_X); (CT_U .| CT_X); (CT_U .| CT_X); (CT_U .| CT_X); CT_U;
   CT_U; CT_U; CT_U; CT_U; CT_U; CT_U; CT_U; CT_U;
   CT_U; CT_U; CT_U; CT_U; CT_U; CT_U; CT_U; CT_U;
   CT_U; CT_U; CT_U; CT_P; CT_P; CT_P; CT_P; CT_P;
   CT_P; (CT_L .| CT_X); (CT_L .| CT_X); (CT_L .| CT_X); (CT_L .| CT_X); (CT_L .| CT_X); (CT_L .| CT_X); CT_L;
   CT_L; CT_L; CT_L; CT_L; CT_L; CT_L; CT_L; CT_L;
   CT_L; CT_L; CT_L; CT_L; CT_L; CT_L; CT_L; CT_L;
   CT_L; CT_L; CT_L; CT_P; CT_P; CT_P; CT_P; CT_C;
   CT_C; CT_C; CT_C; CT_C; CT_C; CT_C; CT_C; CT_C;
   CT_C; CT_C; CT_C; CT_C; CT_C; CT_C; CT_C; CT_C;
   CT_C; CT_C; CT_C; CT_C; CT_C; CT_C; CT_C; CT_C;
   CT_C; CT_C; CT_C; CT_C; CT_C; CT_C; CT_C; CT_C;
   CT_P; CT_P; CT_P; CT_P; CT_P; CT_P; CT_P; CT_P;
   CT_P; CT_P; CT_P; CT_P; CT_P; CT_P; CT_P; CT_P;
   CT_P; CT_P; CT_P; CT_P; CT_P; CT_P; CT_P; CT_P;
   CT_P; CT_P; CT_P; CT_P; CT_P; CT_P; CT_P; CT_P;
   CT_P; CT_P; CT_P; CT_P; CT_P; CT_P; CT_P; CT_P;
   CT_P; CT_P; CT_P; CT_P; CT_P; CT_P; CT_P; CT_P;
   CT_P; CT_P; CT_P; CT_P; CT_P; CT_P; CT_P; CT_P;
   CT_P; CT_P; CT_P; CT_P; CT_P; CT_P; CT_P; CT_P;
   CT_P; CT_P; CT_P; CT_P; CT_P; CT_P; CT_P; CT_P;
   CT_P; CT_P; CT_P; CT_P; CT_P; CT_P; CT_P; CT_P;
   CT_P; CT_P; CT_P; CT_P; CT_P; CT_P; CT_P; CT_P;
   CT_P; CT_P; CT_P; CT_P; CT_P; CT_P; CT_P; CT_P].

Definition C_tolower : list Z :=
  [EOF;
   0x00; 0x01; 0x02; 0x03; 0x04; 0x05; 0x06; 0x07;
   0x08; 0x09; 0x0a; 0x0b; 0x0c; 0x0d; 0x0e; 0x0f;
   0x10; 0x11; 0x12; 0x13; 0x14; 0x15; 0x16; 0x17;
   0x18; 0x19; 0x1a; 0x1b; 0x1c; 0x1d; 0x1e; 0x1f;
   0x20; 0x21; 0x22; 0x23; 0x24; 0x25; 0x26; 0x27;
   0x28; 0x29; 0x2a; 0x2b; 0x2c; 0x2d; 0x2e; 0x2f;
   0x30; 0x31; 0x32; 0x33; 0x34; 0x35; 0x36; 0x37;
   0x38; 0x39; 0x3a; 0x3b; 0x3c; 0x3d; 0x3e; 0x3f;
   0x40; 0x61; 0x62; 0x63; 0x64; 0x65; 0x66; 0x67;
   0x68; 0x69; 0x6a; 0x6b; 0x6c; 0x6d; 0x6e; 0x6f;
   0x70; 0x71; 0x72; 0x73; 0x74; 0x75; 0x76; 0x77;
   0x78; 0x79; 0x7a; 0x5b; 0x5c; 0x5d; 0x5e; 0x5f;
   0x60; 0x61; 0x62; 0x63; 0x64; 0x65; 0x66; 0x67;
   0x68; 0x69; 0x6a; 0x6b; 0x6c; 0x6d; 0x6e; 0x6f;
   0x70; 0x71; 0x72; 0x73; 0x74; 0x75; 0x76; 0x77;
   0x78; 0x79; 0x7a; 0x7b; 0x7c; 0x7d; 0x7e; 0x7f;
   0x80; 0x81; 0x82; 0x83; 0x84; 0x85; 0x86; 0x87;
   0x88; 0x89; 0x8a; 0x8b; 0x8c; 0x8d; 0x8e; 0x8f;
   0x90; 0x91; 0x92; 0x93; 0x94; 0x95; 0x96; 0x97;
   0x98; 0x99; 0x9a; 0x9b; 0x9c; 0x9d; 0x9e; 0x9f;
   0xa0; 0xa1; 0xa2; 0xa3; 0xa4; 0xa5; 0xa6; 0xa7;
   0xa8; 0xa9; 0xaa; 0xab; 0xac; 0xad; 0xae; 0xaf;
   0xb0; 0xb1; 0xb2; 0xb3; 0xb4; 0xb5; 0xb6; 0xb7;
   0xb8; 0xb9; 0xba; 0xbb; 0xbc; 0xbd; 0xbe; 0xbf;
   0xc0; 0xc1; 0xc2; 0xc3; 0xc4; 0xc5; 0xc6; 0xc7;
   0xc8; 0xc9; 0xca; 0xcb; 0xcc; 0xcd; 0xce; 0xcf;
   0xd0; 0xd1; 0xd2; 0xd3; 0xd4; 0xd5; 0xd6; 0xd7;
   0xd8; 0xd9; 0xda; 0xdb; 0xdc; 0xdd; 0xde; 0xdf;
   0xe0; 0xe1; 0xe2; 0xe3; 0xe4; 0xe5; 0xe6; 0xe7;
   0xe8; 0xe9; 0xea; 0xeb; 0xec; 0xed; 0xee; 0xef;
   0xf0; 0xf1; 0xf2; 0xf3; 0xf4; 0xf5; 0xf6; 0xf7;
   0xf8; 0xf9; 0xfa; 0xfb; 0xfc; 0xfd; 0xfe; 0xff].

Definition C_toupper : list Z :=
  [EOF;
   0x00; 0x01; 0x02; 0x03; 0x04; 0x05; 0x06; 0x07;
   0x08; 0x09; 0x0a; 0x0b; 0x0c; 0x0d; 0x0e; 0x0f;
   0x10; 0x11; 0x12; 0x13; 0x14; 0x15; 0x16; 0x17;
   0x18; 0x19; 0x1a; 0x1b; 0x1c; 0x1d; 0x1e; 0x1f;
   0x20; 0x21; 0x22; 0x23; 0x24; 0x25; 0x26; 0x27;
   0x28; 0x29; 0x2a; 0x2b; 0x2c; 0x2d; 0x2e; 0x2f;
   0x30; 0x31; 0x32; 0x33; 0x34; 0x35; 0x36; 0x37;
   0x38; 0x39; 0x3a; 0x3b; 0x3c; 0x3d; 0x3e; 0x3f;
   0x40; 0x41; 0x42; 0x43; 0x44; 0x45; 0x46; 0x47;
   0x48; 0x49; 0x4a; 0x4b; 0x4c; 0x4d; 0x4e; 0x4f;
   0x50; 0x51; 0x52; 0x53; 0x54; 0x55; 0x56; 0x57;
   0x58; 0x59; 0x5a; 0x5b; 0x5c; 0x5d; 0x5e; 0x5f;
   0x60; 0x41; 0x42; 0x43; 0x44; 0x45; 0x46; 0x47;
   0x48; 0x49; 0x4a; 0x4b; 0x4c; 0x4d; 0x4e; 0x4f;
   0x50; 0x51; 0x52; 0x53; 0x54; 0x55; 0x56; 0x57;
   0x58; 0x59; 0x5a; 0x7b; 0x7c; 0x7d; 0x7e; 0x7f;
   0x80; 0x81; 0x82; 0x83; 0x84; 0x85; 0x86; 0x87;
   0x88; 0x89; 0x8a; 0x8b; 0x8c; 0x8d; 0x8e; 0x8f;
   0x90; 0x91; 0x92; 0x93; 0x94; 0x95; 0x96; 0x97;
   0x98; 0x99; 0x9a; 0x9b; 0x9c; 0x9d; 0x9e; 0x9f;
   0xa0; 0xa1; 0xa2; 0xa3; 0xa4; 0xa5; 0xa6; 0xa7;
   0xa8; 0xa9; 0xaa; 0xab; 0xac; 0xad; 0xae; 0xaf;
   0xb0; 0xb1; 0xb2; 0xb3; 0xb4; 0xb5; 0xb6; 0xb7;
   0xb8; 0xb9; 0xba; 0xbb; 0xbc; 0xbd; 0xbe; 0xbf;
   0xc0; 0xc1; 0xc2; 0xc3; 0xc4; 0xc5; 0xc6; 0xc7;
   0xc8; 0xc9; 0xca; 0xcb; 0xcc; 0xcd; 0xce; 0xcf;
   0xd0; 0xd1; 0xd2; 0xd3; 0xd4; 0xd5; 0xd6; 0xd7;
   0xd8; 0xd9; 0xda; 0xdb; 0xdc; 0xdd; 0xde; 0xdf;
   0xe0; 0xe1; 0xe2; 0xe3; 0xe4; 0xe5; 0xe6; 0xe7;
   0xe8; 0xe9; 0xea; 0xeb; 0xec; 0xed; 0xee; 0xef;
   0xf0; 0xf1; 0xf2; 0xf3; 0xf4; 0xf5; 0xf6; 0xf7;
   0xf8; 0xf9; 0xfa; 0xfb; 0xfc; 0xfd; 0xfe; 0xff].

(** The table of strcasecmp.c, whose entries are octal character constants. *)
Definition charmap : list Z :=
  [0; 1; 2; 3; 4; 5; 6; 7; 8; 9; 10; 11; 12; 13; 14; 15;
   16; 17; 18; 19; 20; 21; 22; 23; 24; 25; 26; 27; 28; 29; 30; 31;
   32; 33; 34; 35; 36; 37; 38; 39; 40; 41; 42; 43; 44; 45; 46; 47;
   48; 49; 50; 51; 52; 53; 54; 55; 56; 57; 58; 59; 60; 61; 62; 63;
   64; 97; 98; 99; 100; 101; 102; 103; 104; 105; 106; 107; 108; 109; 110; 111;
   112; 113; 114; 115; 116; 117; 118; 119; 120; 121; 122; 91; 92; 93; 94; 95;
   96; 97; 98; 99; 100; 101; 102; 103; 104; 105; 106; 107; 108; 109; 110; 111;
   112; 113; 114; 115; 116; 117; 118; 119; 120; 121; 122; 123; 124; 125; 126; 127;
   128; 129; 130; 131; 132; 133; 134; 135; 136; 137; 138; 139; 140; 141; 142; 143;
   144; 145; 146; 147; 148; 149; 150; 151; 152; 153; 154; 155; 156; 157; 158; 159;
   160; 161; 162; 163; 164; 165; 166; 167; 168; 169; 170; 171; 172; 173; 174; 175;
   176; 177; 178; 179; 180; 181; 182; 183; 184; 185; 186; 187; 188; 189; 190; 191;
   192; 193; 194; 195; 196; 197; 198; 199; 200; 201; 202; 203; 204; 205; 206; 207;
   208; 209; 210; 211; 212; 213; 214; 215; 216; 217; 218; 219; 220; 221; 222; 223;
   224; 225; 226; 227; 228; 229; 230; 231; 232; 233; 234; 235; 236; 237; 238; 239;
   240; 241; 242; 243; 244; 245; 246; 247; 248; 249; 250; 251; 252; 253; 254; 255].

(** ** The functions *)

(** [(_ctype_ + 1)[(unsigned char)c] & flags], and 0 for EOF. *)
Definition ctype_test (flags c : Z) : Z :=
  if c =? -1 then 0 else nth (Z.to_nat (1 + u8 c)) C_ctype 0 .& flags.

Definition isalnum (c : Z) : Z := ctype_test ((CT_U .| CT_L) .| CT_N) c.
Definition isalpha (c : Z) : Z := ctype_test (CT_U .| CT_L) c.
Definition iscntrl (c : Z) : Z := ctype_test CT_C c.
Definition isdigit (c : Z) : Z := ctype_test CT_N c.
Definition isgraph (c : Z) : Z := ctype_test (((CT_P .| CT_U) .| CT_L) .| CT_N) c.
Definition islower (c : Z) : Z := ctype_test CT_L c.
Definition isprint (c : Z) : Z := ctype_test ((((CT_P .| CT_U) .| CT_L) .| CT_N) .| CT_B) c.
Definition ispunct (c : Z) : Z := ctype_test CT_P c.
Definition isspace (c : Z) : Z := ctype_test CT_S c.
Definition isupper (c : Z) : Z := ctype_test CT_U c.
Definition isxdigit (c : Z) : Z := ctype_test (CT_N .| CT_X) c.
Definition isblank (c : Z) : bool := (c =? 32) || (c =? 9).
Definition isascii (c : Z) : bool := u32 c <=? 127.
Definition toascii (c : Z) : Z := c .& 127.

Definition tolower (c : Z) : Z :=
  if 255 <? u32 c then c else nth (Z.to_nat (1 + c)) C_tolower 0.
Definition toupper (c : Z) : Z :=
  if 255 <? u32 c then c else nth (Z.to_nat (1 + c)) C_toupper 0.

(** [cm[c]] for an unsigned char [c]. *)
Definition cm (c : Z) : Z := nth (Z.to_nat c) charmap 0.

(** ** Finite checks *)

Lemma byte_check (P : Z -> Prop) `{forall b, Decision (P b)} :
  bool_decide (Forall P (seqZ 0 256)) = true -> forall b, 0 <= b < 256 -> P b.
Proof.
  intros HP b Hb. apply bool_decide_eq_true in HP.
  apply (proj1 (list.Forall_forall _ _) HP). apply elem_of_seqZ. lia.
Qed.

(** Decide a property of all 256 bytes by evaluation. *)
Ltac byte_cases b :=
  try match goal with H : 0 <= b < 256 |- _ => revert H end;
  revert b; apply (byte_check _); vm_compute; reflexivity.

Lemma cm_tolower b : 0 <= b < 256 -> cm b = tolower b.
Proof. byte_cases b. Qed.

Lemma tolower_ascii c :
  - 2 ^ 31 <= c < 2 ^ 31 ->
  tolower c = if (65 <=? c) && (c <=? 90) then c + 32 else c.
Proof.
  intros Hc. destruct (decide (0 <= c < 256)) as [Hb|Hb].
  - clear Hc. byte_cases c.
  - unfold tolower, u32.
    replace (255 <? c mod 2 ^ 32) with true by (symmetry; apply Z.ltb_lt; zdm).
    destruct (Z.leb_spec 65 c), (Z.leb_spec c 90); simpl; lia.
Qed.

Lemma toupper_ascii c :
  - 2 ^ 31 <= c < 2 ^ 31 ->
  toupper c = if (97 <=? c) && (c <=? 122) then c - 32 else c.
Proof.
  intros Hc. destruct (decide (0 <= c < 256)) as [Hb|Hb].
  - clear Hc. byte_cases c.
  - unfold toupper, u32.
    replace (255 <? c mod 2 ^ 32) with true by (symmetry; apply Z.ltb_lt; zdm).
    destruct (Z.leb_spec 97 c), (Z.leb_spec c 122); simpl; lia.
Qed.

Lemma isdigit_ascii c : 0 <= c < 256 -> truthy (isdigit c) = ((48 <=? c) && (c <=? 57)).
Proof. byte_cases c. Qed.

Lemma isupper_ascii c : 0 <= c < 256 -> truthy (isupper c) = ((65 <=? c) && (c <=? 90)).
Proof. byte_cases c. Qed.

Lemma isalpha_ascii c :
  0 <= c < 256 ->
  truthy (isalpha c) = ((65 <=? c) && (c <=? 90)) || ((97 <=? c) && (c <=? 122)).
Proof. byte_cases c. Qed.

Lemma isspace_ascii c :
  0 <= c < 256 -> truthy (isspace c) = ((9 <=? c) && (c <=? 13)) || (c =? 32).
Proof. byte_cases c. Qed.

Lemma isxdigit_ascii c :
  0 <= c < 256 ->
  truthy (isxdigit c) = ((48 <=? c) && (c <=? 57)) || ((65 <=? c) && (c <=? 70)) ||
                        ((97 <=? c) && (c <=? 102)).
Proof. byte_cases c. Qed.

(** ** The properties *)

(** The tables classify every byte as the ISO 8859 reading of ASCII does: letters,
    digits, white space, punctuation and control characters are disjoint and
    cover the 256 bytes, isgraph and isprint are what they are made of, and
    toupper and tolower are inverse to each other on letters. *)
Theorem ctype_partition (c : Z) :
  0 <= c < 256 ->
  truthy (isalpha c) = (truthy (isupper c) || truthy (islower c)) /\
  truthy (isalnum c) = (truthy (isalpha c) || truthy (isdigit c)) /\
  truthy (isgraph c) = (truthy (isalnum c) || truthy (ispunct c)) /\
  truthy (isprint c) = (truthy (isgraph c) || (c =? 32)) /\
  truthy (iscntrl c) = negb (truthy (isprint c)) /\
  negb (truthy (isalnum c) && truthy (ispunct c)) = true /\
  truthy (isdigit c) = ((48 <=? c) && (c <=? 57)) /\
  truthy (isspace c) = ((9 <=? c) && (c <=? 13) || (c =? 32)) /\
  (truthy (isupper c) = true -> toupper (tolower c) = c) /\
  (truthy (islower c) = true -> tolower (toupper c) = c) /\
  (truthy (isalpha c) = false -> tolower c = c /\ toupper c = c).
Proof. byte_cases c. Qed.

Lemma ctype_partition_witness :
  truthy (isalpha 65) = (truthy (isupper 65) || truthy (islower 65)) /\
  truthy (isalnum 65) = (truthy (isalpha 65) || truthy (isdigit 65)) /\
  truthy (isgraph 65) = (truthy (isalnum 65) || truthy (ispunct 65)) /\
  truthy (isprint 65) = (truthy (isgraph 65) || (65 =? 32)) /\
  truthy (iscntrl 65) = negb (truthy (isprint 65)) /\
  negb (truthy (isalnum 65) && truthy (ispunct 65)) = true /\
  truthy (isdigit 65) = ((48 <=? 65) && (65 <=? 57)) /\
  truthy (isspace 65) = ((9 <=? 65) && (65 <=? 13) || (65 =? 32)) /\
  (truthy (isupper 65) = true -> toupper (tolower 65) = 65) /\
  (truthy (islower 65) = true -> tolower (toupper 65) = 65) /\
  (truthy (isalpha 65) = false -> tolower 65 = 65 /\ toupper 65 = 65).
Proof. apply (ctype_partition 65). lia. Defined.
