(* ===== verification/Fnmatch.v ===== *)
(** * Pattern matching: libc/unistd/fnmatch.c

    Shell patterns.  A pointer into a string is the list of the characters from it to the NUL;
    characters are bytes (char is unsigned, as on ARM; where it is signed, the ranges of
    bracket expressions order the characters above 127 before the others).  The specification
    takes a pattern apart into tokens and says declaratively which strings they match. *)

From Stdlib Require Import ZArith Lia.
From stdpp Require Import base list numbers.
From S2P Require Import Prelude Ctype.

Open Scope Z_scope.

Definition FNM_NOMATCH : Z := 1.
Definition FNM_NOESCAPE : Z := 0x01.
Definition FNM_PATHNAME : Z := 0x02.
Definition FNM_PERIOD : Z := 0x04.
Definition FNM_LEADING_DIR : Z := 0x08.
Definition FNM_CASEFOLD : Z := 0x10.
Definition EOS : Z := 0.

(** flags & flag *)
Definition has (flags flag : Z) : bool := truthy (Z.land flags flag).

(** *string *)
Definition at_char (s : list Z) : Z := match s with [] => EOS | c :: _ => c end.

(** (char)tolower((unsigned char)c), if FNM_CASEFOLD is set. *)
Definition fold_char (flags c : Z) : Z := if has flags FNM_CASEFOLD then u8 (tolower (u8 c)) else c.

(** ** rangematch *)

(** RANGE_MATCH comes with *newp. *)
Inductive range := RANGE_ERROR | RANGE_NOMATCH | RANGE_MATCH (newp : list Z).

(** The loop over the list: [c] is the character before [pattern]. *)
Fixpoint range_loop (fuel : nat) (flags c : Z) (pattern : list Z) (test : Z) (ok negate : bool) : cres range :=
  match fuel with
  | O => CFuel
  | S fuel =>
      let '(c, pattern) := if (c =? 0x5c) && negb (has flags FNM_NOESCAPE) then (at_char pattern, tail pattern) else (c, pattern) in
      if c =? EOS then CVal RANGE_ERROR
      else if (c =? 0x2f) && has flags FNM_PATHNAME then CVal RANGE_NOMATCH
      else
        let c := fold_char flags c in
        let next ok pattern :=
          if at_char pattern =? 0x5d then CVal (if Bool.eqb ok negate then RANGE_NOMATCH else RANGE_MATCH (tail pattern))
          else range_loop fuel flags (at_char pattern) (tail pattern) test ok negate in
        let c2 := at_char (tail pattern) in
        if (at_char pattern =? 0x2d) && negb (c2 =? EOS) && negb (c2 =? 0x5d) then
          let pattern := drop 2 pattern in
          let '(c2, pattern) := if (c2 =? 0x5c) && negb (has flags FNM_NOESCAPE) then (at_char pattern, tail pattern) else (c2, pattern) in
          if c2 =? EOS then CVal RANGE_ERROR
          else next (ok || ((c <=? test) && (test <=? fold_char flags c2))) pattern
        else next (ok || (c =? test)) pattern
  end.

Definition rangematch (pattern : list Z) (test flags : Z) : cres range :=
  let negate := (at_char pattern =? 0x21) || (at_char pattern =? 0x5e) in
  let pattern := if negate then tail pattern else pattern in
  range_loop (S (length pattern)) flags (at_char pattern) (tail pattern) (fold_char flags test) false negate.

(** ** fnmatch *)

(** A character of the pattern and one of the string. *)
Definition same_char (flags c x : Z) : bool := (c =? x) || (has flags FNM_CASEFOLD && (tolower (u8 c) =? tolower (u8 x))).

(** A period that must be matched by a period.  [before] is what was passed of the string,
    the last character first. *)
Definition leading_period (flags : Z) (string before : list Z) : bool :=
  (at_char string =? 0x2e) && has flags FNM_PERIOD && match before with [] => true | b :: _ => has flags FNM_PATHNAME && (b =? 0x2f) end.

(** What no wildcard matches. *)
Definition no_wild (flags : Z) (string before : list Z) : bool :=
  (at_char string =? EOS) || ((at_char string =? 0x2f) && has flags FNM_PATHNAME) || leading_period flags string before.

Fixpoint skip_stars (pattern : list Z) : list Z :=
  match pattern with
  | [] => []
  | c :: p => if c =? 0x2a then skip_stars p else pattern
  end.

(** strchr(string, '/') *)
Fixpoint to_slash (string before : list Z) : option (list Z * list Z) :=
  match string with
  | [] => None
  | c :: s => if c =? 0x2f then Some (string, before) else to_slash s (c :: before)
  end.

(** The places where a star may end; [f] matches the rest of the pattern there. *)
Fixpoint star_loop (f : list Z -> cres Z) (flags : Z) (string : list Z) : cres Z :=
  match string with
  | [] => CVal FNM_NOMATCH
  | test :: s =>
      r ← f string;
      if r =? 0 then CVal 0
      else if (test =? 0x2f) && has flags FNM_PATHNAME then CVal FNM_NOMATCH
      else star_loop f flags s
  end.

Fixpoint fnmatch_loop (fuel : nat) (flags : Z) (pattern string before : list Z) : cres Z :=
  match fuel with
  | O => CFuel
  | S fuel =>
      let step pattern := fnmatch_loop fuel flags pattern (tail string) (at_char string :: before) in
      let normal c pattern := if negb (same_char flags c (at_char string)) then CVal FNM_NOMATCH else step pattern in
      match pattern with
      | [] =>
          if has flags FNM_LEADING_DIR && (at_char string =? 0x2f) then CVal 0
          else CVal (if at_char string =? EOS then 0 else FNM_NOMATCH)
      | c :: pattern =>
          if c =? 0x3f then
            if no_wild flags string before then CVal FNM_NOMATCH else step pattern
          else if c =? 0x2a then
            let pattern := skip_stars pattern in
            if leading_period flags string before then CVal FNM_NOMATCH
            else if at_char pattern =? EOS then
              if has flags FNM_PATHNAME then
                CVal (if has flags FNM_LEADING_DIR || bool_decide (to_slash string before = None) then 0 else FNM_NOMATCH)
              else CVal 0
            else if (at_char pattern =? 0x2f) && has flags FNM_PATHNAME then
              match to_slash string before with
              | None => CVal FNM_NOMATCH
              | Some (string, before) => fnmatch_loop fuel flags pattern string before
              end
            else star_loop (fun string => fnmatch_loop fuel (Z.land flags (Z.lnot FNM_PERIOD)) pattern string []) flags string
          else if c =? 0x5b then
            if no_wild flags string before then CVal FNM_NOMATCH
            else
              r ← rangematch pattern (at_char string) flags;
              match r with
              | RANGE_ERROR => normal c pattern
              | RANGE_NOMATCH => CVal FNM_NOMATCH
              | RANGE_MATCH newp => step newp
              end
          else if (c =? 0x5c) && negb (has flags FNM_NOESCAPE) then
            match pattern with
            | [] => normal 0x5c []
            | c :: pattern => normal c pattern
            end
          else normal c pattern
      end
  end.

Definition fnmatch (pattern string : list Z) (flags : Z) : cres Z := fnmatch_loop (S (length pattern)) flags pattern string [].

(** ** What a pattern means *)

(** A bracket expression that is not complete; one with a slash where slashes are not
    matched; or the ranges of one, and what follows it. *)
Inductive bracket := Incomplete | Slash | Items (l : list (Z * Z)) (rest : list Z).

(** A character, quoted or not. *)
Definition quoted (flags : Z) (p : list Z) : option (Z * list Z) :=
  match p with
  | [] => None
  | c :: p =>
      if (c =? 0x5c) && negb (has flags FNM_NOESCAPE) then match p with [] => None | c :: p => Some (c, p) end
      else Some (c, p)
  end.

(** The members of a bracket expression, "c" or "c-d"; the first may be "]". *)
Fixpoint members (fuel : nat) (flags : Z) (p : list Z) : bracket :=
  match fuel with
  | O => Incomplete
  | S fuel =>
      let more (i : Z * Z) (p : list Z) :=
        match p with
        | [] => Incomplete
        | c :: p' =>
            if c =? 0x5d then Items [i] p'
            else match members fuel flags p with Items l rest => Items (i :: l) rest | b => b end
        end in
      match quoted flags p with
      | None => Incomplete
      | Some (lo, p) =>
          if (lo =? 0x2f) && has flags FNM_PATHNAME then Slash
          else
            match p with
            | dash :: c :: p' =>
                if (dash =? 0x2d) && negb (c =? 0x5d) then
                  match quoted flags (c :: p') with
                  | None => Incomplete
                  | Some (hi, p) => more (lo, hi) p
                  end
                else more (lo, lo) p
            | _ => more (lo, lo) p
            end
      end
  end.

(** A star; [kept]: the run of stars that it is in ends before a "/". *)
Inductive token :=
| Lit (c : Z)
| Any
| Star (kept : bool)
| Set_ (negate : bool) (l : list (Z * Z))
| Never.

(** "!" or "^" after the bracket negates. *)
Definition negation (p : list Z) : bool := (at_char p =? 0x21) || (at_char p =? 0x5e).
Definition bracket_of (flags : Z) (p : list Z) : bracket :=
  let p := if negation p then tail p else p in members (S (length p)) flags p.

(** Only stars are in front of the first "/". *)
Fixpoint before_slash (p : list Z) : bool :=
  match p with
  | [] => false
  | c :: p => (c =? 0x2f) || ((c =? 0x2a) && before_slash p)
  end.

Fixpoint toks (fuel : nat) (flags : Z) (p : list Z) : list token :=
  match fuel with
  | O => []
  | S fuel =>
      match p with
      | [] => []
      | c :: p =>
          if c =? 0x3f then Any :: toks fuel flags p
          else if c =? 0x2a then Star (before_slash p) :: toks fuel flags p
          else if c =? 0x5b then
            match bracket_of flags p with
            | Incomplete => Lit 0x5b :: toks fuel flags p
            | Slash => [Never]
            | Items l rest => Set_ (negation p) l :: toks fuel flags rest
            end
          else
            match quoted flags (c :: p) with
            | None => [Lit 0x5c]
            | Some (c, p) => Lit c :: toks fuel flags p
            end
      end
  end.

(** The tokens of a pattern; none takes less than a character. *)
Definition tokens (flags : Z) (p : list Z) : list token := toks (length p) flags p.

Definition in_set (flags : Z) (l : list (Z * Z)) (x : Z) : bool :=
  existsb (fun i => (fold_char flags i.1 <=? fold_char flags x) && (fold_char flags x <=? fold_char flags i.2)) l.

(** A slash, where only a slash matches it. *)
Definition is_slash (flags x : Z) : Prop := has flags FNM_PATHNAME = true /\ x = 0x2f.

Inductive matches (flags : Z) : list token -> list Z -> Prop :=
| m_end : matches flags [] []
| m_dir s : has flags FNM_LEADING_DIR = true -> matches flags [] (0x2f :: s)
| m_lit c ts x s : same_char flags c x = true -> matches flags ts s -> matches flags (Lit c :: ts) (x :: s)
| m_any ts x s : ~ is_slash flags x -> matches flags ts s -> matches flags (Any :: ts) (x :: s)
| m_set n l ts x s : ~ is_slash flags x -> in_set flags l x = negb n -> matches flags ts s -> matches flags (Set_ n l :: ts) (x :: s)
| m_star k ts s1 s2 : (forall x, x ∈ s1 -> ~ is_slash flags x) -> matches flags ts s2 -> matches flags (Star k :: ts) (s1 ++ s2).

(** With FNM_PERIOD: [start] says that a period is a leading one here, at the start of
    the string and, with FNM_PATHNAME, after a slash; a wildcard does not match it.  The
    code matches what follows a star without FNM_PERIOD, except a star that stands before
    a slash with FNM_PATHNAME. *)
Inductive pmatches (flags : Z) : bool -> list token -> list Z -> Prop :=
| p_end start : pmatches flags start [] []
| p_dir start s : has flags FNM_LEADING_DIR = true -> pmatches flags start [] (0x2f :: s)
| p_lit start c ts x s : same_char flags c x = true -> pmatches flags (has flags FNM_PATHNAME && (x =? 0x2f)) ts s ->
    pmatches flags start (Lit c :: ts) (x :: s)
| p_any start ts x s : ~ is_slash flags x -> (start = true -> x <> 0x2e) -> pmatches flags false ts s ->
    pmatches flags start (Any :: ts) (x :: s)
| p_set start n l ts x s : ~ is_slash flags x -> (start = true -> x <> 0x2e) -> in_set flags l x = negb n -> pmatches flags false ts s ->
    pmatches flags start (Set_ n l :: ts) (x :: s)
| p_star start k ts s : k && has flags FNM_PATHNAME = false -> (start = true -> at_char s <> 0x2e) ->
    matches flags (Star k :: ts) s -> pmatches flags start (Star k :: ts) s
| p_star_slash start ts s1 s2 : has flags FNM_PATHNAME = true -> (start = true -> at_char (s1 ++ s2) <> 0x2e) ->
    0x2f ∉ s1 -> pmatches flags (start && bool_decide (s1 = [])) ts s2 -> pmatches flags start (Star true :: ts) (s1 ++ s2).

(** What a pattern denotes. *)
Definition denotes (flags : Z) (ts : list token) (s : list Z) : Prop :=
  if has flags FNM_PERIOD then pmatches flags true ts s else matches flags ts s.

(** A period at the start is matched by a character only. *)
Definition period_ok (flags : Z) (ts : list token) (s : list Z) : Prop :=
  has flags FNM_PERIOD = true -> at_char s = 0x2e -> exists c ts', ts = Lit c :: ts'.

(** ** Bracket expressions *)

Lemma at_char_not_nul (p : list Z) c : c <> EOS -> at_char p = c -> exists p', p = c :: p'.
Proof. destruct p as [|d p]; cbn; intros Hc He; [congruence|]. subst d. by exists p. Qed.

(** How the code reads a character that may be quoted. *)
Lemma quoted_read flags c p : 0 ∉ c :: p ->
  let r := if (c =? 0x5c) && negb (has flags FNM_NOESCAPE) then (at_char p, tail p) else (c, p) in
  match quoted flags (c :: p) with
  | None => r.1 = EOS
  | Some (c', p') => r = (c', p') /\ c' <> EOS /\ (length p' < length (c :: p))%nat /\ 0 ∉ p'
  end.
Proof.
  intros H%not_elem_of_cons. destruct H as [Hc Hp]. cbn [quoted length]. cbv zeta. unfold EOS. destruct (_ && _).
  - destruct p as [|d p]; [done|]. apply not_elem_of_cons in Hp as [Hd Hp]. cbn. split; [done|]. split; [congruence|]. split; [lia|done].
  - split; [done|]. split; [congruence|]. split; [lia|done].
Qed.

Definition range_of (flags test : Z) (ok negate : bool) (b : bracket) : range :=
  match b with
  | Incomplete => RANGE_ERROR
  | Slash => RANGE_NOMATCH
  | Items l rest => if Bool.eqb (ok || in_set flags l test) negate then RANGE_NOMATCH else RANGE_MATCH rest
  end.

Lemma in_range_one flags c x : (fold_char flags c <=? x) && (x <=? fold_char flags c) = (fold_char flags c =? x).
Proof. do 3 bcase; done || lia. Qed.

Lemma range_loop_members fuel flags p test ok negate : (length p < fuel)%nat -> 0 ∉ p ->
  range_loop fuel flags (at_char p) (tail p) (fold_char flags test) ok negate = CVal (range_of flags test ok negate (members fuel flags p)).
Proof.
  revert p ok. induction fuel as [|fuel IH]; intros p ok Hf Hp; [lia|]. cbn [range_loop members]. destruct p as [|c p].
  { cbn [at_char tail quoted]. unfold EOS. by destruct (_ && _). }
  cbn [at_char tail]. pose proof (quoted_read flags c p Hp) as Hq. cbv zeta in Hq. destruct (quoted flags (c :: p)) as [[lo p']|];
    [|destruct (if (c =? 0x5c) && negb (has flags FNM_NOESCAPE) then (at_char p, tail p) else (c, p)) as [c' p']; cbn in Hq; subst c'; done].
  destruct Hq as (-> & Hlo & Hl & Hp'). rewrite (proj2 (Z.eqb_neq lo EOS)) by done. destruct (_ && _); [done|].
  set (x := fold_char flags test) in *.
  assert (forall hi s ok', (length s < length (c :: p))%nat -> 0 ∉ s -> ok' = ok || ((fold_char flags lo <=? x) && (x <=? fold_char flags hi)) ->
    (if at_char s =? 0x5d then CVal (if Bool.eqb ok' negate then RANGE_NOMATCH else RANGE_MATCH (tail s)) else range_loop fuel flags (at_char s) (tail s) x ok' negate) =
    CVal (range_of flags test ok negate (match s with [] => Incomplete | c :: s' => if c =? 0x5d then Items [(lo, hi)] s'
      else match members fuel flags s with Items l rest => Items ((lo, hi) :: l) rest | b => b end end))) as Hmore.
  { intros hi s ok' Hs H0 ->. destruct s as [|d s]; [cbn [at_char]; change (EOS =? 0x5d) with false; cbv iota; change EOS with (at_char []); rewrite (IH []) by (cbn in *; done || lia); destruct fuel; [cbn in *; lia|done]|].
    cbn [at_char]. destruct (Z.eqb_spec d 0x5d).
    - cbn [tail range_of in_set]. unfold in_set. cbn [existsb fst snd]. fold x. by rewrite orb_false_r.
    - pose proof (IH (d :: s) (ok || ((fold_char flags lo <=? x) && (x <=? fold_char flags hi))) ltac:(cbn in *; lia) H0) as E. cbn [at_char] in E. rewrite E. f_equal. destruct (members fuel flags (d :: s)) as [| |l rest]; try done.
      cbn [range_of]. unfold in_set. cbn [existsb fst snd]. fold x.
      by rewrite orb_assoc. }
  destruct p' as [|dash p']; [cbn [at_char]; change (0 =? 0x2d) with false; cbn [andb]; apply (Hmore lo []); [cbn; lia|done|by rewrite in_range_one]|].
  cbn [at_char tail]. destruct p' as [|c2 p'].
  { cbn [at_char]. change (0 =? EOS) with true. rewrite andb_false_r. cbn [andb]. apply (Hmore lo [dash]); [cbn in *; lia|done|by rewrite in_range_one]. }
  cbn [at_char]. pose proof Hp' as [_ H2]%not_elem_of_cons. pose proof H2 as [Hc2 _]%not_elem_of_cons. rewrite (proj2 (Z.eqb_neq c2 EOS)) by (unfold EOS; congruence). cbn [negb]. rewrite andb_true_r.
  destruct (dash =? 0x2d); cbn [andb]; [|apply (Hmore lo (dash :: c2 :: p')); [done|done|by rewrite in_range_one]].
  destruct (c2 =? 0x5d); cbn [negb]; [apply (Hmore lo (dash :: c2 :: p')); [done|done|by rewrite in_range_one]|].
  cbn [drop]. rewrite ?drop_0. pose proof (quoted_read flags c2 p' H2) as Hq. cbv zeta in Hq. destruct (quoted flags (c2 :: p')) as [[hi s]|].
  - destruct Hq as (-> & Hhi & Hs & H0). rewrite (proj2 (Z.eqb_neq hi EOS)) by done. apply Hmore; [cbn in *; lia|done|done].
  - destruct (if (c2 =? 0x5c) && negb (has flags FNM_NOESCAPE) then (at_char p', tail p') else (c2, p')) as [c' s]. cbn in Hq. by subst c'.
Qed.

Lemma negated_not_nul p : 0 ∉ p -> 0 ∉ (if negation p then tail p else p).
Proof. destruct (negation p); [|done]. destruct p as [|c p]; [done|]. by intros [_ H]%not_elem_of_cons. Qed.

Lemma rangematch_spec p test flags : 0 ∉ p -> rangematch p test flags = CVal (range_of flags test false (negation p) (bracket_of flags p)).
Proof.
  intros H. unfold rangematch, bracket_of. fold (negation p). apply range_loop_members; [lia|by apply negated_not_nul].
Qed.

(** What follows a bracket expression is shorter, and free of NULs. *)
Lemma quoted_rest flags p c s : 0 ∉ p -> quoted flags p = Some (c, s) -> (length s < length p)%nat /\ 0 ∉ s /\ c <> 0.
Proof.
  destruct p as [|d p]; [done|]. intros H E. pose proof (quoted_read flags d p H) as Hq. cbv zeta in Hq. rewrite E in Hq. tauto.
Qed.

Lemma members_rest fuel flags p l rest : 0 ∉ p -> members fuel flags p = Items l rest -> (length rest < length p)%nat /\ 0 ∉ rest.
Proof.
  revert p l. induction fuel as [|fuel IH]; intros p l Hp; cbn [members]; [done|]. destruct (quoted flags p) as [[lo p']|] eqn:Eq; [|done].
  destruct (quoted_rest _ _ _ _ Hp Eq) as (Hl & Hp' & _). destruct (_ && _); [done|].
  assert (forall (i : Z * Z) s, (length s < length p)%nat -> 0 ∉ s ->
    match s with [] => Incomplete | c :: s' => if c =? 0x5d then Items [i] s' else match members fuel flags s with Items l rest => Items (i :: l) rest | b => b end end = Items l rest ->
    (length rest < length p)%nat /\ 0 ∉ rest) as Hmore.
  { intros i [|c s] Hs H0; [done|]. pose proof H0 as [_ H1]%not_elem_of_cons. destruct (c =? 0x5d); [intros [= _ <-]; cbn in Hs; split; [lia|done]|].
    destruct (members fuel flags (c :: s)) as [| |l' r] eqn:E; try done. intros [= _ <-]. destruct (IH _ _ H0 E). split; [lia|done]. }
  destruct p' as [|dash [|c p']]; [done|by apply (Hmore (lo, lo) [dash])|]. destruct ((dash =? 0x2d) && _); [|by apply (Hmore (lo, lo) (dash :: c :: p'))].
  apply not_elem_of_cons in Hp' as [_ Hp']. destruct (quoted flags (c :: p')) as [[hi s]|] eqn:E; [|done].
  destruct (quoted_rest _ _ _ _ Hp' E) as (Hs & H0 & _). apply Hmore; [cbn in *; lia|done].
Qed.

Lemma bracket_rest flags p l rest : 0 ∉ p -> bracket_of flags p = Items l rest -> (length rest < length p)%nat /\ 0 ∉ rest.
Proof.
  intros H E. apply members_rest in E as [H1 H2]; [|by apply negated_not_nul]. split; [|done]. destruct (negation p); [|done]. destruct p; cbn in *; lia.
Qed.

(** ** Tokens *)

Lemma toks_fuel n m flags p : 0 ∉ p -> (length p <= n)%nat -> (length p <= m)%nat -> toks n flags p = toks m flags p.
Proof.
  revert m p. induction n as [|n IH]; intros m p H0 Hn Hm; [destruct p; [by destruct m|cbn in Hn; lia]|].
  destruct p as [|c p]; [by destruct m|]. destruct m as [|m]; [cbn in Hm; lia|]. cbn [length] in *. cbn [toks]. pose proof H0 as [_ Hp]%not_elem_of_cons.
  rewrite (IH m p Hp) by lia. destruct (c =? 0x3f); [done|]. destruct (c =? 0x2a); [done|]. destruct (c =? 0x5b).
  - destruct (bracket_of flags p) as [| |l rest] eqn:E; try done. destruct (bracket_rest _ _ _ _ Hp E). f_equal. apply IH; done || lia.
  - destruct (quoted flags (c :: p)) as [[d s]|] eqn:E; [|done]. destruct (quoted_rest _ _ _ _ H0 E) as (Hs & H1 & _). cbn in Hs. f_equal. apply IH; done || lia.
Qed.

(** The tokens of a pattern that is not empty. *)
Lemma tokens_cons flags c p : 0 ∉ c :: p -> tokens flags (c :: p) =
  if c =? 0x3f then Any :: tokens flags p
  else if c =? 0x2a then Star (before_slash p) :: tokens flags p
  else if c =? 0x5b then
    match bracket_of flags p with
    | Incomplete => Lit 0x5b :: tokens flags p
    | Slash => [Never]
    | Items l rest => Set_ (negation p) l :: tokens flags rest
    end
  else match quoted flags (c :: p) with None => [Lit 0x5c] | Some (c, p) => Lit c :: tokens flags p end.
Proof.
  intros H0. unfold tokens. cbn [length toks]. pose proof H0 as [_ Hp]%not_elem_of_cons. destruct (c =? 0x3f); [done|]. destruct (c =? 0x2a); [done|]. destruct (c =? 0x5b).
  - destruct (bracket_of flags p) as [| |l rest] eqn:E; try done. destruct (bracket_rest _ _ _ _ Hp E). f_equal. apply toks_fuel; done || lia.
  - destruct (quoted flags (c :: p)) as [[d s]|] eqn:E; [|done]. destruct (quoted_rest _ _ _ _ H0 E) as (Hs & H1 & _). cbn in Hs. f_equal. apply toks_fuel; done || lia.
Qed.

(** The parts of a pattern are made of its characters. *)
Lemma quoted_in flags p c s : quoted flags p = Some (c, s) -> c ∈ p /\ s ⊆ p.
Proof.
  destruct p as [|d p]; [done|]. cbn [quoted]. destruct (_ && _); [destruct p as [|e p]; [done|]|]; intros [= <- <-].
  - split; [right; left|]. intros x Hx. by do 2 right.
  - split; [left|]. intros x Hx. by right.
Qed.

Lemma members_in fuel flags p l rest : members fuel flags p = Items l rest -> rest ⊆ p.
Proof.
  revert p l. induction fuel as [|fuel IH]; intros p l; cbn [members]; [done|]. destruct (quoted flags p) as [[lo p']|] eqn:Eq; [|done].
  apply quoted_in in Eq as [_ Hs]. destruct (_ && _); [done|].
  assert (forall (i : Z * Z) s, s ⊆ p ->
    match s with [] => Incomplete | c :: s' => if c =? 0x5d then Items [i] s' else match members fuel flags s with Items l rest => Items (i :: l) rest | b => b end end = Items l rest -> rest ⊆ p) as Hmore.
  { intros i [|c s] Hin; [done|]. destruct (c =? 0x5d); [intros [= _ <-] x Hx; apply Hin; by right|].
    destruct (members fuel flags (c :: s)) as [| |l' r] eqn:E; try done. intros [= _ <-] x Hx. apply Hin. by apply (IH _ _ E). }
  destruct p' as [|dash [|c p']]; [done|by apply (Hmore (lo, lo) [dash])|]. destruct ((dash =? 0x2d) && _); [|by apply (Hmore (lo, lo) (dash :: c :: p'))].
  destruct (quoted flags (c :: p')) as [[hi s]|] eqn:E; [|done]. apply quoted_in in E as [_ Hs']. apply Hmore. intros x Hx. apply Hs. right. by apply Hs'.
Qed.

Lemma bracket_in flags p l rest : bracket_of flags p = Items l rest -> rest ⊆ p.
Proof.
  intros E. apply members_in in E. destruct (negation p); [|done]. intros x Hx. specialize (E x Hx). destruct p; [done|by right].
Qed.

(** ** The answer *)

Definition chars_ok (s : list Z) : Prop := Forall (fun c => 0 < c < 256) s.

Lemma chars_nul s : chars_ok s -> 0 ∉ s.
Proof. intros H Hin. apply (proj1 (list.Forall_forall _ _) H) in Hin. lia. Qed.

Lemma chars_sub s p : chars_ok p -> s ⊆ p -> chars_ok s.
Proof. intros H Hs. apply list.Forall_forall. intros x Hx. by apply (proj1 (list.Forall_forall _ _) H), Hs. Qed.

Definition decides (c : cres Z) (P : Prop) : Prop := exists r, c = CVal r /\ ((r = 0 /\ P) \/ (r = FNM_NOMATCH /\ ~ P)).

Lemma decides_no (P : Prop) : ~ P -> decides (CVal FNM_NOMATCH) P.
Proof. intros H. eexists. split; [done|]. by right. Qed.

Lemma decides_yes (P : Prop) : P -> decides (CVal 0) P.
Proof. intros H. eexists. split; [done|]. by left. Qed.

Lemma decides_iff c (P Q : Prop) : (P <-> Q) -> decides c P -> decides c Q.
Proof. intros H (r & -> & Hr). exists r. split; [done|]. tauto. Qed.

Lemma decides_if (b : bool) (P : Prop) : (b = true <-> P) -> decides (CVal (if b then 0 else FNM_NOMATCH)) P.
Proof. intros H. destruct b; [apply decides_yes; tauto|apply decides_no]. intros HP. by apply H in HP. Qed.

Ltac inv_match := let Hm := fresh "Hm" in intros Hm; inversion Hm; subst.

Lemma matches_lit flags c ts s : matches flags (Lit c :: ts) s <-> exists x s', s = x :: s' /\ same_char flags c x = true /\ matches flags ts s'.
Proof. split; [inv_match; eauto|]. intros (x & s' & -> & H1 & H2). by constructor. Qed.

Lemma matches_any flags ts s : matches flags (Any :: ts) s <-> exists x s', s = x :: s' /\ ~ is_slash flags x /\ matches flags ts s'.
Proof. split; [inv_match; eauto|]. intros (x & s' & -> & H1 & H2). by constructor. Qed.

Lemma matches_set flags n l ts s : matches flags (Set_ n l :: ts) s <->
  exists x s', s = x :: s' /\ ~ is_slash flags x /\ in_set flags l x = negb n /\ matches flags ts s'.
Proof. split; [inv_match; eauto 6|]. intros (x & s' & -> & H1 & H2 & H3). by constructor. Qed.

Lemma matches_star flags k ts s : matches flags (Star k :: ts) s <->
  exists s1 s2, s = s1 ++ s2 /\ (forall x, x ∈ s1 -> ~ is_slash flags x) /\ matches flags ts s2.
Proof. split; [inv_match; eauto|]. intros (s1 & s2 & -> & H1 & H2). by constructor. Qed.

Lemma matches_star_star flags k k' ts s : matches flags (Star k :: Star k' :: ts) s <-> matches flags (Star k :: ts) s.
Proof.
  rewrite matches_star. split.
  - intros (s1 & s2 & -> & H1 & (s3 & s4 & -> & H3 & H4)%matches_star). rewrite app_assoc. constructor; [|done].
    intros x [Hx|Hx]%elem_of_app; auto.
  - intros (s1 & s2 & -> & H)%matches_star. exists [], (s1 ++ s2). split; [done|]. split; [by intros x ?%not_elem_of_nil|].
    apply matches_star. eauto.
Qed.

Lemma matches_stars flags k p s : 0 ∉ p -> matches flags (Star k :: tokens flags (skip_stars p)) s <-> matches flags (Star k :: tokens flags p) s.
Proof.
  induction p as [|c p IH]; intros H; cbn [skip_stars]; [done|]. pose proof H as [_ Hp]%not_elem_of_cons. destruct (Z.eqb_spec c 0x2a) as [->|]; [|done].
  rewrite tokens_cons by done. change (0x2a =? 0x3f) with false. change (0x2a =? 0x2a) with true. cbv iota. rewrite matches_star_star. by apply IH.
Qed.

Lemma before_slash_spec p : before_slash p = (at_char (skip_stars p) =? 0x2f).
Proof.
  induction p as [|c p IH]; [done|]. cbn [before_slash skip_stars]. rewrite IH. destruct (Z.eqb_spec c 0x2a) as [->|]; [done|].
  cbn [at_char andb]. by rewrite orb_false_r.
Qed.

Lemma skip_stars_spec p : skip_stars p ⊆ p /\ (length (skip_stars p) <= length p)%nat /\ at_char (skip_stars p) <> 0x2a.
Proof.
  induction p as [|c p (IH1 & IH2 & IH3)]; [done|]. cbn [skip_stars]. destruct (Z.eqb_spec c 0x2a) as [->|]; [|done].
  split; [intros x Hx; right; auto|]. cbn [length]. split; [lia|done].
Qed.

(** Only a star matches the empty string. *)
Lemma tokens_empty flags p : 0 ∉ p -> p <> [] -> at_char p <> 0x2a -> ~ matches flags (tokens flags p) [].
Proof.
  intros H0 Hne Hs. destruct p as [|c p]; [done|]. cbn [at_char] in Hs. rewrite tokens_cons by done. rewrite (proj2 (Z.eqb_neq c 0x2a)) by done.
  destruct (c =? 0x3f); [by inv_match|]. destruct (c =? 0x5b); [destruct (bracket_of flags p); by inv_match|]. destruct (quoted flags (c :: p)) as [[d s]|]; by inv_match.
Qed.

Lemma to_slash_spec s before : match to_slash s before with
  | None => 0x2f ∉ s
  | Some (s', before') => exists s1, s = s1 ++ s' /\ 0x2f ∉ s1 /\ s' <> [] /\ at_char s' = 0x2f
  end.
Proof.
  revert before. induction s as [|c s IH]; intros before; cbn [to_slash]; [apply not_elem_of_nil|]. destruct (Z.eqb_spec c 0x2f) as [->|Hc].
  - exists []. split; [done|]. split; [apply not_elem_of_nil|done].
  - specialize (IH (c :: before)). destruct (to_slash s (c :: before)) as [[s' b']|]; [|apply not_elem_of_cons; split; [congruence|done]].
    destruct IH as (s1 & -> & H1 & H2). exists (c :: s1). split; [done|]. split; [|done]. apply not_elem_of_cons. split; [congruence|done].
Qed.

(** Flags that differ in FNM_PERIOD only. *)
Definition agree (f g : Z) : Prop :=
  has f FNM_NOESCAPE = has g FNM_NOESCAPE /\ has f FNM_PATHNAME = has g FNM_PATHNAME /\ has f FNM_LEADING_DIR = has g FNM_LEADING_DIR /\ has f FNM_CASEFOLD = has g FNM_CASEFOLD.

Lemma no_period flags : agree (Z.land flags (Z.lnot FNM_PERIOD)) flags /\ has (Z.land flags (Z.lnot FNM_PERIOD)) FNM_PERIOD = false.
Proof. unfold agree, has. rewrite <- !Z.land_assoc. split; [done|]. change (Z.land (Z.lnot FNM_PERIOD) FNM_PERIOD) with 0. by rewrite Z.land_0_r. Qed.

Lemma quoted_agree f g p : agree f g -> quoted f p = quoted g p.
Proof. intros (H1 & _). destruct p; cbn [quoted]; by rewrite ?H1. Qed.

Lemma members_agree f g fuel p : agree f g -> members fuel f p = members fuel g p.
Proof.
  intros H. pose proof H as (H1 & H2 & _). revert p. induction fuel as [|fuel IH]; intros p; [done|]. cbn [members]. rewrite (quoted_agree f g p H), H2.
  destruct (quoted g p) as [[lo p']|]; [|done]. destruct (_ && _); [done|]. destruct p' as [|d [|c p']]; [done|by rewrite IH|]. rewrite (quoted_agree f g (c :: p') H).
  destruct (_ && _); [destruct (quoted g (c :: p')) as [[hi [|e s]]|]; by rewrite ?IH|by rewrite IH].
Qed.

Lemma toks_agree f g fuel p : agree f g -> toks fuel f p = toks fuel g p.
Proof.
  intros H. revert p. induction fuel as [|fuel IH]; intros p; [done|]. cbn [toks]. destruct p as [|c p]; [done|]. rewrite !IH, (quoted_agree f g (c :: p) H).
  unfold bracket_of. rewrite (members_agree f g _ _ H). destruct (members _ g _); rewrite ?IH; try done; destruct (quoted g (c :: p)) as [[d s]|]; by rewrite ?IH.
Qed.

Lemma matches_agree f g ts s : agree f g -> matches f ts s -> matches g ts s.
Proof.
  intros (_ & H2 & H3 & H4). unfold agree in *. induction 1; constructor; unfold is_slash, in_set, same_char, fold_char in *; rewrite <- ?H2, <- ?H3, <- ?H4; done.
Qed.

Lemma agree_sym f g : agree f g -> agree g f.
Proof. intros (H1 & H2 & H3 & H4). repeat split; congruence. Qed.

(** No period has to be matched by a period. *)
Definition free (flags : Z) : Prop := has flags FNM_PERIOD = false.

Lemma free_period flags string before : free flags -> leading_period flags string before = false.
Proof. unfold leading_period. intros ->. by rewrite andb_false_r. Qed.

Lemma same_char_nul flags c : 0 < c < 256 -> same_char flags c 0 = false.
Proof.
  intros Hc. unfold same_char. rewrite (proj2 (Z.eqb_neq c 0)) by lia. cbn [orb].
  assert (negb (tolower (u8 c) =? tolower (u8 0)) = true) as E by (apply (range_check (fun c => negb (tolower (u8 c) =? tolower (u8 0))) 1 255); [vm_compute; reflexivity|lia]).
  apply negb_true_iff in E. rewrite E. apply andb_false_r.
Qed.

(** A place where a star may end. *)
Lemma star_loop_decides f flags (P : list Z -> Prop) s : (forall s', chars_ok s' -> decides (f s') (P s')) -> ~ P [] -> chars_ok s ->
  decides (star_loop f flags s) (exists s1 s2, s = s1 ++ s2 /\ (forall x, x ∈ s1 -> ~ is_slash flags x) /\ P s2).
Proof.
  intros Hf Hnil. induction s as [|x s IH]; intros Hs; cbn [star_loop].
  { apply decides_no. intros (s1 & s2 & E & _ & H). symmetry in E. apply app_eq_nil in E as [-> ->]. done. }
  destruct (Hf (x :: s) Hs) as (r & -> & Hr). cbn [mbind cres_bind]. destruct Hr as [[-> HP]|[-> HP]].
  { change (0 =? 0) with true. apply decides_yes. exists [], (x :: s). split; [done|]. split; [by intros y ?%not_elem_of_nil|done]. }
  change (FNM_NOMATCH =? 0) with false. cbv iota. destruct ((x =? 0x2f) && has flags FNM_PATHNAME) eqn:E.
  - zbool. apply decides_no. intros ([|y s1] & s2 & Eq & H1 & H2); [cbn in Eq; by subst s2|]. cbn in Eq. injection Eq as -> ->. apply (H1 y); [left|by split].
  - eapply decides_iff; [|apply IH; by apply Forall_cons_1 in Hs as [_ Hs]]. split.
    + intros (s1 & s2 & -> & H1 & H2). exists (x :: s1), s2. split; [done|]. split; [|done]. intros y [->|Hy]%elem_of_cons; [|auto].
      intros [Hp ->]. rewrite Hp in E. done.
    + intros ([|y s1] & s2 & Eq & H1 & H2); [cbn in Eq; by subst s2|]. cbn in Eq. injection Eq as -> ->. exists s1, s2. split; [done|]. split; [|done]. intros z Hz. apply H1. by right.
Qed.

(** A star at the end of the pattern. *)
Lemma star_end flags s before : 0 ∉ s ->
  decides (if has flags FNM_PATHNAME then CVal (if has flags FNM_LEADING_DIR || bool_decide (to_slash s before = None) then 0 else FNM_NOMATCH) else CVal 0)
    (matches flags [Star false] s).
Proof.
  intros H0. destruct (has flags FNM_PATHNAME) eqn:Ep.
  2: { apply decides_yes. rewrite <- (app_nil_r s). constructor; [|constructor]. intros x _ [Hx _]. congruence. }
  pose proof (to_slash_spec s before) as Hs. apply decides_if. destruct (to_slash s before) as [[s' b']|].
  - rewrite bool_decide_false, orb_false_r by done. destruct Hs as (s1 & -> & H1 & Hne & Hc). split.
    + intros Hd. constructor; [intros x Hx [_ ->]; done|]. destruct s' as [|c s']; [done|]. cbn in Hc. subst c. by constructor.
    + intros (s3 & s4 & E & H3 & H4)%matches_star. inversion H4; subst; [|done]. exfalso. rewrite app_nil_r in E. subst s3. destruct s' as [|c s']; [done|].
      apply (H3 0x2f); [|by split]. cbn in Hc. subst c. apply elem_of_app. right. left.
  - rewrite bool_decide_true by done. rewrite orb_true_r. split; [|done]. intros _. rewrite <- (app_nil_r s). constructor; [|constructor]. intros x Hx [_ ->]. done.
Qed.

Lemma same_slash flags x : 0 < x < 256 -> same_char flags 0x2f x = (0x2f =? x).
Proof.
  intros Hx. unfold same_char. destruct (Z.eqb_spec 0x2f x) as [|Hne]; [done|]. cbn [orb].
  assert ((0x2f =? x) || negb (tolower (u8 0x2f) =? tolower (u8 x)) = true) as E
    by (apply (range_check (fun x => (0x2f =? x) || negb (tolower (u8 0x2f) =? tolower (u8 x))) 1 255); [vm_compute; reflexivity|lia]).
  rewrite (proj2 (Z.eqb_neq _ _) Hne) in E. cbn [orb] in E. apply negb_true_iff in E. rewrite E. apply andb_false_r.
Qed.

(** The first slash is where it is. *)
Lemma first_slash (s1 s2 s3 s4 : list Z) : s1 ++ s2 = s3 ++ s4 -> 0x2f ∉ s1 -> 0x2f ∉ s3 -> s2 <> [] -> s4 <> [] -> at_char s2 = 0x2f -> at_char s4 = 0x2f -> s2 = s4.
Proof.
  intros E H1 H3 N2 N4 H2 H4. destruct s2 as [|a s2]; [done|]. destruct s4 as [|b s4]; [done|]. cbn in H2, H4. subst a b.
  revert s3 E H3. induction s1 as [|x s1 IH]; intros [|y s3] E H3; cbn in E.
  - by injection E as ->.
  - injection E as E1 E2. exfalso. subst y. apply H3. left.
  - injection E as E1 E2. exfalso. subst x. apply H1. left.
  - injection E as E1 E2. subst y. apply not_elem_of_cons in H1 as [_ H1]. apply not_elem_of_cons in H3 as [_ H3]. by apply (IH H1 s3).
Qed.

(** A star before a slash, where slashes are matched by themselves only. *)
Lemma star_slash flags p s s1 s' : has flags FNM_PATHNAME = true -> chars_ok s -> s = s1 ++ s' -> 0x2f ∉ s1 -> s' <> [] -> at_char s' = 0x2f ->
  matches flags (Star true :: Lit 0x2f :: p) s <-> matches flags (Lit 0x2f :: p) s'.
Proof.
  intros Hp Hs -> H1 Hne Hc. split.
  - intros (s3 & s4 & E & H3 & (x & s5 & -> & Hx & Hm)%matches_lit)%matches_star.
    assert (x ∈ s1 ++ s') as Hin by (rewrite E; apply elem_of_app; right; left). apply (proj1 (list.Forall_forall _ _) Hs) in Hin.
    rewrite same_slash in Hx by done. apply Z.eqb_eq in Hx as <-.
    assert (s' = 0x2f :: s5) as -> by (apply (first_slash s1 s' s3 (0x2f :: s5)); try done; intros Hi; by apply (H3 _ Hi)). by constructor.
  - intros Hm. constructor; [intros x Hx [_ ->]; done|done].
Qed.

Lemma no_wild_not flags s before : free flags -> no_wild flags s before = false -> exists x s', s = x :: s' /\ ~ is_slash flags x.
Proof.
  intros Hf. unfold no_wild. rewrite (free_period _ _ _ Hf), orb_false_r. intros [H1 H2]%orb_false_iff. destruct s as [|x s]; [done|]. exists x, s. split; [done|].
  cbn [at_char] in H2. intros [Hp ->]. rewrite Hp in H2. done.
Qed.

Lemma no_wild_bars flags s before : free flags -> no_wild flags s before = true -> forall x s', s = x :: s' -> 0 ∉ s -> is_slash flags x.
Proof.
  intros Hf. unfold no_wild. rewrite (free_period _ _ _ Hf), orb_false_r. intros H x s' -> [Hx _]%not_elem_of_cons. cbn [at_char] in H. unfold EOS in H.
  rewrite (proj2 (Z.eqb_neq x 0)) in H by congruence. cbn [orb] in H. zbool. by split.
Qed.

Lemma fnmatch_loop_decides fuel flags p s before : (length p < fuel)%nat -> chars_ok p -> chars_ok s -> free flags ->
  decides (fnmatch_loop fuel flags p s before) (matches flags (tokens flags p) s).
Proof.
  revert flags p s before. induction fuel as [|fuel IH]; intros flags p s before Hl Hp Hs Hf; [lia|]. pose proof (chars_nul p Hp) as H0. pose proof (chars_nul s Hs) as H0s. cbn [fnmatch_loop].
  assert (forall c q, 0 < c < 256 -> (length q < fuel)%nat -> chars_ok q ->
    decides (if negb (same_char flags c (at_char s)) then CVal FNM_NOMATCH else fnmatch_loop fuel flags q (tail s) (at_char s :: before)) (matches flags (Lit c :: tokens flags q) s)) as Hnormal.
  { intros c q Hc Hq Hqs. destruct s as [|x s]; [cbn [at_char]; unfold EOS; rewrite same_char_nul by done; apply decides_no; inv_match|]. cbn [at_char tail].
    destruct (same_char flags c x) eqn:E; cbn [negb].
    - eapply decides_iff; [|apply IH; [done|done|by apply Forall_cons_1 in Hs as [_ Hs]|done]]. rewrite matches_lit. split; [intros Hm; by exists x, s|].
      by intros (y & s' & [= <- <-] & _ & Hm).
    - apply decides_no. intros (y & s' & [= <- <-] & Hy & _)%matches_lit. congruence. }
  destruct p as [|c p].
  { destruct s as [|x s]; [cbn [at_char]; change (EOS =? 0x2f) with false; change (EOS =? EOS) with true; rewrite andb_false_r; apply decides_yes; constructor|].
    cbn [at_char]. apply not_elem_of_cons in H0s as [Hx _]. rewrite (proj2 (Z.eqb_neq x EOS)) by (unfold EOS; congruence).
    destruct (has flags FNM_LEADING_DIR) eqn:Ed; cbn [andb]; [destruct (Z.eqb_spec x 0x2f) as [->|]; [apply decides_yes; by constructor|]|]; apply decides_no; inv_match; congruence. }
  cbn [length] in Hl. pose proof Hp as [Hc Hp']%Forall_cons_1. rewrite tokens_cons by done.
  destruct (c =? 0x3f).
  { destruct (no_wild flags s before) eqn:E.
    - apply decides_no. intros (x & s' & -> & Hx & _)%matches_any. by apply Hx, (no_wild_bars _ _ _ Hf E x s').
    - destruct (no_wild_not _ _ _ Hf E) as (x & s' & -> & Hx). cbn [at_char tail]. eapply decides_iff; [|apply IH; [lia|done|by apply Forall_cons_1 in Hs as [_ Hs]|done]].
      rewrite matches_any. split; [intros Hm; by exists x, s'|]. by intros (y & s2 & [= <- <-] & _ & Hm). }
  destruct (c =? 0x2a).
  { rewrite free_period by done. apply decides_iff with (P := matches flags (Star (before_slash p) :: tokens flags (skip_stars p)) s); [apply matches_stars; by apply chars_nul|].
    rewrite before_slash_spec.
    destruct (skip_stars_spec p) as (K1 & K2 & K3). pose proof (chars_sub _ _ Hp' K1) as K4. set (q := skip_stars p) in *. clearbody q. destruct q as [|d q]; [apply star_end; done|].
    cbn [at_char] in *. pose proof K4 as [Hd Hq]%Forall_cons_1. rewrite (proj2 (Z.eqb_neq d EOS)) by (unfold EOS; lia). destruct (_ && _) eqn:Ed.
    - zbool. subst d. pose proof (to_slash_spec s before) as Ht.
      assert (tokens flags (0x2f :: q) = Lit 0x2f :: tokens flags q) as Et by (rewrite tokens_cons by (by apply chars_nul); reflexivity).
      destruct (to_slash s before) as [[s' b']|].
      + destruct Ht as (s1 & E & Hs1 & Hne & Hc'). assert (chars_ok s') as Hs' by (subst s; by apply Forall_app in Hs as [_ Hs]).
        eapply decides_iff; [|apply (IH flags (0x2f :: q) s' b'); [cbn in *; lia|done|done|]].
        * rewrite Et. symmetry. by apply (star_slash flags _ s s1).
        * done.
      + apply decides_no. rewrite Et. intros (s3 & s4 & -> & _ & (x & s5 & -> & Hx & _)%matches_lit)%matches_star. apply Ht.
        assert (0 < x < 256) as Hx' by (apply Forall_app in Hs as [_ Hs]; by apply Forall_cons_1 in Hs as [Hs _]). rewrite same_slash in Hx by done. apply Z.eqb_eq in Hx as <-.
        apply elem_of_app. right. left.
    - destruct (no_period flags) as [Ha Hn]. set (flags' := Z.land flags (Z.lnot FNM_PERIOD)) in *.
      eapply decides_iff; [symmetry; apply matches_star|]. apply star_loop_decides; [|by apply tokens_empty; [apply chars_nul| |]|done].
      intros s' Hs'. eapply decides_iff; [|apply (IH flags' (d :: q) s' []); [cbn in *; lia|done|done|done]].
      unfold tokens. rewrite (toks_agree flags' flags _ _ Ha). split; [by apply matches_agree|by apply matches_agree, agree_sym]. }
  destruct (c =? 0x5b) eqn:Eb.
  { apply Z.eqb_eq in Eb as ->. destruct (no_wild flags s before) eqn:E.
    - apply decides_no. destruct s as [|x s].
      + destruct (bracket_of flags p); inv_match.
      + pose proof (no_wild_bars _ _ _ Hf E x s eq_refl H0s) as [Hx1 Hx2]. subst x. destruct (bracket_of flags p) as [| |l rest]; [|by inv_match|].
        * intros (y & s' & [= <- <-] & Hy & _)%matches_lit. unfold same_char in Hy. change (0x5b =? 0x2f) with false in Hy. cbn [orb] in Hy. change (tolower (u8 0x5b) =? tolower (u8 0x2f)) with false in Hy. by rewrite andb_false_r in Hy.
        * intros (y & s' & [= <- <-] & Hy & _)%matches_set. by apply Hy.
    - destruct (no_wild_not _ _ _ Hf E) as (x & s' & -> & Hx). cbn [at_char tail] in *. rewrite rangematch_spec by (by apply chars_nul). cbn [mbind cres_bind].
      destruct (bracket_of flags p) as [| |l rest] eqn:El; cbn [range_of]; [apply Hnormal; [lia|lia|done]|apply decides_no; by inv_match|]. cbn [orb].
      pose proof (bracket_in _ _ _ _ El) as Hin. destruct (bracket_rest _ _ _ _ (chars_nul _ Hp') El) as [Hlen _]. destruct (Bool.eqb (in_set flags l x) (negation p)) eqn:Ex.
      + apply decides_no. intros (y & s2 & [= <- <-] & _ & Hy & _)%matches_set. apply eqb_prop in Ex. rewrite Hy in Ex. by destruct (negation p).
      + eapply decides_iff; [|apply IH; [lia|by apply (chars_sub _ _ Hp')|by apply Forall_cons_1 in Hs as [_ Hs]|done]].
        rewrite matches_set. split; [|by intros (y & s2 & [= <- <-] & _ & _ & Hm)]. intros Hm. exists x, s'. split; [done|]. split; [done|]. split; [|done].
        by destruct (in_set flags l x), (negation p). }
  cbn [quoted]. destruct ((c =? 0x5c) && _); [|apply Hnormal; [lia|lia|done]]. destruct p as [|d p]; [apply (Hnormal 0x5c []); [lia|cbn in *; lia|constructor]|].
  pose proof Hp' as [Hd Hp2]%Forall_cons_1. apply Hnormal; [lia|cbn in *; lia|done].
Qed.

(** ** The answer with FNM_PERIOD *)

(** A period is a leading one after what was passed. *)
Definition at_start (flags : Z) (before : list Z) : bool :=
  match before with [] => true | b :: _ => has flags FNM_PATHNAME && (b =? 0x2f) end.

Lemma pmatches_lit flags st c ts s : pmatches flags st (Lit c :: ts) s <->
  exists x s', s = x :: s' /\ same_char flags c x = true /\ pmatches flags (has flags FNM_PATHNAME && (x =? 0x2f)) ts s'.
Proof. split; [inv_match; eauto|]. intros (x & s' & -> & H1 & H2). by constructor. Qed.

Lemma pmatches_any flags st ts s : pmatches flags st (Any :: ts) s <->
  exists x s', s = x :: s' /\ ~ is_slash flags x /\ (st = true -> x <> 0x2e) /\ pmatches flags false ts s'.
Proof. split; [inv_match; eauto 6|]. intros (x & s' & -> & H1 & H2 & H3). by constructor. Qed.

Lemma pmatches_set flags st n l ts s : pmatches flags st (Set_ n l :: ts) s <->
  exists x s', s = x :: s' /\ ~ is_slash flags x /\ (st = true -> x <> 0x2e) /\ in_set flags l x = negb n /\ pmatches flags false ts s'.
Proof. split; [inv_match; eauto 7|]. intros (x & s' & -> & H1 & H2 & H3 & H4). by constructor. Qed.

Lemma pmatches_star flags st k ts s : k && has flags FNM_PATHNAME = false ->
  pmatches flags st (Star k :: ts) s <-> (st = true -> at_char s <> 0x2e) /\ matches flags (Star k :: ts) s.
Proof. intros Hk. split; [|intros [H1 H2]; by constructor]. inv_match; [done|]. cbn in Hk. congruence. Qed.

Lemma pmatches_star_slash flags st ts s : has flags FNM_PATHNAME = true ->
  pmatches flags st (Star true :: ts) s <-> (st = true -> at_char s <> 0x2e) /\
    exists s1 s2, s = s1 ++ s2 /\ 0x2f ∉ s1 /\ pmatches flags (st && bool_decide (s1 = [])) ts s2.
Proof.
  intros Hk. split; [inv_match; [cbn in *; congruence|eauto 6]|]. intros (H1 & s1 & s2 & -> & H2 & H3). by constructor.
Qed.

Lemma pmatches_star_star flags st k ts s : pmatches flags st (Star k :: Star k :: ts) s <-> pmatches flags st (Star k :: ts) s.
Proof.
  destruct (k && has flags FNM_PATHNAME) eqn:Hk.
  2: { rewrite !pmatches_star by done. by rewrite matches_star_star. }
  apply andb_true_iff in Hk as [-> Hp]. rewrite !pmatches_star_slash by done. split.
  - intros (H1 & s1 & s2 & -> & H2 & H3). split; [done|]. apply pmatches_star_slash in H3 as (_ & s3 & s4 & -> & H4 & H5); [|done].
    exists (s1 ++ s3), s4. split; [by rewrite app_assoc|]. split; [by rewrite elem_of_app; intros [?|?]|].
    replace (st && bool_decide (s1 ++ s3 = [])) with (st && bool_decide (s1 = []) && bool_decide (s3 = [])); [done|].
    by destruct st, s1, s3.
  - intros (H1 & s1 & s2 & -> & H2 & H3). split; [done|]. exists [], (s1 ++ s2). split; [done|]. split; [apply not_elem_of_nil|].
    rewrite andb_true_r. apply pmatches_star_slash; [done|]. eauto 6.
Qed.

Lemma pmatches_stars flags st p s : 0 ∉ p ->
  pmatches flags st (Star (before_slash p) :: tokens flags (skip_stars p)) s <-> pmatches flags st (Star (before_slash p) :: tokens flags p) s.
Proof.
  induction p as [|c p IH]; intros H; cbn [skip_stars]; [done|]. pose proof H as [_ Hp]%not_elem_of_cons. destruct (Z.eqb_spec c 0x2a) as [->|]; [|done].
  rewrite tokens_cons by done. change (0x2a =? 0x3f) with false. change (0x2a =? 0x2a) with true. cbv iota.
  change (before_slash (0x2a :: p)) with (before_slash p). rewrite pmatches_star_star. by apply IH.
Qed.

Lemma leading_at_start flags s before : has flags FNM_PERIOD = true -> leading_period flags s before = (at_char s =? 0x2e) && at_start flags before.
Proof. unfold leading_period. intros ->. by rewrite andb_true_r. Qed.

Lemma leading_not flags s before : has flags FNM_PERIOD = true -> leading_period flags s before = false <-> (at_start flags before = true -> at_char s <> 0x2e).
Proof.
  intros H. rewrite leading_at_start by done. destruct (at_start flags before), (Z.eqb_spec (at_char s) 0x2e); split; try done. intros Hf. by destruct (Hf eq_refl).
Qed.

(** The test in front of a wildcard. *)
Lemma no_wild_iff flags s before : has flags FNM_PERIOD = true -> 0 ∉ s ->
  no_wild flags s before = false <-> exists x s', s = x :: s' /\ ~ is_slash flags x /\ (at_start flags before = true -> x <> 0x2e).
Proof.
  intros Hper H0. unfold no_wild. rewrite !orb_false_iff, leading_not by done. destruct s as [|x s]; [split; [by intros [[? _] _]|by intros (? & ? & ? & _)]|].
  apply not_elem_of_cons in H0 as [Hx _]. cbn [at_char]. unfold is_slash, EOS. split.
  - intros [[_ H1] H2]. exists x, s. split; [done|]. split; [|done]. intros [Hp ->]. by rewrite Hp in H1.
  - intros (y & s' & [= <- <-] & H1 & H2). split; [split; [by apply Z.eqb_neq|]|done].
    destruct (Z.eqb_spec x 0x2f), (has flags FNM_PATHNAME); try done. by destruct H1.
Qed.

(** A "[" is neither a slash nor a period. *)
Lemma bracket_no_wild flags s before : no_wild flags s before = true -> same_char flags 0x5b (at_char s) = false.
Proof.
  intros H. assert (at_char s = 0 \/ at_char s = 0x2f \/ at_char s = 0x2e) as Hc.
  { unfold no_wild, leading_period, EOS in H. rewrite !orb_true_iff, !andb_true_iff, !Z.eqb_eq in H. tauto. }
  unfold same_char. destruct Hc as [-> |[-> | ->]]; by destruct (has flags FNM_CASEFOLD).
Qed.

Lemma pmatches_empty flags st p : 0 ∉ p -> p <> [] -> at_char p <> 0x2a -> ~ pmatches flags st (tokens flags p) [].
Proof.
  intros H0 Hne Hs. destruct p as [|c p]; [done|]. cbn [at_char] in Hs. rewrite tokens_cons by done. rewrite (proj2 (Z.eqb_neq c 0x2a)) by done.
  destruct (c =? 0x3f); [by inv_match|]. destruct (c =? 0x5b); [destruct (bracket_of flags p); by inv_match|]. destruct (quoted flags (c :: p)) as [[d s]|]; by inv_match.
Qed.

(** What the loop decides where FNM_PERIOD is set. *)
Definition period_decides (fuel : nat) (flags : Z) : Prop := forall p s before, (length p < fuel)%nat -> chars_ok p -> chars_ok s ->
  decides (fnmatch_loop fuel flags p s before) (pmatches flags (at_start flags before) (tokens flags p) s).

(** The case of an ordinary character. *)
Lemma period_normal fuel flags c q s before st : period_decides fuel flags -> 0 < c < 256 -> (length q < fuel)%nat -> chars_ok q -> chars_ok s ->
  decides (if negb (same_char flags c (at_char s)) then CVal FNM_NOMATCH else fnmatch_loop fuel flags q (tail s) (at_char s :: before))
    (pmatches flags st (Lit c :: tokens flags q) s).
Proof.
  intros IH Hc Hq Hqs Hs. destruct s as [|x s]; [cbn [at_char]; unfold EOS; rewrite same_char_nul by done; apply decides_no; inv_match|]. cbn [at_char tail].
  destruct (same_char flags c x) eqn:E; cbn [negb].
  - eapply decides_iff; [|apply IH; [done|done|by apply Forall_cons_1 in Hs as [_ Hs]]]. rewrite pmatches_lit. split; [intros Hm; by exists x, s|].
    by intros (y & s' & [= <- <-] & _ & Hm).
  - apply decides_no. intros (y & s' & [= <- <-] & Hy & _)%pmatches_lit. congruence.
Qed.

(** The case of a star, after the run of stars; the period was tested. *)
Lemma period_star fuel flags q s before : period_decides fuel flags -> (length q < fuel)%nat -> chars_ok q -> chars_ok s -> at_char q <> 0x2a ->
  (at_start flags before = true -> at_char s <> 0x2e) ->
  decides
    (if at_char q =? EOS then
       if has flags FNM_PATHNAME then
         CVal (if has flags FNM_LEADING_DIR || bool_decide (to_slash s before = None) then 0 else FNM_NOMATCH)
       else CVal 0
     else if (at_char q =? 0x2f) && has flags FNM_PATHNAME then
       match to_slash s before with
       | None => CVal FNM_NOMATCH
       | Some (s, before) => fnmatch_loop fuel flags q s before
       end
     else star_loop (fun s => fnmatch_loop fuel (Z.land flags (Z.lnot FNM_PERIOD)) q s []) flags s)
    (pmatches flags (at_start flags before) (Star (at_char q =? 0x2f) :: tokens flags q) s).
Proof.
  intros IH Hl Hq Hs Hns Hdot. destruct q as [|d q].
  { cbn [at_char]. change (EOS =? EOS) with true. change (EOS =? 0x2f) with false. cbv iota.
    eapply decides_iff; [|apply star_end; by apply chars_nul]. rewrite pmatches_star by done. split; [done|tauto]. }
  cbn [at_char] in *. pose proof Hq as [Hd Hq']%Forall_cons_1. rewrite (proj2 (Z.eqb_neq d EOS)) by (unfold EOS; lia). destruct (_ && _) eqn:Ed.
  - zbool. subst d. rewrite Z.eqb_refl. pose proof (to_slash_spec s before) as Ht.
    assert (tokens flags (0x2f :: q) = Lit 0x2f :: tokens flags q) as Et by (rewrite tokens_cons by (by apply chars_nul); reflexivity).
    assert (forall x, x ∈ s -> same_char flags 0x2f x = true -> x = 0x2f) as Hsl.
    { intros x Hx Hc. apply (proj1 (list.Forall_forall _ _) Hs) in Hx. rewrite same_slash in Hc by done. by apply Z.eqb_eq in Hc. }
    destruct (to_slash s before) as [[s' b']|].
    + destruct Ht as (s1 & E & Hs1 & Hne & Hc'). assert (chars_ok s') as Hs' by (subst s; by apply Forall_app in Hs as [_ Hs]).
      eapply decides_iff; [|apply (IH (0x2f :: q) s' b'); [done|done|done]]. rewrite Et, pmatches_star_slash by done. split.
      * intros Hm. split; [done|]. exists s1, s'. split; [done|]. split; [done|]. apply pmatches_lit in Hm. by apply pmatches_lit.
      * intros (_ & s3 & s4 & E' & H3 & (x & s5 & -> & Hx & Hm)%pmatches_lit). apply pmatches_lit.
        assert (x = 0x2f) as -> by (apply Hsl; [rewrite E'; apply elem_of_app; right; left|done]).
        assert (s' = 0x2f :: s5) as -> by (apply (first_slash s1 s' s3 (0x2f :: s5)); congruence || done). eauto.
    + apply decides_no. rewrite Et, pmatches_star_slash by done. intros (_ & s3 & s4 & -> & _ & (x & s5 & -> & Hx & _)%pmatches_lit). apply Ht.
      rewrite <- (Hsl x); [|apply elem_of_app; right; left|done]. apply elem_of_app. right. left.
  - eapply decides_iff; [symmetry; by apply pmatches_star|]. destruct (no_period flags) as [Ha Hn]. set (flags' := Z.land flags (Z.lnot FNM_PERIOD)) in *.
    eapply decides_iff with (P := matches flags (Star (d =? 0x2f) :: tokens flags (d :: q)) s); [split; [done|tauto]|].
    eapply decides_iff; [symmetry; apply matches_star|]. apply star_loop_decides; [|by apply tokens_empty; [apply chars_nul| |]|done].
    intros s' Hs'. eapply decides_iff; [|apply (fnmatch_loop_decides fuel flags' (d :: q) s' []); [cbn in *; lia|done|done|done]].
    unfold tokens. rewrite (toks_agree flags' flags _ _ Ha). split; [by apply matches_agree|by apply matches_agree, agree_sym].
Qed.

Lemma period_loop_decides fuel flags : has flags FNM_PERIOD = true -> period_decides fuel flags.
Proof.
  intros Hper. induction fuel as [|fuel IH]; intros p s before Hl Hp Hs; [lia|]. pose proof (chars_nul p Hp) as H0. pose proof (chars_nul s Hs) as H0s. cbn [fnmatch_loop].
  destruct p as [|c p].
  { destruct s as [|x s]; [cbn [at_char]; change (EOS =? 0x2f) with false; change (EOS =? EOS) with true; rewrite andb_false_r; apply decides_yes; constructor|].
    cbn [at_char]. apply not_elem_of_cons in H0s as [Hx _]. rewrite (proj2 (Z.eqb_neq x EOS)) by (unfold EOS; congruence).
    destruct (has flags FNM_LEADING_DIR) eqn:Ed; cbn [andb]; [destruct (Z.eqb_spec x 0x2f) as [->|]; [apply decides_yes; by constructor|]|]; apply decides_no; inv_match; congruence. }
  cbn [length] in Hl. pose proof Hp as [Hc Hp']%Forall_cons_1. rewrite tokens_cons by done.
  pose proof (no_wild_iff flags s before Hper H0s) as Hw.
  destruct (c =? 0x3f).
  { destruct (no_wild flags s before).
    - apply decides_no. intros (x & s' & E & Hx & Hst & _)%pmatches_any. enough (true = false) by done. apply Hw. eauto.
    - destruct (proj1 Hw eq_refl) as (x & s' & -> & Hx & Hst). cbn [at_char tail].
      eapply decides_iff; [|apply IH; [lia|done|by apply Forall_cons_1 in Hs as [_ Hs]]]. rewrite pmatches_any. cbn [at_start].
      replace (has flags FNM_PATHNAME && (x =? 0x2f)) with false by (symmetry; apply andb_false_iff; unfold is_slash in Hx; destruct (has flags FNM_PATHNAME); [right; apply Z.eqb_neq; tauto|by left]).
      split; [intros Hm; by exists x, s'|]. by intros (y & s2 & [= <- <-] & _ & _ & Hm). }
  destruct (c =? 0x2a).
  { eapply decides_iff; [apply pmatches_stars; by apply chars_nul|]. rewrite before_slash_spec.
    destruct (skip_stars_spec p) as (K1 & K2 & K3). destruct (leading_period flags s before) eqn:El.
    - apply decides_no. intros Hm. assert (leading_period flags s before = false) as E; [|congruence]. apply leading_not; [done|]. by inversion Hm.
    - apply period_star; [done|lia|by apply (chars_sub _ _ Hp')|done|done|by apply leading_not]. }
  destruct (Z.eqb_spec c 0x5b) as [->|].
  { destruct (no_wild flags s before) eqn:E.
    - apply decides_no. pose proof (bracket_no_wild _ _ _ E) as Hb. destruct (bracket_of flags p) as [| |l rest]; [|by inv_match|].
      + intros (y & s' & -> & Hy & _)%pmatches_lit. cbn [at_char] in Hb. congruence.
      + intros (y & s' & -> & Hy & Hst & _)%pmatches_set. enough (true = false) by done. apply Hw. eauto.
    - destruct (proj1 Hw eq_refl) as (x & s' & -> & Hx & Hst). cbn [at_char tail] in *. rewrite rangematch_spec by (by apply chars_nul). cbn [mbind cres_bind].
      destruct (bracket_of flags p) as [| |l rest] eqn:El; cbn [range_of]; [apply (period_normal fuel flags 0x5b p (x :: s')); [done|lia|lia|done|done]|apply decides_no; by inv_match|]. cbn [orb].
      pose proof (bracket_in _ _ _ _ El) as Hin. destruct (bracket_rest _ _ _ _ (chars_nul _ Hp') El) as [Hlen _]. destruct (Bool.eqb (in_set flags l x) (negation p)) eqn:Ex.
      + apply decides_no. intros (y & s2 & [= <- <-] & _ & _ & Hy & _)%pmatches_set. apply eqb_prop in Ex. rewrite Hy in Ex. by destruct (negation p).
      + eapply decides_iff; [|apply IH; [lia|by apply (chars_sub _ _ Hp')|by apply Forall_cons_1 in Hs as [_ Hs]]]. rewrite pmatches_set. cbn [at_start].
        replace (has flags FNM_PATHNAME && (x =? 0x2f)) with false by (symmetry; apply andb_false_iff; unfold is_slash in Hx; destruct (has flags FNM_PATHNAME); [right; apply Z.eqb_neq; tauto|by left]).
        split; [|by intros (y & s2 & [= <- <-] & _ & _ & _ & Hm)]. intros Hm. exists x, s'. split_and!; try done. by destruct (in_set flags l x), (negation p). }
  cbn [quoted]. destruct ((c =? 0x5c) && _); [|apply period_normal; [done|lia|lia|done|done]].
  destruct p as [|d p]; [apply (period_normal fuel flags 0x5c []); [done|lia|cbn in *; lia|constructor|done]|].
  pose proof Hp' as [Hd Hp2]%Forall_cons_1. apply period_normal; [done|lia|cbn in *; lia|done|done].
Qed.

(** What FNM_PERIOD adds: nothing else matches, and without FNM_PATHNAME it bars
    exactly a period at the start that a wildcard would match. *)
Lemma pmatches_matches flags st ts s : pmatches flags st ts s -> matches flags ts s.
Proof.
  induction 1; [by constructor..|done|]. constructor; [|done]. intros x Hx [_ ->]. done.
Qed.

Lemma pmatches_start flags ts s : pmatches flags true ts s -> at_char s = 0x2e -> exists c ts', ts = Lit c :: ts'.
Proof.
  intros H Hs. inversion H; subst; cbn [at_char] in *; try (by eauto); exfalso;
    match goal with X : true = true -> _ |- _ => by apply X | _ => by destruct s end.
Qed.

Lemma matches_pmatches flags st ts s : has flags FNM_PATHNAME = false -> matches flags ts s ->
  (st = true -> at_char s = 0x2e -> exists c ts', ts = Lit c :: ts') -> pmatches flags st ts s.
Proof.
  intros Hp Hm. revert st.
  induction Hm as [|s Hd|c ts x s Hc Hm IH|ts x s Hx Hm IH|n l ts x s Hx Hin Hm IH|k ts s1 s2 Hs Hm IH]; intros st H.
  - constructor.
  - by constructor.
  - constructor; [done|]. apply IH. by rewrite Hp.
  - constructor; [done| |by apply IH]. intros Hst Hxd. destruct (H Hst Hxd) as (? & ? & [=]).
  - constructor; [done| |done|by apply IH]. intros Hst Hxd. destruct (H Hst Hxd) as (? & ? & [=]).
  - apply p_star; [by rewrite Hp, andb_false_r| |by constructor]. intros Hst Hxd. destruct (H Hst Hxd) as (? & ? & [=]).
Qed.

(** C22: for every pattern, every string and all flags, fnmatch ends and answers 0 or
    FNM_NOMATCH, and it answers 0 exactly when the pattern denotes the string: the tokens of
    the pattern divide the string, a star takes any part without the slashes that
    FNM_PATHNAME protects, with FNM_LEADING_DIR a slash may follow, and with FNM_PERIOD no
    wildcard matches a period at the start of the string, nor, with FNM_PATHNAME, one after a
    slash, up to the first star that no slash follows: after it the code has forgotten
    FNM_PERIOD (see [period_lost]).  Without FNM_PATHNAME this is the plain meaning: the
    string matches, and a period at its start is matched by a character of the pattern. *)
Theorem fnmatch_matches pattern string flags (Hp : chars_ok pattern) (Hs : chars_ok string) :
  exists r, fnmatch pattern string flags = CVal r /\ (r = 0 \/ r = FNM_NOMATCH) /\
  (r = 0 <-> denotes flags (tokens flags pattern) string) /\
  (r = 0 -> period_ok flags (tokens flags pattern) string /\ matches flags (tokens flags pattern) string) /\
  (has flags FNM_PATHNAME = false ->
    r = 0 <-> period_ok flags (tokens flags pattern) string /\ matches flags (tokens flags pattern) string).
Proof.
  assert (decides (fnmatch pattern string flags) (denotes flags (tokens flags pattern) string)) as (r & E & Hr).
  { unfold denotes. destruct (has flags FNM_PERIOD) eqn:Eper.
    - by apply (period_loop_decides _ _ Eper _ _ []); [lia| |].
    - by apply fnmatch_loop_decides; [lia| | |]. }
  assert (denotes flags (tokens flags pattern) string -> period_ok flags (tokens flags pattern) string /\ matches flags (tokens flags pattern) string) as H1.
  { unfold denotes, period_ok. destruct (has flags FNM_PERIOD); [|done]. intros H. split; [|by apply pmatches_matches in H]. intros _ Hd. by apply (pmatches_start flags _ string). }
  assert (has flags FNM_PATHNAME = false -> period_ok flags (tokens flags pattern) string /\ matches flags (tokens flags pattern) string ->
    denotes flags (tokens flags pattern) string) as H2.
  { unfold denotes, period_ok. intros Hpath [Hd Hm]. destruct (has flags FNM_PERIOD); [|done]. by apply matches_pmatches; auto. }
  exists r. split; [done|]. unfold FNM_NOMATCH in *. destruct Hr as [[-> H]|[-> H]]; split_and!; auto; try lia; intros; split; try lia; tauto.
Qed.

(** "*.[ch]" and "main.c"; a hidden file is not matched by "*", nor one in a directory. *)
Lemma fnmatch_matches_witness :
  (fnmatch [42; 46; 91; 99; 104; 93] [109; 97; 105; 110; 46; 99] FNM_PATHNAME = CVal 0 /\
   denotes FNM_PATHNAME (tokens FNM_PATHNAME [42; 46; 91; 99; 104; 93]) [109; 97; 105; 110; 46; 99]) /\
  fnmatch [42] [46; 97] FNM_PERIOD = CVal FNM_NOMATCH /\
  fnmatch [42; 47; 42] [97; 47; 46; 99] (FNM_PATHNAME + FNM_PERIOD) = CVal FNM_NOMATCH /\
  ~ denotes (FNM_PATHNAME + FNM_PERIOD) (tokens (FNM_PATHNAME + FNM_PERIOD) [42; 47; 42]) [97; 47; 46; 99].
Proof.
  split; [|split; [vm_compute; reflexivity|]].
  - destruct (fnmatch_matches [42; 46; 91; 99; 104; 93] [109; 97; 105; 110; 46; 99] FNM_PATHNAME) as (r & E & _ & Hr & _).
    + repeat (apply Forall_cons_2; [lia|]). constructor.
    + repeat (apply Forall_cons_2; [lia|]). constructor.
    + assert (fnmatch [42; 46; 91; 99; 104; 93] [109; 97; 105; 110; 46; 99] FNM_PATHNAME = CVal 0) as E0 by (vm_compute; reflexivity).
      split; [exact E0|]. rewrite E0 in E. injection E as <-. by apply Hr.
  - destruct (fnmatch_matches [42; 47; 42] [97; 47; 46; 99] (FNM_PATHNAME + FNM_PERIOD)) as (r & E & _ & Hr & _).
    + repeat (apply Forall_cons_2; [lia|]). constructor.
    + repeat (apply Forall_cons_2; [lia|]). constructor.
    + assert (fnmatch [42; 47; 42] [97; 47; 46; 99] (FNM_PATHNAME + FNM_PERIOD) = CVal FNM_NOMATCH) as E0 by (vm_compute; reflexivity).
      split; [exact E0|]. rewrite E0 in E. injection E as <-. intros H. apply Hr in H. discriminate H.
Defined.

(** ** What goes wrong *)

(** FNM_PERIOD is cleared for what follows a star, so "a*b/*" matches "axb/.c", and "axb/*" does not. *)
Lemma period_lost :
  fnmatch [97; 42; 98; 47; 42] [97; 120; 98; 47; 46; 99] (FNM_PATHNAME + FNM_PERIOD) = CVal 0 /\
  fnmatch [97; 120; 98; 47; 42] [97; 120; 98; 47; 46; 99] (FNM_PATHNAME + FNM_PERIOD) = CVal FNM_NOMATCH.
Proof. split; vm_compute; reflexivity. Qed.

(** A bracket that a slash interrupts is no ordinary character: "[a/b" does not match itself. *)
Lemma bracket_slash : fnmatch [91; 97; 47; 98] [91; 97; 47; 98] FNM_PATHNAME = CVal FNM_NOMATCH /\ fnmatch [91; 97; 47; 98] [91; 97; 47; 98] 0 = CVal 0.
Proof. split; vm_compute; reflexivity. Qed.
