(* ===== verification/Atexit.v ===== *)
(** * Exit handlers: libc/stdlib/atexit.c, exit.c

    Handlers are kept in pages that are made writable only while they are changed.  A handler
    may register others, and may finalize a library or exit itself; what it does is an
    argument of the model, which may depend on the handlers called so far, and so are the
    outcomes of mmap and mprotect.  Pages are listed from the oldest to the newest, which
    [__atexit] points to; the link [next] leads to the page before. *)

From Stdlib Require Import ZArith Lia.
From stdpp Require Import base list numbers.
From S2P Require Import Prelude.

Open Scope Z_scope.

(** struct atexit_fn; a NULL function is 0. *)
Record atexit_fn := mkFn { fn_ptr : Z; fn_arg : Z; fn_dso : Z }.
Definition no_fn : atexit_fn := mkFn 0 0 0.

(** struct atexit; [max] is the length of [fns]. *)
Record atexit_page := mkPage { ind : Z; fns : list atexit_fn }.

(** __atexit, __atexit_invalid and call_depth; [sys] counts the system calls.  For the
    theorems, the functions that were called and those that were registered. *)
Record atexit_state := mkAtexit {
  pages : list atexit_page; invalid : bool; call_depth : Z; sys : nat;
  called : list atexit_fn; registered : list atexit_fn
}.

(** What a handler may do. *)
Inductive act :=
| Register (func arg dso : Z)
| Finalize (dso : Z).

Definition with_pages (s : atexit_state) (ps : list atexit_page) : atexit_state :=
  mkAtexit ps (invalid s) (call_depth s) (sys s) (called s) (registered s).
Definition with_depth (s : atexit_state) (d : Z) : atexit_state :=
  mkAtexit (pages s) (invalid s) d (sys s) (called s) (registered s).
Definition tick (s : atexit_state) : atexit_state :=
  mkAtexit (pages s) (invalid s) (call_depth s) (S (sys s)) (called s) (registered s).
Definition note_call (s : atexit_state) (f : atexit_fn) : atexit_state :=
  mkAtexit (pages s) (invalid s) (call_depth s) (sys s) (called s ++ [f]) (registered s).

(** A page is put in place of the [k]-th, for a function that is registered. *)
Definition with_fn (s : atexit_state) (k : nat) (p : atexit_page) (f : atexit_fn) : atexit_state :=
  mkAtexit (<[k := p]> (pages s)) (invalid s) (call_depth s) (sys s) (called s) (registered s ++ [f]).

Section Atexit.
Context (pgsize : Z) (mmap mprotect : nat -> bool) (handler : list atexit_fn -> atexit_fn -> list act).

(** The size of struct atexit and of its entries, and the offset of fns. *)
Definition max_fns : nat := Z.to_nat (Z.quot (pgsize - 12) 12).

(** A new page at the head of the list: false when there is no memory.  The first page keeps
    its first entry for the cleanup function. *)
Definition new_page (s : atexit_state) : bool * atexit_state :=
  if mmap (sys s) then
    (true, mkAtexit (pages s ++ [mkPage (match pages s with [] => 1 | _ => 0 end) (repeat no_fn max_fns)]) false (call_depth s) (S (sys s)) (called s) (registered s))
  else (false, tick s).

Definition __cxa_atexit (func arg dso : Z) (s : atexit_state) : cres (Z * atexit_state) :=
  if pgsize <? 24 then CVal (-1, s)
  else
    let '(ready, s) :=
      match list.last (pages s) with
      | None => new_page s
      | Some p => if Z.of_nat (length (fns p)) <=? ind p + 1 then new_page s else (mprotect (sys s), tick s)
      end in
    if negb ready then CVal (-1, s)
    else
      let k := (length (pages s) - 1)%nat in
      p ← aget (pages s) (Z.of_nat k);
      l ← aset (fns p) (ind p) (mkFn func arg dso);
      let s := with_fn s k (mkPage (ind p + 1) l) (mkFn func arg dso) in
      CVal (if mprotect (sys s) then 0 else -1, tick s).

Definition atexit (func : Z) (s : atexit_state) : cres (Z * atexit_state) := __cxa_atexit func 0 0 s.

Definition __atexit_register_cleanup (func : Z) (s : atexit_state) : cres atexit_state :=
  if pgsize <? 24 then CVal s
  else
    let '(ready, s) := match pages s with [] => new_page s | _ => (mprotect (sys s), tick s) end in
    if negb ready then CVal s
    else
      p ← aget (pages s) 0;
      l ← aset (fns p) 0 (mkFn func 0 0);
      CVal (tick (with_fn s 0 (mkPage (ind p) l) (mkFn func 0 0))).

(** The actions of a handler; [fin] is __cxa_finalize. *)
Fixpoint run_acts (fin : Z -> atexit_state -> cres atexit_state) (l : list act) (s : atexit_state) : cres atexit_state :=
  match l with
  | [] => CVal s
  | Register func arg dso :: l => r ← __cxa_atexit func arg dso s; run_acts fin l r.2
  | Finalize dso :: l => s ← fin dso s; run_acts fin l s
  end.

Definition call_fn (fin : Z -> atexit_state -> cres atexit_state) (f : atexit_fn) (s : atexit_state) : cres atexit_state :=
  run_acts fin (handler (called s) f) (note_call s f).

(** The handler is marked as called, if the page can be written. *)
Definition mark_called (k n : nat) (p : atexit_page) (f : atexit_fn) (s : atexit_state) : cres atexit_state :=
  if mprotect (sys s) then
    l ← aset (fns p) (Z.of_nat n) (mkFn 0 (fn_arg f) (fn_dso f));
    CVal (tick (tick (with_pages s (<[k := mkPage (ind p) l]> (pages s)))))
  else CVal (tick s).

(** for (n = p->ind; --n >= 0;) *)
Fixpoint walk_fns (fin : Z -> atexit_state -> cres atexit_state) (k n : nat) (dso : Z) (s : atexit_state) : cres atexit_state :=
  match n with
  | O => CVal s
  | S n =>
      p ← aget (pages s) (Z.of_nat k);
      f ← aget (fns p) (Z.of_nat n);
      if fn_ptr f =? 0 then walk_fns fin k n dso s
      else if negb (dso =? 0) && negb (dso =? fn_dso f) then walk_fns fin k n dso s
      else
        s ← mark_called k n p f s;
        s ← call_fn fin f s;
        walk_fns fin k n dso s
  end.

(** for (p = __atexit; p != NULL; p = p->next) *)
Fixpoint walk_pages (fin : Z -> atexit_state -> cres atexit_state) (k : nat) (dso : Z) (s : atexit_state) : cres atexit_state :=
  match k with
  | O => CVal s
  | S k =>
      p ← aget (pages s) (Z.of_nat k);
      s ← walk_fns fin k (Z.to_nat (ind p)) dso s;
      walk_pages fin k dso s
  end.

(** [fuel] bounds the calls of handlers that finalize in turn. *)
Fixpoint __cxa_finalize (fuel : nat) (dso : Z) (s : atexit_state) : cres atexit_state :=
  match fuel with
  | O => CFuel
  | S fuel =>
      if invalid s then CVal s
      else
        let s := with_depth s (call_depth s + 1) in
        s ← walk_pages (__cxa_finalize fuel) (length (pages s)) dso s;
        if dso =? 0 then
          let s := with_depth s (call_depth s - 1) in
          CVal (if call_depth s =? 0 then with_pages s [] else s)
        else CVal s
  end.

(** exit, up to the system call. *)
Definition exit (fuel : nat) (s : atexit_state) : cres atexit_state := __cxa_finalize fuel 0 s.

(** abort calls the cleanup function, once. *)
Definition abort_cleanup (cleanup_called : bool) (s : atexit_state) : cres (option atexit_fn * bool) :=
  if cleanup_called then CVal (None, true)
  else
    match pages s with
    | [] => CVal (None, false)
    | p :: _ =>
        f ← aget (fns p) 0;
        CVal (if (fn_dso f =? 0) && negb (fn_ptr f =? 0) then (Some f, true) else (None, false))
    end.
End Atexit.

(** Before any registration. *)
Definition atexit_start : atexit_state := mkAtexit [] true 0 0 [] [].

(** ** The functions that are registered *)

Definition live_fns (l : list atexit_fn) : list atexit_fn := filter (fun f => fn_ptr f <> 0) l.
Definition live (s : atexit_state) : list atexit_fn := live_fns (concat (fns <$> pages s)).

Lemma live_app l1 l2 : live_fns (l1 ++ l2) = live_fns l1 ++ live_fns l2.
Proof. apply list.filter_app. Qed.

Lemma live_none l : Forall (fun f => fn_ptr f = 0) l -> live_fns l = [].
Proof. induction 1 as [|f l H Hl IH]; [done|]. unfold live_fns in *. rewrite filter_cons_False by (by intros []). done. Qed.

Lemma repeat_empty n : Forall (fun f => fn_ptr f = 0) (repeat no_fn n).
Proof. induction n as [|n IH]; cbn [repeat]; by constructor. Qed.

Lemma live_one f : fn_ptr f <> 0 -> live_fns [f] = [f].
Proof. intros H. unfold live_fns. cbn. by rewrite decide_True by done. Qed.

Lemma live_sub f : live_fns [f] ⊆+ [f].
Proof. unfold live_fns. cbn. case_decide; [done|apply submseteq_nil_l]. Qed.

(** The functions before a place, and after it. *)
Definition before (ps : list atexit_page) (k : nat) (l : list atexit_fn) (n : nat) : list atexit_fn :=
  live_fns (concat (fns <$> take k ps)) ++ live_fns (take n l).
Definition after (ps : list atexit_page) (k : nat) (l : list atexit_fn) (n : nat) : list atexit_fn :=
  live_fns (drop (S n) l) ++ live_fns (concat (fns <$> drop (S k) ps)).

Lemma live_split ps k p n f : ps !! k = Some p -> fns p !! n = Some f ->
  live_fns (concat (fns <$> ps)) = before ps k (fns p) n ++ live_fns [f] ++ after ps k (fns p) n.
Proof.
  intros Hp Hf. rewrite <- (take_drop_middle ps k p Hp) at 1. rewrite fmap_app, concat_app, live_app. cbn [fmap list_fmap concat]. rewrite live_app.
  rewrite <- (take_drop_middle (fns p) n f Hf) at 1. change (f :: drop (S n) (fns p)) with ([f] ++ drop (S n) (fns p)). rewrite !live_app. unfold before, after.
  by rewrite <- !app_assoc.
Qed.

Lemma live_set ps k p n f i : ps !! k = Some p -> (n < length (fns p))%nat ->
  live_fns (concat (fns <$> <[k := mkPage i (<[n := f]> (fns p))]> ps)) = before ps k (fns p) n ++ live_fns [f] ++ after ps k (fns p) n.
Proof.
  intros Hp Hn. assert (k < length ps)%nat as Hk by (by eapply lookup_lt_Some).
  rewrite (live_split _ k (mkPage i (<[n := f]> (fns p))) n f); [|by rewrite list_lookup_insert_eq|cbn; by rewrite list_lookup_insert_eq].
  cbn [fns]. unfold before, after. rewrite take_insert_ge, drop_insert_lt by lia. rewrite take_insert_ge, drop_insert_lt by lia. done.
Qed.

(** ** The invariant *)

(** Computations that end, if they do, in a state that is [P], and go through no access that
    is not valid. *)
Definition partial {A} (c : cres A) (P : A -> Prop) : Prop :=
  match c with CVal a => P a | CUndef => False | CFuel => True end.

Lemma partial_bind {A B} (c : cres A) (k : A -> cres B) P Q : partial c P -> (forall a, P a -> partial (k a) Q) -> partial (a ← c; k a) Q.
Proof. destruct c; cbn; auto. Qed.

Lemma partial_weaken {A} (c : cres A) (P Q : A -> Prop) : partial c P -> (forall a, P a -> Q a) -> partial c Q.
Proof. destruct c; cbn; auto. Qed.

Section Correct.
Context (pgsize : Z) (mmap mprotect : nat -> bool) (handler : list atexit_fn -> atexit_fn -> list act).
Context (Hsize : 36 <= pgsize).

Notation max_fns := (max_fns pgsize).
Notation finalize := (__cxa_finalize pgsize mmap mprotect handler).
Notation register := (__cxa_atexit pgsize mmap mprotect).

Lemma max_fns_2 : (2 <= max_fns)%nat.
Proof. unfold Atexit.max_fns. assert (2 <= Z.quot (pgsize - 12) 12) by (Z.quot_rem_to_equations; lia). lia. Qed.

(** A page has its entries, and the ones that are not in use are empty. *)
Record page_ok (p : atexit_page) : Prop := {
  po_max : length (fns p) = max_fns; po_ind : 0 <= ind p <= Z.of_nat max_fns;
  po_rest : Forall (fun f => fn_ptr f = 0) (drop (Z.to_nat (ind p)) (fns p))
}.

Record inv (s : atexit_state) : Prop := {
  i_pages : Forall page_ok (pages s); i_depth : 0 <= call_depth s; i_invalid : invalid s = true -> pages s = [];
  i_first : forall p, pages s !! 0%nat = Some p -> 1 <= ind p;
  i_once : (forall n, mprotect n = true) -> called s ++ live s ⊆+ registered s
}.

(** Pages stay, and their entries in use stay in use. *)
Definition grow (s s' : atexit_state) : Prop := forall k p, pages s !! k = Some p -> exists p', pages s' !! k = Some p' /\ ind p <= ind p'.

(** Entries in use stay as they are. *)
Definition keeps (s s' : atexit_state) : Prop :=
  forall k p, pages s !! k = Some p -> exists p', pages s' !! k = Some p' /\ ind p <= ind p' /\ take (Z.to_nat (ind p)) (fns p') = take (Z.to_nat (ind p)) (fns p).

Lemma keeps_grow s s' : keeps s s' -> grow s s'.
Proof. intros H k p Hp. destruct (H k p Hp) as (p' & H1 & H2 & _). by exists p'. Qed.

Lemma kept_refl s s' : pages s' = pages s -> keeps s s'.
Proof. intros E k p Hp. exists p. rewrite E. done. Qed.

Lemma grow_trans s1 s2 s3 : grow s1 s2 -> grow s2 s3 -> grow s1 s3.
Proof. intros H1 H2 k p Hp. destruct (H1 k p Hp) as (p' & Hp' & L1). destruct (H2 k p' Hp') as (p2 & Hp2 & L2). exists p2. split; [done|lia]. Qed.

Lemma kept_trans s1 s2 s3 : keeps s1 s2 -> keeps s2 s3 -> keeps s1 s3.
Proof.
  intros H1 H2 k p Hp. destruct (H1 k p Hp) as (p' & Hp' & L1 & T1). destruct (H2 k p' Hp') as (p2 & Hp2 & L2 & T2). exists p2. split; [done|]. split; [lia|].
  rewrite <- T1. apply (f_equal (take (Z.to_nat (ind p)))) in T2. rewrite !take_take in T2. by rewrite !Nat.min_l in T2 by lia.
Qed.

(** What the registration of a function does to the state. *)
Record extends (s s' : atexit_state) : Prop := {
  x_inv : inv s'; x_depth : call_depth s' = call_depth s; x_called : called s' = called s; x_keeps : keeps s s';
  x_live : exists new, live s' = live s ++ new;
  x_front : forall j, (S j < length (pages s))%nat -> pages s' !! j = pages s !! j
}.

(** ** Registration *)

Lemma live_pages s s' : pages s' = pages s -> live s' = live s.
Proof. unfold live. by intros ->. Qed.

Lemma inv_same s s' : pages s' = pages s -> invalid s' = invalid s -> 0 <= call_depth s' -> called s' = called s -> registered s' = registered s -> inv s -> inv s'.
Proof.
  intros E1 E2 E3 E4 E5 [H1 _ H3 H4 H5]. split; rewrite ?E1, ?E2; try done. intros Hm. rewrite E4, E5, (live_pages s s' E1). auto.
Qed.

Lemma inv_tick s : inv s -> inv (tick s).
Proof. intros H. by apply (inv_same s); try done; apply H. Qed.

Lemma extends_tick s : inv s -> extends s (tick s).
Proof. intros H. split; try done; [by apply inv_tick|by apply kept_refl|exists []; by rewrite app_nil_r]. Qed.

Lemma grow_length s s' : grow s s' -> (length (pages s) <= length (pages s'))%nat.
Proof.
  intros H. destruct (pages s) as [|p l] eqn:E; [cbn; lia|]. destruct (lookup_lt_is_Some_2 (pages s) (length l)) as [q Hq]; [rewrite E; cbn; lia|].
  destruct (H _ _ Hq) as (q' & Hq' & _). apply lookup_lt_Some in Hq'. cbn. lia.
Qed.

Lemma extends_trans s1 s2 s3 : extends s1 s2 -> extends s2 s3 -> extends s1 s3.
Proof.
  intros [_ A2 A3 A4 [n1 A5] A6] [B1 B2 B3 B4 [n2 B5] B6]. split; [done|congruence|congruence|by eapply kept_trans| |].
  - exists (n1 ++ n2). by rewrite B5, A5, app_assoc.
  - intros j Hj. pose proof (grow_length _ _ (keeps_grow _ _ A4)). rewrite B6 by lia. by apply A6.
Qed.

(** The last page has room for one more entry. *)
Definition room (s : atexit_state) : Prop := exists ps p, pages s = ps ++ [p] /\ ind p < Z.of_nat max_fns /\ invalid s = false.

Lemma new_page_spec s : inv s -> extends s (new_page pgsize mmap s).2 /\ live (new_page pgsize mmap s).2 = live s /\ registered (new_page pgsize mmap s).2 = registered s /\
  ((new_page pgsize mmap s).1 = true -> room (new_page pgsize mmap s).2) /\ (mmap (sys s) = true -> (new_page pgsize mmap s).1 = true).
Proof.
  intros H. pose proof max_fns_2 as Hmax. unfold new_page. destruct (mmap (sys s)); cbn [fst snd]; [|split; [by apply extends_tick|done]].
  set (p := mkPage _ _). assert (0 <= ind p < Z.of_nat max_fns) as Hp by (subst p; destruct (pages s); cbn; lia).
  assert (Forall (fun f => fn_ptr f = 0) (fns p)) as H0 by apply repeat_empty.
  set (s' := mkAtexit _ _ _ _ _ _). assert (live s' = live s) as El.
  { unfold live, s'. cbn [pages]. rewrite fmap_app, concat_app, live_app. cbn [fmap list_fmap concat]. by rewrite (live_none (fns p ++ [])), app_nil_r by (by rewrite app_nil_r). }
  split; [|split; [done|split; [done|split; [|done]]]].
  - split; [|done|done| |exists []; by rewrite app_nil_r|intros j Hj; cbn; by rewrite lookup_app_l by lia].
    + destruct H as [H1 H2 H3 H4 H5]. split; [|done|done| |intros Hm; rewrite El; by apply H5].
      2: { intros q. subst s' p. cbn [pages]. destruct (pages s) as [|q' l]; cbn; [by intros [= <-]|apply H4]. }
      apply Forall_app. split; [done|]. apply Forall_singleton.
      split; [apply repeat_length|lia|by apply Forall_drop].
    + intros k q Hq. exists q. cbn. split; [by apply lookup_app_l_Some|]. split; [lia|done].
  - intros _. exists (pages s), p. split; [done|]. split; [apply Hp|done].
Qed.

Lemma last_ok s ps p : inv s -> pages s = ps ++ [p] -> page_ok p.
Proof. intros H E. pose proof (i_pages s H) as F. rewrite E in F. by apply Forall_app in F as [_ [F _]%Forall_cons_1]. Qed.

(** The entry of a function is stored in a page with room. *)
Lemma store_spec s f : inv s -> room s -> exists p l, aget (pages s) (Z.of_nat (length (pages s) - 1)) = CVal p /\ aset (fns p) (ind p) f = CVal l /\
  let s' := with_fn s (length (pages s) - 1) (mkPage (ind p + 1) l) f in extends s s' /\ live s' = live s ++ live_fns [f] /\ registered s' = registered s ++ [f] /\ invalid s' = false.
Proof.
  intros H (ps & p & Ep & Hroom & Hi). pose proof (last_ok s ps p H Ep) as Hok.
  pose proof Hok as [Hl Hind Hrest]. set (k := (length (pages s) - 1)%nat). assert (pages s !! k = Some p) as Hk by (assert (k = length ps) as Ek by (subst k; rewrite Ep, length_app; cbn; lia); rewrite Ek, Ep; by apply list_lookup_middle).
  set (n := Z.to_nat (ind p)) in *. assert (n < length (fns p))%nat as Hn by lia. destruct (lookup_lt_is_Some_2 (fns p) n Hn) as [old Hold].
  assert (drop (S n) (fns p) = drop (S n) (fns p) /\ fn_ptr old = 0 /\ Forall (fun f => fn_ptr f = 0) (drop (S n) (fns p))) as (_ & Hz & Hrest').
  { split; [done|]. rewrite (drop_S _ _ _ Hold) in Hrest. by apply Forall_cons_1 in Hrest. }
  exists p, (<[n := f]> (fns p)). split; [apply aget_val; [lia|by rewrite Nat2Z.id]|]. split; [apply aset_val; lia|].
  assert (after (pages s) k (fns p) n = []) as Ha.
  { unfold after. rewrite (live_none _ Hrest'). rewrite drop_ge by (subst k; lia). done. }
  set (s' := with_fn s k _ f). cbv zeta. assert (live s' = live s ++ live_fns [f]) as El.
  { unfold live, s'. cbn [pages with_fn]. rewrite (live_split _ _ _ _ _ Hk Hold), (live_set (pages s) k p n f _ Hk Hn), Ha, !app_nil_r. by rewrite (live_none [old]), app_nil_r by (by constructor). }
  split; [|done]. split; [| done | done | | by eexists|intros j Hj; cbn; by rewrite list_lookup_insert_ne by (subst k; lia)].
  - destruct H as [H1 H2 H3 H4 H5]. split; [| done| | |].
    + apply Forall_insert; [done|]. split; cbn; [by rewrite length_insert|lia|]. rewrite Z2Nat.inj_add by lia. change (Z.to_nat 1) with 1%nat. fold n. by rewrite drop_insert_lt, Nat.add_1_r by lia.
    + intros E. change (invalid s = true) in E. congruence.
    + intros q. cbn. destruct (decide (k = 0%nat)) as [E0|Hne]; [|rewrite list_lookup_insert_ne by done; apply H4].
      rewrite E0 in *. rewrite list_lookup_insert_eq by (by eapply lookup_lt_Some). intros [= <-]. cbn. lia.
    + intros Hm. rewrite El, app_assoc. apply submseteq_app; [by apply H5|apply live_sub].
  - intros j q Hq. cbn. destruct (decide (j = k)) as [->|Hne]; [|exists q; rewrite list_lookup_insert_ne by done; done].
    rewrite list_lookup_insert_eq by (by eapply lookup_lt_Some). eexists. split; [done|]. assert (q = p) as -> by congruence. cbn. split; [lia|]. fold n. by rewrite take_insert_ge by lia.
Qed.

Lemma register_spec func arg dso s : inv s -> exists r s', register func arg dso s = CVal (r, s') /\ extends s s' /\
  ((forall n, mmap n = true) -> (forall n, mprotect n = true) ->
     r = 0 /\ live s' = live s ++ live_fns [mkFn func arg dso] /\ registered s' = registered s ++ [mkFn func arg dso] /\ invalid s' = false).
Proof.
  intros H. unfold __cxa_atexit. zif.
  set (step := match list.last (pages s) with None => _ | Some p => _ end).
  assert (extends s step.2 /\ live step.2 = live s /\ registered step.2 = registered s /\ (step.1 = true -> room step.2) /\ ((forall n, mmap n = true) -> (forall n, mprotect n = true) -> step.1 = true))
    as (Hx & El & Er & Hr & Hok).
  { subst step. destruct (new_page_spec s H) as (N1 & N2 & N3 & N4 & N5). destruct (list.last (pages s)) as [p|] eqn:E; [|auto 6].
    destruct (Z.leb_spec (Z.of_nat (length (fns p))) (ind p + 1)); [auto 6|]. cbn [fst snd]. split; [by apply extends_tick|]. split; [done|]. split; [done|]. split; [|auto].
    intros _. apply last_Some in E as [ps E]. exists ps, p. split; [done|]. destruct (last_ok s ps p H E) as [Hl _ _].
    split; [lia|]. destruct (invalid s) eqn:Ei; [|done]. pose proof (i_invalid s H Ei) as E'. rewrite E' in E. by destruct ps. }
  destruct step as [ready s1]. cbn [fst snd] in *. destruct ready; cbn [negb].
  2: { exists (-1), s1. split; [done|]. split; [done|]. intros M1 M2. by discriminate (Hok M1 M2). }
  destruct (store_spec s1 (mkFn func arg dso) (x_inv _ _ Hx) (Hr eq_refl)) as (p & l & Ep & Ea & Hs & Hl & Hreg & Hi). rewrite Ep. cbn [mbind cres_bind]. rewrite Ea. cbn [mbind cres_bind].
  eexists _, _. split; [done|]. split; [eapply extends_trans; [exact Hx|]; eapply extends_trans; [exact Hs|]; apply extends_tick, Hs|].
  intros M1 M2. rewrite M2. split; [done|]. rewrite <- El, <- Er. done.
Qed.

(** ** Handlers that do what they like *)

Lemma page_at s k p : inv s -> pages s !! k = Some p -> page_ok p.
Proof. intros H Hp. apply (proj1 (list.Forall_forall _ _) (i_pages s H)). by eapply list_elem_of_lookup_2. Qed.

Lemma grow_same s s' : pages s' = pages s -> grow s s'.
Proof. intros E k p Hp. exists p. rewrite E. split; [done|lia]. Qed.

(** One entry is changed. *)
Lemma set_entry s k p n f ps : inv s -> pages s !! k = Some p -> (n < Z.to_nat (ind p))%nat -> ps = <[k := mkPage (ind p) (<[n := f]> (fns p))]> (pages s) ->
  Forall page_ok ps /\ (forall q, ps !! 0%nat = Some q -> 1 <= ind q) /\ (forall s', pages s' = ps -> grow s s' /\ live s' = before (pages s) k (fns p) n ++ live_fns [f] ++ after (pages s) k (fns p) n).
Proof.
  intros H Hp Hn ->. destruct (page_at s k p H Hp) as [Hl Hi Hr]. assert (n < length (fns p))%nat as Hn' by lia. split.
  - apply Forall_insert; [apply H|]. split; cbn; [by rewrite length_insert|done|]. by rewrite drop_insert_lt by lia.
  - split.
    { intros q. destruct (decide (k = 0%nat)) as [->|Hne]; [|rewrite list_lookup_insert_ne by done; apply (i_first s H)].
      rewrite list_lookup_insert_eq by (by eapply lookup_lt_Some). intros [= <-]. exact (i_first s H p Hp). }
    intros s' E. split; [|unfold live; rewrite E; by apply live_set]. intros j q Hq. rewrite E. destruct (decide (j = k)) as [->|Hne]; [|exists q; rewrite list_lookup_insert_ne by done; split; [done|lia]].
    rewrite list_lookup_insert_eq by (by eapply lookup_lt_Some). eexists. split; [done|]. assert (q = p) as -> by congruence. cbn. lia.
Qed.

Lemma once_moved (called X L Y registered new : list atexit_fn) : called ++ X ++ L ++ Y ⊆+ registered -> called ++ X ++ new ++ Y ⊆+ registered ++ new.
Proof.
  intros H. assert (called ++ X ++ new ++ Y ≡ₚ (called ++ X ++ Y) ++ new) as -> by solve_Permutation. apply submseteq_skips_r. transitivity (called ++ X ++ L ++ Y); [|done].
  apply submseteq_skips_l, submseteq_skips_l. by apply submseteq_inserts_l.
Qed.

Lemma cleanup_spec func s : inv s -> exists s', __atexit_register_cleanup pgsize mmap mprotect func s = CVal s' /\ inv s' /\ call_depth s' = call_depth s /\ called s' = called s.
Proof.
  intros H. unfold __atexit_register_cleanup. zif. set (step := match pages s with [] => _ | _ => _ end).
  assert (inv step.2 /\ call_depth step.2 = call_depth s /\ called step.2 = called s /\ (step.1 = true -> exists p, pages step.2 !! 0%nat = Some p)) as (H1 & H2 & H3 & H4).
  { subst step. destruct (new_page_spec s H) as ([N1 N2 N3 _ _] & _ & _ & N4 & _). destruct (pages s) as [|p l] eqn:E.
    - split; [done|]. split; [done|]. split; [done|]. intros Hr. destruct (N4 Hr) as ([|q ps] & p & -> & _); by eexists.
    - cbn [fst snd]. split; [by apply inv_tick|]. split; [done|]. split; [done|]. intros _. exists p. cbn. by rewrite E. }
  clearbody step. destruct step as [ready s1]. cbn [fst snd] in *. destruct ready; cbn [negb]; [|by exists s1]. destruct (H4 eq_refl) as [p Hp].
  pose proof (page_at s1 0 p H1 Hp) as [Hl Hi Hr]. pose proof (i_first s1 H1 p Hp) as Hf. rewrite (aget_val _ _ p) by done. cbn [mbind cres_bind].
  rewrite aset_val by lia. cbn [mbind cres_bind]. change (Z.to_nat 0) with 0%nat. set (f := mkFn func 0 0). destruct (lookup_lt_is_Some_2 (fns p) 0) as [old Hold]; [lia|].
  destruct (set_entry s1 0 p 0 f _ H1 Hp ltac:(lia) eq_refl) as (S1 & S2 & S3). eexists. split; [done|]. split; [|done]. apply inv_tick.
  destruct (S3 (with_fn s1 0 (mkPage (ind p) (<[0%nat := f]> (fns p))) f) eq_refl) as [_ El]. split; [done|apply H1| |done|].
  - intros E. pose proof (i_invalid s1 H1 E) as E'. rewrite E' in Hp. discriminate Hp.
  - intros Hm. rewrite El. pose proof (i_once s1 H1 Hm) as Ho. unfold live in Ho. rewrite (live_split _ _ _ _ _ Hp Hold) in Ho.
    etransitivity; [|apply (once_moved _ _ _ _ _ [f] Ho)]. apply submseteq_skips_l, submseteq_skips_l, submseteq_skips_r, live_sub.
Qed.

(** What may happen in a call that finalizes. *)
Definition fin_ok (s s' : atexit_state) : Prop := inv s' /\ call_depth s <= call_depth s' /\ (1 <= call_depth s -> grow s s').
Definition fin_safe (fin : Z -> atexit_state -> cres atexit_state) : Prop := forall dso s, inv s -> partial (fin dso s) (fin_ok s).

Lemma fin_ok_refl s : inv s -> fin_ok s s.
Proof. intros H. split; [done|]. split; [lia|]. intros _. by apply grow_same. Qed.

Lemma fin_ok_trans s1 s2 s3 : fin_ok s1 s2 -> fin_ok s2 s3 -> fin_ok s1 s3.
Proof. intros (_ & D1 & G1) (I2 & D2 & G2). split; [done|]. split; [lia|]. intros Hd. apply (grow_trans _ s2); [auto|apply G2; lia]. Qed.

Lemma fin_ok_weaken c s1 s2 : fin_ok s1 s2 -> partial c (fin_ok s2) -> partial c (fin_ok s1).
Proof. intros H Hc. eapply partial_weaken; [exact Hc|]. intros s3. by apply fin_ok_trans. Qed.

Lemma extends_ok s s' : extends s s' -> fin_ok s s'.
Proof. intros H. split; [apply H|]. split; [rewrite (x_depth _ _ H); lia|]. intros _. by apply keeps_grow, H. Qed.

Lemma acts_safe fin l s : fin_safe fin -> inv s -> partial (run_acts pgsize mmap mprotect fin l s) (fin_ok s).
Proof.
  intros Hf. revert s. induction l as [|[func arg dso|dso] l IH]; intros s H; cbn [run_acts]; [by apply fin_ok_refl| |].
  - destruct (register_spec func arg dso s H) as (r & s' & -> & Hx & _). cbn [mbind cres_bind snd]. apply (fin_ok_weaken _ s s'); [by apply extends_ok|apply IH, Hx].
  - eapply partial_bind; [by apply Hf|]. intros s' Hs'. apply (fin_ok_weaken _ s s'); [done|apply IH, Hs'].
Qed.

(** A handler is marked, noted and called. *)
Lemma mark_spec s k p n f : inv s -> pages s !! k = Some p -> (n < Z.to_nat (ind p))%nat -> fns p !! n = Some f -> fn_ptr f <> 0 ->
  exists s', mark_called mprotect k n p f s = CVal s' /\ inv (note_call s' f) /\ grow s s' /\ call_depth s' = call_depth s /\ called s' = called s.
Proof.
  intros H Hp Hn Hf Hnz. unfold mark_called. pose proof (page_at s k p H Hp) as [Hl Hi Hr]. pose proof (lookup_lt_Some _ _ _ Hf) as Hlen. destruct (mprotect (sys s)) eqn:Em.
  2: { eexists. split; [done|]. split; [|by split; [apply grow_same|]]. destruct H as [H1 H2 H3 H4 H5]. split; try done. intros Hm. congruence. }
  rewrite aset_val by lia. cbn [mbind cres_bind]. rewrite Nat2Z.id. set (f0 := mkFn 0 (fn_arg f) (fn_dso f)).
  destruct (set_entry s k p n f0 _ H Hp Hn eq_refl) as (S1 & S2 & S3). eexists. split; [done|]. set (s' := tick _). destruct (S3 (note_call s' f) eq_refl) as [G El].
  split; [|split; [by apply S3|done]]. destruct H as [H1 H2 H3 H4 H5]. split; [done|done| |done|].
  - intros E. pose proof (H3 E) as E'. rewrite E' in Hp. discriminate Hp.
  - intros Hm. rewrite El. change (called (note_call s' f)) with (called s ++ [f]). change (registered (note_call s' f)) with (registered s). specialize (H5 Hm). unfold live in H5.
    rewrite (live_split _ _ _ _ _ Hp Hf), (live_one f Hnz) in H5. rewrite (live_none [f0]) by (by constructor). etransitivity; [|exact H5]. apply Permutation_submseteq. solve_Permutation.
Qed.
Lemma call_safe fin f s : fin_safe fin -> inv (note_call s f) -> partial (call_fn pgsize mmap mprotect handler fin f s) (fin_ok (note_call s f)).
Proof. intros Hf H. unfold call_fn. by apply acts_safe. Qed.

Lemma walk_fns_safe fin k n dso s p : fin_safe fin -> inv s -> 1 <= call_depth s -> pages s !! k = Some p -> (n <= Z.to_nat (ind p))%nat ->
  partial (walk_fns pgsize mmap mprotect handler fin k n dso s) (fin_ok s).
Proof.
  intros Hf. revert s p. induction n as [|n IH]; intros s p H Hd Hp Hn; cbn [walk_fns]; [by apply fin_ok_refl|].
  rewrite (aget_val _ _ p) by (rewrite ?Nat2Z.id; done || lia). cbn [mbind cres_bind]. pose proof (page_at s k p H Hp) as [Hl Hi Hr].
  destruct (lookup_lt_is_Some_2 (fns p) n) as [f Hfn]; [lia|]. rewrite (aget_val _ _ f) by (rewrite ?Nat2Z.id; done || lia). cbn [mbind cres_bind].
  destruct (Z.eqb_spec (fn_ptr f) 0); [apply (IH s p); done || lia|]. destruct (_ && _); [apply (IH s p); done || lia|].
  destruct (mark_spec s k p n f H Hp) as (s1 & -> & H1 & G1 & D1 & _); [lia|done|done|]. cbn [mbind cres_bind].
  eapply partial_bind; [by apply call_safe|]. intros s2 (H2 & D2 & G2). cbn in D2. specialize (G2 ltac:(cbn; lia)).
  assert (grow s s2) as G by (apply (grow_trans _ (note_call s1 f)); done). destruct (G k p Hp) as (p2 & Hp2 & L2).
  apply (fin_ok_weaken _ s s2); [split; [done|]; split; [lia|done]|]. apply (IH s2 p2); done || lia.
Qed.

Lemma walk_pages_safe fin k dso s : fin_safe fin -> inv s -> 1 <= call_depth s -> (k <= length (pages s))%nat ->
  partial (walk_pages pgsize mmap mprotect handler fin k dso s) (fin_ok s).
Proof.
  intros Hf. revert s. induction k as [|k IH]; intros s H Hd Hk; cbn [walk_pages]; [by apply fin_ok_refl|].
  destruct (lookup_lt_is_Some_2 (pages s) k) as [p Hp]; [lia|]. rewrite (aget_val _ _ p) by (rewrite ?Nat2Z.id; done || lia). cbn [mbind cres_bind].
  eapply partial_bind; [by apply (walk_fns_safe fin k _ dso s p)|]. intros s2 F2. apply (fin_ok_weaken _ s s2); [done|]. destruct F2 as (H2 & D2 & G2). specialize (G2 Hd).
  pose proof (grow_length _ _ G2). apply IH; done || lia.
Qed.

Lemma finalize_safe fuel : fin_safe (finalize fuel).
Proof.
  induction fuel as [|fuel IH]; intros dso s H; [done|]. cbn [__cxa_finalize]. destruct (invalid s); [by apply fin_ok_refl|].
  pose proof (i_depth s H) as Hd. set (s1 := with_depth s (call_depth s + 1)). assert (inv s1) as H1 by (apply (inv_same s); try done; cbn; lia).
  eapply partial_bind; [apply (walk_pages_safe _ _ dso s1 IH H1); cbn; lia|]. intros s2 (H2 & D2 & G2). cbn in D2. specialize (G2 ltac:(cbn; lia)).
  assert (grow s s2) as G by exact G2. destruct (dso =? 0); cbn [partial]; [|split; [done|]; split; [lia|done]].
  set (s3 := with_depth s2 (call_depth s2 - 1)). assert (inv s3) as H3 by (apply (inv_same s2); try done; cbn; lia).
  destruct (Z.eqb_spec (call_depth s3) 0) as [E|E]; cbn in E.
  - split; [|split; [cbn; lia|intros ?; lia]]. destruct H3 as [P1 P2 P3 P4 P5]. split; cbn; try done. intros Hm. cbn in P2, P5. rewrite app_nil_r. etransitivity; [|exact (P5 Hm)]. by apply submseteq_inserts_r.
  - split; [done|]. split; [cbn; lia|]. intros _. exact G.
Qed.

(** ** Handlers that register others at most *)

(** A function that __cxa_finalize calls for a library, or for all. *)
Definition hit (dso : Z) (f : atexit_fn) : bool := (dso =? 0) || (dso =? fn_dso f).
Definition hits (dso : Z) (l : list atexit_fn) : list atexit_fn := filter (fun f => hit dso f = true) l.
Definition misses (dso : Z) (l : list atexit_fn) : list atexit_fn := filter (fun f => hit dso f = false) l.

Lemma hits_snoc dso l f : hits dso (l ++ [f]) = hits dso l ++ if hit dso f then [f] else [].
Proof. unfold hits. rewrite list.filter_app. f_equal. cbn. by destruct (hit dso f). Qed.

Lemma hits_all l : hits 0 l = l.
Proof. unfold hits. induction l as [|f l IH]; [done|]. rewrite filter_cons_True by done. by rewrite IH. Qed.

Lemma misses_snoc dso l f : misses dso (l ++ [f]) = misses dso l ++ if hit dso f then [] else [f].
Proof. unfold misses. rewrite list.filter_app. f_equal. cbn. by destruct (hit dso f). Qed.

(** What a walk does to the functions [l] that it passes: [rest] is behind them. *)
Record walked (s s' : atexit_state) (dso : Z) (front l rest : list atexit_fn) : Prop := {
  w_inv : inv s'; w_depth : call_depth s' = call_depth s; w_called : called s' = called s ++ rev (hits dso l);
  w_live : exists new, live s' = front ++ misses dso l ++ rest ++ new
}.

Section Registering.
Context (Hreg : forall l f a, a ∈ handler l f -> exists func arg dso, a = Register func arg dso) (Hprot : forall n, mprotect n = true).

Lemma acts_registers fin l s : (forall a, a ∈ l -> exists func arg dso, a = Register func arg dso) -> inv s ->
  exists s', run_acts pgsize mmap mprotect fin l s = CVal s' /\ extends s s'.
Proof.
  revert s. induction l as [|a l IH]; intros s Hl H; cbn [run_acts].
  { exists s. split; [done|]. split; try done; [by apply kept_refl|exists []; by rewrite app_nil_r]. }
  destruct (Hl a) as (func & arg & dso & ->); [left|]. destruct (register_spec func arg dso s H) as (r & s1 & -> & Hx & _). cbn [mbind cres_bind snd].
  destruct (IH s1) as (s2 & -> & Hx2); [intros b Hb; apply Hl; by right|apply Hx|]. exists s2. split; [done|]. by eapply extends_trans.
Qed.

(** A handler is marked and called. *)
Lemma mark_call fin s k p n f : inv s -> pages s !! k = Some p -> (n < Z.to_nat (ind p))%nat -> fns p !! n = Some f -> fn_ptr f <> 0 ->
  exists s1 s2 p2, mark_called mprotect k n p f s = CVal s1 /\ call_fn pgsize mmap mprotect handler fin f s1 = CVal s2 /\ inv s2 /\ call_depth s2 = call_depth s /\
    called s2 = called s ++ [f] /\ pages s2 !! k = Some p2 /\ ind p <= ind p2 /\ take n (fns p2) = take n (fns p) /\ take k (pages s2) = take k (pages s) /\
    exists new, live s2 = before (pages s) k (fns p) n ++ after (pages s) k (fns p) n ++ new.
Proof.
  intros H Hp Hn Hf Hnz. destruct (mark_spec s k p n f H Hp Hn Hf Hnz) as (s1 & Em & H1 & _). rewrite Em.
  destruct (acts_registers fin (handler (called s1) f) (note_call s1 f)) as (s2 & E2 & Hx); [intros a Ha; by apply Hreg in Ha|done|].
  pose proof (page_at s k p H Hp) as [Hl Hi Hr]. pose proof (lookup_lt_Some _ _ _ Hf) as Hlen. pose proof (lookup_lt_Some _ _ _ Hp) as Hk.
  unfold mark_called in Em. rewrite Hprot, aset_val in Em by lia. cbn [mbind cres_bind] in Em. rewrite Nat2Z.id in Em. set (f0 := mkFn 0 (fn_arg f) (fn_dso f)) in *.
  set (p1 := mkPage (ind p) (<[n:=f0]> (fns p))) in *. apply (f_equal (fun c => match c with CVal a => a | _ => s end)) in Em. subst s1. cbv beta iota in *.
  set (s1 := tick (tick (with_pages s (<[k:=p1]> (pages s))))) in *. assert (pages (note_call s1 f) !! k = Some p1) as Hp1 by (cbn; by apply list_lookup_insert_eq).
  destruct (x_keeps _ _ Hx k p1 Hp1) as (p2 & Hp2 & L2 & T2). cbn in L2, T2. exists s1, s2, p2. split; [done|]. split; [exact E2|].
  split; [apply Hx|]. split; [apply Hx|]. split; [exact (x_called _ _ Hx)|]. split; [done|]. split; [done|]. split; [|split].
  - apply (f_equal (take n)) in T2. rewrite !take_take, !Nat.min_l, take_insert_ge in T2 by lia. done.
  - apply list_eq. intros j. destruct (decide (j < k)%nat) as [Hj|Hj]; [|by rewrite !lookup_take_ge by lia]. rewrite !lookup_take_lt by lia.
    rewrite (x_front _ _ Hx) by (cbn; rewrite length_insert; lia). cbn. by rewrite list_lookup_insert_ne by lia.
  - destruct (x_live _ _ Hx) as [new ->]. exists new. change (live (note_call s1 f)) with (live_fns (concat (fns <$> <[k := mkPage (ind p) (<[n := f0]> (fns p))]> (pages s)))). rewrite (live_set (pages s) k p n f0 (ind p)) by done. rewrite (live_none [f0]) by (by constructor).
    cbn [app]. by rewrite <- app_assoc.
Qed.

Lemma walk_fns_runs fin k n dso s p rest : inv s -> pages s !! k = Some p -> (n <= Z.to_nat (ind p))%nat ->
  live s = before (pages s) k (fns p) n ++ rest ->
  exists s', walk_fns pgsize mmap mprotect handler fin k n dso s = CVal s' /\ take k (pages s') = take k (pages s) /\
    walked s s' dso (live_fns (concat (fns <$> take k (pages s)))) (live_fns (take n (fns p))) rest.
Proof.
  revert s p rest. induction n as [|n IH]; intros s p rest H Hp Hn Hlive; cbn [walk_fns].
  { exists s. split; [done|]. split; [done|]. split; [done|done|by rewrite app_nil_r|]. exists []. rewrite app_nil_r. unfold before in Hlive. by rewrite app_nil_r in Hlive. }
  rewrite (aget_val _ _ p) by (rewrite ?Nat2Z.id; done || lia). cbn [mbind cres_bind]. pose proof (page_at s k p H Hp) as [Hl Hi Hr].
  destruct (lookup_lt_is_Some_2 (fns p) n) as [f Hfn]; [lia|]. rewrite (aget_val _ _ f) by (rewrite ?Nat2Z.id; done || lia). cbn [mbind cres_bind].
  assert (live_fns (take (S n) (fns p)) = live_fns (take n (fns p)) ++ live_fns [f]) as Et by (by rewrite (take_S_r _ _ _ Hfn), live_app).
  unfold before in Hlive. rewrite Et in Hlive. rewrite Et. rewrite <- !app_assoc in Hlive. rewrite app_assoc in Hlive. fold (before (pages s) k (fns p) n) in Hlive.
  destruct (Z.eqb_spec (fn_ptr f) 0) as [Hz|Hnz].
  { rewrite (live_none [f]) in Hlive |- * by (by constructor). rewrite app_nil_r. apply IH; done || lia. }
  rewrite (live_one f Hnz) in Hlive |- *. destruct (negb (dso =? 0) && negb (dso =? fn_dso f)) eqn:Eh.
  - assert (hit dso f = false) as Hh by (unfold hit; zbool; by do 2 zif).
    destruct (IH s p ([f] ++ rest) H Hp ltac:(lia) Hlive) as (s' & E & Ek & [W1 W2 W3 [new W4]]). exists s'. split; [done|]. split; [done|]. split; [done|done| |].
    + by rewrite hits_snoc, Hh, app_nil_r.
    + exists new. rewrite misses_snoc, Hh, W4. by rewrite <- !app_assoc.
  - assert (hit dso f = true) as Hh by (unfold hit; destruct (dso =? 0), (dso =? fn_dso f); done).
    destruct (mark_call fin s k p n f H Hp ltac:(lia) Hfn Hnz) as (s1 & s2 & p2 & -> & E2 & H2 & D2 & C2 & Hp2 & L2 & T2 & K2 & new2 & V2). cbn [mbind cres_bind]. rewrite E2. cbn [mbind cres_bind].
    assert (after (pages s) k (fns p) n = rest) as Ea.
    { unfold live in Hlive. rewrite (live_split _ _ _ _ _ Hp Hfn), (live_one f Hnz) in Hlive. by apply app_inv_head, app_inv_head in Hlive. }
    rewrite Ea in V2. destruct (IH s2 p2 (rest ++ new2) H2 Hp2 ltac:(lia)) as (s' & E & Ek & [W1 W2 W3 [new W4]]); [rewrite V2; unfold before; by rewrite K2, T2|].
    exists s'. split; [done|]. split; [congruence|]. split; [done|congruence| |].
    + rewrite W3, C2, hits_snoc, Hh, rev_app_distr, <- app_assoc, T2. done.
    + exists (new2 ++ new). rewrite misses_snoc, Hh, app_nil_r, W4, K2, T2. by rewrite <- !app_assoc.
Qed.

Lemma walk_pages_runs fin k dso s rest : inv s -> (k <= length (pages s))%nat -> live s = live_fns (concat (fns <$> take k (pages s))) ++ rest ->
  exists s', walk_pages pgsize mmap mprotect handler fin k dso s = CVal s' /\ walked s s' dso [] (live_fns (concat (fns <$> take k (pages s)))) rest.
Proof.
  revert s rest. induction k as [|k IH]; intros s rest H Hk Hlive; cbn [walk_pages].
  { exists s. split; [done|]. split; [done|done|by rewrite app_nil_r|]. exists []. rewrite app_nil_r. exact Hlive. }
  destruct (lookup_lt_is_Some_2 (pages s) k) as [p Hp]; [lia|]. rewrite (aget_val _ _ p) by (rewrite ?Nat2Z.id; done || lia). cbn [mbind cres_bind].
  pose proof (page_at s k p H Hp) as [Hl Hi Hr].
  assert (live_fns (concat (fns <$> take (S k) (pages s))) = before (pages s) k (fns p) (Z.to_nat (ind p))) as Et.
  { rewrite (take_S_r _ _ _ Hp), fmap_app, concat_app, live_app. cbn [fmap list_fmap concat]. rewrite app_nil_r. unfold before. f_equal.
    rewrite <- (take_drop (Z.to_nat (ind p)) (fns p)) at 1. by rewrite live_app, (live_none _ Hr), app_nil_r. }
  rewrite Et in Hlive |- *. destruct (walk_fns_runs fin k (Z.to_nat (ind p)) dso s p rest H Hp ltac:(lia) Hlive) as (s1 & -> & Ek & [W1 W2 W3 [new W4]]). cbn [mbind cres_bind].
  set (front := live_fns (concat (fns <$> take k (pages s)))) in *. set (l := live_fns (take (Z.to_nat (ind p)) (fns p))) in *.
  assert (k <= length (pages s1))%nat as Hk1 by (apply (f_equal length) in Ek; rewrite !length_take in Ek; lia).
  destruct (IH s1 (misses dso l ++ rest ++ new) W1 Hk1) as (s2 & E2 & [X1 X2 X3 [new2 X4]]); [rewrite Ek; exact W4|]. rewrite Ek in X3, X4. fold front in X3, X4.
  exists s2. split; [done|]. change (before (pages s) k (fns p) (Z.to_nat (ind p))) with (front ++ l). split; [done|congruence| |].
  - rewrite X3, W3. unfold hits. by rewrite list.filter_app, rev_app_distr, <- app_assoc.
  - exists (new ++ new2). rewrite X4. unfold misses. rewrite list.filter_app. cbn [app]. by rewrite <- !app_assoc.
Qed.

(** The functions of a library are called, the last first; the others stay, and what the
    handlers have registered comes after them. *)
Lemma finalize_runs fuel dso s : inv s -> exists s', finalize (S fuel) dso s = CVal s' /\ inv s' /\ called s' = called s ++ rev (hits dso (live s)) /\
  (dso <> 0 -> exists new, live s' = misses dso (live s) ++ new) /\ (dso = 0 -> call_depth s = 0 -> pages s' = []).
Proof.
  intros H. cbn [__cxa_finalize]. destruct (invalid s) eqn:Ei.
  { pose proof (i_invalid s H Ei) as Ep. assert (live s = []) as El by (unfold live; by rewrite Ep). exists s. rewrite El. split; [done|]. split; [done|]. split; [by rewrite app_nil_r|].
    split; [by exists []|done]. }
  pose proof (i_depth s H) as Hd. set (s1 := with_depth s (call_depth s + 1)). assert (inv s1) as H1 by (apply (inv_same s); try done; cbn; lia).
  assert (live_fns (concat (fns <$> take (length (pages s1)) (pages s1))) = live s) as El by (by rewrite firstn_all).
  destruct (walk_pages_runs (finalize fuel) (length (pages s1)) dso s1 [] H1) as (s2 & -> & [W1 W2 W3 [new W4]]); [done|by rewrite El, app_nil_r|]. rewrite El in W3, W4. cbn [mbind cres_bind].
  cbn in W2. destruct (Z.eqb_spec dso 0) as [->|Hne].
  - set (s3 := with_depth s2 (call_depth s2 - 1)). assert (inv s3) as H3 by (apply (inv_same s2); try done; cbn; lia). eexists. split; [done|].
    destruct (Z.eqb_spec (call_depth s3) 0) as [E|E]; cbn in E.
    + split; [|split; [done|split; done]]. destruct H3 as [P1 P2 P3 P4 P5]. split; cbn; try done. intros Hm. cbn in P2, P5. rewrite app_nil_r. etransitivity; [|exact (P5 Hm)]. by apply submseteq_inserts_r.
    + split; [done|]. split; [done|]. split; [done|]. intros _ E0. lia.
  - exists s2. split; [done|]. split; [done|]. split; [exact W3|]. split; [|done]. intros _. exists new. exact W4.
Qed.
End Registering.

(** ** Whole programs *)

Lemma start_inv : inv atexit_start.
Proof. split; cbn; try done. Qed.

(** What a program does with the handlers, in any order. *)
Inductive op :=
| DoRegister (func arg dso : Z)
| DoCleanup (func : Z)
| DoFinalize (dso : Z).

Fixpoint run_ops (fuel : nat) (ops : list op) (s : atexit_state) : cres atexit_state :=
  match ops with
  | [] => CVal s
  | DoRegister func arg dso :: ops => r ← register func arg dso s; run_ops fuel ops r.2
  | DoCleanup func :: ops => s ← __atexit_register_cleanup pgsize mmap mprotect func s; run_ops fuel ops s
  | DoFinalize dso :: ops => s ← finalize fuel dso s; run_ops fuel ops s
  end.

Lemma run_ops_safe fuel ops s : inv s -> partial (run_ops fuel ops s) inv.
Proof.
  revert s. induction ops as [|[func arg dso|func|dso] ops IH]; intros s H; cbn [run_ops]; [done| | |].
  - destruct (register_spec func arg dso s H) as (r & s' & -> & Hx & _). cbn [mbind cres_bind snd]. apply IH, Hx.
  - destruct (cleanup_spec func s H) as (s' & -> & H' & _). cbn [mbind cres_bind]. by apply IH.
  - eapply partial_bind; [by apply finalize_safe|]. intros s' (H' & _). by apply IH.
Qed.

Lemma register_all rs s fuel : (forall n, mmap n = true) -> (forall n, mprotect n = true) -> (forall f, f ∈ rs -> fn_ptr f <> 0) -> inv s ->
  exists s', run_ops fuel (map (fun f => DoRegister (fn_ptr f) (fn_arg f) (fn_dso f)) rs) s = CVal s' /\ inv s' /\ live s' = live s ++ rs /\ called s' = called s /\ call_depth s' = call_depth s.
Proof.
  intros Hm Hp. revert s. induction rs as [|f rs IH]; intros s Hf H; cbn [map run_ops]; [exists s; by rewrite app_nil_r|].
  destruct (register_spec (fn_ptr f) (fn_arg f) (fn_dso f) s H) as (r & s1 & -> & Hx & Hok). cbn [mbind cres_bind snd]. destruct (Hok Hm Hp) as (_ & El & _).
  destruct (IH s1) as (s2 & -> & H2 & L2 & C2 & D2); [intros g Hg; apply Hf; by right|apply Hx|]. exists s2. split; [done|]. split; [done|]. split; [|rewrite C2, D2; split; apply Hx].
  rewrite L2, El, <- app_assoc. f_equal. rewrite live_one by (cbn; apply Hf; left). by destruct f.
Qed.

(** C18: whatever a program registers and finalizes, and whatever its handlers do, register,
    finalize and exit included, and whether or not there is memory for them: no page is
    accessed that is not there, also when a handler exits, and no handler is called more often
    than it was registered (if mprotect succeeds); those that were called are not waiting any
    more. *)
Theorem handlers_run_once fuel ops : let r := run_ops fuel ops atexit_start in
  r <> CUndef /\ forall s, r = CVal s -> (forall n, mprotect n = true) -> called s ++ live s ⊆+ registered s.
Proof.
  cbv zeta. pose proof (run_ops_safe fuel ops atexit_start start_inv) as H. destruct (run_ops fuel ops atexit_start); [|done|done]. split; [done|].
  intros s [= <-]. apply H.
Qed.

(** C17: handlers that were registered, on as many pages as it takes, are called when their
    library is finalized, each once and the last one first; exit then calls those of the other
    libraries in the same way, after those that the handlers have registered meanwhile.  exit
    gives the pages back if no library was finalized before. *)
Theorem exit_calls_all fuel rs dso (Hm : forall n, mmap n = true) (Hp : forall n, mprotect n = true) (Hf : forall f, f ∈ rs -> fn_ptr f <> 0)
  (Hreg : forall l f a, a ∈ handler l f -> exists func arg d, a = Register func arg d) :
  exists s1 s2 new, run_ops fuel (map (fun f => DoRegister (fn_ptr f) (fn_arg f) (fn_dso f)) rs) atexit_start = CVal s1 /\
  finalize (S fuel) dso s1 = CVal s2 /\ called s2 = rev (hits dso rs) /\ (dso = 0 -> pages s2 = []) /\
  (dso <> 0 -> exists s3, exit pgsize mmap mprotect handler (S fuel) s2 = CVal s3 /\ called s3 = rev (hits dso rs) ++ rev (misses dso rs ++ new)).
Proof.
  destruct (register_all rs atexit_start fuel Hm Hp Hf start_inv) as (s1 & E1 & H1 & L1 & C1 & D1). cbn in C1, D1. change (live atexit_start) with (@nil atexit_fn) in L1. cbn [app] in L1.
  destruct (finalize_runs Hreg Hp fuel dso s1 H1) as (s2 & E2 & H2 & C2 & V2 & P2). rewrite L1, C1 in C2. rewrite L1 in V2.
  destruct (Z.eq_dec dso 0) as [->|Hne]; [exists s1, s2, []; repeat (split; [done|]); split; [auto|done]|]. destruct (V2 Hne) as [new E]. exists s1, s2, new. split; [done|]. split; [done|]. split; [done|]. split; [done|]. intros _.
  destruct (finalize_runs Hreg Hp fuel 0 s2 H2) as (s3 & E3 & _ & C3 & _). exists s3. split; [exact E3|]. rewrite C3, C2, E. by rewrite hits_all.
Qed.
End Correct.

(** Pages of three entries; the handler 7 registers 8. *)
Definition seven_registers (l : list atexit_fn) (f : atexit_fn) : list act := if fn_ptr f =? 7 then [Register 8 0 0] else [].

Lemma handlers_run_once_witness :
  run_ops 48 (fun _ => true) (fun _ => true) (fun l f => Finalize 0 :: seven_registers l f) 5 [DoRegister 5 1 9; DoRegister 7 2 0; DoCleanup 3; DoFinalize 9; DoFinalize 0] atexit_start <> CUndef.
Proof. refine (proj1 (handlers_run_once 48 (fun _ => true) (fun _ => true) (fun l f => Finalize 0 :: seven_registers l f) _ 5 _)). lia. Defined.

Lemma exit_calls_all_witness : exists s1 s2 s3,
  run_ops 48 (fun _ => true) (fun _ => true) seven_registers 0 [DoRegister 5 1 9; DoRegister 6 0 0; DoRegister 7 2 9; DoRegister 4 0 0] atexit_start = CVal s1 /\
  __cxa_finalize 48 (fun _ => true) (fun _ => true) seven_registers 1 9 s1 = CVal s2 /\ called s2 = [mkFn 7 2 9; mkFn 5 1 9] /\ length (pages s2) = 3%nat /\
  exit 48 (fun _ => true) (fun _ => true) seven_registers 1 s2 = CVal s3 /\ called s3 = [mkFn 7 2 9; mkFn 5 1 9; mkFn 8 0 0; mkFn 4 0 0; mkFn 6 0 0].
Proof.
  destruct (exit_calls_all 48 (fun _ => true) (fun _ => true) seven_registers ltac:(lia) 0 [mkFn 5 1 9; mkFn 6 0 0; mkFn 7 2 9; mkFn 4 0 0] 9) as (s1 & s2 & new & E1 & E2 & E3 & _ & E4).
  - done.
  - done.
  - intros f. rewrite !elem_of_cons. intros [->|[->|[->|[->|[]%not_elem_of_nil]]]]; done.
  - intros l f a. unfold seven_registers. destruct (fn_ptr f =? 7); [|intros []%not_elem_of_nil]. intros ->%list_elem_of_singleton. by eexists _, _, _.
  - destruct E4 as (s3 & E4 & E5); [done|]. exists s1, s2, s3. split; [exact E1|]. split; [exact E2|]. split; [exact E3|].
    vm_compute in E1. injection E1 as <-. vm_compute in E2. injection E2 as <-. split; [reflexivity|]. split; [exact E4|]. vm_compute in E4. injection E4 as <-. reflexivity.
Defined.

(** ** What goes wrong *)

(** A function that a handler registers during exit is never called. *)
Lemma registered_in_exit_lost : exists s1 s2, __cxa_atexit 4096 (fun _ => true) (fun _ => true) 7 0 0 atexit_start = CVal (0, s1) /\
  exit 4096 (fun _ => true) (fun _ => true) seven_registers 2 s1 = CVal s2 /\ called s2 = [mkFn 7 0 0] /\ registered s2 = [mkFn 7 0 0; mkFn 8 0 0] /\ pages s2 = [].
Proof. eexists _, _. split; [reflexivity|]. split; [vm_compute; reflexivity|]. split; [reflexivity|]. split; reflexivity. Qed.

(** call_depth is not counted down when a library is finalized: exit keeps the pages. *)
Lemma depth_leaks : exists s, __cxa_finalize 4096 (fun _ => true) (fun _ => true) seven_registers 1 9 (mkAtexit [] false 0 0 [] []) = CVal s /\ call_depth s = 1.
Proof. eexists. split; [vm_compute; reflexivity|]. reflexivity. Qed.

(** When the page cannot be protected again the registration fails, and the function is registered. *)
Lemma failure_registers : exists s, __cxa_atexit 4096 (fun _ => true) (fun _ => false) 7 0 0 atexit_start = CVal (-1, s) /\ live s = [mkFn 7 0 0].
Proof. eexists. split; [vm_compute; reflexivity|]. reflexivity. Qed.
