(* ===== verification/Environ.v ===== *)
(** * The environment: libc/stdlib/getenv.c, setenv.c, putenv.c

    environ is a list of strings "name=value"; a pointer into a string is the list of the
    characters from it to the NUL.  Whether memory can be had is an argument of each call.  The
    specification is a finite map from names to values. *)

From Stdlib Require Import ZArith Lia.
From stdpp Require Import base list numbers gmap.
From S2P Require Import Prelude.

Open Scope Z_scope.

(** '=' *)
Definition EQ : Z := 0x3d.

(** The part of a name before '='. *)
Fixpoint bare_name (name : list Z) : list Z :=
  match name with
  | [] => []
  | c :: name => if c =? EQ then [] else c :: bare_name name
  end.

(** The comparison of __findenv: the value, if [cp] starts with the name [np] and '='. *)
Fixpoint match_name (np cp : list Z) : option (list Z) :=
  match np, cp with
  | [], c :: cp => if c =? EQ then Some cp else None
  | d :: np, c :: cp => if c =? d then match_name np cp else None
  | _, [] => None
  end.

(** *offset and the value, from [i] on. *)
Fixpoint find_from (i : nat) (np : list Z) (env : list (list Z)) : option (nat * list Z) :=
  match env with
  | [] => None
  | cp :: env => match match_name np cp with Some v => Some (i, v) | None => find_from (S i) np env end
  end.

Definition __findenv (name : list Z) (env : list (list Z)) : option (nat * list Z) := find_from 0 (bare_name name) env.

Definition getenv (name : list Z) (env : list (list Z)) : option (list Z) := snd <$> __findenv name env.

(** A '=' in front of the value is left out. *)
Definition bare_value (value : list Z) : list Z :=
  match value with c :: v => if c =? EQ then v else value | [] => [] end.

(** [realloc] and [malloc] say whether there is memory for the array and for the string.  The
    pointer that malloc returns is stored before it is tested: NULL ends the environment. *)
Definition setenv (realloc malloc : bool) (name value : list Z) (rewrite : Z) (env : list (list Z)) : Z * list (list Z) :=
  let value := bare_value value in
  let slot (offset : nat) (env : list (list Z)) :=
    if malloc then (0, take offset env ++ [bare_name name ++ [EQ] ++ value] ++ drop (S offset) env) else (-1, take offset env) in
  match __findenv name env with
  | Some (offset, C) =>
      if rewrite =? 0 then (0, env)
      else if (length value <=? length C)%nat then
        (0, alter (fun s => take (length s - length C) s ++ value) offset env)
      else slot offset env
  | None => if realloc then slot (length env) env else (-1, env)
  end.

(** while (__findenv(name, &offset)) *)
Fixpoint unset_loop (fuel : nat) (name : list Z) (env : list (list Z)) : cres (list (list Z)) :=
  match fuel with
  | O => CFuel
  | S fuel => match __findenv name env with None => CVal env | Some (offset, _) => unset_loop fuel name (delete offset env) end
  end.

Definition unsetenv (name : list Z) (env : list (list Z)) : cres (Z * list (list Z)) :=
  env ← unset_loop (S (length env)) name env; CVal (0, env).

(** strchr(p, '='): the name before it, and what follows. *)
Fixpoint split_eq (p : list Z) : option (list Z * list Z) :=
  match p with
  | [] => None
  | c :: p => if c =? EQ then Some ([], p) else match split_eq p with None => None | Some (n, v) => Some (c :: n, v) end
  end.

Definition putenv (strdup realloc malloc : bool) (str : list Z) (env : list (list Z)) : Z * list (list Z) :=
  if negb strdup then (-1, env)
  else match split_eq str with None => (-1, env) | Some (p, equal) => setenv realloc malloc p equal 1 env end.

(** ** The map of an environment *)

(** The first string of a name counts; strings without '=' have none. *)
Definition env_map (env : list (list Z)) : gmap (list Z) (list Z) :=
  foldr (fun s m => match split_eq s with Some (n, v) => <[n := v]> m | None => m end) ∅ env.

Lemma env_map_cons s env : env_map (s :: env) = match split_eq s with Some (n, v) => <[n := v]> (env_map env) | None => env_map env end.
Proof. done. Qed.

Definition plain (n : list Z) : Prop := EQ ∉ n.

Lemma bare_plain n : plain (bare_name n).
Proof. unfold plain. induction n as [|c n IH]; cbn [bare_name]; [apply not_elem_of_nil|]. destruct (Z.eqb_spec c EQ); [apply not_elem_of_nil|]. apply not_elem_of_cons. split; [congruence|done]. Qed.

Lemma bare_of_plain n : plain n -> bare_name n = n.
Proof.
  unfold plain. induction n as [|c n IH]; cbn [bare_name]; [done|]. intros [Hc Hn]%not_elem_of_cons. rewrite (proj2 (Z.eqb_neq c EQ)) by congruence. by rewrite IH.
Qed.

Lemma split_name s n v : split_eq s = Some (n, v) <-> plain n /\ s = n ++ [EQ] ++ v.
Proof.
  unfold plain. revert n. induction s as [|c s IH]; intros n; cbn [split_eq]; [split; [done|]; intros [_ E]; by destruct n|]. destruct (Z.eqb_spec c EQ) as [->|Hc].
  - split; [intros [= <- <-]; split; [apply not_elem_of_nil|done]|]. intros [Hn E]. destruct n as [|d n]; [by injection E as ->|]. injection E as <- _. exfalso. apply Hn. left.
  - destruct (split_eq s) as [[n' v']|].
    + split; [intros [= <- <-]; destruct (proj1 (IH n') eq_refl) as [Hn ->]; split; [apply not_elem_of_cons; split; [congruence|done]|done]|].
      intros [Hn E]. destruct n as [|d n]; [injection E as -> _; done|]. injection E as <- E. apply not_elem_of_cons in Hn as [_ Hn]. specialize (proj2 (IH n) (conj Hn E)) as [= <- <-]. done.
    + split; [done|]. intros [Hn E]. destruct n as [|d n]; [injection E as -> _; done|]. injection E as <- E. apply not_elem_of_cons in Hn as [_ Hn]. by specialize (proj2 (IH n) (conj Hn E)).
Qed.

Lemma match_split np s v : plain np -> match_name np s = Some v <-> split_eq s = Some (np, v).
Proof.
  intros Hp. rewrite split_name. revert s Hp. induction np as [|d np IH]; intros s Hp.
  - destruct s as [|c s]; cbn [match_name]; [split; [done|]; by intros [_ [=]]|]. destruct (Z.eqb_spec c EQ) as [->|Hc]; [|split; [done|]; by intros [_ [= -> ->]]].
    split; [by intros [= ->]|]. by intros [_ [= ->]].
  - unfold plain in Hp. apply not_elem_of_cons in Hp as [Hd Hp]. destruct s as [|c s]; cbn [match_name]; [split; [done|]; by intros [_ [=]]|]. destruct (Z.eqb_spec c d) as [->|Hc].
    + rewrite (IH s Hp). split; intros [H1 E]; (split; [|]); try done; [apply not_elem_of_cons; by split|by rewrite E|by injection E].
    + split; [done|]. intros [_ [= -> _]]. done.
Qed.

(** What __findenv finds is the value of the map, and where the first string of the name is. *)
Lemma find_from_map i np env : plain np -> match find_from i np env with
  | None => env_map env !! np = None
  | Some (j, v) => env_map env !! np = Some v /\ exists l1 l2, env = l1 ++ [np ++ [EQ] ++ v] ++ l2 /\ j = (i + length l1)%nat /\ env_map l1 !! np = None
  end.
Proof.
  intros Hp. revert i. induction env as [|s env IH]; intros i; cbn [find_from]; [done|]. rewrite env_map_cons. destruct (match_name np s) as [v|] eqn:E.
  - apply match_split in E; [|done]. rewrite E, lookup_insert_eq. split; [done|]. apply split_name in E as [_ ->]. exists [], env. split; [done|]. split; [cbn; lia|done].
  - specialize (IH (S i)). assert (forall m : gmap (list Z) (list Z), (match split_eq s with Some (n, v) => <[n := v]> m | None => m end) !! np = m !! np) as Hs.
    { intros m. destruct (split_eq s) as [[n v]|] eqn:Es; [|done]. apply lookup_insert_ne. intros ->. apply match_split in Es; [congruence|done]. }
    rewrite Hs. destruct (find_from (S i) np env) as [[j v]|]; [|done]. destruct IH as (H & l1 & l2 & -> & -> & Hl1). split; [done|].
    exists (s :: l1), l2. split; [done|]. split; [cbn; lia|]. by rewrite env_map_cons, Hs.
Qed.

(** A string whose name is not in front of it. *)
Lemma env_map_mid l1 l2 np v : plain np -> env_map l1 !! np = None -> env_map (l1 ++ [np ++ [EQ] ++ v] ++ l2) = <[np := v]> (env_map (l1 ++ l2)).
Proof.
  intros Hp. induction l1 as [|s l1 IH]; cbn [app].
  - intros _. rewrite env_map_cons. assert (split_eq (np ++ [EQ] ++ v) = Some (np, v)) as E by (by apply split_name). cbn [app] in E. by rewrite E.
  - rewrite !env_map_cons. destruct (split_eq s) as [[n w]|]; [|exact IH]. destruct (decide (n = np)) as [->|Hn]; [by rewrite lookup_insert_eq|].
    rewrite lookup_insert_ne by done. intros H. cbn [app] in IH. rewrite IH by done. by rewrite insert_insert_ne.
Qed.

Lemma findenv_spec name env : match __findenv name env with
  | None => env_map env !! bare_name name = None
  | Some (j, v) => env_map env !! bare_name name = Some v /\
      exists l1 l2, env = l1 ++ [bare_name name ++ [EQ] ++ v] ++ l2 /\ j = length l1 /\ env_map env = <[bare_name name := v]> (env_map (l1 ++ l2)) /\ env_map l1 !! bare_name name = None
  end.
Proof.
  unfold __findenv. pose proof (find_from_map 0 (bare_name name) env (bare_plain name)) as H. destruct (find_from 0 _ env) as [[j v]|]; [|done].
  destruct H as (H & l1 & l2 & -> & -> & Hl). split; [done|]. exists l1, l2. split; [done|]. split; [done|]. split; [|done]. by apply env_map_mid; [apply bare_plain|].
Qed.

Lemma getenv_map name env : getenv name env = env_map env !! bare_name name.
Proof. unfold getenv. pose proof (findenv_spec name env) as H. destruct (__findenv name env) as [[j v]|]; cbn; [by destruct H as [-> _]|done]. Qed.

Lemma setenv_map realloc name value rewrite env : let r := setenv realloc true name value rewrite env in
  let m := env_map env in let n := bare_name name in
  env_map r.2 = (if bool_decide (is_Some (m !! n)) then if rewrite =? 0 then m else <[n := bare_value value]> m
                 else if realloc then <[n := bare_value value]> m else m) /\
  r.1 = (if bool_decide (is_Some (m !! n)) || realloc then 0 else -1).
Proof.
  cbv zeta. unfold setenv. pose proof (findenv_spec name env) as H. destruct (__findenv name env) as [[j v]|].
  - destruct H as (H & l1 & l2 & E & -> & Em & Hl). rewrite bool_decide_true by (by exists v). destruct (rewrite =? 0); [done|].
    assert (forall w, env_map (l1 ++ [bare_name name ++ [EQ] ++ w] ++ l2) = <[bare_name name := w]> (env_map env)) as Hw.
    { intros w. rewrite env_map_mid by (done || apply bare_plain). by rewrite Em, insert_insert_eq. }
    destruct (_ <=? _)%nat; cbn [fst snd]; (split; [|done]); rewrite <- Hw; f_equal; rewrite E.
    + change ([bare_name name ++ [EQ] ++ v] ++ l2) with ((bare_name name ++ [EQ] ++ v) :: l2). rewrite alter_app_r_alt, Nat.sub_diag by lia. cbn [alter list_alter app]. f_equal. f_equal.
      change (EQ :: v) with ([EQ] ++ v). rewrite app_assoc, take_app_length'; [by rewrite <- app_assoc|]. rewrite !length_app. lia.
    + rewrite take_app_length. f_equal. cbn [app]. f_equal. rewrite drop_app_ge, Nat.sub_succ_l, Nat.sub_diag by lia. done.
  - rewrite bool_decide_false by (rewrite H; by intros [v Hv]). destruct realloc; [|done]. cbn [fst snd]. split; [|done].
    rewrite firstn_all, drop_ge by lia. rewrite env_map_mid by (done || apply bare_plain). by rewrite app_nil_r.
Qed.

Lemma unset_loop_map fuel name env : (length env < fuel)%nat -> exists env', unset_loop fuel name env = CVal env' /\ env_map env' = delete (bare_name name) (env_map env).
Proof.
  revert env. induction fuel as [|fuel IH]; intros env Hf; [lia|]. cbn [unset_loop]. pose proof (findenv_spec name env) as H. destruct (__findenv name env) as [[j v]|].
  - destruct H as (H & l1 & l2 & E & -> & Em & Hl). assert (delete (length l1) env = l1 ++ l2) as Ed by (rewrite E; apply delete_middle).
    rewrite Ed. destruct (IH (l1 ++ l2)) as (env' & -> & Hm); [rewrite E, !length_app in Hf; rewrite length_app; cbn in Hf; lia|].
    exists env'. split; [done|]. by rewrite Hm, Em, delete_insert_eq.
  - exists env. split; [done|]. by rewrite delete_id.
Qed.

(** ** Programs *)

(** The calls, with what memory they get. *)
Inductive env_op :=
| SetEnv (realloc : bool) (name value : list Z) (rewrite : Z)
| PutEnv (strdup realloc : bool) (str : list Z)
| UnsetEnv (name : list Z)
| GetEnv (name : list Z).

Definition env_step (o : env_op) (env : list (list Z)) : cres ((Z * option (list Z)) * list (list Z)) :=
  match o with
  | SetEnv realloc name value rewrite => let r := setenv realloc true name value rewrite env in CVal (r.1, None, r.2)
  | PutEnv strdup realloc str => let r := putenv strdup realloc true str env in CVal (r.1, None, r.2)
  | UnsetEnv name => r ← unsetenv name env; CVal (r.1, None, r.2)
  | GetEnv name => CVal (0, getenv name env, env)
  end.

Definition map_set (realloc : bool) (n v : list Z) (rewrite : bool) (m : gmap (list Z) (list Z)) : (Z * option (list Z)) * gmap (list Z) (list Z) :=
  match m !! n with
  | Some _ => (0, None, if rewrite then <[n := v]> m else m)
  | None => if realloc then (0, None, <[n := v]> m) else (-1, None, m)
  end.

(** The same calls on a map. *)
Definition map_step (o : env_op) (m : gmap (list Z) (list Z)) : (Z * option (list Z)) * gmap (list Z) (list Z) :=
  match o with
  | SetEnv realloc name value rewrite => map_set realloc (bare_name name) (bare_value value) (negb (rewrite =? 0)) m
  | PutEnv strdup realloc str =>
      match split_eq str with
      | Some (n, v) => if strdup then map_set realloc n (bare_value v) true m else (-1, None, m)
      | None => (-1, None, m)
      end
  | UnsetEnv name => (0, None, delete (bare_name name) m)
  | GetEnv name => (0, m !! bare_name name, m)
  end.

Fixpoint env_run (ops : list env_op) (env : list (list Z)) : cres (list (Z * option (list Z)) * list (list Z)) :=
  match ops with
  | [] => CVal ([], env)
  | o :: ops => r ← env_step o env; s ← env_run ops r.2; CVal (r.1 :: s.1, s.2)
  end.

Fixpoint map_run (ops : list env_op) (m : gmap (list Z) (list Z)) : list (Z * option (list Z)) * gmap (list Z) (list Z) :=
  match ops with
  | [] => ([], m)
  | o :: ops => let r := map_step o m in let s := map_run ops r.2 in (r.1 :: s.1, s.2)
  end.

Lemma setenv_set realloc name value rewrite env : let r := setenv realloc true name value rewrite env in
  map_set realloc (bare_name name) (bare_value value) (negb (rewrite =? 0)) (env_map env) = (r.1, None, env_map r.2).
Proof.
  cbv zeta. destruct (setenv_map realloc name value rewrite env) as [-> ->]. unfold map_set. destruct (env_map env !! bare_name name) eqn:E.
  - rewrite bool_decide_true by (by eexists). cbn. by destruct (rewrite =? 0).
  - rewrite bool_decide_false by (by intros [? [=]]). cbn. by destruct realloc.
Qed.

Lemma env_step_map o env : exists r env', env_step o env = CVal (r, env') /\ map_step o (env_map env) = (r, env_map env').
Proof.
  destruct o as [realloc name value rewrite|strdup realloc str|name|name]; cbn [env_step map_step].
  - eexists _, _. split; [done|]. apply setenv_set.
  - unfold putenv. destruct (split_eq str) as [[n v]|] eqn:E; [|destruct strdup; by eexists _, _]. destruct strdup; cbn [negb]; [|by eexists _, _].
    eexists _, _. split; [done|]. apply split_name in E as [Hn _]. pose proof (setenv_set realloc n v 1 env) as H. cbv zeta in H. rewrite (bare_of_plain n Hn) in H. exact H.
  - unfold unsetenv. destruct (unset_loop_map (S (length env)) name env) as (env' & -> & E); [lia|]. cbn [mbind cres_bind]. eexists _, _. split; [done|]. cbn [fst snd]. by rewrite E.
  - eexists _, _. split; [done|]. by rewrite getenv_map.
Qed.

(** C23: in every sequence of calls of getenv, setenv, putenv and unsetenv, on every environment
    (strings that occur twice or have no '=' included), the calls end and answer what the same
    calls on a finite map from names to values answer, and leave the environment of the map
    they leave: a longer, shorter or new value, and memory for the array or none.  There is
    memory for the strings (see [no_memory_truncates]). *)
Theorem environment_is_map ops env : exists answers env', env_run ops env = CVal (answers, env') /\ map_run ops (env_map env) = (answers, env_map env').
Proof.
  revert env. induction ops as [|o ops IH]; intros env; cbn [env_run map_run]; [by exists [], env|].
  destruct (env_step_map o env) as (r & env1 & -> & Em). cbn [mbind cres_bind fst snd]. rewrite Em. cbn [fst snd]. destruct (IH env1) as (rs & env2 & -> & Er). cbn [mbind cres_bind fst snd]. rewrite Er.
  by eexists _, _.
Qed.

(** ** What goes wrong *)

(** Without memory for a longer value the variables behind the name are lost. *)
Lemma no_memory_truncates : setenv true false [65] [49; 49] 1 [[65; 61; 49]; [66; 61; 50]] = (-1, []).
Proof. reflexivity. Qed.

(** "A==b" sets A to "b". *)
Lemma equals_sign_lost : putenv true true true [65; 61; 61; 98] [] = (0, [[65; 61; 98]]).
Proof. reflexivity. Qed.
