(* ===== verification/Getopt.v ===== *)
(** * Command lines: libc/unistd/getopt_long.c

    An element of argv is a pointer to a string; what it points to is [text].  A pointer into
    such a string is the element and an offset, and the empty string EMSG is None.  Messages to
    stderr are left out; [idx] and the flags of long options are part of the answer. *)

From Stdlib Require Import ZArith Lia.
From stdpp Require Import base list numbers.
From S2P Require Import Prelude.

Open Scope Z_scope.

Definition BADCH : Z := 0x3f.
Definition INORDER : Z := 1.
Definition no_argument : Z := 0.
Definition required_argument : Z := 1.
Definition optional_argument : Z := 2.

(** struct option; the address of the flag may be NULL. *)
Record long_option := mkLong { lo_name : list Z; has_arg : Z; flag : option Z; lo_val : Z }.

(** FLAG_PERMUTE, FLAG_ALLARGS, FLAG_LONGONLY. *)
Record getopt_flags := mkFlags { f_permute : bool; f_allargs : bool; f_longonly : bool }.

(** A pointer into an argument. *)
Definition ptr : Type := nat * nat.

(** The variables of getopt, and argv, which is permuted. *)
Record getopt_state := mkGetopt {
  optind : Z; optopt : Z; optreset : Z; optarg : option ptr; place : option ptr; nonopt_start : Z; nonopt_end : Z; nargv : list nat
}.

Definition with_optind (s : getopt_state) (v : Z) := mkGetopt v (optopt s) (optreset s) (optarg s) (place s) (nonopt_start s) (nonopt_end s) (nargv s).
Definition with_optopt (s : getopt_state) (v : Z) := mkGetopt (optind s) v (optreset s) (optarg s) (place s) (nonopt_start s) (nonopt_end s) (nargv s).
Definition with_optreset (s : getopt_state) (v : Z) := mkGetopt (optind s) (optopt s) v (optarg s) (place s) (nonopt_start s) (nonopt_end s) (nargv s).
Definition with_optarg (s : getopt_state) (v : option ptr) := mkGetopt (optind s) (optopt s) (optreset s) v (place s) (nonopt_start s) (nonopt_end s) (nargv s).
Definition with_place (s : getopt_state) (v : option ptr) := mkGetopt (optind s) (optopt s) (optreset s) (optarg s) v (nonopt_start s) (nonopt_end s) (nargv s).
Definition with_nonopt (s : getopt_state) (v w : Z) := mkGetopt (optind s) (optopt s) (optreset s) (optarg s) (place s) v w (nargv s).
Definition with_nargv (s : getopt_state) (v : list nat) := mkGetopt (optind s) (optopt s) (optreset s) (optarg s) (place s) (nonopt_start s) (nonopt_end s) v.

(** What a call returns, stores in *idx, and in the flag of a long option. *)
Record answer := mkAnswer { ret : Z; idx : option Z; stored : option (Z * Z) }.
Definition plain_answer (r : Z) : answer := mkAnswer r None None.

(** ** permute_args *)

(** A division by zero is not defined. *)
Definition c_rem (a b : Z) : cres Z := if b =? 0 then CUndef else CVal (Z.rem a b).

Fixpoint gcd_loop (fuel : nat) (a b : Z) : cres Z :=
  match fuel with
  | O => CFuel
  | S fuel => c ← c_rem a b; if c =? 0 then CVal b else gcd_loop fuel b c
  end.

(** The second argument goes down. *)
Definition gcd (a b : Z) : cres Z := gcd_loop (S (Z.to_nat (Z.abs b))) a b.

(** One cycle: [j] more steps. *)
Fixpoint cycle_loop (j : nat) (pos cstart panonopt_end nnonopts nopts : Z) (v : list nat) : cres (list nat) :=
  match j with
  | O => CVal v
  | S j =>
      let pos := if panonopt_end <=? pos then pos - nnonopts else pos + nopts in
      swap ← aget v pos;
      x ← aget v cstart;
      v ← aset v pos x;
      v ← aset v cstart swap;
      cycle_loop j pos cstart panonopt_end nnonopts nopts v
  end.

(** The cycles from [i] on. *)
Fixpoint cycles (n : nat) (i panonopt_end nnonopts nopts : Z) (cyclelen : nat) (v : list nat) : cres (list nat) :=
  match n with
  | O => CVal v
  | S n =>
      let cstart := panonopt_end + i in
      v ← cycle_loop cyclelen cstart cstart panonopt_end nnonopts nopts v;
      cycles n (i + 1) panonopt_end nnonopts nopts cyclelen v
  end.

Definition permute_args (panonopt_start panonopt_end opt_end : Z) (v : list nat) : cres (list nat) :=
  let nnonopts := panonopt_end - panonopt_start in
  let nopts := opt_end - panonopt_end in
  ncycle ← gcd nnonopts nopts;
  if ncycle =? 0 then CUndef
  else cycles (Z.to_nat ncycle) 0 panonopt_end nnonopts nopts (Z.to_nat (Z.quot (opt_end - panonopt_start) ncycle)) v.

(** permute_args(nonopt_start, nonopt_end, optind, nargv) *)
Definition permute (s : getopt_state) : cres getopt_state :=
  v ← permute_args (nonopt_start s) (nonopt_end s) (optind s) (nargv s); CVal (with_nargv s v).

(** ** Strings *)

(** The character at the start, and strchr. *)
Definition char_at (s : list Z) : Z := match s with [] => 0 | c :: _ => c end.
Fixpoint strchr (s : list Z) (c : Z) : option (list Z) :=
  match s with
  | [] => None
  | d :: s' => if d =? c then Some s else strchr s' c
  end.

Section Getopt.
Context (text : nat -> list Z).

(** What a pointer points to. *)
Definition string_at (p : option ptr) : list Z := match p with None => [] | Some (a, k) => drop k (text a) end.
Definition ptr_add (p : option ptr) (n : nat) : option ptr := match p with None => None | Some (a, k) => Some (a, (k + n)%nat) end.

(** nargv[i]; argv ends with NULL. *)
Definition argv_at (v : list nat) (i : Z) : cres (option ptr) :=
  if i =? Z.of_nat (length v) then CVal None else a ← aget v i; CVal (Some (a, 0%nat)).

Definition BADARG (options : list Z) : Z := if char_at options =? 0x3a then 0x3a else 0x3f.

(** ** Long options *)

(** The length of a name, up to '='. *)
Fixpoint name_len (s : list Z) : nat :=
  match s with
  | [] => 0
  | c :: s => if c =? 0x3d then 0 else S (name_len s)
  end.

Inductive long_match := Match (i : Z) | Ambiguous.

(** The loop over long_options; [match_] is -1 before a match. *)
Fixpoint find_long (i : Z) (name : list Z) (short_too : bool) (match_ : Z) (long_options : list long_option) : long_match :=
  match long_options with
  | [] => Match match_
  | o :: long_options =>
      if negb (bool_decide (take (length name) (lo_name o) = name)) then find_long (i + 1) name short_too match_ long_options
      else if (length (lo_name o) =? length name)%nat then Match i
      else if short_too && (length name =? 1)%nat then find_long (i + 1) name short_too match_ long_options
      else if match_ =? -1 then find_long (i + 1) name short_too i long_options
      else Ambiguous
  end.

(** The value for optopt. *)
Definition opt_val (o : long_option) : Z := match flag o with None => lo_val o | Some _ => 0 end.

Definition parse_long_options (options : list Z) (long_options : list long_option) (short_too : bool) (s : getopt_state) : cres (answer * getopt_state) :=
  let current_argv := string_at (place s) in
  let s := with_optind s (optind s + 1) in
  let current_argv_len := name_len current_argv in
  let has_equal := if (current_argv_len <? length current_argv)%nat then ptr_add (place s) (current_argv_len + 1) else None in
  match find_long 0 (take current_argv_len current_argv) short_too (-1) long_options with
  | Ambiguous => CVal (plain_answer BADCH, with_optopt s 0)
  | Match match_ =>
      if match_ =? -1 then
        if short_too then CVal (plain_answer (-1), with_optind s (optind s - 1))
        else CVal (plain_answer BADCH, with_optopt s 0)
      else
        o ← aget long_options match_;
        if (has_arg o =? no_argument) && bool_decide (is_Some has_equal) then CVal (plain_answer (BADARG options), with_optopt s (opt_val o))
        else
          s ← (if (has_arg o =? required_argument) || (has_arg o =? optional_argument) then
                 if bool_decide (is_Some has_equal) then CVal (with_optarg s has_equal)
                 else if has_arg o =? required_argument then
                   a ← argv_at (nargv s) (optind s); CVal (with_optind (with_optarg s a) (optind s + 1))
                 else CVal s
               else CVal s);
          if (has_arg o =? required_argument) && bool_decide (optarg s = None) then
            CVal (plain_answer (BADARG options), with_optind (with_optopt s (opt_val o)) (optind s - 1))
          else
            CVal (match flag o with
                  | Some f => mkAnswer 0 (Some match_) (Some (f, lo_val o))
                  | None => mkAnswer (lo_val o) (Some match_) None
                  end, s)
  end.

(** ** getopt_internal *)

(** The part between [start] and the options: an answer, or an argument with an option. *)
Inductive scanned := Answer (a : answer) (s : getopt_state) | Letters (s : getopt_state).

(** The non-options that were skipped go behind the options. *)
Definition finish_permute (s : getopt_state) : cres getopt_state :=
  s ← permute s; CVal (with_optind s (optind s - (nonopt_end s - nonopt_start s))).

Fixpoint scan_loop (fuel : nat) (flags : getopt_flags) (options : list Z) (s : getopt_state) : cres scanned :=
  match fuel with
  | O => CFuel
  | S fuel =>
      if negb (optreset s =? 0) || bool_decide (string_at (place s) = []) then
        let s := with_optreset s 0 in
        if Z.of_nat (length (nargv s)) <=? optind s then
          let s := with_place s None in
          s ← (if negb (nonopt_end s =? -1) then finish_permute s
               else CVal (if negb (nonopt_start s =? -1) then with_optind s (nonopt_start s) else s));
          CVal (Answer (plain_answer (-1)) (with_nonopt s (-1) (-1)))
        else
          a ← aget (nargv s) (optind s);
          let arg := text a in
          if negb (char_at arg =? 0x2d) || ((char_at (tail arg) =? 0) && bool_decide (strchr options 0x2d = None)) then
            let s := with_place s None in
            if f_allargs flags then CVal (Answer (plain_answer INORDER) (with_optind (with_optarg s (Some (a, 0%nat))) (optind s + 1)))
            else if negb (f_permute flags) then CVal (Answer (plain_answer (-1)) s)
            else
              s ← (if nonopt_start s =? -1 then CVal (with_nonopt s (optind s) (nonopt_end s))
                   else if negb (nonopt_end s =? -1) then
                     s ← permute s;
                     CVal (with_nonopt s (optind s - (nonopt_end s - nonopt_start s)) (-1))
                   else CVal s);
              scan_loop fuel flags options (with_optind s (optind s + 1))
          else
            let s := if negb (nonopt_start s =? -1) && (nonopt_end s =? -1) then with_nonopt s (nonopt_start s) (optind s) else s in
            if char_at (tail arg) =? 0 then CVal (Letters (with_place s (Some (a, 0%nat))))
            else if (char_at (tail arg) =? 0x2d) && (char_at (tail (tail arg)) =? 0) then
              let s := with_place (with_optind s (optind s + 1)) None in
              s ← (if negb (nonopt_end s =? -1) then finish_permute s else CVal s);
              CVal (Answer (plain_answer (-1)) (with_nonopt s (-1) (-1)))
            else CVal (Letters (with_place s (Some (a, 1%nat))))
      else CVal (Letters s)
  end.

(** A letter of an argument; [options] is the list of letters. *)
Definition short_option (flags : getopt_flags) (options : list Z) (long_options : option (list long_option)) (s : getopt_state) : cres (answer * getopt_state) :=
  let optchar := char_at (string_at (place s)) in
  let s := with_place s (ptr_add (place s) 1) in
  let more := negb (bool_decide (string_at (place s) = [])) in
  let nargc := Z.of_nat (length (nargv s)) in
  match (if (optchar =? 0x3a) || ((optchar =? 0x2d) && more) then None else strchr options optchar) with
  | None =>
      if (optchar =? 0x2d) && negb more then CVal (plain_answer (-1), s)
      else CVal (plain_answer BADCH, with_optopt (if more then s else with_optind s (optind s + 1)) optchar)
  | Some oli =>
      match (if (optchar =? 0x57) && (char_at (tail oli) =? 0x3b) then long_options else None) with
      | Some long_options =>
          (* -W long-option *)
          if negb more && (nargc <=? optind s + 1) then
            CVal (plain_answer (BADARG options), with_optopt (with_place (with_optind s (optind s + 1)) None) optchar)
          else
            s ← (if more then CVal s
                 else a ← argv_at (nargv s) (optind s + 1); CVal (with_place (with_optind s (optind s + 1)) a));
            r ← parse_long_options options long_options false s;
            CVal (r.1, with_place r.2 None)
      | None =>
          if negb (char_at (tail oli) =? 0x3a) then
            CVal (plain_answer optchar, if more then s else with_optind s (optind s + 1))
          else
            let s := with_optarg s None in
            if more then CVal (plain_answer optchar, with_optind (with_place (with_optarg s (place s)) None) (optind s + 1))
            else if negb (char_at (tail (tail oli)) =? 0x3a) then
              let s := with_optind s (optind s + 1) in
              if nargc <=? optind s then CVal (plain_answer (BADARG options), with_optopt (with_place s None) optchar)
              else
                a ← argv_at (nargv s) (optind s);
                CVal (plain_answer optchar, with_optind (with_place (with_optarg s a) None) (optind s + 1))
            else
              s ← (if negb (f_permute flags) && (optind s + 1 <? nargc) then
                     a ← argv_at (nargv s) (optind s + 1);
                     CVal (if negb (char_at (string_at a) =? 0x2d) then with_optarg (with_optind s (optind s + 1)) a else s)
                   else CVal s);
              CVal (plain_answer optchar, with_optind (with_place s None) (optind s + 1))
      end
  end.

(** An argument with an option. *)
Definition getopt_option (flags : getopt_flags) (options : list Z) (long_options : option (list long_option)) (s : getopt_state) : cres (answer * getopt_state) :=
  let c := char_at (string_at (place s)) in
  match long_options with
  | Some lo =>
      a ← argv_at (nargv s) (optind s);
      if negb (bool_decide (place s = a)) && ((c =? 0x2d) || f_longonly flags) then
        let short_too := negb (c =? 0x2d) && negb (c =? 0x3a) && bool_decide (is_Some (strchr options c)) in
        let s := if c =? 0x2d then with_place s (ptr_add (place s) 1) else s in
        r ← parse_long_options options lo short_too s;
        if negb (ret r.1 =? -1) then CVal (r.1, with_place r.2 None) else short_option flags options long_options r.2
      else short_option flags options long_options s
  | None => short_option flags options long_options s
  end.

Definition getopt_internal (posixly_correct : bool) (flags : getopt_flags) (options : list Z) (long_options : option (list long_option)) (s : getopt_state) : cres (answer * getopt_state) :=
  let c := char_at options in
  let flags := if posixly_correct || (c =? 0x2b) then mkFlags false (f_allargs flags) (f_longonly flags)
               else if c =? 0x2d then mkFlags (f_permute flags) true (f_longonly flags) else flags in
  let options := if (c =? 0x2b) || (c =? 0x2d) then tail options else options in
  let s := if optind s =? 0 then with_optreset (with_optind s 1) 1 else s in
  let s := with_optarg s None in
  let s := if optreset s =? 0 then s else with_nonopt s (-1) (-1) in
  r ← scan_loop (S (S (length (nargv s)))) flags options s;
  match r with
  | Answer a s => CVal (a, s)
  | Letters s => getopt_option flags options long_options s
  end.

Definition getopt posixly_correct options := getopt_internal posixly_correct (mkFlags false false false) options None.
Definition getopt_long posixly_correct options long_options := getopt_internal posixly_correct (mkFlags true false false) options long_options.
Definition getopt_long_only posixly_correct options long_options := getopt_internal posixly_correct (mkFlags true false true) options long_options.
End Getopt.

(** The variables before the first call. *)
Definition getopt_start (argv : list nat) : getopt_state := mkGetopt 1 0x3f 0 None None (-1) (-1) argv.
