(* ===== verification/GetoptRotate.v ===== *)
(** * permute_args exchanges two blocks

    The cycles of permute_args visit the places of the two blocks, each once: a place moves on
    by the length of the second block, modulo the length of both. *)

From Stdlib Require Import ZArith Lia Znumtheory.
From stdpp Require Import base list numbers.
From S2P Require Import Prelude Getopt.

Open Scope Z_scope.

(** ** The greatest common divisor *)

Lemma gcd_loop_spec fuel a b : 0 <= a -> 0 < b -> (Z.to_nat b < fuel)%nat -> gcd_loop fuel a b = CVal (Z.gcd a b).
Proof.
  revert a b. induction fuel as [|fuel IH]; intros a b Ha Hb Hf; [lia|]. cbn [gcd_loop]. unfold c_rem. rewrite (proj2 (Z.eqb_neq b 0)) by lia. cbn [mbind cres_bind].
  rewrite Z.rem_mod_nonneg by lia. pose proof (Z.mod_pos_bound a b Hb) as Hm. destruct (Z.eqb_spec (a mod b) 0) as [E|E].
  - f_equal. symmetry. rewrite Z.gcd_comm, <- (Z.gcd_mod a b) by lia. rewrite E, Z.gcd_0_l, Z.abs_eq by lia. done.
  - rewrite IH by lia. f_equal. rewrite Z.gcd_comm, Z.gcd_mod by lia. apply Z.gcd_comm.
Qed.

Lemma gcd_spec a b : 0 < a -> 0 < b -> gcd a b = CVal (Z.gcd a b).
Proof. intros Ha Hb. unfold gcd. apply gcd_loop_spec; lia. Qed.

Section Rotate.
(** The start, the lengths of the blocks, and the greatest common divisor. *)
Context (a m k g len : Z) (Ha : 0 <= a) (Hm : 0 < m) (Hk : 0 < k) (Hg : g = Z.gcd m k) (Hlen : a + m + k <= len).

Notation n := (m + k).
Notation L := (n / g).

Lemma g_facts : 0 < g /\ (g | m) /\ (g | k) /\ n = g * L /\ 0 < L /\ exists k', k = g * k' /\ Z.gcd L k' = 1.
Proof.
  assert (0 < g) as Hp by (pose proof (Z.gcd_nonneg m k); assert (Z.gcd m k <> 0) by (intros E; apply Z.gcd_eq_0_l in E; lia); lia).
  assert (g | m) as H1 by (rewrite Hg; apply Z.gcd_divide_l). assert (g | k) as H2 by (rewrite Hg; apply Z.gcd_divide_r).
  assert (g | n) as H3 by (by apply Z.divide_add_r). pose proof (Z.div_exact n g ltac:(lia)) as [_ E]. specialize (E (proj2 (Z.mod_divide n g ltac:(lia)) H3)).
  split; [done|]. split; [done|]. split; [done|]. split; [done|]. split; [nia|]. exists (k / g). split; [apply Z.div_exact; [lia|by apply Z.mod_divide; [lia|]]|].
  assert (Z.gcd n k = g) as Hnk by (rewrite Z.gcd_comm, Z.gcd_add_diag_r, Z.gcd_comm; done).
  apply Z.gcd_div_gcd; [lia|]. by rewrite Hnk.
Qed.

(** The place after a place. *)
Definition next (p : Z) : Z := (p + k) mod n.

Lemma next_step p : 0 <= p < n -> (if a + m <=? a + p then a + p - m else a + p + k) = a + next p.
Proof.
  intros Hp. unfold next. destruct (Z.leb_spec (a + m) (a + p)).
  - replace (p + k) with (p - m + 1 * n) by lia. rewrite Z.mod_add, Z.mod_small by lia. lia.
  - rewrite Z.mod_small by lia. lia.
Qed.

Lemma next_bound p : 0 <= next p < n.
Proof. apply Z.mod_pos_bound. lia. Qed.

(** The [t]-th place of a cycle. *)
Definition place_of (i t : Z) : Z := (m + i + t * k) mod n.

Lemma place_bound i t : 0 <= place_of i t < n.
Proof. apply Z.mod_pos_bound. lia. Qed.

Lemma place_next i t : next (place_of i t) = place_of i (t + 1).
Proof. unfold next, place_of. rewrite Z.add_mod_idemp_l by lia. f_equal. lia. Qed.

Lemma place_same i s t : place_of i s = place_of i t <-> (L | t - s).
Proof.
  destruct g_facts as (Hp & _ & _ & En & HL & k' & Ek & Hco). unfold place_of. split.
  - intros E. assert ((m + i + t * k - (m + i + s * k)) mod n = 0) as E0 by (rewrite Zminus_mod, E, Z.sub_diag; apply Z.mod_0_l; lia).
    replace (m + i + t * k - (m + i + s * k)) with ((t - s) * k) in E0 by lia. apply Z.mod_divide in E0; [|lia]. destruct E0 as [q E0].
    set (l := n / g) in *. clearbody l. apply (Z.gauss l k'); [|done]. exists q. apply (Z.mul_reg_l _ _ g); [lia|]. replace (g * (k' * (t - s))) with ((t - s) * (g * k')) by ring. rewrite <- Ek, E0, En. ring.
  - intros [q E]. set (l := n / g) in *. clearbody l. replace (m + i + t * k) with (m + i + s * k + (q * k') * n); [by rewrite Z.mod_add by lia|].
    rewrite En, Ek. replace t with (s + q * l) by lia. ring.
Qed.

(** The places of a cycle are those with the remainder [i]. *)
Lemma place_class i p : 0 <= i < g -> 0 <= p < n -> (exists t, 0 <= t < L /\ p = place_of i t) <-> p mod g = i.
Proof.
  intros Hi Hp. destruct g_facts as (Hg0 & [m' Em] & [k1 Ek1] & En & HL & k' & Ek & Hco). split.
  - intros (t & _ & ->). unfold place_of. rewrite Z.mod_mod_divide by (exists L; rewrite En at 1; ring).
    replace (m + i + t * k) with (i + (m' + t * k1) * g) by (rewrite Em, Ek1; ring). by rewrite Z.mod_add, Z.mod_small by lia.
  - intros E. destruct (Z.gcd_bezout L k' 1 Hco) as (u & w & Hb). set (d := p / g). assert (p = i + d * g) as Ep by (pose proof (Z.div_mod p g ltac:(lia)) as Hdm; fold d in Hdm; rewrite E in Hdm; lia).
    set (q := w * (d - m')). exists (q mod L). split; [apply Z.mod_pos_bound; lia|]. transitivity (place_of i q).
    + unfold place_of. replace (m + i + q * k) with (p + (- u * (d - m')) * n); [by rewrite Z.mod_add, Z.mod_small by lia|].
      set (l := n / g) in *. clearbody l. subst q. rewrite Ep, En, Em. nia.
    + apply place_same. exists (- (q / L)). pose proof (Z.div_mod q L ltac:(lia)). lia.
Qed.

Lemma next_class p : (next p) mod g = p mod g.
Proof.
  destruct g_facts as (Hg0 & _ & [k1 Ek1] & En & HL & _). unfold next. rewrite Z.mod_mod_divide by (exists L; rewrite En at 1; ring). by rewrite Ek1, Z.mod_add by lia.
Qed.

(** ** One cycle *)

Definition at_ (v : list nat) (p : Z) : option nat := v !! Z.to_nat (a + p).

(** After [t] steps: what was at the places of the cycle has moved on, and the last of it is
    kept at the start. *)
Record moved (v : list nat) (i t : Z) (w : list nat) : Prop := {
  mv_length : length w = length v;
  mv_keep : at_ w (place_of i 0) = at_ v (place_of i t);
  mv_on : forall s, 0 <= s < t -> place_of i (s + 1) <> place_of i 0 -> at_ w (place_of i (s + 1)) = at_ v (place_of i s);
  mv_rest : forall x, (forall s, 0 <= s <= t -> x <> a + place_of i s) -> 0 <= x -> w !! Z.to_nat x = v !! Z.to_nat x
}.

(** All that was at the places of the cycle has moved on. *)
Record turned (v : list nat) (i : Z) (w : list nat) : Prop := {
  tn_length : length w = length v;
  tn_on : forall s, 0 <= s < L -> at_ w (place_of i (s + 1)) = at_ v (place_of i s);
  tn_rest : forall x, (forall s, 0 <= s < L -> x <> a + place_of i s) -> 0 <= x -> w !! Z.to_nat x = v !! Z.to_nat x
}.

Lemma place_first i : 0 <= i < g -> place_of i 0 = m + i.
Proof.
  intros Hi. destruct g_facts as (Hp & _ & H2 & _). apply Z.divide_pos_le in H2; [|lia]. unfold place_of. rewrite Z.mod_small by lia. lia.
Qed.

Lemma place_new i s t : 0 <= s < t -> t < L -> place_of i t <> place_of i s.
Proof. intros Hs Ht E. symmetry in E. apply place_same in E. apply Z.divide_pos_le in E; lia. Qed.

Lemma place_last i : place_of i L = place_of i 0.
Proof. apply place_same. exists (- 1). lia. Qed.

Lemma aset_at (v : list nat) x y : 0 <= x -> (Z.to_nat x < length v)%nat -> aset v x y = CVal (<[Z.to_nat x := y]> v).
Proof. intros. apply aset_val. lia. Qed.

Lemma cycle_turns j v i t w : (1 <= j)%nat -> 0 <= t -> t + Z.of_nat j = L -> 0 <= i < g -> Z.of_nat (length v) = len -> moved v i t w ->
  exists w', cycle_loop j (a + place_of i t) (a + m + i) (a + m) m k w = CVal w' /\ turned v i w'.
Proof.
  revert t w. induction j as [|j IH]; intros t w Hj Ht Hsum Hi Hv [M1 M2 M3 M4]; [lia|]. cbn [cycle_loop].
  pose proof (place_bound i t) as Bt. pose proof (place_bound i (t + 1)) as Bt'. pose proof (place_bound i 0) as B0. pose proof (place_first i Hi) as P0.
  rewrite (next_step _ Bt), place_next. replace (a + m + i) with (a + place_of i 0) by lia.
  destruct (lookup_lt_is_Some_2 w (Z.to_nat (a + place_of i (t + 1)))) as [y Hy]; [lia|]. destruct (lookup_lt_is_Some_2 w (Z.to_nat (a + place_of i 0))) as [x Hx]; [lia|].
  rewrite (aget_val w (a + place_of i (t + 1)) y ltac:(lia) Hy). cbn [mbind cres_bind]. rewrite (aget_val w (a + place_of i 0) x ltac:(lia) Hx). cbn [mbind cres_bind].
  rewrite aset_at by lia. cbn [mbind cres_bind]. rewrite aset_at by (rewrite ?length_insert; lia). cbn [mbind cres_bind].
  destruct (Z.eq_dec (t + 1) L) as [El|El].
  - assert (j = 0%nat) as -> by lia. cbn [cycle_loop]. assert (place_of i (t + 1) = place_of i 0) as Ep by (rewrite El; apply place_last). rewrite Ep in Hy |- *.
    assert (y = x) as -> by congruence. rewrite !list_insert_id by (rewrite ?list_insert_id; done). exists w. split; [done|]. split; [done| |].
    + intros s Hs. destruct (Z.eq_dec s t) as [->|Hne]; [rewrite Ep; exact M2|]. apply M3; [lia|]. apply place_new; lia.
    + intros z Hz. apply M4. intros s Hs. apply Hz. lia.
  - assert (place_of i (t + 1) <> place_of i 0) as Hne by (apply place_new; lia).
    replace (a + place_of i 0) with (a + m + i) in Hx |- * by lia. apply IH; try lia.
    split; [by rewrite !length_insert| | |]; unfold at_ in *; rewrite ?P0 in *.
    + replace (a + (m + i)) with (a + m + i) in * by lia. rewrite list_lookup_insert_eq by (rewrite length_insert; lia). rewrite <- Hy. apply M4; [|lia].
      intros s Hs E. apply (place_new i s (t + 1)); lia.
    + intros s Hs Hps. replace (a + (m + i)) with (a + m + i) in * by lia. rewrite list_lookup_insert_ne by (pose proof (place_bound i (s + 1)); lia).
      destruct (Z.eq_dec s t) as [->|Hst]; [rewrite list_lookup_insert_eq by lia; by rewrite <- Hx, M2|].
      rewrite list_lookup_insert_ne; [apply M3; [lia|done]|]. pose proof (place_bound i (s + 1)). pose proof (place_new i (s + 1) (t + 1)). lia.
    + intros z Hz Hz0. pose proof (Hz (t + 1) ltac:(lia)). pose proof (Hz 0 ltac:(lia)) as Hz1. rewrite P0 in Hz1. rewrite !list_lookup_insert_ne by lia.
      apply M4; [|done]. intros s Hs. apply Hz. lia.
Qed.

(** ** All cycles *)

(** The classes before [i] have moved on. *)
Record rotated (v : list nat) (i : Z) (w : list nat) : Prop := {
  rt_length : length w = length v;
  rt_on : forall p, 0 <= p < n -> p mod g < i -> at_ w (next p) = at_ v p;
  rt_rest : forall x, 0 <= x -> (forall p, 0 <= p < n -> p mod g < i -> x <> a + p) -> w !! Z.to_nat x = v !! Z.to_nat x
}.

Lemma cycles_rotate j v i w : 0 <= i -> i + Z.of_nat j = g -> Z.of_nat (length v) = len -> rotated v i w ->
  exists w', cycles j i (a + m) m k (Z.to_nat L) w = CVal w' /\ rotated v g w'.
Proof.
  destruct g_facts as (Hg0 & _ & _ & En & HL & _). revert i w. induction j as [|j IH]; intros i w Hi Hsum Hv [R1 R2 R3]; cbn [cycles].
  { exists w. split; [done|]. by replace g with i by lia. }
  assert (0 <= i < g) as Hig by lia. destruct (cycle_turns (Z.to_nat L) w i 0 w) as (w1 & E & [T1 T2 T3]); try lia.
  { split; [done|done| |done]. intros s Hs. lia. }
  rewrite place_first in E by done. replace (a + (m + i)) with (a + m + i) in E by lia. rewrite E. cbn [mbind cres_bind]. apply IH; [lia|lia|done|].
  assert (forall p, 0 <= p < n -> p mod g < i -> forall s, 0 <= s < L -> a + p <> a + place_of i s) as Hclass.
  { intros p Hp Hc s Hs Ep. assert (p mod g = i) as Ec by (apply (place_class i p); [done|done|]; exists s; split; [done|lia]). lia. }
  split; [congruence| |].
  - intros p Hp Hc. destruct (Z.eq_dec (p mod g) i) as [Ec|Hne].
    + apply (place_class i p) in Ec as (s & Hs & ->); [|done|done]. rewrite place_next, T2 by done. unfold at_. apply R3; [pose proof (place_bound i s); lia|].
      intros q Hq Hcq Eq. by apply (Hclass q Hq Hcq s Hs).
    + rewrite <- R2 by (done || lia). unfold at_. pose proof (next_bound p) as Bn. apply T3; [|lia]. intros s Hs. apply Hclass; [done|rewrite next_class; lia|done].
  - intros x Hx Hall. rewrite T3; [apply R3; [done|]; intros p Hp Hc; apply Hall; [done|lia]| |done].
    intros s Hs. apply Hall; [apply place_bound|]. pose proof (proj1 (place_class i (place_of i s) Hig (place_bound i s))) as Ec. rewrite Ec by (exists s; split; [done|done]). lia.
Qed.
End Rotate.

(** What stands between two places. *)
Definition block {A} (v : list A) (i j : Z) : list A := take (Z.to_nat (j - i)) (drop (Z.to_nat i) v).

Lemma block_length {A} (v : list A) i j : 0 <= i <= j -> j <= Z.of_nat (length v) -> length (block v i j) = Z.to_nat (j - i).
Proof. intros Hi Hj. unfold block. rewrite length_take, length_drop. lia. Qed.

Lemma block_lookup {A} (v : list A) i j x : 0 <= i -> (x < Z.to_nat (j - i))%nat -> block v i j !! x = v !! (Z.to_nat i + x)%nat.
Proof. intros Hi Hx. unfold block. rewrite lookup_take_lt by lia. apply lookup_drop. Qed.

(** The two blocks are exchanged, each in its order. *)
Lemma permute_args_blocks (v : list nat) s e o : 0 <= s < e -> e < o <= Z.of_nat (length v) ->
  permute_args s e o v = CVal (take (Z.to_nat s) v ++ block v e o ++ block v s e ++ drop (Z.to_nat o) v).
Proof.
  intros Hs Ho. unfold permute_args. set (m := e - s). set (k := o - e). assert (0 < m /\ 0 < k) as [Hm Hk] by lia. rewrite gcd_spec by done. cbn [mbind cres_bind].
  destruct (g_facts m k (Z.gcd m k) Hm Hk eq_refl) as (Hg0 & _). rewrite (proj2 (Z.eqb_neq (Z.gcd m k) 0)) by lia. rewrite Z.quot_div_nonneg by lia.
  replace (o - s) with (m + k) by lia. replace e with (s + m) by lia.
  destruct (cycles_rotate s m k (Z.gcd m k) (Z.of_nat (length v)) ltac:(lia) Hm Hk eq_refl ltac:(lia) (Z.to_nat (Z.gcd m k)) v 0 v) as (w & -> & [R1 R2 R3]); try lia.
  { split; [done| |done]. intros p Hp Hc. pose proof (Z.mod_pos_bound p (Z.gcd m k) ltac:(lia)). lia. }
  f_equal. replace (s + m) with e by lia. assert (forall p, 0 <= p < m + k -> w !! Z.to_nat (s + (p + k) mod (m + k)) = v !! Z.to_nat (s + p)) as Hon.
  { intros p Hp. apply (R2 p Hp). apply Z.mod_pos_bound. lia. }
  apply list_eq. intros j. pose proof (block_length v e o ltac:(lia) ltac:(lia)) as L1. pose proof (block_length v s e ltac:(lia) ltac:(lia)) as L2.
  destruct (decide (j < Z.to_nat s)%nat) as [C1|C1].
  { rewrite lookup_app_l by (rewrite length_take; lia). rewrite lookup_take_lt by done. specialize (R3 (Z.of_nat j) ltac:(lia)). rewrite Nat2Z.id in R3. apply R3. intros; lia. }
  rewrite lookup_app_r by (rewrite length_take; lia). rewrite length_take, Nat.min_l by lia. destruct (decide (j < Z.to_nat (s + k))%nat) as [C2|C2].
  { rewrite lookup_app_l by lia. rewrite block_lookup by lia. specialize (Hon (Z.of_nat j - s + m) ltac:(lia)).
    replace (Z.of_nat j - s + m + k) with (Z.of_nat j - s + 1 * (m + k)) in Hon by lia. rewrite Z.mod_add, Z.mod_small in Hon by lia.
    replace (Z.to_nat (s + (Z.of_nat j - s))) with j in Hon by lia. rewrite Hon. f_equal. lia. }
  rewrite lookup_app_r by lia. rewrite L1. destruct (decide (j < Z.to_nat o)%nat) as [C3|C3].
  { rewrite lookup_app_l by lia. rewrite block_lookup by lia. specialize (Hon (Z.of_nat j - s - k) ltac:(lia)). rewrite Z.mod_small in Hon by lia.
    replace (Z.to_nat (s + (Z.of_nat j - s - k + k))) with j in Hon by lia. rewrite Hon. f_equal. lia. }
  rewrite lookup_app_r by lia. rewrite L2, lookup_drop. specialize (R3 (Z.of_nat j) ltac:(lia)). rewrite Nat2Z.id in R3. rewrite R3 by (intros; lia). f_equal. lia.
Qed.

(** The same, for lists. *)
Lemma permute_args_app (l nonopts opts rest : list nat) : nonopts <> [] -> opts <> [] ->
  permute_args (Z.of_nat (length l)) (Z.of_nat (length l + length nonopts)) (Z.of_nat (length l + length nonopts + length opts)) (l ++ nonopts ++ opts ++ rest) =
  CVal (l ++ opts ++ nonopts ++ rest).
Proof.
  intros Hn Ho. assert (0 < length nonopts)%nat by (destruct nonopts; [done|cbn; lia]). assert (0 < length opts)%nat by (destruct opts; [done|cbn; lia]).
  rewrite permute_args_blocks; [|lia|rewrite !length_app; lia]. f_equal. unfold block. rewrite !Nat2Z.id, <- !Nat2Z.inj_sub, !Nat2Z.id by lia.
  replace (length l + length nonopts + length opts - (length l + length nonopts))%nat with (length opts) by lia. replace (length l + length nonopts - length l)%nat with (length nonopts) by lia.
  rewrite take_app_length, drop_app_length, take_app_length. rewrite <- drop_drop, drop_app_length, drop_app_length, take_app_length.
  rewrite <- !drop_drop, drop_app_length. rewrite drop_app_length, drop_app_length. done.
Qed.
