(* ===== verification/GetoptSpec.v ===== *)
(** * What getopt promises

    The specification reads a list of arguments without state: the letters of an argument one
    after the other, long options, and the arguments that options take; the arguments that are
    no options are set aside.  The theorem says that calls of getopt_internal until it returns
    -1 give these answers, and leave the options in front of the other arguments. *)

From Stdlib Require Import ZArith Lia.
From stdpp Require Import base list numbers.
From S2P Require Import Prelude Getopt GetoptRotate.

Open Scope Z_scope.

(** What a caller sees: the answer, optarg, and optopt, which it sets to 0 before. *)
Record event := mkEvent { e_answer : answer; e_optarg : option (list Z); e_optopt : Z }.

Section Spec.
Context (text : nat -> list Z) (flags : getopt_flags) (options : list Z) (long_options : option (list long_option)).

(** ** Long options *)

(** "name" or "name=value". *)
Definition long_name (s : list Z) : list Z := match list_find (.= 0x3d) s with Some (k, _) => take k s | None => s end.
Definition long_value (s : list Z) : option (list Z) := match list_find (.= 0x3d) s with Some (k, _) => Some (drop (S k) s) | None => None end.

(** Where in a list [P] holds, counted from [i]. *)
Fixpoint places {A} (P : A -> bool) (i : nat) (l : list A) : list nat :=
  match l with
  | [] => []
  | a :: l => if P a then i :: places P (S i) l else places P (S i) l
  end.

(** The option that a name denotes: the first of exactly that name; or the only one that
    begins with it.  With two that begin with it, in front of an exact one if there is one, it
    is ambiguous (None).  With [short_too] a single letter abbreviates nothing. *)
Definition abbreviates (name : list Z) (short_too : bool) (o : long_option) : bool :=
  bool_decide (name `prefix_of` lo_name o) && negb (short_too && (length name =? 1)%nat).

Definition pick_long (name : list Z) (short_too : bool) (lo : list long_option) : option (option nat) :=
  match list_find (fun o => lo_name o = name) lo with
  | Some (k, _) => if (length (places (abbreviates name short_too) 0 (take k lo)) <? 2)%nat then Some (Some k) else None
  | None => match places (abbreviates name short_too) 0 lo with [] => Some None | [k] => Some (Some k) | _ => None end
  end.

(** The answer for a long option that was found. *)
Definition long_answer (i : nat) (o : long_option) : answer :=
  match flag o with
  | Some f => mkAnswer 0 (Some (Z.of_nat i)) (Some (f, lo_val o))
  | None => mkAnswer (lo_val o) (Some (Z.of_nat i)) None
  end.

Definition missing (o : long_option) : event := mkEvent (plain_answer (BADARG options)) None (opt_val o).

(** A long option and how many arguments it takes; None when letters should be tried. *)
Definition long_spec (lo : list long_option) (short_too : bool) (s : list Z) (next : list nat) : option (event * nat) :=
  match pick_long (long_name s) short_too lo with
  | None => Some (mkEvent (plain_answer BADCH) None 0, 0%nat)
  | Some i =>
      match (i ≫= fun i => (fun o => (i, o)) <$> lo !! i) with
      | None => if short_too then None else Some (mkEvent (plain_answer BADCH) None 0, 0%nat)
      | Some (i, o) =>
          if has_arg o =? no_argument then
            Some (match long_value s with Some _ => missing o | None => mkEvent (long_answer i o) None 0 end, 0%nat)
          else if has_arg o =? required_argument then
            match long_value s, next with
            | Some v, _ => Some (mkEvent (long_answer i o) (Some v) 0, 0%nat)
            | None, a :: _ => Some (mkEvent (long_answer i o) (Some (text a)) 0, 1%nat)
            | None, [] => Some (missing o, 0%nat)
            end
          else Some (mkEvent (long_answer i o) (if has_arg o =? optional_argument then long_value s else None) 0, 0%nat)
      end
  end.

(** ** Letters *)

(** A letter [c] with the letters [cl] behind it: the event, and how many arguments it takes
    if the letters end with it.  None when a last '-' ends the scan. *)
Definition short_spec (c : Z) (cl : list Z) (next : list nat) : option (event * option nat) :=
  match (if (c =? 0x3a) || ((c =? 0x2d) && negb (bool_decide (cl = []))) then None else strchr options c) with
  | None => if (c =? 0x2d) && bool_decide (cl = []) then None else Some (mkEvent (plain_answer BADCH) None c, None)
  | Some oli =>
      match (if (c =? 0x57) && (char_at (tail oli) =? 0x3b) then long_options else None), cl, next with
      | Some lo, [], [] => Some (mkEvent (plain_answer (BADARG options)) None c, Some 0%nat)
      | Some lo, [], a :: next => r ← long_spec lo false (text a) next; Some (r.1, Some (S r.2))
      | Some lo, _ :: _, _ => r ← long_spec lo false cl next; Some (r.1, Some r.2)
      | None, _, _ =>
          if negb (char_at (tail oli) =? 0x3a) then Some (mkEvent (plain_answer c) None 0, None)
          else
            match cl, next with
            | _ :: _, _ => Some (mkEvent (plain_answer c) (Some cl) 0, Some 0%nat)
            | [], a :: _ =>
                if negb (char_at (tail (tail oli)) =? 0x3a) || (negb (f_permute flags) && negb (char_at (text a) =? 0x2d))
                then Some (mkEvent (plain_answer c) (Some (text a)) 0, Some 1%nat)
                else Some (mkEvent (plain_answer c) None 0, Some 0%nat)
            | [], [] =>
                if negb (char_at (tail (tail oli)) =? 0x3a) then Some (mkEvent (plain_answer (BADARG options)) None c, Some 0%nat)
                else Some (mkEvent (plain_answer c) None 0, Some 0%nat)
            end
      end
  end.

(** A long option may stand after "-", and anywhere with getopt_long_only. *)
Definition letter_spec (c : Z) (cl : list Z) (next : list nat) : option (event * option nat) :=
  match long_options with
  | Some lo =>
      if c =? 0x2d then r ← long_spec lo false cl next; Some (r.1, Some r.2)
      else if f_longonly flags then
        match long_spec lo (negb (c =? 0x3a) && bool_decide (is_Some (strchr options c))) (c :: cl) next with
        | Some r => Some (r.1, Some r.2)
        | None => short_spec c cl next
        end
      else short_spec c cl next
  | None => short_spec c cl next
  end.

Fixpoint letters (cl : list Z) (next : list nat) : option (list event * nat) :=
  match cl with
  | [] => Some ([], 0%nat)
  | c :: cl =>
      r ← letter_spec c cl next;
      match r with
      | (e, Some used) => Some ([e], used)
      | (e, None) => r ← letters cl next; Some (e :: r.1, r.2)
      end
  end.

(** ** Arguments *)

Definition nonopt (a : nat) : bool := negb (char_at (text a) =? 0x2d) || ((char_at (tail (text a)) =? 0) && bool_decide (strchr options 0x2d = None)).
Definition is_end (a : nat) : bool := (char_at (tail (text a)) =? 0x2d) && (char_at (tail (tail (text a))) =? 0).

(** An argument with options; "-" alone is a letter. *)
Definition element (a : nat) (next : list nat) : option (list event * nat) :=
  if char_at (tail (text a)) =? 0 then
    r ← short_spec (char_at (text a)) [] next;
    Some ([r.1], default 0%nat r.2)
  else letters (tail (text a)) next.

(** The arguments that are skipped. *)
Fixpoint skip (args : list nat) : list nat * list nat :=
  match args with
  | [] => ([], [])
  | a :: l => if f_permute flags && negb (f_allargs flags) && nonopt a then let r := skip l in (a :: r.1, r.2) else ([], args)
  end.

(** What is read: the events, the arguments with options, the others, and those that were not
    looked at. *)
Record parsed := mkParsed { p_events : list event; p_opts : list nat; p_nonopts : list nat; p_rest : list nat }.

Fixpoint parse (fuel : nat) (args : list nat) : option parsed :=
  match fuel with
  | O => None
  | S fuel =>
      let '(ns, tail_) := skip args in
      match tail_ with
      | [] => Some (mkParsed [] [] ns [])
      | a :: next =>
          if nonopt a then
            if f_allargs flags then
              p ← parse fuel next;
              Some (mkParsed (mkEvent (plain_answer INORDER) (Some (text a)) 0 :: p_events p) (a :: p_opts p) (ns ++ p_nonopts p) (p_rest p))
            else Some (mkParsed [] [] ns (a :: next))
          else if is_end a then Some (mkParsed [] [a] ns next)
          else
            r ← element a next;
            p ← parse fuel (drop r.2 next);
            Some (mkParsed (r.1 ++ p_events p) (a :: take r.2 next ++ p_opts p) (ns ++ p_nonopts p) (p_rest p))
      end
  end.
End Spec.

(** ** Calls until the end *)

Definition norm_flags (posixly_correct : bool) (options : list Z) (flags : getopt_flags) : getopt_flags :=
  if posixly_correct || (char_at options =? 0x2b) then mkFlags false (f_allargs flags) (f_longonly flags)
  else if char_at options =? 0x2d then mkFlags (f_permute flags) true (f_longonly flags) else flags.
Definition norm_options (options : list Z) : list Z := if (char_at options =? 0x2b) || (char_at options =? 0x2d) then tail options else options.

Fixpoint run_getopt (text : nat -> list Z) (posixly_correct : bool) (flags : getopt_flags) (options : list Z) (long_options : option (list long_option))
  (fuel : nat) (s : getopt_state) : cres (list event * getopt_state) :=
  match fuel with
  | O => CFuel
  | S fuel =>
      r ← getopt_internal text posixly_correct flags options long_options (with_optopt s 0);
      if ret r.1 =? -1 then CVal ([], r.2)
      else
        l ← run_getopt text posixly_correct flags options long_options fuel r.2;
        CVal (mkEvent r.1 ((fun p => string_at text (Some p)) <$> optarg r.2) (optopt r.2) :: l.1, l.2)
  end.

(** ** Long options are as specified *)

Section Refine.
Context (text : nat -> list Z) (options : list Z).

(** The variables that a step does not touch. *)
Definition same (s s' : getopt_state) : Prop :=
  nargv s' = nargv s /\ nonopt_start s' = nonopt_start s /\ nonopt_end s' = nonopt_end s /\ optreset s' = optreset s.

(** What a caller sees after an answer. *)
Definition seen (ans : answer) (s : getopt_state) (e : event) : Prop :=
  e_answer e = ans /\ e_optarg e = (fun p => string_at text (Some p)) <$> optarg s /\ e_optopt e = optopt s.

Lemma find_long_bound i name short_too m lo : 0 <= i -> (m = -1 \/ 0 <= m < i) ->
  match find_long i name short_too m lo with Match j => j = -1 \/ 0 <= j < i + Z.of_nat (length lo) | Ambiguous => True end.
Proof.
  revert i m. induction lo as [|o lo IH]; intros i m Hi Hm; cbn [find_long length]; [lia|].
  assert (forall m', (m' = -1 \/ 0 <= m' < i + 1) -> match find_long (i + 1) name short_too m' lo with Match j => j = -1 \/ 0 <= j < i + Z.of_nat (S (length lo)) | Ambiguous => True end) as Hn.
  { intros m' Hm'. specialize (IH (i + 1) m' ltac:(lia) Hm'). destruct (find_long (i + 1) name short_too m' lo); [lia|done]. }
  destruct (negb _); [apply Hn; lia|]. destruct (_ =? _)%nat; [lia|]. destruct (short_too && _); [apply Hn; lia|]. destruct (m =? -1); [apply Hn; lia|done].
Qed.

(** The loop of the code picks what the specification picks: [pre] is what it has found. *)
Lemma find_long_from name short_too (pre : list nat) lo i : (length pre < 2)%nat ->
  find_long (Z.of_nat i) name short_too (match pre with [] => -1 | j :: _ => Z.of_nat j end) lo =
  match list_find (fun o => lo_name o = name) lo with
  | Some (k, _) => if (length (pre ++ places (abbreviates name short_too) i (take k lo)) <? 2)%nat then Match (Z.of_nat (i + k)) else Ambiguous
  | None => match pre ++ places (abbreviates name short_too) i lo with [] => Match (-1) | [k] => Match (Z.of_nat k) | _ => Ambiguous end
  end.
Proof.
  revert i pre. induction lo as [|o lo IH]; intros i pre Hpre; cbn [find_long list_find].
  { cbn [places]. rewrite app_nil_r. by destruct pre as [|j [|j' pre]]; [| |cbn in Hpre; lia]. }
  replace (Z.of_nat i + 1) with (Z.of_nat (S i)) by lia.
  assert (bool_decide (take (length name) (lo_name o) = name) = bool_decide (name `prefix_of` lo_name o)) as Epre.
  { apply bool_decide_ext. split; [intros <-; apply prefix_take|]. intros [q ->]. by apply take_app_length'. }
  rewrite Epre. destruct (decide (lo_name o = name)) as [En|En].
  { rewrite bool_decide_true by (by rewrite En). rewrite En, Nat.eqb_refl. cbn [negb take places]. rewrite app_nil_r, Nat.add_0_r.
    by rewrite (proj2 (Nat.ltb_lt _ _)). }
  assert (bool_decide (name `prefix_of` lo_name o) = true -> (length (lo_name o) =? length name)%nat = false) as Hlen.
  { intros [q Hq]%bool_decide_eq_true. apply Nat.eqb_neq. rewrite Hq, length_app. destruct q; [by rewrite app_nil_r in Hq|cbn; lia]. }
  assert (forall l, places (abbreviates name short_too) i (o :: l) =
    (if abbreviates name short_too o then [i] else []) ++ places (abbreviates name short_too) (S i) l) as Hpl by (intros l; cbn [places]; by destruct (abbreviates _ _ o)).
  specialize (IH (S i)). unfold abbreviates in Hpl at 2. destruct (bool_decide (name `prefix_of` lo_name o)) eqn:Eb; cbn [negb andb] in *.
  - rewrite Hlen by done. destruct (short_too && (length name =? 1)%nat); cbn [negb app] in *.
    + rewrite IH by done. destruct (list_find _ lo) as [[k x]|]; cbn [fmap option_fmap option_map prod_map fst snd id take app]; [rewrite Hpl, Nat.add_succ_r|rewrite Hpl]; done.
    + destruct pre as [|j [|j' pre]]; [| |cbn in Hpre; lia].
      * change (-1 =? -1) with true. cbv iota. rewrite (IH [i]) by (cbn; lia). destruct (list_find _ lo) as [[k x]|]; cbn [fmap option_fmap option_map prod_map fst snd id take app];
          [rewrite Hpl, Nat.add_succ_r|rewrite Hpl]; done.
      * rewrite (proj2 (Z.eqb_neq (Z.of_nat j) (-1))) by lia. destruct (list_find _ lo) as [[k x]|]; cbn [fmap option_fmap option_map prod_map fst snd id take app]; by rewrite Hpl.
  - rewrite IH by done. destruct (list_find _ lo) as [[k x]|]; cbn [fmap option_fmap option_map prod_map fst snd id take app]; rewrite Hpl; cbn [app]; [by rewrite Nat.add_succ_r|done].
Qed.

Lemma find_long_pick name short_too lo : find_long 0 name short_too (-1) lo =
  match pick_long name short_too lo with None => Ambiguous | Some None => Match (-1) | Some (Some k) => Match (Z.of_nat k) end.
Proof.
  pose proof (find_long_from name short_too [] lo 0 ltac:(cbn; lia)) as E. change (Z.of_nat 0) with 0 in E. rewrite E. clear E.
  unfold pick_long. cbn [app]. destruct (list_find _ lo) as [[k x]|].
  - by destruct (_ <? 2)%nat.
  - by destruct (places _ 0 lo) as [|k [|k' l]].
Qed.

Lemma pick_long_lookup name short_too lo k : pick_long name short_too lo = Some (Some k) -> is_Some (lo !! k).
Proof.
  intros E. pose proof (find_long_bound 0 name short_too (-1) lo ltac:(lia) ltac:(lia)) as Hb. rewrite find_long_pick, E in Hb.
  apply lookup_lt_is_Some_2. lia.
Qed.

(** The name and the value of a long option. *)
Lemma name_len_find s : match list_find (.= 0x3d) s with Some (k, _) => name_len s = k /\ (k < length s)%nat | None => name_len s = length s end.
Proof.
  induction s as [|c s IH]; [done|]. cbn [list_find name_len length]. destruct (Z.eqb_spec c 0x3d) as [->|Hc]; [rewrite decide_True by done; split; [done|lia]|].
  rewrite decide_False by done. destruct (list_find _ s) as [[k x]|]; cbn; [|by rewrite IH]. destruct IH as [-> IH]. split; [done|lia].
Qed.

Lemma long_name_take s : long_name s = take (name_len s) s.
Proof.
  unfold long_name. pose proof (name_len_find s) as H. destruct (list_find _ s) as [[k x]|]; [by destruct H as [-> _]|]. by rewrite H, firstn_all.
Qed.

Lemma long_value_drop s : long_value s = if (name_len s <? length s)%nat then Some (drop (name_len s + 1) s) else None.
Proof.
  unfold long_value. pose proof (name_len_find s) as H. destruct (list_find _ s) as [[k x]|].
  - destruct H as [-> H]. rewrite (proj2 (Nat.ltb_lt _ _)) by done. by rewrite Nat.add_1_r.
  - rewrite H. by rewrite Nat.ltb_irrefl.
Qed.

Lemma argv_at_next (pre next : list nat) i : i = Z.of_nat (length pre) -> argv_at (pre ++ next) i = CVal (match next with [] => None | a :: _ => Some (a, 0%nat) end).
Proof.
  intros ->. unfold argv_at. destruct next as [|a next]; [rewrite app_nil_r; by rewrite Z.eqb_refl|]. rewrite (proj2 (Z.eqb_neq _ _)) by (rewrite length_app; cbn; lia).
  rewrite (aget_val _ _ a); [done|lia|]. rewrite Nat2Z.id. by apply list_lookup_middle.
Qed.

(** The string behind '='. *)
Lemma value_ptr a k s : string_at text (Some (a, k)) = s ->
  (if (name_len s <? length s)%nat then ptr_add (Some (a, k)) (name_len s + 1) else None) = (if (name_len s <? length s)%nat then Some (a, (k + (name_len s + 1))%nat) else None) /\
  string_at text (Some (a, (k + (name_len s + 1))%nat)) = drop (name_len s + 1) s.
Proof. intros <-. split; [done|]. cbn [string_at]. by rewrite drop_drop. Qed.

Lemma optind_back s : with_optind (with_optind s (optind s + 1)) (optind (with_optind s (optind s + 1)) - 1) = s.
Proof. destruct s as [i ? ? ? ? ? ? ?]. unfold with_optind. cbn. by replace (i + 1 - 1) with i by lia. Qed.

Lemma long_step lo short_too s pre next a k : place s = Some (a, k) -> optarg s = None -> optopt s = 0 -> nargv s = pre ++ next -> optind s + 1 = Z.of_nat (length pre) ->
  match long_spec text options lo short_too (drop k (text a)) next with
  | Some (e, u) => exists ans s', parse_long_options text options lo short_too s = CVal (ans, s') /\ seen ans s' e /\ same s s' /\
      optind s' = optind s + 1 + Z.of_nat u /\ (u <= length next)%nat
  | None => short_too = true /\ parse_long_options text options lo short_too s = CVal (plain_answer (-1), s)
  end.
Proof.
  intros Hp Ha Ho Hv Hi. unfold parse_long_options, long_spec. cbn [place with_optind]. rewrite Hp. cbn [string_at]. set (str := drop k (text a)) in *. destruct (value_ptr a k str eq_refl) as [-> Ev].
  rewrite <- long_name_take, find_long_pick. pose proof (pick_long_lookup (long_name str) short_too lo) as Hb.
  destruct (pick_long (long_name str) short_too lo) as [[i|]|]; cbn [fmap option_fmap option_map mbind option_bind].
  3: { eexists _, _. split; [done|]. split; [|split; [done|cbn; lia]]. split; [done|]. cbn. by rewrite Ha. }
  2: { change (-1 =? -1) with true. cbv iota. destruct short_too; [split; [done|]; by rewrite optind_back|].
    eexists _, _. split; [done|]. split; [|split; [done|cbn; lia]]. split; [done|]. cbn. by rewrite Ha. }
  rewrite (proj2 (Z.eqb_neq (Z.of_nat i) (-1))) by lia. destruct (Hb i eq_refl) as [o Hlo].
  rewrite Hlo, (aget_val lo (Z.of_nat i) o) by (by rewrite ?Nat2Z.id || lia). cbn [mbind cres_bind]. cbn [fmap option_fmap option_map]. rewrite long_value_drop.
  destruct (Z.eqb_spec (has_arg o) no_argument) as [En|Hn].
  { rewrite En. change (no_argument =? required_argument) with false. change (no_argument =? optional_argument) with false. cbn [orb andb]. destruct (name_len str <? length str)%nat.
    - rewrite bool_decide_true by (by eexists). eexists _, _. split; [done|]. split; [|split; [done|cbn; lia]]. split; [done|]. cbn. by rewrite Ha.
    - rewrite bool_decide_false by (by intros [? [=]]). cbn [mbind cres_bind andb]. eexists _, _. split; [done|]. split; [|split; [done|cbn; lia]]. split; [by unfold long_answer; destruct (flag o)|]. cbn. by rewrite Ha, Ho. }
  cbn [andb]. destruct (Z.eqb_spec (has_arg o) required_argument) as [Er|Hr]; cbn [orb andb].
  - destruct (name_len str <? length str)%nat.
    + rewrite bool_decide_true by (by eexists). cbn [mbind cres_bind optarg with_optarg]. rewrite bool_decide_false by done. eexists _, _. split; [done|]. split; [|split; [done|cbn; lia]].
      split; [by unfold long_answer; destruct (flag o)|]. cbn [optarg with_optarg fmap option_fmap option_map optopt with_optind e_optarg e_optopt]. split; [f_equal; symmetry; exact Ev|by rewrite Ho].
    + rewrite bool_decide_false by (by intros [? [=]]). cbn [nargv with_optind optind]. rewrite Hv, (argv_at_next pre next _ Hi). cbn [mbind cres_bind optarg with_optind with_optarg].
      destruct next as [|b next].
      * rewrite bool_decide_true by done. eexists _, _. split; [done|]. split; [by split|]. split; [done|cbn; lia].
      * rewrite bool_decide_false by done. eexists _, _. split; [done|]. split; [|split; [done|cbn; lia]]. split; [by unfold long_answer; destruct (flag o)|]. cbn. by rewrite Ho.
  - destruct (Z.eqb_spec (has_arg o) optional_argument) as [Eo|Hoo].
    + destruct (name_len str <? length str)%nat.
      * rewrite bool_decide_true by (by eexists). cbn [mbind cres_bind]. eexists _, _. split; [done|]. split; [|split; [done|cbn; lia]]. split; [by unfold long_answer; destruct (flag o)|].
        cbn [optarg with_optarg fmap option_fmap option_map optopt with_optind e_optarg e_optopt]. split; [f_equal; symmetry; exact Ev|by rewrite Ho].
      * rewrite bool_decide_false by (by intros [? [=]]). cbn [mbind cres_bind]. eexists _, _. split; [done|]. split; [|split; [done|cbn; lia]]. split; [by unfold long_answer; destruct (flag o)|]. cbn. by rewrite Ha, Ho.
    + cbn [mbind cres_bind]. eexists _, _. split; [done|]. split; [|split; [done|cbn; lia]]. split; [by unfold long_answer; destruct (flag o)|]. cbn. by rewrite Ha, Ho.
Qed.

(** The argument is finished, with [u] arguments that it takes; or letters are left. *)
Record finished (s : getopt_state) (u : nat) (next : list nat) (s' : getopt_state) : Prop := {
  fi_same : same s s'; fi_optind : optind s' = optind s + 1 + Z.of_nat u; fi_u : (u <= length next)%nat; fi_place : string_at text (place s') = []
}.

Definition goes_on (s : getopt_state) (a k : nat) (s' : getopt_state) : Prop := same s s' /\ optind s' = optind s /\ place s' = Some (a, S k).

Lemma after_letter a k c cl : drop k (text a) = c :: cl -> string_at text (ptr_add (Some (a, k)) 1) = cl.
Proof. intros E. cbn [ptr_add string_at]. by rewrite <- drop_drop, E. Qed.

Section Letters.
Context (flags : getopt_flags) (long_options : option (list long_option)).

(** A state at a letter. *)
Record at_letter (s : getopt_state) (pre : list nat) (a k : nat) (next : list nat) : Prop := {
  al_place : place s = Some (a, k); al_arg : optarg s = None; al_opt : optopt s = 0;
  al_argv : nargv s = pre ++ a :: next; al_optind : optind s = Z.of_nat (length pre)
}.

Lemma short_step s pre a k c cl next : at_letter s pre a k next -> drop k (text a) = c :: cl ->
  match short_spec text flags options long_options c cl next with
  | None => True
  | Some (e, Some u) => exists ans s', short_option text flags options long_options s = CVal (ans, s') /\ seen ans s' e /\ finished s u next s'
  | Some (e, None) => exists ans s', short_option text flags options long_options s = CVal (ans, s') /\ seen ans s' e /\
      (cl = [] -> finished s 0 next s') /\ (cl <> [] -> goes_on s a k s')
  end.
Proof.
  intros [Hp Ha Ho Hv Hi] Hcl. unfold short_spec, short_option. cbn [place with_place nargv optind]. rewrite Hp. cbn [string_at]. rewrite Hcl. cbn [char_at].
  pose proof (after_letter a k c cl Hcl) as Hs. rewrite Hs. set (p := ptr_add (Some (a, k)) 1) in *.
  assert (Z.of_nat (length (nargv s)) = optind s + 1 + Z.of_nat (length next)) as Hlen by (rewrite Hv, length_app, Hi; cbn; lia).
  assert (argv_at (nargv s) (optind s + 1) = CVal (match next with [] => None | b :: _ => Some (b, 0%nat) end)) as Hnext.
  { rewrite Hv. replace (pre ++ a :: next) with ((pre ++ [a]) ++ next) by (by rewrite <- app_assoc). apply argv_at_next. rewrite length_app, Hi. cbn. lia. }
  destruct (if (c =? 0x3a) || ((c =? 0x2d) && negb (bool_decide (cl = []))) then None else strchr options c) as [oli|].
  2: { destruct cl as [|d cl].
    - rewrite bool_decide_true by done. cbn [negb]. rewrite !andb_true_r. destruct (c =? 0x2d); [done|]. eexists _, _. split; [done|]. split; [split; [done|]; cbn; by rewrite Ha|].
      split; [|done]. intros _. split; [done|cbn; lia|lia|exact Hs].
    - rewrite bool_decide_false by done. cbn [negb]. rewrite !andb_false_r. eexists _, _. split; [done|]. split; [split; [done|]; cbn; by rewrite Ha|]. split; [done|]. intros _. split; [done|]. split; [done|].
      cbn. f_equal. f_equal. lia. }
  destruct (if (c =? 0x57) && (char_at (tail oli) =? 0x3b) then long_options else None) as [lo|].
  - destruct cl as [|d cl]; [rewrite bool_decide_true by done|rewrite bool_decide_false by done]; cbn [negb andb].
    + destruct next as [|b next]; cbn [length] in Hlen.
      * zif. eexists _, _. split; [done|]. split; [split; [done|]; cbn; by rewrite Ha|]. split; [done|cbn; lia|cbn; lia|done].
      * zif. rewrite Hnext. cbn [mbind cres_bind].
        pose proof (long_step lo false (with_place (with_optind (with_place s p) (optind s + 1)) (Some (b, 0%nat))) (pre ++ [a; b]) next b 0) as HL. rewrite drop_0 in HL.
        destruct (long_spec text options lo false (text b) next) as [[e u]|]; cbn [mbind option_bind]; [|done].
        destruct HL as (ans & s' & -> & He & Hsame & Hopt & Hu); [done|done|done|cbn; rewrite Hv, <- app_assoc; done|cbn; rewrite length_app, Hi; cbn; lia|].
        cbn [mbind cres_bind fst snd]. eexists _, _. split; [done|]. split; [exact He|]. split; [exact Hsame|cbn in Hopt |- *; lia|cbn; lia|done].
    + cbn [mbind cres_bind]. pose proof (long_step lo false (with_place s p) (pre ++ [a]) next a (k + 1)) as HL.
      change (drop (k + 1) (text a)) with (string_at text p) in HL. rewrite Hs in HL.
      destruct (long_spec text options lo false (d :: cl) next) as [[e u]|]; cbn [mbind option_bind]; [|done].
      destruct HL as (ans & s' & -> & He & Hsame & Hopt & Hu); [done|done|done|cbn; rewrite Hv, <- app_assoc; done|cbn; rewrite length_app, Hi; cbn; lia|].
      cbn [mbind cres_bind fst snd]. eexists _, _. split; [done|]. split; [exact He|]. split; [exact Hsame|cbn in Hopt |- *; lia|done|done].
  - destruct (char_at (tail oli) =? 0x3a); cbn [negb].
    2: { destruct cl as [|d cl]; [rewrite bool_decide_true by done|rewrite bool_decide_false by done]; cbn [negb]; eexists _, _; (split; [done|]); (split; [split; [done|]; cbn; by rewrite Ha, Ho|]); first [split; [|done]|split; [done|]].
      - intros _. split; [done|cbn; lia|lia|exact Hs].
      - intros _. split; [done|]. split; [done|]. cbn. f_equal. f_equal. lia. }
    destruct cl as [|d cl]; [rewrite bool_decide_true by done|rewrite bool_decide_false by done]; cbn [negb].
    + cbn [nargv optind with_optind with_optarg with_place]. destruct (char_at (tail (tail oli)) =? 0x3a) eqn:Ecc; cbn [negb].
      * destruct next as [|b next]; cbn [length] in Hlen.
        { cbn [orb]. replace (optind s + 1 <? Z.of_nat (length (nargv s))) with false by (symmetry; apply Z.ltb_ge; lia). rewrite andb_false_r. cbn [mbind cres_bind].
          eexists _, _. split; [done|]. split; [split; [done|]; cbn; by rewrite Ho|]. split; [done|cbn; lia|cbn; lia|done]. }
        replace (optind s + 1 <? Z.of_nat (length (nargv s))) with true by (symmetry; apply Z.ltb_lt; lia). rewrite andb_true_r. destruct (f_permute flags); cbn [negb orb andb].
        { cbn [mbind cres_bind]. eexists _, _. split; [done|]. split; [split; [done|]; cbn; by rewrite Ho|]. split; [done|cbn; lia|cbn; lia|done]. }
        rewrite Hnext. cbn [mbind cres_bind string_at]. rewrite drop_0. destruct (char_at (text b) =? 0x2d); cbn [negb];
          eexists _, _; (split; [done|]); (split; [split; [done|]; cbn; by rewrite Ho|]); (split; [done|cbn; lia|cbn; lia|done]).
      * cbn [nargv optind with_optind with_optarg with_place]. destruct next as [|b next]; cbn [length orb] in Hlen |- *.
        { zif. eexists _, _. split; [done|]. split; [split; [done|]; cbn; done|]. split; [done|cbn; lia|cbn; lia|done]. }
        zif. rewrite Hnext. cbn [mbind cres_bind]. eexists _, _. split; [done|]. split; [split; [done|]; cbn; by rewrite Ho|]. split; [done|cbn; lia|cbn; lia|done].
    + eexists _, _. split; [done|]. split; [split; [done|]|split; [done|cbn; lia|lia|done]].
      cbn [optarg with_optind with_place with_optarg e_optarg e_optopt optopt]. split; [|by rewrite Ho]. change (string_at text p = d :: cl) in Hs. destruct p as [q|]; [|done]. change (Some (d :: cl) = Some (string_at text (Some q))). f_equal. symmetry. exact Hs.
Qed.

(** Long options have values that a caller can tell from the end. *)
Context (Hlong : forall lo o, long_options = Some lo -> o ∈ lo -> lo_val o <> -1).

Lemma long_spec_ret lo short_too str next e u : long_options = Some lo -> long_spec text options lo short_too str next = Some (e, u) -> ret (e_answer e) <> -1.
Proof.
  intros El. unfold long_spec. assert (BADARG options <> -1) as HB by (unfold BADARG; by destruct (_ =? _)).
  destruct (pick_long _ _ _) as [i|]; [|by intros [= <- _]]. destruct (i ≫= _) as [[j o]|] eqn:Eo; [|destruct short_too; [done|]; by intros [= <- _]].
  assert (ret (long_answer j o) <> -1) as Hr.
  { unfold long_answer. destruct (flag o); [done|]. cbn. apply (Hlong lo); [done|]. destruct i as [i|]; [|done]. cbn in Eo.
    destruct (lo !! i) as [o'|] eqn:El'; [|done]. injection Eo as <- <-. by eapply list_elem_of_lookup_2. }
  destruct (has_arg o =? no_argument); [destruct (long_value str); by intros [= <- _]|]. destruct (has_arg o =? required_argument); [|by intros [= <- _]].
  destruct (long_value str); [by intros [= <- _]|]. destruct next; by intros [= <- _].
Qed.

(** A letter, or a long option at its place. *)
Lemma option_step s pre a k c cl next : at_letter s pre a k next -> drop k (text a) = c :: cl -> (1 <= k)%nat ->
  match letter_spec text flags options long_options c cl next with
  | None => True
  | Some (e, Some u) => exists ans s', getopt_option text flags options long_options s = CVal (ans, s') /\ seen ans s' e /\ finished s u next s'
  | Some (e, None) => exists ans s', getopt_option text flags options long_options s = CVal (ans, s') /\ seen ans s' e /\
      (cl = [] -> finished s 0 next s') /\ (cl <> [] -> goes_on s a k s')
  end.
Proof.
  intros Hat Hcl Hk. pose proof (short_step s pre a k c cl next Hat Hcl) as Hshort. pose proof Hat as [Hp Ha Ho Hv Hi]. pose proof long_spec_ret as Hret. unfold letter_spec, getopt_option.
  clear Hlong. destruct long_options as [lo|] eqn:El; [|exact Hshort]. rewrite Hv, (argv_at_next pre (a :: next) _ Hi). cbn [mbind cres_bind].
  rewrite (bool_decide_false (place s = Some (a, 0%nat))) by (rewrite Hp; intros [= ->]; lia). cbn [negb andb]. rewrite Hp. cbn [string_at]. rewrite Hcl. cbn [char_at].
  assert (nargv s = (pre ++ [a]) ++ next) as Hv' by (rewrite <- app_assoc; exact Hv). assert (optind s + 1 = Z.of_nat (length (pre ++ [a]))) as Hi' by (rewrite length_app, Hi; cbn; lia).
  destruct (c =? 0x2d) eqn:Ec; cbn [negb orb andb].
  - pose proof (long_step lo false (with_place s (ptr_add (Some (a, k)) 1)) (pre ++ [a]) next a (k + 1)) as HL. change (drop (k + 1) (text a)) with (string_at text (ptr_add (Some (a, k)) 1)) in HL.
    rewrite (after_letter a k c cl Hcl) in HL. destruct (long_spec text options lo false cl next) as [[e u]|] eqn:Es; cbn [mbind option_bind]; [|done].
    destruct HL as (ans & s' & -> & He & Hsame & Hopt & Hu); [done|done|done|exact Hv'|exact Hi'|]. cbn [mbind cres_bind fst snd]. pose proof (Hret _ _ _ _ _ _ eq_refl Es) as Hr.
    destruct He as (E1 & E2 & E3). rewrite E1 in Hr. rewrite (proj2 (Z.eqb_neq _ _) Hr). cbn [negb]. eexists _, _. split; [done|]. split; [by split|]. split; [exact Hsame|exact Hopt|done|done].
  - destruct (f_longonly flags); [|exact Hshort]. set (short_too := negb (c =? 0x3a) && bool_decide (is_Some (strchr options c))).
    pose proof (long_step lo short_too s (pre ++ [a]) next a k Hp Ha Ho Hv' Hi') as HL. rewrite Hcl in HL.
    destruct (long_spec text options lo short_too (c :: cl) next) as [[e u]|] eqn:Es.
    + destruct HL as (ans & s' & -> & He & Hsame & Hopt & Hu). cbn [mbind cres_bind fst snd]. pose proof (Hret _ _ _ _ _ _ eq_refl Es) as Hr.
      destruct He as (E1 & E2 & E3). rewrite E1 in Hr. rewrite (proj2 (Z.eqb_neq _ _) Hr). cbn [negb]. eexists _, _. split; [done|]. split; [by split|]. split; [exact Hsame|exact Hopt|done|done].
    + destruct HL as [_ ->]. cbn [mbind cres_bind fst snd ret plain_answer]. change (-1 =? -1) with true. cbn [negb]. exact Hshort.
Qed.

(** "-" alone. *)
Lemma dash_step s pre a next : at_letter s pre a 0 next -> getopt_option text flags options long_options s = short_option text flags options long_options s.
Proof.
  intros [Hp Ha Ho Hv Hi]. unfold getopt_option. destruct long_options as [lo|]; [|done]. rewrite Hv, (argv_at_next pre (a :: next) _ Hi). cbn [mbind cres_bind].
  rewrite (bool_decide_true (place s = Some (a, 0%nat))) by (rewrite Hp; done). done.
Qed.

(** ** The scan *)

(** Non-options [N] have been skipped, [P] are the arguments with options after them. *)
Record fresh (d N P args : list nat) (s : getopt_state) : Prop := {
  fr_argv : nargv s = d ++ N ++ P ++ args; fr_optind : optind s = Z.of_nat (length d + length N + length P);
  fr_place : string_at text (place s) = []; fr_reset : optreset s = 0;
  fr_start : nonopt_start s = if bool_decide (N = []) then -1 else Z.of_nat (length d);
  fr_end : nonopt_end s = if bool_decide (N = []) || bool_decide (P = []) then -1 else Z.of_nat (length d + length N);
  fr_none : f_permute flags && negb (f_allargs flags) = false -> N = []
}.

Lemma permute_fresh d N P args s : N <> [] -> P <> [] -> nargv s = d ++ N ++ P ++ args -> optind s = Z.of_nat (length d + length N + length P) ->
  nonopt_start s = Z.of_nat (length d) -> nonopt_end s = Z.of_nat (length d + length N) -> permute s = CVal (with_nargv s (d ++ P ++ N ++ args)).
Proof. intros HN HP Ev Ei Es Ee. unfold permute. rewrite Ev, Ei, Es, Ee. by rewrite permute_args_app. Qed.

Lemma finish_fresh d N P args s : N <> [] -> P <> [] -> nargv s = d ++ N ++ P ++ args -> optind s = Z.of_nat (length d + length N + length P) ->
  nonopt_start s = Z.of_nat (length d) -> nonopt_end s = Z.of_nat (length d + length N) ->
  exists s', finish_permute s = CVal s' /\ nargv s' = d ++ P ++ N ++ args /\ optind s' = Z.of_nat (length d + length P).
Proof.
  intros HN HP Ev Ei Es Ee. unfold finish_permute. rewrite (permute_fresh d N P args s) by done. cbn [mbind cres_bind]. eexists. split; [done|]. split; [done|]. cbn. rewrite Ei, Es, Ee. lia.
Qed.

(** What a scan comes to. *)
Definition scan_result (d N P : list nat) (args : list nat) (s : getopt_state) (c : cres scanned) : Prop :=
  let '(ns, rest) := skip text flags options args in
  match rest with
  | [] => exists s', c = CVal (Answer (plain_answer (-1)) s') /\ nargv s' = d ++ P ++ N ++ ns /\ optind s' = Z.of_nat (length d + length P)
  | a :: next =>
      if nonopt text options a then
        if f_allargs flags then exists s', c = CVal (Answer (plain_answer INORDER) s') /\ optarg s' = Some (a, 0%nat) /\ optopt s' = optopt s /\ fresh d N (P ++ [a]) next s'
        else exists s', c = CVal (Answer (plain_answer (-1)) s') /\ nargv s' = d ++ P ++ a :: next /\ optind s' = Z.of_nat (length d + length P) /\ N = []
      else if is_end text a then exists s', c = CVal (Answer (plain_answer (-1)) s') /\ nargv s' = d ++ P ++ [a] ++ N ++ ns ++ next /\ optind s' = Z.of_nat (length d + length P + 1)
      else exists s' d' P', c = CVal (Letters s') /\ d' ++ P' = d ++ P /\ at_letter s' (d' ++ (N ++ ns) ++ P') a (if char_at (tail (text a)) =? 0 then 0 else 1) next /\
        optreset s' = 0 /\ nonopt_start s' = (if bool_decide (N ++ ns = []) then -1 else Z.of_nat (length d')) /\
        nonopt_end s' = (if bool_decide (N ++ ns = []) then -1 else Z.of_nat (length d' + length (N ++ ns)))
  end.

(** One non-option more is skipped. *)
Lemma scan_result_skip d N P a args s s' c : f_permute flags && negb (f_allargs flags) = true -> nonopt text options a = true -> optopt s' = optopt s ->
  scan_result (d ++ P) (N ++ [a]) [] args s' c -> scan_result d N P (a :: args) s c.
Proof.
  intros Hf Hn _. unfold scan_result. cbn [skip]. rewrite Hf, Hn. cbn [andb]. destruct (skip text flags options args) as [ns rest]. cbn [fst snd].
  assert (forall l, (N ++ [a]) ++ l = N ++ a :: l) as E by (intros l; by rewrite <- app_assoc). assert (N ++ [a] <> []) as Hne by (by destruct N). destruct rest as [|b next].
  - intros (s2 & -> & E1 & E2). exists s2. split; [done|]. split; [rewrite E1; cbn [app]; by rewrite E, <- app_assoc|]. rewrite E2, length_app. cbn. lia.
  - destruct (nonopt text options b).
    + apply andb_true_iff in Hf as [_ Hf]. apply negb_true_iff in Hf. rewrite Hf. intros (s2 & _ & _ & _ & H). done.
    + destruct (is_end text b).
      * intros (s2 & -> & E1 & E2). exists s2. split; [done|]. split; [rewrite E1; cbn [app]; by rewrite E, <- app_assoc|]. rewrite E2, length_app. cbn. lia.
      * intros (s2 & d' & P' & -> & E1 & Hat & E2 & E3 & E4). exists s2, d', P'. rewrite E in *. rewrite app_nil_r in E1. split; [done|]. split; [done|]. split; [done|]. split; [done|]. split; done.
Qed.

(** The end of argv. *)
Lemma end_of_args d N P s : nargv s = d ++ N ++ P -> optind s = Z.of_nat (length d + length N + length P) ->
  nonopt_start s = (if bool_decide (N = []) then -1 else Z.of_nat (length d)) ->
  nonopt_end s = (if bool_decide (N = []) || bool_decide (P = []) then -1 else Z.of_nat (length d + length N)) ->
  exists s', (s ← (if negb (nonopt_end s =? -1) then finish_permute s else CVal (if negb (nonopt_start s =? -1) then with_optind s (nonopt_start s) else s));
      CVal (Answer (plain_answer (-1)) (with_nonopt s (-1) (-1)))) = CVal (Answer (plain_answer (-1)) s') /\
    nargv s' = d ++ P ++ N /\ optind s' = Z.of_nat (length d + length P).
Proof.
  intros Fv Fi Fs Fe. destruct (decide (N = [])) as [->|HN].
  - rewrite bool_decide_true in Fs, Fe by done. cbn [orb] in Fe. rewrite Fs, Fe. change (-1 =? -1) with true. cbn [negb mbind cres_bind]. eexists. split; [done|]. cbn. rewrite app_nil_r. split; [exact Fv|rewrite Fi; cbn; lia].
  - rewrite (bool_decide_false (N = [])) in Fs, Fe by done. cbn [orb] in Fe. destruct (decide (P = [])) as [->|HP].
    + rewrite bool_decide_true in Fe by done. rewrite Fs, Fe. change (-1 =? -1) with true. rewrite (proj2 (Z.eqb_neq (Z.of_nat (length d)) (-1))) by lia. cbn [negb mbind cres_bind].
      eexists. split; [done|]. cbn. rewrite app_nil_r in Fv. split; [exact Fv|lia].
    + rewrite bool_decide_false in Fe by done. rewrite Fe. rewrite (proj2 (Z.eqb_neq (Z.of_nat _) (-1))) by lia. cbn [negb].
      destruct (finish_fresh d N P [] s) as (s' & -> & E1 & E2); try done; [by rewrite app_nil_r|]. cbn [mbind cres_bind].
      eexists. split; [done|]. cbn. rewrite app_nil_r in E1. by split.
Qed.

(** What is kept when a non-option is skipped: options between it and those skipped before go in
    front of them. *)
Lemma skip_one d N P a args s : optarg s = None -> optopt s = 0 -> place s = None -> optreset s = 0 -> nargv s = d ++ N ++ P ++ a :: args ->
  optind s = Z.of_nat (length d + length N + length P) -> nonopt_start s = (if bool_decide (N = []) then -1 else Z.of_nat (length d)) ->
  nonopt_end s = (if bool_decide (N = []) || bool_decide (P = []) then -1 else Z.of_nat (length d + length N)) ->
  exists s2, (if nonopt_start s =? -1 then CVal (with_nonopt s (optind s) (nonopt_end s))
      else if negb (nonopt_end s =? -1) then s3 ← permute s; CVal (with_nonopt s3 (optind s3 - (nonopt_end s3 - nonopt_start s3)) (-1))
      else CVal s) = CVal s2 /\ optarg s2 = None /\ optopt s2 = 0 /\ optind s2 = optind s /\ place s2 = None /\ optreset s2 = 0 /\
    nargv s2 = (d ++ P) ++ N ++ a :: args /\ nonopt_start s2 = Z.of_nat (length d + length P) /\ nonopt_end s2 = -1.
Proof.
  intros Ha Ho Hp Hr Fv Fi Fs Fe. destruct (decide (N = [])) as [->|HN].
  - rewrite bool_decide_true in Fs, Fe by done. rewrite Fs. eexists. split; [done|]. cbn. rewrite Fi, <- app_assoc. cbn. repeat (split; [done || lia|]). exact Fe.
  - rewrite (bool_decide_false (N = [])) in Fs, Fe by done. cbn [orb] in Fe. rewrite Fs, (proj2 (Z.eqb_neq (Z.of_nat (length d)) (-1))) by lia. destruct (decide (P = [])) as [->|HP].
    + rewrite bool_decide_true in Fe by done. rewrite Fe. eexists. split; [done|]. rewrite app_nil_r. repeat (split; [done|]). split; [rewrite Fs; cbn; lia|exact Fe].
    + rewrite bool_decide_false in Fe by done. rewrite Fe, (proj2 (Z.eqb_neq (Z.of_nat _) (-1))) by lia. cbn [negb].
      rewrite (permute_fresh d N P (a :: args)) by done. cbn [mbind cres_bind]. eexists. split; [done|]. cbn. rewrite Fi, Fs, Fe, <- app_assoc. repeat (split; [done|]). split; [lia|done].
Qed.

Lemma scan_spec fuel d N P args s : (length args < fuel)%nat -> fresh d N P args s -> optarg s = None -> optopt s = 0 ->
  scan_result d N P args s (scan_loop text fuel flags options s).
Proof.
  revert d N P args s. induction fuel as [|fuel IH]; intros d N P args s Hfuel [Fv Fi Fp Fr Fs Fe Fn] Ha Ho; [lia|]. cbn [scan_loop].
  rewrite Fr, (bool_decide_true (string_at text (place s) = [])) by done. change (negb (0 =? 0) || true) with true. cbv iota. cbn [nargv optind with_optreset].
  assert (Z.of_nat (length (nargv s)) = optind s + Z.of_nat (length args)) as Hlen by (rewrite Fv, Fi, !length_app; lia).
  destruct args as [|a args]; cbn [length] in *.
  { zif. rewrite app_nil_r in Fv. destruct (end_of_args d N P (with_place (with_optreset s 0) None)) as (s' & -> & E1 & E2); try done. exists s'. rewrite !app_nil_r. by split. }
  rewrite (proj2 (Z.leb_gt _ _)) by lia. rewrite (aget_val (nargv s) (optind s) a); [|lia|rewrite Fv, Fi, Nat2Z.id, !(app_assoc _ _ (a :: args)), (app_assoc d N); apply list_lookup_middle; rewrite !length_app; lia].
  cbn [mbind cres_bind]. change (negb (char_at (text a) =? 0x2d) || ((char_at (tail (text a)) =? 0) && bool_decide (strchr options 0x2d = None))) with (nonopt text options a).
  destruct (nonopt text options a) eqn:En.
  - destruct (f_allargs flags) eqn:Eall.
    { unfold scan_result. cbn [skip]. rewrite Eall, andb_false_r. cbn [andb]. rewrite En. eexists. split; [done|]. split; [done|]. split; [done|].
      assert (N = []) as -> by (apply Fn; by rewrite andb_false_r). rewrite bool_decide_true in Fs, Fe by done. split; cbn; try done.
      - by rewrite <- app_assoc.
      - rewrite Fi, length_app. cbn. lia. }
    destruct (f_permute flags) eqn:Eper; cbn [negb].
    2: { unfold scan_result. cbn [skip]. rewrite Eper. cbn [andb]. rewrite En, Eall. assert (N = []) as -> by (by apply Fn). eexists. split; [done|]. split; [exact Fv|]. split; [|done]. cbn. rewrite Fi. cbn. lia. }
    assert (f_permute flags && negb (f_allargs flags) = true) as Hf by (by rewrite Eper, Eall).
    destruct (skip_one d N P a args (with_place (with_optreset s 0) None)) as (s2 & E2 & A1 & A2 & A3 & A4 & A5 & A6 & A7 & A8); try done. cbn in A3.
    rewrite E2. cbn [mbind cres_bind]. apply (scan_result_skip d N P a args s (with_optind s2 (optind s2 + 1))); [done|done|cbn; congruence|].
    apply IH; [lia| |done|done]. split; cbn; try done.
    + rewrite A6, <- !app_assoc. done.
    + rewrite A3, Fi, !length_app. cbn. lia.
    + by rewrite A4.
    + rewrite A7, bool_decide_false by (by destruct N). by rewrite length_app.
    + rewrite orb_true_r. exact A8.
    + rewrite Hf. done.
  - set (s1 := if negb (nonopt_start _ =? -1) && (nonopt_end _ =? -1) then with_nonopt _ _ _ else _). assert (optarg s1 = None /\ optopt s1 = 0 /\ optind s1 = optind s /\ optreset s1 = 0 /\ nargv s1 = nargv s /\ nonopt_start s1 = nonopt_start s /\
      nonopt_end s1 = if bool_decide (N = []) then -1 else Z.of_nat (length d + length N)) as (A1 & A2 & A3 & A4 & A5 & A6 & A7).
    { subst s1. cbn [nonopt_start nonopt_end with_optreset]. rewrite Fs, Fe. destruct (decide (N = [])) as [->|HN]; [rewrite bool_decide_true by done; cbn; by rewrite ?Fs, ?Fe, ?bool_decide_true by done|].
      rewrite !(bool_decide_false (N = [])) by done. rewrite (proj2 (Z.eqb_neq (Z.of_nat (length d)) (-1))) by lia. cbn [negb orb andb]. destruct (decide (P = [])) as [->|HP].
      - rewrite bool_decide_true by done. change (-1 =? -1) with true. cbn. rewrite ?Fi, ?Fs, ?(bool_decide_false (N = [])) by done. cbn. repeat (split; [done|]). lia.
      - rewrite bool_decide_false by done. rewrite (proj2 (Z.eqb_neq (Z.of_nat _) (-1))) by lia. cbn. by rewrite ?Fs, ?Fe, ?(bool_decide_false (N = [])), ?(bool_decide_false (P = [])) by done. }
    clearbody s1. unfold scan_result. cbn [skip]. rewrite En, andb_false_r. rewrite !app_nil_r. cbn [app]. rewrite En.
    assert (forall k, at_letter (with_place s1 (Some (a, k))) (d ++ N ++ P) a k args) as Hat.
    { intros k. split; cbn; try done; [by rewrite A5, Fv, <- !app_assoc|rewrite A3, Fi, !length_app; lia]. }
    destruct (Z.eqb_spec (char_at (tail (text a))) 0) as [E0|E0].
    { assert (is_end text a = false) as -> by (unfold is_end; by rewrite E0). eexists _, d, P. split; [done|]. split; [done|]. split; [apply Hat|]. cbn. rewrite A6, A7. done. }
    change ((char_at (tail (text a)) =? 0x2d) && (char_at (tail (tail (text a))) =? 0)) with (is_end text a). destruct (is_end text a).
    + cbn [nonopt_end with_place with_optind]. rewrite A7. destruct (decide (N = [])) as [->|HN].
      * rewrite bool_decide_true by done. change (-1 =? -1) with true. cbn [negb mbind cres_bind]. eexists. split; [done|]. cbn. rewrite A5, A3, Fv, Fi. split; [done|]. cbn. lia.
      * rewrite (bool_decide_false (N = [])) by done. rewrite (proj2 (Z.eqb_neq (Z.of_nat _) (-1))) by lia. cbn [negb].
        destruct (finish_fresh d N (P ++ [a]) args (with_place (with_optind s1 (optind s1 + 1)) None)) as (s' & -> & B1 & B2); cbn; [done|by destruct P|by rewrite A5, Fv, <- app_assoc| | | |].
        -- rewrite A3, Fi, length_app. cbn. lia.
        -- rewrite A6, Fs, bool_decide_false by done. done.
        -- rewrite A7, bool_decide_false by done. done.
        -- eexists. split; [done|]. cbn. rewrite B1, B2, <- app_assoc, length_app. split; [done|]. cbn. lia.
    + eexists _, d, P. split; [done|]. split; [done|]. split; [apply Hat|]. cbn. rewrite A6, A7. done.
Qed.

(** ** Runs *)

Lemma short_spec_ret c cl next e u : c <> -1 -> short_spec text flags options long_options c cl next = Some (e, u) -> ret (e_answer e) <> -1.
Proof.
  intros Hc. pose proof long_spec_ret as Hret. clear Hlong. unfold short_spec. assert (BADARG options <> -1) as HB by (unfold BADARG; by destruct (_ =? _)).
  destruct (if (c =? 0x3a) || _ then None else strchr options c) as [oli|]; [|destruct (_ && _); [done|]; by intros [= <- _]].
  destruct (if (c =? 0x57) && (char_at (tail oli) =? 0x3b) then long_options else None) as [lo|] eqn:El.
  - assert (long_options = Some lo) as El' by (by destruct (_ && _)). destruct cl as [|d cl]; [destruct next as [|b next]; [by intros [= <- _]|]|].
    + destruct (long_spec text options lo false (text b) next) as [[e' u']|] eqn:Es; [|done]. intros [= <- _]. by apply (Hret _ _ _ _ _ _ El' Es).
    + destruct (long_spec text options lo false (d :: cl) next) as [[e' u']|] eqn:Es; [|done]. intros [= <- _]. by apply (Hret _ _ _ _ _ _ El' Es).
  - clear El. destruct (negb (char_at (tail oli) =? 0x3a)); [by intros [= <- _]|]. destruct cl as [|d cl]; [|by intros [= <- _]]. destruct next as [|b next]; destruct (_ =? 0x3a); cbn [negb orb].
    + by intros [= <- _].
    + by intros [= <- _].
    + destruct (_ && _); by intros [= <- _].
    + by intros [= <- _].
Qed.

Lemma letter_spec_ret c cl next e u : c <> -1 -> letter_spec text flags options long_options c cl next = Some (e, u) -> ret (e_answer e) <> -1.
Proof.
  intros Hc. pose proof (short_spec_ret c cl next e u Hc) as Hshort. pose proof long_spec_ret as Hret. unfold letter_spec. clear Hlong. destruct long_options as [lo|]; [|exact Hshort].
  destruct (c =? 0x2d); [|destruct (f_longonly flags); [|exact Hshort]].
  - destruct (long_spec text options lo false cl next) as [[e' u']|] eqn:Es; [|done]. intros [= <- _]. by apply (Hret _ _ _ _ _ _ eq_refl Es).
  - destruct (long_spec text options lo _ (c :: cl) next) as [[e' u']|] eqn:Es; [|exact Hshort]. intros [= <- _]. by apply (Hret _ _ _ _ _ _ eq_refl Es).
Qed.

(** A state as getopt_internal takes it up. *)
Definition ready (s : getopt_state) : getopt_state := with_optarg (with_optopt s 0) None.

Section Run.
Context (posixly_correct : bool) (flags0 : getopt_flags) (options0 : list Z).
Context (Hflags : flags = norm_flags posixly_correct options0 flags0) (Hoptions : options = norm_options options0).

Notation internal := (getopt_internal text posixly_correct flags0 options0 long_options).
Notation run := (run_getopt text posixly_correct flags0 options0 long_options).

Lemma internal_scan s : optind s <> 0 -> optreset s = 0 ->
  internal (with_optopt s 0) = (r ← scan_loop text (S (S (length (nargv s)))) flags options (ready s); match r with Answer a s => CVal (a, s) | Letters s => getopt_option text flags options long_options s end).
Proof. intros Hi Hr. unfold getopt_internal. cbn [optind with_optopt]. rewrite (proj2 (Z.eqb_neq _ _) Hi). cbn [optreset with_optopt with_optarg]. rewrite Hr. rewrite Hflags, Hoptions. done. Qed.

Lemma run_event fuel s ans s1 e es s2 : internal (with_optopt s 0) = CVal (ans, s1) -> seen ans s1 e -> ret (e_answer e) <> -1 -> run fuel s1 = CVal (es, s2) -> run (S fuel) s = CVal (e :: es, s2).
Proof.
  intros E (E1 & E2 & E3) Hr Hrun. cbn [run_getopt]. rewrite E. cbn [mbind cres_bind fst snd]. rewrite <- E1, (proj2 (Z.eqb_neq _ _) Hr), Hrun. cbn [mbind cres_bind fst snd].
  rewrite <- E2, <- E3. by destruct e.
Qed.

Lemma run_end fuel s ans s1 : internal (with_optopt s 0) = CVal (ans, s1) -> ret ans = -1 -> run (S fuel) s = CVal ([], s1).
Proof. intros E Hr. cbn [run_getopt]. rewrite E. cbn [mbind cres_bind fst snd]. by rewrite Hr. Qed.

Lemma scan_letters fuel s a k c cl : place s = Some (a, k) -> drop k (text a) = c :: cl -> optreset s = 0 -> scan_loop text (S fuel) flags options (ready s) = CVal (Letters (ready s)).
Proof. intros Hp Hd Hr. cbn [scan_loop ready optreset place with_optarg with_optopt]. rewrite Hr, Hp. cbn [string_at]. rewrite Hd. done. Qed.

(** The letters of an argument, from the state in which the scan has found it. *)
Lemma letters_run cl s pre a k next e es u : at_letter s pre a k next -> optreset s = 0 -> optind s <> 0 -> drop k (text a) = cl -> (1 <= k)%nat -> Forall (fun c => c <> -1) cl ->
  letters text flags options long_options cl next = Some (e :: es, u) ->
  exists ans s1 s', getopt_option text flags options long_options s = CVal (ans, s1) /\ seen ans s1 e /\ ret (e_answer e) <> -1 /\ finished s u next s' /\
    forall fuel l s2, run fuel s' = CVal (l, s2) -> run (length es + fuel) s1 = CVal (es ++ l, s2).
Proof.
  revert s k e es u. induction cl as [|c cl IH]; intros s k e es u Hat Hr Hi Hcl Hk Hc Hl; cbn [letters] in Hl; [done|]. apply Forall_cons_1 in Hc as [Hc Hcs].
  pose proof (option_step s pre a k c cl next Hat Hcl Hk) as Hstep. destruct (letter_spec text flags options long_options c cl next) as [[e1 used]|] eqn:Es; cbn [mbind option_bind] in Hl; [|done].
  pose proof (letter_spec_ret _ _ _ _ _ Hc Es) as Hret. destruct used as [used|].
  { destruct Hstep as (ans & s1 & E & He & Hfin). injection Hl as -> <- ->. by exists ans, s1, s1. }
  destruct Hstep as (ans & s1 & E & He & Hend & Hgo). destruct (letters text flags options long_options cl next) as [[es1 u1]|] eqn:El; cbn [mbind option_bind fst snd] in Hl; [|done]. injection Hl as -> -> ->.
  destruct cl as [|c2 cl2] eqn:Ecl; [cbn [letters] in El; injection El as <- <-; exists ans, s1, s1; split; [done|]; split; [done|]; split; [done|]; by split; [apply Hend|]|]. rewrite <- Ecl in *.
  destruct Hgo as ((G1 & G2 & G3 & G4) & G5 & G6); [by rewrite Ecl|]. destruct es as [|e2 es].
  { exfalso. rewrite Ecl in El. cbn [letters] in El. destruct (letter_spec _ _ _ _ c2 cl2 next) as [[? [?|]]|]; cbn [mbind option_bind] in El; [done| |done]. by destruct (letters _ _ _ _ cl2 next). }
  destruct Hat as [A1 A2 A3 A4 A5]. assert (at_letter (ready s1) pre a (S k) next) as Hat by (split; cbn; [done|done|done|congruence|congruence]).
  assert (drop (S k) (text a) = cl) as Hcl' by (by rewrite <- Nat.add_1_r, <- drop_drop, Hcl).
  destruct (IH (ready s1) (S k) e2 es u Hat) as (ans2 & s2 & s' & B1 & B2 & B3 & B4 & B5); [cbn; congruence|cbn; congruence|done|lia|done|done|].
  exists ans, s1, s'. split; [done|]. split; [done|]. split; [done|]. split.
  - destruct B4 as [(C1 & C2 & C3 & C4) C5 C6 C7]. cbn in C1, C2, C3, C4, C5. split; [split; [congruence|split; [congruence|split; congruence]]|rewrite C5, G5; done|done|done].
  - intros fuel l s3 Hrun. cbn [length Nat.add app]. eapply run_event; [|exact B2|exact B3|by apply B5]. rewrite internal_scan by congruence. rewrite scan_letters with (c := c2) (cl := cl2) (a := a) (k := S k); [exact B1|exact G6|by rewrite Hcl'|cbn; congruence].
Qed.

Definition arg_ok (a : nat) : Prop := Forall (fun c => c <> 0 /\ c <> -1) (text a).

Lemma letters_some cl next es u : cl <> [] -> letters text flags options long_options cl next = Some (es, u) -> exists e es', es = e :: es'.
Proof.
  destruct cl as [|c cl]; [done|]. intros _. cbn [letters]. destruct (letter_spec _ _ _ _ c cl next) as [[e [v|]]|]; cbn [mbind option_bind]; [|destruct (letters _ _ _ _ cl next) as [[es1 v]|]; cbn [mbind option_bind]|done]; try done.
  - intros [= <- _]. by eexists _, _.
  - intros [= <- _]. by eexists _, _.
Qed.

(** An argument with options, from the state in which the scan has found it. *)
Lemma element_run s pre a next es u : arg_ok a -> char_at (text a) = 0x2d -> at_letter s pre a (if char_at (tail (text a)) =? 0 then 0 else 1) next -> optreset s = 0 -> optind s <> 0 ->
  element text flags options long_options a next = Some (es, u) ->
  exists e es' ans s1 s', es = e :: es' /\ getopt_option text flags options long_options s = CVal (ans, s1) /\ seen ans s1 e /\ ret (e_answer e) <> -1 /\ finished s u next s' /\
    forall fuel l s2, run fuel s' = CVal (l, s2) -> run (length es' + fuel) s1 = CVal (es' ++ l, s2).
Proof.
  intros Hok Hdash Hat Hr Hi He. unfold element in He. unfold arg_ok in Hok. destruct (text a) as [|c cl] eqn:Et; [done|]. cbn [char_at tail] in *. subst c. apply Forall_cons_1 in Hok as [_ Hok].
  destruct (Z.eqb_spec (char_at cl) 0) as [E0|E0].
  - assert (cl = []) as -> by (destruct cl as [|c cl]; [done|]; apply Forall_cons_1 in Hok as [[Hc _] _]; done).
    destruct (short_spec text flags options long_options 0x2d [] next) as [[e v]|] eqn:Es; cbn [mbind option_bind fst snd] in He; [|done]. injection He as <- <-.
    pose proof (short_step s pre a 0 0x2d [] next Hat) as Hstep. rewrite drop_0, Et, Es in Hstep. specialize (Hstep eq_refl). rewrite (dash_step s pre a next Hat).
    assert (ret (e_answer e) <> -1) as Hret by (refine (short_spec_ret 0x2d [] next e v _ Es); done). destruct v as [v|].
    + destruct Hstep as (ans & s1 & E & Hseen & Hfin). by exists e, [], ans, s1, s1.
    + destruct Hstep as (ans & s1 & E & Hseen & Hfin & _). exists e, [], ans, s1, s1. repeat (split; [done|]). split; [by apply Hfin|done].
  - assert (cl <> []) as Hne by (by intros ->). destruct (letters_some _ _ _ _ Hne He) as (e & es' & ->).
    destruct (letters_run cl s pre a 1 next e es' u Hat Hr Hi) as (ans & s1 & s' & H); [by rewrite Et|done| |done|].
    + eapply Forall_impl; [|exact Hok]. by intros ? [].
    + exists e, es', ans, s1, s'. split; [done|exact H].
Qed.

Lemma ready_fresh d N P args s : fresh d N P args s -> fresh d N P args (ready s).
Proof. intros [F1 F2 F3 F4 F5 F6 F7]. by split. Qed.

Lemma skip_none args : f_permute flags && negb (f_allargs flags) = false -> skip text flags options args = ([], args).
Proof. intros Hf. destruct args as [|a args]; [done|]. cbn [skip]. by rewrite Hf. Qed.

Lemma skip_app args : let r := skip text flags options args in args = r.1 ++ r.2.
Proof. cbv zeta. induction args as [|a args IH]; [done|]. cbn [skip]. destruct (_ && _); [cbn; by f_equal|done]. Qed.

(** Where a scan stops at an argument that is no option. *)
Lemma skip_stops args ns a next : skip text flags options args = (ns, a :: next) -> nonopt text options a = true -> f_permute flags && negb (f_allargs flags) = false.
Proof.
  revert ns. induction args as [|b args IH]; intros ns; cbn [skip]; [done|]. destruct (f_permute flags && negb (f_allargs flags)); [|done]. cbn [andb]. destruct (nonopt text options b) eqn:Eb.
  - destruct (skip text flags options args) as [ns' r]. cbn [fst snd]. intros [= <- ->] Ha. exact (IH ns' eq_refl Ha).
  - intros [= _ <- _] Ha. congruence.
Qed.

Lemma parse_run n d N P args s p : fresh d N P args s -> optind s <> 0 -> (forall a, a ∈ args -> arg_ok a) -> parse text flags options long_options n args = Some p ->
  exists s', run (S (length (p_events p))) s = CVal (p_events p, s') /\ nargv s' = d ++ P ++ p_opts p ++ N ++ p_nonopts p ++ p_rest p /\
    optind s' = Z.of_nat (length d + length P + length (p_opts p)).
Proof.
  revert d N P args s p. induction n as [|n IH]; intros d N P args s p Hf Hi Hok Hp; [done|]. cbn [parse] in Hp.
  assert (length args < S (S (length (nargv s))))%nat as Hfuel by (rewrite (fr_argv _ _ _ _ _ Hf), !length_app; lia).
  pose proof (scan_spec _ d N P args (ready s) Hfuel (ready_fresh _ _ _ _ _ Hf) eq_refl eq_refl) as Hscan. pose proof (internal_scan s Hi (fr_reset _ _ _ _ _ Hf)) as Hint.
  pose proof (skip_app args) as Happ. pose proof (skip_stops args) as Hstop. pose proof (skip_none args) as Hskip. unfold scan_result in Hscan. destruct (skip text flags options args) as [ns rest]. cbn [fst snd] in Happ. subst args. cbv zeta in Hp.
  destruct rest as [|a next].
  { destruct Hscan as (s' & E & E1 & E2). rewrite E in Hint. injection Hp as <-. exists s'. split; [by apply (run_end _ _ _ _ Hint)|]. cbn. rewrite app_nil_r. split; [done|lia]. }
  destruct (nonopt text options a) eqn:En.
  { pose proof (Hstop ns a next eq_refl En) as Hcond. specialize (Hskip Hcond). assert (ns = []) as -> by congruence. destruct (f_allargs flags).
    - destruct (parse text flags options long_options n next) as [q|] eqn:Eq; cbn [mbind option_bind] in Hp; [|done]. injection Hp as <-. destruct Hscan as (s1 & E & E1 & E2 & E3). rewrite E in Hint.
      destruct (IH d N (P ++ [a]) next s1 q E3) as (s' & R & B1 & B2); [rewrite (fr_optind _ _ _ _ _ E3), length_app; cbn; lia|intros b Hb; apply Hok; cbn; by right|done|].
      exists s'. split; [|split; [rewrite B1; cbn; by rewrite <- app_assoc|rewrite B2, length_app; cbn; lia]]. cbn [p_events]. eapply run_event; [exact Hint| |done|exact R].
      split; [done|]. rewrite E1, E2. cbn. by rewrite drop_0.
    - injection Hp as <-. destruct Hscan as (s' & E & E1 & E2 & ->). rewrite E in Hint. exists s'. split; [by apply (run_end _ _ _ _ Hint)|]. cbn. split; [exact E1|lia]. }
  destruct (is_end text a) eqn:Ee.
  { destruct Hscan as (s' & E & E1 & E2). rewrite E in Hint. injection Hp as <-. exists s'. split; [by apply (run_end _ _ _ _ Hint)|]. cbn. split; [exact E1|lia]. }
  destruct (element text flags options long_options a next) as [[es u]|] eqn:Eel; cbn [mbind option_bind fst snd] in Hp; [|done].
  destruct (parse text flags options long_options n (drop u next)) as [q|] eqn:Eq; cbn [mbind option_bind] in Hp; [|done]. injection Hp as <-.
  destruct Hscan as (s1 & d' & P' & E & Ed & Hat & Er & Es & Een). rewrite E in Hint.
  assert (char_at (text a) = 0x2d) as Hdash by (unfold nonopt in En; apply orb_false_iff in En as [En _]; apply negb_false_iff in En; by apply Z.eqb_eq).
  assert (length d' + length P' = length d + length P)%nat as Hlen by (by rewrite <- !length_app, Ed).
  assert (optind s1 <> 0) as Hi1.
  { rewrite (al_optind _ _ _ _ _ Hat). pose proof (fr_optind _ _ _ _ _ Hf) as E0. rewrite !length_app. lia. }
  destruct (element_run s1 (d' ++ (N ++ ns) ++ P') a next es u) as (e & es' & ans & s2 & s3 & -> & G1 & G2 & G3 & G4 & G5); [apply Hok, elem_of_app; right; left|done|exact Hat|done|done|done|]. cbn [mbind cres_bind] in Hint. rewrite G1 in Hint.
  destruct G4 as [(C1 & C2 & C3 & C4) C5 C6 C7]. destruct Hat as [A1 A2 A3 A4 A5].
  assert (fresh d' (N ++ ns) (P' ++ a :: take u next) (drop u next) s3) as Hf3.
  { split; [|rewrite C5, A5, !length_app; cbn; rewrite length_take; lia|done|congruence|by rewrite C2|rewrite C3, Een|].
    - rewrite C1, A4, <- !app_assoc. cbn [app]. by rewrite take_drop.
    - rewrite (bool_decide_false (P' ++ _ = [])) by (by destruct P'). by rewrite orb_false_r.
    - intros Hc. rewrite (fr_none _ _ _ _ _ Hf Hc). specialize (Hskip Hc). assert (ns = []) as -> by congruence. done. }
  destruct (IH _ _ _ _ _ q Hf3) as (s' & R & B1 & B2); [rewrite C5; lia|intros b Hb; apply Hok; apply elem_of_app; right; right; rewrite <- (take_drop u next); apply elem_of_app; by right|done|].
  exists s'. split; [|split].
  - cbn [p_events length app]. rewrite length_app, <- Nat.add_succ_r. eapply run_event; [exact Hint|exact G2|exact G3|]. by apply G5.
  - rewrite B1. cbn [p_opts p_nonopts p_rest]. rewrite <- !app_assoc. cbn [app]. rewrite (app_assoc d' P'), Ed, <- !app_assoc. done.
  - rewrite B2, !length_app. cbn [p_opts length]. rewrite !length_app, length_take. lia.
Qed.
End Run.

(** ** The specification is total *)

Lemma long_spec_some lo str next : long_spec text options lo false str next <> None.
Proof.
  unfold long_spec. destruct (pick_long _ _ _) as [i|]; [|done]. destruct (i ≫= _) as [[j o]|]; [|done].
  destruct (has_arg o =? no_argument); [done|]. destruct (has_arg o =? required_argument); [|done]. destruct (long_value str); [done|]. by destruct next.
Qed.

Lemma short_spec_none c cl next : short_spec text flags options long_options c cl next = None -> c = 0x2d /\ cl = [] /\ strchr options 0x2d = None.
Proof.
  unfold short_spec. destruct (if (c =? 0x3a) || _ then None else strchr options c) as [oli|] eqn:Eo.
  - clear Eo. destruct (if (c =? 0x57) && _ then long_options else None) as [lo|].
    + destruct cl as [|d cl]; [destruct next as [|b next]; [done|]|].
      * pose proof (long_spec_some lo (text b) next). by destruct (long_spec text options lo false (text b) next).
      * pose proof (long_spec_some lo (d :: cl) next). by destruct (long_spec text options lo false (d :: cl) next).
    + destruct (negb (char_at (tail oli) =? 0x3a)); [done|]. destruct cl as [|d cl]; [|done]. destruct next as [|b next]; [by destruct (negb _)|]. by destruct (_ || _).
  - destruct (Z.eqb_spec c 0x2d) as [->|]; [|done]. destruct cl as [|d cl]; [|by rewrite bool_decide_false by done]. done.
Qed.

Lemma letter_spec_none c cl next : letter_spec text flags options long_options c cl next = None -> long_options = None /\ c = 0x2d /\ cl = [].
Proof.
  unfold letter_spec. pose proof (short_spec_none c cl next) as Hs. clear Hlong. destruct long_options as [lo|]; [|intros H; by destruct (Hs H) as (-> & -> & _)].
  destruct (Z.eqb_spec c 0x2d) as [->|Hc].
  - pose proof (long_spec_some lo cl next). by destruct (long_spec text options lo false cl next).
  - destruct (f_longonly flags); [destruct (long_spec text options lo _ (c :: cl) next); [done|]|]; intros H; by destruct (Hs H).
Qed.

Lemma letters_none cl next : letters text flags options long_options cl next = None -> long_options = None /\ list.last cl = Some 0x2d.
Proof.
  induction cl as [|c cl IH]; [done|]. cbn [letters]. destruct (letter_spec text flags options long_options c cl next) as [[e [u|]]|] eqn:E; cbn [mbind option_bind]; [done| |].
  - destruct (letters text flags options long_options cl next); cbn [mbind option_bind]; [done|]. intros _. destruct (IH eq_refl) as [H1 H2]. split; [done|]. by destruct cl.
  - intros _. by apply letter_spec_none in E as (-> & -> & ->).
Qed.

(** An argument that ends with "-" ends the scan of getopt. *)
Definition no_dash_last (a : nat) : Prop := long_options = None -> char_at (text a) = 0x2d -> list.last (text a) = Some 0x2d -> (length (text a) <= 2)%nat.

Lemma element_total a next : arg_ok a -> no_dash_last a -> nonopt text options a = false -> is_end text a = false -> element text flags options long_options a next <> None.
Proof.
  intros Hok Hl Hn He. unfold no_dash_last, arg_ok, element, is_end, nonopt in *. apply orb_false_iff in Hn as [Hn1 Hn2]. apply negb_false_iff, Z.eqb_eq in Hn1. destruct (text a) as [|c cl]; [done|]. cbn [char_at tail] in *. subst c.
  apply Forall_cons_1 in Hok as [_ Hok]. destruct (char_at cl =? 0) eqn:E0.
  - cbn [andb] in Hn2. apply bool_decide_eq_false in Hn2. pose proof (short_spec_none 0x2d [] next) as Hs. destruct (short_spec text flags options long_options 0x2d [] next); [done|]. by destruct (Hs eq_refl) as (_ & _ & ?).
  - intros H. apply letters_none in H as [H1 H2]. destruct cl as [|d cl]; [done|]. destruct cl as [|d2 cl]; [|specialize (Hl H1 eq_refl H2); cbn in Hl; lia]. injection H2 as ->. done.
Qed.

Lemma parse_total n args : (length args < n)%nat -> (forall a, a ∈ args -> arg_ok a /\ no_dash_last a) -> exists p, parse text flags options long_options n args = Some p.
Proof.
  revert args. induction n as [|n IH]; intros args Hlen Hok; [lia|]. cbn [parse]. pose proof (skip_app args) as Happ. destruct (skip text flags options args) as [ns rest]. cbn [fst snd] in Happ. subst args.
  destruct rest as [|a next]; [by eexists|]. rewrite length_app in Hlen. cbn [length] in Hlen.
  assert (forall u, exists p, parse text flags options long_options n (drop u next) = Some p) as Hnext.
  { intros u. apply IH; [rewrite length_drop; lia|]. intros b Hb. apply Hok, elem_of_app. right. right. rewrite <- (take_drop u next). apply elem_of_app. by right. }
  destruct (nonopt text options a) eqn:En.
  - destruct (f_allargs flags); [|by eexists]. destruct (Hnext 0%nat) as [p E]. rewrite drop_0 in E. rewrite E. cbn [mbind option_bind]. by eexists.
  - destruct (is_end text a) eqn:Ee; [by eexists|]. destruct (Hok a) as [H1 H2]; [apply elem_of_app; right; left|]. pose proof (element_total a next H1 H2 En Ee) as Hel.
    destruct (element text flags options long_options a next) as [[es u]|]; [|done]. cbn [mbind option_bind fst snd]. destruct (Hnext u) as [p ->]. cbn [mbind option_bind]. by eexists.
Qed.

(** The arguments are those that were there. *)
Lemma parse_perm n args p : parse text flags options long_options n args = Some p -> p_opts p ++ p_nonopts p ++ p_rest p ≡ₚ args.
Proof.
  revert args p. induction n as [|n IH]; intros args p; [done|]. cbn [parse]. pose proof (skip_app args) as Happ. destruct (skip text flags options args) as [ns rest]. cbn [fst snd] in Happ. subst args.
  destruct rest as [|a next]; [by intros [= <-]|]. destruct (nonopt text options a).
  - destruct (f_allargs flags); [|by intros [= <-]]. destruct (parse text flags options long_options n next) as [q|] eqn:Eq; cbn [mbind option_bind]; [|done]. intros [= <-]. cbn [p_opts p_nonopts p_rest].
    rewrite <- (IH _ _ Eq). cbn. solve_Permutation.
  - destruct (is_end text a); [intros [= <-]; cbn; solve_Permutation|]. destruct (element text flags options long_options a next) as [[es u]|]; cbn [mbind option_bind fst snd]; [|done].
    destruct (parse text flags options long_options n (drop u next)) as [q|] eqn:Eq; cbn [mbind option_bind]; [|done]. intros [= <-]. cbn [p_opts p_nonopts p_rest].
    rewrite <- (take_drop u next) at 2. rewrite <- (IH _ _ Eq). cbn. solve_Permutation.
Qed.
End Letters.
End Refine.

(** C20: calls of getopt, getopt_long or getopt_long_only until -1 is returned give, for every
    option string, list of long options and arguments, the answers, optarg and optopt that the
    specification reads off the arguments: letters and their arguments, long options and their
    abbreviations, what is unknown, ambiguous or without its argument.  Then the options stand in
    front of the other arguments, both in their order, optind is behind them, and no argument is
    lost.  The characters are not NUL and not -1, nor the values of long options; an argument of
    getopt does not end with a '-' behind letters. *)
Theorem getopt_parses text posixly_correct flags options long_options prog args
  (Hok : forall a, a ∈ args -> arg_ok text a /\ no_dash_last text long_options a)
  (Hlong : forall lo o, long_options = Some lo -> o ∈ lo -> lo_val o <> -1) :
  exists p s, parse text (norm_flags posixly_correct options flags) (norm_options options) long_options (S (length args)) args = Some p /\
    run_getopt text posixly_correct flags options long_options (S (length (p_events p))) (getopt_start (prog :: args)) = CVal (p_events p, s) /\
    nargv s = prog :: p_opts p ++ p_nonopts p ++ p_rest p /\ optind s = 1 + Z.of_nat (length (p_opts p)) /\ p_opts p ++ p_nonopts p ++ p_rest p ≡ₚ args.
Proof.
  destruct (parse_total text (norm_options options) (norm_flags posixly_correct options flags) long_options Hlong (S (length args)) args) as [p Hp]; [lia|exact Hok|].
  assert (fresh text (norm_flags posixly_correct options flags) [prog] [] [] args (getopt_start (prog :: args))) as Hf by (by split).
  destruct (parse_run text (norm_options options) (norm_flags posixly_correct options flags) long_options Hlong posixly_correct flags options eq_refl eq_refl (S (length args)) _ _ _ _ _ p Hf) as (s & R & B1 & B2);
    [done|intros a Ha; by apply Hok|exact Hp|].
  exists p, s. split; [exact Hp|]. split; [exact R|]. split; [exact B1|]. split; [rewrite B2; cbn; lia|]. exact (parse_perm _ _ _ _ _ _ _ Hp).
Qed.

(** getopt_long with "ab:" and the options "long" (required argument) and "list": prog x -ab y
    --lo=3 z --lis -q. *)
Definition argv_words : list (list Z) := [[112]; [120]; [45; 97; 98]; [121]; [45; 45; 108; 111; 61; 51]; [122]; [45; 45; 108; 105; 115]; [45; 113]].
Definition word (a : nat) : list Z := nth a argv_words [].
Definition two_longs : list long_option := [mkLong [108; 111; 110; 103] required_argument None 7; mkLong [108; 105; 115; 116] no_argument (Some 64) 8].

Lemma getopt_parses_witness : exists s,
  run_getopt word false (mkFlags true false false) [97; 98; 58] (Some two_longs) 6 (getopt_start [0; 1; 2; 3; 4; 5; 6; 7]%nat) =
    CVal ([mkEvent (plain_answer 97) None 0; mkEvent (plain_answer 98) (Some [121]) 0; mkEvent (mkAnswer 7 (Some 0) None) (Some [51]) 0;
           mkEvent (mkAnswer 0 (Some 1) (Some (64, 8))) None 0; mkEvent (plain_answer 63) None 113], s) /\
  nargv s = [0; 2; 3; 4; 6; 7; 1; 5]%nat /\ optind s = 6.
Proof.
  destruct (getopt_parses word false (mkFlags true false false) [97; 98; 58] (Some two_longs) 0%nat [1; 2; 3; 4; 5; 6; 7]%nat) as (p & s & E1 & E2 & E3 & E4 & _).
  - intros a Ha. split; [|intros [=]]. apply (proj1 (list.Forall_forall (fun a => arg_ok word a) [1; 2; 3; 4; 5; 6; 7]%nat)); [|exact Ha].
    repeat (apply Forall_cons_2; [unfold arg_ok; cbn; repeat (apply Forall_cons_2; [lia|]); constructor|]). constructor.
  - intros lo o [= <-]. unfold two_longs. rewrite !elem_of_cons. intros [->|[->|[]%not_elem_of_nil]]; cbn; lia.
  - vm_compute in E1. injection E1 as <-. exists s. split; [exact E2|]. split; [exact E3|exact E4].
Defined.

(** ** What goes wrong *)

(** An exact match behind two options that begin with the name is not found: --ab is ambiguous
    among "abc", "abd" and "ab". *)
Lemma exact_match_ambiguous : find_long 0 [97; 98] false (-1) (map (fun n => mkLong n no_argument None 1) [[97; 98; 99]; [97; 98; 100]; [97; 98]]) = Ambiguous /\
  find_long 0 [97; 98] false (-1) (map (fun n => mkLong n no_argument None 1) [[97; 98]; [97; 98; 99]; [97; 98; 100]]) = Match 0.
Proof. split; reflexivity. Qed.

(** In getopt "-a-" ends the scan at the argument itself, and the -b behind it is not read. *)
Definition dash_text (a : nat) : list Z := nth a [[112]; [45; 97; 45]; [45; 98]] [].
Lemma dash_ends_scan : exists s1 s2, getopt dash_text false [97; 98] (getopt_start [0; 1; 2]%nat) = CVal (plain_answer 97, s1) /\
  getopt dash_text false [97; 98] s1 = CVal (plain_answer (-1), s2) /\ optind s2 = 1 /\ nargv s2 = [0; 1; 2]%nat.
Proof. eexists _, _. split; [vm_compute; reflexivity|]. split; [vm_compute; reflexivity|]. by split. Qed.
