(* ===== verification/MemBlock.v ===== *)
(** * Block operations of libc/string: bcopy, memcpy, memmove, memset, bzero,
      memcmp, memchr, memrchr, memccpy, memswap, memmem

    Each routine is a program over the byte memory of [CMem].  The lengths are
    [size_t] values of 32 bits, as on every architecture of the tree (ARM, x86,
    MIPS and PowerPC are all built in their 32-bit mode); [long] and [u_int]
    are four bytes.  Where a routine counts down from its length argument, the
    fuel of the loop is that length, so these programs have no fuel argument. *)

From Stdlib Require Import ZArith Lia.
From stdpp Require Import base gmap list numbers.
From S2P Require Import Prelude CMem.

Open Scope Z_scope.
Open Scope cint_scope.

(** ** Loop shapes of the sources *)

(** [do { s; } while (--t)]: the macro TLOOP1 of bcopy.c. *)
Definition TLOOP1 {St : Type} (t : Z) (step : St -> M St) (st : St) : M St :=
  loop (Z.to_nat t)
    (fun '(st, t) =>
       st' ← step st;
       let t' := u32 (t - 1) in
       mret (if truthy t' then inl (st', t') else inr st'))
    (st, t).

(** [if (t) TLOOP1(s)]: the macro TLOOP of bcopy.c. *)
Definition TLOOP {St : Type} (t : Z) (step : St -> M St) (st : St) : M St :=
  if truthy t then TLOOP1 t step st else mret st.

(** [while (c--) s]. *)
Definition while_dec {St : Type} (c : Z) (step : St -> M St) (st : St) : M St :=
  loop (S (Z.to_nat c))
    (fun '(st, c) =>
       if truthy c then st' ← step st; mret (inl (st', u32 (c - 1)))
       else mret (inr st))
    (st, c).

(** A loop body written out several times in a row, each copy able to leave
    the loop. *)
Definition chain {St R : Type} (f g : St -> M (St + R)) (s : St) : M (St + R) :=
  r ← f s; match r with inl s' => g s' | inr v => mret (inr v) end.

Fixpoint unroll {St R : Type} (k : nat) (f : St -> M (St + R)) : St -> M (St + R) :=
  match k with
  | O => f
  | S k' => chain f (unroll k' f)
  end.

(** ** bcopy.c *)

Definition wsize : Z := 4.
Definition wmask : Z := wsize - 1.

(** [*dst++ = *src++] *)
Definition copy_fwd (ds : Z * Z) : M (Z * Z) :=
  let '(dst, src) := ds in
  b ← load src; store dst b;; mret (dst + 1, src + 1).

(** [*(word * )dst = *(word * )src; src += wsize; dst += wsize] *)
Definition copyw_fwd (ds : Z * Z) : M (Z * Z) :=
  let '(dst, src) := ds in
  w ← load_word 4 src; store_word 4 dst w;; mret (dst + wsize, src + wsize).

(** [*--dst = *--src] *)
Definition copy_bwd (ds : Z * Z) : M (Z * Z) :=
  let '(dst, src) := ds in
  b ← load (src - 1); store (dst - 1) b;; mret (dst - 1, src - 1).

(** [src -= wsize; dst -= wsize; *(word * )dst = *(word * )src] *)
Definition copyw_bwd (ds : Z * Z) : M (Z * Z) :=
  let '(dst, src) := ds in
  w ← load_word 4 (src - wsize); store_word 4 (dst - wsize) w;;
  mret (dst - wsize, src - wsize).

(** The branch of bcopy.c that copies forward. *)
Definition bcopy_forward (dst src length : Z) : M unit :=
  '(ds, length) ←
    (if truthy ((src .| dst) .& wmask) then
       let t := if truthy ((src .^ dst) .& wmask) || (length <? wsize)
                then length else wsize - (src .& wmask) in
       ds ← TLOOP1 t copy_fwd (dst, src);
       mret (ds, length - t)
     else mret ((dst, src), length));
  ds ← TLOOP (length / wsize) copyw_fwd ds;
  TLOOP (length .& wmask) copy_fwd ds;;
  mret tt.

(** The branch of bcopy.c that copies backwards. *)
Definition bcopy_backward (dst src length : Z) : M unit :=
  let src := src + length in
  let dst := dst + length in
  '(ds, length) ←
    (if truthy ((src .| dst) .& wmask) then
       let t := if truthy ((src .^ dst) .& wmask) || (length <=? wsize)
                then length else src .& wmask in
       ds ← TLOOP1 t copy_bwd (dst, src);
       mret (ds, length - t)
     else mret ((dst, src), length));
  ds ← TLOOP (length / wsize) copyw_bwd ds;
  TLOOP (length .& wmask) copy_bwd ds;;
  mret tt.

(** The body of bcopy.c, common to bcopy, memcpy and memmove. *)
Definition bcopy (src0 dst0 length : Z) : M unit :=
  let dst := dst0 in
  let src := src0 in
  if (length =? 0) || (dst =? src) then mret tt
  else if dst <? src then bcopy_forward dst src length
  else bcopy_backward dst src length.

(** memcpy.c is bcopy.c compiled with MEMCOPY. *)
Definition memcpy (dst0 src0 length : Z) : M Z := bcopy src0 dst0 length;; mret dst0.

(** ** memmove.c *)

Definition memmove (dst src n : Z) : M Z :=
  let p := src in
  let q := dst in
  if q <? p then memcpy dst src n
  else
    let p := p + n in
    let q := q + n in
    let c0 := n .& 31 in
    let c1 := n ≫ 5 in
    qp ← while_dec c1 (fun qp => TLOOP1 32 copy_bwd qp) (q, p);
    while_dec c0 copy_bwd qp;;
    mret dst.

(** ** memset.c *)

Section MemSet.
(** How the bytes of a four-byte integer are laid out in memory. *)
Context (big_endian : bool).

Definition u32_bytes (w : Z) : list Z :=
  let le := [u8 w; u8 (w ≫ 8); u8 (w ≫ 16); u8 (w ≫ 24)] in
  if big_endian then reverse le else le.

Definition fill_byte (val : Z) (dst : Z) : M Z := store dst val;; mret (dst + 1).
Definition fill_word (c : Z) (dst : Z) : M Z :=
  store_word 4 dst (u32_bytes c);; mret (dst + wsize).

(** [c = (u_char)c0], repeated over the word when it is not zero. *)
Definition widen (c0 : Z) : Z :=
  let c := u8 c0 in
  if truthy c then
    let c := u32 ((c ≪ 8) .| c) in
    u32 ((c ≪ 16) .| c)
  else c.

Definition memset (dst0 c0 length : Z) : M Z :=
  let dst := dst0 in
  if length <? 3 * wsize then
    while_dec length (fill_byte c0) dst;; mret dst0
  else
    let c := widen c0 in
    let t := dst .& wmask in
    '(dst, length) ←
      (if truthy t then
         let t := wsize - t in
         d ← TLOOP1 t (fill_byte c0) dst; mret (d, length - t)
       else mret (dst, length));
    dst ← TLOOP1 (length / wsize) (fill_word c) dst;
    TLOOP (length .& wmask) (fill_byte c0) dst;;
    mret dst0.

(** bzero.c is memset.c compiled with BZERO: VAL and WIDEVAL are 0. *)
Definition bzero (dst0 length : Z) : M unit := memset dst0 0 length;; mret tt.
End MemSet.

(** ** memcmp.c, memchr.c, memrchr.c, memccpy.c, memswap.c *)

(** One copy of [if (d || p1 >= end1) break; d = (int)*p1++ - (int)*p2++]. *)
Definition memcmp_step (end1 : Z) (st : Z * Z * Z) : M (Z * Z * Z + Z) :=
  let '(p1, p2, d) := st in
  if truthy d || (end1 <=? p1) then mret (inr d)
  else a ← load p1; b ← load p2; mret (inl (p1 + 1, p2 + 1, a - b)).

Definition memcmp (s1 s2 n : Z) : M Z :=
  loop (S (Z.to_nat n)) (unroll 3 (memcmp_step (s1 + n))) (s1, s2, 0).

(** One copy of [if (p >= end || p[0] == c) break; p++]. *)
Definition memchr_step (end_ c : Z) (p : Z) : M (Z + Z) :=
  if end_ <=? p then mret (inr p)
  else b ← load p; mret (if b =? c then inr p else inl (p + 1)).

Definition memchr (s c n : Z) : M Z :=
  p ← loop (S (Z.to_nat n)) (unroll 3 (memchr_step (s + n) c)) s;
  mret (if s + n <=? p then NULL else p).

Section PlainChar.
Context `{CharModel}.

(** One copy of [q--; if (q < p || q[0] == c) break]. *)
Definition memrchr_step (p c : Z) (q : Z) : M (Z + Z) :=
  let q := q - 1 in
  if q <? p then mret (inr q)
  else b ← loadc q; mret (if b =? c then inr q else inl q).

Definition memrchr (s c n : Z) : M Z :=
  if 0 <? n then
    let p := s in
    q ← loop (S (Z.to_nat n)) (unroll 3 (memrchr_step p c)) (p + n);
    mret (if p <=? q then q else NULL)
  else mret NULL.

(** One copy of [if (ch == c || p >= p_end) break; *q++ = ch = *p++]. *)
Definition memccpy_step (p_end c : Z) (st : Z * Z * Z) : M (Z * Z * Z + (Z * Z)) :=
  let '(q, p, ch) := st in
  if (ch =? c) || (p_end <=? p) then mret (inr (q, p))
  else b ← load p; store q b;; mret (inl (q + 1, p + 1, char_of b)).

Definition memccpy (dst src c n : Z) : M Z :=
  let p_end := src + n in
  let ch := char_of (Z.lnot (char_of c)) in
  '(q, p) ← loop (S (Z.to_nat n)) (unroll 3 (memccpy_step p_end c)) (dst, src, ch);
  mret (if p_end <=? p then NULL else q).
End PlainChar.

Definition memswap (m1 m2 n : Z) : M unit :=
  let p_end := m1 + n in
  loop (S (Z.to_nat n))
    (fun '(p, q) =>
       if p <? p_end then
         tmp ← load p; b ← load q; store p b;; store q tmp;;
         mret (inl (p + 1, q + 1))
       else mret (inr tt))
    (m1, m2).

(** ** memmem.c: the "Not So Naive" search *)

Definition memmem (haystack n needle m : Z) : M Z :=
  if (n <? m) || (m =? 0) || (n =? 0) then mret NULL
  else if 1 <? m then
    let y := haystack in
    let x := needle in
    x0 ← load x;
    x1 ← load (x + 1);
    let '(k, l) := if x0 =? x1 then (2, 1) else (1, 2) in
    loop (S (Z.to_nat n))
      (fun j =>
         if j <=? n - m then
           y1 ← load (y + (j + 1));
           if negb (x1 =? y1) then mret (inl (j + k))
           else
             d ← memcmp (x + 2) (y + j + 2) (m - 2);
             if d =? 0 then
               y0 ← load (y + j);
               mret (if x0 =? y0 then inr (y + j) else inl (j + l))
             else mret (inl (j + l))
         else mret (inr NULL))
      0
  else
    b ← load needle; memchr haystack b n.

(** ** Loop lemmas *)

Section LoopLemmas.
Context {St : Type} (step : St -> M St) (F : nat -> St) (G : nat -> mem).

(** If the body moves from the i-th state to the next one, the counted
    loops move from the first to the last. *)
Lemma TLOOP1_from j t :
  Z.of_nat t < 2 ^ 32 -> (0 < t)%nat ->
  (forall i, (j <= i < j + t)%nat -> step (F i) (G i) = Ok (F (S i)) (G (S i))) ->
  TLOOP1 (Z.of_nat t) step (F j) (G j) = Ok (F (j + t)%nat) (G (j + t)%nat).
Proof.
  unfold TLOOP1. rewrite Nat2Z.id. revert j.
  induction t as [|t IH]; intros j Hlt Hpos Hstep; [lia|].
  assert (Hu : u32 (Z.of_nat (S t) - 1) = Z.of_nat t).
  { rewrite u32_small; lia. }
  destruct t as [|t].
  - apply loop_exit. erewrite bind_ok by (apply Hstep; lia). simpl.
    by rewrite Nat.add_1_r.
  - erewrite loop_continue; cycle 1.
    { erewrite bind_ok by (apply Hstep; lia). rewrite Hu. reflexivity. }
    rewrite IH by (lia || (intros; apply Hstep; lia)).
    by rewrite Nat.add_succ_comm.
Qed.

Lemma TLOOP_from j t :
  Z.of_nat t < 2 ^ 32 ->
  (forall i, (j <= i < j + t)%nat -> step (F i) (G i) = Ok (F (S i)) (G (S i))) ->
  TLOOP (Z.of_nat t) step (F j) (G j) = Ok (F (j + t)%nat) (G (j + t)%nat).
Proof.
  intros Hlt Hstep. unfold TLOOP. destruct t as [|t].
  - simpl. by rewrite Nat.add_0_r.
  - replace (truthy (Z.of_nat (S t))) with true by done.
    apply TLOOP1_from; [done | lia | done].
Qed.

Lemma while_dec_from j t :
  Z.of_nat t < 2 ^ 32 ->
  (forall i, (j <= i < j + t)%nat -> step (F i) (G i) = Ok (F (S i)) (G (S i))) ->
  while_dec (Z.of_nat t) step (F j) (G j) = Ok (F (j + t)%nat) (G (j + t)%nat).
Proof.
  unfold while_dec. rewrite Nat2Z.id. revert j.
  induction t as [|t IH]; intros j Hlt Hstep.
  - rewrite Nat.add_0_r. by apply loop_exit.
  - erewrite loop_continue; cycle 1.
    { replace (truthy (Z.of_nat (S t))) with true by done.
      erewrite bind_ok by (apply Hstep; lia). simpl.
      replace (u32 (Z.of_nat (S t) - 1)) with (Z.of_nat t) by (rewrite u32_small; lia).
      reflexivity. }
    rewrite IH by (lia || (intros; apply Hstep; lia)).
    by rewrite Nat.add_succ_comm.
Qed.
End LoopLemmas.

Lemma loop_more_fuel {St R} (f : St -> M (St + R)) n k s m r m' :
  loop n f s m = Ok r m' -> (n <= k)%nat -> loop k f s m = Ok r m'.
Proof.
  revert k s m. induction n as [|n IH]; intros [|k] s m H Hk; try done; try lia.
  simpl in *. unfold mbind, M_bind in *.
  destruct (f s m) as [[s'|v] m1| |]; try done. apply IH; [done | lia].
Qed.

Section Unroll.
Context {St R : Type} (f : St -> M (St + R)).

(** A run of the plain loop, seen after one round of the unrolled body. *)
Lemma unroll_round k n s m r m' :
  loop n f s m = Ok r m' ->
  unroll k f s m = Ok (inr r) m' \/
  exists s1 m1 n1, unroll k f s m = Ok (inl s1) m1 /\ (n1 < n)%nat /\
                   loop n1 f s1 m1 = Ok r m'.
Proof.
  revert n s m. induction k as [|k IH]; intros [|n] s m H; try done;
    simpl in *; unfold chain, mbind, M_bind in *;
    destruct (f s m) as [[s'|v] m1| |] eqn:E; try done.
  - right. exists s', m1, n. auto.
  - left. by inversion H.
  - destruct (IH _ _ _ H) as [Hu|(s1 & m2 & n1 & Hu & Hn & Hl)].
    + left. done.
    + right. exists s1, m2, n1. repeat split; [done | lia | done].
  - left. by inversion H.
Qed.

(** An unrolled loop computes what the plain loop computes. *)
Lemma loop_unroll k n s m r m' :
  loop n f s m = Ok r m' -> loop n (unroll k f) s m = Ok r m'.
Proof.
  revert s m. induction (lt_wf n) as [n _ IH]. intros s m H.
  destruct n as [|n]; [done|].
  destruct (unroll_round k _ _ _ _ _ H) as [Hu|(s1 & m1 & n1 & Hu & Hn & Hl)].
  - by apply loop_exit.
  - erewrite loop_continue by done.
    apply IH in Hl; [|lia]. eapply loop_more_fuel; [done | lia].
Qed.
End Unroll.

(** ** Alignment *)

Lemma land_wmask a : a .& wmask = a mod 4.
Proof. apply (Z.land_ones a 2). lia. Qed.

Lemma lor_wmask a b : truthy ((a .| b) .& wmask) = false <-> a mod 4 = 0 /\ b mod 4 = 0.
Proof.
  rewrite Z.land_lor_distr_l, !land_wmask. unfold truthy.
  rewrite negb_false_iff, Z.eqb_eq, Z.lor_eq_0_iff. done.
Qed.

Lemma lxor_wmask a b : truthy ((a .^ b) .& wmask) = false <-> a mod 4 = b mod 4.
Proof.
  assert (E : (a .^ b) .& wmask = (a .& wmask) .^ (b .& wmask)).
  { apply Z.bits_inj'. intros i Hi.
    rewrite Z.land_spec, !Z.lxor_spec, !Z.land_spec.
    by destruct (Z.testbit a i), (Z.testbit b i), (Z.testbit wmask i). }
  rewrite E, !land_wmask. unfold truthy. rewrite negb_false_iff, Z.eqb_eq.
  split; [apply Z.lxor_eq | intros ->; apply Z.lxor_nilpotent].
Qed.

Lemma load_word_ok m p l :
  length l = 4%nat -> p mod 4 = 0 -> bytes_at m p l -> load_word 4 p m = Ok l m.
Proof.
  intros Hl Hp H. unfold load_word. change (Z.of_nat 4) with 4. rewrite Hp, Z.eqb_refl.
  rewrite <- Hl. by apply load_bytes_ok.
Qed.

Lemma store_word_ok m p l :
  bytes l -> p mod 4 = 0 -> valid m p (Z.of_nat (length l)) ->
  store_word 4 p l m = Ok tt (mem_write p l m).
Proof.
  intros Hb Hp H. unfold store_word. change (Z.of_nat 4) with 4. rewrite Hp, Z.eqb_refl.
  by apply store_bytes_ok.
Qed.

Lemma slice_one {A} j (l : list A) b : l !! j = Some b -> slice j 1 l = [b].
Proof.
  intros H. unfold slice. rewrite (drop_S _ _ _ H). done.
Qed.

Lemma bytes_slice i n l : bytes l -> bytes (slice i n l).
Proof. intros H. by apply Forall_take, Forall_drop. Qed.

(** ** bcopy *)

Section Copy.
Context (d s : Z) (l : list Z) (m : mem).
Context (Hb : bytes l) (Hsrc : bytes_at m s l).
Context (Hdst : valid m d (Z.of_nat (length l))).

(** The memory after the first [j] bytes were copied forward. *)
Definition fwd_mem (j : nat) : mem := mem_write d (take j l) m.

(** The memory after the last [j] bytes were copied backward. *)
Definition bwd_mem (j : nat) : mem :=
  mem_write (d + Z.of_nat (length l - j)) (drop (length l - j) l) m.

Lemma fwd_read j k :
  d < s -> (j + k <= length l)%nat ->
  bytes_at (fwd_mem j) (s + Z.of_nat j) (slice j k l).
Proof.
  intros Hds Hjk. apply bytes_at_lookup. intros i Hi.
  rewrite slice_length in Hi by lia. unfold fwd_mem, slice.
  rewrite lookup_mem_write_out by (rewrite length_take; lia).
  rewrite lookup_take_lt, lookup_drop by lia.
  rewrite <- Z.add_assoc, <- Nat2Z.inj_add.
  apply (proj1 (bytes_at_lookup _ _ _) Hsrc). lia.
Qed.

Lemma fwd_write j k :
  (j + k <= length l)%nat ->
  mem_write (d + Z.of_nat j) (slice j k l) (fwd_mem j) = fwd_mem (j + k).
Proof.
  intros Hjk. unfold fwd_mem. rewrite take_add_slice, mem_write_app.
  rewrite length_take. by rewrite Nat.min_l by lia.
Qed.

Lemma bwd_read j k :
  s <= d -> (j + k <= length l)%nat -> (0 < k)%nat ->
  bytes_at (bwd_mem j) (s + Z.of_nat (length l - j - k)) (slice (length l - j - k) k l).
Proof.
  intros Hds Hjk Hk. apply bytes_at_lookup. intros i Hi.
  rewrite slice_length in Hi by lia. unfold bwd_mem, slice.
  rewrite lookup_mem_write_out by (rewrite ?length_drop; lia).
  rewrite lookup_take_lt, lookup_drop by lia.
  rewrite <- Z.add_assoc, <- Nat2Z.inj_add.
  apply (proj1 (bytes_at_lookup _ _ _) Hsrc). lia.
Qed.

Lemma bwd_write j k :
  (j + k <= length l)%nat ->
  mem_write (d + Z.of_nat (length l - j - k)) (slice (length l - j - k) k l) (bwd_mem j)
  = bwd_mem (j + k).
Proof.
  intros Hjk. unfold bwd_mem. apply map_eq. intros p.
  rewrite !lookup_mem_write, slice_length, !length_drop by lia.
  unfold slice. repeat case_decide; try lia; try done.
  - rewrite lookup_take_lt, !lookup_drop by lia. f_equal. lia.
  - rewrite !lookup_drop. f_equal. lia.
Qed.

Lemma copy_fwd_step j :
  d < s -> (j < length l)%nat ->
  copy_fwd (d + Z.of_nat j, s + Z.of_nat j) (fwd_mem j) =
  Ok (d + Z.of_nat (S j), s + Z.of_nat (S j)) (fwd_mem (S j)).
Proof.
  intros Hds Hj. destruct (lookup_lt_is_Some_2 l j Hj) as [b Hbj].
  pose proof (fwd_read j 1 Hds ltac:(lia)) as Hr.
  pose proof (fwd_write j 1 ltac:(lia)) as Hw.
  rewrite (slice_one _ _ _ Hbj), Nat.add_1_r in *. destruct Hr as [Hr _].
  unfold copy_fwd. erewrite bind_ok by by apply load_ok.
  erewrite bind_ok; cycle 1.
  { apply store_ok, (valid_write _ d (Z.of_nat (length l))); [done | lia]. }
  rewrite u8_small by (eapply Forall_lookup_1 in Hb; done).
  simpl in Hw. rewrite Hw. unfold mret, M_ret. do 2 f_equal; lia.
Qed.

Lemma copyw_fwd_step j :
  d < s -> (j + 4 <= length l)%nat ->
  (d + Z.of_nat j) mod 4 = 0 -> (s + Z.of_nat j) mod 4 = 0 ->
  copyw_fwd (d + Z.of_nat j, s + Z.of_nat j) (fwd_mem j) =
  Ok (d + Z.of_nat (j + 4), s + Z.of_nat (j + 4)) (fwd_mem (j + 4)).
Proof.
  intros Hds Hj Had Has. unfold copyw_fwd.
  erewrite bind_ok by (apply load_word_ok; [|done|by apply fwd_read];
                       by apply slice_length).
  erewrite bind_ok; cycle 1.
  { apply store_word_ok; [by apply bytes_slice | done |].
    apply valid_write, (valid_sub m d (Z.of_nat (length l))); [done | lia |].
    rewrite slice_length by done. lia. }
  rewrite fwd_write by done. unfold mret, M_ret, wsize. do 2 f_equal; lia.
Qed.

Lemma copy_bwd_step j :
  s <= d -> (j < length l)%nat ->
  copy_bwd (d + Z.of_nat (length l - j), s + Z.of_nat (length l - j)) (bwd_mem j) =
  Ok (d + Z.of_nat (length l - S j), s + Z.of_nat (length l - S j)) (bwd_mem (S j)).
Proof.
  intros Hds Hj.
  destruct (lookup_lt_is_Some_2 l (length l - j - 1) ltac:(lia)) as [b Hbj].
  pose proof (bwd_read j 1 Hds ltac:(lia) ltac:(lia)) as Hr.
  pose proof (bwd_write j 1 ltac:(lia)) as Hw.
  rewrite (slice_one _ _ _ Hbj), Nat.add_1_r in *. destruct Hr as [Hr _].
  unfold copy_bwd.
  replace (s + Z.of_nat (length l - j) - 1) with (s + Z.of_nat (length l - j - 1)) by lia.
  replace (d + Z.of_nat (length l - j) - 1) with (d + Z.of_nat (length l - j - 1)) by lia.
  erewrite bind_ok by by apply load_ok.
  erewrite bind_ok; cycle 1.
  { apply store_ok, (valid_write _ d (Z.of_nat (length l))); [done | lia]. }
  rewrite u8_small by (eapply Forall_lookup_1 in Hb; done).
  simpl in Hw. rewrite Hw. unfold mret, M_ret. do 2 f_equal; lia.
Qed.

Lemma copyw_bwd_step j :
  s <= d -> (j + 4 <= length l)%nat ->
  (d + Z.of_nat (length l - j)) mod 4 = 0 -> (s + Z.of_nat (length l - j)) mod 4 = 0 ->
  copyw_bwd (d + Z.of_nat (length l - j), s + Z.of_nat (length l - j)) (bwd_mem j) =
  Ok (d + Z.of_nat (length l - (j + 4)), s + Z.of_nat (length l - (j + 4)))
     (bwd_mem (j + 4)).
Proof.
  intros Hds Hj Had Has. unfold copyw_bwd, wsize.
  replace (s + Z.of_nat (length l - j) - 4) with (s + Z.of_nat (length l - j - 4)) by lia.
  replace (d + Z.of_nat (length l - j) - 4) with (d + Z.of_nat (length l - j - 4)) by lia.
  erewrite bind_ok; cycle 1.
  { apply load_word_ok; [|zdm|by apply bwd_read; [done|done|lia]].
    apply slice_length. lia. }
  erewrite bind_ok; cycle 1.
  { apply store_word_ok; [by apply bytes_slice | zdm |].
    apply valid_write, (valid_sub m d (Z.of_nat (length l))); [done | lia |].
    rewrite slice_length by lia. lia. }
  rewrite bwd_write by done. unfold mret, M_ret. do 2 f_equal; lia.
Qed.

(** The counted loops over these steps. *)

Lemma fwd_bytes j t :
  d < s -> (j + t <= length l)%nat -> Z.of_nat (length l) < 2 ^ 32 ->
  TLOOP (Z.of_nat t) copy_fwd (d + Z.of_nat j, s + Z.of_nat j) (fwd_mem j) =
  Ok (d + Z.of_nat (j + t), s + Z.of_nat (j + t)) (fwd_mem (j + t)).
Proof.
  intros Hds Hjt Hlen.
  apply (TLOOP_from copy_fwd (fun i => (d + Z.of_nat i, s + Z.of_nat i)) fwd_mem); [lia|].
  intros i Hi. apply copy_fwd_step; [done | lia].
Qed.

Lemma fwd_words j t :
  d < s -> (j + 4 * t <= length l)%nat -> Z.of_nat (length l) < 2 ^ 32 ->
  ((0 < t)%nat -> (d + Z.of_nat j) mod 4 = 0 /\ (s + Z.of_nat j) mod 4 = 0) ->
  TLOOP (Z.of_nat t) copyw_fwd (d + Z.of_nat j, s + Z.of_nat j) (fwd_mem j) =
  Ok (d + Z.of_nat (j + 4 * t), s + Z.of_nat (j + 4 * t)) (fwd_mem (j + 4 * t)).
Proof.
  intros Hds Hjt Hlen Hal.
  set (F i := (d + Z.of_nat (j + 4 * i), s + Z.of_nat (j + 4 * i))).
  pose proof (TLOOP_from copyw_fwd F (fun i => fwd_mem (j + 4 * i)) 0 t) as H.
  unfold F in H. rewrite Nat.mul_0_r, Nat.add_0_r in H. apply H; [lia|].
  intros i Hi. replace (j + 4 * S i)%nat with (j + 4 * i + 4)%nat by lia.
  destruct Hal as [Ha1 Ha2]; [lia|].
  apply copyw_fwd_step; [done | lia | zdm | zdm].
Qed.

Lemma bwd_bytes j t :
  s <= d -> (j + t <= length l)%nat -> Z.of_nat (length l) < 2 ^ 32 ->
  TLOOP (Z.of_nat t) copy_bwd
    (d + Z.of_nat (length l - j), s + Z.of_nat (length l - j)) (bwd_mem j) =
  Ok (d + Z.of_nat (length l - (j + t)), s + Z.of_nat (length l - (j + t)))
     (bwd_mem (j + t)).
Proof.
  intros Hds Hjt Hlen.
  apply (TLOOP_from copy_bwd
           (fun i => (d + Z.of_nat (length l - i), s + Z.of_nat (length l - i))) bwd_mem);
    [lia|].
  intros i Hi. apply copy_bwd_step; [done | lia].
Qed.

Lemma bwd_words j t :
  s <= d -> (j + 4 * t <= length l)%nat -> Z.of_nat (length l) < 2 ^ 32 ->
  ((0 < t)%nat -> (d + Z.of_nat (length l - j)) mod 4 = 0 /\
                  (s + Z.of_nat (length l - j)) mod 4 = 0) ->
  TLOOP (Z.of_nat t) copyw_bwd
    (d + Z.of_nat (length l - j), s + Z.of_nat (length l - j)) (bwd_mem j) =
  Ok (d + Z.of_nat (length l - (j + 4 * t)), s + Z.of_nat (length l - (j + 4 * t)))
     (bwd_mem (j + 4 * t)).
Proof.
  intros Hds Hjt Hlen Hal.
  set (F i := (d + Z.of_nat (length l - (j + 4 * i)),
               s + Z.of_nat (length l - (j + 4 * i)))).
  pose proof (TLOOP_from copyw_bwd F (fun i => bwd_mem (j + 4 * i)) 0 t) as H.
  unfold F in H. rewrite Nat.mul_0_r, Nat.add_0_r in H. apply H; [lia|].
  intros i Hi. replace (j + 4 * S i)%nat with (j + 4 * i + 4)%nat by lia.
  destruct Hal as [Ha1 Ha2]; [lia|].
  apply copyw_bwd_step; [done | lia | zdm | zdm].
Qed.
(** Whole words, then the trailing bytes. *)

Lemma fwd_tail j :
  d < s -> (j <= length l)%nat -> Z.of_nat (length l) < 2 ^ 32 ->
  ((j < length l)%nat -> (d + Z.of_nat j) mod 4 = 0 /\ (s + Z.of_nat j) mod 4 = 0) ->
  (ds ← TLOOP ((Z.of_nat (length l) - Z.of_nat j) / wsize) copyw_fwd
          (d + Z.of_nat j, s + Z.of_nat j);
   TLOOP ((Z.of_nat (length l) - Z.of_nat j) .& wmask) copy_fwd ds;; mret tt)
    (fwd_mem j) = Ok tt (mem_write d l m).
Proof.
  intros Hds Hj Hlen Hal. rewrite land_wmask. unfold wsize.
  pose (q := ((length l - j) / 4)%nat). pose (r := ((length l - j) mod 4)%nat).
  pose proof (Nat.div_mod_eq (length l - j) 4) as Hqr. fold q r in Hqr.
  replace ((Z.of_nat (length l) - Z.of_nat j) / 4) with (Z.of_nat q)
    by (unfold q; rewrite Nat2Z.inj_div; f_equal; lia).
  replace ((Z.of_nat (length l) - Z.of_nat j) mod 4) with (Z.of_nat r)
    by (unfold r; rewrite Nat2Z.inj_mod; f_equal; lia).
  rewrite (bind_ok _ _ _ _ _ (fwd_words j q Hds ltac:(lia) Hlen ltac:(intros; apply Hal; lia))).
  rewrite (bind_ok _ _ _ _ _ (fwd_bytes (j + 4 * q) r Hds ltac:(lia) Hlen)).
  replace (j + 4 * q + r)%nat with (length l) by lia.
  unfold fwd_mem. by rewrite take_ge by lia.
Qed.

Lemma bwd_tail j :
  s <= d -> (j <= length l)%nat -> Z.of_nat (length l) < 2 ^ 32 ->
  ((j < length l)%nat -> (d + Z.of_nat (length l - j)) mod 4 = 0 /\
                         (s + Z.of_nat (length l - j)) mod 4 = 0) ->
  (ds ← TLOOP ((Z.of_nat (length l) - Z.of_nat j) / wsize) copyw_bwd
          (d + Z.of_nat (length l - j), s + Z.of_nat (length l - j));
   TLOOP ((Z.of_nat (length l) - Z.of_nat j) .& wmask) copy_bwd ds;; mret tt)
    (bwd_mem j) = Ok tt (mem_write d l m).
Proof.
  intros Hds Hj Hlen Hal. rewrite land_wmask. unfold wsize.
  pose (q := ((length l - j) / 4)%nat). pose (r := ((length l - j) mod 4)%nat).
  pose proof (Nat.div_mod_eq (length l - j) 4) as Hqr. fold q r in Hqr.
  replace ((Z.of_nat (length l) - Z.of_nat j) / 4) with (Z.of_nat q)
    by (unfold q; rewrite Nat2Z.inj_div; f_equal; lia).
  replace ((Z.of_nat (length l) - Z.of_nat j) mod 4) with (Z.of_nat r)
    by (unfold r; rewrite Nat2Z.inj_mod; f_equal; lia).
  rewrite (bind_ok _ _ _ _ _ (bwd_words j q Hds ltac:(lia) Hlen ltac:(intros; apply Hal; lia))).
  rewrite (bind_ok _ _ _ _ _ (bwd_bytes (j + 4 * q) r Hds ltac:(lia) Hlen)).
  replace (j + 4 * q + r)%nat with (length l) by lia.
  unfold bwd_mem. by rewrite Nat.sub_diag, drop_0, Z.add_0_r.
Qed.

Lemma mem_write_self : d = s -> mem_write d l m = m.
Proof.
  intros ->. apply map_eq. intros p. rewrite lookup_mem_write.
  case_decide as Hp; [|done].
  pose proof (proj1 (bytes_at_lookup _ _ _) Hsrc (Z.to_nat (p - s)) ltac:(lia)) as H.
  rewrite <- H. f_equal. lia.
Qed.

Lemma bcopy_forward_ok :
  (0 < length l)%nat -> Z.of_nat (length l) < 2 ^ 32 -> d < s ->
  bcopy_forward d s (Z.of_nat (length l)) m = Ok tt (mem_write d l m).
Proof.
  intros H0 Hlen Hds. unfold bcopy_forward.
  assert (Hf0 : fwd_mem 0 = m) by done.
  pose proof (fun j => fwd_bytes 0 j Hds) as Hbytes. rewrite Hf0, !Z.add_0_r in Hbytes.
  destruct (truthy ((s .| d) .& wmask)) eqn:Hal.
  - set (t := if _ || _ then _ else _).
    assert (Ht : 0 < t <= Z.of_nat (length l) /\
                 (t < Z.of_nat (length l) -> (d + t) mod 4 = 0 /\ (s + t) mod 4 = 0)).
    { unfold t. rewrite (land_wmask s). unfold wsize.
      destruct (truthy ((s .^ d) .& wmask)) eqn:Hx; cbn [orb]; [split; [lia | intros ?; lia]|].
      apply lxor_wmask in Hx. destruct (Z.ltb_spec (Z.of_nat (length l)) 4); [lia|].
      pose proof (Z.mod_pos_bound s 4). split; [lia | intros _; split; zdm]. }
    clearbody t. rewrite <- (Z2Nat.id t) by lia. set (j := Z.to_nat t) in *.
    pose proof (Hbytes j ltac:(lia) Hlen) as H. unfold TLOOP in H.
    rewrite truthy_pos in H by lia.
    rewrite bind_assoc, (bind_ok _ _ _ _ _ H). apply (fwd_tail j); [done|lia|done|].
    intros Hj. destruct Ht as [? Ht].
    replace (Z.of_nat j) with t by lia. apply Ht. lia.
  - apply lor_wmask in Hal as [Hs Hd].
    pose proof (fwd_tail 0 Hds ltac:(lia) Hlen) as H.
    rewrite Z.sub_0_r, Hf0, !Z.add_0_r in H. by apply H.
Qed.

Lemma bcopy_backward_ok :
  (0 < length l)%nat -> Z.of_nat (length l) < 2 ^ 32 -> s <= d ->
  bcopy_backward d s (Z.of_nat (length l)) m = Ok tt (mem_write d l m).
Proof.
  intros H0 Hlen Hds. unfold bcopy_backward.
  assert (Hb0 : bwd_mem 0 = m) by (unfold bwd_mem; by rewrite Nat.sub_0_r, drop_ge).
  pose proof (fun j => bwd_bytes 0 j Hds) as Hbytes.
  rewrite Hb0, !Nat.sub_0_r in Hbytes. set (n := Z.of_nat (length l)) in *.
  assert (Hn : 0 < n) by (unfold n; lia).
  destruct (truthy (((s + n) .| (d + n)) .& wmask)) eqn:Hal.
  - set (t := if _ || _ then _ else _).
    assert (Ht : 0 < t <= n /\
                 (t < n -> (d + (n - t)) mod 4 = 0 /\ (s + (n - t)) mod 4 = 0)).
    { unfold t. rewrite (land_wmask (s + n)). unfold wsize.
      destruct (truthy (((s + n) .^ (d + n)) .& wmask)) eqn:Hx; cbn [orb]; [split; [lia | intros ?; lia]|].
      apply lxor_wmask in Hx. destruct (Z.leb_spec n 4); [lia|].
      pose proof (Z.mod_pos_bound (s + n) 4).
      assert ((s + n) mod 4 <> 0) by
        (intros E; rewrite (proj2 (lor_wmask (s + n) (d + n))) in Hal; [done|split; lia]).
      split; [lia | intros _; split; zdm]. }
    clearbody t. rewrite <- (Z2Nat.id t) by lia. set (j := Z.to_nat t) in *.
    pose proof (Hbytes j ltac:(lia) Hlen) as H. unfold TLOOP in H.
    rewrite truthy_pos in H by lia.
    rewrite bind_assoc, (bind_ok _ _ _ _ _ H). apply (bwd_tail j); [done|lia|done|].
    intros Hj. destruct Ht as [? Ht].
    replace (Z.of_nat (length l - j)) with (n - t) by lia. apply Ht. lia.
  - apply lor_wmask in Hal as [Hs Hd].
    pose proof (bwd_tail 0 Hds ltac:(lia) Hlen) as H. fold n in H.
    rewrite Z.sub_0_r, Hb0, !Nat.sub_0_r in H. by apply H.
Qed.

Lemma bcopy_ok :
  Z.of_nat (length l) < 2 ^ 32 ->
  bcopy s d (Z.of_nat (length l)) m = Ok tt (mem_write d l m).
Proof.
  intros Hlen. unfold bcopy. destruct (Z.eqb_spec (Z.of_nat (length l)) 0) as [H0|H0].
  { simpl. rewrite (nil_length_inv l) by lia. done. }
  destruct (Z.eqb_spec d s) as [E|Hne]; simpl.
  { by rewrite mem_write_self. }
  destruct (Z.ltb_spec d s) as [Hds|Hds].
  - apply bcopy_forward_ok; lia.
  - apply bcopy_backward_ok; lia.
Qed.
End Copy.

(** ** memmove *)

Lemma land_31 n : n .& 31 = n mod 32.
Proof. apply (Z.land_ones n 5). lia. Qed.

Section Move.
Context (d s : Z) (l : list Z) (m : mem).
Context (Hb : bytes l) (Hsrc : bytes_at m s l).
Context (Hdst : valid m d (Z.of_nat (length l))).

(** The state of the backward loop after [j] bytes. *)
Let F (j : nat) : Z * Z :=
  (d + Z.of_nat (length l - j), s + Z.of_nat (length l - j)).

Lemma bwd_block j t :
  s <= d -> (j + t <= length l)%nat -> (0 < t)%nat -> Z.of_nat t < 2 ^ 32 ->
  TLOOP1 (Z.of_nat t) copy_bwd (F j) (bwd_mem d l m j) =
  Ok (F (j + t)) (bwd_mem d l m (j + t)).
Proof.
  intros Hds Hjt Ht Ht2.
  apply (TLOOP1_from copy_bwd F (bwd_mem d l m)); [done|done|].
  intros i Hi. apply copy_bwd_step; [done..|lia].
Qed.

Lemma bwd_blocks q :
  s <= d -> (32 * q <= length l)%nat -> Z.of_nat q < 2 ^ 32 ->
  while_dec (Z.of_nat q) (fun qp => TLOOP1 32 copy_bwd qp) (F 0) (bwd_mem d l m 0) =
  Ok (F (32 * q)) (bwd_mem d l m (32 * q)).
Proof.
  intros Hds Hq Hq2.
  pose proof (while_dec_from (fun qp => TLOOP1 32 copy_bwd qp)
                (fun i => F (32 * i)) (fun i => bwd_mem d l m (32 * i)) 0 q Hq2) as H.
  cbv beta in H. rewrite Nat.mul_0_r, Nat.add_0_l in H. apply H.
  intros i Hi. replace (32 * S i)%nat with (32 * i + 32)%nat by lia.
  apply (bwd_block (32 * i) 32); [done | lia | lia | done].
Qed.

Lemma bwd_rest j t :
  s <= d -> (j + t <= length l)%nat -> Z.of_nat t < 2 ^ 32 ->
  while_dec (Z.of_nat t) copy_bwd (F j) (bwd_mem d l m j) =
  Ok (F (j + t)) (bwd_mem d l m (j + t)).
Proof.
  intros Hds Hjt Ht.
  apply (while_dec_from copy_bwd F (bwd_mem d l m)); [done|].
  intros i Hi. apply copy_bwd_step; [done..|lia].
Qed.

Lemma memmove_ok :
  Z.of_nat (length l) < 2 ^ 32 ->
  memmove d s (Z.of_nat (length l)) m = Ok d (mem_write d l m).
Proof.
  intros Hlen. unfold memmove. destruct (Z.ltb_spec d s) as [Hds|Hds].
  - unfold memcpy. by rewrite (bind_ok _ _ _ _ _ (bcopy_ok d s l m Hb Hsrc Hdst Hlen)).
  - rewrite land_31, Z.shiftr_div_pow2 by lia. change (2 ^ 5) with 32.
    pose (q := (length l / 32)%nat). pose (r := (length l mod 32)%nat).
    pose proof (Nat.div_mod_eq (length l) 32) as Hqr. fold q r in Hqr.
    replace (Z.of_nat (length l) / 32) with (Z.of_nat q)
      by (unfold q; by rewrite Nat2Z.inj_div).
    replace (Z.of_nat (length l) mod 32) with (Z.of_nat r)
      by (unfold r; by rewrite Nat2Z.inj_mod).
    pose proof (bwd_blocks q Hds ltac:(lia) ltac:(lia)) as H.
    unfold F at 1, bwd_mem at 1 in H. rewrite Nat.sub_0_r, drop_ge in H by lia. simpl in H.
    rewrite (bind_ok _ _ _ _ _ H).
    rewrite (bind_ok _ _ _ _ _ (bwd_rest (32 * q) r Hds ltac:(lia) ltac:(lia))).
    replace (32 * q + r)%nat with (length l) by lia.
    unfold bwd_mem. by rewrite Nat.sub_diag, drop_0, Z.add_0_r.
Qed.
End Move.

(** ** memset *)

Lemma widen_bytes be c : u32_bytes be (widen c) = replicate 4 (u8 c).
Proof.
  pose proof (u8_range c) as Hc. revert Hc. unfold widen. generalize (u8 c) as b.
  intros b Hb.
  assert (H : Forall (fun b => u32_bytes be
                 (if truthy b then u32 ((u32 ((b ≪ 8) .| b) ≪ 16) .| u32 ((b ≪ 8) .| b))
                  else b) = replicate 4 b) (seqZ 0 256)).
  { destruct be; apply (bool_decide_unpack _); vm_compute; done. }
  apply (proj1 (Forall_forall _ _) H). apply elem_of_list_In || apply list_elem_of_In.
  apply elem_of_seqZ. lia.
Qed.

Section Fill.
Context (be : bool) (d c : Z) (m : mem) (n : nat).
Context (Hdst : valid m d (Z.of_nat n)).

Definition filled (j : nat) : mem := mem_write d (replicate j (u8 c)) m.

Lemma filled_write j k :
  mem_write (d + Z.of_nat j) (replicate k (u8 c)) (filled j) = filled (j + k).
Proof.
  unfold filled. rewrite replicate_add, mem_write_app. by rewrite length_replicate.
Qed.

Lemma fill_byte_step j :
  (j < n)%nat ->
  fill_byte c (d + Z.of_nat j) (filled j) = Ok (d + Z.of_nat (S j)) (filled (S j)).
Proof.
  intros Hj. unfold fill_byte. erewrite bind_ok; cycle 1.
  { apply store_ok, (valid_write _ d (Z.of_nat n)); [done | lia]. }
  pose proof (filled_write j 1) as H. simpl in H. rewrite H, Nat.add_1_r.
  unfold mret, M_ret. f_equal. lia.
Qed.

Lemma fill_word_step j :
  (j + 4 <= n)%nat -> (d + Z.of_nat j) mod 4 = 0 ->
  fill_word be (widen c) (d + Z.of_nat j) (filled j) =
  Ok (d + Z.of_nat (j + 4)) (filled (j + 4)).
Proof.
  intros Hj Hal. unfold fill_word. rewrite widen_bytes. erewrite bind_ok; cycle 1.
  { apply store_word_ok; [|done|].
    - apply Forall_replicate. apply u8_range.
    - apply valid_write, (valid_sub m d (Z.of_nat n)); [done|lia|simpl; lia]. }
  rewrite filled_write. unfold mret, M_ret, wsize. f_equal. lia.
Qed.

Lemma fill_words j t :
  (j + 4 * t <= n)%nat -> (0 < t)%nat -> Z.of_nat n < 2 ^ 32 ->
  (d + Z.of_nat j) mod 4 = 0 ->
  TLOOP1 (Z.of_nat t) (fill_word be (widen c)) (d + Z.of_nat j) (filled j) =
  Ok (d + Z.of_nat (j + 4 * t)) (filled (j + 4 * t)).
Proof.
  intros Hjt Ht Hn Hal.
  pose proof (TLOOP1_from (fill_word be (widen c)) (fun i => d + Z.of_nat (j + 4 * i))
                (fun i => filled (j + 4 * i)) 0 t) as H.
  cbv beta in H. rewrite Nat.mul_0_r, Nat.add_0_r in H. apply H; [lia|done|].
  intros i Hi. replace (j + 4 * S i)%nat with (j + 4 * i + 4)%nat by lia.
  apply fill_word_step; [lia | zdm].
Qed.

Lemma fill_bytes j t :
  (j + t <= n)%nat -> Z.of_nat n < 2 ^ 32 ->
  TLOOP (Z.of_nat t) (fill_byte c) (d + Z.of_nat j) (filled j) =
  Ok (d + Z.of_nat (j + t)) (filled (j + t)).
Proof.
  intros Hjt Hn.
  apply (TLOOP_from (fill_byte c) (fun i => d + Z.of_nat i) filled); [lia|].
  intros i Hi. apply fill_byte_step. lia.
Qed.

Lemma fill_rest j :
  (j + 4 <= n)%nat -> Z.of_nat n < 2 ^ 32 -> (d + Z.of_nat j) mod 4 = 0 ->
  (dst ← TLOOP1 ((Z.of_nat n - Z.of_nat j) / wsize) (fill_word be (widen c))
           (d + Z.of_nat j);
   TLOOP ((Z.of_nat n - Z.of_nat j) .& wmask) (fill_byte c) dst;; mret d) (filled j)
  = Ok d (filled n).
Proof.
  intros Hj Hn Hal. rewrite land_wmask. unfold wsize.
  pose (q := ((n - j) / 4)%nat). pose (r := ((n - j) mod 4)%nat).
  pose proof (Nat.div_mod_eq (n - j) 4) as Hqr. fold q r in Hqr.
  assert (r < 4)%nat by (apply Nat.mod_upper_bound; lia).
  replace ((Z.of_nat n - Z.of_nat j) / 4) with (Z.of_nat q)
    by (unfold q; rewrite Nat2Z.inj_div; f_equal; lia).
  replace ((Z.of_nat n - Z.of_nat j) mod 4) with (Z.of_nat r)
    by (unfold r; rewrite Nat2Z.inj_mod; f_equal; lia).
  rewrite (bind_ok _ _ _ _ _ (fill_words j q ltac:(lia) ltac:(lia) Hn Hal)).
  rewrite (bind_ok _ _ _ _ _ (fill_bytes (j + 4 * q) r ltac:(lia) Hn)).
  by replace (j + 4 * q + r)%nat with n by lia.
Qed.

Lemma memset_ok :
  Z.of_nat n < 2 ^ 32 ->
  memset be d c (Z.of_nat n) m = Ok d (mem_write d (replicate n (u8 c)) m).
Proof.
  intros Hn. unfold memset, wsize at 1. destruct (Z.ltb_spec (Z.of_nat n) (3 * 4)) as [Hs|Hs].
  - pose proof (while_dec_from (fill_byte c) (fun i => d + Z.of_nat i) filled 0 n Hn) as H.
    cbv beta in H. rewrite Z.add_0_r in H. erewrite bind_ok; [done|]. apply H.
    intros i Hi. apply fill_byte_step. lia.
  - rewrite land_wmask. pose proof (Z.mod_pos_bound d 4 ltac:(lia)) as Hmod.
    destruct (Z.eq_dec (d mod 4) 0) as [H0|H0].
    + rewrite H0. simpl truthy. cbv iota.
      pose proof (fill_rest 0 ltac:(lia) Hn) as H.
      rewrite Z.sub_0_r, Z.add_0_r in H. by apply H.
    + rewrite truthy_pos by lia.
      pose (j := Z.to_nat (4 - d mod 4)).
      replace (wsize - d mod 4) with (Z.of_nat j) by (unfold wsize; lia).
      pose proof (fill_bytes 0 j ltac:(lia) Hn) as H. unfold TLOOP in H.
      rewrite truthy_pos, Z.add_0_r in H by lia. change (filled 0) with m in H.
      rewrite bind_assoc, (bind_ok _ _ _ _ _ H). apply fill_rest; [lia|done|].
      rewrite Nat.add_0_l. unfold j. zdm.
Qed.
End Fill.

(** ** memcmp *)

(** The difference of the first two bytes that differ. *)
Fixpoint first_diff (a b : list Z) : Z :=
  match a, b with
  | x :: a', y :: b' => if x =? y then first_diff a' b' else x - y
  | _, _ => 0
  end.

(** The order of byte sequences of the same length. *)
Inductive lex_lt : list Z -> list Z -> Prop :=
| lex_here x y a b : x < y -> lex_lt (x :: a) (y :: b)
| lex_next x a b : lex_lt a b -> lex_lt (x :: a) (x :: b).

Lemma first_diff_0 a b : length a = length b -> first_diff a b = 0 <-> a = b.
Proof.
  revert b. induction a as [|x a IH]; intros [|y b] Hl; simpl in *; try done.
  destruct (Z.eqb_spec x y) as [->|Hne].
  - rewrite IH by lia. split; [by intros -> | by inversion 1].
  - split; [lia | by inversion 1].
Qed.

Lemma first_diff_neg a b : length a = length b -> first_diff a b < 0 <-> lex_lt a b.
Proof.
  revert b. induction a as [|x a IH]; intros [|y b] Hl; simpl in *; try done.
  - split; [lia | by inversion 1].
  - destruct (Z.eqb_spec x y) as [->|Hne].
    + rewrite IH by lia. split; [by constructor | inversion 1; [lia | done]].
    + split; [intros; constructor; lia | inversion 1; lia].
Qed.

Lemma memcmp_ok m s1 s2 a b :
  length a = length b -> bytes_at m s1 a -> bytes_at m s2 b ->
  memcmp s1 s2 (Z.of_nat (length a)) m = Ok (first_diff a b) m.
Proof.
  intros Hl Ha Hb. unfold memcmp. rewrite Nat2Z.id. apply loop_unroll.
  remember (s1 + Z.of_nat (length a)) as end1 eqn:He.
  revert b s1 s2 Hl Ha Hb He. induction a as [|x a IH]; intros [|y b] s1 s2 Hl Ha Hb He;
    simpl in Hl; try done.
  - apply loop_exit. simpl in He. unfold memcmp_step. cbn [truthy negb Z.eqb orb]. by zif.
  - destruct Ha as [Hx Ha], Hb as [Hy Hb]. simpl length in *.
    erewrite loop_continue; cycle 1.
    { unfold memcmp_step. cbn [truthy negb Z.eqb orb]. zif.
      erewrite bind_ok by by apply load_ok. erewrite bind_ok by by apply load_ok.
      reflexivity. }
    simpl first_diff. destruct (Z.eqb_spec x y) as [->|Hne].
    + rewrite Z.sub_diag. apply IH; [lia|done|done|lia].
    + apply loop_exit. unfold memcmp_step.
      by rewrite truthy_ne by lia.
Qed.

(** ** memchr and memrchr *)

Lemma memchr_ok m s c l :
  bytes_at m s l ->
  memchr s c (Z.of_nat (length l)) m =
  Ok (match list_find (fun b => b = c) l with
      | Some (i, _) => s + Z.of_nat i | None => NULL end) m.
Proof.
  intros H. unfold memchr. rewrite Nat2Z.id.
  remember (s + Z.of_nat (length l)) as end_ eqn:He.
  assert (Hloop : loop (S (length l)) (memchr_step end_ c) s m =
    Ok (match list_find (fun b => b = c) l with
        | Some (i, _) => s + Z.of_nat i | None => end_ end) m).
  { revert s H He. induction l as [|b l IH]; intros s H He.
    - apply loop_exit. unfold memchr_step. simpl in He.
      zif. simpl. unfold mret, M_ret. do 2 f_equal. lia.
    - destruct H as [Hb H]. simpl list_find. simpl length in *.
      destruct (decide (b = c)) as [->|Hne].
      + apply loop_exit. unfold memchr_step. zif.
        erewrite bind_ok by by apply load_ok.
        rewrite Z.eqb_refl. unfold mret, M_ret. do 2 f_equal. lia.
      + erewrite loop_continue; cycle 1.
        { unfold memchr_step. zif.
          erewrite bind_ok by by apply load_ok.
          zif. reflexivity. }
        rewrite IH by (done || lia).
        destruct (list_find _ l) as [[i x]|]; simpl; [|done]. f_equal. lia. }
  apply (loop_unroll _ 3) in Hloop. rewrite (bind_ok _ _ _ _ _ Hloop).
  unfold mret, M_ret. f_equal.
  destruct (list_find (fun b => b = c) l) as [[i x]|] eqn:Hf.
  - apply list_find_Some in Hf as [Hi _]. apply lookup_lt_Some in Hi.
    zif. done.
  - by rewrite Z.leb_refl.
Qed.

Section PlainCharLemmas.
Context `{CM : CharModel}.

Lemma memrchr_ok m s c l :
  bytes_at m s l -> 0 <= s ->
  memrchr s c (Z.of_nat (length l)) m =
  Ok (match list_find (fun b => char_of b = c) (reverse l) with
      | Some (i, _) => s + Z.of_nat (length l - 1 - i) | None => NULL end) m.
Proof.
  intros H Hs. unfold memrchr. rewrite Nat2Z.id.
  destruct (Z.ltb_spec 0 (Z.of_nat (length l))) as [Hn|Hn]; cycle 1.
  { by rewrite (nil_length_inv l) by lia. }
  assert (Hloop : loop (S (length l)) (memrchr_step s c) (s + Z.of_nat (length l)) m =
    Ok (match list_find (fun b => char_of b = c) (reverse l) with
        | Some (i, _) => s + Z.of_nat (length l - 1 - i) | None => s - 1 end) m).
  { clear Hn. induction l as [|b l IH] using rev_ind.
    - apply loop_exit. unfold memrchr_step. simpl.
      zif. unfold mret, M_ret. do 2 f_equal. lia.
    - apply bytes_at_app in H as [H [Hb _]].
      rewrite reverse_snoc, length_app. cbn [list_find length].
      assert (Hstep : memrchr_step s c (s + Z.of_nat (length l + 1)) m =
        Ok (if char_of b =? c then inr (s + Z.of_nat (length l))
            else inl (s + Z.of_nat (length l))) m).
      { unfold memrchr_step.
        replace (s + Z.of_nat (length l + 1) - 1) with (s + Z.of_nat (length l)) by lia.
        zif.
        by erewrite bind_ok by by apply loadc_ok. }
      destruct (decide (char_of b = c)) as [Hc|Hc].
      + rewrite (proj2 (Z.eqb_eq _ _)) in Hstep by done.
        rewrite Nat.add_1_r in *. erewrite loop_exit by done.
        do 2 f_equal. lia.
      + rewrite (proj2 (Z.eqb_neq _ _)) in Hstep by done.
        rewrite Nat.add_1_r in *. erewrite loop_continue by done.
        rewrite IH by done.
        destruct (list_find _ (reverse l)) as [[i x]|] eqn:Hf; simpl; [|done].
        do 2 f_equal. lia. }
  apply (loop_unroll _ 3) in Hloop. rewrite (bind_ok _ _ _ _ _ Hloop).
  unfold mret, M_ret. f_equal.
  destruct (list_find _ (reverse l)) as [[i x]|] eqn:Hf.
  - zif. done.
  - zif. done.
Qed.
End PlainCharLemmas.

(** ** memccpy *)

Section MemccpyLemmas.
Context `{CM : CharModel}.

Lemma char_of_range b : - 128 <= char_of b < 256.
Proof.
  unfold char_of, s8, u8. destruct char_signed;
    [pose proof (Z.mod_pos_bound (b + 2 ^ 7) (2 ^ 8)) | pose proof (Z.mod_pos_bound b (2 ^ 8))];
    lia.
Qed.

(** The initial [ch] really differs from [c]. *)
Lemma memccpy_init c : char_of (Z.lnot (char_of c)) <> c.
Proof.
  unfold char_of, s8, u8, Z.lnot. change (2 ^ 7) with 128. change (2 ^ 8) with 256.
  destruct char_signed; zdm.
Qed.

(** What memccpy copies: up to and including the first [c]. *)
Definition upto (c : Z) (l : list Z) : list Z :=
  match list_find (fun b => char_of b = c) l with
  | Some (i, _) => take (S i) l
  | None => l
  end.

Lemma upto_cons c b l :
  upto c (b :: l) = if decide (char_of b = c) then [b] else b :: upto c l.
Proof.
  unfold upto. simpl. destruct (decide (char_of b = c)); [done|].
  destruct (list_find _ l) as [[i x]|]; done.
Qed.

Lemma upto_length c l : (length (upto c l) <= length l)%nat.
Proof. unfold upto. destruct (list_find _ l) as [[i x]|]; [rewrite length_take|]; lia. Qed.

Lemma memccpy_loop m d s c l ch :
  bytes l -> bytes_at m s l -> valid m d (Z.of_nat (length l)) ->
  disjoint_ranges d (Z.of_nat (length l)) s (Z.of_nat (length l)) -> ch <> c ->
  loop (S (length l)) (memccpy_step (s + Z.of_nat (length l)) c) (d, s, ch) m =
  Ok (d + Z.of_nat (length (upto c l)), s + Z.of_nat (length (upto c l)))
     (mem_write d (upto c l) m).
Proof.
  remember (s + Z.of_nat (length l)) as e eqn:He.
  revert m d s ch He. induction l as [|b l IH]; intros m d s ch He Hb Hs Hd Hdis Hch.
  - apply loop_exit. simpl in He. unfold memccpy_step. zif. zif.
    unfold mret, M_ret. simpl. by rewrite !Z.add_0_r.
  - destruct Hs as [Hs0 Hs]. inversion Hb as [|? ? Hb0 Hb']; subst x l0.
    simpl length in *. unfold disjoint_ranges in Hdis.
    erewrite loop_continue; cycle 1.
    { unfold memccpy_step. zif. zif. erewrite bind_ok by by apply load_ok.
      erewrite bind_ok by (apply store_ok; eapply valid_head; [done | lia]).
      rewrite u8_small by done. reflexivity. }
    rewrite upto_cons. destruct (decide (char_of b = c)) as [Hc|Hc].
    + apply loop_exit. unfold memccpy_step. rewrite Hc. zif. done.
    + rewrite IH; [|lia|done|apply bytes_at_insert; [lia|done]| |unfold disjoint_ranges; lia|done].
      * simpl length. do 2 f_equal; lia.
      * apply valid_insert, (valid_sub m d (Z.of_nat (S (length l)))); [done|lia|lia].
Qed.

Lemma memccpy_ok m d s c l :
  bytes l -> bytes_at m s l -> valid m d (Z.of_nat (length l)) ->
  disjoint_ranges d (Z.of_nat (length l)) s (Z.of_nat (length l)) ->
  memccpy d s c (Z.of_nat (length l)) m =
  Ok (if (length (upto c l) <? length l)%nat
      then d + Z.of_nat (length (upto c l)) else NULL) (mem_write d (upto c l) m).
Proof.
  intros Hb Hs Hd Hdis. unfold memccpy. rewrite Nat2Z.id.
  pose proof (memccpy_loop m d s c l _ Hb Hs Hd Hdis (memccpy_init c)) as H.
  apply (loop_unroll _ 3) in H. rewrite (bind_ok _ _ _ _ _ H).
  unfold mret, M_ret. f_equal. pose proof (upto_length c l).
  destruct (Nat.ltb_spec (length (upto c l)) (length l)); by zif.
Qed.
End MemccpyLemmas.

(** ** memswap *)

Lemma memswap_ok m p q a b :
  bytes a -> bytes b -> length a = length b -> bytes_at m p a -> bytes_at m q b ->
  disjoint_ranges p (Z.of_nat (length a)) q (Z.of_nat (length a)) ->
  memswap p q (Z.of_nat (length a)) m = Ok tt (mem_write q a (mem_write p b m)).
Proof.
  intros Ha Hb Hl Hp Hq Hdis. unfold memswap. rewrite Nat2Z.id.
  remember (p + Z.of_nat (length a)) as e eqn:He.
  revert m p q b Hb Hl Hp Hq Hdis He.
  induction Ha as [|x a Hx Ha IH]; intros m p q [|y b] Hb Hl Hp Hq Hdis He;
    simpl in Hl; try done.
  - apply loop_exit. simpl in He. by zif.
  - destruct Hp as [Hp0 Hp], Hq as [Hq0 Hq]. inversion Hb as [|? ? Hy Hb']; subst x0 l.
    simpl length in *. unfold disjoint_ranges in *.
    erewrite loop_continue; cycle 1.
    { zif. erewrite bind_ok by by apply load_ok. erewrite bind_ok by by apply load_ok.
      erewrite bind_ok by (apply store_ok; eauto).
      erewrite bind_ok by (apply store_ok; rewrite lookup_insert_ne by lia; eauto).
      rewrite !u8_small by done. reflexivity. }
    rewrite (IH _ _ _ b); [|done|lia| | |lia|lia].
    + simpl. f_equal. f_equal.
      by rewrite mem_write_insert_comm by lia.
    + apply bytes_at_insert; [lia|]. apply bytes_at_insert; [lia|done].
    + apply bytes_at_insert; [lia|]. apply bytes_at_insert; [rewrite Hl in *; lia|done].
Qed.

(** ** memmem *)

(** [x] occurs in [l] at index [i]. *)
Definition occurs_at (x l : list Z) (i : nat) : Prop := slice i (length x) l = x.

Lemma occurs_at_lookup x l i k :
  occurs_at x l i -> (k < length x)%nat -> l !! (i + k)%nat = x !! k.
Proof.
  unfold occurs_at, slice. intros H Hk.
  assert (E : x !! k = take (length x) (drop i l) !! k) by by rewrite H.
  by rewrite E, lookup_take_lt, lookup_drop by lia.
Qed.

Lemma occurs_at_head x0 x1 x l i :
  occurs_at (x0 :: x1 :: x) l i -> l !! i = Some x0 /\ l !! S i = Some x1.
Proof.
  intros Hi. split.
  - rewrite <- (Nat.add_0_r i). by rewrite (occurs_at_lookup _ _ _ 0 Hi) by (simpl; lia).
  - rewrite <- Nat.add_1_r. by rewrite (occurs_at_lookup _ _ _ 1 Hi) by (simpl; lia).
Qed.

Lemma occurs_at_split x0 x1 x l i :
  l !! i = Some x0 -> l !! S i = Some x1 ->
  occurs_at (x0 :: x1 :: x) l i <-> slice (S (S i)) (length x) l = x.
Proof.
  intros H0 H1. unfold occurs_at, slice. cbn [length].
  rewrite (drop_S _ _ _ H0), (drop_S _ _ _ H1). simpl.
  split; [intros H; by injection H | intros H; by rewrite H].
Qed.

Section Memmem.
Context (m : mem) (y x : Z) (l xs : list Z) (x0 x1 : Z).
Context (Hl : bytes_at m y l) (Hx : bytes_at m x (x0 :: x1 :: xs)).
Context (Hlen : (S (S (length xs)) <= length l)%nat).
Let needle := x0 :: x1 :: xs.
Let lim := (length l - length needle)%nat.
Let k : Z := if x0 =? x1 then 2 else 1.
Let k' : Z := if x0 =? x1 then 1 else 2.

(** The loop body of memmem, with its locals read off the needle. *)
Let body (j : Z) : M (Z + Z) :=
  if j <=? Z.of_nat (length l) - Z.of_nat (length needle) then
    y1 ← load (y + (j + 1));
    if negb (x1 =? y1) then mret (inl (j + k))
    else
      d ← memcmp (x + 2) (y + j + 2) (Z.of_nat (length needle) - 2);
      if d =? 0 then
        y0 ← load (y + j);
        mret (if x0 =? y0 then inr (y + j) else inl (j + k'))
      else mret (inl (j + k'))
  else mret (inr NULL).

(** The skips of the "Not So Naive" search pass over no occurrence. *)
Lemma skip_agree j i :
  l !! S j = Some x1 -> ~ occurs_at needle l j ->
  (j <= i < j + Z.to_nat k')%nat -> ~ occurs_at needle l i.
Proof.
  intros H1 Hno Hi Ho. destruct (decide (i = j)) as [->|Hne]; [done|].
  apply occurs_at_head in Ho as [Ho _]. revert Hi. unfold k'. bcase; [lia|]. intros Hi.
  assert (i = S j) as -> by lia. congruence.
Qed.

Lemma skip_differ j i y1 :
  l !! S j = Some y1 -> x1 <> y1 ->
  (j <= i < j + Z.to_nat k)%nat -> ~ occurs_at needle l i.
Proof.
  intros H1 Hne Hi Ho. apply occurs_at_head in Ho as [Ho0 Ho1].
  destruct (decide (i = j)) as [->|Hij]; [congruence|].
  revert Hi. unfold k. bcase; [|lia]. intros Hi.
  assert (i = S j) as -> by lia. congruence.
Qed.

(** The comparison of the rest of the needle, at [j]. *)
Lemma memmem_compare j :
  (j <= lim)%nat ->
  exists d, memcmp (x + 2) (y + Z.of_nat j + 2) (Z.of_nat (length needle) - 2) m = Ok d m /\
            (d = 0 <-> slice (S (S j)) (length xs) l = xs).
Proof.
  intros Hj. unfold lim, needle in Hj. cbn [length] in Hj.
  assert (Hs : length (slice (S (S j)) (length xs) l) = length xs)
    by (apply slice_length; lia).
  exists (first_diff xs (slice (S (S j)) (length xs) l)). split.
  - unfold needle. cbn [length].
    replace (Z.of_nat (S (S (length xs))) - 2) with (Z.of_nat (length xs)) by lia.
    destruct Hx as (_ & _ & Hxs). replace (x + 1 + 1) with (x + 2) in Hxs by lia.
    apply memcmp_ok; [lia|done|]. apply bytes_at_lookup. intros i Hi. unfold slice.
    rewrite lookup_take_lt, lookup_drop by lia.
    rewrite <- (proj1 (bytes_at_lookup _ _ _) Hl) by lia. f_equal. lia.
  - rewrite first_diff_0 by lia. split; congruence.
Qed.

(** One round at [j]: an occurrence there is reported; otherwise the skip
    passes over no occurrence. *)
Lemma memmem_round j :
  (j <= lim)%nat ->
  (occurs_at needle l j /\ body (Z.of_nat j) m = Ok (inr (y + Z.of_nat j)) m) \/
  exists j', (j < j')%nat /\ body (Z.of_nat j) m = Ok (inl (Z.of_nat j')) m /\
             forall i, (j <= i < j')%nat -> ~ occurs_at needle l i.
Proof.
  intros Hj. pose proof Hj as Hj'. unfold lim, needle in Hj. cbn [length] in Hj.
  destruct (lookup_lt_is_Some_2 l j ltac:(lia)) as [y0 Hy0].
  destruct (lookup_lt_is_Some_2 l (S j) ltac:(lia)) as [y1 Hy1].
  pose proof (proj1 (bytes_at_lookup _ _ _) Hl) as Hm.
  destruct (memmem_compare j Hj') as (d & Hcmp & Hd).
  unfold body. replace (Z.of_nat j <=? _) with true
    by (symmetry; apply Z.leb_le; unfold needle; cbn [length]; lia).
  erewrite bind_ok; cycle 1.
  { apply load_ok. replace (y + (Z.of_nat j + 1)) with (y + Z.of_nat (S j)) by lia.
    rewrite Hm by lia. exact Hy1. }
  assert (Hk' : Z.of_nat j + k' = Z.of_nat (j + Z.to_nat k') /\ (0 < Z.to_nat k')%nat)
    by (unfold k'; bcase; lia).
  assert (Hk : Z.of_nat j + k = Z.of_nat (j + Z.to_nat k) /\ (0 < Z.to_nat k)%nat)
    by (unfold k; bcase; lia).
  destruct Hk' as [-> Hk'], Hk as [-> Hk].
  destruct (Z.eqb_spec x1 y1) as [E1|E1]; cbn [negb]; cbv iota; cycle 1.
  { right. exists (j + Z.to_nat k)%nat. split; [lia|split; [done|]].
    intros i Hi. by apply (skip_differ j i y1). }
  subst y1. rewrite (bind_ok _ _ _ _ _ Hcmp).
  destruct (Z.eqb_spec d 0) as [Ed|Ed].
  - erewrite bind_ok by (apply load_ok; rewrite Hm by lia; exact Hy0).
    destruct (Z.eqb_spec x0 y0) as [E0|E0].
    + left. split; [|done]. apply occurs_at_split; [congruence|done|by apply Hd].
    + right. exists (j + Z.to_nat k')%nat. split; [lia|split; [done|]].
      intros i Hi. apply (skip_agree j); [done| |lia].
      intros Ho. apply occurs_at_head in Ho as [Ho _]. congruence.
  - right. exists (j + Z.to_nat k')%nat. split; [lia|split; [done|]].
    intros i Hi. apply (skip_agree j); [done| |lia].
    intros Ho. pose proof (occurs_at_head _ _ _ _ _ Ho) as [Ho0 Ho1].
    apply occurs_at_split in Ho; [|done..]. by apply Ed, Hd.
Qed.

(** The whole search, started at [j]. *)
Lemma memmem_loop fuel j :
  (1 <= fuel)%nat -> (lim + 2 <= fuel + j)%nat ->
  exists r, loop fuel body (Z.of_nat j) m = Ok r m /\
    ((exists i, (j <= i <= lim)%nat /\ r = y + Z.of_nat i /\ occurs_at needle l i /\
                forall i', (j <= i' < i)%nat -> ~ occurs_at needle l i') \/
     (r = NULL /\ forall i, (j <= i <= lim)%nat -> ~ occurs_at needle l i)).
Proof.
  revert j. induction fuel as [|fuel IH]; intros j H1 Hf; [lia|].
  destruct (decide (j <= lim)%nat) as [Hj|Hj]; cycle 1.
  { exists NULL. split; [|right; split; [done | lia]]. apply loop_exit. unfold body.
    unfold lim, needle in *. cbn [length] in *. by zif. }
  destruct (memmem_round j Hj) as [[Ho Hb]|(j' & Hlt & Hb & Hno)].
  { exists (y + Z.of_nat j). split; [by apply loop_exit|].
    left. exists j. repeat split; [lia|lia|done|lia]. }
  destruct (IH j') as (r & Hr & Hcase); [lia|lia|].
  exists r. split; [by erewrite loop_continue|].
  destruct Hcase as [(i & Hi & Er & Ho & Hmin)|[Er Hnone]].
  - left. exists i. repeat split; [lia|lia|done|done|]. intros i' Hi'.
    destruct (decide (i' < j')%nat); [apply Hno | apply Hmin]; lia.
  - right. split; [done|]. intros i Hi.
    destruct (decide (i < j')%nat); [apply Hno | apply Hnone]; lia.
Qed.

Lemma memmem_long :
  exists r, memmem y (Z.of_nat (length l)) x (Z.of_nat (length needle)) m = Ok r m /\
    ((exists i, (i <= lim)%nat /\ r = y + Z.of_nat i /\ occurs_at needle l i /\
                forall i', (i' < i)%nat -> ~ occurs_at needle l i') \/
     (r = NULL /\ forall i, (i <= lim)%nat -> ~ occurs_at needle l i)).
Proof.
  destruct (memmem_loop (S (length l)) 0) as (r & Hr & Hcase); [lia|unfold lim; simpl; lia|].
  exists r. split.
  - unfold memmem, needle at 1 2 3. cbn [length].
    rewrite (proj2 (Z.ltb_ge _ _)), !(proj2 (Z.eqb_neq _ _)) by lia. cbn [orb]. zif.
    destruct Hx as (Hx0 & Hx1 & _).
    rewrite (bind_ok _ _ _ _ _ (load_ok _ _ _ Hx0)), (bind_ok _ _ _ _ _ (load_ok _ _ _ Hx1)).
    rewrite Nat2Z.id. revert Hr. unfold body, k, k'. by destruct (x0 =? x1).
  - destruct Hcase as [(i & Hi & Er & Ho & Hmin)|[Er Hnone]].
    + left. exists i. repeat split; [lia|done|done|]. intros. apply Hmin. lia.
    + right. split; [done|]. intros. apply Hnone. lia.
Qed.
End Memmem.

Lemma memmem_single m y x l b :
  bytes_at m y l -> bytes_at m x [b] -> l <> [] ->
  memmem y (Z.of_nat (length l)) x 1 m =
  Ok (match list_find (fun c => c = b) l with
      | Some (i, _) => y + Z.of_nat i | None => NULL end) m.
Proof.
  intros Hl [Hx _] Hne. unfold memmem.
  destruct l as [|c l]; [done|]. cbn [length].
  rewrite (proj2 (Z.ltb_ge _ _)), !(proj2 (Z.eqb_neq _ _)) by lia. cbn [orb]. zif.
  rewrite (bind_ok _ _ _ _ _ (load_ok _ _ _ Hx)). by apply (memchr_ok m y b (c :: l)).
Qed.

Lemma occurs_at_single b l i : occurs_at [b] l i <-> l !! i = Some b.
Proof.
  split.
  - intros H. rewrite <- (Nat.add_0_r i). by rewrite (occurs_at_lookup _ _ _ 0 H) by (simpl; lia).
  - apply slice_one.
Qed.

(** ** The properties *)

(** bcopy.c (the body of bcopy and memcpy) copies [length] bytes from any
    source to any destination, overlapping or not and however aligned: the
    destination ends up holding the bytes the source held before the call, no
    other byte changes, and no word access is misaligned or out of bounds. *)
Theorem bcopy_copies (d s : Z) (l : list Z) (m : mem) :
  bytes l -> bytes_at m s l -> valid m d (Z.of_nat (length l)) ->
  Z.of_nat (length l) < 2 ^ 32 ->
  bcopy s d (Z.of_nat (length l)) m = Ok tt (mem_write d l m).
Proof. intros. by apply bcopy_ok. Qed.

Lemma bcopy_copies_witness :
  bcopy 101 103 9 (mem_write 100 (seqZ 1 14) ∅) =
  Ok tt (mem_write 103 (seqZ 2 9) (mem_write 100 (seqZ 1 14) ∅)).
Proof.
  apply (bcopy_copies 103 101 (seqZ 2 9)).
  - by_compute.
  - by_compute.
  - apply (valid_sub _ 100 14); [|lia|vm_compute; done].
    apply (bytes_at_valid _ 100 (seqZ 1 14)), bytes_at_write.
  - vm_compute. done.
Defined.

(** Memmove copies [n] bytes between ranges that may overlap, whether it
    goes through memcpy or through its own backward loop, and returns its
    first argument. *)
Theorem memmove_copies (d s : Z) (l : list Z) (m : mem) :
  bytes l -> bytes_at m s l -> valid m d (Z.of_nat (length l)) ->
  Z.of_nat (length l) < 2 ^ 32 ->
  memmove d s (Z.of_nat (length l)) m = Ok d (mem_write d l m).
Proof. intros. by apply memmove_ok. Qed.

Lemma memmove_copies_witness :
  memmove 103 101 35 (mem_write 100 (seqZ 1 40) ∅) =
  Ok 103 (mem_write 103 (seqZ 2 35) (mem_write 100 (seqZ 1 40) ∅)).
Proof.
  apply (memmove_copies 103 101 (seqZ 2 35)).
  - by_compute.
  - by_compute.
  - apply (valid_sub _ 100 40); [|lia|vm_compute; done].
    apply (bytes_at_valid _ 100 (seqZ 1 40)), bytes_at_write.
  - vm_compute. done.
Defined.

(** Memset fills exactly [n] bytes with the low byte of [c], with either
    byte order and any alignment of the destination. *)
Theorem memset_fills (be : bool) (d c : Z) (n : nat) (m : mem) :
  valid m d (Z.of_nat n) -> Z.of_nat n < 2 ^ 32 ->
  memset be d c (Z.of_nat n) m = Ok d (mem_write d (replicate n (u8 c)) m).
Proof. intros Hv Hn. by apply memset_ok. Qed.

Lemma memset_fills_witness :
  memset true 101 300 15 (mem_write 100 (seqZ 1 20) ∅) =
  Ok 101 (mem_write 101 (replicate 15 44) (mem_write 100 (seqZ 1 20) ∅)).
Proof.
  apply (memset_fills true 101 300 15).
  - apply (valid_sub _ 100 20); [|lia|vm_compute; done].
    apply (bytes_at_valid _ 100 (seqZ 1 20)), bytes_at_write.
  - vm_compute. done.
Defined.

(** the "Not So Naive" search of memmem finds the first occurrence of a
    non-empty needle, and returns NULL exactly when there is none. *)
Theorem memmem_first (y x : Z) (l needle : list Z) (m : mem) :
  bytes_at m y l -> bytes_at m x needle -> needle <> [] ->
  (length needle <= length l)%nat ->
  exists r, memmem y (Z.of_nat (length l)) x (Z.of_nat (length needle)) m = Ok r m /\
    ((exists i, (i + length needle <= length l)%nat /\ r = y + Z.of_nat i /\
                occurs_at needle l i /\
                forall i', (i' < i)%nat -> ~ occurs_at needle l i') \/
     (r = NULL /\ forall i, (i + length needle <= length l)%nat -> ~ occurs_at needle l i)).
Proof.
  intros Hl Hx Hne Hlen. destruct needle as [|x0 [|x1 xs]]; [done| |].
  - cbn [length] in *. change (Z.of_nat 1) with 1. eexists. split.
    { apply (memmem_single _ _ _ _ x0); [done|done|]. intros ->. simpl in Hlen. lia. }
    destruct (list_find _ l) as [[i c]|] eqn:Hf.
    + apply list_find_Some in Hf as (Hi & -> & Hmin). left. exists i.
      split; [apply lookup_lt_Some in Hi; lia|]. split; [done|].
      split; [by apply occurs_at_single|]. intros i' Hi' Ho%occurs_at_single.
      by apply (Hmin i' x0).
    + right. split; [done|]. intros i _ Ho%occurs_at_single.
      apply list_find_None in Hf. by apply (proj1 (Forall_lookup _ _) Hf i x0).
  - destruct (memmem_long m y x l xs x0 x1 Hl Hx Hlen) as (r & Hr & Hcase).
    exists r. split; [done|]. cbn [length] in *.
    destruct Hcase as [(i & Hi & Er & Ho & Hmin)|[Er Hnone]].
    + left. exists i. repeat split; [lia|done|done|done].
    + right. split; [done|]. intros i Hi. apply Hnone. lia.
Qed.

Lemma memmem_first_witness :
  exists r, memmem 100 6 200 3 (mem_write 200 [7; 7; 8] (mem_write 100 [7; 7; 7; 8; 7; 9] ∅))
            = Ok r (mem_write 200 [7; 7; 8] (mem_write 100 [7; 7; 7; 8; 7; 9] ∅)) /\
    ((exists i, (i + 3 <= 6)%nat /\ r = 100 + Z.of_nat i /\
                occurs_at [7; 7; 8] [7; 7; 7; 8; 7; 9] i /\
                forall i', (i' < i)%nat -> ~ occurs_at [7; 7; 8] [7; 7; 7; 8; 7; 9] i') \/
     (r = NULL /\ forall i, (i + 3 <= 6)%nat -> ~ occurs_at [7; 7; 8] [7; 7; 7; 8; 7; 9] i)).
Proof.
  apply (memmem_first 100 200 [7; 7; 7; 8; 7; 9] [7; 7; 8]).
  - by_compute.
  - by_compute.
  - done.
  - simpl. lia.
Defined.

(** Memcmp, with its four-fold unrolled loop, returns zero exactly for equal
    blocks and a negative number exactly when the first block comes first in
    the order of unsigned bytes. *)
Theorem memcmp_orders (s1 s2 : Z) (a b : list Z) (m : mem) :
  length a = length b -> bytes_at m s1 a -> bytes_at m s2 b ->
  exists r, memcmp s1 s2 (Z.of_nat (length a)) m = Ok r m /\
            (r = 0 <-> a = b) /\ (r < 0 <-> lex_lt a b).
Proof.
  intros Hl Ha Hb. exists (first_diff a b). split; [by apply memcmp_ok|].
  split; [by apply first_diff_0 | by apply first_diff_neg].
Qed.

Lemma memcmp_orders_witness :
  exists r, memcmp 100 200 3 (mem_write 200 [1; 2; 4] (mem_write 100 [1; 2; 200] ∅))
            = Ok r (mem_write 200 [1; 2; 4] (mem_write 100 [1; 2; 200] ∅)) /\
            (r = 0 <-> [1; 2; 200] = [1; 2; 4]) /\ (r < 0 <-> lex_lt [1; 2; 200] [1; 2; 4]).
Proof.
  apply (memcmp_orders 100 200 [1; 2; 200] [1; 2; 4]).
  - done.
  - by_compute.
  - by_compute.
Defined.

(** Memccpy copies the source up to and including the first [c], and
    nothing more.  It returns the address after that byte only when the byte is
    not the last one of the [n]; a [c] found in the last position is reported
    as NULL, like no [c] at all. *)
Theorem memccpy_copies `{CM : CharModel} (d s c : Z) (l : list Z) (m : mem) :
  bytes l -> bytes_at m s l -> valid m d (Z.of_nat (length l)) ->
  disjoint_ranges d (Z.of_nat (length l)) s (Z.of_nat (length l)) ->
  memccpy d s c (Z.of_nat (length l)) m =
  Ok (match list_find (fun b => char_of b = c) l with
      | Some (i, _) => if (S i <? length l)%nat then d + Z.of_nat (S i) else NULL
      | None => NULL
      end) (mem_write d (upto c l) m).
Proof.
  intros Hb Hs Hd Hdis. rewrite memccpy_ok by done. f_equal. unfold upto.
  destruct (list_find _ l) as [[i b]|] eqn:Hf.
  - apply list_find_Some in Hf as [Hi _]. apply lookup_lt_Some in Hi.
    rewrite length_take. by replace (S i `min` length l)%nat with (S i) by lia.
  - by rewrite Nat.ltb_irrefl.
Qed.

Lemma memccpy_copies_witness :
  memccpy (H := false) 300 100 9 3 (mem_write 300 [0; 0; 0] (mem_write 100 [7; 8; 9] ∅)) =
  Ok NULL (mem_write 300 [7; 8; 9] (mem_write 300 [0; 0; 0] (mem_write 100 [7; 8; 9] ∅))).
Proof.
  apply (memccpy_copies (CM := false) 300 100 9 [7; 8; 9]).
  - by_compute.
  - by_compute.
  - apply (bytes_at_valid _ 300 [0; 0; 0]), bytes_at_write.
  - by_compute.
Defined.
