(* ===== verification/CString.v ===== *)
(** * NUL-terminated strings: the str* routines of libc/string

    Programs over the byte memory of [CMem].  Each loop is bounded by the
    argument [fuel]; the theorems hold for every fuel larger than the strings
    involved, so the routines terminate on every terminated string.  Equality
    of two plain [char] values is equality of the bytes, whatever the
    signedness of [char], so the comparisons below are on bytes except where a
    [char] is compared with an [int] argument. *)

From Stdlib Require Import ZArith Lia.
From stdpp Require Import base gmap list numbers.
From S2P Require Import Prelude CMem Ctype MemBlock.

Open Scope Z_scope.
Open Scope cint_scope.

(** ** Length and copying *)

Definition strlen (fuel : nat) (str : Z) : M Z :=
  s ← loop fuel (fun s => c ← load s;
                   mret (if truthy c then inl (s + 1) else inr s)) str;
  mret (s - str).

Definition strnlen (str maxlen : Z) : M Z :=
  p ← memchr str 0 maxlen;
  mret (if p =? NULL then maxlen else p - str).

Definition strcpy (fuel : nat) (to from : Z) : M Z :=
  let save := to in
  loop fuel (fun '(to, from) =>
               c ← load from; store to c;;
               mret (if truthy c then inl (to + 1, from + 1) else inr save))
    (to, from).

Definition strcat (fuel : nat) (s append : Z) : M Z :=
  let save := s in
  s ← loop fuel (fun s => c ← load s;
                   mret (if truthy c then inl (s + 1) else inr s)) s;
  loop fuel (fun '(s, append) =>
               c ← load append; store s c;;
               mret (if truthy c then inl (s + 1, append + 1) else inr save))
    (s, append).

(** [while (--n != 0) *d++ = 0] *)
Definition zero_step (st : Z * Z) : M (Z * Z + unit) :=
  let '(d, n) := st in
  let n := u32 (n - 1) in
  if truthy n then store d 0;; mret (inl (d + 1, n)) else mret (inr tt).

(** The body of the do-while loop of strncpy.c: it leaves after padding with
    NULs at the end of the source, or when [n] reaches zero. *)
Definition strncpy_step (dst : Z) (st : Z * Z * Z) : M (Z * Z * Z + Z) :=
  let '(d, s, n) := st in
  c ← load s; store d c;;
  let d := d + 1 in
  let s := s + 1 in
  if c =? 0 then
    loop (Z.to_nat n) zero_step (d, n);;
    mret (inr dst)
  else
    let n := u32 (n - 1) in
    mret (if truthy n then inl (d, s, n) else inr dst).

Definition strncpy (dst src n : Z) : M Z :=
  if truthy n then loop (Z.to_nat n) (strncpy_step dst) (dst, src, n) else mret dst.

Definition strncat (fuel : nat) (dst src n : Z) : M Z :=
  if truthy n then
    d ← loop fuel (fun d => c ← load d;
                     mret (if truthy c then inl (d + 1) else inr d)) dst;
    d ← loop (Z.to_nat n)
          (fun '(d, s, n) =>
             c ← load s; store d c;;
             if c =? 0 then mret (inr d)
             else
               let d := d + 1 in
               let n := u32 (n - 1) in
               mret (if truthy n then inl (d, s + 1, n) else inr d))
          (d, src, n);
    store d 0;;
    mret dst
  else mret dst.

(** [while (--n != 0)] copying bytes up to the NUL. *)
Definition strlcpy_step (st : Z * Z * Z) : M (Z * Z * Z + Z * Z * Z) :=
  let '(d, s, n) := st in
  let n := u32 (n - 1) in
  if truthy n then
    c ← load s; store d c;;
    mret (if c =? 0 then inr (d + 1, s + 1, n) else inl (d + 1, s + 1, n))
  else mret (inr (d, s, n)).

(** A loop that leaves with the address after the NUL. *)
Definition past_nul_step (s : Z) : M (Z + Z) :=
  c ← load s; mret (if truthy c then inl (s + 1) else inr (s + 1)).

Definition strlcpy (fuel : nat) (dst src siz : Z) : M Z :=
  let n := siz in
  (* copy as many bytes as will fit *)
  '(d, s, n) ←
    (if truthy n then loop (Z.to_nat n) strlcpy_step (dst, src, n)
     else mret (dst, src, n));
  (* not enough room in dst, add NUL and traverse rest of src *)
  s ←
    (if n =? 0 then
       (if truthy siz then store d 0 else mret tt);;
       loop fuel past_nul_step s
     else mret s);
  mret (u32 (s - src - 1)).

(** [while (n-- != 0 && *d != 0) d++] *)
Definition strlcat_find (st : Z * Z) : M (Z * Z + Z) :=
  let '(d, n) := st in
  if truthy n then
    c ← load d;
    mret (if truthy c then inl (d + 1, u32 (n - 1)) else inr d)
  else mret (inr d).

(** The loop over [src]: a byte is stored unless only one place is left. *)
Definition strlcat_step (st : Z * Z * Z) : M (Z * Z * Z + Z * Z) :=
  let '(d, s, n) := st in
  c ← load s;
  if truthy c then
    if negb (n =? 1) then
      store d c;; mret (inl (d + 1, s + 1, u32 (n - 1)))
    else mret (inl (d, s + 1, n))
  else mret (inr (d, s)).

Definition strlcat (fuel : nat) (dst src siz : Z) : M Z :=
  (* find the end of dst and adjust bytes left but don't go past end *)
  d ← loop (S (Z.to_nat siz)) strlcat_find (dst, siz);
  let dlen := d - dst in
  let n := u32 (siz - dlen) in
  if n =? 0 then
    l ← strlen fuel src; mret (u32 (dlen + l))
  else
    '(d, s) ← loop fuel strlcat_step (d, src, n);
    store d 0;;
    mret (u32 (dlen + (s - src))).

(** ** Comparison *)

Definition strcmp (fuel : nat) (s1 s2 : Z) : M Z :=
  loop fuel (fun '(s1, s2) =>
               a ← load s1; b ← load s2;
               if a =? b then mret (if a =? 0 then inr 0 else inl (s1 + 1, s2 + 1))
               else mret (inr (a - b)))
    (s1, s2).

Definition strcoll (fuel : nat) (s1 s2 : Z) : M Z := strcmp fuel s1 s2.

Definition strncmp (s1 s2 n : Z) : M Z :=
  if n =? 0 then mret 0
  else
    loop (Z.to_nat n)
      (fun '(s1, s2, n) =>
         a ← load s1; b ← load s2;
         if negb (a =? b) then mret (inr (a - b))
         else if a =? 0 then mret (inr 0)
         else let n := u32 (n - 1) in
              mret (if truthy n then inl (s1 + 1, s2 + 1, n) else inr 0))
      (s1, s2, n).

Definition strcasecmp (fuel : nat) (s1 s2 : Z) : M Z :=
  loop fuel (fun '(us1, us2) =>
               a ← load us1; b ← load us2;
               if cm a =? cm b then mret (if a =? 0 then inr 0 else inl (us1 + 1, us2 + 1))
               else mret (inr (cm a - cm b)))
    (s1, s2).

Definition strncasecmp (s1 s2 n : Z) : M Z :=
  if truthy n then
    loop (Z.to_nat n)
      (fun '(us1, us2, n) =>
         a ← load us1; b ← load us2;
         if negb (cm a =? cm b) then mret (inr (cm a - cm b))
         else if a =? 0 then mret (inr 0)
         else let n := u32 (n - 1) in
              mret (if truthy n then inl (us1 + 1, us2 + 1, n) else inr 0))
      (s1, s2, n)
  else mret 0.

(** ** Searching *)

Section PlainCharSearch.
Context `{CharModel}.

(** strchr.c; index.c has the same body. *)
Definition strchr (fuel : nat) (p ch : Z) : M Z :=
  loop fuel (fun p =>
               c ← loadc p;
               mret (if c =? ch then inr p else if c =? 0 then inr NULL else inl (p + 1)))
    p.

Definition index (fuel : nat) (p ch : Z) : M Z := strchr fuel p ch.

Definition strrchr (fuel : nat) (p ch : Z) : M Z :=
  loop fuel (fun '(p, save) =>
               c ← loadc p;
               let save := if c =? ch then p else save in
               mret (if c =? 0 then inr save else inl (p + 1, save)))
    (p, NULL).
End PlainCharSearch.

(** The [for] loops over [spanp]: is the byte [c] one of the characters of the
    string [set]?  The loop stops at the NUL before comparing it. *)
Definition in_set (fuel : nat) (set c : Z) : M bool :=
  loop fuel (fun spanp =>
               sc ← load spanp;
               mret (if sc =? 0 then inr false
                     else if sc =? c then inr true else inl (spanp + 1)))
    set.

(** The [do] loops over [spanp]: the same question, with the terminating NUL
    of [set] compared too, so NUL counts as a member. *)
Definition in_set_nul (fuel : nat) (set c : Z) : M bool :=
  loop fuel (fun spanp =>
               sc ← load spanp;
               mret (if sc =? c then inr true
                     else if sc =? 0 then inr false else inl (spanp + 1)))
    set.

Definition strspn_step (fuel : nat) (s1 s2 : Z) (p : Z) : M (Z + Z) :=
  c ← load p;
  b ← in_set fuel s2 c;
  mret (if b : bool then inl (p + 1) else inr (p - s1)).

Definition strspn (fuel : nat) (s1 s2 : Z) : M Z := loop fuel (strspn_step fuel s1 s2) s1.

Definition strcspn_step (fuel : nat) (s1 s2 : Z) (p : Z) : M (Z + Z) :=
  c ← load p;
  b ← in_set_nul fuel s2 c;
  mret (if b : bool then inr (p - s1) else inl (p + 1)).

Definition strcspn (fuel : nat) (s1 s2 : Z) : M Z := loop fuel (strcspn_step fuel s1 s2) s1.

Definition strpbrk (fuel : nat) (s1 s2 : Z) : M Z :=
  loop fuel (fun s1 =>
               c ← load s1;
               if truthy c then
                 b ← in_set fuel s2 c;
                 mret (if b : bool then inr s1 else inl (s1 + 1))
               else mret (inr NULL))
    s1.

(** strstr.c and strcasestr.c have the same text but for the case folding of
    the first character and the comparison that is called. *)
Section Search.
Context (fold : Z -> Z) (ncmp : Z -> Z -> Z -> M Z).

(** The inner loop: leave after the next [c] of [s], or with NULL at the end. *)
Definition next_char_step (c : Z) (s : Z) : M (Z + Z) :=
  sc ← load s;
  mret (if sc =? 0 then inr NULL
        else if fold sc =? c then inr (s + 1) else inl (s + 1)).

(** The outer loop: the rest of [find] is compared after each such [c]. *)
Definition search_step (fuel : nat) (c find len : Z) (s : Z) : M (Z + Z) :=
  s ← loop fuel (next_char_step c) s;
  if s =? NULL then mret (inr NULL)
  else d ← ncmp s find len;
       mret (if d =? 0 then inr (s - 1) else inl s).

Definition search (fuel : nat) (s find : Z) : M Z :=
  c ← load find;
  let find := find + 1 in
  if truthy c then
    let c := fold c in
    len ← strlen fuel find;
    loop fuel (search_step fuel c find len) s
  else mret s.
End Search.

Definition strstr (fuel : nat) (s find : Z) : M Z := search (fun c => c) strncmp fuel s find.

Definition strcasestr (fuel : nat) (s find : Z) : M Z := search tolower strncasecmp fuel s find.

(** ** Tokens *)

(** The scan for the end of a token, common to strsep.c and strtok.c: the
    byte that ends it is overwritten by NUL.  The result is the address after
    it, or NULL when the token is ended by the end of the string. *)
Definition scan_step (fuel : nat) (delim : Z) (s : Z) : M (Z + Z) :=
  c ← load s;
  let s := s + 1 in
  b ← in_set_nul fuel delim c;
  if b : bool then
    if c =? 0 then mret (inr NULL)
    else store (s - 1) 0;; mret (inr s)
  else mret (inl s).

Definition scan_token (fuel : nat) (s delim : Z) : M Z := loop fuel (scan_step fuel delim) s.

(** The result and the new value of [*stringp]. *)
Definition strsep (fuel : nat) (stringp delim : Z) : M (Z * Z) :=
  let s := stringp in
  if s =? NULL then mret (NULL, stringp)
  else
    let tok := s in
    s ← scan_token fuel s delim;
    mret (tok, s).

(** Skip (span) leading delimiters: leave after the first other character,
    with that character. *)
Definition skip_step (fuel : nat) (delim : Z) (s : Z) : M (Z + Z * Z) :=
  c ← load s;
  let s := s + 1 in
  b ← in_set fuel delim c;
  mret (if b : bool then inl s else inr (s, c)).

(** The result and the new value of [*last]. *)
Definition strtok_r (fuel : nat) (s delim last : Z) : M (Z * Z) :=
  let s := if s =? NULL then last else s in
  if s =? NULL then mret (NULL, last)
  else
    '(s, c) ← loop fuel (skip_step fuel delim) s;
    if c =? 0 then mret (NULL, NULL)
    else
      let tok := s - 1 in
      s ← scan_token fuel s delim;
      mret (tok, s).

(** strtok keeps [last] in a static variable. *)
Definition strtok (fuel : nat) (last s delim : Z) : M (Z * Z) := strtok_r fuel s delim last.

(** ** Scanning lemmas *)

Lemma char_truthy c : is_char c -> truthy c = true.
Proof. unfold is_char. intros. apply truthy_ne. lia. Qed.

Lemma char_eqb0 c : is_char c -> (c =? 0) = false.
Proof. unfold is_char. intros. apply Z.eqb_neq. lia. Qed.

Lemma char_u8 c : is_char c -> u8 c = c.
Proof. unfold is_char. intros. apply u8_small. lia. Qed.

(** Finding the end of a string. *)
Lemma scan_end fuel m a s :
  cstr m a s -> (length s < fuel)%nat ->
  loop fuel (fun s => c ← load s; mret (if truthy c then inl (s + 1) else inr s)) a m =
  Ok (a + Z.of_nat (length s)) m.
Proof.
  revert a s. induction fuel as [|fuel IH]; intros a [|c s] H Hf; simpl in Hf; try lia.
  - apply loop_exit. apply cstr_nil in H.
    erewrite bind_ok by by apply load_ok. simpl. by rewrite Z.add_0_r.
  - apply cstr_cons in H as (Hc & Hch & H). erewrite loop_continue; cycle 1.
    { erewrite bind_ok by by apply load_ok. rewrite char_truthy by done. reflexivity. }
    rewrite (IH _ s) by (done || lia). f_equal. simpl length. lia.
Qed.

Lemma strlen_ok fuel m a s :
  cstr m a s -> (length s < fuel)%nat -> strlen fuel a m = Ok (Z.of_nat (length s)) m.
Proof.
  intros H Hf. unfold strlen. rewrite (bind_ok _ _ _ _ _ (scan_end fuel m a s H Hf)).
  unfold mret, M_ret. f_equal. lia.
Qed.

Lemma cstr_insert m p b a s :
  p < a \/ a + Z.of_nat (length s) < p -> cstr m a s -> cstr (<[p := b]> m) a s.
Proof.
  intros Hp [H1 H2]. split; [|done]. apply bytes_at_insert; [|done].
  rewrite length_app. simpl. lia.
Qed.

(** Copying up to and including the NUL. *)
Lemma copy_string fuel m d a s (r : Z) :
  cstr m a s -> (length s < fuel)%nat -> valid m d (Z.of_nat (length s) + 1) ->
  disjoint_ranges d (Z.of_nat (length s) + 1) a (Z.of_nat (length s) + 1) ->
  loop fuel (fun '(to, from) =>
               c ← load from; store to c;;
               mret (if truthy c then inl (to + 1, from + 1) else inr r)) (d, a) m =
  Ok r (mem_write d (s ++ [0]) m).
Proof.
  revert m d a s. induction fuel as [|fuel IH]; intros m d a [|c s] H Hf Hd Hdis;
    simpl in Hf; try lia; unfold disjoint_ranges in *; simpl length in *.
  - apply loop_exit. apply cstr_nil in H. erewrite bind_ok by by apply load_ok.
    by erewrite bind_ok by (apply store_ok; eapply valid_head; [done|lia]).
  - apply cstr_cons in H as (Hc & Hch & H). erewrite loop_continue; cycle 1.
    { erewrite bind_ok by by apply load_ok.
      erewrite bind_ok by (apply store_ok; eapply valid_head; [done|lia]).
      rewrite char_truthy, char_u8 by done. reflexivity. }
    rewrite (IH _ _ _ s); [done| |lia| |lia].
    + apply cstr_insert; [lia|done].
    + apply valid_insert, (valid_sub _ d (Z.of_nat (S (length s)) + 1)); [done|lia|lia].
Qed.

Lemma strcpy_ok fuel m d a s :
  cstr m a s -> (length s < fuel)%nat -> valid m d (Z.of_nat (length s) + 1) ->
  disjoint_ranges d (Z.of_nat (length s) + 1) a (Z.of_nat (length s) + 1) ->
  strcpy fuel d a m = Ok d (mem_write d (s ++ [0]) m).
Proof. intros. by apply copy_string. Qed.

Lemma strcat_ok fuel m d a s0 s :
  cstr m d s0 -> cstr m a s -> (length s0 < fuel)%nat -> (length s < fuel)%nat ->
  valid m d (Z.of_nat (length s0 + length s) + 1) ->
  disjoint_ranges d (Z.of_nat (length s0 + length s) + 1) a (Z.of_nat (length s) + 1) ->
  strcat fuel d a m = Ok d (mem_write (d + Z.of_nat (length s0)) (s ++ [0]) m).
Proof.
  intros H0 H Hf0 Hf Hd Hdis. unfold strcat.
  rewrite (bind_ok _ _ _ _ _ (scan_end fuel m d s0 H0 Hf0)).
  apply copy_string; [done|done| |unfold disjoint_ranges in *; lia].
  eapply valid_sub; [done|lia|lia].
Qed.

(** ** strncpy *)

Lemma zero_fill fuel m d n :
  (n < fuel)%nat -> Z.of_nat n < 2 ^ 32 - 1 -> valid m d (Z.of_nat n) ->
  loop fuel zero_step
    (d, Z.of_nat (S n)) m = Ok tt (mem_write d (replicate n 0) m).
Proof.
  revert m d n. induction fuel as [|fuel IH]; intros m d n Hf Hn Hv; [lia|].
  assert (Hu : u32 (Z.of_nat (S n) - 1) = Z.of_nat n) by (rewrite u32_small; lia).
  destruct n as [|n].
  - by apply loop_exit.
  - erewrite loop_continue; cycle 1.
    { unfold zero_step. rewrite Hu, truthy_pos by lia.
      erewrite bind_ok by (apply store_ok; eapply valid_head; [done|lia]). reflexivity. }
    rewrite IH; [done|lia|lia|].
    apply valid_insert, (valid_sub _ d (Z.of_nat (S n))); [done|lia|lia].
Qed.

Lemma strncpy_loop fuel m d0 d a s n :
  cstr m a s -> (0 < n <= fuel)%nat -> Z.of_nat n < 2 ^ 32 -> valid m d (Z.of_nat n) ->
  disjoint_ranges d (Z.of_nat n) a (Z.of_nat (length s) + 1) ->
  loop fuel (strncpy_step d0)
    (d, a, Z.of_nat n) m =
  Ok d0 (mem_write d (take n s ++ replicate (n - length s) 0) m).
Proof.
  revert m d a s n. induction fuel as [|fuel IH]; intros m d a s n H Hf Hn Hd Hdis; [lia|].
  unfold disjoint_ranges in *. destruct n as [|n]; [lia|].
  assert (Hu : u32 (Z.of_nat (S n) - 1) = Z.of_nat n) by (rewrite u32_small; lia).
  assert (Hd0 : is_Some (m !! d)) by (eapply valid_head; [done|lia]).
  assert (Hd' : forall b, valid (<[d := b]> m) (d + 1) (Z.of_nat n)).
  { intros b. apply valid_insert, (valid_sub _ d (Z.of_nat (S n))); [done|lia|lia]. }
  destruct s as [|c s].
  - apply cstr_nil in H. apply loop_exit. unfold strncpy_step. erewrite bind_ok by by apply load_ok.
    erewrite bind_ok by by apply store_ok. cbv zeta. rewrite Z.eqb_refl.
    erewrite bind_ok by (apply zero_fill; [lia|lia|apply Hd']).
    done.
  - apply cstr_cons in H as (Hc & Hch & H). simpl length in *.
    destruct n as [|n].
    + apply loop_exit. unfold strncpy_step. erewrite bind_ok by by apply load_ok.
      erewrite bind_ok by by apply store_ok. cbv zeta. rewrite Hu, char_eqb0 by done.
      by rewrite char_u8 by done.
    + erewrite loop_continue; cycle 1.
      { unfold strncpy_step. erewrite bind_ok by by apply load_ok.
        erewrite bind_ok by by apply store_ok. cbv zeta. rewrite Hu, char_eqb0 by done. rewrite char_u8 by done.
        rewrite truthy_pos by lia. reflexivity. }
      rewrite (IH _ _ _ s); [|apply cstr_insert; [lia|done]|lia|lia|apply Hd'|lia].
      done.
Qed.

Lemma strncpy_ok m d a s n :
  cstr m a s -> Z.of_nat n < 2 ^ 32 -> valid m d (Z.of_nat n) ->
  disjoint_ranges d (Z.of_nat n) a (Z.of_nat (length s) + 1) ->
  strncpy d a (Z.of_nat n) m =
  Ok d (mem_write d (take n s ++ replicate (n - length s) 0) m).
Proof.
  intros H Hn Hd Hdis. unfold strncpy. destruct n as [|n]; [done|].
  rewrite truthy_pos, Nat2Z.id by lia. apply strncpy_loop; try done. lia.
Qed.

(** ** strlcpy *)

Lemma past_nul fuel m a s :
  cstr m a s -> (length s < fuel)%nat ->
  loop fuel past_nul_step a m = Ok (a + Z.of_nat (length s) + 1) m.
Proof.
  revert a s. induction fuel as [|fuel IH]; intros a [|c s] H Hf; simpl in Hf; try lia.
  - apply loop_exit. apply cstr_nil in H. unfold past_nul_step.
    erewrite bind_ok by by apply load_ok. simpl. by rewrite Z.add_0_r.
  - apply cstr_cons in H as (Hc & Hch & H). erewrite loop_continue; cycle 1.
    { unfold past_nul_step. erewrite bind_ok by by apply load_ok.
      rewrite char_truthy by done. reflexivity. }
    rewrite (IH _ s) by (done || lia). f_equal. simpl length. lia.
Qed.

(** The copying loop, with room for [k] bytes before the last one. *)
Lemma strlcpy_copy fuel m d a s k :
  cstr m a s -> (k < fuel)%nat -> Z.of_nat k < 2 ^ 32 - 1 ->
  valid m d (Z.of_nat k) ->
  disjoint_ranges d (Z.of_nat k) a (Z.of_nat (length s) + 1) ->
  loop fuel strlcpy_step (d, a, Z.of_nat (S k)) m =
  if (length s <? k)%nat
  then Ok (d + Z.of_nat (length s) + 1, a + Z.of_nat (length s) + 1,
           Z.of_nat (k - length s)) (mem_write d (s ++ [0]) m)
  else Ok (d + Z.of_nat k, a + Z.of_nat k, 0) (mem_write d (take k s) m).
Proof.
  revert m d a s k. induction fuel as [|fuel IH]; intros m d a s k H Hf Hk Hd Hdis; [lia|].
  unfold disjoint_ranges in *.
  assert (Hu : u32 (Z.of_nat (S k) - 1) = Z.of_nat k) by (rewrite u32_small; lia).
  destruct k as [|k].
  { simpl Nat.ltb. cbv iota. apply loop_exit. unfold strlcpy_step. rewrite Hu. simpl.
    by rewrite !Z.add_0_r. }
  assert (Hd0 : is_Some (m !! d)) by (eapply valid_head; [done|lia]).
  destruct s as [|c s].
  - apply cstr_nil in H. simpl Nat.ltb. cbv iota. apply loop_exit.
    unfold strlcpy_step. rewrite Hu, truthy_pos by lia.
    erewrite bind_ok by by apply load_ok. erewrite bind_ok by by apply store_ok.
    simpl length. rewrite !Z.add_0_r, Nat.sub_0_r. done.
  - apply cstr_cons in H as (Hc & Hch & H). simpl length in *.
    erewrite loop_continue; cycle 1.
    { unfold strlcpy_step. rewrite Hu, truthy_pos by lia.
      erewrite bind_ok by by apply load_ok. erewrite bind_ok by by apply store_ok.
      rewrite char_eqb0, char_u8 by done. reflexivity. }
    rewrite (IH _ _ _ s); [|apply cstr_insert; [lia|done]|lia|lia| |lia]; cycle 1.
    { apply valid_insert, (valid_sub _ d (Z.of_nat (S k))); [done|lia|lia]. }
    change (S (length s) <? S k)%nat with (length s <? k)%nat.
    destruct (length s <? k)%nat.
    + simpl. repeat (f_equal; try lia).
    + simpl take. repeat (f_equal; try lia).
Qed.

Lemma strlcpy_ok fuel m d a s siz :
  cstr m a s -> (length s < fuel)%nat -> Z.of_nat (length s) < 2 ^ 32 ->
  Z.of_nat siz < 2 ^ 32 -> valid m d (Z.of_nat siz) ->
  disjoint_ranges d (Z.of_nat siz) a (Z.of_nat (length s) + 1) ->
  strlcpy fuel d a (Z.of_nat siz) m =
  Ok (Z.of_nat (length s))
     (if (siz =? 0)%nat then m else mem_write d (take (siz - 1) s ++ [0]) m).
Proof.
  intros H Hf Hlen Hsiz Hd Hdis. unfold strlcpy. destruct siz as [|k].
  - simpl truthy. cbv iota. erewrite bind_ok by done.
    change (Z.of_nat 0 =? 0) with true. cbv beta iota zeta.
    erewrite bind_ok by by apply (past_nul fuel m a s).
    unfold mret, M_ret. rewrite u32_small by lia. f_equal. lia.
  - rewrite truthy_pos, Nat2Z.id by lia. simpl (S k - 1)%nat. rewrite Nat.sub_0_r.
    simpl (S k =? 0)%nat. cbv iota. unfold disjoint_ranges in *.
    pose proof (strlcpy_copy (S k) m d a s k H ltac:(lia) ltac:(lia)
                  ltac:(eapply valid_sub; [done|lia|lia])
                  ltac:(unfold disjoint_ranges; lia)) as Hc.
    destruct (Nat.ltb_spec (length s) k) as [Hk|Hk].
    + rewrite (bind_ok _ _ _ _ _ Hc). rewrite (proj2 (Z.eqb_neq _ _)) by lia.
      erewrite bind_ok by done. unfold mret, M_ret. rewrite u32_small by lia.
      rewrite take_ge by lia. f_equal. lia.
    + rewrite (bind_ok _ _ _ _ _ Hc). rewrite Z.eqb_refl.
      assert (Hw : mem_write d (take k s ++ [0]) m =
                   <[d + Z.of_nat k := 0]> (mem_write d (take k s) m)).
      { rewrite mem_write_app, length_take. simpl. by rewrite Nat.min_l by lia. }
      assert (Hs : cstr (<[d + Z.of_nat k := 0]> (mem_write d (take k s) m))
                     (a + Z.of_nat k) (drop k s)).
      { apply cstr_drop; [done|]. rewrite <- Hw. destruct H as [H1 H2].
        split; [|done]. apply bytes_at_write_disjoint; [|done].
        unfold disjoint_ranges. rewrite !length_app, length_take. simpl. lia. }
      erewrite bind_ok; cycle 1.
      { erewrite bind_ok; cycle 1.
        { apply store_ok, (valid_write _ d (Z.of_nat (S k))); [done | lia]. }
        apply (past_nul fuel _ _ (drop k s) Hs). rewrite length_drop. lia. }
      unfold mret, M_ret. rewrite length_drop, u32_small by lia. rewrite Hw. f_equal. lia.
Qed.

(** ** strlcat *)

Lemma strlcat_find_end fuel m d s n :
  cstr m d s -> (n < fuel)%nat -> Z.of_nat n < 2 ^ 32 ->
  loop fuel strlcat_find (d, Z.of_nat n) m = Ok (d + Z.of_nat (length s `min` n)) m.
Proof.
  revert d s n. induction fuel as [|fuel IH]; intros d s n H Hf Hn; [lia|].
  destruct n as [|n].
  { apply loop_exit. rewrite Nat.min_0_r, Z.add_0_r. done. }
  assert (Hu : u32 (Z.of_nat (S n) - 1) = Z.of_nat n) by (rewrite u32_small; lia).
  destruct s as [|c s].
  - apply cstr_nil in H. apply loop_exit. unfold strlcat_find. rewrite truthy_pos by lia.
    erewrite bind_ok by by apply load_ok. simpl. by rewrite Z.add_0_r.
  - apply cstr_cons in H as (Hc & Hch & H). erewrite loop_continue; cycle 1.
    { unfold strlcat_find. rewrite truthy_pos by lia. erewrite bind_ok by by apply load_ok.
      rewrite char_truthy, Hu by done. reflexivity. }
    rewrite (IH _ s) by (done || lia). f_equal. simpl length. lia.
Qed.

(** The appending loop, with room for [k] bytes before the last one. *)
Lemma strlcat_append fuel m d a s k :
  cstr m a s -> (length s < fuel)%nat -> Z.of_nat k < 2 ^ 32 - 1 ->
  valid m d (Z.of_nat k) ->
  disjoint_ranges d (Z.of_nat k) a (Z.of_nat (length s) + 1) ->
  loop fuel strlcat_step (d, a, Z.of_nat (S k)) m =
  Ok (d + Z.of_nat (length s `min` k), a + Z.of_nat (length s)) (mem_write d (take k s) m).
Proof.
  revert m d a s k. induction fuel as [|fuel IH]; intros m d a s k H Hf Hk Hd Hdis; [lia|].
  unfold disjoint_ranges in *. destruct s as [|c s].
  { apply cstr_nil in H. apply loop_exit. unfold strlcat_step.
    erewrite bind_ok by by apply load_ok. simpl. by rewrite take_nil, !Z.add_0_r. }
  apply cstr_cons in H as (Hc & Hch & H). simpl length in *.
  destruct k as [|k].
  - erewrite loop_continue; cycle 1.
    { unfold strlcat_step. erewrite bind_ok by by apply load_ok.
      rewrite char_truthy by done. reflexivity. }
    rewrite (IH _ _ _ s) by (try done; lia). rewrite take_0, !Nat.min_0_r. f_equal. f_equal. lia.
  - assert (Hu : u32 (Z.of_nat (S (S k)) - 1) = Z.of_nat (S k)) by (rewrite u32_small; lia).
    erewrite loop_continue; cycle 1.
    { unfold strlcat_step. erewrite bind_ok by by apply load_ok.
      rewrite char_truthy, (proj2 (Z.eqb_neq (Z.of_nat (S (S k))) 1)), Hu by (done || lia).
      cbn [negb]. cbv iota zeta.
      erewrite bind_ok by (apply store_ok; eapply valid_head; [done|lia]).
      rewrite char_u8 by done. reflexivity. }
    rewrite (IH _ _ _ s); [|apply cstr_insert; [lia|done]|lia|lia| |lia].
    + simpl. f_equal. f_equal; lia.
    + apply valid_insert, (valid_sub _ d (Z.of_nat (S k))); [done|lia|lia].
Qed.

Lemma strlcat_ok fuel m d a s0 s siz :
  cstr m d s0 -> cstr m a s -> (length s < fuel)%nat ->
  Z.of_nat (length s0 + length s) < 2 ^ 32 -> Z.of_nat siz < 2 ^ 32 ->
  valid m d (Z.of_nat siz) ->
  disjoint_ranges d (Z.of_nat siz) a (Z.of_nat (length s) + 1) ->
  strlcat fuel d a (Z.of_nat siz) m =
  Ok (Z.of_nat (siz `min` length s0 + length s))
     (if (length s0 <? siz)%nat
      then mem_write (d + Z.of_nat (length s0)) (take (siz - 1 - length s0) s ++ [0]) m
      else m).
Proof.
  intros H0 H Hf Hlen Hsiz Hd Hdis. unfold strlcat, disjoint_ranges in *. rewrite Nat2Z.id.
  rewrite (bind_ok _ _ _ _ _ (strlcat_find_end (S siz) m d s0 siz H0 ltac:(lia) Hsiz)).
  cbv zeta. rewrite (u32_small (Z.of_nat siz - _)) by lia.
  destruct (Nat.ltb_spec (length s0) siz) as [Hlt|Hge].
  - rewrite (proj2 (Z.eqb_neq _ _)) by lia.
    pose (k := (siz - 1 - length s0)%nat).
    replace (Z.of_nat siz - _) with (Z.of_nat (S k)) by (unfold k; lia).
    rewrite Nat.min_l by lia.
    erewrite bind_ok; cycle 1.
    { apply (strlcat_append fuel m _ a s k); [done|done|lia| |unfold disjoint_ranges; lia].
      eapply valid_sub; [done|lia|lia]. }
    cbv beta iota. erewrite bind_ok; cycle 1.
    { apply store_ok.
      rewrite <- Z.add_assoc, <- Nat2Z.inj_add.
      apply (valid_write _ d (Z.of_nat siz)); [done|lia]. }
    unfold mret, M_ret. rewrite u32_small by lia. fold k. f_equal; [lia|].
    rewrite mem_write_app, length_take. simpl. by rewrite (Nat.min_comm k).
  - rewrite Nat.min_r by lia. rewrite (proj2 (Z.eqb_eq _ _)) by lia.
    rewrite (bind_ok _ _ _ _ _ (strlen_ok fuel m a s H Hf)).
    unfold mret, M_ret. rewrite u32_small by lia. f_equal. lia.
Qed.

(** ** Comparison *)

(** The comparison loops, over bytes seen through a map [f] that keeps NUL
    apart: the identity for strcmp, the case map for strcasecmp. *)
Section Compare.
Context (f : Z -> Z) (Hf0 : forall c, is_char c -> f c <> f 0).

Definition cmp_step (st : Z * Z) : M (Z * Z + Z) :=
  let '(s1, s2) := st in
  a ← load s1; b ← load s2;
  if f a =? f b then mret (if a =? 0 then inr 0 else inl (s1 + 1, s2 + 1))
  else mret (inr (f a - f b)).

Definition ncmp_step (st : Z * Z * Z) : M (Z * Z * Z + Z) :=
  let '(s1, s2, n) := st in
  a ← load s1; b ← load s2;
  if negb (f a =? f b) then mret (inr (f a - f b))
  else if a =? 0 then mret (inr 0)
  else let n := u32 (n - 1) in
       mret (if truthy n then inl (s1 + 1, s2 + 1, n) else inr 0).

Definition cdiff (a b : list Z) : Z := first_diff (f <$> a ++ [0]) (f <$> b ++ [0]).
Definition ncdiff (n : nat) (a b : list Z) : Z :=
  first_diff (f <$> take n (a ++ [0])) (f <$> take n (b ++ [0])).

(** The first bytes of two terminated strings. *)
Lemma cstr_uncons m p s :
  cstr m p s -> exists c, m !! p = Some c /\ hd 0 (s ++ [0]) = c /\
                (c = 0 /\ s = [] \/ is_char c /\ exists s', s = c :: s' /\ cstr m (p + 1) s').
Proof.
  destruct s as [|c s]; intros H.
  - apply cstr_nil in H. exists 0. auto.
  - apply cstr_cons in H as (H1 & H2 & H3). exists c. eauto 10.
Qed.

Lemma cmp_ok fuel m p q a b :
  cstr m p a -> cstr m q b -> (length a < fuel)%nat ->
  loop fuel cmp_step (p, q) m = Ok (cdiff a b) m.
Proof.
  revert p q a b. induction fuel as [|fuel IH]; intros p q a b Ha Hb Hl; [lia|].
  unfold cdiff.
  destruct (cstr_uncons _ _ _ Ha) as (x & Hx & _ & Hxa).
  destruct (cstr_uncons _ _ _ Hb) as (y & Hy & _ & Hyb).
  destruct Hxa as [[-> ->]|(Hcx & a' & -> & Ha')], Hyb as [[-> ->]|(Hcy & b' & -> & Hb')];
    simpl in Hl; cbn [app]; rewrite ?fmap_cons; cbn [first_diff].
  - rewrite Z.eqb_refl. apply loop_exit. unfold cmp_step. mload. mload.
    by rewrite !Z.eqb_refl.
  - rewrite (proj2 (Z.eqb_neq _ _)) by (intros E; by apply (Hf0 y Hcy)).
    apply loop_exit. unfold cmp_step. mload. mload.
    by rewrite (proj2 (Z.eqb_neq _ _)) by (intros E; by apply (Hf0 y Hcy)).
  - rewrite (proj2 (Z.eqb_neq _ _)) by (by apply Hf0).
    apply loop_exit. unfold cmp_step. mload. mload.
    by rewrite (proj2 (Z.eqb_neq _ _)) by (by apply Hf0).
  - destruct (Z.eqb_spec (f x) (f y)) as [E|E].
    + erewrite loop_continue; cycle 1.
      { unfold cmp_step. mload. mload. rewrite E, Z.eqb_refl, char_eqb0 by done. done. }
      apply (IH _ _ a' b'); [done|done|lia].
    + apply loop_exit. unfold cmp_step. mload. mload.
      by rewrite (proj2 (Z.eqb_neq _ _)) by done.
Qed.

Lemma ncmp_ok fuel m p q a b n :
  cstr m p a -> cstr m q b -> (n <= fuel)%nat -> (0 < n)%nat -> Z.of_nat n < 2 ^ 32 ->
  loop fuel ncmp_step (p, q, Z.of_nat n) m = Ok (ncdiff n a b) m.
Proof.
  revert p q a b n. induction fuel as [|fuel IH]; intros p q a b n Ha Hb Hl Hn Hn2; [lia|].
  unfold ncdiff. destruct n as [|n]; [lia|].
  assert (Hu : u32 (Z.of_nat (S n) - 1) = Z.of_nat n) by (rewrite u32_small; lia).
  destruct (cstr_uncons _ _ _ Ha) as (x & Hx & _ & Hxa).
  destruct (cstr_uncons _ _ _ Hb) as (y & Hy & _ & Hyb).
  destruct Hxa as [[-> ->]|(Hcx & a' & -> & Ha')], Hyb as [[-> ->]|(Hcy & b' & -> & Hb')];
    cbn [app take]; rewrite ?fmap_cons; cbn [first_diff].
  - rewrite Z.eqb_refl, take_nil. apply loop_exit. unfold ncmp_step. mload. mload.
    by rewrite !Z.eqb_refl.
  - rewrite (proj2 (Z.eqb_neq _ _)) by (intros E; by apply (Hf0 y Hcy)).
    apply loop_exit. unfold ncmp_step. mload. mload.
    by rewrite (proj2 (Z.eqb_neq _ _)) by (intros E; by apply (Hf0 y Hcy)).
  - rewrite (proj2 (Z.eqb_neq _ _)) by (by apply Hf0).
    apply loop_exit. unfold ncmp_step. mload. mload.
    by rewrite (proj2 (Z.eqb_neq _ _)) by (by apply Hf0).
  - destruct (Z.eqb_spec (f x) (f y)) as [E|E].
    + destruct n as [|n].
      * apply loop_exit. unfold ncmp_step. mload. mload.
        rewrite E, Z.eqb_refl, char_eqb0, Hu by done. done.
      * erewrite loop_continue; cycle 1.
        { unfold ncmp_step. mload. mload.
          rewrite E, Z.eqb_refl, char_eqb0, Hu, truthy_pos by (done || lia). done. }
        apply (IH _ _ a' b' (S n)); [done|done|lia|lia|lia].
    + apply loop_exit. unfold ncmp_step. mload. mload.
      by rewrite (proj2 (Z.eqb_neq _ _)) by done.
Qed.

Lemma cdiff_0 a b :
  Forall is_char a -> Forall is_char b -> cdiff a b = 0 <-> f <$> a = f <$> b.
Proof.
  unfold cdiff. intros Ha. revert b. induction Ha as [|x a Hx Ha IH]; intros b Hb;
    destruct Hb as [|y b Hy Hb]; simpl.
  - by rewrite Z.eqb_refl.
  - rewrite (proj2 (Z.eqb_neq _ _)) by (intros E; by apply (Hf0 y Hy)).
    pose proof (Hf0 y Hy). split; [lia | done].
  - rewrite (proj2 (Z.eqb_neq _ _)) by (by apply Hf0).
    pose proof (Hf0 x Hx). split; [lia | done].
  - destruct (Z.eqb_spec (f x) (f y)) as [E|E].
    + rewrite IH by done. split; [intros H; f_equal; [exact E | exact H] | intros H; by injection H].
    + split; [lia | by inversion 1].
Qed.

Lemma ncdiff_0 n a b :
  Forall is_char a -> Forall is_char b ->
  ncdiff n a b = 0 <-> f <$> take n a = f <$> take n b.
Proof.
  unfold ncdiff. intros Ha. revert n b. induction Ha as [|x a Hx Ha IH]; intros n b Hb;
    (destruct n as [|n]; [done|]); destruct Hb as [|y b Hy Hb]; simpl.
  - by rewrite Z.eqb_refl, take_nil.
  - rewrite (proj2 (Z.eqb_neq _ _)) by (intros E; by apply (Hf0 y Hy)).
    pose proof (Hf0 y Hy). split; [lia | done].
  - rewrite (proj2 (Z.eqb_neq _ _)) by (by apply Hf0).
    pose proof (Hf0 x Hx). split; [lia | done].
  - destruct (Z.eqb_spec (f x) (f y)) as [E|E].
    + rewrite IH by done. split; [intros H; f_equal; [exact E | exact H] | intros H; by injection H].
    + split; [lia | by inversion 1].
Qed.
End Compare.

(** The dictionary order on strings of unsigned characters. *)
Inductive str_lt : list Z -> list Z -> Prop :=
| str_lt_nil c s : str_lt [] (c :: s)
| str_lt_here x y a b : x < y -> str_lt (x :: a) (y :: b)
| str_lt_next x a b : str_lt a b -> str_lt (x :: a) (x :: b).

Lemma cdiff_neg (a b : list Z) :
  Forall is_char a -> Forall is_char b -> cdiff (fun c => c) a b < 0 <-> str_lt a b.
Proof.
  unfold cdiff. intros Ha. revert b. induction Ha as [|x a Hx Ha IH]; intros b Hb;
    destruct Hb as [|y b Hy Hb]; cbn [app]; rewrite ?fmap_cons; cbn [first_diff];
    unfold is_char in *.
  - rewrite Z.eqb_refl. split; [simpl; lia | by inversion 1].
  - rewrite (proj2 (Z.eqb_neq _ _)) by lia. split; [constructor | lia].
  - rewrite (proj2 (Z.eqb_neq _ _)) by lia. split; [lia | by inversion 1].
  - destruct (Z.eqb_spec x y) as [->|E].
    + rewrite IH by done. split; [by constructor | inversion 1; [lia | done]].
    + split; [intros; constructor; lia | inversion 1; lia].
Qed.

Lemma id_nul c : is_char c -> (fun c : Z => c) c <> (fun c : Z => c) 0.
Proof. unfold is_char. lia. Qed.

Lemma cm_nul c : is_char c -> cm c <> cm 0.
Proof.
  unfold is_char. intros Hc. assert (Hb : 0 <= c < 256) by lia. revert Hc. 
  rewrite (cm_tolower c), tolower_ascii by lia. change (cm 0) with 0.
  destruct (_ && _); lia.
Qed.

Lemma strcmp_ok fuel m p q a b :
  cstr m p a -> cstr m q b -> (length a < fuel)%nat ->
  strcmp fuel p q m = Ok (cdiff (fun c => c) a b) m.
Proof. intros. by apply (cmp_ok (fun c => c) id_nul). Qed.

Lemma strncmp_ok m p q a b n :
  cstr m p a -> cstr m q b -> Z.of_nat n < 2 ^ 32 ->
  strncmp p q (Z.of_nat n) m = Ok (ncdiff (fun c => c) n a b) m.
Proof.
  intros Ha Hb Hn. unfold strncmp. destruct n as [|n]; [done|].
  rewrite (proj2 (Z.eqb_neq _ _)), Nat2Z.id by lia.
  apply (ncmp_ok (fun c => c) id_nul); [done|done|lia|lia|done].
Qed.

Lemma strcasecmp_ok fuel m p q a b :
  cstr m p a -> cstr m q b -> (length a < fuel)%nat ->
  strcasecmp fuel p q m = Ok (cdiff cm a b) m.
Proof. intros. by apply (cmp_ok cm cm_nul). Qed.

Lemma strncasecmp_ok m p q a b n :
  cstr m p a -> cstr m q b -> Z.of_nat n < 2 ^ 32 ->
  strncasecmp p q (Z.of_nat n) m = Ok (ncdiff cm n a b) m.
Proof.
  intros Ha Hb Hn. unfold strncasecmp. destruct n as [|n]; [done|].
  rewrite truthy_pos, Nat2Z.id by lia.
  apply (ncmp_ok cm cm_nul); [done|done|lia|lia|done].
Qed.

(** ** Searching for a string *)

Lemma slice_fmap {A B} (f : A -> B) i n (l : list A) : slice i n (f <$> l) = f <$> slice i n l.
Proof. unfold slice. by rewrite fmap_take, fmap_drop. Qed.

Section SearchLemmas.
Context (f fold : Z -> Z) (ncmp : Z -> Z -> Z -> M Z).
Context (Hf0 : forall c, is_char c -> f c <> f 0).
Context (Hfold : forall c, is_char c -> fold c = f c).
Context (Hncmp : forall m p q a b n, cstr m p a -> cstr m q b -> Z.of_nat n < 2 ^ 32 ->
                   ncmp p q (Z.of_nat n) m = Ok (ncdiff f n a b) m).

Lemma next_char fuel m a s c :
  cstr m a s -> (length s < fuel)%nat ->
  loop fuel (next_char_step fold c) a m =
  Ok (match list_find (fun x => f x = c) s with
      | Some (k, _) => a + Z.of_nat k + 1 | None => NULL end) m.
Proof.
  revert a s. induction fuel as [|fuel IH]; intros a [|x s] H Hl; simpl in Hl; try lia.
  - apply cstr_nil in H. apply loop_exit. unfold next_char_step. by mload.
  - apply cstr_cons in H as (Hx & Hc & H). cbn [list_find].
    destruct (decide (f x = c)) as [E|E].
    + apply loop_exit. unfold next_char_step. mload.
      rewrite char_eqb0, Hfold, (proj2 (Z.eqb_eq _ _)) by done. by rewrite Z.add_0_r.
    + erewrite loop_continue; cycle 1.
      { unfold next_char_step. mload.
        rewrite char_eqb0, Hfold, (proj2 (Z.eqb_neq _ _)) by done. done. }
      rewrite (IH _ s) by (done || lia).
      destruct (list_find _ s) as [[k y]|]; simpl; [|done]. f_equal. lia.
Qed.

Context (m : mem) (a q : Z) (s : list Z) (c : Z) (rest : list Z).
Context (Ha : 0 < a) (Hs : cstr m a s) (Hq : cstr m q rest) (Hc : is_char c).
Context (Hrest : Z.of_nat (length rest) < 2 ^ 32).
Let needle := f <$> (c :: rest).
Let hay := f <$> s.

(** Comparing the rest decides an occurrence. *)
Lemma search_compare j x :
  s !! j = Some x -> f x = f c ->
  ncdiff f (length rest) (drop (S j) s) rest = 0 <-> occurs_at needle hay j.
Proof.
  intros Hx Hfx. rewrite ncdiff_0; [|done| |apply Hq]; [|apply Forall_drop, Hs].
  unfold occurs_at, needle, hay. rewrite length_fmap, slice_fmap. unfold slice.
  rewrite (drop_S _ _ _ Hx). cbn [length take]. rewrite !fmap_cons, (take_ge rest) by lia.
  split; [intros ->; by rewrite Hfx | intros H; by injection H].
Qed.

Lemma search_head j : occurs_at needle hay j -> exists y, s !! j = Some y /\ f c = f y.
Proof.
  intros Ho. pose proof (occurs_at_lookup _ _ _ 0 Ho ltac:(simpl; lia)) as H0.
  unfold needle, hay in H0. rewrite Nat.add_0_r, list_lookup_fmap, fmap_cons in H0.
  by apply fmap_Some in H0.
Qed.

(** One round of the outer loop from [i], where nothing occurs before [i]. *)
Lemma search_round fuel i :
  (length s < fuel)%nat -> (i <= length s)%nat ->
  let step := search_step fold ncmp fuel (f c) q (Z.of_nat (length rest))
                (a + Z.of_nat i) m in
  (step = Ok (inr NULL) m /\ forall j, (i <= j)%nat -> ~ occurs_at needle hay j) \/
  exists k, (i <= k < length s)%nat /\
    (forall j, (i <= j < k)%nat -> ~ occurs_at needle hay j) /\
    ((step = Ok (inr (a + Z.of_nat k)) m /\ occurs_at needle hay k) \/
     (step = Ok (inl (a + Z.of_nat (S k))) m /\ ~ occurs_at needle hay k)).
Proof.
  intros Hf Hi step.
  assert (Hsuf : cstr m (a + Z.of_nat i) (drop i s)) by by apply cstr_drop.
  pose proof (next_char fuel m _ _ (f c) Hsuf ltac:(rewrite length_drop; lia)) as Hnext.
  unfold step, search_step.
  destruct (list_find (fun x => f x = f c) (drop i s)) as [[k x]|] eqn:Hfind;
    rewrite (bind_ok _ _ _ _ _ Hnext).
  - right. apply list_find_Some in Hfind as (Hk & Hfx & Hmin). rewrite lookup_drop in Hk.
    assert (Hlt : (i + k < length s)%nat) by by eapply lookup_lt_Some.
    exists (i + k)%nat. split; [lia|]. split.
    { intros j Hj (y & Hy & Hfy)%search_head.
      apply (Hmin (j - i)%nat y); [|lia|done].
      rewrite lookup_drop, <- Hy. f_equal. lia. }
    assert (Hsuf2 : cstr m (a + Z.of_nat i + Z.of_nat k + 1) (drop (S (i + k)) s)).
    { replace (a + Z.of_nat i + Z.of_nat k + 1) with (a + Z.of_nat (S (i + k))) by lia.
      apply cstr_drop; [lia|done]. }
    rewrite (proj2 (Z.eqb_neq _ _)) by (unfold NULL; lia).
    rewrite (bind_ok _ _ _ _ _ (Hncmp m _ _ _ _ _ Hsuf2 Hq Hrest)).
    pose proof (search_compare _ _ Hk Hfx) as Hocc. unfold mret, M_ret.
    destruct (Z.eqb_spec (ncdiff f (length rest) (drop (S (i + k)) s) rest) 0) as [E|E];
      [left|right]; (split; [do 2 f_equal; lia | tauto]).
  - left. split; [done|]. intros j Hj (y & Hy & Hfy)%search_head.
    apply list_find_None in Hfind.
    apply (proj1 (Forall_lookup _ _) Hfind (j - i)%nat y); [|done].
    rewrite lookup_drop, <- Hy. f_equal. lia.
Qed.

Lemma search_loop fuel fuel' i :
  (length s < fuel')%nat -> (length s < fuel + i)%nat -> (i <= length s)%nat ->
  (forall j, (j < i)%nat -> ~ occurs_at needle hay j) ->
  exists r, loop fuel (search_step fold ncmp fuel' (f c) q (Z.of_nat (length rest)))
              (a + Z.of_nat i) m = Ok r m /\
    ((exists j, r = a + Z.of_nat j /\ occurs_at needle hay j /\
                forall j', (j' < j)%nat -> ~ occurs_at needle hay j') \/
     (r = NULL /\ forall j, ~ occurs_at needle hay j)).
Proof.
  intros Hf'. revert i. induction fuel as [|fuel IH]; intros i Hf Hi Hno; [lia|].
  destruct (search_round fuel' i Hf' Hi) as [[Hstep Hnone]|(k & Hk & Hskip & Hcase)].
  - exists NULL. split; [by apply loop_exit|]. right. split; [done|]. intros j.
    destruct (decide (j < i)%nat); [apply Hno | apply Hnone]; lia.
  - assert (Hno' : forall j, (j < k)%nat -> ~ occurs_at needle hay j).
    { intros j Hj. destruct (decide (j < i)%nat); [apply Hno | apply Hskip]; lia. }
    destruct Hcase as [[Hstep Ho]|[Hstep Ho]].
    + exists (a + Z.of_nat k). split; [by apply loop_exit|]. left. exists k. auto.
    + erewrite loop_continue by exact Hstep. apply IH; [lia|lia|].
      intros j Hj. destruct (decide (j = k)) as [->|]; [done | apply Hno'; lia].
Qed.

Lemma search_ok fuel p :
  cstr m p (c :: rest) -> q = p + 1 -> (length s < fuel)%nat -> (length rest < fuel)%nat ->
  exists r, search fold ncmp fuel a p m = Ok r m /\
    ((exists j, r = a + Z.of_nat j /\ occurs_at needle hay j /\
                forall j', (j' < j)%nat -> ~ occurs_at needle hay j') \/
     (r = NULL /\ forall j, ~ occurs_at needle hay j)).
Proof.
  intros Hp Eq Hf1 Hf2. apply cstr_cons in Hp as (Hpc & _ & _).
  destruct (search_loop fuel fuel 0) as (r & Hr & Hcase); [done|lia|lia|lia|].
  exists r. split; [|done]. unfold search. mload.
  rewrite char_truthy by done. rewrite <- Eq.
  rewrite (bind_ok _ _ _ _ _ (strlen_ok fuel m q rest Hq Hf2)).
  rewrite Z.add_0_r in Hr. by rewrite Hfold.
Qed.
End SearchLemmas.

(** ** Sets of characters and tokens *)

Section Sets.
Context (m : mem) (set : Z) (D : list Z) (Hset : cstr m set D).

Lemma in_set_ok fuel c : (length D < fuel)%nat -> in_set fuel set c m = Ok (bool_decide (c ∈ D)) m.
Proof.
  revert fuel set Hset. unfold in_set.
  induction D as [|x D' IH]; intros [|fuel] a H Hf; simpl in Hf; try lia.
  - apply cstr_nil in H. apply loop_exit. by mload.
  - apply cstr_cons in H as (Hx & Hc & H). destruct (decide (x = c)) as [->|Hne].
    + rewrite bool_decide_true by set_solver. apply loop_exit. mload.
      by rewrite char_eqb0, Z.eqb_refl.
    + erewrite loop_continue; cycle 1.
      { mload. rewrite char_eqb0, (proj2 (Z.eqb_neq _ _)) by done. done. }
      rewrite IH by (done || lia). f_equal. apply bool_decide_ext. set_solver.
Qed.

Lemma in_set_nul_ok fuel c :
  (length D < fuel)%nat -> in_set_nul fuel set c m = Ok (bool_decide (c = 0 \/ c ∈ D)) m.
Proof.
  revert fuel set Hset. unfold in_set_nul.
  induction D as [|x D' IH]; intros [|fuel] a H Hf; simpl in Hf; try lia.
  - apply cstr_nil in H. apply loop_exit. mload. destruct (Z.eqb_spec 0 c) as [<-|Hne].
    + by rewrite bool_decide_true by auto.
    + rewrite bool_decide_false; [done|]. set_solver.
  - apply cstr_cons in H as (Hx & Hc & H). destruct (decide (x = c)) as [->|Hne].
    + rewrite bool_decide_true by set_solver. apply loop_exit. mload.
      by rewrite Z.eqb_refl.
    + erewrite loop_continue; cycle 1.
      { mload. rewrite (proj2 (Z.eqb_neq _ _)), char_eqb0 by done. done. }
      rewrite IH by (done || lia). f_equal. apply bool_decide_ext. set_solver.
Qed.

Lemma nul_not_in_set : 0 ∉ D.
Proof.
  destruct Hset as [_ H]. intros Hin. apply (proj1 (list.Forall_forall _ _) H) in Hin.
  unfold is_char in Hin. lia.
Qed.

(** The byte at [a] of a string that starts with [c], or the NUL at its end. *)
Definition first_byte (s : list Z) : Z := default 0 (head s).

Lemma cstr_first a s : cstr m a s -> m !! a = Some (first_byte s).
Proof.
  destruct s as [|c s]; intros H.
  - by apply cstr_nil in H.
  - by apply cstr_cons in H as [H _].
Qed.

Lemma first_not_in s : (forall c, head s = Some c -> c ∉ D) -> first_byte s ∉ D.
Proof. destruct s; simpl; [intros; apply nul_not_in_set | auto]. Qed.

Lemma first_in s :
  (forall c, head s = Some c -> c ∈ D) -> first_byte s = 0 \/ first_byte s ∈ D.
Proof. destruct s; simpl; auto. Qed.

Lemma strspn_loop fuel fd a0 a pre post :
  cstr m a (pre ++ post) -> Forall (fun c => c ∈ D) pre ->
  (forall c, head post = Some c -> c ∉ D) ->
  (length D < fd)%nat -> (length pre < fuel)%nat ->
  loop fuel (strspn_step fd a0 set) a m = Ok (a + Z.of_nat (length pre) - a0) m.
Proof.
  intros H Hpre Hpost HD. revert fuel a H. induction Hpre as [|c pre Hc Hpre IH];
    intros [|fuel] a H Hf; simpl in Hf; try lia; unfold strspn_step at 1.
  - apply loop_exit. mstep ltac:(apply load_ok, cstr_first, H).
    mstep ltac:(by apply in_set_ok).
    rewrite bool_decide_false by by apply first_not_in. by rewrite Z.add_0_r.
  - apply cstr_cons in H as (Hx & Hch & H). erewrite loop_continue; cycle 1.
    { mload. mstep ltac:(by apply in_set_ok). by rewrite bool_decide_true by done. }
    rewrite IH by (done || lia). f_equal. simpl length. lia.
Qed.

Lemma strcspn_loop fuel fd a0 a pre post :
  cstr m a (pre ++ post) -> Forall (fun c => c ∉ D) pre ->
  (forall c, head post = Some c -> c ∈ D) ->
  (length D < fd)%nat -> (length pre < fuel)%nat ->
  loop fuel (strcspn_step fd a0 set) a m = Ok (a + Z.of_nat (length pre) - a0) m.
Proof.
  intros H Hpre Hpost HD. revert fuel a H. induction Hpre as [|c pre Hc Hpre IH];
    intros [|fuel] a H Hf; simpl in Hf; try lia; unfold strcspn_step at 1.
  - apply loop_exit. mstep ltac:(apply load_ok, cstr_first, H).
    mstep ltac:(by apply in_set_nul_ok).
    rewrite bool_decide_true by by apply first_in. by rewrite Z.add_0_r.
  - apply cstr_cons in H as (Hx & Hch & H). erewrite loop_continue; cycle 1.
    { mload. mstep ltac:(by apply in_set_nul_ok). rewrite bool_decide_false; [done|].
      unfold is_char in Hch. intros [?|?]; [lia | done]. }
    rewrite IH by (done || lia). f_equal. simpl length. lia.
Qed.

Lemma skip_loop fuel fd a pre post :
  cstr m a (pre ++ post) -> Forall (fun c => c ∈ D) pre ->
  (forall c, head post = Some c -> c ∉ D) ->
  (length D < fd)%nat -> (length pre < fuel)%nat ->
  loop fuel (skip_step fd set) a m =
  Ok (a + Z.of_nat (length pre) + 1, first_byte post) m.
Proof.
  intros H Hpre Hpost HD. revert fuel a H. induction Hpre as [|c pre Hc Hpre IH];
    intros [|fuel] a H Hf; simpl in Hf; try lia; unfold skip_step at 1.
  - apply loop_exit. mstep ltac:(apply load_ok, cstr_first, H).
    mstep ltac:(by apply in_set_ok).
    rewrite bool_decide_false by by apply first_not_in. by rewrite Z.add_0_r.
  - apply cstr_cons in H as (Hx & Hch & H). erewrite loop_continue; cycle 1.
    { mload. mstep ltac:(by apply in_set_ok). by rewrite bool_decide_true by done. }
    rewrite IH by (done || lia). f_equal. f_equal. simpl length. lia.
Qed.

Lemma scan_loop fuel fd a tok post :
  cstr m a (tok ++ post) -> Forall (fun c => c ∉ D) tok ->
  (forall c, head post = Some c -> c ∈ D) ->
  (length D < fd)%nat -> (length tok < fuel)%nat ->
  loop fuel (scan_step fd set) a m =
  match post with
  | [] => Ok NULL m
  | _ :: _ => Ok (a + Z.of_nat (length tok) + 1) (<[a + Z.of_nat (length tok) := 0]> m)
  end.
Proof.
  intros H Htok Hpost HD. revert fuel a H. induction Htok as [|c tok Hc Htok IH];
    intros [|fuel] a H Hf; simpl in Hf; try lia.
  - destruct post as [|c post].
    + apply loop_exit. unfold scan_step. mstep ltac:(apply load_ok, cstr_first, H).
      mstep ltac:(by apply in_set_nul_ok). by rewrite bool_decide_true by by apply first_in.
    + pose proof (cstr_first _ _ H) as Hx. apply cstr_cons in H as (_ & Hch & _).
      apply loop_exit. unfold scan_step. mload. mstep ltac:(by apply in_set_nul_ok).
      rewrite bool_decide_true by by apply first_in. simpl first_byte.
      rewrite char_eqb0 by done. rewrite Z.add_simpl_r. mstore.
      simpl length. by rewrite Z.add_0_r.
  - apply cstr_cons in H as (Hx & Hch & H). erewrite loop_continue; cycle 1.
    { unfold scan_step. mload. mstep ltac:(by apply in_set_nul_ok).
      rewrite bool_decide_false; [done|].
      unfold is_char in Hch. intros [?|?]; [lia | done]. }
    rewrite IH by (done || lia). simpl length.
    destruct post; [done|]. f_equal; [lia|]. f_equal. lia.
Qed.
End Sets.

(** ** The properties *)

(** strlcpy copies at most [siz - 1] characters, always terminates the copy
    unless [siz] is zero, writes nothing else, and returns the length of the
    source even when it truncates. *)
Theorem strlcpy_truncates (fuel siz : nat) (d a : Z) (s : list Z) (m : mem) :
  cstr m a s -> (length s < fuel)%nat -> Z.of_nat (length s) < 2 ^ 32 ->
  Z.of_nat siz < 2 ^ 32 -> valid m d (Z.of_nat siz) ->
  disjoint_ranges d (Z.of_nat siz) a (Z.of_nat (length s) + 1) ->
  strlcpy fuel d a (Z.of_nat siz) m =
  Ok (Z.of_nat (length s))
     (if (siz =? 0)%nat then m else mem_write d (take (siz - 1) s ++ [0]) m).
Proof. intros. by apply strlcpy_ok. Qed.

Lemma strlcpy_truncates_witness :
  strlcpy 10 200 100 3 (mem_write 200 [9; 9; 9] (mem_write 100 [65; 66; 67; 68; 0] ∅)) =
  Ok 4 (mem_write 200 [65; 66; 0]
          (mem_write 200 [9; 9; 9] (mem_write 100 [65; 66; 67; 68; 0] ∅))).
Proof.
  apply (strlcpy_truncates 10 3 200 100 [65; 66; 67; 68]).
  - by_compute.
  - simpl. lia.
  - vm_compute. done.
  - vm_compute. done.
  - apply (bytes_at_valid _ 200 [9; 9; 9]). by_compute.
  - by_compute.
Defined.

(** strlcat appends as much of the source as fits in [siz] bytes, always
    terminates the result when [dst] was terminated within [siz] bytes, leaves
    [dst] alone when it was not, and returns the length it tried to create:
    strlen(src) + MIN(siz, strlen(initial dst)). *)
Theorem strlcat_appends (fuel siz : nat) (d a : Z) (s0 s : list Z) (m : mem) :
  cstr m d s0 -> cstr m a s -> (length s < fuel)%nat ->
  Z.of_nat (length s0 + length s) < 2 ^ 32 -> Z.of_nat siz < 2 ^ 32 ->
  valid m d (Z.of_nat siz) ->
  disjoint_ranges d (Z.of_nat siz) a (Z.of_nat (length s) + 1) ->
  strlcat fuel d a (Z.of_nat siz) m =
  Ok (Z.of_nat (siz `min` length s0 + length s))
     (if (length s0 <? siz)%nat
      then mem_write (d + Z.of_nat (length s0)) (take (siz - 1 - length s0) s ++ [0]) m
      else m).
Proof. intros. by apply strlcat_ok. Qed.

Lemma strlcat_appends_witness :
  strlcat 10 200 100 4 (mem_write 200 [70; 71; 0; 9] (mem_write 100 [65; 66; 67; 0] ∅)) =
  Ok 5 (mem_write 202 [65; 0]
          (mem_write 200 [70; 71; 0; 9] (mem_write 100 [65; 66; 67; 0] ∅))).
Proof.
  apply (strlcat_appends 10 4 200 100 [70; 71] [65; 66; 67]).
  - by_compute.
  - by_compute.
  - simpl. lia.
  - vm_compute. done.
  - vm_compute. done.
  - apply (bytes_at_valid _ 200 [70; 71; 0; 9]). by_compute.
  - by_compute.
Defined.

(** Strncpy writes exactly [n] bytes: the source up to [n] characters,
    padded with NULs; the copy is not terminated when the source has [n]
    characters or more. *)
Theorem strncpy_pads (n : nat) (d a : Z) (s : list Z) (m : mem) :
  cstr m a s -> Z.of_nat n < 2 ^ 32 -> valid m d (Z.of_nat n) ->
  disjoint_ranges d (Z.of_nat n) a (Z.of_nat (length s) + 1) ->
  strncpy d a (Z.of_nat n) m =
  Ok d (mem_write d (take n s ++ replicate (n - length s) 0) m).
Proof. intros. by apply strncpy_ok. Qed.

Lemma strncpy_pads_witness :
  strncpy 200 100 4 (mem_write 200 [9; 9; 9; 9] (mem_write 100 [65; 66; 0] ∅)) =
  Ok 200 (mem_write 200 [65; 66; 0; 0]
            (mem_write 200 [9; 9; 9; 9] (mem_write 100 [65; 66; 0] ∅))).
Proof.
  apply (strncpy_pads 4 200 100 [65; 66]).
  - by_compute.
  - vm_compute. done.
  - apply (bytes_at_valid _ 200 [9; 9; 9; 9]). by_compute.
  - by_compute.
Defined.

(** strcmp decides the dictionary order of unsigned characters: it
    returns zero exactly for equal strings, a negative number exactly when the
    first comes first; strcasecmp returns zero exactly for strings that agree
    after mapping each character by tolower. *)
Theorem strcmp_orders (fuel : nat) (p q : Z) (a b : list Z) (m : mem) :
  cstr m p a -> cstr m q b -> (length a < fuel)%nat ->
  (exists r, strcmp fuel p q m = Ok r m /\ (r = 0 <-> a = b) /\ (r < 0 <-> str_lt a b)) /\
  (exists r, strcasecmp fuel p q m = Ok r m /\ (r = 0 <-> tolower <$> a = tolower <$> b)).
Proof.
  intros Ha Hb Hf. split; eexists.
  - split; [by apply strcmp_ok|]. destruct Ha as [_ Ha], Hb as [_ Hb].
    rewrite cdiff_0 by (done || apply id_nul). rewrite !list_fmap_id.
    split; [done | by apply cdiff_neg].
  - split; [by apply strcasecmp_ok|]. destruct Ha as [_ Ha], Hb as [_ Hb].
    rewrite cdiff_0 by (done || apply cm_nul).
    assert (E : forall l, Forall is_char l -> cm <$> l = tolower <$> l).
    { intros l Hl. apply list_fmap_ext. intros i c Hi. apply cm_tolower.
      eapply Forall_lookup_1 in Hl; [|done]. unfold is_char in Hl. lia. }
    by rewrite !E.
Qed.

Lemma strcmp_orders_witness :
  let m := mem_write 200 [65; 98; 0] (mem_write 100 [65; 66; 67; 0] ∅) in
  (exists r, strcmp 10 100 200 m = Ok r m /\ (r = 0 <-> [65; 66; 67] = [65; 98]) /\
             (r < 0 <-> str_lt [65; 66; 67] [65; 98])) /\
  (exists r, strcasecmp 10 100 200 m = Ok r m /\
             (r = 0 <-> tolower <$> [65; 66; 67] = tolower <$> [65; 98])).
Proof.
  intros m. apply (strcmp_orders 10 100 200 [65; 66; 67] [65; 98]).
  - by_compute.
  - by_compute.
  - simpl. lia.
Defined.

(** strstr returns the first occurrence of a non-empty string, and NULL
    exactly when there is none; strcasestr does the same up to the case of
    letters. *)
Theorem strstr_first (fuel : nat) (a p : Z) (s needle : list Z) (m : mem) :
  0 < a -> cstr m a s -> cstr m p needle -> needle <> [] ->
  (length s < fuel)%nat -> (length needle < fuel)%nat -> Z.of_nat (length needle) < 2 ^ 32 ->
  (exists r, strstr fuel a p m = Ok r m /\
    ((exists i, r = a + Z.of_nat i /\ occurs_at needle s i /\
                forall i', (i' < i)%nat -> ~ occurs_at needle s i') \/
     (r = NULL /\ forall i, ~ occurs_at needle s i))) /\
  (exists r, strcasestr fuel a p m = Ok r m /\
    ((exists i, r = a + Z.of_nat i /\ occurs_at (cm <$> needle) (cm <$> s) i /\
                forall i', (i' < i)%nat -> ~ occurs_at (cm <$> needle) (cm <$> s) i') \/
     (r = NULL /\ forall i, ~ occurs_at (cm <$> needle) (cm <$> s) i))).
Proof.
  intros Ha Hs Hp Hne Hf1 Hf2 Hlen. destruct needle as [|c rest]; [done|].
  pose proof Hp as (Hc & Hch & Hrest)%cstr_cons. simpl length in *. split.
  - destruct (search_ok (fun c => c) (fun c => c) strncmp id_nul ltac:(done) strncmp_ok
                m a (p + 1) s c rest Ha Hs Hrest Hch ltac:(lia) fuel p Hp eq_refl Hf1
                ltac:(lia)) as (r & Hr & Hcase).
    exists r. split; [exact Hr|]. by rewrite !list_fmap_id in Hcase.
  - apply (search_ok cm tolower strncasecmp cm_nul) with (q := p + 1); try done; try lia.
    + intros x Hx. symmetry. apply cm_tolower. unfold is_char in Hx. lia.
    + apply strncasecmp_ok.
Qed.

Lemma strstr_first_witness :
  let m := mem_write 200 [65; 66; 0] (mem_write 100 [65; 65; 66; 67; 0] ∅) in
  (exists r, strstr 10 100 200 m = Ok r m /\
    ((exists i, r = 100 + Z.of_nat i /\ occurs_at [65; 66] [65; 65; 66; 67] i /\
                forall i', (i' < i)%nat -> ~ occurs_at [65; 66] [65; 65; 66; 67] i') \/
     (r = NULL /\ forall i, ~ occurs_at [65; 66] [65; 65; 66; 67] i))) /\
  (exists r, strcasestr 10 100 200 m = Ok r m /\
    ((exists i, r = 100 + Z.of_nat i /\
                occurs_at (cm <$> [65; 66]) (cm <$> [65; 65; 66; 67]) i /\
                forall i', (i' < i)%nat ->
                  ~ occurs_at (cm <$> [65; 66]) (cm <$> [65; 65; 66; 67]) i') \/
     (r = NULL /\ forall i, ~ occurs_at (cm <$> [65; 66]) (cm <$> [65; 65; 66; 67]) i))).
Proof.
  intros m. apply (strstr_first 10 100 200 [65; 65; 66; 67] [65; 66]).
  - lia.
  - by_compute.
  - by_compute.
  - done.
  - simpl. lia.
  - simpl. lia.
  - vm_compute. done.
Defined.

(** strtok_r skips the delimiters in front, returns the first token, ends
    it with a NUL written over the delimiter that follows (and nowhere else),
    and saves the address after that delimiter, or NULL when the token ends
    the string; the token and the rest of the string are then terminated
    strings at those addresses. *)
Theorem strtok_r_token (fuel : nat) (a d last : Z) (D pre tok post : list Z) (m : mem) :
  0 < a -> cstr m a (pre ++ tok ++ post) -> cstr m d D ->
  Forall (fun c => c ∈ D) pre -> tok <> [] -> Forall (fun c => c ∉ D) tok ->
  (forall c, head post = Some c -> c ∈ D) ->
  (length D < fuel)%nat -> (length (pre ++ tok ++ post) < fuel)%nat ->
  disjoint_ranges a (Z.of_nat (length (pre ++ tok ++ post)) + 1)
                  d (Z.of_nat (length D) + 1) ->
  let t := a + Z.of_nat (length pre) in
  let e := t + Z.of_nat (length tok) in
  exists m', strtok_r fuel a d last m = Ok (t, match post with [] => NULL | _ => e + 1 end) m' /\
    m' = match post with [] => m | _ => <[e := 0]> m end /\
    cstr m' t tok /\ (post <> [] -> cstr m' (e + 1) (tail post)).
Proof.
  intros Ha Hs Hd Hpre Htok Htd Hpost HfD Hfs Hdis t e. rewrite !length_app in *.
  destruct tok as [|c tok]; [done|]. inversion Htd as [|? ? Hc Htd']; subst x l.
  assert (Ht : cstr m t ((c :: tok) ++ post)).
  { pose proof (cstr_drop m a (pre ++ (c :: tok) ++ post) (length pre)) as H.
    rewrite drop_app_length in H. apply H; [rewrite length_app; lia | done]. }
  pose proof Ht as (_ & Hch & Ht1)%cstr_cons. simpl length in *.
  pose proof (scan_loop m d D Hd fuel fuel (t + 1) tok post Ht1 Htd' Hpost HfD ltac:(lia)) as Hscan.
  replace (t + 1 + Z.of_nat (length tok)) with e in Hscan by (unfold e; simpl length; lia).
  exists (match post with [] => m | _ => <[e := 0]> m end).
  split; [|split; [done|]].
  - unfold strtok_r. rewrite (proj2 (Z.eqb_neq a NULL)) by (unfold NULL; lia).
    cbv zeta iota. rewrite (proj2 (Z.eqb_neq a NULL)) by (unfold NULL; lia).
    mstep ltac:(apply (skip_loop m d D Hd fuel fuel a pre ((c :: tok) ++ post));
                [done | done | by intros ? [= <-] | done | lia]).
    simpl first_byte. rewrite char_eqb0 by done. fold t. rewrite Z.add_simpl_r.
    destruct post; mstep ltac:(exact Hscan); done.
  - destruct post as [|x post].
    + split; [|done]. by rewrite app_nil_r in Ht.
    + destruct Ht as [Htb Htc]. apply Forall_app in Htc as [Htc1 Htc2].
      rewrite <- app_assoc in Htb. apply bytes_at_app in Htb as [Htb1 [_ Htb2]].
      inversion Htc2; subst. split.
      * split; [|done]. apply bytes_at_app. split.
        -- apply bytes_at_insert; [unfold e; simpl length; lia|done].
        -- simpl. fold e. by rewrite lookup_insert_eq.
      * intros _. split; [|done]. simpl tail. fold e in Htb2.
        apply bytes_at_insert; [lia | done].
Qed.

Lemma strtok_r_token_witness :
  let m := mem_write 200 [44; 32; 0] (mem_write 100 [32; 65; 66; 44; 67; 0] ∅) in
  let t := 100 + Z.of_nat (length [32]) in
  let e := t + Z.of_nat (length [65; 66]) in
  exists m', strtok_r 10 100 200 NULL m = Ok (t, e + 1) m' /\
    m' = <[e := 0]> m /\ cstr m' t [65; 66] /\ ([44; 67] <> [] -> cstr m' (e + 1) [67]).
Proof.
  intros m. apply (strtok_r_token 10 100 200 NULL [44; 32] [32] [65; 66] [44; 67]).
  - lia.
  - by_compute.
  - by_compute.
  - by_compute.
  - done.
  - by_compute.
  - intros c [= <-]. by_compute.
  - simpl. lia.
  - simpl. lia.
  - by_compute.
Defined.
