(* ===== verification/StrTo.v ===== *)
(** * Conversion of strings to integers: libc/stdlib/strtol.c, strtoul.c,
      strtoimax.c, strtoumax.c, strntoumax.c and their callers

    The four functions share their structure: white space, a sign, a prefix
    that selects the base, and a loop over the digits that saturates at the
    limits of the type.  They return the value, the end pointer and errno. *)

From Stdlib Require Import ZArith Lia.
From stdpp Require Import base gmap list numbers.
From S2P Require Import Prelude CMem Ctype.

Open Scope Z_scope.

(** ** The code *)

(** [do c = (unsigned char) *s++; while (isspace(c))] *)
Definition space_step (s : Z) : M (Z + Z * Z) :=
  c ← load s; mret (if truthy (isspace c) then inl (s + 1) else inr (c, s + 1)).

(** The digit a character stands for, when it is one of the base. *)
Definition digit_of (c base : Z) : option Z :=
  let d := if truthy (isdigit c) then Some (c - 48)
           else if truthy (isalpha c) then Some (c - (if truthy (isupper c) then 65 - 10 else 97 - 10))
           else None in
  match d with Some d => if base <=? d then None else Some d | None => None end.

Section Code.
Context `{CharModel}.

(** From the start of the string to the first digit: the character, the
    address after it, the sign and the base. *)
Definition strto_start (fuel : nat) (nptr base : Z) : M (Z * Z * bool * Z) :=
  '(c, s) ← loop fuel space_step nptr;
  '(neg, c, s) ←
    (if c =? 45 then c ← loadc s; mret (true, c, s + 1)
     else if c =? 43 then c ← loadc s; mret (false, c, s + 1)
     else mret (false, c, s));
  '(c, s, base) ←
    (if ((base =? 0) || (base =? 16)) && (c =? 48) then
       x ← loadc s;
       if (x =? 120) || (x =? 88) then c ← loadc (s + 1); mret (c, s + 2, 16)
       else mret (c, s, base)
     else mret (c, s, base));
  let base := if base =? 0 then (if c =? 48 then 8 else 10) else base in
  mret (c, s, neg, base).

(** The state of the digit loop: the character, the address after it, acc, any
    and errno. *)
Record scan := mkScan { sc_acc : Z; sc_any : Z; sc_err : option Z }.

Definition digit_step (accumulate : Z -> scan -> scan) (base : Z) (st : Z * Z * scan) :
  M (Z * Z * scan + Z * scan) :=
  let '(c, s, r) := st in
  match digit_of c base with
  | None => mret (inr (s, r))
  | Some d =>
      let r := if sc_any r <? 0 then r else accumulate d r in
      c ← load s; mret (inl (c, s + 1, r))
  end.

(** ** Signed conversions *)

(** [wrap] is the conversion to the type, [lmin] and [lmax] its limits. *)
Section Signed.
Context (wrap : Z -> Z) (lmin lmax : Z).

Definition signed_cutoffs (neg : bool) (base : Z) : Z * Z :=
  let cutoff := if neg then lmin else lmax in
  let cutlim := Z.rem cutoff base in
  let cutoff := Z.quot cutoff base in
  if neg then
    let '(cutlim, cutoff) := if 0 <? cutlim then (cutlim - base, cutoff + 1) else (cutlim, cutoff) in
    (cutoff, - cutlim)
  else (cutoff, cutlim).

Definition signed_accumulate (neg : bool) (base cutoff cutlim d : Z) (r : scan) : scan :=
  let acc := sc_acc r in
  if neg then
    if (acc <? cutoff) || ((acc =? cutoff) && (cutlim <? d)) then mkScan lmin (-1) (Some ERANGE)
    else mkScan (wrap (wrap (acc * base) - d)) 1 (sc_err r)
  else
    if (cutoff <? acc) || ((acc =? cutoff) && (cutlim <? d)) then mkScan lmax (-1) (Some ERANGE)
    else mkScan (wrap (wrap (acc * base) + d)) 1 (sc_err r).

Definition strto_signed (cutoffs : bool -> Z -> Z * Z) (fuel : nat) (nptr base : Z) :
  M (Z * Z * option Z) :=
  '(c, s, neg, base) ← strto_start fuel nptr base;
  let '(cutoff, cutlim) := cutoffs neg base in
  '(s, r) ← loop fuel (digit_step (signed_accumulate neg base cutoff cutlim) base)
              (c, s, mkScan 0 0 None);
  mret (sc_acc r, if truthy (sc_any r) then s - 1 else nptr, sc_err r).
End Signed.

(** long has 32 bits, intmax_t 64. *)
Definition LONG_MIN : Z := - 2 ^ 31.
Definition LONG_MAX : Z := 2 ^ 31 - 1.
Definition INTMAX_MIN : Z := - 2 ^ 63.
Definition INTMAX_MAX : Z := 2 ^ 63 - 1.

Definition strtol : nat -> Z -> Z -> M (Z * Z * option Z) :=
  strto_signed s32 LONG_MIN LONG_MAX (signed_cutoffs LONG_MIN LONG_MAX).

(** strtoimax avoids the division for the common bases. *)
Definition imax_cutoffs (neg : bool) (base : Z) : Z * Z :=
  let '(cutlim, cutoff) :=
    if base =? 4 then
      if neg then (s32 (Z.rem INTMAX_MIN 4), Z.quot INTMAX_MIN 4)
      else (s32 (Z.rem INTMAX_MAX 4), Z.quot INTMAX_MAX 4)
    else if base =? 8 then
      if neg then (Z.rem INTMAX_MIN 8, Z.quot INTMAX_MIN 8) else (Z.rem INTMAX_MAX 8, Z.quot INTMAX_MAX 8)
    else if base =? 10 then
      if neg then (Z.rem INTMAX_MIN 10, Z.quot INTMAX_MIN 10) else (Z.rem INTMAX_MAX 10, Z.quot INTMAX_MAX 10)
    else if base =? 16 then
      if neg then (Z.rem INTMAX_MIN 16, Z.quot INTMAX_MIN 16) else (Z.rem INTMAX_MAX 16, Z.quot INTMAX_MAX 16)
    else
      let cutoff := if neg then INTMAX_MIN else INTMAX_MAX in (Z.rem cutoff base, Z.quot cutoff base) in
  if neg then
    let '(cutlim, cutoff) := if 0 <? cutlim then (cutlim - base, cutoff + 1) else (cutlim, cutoff) in
    (cutoff, - cutlim)
  else (cutoff, cutlim).

Definition strtoimax : nat -> Z -> Z -> M (Z * Z * option Z) :=
  strto_signed s64 INTMAX_MIN INTMAX_MAX imax_cutoffs.

Definition strtoll : nat -> Z -> Z -> M (Z * Z * option Z) := strtoimax.

Definition atoi (fuel : nat) (s : Z) : M Z := '(v, _, _) ← strtoimax fuel s 10; mret (s32 v).
Definition atol (fuel : nat) (s : Z) : M Z := '(v, _, _) ← strtoimax fuel s 10; mret (s32 v).
Definition atoll (fuel : nat) (s : Z) : M Z := '(v, _, _) ← strtoimax fuel s 10; mret (s64 v).

(** ** Unsigned conversions *)

Section Unsigned.
Context (wrap : Z -> Z) (umax : Z).

Definition unsigned_accumulate (base cutoff cutlim d : Z) (r : scan) : scan :=
  let acc := sc_acc r in
  if (cutoff <? acc) || ((acc =? cutoff) && (cutlim <? d)) then mkScan umax (-1) (Some ERANGE)
  else mkScan (wrap (wrap (acc * base) + d)) 1 (sc_err r).

Definition strto_unsigned (cutoffs : Z -> Z * Z) (fuel : nat) (nptr base : Z) : M (Z * Z * option Z) :=
  '(c, s, neg, base) ← strto_start fuel nptr base;
  let '(cutoff, cutlim) := cutoffs base in
  '(s, r) ← loop fuel (digit_step (unsigned_accumulate base cutoff cutlim) base)
              (c, s, mkScan 0 0 None);
  let acc := if neg && (0 <? sc_any r) then wrap (- sc_acc r) else sc_acc r in
  mret (acc, if truthy (sc_any r) then s - 1 else nptr, sc_err r).
End Unsigned.

Definition ULONG_MAX : Z := 2 ^ 32 - 1.
Definition UINTMAX_MAX : Z := 2 ^ 64 - 1.

Definition strtoul : nat -> Z -> Z -> M (Z * Z * option Z) :=
  strto_unsigned u32 ULONG_MAX (fun base => (ULONG_MAX / base, ULONG_MAX mod base)).

(** The cases for the common bases have the same values as the default. *)
Definition umax_cutoffs (base : Z) : Z * Z :=
  if base =? 8 then (UINTMAX_MAX / 8, UINTMAX_MAX mod 8)
  else if base =? 10 then (UINTMAX_MAX / 10, UINTMAX_MAX mod 10)
  else if base =? 16 then (UINTMAX_MAX / 16, UINTMAX_MAX mod 16)
  else (UINTMAX_MAX / base, UINTMAX_MAX mod base).

Definition strtoumax : nat -> Z -> Z -> M (Z * Z * option Z) :=
  strto_unsigned u64 UINTMAX_MAX umax_cutoffs.

Definition strtoull : nat -> Z -> Z -> M (Z * Z * option Z) := strtoumax.
End Code.

(** ** What a numeral is *)

(** The value of a string of digits. *)
Definition num (b : Z) (ds : list Z) : Z :=
  fold_left (fun a c => a * b + default 0 (digit_of c b)) ds 0.

Definition is_digit (b c : Z) : bool := match digit_of c b with Some _ => true | None => false end.

(** The prefix that selects the base: [pre] is "0x" or nothing, [t] what follows. *)
Definition prefix_ok (base : Z) (pre t : list Z) (b : Z) : Prop :=
  (exists x, pre = [48; x] /\ (x = 120 \/ x = 88) /\ (base = 0 \/ base = 16) /\ b = 16) \/
  (pre = [] /\ b = (if base =? 0 then if hd 0 t =? 48 then 8 else 10 else base) /\
   ~ ((base = 0 \/ base = 16) /\ hd 0 t = 48 /\ (hd 0 (tl t) = 120 \/ hd 0 (tl t) = 88))).

(** The string is white space, a sign, a prefix, digits of base [b], and a rest
    that does not start with a digit; the digits start at offset [skip]. *)
Definition numeral (s : list Z) (base : Z) (skip : Z) (neg : bool) (b : Z) (ds rest : list Z) : Prop :=
  exists ws sg pre, s = ws ++ sg ++ pre ++ ds ++ rest /\
    skip = Z.of_nat (length (ws ++ sg ++ pre)) /\
    Forall (fun c => truthy (isspace c) = true) ws /\
    (sg = [45] /\ neg = true \/ sg = [43] /\ neg = false \/
     sg = [] /\ neg = false /\ (let c := hd 0 (pre ++ ds ++ rest) in
       truthy (isspace c) = false /\ c <> 45 /\ c <> 43)) /\
    prefix_ok base pre (ds ++ rest) b /\
    Forall (fun c => is_digit b c = true) ds /\ is_digit b (hd 0 rest) = false.

(** ** Reading it *)

Lemma cstr_hd m a t : cstr m a t -> m !! a = Some (hd 0 t).
Proof. destruct t; [by intros ?%cstr_nil | by intros [? _]%cstr_cons]. Qed.

Lemma cstr_tl m a t : cstr m a t -> t <> [] -> cstr m (a + 1) (tl t).
Proof. destruct t; [done|]. by intros (_ & _ & ?)%cstr_cons. Qed.

Lemma cstr_app m a s t : cstr m a (s ++ t) -> cstr m (a + Z.of_nat (length s)) t.
Proof.
  intros Hc. rewrite <- (drop_app_length s t). apply cstr_drop; [|done]. rewrite length_app. lia.
Qed.

Lemma cstr_hd_byte m a t : cstr m a t -> 0 <= hd 0 t < 256.
Proof.
  destruct t as [|c t]; simpl; [lia|]. intros (_ & Hc & _)%cstr_cons. unfold is_char in Hc. lia.
Qed.

(** Bytes above 127 are neither digits nor letters, read as signed or not. *)
Definition high_ok (b : Z) : bool :=
  negb (truthy (isdigit b)) && negb (truthy (isalpha b)) &&
  negb (truthy (isdigit (s8 b))) && negb (truthy (isalpha (s8 b))).

Lemma high_byte b : 128 <= b < 256 -> high_ok b = true.
Proof. intros Hb. apply (range_check high_ok 128 128); [vm_compute; reflexivity | lia]. Qed.

Section Reading.
Context `{CharModel}.

Lemma char_of_eqb b k : 0 <= b < 256 -> 0 <= k < 128 -> (char_of b =? k) = (b =? k).
Proof.
  intros Hb Hk. unfold char_of. destruct char_signed; [|by rewrite u8_small].
  unfold s8. destruct (Z.eqb_spec b k); [subst; apply Z.eqb_eq; zdm|].
  apply Z.eqb_neq. zdm.
Qed.

Lemma digit_of_char b base : 0 <= b < 256 -> digit_of (char_of b) base = digit_of b base.
Proof.
  intros Hb. unfold char_of. destruct char_signed; [|by rewrite u8_small].
  destruct (Z.lt_ge_cases b 128) as [Hlt|Hge].
  - replace (s8 b) with b; [done|]. unfold s8. zdm.
  - pose proof (high_byte b ltac:(lia)) as E. unfold high_ok in E. zbool.
    repeat match goal with E : negb _ = true |- _ => apply negb_true_iff in E end.
    unfold digit_of. repeat match goal with E : truthy _ = false |- _ => rewrite E; clear E end. done.
Qed.

Lemma skip_spaces fuel m a ws t :
  cstr m a (ws ++ t) -> Forall (fun c => truthy (isspace c) = true) ws ->
  truthy (isspace (hd 0 t)) = false -> (length ws < fuel)%nat ->
  loop fuel space_step a m = Ok (hd 0 t, a + Z.of_nat (length ws) + 1) m.
Proof.
  revert fuel a. induction ws as [|c ws IH]; intros fuel a Hc Hw Ht Hf;
    (destruct fuel as [|fuel]; [simpl in Hf; lia|]).
  - simpl app in Hc. rewrite (loop_exit _ _ _ (hd 0 t, a + 1) m m); [by rewrite Z.add_0_r|].
    unfold space_step. mstep ltac:(apply load_ok; by apply cstr_hd). by rewrite Ht.
  - inversion Hw as [|? ? Hcw Hw']; subst. apply cstr_cons in Hc as (Hl & _ & Hc).
    rewrite (loop_continue _ _ _ (a + 1) m m).
    + rewrite IH by (try done; simpl in Hf; lia). do 2 f_equal. cbn [length]. lia.
    + unfold space_step. mload. by rewrite Hcw.
Qed.

(** Everything up to the first digit. *)
Lemma strto_start_ok fuel m a s base skip neg b ds rest :
  cstr m a s -> numeral s base skip neg b ds rest -> (length s < fuel)%nat ->
  exists c, strto_start fuel a base m = Ok (c, a + skip + 1, neg, b) m /\
    (forall b', digit_of c b' = digit_of (hd 0 (ds ++ rest)) b').
Proof.
  intros Hs (ws & sg & pre & -> & -> & Hws & Hsg & Hpre & _) Hf.
  pose proof (cstr_app _ _ _ _ Hs) as Hs1. pose proof (cstr_app _ _ _ _ Hs1) as Hs2.
  assert (Hhd : truthy (isspace (hd 0 (sg ++ pre ++ ds ++ rest))) = false).
  { destruct Hsg as [[-> _]|[[-> _]|(-> & _ & ? & _)]]; done. }
  unfold strto_start. mstep ltac:(apply skip_spaces; [exact Hs|done|done|rewrite !length_app in Hf; lia]).
  set (p := a + Z.of_nat (length ws)) in *.
  (* the character after the sign, and the address after it *)
  assert (Hsign : exists c, (forall b', digit_of c b' = digit_of (hd 0 (pre ++ ds ++ rest)) b') /\
    (forall k, 0 <= k < 128 -> (c =? k) = (hd 0 (pre ++ ds ++ rest) =? k)) /\
    forall (K : bool * Z * Z -> M (Z * Z * bool * Z)),
    ((if hd 0 (sg ++ pre ++ ds ++ rest) =? 45 then c ← loadc (p + 1); mret (true, c, p + 1 + 1)
      else if hd 0 (sg ++ pre ++ ds ++ rest) =? 43 then c ← loadc (p + 1); mret (false, c, p + 1 + 1)
      else mret (false, hd 0 (sg ++ pre ++ ds ++ rest), p + 1)) ≫= K) m =
    K (neg, c, p + Z.of_nat (length sg) + 1) m).
  { pose proof (cstr_hd_byte _ _ _ Hs2) as Hb.
    destruct Hsg as [[-> ->]|[[-> ->]|(-> & -> & _ & H45 & H43)]].
    1,2: exists (char_of (hd 0 (pre ++ ds ++ rest))); split; [intros; by apply digit_of_char|];
         split; [intros; by apply char_of_eqb|]; intros K; simpl app; cbn [hd Z.eqb Pos.eqb];
         rewrite bind_assoc; mstep ltac:(apply loadc_ok; apply (cstr_hd _ _ _ Hs2)); done.
    exists (hd 0 (pre ++ ds ++ rest)). split; [done|]. split; [done|]. intros K. simpl app.
    rewrite (proj2 (Z.eqb_neq _ _) H45), (proj2 (Z.eqb_neq _ _) H43). simpl length. by rewrite Z.add_0_r. }
  destruct Hsign as (c & Hdig & Heq & Hrun). rewrite Hrun. clear Hrun.
  set (q := p + Z.of_nat (length sg)) in *.
  destruct Hpre as [(x & -> & Hx & Hbase & ->)|(-> & -> & Hno)].
  - assert (((base =? 0) || (base =? 16)) = true) as -> by lia. rewrite (Heq 48) by lia. simpl app.
    cbn [hd andb Z.eqb Pos.eqb]. apply cstr_cons in Hs2 as (_ & _ & Hs2).
    apply cstr_cons in Hs2 as (Hlx & Hcx & Hs2). rewrite bind_assoc.
    mstep ltac:(apply loadc_ok; exact Hlx). unfold is_char in Hcx. rewrite !char_of_eqb by lia.
    assert (((x =? 120) || (x =? 88)) = true) as -> by lia. rewrite bind_assoc.
    pose proof (cstr_hd_byte _ _ _ Hs2) as Hb.
    mstep ltac:(apply loadc_ok; apply (cstr_hd _ _ _ Hs2)).
    assert (Hend : q + 1 + 2 = a + Z.of_nat (length (ws ++ sg ++ [48; x])) + 1)
      by (unfold q, p; rewrite !length_app; cbn [length]; lia).
    eexists. split; [|intros; by apply digit_of_char]. rewrite <- Hend. reflexivity.
  - simpl app in *. exists c. split; [|done].
    assert (Hend : q + 1 = a + Z.of_nat (length (ws ++ sg ++ [])) + 1).
    { unfold q, p. rewrite app_nil_r, length_app. lia. }
    rewrite (Heq 48) by lia. destruct ((base =? 0) || (base =? 16)) eqn:Eb; cbn [andb].
    + bcase.
      * assert (Hne : ds ++ rest <> []) by (intros E; by rewrite E in *).
        pose proof (cstr_tl _ _ _ Hs2 Hne) as Hs3. pose proof (cstr_hd_byte _ _ _ Hs3) as Hb.
        rewrite bind_assoc. mstep ltac:(apply loadc_ok; apply (cstr_hd _ _ _ Hs3)).
        rewrite !char_of_eqb by lia.
        assert (((hd 0 (tl (ds ++ rest)) =? 120) || (hd 0 (tl (ds ++ rest)) =? 88)) = false) as -> by lia.
        unfold mret, M_ret, mbind, M_bind. rewrite (Heq 48), e, Hend by lia. done.
      * unfold mret, M_ret, mbind, M_bind. rewrite (Heq 48), Hend by lia. by zif.
    + unfold mret, M_ret, mbind, M_bind. rewrite (Heq 48), Hend by lia. done.
Qed.
End Reading.

(** ** The digit loop *)

Lemma digit_of_range c b d : 0 <= c < 256 -> digit_of c b = Some d -> 0 <= d < b.
Proof.
  intros Hc. unfold digit_of. rewrite isdigit_ascii, isalpha_ascii, isupper_ascii by done.
  destruct ((48 <=? c) && (c <=? 57)) eqn:E1.
  - bcase; [done|]. intros [= <-]. lia.
  - destruct ((65 <=? c) && (c <=? 90)) eqn:E2; simpl.
    + bcase; [done|]. intros [= <-]. lia.
    + destruct ((97 <=? c) && (c <=? 122)) eqn:E3; [|done]. bcase; [done|]. intros [= <-]. lia.
Qed.

Lemma num_snoc b ds c : num b (ds ++ [c]) = num b ds * b + default 0 (digit_of c b).
Proof. unfold num. by rewrite fold_left_app. Qed.

Section Digits.
Context (accumulate : Z -> scan -> scan) (b : Z).

(** What the loop does to the accumulator. *)
Definition eat (r : scan) (c : Z) : scan :=
  if sc_any r <? 0 then r else accumulate (default 0 (digit_of c b)) r.

Lemma digit_loop fuel m a ds rest c r :
  cstr m a (ds ++ rest) -> Forall (fun c => is_digit b c = true) ds -> is_digit b (hd 0 rest) = false ->
  (forall b', digit_of c b' = digit_of (hd 0 (ds ++ rest)) b') -> (length ds < fuel)%nat ->
  loop fuel (digit_step accumulate b) (c, a + 1, r) m =
  Ok (a + Z.of_nat (length ds) + 1, fold_left eat ds r) m.
Proof.
  intros Hs Hd Hr Hc Hf. revert fuel a c r Hs Hc Hf.
  induction ds as [|d ds IH]; intros fuel a c r Hs Hc Hf; (destruct fuel as [|fuel]; [simpl in Hf; lia|]).
  - rewrite (loop_exit _ _ _ (a + 1, r) m m); [by rewrite Z.add_0_r|].
    unfold digit_step. rewrite Hc. change ([] ++ rest) with rest. unfold is_digit in Hr.
    revert Hr. by destruct (digit_of (hd 0 rest) b).
  - inversion Hd as [|? ? Hd1 Hd2]; subst. simpl app in Hs. apply cstr_cons in Hs as (_ & _ & Hs).
    rewrite (loop_continue _ _ _ (hd 0 (ds ++ rest), a + 1 + 1, eat r d) m m).
    + rewrite IH by (try done; cbn [length] in Hf; lia). do 2 f_equal. cbn [length]. lia.
    + unfold digit_step. rewrite Hc. cbn [app hd]. unfold is_digit in Hd1.
      destruct (digit_of d b) as [k|] eqn:E; [|done].
      mstep ltac:(apply load_ok; apply (cstr_hd _ _ _ Hs)). unfold eat. by rewrite E.
Qed.

(** An accumulator that saturates at a limit. *)
Context (lim : Z) (value : Z -> Z) (over : Z).
Context (Hb : 2 <= b) (Hlim : 0 <= lim) (Hv0 : value 0 = 0).
Context (Hacc : forall v d any err, 0 <= v <= lim -> 0 <= d < b -> 0 <= any ->
  accumulate d (mkScan (value v) any err) =
  if v * b + d <=? lim then mkScan (value (v * b + d)) 1 err else mkScan over (-1) (Some ERANGE)).

Lemma num_nonneg ds : Forall is_byte ds -> Forall (fun c => is_digit b c = true) ds -> 0 <= num b ds.
Proof using Hb.
  induction ds as [|c ds IH] using rev_ind; intros H1 H2; [done|].
  apply Forall_app in H1 as [H1 H1'], H2 as [H2 H2']. inversion H1'; inversion H2'; subst.
  rewrite num_snoc. specialize (IH H1 H2). unfold is_digit in *.
  destruct (digit_of c b) as [d|] eqn:E; [|done]. pose proof (digit_of_range c b d ltac:(done) E). simpl. nia.
Qed.

Lemma eat_digits ds :
  Forall is_byte ds -> Forall (fun c => is_digit b c = true) ds ->
  fold_left eat ds (mkScan 0 0 None) =
  if num b ds <=? lim then mkScan (value (num b ds)) (match ds with [] => 0 | _ => 1 end) None
  else mkScan over (-1) (Some ERANGE).
Proof using Hb Hlim Hv0 Hacc.
  induction ds as [|c ds IH] using rev_ind; intros H1 H2.
  { cbn. zif. by rewrite Hv0. }
  apply Forall_app in H1 as [H1 H1'], H2 as [H2 H2']. inversion H1'; inversion H2'; subst.
  pose proof (num_nonneg ds H1 H2) as Hn. rewrite fold_left_app, IH, num_snoc by done. cbn [fold_left].
  match goal with H : is_digit b c = true |- _ => unfold is_digit in H end.
  destruct (digit_of c b) as [d|] eqn:E; [|done]. change (default 0 (Some d)) with d.
  pose proof (digit_of_range c b d ltac:(done) E) as Hd.
  assert (Hm : (match ds ++ [c] with [] => 0 | _ => 1 end) = 1) by (by destruct ds). rewrite Hm.
  destruct (Z.leb_spec (num b ds) lim) as [Hle|Hgt]; unfold eat; cbn [sc_any].
  - assert (Ha : 0 <= match ds with [] => 0 | _ => 1 end) by (destruct ds; lia).
    rewrite (proj2 (Z.ltb_ge _ 0)) by done. rewrite E. change (default 0 (Some d)) with d. by rewrite (Hacc _ _ _ _ (conj Hn Hle) Hd Ha).
  - rewrite (proj2 (Z.leb_gt (num b ds * b + d) lim)) by nia. done.
Qed.
End Digits.

(** The cutoff tests of the sources. *)
Lemma cutoff_test v d b lim :
  2 <= b -> 0 <= lim -> 0 <= v -> 0 <= d < b ->
  ((lim / b <? v) || ((v =? lim / b) && (lim mod b <? d))) = negb (v * b + d <=? lim).
Proof.
  intros Hb Hl Hv Hd. pose proof (Z.div_mod lim b ltac:(lia)) as E.
  pose proof (Z.mod_pos_bound lim b ltac:(lia)).
  destruct (Z.ltb_spec (lim / b) v); simpl.
  - symmetry. apply negb_true_iff, Z.leb_gt. nia.
  - destruct (Z.eqb_spec v (lim / b)); simpl.
    + subst v. bcase; bcase; try done; nia.
    + symmetry. apply negb_false_iff, Z.leb_le. nia.
Qed.

(** ** The signed functions *)

Section SignedOk.
Context `{CharModel} (wrap : Z -> Z) (lmax : Z).
Let lmin := - lmax - 1.
Context (Hmax : 100 <= lmax) (Hwrap : forall v, lmin <= v <= lmax -> wrap v = v).

Lemma signed_cutoffs_neg b : 2 <= b <= 36 ->
  signed_cutoffs lmin lmax true b = (- ((lmax + 1) / b), (lmax + 1) mod b).
Proof using Hmax.
  intros Hb. unfold signed_cutoffs, lmin. replace (- lmax - 1) with (- (lmax + 1)) by lia.
  rewrite Z.rem_opp_l, Z.quot_opp_l by lia. rewrite Z.rem_mod_nonneg, Z.quot_div_nonneg by lia.
  pose proof (Z.mod_pos_bound (lmax + 1) b). zif. f_equal. lia.
Qed.

Lemma signed_cutoffs_pos b : 2 <= b <= 36 ->
  signed_cutoffs lmin lmax false b = (lmax / b, lmax mod b).
Proof using Hmax.
  intros Hb. unfold signed_cutoffs. by rewrite Z.rem_mod_nonneg, Z.quot_div_nonneg by lia.
Qed.

(** The limit of the magnitude, the value of a magnitude and the result on
    overflow. *)
Definition mag_limit (neg : bool) : Z := if neg then lmax + 1 else lmax.
Definition signed (neg : bool) (v : Z) : Z := if neg then - v else v.
Definition clamp (neg : bool) : Z := if neg then lmin else lmax.

Lemma signed_saturates neg b v d any err :
  2 <= b <= 36 -> 0 <= v <= mag_limit neg -> 0 <= d < b ->
  (let '(cutoff, cutlim) := signed_cutoffs lmin lmax neg b in
   signed_accumulate wrap lmin lmax neg b cutoff cutlim d (mkScan (signed neg v) any err)) =
  if v * b + d <=? mag_limit neg then mkScan (signed neg (v * b + d)) 1 err
  else mkScan (clamp neg) (-1) (Some ERANGE).
Proof using Hmax Hwrap.
  intros Hb Hv Hd. destruct neg; unfold mag_limit, signed, clamp in *.
  - rewrite signed_cutoffs_neg by done. unfold signed_accumulate. cbn [sc_acc sc_err].
    pose proof (cutoff_test v d b (lmax + 1)) as E.
    replace (- v <? - ((lmax + 1) / b)) with ((lmax + 1) / b <? v) by (repeat bcase; lia || done).
    replace (- v =? - ((lmax + 1) / b)) with (v =? (lmax + 1) / b) by (repeat bcase; lia || done).
    rewrite E by lia. destruct (Z.leb_spec (v * b + d) (lmax + 1)); simpl; [|done].
    rewrite (Hwrap (- v * b)) by (unfold lmin; nia). rewrite Hwrap by (unfold lmin; nia). f_equal. lia.
  - rewrite signed_cutoffs_pos by done. unfold signed_accumulate. cbn [sc_acc sc_err].
    rewrite cutoff_test by lia. destruct (Z.leb_spec (v * b + d) lmax); simpl; [|done].
    rewrite (Hwrap (v * b)) by (unfold lmin; nia). rewrite Hwrap by (unfold lmin; nia). done.
Qed.

Lemma strto_signed_ok cutoffs fuel m a s base skip neg b ds rest :
  (forall neg b, 2 <= b <= 36 -> cutoffs neg b = signed_cutoffs lmin lmax neg b) ->
  cstr m a s -> numeral s base skip neg b ds rest -> 2 <= b <= 36 -> (length s < fuel)%nat ->
  strto_signed wrap lmin lmax cutoffs fuel a base m =
  Ok (if num b ds <=? mag_limit neg then signed neg (num b ds) else clamp neg,
      match ds with [] => a | _ => a + skip + Z.of_nat (length ds) end,
      if num b ds <=? mag_limit neg then None else Some ERANGE) m.
Proof using Hmax Hwrap.
  intros Hcut Hs Hn Hb Hf. destruct (strto_start_ok fuel m a s base skip neg b ds rest Hs Hn Hf) as (c & E & Hc).
  destruct Hn as (ws & sg & pre & Es & Ek & _ & _ & _ & Hd & Hr).
  assert (Hs' : cstr m (a + skip) (ds ++ rest)).
  { rewrite Ek. apply cstr_app. by rewrite <- !app_assoc, <- Es. }
  assert (Hbytes : Forall is_byte ds).
  { destruct Hs as [_ Hs]. rewrite Es, !Forall_app in Hs. destruct Hs as (_ & _ & _ & Hs & _).
    eapply list.Forall_impl; [exact Hs|]. unfold is_char, is_byte. lia. }
  assert (Hl : (length ds < fuel)%nat) by (rewrite Es, !length_app in Hf; lia).
  unfold strto_signed. mstep ltac:(exact E). rewrite Hcut by done.
  destruct (signed_cutoffs lmin lmax neg b) as [cutoff cutlim] eqn:Ecut.
  mstep ltac:(apply digit_loop with (ds := ds) (rest := rest); [exact Hs'|done|done|done|done]).
  assert (Hm : 0 <= mag_limit neg) by (unfold mag_limit; destruct neg; lia).
  rewrite (eat_digits _ b (mag_limit neg) (signed neg) (clamp neg) ltac:(lia) Hm);
    [|by destruct neg| |done|done].
  - destruct ds as [|d ds].
    { change (num b []) with 0. by zif. }
    destruct (num b (d :: ds) <=? mag_limit neg); unfold mret, M_ret; cbn [sc_acc sc_any sc_err];
      do 3 f_equal; cbn [truthy Z.eqb negb]; lia.
  - intros v d any err Hv Hd' _. pose proof (signed_saturates neg b v d any err Hb Hv Hd') as Hsat.
    by rewrite Ecut in Hsat.
Qed.
End SignedOk.

(** ** The unsigned functions *)

Section UnsignedOk.
Context `{CharModel} (wrap : Z -> Z) (umax : Z).
Context (Hmax : 100 <= umax) (Hwrap : forall v, 0 <= v <= umax -> wrap v = v).

Lemma unsigned_saturates b v d any err :
  2 <= b <= 36 -> 0 <= v <= umax -> 0 <= d < b ->
  unsigned_accumulate wrap umax b (umax / b) (umax mod b) d (mkScan v any err) =
  if v * b + d <=? umax then mkScan (v * b + d) 1 err else mkScan umax (-1) (Some ERANGE).
Proof using Hmax Hwrap.
  intros Hb Hv Hd. unfold unsigned_accumulate. cbn [sc_acc sc_err].
  rewrite cutoff_test by lia. destruct (Z.leb_spec (v * b + d) umax); simpl; [|done].
  rewrite (Hwrap (v * b)) by nia. rewrite Hwrap by nia. done.
Qed.

Lemma strto_unsigned_ok cutoffs fuel m a s base skip neg b ds rest :
  (forall b, 2 <= b <= 36 -> cutoffs b = (umax / b, umax mod b)) ->
  cstr m a s -> numeral s base skip neg b ds rest -> 2 <= b <= 36 -> (length s < fuel)%nat ->
  strto_unsigned wrap umax cutoffs fuel a base m =
  Ok (if num b ds <=? umax then if neg then wrap (- num b ds) else num b ds else umax,
      match ds with [] => a | _ => a + skip + Z.of_nat (length ds) end,
      if num b ds <=? umax then None else Some ERANGE) m.
Proof using Hmax Hwrap.
  intros Hcut Hs Hn Hb Hf. destruct (strto_start_ok fuel m a s base skip neg b ds rest Hs Hn Hf) as (c & E & Hc).
  destruct Hn as (ws & sg & pre & Es & Ek & _ & _ & _ & Hd & Hr).
  assert (Hs' : cstr m (a + skip) (ds ++ rest)).
  { rewrite Ek. apply cstr_app. by rewrite <- !app_assoc, <- Es. }
  assert (Hbytes : Forall is_byte ds).
  { destruct Hs as [_ Hs]. rewrite Es, !Forall_app in Hs. destruct Hs as (_ & _ & _ & Hs & _).
    eapply list.Forall_impl; [exact Hs|]. unfold is_char, is_byte. lia. }
  assert (Hl : (length ds < fuel)%nat) by (rewrite Es, !length_app in Hf; lia).
  unfold strto_unsigned. mstep ltac:(exact E). rewrite Hcut by done.
  mstep ltac:(apply digit_loop with (ds := ds) (rest := rest); [exact Hs'|done|done|done|done]).
  rewrite (eat_digits _ b umax (fun v => v) umax ltac:(lia) ltac:(lia)); [|done| |done|done].
  - destruct ds as [|d ds].
    { change (num b []) with 0. zif. cbn. destruct neg; simpl; [by rewrite Hwrap by lia|done]. }
    destruct (num b (d :: ds) <=? umax); unfold mret, M_ret; cbn [sc_acc sc_any sc_err];
      destruct neg; simpl andb; cbv iota; do 3 f_equal; cbn [truthy Z.eqb negb]; lia.
  - intros v d any err Hv Hd' _. by apply unsigned_saturates.
Qed.
End UnsignedOk.

Lemma imax_cutoffs_eq neg b : 2 <= b <= 36 -> imax_cutoffs neg b = signed_cutoffs INTMAX_MIN INTMAX_MAX neg b.
Proof.
  intros Hb. unfold imax_cutoffs, signed_cutoffs.
  repeat match goal with |- context [b =? ?k] => destruct (Z.eqb_spec b k); [subst b; by destruct neg|] end.
  by destruct neg.
Qed.

Lemma umax_cutoffs_eq b : umax_cutoffs b = (UINTMAX_MAX / b, UINTMAX_MAX mod b).
Proof. unfold umax_cutoffs. repeat bcase; subst; done. Qed.

(** ** The properties *)

(** What a signed conversion returns: the value, the end pointer and errno. *)
Definition signed_result (lmin lmax : Z) (neg : bool) (v end_ : Z) : Z * Z * option Z :=
  let x := if neg then - v else v in
  if x <? lmin then (lmin, end_, Some ERANGE)
  else if lmax <? x then (lmax, end_, Some ERANGE) else (x, end_, None).

(** C40: strtol and strtoimax convert a numeral (white space, sign, 0x or octal
    prefix, digits of the base) to its value; values beyond the range of long or
    intmax_t give the nearest limit and ERANGE, with no overflow in between; the
    end pointer is the address after the last digit, or the start of the string
    when there is no digit.  atoi and atol return the low 32 bits of the 64-bit
    value. *)
Theorem strtol_converts `{CharModel} (fuel : nat) (m : mem) (a : Z) (s : list Z)
    (base skip : Z) (neg : bool) (b : Z) (ds rest : list Z) :
  cstr m a s -> numeral s base skip neg b ds rest -> 2 <= b <= 36 -> (length s < fuel)%nat ->
  let end_ := match ds with [] => a | _ => a + skip + Z.of_nat (length ds) end in
  strtol fuel a base m = Ok (signed_result LONG_MIN LONG_MAX neg (num b ds) end_) m /\
  strtoimax fuel a base m = Ok (signed_result INTMAX_MIN INTMAX_MAX neg (num b ds) end_) m /\
  (base = 10 -> atoi fuel a m = Ok (s32 (signed_result INTMAX_MIN INTMAX_MAX neg (num b ds) end_).1.1) m).
Proof.
  intros Hs Hn Hb Hf end_.
  assert (Hnn : 0 <= num b ds).
  { destruct Hn as (ws & sg & pre & Es & _ & _ & _ & _ & Hd & _). apply num_nonneg; [lia| |done].
    destruct Hs as [_ Hs]. rewrite Es, !Forall_app in Hs. destruct Hs as (_ & _ & _ & Hs & _).
    eapply list.Forall_impl; [exact Hs|]. unfold is_char, is_byte. lia. }
  assert (R : forall lmax, 0 <= lmax -> (if num b ds <=? mag_limit lmax neg then signed neg (num b ds) else clamp lmax neg, end_,
    if num b ds <=? mag_limit lmax neg then None else Some ERANGE) =
    signed_result (- lmax - 1) lmax neg (num b ds) end_).
  { intros lmax Hmax. unfold signed_result, mag_limit, signed, clamp. destruct neg; repeat bcase; try lia; done. }
  assert (E1 : strtol fuel a base m = Ok (signed_result LONG_MIN LONG_MAX neg (num b ds) end_) m).
  { change LONG_MIN with (- LONG_MAX - 1). rewrite <- R by done. apply (strto_signed_ok s32 LONG_MAX) with (s := s) (rest := rest); try done.
    intros v Hv. apply s32_small. unfold LONG_MAX in Hv. lia. }
  assert (E2 : strtoimax fuel a base m = Ok (signed_result INTMAX_MIN INTMAX_MAX neg (num b ds) end_) m).
  { change INTMAX_MIN with (- INTMAX_MAX - 1). rewrite <- R by done. apply (strto_signed_ok s64 INTMAX_MAX) with (s := s) (rest := rest); try done.
    - intros v Hv. apply s64_small. unfold INTMAX_MAX in Hv. lia.
    - intros. by apply imax_cutoffs_eq. }
  split; [done|]. split; [done|]. intros ->. unfold atoi. rewrite (bind_ok _ _ _ _ _ E2).
  by destruct (signed_result _ _ _ _ _) as [[v p] e].
Qed.

(** "  -0x1F zz" *)
Definition strto_ex_s : list Z := [32; 32; 45; 48; 120; 49; 70; 32; 122; 122].
Definition strto_ex_mem : mem := mem_write 1000 (strto_ex_s ++ [0]) ∅.

Lemma strto_ex_cstr : cstr strto_ex_mem 1000 strto_ex_s.
Proof. by_compute. Qed.

Lemma strto_ex_numeral : numeral strto_ex_s 0 5 true 16 [49; 70] [32; 122; 122].
Proof.
  exists [32; 32], [45], [48; 120]. split_and!; try (vm_compute; reflexivity).
  - repeat constructor; vm_compute; reflexivity.
  - by left.
  - left. exists 120. split_and!; auto.
  - repeat constructor; vm_compute; reflexivity.
Qed.

Lemma strtol_converts_witness :
  @strtol true 20 1000 0 strto_ex_mem = Ok (-31, 1007, None) strto_ex_mem.
Proof.
  refine (proj1 (@strtol_converts true 20 strto_ex_mem 1000 strto_ex_s 0 5 true 16 [49; 70] [32; 122; 122] _ _ _ _)).
  - apply strto_ex_cstr.
  - apply strto_ex_numeral.
  - lia.
  - vm_compute. lia.
Defined.

(** strtoul and strtoumax convert a numeral to its value, negated modulo
    the size of the type when it has a minus sign; values that do not fit give
    the largest value and ERANGE; the end pointer is as for strtol. *)
Theorem strtoul_converts `{CharModel} (fuel : nat) (m : mem) (a : Z) (s : list Z)
    (base skip : Z) (neg : bool) (b : Z) (ds rest : list Z) :
  cstr m a s -> numeral s base skip neg b ds rest -> 2 <= b <= 36 -> (length s < fuel)%nat ->
  let end_ := match ds with [] => a | _ => a + skip + Z.of_nat (length ds) end in
  let v := num b ds in
  strtoul fuel a base m =
    Ok (if v <=? ULONG_MAX then (if neg then u32 (- v) else v, end_, None)
        else (ULONG_MAX, end_, Some ERANGE)) m /\
  strtoumax fuel a base m =
    Ok (if v <=? UINTMAX_MAX then (if neg then u64 (- v) else v, end_, None)
        else (UINTMAX_MAX, end_, Some ERANGE)) m.
Proof.
  intros Hs Hn Hb Hf end_ v. split.
  - unfold strtoul. rewrite (strto_unsigned_ok u32 ULONG_MAX) with (s := s) (skip := skip) (neg := neg)
      (b := b) (ds := ds) (rest := rest); try done.
    + fold v. by destruct (v <=? ULONG_MAX).
    + intros x Hx. apply u32_small. unfold ULONG_MAX in Hx. lia.
  - unfold strtoumax. rewrite (strto_unsigned_ok u64 UINTMAX_MAX) with (s := s) (skip := skip) (neg := neg)
      (b := b) (ds := ds) (rest := rest); try done.
    + fold v. by destruct (v <=? UINTMAX_MAX).
    + intros x Hx. apply u64_small. unfold UINTMAX_MAX in Hx. lia.
    + intros x _. apply umax_cutoffs_eq.
Qed.

Lemma strtoul_converts_witness :
  @strtoul false 20 1000 0 strto_ex_mem = Ok (4294967265, 1007, None) strto_ex_mem.
Proof.
  refine (proj1 (@strtoul_converts false 20 strto_ex_mem 1000 strto_ex_s 0 5 true 16 [49; 70] [32; 122; 122] _ _ _ _)).
  - apply strto_ex_cstr.
  - apply strto_ex_numeral.
  - lia.
  - vm_compute. lia.
Defined.
