(* ===== verification/Futex.v ===== *)
(** * Threads, futexes and step relations

    Concurrent code (the mutexes and semaphores of libc/bionic) is modelled as a
    set of threads that take turns: each thread is at a control point of the
    function it runs, and a step of the system is one atomic action of one
    thread: an atomic instruction of sys/atomics.h, a plain load or store of the
    shared word, or a futex system call.  [reachable] is what the interleavings
    of such steps lead to. *)

From Stdlib Require Import ZArith Lia.
From stdpp Require Import base list numbers.
From S2P Require Import Prelude.

Open Scope Z_scope.

(** Threads are numbered. *)
Notation thread := nat (only parsing).

(** A store of one control point per thread, updated at one thread. *)
Definition upd {A : Type} (f : thread -> A) (t : thread) (a : A) : thread -> A :=
  fun t' => if decide (t' = t) then a else f t'.

Lemma upd_same {A} (f : thread -> A) t a : upd f t a t = a.
Proof. unfold upd. by rewrite decide_True. Qed.

Lemma upd_other {A} (f : thread -> A) t a t' : t' <> t -> upd f t a t' = f t'.
Proof. intros H. unfold upd. by rewrite decide_False. Qed.

(** Case analysis on whether a thread is the one that moved. *)
Ltac upd_case t t' :=
  destruct (decide (t' = t)) as [->|?];
  [rewrite ?upd_same in * | rewrite ?upd_other in * by done].

Section Reach.
Context {St : Type} (init : St -> Prop) (step : St -> St -> Prop).

Inductive reachable : St -> Prop :=
| reach_init s : init s -> reachable s
| reach_step s s' : reachable s -> step s s' -> reachable s'.

(** Invariants hold in every reachable state. *)
Lemma reachable_invariant (I : St -> Prop) :
  (forall s, init s -> I s) -> (forall s s', I s -> step s s' -> I s') ->
  forall s, reachable s -> I s.
Proof. intros H0 H1 s. induction 1; eauto. Qed.

(** Sequences of steps from a state. *)
Inductive steps : St -> St -> Prop :=
| steps_refl s : steps s s
| steps_one s s' s'' : step s s' -> steps s' s'' -> steps s s''.

Lemma steps_reachable s s' : reachable s -> steps s s' -> reachable s'.
Proof. intros Hr. induction 1; [done|]. apply IHsteps. by eapply reach_step. Qed.
End Reach.
