(* ===== verification/Mutex.v ===== *)
(** * Normal mutexes: _normal_lock and _normal_unlock of libc/bionic/pthread.c

    The word of a normal mutex holds 0 (unlocked), 1 (locked, no waiters) or
    2 (locked, maybe waiters).  Any number of threads run _normal_lock and
    _normal_unlock on it; every atomic access and every futex call is one step
    of the thread that makes it, and the steps of the threads interleave
    freely.  __futex_wait may also return for no reason (a signal), so a
    sleeping thread may wake up at any time. *)

From Stdlib Require Import ZArith Lia.
From stdpp Require Import base list numbers.
From S2P Require Import Prelude Futex.

Open Scope Z_scope.

(** Where a thread is. *)
Inductive pc : Type :=
| Idle                (* in neither function, does not hold the mutex *)
| LockCmpxchg         (* _normal_lock: before __atomic_cmpxchg(0, 1, &value) *)
| LockSwap            (* before __atomic_swap(2, &value) *)
| LockWait            (* before __futex_wait(&value, 2, 0) *)
| LockSleep           (* asleep in __futex_wait *)
| Critical            (* _normal_lock has returned *)
| UnlockDec           (* _normal_unlock: before __atomic_dec(&value) *)
| UnlockStore         (* before value = 0 *)
| UnlockWake.         (* before __futex_wake(&value, 1) *)

#[export] Instance pc_eq_dec : EqDecision pc.
Proof. solve_decision. Defined.

Record mutex_state := mkMutex { mword : Z; mpc : thread -> pc }.

(** ** The atomic steps of one thread

    [normal_lock_step] and [normal_unlock_step] give the next control point and the new value
    of the word; [None] when the thread is not in that function or when it is
    asleep. *)

Definition normal_lock_step (p : pc) (v : Z) : option (pc * Z) :=
  match p with
  | LockCmpxchg => Some (if v =? 0 then (Critical, 1) else (LockSwap, v))
  | LockSwap => Some (if negb (v =? 0) then (LockWait, 2) else (Critical, 2))
  | LockWait => Some (if v =? 2 then (LockSleep, v) else (LockSwap, v))
  | _ => None
  end.

Definition normal_unlock_step (p : pc) (v : Z) : option (pc * Z) :=
  match p with
  | UnlockDec => Some (if negb (v =? 1) then (UnlockStore, v - 1) else (Idle, v - 1))
  | UnlockStore => Some (UnlockWake, 0)
  | _ => None
  end.

(** pthread_mutex_trylock on a normal mutex: one compare-and-exchange, and the
    value returned. *)
Definition normal_trylock_step (v : Z) : Z * Z := if v =? 0 then (0, 1) else (EBUSY, v).

Inductive mutex_step : mutex_state -> mutex_state -> Prop :=
| step_call_lock s t :
    mpc s t = Idle -> mutex_step s (mkMutex (mword s) (upd (mpc s) t LockCmpxchg))
| step_lock s t p v :
    normal_lock_step (mpc s t) (mword s) = Some (p, v) -> mutex_step s (mkMutex v (upd (mpc s) t p))
| step_trylock s t r v :
    mpc s t = Idle -> normal_trylock_step (mword s) = (r, v) ->
    mutex_step s (mkMutex v (upd (mpc s) t (if r =? 0 then Critical else Idle)))
| step_spurious s t :
    mpc s t = LockSleep -> mutex_step s (mkMutex (mword s) (upd (mpc s) t LockSwap))
| step_call_unlock s t :
    mpc s t = Critical -> mutex_step s (mkMutex (mword s) (upd (mpc s) t UnlockDec))
| step_unlock s t p v :
    normal_unlock_step (mpc s t) (mword s) = Some (p, v) -> mutex_step s (mkMutex v (upd (mpc s) t p))
| step_wake s t t' :
    (* __futex_wake wakes one of the sleepers *)
    mpc s t = UnlockWake -> mpc s t' = LockSleep ->
    mutex_step s (mkMutex (mword s) (upd (upd (mpc s) t' LockSwap) t Idle))
| step_wake_none s t :
    mpc s t = UnlockWake -> (forall t', mpc s t' <> LockSleep) ->
    mutex_step s (mkMutex (mword s) (upd (mpc s) t Idle)).

(** PTHREAD_MUTEX_INITIALIZER, and no thread in the mutex functions. *)
Definition mutex_unlocked (s : mutex_state) : Prop := mword s = 0 /\ forall t, mpc s t = Idle.

(** ** Mutual exclusion *)

(** A thread holds the mutex from the step that acquires it to the step of
    _normal_unlock that releases it. *)
Definition holds (p : pc) : bool :=
  match p with Critical | UnlockDec | UnlockStore => true | _ => false end.

Record excl (s : mutex_state) : Prop := {
  excl_range : mword s = 0 \/ mword s = 1 \/ mword s = 2;
  excl_free : mword s = 0 -> forall t, holds (mpc s t) = false;
  excl_held : mword s <> 0 -> exists t, holds (mpc s t) = true;
  excl_unique : forall t t', holds (mpc s t) = true -> holds (mpc s t') = true -> t = t'
}.

Section ExclSteps.
Context (s : mutex_state) (Hs : excl s) (t : thread) (p : pc) (v : Z).
Let s' := mkMutex v (upd (mpc s) t p).

(** A move that neither acquires nor releases. *)
Lemma excl_keep :
  holds p = holds (mpc s t) -> (v = 0 <-> mword s = 0) -> v = 0 \/ v = 1 \/ v = 2 -> excl s'.
Proof.
  intros Hp Hv Hr. destruct Hs as [_ Hfree Hheld Huniq].
  assert (E : forall t', holds (upd (mpc s) t p t') = holds (mpc s t')).
  { intros t'. by upd_case t t'. }
  split; simpl; [done| | |].
  - intros H0 t'. rewrite E. apply Hfree. tauto.
  - intros H0. destruct Hheld as [t' Ht']; [tauto|]. exists t'. by rewrite E.
  - intros t1 t2. rewrite !E. apply Huniq.
Qed.

(** A move that acquires the free mutex. *)
Lemma excl_acquire : mword s = 0 -> holds p = true -> v = 1 \/ v = 2 -> excl s'.
Proof.
  intros H0 Hp Hv. destruct Hs as [_ Hfree _ _]. specialize (Hfree H0).
  split; simpl; [lia|lia| |].
  - intros _. exists t. by rewrite upd_same.
  - intros t1 t2 H1 H2. upd_case t t1; upd_case t t2; try done; by rewrite Hfree in *.
Qed.

(** A move by which the holder releases. *)
Lemma excl_release : holds (mpc s t) = true -> holds p = false -> v = 0 -> excl s'.
Proof.
  intros Ht Hp ->. destruct Hs as [_ _ _ Huniq]. split; simpl; [lia| |lia|].
  - intros _ t'. upd_case t t'; [done|].
    destruct (holds (mpc s t')) eqn:E; [|done]. by pose proof (Huniq t' t E Ht).
  - intros t1 t2 H1 H2. upd_case t t1; [by rewrite Hp in H1|].
    upd_case t t2; [by rewrite Hp in H2|]. by apply Huniq.
Qed.
End ExclSteps.

(** The holder sees a non-zero word. *)
Lemma excl_nonzero s t : excl s -> holds (mpc s t) = true -> mword s = 1 \/ mword s = 2.
Proof.
  intros Hs Ht. destruct (excl_range s Hs) as [H|H]; [|done].
  by rewrite (excl_free s Hs H t) in Ht.
Qed.

Lemma excl_lock s t p v :
  excl s -> normal_lock_step (mpc s t) (mword s) = Some (p, v) ->
  excl (mkMutex v (upd (mpc s) t p)).
Proof.
  intros Hs. pose proof (excl_range s Hs) as Hr.
  destruct (mpc s t) eqn:Ht; try done; simpl; intros [= E]; revert E; bcase; simpl;
    intros [= <- <-].
  all: first [apply excl_acquire; (done || lia) | apply excl_keep; rewrite ?Ht; (done || lia)].
Qed.

Lemma excl_unlock s t p v :
  excl s -> normal_unlock_step (mpc s t) (mword s) = Some (p, v) ->
  excl (mkMutex v (upd (mpc s) t p)).
Proof.
  intros Hs. pose proof (excl_nonzero s t Hs) as Hr.
  destruct (mpc s t) eqn:Ht; try done; simpl in *; specialize (Hr eq_refl).
  - bcase; simpl; intros [= <- <-].
    + apply excl_release; rewrite ?Ht; (done || lia).
    + apply excl_keep; rewrite ?Ht; (done || lia).
  - intros [= <- <-]. apply excl_release; rewrite ?Ht; done.
Qed.

Lemma excl_step s s' : excl s -> mutex_step s s' -> excl s'.
Proof.
  intros Hs Hstep. pose proof (excl_range s Hs) as Hr.
  destruct Hstep as [s t Ht|s t p v Hl|s t r v Ht Htry|s t Ht|s t Ht|s t p v Hu|s t t' Ht Ht'|s t Ht _].
  - apply excl_keep; rewrite ?Ht; done.
  - by apply excl_lock.
  - revert Htry. unfold normal_trylock_step. bcase; intros [= <- <-]; simpl.
    + apply excl_acquire; (done || lia).
    + apply excl_keep; rewrite ?Ht; done.
  - apply excl_keep; rewrite ?Ht; done.
  - apply excl_keep; rewrite ?Ht; done.
  - by apply excl_unlock.
  - assert (H1 : excl (mkMutex (mword s) (upd (mpc s) t' LockSwap)))
      by (apply excl_keep; rewrite ?Ht'; done).
    apply (excl_keep _ H1 t Idle (mword s)); simpl; [|done|done].
    rewrite upd_other by congruence. by rewrite Ht.
  - apply excl_keep; rewrite ?Ht; done.
Qed.

(** ** No lost wake-ups *)

(** A thread that will look at the word again or is about to wake a sleeper. *)
Definition rechecks (p : pc) : bool :=
  match p with LockSwap | LockWait | UnlockStore | UnlockWake => true | _ => false end.

(** While a thread sleeps, the word tells the holder to wake somebody up, or
    somebody is on the way to do so or to set the word again. *)
Definition watched (s : mutex_state) : Prop :=
  forall t, mpc s t = LockSleep -> mword s = 2 \/ exists t', rechecks (mpc s t') = true.

(** A move to a control point that rechecks, or one with the word at 2. *)
Lemma watched_by s t p v :
  rechecks p = true \/ v = 2 -> watched (mkMutex v (upd (mpc s) t p)).
Proof.
  intros [Hp| ->]; intros t' _; simpl; [right; exists t; by rewrite upd_same | by left].
Qed.

(** A move between two control points that do not recheck. *)
Lemma watched_keep s t p v :
  watched s -> rechecks (mpc s t) = false -> p <> LockSleep ->
  (mword s = 2 -> v = 2 \/ rechecks p = true) -> watched (mkMutex v (upd (mpc s) t p)).
Proof.
  intros Hs Ht Hp Hv t' Ht'. simpl in *. upd_case t t'; [done|].
  destruct (Hs t' Ht') as [H2|[u Hu]].
  - destruct (Hv H2); [by left | right; exists t; by rewrite upd_same].
  - right. exists u. upd_case t u; congruence.
Qed.

Lemma watched_step s s' : excl s -> watched s -> mutex_step s s' -> watched s'.
Proof.
  intros Hx Hs Hstep. pose proof (excl_range s Hx) as Hr.
  destruct Hstep as [s t Ht|s t p v Hl|s t r v Ht Htry|s t Ht|s t Ht|s t p v Hu|s t t' Ht Ht'|s t Ht Hn].
  - apply watched_keep; rewrite ?Ht; auto.
  - destruct (mpc s t) eqn:Ht; try done; simpl in Hl; revert Hl; bcase; simpl;
      intros [= <- <-].
    all: first [by apply watched_by; (by left) || (right; lia)
               | apply watched_keep; rewrite ?Ht; try done; intros; lia].
  - revert Htry. unfold normal_trylock_step. bcase; intros [= <- <-]; simpl;
      apply watched_keep; rewrite ?Ht; auto; lia.
  - apply watched_by. by left.
  - apply watched_keep; rewrite ?Ht; auto.
  - destruct (mpc s t) eqn:Ht; try done; simpl in Hu; revert Hu; try bcase; simpl;
      intros [= <- <-].
    all: first [apply watched_by; by left | apply watched_keep; rewrite ?Ht; try done; lia].
  - intros u Hu. right. exists t'. simpl. rewrite upd_other by congruence. by rewrite upd_same.
  - intros u Hu. simpl in Hu. exfalso. upd_case t u; [done | by apply (Hn u)].
Qed.

Lemma mutex_invariant s :
  reachable mutex_unlocked mutex_step s -> excl s /\ watched s.
Proof.
  apply (reachable_invariant _ _ (fun s => excl s /\ watched s)).
  - intros s0 [H0 H]. split; [|intros t Ht; by rewrite H in Ht].
    split; try (rewrite H0; lia); intros; by rewrite ?H in *.
  - intros s1 s2 [H1 H2] Hstep. split; [by eapply excl_step | by eapply watched_step].
Qed.

(** ** The properties *)

(** C1: mutual exclusion of normal mutexes: in every interleaving of
    _normal_lock, _normal_unlock and pthread_mutex_trylock by any number of
    threads, at most one thread holds the mutex, and the word is 0 exactly when
    none does. *)
Theorem normal_mutex_exclusion (s : mutex_state) :
  reachable mutex_unlocked mutex_step s ->
  (forall t t', holds (mpc s t) = true -> holds (mpc s t') = true -> t = t') /\
  (mword s = 0 <-> forall t, holds (mpc s t) = false).
Proof.
  intros [Hx _]%mutex_invariant. split; [apply (excl_unique s Hx)|]. split.
  - apply (excl_free s Hx).
  - intros Hn. destruct (Z.eq_dec (mword s) 0) as [|H0]; [done|].
    destruct (excl_held s Hx H0) as [t Ht]. by rewrite Hn in Ht.
Qed.

(** One thread locks, a second one blocks, and both can be seen. *)
Definition contended : mutex_state :=
  mkMutex 2 (upd (upd (upd (upd (upd (upd (fun _ => Idle) 0 LockCmpxchg) 0 Critical)
                          1 LockCmpxchg) 1 LockSwap) 1 LockWait) 1 LockSleep)%nat.

Lemma contended_reachable : reachable mutex_unlocked mutex_step contended.
Proof.
  unfold contended.
  eapply reach_step; [|by eapply (step_lock (mkMutex 2 _) 1)].
  eapply reach_step; [|by eapply (step_lock (mkMutex 1 _) 1)].
  eapply reach_step; [|by eapply (step_lock (mkMutex 1 _) 1)].
  eapply reach_step; [|by eapply (step_call_lock (mkMutex 1 _) 1)].
  eapply reach_step; [|by eapply (step_lock (mkMutex 0 _) 0)].
  eapply reach_step; [|by eapply (step_call_lock (mkMutex 0 _) 0)].
  by apply reach_init.
Qed.

Lemma normal_mutex_exclusion_witness :
  (forall t t', holds (mpc contended t) = true -> holds (mpc contended t') = true -> t = t') /\
  (mword contended = 0 <-> forall t, holds (mpc contended t) = false).
Proof. apply (normal_mutex_exclusion contended). apply contended_reachable. Defined.

(** C2: nobody is orphaned on the wait queue: whenever a thread sleeps in
    __futex_wait, either the mutex is held with the word at 2, so that
    _normal_unlock of the holder will wake a sleeper, or another thread is awake
    between its first failed attempt and its next look at the word, or is about
    to call __futex_wake; in particular, a mutex that stays free with sleepers
    cannot occur. *)
Theorem normal_mutex_no_lost_wakeup (s : mutex_state) (t : thread) :
  reachable mutex_unlocked mutex_step s -> mpc s t = LockSleep ->
  (mword s = 2 /\ exists h, holds (mpc s h) = true) \/
  (exists t', t' <> t /\ rechecks (mpc s t') = true).
Proof.
  intros [Hx Hw]%mutex_invariant Ht. destruct (Hw t Ht) as [H2|[t' Ht']].
  - left. split; [done|]. apply (excl_held s Hx). lia.
  - right. exists t'. split; [|done]. intros ->. by rewrite Ht in Ht'.
Qed.

Lemma normal_mutex_no_lost_wakeup_witness :
  (mword contended = 2 /\ exists h, holds (mpc contended h) = true) \/
  (exists t', t' <> 1%nat /\ rechecks (mpc contended t') = true).
Proof.
  apply (normal_mutex_no_lost_wakeup contended 1).
  - apply contended_reachable.
  - reflexivity.
Defined.
