(* ===== verification/RecMutex.v ===== *)
(** * Recursive and error-checking mutexes: libc/bionic/pthread.c

    The word of such a mutex packs the owner's kernel id (bits 31-16), the type
    (15-14), the counter of nested locks (13-2) and the lock state (1-0: 0, 1
    or 2).  It is only written under the global __recursive_lock, but read
    without it.  [lock_step], [unlock_step] and [trylock_step] are
    pthread_mutex_lock, pthread_mutex_unlock and pthread_mutex_trylock, one
    access of the word or of the global lock per step; a mutex of the normal
    type is passed on to the steps of _normal_lock and _normal_unlock. *)

From Stdlib Require Import ZArith Lia.
From stdpp Require Import base list numbers.
From S2P Require Import Prelude Futex Mutex.

Open Scope Z_scope.
Local Open Scope cint_scope.

(** ** The fields of the word *)

Definition MUTEX_OWNER (v : Z) : Z := Z.shiftr v 16 .& 0xffff.
Definition MUTEX_COUNTER (v : Z) : Z := Z.shiftr v 2 .& 0xfff.
Definition MUTEX_TYPE_MASK : Z := 0xc000.
Definition MUTEX_TYPE_NORMAL : Z := 0x0000.
Definition MUTEX_TYPE_RECURSIVE : Z := 0x4000.
Definition MUTEX_TYPE_ERRORCHECK : Z := 0x8000.
Definition MUTEX_COUNTER_SHIFT : Z := 2.
Definition MUTEX_COUNTER_MASK : Z := 0x3ffc.

(** ** Attributes and initialisation

    A pointer argument is [None] when it is NULL; the functions return the
    result code and the new contents. *)

Definition PTHREAD_MUTEX_NORMAL : Z := 0.
Definition PTHREAD_MUTEX_RECURSIVE : Z := 1.
Definition PTHREAD_MUTEX_ERRORCHECK : Z := 2.
Definition PTHREAD_MUTEX_DEFAULT : Z := PTHREAD_MUTEX_NORMAL.
Definition PTHREAD_PROCESS_PRIVATE : Z := 0.

Definition pthread_mutexattr_init (attr : option Z) : Z * option Z :=
  match attr with Some _ => (0, Some PTHREAD_MUTEX_DEFAULT) | None => (EINVAL, None) end.

Definition pthread_mutexattr_destroy (attr : option Z) : Z * option Z :=
  match attr with Some _ => (0, Some (-1)) | None => (EINVAL, None) end.

(** The second component is what is stored in [*type]. *)
Definition pthread_mutexattr_gettype (attr : option Z) : Z * option Z :=
  match attr with
  | Some a =>
      if (PTHREAD_MUTEX_NORMAL <=? a) && (a <=? PTHREAD_MUTEX_ERRORCHECK) then (0, Some a)
      else (EINVAL, None)
  | None => (EINVAL, None)
  end.

Definition pthread_mutexattr_settype (attr : option Z) (type : Z) : Z * option Z :=
  match attr with
  | Some a =>
      if (PTHREAD_MUTEX_NORMAL <=? type) && (type <=? PTHREAD_MUTEX_ERRORCHECK)
      then (0, Some type) else (EINVAL, Some a)
  | None => (EINVAL, None)
  end.

Definition pthread_mutexattr_setpshared (attr : option Z) (pshared : Z) : Z :=
  match attr with
  | None => EINVAL
  | Some _ => if pshared =? PTHREAD_PROCESS_PRIVATE then 0 else ENOTSUP
  end.

Definition pthread_mutexattr_getpshared (attr : option Z) : Z * option Z :=
  match attr with None => (EINVAL, None) | Some _ => (0, Some PTHREAD_PROCESS_PRIVATE) end.

(** The first argument is the word of the mutex, the second the attribute. *)
Definition pthread_mutex_init (mutex : option Z) (attr : option Z) : Z * option Z :=
  match mutex with
  | None => (EINVAL, None)
  | Some v =>
      match attr with
      | None => (0, Some MUTEX_TYPE_NORMAL)
      | Some a =>
          if a =? PTHREAD_MUTEX_NORMAL then (0, Some MUTEX_TYPE_NORMAL)
          else if a =? PTHREAD_MUTEX_RECURSIVE then (0, Some MUTEX_TYPE_RECURSIVE)
          else if a =? PTHREAD_MUTEX_ERRORCHECK then (0, Some MUTEX_TYPE_ERRORCHECK)
          else (EINVAL, Some v)
      end
  end.

Definition pthread_mutex_destroy (v : Z) : Z * Z := (0, s32 0xdead10cc).

(** ** Control points, with the values of the local variables *)

Inductive rpc : Type :=
| RIdle
| RDone (r : Z)                     (* the function has returned [r] *)
| InNormal (p : pc)                 (* in _normal_lock or _normal_unlock *)
(* pthread_mutex_lock *)
| LType                             (* before mtype = value & MUTEX_TYPE_MASK *)
| LOwner (mtype : Z)                (* before the test of MUTEX_OWNER *)
| LTryEnter (mtype n : Z)           (* for (;;): before _recursive_lock *)
| LTryLoad (mtype n : Z)
| LTryStore (mtype n oldv : Z)
| LTryLeave (mtype oldv : Z)        (* before _recursive_unlock *)
| LWait (mtype oldv : Z)            (* before __futex_wait(&value, oldv, 0) *)
| LSleep (mtype : Z)
(* the owner locks again, in pthread_mutex_lock or pthread_mutex_trylock *)
| NestEnter
| NestLoad
| NestStore (oldv : Z)
| NestLeave
(* pthread_mutex_unlock *)
| UType
| UOwner (mtype : Z)
| UEnter (mtype : Z)
| ULoad (mtype : Z)
| UStore (mtype oldv : Z)
| ULeave (oldv : Z)
| UWake                             (* before __futex_wake(&value, 1) *)
(* pthread_mutex_trylock *)
| TType
| TOwner (mtype : Z)
| TEnter (mtype : Z)
| TLoad (mtype : Z)
| TStore (mtype oldv : Z)
| TLeave (mtype oldv : Z).

(** What one step does: the next control point, the new word, the new holder
    of __recursive_lock, and how the number of times the thread has locked the
    mutex changes (the last is not in the program: it says what the word must
    mean). *)
Record effect := mkEffect { e_pc : rpc; e_word : Z; e_glock : option thread; e_depth : Z }.

Section Steps.
(** The thread, its kernel id, the word and the global lock. *)
Context (t : thread) (tid : Z) (v : Z) (g : option thread).

Let goto (p : rpc) : option effect := Some (mkEffect p v g 0).
Let enter (p : rpc) : option effect :=
  match g with None => Some (mkEffect p v (Some t) 0) | Some _ => None end.
Let leave (p : rpc) : option effect := Some (mkEffect p v None 0).
Let assign (p : rpc) (w d : Z) : option effect := Some (mkEffect p w g d).

(** counter = (oldv + (1 << MUTEX_COUNTER_SHIFT)) & MUTEX_COUNTER_MASK and
    (oldv & ~MUTEX_COUNTER_MASK) | counter *)
Definition nested (oldv : Z) : Z :=
  let counter := s32 (oldv + Z.shiftl 1 MUTEX_COUNTER_SHIFT) .& MUTEX_COUNTER_MASK in
  (oldv .& Z.lnot MUTEX_COUNTER_MASK) .| counter.

Definition nest_step (p : rpc) : option effect :=
  match p with
  | NestEnter => enter NestLoad
  | NestLoad => goto (NestStore v)
  | NestStore oldv => assign NestLeave (nested oldv) 1
  | NestLeave => leave (RDone 0)
  | _ => None
  end.

Definition taken (mtype n : Z) : Z := s32 (Z.shiftl tid 16) .| mtype .| n.

Definition lock_step (p : rpc) : option effect :=
  match p with
  | LType =>
      let mtype := v .& MUTEX_TYPE_MASK in
      if mtype =? MUTEX_TYPE_NORMAL then goto (InNormal LockCmpxchg) else goto (LOwner mtype)
  | LOwner mtype =>
      if tid =? MUTEX_OWNER v then
        if mtype =? MUTEX_TYPE_ERRORCHECK then goto (RDone EDEADLK) else goto NestEnter
      else goto (LTryEnter mtype 1)
  | LTryEnter mtype n => enter (LTryLoad mtype n)
  | LTryLoad mtype n => goto (LTryStore mtype n v)
  | LTryStore mtype n oldv =>
      if oldv =? mtype then assign (LTryLeave mtype oldv) (taken mtype n) 1
      else if oldv .& 3 =? 1 then assign (LTryLeave mtype (Z.lxor oldv 3)) (Z.lxor oldv 3) 0
      else goto (LTryLeave mtype oldv)
  | LTryLeave mtype oldv => leave (if oldv =? mtype then RDone 0 else LWait mtype oldv)
  | LWait mtype oldv => if v =? oldv then goto (LSleep mtype) else goto (LTryEnter mtype 2)
  | _ => nest_step p
  end.

Definition unlock_step (p : rpc) : option effect :=
  match p with
  | UType =>
      let mtype := v .& MUTEX_TYPE_MASK in
      if mtype =? MUTEX_TYPE_NORMAL then goto (InNormal UnlockDec) else goto (UOwner mtype)
  | UOwner mtype =>
      if tid =? MUTEX_OWNER v then goto (UEnter mtype) else goto (RDone EPERM)
  | UEnter mtype => enter (ULoad mtype)
  | ULoad mtype => goto (UStore mtype v)
  | UStore mtype oldv =>
      if truthy (oldv .& MUTEX_COUNTER_MASK)
      then assign (ULeave 0) (s32 (oldv - Z.shiftl 1 MUTEX_COUNTER_SHIFT)) (-1)
      else assign (ULeave oldv) mtype (-1)
  | ULeave oldv => leave (if oldv .& 3 =? 2 then UWake else RDone 0)
  | _ => None
  end.

Definition trylock_step (p : rpc) : option effect :=
  match p with
  | TType =>
      let mtype := v .& MUTEX_TYPE_MASK in
      if mtype =? MUTEX_TYPE_NORMAL then
        let '(r, v') := normal_trylock_step v in assign (RDone r) v' (if r =? 0 then 1 else 0)
      else goto (TOwner mtype)
  | TOwner mtype =>
      if tid =? MUTEX_OWNER v then
        if mtype =? MUTEX_TYPE_ERRORCHECK then goto (RDone EDEADLK) else goto NestEnter
      else goto (TEnter mtype)
  | TEnter mtype => enter (TLoad mtype)
  | TLoad mtype => goto (TStore mtype v)
  | TStore mtype oldv =>
      if oldv =? mtype then assign (TLeave mtype oldv) (taken mtype 1) 1
      else goto (TLeave mtype oldv)
  | TLeave mtype oldv => leave (if oldv =? mtype then RDone 0 else RDone EBUSY)
  | _ => None
  end.

(** Inside the functions for normal mutexes. *)
Definition normal_step (p : rpc) : option effect :=
  match p with
  | InNormal q =>
      match normal_lock_step q v with
      | Some (Critical, v') => assign (RDone 0) v' 1
      | Some (q', v') => assign (InNormal q') v' 0
      | None =>
          match normal_unlock_step q v with
          | Some (Idle, v') => assign (RDone 0) v' (-1)
          | Some (q', v') => assign (InNormal q') v' 0
          | None => None
          end
      end
  | _ => None
  end.

Definition thread_step (p : rpc) : option effect :=
  match lock_step p with
  | Some e => Some e
  | None =>
      match unlock_step p with
      | Some e => Some e
      | None => match trylock_step p with Some e => Some e | None => normal_step p end
      end
  end.
End Steps.

(** ** The system *)

Record rstate := mkR {
  rword : Z; rglock : option thread; rpcs : thread -> rpc; rdepth : thread -> Z }.

(** Where a sleeper goes on when it wakes up, and who is about to wake one. *)
Definition woken (p : rpc) : option rpc :=
  match p with
  | LSleep mtype => Some (LTryEnter mtype 2)
  | InNormal LockSleep => Some (InNormal LockSwap)
  | _ => None
  end.

Definition wakes (p : rpc) : bool :=
  match p with UWake | InNormal UnlockWake => true | _ => false end.

Definition entry (p : rpc) : bool := match p with LType | UType | TType => true | _ => false end.

Definition goes (s : rstate) (t : thread) (p : rpc) : rstate :=
  mkR (rword s) (rglock s) (upd (rpcs s) t p) (rdepth s).

Definition runs (s : rstate) (t : thread) (e : effect) : rstate :=
  mkR (e_word e) (e_glock e) (upd (rpcs s) t (e_pc e))
      (upd (rdepth s) t (rdepth s t + e_depth e)).

(** [n] threads with kernel ids [tid] call the three functions in any order. *)
Inductive rstep (n : nat) (tid : thread -> Z) : rstate -> rstate -> Prop :=
| r_call s t p : (t < n)%nat -> rpcs s t = RIdle -> entry p = true -> rstep n tid s (goes s t p)
| r_return s t r : rpcs s t = RDone r -> rstep n tid s (goes s t RIdle)
| r_run s t e :
    thread_step t (tid t) (rword s) (rglock s) (rpcs s t) = Some e -> rstep n tid s (runs s t e)
| r_spurious s t p : woken (rpcs s t) = Some p -> rstep n tid s (goes s t p)
| r_wake s t t' p :
    wakes (rpcs s t) = true -> woken (rpcs s t') = Some p ->
    rstep n tid s (goes (goes s t' p) t (RDone 0))
| r_wake_none s t :
    wakes (rpcs s t) = true -> (forall t', woken (rpcs s t') = None) ->
    rstep n tid s (goes s t (RDone 0)).

(** A mutex just initialised with type [T]. *)
Definition fresh (T : Z) (s : rstate) : Prop :=
  rword s = T /\ rglock s = None /\ forall t, rpcs s t = RIdle /\ rdepth s t = 0.

(** No thread nests its locks more than the counter can count. *)
Definition counter_limit : Z := 4096.
Definition rstep_bounded (n : nat) (tid : thread -> Z) (s s' : rstate) : Prop :=
  rstep n tid s s' /\ forall t, rdepth s' t <= counter_limit.

(** ** The word of a mutex that is held *)

(** Owner [o], type [T], [c] nested locks, lock state [st]. *)
Definition held_word (o T c st : Z) : Z := s32 (o * 65536 + T + 4 * c + st).

Definition low_ok (x : Z) : bool :=
  (x .& MUTEX_TYPE_MASK =? (x / 16384) * 16384) && (x .& 3 =? x mod 4) &&
  (x .& MUTEX_COUNTER_MASK =? ((x / 4) mod 4096) * 4).

Lemma low_fields x : 0 <= x < 65536 ->
  x .& MUTEX_TYPE_MASK = (x / 16384) * 16384 /\ x .& 3 = x mod 4 /\
  x .& MUTEX_COUNTER_MASK = ((x / 4) mod 4096) * 4.
Proof.
  intros H. assert (E : low_ok x = true).
  { apply (range_check low_ok 0 65536); [vm_compute; reflexivity | lia]. }
  unfold low_ok in E. zbool. done.
Qed.

Lemma word_fields v :
  v .& MUTEX_TYPE_MASK = ((v / 16384) mod 4) * 16384 /\ v .& 3 = v mod 4 /\
  v .& MUTEX_COUNTER_MASK = ((v / 4) mod 4096) * 4.
Proof.
  destruct (low_fields (v mod 2 ^ 16)) as (E1 & E2 & E3).
  { change 65536 with (2 ^ 16). apply Z.mod_pos_bound. lia. }
  rewrite (land_low 16 v MUTEX_TYPE_MASK), (land_low 16 v 3), (land_low 16 v MUTEX_COUNTER_MASK),
    E1, E2, E3 by (unfold MUTEX_TYPE_MASK, MUTEX_COUNTER_MASK; lia).
  change (2 ^ 16) with 65536. repeat split; zdm.
Qed.

Lemma MUTEX_OWNER_div v : MUTEX_OWNER v = (v / 65536) mod 65536.
Proof.
  unfold MUTEX_OWNER. rewrite Z.shiftr_div_pow2 by lia. by rewrite (Z.land_ones _ 16) by lia.
Qed.

Lemma MUTEX_COUNTER_div v : MUTEX_COUNTER v = (v / 4) mod 4096.
Proof.
  unfold MUTEX_COUNTER. rewrite Z.shiftr_div_pow2 by lia. by rewrite (Z.land_ones _ 12) by lia.
Qed.

Definition extended (T : Z) : Prop := T = MUTEX_TYPE_RECURSIVE \/ T = MUTEX_TYPE_ERRORCHECK.

Section Held.
Context (o T c st : Z) (Ho : 0 < o < 65536) (HT : extended T) (Hc : 0 <= c < 4096)
        (Hst : 0 <= st < 4).

Ltac unpack := unfold extended, MUTEX_TYPE_RECURSIVE, MUTEX_TYPE_ERRORCHECK in HT;
  unfold held_word, s32 in *; change (2 ^ 31) with 2147483648 in *;
  change (2 ^ 32) with 4294967296 in *.

Lemma held_owner : MUTEX_OWNER (held_word o T c st) = o.
Proof using Ho HT Hc Hst. rewrite MUTEX_OWNER_div. unpack. zdm. Qed.

Lemma held_counter : MUTEX_COUNTER (held_word o T c st) = c.
Proof using Ho HT Hc Hst. rewrite MUTEX_COUNTER_div. unpack. zdm. Qed.

Lemma held_counter_bits : held_word o T c st .& MUTEX_COUNTER_MASK = 4 * c.
Proof using Ho HT Hc Hst.
  destruct (word_fields (held_word o T c st)) as (_ & _ & ->). unpack. zdm.
Qed.

Lemma held_type : held_word o T c st .& MUTEX_TYPE_MASK = T.
Proof using Ho HT Hc Hst.
  destruct (word_fields (held_word o T c st)) as (-> & _). unpack. zdm.
Qed.

Lemma held_state : held_word o T c st .& 3 = st.
Proof using Ho HT Hc Hst.
  destruct (word_fields (held_word o T c st)) as (_ & -> & _). unpack. zdm.
Qed.

Lemma held_not_free : held_word o T c st <> T.
Proof using Ho HT Hc Hst.
  intros E. assert (H := held_owner). rewrite E, MUTEX_OWNER_div in H. unpack.
  destruct HT; subst T; vm_compute in H; lia.
Qed.

Lemma held_unnest : 0 < c -> s32 (held_word o T c st - Z.shiftl 1 MUTEX_COUNTER_SHIFT) =
  held_word o T (c - 1) st.
Proof using Ho HT Hc Hst.
  intros H. change (Z.shiftl 1 MUTEX_COUNTER_SHIFT) with 4. unpack. zdm.
Qed.

(** One more nested lock; at the limit the counter wraps to 0. *)
Lemma held_nested : nested (held_word o T c st) = held_word o T ((c + 1) mod 4096) st.
Proof using Ho HT Hc Hst.
  unfold nested. change (Z.shiftl 1 MUTEX_COUNTER_SHIFT) with 4.
  rewrite <- Z.sub_land_same_l, lor_add.
  - destruct (word_fields (s32 (held_word o T c st + 4))) as (_ & _ & ->).
    rewrite held_counter_bits. unpack. zdm.
  - rewrite Z.sub_land_same_l, (Z.land_comm _ MUTEX_COUNTER_MASK), Z.land_assoc.
    rewrite <- (Z.land_assoc _ (Z.lnot _)), (Z.land_comm (Z.lnot _)), Z.land_lnot_diag.
    by rewrite Z.land_0_r.
Qed.
End Held.

Lemma held_promote o T c :
  0 < o < 65536 -> extended T -> 0 <= c < 4096 ->
  Z.lxor (held_word o T c 1) 3 = held_word o T c 2.
Proof.
  intros Ho HT Hc. pose proof (Z.add_lxor_2land (held_word o T c 1) 3) as E.
  rewrite held_state in E by (done || lia).
  assert (held_word o T c 2 = held_word o T c 1 + 1) as ->; [|lia].
  unfold extended, MUTEX_TYPE_RECURSIVE, MUTEX_TYPE_ERRORCHECK in HT.
  unfold held_word, s32. zdm.
Qed.

Lemma taken_held o T n :
  0 < o < 65536 -> extended T -> n = 1 \/ n = 2 -> taken o T n = held_word o T 0 n.
Proof.
  intros Ho HT Hn. unfold taken. rewrite Z.shiftl_mul_pow2 by lia.
  assert (E : forall k, 0 <= k < 65536 -> s32 (o * 2 ^ 16) .| k = s32 (o * 2 ^ 16) + k).
  { intros k Hk. apply lor_add. rewrite (land_low 16) by lia.
    replace (s32 (o * 2 ^ 16) mod 2 ^ 16) with 0; [done|]. unfold s32. zdm. }
  rewrite <- Z.lor_assoc.
  assert (T .| n = T + n) as -> by (destruct HT, Hn; subst; reflexivity).
  unfold extended, MUTEX_TYPE_RECURSIVE, MUTEX_TYPE_ERRORCHECK in HT.
  rewrite E by lia. unfold held_word, s32. zdm.
Qed.

Lemma extended_free T : extended T ->
  T .& MUTEX_TYPE_MASK = T /\ T .& 3 = 0 /\ MUTEX_OWNER T = 0 /\ T <> MUTEX_TYPE_NORMAL.
Proof. intros [->| ->]; repeat split; done. Qed.

(** ** The invariant *)

Section Invariant.
Context (n : nat) (tid : thread -> Z) (T : Z) (HT : extended T).
Context (tid_range : forall t, (t < n)%nat -> 0 < tid t < 65536).
Context (tid_inj : forall t t', (t < n)%nat -> (t' < n)%nat -> tid t = tid t' -> t = t').

(** What the word says: it is free, or held by one thread that has locked it
    as often as the counter says. *)
Definition word_free (s : rstate) : Prop := rword s = T /\ forall t, rdepth s t = 0.

Definition word_held (s : rstate) (o : thread) (st : Z) : Prop :=
  (o < n)%nat /\ rword s = held_word (tid o) T (rdepth s o - 1) st /\
  1 <= rdepth s o <= counter_limit /\ (st = 1 \/ st = 2) /\
  forall t, t <> o -> rdepth s t = 0.

Definition word_ok (s : rstate) : Prop := word_free s \/ exists o st, word_held s o st.

(** Inside the critical section of __recursive_lock. *)
Definition insec (p : rpc) : bool :=
  match p with
  | LTryLoad _ _ | LTryStore _ _ _ | LTryLeave _ _ | NestLoad | NestStore _ | NestLeave
  | ULoad _ | UStore _ _ | ULeave _ | TLoad _ | TStore _ _ | TLeave _ _ => true
  | _ => false
  end.

(** The local variables of a thread that has locked the mutex [d] times, when
    the word is [w]. *)
Definition pc_ok (w d : Z) (p : rpc) : Prop :=
  match p with
  | InNormal _ => False
  | LOwner m | UOwner m | TOwner m => m = T
  | LTryEnter m k | LTryLoad m k => m = T /\ d = 0 /\ (k = 1 \/ k = 2)
  | LTryStore m k oldv => m = T /\ d = 0 /\ (k = 1 \/ k = 2) /\ w = oldv
  | LTryLeave m oldv => m = T /\ (oldv = T /\ 0 < d \/ d = 0 /\ oldv .& 3 = 2)
  | LWait m oldv => m = T /\ d = 0 /\ oldv .& 3 = 2
  | LSleep m => m = T /\ d = 0
  | NestEnter | NestLoad => 0 < d
  | NestStore oldv => 0 < d /\ w = oldv
  | UEnter m | ULoad m => m = T /\ 0 < d
  | UStore m oldv => m = T /\ 0 < d /\ w = oldv
  | TEnter m | TLoad m => m = T /\ d = 0
  | TStore m oldv => m = T /\ d = 0 /\ w = oldv
  | TLeave m oldv => m = T
  | _ => True
  end.

Record rinv (s : rstate) : Prop := {
  ri_word : word_ok s;
  ri_sec : forall t, insec (rpcs s t) = true <-> rglock s = Some t;
  ri_pc : forall t, pc_ok (rword s) (rdepth s t) (rpcs s t);
  ri_live : forall t, (n <= t)%nat -> rpcs s t = RIdle
}.

Lemma pc_ok_word w w' d p : insec p = false -> pc_ok w d p -> pc_ok w' d p.
Proof. by destruct p. Qed.

(** What a thread learns from the owner field. *)
Lemma owner_test s t : rinv s -> (t < n)%nat -> tid t = MUTEX_OWNER (rword s) <-> 0 < rdepth s t.
Proof using HT tid_range tid_inj.
  intros Hs Ht. pose proof (tid_range t Ht). unfold counter_limit in *.
  destruct (ri_word s Hs) as [[-> H0]|(o & st & Ho & -> & Hd & Hst & H0)].
  - destruct (extended_free T HT) as (_ & _ & -> & _). rewrite H0. lia.
  - unfold counter_limit in *. rewrite held_owner by (auto || lia). split.
    + intros E. apply tid_inj in E; [|done|done]. subst. lia.
    + intros H1. destruct (decide (t = o)) as [->|Hne]; [done|].
      rewrite (H0 t Hne) in H1. lia.
Qed.

Lemma word_type s : rinv s -> rword s .& MUTEX_TYPE_MASK = T.
Proof using HT tid_range.
  intros Hs. destruct (ri_word s Hs) as [[-> H0]|(o & st & Ho & -> & Hd & Hst & H0)].
  - apply (extended_free T HT).
  - unfold counter_limit in *. apply held_type; auto; lia.
Qed.

Lemma live s t p : rinv s -> rpcs s t = p -> p <> RIdle -> (t < n)%nat.
Proof.
  intros Hs Hp Hne. destruct (decide (t < n)%nat); [done|].
  rewrite (ri_live s Hs t) in Hp by lia. congruence.
Qed.
(** A move that changes neither the word nor the global lock. *)
Lemma inv_goes s t p :
  rinv s -> (t < n)%nat -> insec p = insec (rpcs s t) -> pc_ok (rword s) (rdepth s t) p ->
  rinv (goes s t p).
Proof.
  intros [Hw Hsec Hpc Hlive] Ht Hp Hok. split; simpl; [done| | |].
  - intros t'. upd_case t t'; [rewrite Hp|]; apply Hsec.
  - intros t'. upd_case t t'; [done | apply Hpc].
  - intros t' H. rewrite upd_other by lia. by apply Hlive.
Qed.

(** How a step may change the global lock ... *)
Definition lock_moves (s : rstate) (t : thread) (e : effect) : Prop :=
  (e_glock e = rglock s /\ insec (e_pc e) = insec (rpcs s t)) \/
  (rglock s = None /\ e_glock e = Some t /\ insec (e_pc e) = true) \/
  (insec (rpcs s t) = true /\ e_glock e = None /\ insec (e_pc e) = false).

(** ... and the word. *)
Definition word_moves (s : rstate) (t : thread) (e : effect) : Prop :=
  (e_word e = rword s /\ e_depth e = 0) \/
  (insec (rpcs s t) = true /\ word_ok (runs s t e)).

Lemma word_ok_depth s s' :
  rword s' = rword s -> (forall t, rdepth s' t = rdepth s t) -> word_ok s -> word_ok s'.
Proof.
  intros E1 E2 [[H1 H2]|(o & st & Ho & H1 & H2 & H3 & H4)].
  - left. split; [congruence|]. intros t. by rewrite E2.
  - right. exists o, st. unfold word_held. rewrite E1, E2. split_and!; try (done || lia).
    intros t Ht. rewrite E2. auto.
Qed.

Lemma inv_runs s t e :
  rinv s -> (t < n)%nat -> lock_moves s t e -> word_moves s t e ->
  pc_ok (e_word e) (rdepth s t + e_depth e) (e_pc e) -> rinv (runs s t e).
Proof.
  intros [Hw Hsec Hpc Hlive] Ht HL HW Hok. split; simpl.
  - destruct HW as [[E1 E2]|[_ H]]; [|done]. apply (word_ok_depth s); simpl; [done| |done].
    intros t'. upd_case t t'; [lia | done].
  - intros t'. destruct HL as [(-> & E)|[(E1 & -> & E2)|(E1 & -> & E2)]].
    + upd_case t t'; [rewrite E|]; apply Hsec.
    + upd_case t t'; [tauto|]. rewrite Hsec, E1. split; congruence.
    + upd_case t t'; [rewrite E2; done|]. rewrite Hsec.
      apply Hsec in E1. rewrite E1. split; congruence.
  - intros t'. upd_case t t'; [done|].
    destruct HW as [[-> _]|[Hsec' _]]; [apply Hpc|].
    apply (pc_ok_word (rword s)); [|apply Hpc].
    apply Hsec in Hsec'. destruct (insec (rpcs s t')) eqn:E; [|done].
    apply Hsec in E. congruence.
  - intros t' H. rewrite upd_other by lia. by apply Hlive.
Qed.

(** ** What each write of the word does *)

Section Writes.
Context (s : rstate) (Hs : rinv s) (t : thread) (Ht : (t < n)%nat).

(** Taking a free mutex. *)
Lemma word_take p g k :
  rword s = T -> k = 1 \/ k = 2 -> word_ok (runs s t (mkEffect p (taken (tid t) T k) g 1)).
Proof using HT tid_range Hs Ht.
  intros E Hk. right. exists t, k. unfold word_held, counter_limit.
  assert (H0 : forall t', rdepth s t' = 0).
  { destruct (ri_word s Hs) as [[_ H]|(o & st & Ho & Ew & Hd & Hst & H0)]; [done|].
    exfalso. rewrite Ew in E. unfold counter_limit in *.
    eapply held_not_free; [..|exact E]; auto; lia. }
  split_and!; simpl; rewrite ?upd_same, ?H0; try lia.
  - rewrite taken_held; auto.
  - intros t' Hne. by rewrite upd_other.
Qed.

(** The owner, seen from a thread that has locked the mutex. *)
Lemma owned : 0 < rdepth s t ->
  exists st, rword s = held_word (tid t) T (rdepth s t - 1) st /\ (st = 1 \/ st = 2) /\
    1 <= rdepth s t <= 4096 /\ forall t', t' <> t -> rdepth s t' = 0.
Proof using HT tid_range Hs Ht.
  intros Hd. destruct (ri_word s Hs) as [[_ H]|(o & st & Ho & Ew & Hd' & Hst & H0)].
  - rewrite H in Hd. lia.
  - destruct (decide (t = o)) as [->|Hne]; [by exists st|]. rewrite H0 in Hd by done. lia.
Qed.

Lemma word_nest p g :
  0 < rdepth s t < 4096 -> word_ok (runs s t (mkEffect p (nested (rword s)) g 1)).
Proof using HT tid_range Hs Ht.
  intros Hd. destruct owned as (st & Ew & Hst & Hd' & H0); [lia|]. right. exists t, st.
  unfold word_held, counter_limit. split_and!; simpl; rewrite ?upd_same; try (done || lia).
  - rewrite Ew, held_nested by (auto || lia). f_equal. rewrite Z.mod_small; lia.
  - intros t' Hne. rewrite upd_other by done. auto.
Qed.

Lemma word_unnest p g :
  1 < rdepth s t ->
  word_ok (runs s t (mkEffect p (s32 (rword s - Z.shiftl 1 MUTEX_COUNTER_SHIFT)) g (-1))).
Proof using HT tid_range Hs Ht.
  intros Hd. destruct owned as (st & Ew & Hst & Hd' & H0); [lia|]. right. exists t, st.
  unfold word_held, counter_limit. split_and!; simpl; rewrite ?upd_same; try (done || lia).
  - rewrite Ew, held_unnest by (auto || lia). f_equal; lia.
  - intros t' Hne. rewrite upd_other by done. auto.
Qed.

Lemma word_release p g : rdepth s t = 1 -> word_ok (runs s t (mkEffect p T g (-1))).
Proof using HT tid_range Hs Ht.
  intros Hd. destruct owned as (st & Ew & Hst & Hd' & H0); [lia|]. left. split; simpl; [done|].
  intros t'. upd_case t t'; [lia | auto].
Qed.

(** A waiter marks the mutex as contended. *)
Lemma word_promote p g :
  rdepth s t = 0 -> rword s .& 3 = 1 ->
  word_ok (runs s t (mkEffect p (Z.lxor (rword s) 3) g 0)) /\ Z.lxor (rword s) 3 .& 3 = 2.
Proof using HT tid_range Hs Ht.
  intros Hd E. destruct (ri_word s Hs) as [[Ew _]|(o & st & Ho & Ew & Hd' & Hst & H0)].
  { rewrite Ew in E. destruct (extended_free T HT) as (_ & E3 & _). lia. }
  unfold counter_limit in *. rewrite Ew in E. rewrite held_state in E by (auto || lia). subst st.
  assert (Hne : o <> t) by (intros ->; lia).
  rewrite Ew, held_promote by (auto || lia). split; [|apply held_state; auto; lia].
  right. exists o, 2. unfold word_held, counter_limit.
  split_and!; simpl; rewrite ?upd_other by done; try (done || lia).
  intros t' Hne'. upd_case t t'; [lia | auto].
Qed.

Lemma word_state : rword s <> T -> rword s .& 3 <> 1 -> rword s .& 3 = 2.
Proof using HT tid_range Hs Ht.
  intros E1 E2. destruct (ri_word s Hs) as [[Ew _]|(o & st & Ho & Ew & Hd' & Hst & H0)]; [done|].
  unfold counter_limit in *. rewrite Ew in *. rewrite held_state in * by (auto || lia). lia.
Qed.

Lemma word_counter : 0 < rdepth s t ->
  truthy (rword s .& MUTEX_COUNTER_MASK) = (1 <? rdepth s t).
Proof using HT tid_range Hs Ht.
  intros Hd. destruct (owned Hd) as (st & -> & Hst & Hd' & H0).
  rewrite held_counter_bits by (auto || lia). unfold truthy. repeat bcase; lia || done.
Qed.
End Writes.
(** ** Every step keeps the invariant *)

Ltac lock_move Hp := unfold lock_moves; simpl; rewrite ?Hp; simpl; tauto.
Ltac same_word Hp := left; simpl; split; (done || lia).
(** The common case: the word stays as it is. *)
Ltac quiet Hp := apply inv_runs; simpl; [done|done|lock_move Hp|same_word Hp|];
  rewrite ?Z.add_0_r; simpl; intuition congruence.
(** A write of the word inside of the critical section. *)
Ltac writes Hp := apply inv_runs; simpl; [done|done|lock_move Hp|right; simpl; rewrite Hp; split; [done|]|].

Section Runs.
Context (s : rstate) (Hs : rinv s) (t : thread) (e : effect) (Ht : (t < n)%nat).
Context (Hb : rdepth s t + e_depth e <= counter_limit).

Lemma inv_nest :
  nest_step t (rword s) (rglock s) (rpcs s t) = Some e -> rinv (runs s t e).
Proof using HT tid_range Hs Ht Hb.
  pose proof (ri_pc s Hs t) as Hok. unfold counter_limit in Hb.
  destruct (rpcs s t) eqn:Hp; try done; simpl in Hok |- *.
  - destruct (rglock s) eqn:Hg; [done|]. intros [= <-]. quiet Hp.
  - intros [= <-]. quiet Hp.
  - intros [= <-]. destruct Hok as [Hd <-]. simpl in Hb. writes Hp; [|done].
    apply word_nest; auto. lia.
  - intros [= <-]. quiet Hp.
Qed.

Lemma inv_lock :
  lock_step t (tid t) (rword s) (rglock s) (rpcs s t) = Some e -> rinv (runs s t e).
Proof using HT tid_range tid_inj Hs Ht Hb.
  pose proof (ri_pc s Hs t) as Hok. pose proof (owner_test s t Hs Ht) as Hown.
  pose proof (extended_free T HT) as (_ & HT3 & _ & HTn).
  destruct (rpcs s t) eqn:Hp;
    try done; try (intros He; apply inv_nest; rewrite Hp; exact He);
    simpl in Hok |- *.
  - rewrite word_type by done. bcase; [done|]. intros [= <-]. quiet Hp.
  - subst mtype. bcase; [bcase|]; intros [= <-].
    + quiet Hp.
    + quiet Hp.
    + assert (rdepth s t = 0).
      { destruct (ri_word s Hs) as [[_ H]|(o & st & Ho & _ & Hd & _ & H0)]; [done|].
        destruct (decide (t = o)) as [->|]; [|auto]. lia. }
      quiet Hp.
  - destruct (rglock s) eqn:Hg; [done|]. intros [= <-]. quiet Hp.
  - intros [= <-]. quiet Hp.
  - destruct Hok as (-> & Hd & Hk & <-). bcase; [|bcase]; intros [= <-].
    + writes Hp; [by apply word_take|]. split; [done|]. left. split; [done | lia].
    + destruct (word_promote s Hs t Ht (LTryLeave T (Z.lxor (rword s) 3)) (rglock s) Hd) as [H1 H2]; [done|].
      writes Hp; [done|]. split; [done|]. right. split; [lia | done].
    + apply inv_runs; simpl; [done|done|lock_move Hp|same_word Hp|].
      split; [done|]. right. split; [lia|]. by apply word_state with t.
  - destruct Hok as (-> & Hok). bcase; intros [= <-].
    + quiet Hp.
    + destruct Hok as [[Ho _]|[Hd Ho]]; [done|]. quiet Hp.
  - destruct Hok as (-> & Hd & Ho). bcase; intros [= <-]; quiet Hp.
Qed.

Lemma inv_unlock :
  unlock_step t (tid t) (rword s) (rglock s) (rpcs s t) = Some e -> rinv (runs s t e).
Proof using HT tid_range tid_inj Hs Ht Hb.
  pose proof (ri_pc s Hs t) as Hok. pose proof (owner_test s t Hs Ht) as Hown.
  pose proof (extended_free T HT) as (_ & HT3 & _ & HTn).
  destruct (rpcs s t) eqn:Hp;
    try done; simpl in Hok |- *.
  - rewrite word_type by done. bcase; [done|]. intros [= <-]. quiet Hp.
  - subst mtype. bcase; intros [= <-]; quiet Hp.
  - destruct (rglock s) eqn:Hg; [done|]. intros [= <-]. quiet Hp.
  - intros [= <-]. quiet Hp.
  - destruct Hok as (-> & Hd & <-). rewrite (word_counter s Hs t Ht Hd).
    bcase; intros [= <-]; (writes Hp; [|done]).
    + by apply word_unnest.
    + apply word_release; [done..|lia].
  - bcase; intros [= <-]; quiet Hp.
Qed.

Lemma inv_trylock :
  trylock_step t (tid t) (rword s) (rglock s) (rpcs s t) = Some e -> rinv (runs s t e).
Proof using HT tid_range tid_inj Hs Ht Hb.
  pose proof (ri_pc s Hs t) as Hok. pose proof (owner_test s t Hs Ht) as Hown.
  pose proof (extended_free T HT) as (_ & HT3 & _ & HTn).
  destruct (rpcs s t) eqn:Hp; try done; simpl in Hok |- *.
  - rewrite word_type by done. bcase; [done|]. intros [= <-]. quiet Hp.
  - subst mtype. bcase; [bcase|]; intros [= <-].
    + quiet Hp.
    + quiet Hp.
    + assert (rdepth s t = 0).
      { destruct (ri_word s Hs) as [[_ H]|(o & st & Ho & _ & Hd & _ & H0)]; [done|].
        destruct (decide (t = o)) as [->|]; [|auto]. lia. }
      quiet Hp.
  - destruct (rglock s) eqn:Hg; [done|]. intros [= <-]. quiet Hp.
  - intros [= <-]. quiet Hp.
  - destruct Hok as (-> & Hd & <-). bcase; intros [= <-].
    + writes Hp; [|done]. apply word_take; auto.
    + quiet Hp.
  - bcase; intros [= <-]; quiet Hp.
Qed.

Lemma inv_thread_step :
  thread_step t (tid t) (rword s) (rglock s) (rpcs s t) = Some e -> rinv (runs s t e).
Proof using HT tid_range tid_inj Hs Ht Hb.
  unfold thread_step. destruct (lock_step _ _ _ _ _) eqn:E1.
  { intros [= ->]. by apply inv_lock. }
  destruct (unlock_step _ _ _ _ _) eqn:E2.
  { intros [= ->]. by apply inv_unlock. }
  destruct (trylock_step _ _ _ _ _) eqn:E3.
  { intros [= ->]. by apply inv_trylock. }
  pose proof (ri_pc s Hs t) as Hok. by destruct (rpcs s t).
Qed.
End Runs.

Lemma woken_ok s t p : rinv s -> woken (rpcs s t) = Some p -> (t < n)%nat /\ rinv (goes s t p).
Proof.
  intros Hs. pose proof (ri_pc s Hs t) as Hok. destruct (rpcs s t) eqn:Hp; try done.
  intros [= <-]. destruct Hok as [-> Hd]. assert (t < n)%nat by (eapply live; eauto; congruence).
  split; [done|]. apply inv_goes; rewrite ?Hp; auto.
  split_and!; auto.
Qed.

Lemma inv_step s s' : rinv s -> rstep_bounded n tid s s' -> rinv s'.
Proof using HT tid_range tid_inj.
  intros Hs [Hstep Hb].
  destruct Hstep as [s t p Ht Hp He|s t r Hp|s t e He|s t p Hp|s t t' p Hp Hp'|s t Hp Hn].
  - apply inv_goes; rewrite ?Hp; [done..| |]; by destruct p.
  - assert (t < n)%nat by (eapply live; eauto; congruence). apply inv_goes; rewrite ?Hp; done.
  - apply inv_thread_step; [done| |by specialize (Hb t); simpl in Hb; rewrite upd_same in Hb|done].
    eapply live; [done|done|]. intros E. rewrite E in He. done.
  - by apply woken_ok.
  - assert (Ht : (t < n)%nat) by (eapply live; [done|done|]; intros E; by rewrite E in Hp).
    destruct (woken_ok s t' p Hs Hp') as [_ H1]. apply inv_goes; [done|done| |done].
    simpl. rewrite upd_other; [revert Hp; by destruct (rpcs s t)|].
    intros ->. revert Hp Hp'. by destruct (rpcs s t') as [ | |[] | | | | | | | | | | | | | | | | | | | | | | | | | ].
  - assert (Ht : (t < n)%nat) by (eapply live; [done|done|]; intros E; by rewrite E in Hp).
    apply inv_goes; [done|done| |done]. revert Hp. by destruct (rpcs s t).
Qed.

Lemma recursive_invariant s : reachable (fresh T) (rstep_bounded n tid) s -> rinv s.
Proof using HT tid_range tid_inj.
  apply (reachable_invariant _ _ rinv).
  - intros s0 (H1 & H2 & H3). split.
    + left. split; [done|]. apply H3.
    + intros t. destruct (H3 t) as [-> _]. rewrite H2. done.
    + intros t. by destruct (H3 t) as [-> _].
    + intros t _. apply H3.
  - intros s1 s2. apply inv_step.
Qed.
(** ** No lost wake-ups *)

(** A thread that will look at the word again, marking it as contended if it
    takes it, or that is about to wake a sleeper. *)
Definition retries (p : rpc) : bool :=
  match p with
  | LTryEnter _ k | LTryLoad _ k | LTryStore _ k _ => k =? 2
  | LTryLeave m oldv => negb (oldv =? m)
  | LWait _ _ | UWake => true
  | ULeave oldv => oldv .& 3 =? 2
  | _ => false
  end.

Definition asleep (p : rpc) : bool := match p with LSleep _ => true | _ => false end.

Definition rwatched (s : rstate) : Prop :=
  forall t, asleep (rpcs s t) = true ->
  rword s .& 3 = 2 \/ exists t', retries (rpcs s t') = true.

Lemma rwatched_by s t p w g d :
  retries p = true \/ w .& 3 = 2 -> rwatched (mkR w g (upd (rpcs s) t p) d).
Proof. intros [Hp|Hw] t' _; simpl; [right; exists t; by rewrite upd_same | by left]. Qed.

Lemma rwatched_keep s t p w g d :
  rwatched s -> retries (rpcs s t) = false -> asleep p = false ->
  (rword s .& 3 = 2 -> w .& 3 = 2 \/ retries p = true) ->
  rwatched (mkR w g (upd (rpcs s) t p) d).
Proof.
  intros Hs Ht Hp Hw t' Ht'. simpl in *. upd_case t t'; [congruence|].
  destruct (Hs t' Ht') as [H2|[u Hu]].
  - destruct (Hw H2); [by left | right; exists t; by rewrite upd_same].
  - right. exists u. upd_case t u; congruence.
Qed.

(** Nesting and un-nesting leave the lock state alone. *)
Lemma nested_state s t : rinv s -> (t < n)%nat -> 0 < rdepth s t -> nested (rword s) .& 3 = rword s .& 3.
Proof using HT tid_range.
  intros Hs Ht Hd. destruct (owned s Hs t Ht Hd) as (st & -> & Hst & Hd' & _).
  rewrite held_nested by (auto || lia).
  pose proof (Z.mod_pos_bound (rdepth s t - 1 + 1) 4096).
  rewrite !held_state by (auto || lia). done.
Qed.

Lemma unnested_state s t : rinv s -> (t < n)%nat -> 1 < rdepth s t ->
  s32 (rword s - Z.shiftl 1 MUTEX_COUNTER_SHIFT) .& 3 = rword s .& 3.
Proof using HT tid_range.
  intros Hs Ht Hd. destruct (owned s Hs t Ht) as (st & -> & Hst & Hd' & _); [lia|].
  rewrite held_unnest, !held_state by (auto || lia). done.
Qed.

Ltac keep_watch Hp := apply rwatched_keep; rewrite ?Hp; simpl; [done|by auto|by auto|by auto].

Section Watched.
Context (s : rstate) (Hs : rinv s) (Hw : rwatched s) (t : thread) (e : effect) (Ht : (t < n)%nat).

Lemma rwatched_nest :
  nest_step t (rword s) (rglock s) (rpcs s t) = Some e -> rwatched (runs s t e).
Proof using HT tid_range Hs Ht Hw.
  pose proof (ri_pc s Hs t) as Hok.
  destruct (rpcs s t) eqn:Hp; try done; simpl in Hok |- *.
  - destruct (rglock s) eqn:Hg; [done|]. intros [= <-]. keep_watch Hp.
  - intros [= <-]. keep_watch Hp.
  - intros [= <-]. destruct Hok as [Hd <-]. apply rwatched_keep; rewrite ?Hp; [done..|].
    simpl. rewrite (nested_state s t) by done. auto.
  - intros [= <-]. keep_watch Hp.
Qed.

Lemma rwatched_lock :
  lock_step t (tid t) (rword s) (rglock s) (rpcs s t) = Some e -> rwatched (runs s t e).
Proof using HT tid_range Hs Ht Hw.
  pose proof (ri_pc s Hs t) as Hok. pose proof (extended_free T HT) as (_ & HT3 & _ & HTn).
  destruct (rpcs s t) eqn:Hp; try done;
    try (intros He; apply rwatched_nest; rewrite Hp; exact He); simpl in Hok |- *.
  - rewrite word_type by done. bcase; [done|]. intros [= <-]. keep_watch Hp.
  - subst mtype. bcase; [bcase|]; intros [= <-]; keep_watch Hp.
  - destruct (rglock s) eqn:Hg; [done|]. intros [= <-]. destruct Hok as (_ & _ & [->| ->]).
    + keep_watch Hp.
    + apply rwatched_by. by left.
  - intros [= <-]. destruct Hok as (_ & _ & [->| ->]).
    + keep_watch Hp.
    + apply rwatched_by. by left.
  - destruct Hok as (-> & Hd & Hk & <-). bcase; [|bcase]; intros [= <-].
    + destruct Hk as [->| ->]; [apply rwatched_keep; rewrite ?Hp; simpl; try done|].
      { congruence. }
      apply rwatched_by. right. simpl. rewrite taken_held by auto.
      apply held_state; auto; lia.
    + apply rwatched_by. right. by apply (word_promote s Hs t Ht RIdle None Hd).
    + apply rwatched_by. right. by apply (word_state s Hs t Ht).
  - destruct Hok as (-> & Hok). bcase; intros [= <-].
    + apply rwatched_keep; rewrite ?Hp; simpl; auto. bcase; done.
    + apply rwatched_by. by left.
  - destruct Hok as (-> & Hd & Ho). bcase; intros [= <-].
    + apply rwatched_by. right. simpl. congruence.
    + apply rwatched_by. by left.
Qed.

Lemma rwatched_unlock :
  unlock_step t (tid t) (rword s) (rglock s) (rpcs s t) = Some e -> rwatched (runs s t e).
Proof using HT tid_range Hs Ht Hw.
  pose proof (ri_pc s Hs t) as Hok. pose proof (extended_free T HT) as (_ & HT3 & _ & HTn).
  destruct (rpcs s t) eqn:Hp; try done; simpl in Hok |- *.
  - rewrite word_type by done. bcase; [done|]. intros [= <-]. keep_watch Hp.
  - subst mtype. bcase; intros [= <-]; keep_watch Hp.
  - destruct (rglock s) eqn:Hg; [done|]. intros [= <-]. keep_watch Hp.
  - intros [= <-]. keep_watch Hp.
  - destruct Hok as (-> & Hd & <-). rewrite (word_counter s Hs t Ht Hd).
    bcase; intros [= <-]; apply rwatched_keep; rewrite ?Hp; simpl; try done.
    + rewrite (unnested_state s t) by done. auto.
    + intros E. right. by apply Z.eqb_eq.
  - bcase; intros [= <-].
    + apply rwatched_by. by left.
    + apply rwatched_keep; rewrite ?Hp; simpl; auto. by apply Z.eqb_neq.
Qed.

Lemma rwatched_trylock :
  trylock_step t (tid t) (rword s) (rglock s) (rpcs s t) = Some e -> rwatched (runs s t e).
Proof using HT tid_range Hs Ht Hw.
  pose proof (ri_pc s Hs t) as Hok. pose proof (extended_free T HT) as (_ & HT3 & _ & HTn).
  destruct (rpcs s t) eqn:Hp; try done; simpl in Hok |- *.
  - rewrite word_type by done. bcase; [done|]. intros [= <-]. keep_watch Hp.
  - subst mtype. bcase; [bcase|]; intros [= <-]; keep_watch Hp.
  - destruct (rglock s) eqn:Hg; [done|]. intros [= <-]. keep_watch Hp.
  - intros [= <-]. keep_watch Hp.
  - destruct Hok as (-> & Hd & <-). bcase; intros [= <-]; [|keep_watch Hp].
    apply rwatched_keep; rewrite ?Hp; simpl; try done. congruence.
  - bcase; intros [= <-]; keep_watch Hp.
Qed.
End Watched.
Lemma rwatched_step s s' : rinv s -> rwatched s -> rstep n tid s s' -> rwatched s'.
Proof using HT tid_range.
  intros Hs Hw Hstep.
  destruct Hstep as [s t p Ht Hp He|s t r Hp|s t e He|s t p Hp|s t t' p Hp Hp'|s t Hp Hn].
  - apply rwatched_keep; rewrite ?Hp; auto. by destruct p.
  - apply rwatched_keep; rewrite ?Hp; auto.
  - assert (Ht : (t < n)%nat) by (eapply live; [done|done|]; intros E; by rewrite E in He).
    revert He. unfold thread_step. destruct (lock_step _ _ _ _ _) eqn:E1.
    { intros [= ->]. by apply rwatched_lock. }
    destruct (unlock_step _ _ _ _ _) eqn:E2.
    { intros [= ->]. by apply rwatched_unlock. }
    destruct (trylock_step _ _ _ _ _) eqn:E3.
    { intros [= ->]. by apply rwatched_trylock. }
    pose proof (ri_pc s Hs t) as Hok. by destruct (rpcs s t).
  - apply rwatched_by. left. pose proof (ri_pc s Hs t) as Hok.
    destruct (rpcs s t); try done. by injection Hp as <-.
  - intros u _. right. exists t'. simpl. rewrite upd_other, upd_same.
    + pose proof (ri_pc s Hs t') as Hok.
      destruct (rpcs s t'); try done. by injection Hp' as <-.
    + intros ->. pose proof (ri_pc s Hs t) as Hok. by destruct (rpcs s t).
  - intros u Hu. exfalso. simpl in Hu. upd_case t u; [done|].
    specialize (Hn u). by destruct (rpcs s u).
Qed.

Lemma recursive_watched s :
  reachable (fresh T) (rstep_bounded n tid) s -> rinv s /\ rwatched s.
Proof using HT tid_range tid_inj.
  apply (reachable_invariant _ _ (fun s => rinv s /\ rwatched s)).
  - intros s0 Hs. split; [apply recursive_invariant; by apply reach_init|].
    destruct Hs as (_ & _ & H3). intros t. by destruct (H3 t) as [-> _].
  - intros s1 s2 [H1 H2] Hstep. split; [by eapply inv_step|].
    destruct Hstep as [Hstep _]. by eapply rwatched_step.
Qed.
End Invariant.

(** ** Running the system *)

(** Thread [t] calls a function, or takes its next step. *)
Inductive revent := ECall (t : thread) (p : rpc) | ERun (t : thread).

Definition rexec (n : nat) (tid : thread -> Z) (s : rstate) (ev : revent) : option rstate :=
  match ev with
  | ECall t p =>
      if decide (t < n)%nat then
        match rpcs s t with
        | RIdle => if entry p then Some (goes s t p) else None
        | _ => None
        end
      else None
  | ERun t =>
      match rpcs s t with
      | RDone _ => Some (goes s t RIdle)
      | _ =>
          match thread_step t (tid t) (rword s) (rglock s) (rpcs s t) with
          | Some e => if rdepth s t + e_depth e <=? counter_limit then Some (runs s t e) else None
          | None => None
          end
      end
  end.

Fixpoint rexecs (n : nat) (tid : thread -> Z) (s : rstate) (evs : list revent) : option rstate :=
  match evs with
  | [] => Some s
  | ev :: evs' => match rexec n tid s ev with Some s' => rexecs n tid s' evs' | None => None end
  end.

Lemma rexec_bounded n tid s ev s' :
  (forall t, rdepth s t <= counter_limit) -> rexec n tid s ev = Some s' ->
  rstep_bounded n tid s s' /\ forall t, rdepth s' t <= counter_limit.
Proof.
  intros Hb. destruct ev as [t p|t]; simpl.
  - case_decide; [|done]. destruct (rpcs s t) eqn:Hp; try done.
    destruct (entry p) eqn:He; [|done]. intros [= <-]. split; [|done].
    split; [by apply r_call | done].
  - intros H. enough (rstep n tid s s' /\ forall t, rdepth s' t <= counter_limit) as [H1 H2] by done.
    destruct (rpcs s t) eqn:Hp.
    2: { injection H as <-. split; [by eapply r_return | done]. }
    all: rewrite <- Hp in H;
      destruct (thread_step t (tid t) (rword s) (rglock s) (rpcs s t)) eqn:He; [|done];
      revert H; bcase; [|done]; intros [= <-]; split; [by apply r_run|];
      intros t'; simpl; upd_case t t'; [done | apply Hb].
Qed.

Lemma rexecs_reachable n tid T s0 evs s :
  fresh T s0 -> rexecs n tid s0 evs = Some s -> reachable (fresh T) (rstep_bounded n tid) s.
Proof.
  intros H0. assert (Hr : reachable (fresh T) (rstep_bounded n tid) s0) by by apply reach_init.
  assert (Hb : forall t, rdepth s0 t <= counter_limit).
  { intros t. destruct H0 as (_ & _ & H). destruct (H t) as [_ ->]. done. }
  clear H0. revert s0 Hr Hb. induction evs as [|ev evs IH]; intros s0 Hr Hb; simpl.
  - by intros [= <-].
  - destruct (rexec n tid s0 ev) as [s1|] eqn:E; [|done].
    destruct (rexec_bounded n tid s0 ev s1 Hb E) as [H1 H2].
    apply IH; [by eapply reach_step | done].
Qed.

(** Two threads with kernel ids 1000 and 40000; the first locks a recursive
    mutex three times and unlocks it once, the second blocks. *)
Definition ex_tid (t : thread) : Z := match t with O => 1000 | _ => 40000 end.
Definition ex_fresh : rstate := mkR MUTEX_TYPE_RECURSIVE None (fun _ => RIdle) (fun _ => 0).
Definition ex_events : list revent :=
  ECall 0 LType :: repeat (ERun 0) 7 ++ ECall 0 LType :: repeat (ERun 0) 7 ++
  ECall 0 TType :: repeat (ERun 0) 7 ++ ECall 0 UType :: repeat (ERun 0) 7 ++
  ECall 1 LType :: repeat (ERun 1) 7.
Definition ex_state : rstate := default ex_fresh (rexecs 2 ex_tid ex_fresh ex_events).

Lemma ex_state_reachable :
  reachable (fresh MUTEX_TYPE_RECURSIVE) (rstep_bounded 2 ex_tid) ex_state.
Proof.
  assert (E : is_Some (rexecs 2 ex_tid ex_fresh ex_events)) by (vm_compute; eauto).
  destruct E as [s E]. unfold ex_state. rewrite E. simpl.
  eapply rexecs_reachable; [|exact E]. clear E. split_and!; [reflexivity..|]. intros t. split; reflexivity.
Qed.

(** ** The properties *)

(** The kernel ids of the threads are distinct 16-bit numbers. *)
Definition good_tids (n : nat) (tid : thread -> Z) : Prop :=
  (forall t, (t < n)%nat -> 0 < tid t < 65536) /\
  (forall t t', (t < n)%nat -> (t' < n)%nat -> tid t = tid t' -> t = t').

(** C3: recursive and error-checking mutexes: however the calls of
    pthread_mutex_lock, pthread_mutex_trylock and pthread_mutex_unlock by n
    threads interleave, at most one thread has the mutex locked; the owner field
    of the word names exactly that thread, so the tests for EDEADLK and EPERM
    decide whether the caller holds the mutex; the counter field is the number
    of its nested locks; and the word is the bare type exactly when the mutex is
    free.  Kernel ids are distinct and fit in 16 bits, and nobody nests more
    than 4096 locks. *)
Theorem recursive_mutex_exclusion (n : nat) (tid : thread -> Z) (T : Z) (s : rstate) :
  extended T -> good_tids n tid -> reachable (fresh T) (rstep_bounded n tid) s ->
  (forall t t', 0 < rdepth s t -> 0 < rdepth s t' -> t = t') /\
  (forall t, (t < n)%nat -> MUTEX_OWNER (rword s) = tid t <-> 0 < rdepth s t) /\
  (forall t, 0 < rdepth s t -> MUTEX_COUNTER (rword s) = rdepth s t - 1) /\
  (rword s = T <-> forall t, rdepth s t = 0).
Proof.
  intros HT [H1 H2] Hr. pose proof (recursive_invariant n tid T HT H1 H2 s Hr) as Hs.
  split_and!.
  - intros t t' Ht Ht'.
    destruct (ri_word _ _ _ s Hs) as [[_ H]|(o & st & Ho & _ & _ & _ & H0)].
    { rewrite H in Ht. lia. }
    destruct (decide (t = o)) as [->|Hn]; [|rewrite H0 in Ht by done; lia].
    destruct (decide (t' = o)) as [->|Hn]; [done|]. rewrite H0 in Ht' by done. lia.
  - intros t Ht. rewrite <- (owner_test n tid T HT H1 H2 s t Hs Ht). split; congruence.
  - intros t Ht. assert (Hlt : (t < n)%nat).
    { destruct (ri_word _ _ _ s Hs) as [[_ H]|(o & st & Ho & _ & _ & _ & H0)].
      - rewrite H in Ht. lia.
      - destruct (decide (t = o)) as [->|Hn]; [done|]. rewrite H0 in Ht by done. lia. }
    destruct (owned n tid T HT H1 s Hs t Hlt Ht) as (st & -> & Hst & Hd & _).
    apply held_counter; auto; lia.
  - destruct (ri_word _ _ _ s Hs) as [[Ew H]|(o & st & Ho & Ew & Hd & Hst & H0)]; [done|].
    unfold counter_limit in *. split; intros E; exfalso.
    + rewrite Ew in E. eapply held_not_free; [..|exact E]; auto; lia.
    + rewrite E in Hd. lia.
Qed.

Lemma ex_good_tids : good_tids 2 ex_tid.
Proof.
  split.
  - intros [|[|t]]; simpl; lia.
  - intros [|[|t]] [|[|t']]; simpl; lia.
Qed.

Lemma recursive_mutex_exclusion_witness :
  rdepth ex_state 0 = 2 /\
  (rword ex_state = MUTEX_TYPE_RECURSIVE <-> forall t, rdepth ex_state t = 0).
Proof.
  split; [vm_compute; reflexivity|].
  apply (recursive_mutex_exclusion 2 ex_tid MUTEX_TYPE_RECURSIVE ex_state).
  - by left.
  - apply ex_good_tids.
  - apply ex_state_reachable.
Defined.

(** C4: no thread is left asleep on a recursive or error-checking mutex:
    while one sleeps in __futex_wait, either the mutex is held in state 2, so
    that the last unlock of the owner wakes a sleeper, or another thread is about
    to call __futex_wake or to look at the word again and to take it in state
    2. *)
Theorem recursive_mutex_no_lost_wakeup (n : nat) (tid : thread -> Z) (T : Z) (s : rstate) (t : thread) :
  extended T -> good_tids n tid -> reachable (fresh T) (rstep_bounded n tid) s ->
  asleep (rpcs s t) = true ->
  (rword s .& 3 = 2 /\ exists o, 0 < rdepth s o) \/
  (exists t', t' <> t /\ retries (rpcs s t') = true).
Proof.
  intros HT [H1 H2] Hr Ht.
  destruct (recursive_watched n tid T HT H1 H2 s Hr) as [Hs Hw].
  destruct (Hw t Ht) as [E|[t' Ht']].
  - left. split; [done|].
    destruct (ri_word _ _ _ s Hs) as [[Ew H]|(o & st & Ho & Ew & Hd & Hst & H0)].
    + rewrite Ew in E. destruct (extended_free T HT) as (_ & E3 & _). lia.
    + exists o. lia.
  - right. exists t'. split; [|done]. intros ->. revert Ht Ht'. by destruct (rpcs s t).
Qed.

Lemma recursive_mutex_no_lost_wakeup_witness :
  (rword ex_state .& 3 = 2 /\ exists o, 0 < rdepth ex_state o) \/
  (exists t', t' <> 1%nat /\ retries (rpcs ex_state t') = true).
Proof.
  apply (recursive_mutex_no_lost_wakeup 2 ex_tid MUTEX_TYPE_RECURSIVE ex_state 1).
  - by left.
  - apply ex_good_tids.
  - apply ex_state_reachable.
  - vm_compute. reflexivity.
Defined.

(** At the limit of 4096 nested locks the next lock wraps the counter to 0:
    the next pthread_mutex_unlock releases the mutex although its owner has
    locked it 4097 times. *)
Lemma recursive_counter_wraps o T st :
  0 < o < 65536 -> extended T -> 0 <= st < 4 ->
  nested (held_word o T (counter_limit - 1) st) = held_word o T 0 st.
Proof. intros Ho HT Hst. rewrite held_nested by (unfold counter_limit; auto || lia). done. Qed.
