(* ===== verification/Lock.v ===== *)
(** * What a mutex promises: the interface between the mutexes of
    libc/bionic/pthread.c and the code that uses them

    A lock has an owner or none, and changes from one owner to another only
    through being free.  The condition variables and the thread list are
    verified against this interface; the normal and the recursive mutexes
    implement it. *)

From Stdlib Require Import ZArith Lia.
From stdpp Require Import base list numbers.
From S2P Require Import Prelude Futex Mutex RecMutex.

Open Scope Z_scope.

(** ** The abstract lock *)

Inductive alock_step : option thread -> option thread -> Prop :=
| alock_same o : alock_step o o
| alock_acquire t : alock_step None (Some t)
| alock_release t : alock_step (Some t) None.

(** [o] is the one thread that satisfies [owns], or none does. *)
Definition owner_is (owns : thread -> Prop) (o : option thread) : Prop :=
  match o with
  | Some t => owns t /\ forall u, owns u -> u = t
  | None => forall u, ~ owns u
  end.

(** A system of threads that implements a lock. *)
Class Lock (St : Type) := {
  lk_init : St -> Prop;
  lk_step : St -> St -> Prop;
  lk_owns : St -> thread -> Prop;
  lk_free : forall s, lk_init s -> owner_is (lk_owns s) None;
  lk_simulates : forall s s', reachable lk_init lk_step s -> lk_step s s' ->
    exists o o', owner_is (lk_owns s) o /\ owner_is (lk_owns s') o' /\ alock_step o o'
}.

(** A step that changes what at most one thread owns is a step of the lock. *)
Lemma one_thread_step (owns owns' : thread -> Prop) o o' t :
  owner_is owns o -> owner_is owns' o' -> (forall u, u <> t -> owns u <-> owns' u) -> alock_step o o'.
Proof.
  intros Ho Ho' H. destruct o as [a|], o' as [b|]; cbn in *; [|constructor..].
  destruct Ho as (Ha & Ha'), Ho' as (Hb & Hb').
  destruct (decide (a = t)) as [->|Hne].
  - destruct (decide (b = t)) as [->|Hne']; [constructor|]. apply H in Hb; [|done]. apply Ha' in Hb. congruence.
  - apply (H a Hne), Hb' in Ha as ->. constructor.
Qed.

(** Every execution of an implementation goes through the states of the lock. *)
Section Simulation.
Context `{Lock St}.

Lemma lk_owner s : reachable lk_init lk_step s -> exists o, owner_is (lk_owns s) o.
Proof.
  intros Hr. destruct Hr as [s Hi | s s' Hr Hs].
  - exists None. by apply lk_free.
  - destruct (lk_simulates s s' Hr Hs) as (_ & o' & _ & Ho' & _). by exists o'.
Qed.
End Simulation.

(** ** The mutexes are locks *)

Lemma excl_owner s : excl s -> exists o, owner_is (fun t => holds (mpc s t) = true) o.
Proof.
  intros Hx. destruct (Z.eq_dec (mword s) 0) as [E|E].
  - exists None. intros u Hu. by rewrite (excl_free s Hx E u) in Hu.
  - destruct (excl_held s Hx E) as [t Ht]. exists (Some t). split; [done|]. intros u Hu. by apply (excl_unique s Hx).
Qed.

(** The thread whose move may change the owner. *)
Lemma mutex_step_one s s' :
  mutex_step s s' -> exists t, forall u, u <> t -> holds (mpc s u) = true <-> holds (mpc s' u) = true.
Proof.
  intros Hstep. destruct Hstep as [s t Ht|s t p v Hl|s t r v Ht Htry|s t Ht|s t Ht|s t p v Hu|s t t' Ht Ht'|s t Ht _];
    exists t; intros u Hu'; cbn; rewrite upd_other by done; try done.
  upd_case t' u; [by rewrite Ht'|done].
Qed.

#[export] Program Instance normal_mutex_lock : Lock mutex_state := {|
  lk_init := mutex_unlocked; lk_step := mutex_step; lk_owns s t := holds (mpc s t) = true |}.
Next Obligation. intros s (_ & H) u. rewrite H. done. Qed.
Next Obligation.
  intros s s' Hr Hs.
  destruct (excl_owner s) as [o Ho]; [by apply mutex_invariant|].
  destruct (excl_owner s') as [o' Ho']; [apply mutex_invariant; by eapply reach_step|].
  exists o, o'. split; [done|]. split; [done|]. destruct (mutex_step_one s s' Hs) as [t Ht].
  by eapply one_thread_step.
Qed.

(** A recursive or error-checking mutex of type [T] used by [n] threads. *)
Section Recursive.
Context (n : nat) (tid : thread -> Z) (T : Z) (HT : extended T).
Context (tid_range : forall t, (t < n)%nat -> 0 < tid t < 65536).
Context (tid_inj : forall t t', (t < n)%nat -> (t' < n)%nat -> tid t = tid t' -> t = t').

Lemma rinv_owner s : rinv n tid T s -> exists o, owner_is (fun t => 0 < rdepth s t) o.
Proof.
  intros Hs. destruct (ri_word _ _ _ s Hs) as [[_ H]|(o & st & Ho & _ & Hd & _ & H0)].
  - exists None. intros u Hu. rewrite H in Hu. lia.
  - exists (Some o). split; [lia|]. intros u Hu. destruct (decide (u = o)); [done|]. rewrite H0 in Hu by done. lia.
Qed.

Lemma rstep_one s s' : rstep n tid s s' -> exists t, forall u, u <> t -> rdepth s u = rdepth s' u.
Proof.
  intros Hstep. destruct Hstep as [s t p Ht Hp He|s t r Hp|s t e He|s t p Hp|s t t' p Hp Hp'|s t Hp Hn];
    exists t; intros u Hu; cbn; try done. by rewrite upd_other.
Qed.

#[export] Program Instance recursive_mutex_lock : Lock rstate := {|
  lk_init := fresh T; lk_step := rstep_bounded n tid; lk_owns s t := 0 < rdepth s t |}.
Next Obligation. intros s (_ & _ & H) u. destruct (H u) as [_ ->]. lia. Qed.
Next Obligation.
  intros s s' Hr Hs.
  destruct (rinv_owner s) as [o Ho]; [by apply recursive_invariant|].
  destruct (rinv_owner s') as [o' Ho']; [apply recursive_invariant; [done..|]; by eapply reach_step|].
  exists o, o'. split; [done|]. split; [done|]. destruct Hs as [Hs _].
  destruct (rstep_one s s' Hs) as [t Ht]. eapply (one_thread_step _ _ _ _ t); [done|done|].
  intros u Hu. cbn. by rewrite (Ht u Hu).
Qed.
End Recursive.
