(* ===== verification/Cond.v ===== *)
(** * Condition variables: pthread_cond_* of libc/bionic/pthread.c

    A condition variable is a 32-bit counter.  A waiter reads it while it holds
    the mutex, releases the mutex and sleeps on the futex as long as the counter
    has that value; signal and broadcast decrement the counter and wake sleepers.
    The mutex is the lock of Lock.v: its owner, or none. *)

From Stdlib Require Import ZArith Lia.
From stdpp Require Import base list numbers.
From S2P Require Import Prelude Futex Lock.

Open Scope Z_scope.

(** ** The code *)

Definition pthread_cond_init : Z * Z := (0, 0).
Definition pthread_cond_destroy : Z * Z := (0, s32 0xdeadc04d).

(** The time left until [abstime], in seconds and nanoseconds; [None] when it
    has passed. *)
Definition cond_time_left (abstime now : Z * Z) : option (Z * Z) :=
  let tv_sec := abstime.1 - now.1 in
  let tv_nsec := abstime.2 - now.2 in
  let '(tv_sec, tv_nsec) := if tv_nsec <? 0 then (tv_sec - 1, tv_nsec + 1000000000) else (tv_sec, tv_nsec) in
  if (tv_nsec <? 0) || (tv_sec <? 0) then None else Some (tv_sec, tv_nsec).

(** The relative timeout of pthread_cond_timeout_np. *)
Definition timeout_np_ts (msecs : Z) : Z * Z := (msecs / 1000, (msecs mod 1000) * 1000000).

(** The value the wait functions return for the status of __futex_wait. *)
Definition wait_result (status : Z) : Z := if status =? - ETIMEDOUT then ETIMEDOUT else 0.

(** Where a thread is.  [rel] is the relative timeout, [old] the local variable
    oldvalue.  [ticket] and [num] are not in the program: they count the
    decrements of the counter up to the load of oldvalue, and up to the
    decrement of a signal, itself included. *)
Inductive cpc : Type :=
| COut                                               (* not in a pthread_cond function *)
| CClock (abstime : Z * Z)                           (* before clock_gettime *)
| CLoad (rel : option (Z * Z))                       (* before oldvalue = cond->value *)
| CUnlock (rel : option (Z * Z)) (old ticket : Z)    (* before pthread_mutex_unlock *)
| CWait (rel : option (Z * Z)) (old ticket : Z)      (* before __futex_wait *)
| CAsleep (rel : option (Z * Z)) (old ticket : Z)    (* asleep in __futex_wait *)
| CRelock (timed : bool) (status : Z)                (* before pthread_mutex_lock *)
| CRet (timed : bool) (r : Z)                        (* the wait function has returned [r] *)
| SDec (all : bool)                                  (* signal or broadcast: before __atomic_dec *)
| SWake (all : bool) (num : Z).                      (* before __futex_wake *)

(** The counter, the owner of the mutex and the threads; the number of
    decrements so far, and for each finished signal or broadcast its number and
    whether it may have left a thread asleep. *)
Record cond_state := mkCond {
  cvalue : Z; cowner : option thread; cpcs : thread -> cpc; cdecs : Z; cdone : list (Z * bool) }.

Definition cgoes (s : cond_state) (t : thread) (p : cpc) : cond_state :=
  mkCond (cvalue s) (cowner s) (upd (cpcs s) t p) (cdecs s) (cdone s).

Definition sets_owner (s : cond_state) (o : option thread) : cond_state :=
  mkCond (cvalue s) o (cpcs s) (cdecs s) (cdone s).

Definition finishes (s : cond_state) (num : Z) (left : bool) : cond_state :=
  mkCond (cvalue s) (cowner s) (cpcs s) (cdecs s) ((num, left) :: cdone s).

Definition is_timed (rel : option (Z * Z)) : bool := match rel with Some _ => true | None => false end.

(** __futex_wake: a sleeper goes on with status 0. *)
Definition wake (p : cpc) : cpc := match p with CAsleep rel _ _ => CRelock (is_timed rel) 0 | _ => p end.
Definition sleeps (p : cpc) : bool := match p with CAsleep _ _ _ => true | _ => false end.

(** One atomic step of a thread that changes only the counter and its own
    control point: the next control point, the counter and the decrements. *)
Definition cond_thread_step (p : cpc) (value decs : Z) : option (cpc * Z * Z) :=
  match p with
  | CLoad rel => Some (CUnlock rel value decs, value, decs)
  | CWait rel old ticket =>
      Some (if value =? old then CAsleep rel old ticket else CRelock (is_timed rel) (- EAGAIN), value, decs)
  | SDec all => Some (SWake all (decs + 1), s32 (value - 1), decs + 1)
  | _ => None
  end.

Inductive cond_step : cond_state -> cond_state -> Prop :=
| c_lock s t : cpcs s t = COut -> cowner s = None -> cond_step s (sets_owner s (Some t))
| c_unlock s t : cpcs s t = COut -> cowner s = Some t -> cond_step s (sets_owner s None)
| c_call_wait s t p :
    (* pthread_cond_wait, a timed wait, or pthread_cond_timeout_np; the caller
       holds the mutex *)
    cpcs s t = COut -> cowner s = Some t ->
    p = CLoad None \/ (exists abstime, p = CClock abstime) \/ (exists msecs, p = CLoad (Some (timeout_np_ts msecs))) ->
    cond_step s (cgoes s t p)
| c_clock s t abstime now :
    cpcs s t = CClock abstime ->
    cond_step s (cgoes s t (match cond_time_left abstime now with
                            | None => CRet true ETIMEDOUT
                            | Some rel => CLoad (Some rel)
                            end))
| c_run s t p v d :
    cond_thread_step (cpcs s t) (cvalue s) (cdecs s) = Some (p, v, d) ->
    cond_step s (mkCond v (cowner s) (upd (cpcs s) t p) d (cdone s))
| c_release s t rel old k :
    cpcs s t = CUnlock rel old k -> cowner s = Some t ->
    cond_step s (sets_owner (cgoes s t (CWait rel old k)) None)
| c_return s t rel old k status :
    (* a timeout, a signal handler or a spurious wake-up *)
    cpcs s t = CAsleep rel old k ->
    status = - EINTR \/ status = 0 \/ (status = - ETIMEDOUT /\ is_timed rel = true) ->
    cond_step s (cgoes s t (CRelock (is_timed rel) status))
| c_relock s t timed status :
    cpcs s t = CRelock timed status -> cowner s = None ->
    cond_step s (sets_owner (cgoes s t (CRet timed (wait_result status))) (Some t))
| c_leave s t timed r : cpcs s t = CRet timed r -> cond_step s (cgoes s t COut)
| c_call_signal s t all : cpcs s t = COut -> cond_step s (cgoes s t (SDec all))
| c_wake_one s t t' num :
    cpcs s t = SWake false num -> sleeps (cpcs s t') = true ->
    cond_step s (finishes (cgoes (cgoes s t' (wake (cpcs s t'))) t COut) num true)
| c_wake_all s t all num :
    (* a broadcast wakes every sleeper; a signal finds none *)
    cpcs s t = SWake all num -> (all = true \/ forall t', sleeps (cpcs s t') = false) ->
    cond_step s (finishes (cgoes (mkCond (cvalue s) (cowner s) (fun t' => wake (cpcs s t')) (cdecs s) (cdone s)) t COut)
                   num false).

(** After pthread_cond_init, with the mutex free. *)
Definition cond_fresh (s : cond_state) : Prop :=
  cvalue s = snd pthread_cond_init /\ cowner s = None /\ (forall t, cpcs s t = COut) /\ cdecs s = 0 /\ cdone s = [].

(** ** The counter *)

(** A thread that read the counter when [ticket] decrements had been made. *)
Definition ticket_of (p : cpc) : option (Z * Z) :=
  match p with CUnlock _ old k | CWait _ old k | CAsleep _ old k => Some (old, k) | _ => None end.

Record counts (s : cond_state) : Prop := {
  co_value : cvalue s = s32 (- cdecs s);
  co_nonneg : 0 <= cdecs s;
  co_ticket : forall t old k, ticket_of (cpcs s t) = Some (old, k) -> old = s32 (- k) /\ 0 <= k <= cdecs s;
  co_wake : forall t all num, cpcs s t = SWake all num -> num <= cdecs s;
  co_done : forall num left, (num, left) ∈ cdone s -> num <= cdecs s
}.

Lemma s32_pred v d : v = s32 (- d) -> s32 (v - 1) = s32 (- (d + 1)).
Proof. intros ->. unfold s32. zdm. Qed.

(** Two counts with the same counter are equal unless 2^32 apart. *)
Lemma s32_count_inj k d : 0 <= k <= d -> d < 2 ^ 32 -> s32 (- k) = s32 (- d) -> k = d.
Proof. unfold s32. intros H1 H2 E. zdm. Qed.

Lemma counts_goes s t p :
  counts s -> (forall old k, ticket_of p = Some (old, k) -> old = s32 (- k) /\ 0 <= k <= cdecs s) ->
  (forall all num, p = SWake all num -> num <= cdecs s) -> counts (cgoes s t p).
Proof.
  intros [H1 H2 H3 H4 H5] Hp Hp'. split; cbn; [done|done| | |done].
  - intros t' old k. upd_case t t'; [apply Hp|apply H3].
  - intros t' all num. upd_case t t'; [apply Hp'|apply H4].
Qed.

Lemma counts_owner s o : counts s -> counts (sets_owner s o).
Proof. intros [H1 H2 H3 H4 H5]. by split. Qed.

Lemma counts_finish s num left : counts s -> num <= cdecs s -> counts (finishes s num left).
Proof.
  intros [H1 H2 H3 H4 H5] Hn. split; try done. cbn. intros num' left' [[= -> ->] | H]%elem_of_cons; [done|by eapply H5].
Qed.

Lemma ticket_wake p old k : ticket_of (wake p) = Some (old, k) -> ticket_of p = Some (old, k).
Proof. by destruct p. Qed.

Lemma counts_wake s : counts s ->
  counts (mkCond (cvalue s) (cowner s) (fun t' => wake (cpcs s t')) (cdecs s) (cdone s)).
Proof.
  intros [H1 H2 H3 H4 H5]. split; cbn; [done|done| | |done].
  - intros t old k Hk%ticket_wake. by eapply H3.
  - intros t all num. destruct (cpcs s t) eqn:E; cbn; intros [=]; subst. by eapply H4.
Qed.

Lemma counts_step s s' : counts s -> cond_step s s' -> counts s'.
Proof.
  intros Hs Hstep. pose proof Hs as [H1 H2 H3 H4 H5].
  destruct Hstep as [s t Ht Ho|s t Ht Ho|s t p Ht Ho Hp|s t abs now Ht|s t p v d Hr|s t rel old k Ht Ho
    |s t rel old k st Ht _|s t timed st Ht Ho|s t timed r Ht|s t all Ht|s t t' num Ht Ht'|s t all num Ht _].
  - by apply counts_owner.
  - by apply counts_owner.
  - apply counts_goes; [done|..]; destruct Hp as [-> | [[? ->] | [? ->]]]; done.
  - apply counts_goes; [done|..]; destruct (cond_time_left abs now); done.
  - destruct (cpcs s t) eqn:Ht; try done; cbn in Hr.
    + injection Hr as <- <- <-. apply counts_goes; [done| |done]. cbn. intros old k [= <- <-]. split; [done|lia].
    + injection Hr as <- <- <-. apply counts_goes; [done| |]; destruct (cvalue s =? old); try done.
      cbn. intros old' k' [= <- <-]. apply (H3 t). by rewrite Ht.
    + injection Hr as <- <- <-. split; cbn.
      * by apply s32_pred.
      * lia.
      * intros t' old k. upd_case t t'; [done|]. intros E. destruct (H3 t' old k E). split; [done|lia].
      * intros t' all' num'. upd_case t t'; [intros [= _ <-]; lia|]. intros E. pose proof (H4 t' all' num' E). lia.
      * intros num' left E. pose proof (H5 num' left E). lia.
  - apply counts_owner, counts_goes; [done| |done]. cbn. intros old' k' [= <- <-]. apply (H3 t). by rewrite Ht.
  - by apply counts_goes.
  - by apply counts_owner, counts_goes.
  - by apply counts_goes.
  - by apply counts_goes.
  - apply counts_finish; [|by eapply H4]. apply counts_goes; [|done|done].
    apply counts_goes; [done| |].
    + intros old k Hk%ticket_wake. by eapply H3.
    + intros all' num'. by destruct (cpcs s t').
  - apply counts_finish; [|by eapply H4]. apply counts_goes; [by apply counts_wake|done|done].
Qed.

(** ** Wake-ups *)

(** A signal or broadcast that left nobody asleep stays effective: whoever
    sleeps now began to wait after it. *)
Definition quiet (s : cond_state) : Prop :=
  forall num t rel old k, (num, false) ∈ cdone s -> cpcs s t = CAsleep rel old k -> num <= k.

Lemma quiet_goes s t p : quiet s -> sleeps p = false -> quiet (cgoes s t p).
Proof.
  intros Hq Hp num t' rel old k Hn. cbn. upd_case t t'; [intros ->; done|]. by apply Hq.
Qed.

Lemma quiet_owner s o : quiet s -> quiet (sets_owner s o).
Proof. done. Qed.

Lemma decs_mono s s' : cond_step s s' -> cdecs s <= cdecs s'.
Proof.
  intros []; cbn; try lia. match goal with H : cond_thread_step ?p _ _ = _ |- _ => destruct p; try done; cbn in H; simplify_eq; lia end.
Qed.

Lemma quiet_step s s' : counts s -> quiet s -> cdecs s' < 2 ^ 32 -> cond_step s s' -> quiet s'.
Proof.
  intros Hc Hq Hb Hstep. pose proof Hc as [H1 H2 H3 H4 H5].
  destruct Hstep as [s t Ht Ho|s t Ht Ho|s t p Ht Ho Hp|s t abs now Ht|s t p v d Hr|s t rel old k Ht Ho
    |s t rel old k st Ht _|s t timed st Ht Ho|s t timed r Ht|s t all Ht|s t t' num Ht Ht'|s t all num Ht Hall].
  - done.
  - done.
  - apply quiet_goes; [done|]. by destruct Hp as [-> | [[? ->] | [? ->]]].
  - apply quiet_goes; [done|]. by destruct (cond_time_left abs now).
  - intros num t' rel old k Hn. cbn in *. upd_case t t'; [|by apply Hq].
    intros ->. destruct (cpcs s t) eqn:Ht; try done; cbn in Hr; simplify_eq.
    destruct (Z.eqb_spec (cvalue s) old0) as [E|]; simplify_eq.
    destruct (H3 t (cvalue s) k) as (Eo & Hk); [by rewrite Ht|].
    assert (k = cdecs s) as -> by (apply s32_count_inj; [lia|done|congruence]). by eapply H5.
  - apply quiet_owner, quiet_goes; done.
  - by apply quiet_goes.
  - by apply quiet_owner, quiet_goes.
  - by apply quiet_goes.
  - by apply quiet_goes.
  - intros num' t'' rel old k [[=] | Hn]%elem_of_cons. cbn. upd_case t t''; [done|].
    upd_case t' t''; [by destruct (cpcs s t')|]. by apply Hq.
  - intros num' t' rel old k _. cbn. upd_case t t'; [done|]. destruct (cpcs s t') eqn:E; done.
Qed.

(** ** The mutex *)

(** What a thread in a wait function knows of the mutex and of its result. *)
Definition wait_ok (o : option thread) (t : thread) (p : cpc) : Prop :=
  match p with
  | CClock _ | CLoad _ | CUnlock _ _ _ => o = Some t
  | CWait _ _ _ | CAsleep _ _ _ => o <> Some t
  | CRelock timed status => o <> Some t /\ (status = - ETIMEDOUT -> timed = true)
  | CRet timed r => o = Some t /\ (r = 0 \/ (r = ETIMEDOUT /\ timed = true))
  | COut | SDec _ | SWake _ _ => True
  end.

Definition locked_ok (s : cond_state) : Prop := forall t, wait_ok (cowner s) t (cpcs s t).

Lemma locked_goes s t p : locked_ok s -> wait_ok (cowner s) t p -> locked_ok (cgoes s t p).
Proof. intros Hs Hp t'. cbn. upd_case t t'; [done|apply Hs]. Qed.

(** Another thread takes or releases the mutex. *)
Lemma wait_ok_other o o' t p :
  wait_ok o t p -> (o = Some t -> o' = Some t) -> (o' = Some t -> o = Some t) -> wait_ok o' t p.
Proof. destruct p; cbn; intuition. Qed.

Lemma locked_move s t p o :
  locked_ok s -> wait_ok o t p -> (forall u, u <> t -> (cowner s = Some u <-> o = Some u)) ->
  locked_ok (sets_owner (cgoes s t p) o).
Proof.
  intros Hs Hp Ho t'. cbn. upd_case t t'; [done|]. eapply wait_ok_other; [apply Hs|..]; apply (Ho t'); done.
Qed.

Lemma wake_ok o t p : wait_ok o t p -> wait_ok o t (wake p).
Proof. by destruct p. Qed.

Lemma locked_step s s' : locked_ok s -> cond_step s s' -> locked_ok s'.
Proof.
  intros Hs Hstep.
  destruct Hstep as [s t Ht Ho|s t Ht Ho|s t p Ht Ho Hp|s t abs now Ht|s t p v d Hr|s t rel old k Ht Ho
    |s t rel old k st Ht Hst|s t timed st Ht Ho|s t timed r Ht|s t all Ht|s t t' num Ht Ht'|s t all num Ht Hall].
  - intros u. cbn. specialize (Hs u). destruct (decide (u = t)) as [->|]; [by rewrite Ht|].
    eapply wait_ok_other; [exact Hs|rewrite Ho; done|intros [= ->]; done].
  - intros u. cbn. specialize (Hs u). destruct (decide (u = t)) as [->|]; [by rewrite Ht|].
    eapply wait_ok_other; [exact Hs|rewrite Ho; intros [= ->]; done|done].
  - apply locked_goes; [done|]. destruct Hp as [-> | [[? ->] | [? ->]]]; done.
  - specialize (Hs t) as Ho. rewrite Ht in Ho. apply locked_goes; [done|]. destruct (cond_time_left abs now); cbn; auto.
  - intros u. cbn. upd_case t u; [|apply Hs]. specialize (Hs t).
    destruct (cpcs s t); try done; cbn in Hr, Hs; simplify_eq; try done.
    destruct (_ =? _); [done|]. split; [done|]. discriminate.
  - apply locked_move; [done|done|]. intros u Hu. rewrite Ho. naive_solver.
  - specialize (Hs t) as Ho. rewrite Ht in Ho. apply locked_goes; [done|]. split; [done|].
    intros ->. destruct Hst as [|[|[_ H]]]; done.
  - specialize (Hs t) as Hw. rewrite Ht in Hw. destruct Hw as (_ & Hw). apply locked_move; [done| |].
    + split; [done|]. unfold wait_result. bcase; [right; split; auto|by left].
    + intros u Hu. rewrite Ho. naive_solver.
  - by apply locked_goes.
  - by apply locked_goes.
  - intros u. cbn. upd_case t u; [done|]. upd_case t' u; [apply wake_ok, Hs|apply Hs].
  - intros u. cbn. upd_case t u; [done|]. apply wake_ok, Hs.
Qed.

Lemma cond_invariant s :
  reachable cond_fresh cond_step s -> counts s /\ (cdecs s < 2 ^ 32 -> quiet s) /\ locked_ok s.
Proof.
  apply (reachable_invariant _ _ (fun s => counts s /\ (cdecs s < 2 ^ 32 -> quiet s) /\ locked_ok s)).
  - intros s0 (H1 & H2 & H3 & H4 & H5). split; [|split].
    + split; rewrite ?H1, ?H4, ?H5; try done.
      * intros t old k. by rewrite H3.
      * intros t all num. by rewrite H3.
      * intros num left Hn. by apply not_elem_of_nil in Hn.
    + intros _ num t rel old k Hn. rewrite H5 in Hn. by apply not_elem_of_nil in Hn.
    + intros t. by rewrite H3.
  - intros s1 s2 (C & Q & L) Hstep. pose proof (decs_mono _ _ Hstep). split; [by eapply counts_step|]. split.
    + intros Hb. eapply quiet_step; [done|apply Q; lia|done|done].
    + by eapply locked_step.
Qed.

(** ** The properties *)

(** C5: no wake-up of a condition variable is lost, as long as fewer than 2^32
    signals and broadcasts have been made: once a broadcast, or a signal that
    woke nobody, has finished, no thread that had read the counter before it (and
    so still held the mutex then, or began to wait before) is asleep, and such a
    thread that has not slept yet finds the counter changed, so that its
    __futex_wait returns at once.  (A signal that is not of this kind woke a
    sleeper.) *)
Theorem cond_no_lost_wakeup (s : cond_state) (num : Z) :
  reachable cond_fresh cond_step s -> cdecs s < 2 ^ 32 -> (num, false) ∈ cdone s ->
  forall t rel old k,
    (cpcs s t = CAsleep rel old k -> num <= k) /\
    (cpcs s t = CUnlock rel old k \/ cpcs s t = CWait rel old k -> k < num -> cvalue s <> old).
Proof.
  intros (C & Q & _)%cond_invariant Hb Hn t rel old k. split; [by apply Q|].
  intros Hp Hk E. destruct C as [H1 H2 H3 H4 H5].
  destruct (H3 t old k) as (Eo & Hr); [by destruct Hp as [-> | ->]|]. pose proof (H5 num false Hn).
  assert (k = cdecs s) by (apply s32_count_inj; [lia|done|congruence]). lia.
Qed.

(** pthread_cond_wait and its timed variants return with the mutex held by
    the caller, on every path, including the timeout that is noticed before the
    mutex is released; they do not hold it while they wait; and the result is 0
    or, only when a timeout was given, ETIMEDOUT. *)
Theorem cond_wait_returns_locked (s : cond_state) (t : thread) :
  reachable cond_fresh cond_step s ->
  (forall timed r, cpcs s t = CRet timed r ->
     cowner s = Some t /\ (r = 0 \/ (r = ETIMEDOUT /\ timed = true))) /\
  (forall rel old k, cpcs s t = CWait rel old k \/ cpcs s t = CAsleep rel old k -> cowner s <> Some t).
Proof.
  intros (_ & _ & L)%cond_invariant. specialize (L t). split.
  - intros timed r E. by rewrite E in L.
  - intros rel old k [E|E]; by rewrite E in L.
Qed.

(** Thread 1 waits and thread 2 broadcasts. *)
Definition after_broadcast : cond_state :=
  finishes (cgoes (mkCond (-1) None (fun t' => wake (upd (upd (upd (upd (upd (upd (fun _ => COut) 1 (CLoad None))
    1 (CUnlock None 0 0)) 1 (CWait None 0 0)) 1 (CAsleep None 0 0)) 2 (SDec true)) 2 (SWake true 1) t')) 1 [])
    2 COut) 1 false.

Lemma after_broadcast_reachable : reachable cond_fresh cond_step after_broadcast.
Proof.
  unfold after_broadcast.
  eapply reach_step; [|eapply (c_wake_all (mkCond (-1) None _ 1 []) 2 true 1); [done|by left]].
  eapply reach_step; [|by eapply (c_run (mkCond 0 None _ 0 []) 2)].
  eapply reach_step; [|by eapply (c_call_signal (mkCond 0 None _ 0 []) 2 true)].
  eapply reach_step; [|by eapply (c_run (mkCond 0 None _ 0 []) 1)].
  eapply reach_step; [|by eapply (c_release (mkCond 0 (Some 1%nat) _ 0 []) 1)].
  eapply reach_step; [|by eapply (c_run (mkCond 0 (Some 1%nat) _ 0 []) 1)].
  eapply reach_step; [|eapply (c_call_wait (mkCond 0 (Some 1%nat) _ 0 []) 1); [done|done|by left]].
  eapply reach_step; [|by eapply (c_lock (mkCond 0 None _ 0 []) 1)].
  apply reach_init. done.
Qed.

Lemma cond_no_lost_wakeup_witness :
  cpcs after_broadcast 1%nat = CRelock false 0 /\
  forall t rel old k,
    (cpcs after_broadcast t = CAsleep rel old k -> 1 <= k) /\
    (cpcs after_broadcast t = CUnlock rel old k \/ cpcs after_broadcast t = CWait rel old k -> k < 1 ->
     cvalue after_broadcast <> old).
Proof.
  split; [reflexivity|]. apply (cond_no_lost_wakeup after_broadcast 1).
  - apply after_broadcast_reachable.
  - reflexivity.
  - apply list_elem_of_here.
Defined.

Lemma cond_wait_returns_locked_witness :
  cowner (sets_owner (cgoes after_broadcast 1 (CRet false 0)) (Some 1%nat)) = Some 1%nat /\
  (0 = 0 \/ (0 = ETIMEDOUT /\ false = true)).
Proof.
  apply (cond_wait_returns_locked (sets_owner (cgoes after_broadcast 1 (CRet false 0)) (Some 1%nat)) 1).
  - eapply reach_step; [apply after_broadcast_reachable|]. by apply (c_relock after_broadcast 1 false 0).
  - reflexivity.
Defined.

(** The counter takes 2^32 decrements to come back to a value: what makes a
    waiter miss a signal is 2^32 of them between its load and its futex call. *)
Lemma cond_counter_period k d : 0 <= k <= d -> d - k <= 2 ^ 32 -> s32 (- k) = s32 (- d) <-> d = k \/ d = k + 2 ^ 32.
Proof.
  intros H1 H2. split; [unfold s32; intros E; zdm|]. intros [-> | ->]; [done|]. unfold s32. zdm.
Qed.
