(* ===== verification/Semaphore.v ===== *)
(** * POSIX semaphores: libc/bionic/semaphore.c

    A semaphore is an unsigned 32-bit count.  sem_wait, sem_timedwait and
    sem_trywait decrement it with the compare-and-exchange loop of
    __atomic_dec_if_positive, sem_post increments it.  Each load, atomic
    instruction, clock reading and futex call is one step of the calling thread,
    and the steps of all threads interleave. *)

From Stdlib Require Import ZArith Lia.
From stdpp Require Import base list numbers.
From S2P Require Import Prelude Futex.

Open Scope Z_scope.

(** ** Operations without a loop

    They return the result and, when it is set, errno; a pointer argument is
    [None] when it is NULL. *)

Definition sem_init (sem : option Z) (pshared value : Z) : Z * option Z * option Z :=
  match sem with
  | None => (-1, Some EINVAL, None)
  | Some c => if negb (pshared =? 0) then (-1, Some ENOSYS, Some c) else (0, None, Some value)
  end.

Definition sem_destroy (sem : option Z) : Z * option Z :=
  match sem with
  | None => (-1, Some EINVAL)
  | Some count => if count =? 0 then (-1, Some EBUSY) else (0, None)
  end.

Definition SEM_FAILED : Z := 0.
Definition sem_open : Z * option Z := (SEM_FAILED, Some ENOSYS).
Definition sem_close (sem : option Z) : Z * option Z :=
  match sem with None => (-1, Some EINVAL) | Some _ => (-1, Some ENOSYS) end.
Definition sem_unlink : Z * option Z := (-1, Some ENOSYS).

(** The last component is what is stored in [*sval], an [int]. *)
Definition sem_getvalue (sem : option Z) (sval : bool) : Z * option Z * option Z :=
  match sem with
  | Some count => if sval then (0, None, Some (s32 count)) else (-1, Some EINVAL, None)
  | None => (-1, Some EINVAL, None)
  end.

(** ** Control points *)

Record timespec := mkTs { tv_sec : Z; tv_nsec : Z }.

(** Which function called __atomic_dec_if_positive or __futex_wait. *)
Inductive scaller : Type :=
| KWait                              (* sem_wait *)
| KTry                               (* sem_trywait *)
| KTimed (abs : option timespec)     (* sem_timedwait, before its loop *)
| KTimedLoop (abs : timespec).       (* sem_timedwait, in its loop *)

Inductive spc : Type :=
| SIdle
| SDone (r : Z) (err : option Z)
| DecLoad (k : scaller)              (* before old = *pvalue *)
| DecCas (k : scaller) (old : Z)     (* before __atomic_cmpxchg(old, old-1) *)
| ClockRead (abs : timespec)         (* before clock_gettime *)
| FutexWait (k : scaller)            (* before __futex_wait(&count, 0, ..) *)
| Asleep (k : scaller)
| PostInc                            (* sem_post: before __atomic_inc *)
| PostWake.                          (* before __futex_wake(&count, 1) *)

(** Check of the argument of sem_timedwait. *)
Definition bad_timespec (abs : option timespec) : bool :=
  match abs with
  | None => true
  | Some ts => (tv_sec ts <? 0) || (tv_nsec ts <? 0) || (1000000000 <=? tv_nsec ts)
  end.

(** The time left at [now], or [None] when the timeout has passed. *)
Definition time_left (abs now : timespec) : option timespec :=
  let sec := tv_sec abs - tv_sec now in
  let nsec := tv_nsec abs - tv_nsec now in
  let '(sec, nsec) := if nsec <? 0 then (sec - 1, nsec + 1000000000) else (sec, nsec) in
  if (sec <? 0) || (nsec <? 0) then None else Some (mkTs sec nsec).

(** What the caller does with a result of __atomic_dec_if_positive. *)
Definition dec_failed (k : scaller) : spc :=
  match k with
  | KWait => FutexWait KWait
  | KTry => SDone EAGAIN None
  | KTimed abs =>
      if bad_timespec abs then SDone (-1) (Some EINVAL)
      else match abs with Some ts => ClockRead ts | None => SDone (-1) (Some EINVAL) end
  | KTimedLoop abs => ClockRead abs
  end.

(** Return from __futex_wait with result [ret]. *)
Definition wait_returns (k : scaller) (ret : Z) : spc :=
  match k with
  | KTimedLoop abs =>
      if (ret =? - ETIMEDOUT) || (ret =? - EINTR) then SDone (-1) (Some (- ret))
      else DecLoad (KTimedLoop abs)
  | k => DecLoad k
  end.

(** One step of a thread that is awake: the next control point, the new count,
    and the change of the number of completed increments and decrements. *)
Definition sem_thread_step (p : spc) (count : Z) : option (spc * Z * (Z * Z)) :=
  match p with
  | DecLoad k => Some (if count =? 0 then dec_failed k else DecCas k count, count, (0, 0))
  | DecCas k old =>
      Some (if count =? old then (SDone 0 None, u32 (old - 1), (0, 1))
            else (DecLoad k, count, (0, 0)))
  | FutexWait k =>
      Some (if count =? 0 then Asleep k else wait_returns k (- EAGAIN), count, (0, 0))
  | PostInc =>
      Some (if count =? 0 then PostWake else SDone 0 None, u32 (count + 1), (1, 0))
  | _ => None
  end.

(** ** The system *)

Record sem_state := mkSem {
  scount : Z; spcs : thread -> spc;
  sposts : Z; stakes : Z (* completed increments and decrements, for the specification *) }.

Definition sgoes (s : sem_state) (t : thread) (p : spc) : sem_state :=
  mkSem (scount s) (upd (spcs s) t p) (sposts s) (stakes s).

(** The entry points, with the test for a NULL semaphore. *)
Inductive scall : Type := CallWait | CallTry | CallTimed (abs : option timespec) | CallPost.

Definition sem_entry (c : scall) (nonnull : bool) : spc :=
  match c, nonnull with
  | CallPost, false => SDone EINVAL None
  | CallPost, true => PostInc
  | _, false => SDone (-1) (Some EINVAL)
  | CallWait, true => DecLoad KWait
  | CallTry, true => DecLoad KTry
  | CallTimed abs, true => DecLoad (KTimed abs)
  end.

Inductive sem_step : sem_state -> sem_state -> Prop :=
| s_call s t c b : spcs s t = SIdle -> sem_step s (sgoes s t (sem_entry c b))
| s_return s t r e : spcs s t = SDone r e -> sem_step s (sgoes s t SIdle)
| s_run s t p c dp dt :
    sem_thread_step (spcs s t) (scount s) = Some (p, c, (dp, dt)) ->
    sem_step s (mkSem c (upd (spcs s) t p) (sposts s + dp) (stakes s + dt))
| s_clock s t abs now :
    spcs s t = ClockRead abs ->
    sem_step s (sgoes s t (match time_left abs now with
                           | None => SDone (-1) (Some ETIMEDOUT)
                           | Some _ => FutexWait (KTimedLoop abs)
                           end))
| s_interrupt s t k ret :
    (* a timeout, a signal or a spurious wake-up *)
    spcs s t = Asleep k -> (ret = - ETIMEDOUT \/ ret = - EINTR \/ ret = 0) ->
    sem_step s (sgoes s t (wait_returns k ret))
| s_wake s t t' k :
    spcs s t = PostWake -> spcs s t' = Asleep k ->
    sem_step s (sgoes (sgoes s t' (wait_returns k 0)) t (SDone 0 None))
| s_wake_none s t :
    spcs s t = PostWake -> (forall t' k, spcs s t' <> Asleep k) ->
    sem_step s (sgoes s t (SDone 0 None)).

Definition sem_fresh (v : Z) (s : sem_state) : Prop :=
  scount s = v /\ sposts s = 0 /\ stakes s = 0 /\ forall t, spcs s t = SIdle.

(** ** The count is what is left *)

Record sem_inv (v : Z) (s : sem_state) : Prop := {
  si_count : 0 <= scount s < 2 ^ 32;
  si_left : exists k, 0 <= k /\ v + sposts s - stakes s = scount s + k * 2 ^ 32;
  si_posts : 0 <= sposts s; si_takes : 0 <= stakes s;
  si_low : sposts s + v < 2 ^ 32 -> v + sposts s - stakes s = scount s;
  si_cas : forall t k old, spcs s t = DecCas k old -> 0 < old
}.

(** Moves that leave the count alone. *)
Lemma sem_inv_goes v s t p :
  sem_inv v s -> (forall k old, p = DecCas k old -> 0 < old) -> sem_inv v (sgoes s t p).
Proof.
  intros [H1 H2 H3 H4 H5 H6] Hp. split; simpl; try done.
  intros t' k old. upd_case t t'; [apply Hp | apply H6].
Qed.

Lemma dec_failed_cas k k' old : dec_failed k <> DecCas k' old.
Proof. destruct k; simpl; repeat case_match; done. Qed.

Lemma wait_returns_cas k r k' old : wait_returns k r <> DecCas k' old.
Proof. destruct k; simpl; repeat case_match; done. Qed.

Lemma sem_inv_run v s t p c dp dt :
  0 <= v -> sem_inv v s -> sem_thread_step (spcs s t) (scount s) = Some (p, c, (dp, dt)) ->
  sem_inv v (mkSem c (upd (spcs s) t p) (sposts s + dp) (stakes s + dt)).
Proof.
  intros Hv [H1 H2 H3 H4 H5 H6] E. destruct H2 as (j & Hj & H2).
  assert (Hq : forall q, (forall k old, q = DecCas k old -> 0 < old) ->
            forall t' k old, upd (spcs s) t q t' = DecCas k old -> 0 < old).
  { intros q Hq t' k old. upd_case t t'; [apply Hq | apply H6]. }
  pose proof (H6 t) as Hcas. destruct (spcs s t) eqn:Hp; try done; simpl in E; revert E.
  - bcase; intros E; simplify_eq; split; simpl; rewrite ?Z.add_0_r; try done; try (by exists j).
    + apply Hq. intros k' old Ek. by apply dec_failed_cas in Ek.
    + apply Hq. intros k' old Ek. injection Ek. lia.
  - specialize (Hcas _ _ eq_refl).
    bcase; intros E; simplify_eq; split; simpl; rewrite ?Z.add_0_r; try done; try (by exists j);
      try (by apply Hq); rewrite ?u32_small by lia; try lia.
    exists j. lia.
  - bcase; intros E; simplify_eq; split; simpl; rewrite ?Z.add_0_r; try done; try (by exists j);
      apply Hq; try done.
    intros k' old Ek. by apply wait_returns_cas in Ek.
  - intros E; simplify_eq.
    split; simpl; rewrite ?Z.add_0_r; try lia; try apply u32_range.
    + destruct (Z.eq_dec (scount s + 1) (2 ^ 32)) as [E|E].
      * rewrite E. exists (j + 1). change (u32 (2 ^ 32)) with 0. lia.
      * exists j. rewrite u32_small by lia. lia.
    + intros Hlt. rewrite u32_small by lia. lia.
    + apply Hq. by bcase.
Qed.

Lemma sem_invariant v s : 0 <= v < 2 ^ 32 -> reachable (sem_fresh v) sem_step s -> sem_inv v s.
Proof.
  intros Hv. apply (reachable_invariant _ _ (sem_inv v)).
  - intros s0 (H1 & H2 & H3 & H4). split; rewrite ?H1, ?H2, ?H3; try lia.
    + exists 0. lia.
    + intros t k old. by rewrite H4.
  - intros s1 s2 Hs Hstep. destruct Hstep.
    + apply sem_inv_goes; [done|]. intros k old. by destruct c, b.
    + by apply sem_inv_goes.
    + apply sem_inv_run; [lia|done|done].
    + apply sem_inv_goes; [done|]. intros k old. by destruct (time_left abs now).
    + apply sem_inv_goes; [done|]. intros k' old E. by apply wait_returns_cas in E.
    + apply sem_inv_goes; [|done]. apply sem_inv_goes; [done|].
      intros k' old E. by apply wait_returns_cas in E.
    + by apply sem_inv_goes.
Qed.

(** ** The properties *)

(** C6: a semaphore initialised to v hands out no more than it was given: in
    every interleaving of sem_wait, sem_trywait, sem_timedwait and sem_post, the
    number of successful decrements is at most v plus the number of increments,
    and the count is exactly their difference as long as that sum stays below
    2^32. *)
Theorem sem_conserves (v : Z) (s : sem_state) :
  0 <= v < 2 ^ 32 -> reachable (sem_fresh v) sem_step s ->
  stakes s <= v + sposts s /\ 0 <= scount s < 2 ^ 32 /\
  (v + sposts s < 2 ^ 32 -> scount s = v + sposts s - stakes s).
Proof.
  intros Hv Hr. destruct (sem_invariant v s Hv Hr) as [H1 (k & Hk & H2) H3 H4 H5 H6].
  split_and!; lia.
Qed.

(** A scheduler: thread [t] calls a function, takes a step, returns, or wakes
    the sleeper [t']. *)
Inductive sevent := SvCall (t : thread) (c : scall) | SvRun (t : thread)
  | SvReturn (t : thread) | SvWake (t t' : thread).

Definition sem_exec (s : sem_state) (ev : sevent) : option sem_state :=
  match ev with
  | SvCall t c => match spcs s t with SIdle => Some (sgoes s t (sem_entry c true)) | _ => None end
  | SvRun t =>
      match sem_thread_step (spcs s t) (scount s) with
      | Some (p, c, (dp, dt)) => Some (mkSem c (upd (spcs s) t p) (sposts s + dp) (stakes s + dt))
      | None => None
      end
  | SvReturn t => match spcs s t with SDone _ _ => Some (sgoes s t SIdle) | _ => None end
  | SvWake t t' =>
      match spcs s t, spcs s t' with
      | PostWake, Asleep k => Some (sgoes (sgoes s t' (wait_returns k 0)) t (SDone 0 None))
      | _, _ => None
      end
  end.

Fixpoint sem_execs (s : sem_state) (evs : list sevent) : option sem_state :=
  match evs with
  | [] => Some s
  | ev :: evs' => match sem_exec s ev with Some s' => sem_execs s' evs' | None => None end
  end.

Lemma sem_exec_step s ev s' : sem_exec s ev = Some s' -> sem_step s s'.
Proof.
  destruct ev as [t c|t|t|t t']; simpl.
  - destruct (spcs s t) eqn:E; try done. intros [= <-]. by apply s_call.
  - destruct (sem_thread_step _ _) as [[[p c] [dp dt]]|] eqn:E; [|done].
    intros [= <-]. by apply s_run.
  - destruct (spcs s t) eqn:E; try done. intros [= <-]. by eapply s_return.
  - destruct (spcs s t) eqn:E; try done. destruct (spcs s t') eqn:E'; try done.
    intros [= <-]. by apply s_wake.
Qed.

Lemma sem_execs_reachable v s evs s' :
  reachable (sem_fresh v) sem_step s -> sem_execs s evs = Some s' ->
  reachable (sem_fresh v) sem_step s'.
Proof.
  revert s. induction evs as [|ev evs IH]; intros s Hr; simpl; [by intros [= <-]|].
  destruct (sem_exec s ev) as [s1|] eqn:E; [|done].
  apply IH. eapply reach_step; [done|]. by eapply sem_exec_step.
Qed.

(** Threads 1 and 2 block in sem_wait, thread 0 posts twice, and thread 1, which
    the first post woke, takes one of the two. *)
Definition sem_ex0 : sem_state := mkSem 0 (fun _ => SIdle) 0 0.
Definition sem_ex_events : list sevent :=
  [SvCall 1 CallWait; SvRun 1; SvRun 1; SvCall 2 CallWait; SvRun 2; SvRun 2;
   SvCall 0 CallPost; SvRun 0; SvWake 0 1; SvReturn 0; SvCall 0 CallPost; SvRun 0; SvReturn 0;
   SvRun 1; SvRun 1; SvReturn 1].
Definition sem_ex_state : sem_state := default sem_ex0 (sem_execs sem_ex0 sem_ex_events).

Lemma sem_ex_reachable : reachable (sem_fresh 0) sem_step sem_ex_state.
Proof.
  assert (E : is_Some (sem_execs sem_ex0 sem_ex_events)) by (vm_compute; eauto).
  destruct E as [s E]. unfold sem_ex_state. rewrite E. simpl.
  eapply sem_execs_reachable; [|exact E]. by apply reach_init.
Qed.

Lemma sem_conserves_witness :
  stakes sem_ex_state <= 0 + sposts sem_ex_state /\ 0 <= scount sem_ex_state < 2 ^ 32 /\
  (0 + sposts sem_ex_state < 2 ^ 32 ->
   scount sem_ex_state = 0 + sposts sem_ex_state - stakes sem_ex_state).
Proof. apply (sem_conserves 0); [lia | apply sem_ex_reachable]. Defined.

(** a waiter can be forgotten.  sem_post calls __futex_wake only when it
    finds the count at 0, and wakes one thread: from two threads blocked in
    sem_wait, two posts and the progress of the thread that was woken lead to a
    state in which the count is positive and every thread is idle except for one
    that still sleeps in sem_wait, with nobody left to wake it. *)
Theorem sem_lost_wakeup :
  exists s, reachable (sem_fresh 0) sem_step s /\ scount s = 1 /\ sposts s = 2 /\ stakes s = 1 /\
    spcs s 2%nat = Asleep KWait /\ forall t, t <> 2%nat -> spcs s t = SIdle.
Proof.
  exists sem_ex_state. split; [apply sem_ex_reachable|].
  do 4 (split; [vm_compute; reflexivity|]).
  intros [|[|[|t]]] Ht; [vm_compute; reflexivity..|done|vm_compute; reflexivity].
Qed.
