(* ===== verification/Once.v ===== *)
(** * pthread_once of libc/bionic/pthread.c

    All controls share one normal mutex, once_lock, here the lock of Lock.v.  A thread has a
    stack of calls, because an init routine may call pthread_once itself.  Every routine runs
    once, and no call returns before it has; a call inside a routine whose own routine has
    not run never returns. *)

From Stdlib Require Import ZArith Lia.
From stdpp Require Import base list numbers.
From S2P Require Import Prelude Futex.

Open Scope Z_scope.

(** Where a call is. *)
Inductive opc : Type :=
| OTest      (* before the first comparison *)
| OLock      (* before _normal_lock *)
| ORetest    (* before the second comparison *)
| OInit      (* in init_routine *)
| OStore     (* before the store to once_control *)
| OUnlock    (* before _normal_unlock *)
| ODone.     (* pthread_once has returned 0 *)

(** Whether a control is no more PTHREAD_ONCE_INIT; the owner of once_lock; the calls of each
    thread, the innermost first; how often each routine was started and has returned. *)
Record ostate := mkO { once : Z -> bool; olock : option thread; ostk : thread -> list (Z * opc); started : Z -> nat; finished : Z -> nat }.

Definition bump (f : Z -> nat) (c : Z) : Z -> nat := fun c' => if c' =? c then S (f c') else f c'.

(** One step of the innermost call, on control [c] at [p], by thread [t]; [None] when it waits. *)
Definition once_step (t : thread) (c : Z) (p : opc) (rest : list (Z * opc)) (s : ostate) : option ostate :=
  let goto p s := mkO (once s) (olock s) (upd (ostk s) t ((c, p) :: rest)) (started s) (finished s) in
  match p with
  | OTest => Some (goto (if once s c then ODone else OLock) s)
  | OLock => match olock s with
             | None => Some (goto ORetest (mkO (once s) (Some t) (ostk s) (started s) (finished s)))
             | Some _ => None
             end
  | ORetest => Some (if once s c then goto OUnlock s else goto OInit (mkO (once s) (olock s) (ostk s) (bump (started s) c) (finished s)))
  | OInit => Some (goto OStore (mkO (once s) (olock s) (ostk s) (started s) (bump (finished s) c)))
  | OStore => Some (goto OUnlock (mkO (fun c' => if c' =? c then true else once s c') (olock s) (ostk s) (started s) (finished s)))
  | OUnlock => Some (goto ODone (mkO (once s) None (ostk s) (started s) (finished s)))
  | ODone => Some (mkO (once s) (olock s) (upd (ostk s) t rest) (started s) (finished s))
  end.

(** A thread may call when it runs no call, or inside an init routine. *)
Definition may_call (stk : list (Z * opc)) : Prop := match stk with [] => True | (_, p) :: _ => p = OInit end.

Inductive ostep : ostate -> ostate -> Prop :=
| o_call s t c : may_call (ostk s t) ->
    ostep s (mkO (once s) (olock s) (upd (ostk s) t ((c, OTest) :: ostk s t)) (started s) (finished s))
| o_run s t c p rest s' : ostk s t = (c, p) :: rest -> once_step t c p rest s = Some s' -> ostep s s'.

Definition once_fresh (s : ostate) : Prop :=
  (forall c, once s c = false /\ started s c = 0%nat /\ finished s c = 0%nat) /\ olock s = None /\ forall t, ostk s t = [].

(** ** The invariant *)

Definition holding (p : opc) : bool := match p with ORetest | OInit | OStore | OUnlock => true | _ => false end.

(** The calls of a thread that hold the lock. *)
Fixpoint held (stk : list (Z * opc)) : nat :=
  match stk with [] => O | (_, p) :: rest => ((if holding p then 1 else 0) + held rest)%nat end.

(** What a call at [p] knows of its control. *)
Definition frame_ok (o : bool) (st fin : nat) (p : opc) : Prop :=
  match p with
  | OTest | OLock | ORetest => True
  | OInit => o = false /\ st = 1%nat /\ fin = 0%nat
  | OStore => o = false /\ st = 1%nat /\ fin = 1%nat
  | OUnlock | ODone => o = true
  end.

Record oinv (s : ostate) : Prop := {
  oi_lock : forall t, held (ostk s t) = (if decide (olock s = Some t) then 1 else 0)%nat;
  oi_frame : forall t c p, (c, p) ∈ ostk s t -> frame_ok (once s c) (started s c) (finished s c) p;
  oi_ctl : forall c, once s c = true /\ started s c = 1%nat /\ finished s c = 1%nat \/
                     once s c = false /\ (started s c = 0%nat /\ finished s c = 0%nat \/
                       exists t, (c, OInit) ∈ ostk s t \/ (c, OStore) ∈ ostk s t)
}.

Lemma oinv_fresh s : once_fresh s -> oinv s.
Proof.
  intros (Hc & Hl & Hs). split.
  - intros t. rewrite Hs, Hl. by rewrite decide_False.
  - intros t c p H. rewrite Hs in H. by apply not_elem_of_nil in H.
  - intros c. destruct (Hc c) as (-> & -> & ->). right. split; [done|]. by left.
Qed.

(** A call that holds the lock is one of the owner's, and its only one. *)
Lemma held_in stk c p : (c, p) ∈ stk -> holding p = true -> (1 <= held stk)%nat.
Proof.
  induction stk as [|[c' p'] stk IH]; intros H Hp; [by apply not_elem_of_nil in H|].
  apply elem_of_cons in H as [[= <- <-]|H]; cbn; [rewrite Hp; lia|]. specialize (IH H Hp). lia.
Qed.

Lemma holding_owner s t c p : oinv s -> (c, p) ∈ ostk s t -> holding p = true -> olock s = Some t.
Proof.
  intros Hi H Hp. pose proof (held_in _ _ _ H Hp). rewrite (oi_lock s Hi t) in *. case_decide; [done|lia].
Qed.

Lemma holding_top s t c p rest c' p' : oinv s -> ostk s t = (c, p) :: rest -> holding p = true -> (c', p') ∈ rest -> holding p' = false.
Proof.
  intros Hi Hs Hp H. destruct (holding p') eqn:E; [|done]. exfalso. pose proof (held_in _ _ _ H E). pose proof (oi_lock s Hi t) as Hl.
  rewrite Hs in Hl. cbn in Hl. rewrite Hp in Hl. case_decide; lia.
Qed.

(** ** Steps *)

(** A step that changes the calls of one thread only. *)
Lemma oinv_stk s t stk : oinv s -> held stk = held (ostk s t) ->
  (forall c p, (c, p) ∈ stk -> (c, p) ∈ ostk s t \/ frame_ok (once s c) (started s c) (finished s c) p) ->
  (forall c p, (c, p) ∈ ostk s t -> p = OInit \/ p = OStore -> (c, p) ∈ stk) ->
  oinv (mkO (once s) (olock s) (upd (ostk s) t stk) (started s) (finished s)).
Proof.
  intros Hi Hh Hf Hk. split; cbn.
  - intros u. upd_case t u; [rewrite Hh|]; apply (oi_lock s Hi).
  - intros u c p H. upd_case t u; [|by apply (oi_frame s Hi u)]. apply Hf in H as [H|H]; [by apply (oi_frame s Hi t)|done].
  - intros c. destruct (oi_ctl s Hi c) as [H|(H1 & [H|(u & H)])]; [by left|right; split; [done|by left]|].
    right. split; [done|]. right. exists u. upd_case t u; [|done].
    destruct H as [H|H]; [left|right]; (apply Hk; [done|]); auto.
Qed.

(** A step of the call that holds the lock. *)
Lemma oinv_holder s t c p rest p' once' started' finished' : oinv s -> ostk s t = (c, p) :: rest -> holding p = true ->
  (forall c', c' <> c -> once' c' = once s c' /\ started' c' = started s c' /\ finished' c' = finished s c') ->
  (once s c = true -> once' c = true) -> frame_ok (once' c) (started' c) (finished' c) p' ->
  (once' c = true /\ started' c = 1%nat /\ finished' c = 1%nat \/ once' c = false /\ (p' = OInit \/ p' = OStore)) ->
  oinv (mkO once' (if holding p' then Some t else None) (upd (ostk s) t ((c, p') :: rest)) started' finished').
Proof.
  intros Hi Hs Hp Hoff Hmono Hframe Hctl.
  assert (olock s = Some t) as Hown by (eapply (holding_owner s t c p); [done|rewrite Hs; left|done]).
  assert (held rest = 0%nat) as Hrest.
  { pose proof (oi_lock s Hi t) as Hl. rewrite Hs, Hown in Hl. cbn in Hl. rewrite Hp, decide_True in Hl by done. lia. }
  assert (forall u c' q, u <> t -> (c', q) ∈ ostk s u -> holding q = false) as Hother.
  { intros u c' q Hu H. destruct (holding q) eqn:E; [|done]. pose proof (holding_owner s u c' q Hi H E). congruence. }
  assert (forall c' q, (c', q) ∈ rest -> holding q = false) as Hin by (intros c' q H; by apply (holding_top s t c p rest c')).
  assert (forall u c' q, (c', q) ∈ ostk s u -> holding q = false -> frame_ok (once' c') (started' c') (finished' c') q) as Hkeep.
  { intros u c' q H Hq. pose proof (oi_frame s Hi u c' q H) as Hf. destruct (decide (c' = c)) as [->|Hne].
    - destruct q; try done; cbn in *; by apply Hmono.
    - destruct (Hoff c' Hne) as (-> & -> & ->). done. }
  split; cbn.
  - intros u. upd_case t u; cbn.
    + rewrite Hrest. destruct (holding p'); [by rewrite decide_True|by rewrite decide_False].
    + pose proof (oi_lock s Hi u) as Hl. rewrite Hown, decide_False in Hl by congruence. rewrite Hl.
      rewrite decide_False; [done|]. destruct (holding p'); congruence.
  - intros u c' q H. upd_case t u.
    + apply elem_of_cons in H as [[= -> ->]|H]; [done|]. apply (Hkeep t); [rewrite Hs; by right|by apply (Hin c')].
    + apply (Hkeep u); [done|by apply (Hother u c')].
  - intros c'. destruct (decide (c' = c)) as [->|Hne].
    + destruct Hctl as [H|(H & Hq)]; [by left|right]. split; [done|]. right. exists t. rewrite upd_same.
      destruct Hq as [->| ->]; [left|right]; left.
    + destruct (Hoff c' Hne) as (-> & -> & ->). destruct (oi_ctl s Hi c') as [H|(H1 & [H|(u & H)])]; [by left|right; split; [done|by left]|].
      right. split; [done|]. right. exists u. upd_case t u; [|done]. rewrite Hs, !elem_of_cons in H.
      destruct H as [[[= ? ?]|H]|[[= ? ?]|H]]; try congruence; [left|right]; by right.
Qed.

(** The lock is taken. *)
Lemma oinv_acquire s t c rest : oinv s -> ostk s t = (c, OLock) :: rest -> olock s = None ->
  oinv (mkO (once s) (Some t) (upd (ostk s) t ((c, ORetest) :: rest)) (started s) (finished s)).
Proof.
  intros Hi Hs El. split; cbn.
  - intros u. pose proof (oi_lock s Hi u) as Hu. rewrite El, decide_False in Hu by done. upd_case t u.
    + rewrite Hs in Hu. cbn in *. by rewrite decide_True, Hu.
    + rewrite Hu, decide_False; [done|congruence].
  - intros u c' q H. upd_case t u; [|by apply (oi_frame s Hi u)].
    apply elem_of_cons in H as [[= -> ->]|H]; [done|]. apply (oi_frame s Hi t). rewrite Hs. by right.
  - intros c'. destruct (oi_ctl s Hi c') as [H|(H1 & [H|(u & H)])]; [by left|right; split; [done|by left]|].
    assert (exists q, (c', q) ∈ ostk s u /\ holding q = true) as (q & Hq & Hh) by (destruct H; eauto).
    pose proof (holding_owner s u c' q Hi Hq Hh). congruence.
Qed.

(** The second comparison. *)
Lemma oinv_retest s t c rest : oinv s -> ostk s t = (c, ORetest) :: rest ->
  oinv (if once s c then mkO (once s) (olock s) (upd (ostk s) t ((c, OUnlock) :: rest)) (started s) (finished s)
        else mkO (once s) (olock s) (upd (ostk s) t ((c, OInit) :: rest)) (bump (started s) c) (finished s)).
Proof.
  intros Hi Hs. destruct (oi_ctl s Hi c) as [(H1 & H2 & H3)|(H1 & [(H2 & H3)|(u & H)])].
  - rewrite H1. rewrite (holding_owner s t c ORetest Hi ltac:(rewrite Hs; left) eq_refl).
    apply (oinv_holder s t c ORetest rest OUnlock); [done..|by left].
  - rewrite H1. cbn. rewrite (holding_owner s t c ORetest Hi ltac:(rewrite Hs; left) eq_refl).
    apply (oinv_holder s t c ORetest rest OInit); try done.
    + intros c' Hc'. unfold bump. by zif.
    + cbn. unfold bump. rewrite Z.eqb_refl, H2. done.
    + right. auto.
  - exfalso. assert (exists q, (c, q) ∈ ostk s u /\ holding q = true /\ q <> ORetest) as (q & Hq & Hh & Hne) by (destruct H; eauto).
    pose proof (holding_owner s u c q Hi Hq Hh) as H2.
    pose proof (holding_owner s t c ORetest Hi ltac:(rewrite Hs; left) eq_refl) as H3. rewrite H2 in H3. injection H3 as ->.
    rewrite Hs in Hq. apply elem_of_cons in Hq as [[= ->]|Hq]; [done|].
    pose proof (holding_top s t c ORetest rest c q Hi Hs eq_refl Hq). congruence.
Qed.

Lemma oinv_step s s' : oinv s -> ostep s s' -> oinv s'.
Proof.
  intros Hi Hs. destruct Hs as [s t c Hc|s t c p rest s' Hs E].
  { apply oinv_stk; [done|done| |]; [|intros c' p' H _; by right].
    intros c' p' [[= -> ->]|H]%elem_of_cons; [by right|by left]. }
  pose proof (oi_frame s Hi t c p ltac:(rewrite Hs; left)) as Hf.
  destruct p; cbn [once_step] in E.
  - injection E as <-. apply oinv_stk; [done|rewrite Hs; by destruct (once s c)| |].
    + intros c' p' [[= -> ->]|H]%elem_of_cons; [right; by destruct (once s c) eqn:Ec|left; rewrite Hs; by right].
    + intros c' p' H Hp. rewrite Hs in H. apply elem_of_cons in H as [[= -> ->]|H]; [by destruct Hp|by right].
  - destruct (olock s) eqn:El; [done|]. injection E as <-. by apply oinv_acquire.
  - injection E as <-. pose proof (oinv_retest s t c rest Hi Hs) as H. by destruct (once s c).
  - injection E as <-. cbn. rewrite (holding_owner s t c OInit Hi ltac:(rewrite Hs; left) eq_refl). destruct Hf as (H1 & H2 & H3).
    apply (oinv_holder s t c OInit rest OStore); try done.
    + intros c' Hc'. unfold bump. by zif.
    + cbn. unfold bump. rewrite Z.eqb_refl, H3. done.
    + right. auto.
  - injection E as <-. cbn. rewrite (holding_owner s t c OStore Hi ltac:(rewrite Hs; left) eq_refl). destruct Hf as (H1 & H2 & H3).
    apply (oinv_holder s t c OStore rest OUnlock); try done.
    + intros c' Hc'. by zif.
    + intros _. by rewrite Z.eqb_refl.
    + cbn. by rewrite Z.eqb_refl.
    + left. by rewrite Z.eqb_refl.
  - injection E as <-. cbn in *. destruct (oi_ctl s Hi c) as [H|(H & _)]; [|congruence].
    apply (oinv_holder s t c OUnlock rest ODone); [done..|by left].
  - injection E as <-. apply oinv_stk; [done|by rewrite Hs| |].
    + intros c' p' H. left. rewrite Hs. by right.
    + intros c' p' H Hp. rewrite Hs in H. apply elem_of_cons in H as [[= -> ->]|H]; [by destruct Hp|done].
Qed.

Lemma oinv_reachable s : reachable once_fresh ostep s -> oinv s.
Proof. apply reachable_invariant; [apply oinv_fresh|apply oinv_step]. Qed.

(** A call inside an init routine that waits for the lock waits for ever. *)
Lemma nested_stuck s s' t c rest : oinv s -> steps ostep s s' -> ostk s t = (c, OLock) :: rest -> (exists c', (c', OInit) ∈ rest) ->
  ostk s' t = ostk s t.
Proof.
  intros Hi Hst. induction Hst as [s|s s1 s2 Hs _ IH]; intros Ht [c' Hc']; [done|].
  assert (olock s = Some t) as Hown by (eapply (holding_owner s t c' OInit Hi); [rewrite Ht; by right|done]).
  assert (ostk s1 t = ostk s t) as E.
  { destruct Hs as [s u c1 Hc1|s u c1 p1 rest1 s1 Hu E]; [cbn; upd_case u t; [rewrite Ht in Hc1; done|done]|].
    destruct (decide (t = u)) as [<-|Hne].
    - rewrite Ht in Hu. injection Hu as <- <- <-. cbn in E. by rewrite Hown in E.
    - destruct p1; cbn in E; try destruct (olock s); try destruct (once s c1); try discriminate; injection E as <-; cbn; by rewrite upd_other. }
  rewrite IH; [done|by eapply oinv_step|by rewrite E|by exists c'].
Qed.

(** C16: With any number of threads, controls and nested calls: every init routine runs at most once,
    and when a call of pthread_once returns its routine has run to its end.  A call inside
    an init routine, whose own routine has not run when it looks, never returns: all
    controls share one lock. *)
Theorem once_runs_once s : reachable once_fresh ostep s ->
  (forall c, (finished s c <= started s c <= 1)%nat) /\
  (forall t c, (c, ODone) ∈ ostk s t -> finished s c = 1%nat) /\
  (forall t c c' rest s', ostk s t = (c, OLock) :: rest -> (c', OInit) ∈ rest -> steps ostep s s' -> ostk s' t = ostk s t).
Proof.
  intros Hi%oinv_reachable. split_and!.
  - intros c. destruct (oi_ctl s Hi c) as [(_ & -> & ->)|(_ & [(-> & ->)|(t & [H|H])])]; [lia..| |];
      apply (oi_frame s Hi t) in H as (_ & -> & ->); lia.
  - intros t c H. apply (oi_frame s Hi t) in H. cbn in H. destruct (oi_ctl s Hi c) as [(_ & _ & ?)|(? & _)]; congruence.
  - intros t c c' rest s' Ht Hc Hst. eapply nested_stuck; eauto.
Qed.

(** A thread whose first routine calls pthread_once on another control. *)
Definition run (t : thread) (s : ostate) : ostate :=
  match ostk s t with [] => s | (c, p) :: rest => default s (once_step t c p rest s) end.
Definition call (t : thread) (c : Z) (s : ostate) : ostate :=
  mkO (once s) (olock s) (upd (ostk s) t ((c, OTest) :: ostk s t)) (started s) (finished s).
Definition sample_fresh : ostate := mkO (fun _ => false) None (fun _ => []) (fun _ => O) (fun _ => O).
Definition sample_nested : ostate := run 0 (call 0 2 (run 0 (run 0 (run 0 (call 0 1 sample_fresh))))).

Lemma run_reachable t s : reachable once_fresh ostep s -> reachable once_fresh ostep (run t s).
Proof.
  intros Hr. unfold run. destruct (ostk s t) as [|[c p] rest] eqn:Hs; [done|].
  destruct (once_step t c p rest s) eqn:E; [|done]. eapply reach_step; [done|]. by eapply o_run.
Qed.

Lemma call_reachable t c s : reachable once_fresh ostep s -> may_call (ostk s t) -> reachable once_fresh ostep (call t c s).
Proof. intros Hr Hc. eapply reach_step; [done|]. by apply o_call. Qed.

Lemma sample_nested_reachable : reachable once_fresh ostep sample_nested.
Proof. apply run_reachable, call_reachable; [|done]. apply run_reachable, run_reachable, run_reachable, call_reachable; [|done]. by apply reach_init. Qed.

Lemma once_runs_once_witness :
  reachable once_fresh ostep sample_nested /\ ostk sample_nested 0%nat = [(2, OLock); (1, OInit)] /\
  forall s', steps ostep sample_nested s' -> ostk s' 0%nat = [(2, OLock); (1, OInit)].
Proof.
  split; [exact sample_nested_reachable|]. split; [reflexivity|]. intros s' Hs.
  exact (proj2 (proj2 (once_runs_once sample_nested sample_nested_reachable)) 0%nat 2 1 [(1, OInit)] s' eq_refl (list_elem_of_here _ _) Hs).
Defined.
