(* ===== verification/Props.v ===== *)
(** * System properties: libc/bionic/system_properties.c

    A property is a value in shared memory with a serial number; one process writes it, by
    the rules of sys/_system_properties.h, and every process reads it without a lock.
    Readers and the writer take turns by single loads and stores, and the bytes of a copy
    are moved in any order.  A value that is read is one that was written, not a mixture.
    The properties are found by the table of contents of the shared area. *)

From Stdlib Require Import ZArith Lia.
From stdpp Require Import base list gmap sets fin_sets numbers.
From S2P Require Import Prelude CMem CString StrTo Futex.

Open Scope Z_scope.

Definition PROP_NAME_MAX : Z := 32.
Definition PROP_VALUE_MAX : Z := 92.

Definition TOC_NAME_LEN (toc : Z) : Z := Z.shiftr toc 24.
Definition TOC_TO_INFO (toc : Z) : Z := Z.land toc 0xffffff.
Definition SERIAL_VALUE_LEN (serial : Z) : Z := Z.shiftr serial 24.
Definition SERIAL_DIRTY (serial : Z) : bool := negb (Z.land serial 1 =? 0).

(** ** __system_property_read and the writer *)

(** Where a reader is: [serial] is its local variable, [got] the bytes it has copied.
    [k] and [now] are not in the program: they count the stores to the serial number up to
    the load and up to the last comparison. *)
Inductive reader_pc : Type :=
| ROut
| RLoad                                             (* before serial = pi->serial *)
| RWait (serial : Z)                                (* in __futex_wait *)
| RCopy (serial k : Z) (got : gmap nat Z)           (* in memcpy *)
| RCheck (serial k : Z) (got : gmap nat Z)          (* before the comparison *)
| RDone (len : Z) (got : gmap nat Z) (k now : Z).   (* the value is returned *)

(** A load of the serial number, or a return of __futex_wait. *)
Definition read_step (p : reader_pc) (serial cnt : Z) : option reader_pc :=
  match p with
  | RLoad => Some (if SERIAL_DIRTY serial then RWait serial else RCopy serial cnt ∅)
  | RWait _ => Some RLoad
  | RCheck s k got => Some (if s =? serial then RDone (SERIAL_VALUE_LEN s) got k cnt else RLoad)
  | _ => None
  end.

(** The writer: idle, or with the bytes [todo] of a value of length [len] still to be stored. *)
Inductive wpc : Type :=
| WIdle
| WCopy (len : Z) (d : list Z) (todo : gset nat).

Definition write_begin (serial : Z) : Z := Z.lor serial 1.
Definition write_end (serial len : Z) : Z := Z.lor (Z.shiftl len 24) (Z.land (serial + 1) 0xffffff).

(** The property, the writer and the readers; the stores to the serial number so far, and the
    value that each number of stores published. *)
Record pstate := mkP { serial : Z; value : list Z; writer : wpc; rpcs : thread -> reader_pc; cnt : Z; vals : Z -> Z * list Z }.

Definition rgoes (s : pstate) (t : thread) (p : reader_pc) : pstate :=
  mkP (serial s) (value s) (writer s) (upd (rpcs s) t p) (cnt s) (vals s).

(** A value: its length, and the bytes that are stored, which may have a NUL. *)
Definition val_ok (v : Z * list Z) : Prop :=
  0 <= v.1 < PROP_VALUE_MAX /\ v.1 <= Z.of_nat (length v.2) <= PROP_VALUE_MAX.

Inductive pstep : pstate -> pstate -> Prop :=
| p_begin s len d : writer s = WIdle -> val_ok (len, d) ->
    pstep s (mkP (write_begin (serial s)) (value s) (WCopy len d (set_seq 0 (length d))) (rpcs s) (cnt s + 1) (vals s))
| p_write s len d todo j b : writer s = WCopy len d todo -> j ∈ todo -> d !! j = Some b ->
    pstep s (mkP (serial s) (<[j := b]> (value s)) (WCopy len d (todo ∖ {[j]})) (rpcs s) (cnt s) (vals s))
| p_end s len d : writer s = WCopy len d ∅ ->
    pstep s (mkP (write_end (serial s) len) (value s) WIdle (rpcs s) (cnt s + 1)
               (fun c => if c =? cnt s + 1 then (len, d) else vals s c))
| p_call s t : rpcs s t = ROut -> pstep s (rgoes s t RLoad)
| p_read s t p : read_step (rpcs s t) (serial s) (cnt s) = Some p -> pstep s (rgoes s t p)
| p_copy s t sr k got j b :
    rpcs s t = RCopy sr k got -> Z.of_nat j <= SERIAL_VALUE_LEN sr -> got !! j = None -> value s !! j = Some b ->
    pstep s (rgoes s t (RCopy sr k (<[j := b]> got)))
| p_copied s t sr k got :
    rpcs s t = RCopy sr k got -> (forall j, Z.of_nat j <= SERIAL_VALUE_LEN sr -> is_Some (got !! j)) ->
    pstep s (rgoes s t (RCheck sr k got))
| p_return s t len got k now : rpcs s t = RDone len got k now -> pstep s (rgoes s t ROut).

(** A new property. *)
Definition property_new (s : pstate) : Prop :=
  cnt s = 0 /\ writer s = WIdle /\ (forall t, rpcs s t = ROut) /\ val_ok (vals s 0) /\ Z.of_nat (length (value s)) = PROP_VALUE_MAX /\
  serial s = Z.shiftl (vals s 0).1 24 /\ forall j b, (vals s 0).2 !! j = Some b -> value s !! j = Some b.

(** ** The serial number *)

Definition serial_of (len c : Z) : Z := len * 2 ^ 24 + c mod 2 ^ 24.

Lemma serial_len len c : SERIAL_VALUE_LEN (serial_of len c) = len.
Proof. unfold SERIAL_VALUE_LEN, serial_of. rewrite Z.shiftr_div_pow2 by lia. zdm. Qed.

Lemma serial_low len c c' len' : serial_of len c = serial_of len' c' -> c mod 2 ^ 24 = c' mod 2 ^ 24.
Proof. unfold serial_of. zdm. Qed.

Lemma serial_dirty len c : SERIAL_DIRTY (serial_of len c) = Z.odd c.
Proof.
  unfold SERIAL_DIRTY. change 1 with (Z.ones 1). rewrite Z.land_ones by lia. change (2 ^ 1) with 2.
  assert (serial_of len c mod 2 = c mod 2) as -> by (unfold serial_of; zdm). rewrite Zmod_odd. by destruct (Z.odd c).
Qed.

Lemma write_begin_of len c : Z.odd c = false -> write_begin (serial_of len c) = serial_of len (c + 1).
Proof.
  intros Ho. pose proof (Zmod_odd c) as Hm. rewrite Ho in Hm. unfold write_begin. rewrite lor_add.
  - unfold serial_of. zdm.
  - change 1 with (Z.ones 1). rewrite Z.land_ones by lia. unfold serial_of. zdm.
Qed.

Lemma write_end_of len len' c : write_end (serial_of len' c) len = serial_of len (c + 1).
Proof.
  unfold write_end. change 0xffffff with (Z.ones 24). rewrite Z.land_ones, Z.shiftl_mul_pow2 by lia.
  rewrite lor_add.
  - unfold serial_of. zdm.
  - apply Z.bits_inj'. intros i Hi. rewrite Z.land_spec, Z.bits_0. destruct (Z.ltb_spec i 24).
    + by rewrite Z.mul_pow2_bits_low.
    + rewrite Z.mod_pow2_bits_high by lia. apply andb_false_r.
Qed.

(** ** The invariant *)

Definition agree (got : nat -> option Z) (value : list Z) : Prop := forall j b, got j = Some b -> value !! j = Some b.

(** The value that is published: that of the last even count. *)
Definition published (s : pstate) : Z := if Z.odd (cnt s) then cnt s - 1 else cnt s.

Definition reader_ok (s : pstate) (p : reader_pc) : Prop :=
  match p with
  | ROut | RLoad | RWait _ => True
  | RCopy sr k got | RCheck sr k got =>
      Z.odd k = false /\ 0 <= k <= cnt s /\ sr = serial_of (vals s k).1 k /\ (k = cnt s -> agree (fun j => got !! j) (value s)) /\
      match p with RCheck _ _ _ => forall j, Z.of_nat j <= (vals s k).1 -> is_Some (got !! j) | _ => True end
  | RDone len got k now =>
      Z.odd k = false /\ 0 <= k <= now /\ now <= cnt s /\ (now = k \/ k + 2 ^ 24 <= now) /\ 0 <= len < PROP_VALUE_MAX /\
      (now = k -> len = (vals s k).1 /\ forall j b, Z.of_nat j <= len -> (vals s k).2 !! j = Some b -> got !! j = Some b)
  end.

Record pinv (s : pstate) : Prop := {
  pi_cnt : 0 <= cnt s;
  pi_len : Z.of_nat (length (value s)) = PROP_VALUE_MAX;
  pi_serial : serial s = serial_of (vals s (published s)).1 (cnt s);
  pi_vals : forall c, Z.odd c = false -> 0 <= c <= cnt s -> val_ok (vals s c);
  pi_writer : match writer s with
              | WIdle => Z.odd (cnt s) = false /\ agree (fun j => (vals s (cnt s)).2 !! j) (value s)
              | WCopy len d todo => Z.odd (cnt s) = true /\ val_ok (len, d) /\
                  agree (fun j => if decide (j ∈ todo) then None else d !! j) (value s)
              end;
  pi_readers : forall t, reader_ok s (rpcs s t)
}.

(** A reader that has not seen the store to the serial number is not hurt by it. *)
Lemma reader_ok_store s s' p : reader_ok s p -> cnt s' = cnt s + 1 -> (forall c, c <= cnt s -> vals s' c = vals s c) -> reader_ok s' p.
Proof.
  intros H Hc Hv. destruct p as [| |sr|sr k got|sr k got|len got k now]; cbn in *; try done.
  - destruct H as (H1 & H2 & H3 & H4 & _). rewrite Hv by lia. split_and!; [done|lia|lia|done|lia|done].
  - destruct H as (H1 & H2 & H3 & H4 & H5). rewrite Hv by lia. split_and!; [done|lia|lia|done|lia|done].
  - destruct H as (H1 & H2 & H3 & H4 & H5 & H6). rewrite Hv by lia. split_and!; try done; lia.
Qed.

(** While the writer stores bytes, the count is odd, so no reader is between its load and a
    store it would not see. *)
Lemma reader_ok_bytes s s' p : reader_ok s p -> Z.odd (cnt s) = true -> cnt s' = cnt s -> vals s' = vals s -> reader_ok s' p.
Proof.
  intros H Ho Hc Hv. destruct p as [| |sr|sr k got|sr k got|len got k now]; cbn in *; rewrite ?Hc, ?Hv; try done.
  all: destruct H as (H1 & H2 & H3 & H4 & H5); split_and!; try done; try lia; intros ->; congruence.
Qed.

Lemma pinv_new s : property_new s -> pinv s.
Proof.
  intros (Hc & Hw & Hr & Hv & Hl & Hs & Ha). split.
  - lia.
  - done.
  - rewrite Hs. unfold published. rewrite Hc. cbn. unfold serial_of. rewrite Z.shiftl_mul_pow2 by lia. zdm.
  - intros c Ho Hb. replace c with 0 by lia. done.
  - rewrite Hw, Hc. split; [done|exact Ha].
  - intros t. by rewrite Hr.
Qed.

(** The published value of an idle property. *)
Lemma published_even s : Z.odd (cnt s) = false -> published s = cnt s.
Proof. unfold published. by intros ->. Qed.

Lemma odd_succ c : Z.odd (c + 1) = negb (Z.odd c).
Proof. by rewrite Z.add_1_r, Z.odd_succ, <- Z.negb_odd. Qed.

Lemma pinv_begin s len d : pinv s -> writer s = WIdle -> val_ok (len, d) ->
  pinv (mkP (write_begin (serial s)) (value s) (WCopy len d (set_seq 0 (length d))) (rpcs s) (cnt s + 1) (vals s)).
Proof.
  intros [Hc Hl Hs Hv Hw Hr] Hi Hd. rewrite Hi in Hw. destruct Hw as [Ho Ha].
  assert (published (mkP (write_begin (serial s)) (value s) (WCopy len d (set_seq 0 (length d))) (rpcs s) (cnt s + 1) (vals s)) = cnt s) as Hp.
  { unfold published. cbn. rewrite odd_succ, Ho. cbn. lia. }
  split; cbn -[serial_of] in *.
  - lia.
  - done.
  - rewrite Hp, Hs, (published_even s Ho). by apply write_begin_of.
  - intros c Hoc Hb. apply Hv; [done|]. destruct (decide (c = cnt s + 1)) as [->|]; [rewrite odd_succ, Ho in Hoc; done|lia].
  - split; [by rewrite odd_succ, Ho|]. split; [done|]. intros j b. case_decide as Hj; [done|].
    intros H%lookup_lt_Some. exfalso. apply Hj, elem_of_set_seq. lia.
  - intros t. eapply reader_ok_store; [exact (Hr t)|done|done].
Qed.

Lemma pinv_write s len d todo j b : pinv s -> writer s = WCopy len d todo -> j ∈ todo -> d !! j = Some b ->
  pinv (mkP (serial s) (<[j := b]> (value s)) (WCopy len d (todo ∖ {[j]})) (rpcs s) (cnt s) (vals s)).
Proof.
  intros [Hc Hl Hs Hv Hw Hr] Hi Hj Hb. rewrite Hi in Hw. destruct Hw as (Ho & Hd & Ha).
  split; cbn -[serial_of] in *; try done.
  - by rewrite length_insert.
  - split; [done|]. split; [done|]. intros j' b' H. destruct (decide (j' = j)) as [->|Hne].
    + apply lookup_lt_Some in Hb as Hlt. rewrite list_lookup_insert_eq by (destruct Hd; cbn in *; lia).
      case_decide; [done|]. congruence.
    + rewrite list_lookup_insert_ne by done. apply Ha. case_decide as Hin; [done|]. rewrite decide_False; [done|]. set_solver.
  - intros t. eapply reader_ok_bytes; [exact (Hr t)|done..].
Qed.

Lemma pinv_end s len d : pinv s -> writer s = WCopy len d ∅ ->
  pinv (mkP (write_end (serial s) len) (value s) WIdle (rpcs s) (cnt s + 1)
          (fun c => if c =? cnt s + 1 then (len, d) else vals s c)).
Proof.
  intros [Hc Hl Hs Hv Hw Hr] Hi. rewrite Hi in Hw. destruct Hw as (Ho & Hd & Ha).
  assert (Z.odd (cnt s + 1) = false) as Ho' by (by rewrite odd_succ, Ho).
  split; cbn -[serial_of] in *.
  - lia.
  - done.
  - rewrite published_even by done. cbn. rewrite Z.eqb_refl, Hs. apply write_end_of.
  - intros c Hoc Hb. destruct (Z.eqb_spec c (cnt s + 1)); [done|]. apply Hv; [done|lia].
  - split; [done|]. rewrite Z.eqb_refl. intros j b H. apply Ha. cbn in H. rewrite decide_False; [done|set_solver].
  - intros t. eapply reader_ok_store; [exact (Hr t)|done|]. intros c Hcc. cbn. by zif.
Qed.

(** A reader moves. *)
Lemma pinv_reader s t p : pinv s -> reader_ok s p -> pinv (rgoes s t p).
Proof.
  intros [Hc Hl Hs Hv Hw Hr] Hp. split; try done. intros u. cbn.
  assert (forall q, reader_ok s q -> reader_ok (rgoes s t p) q) as H by (intros q Hq; by destruct q).
  upd_case t u; [by apply H|apply H, Hr].
Qed.

Lemma reader_load s : pinv s -> reader_ok s (if SERIAL_DIRTY (serial s) then RWait (serial s) else RCopy (serial s) (cnt s) ∅).
Proof.
  intros Hi. rewrite (pi_serial s Hi), serial_dirty. destruct (Z.odd (cnt s)) eqn:Ho; [done|].
  rewrite (published_even s Ho). pose proof (pi_cnt s Hi). split_and!; [done|lia|lia|done|intros _ j b H'; done|done].
Qed.

Lemma reader_check s sr k got : pinv s -> reader_ok s (RCheck sr k got) -> sr = serial s -> reader_ok s (RDone (SERIAL_VALUE_LEN sr) got k (cnt s)).
Proof.
  intros Hi (Ho & Hk & Hsr & Ha & Hall) E. pose proof (pi_vals s Hi k Ho Hk) as [Hlen _].
  assert (k mod 2 ^ 24 = cnt s mod 2 ^ 24) as Hm by (eapply serial_low; rewrite <- Hsr, E; apply (pi_serial s Hi)).
  rewrite Hsr, serial_len. split_and!; [done|lia..| |lia|lia|].
  - destruct (decide (cnt s = k)); [by left|right]. zdm.
  - intros Hn. split; [done|]. intros j b Hj Hb. destruct (Hall j Hj) as [b' Hb'].
    pose proof (pi_writer s Hi) as Hw. destruct (writer s); [|destruct Hw as (Hw & _); congruence]. destruct Hw as [_ Hw].
    assert (value s !! j = Some b) as H1 by (apply Hw; cbn; by rewrite Hn).
    assert (value s !! j = Some b') as H2 by (by apply Ha). congruence.
Qed.

Lemma pinv_step s s' : pinv s -> pstep s s' -> pinv s'.
Proof.
  intros Hi Hs. destruct Hs as [s len d Hw Hv|s len d todo j b Hw Hj Hb|s len d Hw|s t Ht|s t p Hp|s t sr k got j b Ht Hj Hg Hb|s t sr k got Ht Hall|s t len got k now Ht].
  - by apply pinv_begin.
  - by apply pinv_write.
  - by apply pinv_end.
  - by apply pinv_reader.
  - apply pinv_reader; [done|]. pose proof (pi_readers s Hi t) as Hr. destruct (rpcs s t); try discriminate; cbn [read_step] in Hp.
    + injection Hp as <-. by apply reader_load.
    + by injection Hp as <-.
    + injection Hp as <-. destruct (Z.eqb_spec serial0 (serial s)); [|done]. by apply reader_check.
  - apply pinv_reader; [done|]. pose proof (pi_readers s Hi t) as Hr. rewrite Ht in Hr. destruct Hr as (Ho & Hk & Hsr & Ha & _).
    split_and!; [done|lia|lia|done| |done]. intros E j' b' H. cbn in H. apply lookup_insert_Some in H as [[<- <-]|[_ H]]; [done|by apply Ha].
  - apply pinv_reader; [done|]. pose proof (pi_readers s Hi t) as Hr. rewrite Ht in Hr. destruct Hr as (Ho & Hk & Hsr & Ha & _).
    split_and!; [done|lia|lia|done|done|]. intros j Hj. apply Hall. by rewrite Hsr, serial_len.
  - by apply pinv_reader.
Qed.

Lemma pinv_reachable s : reachable property_new pstep s -> pinv s.
Proof. apply reachable_invariant; [apply pinv_new|apply pinv_step]. Qed.

(** ** A reader alone *)

(** The states that differ in the readers only. *)
Definition same_prop (s s' : pstate) : Prop :=
  serial s' = serial s /\ value s' = value s /\ writer s' = writer s /\ cnt s' = cnt s /\ vals s' = vals s.

Lemma steps_trans s1 s2 s3 : steps pstep s1 s2 -> steps pstep s2 s3 -> steps pstep s1 s3.
Proof. induction 1; [done|]. intros. eapply steps_one; [done|]. auto. Qed.

Lemma copy_alone t sr k n : forall s, Z.of_nat n <= SERIAL_VALUE_LEN sr + 1 -> (n <= length (value s))%nat -> rpcs s t = RCopy sr k ∅ ->
  exists s' got, steps pstep s s' /\ same_prop s s' /\ rpcs s' t = RCopy sr k got /\ forall j, is_Some (got !! j) <-> (j < n)%nat.
Proof.
  induction n as [|n IH]; intros s Hn Hv Hs.
  - exists s, ∅. split_and!; [constructor|done|done|]. intros j. rewrite lookup_empty. split; [intros [? ?]; done|lia].
  - destruct (IH s) as (s1 & got & H1 & (E1 & E2 & E3 & E4 & E5) & Hp & Hg); [lia|lia|done|].
    destruct (lookup_lt_is_Some_2 (value s) n) as [b Hb]; [lia|].
    exists (rgoes s1 t (RCopy sr k (<[n := b]> got))), (<[n := b]> got). split_and!.
    + eapply steps_trans; [done|]. eapply steps_one; [|constructor]. apply p_copy; [done|lia| |by rewrite E2].
      apply eq_None_not_Some. rewrite Hg. lia.
    + done.
    + cbn. by rewrite upd_same.
    + intros j. rewrite lookup_insert_is_Some, Hg. destruct (decide (n = j)); [subst; split; [lia|by left]|].
      split; [intros [?|[_ ?]]; lia|right; lia].
Qed.

(** While the writer is idle a reader finishes. *)
Lemma read_alone s t : pinv s -> writer s = WIdle -> rpcs s t = RLoad ->
  exists s' got, steps pstep s s' /\ same_prop s s' /\ rpcs s' t = RDone (vals s (cnt s)).1 got (cnt s) (cnt s).
Proof.
  intros Hi Hw Ht. pose proof (pi_writer s Hi) as H. rewrite Hw in H. destruct H as [Ho _].
  pose proof (pi_vals s Hi (cnt s) Ho) as [Hlen _]; [pose proof (pi_cnt s Hi); lia|]. pose proof (pi_len s Hi).
  assert (serial s = serial_of (vals s (cnt s)).1 (cnt s)) as Hser by (rewrite (pi_serial s Hi); by rewrite published_even).
  set (s1 := rgoes s t (RCopy (serial s) (cnt s) ∅)).
  assert (pstep s s1) as H1 by (apply p_read; rewrite Ht; cbn; rewrite Hser, serial_dirty, Ho; by rewrite <- Hser).
  destruct (copy_alone t (serial s) (cnt s) (Z.to_nat ((vals s (cnt s)).1 + 1)) s1) as (s2 & got & H2 & (E1 & E2 & E3 & E4 & E5) & Hp & Hg).
  { rewrite Hser, serial_len. lia. }
  { cbn. unfold PROP_VALUE_MAX in *. lia. }
  { cbn. by rewrite upd_same. }
  set (s3 := rgoes s2 t (RCheck (serial s) (cnt s) got)).
  exists (rgoes s3 t (RDone (vals s (cnt s)).1 got (cnt s) (cnt s))), got. split_and!.
  - eapply steps_one; [exact H1|]. eapply steps_trans; [exact H2|]. eapply steps_one; [|eapply steps_one; [|constructor]].
    + apply p_copied; [done|]. intros j Hj. apply Hg. rewrite Hser, serial_len in Hj. lia.
    + apply p_read. cbn. rewrite upd_same. cbn. rewrite E1, E4. cbn. rewrite Z.eqb_refl. by rewrite Hser, serial_len.
  - done.
  - cbn. by rewrite upd_same.
Qed.

(** C19: A reader that __system_property_read returns to, while one writer changes the property by
    its rules and the bytes of their copies are moved in any order and interleaving, has a value
    that one store published, complete, and that was the current one when the last attempt
    loaded the serial number, unless 2^23 writes or more were made while it was copied; its
    length is less than PROP_VALUE_MAX, and while the writer is idle a reader always finishes. *)
Theorem property_read_consistent s t : reachable property_new pstep s ->
  (forall len got k now, rpcs s t = RDone len got k now ->
    0 <= len < PROP_VALUE_MAX /\ k <= now <= cnt s /\ val_ok (vals s k) /\
    (2 ^ 24 <= now - k \/ len = (vals s k).1 /\ forall j b, Z.of_nat j <= len -> (vals s k).2 !! j = Some b -> got !! j = Some b)) /\
  (writer s = WIdle -> rpcs s t = RLoad ->
    exists s' got, steps pstep s s' /\ rpcs s' t = RDone (vals s (cnt s)).1 got (cnt s) (cnt s)).
Proof.
  intros Hi%pinv_reachable. split.
  - intros len got k now Ht. pose proof (pi_readers s Hi t) as Hr. rewrite Ht in Hr. destruct Hr as (Ho & Hk & Hn & Hor & Hl & H).
    split_and!; [lia..|apply (pi_vals s Hi); [done|lia]|]. destruct Hor as [E|E]; [right|left; lia]. by apply H.
  - intros Hw Ht. destruct (read_alone s t Hi Hw Ht) as (s' & got & H & _ & Hd). eauto.
Qed.

Definition sample_new : pstate :=
  mkP (Z.shiftl 1 24) (97 :: replicate 91 0) WIdle (fun _ => ROut) 0 (fun _ => (1, [97; 0])).

Definition sample_read : pstate :=
  let s1 := rgoes sample_new 0 RLoad in
  let s2 := rgoes s1 0 (RCopy (Z.shiftl 1 24) 0 ∅) in
  let s3 := rgoes s2 0 (RCopy (Z.shiftl 1 24) 0 {[1%nat := 0]}) in
  let s4 := rgoes s3 0 (RCopy (Z.shiftl 1 24) 0 (<[0%nat := 97]> {[1%nat := 0]})) in
  let s5 := rgoes s4 0 (RCheck (Z.shiftl 1 24) 0 (<[0%nat := 97]> {[1%nat := 0]})) in
  rgoes s5 0 (RDone 1 (<[0%nat := 97]> {[1%nat := 0]}) 0 0).

Lemma sample_new_ok : property_new sample_new.
Proof.
  unfold property_new, val_ok, PROP_VALUE_MAX. cbn. split_and!; try done; try lia.
  intros [|[|j]] b; cbn; [done|done|]. by destruct j.
Qed.

Lemma sample_reachable : reachable property_new pstep sample_read.
Proof.
  eapply reach_step; [|eapply (p_read _ 0); reflexivity].
  eapply reach_step; [|eapply (p_copied _ 0); [reflexivity|]].
  - eapply reach_step; [|eapply (p_copy _ 0 _ _ _ 0 97); [reflexivity|by vm_compute|reflexivity|reflexivity]].
    eapply reach_step; [|eapply (p_copy _ 0 _ _ ∅ 1 0); [reflexivity|by vm_compute|reflexivity|reflexivity]].
    eapply reach_step; [|eapply (p_read _ 0); reflexivity].
    eapply reach_step; [|eapply (p_call _ 0); reflexivity]. apply reach_init, sample_new_ok.
  - intros [|[|j]] Hj; [by eexists|by eexists|]. change (SERIAL_VALUE_LEN (Z.shiftl 1 24)) with 1 in Hj. lia.
Qed.

Lemma property_read_consistent_witness :
  reachable property_new pstep sample_read /\ rpcs sample_read 0%nat = RDone 1 (<[0%nat := 97]> {[1%nat := 0]}) 0 0 /\
  (forall len got k now, rpcs sample_read 0%nat = RDone len got k now ->
    0 <= len < PROP_VALUE_MAX /\ k <= now <= cnt sample_read /\ val_ok (vals sample_read k) /\
    (2 ^ 24 <= now - k \/ len = (vals sample_read k).1 /\
      forall j b, Z.of_nat j <= len -> (vals sample_read k).2 !! j = Some b -> got !! j = Some b)).
Proof.
  split; [exact sample_reachable|]. split; [reflexivity|]. exact (proj1 (property_read_consistent sample_read 0%nat sample_reachable)).
Defined.

(** The rules store as many bytes as the value has; the reader copies one more, which is then
    the byte of an older, longer value: here "c" after "ab". *)
Lemma stored_without_nul : exists s, pinv s /\ writer s = WIdle /\ (vals s (cnt s)).1 = 1 /\
  SERIAL_VALUE_LEN (serial s) = 1 /\ take 2 (value s) = [99; 98].
Proof.
  exists (mkP (serial_of 1 2) (99 :: 98 :: replicate 90 0) WIdle (fun _ => ROut) 2 (fun c => if c =? 2 then (1, [99]) else (2, [97; 98; 0]))).
  split; [|split_and!; reflexivity]. split; try done.
  - intros c _ Hc. cbn. destruct (c =? 2); unfold val_ok, PROP_VALUE_MAX; cbn; lia.
  - split; [done|]. intros [|j] b; cbn; [done|]. by destruct j.
Qed.

(** ** __system_property_find *)

(** The shared area: its count, its table of contents and the names at the offsets of the properties. *)
Record prop_area := mkArea { pa_count : Z; pa_toc : list Z; pa_name : Z -> list Z }.

Fixpoint find_loop (count : nat) (a : prop_area) (toc : nat) (name : list Z) : cres (option Z) :=
  match count with
  | O => CVal None
  | S count =>
      entry ← aget (pa_toc a) (Z.of_nat toc);
      let len := Z.of_nat (length name) in
      if negb (TOC_NAME_LEN entry =? len) then find_loop count a (S toc) name
      else
        let pi := TOC_TO_INFO entry in
        if PROP_NAME_MAX <? len then CUndef
        else if negb (bool_decide (take (length name) (pa_name a pi) = name)) then find_loop count a (S toc) name
        else CVal (Some pi)
  end.

Definition __system_property_find (a : prop_area) (name : list Z) : cres (option Z) := find_loop (Z.to_nat (pa_count a)) a 0 name.

Definition __system_property_find_nth (a : prop_area) (n : Z) : cres (option Z) :=
  if pa_count a <=? n then CVal None else entry ← aget (pa_toc a) n; CVal (Some (TOC_TO_INFO entry)).

(** An entry of the table is a property of that name. *)
Definition entry_is (a : prop_area) (entry : Z) (name : list Z) : Prop :=
  TOC_NAME_LEN entry = Z.of_nat (length name) /\ Z.of_nat (length name) < PROP_NAME_MAX /\
  exists rest, pa_name a (TOC_TO_INFO entry) = name ++ 0 :: rest.

Definition area_ok (a : prop_area) (names : list (list Z)) : Prop :=
  pa_count a = Z.of_nat (length names) /\ (length names <= length (pa_toc a))%nat /\
  forall i name entry, names !! i = Some name -> pa_toc a !! i = Some entry -> entry_is a entry name.

(** The first property of that name. *)
Lemma find_loop_first a names name : area_ok a names -> forall n i, (i + n = length names)%nat ->
  find_loop n a i name =
  CVal (match list_find (fun x => x = name) (drop i names) with
        | Some (j, _) => TOC_TO_INFO <$> (pa_toc a !! (i + j)%nat)
        | None => None
        end).
Proof.
  intros (Hc & Hl & He). induction n as [|n IH]; intros i Hi.
  { rewrite drop_ge by lia. done. }
  destruct (lookup_lt_is_Some_2 names i) as [x Hx]; [lia|]. destruct (lookup_lt_is_Some_2 (pa_toc a) i) as [entry Ht]; [lia|].
  destruct (He i x entry Hx Ht) as (Hlen & Hmax & rest & Hn). rewrite (drop_S _ _ _ Hx). cbn [find_loop list_find].
  rewrite (aget_val _ _ entry) by (try lia; by rewrite Nat2Z.id). cbn [mbind cres_bind]. rewrite Hlen.
  assert (find_loop n a (S i) name =
          CVal (match prod_map S id <$> list_find (fun x => x = name) (drop (S i) names) with
                | Some (j, _) => TOC_TO_INFO <$> (pa_toc a !! (i + j)%nat)
                | None => None
                end)) as Hrest.
  { rewrite IH by lia. destruct (list_find (fun x => x = name) (drop (S i) names)) as [[j y]|]; cbn; [|done].
    by replace (i + S j)%nat with (S (i + j)) by lia. }
  destruct (Z.eqb_spec (Z.of_nat (length x)) (Z.of_nat (length name))) as [E|E]; cbn [negb].
  2: { rewrite decide_False by (intros ->; done). exact Hrest. }
  zif. rewrite Hn. replace (length name) with (length x) by lia. rewrite take_app_length.
  destruct (decide (x = name)) as [->|Hne].
  - rewrite bool_decide_true by done. cbn [negb]. by rewrite Nat.add_0_r, Ht.
  - rewrite bool_decide_false by done. exact Hrest.
Qed.

(** In an area with these properties, the search finds a property exactly when there is one of that
    name, and then the first one. *)
Lemma property_find_first a names name : area_ok a names ->
  __system_property_find a name =
  CVal (match list_find (fun x => x = name) names with
        | Some (j, _) => TOC_TO_INFO <$> (pa_toc a !! j)
        | None => None
        end).
Proof.
  intros Ha. unfold __system_property_find. destruct Ha as (Hc & Ha). rewrite Hc, Nat2Z.id.
  by rewrite (find_loop_first a names name (conj Hc Ha) _ 0).
Qed.

(** ** __system_property_get, __system_property_wait and __system_properties_init *)

(** The length and the bytes that are returned at once, or the property that is read. *)
Definition __system_property_get (a : prop_area) (name : list Z) : cres (Z * list Z + Z * reader_pc) :=
  pi ← __system_property_find a name;
  CVal (match pi with Some pi => inr (pi, RLoad) | None => inl (0, [0]) end).

(** A call of __system_property_wait on a serial number: the load, then each return of the futex. *)
Inductive wait_pc : Type := WtLoad | WtWait (n : Z) | WtDone (n : Z).
Definition __system_property_wait (p : wait_pc) (serial : Z) : wait_pc :=
  match p with
  | WtLoad => WtWait serial
  | WtWait n => if n =? serial then WtWait n else WtDone n
  | WtDone n => WtDone n
  end.

(** [area] is __system_property_area__, [dummy] the address it has before; [mmap fd sz] is the mapping
    or [None]; the result and the new area. *)
Definition PROP_AREA_MAGIC : Z := 0x504f5250.
Definition PROP_AREA_VERSION : Z := 0x45434f76.
Definition __system_properties_init `{CharModel} (fuel : nat) (area dummy getenv : Z) (mmap : Z -> Z -> option Z) (pa_magic pa_version : Z -> Z) : M (Z * Z) :=
  if negb (area =? dummy) then mret (0, area)
  else if getenv =? NULL then mret (-1, area)
  else
    fd ← atoi fuel getenv;
    env ← strchr fuel getenv 0x2c;
    if env =? NULL then mret (-1, area)
    else
      sz ← atoi fuel (env + 1);
      mret (match mmap fd sz with
            | None => (-1, area)
            | Some pa => if negb (pa_magic pa =? PROP_AREA_MAGIC) || negb (pa_version pa =? PROP_AREA_VERSION) then (-1, area) else (0, pa)
            end).

(** "8,32768" *)
Lemma init_example :
  let m := list_to_map (zip (seqZ 100 8) [0x38; 0x2c; 0x33; 0x32; 0x37; 0x36; 0x38; 0]) in
  exists m', @__system_properties_init true 20 4 4 100 (fun fd sz => if (fd =? 8) && (sz =? 32768) then Some 5000 else None)
    (fun _ => PROP_AREA_MAGIC) (fun _ => PROP_AREA_VERSION) m = Ok (0, 5000) m'.
Proof. eexists. vm_compute. reflexivity. Qed.
