(* ===== verification/Threads.v ===== *)
(** * Thread descriptors, pthread_create, pthread_exit, pthread_join and
    pthread_detach: libc/bionic/pthread.c

    The descriptors are linked into gThreadList through next and pref, the
    address of the pointer that points to them.  The list, the join counts and
    the flags are protected by gThreadListLock, so what a function does between
    lock and unlock is one step of the system (Lock.v: the lock has at most one
    owner); pthread_join is two such sections with a wait on join_cond between
    them (Cond.v), and pthread_exit reads the flags before its section. *)

From Stdlib Require Import ZArith Lia.
From stdpp Require Import base gmap list numbers.
From S2P Require Import Prelude.

Open Scope Z_scope.
Open Scope cint_scope.

(** ** Attributes *)

Definition PAGE_SIZE : Z := 4096.
Definition PTHREAD_STACK_MIN : Z := 2 * PAGE_SIZE.
Definition DEFAULT_STACKSIZE : Z := 1024 * 1024.
Definition PTHREAD_ATTR_FLAG_DETACHED : Z := 0x00000001.
Definition PTHREAD_ATTR_FLAG_USER_STACK : Z := 0x00000002.
Definition PTHREAD_CREATE_DETACHED : Z := 1.
Definition PTHREAD_CREATE_JOINABLE : Z := 0.
Definition PTHREAD_SCOPE_SYSTEM : Z := 0.
Definition PTHREAD_SCOPE_PROCESS : Z := 1.
Definition SCHED_NORMAL : Z := 0.
Definition ESRCH : Z := 3.

Record pthread_attr := mkAttr {
  flags : Z; stack_base : Z; stack_size : Z; guard_size : Z; sched_policy : Z; sched_priority : Z }.

Definition gDefaultPthreadAttr : pthread_attr := mkAttr 0 0 DEFAULT_STACKSIZE PAGE_SIZE SCHED_NORMAL 0.

Definition with_flags (a : pthread_attr) (f : Z) : pthread_attr :=
  mkAttr f (stack_base a) (stack_size a) (guard_size a) (sched_policy a) (sched_priority a).

(** The setters return the result and the new attributes, the getters the
    result and the value. *)
Definition pthread_attr_init : Z * pthread_attr := (0, gDefaultPthreadAttr).

Definition pthread_attr_setdetachstate (a : pthread_attr) (state : Z) : Z * pthread_attr :=
  if state =? PTHREAD_CREATE_DETACHED then (0, with_flags a (flags a .| PTHREAD_ATTR_FLAG_DETACHED))
  else if state =? PTHREAD_CREATE_JOINABLE then
    (0, with_flags a (flags a .& Z.lnot PTHREAD_ATTR_FLAG_DETACHED))
  else (EINVAL, a).

Definition pthread_attr_getdetachstate (a : pthread_attr) : Z * Z :=
  (0, if truthy (flags a .& PTHREAD_ATTR_FLAG_DETACHED) then PTHREAD_CREATE_DETACHED else PTHREAD_CREATE_JOINABLE).

Definition pthread_attr_setschedpolicy (a : pthread_attr) (policy : Z) : Z * pthread_attr :=
  (0, mkAttr (flags a) (stack_base a) (stack_size a) (guard_size a) policy (sched_priority a)).
Definition pthread_attr_getschedpolicy (a : pthread_attr) : Z * Z := (0, sched_policy a).

Definition pthread_attr_setschedparam (a : pthread_attr) (priority : Z) : Z * pthread_attr :=
  (0, mkAttr (flags a) (stack_base a) (stack_size a) (guard_size a) (sched_policy a) priority).
Definition pthread_attr_getschedparam (a : pthread_attr) : Z * Z := (0, sched_priority a).

Definition bad_stack_size (size : Z) : bool := truthy (size .& (PAGE_SIZE - 1)) || (size <? PTHREAD_STACK_MIN).

Definition pthread_attr_setstacksize (a : pthread_attr) (size : Z) : Z * pthread_attr :=
  if bad_stack_size size then (EINVAL, a)
  else (0, mkAttr (flags a) (stack_base a) size (guard_size a) (sched_policy a) (sched_priority a)).
Definition pthread_attr_getstacksize (a : pthread_attr) : Z * Z := (0, stack_size a).

Definition pthread_attr_setstackaddr (a : pthread_attr) (stack_addr : Z) : Z * pthread_attr := (ENOSYS, a).
Definition pthread_attr_getstackaddr (a : pthread_attr) : Z * Z := (0, u32 (stack_base a + stack_size a)).

Definition pthread_attr_setstack (a : pthread_attr) (base size : Z) : Z * pthread_attr :=
  if bad_stack_size size then (EINVAL, a)
  else if truthy (u32 base .& (PAGE_SIZE - 1)) then (EINVAL, a)
  else (0, mkAttr (flags a) base size (guard_size a) (sched_policy a) (sched_priority a)).
Definition pthread_attr_getstack (a : pthread_attr) : Z * (Z * Z) := (0, (stack_base a, stack_size a)).

Definition pthread_attr_setguardsize (a : pthread_attr) (size : Z) : Z * pthread_attr :=
  if truthy (size .& (PAGE_SIZE - 1)) || (size <? PAGE_SIZE) then (EINVAL, a)
  else (0, mkAttr (flags a) (stack_base a) (stack_size a) size (sched_policy a) (sched_priority a)).
Definition pthread_attr_getguardsize (a : pthread_attr) : Z * Z := (0, guard_size a).

Definition pthread_attr_setscope (a : pthread_attr) (scope : Z) : Z :=
  if scope =? PTHREAD_SCOPE_SYSTEM then 0 else if scope =? PTHREAD_SCOPE_PROCESS then ENOTSUP else EINVAL.
Definition pthread_attr_getscope (a : pthread_attr) : Z := PTHREAD_SCOPE_SYSTEM.

(** ** Descriptors and their list *)

(** What pref points to: gThreadList, or the next field of a descriptor. *)
Inductive ref := RHead | RNext (a : Z).

Record pthread_internal := mkThread {
  t_next : option Z; t_pref : ref; t_attr : pthread_attr; t_join_count : Z; t_return_value : Z; t_intern : Z }.

(** The descriptors that are allocated, by address, and gThreadList. *)
Record thread_list := mkTL { tl_mem : gmap Z pthread_internal; gThreadList : option Z }.

Definition deref (s : thread_list) (a : Z) : cres pthread_internal :=
  match tl_mem s !! a with Some d => CVal d | None => CUndef end.

Definition store (s : thread_list) (a : Z) (d : pthread_internal) : thread_list :=
  mkTL (<[a := d]> (tl_mem s)) (gThreadList s).

Definition set_next (d : pthread_internal) (n : option Z) : pthread_internal :=
  mkThread n (t_pref d) (t_attr d) (t_join_count d) (t_return_value d) (t_intern d).
Definition set_pref (d : pthread_internal) (p : ref) : pthread_internal :=
  mkThread (t_next d) p (t_attr d) (t_join_count d) (t_return_value d) (t_intern d).
Definition set_count (d : pthread_internal) (c : Z) : pthread_internal :=
  mkThread (t_next d) (t_pref d) (t_attr d) c (t_return_value d) (t_intern d).
Definition set_return (d : pthread_internal) (r : Z) : pthread_internal :=
  mkThread (t_next d) (t_pref d) (t_attr d) (t_join_count d) r (t_intern d).
Definition set_flags (d : pthread_internal) (f : Z) : pthread_internal :=
  mkThread (t_next d) (t_pref d) (with_flags (t_attr d) f) (t_join_count d) (t_return_value d) (t_intern d).

(** *p = n for a pointer to a next pointer. *)
Definition write_ref (s : thread_list) (p : ref) (n : option Z) : cres thread_list :=
  match p with
  | RHead => CVal (mkTL (tl_mem s) n)
  | RNext a => d ← deref s a; CVal (store s a (set_next d n))
  end.

Definition internal_remove_locked (s : thread_list) (thread : Z) : cres thread_list :=
  d ← deref s thread;
  s ← match t_next d with
      | None => CUndef
      | Some n => dn ← deref s n; CVal (store s n (set_pref dn (t_pref d)))
      end;
  d ← deref s thread;
  write_ref s (t_pref d) (t_next d).

Definition internal_add (s : thread_list) (thread : Z) : cres thread_list :=
  d ← deref s thread;
  let s := store s thread (set_next (set_pref d RHead) (gThreadList s)) in
  s ← match gThreadList s with
      | None => CVal s
      | Some n => dn ← deref s n; CVal (store s n (set_pref dn (RNext thread)))
      end;
  CVal (mkTL (tl_mem s) (Some thread)).

(** free() of the descriptor, when it was allocated. *)
Definition internal_free (s : thread_list) (thread : Z) : cres thread_list :=
  d ← deref s thread;
  CVal (if truthy (t_intern d) then mkTL (delete thread (tl_mem s)) (gThreadList s) else s).

(** for (thread = gThreadList; thread != NULL; thread = thread->next): whether
    the descriptor is in the list. *)
Fixpoint find_thread (fuel : nat) (s : thread_list) (cur : option Z) (thid : Z) : cres bool :=
  match cur with
  | None => CVal false
  | Some a =>
      if a =? thid then CVal true
      else match fuel with O => CFuel | S f => d ← deref s a; find_thread f s (t_next d) thid end
  end.

(** The list is not longer than there are descriptors. *)
Definition in_list (s : thread_list) (thid : Z) : cres bool :=
  find_thread (size (tl_mem s)) s (gThreadList s) thid.

Definition detached (d : pthread_internal) : bool := truthy (flags (t_attr d) .& PTHREAD_ATTR_FLAG_DETACHED).

(** ** The sections *)

(** _init_thread of a descriptor from calloc (intern 1) or of the main thread
    (intern 0): [attr] are the attributes with the stack that was chosen. *)
Definition init_thread (s : thread_list) (thread : Z) (attr : pthread_attr) (intern : Z) : cres thread_list :=
  internal_add (store s thread (mkThread None RHead attr 0 0 intern)) thread.

(** pthread_create: [alloc] is the result of calloc, [mkstack] that of mkstack,
    [clone] the thread id or the errno value of __pthread_clone. *)
Definition pthread_create (s : thread_list) (attr : option pthread_attr) (alloc : option Z)
    (mkstack : Z -> Z -> option Z) (clone : Z + Z) : cres (Z * thread_list) :=
  match alloc with
  | None => CVal (ENOMEM, s)
  | Some thread =>
      let attr := match attr with Some a => a | None => gDefaultPthreadAttr end in
      let stackSize := u32 (stack_size attr + (PAGE_SIZE - 1)) .& Z.lnot (PAGE_SIZE - 1) in
      let stack := if stack_base attr =? 0 then mkstack stackSize (guard_size attr) else Some (stack_base attr) in
      match stack with
      | None => CVal (ENOMEM, s)
      | Some stack =>
          match clone with
          | inr errno => CVal (errno, s)
          | inl _ =>
              let f := if stack_base attr =? 0 then flags attr else flags attr .| PTHREAD_ATTR_FLAG_USER_STACK in
              s ← init_thread s thread
                    (mkAttr f stack (stack_size attr) (guard_size attr) (sched_policy attr) (sched_priority attr)) 1;
              CVal (0, s)
          end
      end
  end.

(** pthread_exit of a detached thread: _pthread_internal_remove and
    _pthread_internal_free. *)
Definition exit_detached (s : thread_list) (thread : Z) : cres thread_list :=
  s ← internal_remove_locked s thread; internal_free s thread.

(** pthread_exit of a joinable thread; the flag says whether it broadcasts. *)
Definition exit_joinable (s : thread_list) (thread retval : Z) : cres (bool * thread_list) :=
  d ← deref s thread;
  let d := set_return d retval in
  CVal (if 0 <? t_join_count d then (true, store s thread d) else (false, store s thread (set_count d (-1)))).

(** The end of pthread_join, from *ret_val on. *)
Definition join_finish (s : thread_list) (thread count : Z) : cres (Z * thread_list) :=
  d ← deref s thread;
  s ← (if count <=? 0 then s ← internal_remove_locked s thread; internal_free s thread else CVal s);
  CVal (t_return_value d, s).

(** The first section of pthread_join: an error, the value of a zombie, or a
    wait on join_cond. *)
Inductive join_result := JoinError (e : Z) | JoinValue (r : Z) | JoinWait.

Definition join_enter (s : thread_list) (thid : Z) : cres (join_result * thread_list) :=
  found ← in_list s thid;
  if negb found then CVal (JoinError ESRCH, s)
  else
    d ← deref s thid;
    if detached d then CVal (JoinError EINVAL, s)
    else
      let count := t_join_count d in
      if 0 <=? count then CVal (JoinWait, store s thid (set_count d (count + 1)))
      else '(r, s) ← join_finish s thid count; CVal (JoinValue r, s).

(** The second section, after pthread_cond_wait. *)
Definition join_leave (s : thread_list) (thid : Z) : cres (Z * thread_list) :=
  d ← deref s thid;
  let count := t_join_count d - 1 in
  join_finish (store s thid (set_count d count)) thid count.

Definition pthread_detach (s : thread_list) (thid : Z) : cres (Z * thread_list) :=
  found ← in_list s thid;
  if negb found then CVal (ESRCH, s)
  else
    d ← deref s thid;
    if detached d then CVal (EINVAL, s)
    else CVal (0, store s thid (set_flags d (flags (t_attr d) .| PTHREAD_ATTR_FLAG_DETACHED))).

(** ** The list *)

(** [o], found at [p], is the first descriptor of the list [l]. *)
Fixpoint chain (m : gmap Z pthread_internal) (p : ref) (o : option Z) (l : list Z) : Prop :=
  match l with
  | [] => o = None
  | a :: l' => o = Some a /\ exists d, m !! a = Some d /\ t_pref d = p /\ chain m (RNext a) (t_next d) l'
  end.

(** The links of the descriptors of a list are all it depends on. *)
Lemma chain_links m m' p o l :
  chain m p o l ->
  (forall a d, a ∈ l -> m !! a = Some d -> exists d', m' !! a = Some d' /\ t_next d' = t_next d /\ t_pref d' = t_pref d) ->
  chain m' p o l.
Proof.
  revert p o. induction l as [|a l IH]; intros p o H Hm; [done|].
  destruct H as (-> & d & Ed & Hp & Hc). split; [done|].
  destruct (Hm a d) as (d' & Ed' & En & Ep); [by apply list_elem_of_here|done|].
  exists d'. split; [done|]. split; [congruence|]. rewrite En. apply IH; [done|].
  intros b db Hb. apply Hm. by apply list_elem_of_further.
Qed.

Lemma chain_insert m p o l a d :
  chain m p o l -> a ∉ l -> chain (<[a := d]> m) p o l.
Proof.
  intros H Ha. eapply chain_links; [done|]. intros b db Hb Eb. exists db.
  rewrite lookup_insert_ne by (intros ->; done). done.
Qed.

Lemma chain_update m p o l a d d' :
  chain m p o l -> m !! a = Some d -> t_next d' = t_next d -> t_pref d' = t_pref d -> chain (<[a := d']> m) p o l.
Proof.
  intros H Ea En Ep. eapply chain_links; [done|]. intros b db Hb Eb. destruct (decide (a = b)) as [->|Hne].
  - exists d'. rewrite lookup_insert_eq. assert (db = d) as -> by congruence. done.
  - exists db. rewrite lookup_insert_ne by done. done.
Qed.

Lemma chain_elem m p o l a : chain m p o l -> a ∈ l -> is_Some (m !! a).
Proof.
  revert p o. induction l as [|b l IH]; intros p o H Ha; [by apply not_elem_of_nil in Ha|].
  destruct H as (_ & d & Ed & _ & Hc). apply elem_of_cons in Ha as [-> | Ha]; [by exists d|by eapply IH].
Qed.


(** *p = n, on the descriptors. *)
Definition write_mem (m : gmap Z pthread_internal) (p : ref) (n : option Z) : gmap Z pthread_internal :=
  match p with RHead => m | RNext c => alter (fun d => set_next d n) c m end.

Definition ref_free (p : ref) (l : list Z) : Prop := match p with RHead => True | RNext c => c ∉ l end.

Lemma write_mem_ne m p n a : ref_free p [a] -> write_mem m p n !! a = m !! a.
Proof.
  destruct p as [|c]; [done|]. cbn. intros H. apply lookup_alter_ne. intros ->. apply H. by apply list_elem_of_here.
Qed.

Lemma ref_free_elem p l a : ref_free p l -> a ∈ l -> ref_free p [a].
Proof. destruct p; [done|]. cbn. intros H Ha Hc. apply list_elem_of_singleton in Hc as ->. done. Qed.

Lemma chain_remove m p o l1 a b l2 d db :
  chain m p o (l1 ++ a :: b :: l2) -> NoDup (l1 ++ a :: b :: l2) -> ref_free p (l1 ++ a :: b :: l2) ->
  m !! a = Some d -> m !! b = Some db ->
  let m' := write_mem (<[b := set_pref db (t_pref d)]> m) (t_pref d) (Some b) in
  t_next d = Some b /\ chain m' p (if l1 then Some b else o) (l1 ++ b :: l2) /\
  match l1 with [] => t_pref d = p | _ => exists c, t_pref d = RNext c /\ c ∈ l1 end.
Proof.
  revert p o. induction l1 as [|c l1 IH]; intros p o H Hnd Hp Ea Eb m'.
  - destruct H as (-> & d' & Ed' & Hpd & E & db' & Edb & Hpb & Hc). cbn [app] in *.
    assert (d' = d) as -> by congruence. assert (db' = db) as -> by congruence. subst p.
    split; [done|]. split; [|done]. split; [done|]. exists (set_pref db (t_pref d)). subst m'.
    apply list.NoDup_cons in Hnd as (Ha & Hnd). apply list.NoDup_cons in Hnd as (Hb & _).
    rewrite write_mem_ne, lookup_insert_eq by (eapply ref_free_elem; [done|]; by apply list_elem_of_further, list_elem_of_here).
    split; [done|]. split; [done|]. eapply chain_links; [exact Hc|]. intros x dx Hx Ex. exists dx.
    rewrite write_mem_ne, lookup_insert_ne; [done|by intros ->|].
    eapply ref_free_elem; [done|]. by apply list_elem_of_further, list_elem_of_further.
  - destruct H as (-> & dc & Edc & Hpc & Hc). cbn [app] in *.
    apply list.NoDup_cons in Hnd as (Hcn & Hnd).
    destruct (IH (RNext c) (t_next dc) Hc Hnd Hcn Ea Eb) as (En & Hch & Hl). fold m' in Hch.
    split; [done|]. assert (c <> b) as Hcb.
    { intros ->. apply Hcn. apply elem_of_app. right. by apply list_elem_of_further, list_elem_of_here. }
    destruct l1 as [|e l1].
    + split; [|exists c; split; [done|by apply list_elem_of_here]]. split; [done|]. exists (set_next dc (Some b)).
      split; [|done]. subst m'. rewrite Hl. cbn. rewrite lookup_alter_eq, lookup_insert_ne, Edc by done. done.
    + destruct Hl as (c' & Hl & Hc'). split; [|exists c'; split; [done|by apply list_elem_of_further]].
      split; [done|]. exists dc. split; [|done]. subst m'. rewrite Hl. cbn.
      rewrite lookup_alter_ne, lookup_insert_ne by (done || (intros ->; apply Hcn, elem_of_app; by left)). done.
Qed.

Definition list_ok (s : thread_list) (l : list Z) : Prop :=
  chain (tl_mem s) RHead (gThreadList s) l /\ NoDup l.

(** The fields that are not links. *)
Definition payload (d : pthread_internal) : pthread_attr * Z * Z * Z :=
  (t_attr d, t_join_count d, t_return_value d, t_intern d).
Definition payloads (s : thread_list) (a : Z) : option (pthread_attr * Z * Z * Z) := payload <$> tl_mem s !! a.

Lemma payload_write m p n a : payload <$> write_mem m p n !! a = payload <$> m !! a.
Proof.
  destruct p as [|c]; [done|]. cbn. destruct (decide (c = a)) as [->|]; [|by rewrite lookup_alter_ne].
  rewrite lookup_alter_eq. by destruct (m !! a).
Qed.

Lemma payload_insert (m : gmap Z pthread_internal) a d d0 x :
  m !! a = Some d0 -> payload d = payload d0 -> payload <$> (<[a := d]> m) !! x = payload <$> m !! x.
Proof.
  intros E Hp. destruct (decide (a = x)) as [->|]; [|by rewrite lookup_insert_ne].
  rewrite lookup_insert_eq, E. cbn. by rewrite Hp.
Qed.

Lemma remove_spec s l1 a b l2 :
  list_ok s (l1 ++ a :: b :: l2) ->
  exists s', internal_remove_locked s a = CVal s' /\ list_ok s' (l1 ++ b :: l2) /\
    forall x, payloads s' x = payloads s x.
Proof.
  intros (Hc & Hnd).
  assert (is_Some (tl_mem s !! a)) as [d Ea] by (eapply chain_elem; [done|]; apply elem_of_app; right; apply list_elem_of_here).
  assert (is_Some (tl_mem s !! b)) as [db Eb].
  { eapply chain_elem; [done|]; apply elem_of_app; right; by apply list_elem_of_further, list_elem_of_here. }
  destruct (chain_remove _ _ _ _ _ _ _ d db Hc Hnd I Ea Eb) as (En & Hch & Hl).
  assert (a <> b) as Hab.
  { intros ->. apply list.NoDup_app in Hnd as (_ & _ & Hnd). apply list.NoDup_cons in Hnd as (H & _). apply H. apply list_elem_of_here. }
  assert (NoDup (l1 ++ b :: l2)) as Hnd'.
  { eapply (sublist_NoDup _ (l1 ++ a :: b :: l2)); [done|]. apply sublist_app; [done|]. by apply sublist_cons. }
  unfold internal_remove_locked, deref. rewrite Ea. cbn [mbind cres_bind]. rewrite En, Eb. cbn [mbind cres_bind].
  unfold deref, store. cbn [tl_mem gThreadList]. rewrite lookup_insert_ne, Ea by done. cbn [mbind cres_bind]. rewrite En.
  assert (forall x, payload <$> (<[b := set_pref db (t_pref d)]> (tl_mem s)) !! x = payload <$> tl_mem s !! x) as Hpay.
  { intros x. by eapply payload_insert. }
  destruct l1 as [|c0 l1].
  - rewrite Hl in *. cbn [write_ref]. eexists. split; [reflexivity|]. split; [split; [exact Hch|done]|]. exact Hpay.
  - destruct Hl as (c & Hl & Hcl). rewrite Hl in *. cbn [write_ref]. unfold deref. cbn [tl_mem].
    assert (is_Some (<[b := set_pref db (RNext c)]> (tl_mem s) !! c)) as [dc Ec].
    { apply lookup_insert_is_Some'. right. eapply chain_elem; [done|]. apply elem_of_app. by left. }
    rewrite Ec. cbn [mbind cres_bind]. eexists. split; [reflexivity|]. unfold store. cbn [tl_mem gThreadList].
    assert (<[c := set_next dc (Some b)]> (<[b := set_pref db (RNext c)]> (tl_mem s))
            = write_mem (<[b := set_pref db (RNext c)]> (tl_mem s)) (RNext c) (Some b)) as E.
    { apply map_eq. intros x. cbn. destruct (decide (c = x)) as [->|].
      - by rewrite lookup_insert_eq, lookup_alter_eq, Ec.
      - by rewrite lookup_insert_ne, lookup_alter_ne. }
    split; [split; [cbn [tl_mem gThreadList]; rewrite E; exact Hch|done]|].
    intros x. unfold payloads. cbn [tl_mem]. rewrite E, payload_write. apply Hpay.
Qed.

(** The last descriptor of the list cannot be removed: the code follows its
    next pointer, which is NULL. *)
Lemma remove_last_undefined s l a : list_ok s (l ++ [a]) -> internal_remove_locked s a = CUndef.
Proof.
  intros (Hc & _). assert (forall p o, chain (tl_mem s) p o (l ++ [a]) -> exists d, tl_mem s !! a = Some d /\ t_next d = None) as H.
  { clear Hc. induction l as [|b l IH]; intros p o.
    - intros (_ & d & E & _ & E'). by exists d.
    - intros (_ & d & _ & _ & H). by eapply IH. }
  destruct (H _ _ Hc) as (d & E & En). unfold internal_remove_locked, deref. rewrite E. cbn [mbind cres_bind]. by rewrite En.
Qed.

Lemma add_spec s l a d :
  list_ok s l -> a ∉ l -> tl_mem s !! a = Some d ->
  exists s', internal_add s a = CVal s' /\ list_ok s' (a :: l) /\ forall x, payloads s' x = payloads s x.
Proof.
  intros (Hc & Hnd) Ha Ea. unfold internal_add, deref. rewrite Ea. cbn [mbind cres_bind].
  unfold store. cbn [tl_mem gThreadList].
  set (d1 := set_next (set_pref d RHead) (gThreadList s)).
  assert (forall x, payload <$> (<[a := d1]> (tl_mem s)) !! x = payload <$> tl_mem s !! x) as Hpay.
  { intros x. by eapply payload_insert. }
  destruct l as [|b l].
  - cbn in Hc. rewrite Hc in *. cbn [mbind cres_bind]. eexists. split; [reflexivity|]. split; [|exact Hpay].
    split; [|by constructor]. cbn. split; [done|]. exists d1. rewrite lookup_insert_eq. subst d1. by rewrite Hc.
  - destruct Hc as (Eh & db & Eb & Hpb & Hc). rewrite Eh in *.
    assert (a <> b) as Hab by (intros ->; apply Ha, list_elem_of_here). unfold deref. cbn [tl_mem gThreadList].
    rewrite lookup_insert_ne, Eb by done. cbn [mbind cres_bind]. eexists. split; [reflexivity|].
    apply list.NoDup_cons in Hnd as (Hb & Hnd). split.
    + split; [|apply NoDup_cons_2; [done|by apply NoDup_cons_2]]. cbn [tl_mem gThreadList store]. split; [done|].
      exists d1. rewrite lookup_insert_ne, lookup_insert_eq by done. split; [done|]. split; [done|].
      subst d1. cbn. split; [done|]. exists (set_pref db (RNext a)). rewrite lookup_insert_eq. split; [done|].
      split; [done|]. apply chain_insert; [|done]. apply chain_insert; [done|].
      intros H. apply Ha. by apply list_elem_of_further.
    + intros x. unfold payloads. cbn [tl_mem store]. rewrite (payload_insert _ b _ db); [apply Hpay| |done].
      rewrite lookup_insert_ne by done. done.
Qed.

Lemma chain_length m p o l : chain m p o l -> NoDup l -> (length l <= size m)%nat.
Proof.
  intros Hc Hnd. rewrite <- (size_list_to_set (C := gset Z) l Hnd), <- size_dom.
  apply subseteq_size. intros a Ha. apply elem_of_list_to_set in Ha. apply elem_of_dom. by eapply chain_elem.
Qed.

Lemma find_thread_spec s fuel p o l thid :
  chain (tl_mem s) p o l -> (length l <= fuel)%nat -> find_thread fuel s o thid = CVal (bool_decide (thid ∈ l)).
Proof.
  revert fuel p o. induction l as [|a l IH]; intros fuel p o Hc Hf.
  - cbn in Hc. subst o. destruct fuel; cbn [find_thread]; rewrite bool_decide_false by apply not_elem_of_nil; done.
  - destruct Hc as (-> & d & Ed & _ & Hc). destruct fuel as [|fuel]; [cbn in Hf; lia|]. cbn [find_thread].
    destruct (Z.eqb_spec a thid) as [->|Hne].
    + rewrite bool_decide_true by apply list_elem_of_here. done.
    + unfold deref. rewrite Ed. cbn [mbind cres_bind]. rewrite (IH fuel (RNext a)) by (done || (cbn in Hf; lia)).
      f_equal. apply bool_decide_ext. rewrite elem_of_cons. split; [by right|]. intros [->|]; done.
Qed.

(** The lookup of pthread_join and pthread_detach ends and finds the members of
    the list. *)
Lemma in_list_spec s l thid : list_ok s l -> in_list s thid = CVal (bool_decide (thid ∈ l)).
Proof. intros (Hc & Hnd). eapply find_thread_spec; [done|]. by eapply chain_length. Qed.

Lemma list_ok_update s l a d d' :
  list_ok s l -> tl_mem s !! a = Some d -> t_next d' = t_next d -> t_pref d' = t_pref d -> list_ok (store s a d') l.
Proof. intros (Hc & Hnd) E En Ep. split; [|done]. by eapply chain_update. Qed.

Lemma list_ok_delete s l a : list_ok s l -> a ∉ l -> list_ok (mkTL (delete a (tl_mem s)) (gThreadList s)) l.
Proof.
  intros (Hc & Hnd) Ha. split; [|done]. cbn. eapply chain_links; [done|]. intros b db Hb Eb. exists db.
  rewrite lookup_delete_ne by (intros ->; done). done.
Qed.

(** ** Attributes *)

(** What pthread_create relies on. *)
Definition attr_ok (a : pthread_attr) : Prop :=
  stack_size a mod PAGE_SIZE = 0 /\ PTHREAD_STACK_MIN <= stack_size a /\
  guard_size a mod PAGE_SIZE = 0 /\ PAGE_SIZE <= guard_size a.

Lemma page_bits z : truthy (z .& (PAGE_SIZE - 1)) = negb (z mod PAGE_SIZE =? 0).
Proof.
  change (PAGE_SIZE - 1) with (Z.ones 12). rewrite Z.land_ones by lia. done.
Qed.

Lemma bad_stack_size_spec z : bad_stack_size z = negb ((z mod PAGE_SIZE =? 0) && (PTHREAD_STACK_MIN <=? z)).
Proof.
  unfold bad_stack_size. rewrite page_bits. destruct (z mod PAGE_SIZE =? 0); [|done]. cbn.
  by rewrite Z.ltb_antisym.
Qed.

Lemma detach_bits f :
  truthy ((f .| PTHREAD_ATTR_FLAG_DETACHED) .& PTHREAD_ATTR_FLAG_DETACHED) = true /\
  truthy ((f .& Z.lnot PTHREAD_ATTR_FLAG_DETACHED) .& PTHREAD_ATTR_FLAG_DETACHED) = false.
Proof.
  split.
  - rewrite Z.land_lor_distr_l, Z.land_diag. apply truthy_ne. intros E. by apply Z.lor_eq_0_iff in E as (_ & E).
  - rewrite <- Z.land_assoc, (Z.land_comm (Z.lnot _)), Z.land_lnot_diag, Z.land_0_r. done.
Qed.

(** the attribute functions keep the sizes pthread_create relies on (whole
    pages, a stack of at least PTHREAD_STACK_MIN and a guard of at least a page):
    pthread_attr_init establishes them, every setter preserves them, a setter
    that fails leaves the attributes alone, and after one that succeeds the
    getter returns the value that was set. *)
Theorem attr_setters (a : pthread_attr) (Ha : attr_ok a) :
  attr_ok (pthread_attr_init).2 /\
  (forall state, let '(r, a') := pthread_attr_setdetachstate a state in attr_ok a' /\
     (r = 0 /\ pthread_attr_getdetachstate a' = (0, state) \/ r = EINVAL /\ a' = a)) /\
  (forall size, let '(r, a') := pthread_attr_setstacksize a size in attr_ok a' /\
     (r = 0 /\ pthread_attr_getstacksize a' = (0, size) \/ r = EINVAL /\ a' = a)) /\
  (forall base size, let '(r, a') := pthread_attr_setstack a base size in attr_ok a' /\
     (r = 0 /\ pthread_attr_getstack a' = (0, (base, size)) /\
        pthread_attr_getstackaddr a' = (0, u32 (base + size)) \/ r = EINVAL /\ a' = a)) /\
  (forall size, let '(r, a') := pthread_attr_setguardsize a size in attr_ok a' /\
     (r = 0 /\ pthread_attr_getguardsize a' = (0, size) \/ r = EINVAL /\ a' = a)) /\
  (forall policy prio, let a' := (pthread_attr_setschedparam (pthread_attr_setschedpolicy a policy).2 prio).2 in
     attr_ok a' /\ pthread_attr_getschedpolicy a' = (0, policy) /\ pthread_attr_getschedparam a' = (0, prio)).
Proof.
  destruct Ha as (H1 & H2 & H3 & H4). split; [done|]. split; [|split; [|split; [|split]]].
  - intros state. unfold pthread_attr_setdetachstate. destruct (detach_bits (flags a)) as (D1 & D2).
    destruct (Z.eqb_spec state PTHREAD_CREATE_DETACHED) as [->|].
    { split; [done|]. left. unfold pthread_attr_getdetachstate. cbn [flags with_flags]. by rewrite D1. }
    destruct (Z.eqb_spec state PTHREAD_CREATE_JOINABLE) as [->|]; [|split; [done|by right]].
    split; [done|]. left. unfold pthread_attr_getdetachstate. cbn [flags with_flags]. by rewrite D2.
  - intros size. unfold pthread_attr_setstacksize. rewrite bad_stack_size_spec.
    destruct (Z.eqb_spec (size mod PAGE_SIZE) 0), (Z.leb_spec PTHREAD_STACK_MIN size); cbn; (split; [done|]); auto.
  - intros base size. unfold pthread_attr_setstack. rewrite bad_stack_size_spec, page_bits.
    destruct (Z.eqb_spec (size mod PAGE_SIZE) 0), (Z.leb_spec PTHREAD_STACK_MIN size); cbn; try (split; [done|]; auto; fail).
    destruct (u32 base mod PAGE_SIZE =? 0); cbn; (split; [done|]); auto.
  - intros size. unfold pthread_attr_setguardsize. rewrite page_bits, Z.ltb_antisym.
    destruct (Z.eqb_spec (size mod PAGE_SIZE) 0), (Z.leb_spec PAGE_SIZE size); cbn; (split; [done|]); auto.
  - intros policy prio. done.
Qed.

Lemma attr_setters_witness :
  attr_ok gDefaultPthreadAttr /\
  (let '(r, a') := pthread_attr_setstacksize gDefaultPthreadAttr 4096 in attr_ok a' /\
     (r = 0 /\ pthread_attr_getstacksize a' = (0, 4096) \/ r = EINVAL /\ a' = gDefaultPthreadAttr)).
Proof.
  assert (attr_ok gDefaultPthreadAttr) as Ha by (vm_compute; repeat split; discriminate).
  split; [exact Ha|]. apply (attr_setters gDefaultPthreadAttr Ha).
Defined.
