(* ===== verification/Join.v ===== *)
(** * The life of threads: pthread_create, pthread_exit, pthread_join and
    pthread_detach of libc/bionic/pthread.c as a system of threads

    The sections of Threads.v run one at a time.  Between the two sections of
    pthread_join the caller waits on join_cond, which the exit of the thread
    broadcasts; with [spurious], pthread_cond_wait may also return without a
    broadcast, as it does when a signal interrupts __futex_wait.  The identifier
    of a thread is the address of its descriptor; addresses are not reused. *)

From Stdlib Require Import ZArith Lia.
From stdpp Require Import base gmap list numbers.
From S2P Require Import Prelude Futex Threads.

Open Scope Z_scope.

(** ** The system *)

Inductive tpc :=
| TRun
| TJoining (a : Z) (woken : bool)  (* in pthread_cond_wait of pthread_join(a) *)
| TExitFlags (r : Z)               (* pthread_exit(r): before the test of the flags *)
| TExitDetached (r : Z)            (* before _pthread_internal_remove *)
| TExitJoinable (r : Z)            (* before the section of a joinable thread *)
| TDead (r : Z).

Record tsys := mkSys {
  ts_list : thread_list;
  ts_pcs : gmap Z tpc;
  ts_joined : list (Z * Z) }.      (* the values returned by pthread_join, per thread joined *)

(** pthread_cond_broadcast(&thread->join_cond). *)
Definition wake_joiner (a : Z) (p : tpc) : tpc :=
  match p with TJoining b w => if b =? a then TJoining b true else p | _ => p end.

(** [main] is the thread of __libc_init_common, whose descriptor is not
    allocated. *)
Inductive tstep (main : Z) (spurious : bool) : tsys -> tsys -> Prop :=
| t_create s t a attr mkstack tid l' :
    ts_pcs s !! t = Some TRun -> ts_pcs s !! a = None ->
    pthread_create (ts_list s) attr (Some a) mkstack (inl tid) = CVal (0, l') ->
    tstep main spurious s (mkSys l' (<[a := TRun]> (ts_pcs s)) (ts_joined s))
| t_exit s a r :
    ts_pcs s !! a = Some TRun ->
    tstep main spurious s (mkSys (ts_list s) (<[a := TExitFlags r]> (ts_pcs s)) (ts_joined s))
| t_flags s a r d :
    ts_pcs s !! a = Some (TExitFlags r) -> deref (ts_list s) a = CVal d ->
    tstep main spurious s
      (mkSys (ts_list s) (<[a := if detached d then TExitDetached r else TExitJoinable r]> (ts_pcs s)) (ts_joined s))
| t_exit_detached s a r l' :
    ts_pcs s !! a = Some (TExitDetached r) -> exit_detached (ts_list s) a = CVal l' ->
    tstep main spurious s (mkSys l' (<[a := TDead r]> (ts_pcs s)) (ts_joined s))
| t_exit_joinable s a r (wake : bool) l' :
    ts_pcs s !! a = Some (TExitJoinable r) -> exit_joinable (ts_list s) a r = CVal (wake, l') ->
    tstep main spurious s
      (mkSys l' (<[a := TDead r]> (if wake then wake_joiner a <$> ts_pcs s else ts_pcs s)) (ts_joined s))
| t_join_error s t a e l' :
    ts_pcs s !! t = Some TRun -> join_enter (ts_list s) a = CVal (JoinError e, l') ->
    tstep main spurious s (mkSys l' (ts_pcs s) (ts_joined s))
| t_join_zombie s t a r l' :
    ts_pcs s !! t = Some TRun -> a <> main -> join_enter (ts_list s) a = CVal (JoinValue r, l') ->
    tstep main spurious s (mkSys l' (ts_pcs s) ((a, r) :: ts_joined s))
| t_join_wait s t a l' :
    ts_pcs s !! t = Some TRun -> a <> main -> join_enter (ts_list s) a = CVal (JoinWait, l') ->
    tstep main spurious s (mkSys l' (<[t := TJoining a false]> (ts_pcs s)) (ts_joined s))
| t_join_leave s t a r l' :
    ts_pcs s !! t = Some (TJoining a true) -> join_leave (ts_list s) a = CVal (r, l') ->
    tstep main spurious s (mkSys l' (<[t := TRun]> (ts_pcs s)) ((a, r) :: ts_joined s))
| t_detach s t a e l' :
    (* nobody waits for the thread *)
    ts_pcs s !! t = Some TRun -> a <> main ->
    (forall d, tl_mem (ts_list s) !! a = Some d -> t_join_count d <= 0) ->
    pthread_detach (ts_list s) a = CVal (e, l') ->
    tstep main spurious s (mkSys l' (ts_pcs s) (ts_joined s))
| t_spurious s t a :
    spurious = true -> ts_pcs s !! t = Some (TJoining a false) ->
    tstep main spurious s (mkSys (ts_list s) (<[t := TJoining a true]> (ts_pcs s)) (ts_joined s)).

(** Only the main thread exists; its descriptor is joinable and not allocated
    with calloc. *)
Definition tinit (main : Z) (s : tsys) : Prop :=
  exists attr l', truthy (Z.land (flags attr) PTHREAD_ATTR_FLAG_DETACHED) = false /\
    init_thread (mkTL ∅ None) main attr 0 = CVal l' /\ s = mkSys l' {[main := TRun]} [].

(** ** Counting the waiters *)

Definition waits_on (a : Z) (p : tpc) : bool := match p with TJoining b _ => b =? a | _ => false end.

Definition waiters (a : Z) (pcs : gmap Z tpc) : Z :=
  Z.of_nat (size (filter (fun kp : Z * tpc => waits_on a kp.2 = true) pcs)).

Definition waiting (a : Z) (o : option tpc) : Z := match o with Some p => b2z (waits_on a p) | None => 0 end.

Lemma waiters_insert a pcs t q :
  waiters a (<[t := q]> pcs) = waiters a pcs - waiting a (pcs !! t) + b2z (waits_on a q).
Proof.
  unfold waiters. set (P := fun kp : Z * tpc => waits_on a kp.2 = true).
  assert (filter P pcs !! t = match pcs !! t with Some p => if waits_on a p then Some p else None | None => None end) as E.
  { destruct (pcs !! t) as [p|] eqn:Ep.
    - destruct (waits_on a p) eqn:Ew.
      + apply map_lookup_filter_Some. done.
      + apply map_lookup_filter_None. right. intros x Ex. unfold P. cbn. congruence.
    - apply map_lookup_filter_None. by left. }
  destruct (waits_on a q) eqn:Eq.
  - rewrite map_filter_insert_True by done. rewrite map_size_insert, E.
    destruct (pcs !! t) as [p|]; cbn [waiting b2z]; [destruct (waits_on a p)|]; cbn [b2z]; unfold id; lia.
  - rewrite map_filter_insert_False by (unfold P; cbn; congruence). rewrite map_filter_delete, map_size_delete, E.
    assert (is_Some (filter P pcs !! t) -> (0 < size (filter P pcs))%nat) as Hpos.
    { intros [x Hx]. destruct (decide (size (filter P pcs) = 0)%nat) as [E0|]; [|lia].
      apply map_size_empty_iff in E0. rewrite E0 in Hx. by rewrite lookup_empty in Hx. }
    rewrite E in Hpos.
    destruct (pcs !! t) as [p|]; cbn [waiting b2z]; [destruct (waits_on a p)|]; cbn [b2z]; unfold id; try lia.
    assert (0 < size (filter P pcs))%nat by (apply Hpos; by eexists). lia.
Qed.

Lemma waits_wake a b p : waits_on a (wake_joiner b p) = waits_on a p.
Proof. destruct p; try done. cbn. by destruct (_ =? b). Qed.

Lemma waiters_wake a b pcs : waiters a (wake_joiner b <$> pcs) = waiters a pcs.
Proof.
  unfold waiters. rewrite map_filter_fmap, map_size_fmap. do 2 f_equal. apply map_filter_ext.
  intros i x _. cbn. by rewrite waits_wake.
Qed.

Lemma waiters_nonneg a pcs : 0 <= waiters a pcs.
Proof. unfold waiters. lia. Qed.

Lemma waiters_pos a pcs t p : pcs !! t = Some p -> waits_on a p = true -> 0 < waiters a pcs.
Proof.
  intros E H. pose proof (waiters_insert a pcs t TRun) as W. rewrite E in W. cbn in W. rewrite H in W.
  pose proof (waiters_nonneg a (<[t := TRun]> pcs)). cbn in W. lia.
Qed.

Lemma waiters_zero a pcs t p : waiters a pcs = 0 -> pcs !! t = Some p -> waits_on a p = false.
Proof.
  intros H E. destruct (waits_on a p) eqn:W; [|done]. pose proof (waiters_pos a pcs t p E W). lia.
Qed.

(** ** The sections on a well-formed list *)

(** The list ends with the main thread and holds every descriptor. *)
Definition linked (main : Z) (s : thread_list) : Prop :=
  exists l, list_ok s (l ++ [main]) /\ forall a, a ∈ l ++ [main] <-> is_Some (tl_mem s !! a).

Notation desc := (pthread_attr * Z * Z * Z)%type (only parsing).
Definition p_attr (x : desc) : pthread_attr := x.1.1.1.
Definition p_count (x : desc) : Z := x.1.1.2.
Definition p_return (x : desc) : Z := x.1.2.
Definition p_intern (x : desc) : Z := x.2.
Definition p_detached (x : desc) : bool := truthy (Z.land (flags (p_attr x)) PTHREAD_ATTR_FLAG_DETACHED).

(** The view of the descriptors changes at [a] only. *)
Definition view_set (v v' : Z -> option desc) (a : Z) (o : option desc) : Prop :=
  v' a = o /\ forall b, b <> a -> v' b = v b.

Lemma payloads_Some s a x : payloads s a = Some x -> exists d, tl_mem s !! a = Some d /\ payload d = x.
Proof. unfold payloads. destruct (tl_mem s !! a) as [d|]; intros [= <-]. by exists d. Qed.

Lemma payloads_is_Some s a : is_Some (payloads s a) <-> is_Some (tl_mem s !! a).
Proof. unfold payloads. apply fmap_is_Some. Qed.

Lemma linked_in_list main s a : linked main s -> in_list s a = CVal (bool_decide (is_Some (payloads s a))).
Proof.
  intros (l & Hl & Hd). rewrite (in_list_spec s _ a Hl). f_equal. apply bool_decide_ext.
  rewrite Hd. symmetry. apply payloads_is_Some.
Qed.

(** A change of fields that are not links. *)
Lemma linked_store main s a d d' :
  linked main s -> tl_mem s !! a = Some d -> t_next d' = t_next d -> t_pref d' = t_pref d ->
  linked main (store s a d') /\ view_set (payloads s) (payloads (store s a d')) a (Some (payload d')).
Proof.
  intros (l & Hl & Hd) E En Ep. split.
  - exists l. split; [by eapply list_ok_update|]. intros b. rewrite Hd. cbn.
    destruct (decide (b = a)) as [->|]; [rewrite lookup_insert_eq, E|by rewrite lookup_insert_ne by congruence].
    split; by eexists.
  - split; unfold payloads; cbn; [by rewrite lookup_insert_eq|]. intros b Hb. by rewrite lookup_insert_ne by congruence.
Qed.

(** Removing and freeing a descriptor that is not the last. *)
Lemma linked_remove main s a x :
  linked main s -> payloads s a = Some x -> a <> main -> p_intern x = 1 ->
  exists s', exit_detached s a = CVal s' /\ linked main s' /\ view_set (payloads s) (payloads s') a None.
Proof.
  intros (l & Hl & Hd) Ea Ham Hi.
  assert (a ∈ l ++ [main]) as Hin by (apply Hd, payloads_is_Some; by exists x).
  apply elem_of_app in Hin as [Hin | Hin]; [|apply list_elem_of_singleton in Hin; done].
  apply list_elem_of_split in Hin as (l1 & l2 & ->). rewrite <- app_assoc in *. cbn [app] in *.
  assert (exists b l3, l2 ++ [main] = b :: l3) as (b & l3 & E3).
  { destruct l2 as [|b l2]; [by exists main, []|by exists b, (l2 ++ [main])]. }
  rewrite E3 in *. destruct (remove_spec s l1 a b l3 Hl) as (s1 & R & Hl1 & Hp).
  unfold exit_detached. rewrite R. cbn [mbind cres_bind]. unfold internal_free, deref.
  destruct (payloads_Some s1 a x) as (d1 & E1 & P1); [by rewrite Hp|]. rewrite E1. cbn [mbind cres_bind].
  assert (t_intern d1 = 1) as -> by (rewrite <- Hi, <- P1; done). cbn [truthy Z.eqb negb].
  assert (a ∉ l1 ++ b :: l3) as Ha.
  { destruct Hl as (_ & Hnd). apply list.NoDup_app in Hnd as (_ & Hx & Hnd). apply list.NoDup_cons in Hnd as (Hnd & _).
    intros [H|H]%elem_of_app; [|done]. apply (Hx a H), list_elem_of_here. }
  eexists. split; [reflexivity|]. split.
  - exists (l1 ++ take (length (b :: l3) - 1) (b :: l3)).
    assert (l1 ++ b :: l3 = (l1 ++ take (length (b :: l3) - 1) (b :: l3)) ++ [main]) as El.
    { rewrite <- app_assoc. f_equal. rewrite <- E3 at 1. rewrite <- E3. rewrite length_app. cbn [length].
      replace (length l2 + 1 - 1)%nat with (length l2) by lia. by rewrite take_app_length. }
    rewrite <- El. split; [by apply list_ok_delete|]. intros c. cbn [tl_mem].
    destruct (decide (c = a)) as [->|Hca].
    + rewrite lookup_delete_eq. split; [done|]. by intros [? ?].
    + rewrite lookup_delete_ne by congruence. rewrite <- payloads_is_Some, Hp, payloads_is_Some, <- Hd.
      rewrite !elem_of_app, !elem_of_cons. naive_solver.
  - split; unfold payloads; cbn; [by rewrite lookup_delete_eq|]. intros c Hc. rewrite lookup_delete_ne by congruence. apply Hp.
Qed.

(** A new descriptor. *)
Lemma linked_init main s a attr i :
  linked main s -> payloads s a = None ->
  exists s', init_thread s a attr i = CVal s' /\ linked main s' /\ view_set (payloads s) (payloads s') a (Some (attr, 0, 0, i)).
Proof.
  intros (l & Hl & Hd) Ea. assert (a ∉ l ++ [main]) as Ha.
  { intros H. apply Hd, payloads_is_Some in H. rewrite Ea in H. by destruct H. }
  unfold init_thread. set (d := mkThread None RHead attr 0 0 i).
  destruct (add_spec (store s a d) (l ++ [main]) a d) as (s' & R & Hl' & Hp).
  { destruct Hl as (Hc & Hnd). split; [by apply chain_insert|done]. } { done. } { cbn. by rewrite lookup_insert_eq. }
  exists s'. split; [done|]. assert (view_set (payloads s) (payloads s') a (Some (attr, 0, 0, i))) as Hv.
  { split; [rewrite Hp|intros b Hb; rewrite Hp]; unfold payloads; cbn;
      [by rewrite lookup_insert_eq|by rewrite lookup_insert_ne by congruence]. }
  split; [|done]. exists (a :: l). split; [done|]. intros b. rewrite <- payloads_is_Some. destruct Hv as (Hva & Hvb).
  destruct (decide (b = a)) as [->|Hba].
  - rewrite Hva. split; [by eexists|]. intros _. apply list_elem_of_here.
  - rewrite Hvb, payloads_is_Some, <- Hd by done. cbn [app]. rewrite elem_of_cons. naive_solver.
Qed.

(** ** The invariant *)

(** The descriptor of a thread at [p] that [n] threads wait for. *)
Definition desc_ok (n : Z) (p : tpc) (x : desc) : Prop :=
  match p with
  | TDead r => p_return x = r /\ (n = 0 /\ p_count x = -1 \/ 0 < n /\ p_count x = n)
  | _ => p_count x = n
  end /\ (p_detached x = true -> n = 0).

Definition dead (o : option tpc) : Prop := exists r, o = Some (TDead r).

Record vinv (main : Z) (v : Z -> option desc) (pcs : gmap Z tpc) (joined : list (Z * Z)) : Prop := {
  vi_desc : forall a x, v a = Some x -> exists p, pcs !! a = Some p /\ desc_ok (waiters a pcs) p x;
  vi_main : is_Some (v main) /\ forall x, v main = Some x -> p_detached x = false;
  vi_intern : forall a x, v a = Some x -> a <> main -> p_intern x = 1;
  vi_alive : forall a p, pcs !! a = Some p -> dead (Some p) \/ is_Some (v a);
  vi_wait : forall t a w, pcs !! t = Some (TJoining a w) ->
    a <> main /\ is_Some (v a) /\ (w = true -> dead (pcs !! a));
  vi_detached : forall a r, pcs !! a = Some (TExitDetached r) -> exists x, v a = Some x /\ p_detached x = true;
  vi_joined : forall a r, (a, r) ∈ joined -> pcs !! a = Some (TDead r)
}.

(** A control point that is neither a wait nor the end of the thread. *)
Definition plain (p : tpc) : bool := match p with TRun | TExitFlags _ | TExitDetached _ | TExitJoinable _ => true | _ => false end.

Lemma plain_waits p a : plain p = true -> waits_on a p = false.
Proof. by destruct p. Qed.

Lemma desc_ok_plain n p q x : plain p = true -> plain q = true -> desc_ok n p x -> desc_ok n q x.
Proof. by destruct p, q. Qed.

Section Moves.
Context (main : Z) (v : Z -> option desc) (pcs : gmap Z tpc) (joined : list (Z * Z)).
Context (H : vinv main v pcs joined).

Lemma waiters_same a t p q : pcs !! t = Some p -> waits_on a p = waits_on a q -> waiters a (<[t := q]> pcs) = waiters a pcs.
Proof. intros E Hw. rewrite waiters_insert, E. cbn. rewrite Hw. lia. Qed.

(** The dead stay dead. *)
Lemma dead_insert a t p q : pcs !! t = Some p -> ~ dead (Some p) -> dead (pcs !! a) -> dead (<[t := q]> pcs !! a).
Proof.
  intros E Hp [r Ha]. exists r. rewrite lookup_insert_ne; [done|]. intros ->. apply Hp. exists r. congruence.
Qed.

Lemma joined_insert a r t p q : pcs !! t = Some p -> ~ dead (Some p) -> (a, r) ∈ joined -> <[t := q]> pcs !! a = Some (TDead r).
Proof using H.
  intros E Hp Hj. pose proof (vi_joined _ _ _ _ H a r Hj) as Ea. rewrite lookup_insert_ne; [done|].
  intros ->. apply Hp. exists r. congruence.
Qed.

Lemma plain_not_dead p : plain p = true -> ~ dead (Some p).
Proof. intros Hp [r [= ->]]. done. Qed.

(** A thread moves on by itself. *)
Lemma vinv_move t p q :
  pcs !! t = Some p -> plain p = true -> plain q = true ->
  (forall r, q = TExitDetached r -> exists x, v t = Some x /\ p_detached x = true) ->
  vinv main v (<[t := q]> pcs) joined.
Proof using H.
  intros E Hp Hq Hdet. pose proof (plain_not_dead p Hp) as Hnd. pose proof H as [H1 H2 H3 H4 H5 H6 H7]. split; try done.
  - intros a x Ea. destruct (H1 a x Ea) as (pa & Epa & Hok).
    rewrite (waiters_same a t p q) by (done || (by rewrite !plain_waits)).
    destruct (decide (a = t)) as [->|Hne].
    + exists q. rewrite lookup_insert_eq. split; [done|]. apply (desc_ok_plain _ p); [done|done|]. congruence.
    + exists pa. by rewrite lookup_insert_ne by congruence.
  - intros a pa. destruct (decide (a = t)) as [->|Hne].
    + intros _. right. by destruct (H4 t p E).
    + rewrite lookup_insert_ne by congruence. apply H4.
  - intros t' a w. destruct (decide (t' = t)) as [->|Hne].
    + rewrite lookup_insert_eq. intros [= ->]. done.
    + rewrite lookup_insert_ne by congruence. intros Et. destruct (H5 _ _ _ Et) as (Hm & Hs & Hw).
      split; [done|]. split; [done|]. intros Hwt. eapply dead_insert; [done|done|auto].
  - intros a r. destruct (decide (a = t)) as [->|Hne].
    + rewrite lookup_insert_eq. intros [= ->]. by eapply Hdet.
    + rewrite lookup_insert_ne by congruence. apply H6.
  - intros a r Hj. by eapply joined_insert.
Qed.

(** A new thread. *)
Lemma vinv_create v' a attr :
  pcs !! a = None -> view_set v v' a (Some (attr, 0, 0, 1)) -> vinv main v' (<[a := TRun]> pcs) joined.
Proof using H.
  intros E (Ea & Eb). pose proof H as [H1 H2 H3 H4 H5 H6 H7].
  assert (forall b, waiters b (<[a := TRun]> pcs) = waiters b pcs) as Hw.
  { intros b. rewrite waiters_insert, E. cbn. lia. }
  assert (a <> main) as Ham.
  { intros ->. destruct H2 as ([x Hx] & _). destruct (H1 _ _ Hx) as (p & Hp & _). congruence. }
  split.
  - intros b x Hx. rewrite Hw. destruct (decide (b = a)) as [->|Hne].
    + exists TRun. rewrite lookup_insert_eq. split; [done|]. assert (waiters a pcs = 0) as Hw0.
      { destruct (decide (waiters a pcs = 0)) as [|Hn]; [done|]. exfalso.
        assert (exists t w, pcs !! t = Some (TJoining a w)) as (t & w & Et).
        { unfold waiters in Hn.
          destruct (map_choose (filter (fun kp : Z * tpc => waits_on a kp.2 = true) pcs)) as (t & p & Hp).
          - intros He. rewrite He, map_size_empty in Hn. lia.
          - apply map_lookup_filter_Some in Hp as (Ep & Hp). destruct p; try done. cbn in Hp. apply Z.eqb_eq in Hp as ->. eauto. }
        destruct (H5 _ _ _ Et) as (_ & [x' Hx'] & _). destruct (H1 _ _ Hx') as (p & Hp & _). congruence. }
      rewrite Hw0. rewrite Ea in Hx. injection Hx as <-. done.
    + rewrite Eb in Hx by done. rewrite lookup_insert_ne by congruence. by apply H1.
  - rewrite Eb by congruence. done.
  - intros b x. destruct (decide (b = a)) as [->|Hne]; [rewrite Ea; by intros [= <-]|]. rewrite Eb by done. apply H3.
  - intros b p. destruct (decide (b = a)) as [->|Hne]; [rewrite Ea; right; by eexists|].
    rewrite lookup_insert_ne, Eb by congruence. apply H4.
  - intros t b w. destruct (decide (t = a)) as [->|Hne]; [by rewrite lookup_insert_eq|]. rewrite lookup_insert_ne by congruence.
    intros Et. destruct (H5 _ _ _ Et) as (Hm & Hs & Hd). destruct (decide (b = a)) as [->|Hba].
    { rewrite Ea, lookup_insert_eq. split; [done|]. split; [by eexists|]. intros Hwt. destruct (Hd Hwt) as [r Hr]. congruence. }
    rewrite Eb, lookup_insert_ne by congruence. done.
  - intros b r. destruct (decide (b = a)) as [->|Hne]; [by rewrite lookup_insert_eq|].
    rewrite lookup_insert_ne, Eb by congruence. apply H6.
  - intros b r Hj. rewrite lookup_insert_ne; [by apply H7|]. intros ->. rewrite (H7 _ _ Hj) in E. done.
Qed.

(** A descriptor nobody waits for is freed; its thread is, or becomes, dead. *)
Lemma vinv_free v' pcs' a r :
  waiters a pcs = 0 -> a <> main -> view_set v v' a None -> pcs' = <[a := TDead r]> pcs ->
  (forall r', pcs !! a = Some (TDead r') -> r' = r) -> (forall b w, pcs !! a <> Some (TJoining b w)) ->
  vinv main v' pcs' joined.
Proof using H.
  intros Hw0 Ham (Ea & Eb) -> Hr Hnj. pose proof H as [H1 H2 H3 H4 H5 H6 H7].
  assert (forall b, waiters b (<[a := TDead r]> pcs) = waiters b pcs) as Hw.
  { intros b. rewrite waiters_insert. destruct (pcs !! a) as [[]|] eqn:E; cbn; try lia. by destruct (Hnj a0 woken). }
  assert (forall b r', pcs !! b = Some (TDead r') -> <[a := TDead r]> pcs !! b = Some (TDead r')) as Hdead.
  { intros b r' E. destruct (decide (b = a)) as [->|]; [rewrite lookup_insert_eq, (Hr r' E); done|by rewrite lookup_insert_ne]. }
  split.
  - intros b x Hx. rewrite Hw. destruct (decide (b = a)) as [->|Hne]; [congruence|]. rewrite Eb in Hx by done.
    rewrite lookup_insert_ne by congruence. by apply H1.
  - rewrite Eb by congruence. done.
  - intros b x Hx. destruct (decide (b = a)) as [->|Hne]; [congruence|]. rewrite Eb in Hx by done. by apply H3.
  - intros b p. destruct (decide (b = a)) as [->|Hne]; [rewrite lookup_insert_eq; intros [= <-]; left; by exists r|].
    rewrite lookup_insert_ne, Eb by congruence. apply H4.
  - intros t b w. destruct (decide (t = a)) as [->|Hne]; [by rewrite lookup_insert_eq|]. rewrite lookup_insert_ne by congruence.
    intros Et. destruct (H5 _ _ _ Et) as (Hm & Hs & Hd). assert (b <> a) as Hba.
    { intros ->. pose proof (waiters_zero _ _ _ _ Hw0 Et) as Hf. cbn in Hf. by rewrite Z.eqb_refl in Hf. }
    rewrite Eb by done. split; [done|]. split; [done|]. intros Hwt. destruct (Hd Hwt) as [r' Hr']. exists r'. by apply Hdead.
  - intros b r'. destruct (decide (b = a)) as [->|Hne]; [by rewrite lookup_insert_eq|].
    rewrite lookup_insert_ne, Eb by congruence. apply H6.
  - intros b r' Hj. apply Hdead. by apply H7.
Qed.

(** Fields of a descriptor change so that it still fits its thread. *)
Lemma vinv_update v' a x x' :
  v a = Some x -> view_set v v' a (Some x') -> p_intern x' = p_intern x ->
  (forall p, pcs !! a = Some p -> desc_ok (waiters a pcs) p x -> desc_ok (waiters a pcs) p x') ->
  (p_detached x = true -> p_detached x' = true) -> (a = main -> p_detached x' = false) ->
  vinv main v' pcs joined.
Proof using H.
  intros Ea (Ea' & Eb) Hi Hd Hf Hm. pose proof H as [H1 H2 H3 H4 H5 H6 H7].
  assert (forall b, is_Some (v b) -> is_Some (v' b)) as Hs.
  { intros b [y Hy]. destruct (decide (b = a)) as [->|]; [by exists x'|rewrite Eb by done; by exists y]. }
  split; try done.
  - intros b y Hy. destruct (decide (b = a)) as [->|Hne].
    + destruct (H1 _ _ Ea) as (p & Ep & Hok). exists p. split; [done|]. assert (y = x') as -> by congruence. auto.
    + rewrite Eb in Hy by done. by apply H1.
  - destruct H2 as (H2 & H2'). split; [auto|]. intros y Hy. destruct (decide (main = a)) as [<-|Hne].
    + assert (y = x') as -> by congruence. auto.
    + rewrite Eb in Hy by done. auto.
  - intros b y Hy Hb. destruct (decide (b = a)) as [->|Hne].
    + assert (y = x') as -> by congruence. rewrite Hi. by apply (H3 a).
    + rewrite Eb in Hy by done. by apply (H3 b).
  - intros b p Ep. destruct (H4 b p Ep); auto.
  - intros t b w Et. destruct (H5 _ _ _ Et) as (? & ? & ?). auto.
  - intros b r Er. destruct (H6 b r Er) as (y & Hy & Hdy). destruct (decide (b = a)) as [->|Hne].
    + exists x'. split; [done|]. apply Hf. congruence.
    + exists y. by rewrite Eb.
Qed.
End Moves.

Section MoreMoves.
Context (main : Z) (v : Z -> option desc) (pcs : gmap Z tpc) (joined : list (Z * Z)).
Context (H : vinv main v pcs joined).

Lemma desc_ok_alive n p q x : ~ dead (Some p) -> ~ dead (Some q) -> desc_ok n p x -> desc_ok n q x.
Proof.
  intros Hp Hq. destruct p, q; try done; (try (exfalso; apply Hp; by eexists)); exfalso; apply Hq; by eexists.
Qed.

(** [t] begins to wait for [a], or has waited for it. *)
Lemma vinv_waits v' t a p q x x' :
  pcs !! t = Some p -> v a = Some x -> a <> main -> view_set v v' a (Some x') ->
  p = TRun /\ q = TJoining a false \/ p = TJoining a true /\ q = TRun ->
  p_intern x' = p_intern x -> p_detached x' = p_detached x ->
  (forall pa, <[t := q]> pcs !! a = Some pa -> desc_ok (waiters a (<[t := q]> pcs)) pa x') ->
  vinv main v' (<[t := q]> pcs) joined.
Proof using H.
  intros Et Ea Ham (Ea' & Eb) Hpq Hi Hdet Hok. pose proof H as [H1 H2 H3 H4 H5 H6 H7].
  assert (~ dead (Some p) /\ ~ dead (Some q)) as (Hpd & Hqd).
  { destruct Hpq as [(-> & ->) | (-> & ->)]; split; by intros [r [=]]. }
  assert (forall b, b <> a -> waiters b (<[t := q]> pcs) = waiters b pcs) as Hw.
  { intros b Hb. eapply waiters_same; [done|]. destruct Hpq as [(-> & ->) | (-> & ->)]; cbn;
      (destruct (Z.eqb_spec a b); [congruence|done]). }
  assert (forall b, is_Some (v b) -> is_Some (v' b)) as Hs.
  { intros b [y Hy]. destruct (decide (b = a)) as [->|]; [by exists x'|rewrite Eb by done; by exists y]. }
  split.
  - intros b y Hy. destruct (decide (b = a)) as [->|Hne].
    + assert (y = x') as -> by congruence. destruct (H1 _ _ Ea) as (pa & Epa & _).
      destruct (decide (a = t)) as [->|Hat].
      * exists q. rewrite lookup_insert_eq. split; [done|]. apply Hok. by rewrite lookup_insert_eq.
      * exists pa. rewrite lookup_insert_ne by congruence. split; [done|]. apply Hok. by rewrite lookup_insert_ne by congruence.
    + rewrite Eb in Hy by done. rewrite Hw by done. destruct (H1 _ _ Hy) as (pb & Epb & Hokb).
      destruct (decide (b = t)) as [->|Hbt].
      * exists q. rewrite lookup_insert_eq. split; [done|]. eapply (desc_ok_alive _ p); [done|done|]. congruence.
      * exists pb. by rewrite lookup_insert_ne by congruence.
  - rewrite Eb by congruence. done.
  - intros b y Hy Hb. destruct (decide (b = a)) as [->|Hne].
    + assert (y = x') as -> by congruence. rewrite Hi. by apply (H3 a).
    + rewrite Eb in Hy by done. by apply (H3 b).
  - intros b pb. destruct (decide (b = t)) as [->|Hne].
    + intros _. right. apply Hs. by destruct (H4 t p Et).
    + rewrite lookup_insert_ne by congruence. intros E. destruct (H4 b pb E); auto.
  - intros t' b w. destruct (decide (t' = t)) as [->|Hne].
    + rewrite lookup_insert_eq. intros [= ->]. destruct Hpq as [(_ & [= -> ->]) | (_ & [=])].
      split; [done|]. split; [by exists x'|done].
    + rewrite lookup_insert_ne by congruence. intros E. destruct (H5 _ _ _ E) as (? & ? & Hd). split; [done|]. split; [auto|].
      intros Hwt. by eapply dead_insert; [| |apply Hd].
  - intros b r. destruct (decide (b = t)) as [->|Hne].
    + rewrite lookup_insert_eq. intros [= ->]. by destruct Hpq as [(_ & [=]) | (_ & [=])].
    + rewrite lookup_insert_ne by congruence. intros E. destruct (H6 b r E) as (y & Hy & Hdy).
      destruct (decide (b = a)) as [->|Hba]; [exists x'; split; [done|]; congruence|]. exists y. by rewrite Eb.
  - intros b r Hj. by eapply joined_insert.
Qed.

(** A joinable thread exits. *)
Lemma vinv_dies v' a r x c :
  pcs !! a = Some (TExitJoinable r) -> v a = Some x -> view_set v v' a (Some (p_attr x, c, r, p_intern x)) ->
  c = (if 0 <? p_count x then p_count x else -1) ->
  vinv main v' (<[a := TDead r]> (if 0 <? p_count x then wake_joiner a <$> pcs else pcs)) joined.
Proof using H.
  intros E Ea (Ea' & Eb) Hc. pose proof H as [H1 H2 H3 H4 H5 H6 H7].
  set (pcs1 := if 0 <? p_count x then wake_joiner a <$> pcs else pcs).
  assert (forall b, waiters b pcs1 = waiters b pcs) as Hw1 by (intros b; subst pcs1; destruct (_ <? _); [apply waiters_wake|done]).
  assert (forall b, exists f, pcs1 !! b = f <$> pcs !! b /\ (forall p, f p = p \/ exists w, f p = TJoining a true /\ p = TJoining a w)) as Hl.
  { intros b. subst pcs1. destruct (_ <? _).
    - exists (wake_joiner a). rewrite lookup_fmap. split; [done|]. intros p. destruct p as [|b' w| | | |]; auto. cbn.
      destruct (Z.eqb_spec b' a) as [->|]; [right; by exists w|by left].
    - exists id. split; [by destruct (pcs !! b)|]. by left. }
  assert (pcs1 !! a = Some (TExitJoinable r)) as E1.
  { destruct (Hl a) as (f & -> & Hf). rewrite E. cbn. destruct (Hf (TExitJoinable r)) as [->|(w & _ & [=])]. done. }
  assert (forall b, waiters b (<[a := TDead r]> pcs1) = waiters b pcs) as Hw.
  { intros b. rewrite waiters_insert, Hw1, E1. cbn. lia. }
  assert (forall b p, pcs !! b = Some p -> ~ (exists c' w, p = TJoining c' w) -> pcs1 !! b = Some p) as Hk.
  { intros b p Ep Hn. destruct (Hl b) as (f & -> & Hf). rewrite Ep. cbn. destruct (Hf p) as [->|(w & _ & ->)]; [done|].
    exfalso. apply Hn. eauto. }
  assert (forall b r', pcs !! b = Some (TDead r') -> <[a := TDead r]> pcs1 !! b = Some (TDead r')) as Hdead.
  { intros b r' Er. rewrite lookup_insert_ne by congruence. apply Hk; [done|]. by intros (? & ? & [=]). }
  assert (forall b, is_Some (v b) -> is_Some (v' b)) as Hs.
  { intros b [y Hy]. destruct (decide (b = a)) as [->|]; [by eexists|rewrite Eb by done; by exists y]. }
  split.
  - intros b y Hy. rewrite Hw. destruct (decide (b = a)) as [->|Hne].
    + exists (TDead r). rewrite lookup_insert_eq. split; [done|]. rewrite Ea' in Hy. injection Hy as <-.
      destruct (H1 _ _ Ea) as (pa & Epa & Hok). rewrite E in Epa. injection Epa as <-. destruct Hok as (Hn & Hdet). cbn in Hn.
      split; [|done]. cbn [p_return p_count fst snd]. split; [done|]. pose proof (waiters_nonneg a pcs). rewrite Hc, Hn.
      bcase; [right; lia|left; lia].
    + rewrite Eb in Hy by done. rewrite lookup_insert_ne by congruence. destruct (H1 _ _ Hy) as (pb & Epb & Hokb).
      destruct (Hl b) as (f & -> & Hf). rewrite Epb. cbn. exists (f pb). split; [done|].
      destruct (Hf pb) as [->|(w & -> & ->)]; done.
  - destruct H2 as (H2 & H2'). split; [auto|]. intros y Hy. destruct (decide (main = a)) as [->|Hne].
    + rewrite Ea' in Hy. injection Hy as <-. by apply (H2' x).
    + rewrite Eb in Hy by done. auto.
  - intros b y Hy Hb. destruct (decide (b = a)) as [->|Hne].
    + rewrite Ea' in Hy. injection Hy as <-. cbn. by apply (H3 a).
    + rewrite Eb in Hy by done. by apply (H3 b).
  - intros b p. destruct (decide (b = a)) as [->|Hne]; [rewrite lookup_insert_eq; intros [= <-]; left; by exists r|].
    rewrite lookup_insert_ne by congruence. destruct (Hl b) as (f & -> & Hf). destruct (pcs !! b) as [pb|] eqn:Epb; [|done].
    cbn. intros [= <-]. destruct (H4 b pb Epb) as [[r' [= ->]]|]; [|auto]. left.
    destruct (Hf (TDead r')) as [->|(w & _ & [=])]. by exists r'.
  - intros t b w. destruct (decide (t = a)) as [->|Hne]; [by rewrite lookup_insert_eq|].
    rewrite lookup_insert_ne by congruence. destruct (Hl t) as (f & -> & Hf). destruct (pcs !! t) as [pt|] eqn:Ept; [|done].
    cbn. intros [= Hft]. destruct (Hf pt) as [Hf'|(w' & Hf' & ->)]; rewrite Hf' in Hft.
    + subst pt. destruct (H5 _ _ _ Ept) as (? & ? & Hd). split; [done|]. split; [auto|]. intros Hwt.
      destruct (Hd Hwt) as [r' Hr']. exists r'. by apply Hdead.
    + injection Hft as <- <-. destruct (H5 _ _ _ Ept) as (? & ? & _). split; [done|]. split; [auto|]. intros _. exists r.
      by rewrite lookup_insert_eq.
  - intros b r'. destruct (decide (b = a)) as [->|Hne]; [by rewrite lookup_insert_eq|].
    rewrite lookup_insert_ne by congruence. destruct (Hl b) as (f & -> & Hf). destruct (pcs !! b) as [pb|] eqn:Epb; [|done].
    cbn. intros [= Hfb]. destruct (Hf pb) as [Hf'|(w' & Hf' & ->)]; rewrite Hf' in Hfb; [|done]. subst pb.
    rewrite Eb by done. by eapply H6.
  - intros b r' Hj. apply Hdead. by apply H7.
Qed.

(** A joiner is told the value of a dead thread. *)
Lemma vinv_join a r : pcs !! a = Some (TDead r) -> vinv main v pcs ((a, r) :: joined).
Proof using H.
  intros E. pose proof H as [H1 H2 H3 H4 H5 H6 H7]. split; try done.
  intros b r' [[= -> ->] | Hj]%elem_of_cons; [done|auto].
Qed.
End MoreMoves.

(** ** What the sections do *)

Lemma join_finish_spec main s a x count :
  linked main s ->
  payloads s a = Some x -> a <> main -> p_intern x = 1 ->
  exists s', join_finish s a count = CVal (p_return x, s') /\ linked main s' /\
    if count <=? 0 then view_set (payloads s) (payloads s') a None else s' = s.
Proof.
  intros Hl Ea Ham Hi. destruct (payloads_Some s a x Ea) as (d & Ed & Hp). unfold join_finish, deref. rewrite Ed. cbn [mbind cres_bind].
  assert (t_return_value d = p_return x) as -> by (by rewrite <- Hp). bcase.
  - destruct (linked_remove main s a x Hl Ea Ham Hi) as (s' & R & Hl' & Hv). unfold exit_detached in R.
    cbn [mbind cres_bind] in R. rewrite R. cbn [mbind cres_bind]. eauto.
  - cbn [mbind cres_bind]. eauto.
Qed.

Section Sections.
Context (main : Z) (s : thread_list) (Hl : linked main s).

Lemma join_enter_spec a :
  a <> main -> (forall x, payloads s a = Some x -> p_intern x = 1) ->
  exists res s', join_enter s a = CVal (res, s') /\ linked main s' /\
    match payloads s a with
    | None => res = JoinError ESRCH /\ s' = s
    | Some x =>
        if p_detached x then res = JoinError EINVAL /\ s' = s
        else if 0 <=? p_count x then
          res = JoinWait /\ view_set (payloads s) (payloads s') a (Some (p_attr x, p_count x + 1, p_return x, p_intern x))
        else res = JoinValue (p_return x) /\ view_set (payloads s) (payloads s') a None
    end.
Proof using Hl.
  intros Ham Hi. unfold join_enter. rewrite (linked_in_list main s a Hl). cbn [mbind cres_bind].
  destruct (payloads s a) as [x|] eqn:Ea; [|rewrite bool_decide_false by (by intros [? ?]); cbn [negb]; eauto 6].
  rewrite bool_decide_true by by eexists. cbn [negb]. destruct (payloads_Some s a x Ea) as (d & Ed & Hp).
  unfold deref at 1. rewrite Ed. cbn [mbind cres_bind].
  assert (detached d = p_detached x) as -> by (by rewrite <- Hp). destruct (p_detached x); [eauto 6|].
  assert (t_join_count d = p_count x) as -> by (by rewrite <- Hp). bcase.
  - destruct (linked_store main s a d (set_count d (p_count x + 1)) Hl Ed eq_refl eq_refl) as (Hl' & Hv).
    eexists _, _. split; [reflexivity|]. split; [done|]. split; [done|]. rewrite <- Hp in *. exact Hv.
  - destruct (join_finish_spec main s a x (p_count x) Hl Ea Ham (Hi x eq_refl)) as (s' & -> & Hl' & Hv). cbn [mbind cres_bind].
    revert Hv. zif. intros Hv. eexists _, _. split; [reflexivity|]. done.
Qed.

Lemma join_leave_spec a x :
  payloads s a = Some x -> a <> main -> p_intern x = 1 ->
  exists s', join_leave s a = CVal (p_return x, s') /\ linked main s' /\
    view_set (payloads s) (payloads s') a
      (if p_count x - 1 <=? 0 then None else Some (p_attr x, p_count x - 1, p_return x, p_intern x)).
Proof.
  intros Ea Ham Hi. destruct (payloads_Some s a x Ea) as (d & Ed & Hp). unfold join_leave, deref. rewrite Ed. cbn [mbind cres_bind].
  assert (t_join_count d = p_count x) as -> by (by rewrite <- Hp).
  destruct (linked_store main s a d (set_count d (p_count x - 1)) Hl Ed eq_refl eq_refl) as (Hl' & Hv1 & Hv2).
  set (s1 := store s a (set_count d (p_count x - 1))) in *.
  destruct (join_finish_spec main s1 a _ (p_count x - 1) Hl' Hv1 Ham) as (s' & R & Hl'' & Hv); [by rewrite <- Hi, <- Hp|].
  rewrite R. replace (p_return (payload (set_count d (p_count x - 1)))) with (p_return x) by (by rewrite <- Hp).
  exists s'. split; [done|]. split; [done|]. revert Hv. bcase.
  - intros (Hva & Hvb). split; [done|]. intros b Hb. rewrite Hvb, Hv2 by done. done.
  - intros ->. split; [rewrite Hv1, <- Hp; done|]. done.
Qed.

Lemma exit_joinable_spec a x r :
  payloads s a = Some x ->
  exists s', exit_joinable s a r = CVal (0 <? p_count x, s') /\ linked main s' /\
    view_set (payloads s) (payloads s') a (Some (p_attr x, (if 0 <? p_count x then p_count x else -1), r, p_intern x)).
Proof using Hl.
  intros Ea. destruct (payloads_Some s a x Ea) as (d & Ed & Hp). unfold exit_joinable, deref. rewrite Ed. cbn [mbind cres_bind].
  assert (t_join_count (set_return d r) = p_count x) as -> by (by rewrite <- Hp). bcase.
  - destruct (linked_store main s a d (set_return d r) Hl Ed eq_refl eq_refl) as (Hl' & Hv).
    eexists. split; [reflexivity|]. split; [done|]. by rewrite <- Hp.
  - destruct (linked_store main s a d (set_count (set_return d r) (-1)) Hl Ed eq_refl eq_refl) as (Hl' & Hv).
    eexists. split; [reflexivity|]. split; [done|]. by rewrite <- Hp.
Qed.

Lemma detached_or f : truthy (Z.land (Z.lor f PTHREAD_ATTR_FLAG_DETACHED) PTHREAD_ATTR_FLAG_DETACHED) = true.
Proof.
  rewrite Z.land_lor_distr_l, Z.land_diag. apply truthy_ne. intros E. apply Z.lor_eq_0_iff in E as (_ & E). done.
Qed.

Lemma pthread_detach_spec a :
  exists e s', pthread_detach s a = CVal (e, s') /\ linked main s' /\
    match payloads s a with
    | None => e = ESRCH /\ s' = s
    | Some x =>
        if p_detached x then e = EINVAL /\ s' = s
        else e = 0 /\ exists x', view_set (payloads s) (payloads s') a (Some x') /\ p_detached x' = true /\
               p_count x' = p_count x /\ p_return x' = p_return x /\ p_intern x' = p_intern x
    end.
Proof using Hl.
  unfold pthread_detach. rewrite (linked_in_list main s a Hl). cbn [mbind cres_bind].
  destruct (payloads s a) as [x|] eqn:Ea; [|rewrite bool_decide_false by (by intros [? ?]); cbn [negb]; eauto 6].
  rewrite bool_decide_true by by eexists. cbn [negb]. destruct (payloads_Some s a x Ea) as (d & Ed & Hp).
  unfold deref. rewrite Ed. cbn [mbind cres_bind].
  assert (detached d = p_detached x) as -> by (by rewrite <- Hp). destruct (p_detached x); [eauto 6|].
  destruct (linked_store main s a d (set_flags d (Z.lor (flags (t_attr d)) PTHREAD_ATTR_FLAG_DETACHED)) Hl Ed eq_refl eq_refl) as (Hl' & Hv).
  eexists _, _. split; [reflexivity|]. split; [done|]. split; [done|]. eexists. split; [exact Hv|].
  split; [apply detached_or|]. by rewrite <- Hp.
Qed.
End Sections.

(** ** Every step keeps the invariant *)

Definition tinv (main : Z) (s : tsys) : Prop :=
  linked main (ts_list s) /\ vinv main (payloads (ts_list s)) (ts_pcs s) (ts_joined s).

Lemma alive_desc main v pcs joined a p :
  vinv main v pcs joined -> pcs !! a = Some p -> ~ dead (Some p) ->
  exists x, v a = Some x /\ desc_ok (waiters a pcs) p x.
Proof.
  intros H E Hp. destruct (vi_alive _ _ _ _ H a p E) as [|[x Hx]]; [done|]. exists x. split; [done|].
  destruct (vi_desc _ _ _ _ H a x Hx) as (p' & E' & Hok). by rewrite E in E'; injection E' as <-.
Qed.

Lemma count_nonneg_waiters n p x : 0 <= n -> desc_ok n p x -> p_count x <= 0 -> n = 0.
Proof. intros Hn (Hok & _) Hc. destruct p; lia. Qed.

Lemma create_init s attr a mkstack tid s' :
  pthread_create s attr (Some a) mkstack (inl tid) = CVal (0, s') -> exists attr', init_thread s a attr' 1 = CVal s'.
Proof.
  unfold pthread_create. set (at' := match attr with Some x => x | None => gDefaultPthreadAttr end).
  destruct (if stack_base at' =? 0 then _ else _); [|done].
  destruct (init_thread s a _ 1) as [s1| |] eqn:E; cbn [mbind cres_bind]; intros [= <-]. by eexists.
Qed.

Lemma vinv_ext main v v' pcs joined : (forall b, v' b = v b) -> vinv main v pcs joined -> vinv main v' pcs joined.
Proof.
  intros Ev [H1 H2 H3 H4 H5 H6 H7]. split; [..|done].
  - intros a x. rewrite Ev. apply H1.
  - by rewrite Ev.
  - intros a x. rewrite Ev. apply H3.
  - intros a p. rewrite Ev. apply H4.
  - intros t a w. rewrite Ev. apply H5.
  - intros a r. rewrite Ev. apply H6.
Qed.

Lemma tinv_join_leave main s t a r l' :
  tinv main s -> ts_pcs s !! t = Some (TJoining a true) -> join_leave (ts_list s) a = CVal (r, l') ->
  tinv main (mkSys l' (<[t := TRun]> (ts_pcs s)) ((a, r) :: ts_joined s)).
Proof.
  intros (Hl & H) Et R. destruct (vi_wait _ _ _ _ H _ _ _ Et) as (Ham & [x Hx] & Hd).
  destruct (Hd eq_refl) as [r' Er'].
  destruct (vi_desc _ _ _ _ H a x Hx) as (p & Ep & Hok). rewrite Er' in Ep. injection Ep as <-.
  destruct (join_leave_spec main (ts_list s) Hl a x Hx Ham (vi_intern _ _ _ _ H a x Hx Ham)) as (s' & R' & Hl' & Hv).
  rewrite R in R'. injection R' as -> <-. split; [done|]. cbn [ts_list ts_pcs ts_joined].
  destruct Hok as ((Hret & Hcount) & Hdet). rewrite Hret in *.
  assert (t <> a) as Hta by congruence.
  pose proof (waiters_pos a (ts_pcs s) t (TJoining a true) Et (Z.eqb_refl a)) as Hpos.
  assert (waiters a (<[t := TRun]> (ts_pcs s)) = waiters a (ts_pcs s) - 1) as Hw.
  { rewrite waiters_insert, Et. cbn. rewrite Z.eqb_refl. cbn. lia. }
  assert (p_count x = waiters a (ts_pcs s)) as Hc by lia.
  (* as if the last joiner turned the thread into a zombie *)
  set (x' := (p_attr x, (if p_count x - 1 <=? 0 then -1 else p_count x - 1), p_return x, p_intern x) : desc).
  set (v1 := fun b => if decide (b = a) then Some x' else payloads (ts_list s) b).
  assert (vinv main v1 (<[t := TRun]> (ts_pcs s)) (ts_joined s)) as H1.
  { eapply (vinv_waits main _ _ _ H v1 t a _ _ x x'); [done|done|done| |by right|done|done|].
    - split; [by unfold v1; rewrite decide_True|]. intros b Hb. by unfold v1; rewrite decide_False.
    - intros pa. rewrite lookup_insert_ne, Er' by congruence. intros [= <-]. rewrite Hw. split; [|intros Hdx; specialize (Hdet Hdx); lia].
      split; [done|]. cbn. bcase; [left|right]; lia. }
  assert (<[t := TRun]> (ts_pcs s) !! a = Some (TDead r')) as Era by (by rewrite lookup_insert_ne by congruence).
  apply vinv_join; [|done]. revert Hv. bcase; intros (Hva & Hvb).
  - eapply (vinv_free main v1 _ _ H1 _ _ a r'); [lia|done| |symmetry; by apply insert_id|congruence|congruence].
    split; [done|]. intros b Hb. rewrite Hvb by done. by unfold v1; rewrite decide_False.
  - apply (vinv_ext main v1); [|done]. intros b. unfold v1. destruct (decide (b = a)) as [->|]; [|auto].
    rewrite Hva. unfold x'. by rewrite Hret.
Qed.

Lemma tinv_step main s s' : tinv main s -> tstep main false s s' -> tinv main s'.
Proof.
  intros Hs Hstep. pose proof Hs as (Hl & H).
  destruct Hstep as [s t a attr mk tid l' Et Ea R|s a r Ea|s a r d Ea R|s a r l' Ea R|s a r wake l' Ea R
    |s t a e l' Et R|s t a r l' Et Ham R|s t a l' Et Ham R|s t a r l' Et R|s t a e l' Et Ham Hc R|s t a [=]].
  - apply create_init in R as [attr' R].
    assert (payloads (ts_list s) a = None) as En.
    { destruct (payloads (ts_list s) a) as [x|] eqn:E; [|done]. destruct (vi_desc _ _ _ _ H a x E) as (p & Hp & _). congruence. }
    destruct (linked_init main (ts_list s) a attr' 1 Hl En) as (s1 & R' & Hl' & Hv). rewrite R in R'. injection R' as <-.
    split; [done|]. by eapply vinv_create.
  - split; [done|]. by eapply vinv_move.
  - split; [done|]. unfold deref in R. destruct (tl_mem (ts_list s) !! a) as [d'|] eqn:Ed; [|done]. injection R as ->.
    eapply vinv_move; [done|done|done|by destruct (detached d)|]. intros r'. destruct (detached d) eqn:Hd; [|done]. intros [= <-].
    exists (payload d). unfold payloads. cbn. rewrite Ed. done.
  - destruct (vi_detached _ _ _ _ H a r Ea) as (x & Hx & Hdx).
    assert (a <> main) as Ham by (intros ->; rewrite (proj2 (vi_main _ _ _ _ H) x Hx) in Hdx; done).
    destruct (alive_desc _ _ _ _ a _ H Ea) as (x' & Hx' & (_ & Hdet)); [by intros [? [=]]|].
    assert (x' = x) as -> by congruence.
    destruct (linked_remove main (ts_list s) a x Hl Hx Ham (vi_intern _ _ _ _ H a x Hx Ham)) as (s1 & R' & Hl' & Hv).
    rewrite R in R'. injection R' as <-. split; [done|]. eapply (vinv_free main _ _ _ H); [by apply Hdet|done|done|done|congruence|congruence].
  - destruct (alive_desc _ _ _ _ a _ H Ea) as (x & Hx & _); [by intros [? [=]]|].
    destruct (exit_joinable_spec main (ts_list s) Hl a x r Hx) as (s1 & R' & Hl' & Hv). rewrite R in R'. injection R' as -> <-.
    split; [done|]. by eapply vinv_dies.
  - destruct (decide (a = main)) as [->|Ham].
    { unfold join_enter in R. rewrite (linked_in_list main _ main Hl) in R. destruct (vi_main _ _ _ _ H) as ([x Hx] & Hd).
      rewrite bool_decide_true in R by by eexists. cbn [mbind cres_bind negb] in R. unfold deref in R at 1.
      destruct (payloads_Some _ _ _ Hx) as (d & Ed & Hp). rewrite Ed in R. cbn [mbind cres_bind] in R.
      assert (detached d = false) as Hdf by (rewrite <- (Hd x Hx), <- Hp; done). rewrite Hdf in R.
      destruct (0 <=? t_join_count d); [done|]. destruct (join_finish _ _ _) as [[? ?]| |]; done. }
    destruct (join_enter_spec main (ts_list s) Hl a Ham) as (res & s1 & R' & Hl' & Hv); [intros x Hx; by apply (vi_intern _ _ _ _ H a x)|].
    rewrite R in R'. injection R' as <- <-. destruct (payloads (ts_list s) a) as [x|]; [|destruct Hv as (_ & ->); by split].
    destruct (p_detached x); [destruct Hv as (_ & ->); by split|]. destruct (0 <=? p_count x); by destruct Hv.
  - destruct (join_enter_spec main (ts_list s) Hl a Ham) as (res & s1 & R' & Hl' & Hv); [intros x Hx; by apply (vi_intern _ _ _ _ H a x)|].
    rewrite R in R'. injection R' as <- <-. destruct (payloads (ts_list s) a) as [x|] eqn:Hx; [|by destruct Hv].
    destruct (p_detached x); [by destruct Hv|]. revert Hv. bcase; intros (Hres & Hv); [done|]. injection Hres as ->.
    destruct (vi_desc _ _ _ _ H a x Hx) as (p & Ep & Hok).
    pose proof (waiters_nonneg a (ts_pcs s)) as Hn.
    assert (waiters a (ts_pcs s) = 0) as Hw by (eapply count_nonneg_waiters; [done|done|lia]).
    destruct Hok as (Hok & _). destruct p; try lia. destruct Hok as (<- & _). split; [done|]. cbn.
    apply vinv_join; [|done]. eapply (vinv_free main _ _ _ H _ _ a); [done|done|done|symmetry; by apply insert_id|congruence|congruence].
  - destruct (join_enter_spec main (ts_list s) Hl a Ham) as (res & s1 & R' & Hl' & Hv); [intros x Hx; by apply (vi_intern _ _ _ _ H a x)|].
    rewrite R in R'. injection R' as <- <-. destruct (payloads (ts_list s) a) as [x|] eqn:Hx; [|by destruct Hv].
    destruct (p_detached x) eqn:Hdx; [by destruct Hv|]. revert Hv. bcase; intros (Hres & Hv); [|done]. split; [done|]. cbn.
    destruct (vi_desc _ _ _ _ H a x Hx) as (p & Ep & Hok).
    eapply (vinv_waits main _ _ _ H _ t a _ _ x); [done|done|done|done|by left|done|done|].
    intros pa Epa. rewrite waiters_insert, Et. cbn. rewrite Z.eqb_refl. cbn. rewrite Z.sub_0_r.
    destruct Hok as (Hok & _). split; [|intros E; change (p_detached x = true) in E; congruence].
    destruct (decide (a = t)) as [->|Hat].
    + rewrite lookup_insert_eq in Epa. injection Epa as <-. rewrite Et in Ep. injection Ep as <-. cbn in *. lia.
    + rewrite lookup_insert_ne in Epa by congruence. rewrite Ep in Epa. injection Epa as ->. cbn. destruct pa; cbn; try lia.
  - by eapply tinv_join_leave.
  - destruct (pthread_detach_spec main (ts_list s) Hl a) as (e' & s1 & R' & Hl' & Hv). rewrite R in R'. injection R' as <- <-.
    destruct (payloads (ts_list s) a) as [x|] eqn:Hx; [|destruct Hv as (_ & ->); by split].
    destruct (p_detached x) eqn:Hdx; [destruct Hv as (_ & ->); by split|]. destruct Hv as (_ & x' & Hv & Hd' & Ec & Er & Ei).
    split; [done|]. cbn. eapply (vinv_update main _ _ _ H _ a x x'); [done|done|done| |congruence|done].
    intros p Ep Hok. destruct (payloads_Some _ _ _ Hx) as (d & Ed & Hp). specialize (Hc d Ed).
    assert (waiters a (ts_pcs s) = 0) as Hw.
    { eapply count_nonneg_waiters; [apply waiters_nonneg|done|]. by rewrite <- Hp. }
    unfold desc_ok in *. rewrite Ec, Er. destruct Hok as (Hok & _). done.
Qed.

Lemma tinv_init main s : tinit main s -> tinv main s.
Proof.
  intros (attr & l' & Hd & R & ->). unfold init_thread in R.
  destruct (add_spec (store (mkTL ∅ None) main (mkThread None RHead attr 0 0 0)) [] main (mkThread None RHead attr 0 0 0))
    as (s' & R' & Hl & Hp).
  { split; [done|constructor]. } { apply not_elem_of_nil. } { cbn. by rewrite lookup_insert_eq. }
  rewrite R in R'. injection R' as <-.
  assert (forall b, payloads l' b = if decide (b = main) then Some (attr, 0, 0, 0) else None) as Ev.
  { intros b. rewrite Hp. unfold payloads. cbn. destruct (decide (b = main)) as [->|].
    - by rewrite lookup_insert_eq.
    - by rewrite lookup_insert_ne, lookup_empty by congruence. }
  assert (forall b, waiters b {[main := TRun]} = 0) as Hw.
  { intros b. rewrite <- insert_empty, waiters_insert, lookup_empty. cbn. done. }
  split; cbn.
  - exists []. split; [done|]. intros b. rewrite <- payloads_is_Some, Ev. cbn [app]. rewrite list_elem_of_singleton.
    destruct (decide (b = main)); [split; [by eexists|done]|]. split; [done|]. by intros [? ?].
  - apply (vinv_ext main (fun b => if decide (b = main) then Some (attr, 0, 0, 0) else None)); [done|]. split.
    + intros a x. destruct (decide (a = main)) as [->|]; [|done]. intros [= <-]. exists TRun.
      rewrite lookup_singleton_eq, Hw. done.
    + rewrite decide_True by done. split; [by eexists|]. intros x [= <-]. done.
    + intros a x. destruct (decide (a = main)); done.
    + intros a p. rewrite lookup_singleton_Some. intros (<- & _). right. rewrite decide_True by done. by eexists.
    + intros t a w. rewrite lookup_singleton_Some. by intros (_ & [=]).
    + intros a r. rewrite lookup_singleton_Some. by intros (_ & [=]).
    + intros a r Hj. by apply not_elem_of_nil in Hj.
Qed.

Lemma threads_invariant main s : reachable (tinit main) (tstep main false) s -> tinv main s.
Proof. apply (reachable_invariant _ _ (tinv main)); [apply tinv_init|apply tinv_step]. Qed.

(** ** The properties *)

(** C15: joins are safe when condition variables do not wake up spuriously and
    nobody detaches a thread that is being joined: a value pthread_join has
    returned for a thread is the value the thread passed to pthread_exit, which
    it has called; the descriptor of a thread is not freed before the thread has
    ended, nor while a joiner waits for it; and none of the sections touches a
    descriptor that has been freed or follows a NULL pointer. *)
Theorem threads_join_safe (main : Z) (s : tsys) :
  reachable (tinit main) (tstep main false) s ->
  (forall a r, (a, r) ∈ ts_joined s -> ts_pcs s !! a = Some (TDead r)) /\
  (forall a, tl_mem (ts_list s) !! a = None ->
     (ts_pcs s !! a = None \/ exists r, ts_pcs s !! a = Some (TDead r)) /\ forall t w, ts_pcs s !! t <> Some (TJoining a w)) /\
  (forall a, a <> main -> exists r, join_enter (ts_list s) a = CVal r) /\
  (forall a, exists r, pthread_detach (ts_list s) a = CVal r) /\
  (forall t a w, ts_pcs s !! t = Some (TJoining a w) -> exists r, join_leave (ts_list s) a = CVal r) /\
  (forall a r, ts_pcs s !! a = Some (TExitJoinable r) -> exists e, exit_joinable (ts_list s) a r = CVal e) /\
  (forall a r, ts_pcs s !! a = Some (TExitDetached r) -> exists l, exit_detached (ts_list s) a = CVal l).
Proof.
  intros (Hl & H)%threads_invariant. split; [apply (vi_joined _ _ _ _ H)|]. split; [|split; [|split; [|split; [|split]]]].
  - intros a Ha. assert (~ is_Some (payloads (ts_list s) a)) as Hn by (rewrite payloads_is_Some, Ha; by intros [? ?]). split.
    + destruct (ts_pcs s !! a) as [p|] eqn:E; [|by left]. right. destruct (vi_alive _ _ _ _ H a p E) as [[r [= ->]]|]; [by exists r|done].
    + intros t w E. by destruct (vi_wait _ _ _ _ H t a w E) as (_ & ? & _).
  - intros a Ham. destruct (join_enter_spec main _ Hl a Ham) as (res & s' & -> & _); [intros x Hx; by apply (vi_intern _ _ _ _ H a x)|eauto].
  - intros a. destruct (pthread_detach_spec main _ Hl a) as (e & s' & -> & _). eauto.
  - intros t a w E. destruct (vi_wait _ _ _ _ H t a w E) as (Ham & [x Hx] & _).
    destruct (join_leave_spec main _ Hl a x Hx Ham (vi_intern _ _ _ _ H a x Hx Ham)) as (s' & -> & _). eauto.
  - intros a r E. destruct (alive_desc _ _ _ _ a _ H E) as (x & Hx & _); [by intros [? [=]]|].
    destruct (exit_joinable_spec main _ Hl a x r Hx) as (s' & -> & _). eauto.
  - intros a r E. destruct (vi_detached _ _ _ _ H a r E) as (x & Hx & Hdx).
    assert (a <> main) as Ham by (intros ->; rewrite (proj2 (vi_main _ _ _ _ H) x Hx) in Hdx; done).
    destruct (linked_remove main _ a x Hl Hx Ham (vi_intern _ _ _ _ H a x Hx Ham)) as (s' & -> & _). eauto.
Qed.

(** The main thread (1) creates thread 2 and joins it while it runs. *)
Definition no_list : thread_list := mkTL ∅ None.
Definition list_of {A} (r : cres (A * thread_list)) : thread_list := match r with CVal (_, l) => l | _ => no_list end.

Definition ex_init : tsys :=
  mkSys (match init_thread no_list 1 gDefaultPthreadAttr 0 with CVal l => l | _ => no_list end) {[1 := TRun]} [].
Definition ex_created : tsys :=
  mkSys (list_of (pthread_create (ts_list ex_init) None (Some 2) (fun _ _ => Some 0x10000000) (inl 2)))
    (<[2 := TRun]> (ts_pcs ex_init)) [].
Definition ex_joining : tsys :=
  mkSys (list_of (join_enter (ts_list ex_created) 2)) (<[1 := TJoining 2 false]> (ts_pcs ex_created)) [].

Lemma ex_joining_reachable spurious : reachable (tinit 1) (tstep 1 spurious) ex_joining.
Proof.
  eapply reach_step; [|eapply (t_join_wait 1 spurious ex_created 1 2); [reflexivity|done|vm_compute; reflexivity]].
  eapply reach_step;
    [|eapply (t_create 1 spurious ex_init 1 2 None (fun _ _ => Some 0x10000000) 2); [reflexivity|reflexivity|vm_compute; reflexivity]].
  apply reach_init. exists gDefaultPthreadAttr, (ts_list ex_init). split; [reflexivity|]. split; [vm_compute; reflexivity|done].
Qed.

Lemma t_flags_joinable main spurious s a r d :
  ts_pcs s !! a = Some (TExitFlags r) -> deref (ts_list s) a = CVal d -> detached d = false ->
  tstep main spurious s (mkSys (ts_list s) (<[a := TExitJoinable r]> (ts_pcs s)) (ts_joined s)).
Proof. intros E R Hd. pose proof (t_flags main spurious s a r d E R) as H. by rewrite Hd in H. Qed.

(** Thread 2 exits with 7, and the join returns. *)
Definition ex_flags : tsys := mkSys (ts_list ex_joining) (<[2 := TExitFlags 7]> (ts_pcs ex_joining)) [].
Definition ex_exiting : tsys := mkSys (ts_list ex_flags) (<[2 := TExitJoinable 7]> (ts_pcs ex_flags)) [].
Definition ex_exited : tsys :=
  mkSys (list_of (exit_joinable (ts_list ex_exiting) 2 7)) (<[2 := TDead 7]> (wake_joiner 2 <$> ts_pcs ex_exiting)) [].
Definition ex_joined : tsys :=
  mkSys (list_of (join_leave (ts_list ex_exited) 2)) (<[1 := TRun]> (ts_pcs ex_exited)) [(2, 7)].

Lemma ex_joined_reachable : reachable (tinit 1) (tstep 1 false) ex_joined.
Proof.
  eapply reach_step; [|eapply (t_join_leave 1 false ex_exited 1 2 7); [reflexivity|vm_compute; reflexivity]].
  eapply reach_step; [|eapply (t_exit_joinable 1 false ex_exiting 2 7 true); [reflexivity|vm_compute; reflexivity]].
  eapply reach_step; [|eapply (t_flags_joinable 1 false ex_flags 2 7);
    [reflexivity|vm_compute; reflexivity|reflexivity]].
  eapply reach_step; [|eapply (t_exit 1 false ex_joining 2 7); reflexivity].
  apply ex_joining_reachable.
Qed.

Lemma threads_join_safe_witness : (2, 7) ∈ ts_joined ex_joined /\ ts_pcs ex_joined !! 2 = Some (TDead 7).
Proof.
  split; [apply list_elem_of_here|].
  apply (threads_join_safe 1 ex_joined); [apply ex_joined_reachable|apply list_elem_of_here].
Defined.

Definition ex_spurious : tsys := mkSys (ts_list ex_joining) (<[1 := TJoining 2 true]> (ts_pcs ex_joining)) [].

(** pthread_join does not wait in a loop, so a spurious return of
    pthread_cond_wait (the futex call was interrupted by a signal) makes it
    return 0 with a value that was never passed to pthread_exit, while the thread
    still runs; being the last joiner it frees the descriptor of the running
    thread, whose pthread_exit then reads freed memory. *)
Theorem join_spurious_wakeup :
  exists s, reachable (tinit 1) (tstep 1 true) s /\
    (2, 0) ∈ ts_joined s /\ ts_pcs s !! 2 = Some TRun /\ tl_mem (ts_list s) !! 2 = None /\
    deref (ts_list s) 2 = CUndef.
Proof.
  exists (mkSys (list_of (join_leave (ts_list ex_spurious) 2)) (<[1 := TRun]> (ts_pcs ex_spurious)) [(2, 0)]).
  split; [|split; [apply list_elem_of_here|split; [|split]; vm_compute; reflexivity]].
  eapply reach_step; [|eapply (t_join_leave 1 true ex_spurious 1 2 0); [reflexivity|vm_compute; reflexivity]].
  eapply reach_step; [|eapply (t_spurious 1 true ex_joining 1 2); reflexivity].
  apply ex_joining_reachable.
Qed.

(** A joiner that arrives after the exit, before the joiners that were woken have
    left, waits for a broadcast that has already been made. *)
Lemma late_joiner_waits :
  exists s, reachable (tinit 1) (tstep 1 false) s /\ ts_pcs s !! 2 = Some (TDead 7) /\ ts_pcs s !! 3 = Some (TJoining 2 false).
Proof.
  set (c3 := mkSys (list_of (pthread_create (ts_list ex_created) None (Some 3) (fun _ _ => Some 0x20000000) (inl 3)))
               (<[3 := TRun]> (ts_pcs ex_created)) []).
  set (j1 := mkSys (list_of (join_enter (ts_list c3) 2)) (<[1 := TJoining 2 false]> (ts_pcs c3)) []).
  set (e1 := mkSys (ts_list j1) (<[2 := TExitFlags 7]> (ts_pcs j1)) []).
  set (e2 := mkSys (ts_list j1) (<[2 := TExitJoinable 7]> (ts_pcs e1)) []).
  set (e3 := mkSys (list_of (exit_joinable (ts_list e2) 2 7)) (<[2 := TDead 7]> (wake_joiner 2 <$> ts_pcs e2)) []).
  exists (mkSys (list_of (join_enter (ts_list e3) 2)) (<[3 := TJoining 2 false]> (ts_pcs e3)) []).
  split; [|split; reflexivity].
  eapply reach_step; [|eapply (t_join_wait 1 false e3 3 2); [reflexivity|done|vm_compute; reflexivity]].
  eapply reach_step; [|eapply (t_exit_joinable 1 false e2 2 7 true); [reflexivity|vm_compute; reflexivity]].
  eapply reach_step; [|eapply (t_flags_joinable 1 false e1 2 7); [reflexivity|vm_compute; reflexivity|reflexivity]].
  eapply reach_step; [|eapply (t_exit 1 false j1 2 7); reflexivity].
  eapply reach_step; [|eapply (t_join_wait 1 false c3 1 2); [reflexivity|done|vm_compute; reflexivity]].
  eapply reach_step; [|eapply (t_create 1 false ex_created 1 3 None (fun _ _ => Some 0x20000000) 3);
    [reflexivity|reflexivity|vm_compute; reflexivity]].
  eapply reach_step;
    [|eapply (t_create 1 false ex_init 1 2 None (fun _ _ => Some 0x10000000) 2); [reflexivity|reflexivity|vm_compute; reflexivity]].
  apply reach_init. exists gDefaultPthreadAttr, (ts_list ex_init). split; [reflexivity|]. split; [vm_compute; reflexivity|done].
Qed.
