(* ===== verification/Tls.v ===== *)
(** * Thread-specific data: the TLS keys of libc/bionic/pthread.c

    A global bitmap of allocated keys with their destructors ([tlsmap]), and an
    array of BIONIC_TLS_SLOTS values per thread.  Every operation that changes
    them runs under _tlsmap_lock, so a run of the program is a sequence of
    operations by its threads; pthread_key_clean_all releases the lock around a
    destructor, and any operations of any thread may happen meanwhile. *)

From Stdlib Require Import ZArith Lia.
From stdpp Require Import base gmap list numbers.
From S2P Require Import Prelude Futex.

Open Scope Z_scope.
Local Open Scope cint_scope.

(** ** The map of keys *)

Definition BIONIC_TLS_SLOTS : Z := 64.
Definition TLS_SLOT_SELF : Z := 0.
Definition TLS_SLOT_THREAD_ID : Z := 1.
Definition TLS_SLOT_ERRNO : Z := 2.
Definition TLS_SLOT_MAX_WELL_KNOWN : Z := TLS_SLOT_ERRNO.
Definition TLS_DEFAULT_ALLOC_MAP : Z := 0x0000001F.
Definition TLSMAP_START : Z := TLS_SLOT_MAX_WELL_KNOWN + 1.
Definition TLSMAP_SIZE : Z := BIONIC_TLS_SLOTS.
Definition TLSMAP_BITS : Z := 32.
Definition TLSMAP_MASK (k : Z) : Z := u32 (Z.shiftl 1 (k .& (TLSMAP_BITS - 1))).
Definition TLSMAP_VALIDATE_KEY (key : Z) : bool := (TLSMAP_START <=? key) && (key <? TLSMAP_SIZE).

Record tlsmap := mkTlsmap { tinit : Z; map_words : list Z; dtors : list Z }.

(** m->map[(k)/TLSMAP_BITS] *)
Definition word_index (k : Z) : nat := Z.to_nat (k / TLSMAP_BITS).
Definition TLSMAP_WORD (m : tlsmap) (k : Z) : Z := nth (word_index k) (map_words m) 0.

Definition tlsmap_lock (m : tlsmap) : tlsmap :=
  if tinit m =? 0
  then mkTlsmap 1 (<[word_index 0 := TLS_DEFAULT_ALLOC_MAP]> (map_words m)) (dtors m)
  else m.

Definition tlsmap_test (m : tlsmap) (key : Z) : bool :=
  negb (TLSMAP_WORD m key .& TLSMAP_MASK key =? 0).

Definition tlsmap_set (m : tlsmap) (key dtor : Z) : tlsmap :=
  mkTlsmap (tinit m)
    (<[word_index key := TLSMAP_WORD m key .| TLSMAP_MASK key]> (map_words m))
    (<[Z.to_nat key := dtor]> (dtors m)).

Definition tlsmap_clear (m : tlsmap) (key : Z) : tlsmap :=
  mkTlsmap (tinit m)
    (<[word_index key := TLSMAP_WORD m key .& u32 (Z.lnot (TLSMAP_MASK key))]> (map_words m))
    (<[Z.to_nat key := 0]> (dtors m)).

(** The loop of tlsmap_alloc from [key] on; [n] keys are left. *)
Fixpoint tlsmap_alloc_from (n : nat) (key : Z) (m : tlsmap) (dtor : Z) : Z * tlsmap :=
  match n with
  | O => (-1, m)
  | S n' =>
      if negb (tlsmap_test m key) then (key, tlsmap_set m key dtor)
      else tlsmap_alloc_from n' (key + 1) m dtor
  end.

Definition tlsmap_alloc (m : tlsmap) (dtor : Z) : Z * tlsmap :=
  tlsmap_alloc_from (Z.to_nat (TLSMAP_SIZE - TLSMAP_START)) TLSMAP_START m dtor.

(** ** Threads and operations *)

(** The fields of pthread_internal_t the keys use; [tls] is NULL until the
    thread has run __init_tls. *)
Record trec := mkTrec { join_count : Z; tls : option (list Z) }.

(** The map and gThreadList, by thread. *)
Record tls_state := mkTls { tmap : tlsmap; tthreads : gmap nat trec }.

(** __init_tls: [self] is the address of the area, [thr] the descriptor. *)
Definition init_tls (self thr : Z) (area : list Z) : list Z :=
  <[Z.to_nat TLS_SLOT_SELF := self]> (<[Z.to_nat TLS_SLOT_THREAD_ID := thr]>
    (take (Z.to_nat TLS_SLOT_ERRNO) area
     ++ replicate (Z.to_nat (BIONIC_TLS_SLOTS - TLS_SLOT_ERRNO)) 0)).

Definition pthread_key_create (s : tls_state) (dtor : Z) : Z * option Z * tls_state :=
  let '(k, m) := tlsmap_alloc (tlsmap_lock (tmap s)) dtor in
  if 0 <=? k then (0, Some k, mkTls m (tthreads s)) else (ENOMEM, None, mkTls m (tthreads s)).

(** The value of [key] is cleared in a thread that is not a zombie. *)
Definition clear_slot (key : Z) (thr : trec) : trec :=
  if join_count thr <? 0 then thr
  else match tls thr with
       | None => thr
       | Some area => mkTrec (join_count thr) (Some (<[Z.to_nat key := 0]> area))
       end.

Definition pthread_key_delete (s : tls_state) (key : Z) : Z * tls_state :=
  if negb (TLSMAP_VALIDATE_KEY key) then (EINVAL, s)
  else
    let m := tlsmap_lock (tmap s) in
    if negb (tlsmap_test m key) then (EINVAL, mkTls m (tthreads s))
    else (0, mkTls (tlsmap_clear m key) (clear_slot key <$> tthreads s)).

(** A write to the TLS area of thread [t]. *)
Definition set_slot (t : nat) (key v : Z) (ts : gmap nat trec) : gmap nat trec :=
  alter (fun thr => mkTrec (join_count thr) (fmap (<[Z.to_nat key := v]>) (tls thr))) t ts.

Definition pthread_setspecific (t : nat) (s : tls_state) (key ptr : Z) : Z * tls_state :=
  if TLSMAP_VALIDATE_KEY key then
    let m := tlsmap_lock (tmap s) in
    if tlsmap_test m key then (0, mkTls m (set_slot t key (u32 ptr) (tthreads s)))
    else (EINVAL, mkTls m (tthreads s))
  else (EINVAL, s).

(** The value read, 0 for a key out of range; [None] when the thread has no
    TLS area. *)
Definition slot (t : nat) (s : tls_state) (key : Z) : option Z :=
  thr ← tthreads s !! t; area ← tls thr; area !! Z.to_nat key.

Definition pthread_getspecific (t : nat) (s : tls_state) (key : Z) : option Z :=
  if negb (TLSMAP_VALIDATE_KEY key) then Some 0 else slot t s key.

(** What a thread may do between two steps of pthread_key_clean_all of another
    one, and what a destructor may do. *)
Inductive tls_op : Type :=
| OpKeyCreate (dtor : Z)
| OpKeyDelete (key : Z)
| OpSetSpecific (t : nat) (key ptr : Z)
| OpSpawn (t : nat)                         (* _init_thread: a new descriptor *)
| OpStart (t : nat) (self thr : Z) (area : list Z)  (* __thread_entry: __init_tls on the stack's area *)
| OpZombie (t : nat)                        (* pthread_exit of a joinable thread *)
| OpRemove (t : nat).                       (* the descriptor is freed *)

Definition run_op (s : tls_state) (op : tls_op) : tls_state :=
  match op with
  | OpKeyCreate dtor => (pthread_key_create s dtor).2
  | OpKeyDelete key => (pthread_key_delete s key).2
  | OpSetSpecific t key ptr => (pthread_setspecific t s key ptr).2
  | OpSpawn t =>
      match tthreads s !! t with
      | None => mkTls (tmap s) (<[t := mkTrec 0 None]> (tthreads s))
      | Some _ => s
      end
  | OpStart t self thr area =>
      match tthreads s !! t with
      | Some (mkTrec j None) =>
          if Z.of_nat (length area) =? BIONIC_TLS_SLOTS
          then mkTls (tmap s) (<[t := mkTrec j (Some (init_tls self thr area))]> (tthreads s))
          else s
      | _ => s
      end
  | OpZombie t => mkTls (tmap s) (alter (fun thr => mkTrec (-1) (tls thr)) t (tthreads s))
  | OpRemove t => mkTls (tmap s) (delete t (tthreads s))
  end.

(** ** pthread_key_clean_all *)

Section CleanAll.
(** What happens while the destructor [dtor] runs on [data]. *)
Context (during : Z -> Z -> list tls_op).
(** The thread that exits. *)
Context (t : nat).

(** The body of the loop over the keys: the new state, and the call made. *)
Definition clean_key (s : tls_state) (kk : Z) : tls_state * option (Z * Z) :=
  if tlsmap_test (tmap s) kk then
    let data := default 0 (slot t s kk) in
    let dtor := nth (Z.to_nat kk) (dtors (tmap s)) 0 in
    if truthy data && truthy dtor then
      let s1 := mkTls (tmap s) (set_slot t kk 0 (tthreads s)) in
      let s2 := fold_left run_op (during dtor data) s1 in
      (mkTls (tlsmap_lock (tmap s2)) (tthreads s2), Some (dtor, data))
    else (s, None)
  else (s, None).

(** The calls of one round, for the [n] keys from [kk] on. *)
Fixpoint clean_round (n : nat) (kk : Z) (s : tls_state) : tls_state * list (Z * Z) :=
  match n with
  | O => (s, [])
  | S n' =>
      let '(s1, c) := clean_key s kk in
      let '(s2, cs) := clean_round n' (kk + 1) s1 in
      (s2, option_list c ++ cs)
  end.

Definition PTHREAD_DESTRUCTOR_ITERATIONS : nat := 4.

Fixpoint clean_rounds (rounds : nat) (s : tls_state) : tls_state * list (Z * Z) :=
  match rounds with
  | O => (s, [])
  | S r =>
      let '(s1, cs) := clean_round (Z.to_nat (TLSMAP_SIZE - TLSMAP_START)) TLSMAP_START s in
      match cs with
      | [] => (s1, [])
      | _ => let '(s2, cs') := clean_rounds r s1 in (s2, cs ++ cs')
      end
  end.

Definition pthread_key_clean_all (s : tls_state) : tls_state * list (Z * Z) :=
  clean_rounds PTHREAD_DESTRUCTOR_ITERATIONS (mkTls (tlsmap_lock (tmap s)) (tthreads s)).
End CleanAll.

(** ** The bitmap *)

Record map_wf (m : tlsmap) : Prop := {
  mw_words : length (map_words m) = 2%nat;
  mw_dtors : length (dtors m) = 64%nat
}.

Definition valid_key (k : Z) : Prop := 3 <= k < 64.

Lemma validate_key k : TLSMAP_VALIDATE_KEY k = true <-> valid_key k.
Proof.
  unfold TLSMAP_VALIDATE_KEY, valid_key. change TLSMAP_START with 3. change TLSMAP_SIZE with 64.
  rewrite andb_true_iff, Z.leb_le, Z.ltb_lt. done.
Qed.

Lemma mask_bit k : 0 <= k -> TLSMAP_MASK k = Z.shiftl 1 (k mod 32).
Proof.
  intros Hk. unfold TLSMAP_MASK. change (TLSMAP_BITS - 1) with (Z.ones 5).
  rewrite Z.land_ones by lia. change (2 ^ 5) with 32.
  pose proof (Z.mod_pos_bound k 32). rewrite Z.shiftl_1_l. apply u32_small.
  split; [apply Z.pow_nonneg; lia | apply Z.pow_lt_mono_r; lia].
Qed.

Lemma tlsmap_test_bit m k : 0 <= k -> tlsmap_test m k = Z.testbit (TLSMAP_WORD m k) (k mod 32).
Proof.
  intros Hk. unfold tlsmap_test. pose proof (Z.mod_pos_bound k 32).
  rewrite mask_bit, land_bit by lia. destruct (Z.testbit _ _); [|done].
  bcase; [|done]. pose proof (Z.pow_pos_nonneg 2 (k mod 32)). lia.
Qed.

Lemma word_index_lt k : valid_key k -> (word_index k < 2)%nat.
Proof. unfold valid_key, word_index, TLSMAP_BITS. intros H. zdm. Qed.

Lemma nth_insert (l : list Z) i j x :
  (i < length l)%nat -> nth j (<[i := x]> l) 0 = if decide (j = i) then x else nth j l 0.
Proof.
  intros Hi. rewrite !nth_lookup. case_decide as E.
  - subst. by rewrite list_lookup_insert_eq.
  - by rewrite list_lookup_insert_ne.
Qed.

Lemma same_bit k k' : valid_key k -> valid_key k' ->
  word_index k' = word_index k -> k' mod 32 = k mod 32 -> k' = k.
Proof. unfold valid_key, word_index, TLSMAP_BITS. intros. zdm. Qed.

Lemma tlsmap_test_set m k d k' :
  map_wf m -> valid_key k -> valid_key k' ->
  tlsmap_test (tlsmap_set m k d) k' = if decide (k' = k) then true else tlsmap_test m k'.
Proof.
  intros Hm Hk Hk'. assert (0 <= k /\ 0 <= k') as [P P'] by (unfold valid_key in *; lia).
  rewrite !tlsmap_test_bit by done. unfold TLSMAP_WORD at 1. simpl.
  rewrite nth_insert by (rewrite (mw_words m Hm); by apply word_index_lt).
  pose proof (Z.mod_pos_bound k 32). pose proof (Z.mod_pos_bound k' 32).
  destruct (decide (word_index k' = word_index k)) as [E|E].
  - rewrite Z.lor_spec, mask_bit, Z.shiftl_1_l, Z.pow2_bits_eqb by lia.
    unfold TLSMAP_WORD. rewrite <- E.
    destruct (Z.eqb_spec (k mod 32) (k' mod 32)) as [E'|E'].
    + rewrite decide_True by (by apply same_bit). by rewrite orb_true_r.
    + rewrite decide_False by congruence. by rewrite orb_false_r.
  - rewrite decide_False by congruence. done.
Qed.

Lemma tlsmap_test_clear m k k' :
  map_wf m -> valid_key k -> valid_key k' ->
  tlsmap_test (tlsmap_clear m k) k' = if decide (k' = k) then false else tlsmap_test m k'.
Proof.
  intros Hm Hk Hk'. assert (0 <= k /\ 0 <= k') as [P P'] by (unfold valid_key in *; lia).
  rewrite !tlsmap_test_bit by done. unfold TLSMAP_WORD at 1. simpl.
  rewrite nth_insert by (rewrite (mw_words m Hm); by apply word_index_lt).
  pose proof (Z.mod_pos_bound k 32). pose proof (Z.mod_pos_bound k' 32).
  destruct (decide (word_index k' = word_index k)) as [E|E].
  - unfold u32. rewrite Z.land_spec, Z.mod_pow2_bits_low, Z.lnot_spec by lia.
    rewrite mask_bit, Z.shiftl_1_l, Z.pow2_bits_eqb by lia.
    unfold TLSMAP_WORD. rewrite <- E.
    destruct (Z.eqb_spec (k mod 32) (k' mod 32)) as [E'|E']; simpl.
    + rewrite decide_True by (by apply same_bit). by rewrite andb_false_r.
    + rewrite decide_False by congruence. by rewrite andb_true_r.
  - rewrite decide_False by congruence. done.
Qed.

Lemma tlsmap_lock_wf m : map_wf m -> map_wf (tlsmap_lock m).
Proof.
  intros [H1 H2]. unfold tlsmap_lock. bcase; [|done]. split; simpl; [by rewrite length_insert | done].
Qed.

Lemma tlsmap_set_wf m k d : map_wf m -> map_wf (tlsmap_set m k d).
Proof. intros [H1 H2]. split; simpl; by rewrite length_insert. Qed.

Lemma tlsmap_clear_wf m k : map_wf m -> map_wf (tlsmap_clear m k).
Proof. intros [H1 H2]. split; simpl; by rewrite length_insert. Qed.

(** The lock initialises the map once. *)
Lemma tlsmap_lock_lock m : tlsmap_lock (tlsmap_lock m) = tlsmap_lock m.
Proof. unfold tlsmap_lock at 2 3. bcase; [done|]. unfold tlsmap_lock. by rewrite (proj2 (Z.eqb_neq _ _)). Qed.

Lemma tlsmap_lock_set m k d : tlsmap_lock (tlsmap_set (tlsmap_lock m) k d) = tlsmap_set (tlsmap_lock m) k d.
Proof.
  unfold tlsmap_lock at 1. simpl. rewrite (proj2 (Z.eqb_neq _ _)); [done|].
  unfold tlsmap_lock. by bcase.
Qed.

Lemma tlsmap_lock_clear m k : tlsmap_lock (tlsmap_clear (tlsmap_lock m) k) = tlsmap_clear (tlsmap_lock m) k.
Proof.
  unfold tlsmap_lock at 1. simpl. rewrite (proj2 (Z.eqb_neq _ _)); [done|].
  unfold tlsmap_lock. by bcase.
Qed.

(** tlsmap_alloc takes the first free key. *)
Lemma tlsmap_alloc_from_spec n key m d k m' :
  tlsmap_alloc_from n key m d = (k, m') ->
  (key <= k < key + Z.of_nat n /\ tlsmap_test m k = false /\ m' = tlsmap_set m k d /\
   forall j, key <= j < k -> tlsmap_test m j = true) \/
  (k = -1 /\ m' = m /\ forall j, key <= j < key + Z.of_nat n -> tlsmap_test m j = true).
Proof.
  revert key. induction n as [|n IH]; intros key; simpl.
  - intros [= <- <-]. right. split_and!; [done|done|]. intros j Hj. lia.
  - destruct (tlsmap_test m key) eqn:E; simpl.
    + intros [(H1 & H2 & H3 & H4)|(H1 & H2 & H3)]%IH; [left|right]; split_and!; try (done || lia).
      * intros j Hj. destruct (Z.eq_dec j key) as [->|]; [done|]. apply H4. lia.
      * intros j Hj. destruct (Z.eq_dec j key) as [->|]; [done|]. apply H3. lia.
    + intros [= <- <-]. left. split_and!; try (done || lia).
Qed.

(** ** Values of keys that are not allocated *)

Definition key_allocated (s : tls_state) (k : Z) : bool := tlsmap_test (tlsmap_lock (tmap s)) k.

(** The TLS areas the key operations look at. *)
Definition live_area (s : tls_state) (t : nat) (area : list Z) : Prop :=
  exists thr, tthreads s !! t = Some thr /\ 0 <= join_count thr /\ tls thr = Some area.

Record tls_ok (s : tls_state) : Prop := {
  to_map : map_wf (tmap s);
  to_len : forall t thr area, tthreads s !! t = Some thr -> tls thr = Some area ->
    length area = 64%nat;
  to_null : forall t area k, live_area s t area -> valid_key k -> key_allocated s k = false ->
    area !! Z.to_nat k = Some 0
}.

(** Each change of the threads or of the map keeps the invariant. *)

Lemma key_index k : valid_key k -> (Z.to_nat k < 64)%nat.
Proof. unfold valid_key. lia. Qed.

Lemma tls_ok_lock s : tls_ok s -> tls_ok (mkTls (tlsmap_lock (tmap s)) (tthreads s)).
Proof.
  intros [H1 H2 H3]. split; simpl; [by apply tlsmap_lock_wf|done|].
  intros t area k Ha Hk. unfold key_allocated. simpl. rewrite tlsmap_lock_lock. by apply (H3 t).
Qed.

(** More keys allocated. *)
Lemma tls_ok_create s d k :
  tls_ok s -> valid_key k -> tls_ok (mkTls (tlsmap_set (tlsmap_lock (tmap s)) k d) (tthreads s)).
Proof.
  intros [H1 H2 H3] Hk. split; simpl; [by apply tlsmap_set_wf, tlsmap_lock_wf|done|].
  intros t area k' Ha Hk'. unfold key_allocated. simpl.
  rewrite tlsmap_lock_set, tlsmap_test_set by (try apply tlsmap_lock_wf; done).
  case_decide; [done|]. by apply (H3 t).
Qed.

Lemma tls_ok_delete s k :
  tls_ok s -> valid_key k ->
  tls_ok (mkTls (tlsmap_clear (tlsmap_lock (tmap s)) k) (clear_slot k <$> tthreads s)).
Proof.
  intros [H1 H2 H3] Hk. split; simpl; [by apply tlsmap_clear_wf, tlsmap_lock_wf| |].
  - intros t thr area E Ha. rewrite lookup_fmap in E.
    destruct (tthreads s !! t) as [thr0|] eqn:Et; [|done]. simpl in E. injection E as <-.
    revert Ha. unfold clear_slot. bcase; [by apply (H2 t)|].
    destruct (tls thr0) as [a0|] eqn:Ea; [|congruence]. simpl. intros [= <-].
    rewrite length_insert. by eapply H2.
  - intros t area k' (thr & E & Hj & Ha) Hk'. simpl in E. rewrite lookup_fmap in E.
    destruct (tthreads s !! t) as [thr0|] eqn:Et; [|done]. simpl in E. injection E as <-.
    unfold key_allocated. simpl.
    rewrite tlsmap_lock_clear, tlsmap_test_clear by (try apply tlsmap_lock_wf; done).
    revert Hj Ha. unfold clear_slot. bcase; [lia|].
    destruct (tls thr0) as [a0|] eqn:Ea; [|congruence]. simpl. intros Hj [= <-] Hn.
    case_decide as E'.
    + subst. rewrite list_lookup_insert_eq; [done|].
      rewrite (H2 t thr0 a0) by done. by apply key_index.
    + rewrite list_lookup_insert_ne by (unfold valid_key in *; lia).
      apply (H3 t); [by exists thr0|done|done].
Qed.

(** A slot of an allocated key may hold anything. *)
Lemma tls_ok_set_slot s t k v :
  tls_ok s -> valid_key k -> key_allocated s k = true \/ v = 0 ->
  tls_ok (mkTls (tmap s) (set_slot t k v (tthreads s))).
Proof.
  intros [H1 H2 H3] Hk Hv. unfold set_slot. split; simpl; [done| |].
  - intros t' thr area E Ha. rewrite lookup_alter_Some in E.
    destruct E as [(-> & thr0 & E & ->)|[_ E]]; [|by eapply H2].
    simpl in Ha. destruct (tls thr0) as [a0|] eqn:Ea; [|done]. injection Ha as <-.
    rewrite length_insert. by eapply H2.
  - intros t' area k' (thr & E & Hj & Ha) Hk' Hn. simpl in E. rewrite lookup_alter_Some in E.
    destruct E as [(-> & thr0 & E & ->)|[_ E]]; [|by apply (H3 t'); [exists thr|..]].
    simpl in Hj, Ha. destruct (tls thr0) as [a0|] eqn:Ea; [|done]. injection Ha as <-.
    assert (H0 : a0 !! Z.to_nat k' = Some 0) by (apply (H3 t'); [by exists thr0|done|done]).
    destruct (decide (k' = k)) as [->|Hne].
    + destruct Hv as [Hv| ->]; [unfold key_allocated in *; simpl in *; congruence|].
      apply list_lookup_insert_eq. rewrite (H2 t' thr0 a0) by done. by apply key_index.
    + rewrite list_lookup_insert_ne by (unfold valid_key in *; lia). done.
Qed.

(** The threads come and go. *)
Lemma init_tls_null self thr area k :
  length area = 64%nat -> valid_key k ->
  length (init_tls self thr area) = 64%nat /\ init_tls self thr area !! Z.to_nat k = Some 0.
Proof.
  intros Hl Hk. unfold init_tls, TLS_SLOT_SELF, TLS_SLOT_THREAD_ID, TLS_SLOT_ERRNO, BIONIC_TLS_SLOTS.
  split.
  - rewrite !length_insert, length_app, length_take, length_replicate. lia.
  - rewrite !list_lookup_insert_ne by (unfold valid_key in Hk; lia).
    rewrite lookup_app_r; rewrite length_take; [|unfold valid_key in Hk; lia].
    apply lookup_replicate. unfold valid_key in Hk. split; [done|lia].
Qed.

Lemma tls_ok_thread s t thr :
  tls_ok s ->
  (forall area, tls thr = Some area -> length area = 64%nat /\
    forall k, valid_key k -> area !! Z.to_nat k = Some 0) ->
  tls_ok (mkTls (tmap s) (<[t := thr]> (tthreads s))).
Proof.
  intros [H1 H2 H3] Hthr. split; simpl; [done| |].
  - intros t' thr' area E Ha. rewrite lookup_insert_Some in E.
    destruct E as [[-> ->]|[_ E]]; [by apply Hthr | by eapply H2].
  - intros t' area k (thr' & E & Hj & Ha) Hk Hn. simpl in E. rewrite lookup_insert_Some in E.
    destruct E as [[-> ->]|[_ E]]; [by apply Hthr | by apply (H3 t'); [exists thr'|..]].
Qed.

Lemma tls_ok_run_op s op : tls_ok s -> tls_ok (run_op s op).
Proof.
  intros Hs. destruct op as [d|key|t key ptr|t|t self thr area|t|t]; simpl.
  - unfold pthread_key_create, tlsmap_alloc. destruct (tlsmap_alloc_from _ _ _ _) as [k m] eqn:E.
    apply tlsmap_alloc_from_spec in E as [(Hk & _ & -> & _)|(-> & -> & _)].
    + change (Z.of_nat (Z.to_nat (TLSMAP_SIZE - TLSMAP_START))) with 61 in Hk.
      change TLSMAP_START with 3 in Hk. zif. apply tls_ok_create; [done|]. unfold valid_key. lia.
    + simpl. by apply tls_ok_lock.
  - unfold pthread_key_delete. destruct (TLSMAP_VALIDATE_KEY key) eqn:E; [|done].
    apply validate_key in E. simpl. destruct (tlsmap_test _ key); simpl.
    + by apply tls_ok_delete.
    + by apply tls_ok_lock.
  - unfold pthread_setspecific. destruct (TLSMAP_VALIDATE_KEY key) eqn:E; [|done].
    apply validate_key in E. destruct (tlsmap_test _ key) eqn:Ek; simpl; [|by apply tls_ok_lock].
    apply (tls_ok_set_slot (mkTls (tlsmap_lock (tmap s)) (tthreads s))); [by apply tls_ok_lock|done|].
    left. unfold key_allocated. simpl. by rewrite tlsmap_lock_lock.
  - destruct (tthreads s !! t); [done|]. by apply tls_ok_thread.
  - destruct (tthreads s !! t) as [[j [a|]]|]; try done. bcase; [|done].
    apply tls_ok_thread; [done|]. simpl. intros a [= <-].
    assert (length area = 64%nat) by (change BIONIC_TLS_SLOTS with 64 in *; lia).
    split; [by apply (init_tls_null self thr area 3) | intros; by apply init_tls_null].
  - destruct Hs as [H1 H2 H3]. split; simpl; [done| |].
    + intros t' thr area E Ha. rewrite lookup_alter_Some in E.
      destruct E as [(-> & thr0 & E & ->)|[_ E]]; by eapply H2.
    + intros t' area k (thr' & E & Hj & Ha) Hk Hn. simpl in E. rewrite lookup_alter_Some in E.
      destruct E as [(-> & thr0 & E & ->)|[_ E]]; [simpl in Hj; lia|]. by apply (H3 t'); [exists thr'|..].
  - destruct Hs as [H1 H2 H3]. split; simpl; [done| |].
    + intros t' thr area E Ha. rewrite lookup_delete_Some in E. destruct E. by eapply H2.
    + intros t' area k (thr' & E & Hj & Ha) Hk Hn. simpl in E. rewrite lookup_delete_Some in E.
      destruct E. by apply (H3 t'); [exists thr'|..].
Qed.

(** pthread_key_clean_all keeps the invariant whatever the destructors do. *)
Section CleanOk.
Context (during : Z -> Z -> list tls_op) (t : nat).

Lemma tls_ok_run_ops s ops : tls_ok s -> tls_ok (fold_left run_op ops s).
Proof. revert s. induction ops as [|op ops IH]; intros s Hs; simpl; [done|]. by apply IH, tls_ok_run_op. Qed.

Lemma tls_ok_clean_key s kk : valid_key kk -> tls_ok s -> tls_ok (clean_key during t s kk).1.
Proof.
  intros Hk Hs. unfold clean_key. destruct (tlsmap_test _ _); [|done].
  destruct (_ && _)%bool; [|done]. simpl. apply tls_ok_lock, tls_ok_run_ops.
  apply tls_ok_set_slot; auto.
Qed.

Lemma tls_ok_clean_round n kk s :
  3 <= kk -> kk + Z.of_nat n <= 64 -> tls_ok s -> tls_ok (clean_round during t n kk s).1.
Proof.
  revert kk s. induction n as [|n IH]; intros kk s H1 H2 Hs; simpl; [done|].
  pose proof (tls_ok_clean_key s kk ltac:(unfold valid_key; lia) Hs) as Hs1.
  destruct (clean_key during t s kk) as [s1 c]. simpl in Hs1.
  specialize (IH (kk + 1) s1 ltac:(lia) ltac:(lia) Hs1).
  by destruct (clean_round during t n (kk + 1) s1).
Qed.

Lemma tls_ok_clean_rounds r s : tls_ok s -> tls_ok (clean_rounds during t r s).1.
Proof.
  revert s. induction r as [|r IH]; intros s Hs; cbn [clean_rounds]; [done|].
  pose proof (tls_ok_clean_round (Z.to_nat (TLSMAP_SIZE - TLSMAP_START)) TLSMAP_START s
    ltac:(by vm_compute) ltac:(by vm_compute) Hs) as Hs1.
  destruct (clean_round _ _ _ _ _) as [s1 [|c cs]]; simpl in *; [done|]. specialize (IH s1 Hs1).
  by destruct (clean_rounds during t r s1).
Qed.

Lemma tls_ok_clean_all s : tls_ok s -> tls_ok (pthread_key_clean_all during t s).1.
Proof. intros Hs. by apply tls_ok_clean_rounds, tls_ok_lock. Qed.
End CleanOk.

(** ** Reachable states *)

(** Before the first call: an empty map, and the main thread. *)
Definition tls_initial (s : tls_state) : Prop :=
  tmap s = mkTlsmap 0 (replicate 2 0) (replicate 64 0) /\ tthreads s = ∅.

Inductive tls_step : tls_state -> tls_state -> Prop :=
| tls_step_op s op : tls_step s (run_op s op)
| tls_step_clean s during t : tls_step s (pthread_key_clean_all during t s).1.

Lemma tls_invariant s : reachable tls_initial tls_step s -> tls_ok s.
Proof.
  apply (reachable_invariant _ _ tls_ok).
  - intros s0 [E1 E2]. split; rewrite ?E1, ?E2; [done|done|].
    intros t area k (thr & E & _). by rewrite E2 in E.
  - intros s1 s2 Hs Hstep. destruct Hstep; [by apply tls_ok_run_op | by apply tls_ok_clean_all].
Qed.

Lemma getspecific_null s t area key :
  tls_ok s -> live_area s t area -> key_allocated s key = false ->
  pthread_getspecific t s key = Some 0.
Proof.
  intros Hs Ha Hk. unfold pthread_getspecific.
  destruct (TLSMAP_VALIDATE_KEY key) eqn:E; simpl; [|done]. apply validate_key in E.
  pose proof (to_null s Hs t area key Ha E Hk) as H. destruct Ha as (thr & Et & _ & Ha).
  unfold slot. rewrite Et. simpl. by rewrite Ha.
Qed.

Lemma key_create_spec s dtor :
  tls_ok s ->
  (exists k, pthread_key_create s dtor =
      (0, Some k, mkTls (tlsmap_set (tlsmap_lock (tmap s)) k dtor) (tthreads s)) /\
     valid_key k /\ key_allocated s k = false /\
     forall j, valid_key j -> j < k -> key_allocated s j = true) \/
  (pthread_key_create s dtor = (ENOMEM, None, mkTls (tlsmap_lock (tmap s)) (tthreads s)) /\
   forall j, valid_key j -> key_allocated s j = true).
Proof.
  intros Hs. unfold pthread_key_create, tlsmap_alloc.
  destruct (tlsmap_alloc_from _ _ _ _) as [k m] eqn:E. apply tlsmap_alloc_from_spec in E.
  change (Z.of_nat (Z.to_nat (TLSMAP_SIZE - TLSMAP_START))) with 61 in E.
  change TLSMAP_START with 3 in E. unfold valid_key.
  destruct E as [(Hk & Hf & -> & Hlt)|(-> & -> & Hall)].
  - left. exists k. zif. split_and!; try (done || lia). intros j Hj Hjk. apply Hlt. lia.
  - right. split; [done|]. intros j Hj. apply Hall. lia.
Qed.

(** C7: thread-specific data never leaks from one key to the next: in every
    state the operations reach, pthread_getspecific reads NULL in each live
    thread for a key that is not allocated (which is why it need not take the
    lock); pthread_key_create hands out the first free key of the valid range,
    whose value is therefore NULL in every thread, keeps the other keys, and
    fails with ENOMEM exactly when all keys are taken. *)
Theorem tls_fresh_keys_null (s : tls_state) (dtor : Z) :
  reachable tls_initial tls_step s ->
  (forall t area key, live_area s t area -> key_allocated s key = false ->
     pthread_getspecific t s key = Some 0) /\
  match pthread_key_create s dtor with
  | (err, Some k, s') =>
      err = 0 /\ valid_key k /\ key_allocated s k = false /\
      (forall j, valid_key j -> j < k -> key_allocated s j = true) /\
      (forall j, valid_key j ->
         key_allocated s' j = if decide (j = k) then true else key_allocated s j) /\
      (forall t area, live_area s' t area -> pthread_getspecific t s' k = Some 0)
  | (err, None, s') =>
      err = ENOMEM /\ (forall j, valid_key j -> key_allocated s j = true)
  end.
Proof.
  intros Hr. pose proof (tls_invariant s Hr) as Hs. split.
  - intros t area key Ha Hk. by eapply getspecific_null.
  - destruct (pthread_key_create s dtor) as [[err [k|]] s'] eqn:E.
    + pose proof (tls_ok_run_op s (OpKeyCreate dtor) Hs) as Hs'. simpl in Hs'. rewrite E in Hs'.
      destruct (key_create_spec s dtor Hs) as [(k' & E' & Hk & Hf & Hlt)|(E' & _)]; [|congruence].
      rewrite E in E'. injection E' as -> -> ->. split_and!; try done.
      * intros j Hj. unfold key_allocated. simpl.
        rewrite tlsmap_lock_set, tlsmap_test_set; [done|apply tlsmap_lock_wf, Hs|done|done].
      * intros t area (thr & Et & Hj & Ha). unfold pthread_getspecific.
        rewrite (proj2 (validate_key k') Hk). simpl. unfold slot. simpl in Et |- *. rewrite Et. simpl.
        rewrite Ha. simpl. apply (to_null s Hs t); [by exists thr|done|done].
    + destruct (key_create_spec s dtor Hs) as [(k' & E' & _)|(E' & Hall)]; [congruence|].
      rewrite E in E'. injection E' as -> ->. done.
Qed.

(** Two threads; the key 5 is created and used, deleted, and key 5 and 6 are
    created again. *)
Definition tls_ex0 : tls_state := mkTls (mkTlsmap 0 (replicate 2 0) (replicate 64 0)) ∅.
Definition tls_ex_ops : list tls_op :=
  [OpSpawn 0; OpStart 0 4096 8192 (replicate 64 7); OpSpawn 1; OpKeyCreate 100;
   OpSetSpecific 0 5 42; OpStart 1 12288 16384 (replicate 64 7); OpSetSpecific 1 5 43;
   OpKeyDelete 5; OpKeyCreate 101; OpKeyCreate 102; OpSetSpecific 0 6 44; OpSetSpecific 0 5 45].
Definition tls_ex : tls_state := fold_left run_op tls_ex_ops tls_ex0.

Lemma tls_ops_reachable s ops :
  reachable tls_initial tls_step s -> reachable tls_initial tls_step (fold_left run_op ops s).
Proof.
  revert s. induction ops as [|op ops IH]; intros s Hs; simpl; [done|].
  apply IH. eapply reach_step; [done|]. apply tls_step_op.
Qed.

Lemma tls_ex_reachable : reachable tls_initial tls_step tls_ex.
Proof. apply tls_ops_reachable. by apply reach_init. Qed.

Definition area_of (t : nat) (s : tls_state) : option (list Z) :=
  thr ← tthreads s !! t; if 0 <=? join_count thr then tls thr else None.

Lemma area_of_live t s area : area_of t s = Some area -> live_area s t area.
Proof.
  unfold area_of. destruct (tthreads s !! t) as [thr|] eqn:E; simpl; [|done].
  bcase; [|done]. intros Ha. by exists thr.
Qed.

Lemma tls_fresh_keys_null_witness :
  pthread_getspecific 1 tls_ex 5 = Some 0 /\ pthread_getspecific 0 tls_ex 5 = Some 45 /\
  pthread_getspecific 1 tls_ex 7 = Some 0.
Proof.
  split; [vm_compute; reflexivity|]. split; [vm_compute; reflexivity|].
  assert (Ha : is_Some (area_of 1 tls_ex)) by (vm_compute; eauto).
  destruct Ha as [area Ha%area_of_live].
  pose proof (tls_fresh_keys_null tls_ex 0 tls_ex_reachable) as Hn. destruct Hn as [Hn _].
  refine (Hn 1%nat area 7 Ha _). vm_compute. reflexivity.
Defined.

(** ** The destructor calls of an exiting thread *)

Section Exit.
(** Destructors that do not touch any thread-specific data. *)
Let quiet : Z -> Z -> list tls_op := fun _ _ => [].
Context (t : nat).

(** The call due for a key. *)
Definition due (s : tls_state) (k : Z) : option (Z * Z) :=
  let data := default 0 (slot t s k) in
  let dtor := nth (Z.to_nat k) (dtors (tmap s)) 0 in
  if tlsmap_test (tmap s) k && (truthy data && truthy dtor) then Some (dtor, data) else None.

(** [s'] is [s] with the slots of the keys in [K] that were due cleared. *)
Definition cleared (K : Z -> Prop) (s s' : tls_state) : Prop :=
  tmap s' = tmap s /\
  (forall t' k, t' <> t -> slot t' s' k = slot t' s k) /\
  (forall k, 0 <= k -> K k -> is_Some (due s k) -> slot t s' k = Some 0) /\
  (forall k, 0 <= k -> ~ (K k /\ is_Some (due s k)) -> slot t s' k = slot t s k).

Lemma slot_set_slot s k v t' k' :
  0 <= k -> 0 <= k' ->
  slot t' (mkTls (tmap s) (set_slot t k v (tthreads s))) k' =
  if decide (t' = t /\ k' = k) then fmap (fun _ => v) (slot t' s k') else slot t' s k'.
Proof.
  intros Hk Hk'. unfold slot, set_slot. simpl. rewrite lookup_alter.
  destruct (decide (t = t')) as [->|Hne].
  - destruct (tthreads s !! t') as [thr|]; simpl; [|by case_decide].
    destruct (tls thr) as [area|]; simpl; [|by case_decide].
    case_decide as E.
    + destruct E as [_ ->]. destruct (area !! Z.to_nat k) as [x|] eqn:E.
      * simpl. apply list_lookup_insert_eq. by eapply lookup_lt_Some.
      * simpl. rewrite list_insert_ge; [done|]. by apply lookup_ge_None.
    + rewrite list_lookup_insert_ne; [done|]. intros E'. apply E. split; [done|]. lia.
  - rewrite decide_False; [done|]. naive_solver.
Qed.

Lemma clean_key_quiet s kk :
  tlsmap_lock (tmap s) = tmap s ->
  clean_key quiet t s kk =
  (if due s kk then mkTls (tmap s) (set_slot t kk 0 (tthreads s)) else s, due s kk).
Proof.
  intros Hl. unfold clean_key, due. destruct (tlsmap_test _ _); simpl; [|done].
  destruct (_ && _)%bool; simpl; [|done]. by rewrite Hl.
Qed.

Lemma due_slot s s' k : tmap s' = tmap s -> slot t s' k = slot t s k -> due s' k = due s k.
Proof. intros E1 E2. unfold due. by rewrite E1, E2. Qed.

Lemma due_data s k : is_Some (due s k) -> is_Some (slot t s k).
Proof.
  unfold due. destruct (slot t s k); [done|]. simpl. rewrite andb_false_r. by intros [? ?].
Qed.

Lemma clean_key_cleared s kk :
  0 <= kk -> tlsmap_lock (tmap s) = tmap s ->
  cleared (eq kk) s (clean_key quiet t s kk).1.
Proof.
  intros Hk Hl. rewrite clean_key_quiet by done. simpl.
  destruct (due s kk) as [c|] eqn:E.
  - split_and!; [done| | |].
    + intros t' k Hne. unfold slot, set_slot. simpl. by rewrite lookup_alter_ne by done.
    + intros k Hk' <- _. rewrite slot_set_slot, decide_True by done.
      destruct (due_data s kk) as [x ->]; [by rewrite E|]. done.
    + intros k Hk' Hn. rewrite slot_set_slot by done. case_decide as E'; [|done].
      destruct E' as [_ ->]. exfalso. apply Hn. rewrite E. eauto.
  - split_and!; try done. intros k _ <- [x Hx]. congruence.
Qed.

Lemma clean_round_spec n kk s :
  0 <= kk -> tlsmap_lock (tmap s) = tmap s ->
  cleared (fun k => kk <= k < kk + Z.of_nat n) s (clean_round quiet t n kk s).1 /\
  (clean_round quiet t n kk s).2 = omap (due s) (seqZ kk (Z.of_nat n)).
Proof.
  revert kk s. induction n as [|n IH]; intros kk s Hk Hl; cbn [clean_round].
  - split; [|done]. split_and!; try done. intros k _ H. lia.
  - pose proof (clean_key_cleared s kk Hk Hl) as (A1 & A2 & A3 & A4).
    pose proof (clean_key_quiet s kk Hl) as E.
    destruct (clean_key quiet t s kk) as [s1 c] eqn:E1. simpl in *. injection E as _ ->.
    assert (Hd : forall k, 0 <= k -> k <> kk -> due s1 k = due s k).
    { intros k Hk' Hne. apply due_slot; [done|]. apply A4; [done|]. intros [<- _]. done. }
    destruct (IH (kk + 1) s1 ltac:(lia) ltac:(congruence)) as ((B1 & B2 & B3 & B4) & B5).
    destruct (clean_round quiet t n (kk + 1) s1) as [s2 cs]. simpl in *. split.
    + split_and!.
      * congruence.
      * intros t' k Hne. rewrite B2, A2; done.
      * intros k Hk' HK Hdue. destruct (decide (k = kk)) as [->|Hne].
        -- rewrite B4; [by apply A3|done|]. intros [? _]. lia.
        -- apply B3; [done|lia|]. by rewrite Hd.
      * intros k Hk' HK. destruct (decide (k = kk)) as [->|Hne].
        -- rewrite B4; [apply A4; [done|]; intros [_ ?]; apply HK; split; [lia|done]|done|].
           intros [? _]. lia.
        -- rewrite B4; [apply A4; [done|]; intros [<- _]; done|done|].
           rewrite Hd by done. intros [? ?]. apply HK. split; [lia|done].
    + rewrite seqZ_cons by lia. simpl. rewrite B5.
      replace (Z.pred (Z.of_nat (S n))) with (Z.of_nat n) by lia.
      replace (Z.succ kk) with (kk + 1) by lia.
      assert (omap (due s1) (seqZ (kk + 1) (Z.of_nat n)) = omap (due s) (seqZ (kk + 1) (Z.of_nat n))) as ->.
      { apply list_omap_ext, Forall2_same_length_lookup_2; [done|].
        intros i x y Hx Hy. rewrite Hx in Hy. injection Hy as ->.
        apply lookup_seqZ in Hx as [-> Hi]. apply Hd; lia. }
      by destruct (due s kk).
Qed.

(** After a round nothing is due, so the next round makes no call. *)
Lemma cleared_not_due K s s' k : 0 <= k -> K k -> cleared K s s' -> due s' k = None.
Proof.
  intros Hk HK (C1 & C2 & C3 & C4). destruct (due s k) as [c|] eqn:E.
  - unfold due. rewrite (C3 k) by (rewrite ?E; eauto). simpl. by rewrite andb_false_r.
  - rewrite (due_slot s s' k); [done|done|]. apply C4; [done|]. intros [_ [x Hx]]. congruence.
Qed.

Lemma omap_none {A B} (f : A -> option B) l : Forall (fun x => f x = None) l -> omap f l = [].
Proof. induction 1 as [|x l Hx _ IH]; simpl; [done|]. by rewrite Hx. Qed.

Lemma clean_round_idle n kk s :
  tlsmap_lock (tmap s) = tmap s -> (forall k, kk <= k < kk + Z.of_nat n -> due s k = None) ->
  clean_round quiet t n kk s = (s, []).
Proof.
  intros Hl. revert kk. induction n as [|n IH]; intros kk Hd; cbn [clean_round]; [done|].
  rewrite clean_key_quiet, Hd by (done || lia). rewrite IH; [done|].
  intros k Hk. apply Hd. lia.
Qed.

Lemma clean_rounds_spec r s :
  tlsmap_lock (tmap s) = tmap s ->
  cleared (fun k => 3 <= k < 64) s (clean_rounds quiet t (S (S r)) s).1 /\
  (clean_rounds quiet t (S (S r)) s).2 = omap (due s) (seqZ 3 61).
Proof.
  intros Hl. change (clean_rounds quiet t (S (S r)) s) with
    (let '(s1, cs) := clean_round quiet t 61 3 s in
     match cs with
     | [] => (s1, [])
     | _ => let '(s2, cs') := clean_rounds quiet t (S r) s1 in (s2, cs ++ cs')
     end).
  destruct (clean_round_spec 61 3 s ltac:(lia) Hl) as [C1 C2].
  destruct (clean_round quiet t 61 3 s) as [s1 cs]. cbn [fst snd] in C1, C2.
  change (3 + Z.of_nat 61) with 64 in C1. change (Z.of_nat 61) with 61 in C2.
  assert (E : clean_rounds quiet t (S r) s1 = (s1, [])).
  { change (clean_rounds quiet t (S r) s1) with
      (let '(s1, cs) := clean_round quiet t 61 3 s1 in
       match cs with
       | [] => (s1, [])
       | _ => let '(s2, cs') := clean_rounds quiet t r s1 in (s2, cs ++ cs')
       end).
    rewrite clean_round_idle; [done| |].
    - destruct C1 as (-> & _). done.
    - intros k Hk. change (3 + Z.of_nat 61) with 64 in Hk.
      by eapply cleared_not_due; [..|exact C1]; lia || done. }
  rewrite E. destruct cs; cbn [fst snd]; rewrite <- ?C2; [done|]. by rewrite app_nil_r.
Qed.
End Exit.

(** pthread_key_clean_all, with destructors that do not use thread-specific
    data themselves, calls the destructor of every allocated key that has one
    and whose value is not NULL in the exiting thread, exactly once, on that
    value and in the order of the keys; afterwards these values are NULL, and
    every other value of every thread is untouched. *)
Theorem key_clean_all_calls (t : nat) (s : tls_state) :
  let s0 := mkTls (tlsmap_lock (tmap s)) (tthreads s) in
  (pthread_key_clean_all (fun _ _ => []) t s).2 = omap (due t s0) (seqZ 3 61) /\
  cleared t valid_key s0 (pthread_key_clean_all (fun _ _ => []) t s).1.
Proof.
  intros s0. unfold pthread_key_clean_all, PTHREAD_DESTRUCTOR_ITERATIONS.
  destruct (clean_rounds_spec t 2 s0) as [H1 H2]; [apply tlsmap_lock_lock|].
  split; [exact H2 | exact H1].
Qed.

Example key_clean_all_example :
  (pthread_key_clean_all (fun _ _ => []) 0 tls_ex).2 = [(101, 45); (102, 44)].
Proof. vm_compute. reflexivity. Qed.
