(* ===== verification/Buddy.v ===== *)
(** * The linker's buddy allocator: linker/ba.c

    Libraries that are not prelinked are placed in a region of 256 units of
    LIBINC bytes that the linker manages as a binary buddy system: the entry of
    the first unit of a block holds whether the block is allocated and its
    order.  The entries of the other units are stale.  The abstract state is a
    binary tree. *)

From Stdlib Require Import ZArith Lia.
From stdpp Require Import base list numbers sorting.
From S2P Require Import Prelude.

Open Scope Z_scope.
Local Open Scope cint_scope.

(** ** The code *)

Record ba_bits := mkBits { allocated : Z; border : Z }.
Notation bitmap := (list ba_bits).

Definition LIBINC : Z := 0x00100000.
Definition BA_MIN_ALLOC : Z := LIBINC.
Definition BA_MAX_ORDER : Z := 128.
(** (LIBLAST - LIBBASE) / BA_MIN_ALLOC *)
Definition num_entries : Z := 0x10000000 / BA_MIN_ALLOC.

Definition BA_IS_FREE (b : ba_bits) : bool := negb (truthy (allocated b)).
Definition BA_BUDDY_INDEX (index : Z) (b : ba_bits) : Z := Z.lxor index (Z.shiftl 1 (border b)).
Definition BA_NEXT_INDEX (index : Z) (b : ba_bits) : Z := index + Z.shiftl 1 (border b).
(** The order field has seven bits. *)
Definition with_order (b : ba_bits) (o : Z) : ba_bits := mkBits (allocated b) (o mod 128).

(** The loop of ba_init from bit [i] down to 0. *)
Fixpoint ba_init_loop (i : nat) (index : Z) (bm : bitmap) : cres bitmap :=
  match i with
  | O => mret bm
  | S i' =>
      if truthy (num_entries .& Z.shiftl 1 (Z.of_nat i')) then
        b ← aget bm index;
        let b' := with_order b (Z.of_nat i') in
        bm' ← aset bm index b';
        ba_init_loop i' (BA_NEXT_INDEX index b') bm'
      else ba_init_loop i' index bm
  end.

Definition ba_init (bm : bitmap) : cres bitmap := ba_init_loop 32 0 bm.

Fixpoint ba_free_loop (fuel : nat) (curr : Z) (bm : bitmap) : cres bitmap :=
  match fuel with
  | O => CFuel
  | S fuel' =>
      c ← aget bm curr;
      let buddy := BA_BUDDY_INDEX curr c in
      b ← aget bm buddy;
      if BA_IS_FREE b && (border b =? border c) then
        bm1 ← aset bm buddy (with_order b (border b + 1));
        c1 ← aget bm1 curr;
        bm2 ← aset bm1 curr (with_order c1 (border c1 + 1));
        let curr' := if buddy <? curr then buddy else curr in
        if curr' <? num_entries then ba_free_loop fuel' curr' bm2 else mret bm2
      else mret bm
  end.

(** The order of the merged block grows with every iteration. *)
Definition ba_free (index : Z) (bm : bitmap) : cres bitmap :=
  c ← aget bm index;
  bm1 ← aset bm index (mkBits 0 (border c));
  ba_free_loop 128 index bm1.

Fixpoint ba_order_loop (n : nat) (i len : Z) : Z :=
  match n with
  | O => i
  | S n' => if Z.shiftr len i =? 0 then i else ba_order_loop n' (i + 1) len
  end.

(** unsigned long has 32 bits. *)
Definition ba_order (len : Z) : Z :=
  let len := u32 (len + BA_MIN_ALLOC - 1) / BA_MIN_ALLOC in
  ba_order_loop 32 0 (u32 (len - 1)).

(** The search for a free slot from [curr] on; -1 when there is none. *)
Fixpoint ba_search (fuel : nat) (order curr best_fit : Z) (bm : bitmap) : cres Z :=
  if curr <? num_entries then
    match fuel with
    | O => CFuel
    | S fuel' =>
        c ← aget bm curr;
        if BA_IS_FREE c then
          if border c =? u8 order then mret curr
          else if u8 order <? border c then
            if best_fit <? 0 then ba_search fuel' order (BA_NEXT_INDEX curr c) curr bm
            else
              f ← aget bm best_fit;
              ba_search fuel' order (BA_NEXT_INDEX curr c)
                (if border c <? border f then curr else best_fit) bm
          else ba_search fuel' order (BA_NEXT_INDEX curr c) best_fit bm
        else ba_search fuel' order (BA_NEXT_INDEX curr c) best_fit bm
    end
  else mret best_fit.

(** The loop that splits the slot [best_fit]. *)
Fixpoint ba_split (fuel : nat) (order best_fit : Z) (bm : bitmap) : cres bitmap :=
  c ← aget bm best_fit;
  if u8 order <? border c then
    match fuel with
    | O => CFuel
    | S fuel' =>
        let c' := with_order c (border c - 1) in
        bm1 ← aset bm best_fit c';
        let buddy := BA_BUDDY_INDEX best_fit c' in
        b ← aget bm1 buddy;
        bm2 ← aset bm1 buddy (with_order b (border c'));
        ba_split fuel' order best_fit bm2
    end
  else mret bm.

(** Each block has at least one unit, and a block of order 127 can be split at
    most 127 times. *)
Definition ba_allocate (len : Z) (bm : bitmap) : cres (Z * bitmap) :=
  let order := ba_order len in
  if BA_MAX_ORDER <? order then mret (-1, bm)
  else
    best_fit ← ba_search (Z.to_nat num_entries) order 0 (-1) bm;
    if best_fit <? 0 then mret (-1, bm)
    else
      bm1 ← ba_split 128 order best_fit bm;
      c ← aget bm1 best_fit;
      bm2 ← aset bm1 best_fit (mkBits 1 (border c));
      mret (best_fit, bm2).

Definition ba_start_addr (LIBBASE index : Z) : Z := u32 (index * BA_MIN_ALLOC + LIBBASE).
Definition ba_len (index : Z) (bm : bitmap) : cres Z :=
  c ← aget bm index; mret (Z.shiftl 1 (border c) * BA_MIN_ALLOC).

(** ** The abstract state *)

(** A block of order [S o] is free, allocated, or split into two of order [o]. *)
Inductive tree : Type := TFree | TUsed | TSplit (l r : tree).

(** The blocks of the tree at unit [a] of order [o]: first unit, order,
    allocated or not. *)
Record block := mkBlock { bidx : Z; bord : Z; bused : bool }.

Fixpoint blocks (t : tree) (a : Z) (o : nat) : list block :=
  match t, o with
  | TFree, _ => [mkBlock a (Z.of_nat o) false]
  | TUsed, _ => [mkBlock a (Z.of_nat o) true]
  | TSplit l r, S o' => blocks l a o' ++ blocks r (a + 2 ^ Z.of_nat o') o'
  | TSplit _ _, O => []
  end.

(** No two buddies are both free, and blocks of order 0 are not split. *)
Fixpoint coalesced (t : tree) (o : nat) : Prop :=
  match t, o with
  | TSplit l r, S o' => coalesced l o' /\ coalesced r o' /\ ~ (l = TFree /\ r = TFree)
  | TSplit _ _, O => False
  | _, _ => True
  end.

(** The bitmap entries of the units [a .. a + 2^o): blocks start with their
    entry, and no other entry is marked as allocated. *)
Definition entry_of (b : block) : ba_bits := mkBits (b2z (bused b)) (bord b).

Definition leaf_repr (bm : bitmap) (a : Z) (o : nat) (used : bool) : Prop :=
  bm !! Z.to_nat a = Some (mkBits (b2z used) (Z.of_nat o)) /\
  forall i, a < i < a + 2 ^ Z.of_nat o -> exists k, bm !! Z.to_nat i = Some (mkBits 0 k).

Fixpoint repr (bm : bitmap) (t : tree) (a : Z) (o : nat) : Prop :=
  match t, o with
  | TFree, _ => leaf_repr bm a o false
  | TUsed, _ => leaf_repr bm a o true
  | TSplit l r, S o' => repr bm l a o' /\ repr bm r (a + 2 ^ Z.of_nat o') o'
  | TSplit _ _, O => False
  end.

(** ** Lemmas on indices and on the representation *)

Notation size o := (2 ^ Z.of_nat o) (only parsing).

Lemma size_pos o : 0 < size o.
Proof. apply Z.pow_pos_nonneg; lia. Qed.

Lemma size_S o : size (S o) = 2 * size o.
Proof. rewrite Nat2Z.inj_succ, Z.pow_succ_r by lia. done. Qed.

Definition aligned (a : Z) (o : nat) : Prop := 0 <= a /\ a mod size o = 0.

Lemma aligned_left a o : aligned a (S o) -> aligned a o.
Proof.
  intros [H0 H]. split; [done|]. rewrite size_S in H. pose proof (size_pos o).
  apply Z.mod_divide in H as [k ->]; [|lia]. rewrite Z.mul_assoc. apply Z.mod_mul. lia.
Qed.

Lemma aligned_right a o : aligned a (S o) -> aligned (a + size o) o.
Proof.
  intros H. destruct (aligned_left a o H) as [H0 H1]. pose proof (size_pos o). split; [lia|].
  rewrite <- (Z.mul_1_l (size o)) at 1. by rewrite Z.mod_add by lia.
Qed.

Lemma buddy_right a o : aligned a (S o) -> Z.lxor a (Z.shiftl 1 (Z.of_nat o)) = a + size o.
Proof.
  intros H. rewrite <- Z.add_nocarry_lxor; rewrite ?Z.shiftl_1_l; [done|].
  rewrite <- Z.shiftl_1_l, land_bit by lia.
  replace (Z.testbit a (Z.of_nat o)) with false; [done|]. destruct H as [_ H].
  rewrite size_S in H. pose proof (size_pos o). apply Z.mod_divide in H as [k ->]; [|lia].
  replace (k * (2 * size o)) with ((2 * k) * size o) by lia.
  rewrite Z.mul_pow2_bits by lia. rewrite Z.sub_diag. symmetry. apply Z.testbit_even_0.
Qed.

Lemma buddy_left a o : aligned a (S o) -> Z.lxor (a + size o) (Z.shiftl 1 (Z.of_nat o)) = a.
Proof.
  intros H. rewrite <- (buddy_right a o H), Z.lxor_assoc, Z.lxor_nilpotent. apply Z.lxor_0_r.
Qed.

(** Two bitmaps that agree outside of a range. *)
Definition same_outside (bm bm' : bitmap) (a n : Z) : Prop :=
  length bm' = length bm /\
  forall i, 0 <= i -> ~ (a <= i < a + n) -> bm' !! Z.to_nat i = bm !! Z.to_nat i.

Lemma same_outside_refl bm a n : same_outside bm bm a n.
Proof. done. Qed.

Lemma same_outside_trans bm1 bm2 bm3 a n :
  same_outside bm1 bm2 a n -> same_outside bm2 bm3 a n -> same_outside bm1 bm3 a n.
Proof. intros [L1 H1] [L2 H2]. split; [congruence|]. intros i Hi Hn. by rewrite H2, H1. Qed.

Lemma same_outside_mono bm bm' a n a' n' :
  same_outside bm bm' a n -> a' <= a -> a + n <= a' + n' -> same_outside bm bm' a' n'.
Proof. intros [L H] H1 H2. split; [done|]. intros i Hi Hn. apply H; lia. Qed.

Lemma same_outside_insert bm i b a n :
  a <= i < a + n -> 0 <= a -> same_outside bm (<[Z.to_nat i := b]> bm) a n.
Proof.
  intros Hi Ha. split; [by rewrite length_insert|]. intros j Hj Hn.
  rewrite list_lookup_insert_ne; [done|lia].
Qed.

Lemma repr_ext bm bm' t a o :
  0 <= a -> (forall i, a <= i < a + size o -> bm' !! Z.to_nat i = bm !! Z.to_nat i) ->
  repr bm t a o -> repr bm' t a o.
Proof.
  revert a o. induction t as [| |l IHl r IHr]; intros a o Ha H.
  1,2: intros [H1 H2]; split; [pose proof (size_pos o); rewrite H by lia; done |];
       intros i Hi; rewrite H by lia; by apply H2.
  destruct o as [|o]; [done|]. intros [H1 H2]. pose proof (size_pos o). rewrite size_S in H. split.
  - apply IHl; [done| |done]. intros i Hi. apply H. lia.
  - apply IHr; [lia| |done]. intros i Hi. apply H. lia.
Qed.

Lemma repr_outside bm bm' b n t a o :
  0 <= a -> same_outside bm bm' b n -> a + size o <= b \/ b + n <= a ->
  repr bm t a o -> repr bm' t a o.
Proof. intros Ha [_ H] Hd. apply repr_ext; [done|]. intros i Hi. apply H; lia. Qed.

(** The entry of the first unit. *)
Lemma repr_head bm t a o :
  repr bm t a o ->
  exists u k, bm !! Z.to_nat a = Some (mkBits (b2z u) k) /\
    (k = Z.of_nat o -> t = if u then TUsed else TFree).
Proof.
  assert (G : forall t a o, repr bm t a o ->
    exists u k, bm !! Z.to_nat a = Some (mkBits (b2z u) k) /\ 0 <= k <= Z.of_nat o /\
      (k = Z.of_nat o -> t = if u then TUsed else TFree)).
  { clear. intros t. induction t as [| |l IHl r IHr]; intros a o.
    - intros [H _]. by exists false, (Z.of_nat o); split_and!; try lia.
    - intros [H _]. by exists true, (Z.of_nat o); split_and!; try lia.
    - destruct o as [|o]; [done|]. intros [H1 _].
      destruct (IHl a o H1) as (u & k & E & Hk & _). exists u, k. split; [done|]. split; [lia|].
      intros ->. lia. }
  intros H. destruct (G t a o H) as (u & k & E & _ & Ht). eauto.
Qed.

(** ** The blocks of a tree *)

Fixpoint chain (bs : list block) (a e : Z) : Prop :=
  match bs with
  | [] => a = e
  | b :: bs' => bidx b = a /\ 0 <= bord b /\ chain bs' (a + 2 ^ bord b) e
  end.

Lemma chain_app bs1 bs2 a b e : chain bs1 a b -> chain bs2 b e -> chain (bs1 ++ bs2) a e.
Proof.
  revert a. induction bs1 as [|x bs1 IH]; intros a; simpl; [by intros ->|].
  intros (H1 & H2 & H3) H. auto.
Qed.

Lemma chain_le bs a e : chain bs a e -> a <= e.
Proof.
  revert a. induction bs as [|b bs IH]; intros a; simpl; [lia|].
  intros (_ & H1 & H2%IH). pose proof (Z.pow_pos_nonneg 2 (bord b)). lia.
Qed.

Lemma blocks_chain bm t a o : repr bm t a o -> chain (blocks t a o) a (a + size o).
Proof.
  revert a o. induction t as [| |l IHl r IHr]; intros a o; simpl.
  1,2: intros _; split_and!; (done || lia).
  destruct o as [|o]; [done|]. intros [H1 H2]. eapply chain_app; [by apply IHl|].
  rewrite size_S. replace (a + 2 * size o) with (a + size o + size o) by lia. by apply IHr.
Qed.

Lemma blocks_entries bm t a o b :
  repr bm t a o -> b ∈ blocks t a o -> bm !! Z.to_nat (bidx b) = Some (entry_of b).
Proof.
  revert a o. induction t as [| |l IHl r IHr]; intros a o; simpl.
  1,2: intros [H _] ->%list_elem_of_singleton; done.
  destruct o as [|o]; [done|]. intros [H1 H2] [Hb|Hb]%elem_of_app; eauto.
Qed.

Lemma blocks_length t a o : (Z.of_nat (length (blocks t a o)) <= size o).
Proof.
  revert a o. induction t as [| |l IHl r IHr]; intros a o.
  1,2: pose proof (size_pos o); simpl length; lia.
  destruct o as [|o]; [simpl; lia|]. cbn [blocks]. rewrite length_app, size_S.
  specialize (IHl a o). specialize (IHr (a + size o) o). lia.
Qed.

(** The range of a block of the tree. *)
Lemma blocks_range t a o b :
  aligned a o -> b ∈ blocks t a o ->
  exists k, bord b = Z.of_nat k /\ (k <= o)%nat /\ aligned (bidx b) k /\
    a <= bidx b /\ bidx b + size k <= a + size o.
Proof.
  revert a o. induction t as [| |l IHl r IHr]; intros a o Ha; simpl.
  1,2: intros ->%list_elem_of_singleton; exists o; simpl; split_and!; (done || lia || apply Ha).
  destruct o as [|o]; [by intros ?%elem_of_nil|]. pose proof (size_pos o). rewrite size_S.
  intros [Hb|Hb]%elem_of_app.
  - destruct (IHl a o (aligned_left a o Ha) Hb) as (k & ? & ? & ? & ? & ?). exists k.
    split_and!; (done || lia).
  - destruct (IHr _ o (aligned_right a o Ha) Hb) as (k & ? & ? & ? & ? & ?). exists k.
    split_and!; (done || lia).
Qed.

(** ** The search *)

(** A free block that is large enough. *)
Definition fits (order : Z) (b : block) : bool := negb (bused b) && (order <=? bord b).

(** [r] is the first unit of the smallest fitting block, or -1. *)
Definition best_of (order : Z) (bs : list block) (r : Z) : Prop :=
  (r = -1 /\ forall b, b ∈ bs -> fits order b = false) \/
  (exists b, b ∈ bs /\ bidx b = r /\ 0 <= r /\ fits order b = true /\
     forall b', b' ∈ bs -> fits order b' = true -> bord b <= bord b').

Lemma entry_free b : BA_IS_FREE (entry_of b) = negb (bused b).
Proof. by destruct b as [? ? []]. Qed.

Section Search.
Context (order : Z) (bm : bitmap) (Ho : u8 order = order).

Lemma best_of_skip bs b r : best_of order bs r -> fits order b = false -> best_of order (bs ++ [b]) r.
Proof using.
  intros [[-> H]|(x & Hx & E & H0 & Hf & Hm)] Hb.
  - left. split; [done|]. intros y [Hy| ->%list_elem_of_singleton]%elem_of_app; auto.
  - right. exists x. split_and!; try done; [apply elem_of_app; by left|].
    intros y [Hy| ->%list_elem_of_singleton]%elem_of_app Hfy; [auto|congruence].
Qed.

Lemma best_of_new bs b r :
  0 <= bidx b -> best_of order bs r -> fits order b = true ->
  (forall x, x ∈ bs -> fits order x = true -> bord b <= bord x) ->
  best_of order (bs ++ [b]) (bidx b).
Proof using.
  intros Hi _ Hb Hle. right. exists b. split_and!; try done; [apply elem_of_app; right; by left|].
  intros y [Hy| ->%list_elem_of_singleton]%elem_of_app Hfy; [auto|lia].
Qed.

Lemma ba_search_spec bs seen fuel curr best :
  0 <= curr -> chain bs curr num_entries -> (length bs <= fuel)%nat ->
  (forall b, b ∈ seen ++ bs -> bm !! Z.to_nat (bidx b) = Some (entry_of b)) ->
  best_of order seen best ->
  exists r, ba_search fuel order curr best bm = CVal r /\ best_of order (seen ++ bs) r.
Proof using Ho.
  revert seen fuel curr best. induction bs as [|b bs IH]; intros seen fuel curr best Hc Hch Hl He Hb.
  - simpl in Hch. subst curr. rewrite app_nil_r. exists best.
    destruct fuel; cbn [ba_search]; rewrite Z.ltb_irrefl; done.
  - destruct Hch as (E1 & E2 & Hch). simpl in Hl. destruct fuel as [|fuel]; [lia|].
    pose proof (Z.pow_pos_nonneg 2 (bord b)) as Hpow.
    assert (Hlt : curr < num_entries).
    { pose proof (chain_le bs _ _ Hch). lia. }
    cbn [ba_search]. zif.
    assert (Eb : aget bm curr = CVal (entry_of b)).
    { apply aget_val; [done|]. rewrite <- E1. apply He. apply elem_of_app. right. by left. }
    rewrite Eb. cbn [mbind cres_bind]. rewrite entry_free, Ho.
    assert (Enext : BA_NEXT_INDEX curr (entry_of b) = curr + 2 ^ bord b).
    { unfold BA_NEXT_INDEX. simpl. by rewrite Z.shiftl_1_l. }
    rewrite Enext. cbn [border entry_of].
    assert (Hgo : forall best', best_of order (seen ++ [b]) best' ->
      exists r, ba_search fuel order (curr + 2 ^ bord b) best' bm = CVal r /\ best_of order (seen ++ b :: bs) r).
    { intros best' Hb'. destruct (IH (seen ++ [b]) fuel (curr + 2 ^ bord b) best') as (r & H1 & H2);
        [lia|done|lia|by rewrite <- app_assoc|done|]. exists r. by rewrite <- app_assoc in H2. }
    destruct (bused b) eqn:Eu; cbn [negb].
    { apply Hgo, best_of_skip; [done|]. unfold fits. by rewrite Eu. }
    bcase; [|bcase].
    + exists curr. split; [done|]. right. exists b. unfold fits. rewrite Eu, e, Z.leb_refl.
      split_and!; try done; [apply elem_of_app; right; by left|].
      intros b' _ [_ H%Z.leb_le]%andb_true_iff. lia.
    + assert (Hfb : fits order b = true) by (unfold fits; rewrite Eu; simpl; lia).
      destruct (Z.ltb_spec best 0) as [Hneg|Hpos].
      * apply Hgo. rewrite <- E1. apply best_of_new with best; try (done || lia).
        intros x Hx Hf. destruct Hb as [[_ Hn]|(y & _ & _ & Hy & _)]; [|lia].
        by rewrite (Hn x Hx) in Hf.
      * destruct Hb as [[-> _]|(y & Hy & Ey & _ & Hfy & Hmin)]; [lia|].
        assert (aget bm best = CVal (entry_of y)) as ->.
        { apply aget_val; [done|]. rewrite <- Ey. apply He. apply elem_of_app. by left. }
        cbn [mbind cres_bind border entry_of]. apply Hgo.
        assert (Hbest : best_of order seen best) by (right; exists y; split_and!; done).
        bcase.
        -- rewrite <- E1. apply best_of_new with best; try (done || lia).
           intros x Hx Hf. specialize (Hmin x Hx Hf). lia.
        -- right. exists y. split_and!; try done; [apply elem_of_app; by left|].
           intros z [Hz| ->%list_elem_of_singleton]%elem_of_app Hfz; [by apply Hmin|lia].
    + apply Hgo, best_of_skip; [done|]. unfold fits. rewrite Eu. simpl. lia.
Qed.
End Search.

(** ** Splitting *)

(** A free block split [d] times on its left side; the last left block is [t]. *)
Fixpoint split_tree (d : nat) (t : tree) : tree :=
  match d with O => t | S d' => TSplit (split_tree d' t) TFree end.

Lemma insert_at (bm : bitmap) i b j :
  0 <= i < Z.of_nat (length bm) -> 0 <= j ->
  <[Z.to_nat i := b]> bm !! Z.to_nat j = if decide (j = i) then Some b else bm !! Z.to_nat j.
Proof.
  intros Hi Hj. case_decide as E.
  - subst. apply list_lookup_insert_eq. lia.
  - apply list_lookup_insert_ne. lia.
Qed.

(** What a split writes: the two halves of a free block. *)
Lemma halve bm a o :
  aligned a (S o) -> a + size (S o) <= Z.of_nat (length bm) -> (o < 127)%nat ->
  leaf_repr bm a (S o) false ->
  exists k, bm !! Z.to_nat (a + size o) = Some (mkBits 0 k) /\
    forall bm', bm' = <[Z.to_nat (a + size o) := mkBits 0 (Z.of_nat o)]>
                        (<[Z.to_nat a := mkBits 0 (Z.of_nat o)]> bm) ->
      leaf_repr bm' a o false /\ leaf_repr bm' (a + size o) o false /\
      same_outside bm bm' a (size (S o)).
Proof.
  intros Ha Hlen Ho [H1 H2]. pose proof (size_pos o) as Hp. rewrite size_S in *.
  assert (0 <= a) by apply Ha. destruct (H2 (a + size o)) as [k Hk]; [lia|].
  exists k. split; [done|]. intros bm' ->.
  assert (L : forall j, 0 <= j ->
    <[Z.to_nat (a + size o) := mkBits 0 (Z.of_nat o)]> (<[Z.to_nat a := mkBits 0 (Z.of_nat o)]> bm)
      !! Z.to_nat j =
    if decide (j = a + size o) then Some (mkBits 0 (Z.of_nat o))
    else if decide (j = a) then Some (mkBits 0 (Z.of_nat o)) else bm !! Z.to_nat j).
  { intros j Hj. rewrite insert_at by (rewrite ?length_insert; lia).
    case_decide; [done|]. apply insert_at; lia. }
  split; [|split].
  - split; [by rewrite L, decide_False, decide_True by lia|].
    intros i Hi. rewrite L, !decide_False by lia. apply H2. lia.
  - split; [by rewrite L, decide_True by lia|].
    intros i Hi. rewrite L, !decide_False by lia. apply H2. lia.
  - split; [by rewrite !length_insert|]. intros j Hj Hn. by rewrite L, !decide_False by lia.
Qed.

Lemma ba_split_spec d k fuel a bm :
  aligned a (d + k) -> a + size (d + k) <= Z.of_nat (length bm) -> (d + k < 128)%nat ->
  (d <= fuel)%nat -> leaf_repr bm a (d + k) false ->
  exists bm', ba_split fuel (Z.of_nat k) a bm = CVal bm' /\
    repr bm' (split_tree d TFree) a (d + k) /\ same_outside bm bm' a (size (d + k)).
Proof.
  revert fuel bm. induction d as [|d IH]; intros fuel bm Ha Hlen Hk Hf Hr.
  - exists bm. assert (0 <= a) by apply Ha. destruct fuel; cbn [ba_split];
      (rewrite (aget_val _ _ _ ltac:(done) (proj1 Hr)); cbn [mbind cres_bind border];
       rewrite u8_small by lia; simpl Nat.add; rewrite Z.ltb_irrefl; done).
  - destruct fuel as [|fuel]; [lia|]. simpl Nat.add in *. assert (0 <= a) by apply Ha.
    destruct (halve bm a (d + k) Ha Hlen ltac:(lia) Hr) as (j & Hj & Hh).
    specialize (Hh _ eq_refl) as (R1 & R2 & S1). pose proof (size_pos (d + k)).
    pose proof (size_S (d + k)) as ES. rewrite ES in Hlen.
    cbn [ba_split]. rewrite (aget_val _ _ _ ltac:(done) (proj1 Hr)). cbn [mbind cres_bind border].
    rewrite u8_small by lia. zif. unfold with_order. cbn [allocated border].
    replace ((Z.of_nat (S (d + k)) - 1) mod 128) with (Z.of_nat (d + k))
      by (rewrite Z.mod_small; lia).
    rewrite aset_val by lia. cbn [mbind cres_bind]. unfold BA_BUDDY_INDEX. cbn [border].
    rewrite buddy_right by done. rewrite (aget_val _ (a + size (d + k)) (mkBits 0 j)).
    2: lia. 2: { rewrite insert_at by lia. by rewrite decide_False by lia. }
    cbn [mbind cres_bind allocated]. rewrite aset_val by (rewrite length_insert; lia).
    cbn [mbind cres_bind]. rewrite (Z.mod_small (Z.of_nat (d + k))) by lia.
    match type of R1 with leaf_repr ?bm2 _ _ _ =>
      destruct (IH fuel bm2 (aligned_left _ _ Ha)) as (bm' & E & R & S2) end;
      [rewrite !length_insert; lia|lia|lia|exact R1|].
    exists bm'. split; [exact E|]. split.
    + cbn [split_tree repr]. split; [done|].
      eapply (repr_outside _ bm' a _ TFree); [lia|exact S2|lia|exact R2].
    + eapply same_outside_trans; [exact S1|]. rewrite ES.
      eapply same_outside_mono; [exact S2|lia|lia].
Qed.

(** ** Replacing a block of the tree *)

Fixpoint tput (t : tree) (a : Z) (o : nat) (i : Z) (sub : tree) : tree :=
  match t, o with
  | TSplit l r, S o' =>
      if i <? a + size o' then TSplit (tput l a o' i sub) r
      else TSplit l (tput r (a + size o') o' i sub)
  | _, _ => sub
  end.

(** Which child a block is in. *)
Lemma child_of l r a o b :
  aligned a (S o) -> b ∈ blocks (TSplit l r) a (S o) ->
  if bidx b <? a + size o then b ∈ blocks l a o else b ∈ blocks r (a + size o) o.
Proof.
  intros Ha [Hb|Hb]%elem_of_app.
  - destruct (blocks_range _ _ _ _ (aligned_left a o Ha) Hb) as (k & _ & _ & _ & H1 & H2).
    pose proof (size_pos k). by zif.
  - destruct (blocks_range _ _ _ _ (aligned_right a o Ha) Hb) as (k & _ & _ & _ & H1 & H2).
    by zif.
Qed.

Lemma tput_repr bm bm' t a o b k sub :
  aligned a o -> b ∈ blocks t a o -> bord b = Z.of_nat k ->
  same_outside bm bm' (bidx b) (size k) -> repr bm t a o -> repr bm' sub (bidx b) k ->
  repr bm' (tput t a o (bidx b) sub) a o.
Proof.
  revert a o. induction t as [| |l IHl r IHr]; intros a o Ha Hb Ek Hs Hr Hsub.
  1,2: apply list_elem_of_singleton in Hb as ->; simpl in *; apply Nat2Z.inj in Ek as ->; done.
  destruct o as [|o]; [done|]. destruct Hr as [R1 R2]. pose proof (child_of _ _ _ _ _ Ha Hb) as Hc.
  cbn [tput]. destruct (Z.ltb_spec (bidx b) (a + size o)) as [Hlt|Hge].
  - split; [by apply IHl; [apply aligned_left|..]|].
    destruct (blocks_range _ _ _ _ (aligned_left a o Ha) Hc) as (k' & E' & _ & Hal & H1 & H2).
    assert (k' = k) as -> by lia.
    eapply repr_outside; [|exact Hs| |exact R2]; [destruct Ha; pose proof (size_pos o)|]; lia.
  - split; [|by apply IHr; [apply aligned_right|..]].
    destruct (blocks_range _ _ _ _ (aligned_right a o Ha) Hc) as (k' & E' & _ & Hal & H1 & H2).
    assert (k' = k) as -> by lia.
    eapply repr_outside; [apply Ha|exact Hs|lia|exact R1].
Qed.

Definition used (t : tree) (a : Z) (o : nat) : list block := filter (fun b => bused b = true) (blocks t a o).

Lemma used_split l r a o : used (TSplit l r) a (S o) = used l a o ++ used r (a + size o) o.
Proof. unfold used. cbn [blocks]. apply filter_app. Qed.

Lemma tput_used t a o b k sub :
  aligned a o -> b ∈ blocks t a o -> bord b = Z.of_nat k -> bused b = false ->
  used (tput t a o (bidx b) sub) a o ≡ₚ used sub (bidx b) k ++ used t a o.
Proof.
  revert a o. induction t as [| |l IHl r IHr]; intros a o Ha Hb Ek Hu.
  - apply list_elem_of_singleton in Hb as ->. simpl in *. apply Nat2Z.inj in Ek as ->.
    by rewrite app_nil_r.
  - apply list_elem_of_singleton in Hb as ->. done.
  - destruct o as [|o]; [by apply elem_of_nil in Hb|].
    pose proof (child_of _ _ _ _ _ Ha Hb) as Hc. cbn [tput].
    destruct (Z.ltb_spec (bidx b) (a + size o)) as [Hlt|Hge]; rewrite !used_split.
    + rewrite IHl by (try apply aligned_left; done). by rewrite app_assoc.
    + rewrite IHr by (try apply aligned_right; done). rewrite app_assoc.
      rewrite (Permutation_app_comm (used l a o)). by rewrite app_assoc.
Qed.

Lemma tput_coalesced t a o b k sub :
  aligned a o -> b ∈ blocks t a o -> bord b = Z.of_nat k ->
  coalesced t o -> coalesced sub k -> sub <> TFree ->
  coalesced (tput t a o (bidx b) sub) o /\ tput t a o (bidx b) sub <> TFree.
Proof.
  revert a o. induction t as [| |l IHl r IHr]; intros a o Ha Hb Ek Hc Hsub Hne.
  1,2: apply list_elem_of_singleton in Hb as ->; simpl in *; apply Nat2Z.inj in Ek as ->; done.
  destruct o as [|o]; [done|]. pose proof (child_of _ _ _ _ _ Ha Hb) as Hch.
  destruct Hc as (C1 & C2 & C3). cbn [tput].
  destruct (Z.ltb_spec (bidx b) (a + size o)) as [Hlt|Hge]; (split; [|done]).
  - destruct (IHl a o) as [H1 H2]; [by apply aligned_left|done..|].
    cbn [coalesced]. split_and!; try done. by intros [? _].
  - destruct (IHr (a + size o) o) as [H1 H2]; [by apply aligned_right|done..|].
    cbn [coalesced]. split_and!; try done. by intros [_ ?].
Qed.

(** ** Freeing *)

Definition join (l r : tree) : tree :=
  match l, r with TFree, TFree => TFree | _, _ => TSplit l r end.

Fixpoint tfree (t : tree) (a : Z) (o : nat) (i : Z) : tree :=
  match t, o with
  | TSplit l r, S o' =>
      if i <? a + size o' then join (tfree l a o' i) r
      else join l (tfree r (a + size o') o' i)
  | _, _ => TFree
  end.

(** One iteration of the loop of ba_free. *)
Section Merge.
Context (bm : bitmap) (a : Z) (o : nat).
Context (Ha : aligned a (S o)) (Hlen : length bm = 256%nat) (Hin : a + size (S o) <= 256) (Ho : (o < 100)%nat).

(** A merged pair of buddies. *)
Let merged : bitmap :=
  <[Z.to_nat a := mkBits 0 (Z.of_nat (S o))]>
    (<[Z.to_nat (a + size o) := mkBits 0 (Z.of_nat (S o))]> bm).

Lemma merged_lookup j : 0 <= j ->
  merged !! Z.to_nat j =
  if decide (j = a) then Some (mkBits 0 (Z.of_nat (S o)))
  else if decide (j = a + size o) then Some (mkBits 0 (Z.of_nat (S o))) else bm !! Z.to_nat j.
Proof using Ha Hlen Hin Ho.
  intros Hj. pose proof (size_pos o). pose proof (size_S o) as ES. assert (0 <= a) by apply Ha.
  unfold merged. rewrite insert_at by (rewrite ?length_insert; lia).
  case_decide; [done|]. apply insert_at; lia.
Qed.

Lemma merged_repr :
  leaf_repr bm a o false -> leaf_repr bm (a + size o) o false ->
  leaf_repr merged a (S o) false /\ same_outside bm merged a (size (S o)).
Proof using Ha Hlen Hin Ho.
  intros [L1 L2] [R1 R2]. pose proof (size_pos o). pose proof (size_S o) as ES. assert (0 <= a) by apply Ha.
  split; [split|split].
  - by rewrite merged_lookup, decide_True by lia.
  - intros i Hi. rewrite merged_lookup, decide_False by lia. case_decide; [eauto|].
    destruct (Z.lt_ge_cases i (a + size o)); [apply L2 | apply R2]; lia.
  - unfold merged. by rewrite !length_insert.
  - intros j Hj Hn. by rewrite merged_lookup, !decide_False by lia.
Qed.

(** Both children are free: the loop goes on with the parent. *)
Lemma merge_children fuel curr :
  leaf_repr bm a o false -> leaf_repr bm (a + size o) o false -> curr = a \/ curr = a + size o ->
  ba_free_loop (S fuel) curr bm = ba_free_loop fuel a merged.
Proof using Ha Hlen Hin Ho.
  intros [L _] [R _] Hc. pose proof (size_pos o) as Hp. pose proof (size_S o) as ES.
  assert (0 <= a) by apply Ha.
  assert (G : exists buddy, (curr = a /\ buddy = a + size o \/ curr = a + size o /\ buddy = a) /\
    Z.lxor curr (Z.shiftl 1 (Z.of_nat o)) = buddy).
  { destruct Hc as [->| ->]; eexists; split; eauto using buddy_right, buddy_left. }
  destruct G as (buddy & HG & Ebud). cbn [ba_free_loop].
  assert (Ec : bm !! Z.to_nat curr = Some (mkBits 0 (Z.of_nat o))) by (destruct HG as [[-> _]|[-> _]]; done).
  assert (Eb : bm !! Z.to_nat buddy = Some (mkBits 0 (Z.of_nat o))) by (destruct HG as [[_ ->]|[_ ->]]; done).
  rewrite (aget_val bm curr _ ltac:(lia) Ec). cbn [mbind cres_bind]. unfold BA_BUDDY_INDEX. cbn [border].
  rewrite Ebud, (aget_val bm buddy _ ltac:(lia) Eb). cbn [mbind cres_bind border].
  rewrite Z.eqb_refl. unfold BA_IS_FREE. cbn [allocated truthy negb andb Z.eqb].
  rewrite aset_val by lia. cbn [mbind cres_bind].
  rewrite (aget_val _ curr (mkBits 0 (Z.of_nat o))).
  2: lia. 2: { rewrite insert_at by lia. rewrite decide_False by lia. done. }
  cbn [mbind cres_bind]. rewrite aset_val by (rewrite length_insert; lia). cbn [mbind cres_bind].
  unfold with_order. cbn [allocated border].
  rewrite (Z.mod_small (Z.of_nat o + 1)) by lia. replace (Z.of_nat o + 1) with (Z.of_nat (S o)) by lia.
  assert (Hcurr : (if buddy <? curr then buddy else curr) = a) by (bcase; lia).
  rewrite Hcurr. change num_entries with 256. zif. f_equal. unfold merged.
  destruct HG as [[-> ->]|[-> ->]]; [done|]. apply list_insert_insert_ne. lia.
Qed.

(** The buddy of a free block is not free as a whole: the loop ends. *)
Lemma merge_stops fuel curr sib s :
  leaf_repr bm curr o false -> repr bm s sib o -> s <> TFree ->
  (curr = a /\ sib = a + size o \/ curr = a + size o /\ sib = a) ->
  ba_free_loop (S fuel) curr bm = CVal bm.
Proof using Ha Hlen Hin Ho.
  intros [L _] R Hs HG. pose proof (size_pos o) as Hp. pose proof (size_S o) as ES.
  assert (0 <= a) by apply Ha. destruct (repr_head bm s sib o R) as (u & k & Es & Hk).
  assert (Ebud : Z.lxor curr (Z.shiftl 1 (Z.of_nat o)) = sib).
  { destruct HG as [[-> ->]|[-> ->]]; eauto using buddy_right, buddy_left. }
  cbn [ba_free_loop]. rewrite (aget_val bm curr _ ltac:(lia) L). cbn [mbind cres_bind].
  unfold BA_BUDDY_INDEX. cbn [border]. rewrite Ebud, (aget_val bm sib _ ltac:(lia) Es).
  cbn [mbind cres_bind border]. unfold BA_IS_FREE. cbn [allocated].
  destruct u; [done|]. cbn. bcase; [|done]. rewrite Hk in Hs by done. done.
Qed.
End Merge.

Lemma join_free l r : join l r = TFree <-> l = TFree /\ r = TFree.
Proof. destruct l, r; simpl; split; intros; (done || by destruct_and?). Qed.

Definition is_tfree (t : tree) : bool := match t with TFree => true | _ => false end.

Lemma is_tfree_spec t : is_tfree t = true <-> t = TFree.
Proof. by destruct t. Qed.

(** From a child [ct] at [c] to its parent; [run] is the loop, started inside of
    the child. *)
Lemma ba_free_parent (run : nat -> cres bitmap) a o bm bm1 n c sib ct st jt :
  aligned a (S o) -> length bm = 256%nat -> a + size (S o) <= 256 -> (o < 100)%nat -> (n <= o)%nat ->
  same_outside bm bm1 c (size o) -> repr bm1 ct c o -> repr bm1 st sib o ->
  (c = a /\ sib = a + size o /\ jt = join ct st) \/ (c = a + size o /\ sib = a /\ jt = join st ct) ->
  (forall fuel, (0 < fuel)%nat ->
    run (n + fuel)%nat = if is_tfree ct then ba_free_loop fuel c bm1 else CVal bm1) ->
  exists bm' n', (n' <= S o)%nat /\ same_outside bm bm' a (size (S o)) /\ repr bm' jt a (S o) /\
    forall fuel, (0 < fuel)%nat ->
      run (n' + fuel)%nat = if is_tfree jt then ba_free_loop fuel a bm' else CVal bm'.
Proof.
  intros Ha Hlen Hin Ho Hn S1 Rc Rs HG Hrun. pose proof (size_pos o). pose proof (size_S o) as ES.
  assert (L1 : length bm1 = 256%nat) by (rewrite (proj1 S1); done).
  assert (S2 : same_outside bm bm1 a (size (S o))) by (eapply same_outside_mono; [exact S1|lia..]).
  assert (Rj : jt <> TFree -> repr bm1 jt a (S o)).
  { intros Hne. destruct HG as [(-> & -> & ->)|(-> & -> & ->)]; destruct ct, st; simpl in *; done. }
  destruct (is_tfree ct) eqn:Ec.
  2: { assert (Ej : is_tfree jt = false) by (destruct HG as [(_ & _ & ->)|(_ & _ & ->)]; by destruct ct, st).
       exists bm1, n. rewrite Ej. split_and!; [lia|done| |done]. apply Rj. by intros ->. }
  apply is_tfree_spec in Ec as ->. destruct (is_tfree st) eqn:Es.
  - apply is_tfree_spec in Es as ->.
    assert (jt = TFree) as -> by (destruct HG as [(_ & _ & ->)|(_ & _ & ->)]; done).
    destruct (merged_repr bm1 a o Ha L1 Hin Ho) as [M1 M2];
      [destruct HG as [(-> & -> & _)|(-> & -> & _)]; done..|].
    eexists _, (S n). split_and!; [lia|by eapply same_outside_trans|exact M1|].
    intros fuel Hf. replace (S n + fuel)%nat with (n + S fuel)%nat by lia. rewrite Hrun by lia.
    apply merge_children; try done; destruct HG as [(-> & -> & _)|(-> & -> & _)]; (done || lia).
  - assert (Ej : is_tfree jt = false) by (destruct HG as [(_ & _ & ->)|(_ & _ & ->)]; by destruct st).
    exists bm1, n. rewrite Ej. split_and!; [lia|done| |].
    + apply Rj. by intros ->.
    + intros fuel Hf. rewrite Hrun by done. destruct fuel as [|fuel]; [lia|].
      eapply (merge_stops bm1 a o); [done..|exact Rc|exact Rs| |].
      * intros ->. done.
      * destruct HG as [(-> & -> & _)|(-> & -> & _)]; lia.
Qed.

(** The loop of ba_free inside of a subtree: it either ends there, or merges the
    subtree into one block and goes on. *)
Lemma ba_free_subtree t a o bm b :
  aligned a o -> length bm = 256%nat -> a + size o <= 256 -> (o < 100)%nat ->
  b ∈ blocks t a o -> bused b = true -> repr bm t a o ->
  exists bm' n, (n <= o)%nat /\ same_outside bm bm' a (size o) /\
    repr bm' (tfree t a o (bidx b)) a o /\
    forall fuel, (0 < fuel)%nat ->
      ba_free_loop (n + fuel) (bidx b) (<[Z.to_nat (bidx b) := mkBits 0 (bord b)]> bm) =
      if is_tfree (tfree t a o (bidx b)) then ba_free_loop fuel a bm' else CVal bm'.
Proof.
  revert a o bm. induction t as [| |l IHl r IHr]; intros a o bm Ha Hlen Hin Ho Hb Hu Hr.
  - apply list_elem_of_singleton in Hb as ->. done.
  - apply list_elem_of_singleton in Hb as ->. simpl in *. destruct Hr as [R1 R2].
    pose proof (size_pos o). assert (0 <= a) by apply Ha.
    exists (<[Z.to_nat a := mkBits 0 (Z.of_nat o)]> bm), 0%nat. split_and!.
    + lia.
    + apply same_outside_insert; lia.
    + split; [rewrite insert_at by lia; by rewrite decide_True|].
      intros i Hi. rewrite insert_at by lia. rewrite decide_False by lia. auto.
    + done.
  - destruct o as [|o]; [done|]. pose proof (child_of _ _ _ _ _ Ha Hb) as Hc.
    destruct Hr as [R1 R2]. pose proof (size_pos o) as Hp. pose proof (size_S o) as ES.
    assert (H0 : 0 <= a) by apply Ha. cbn [tfree].
    destruct (Z.ltb_spec (bidx b) (a + size o)) as [Hlt|Hge].
    + destruct (IHl a o bm) as (bm1 & n & Hn & S1 & Q1 & E1);
        [by apply aligned_left|done|lia|lia|done|done|done|].
      eapply (ba_free_parent (fun f => ba_free_loop f (bidx b) _) a o bm bm1 n a (a + size o)); [done|done|done|lia|done|done|exact Q1| | |exact E1].
      * eapply repr_outside; [lia|exact S1|lia|exact R2].
      * by left.
    + destruct (IHr (a + size o) o bm) as (bm1 & n & Hn & S1 & Q1 & E1);
        [by apply aligned_right|done|lia|lia|done|done|done|].
      eapply (ba_free_parent (fun f => ba_free_loop f (bidx b) _) a o bm bm1 n (a + size o) a); [done|done|done|lia|done|done|exact Q1| | |exact E1].
      * eapply repr_outside; [lia|exact S1|lia|exact R1].
      * by right.
Qed.

Lemma tfree_coalesced t a o i : coalesced t o -> coalesced (tfree t a o i) o.
Proof.
  revert a o. induction t as [| |l IHl r IHr]; intros a o; [done..|].
  destruct o as [|o]; [done|]. intros (C1 & C2 & C3). cbn [tfree].
  assert (J : forall x y, coalesced x o -> coalesced y o -> coalesced (join x y) (S o)).
  { intros x y Hx Hy. destruct (is_tfree x) eqn:Ex, (is_tfree y) eqn:Ey; destruct x, y; try done;
      simpl; split_and!; try done; by intros [? ?]. }
  destruct (_ <? _); apply J; auto.
Qed.

Lemma join_used l r a o : used (join l r) a (S o) = used l a o ++ used r (a + size o) o.
Proof. destruct l, r; try (symmetry; apply used_split); done || apply used_split. Qed.

Lemma tfree_used t a o b :
  aligned a o -> b ∈ blocks t a o -> bused b = true ->
  used t a o ≡ₚ b :: used (tfree t a o (bidx b)) a o.
Proof.
  revert a o. induction t as [| |l IHl r IHr]; intros a o Ha Hb Hu.
  1,2: apply list_elem_of_singleton in Hb as ->; done.
  destruct o as [|o]; [by apply elem_of_nil in Hb|].
  pose proof (child_of _ _ _ _ _ Ha Hb) as Hc. cbn [tfree].
  destruct (Z.ltb_spec (bidx b) (a + size o)) as [Hlt|Hge]; rewrite used_split, join_used.
  - by rewrite (IHl a o) by (try apply aligned_left; done).
  - rewrite (IHr (a + size o) o) at 1 by (try apply aligned_right; done).
    by rewrite <- Permutation_middle.
Qed.

(** A coalesced tree without allocated blocks is one free block. *)
Lemma unused_free t a o : coalesced t o -> used t a o = [] -> t = TFree.
Proof.
  revert a o. induction t as [| |l IHl r IHr]; intros a o; [done..|].
  destruct o as [|o]; [done|]. intros (C1 & C2 & C3). rewrite used_split.
  intros [E1 E2]%app_eq_nil. exfalso. apply C3. split; eauto.
Qed.

(** ** The allocator *)

(** The bitmap [bm] describes a region in which exactly the blocks [bs] (first
    unit and order) are allocated. *)
Definition ba_ok (bm : bitmap) (bs : list block) : Prop :=
  length bm = 256%nat /\
  exists t, coalesced t 8 /\ repr bm t 0 8 /\ used t 0 8 ≡ₚ bs.

(** The units of a block, and its addresses. *)
Definition disjoint_blocks (b1 b2 : block) : Prop :=
  bidx b1 + 2 ^ bord b1 <= bidx b2 \/ bidx b2 + 2 ^ bord b2 <= bidx b1.

Lemma root_aligned : aligned 0 8.
Proof. done. Qed.

Lemma blocks_disjoint t a o x y :
  aligned a o -> x ∈ blocks t a o -> y ∈ blocks t a o -> x = y \/ disjoint_blocks x y.
Proof.
  revert a o. induction t as [| |l IHl r IHr]; intros a o Ha Hx Hy.
  1,2: apply list_elem_of_singleton in Hx, Hy; left; congruence.
  destruct o as [|o]; [by apply elem_of_nil in Hx|].
  assert (G : forall x y, x ∈ blocks l a o -> y ∈ blocks r (a + size o) o -> disjoint_blocks x y).
  { intros x' y' Hx' Hy'.
    destruct (blocks_range _ _ _ _ (aligned_left a o Ha) Hx') as (k & Ek & _ & _ & _ & H1).
    destruct (blocks_range _ _ _ _ (aligned_right a o Ha) Hy') as (k' & Ek' & _ & _ & H2 & _).
    left. rewrite Ek. lia. }
  apply elem_of_app in Hx as [Hx|Hx]; apply elem_of_app in Hy as [Hy|Hy].
  - eapply IHl; [by apply aligned_left|done..].
  - right. by apply G.
  - right. destruct (G y x Hy Hx); [by right | by left].
  - eapply IHr; [by apply aligned_right|done..].
Qed.

(** The region after ba_init on the zeroed bitmap. *)
Definition bitmap0 : bitmap := replicate 256 (mkBits 0 0).
Definition bitmap1 : bitmap := <[0%nat := mkBits 0 8]> bitmap0.

Lemma ba_init_ok : ba_init bitmap0 = CVal bitmap1 /\ ba_ok bitmap1 [].
Proof.
  split; [vm_compute; reflexivity|]. split; [reflexivity|]. exists TFree. split_and!; [done| |done].
  split; [vm_compute; reflexivity|]. intros i Hi. exists 0. unfold bitmap1.
  rewrite list_lookup_insert_ne by lia. apply lookup_replicate. simpl in Hi. split; [done|lia].
Qed.

Lemma ba_order_loop_spec n i len :
  0 <= i -> 0 <= len ->
  i <= ba_order_loop n i len <= i + Z.of_nat n /\
  (ba_order_loop n i len < i + Z.of_nat n -> len < 2 ^ ba_order_loop n i len).
Proof.
  intros Hi Hl. revert i Hi. induction n as [|n IH]; intros i Hi; [simpl; lia|]. cbn [ba_order_loop].
  rewrite Z.shiftr_div_pow2 by done. pose proof (Z.pow_pos_nonneg 2 i).
  bcase.
  - split; [lia|]. intros _. apply Z.div_small_iff in e; lia.
  - destruct (IH (i + 1)) as [H1 H2]; [lia|]. split; [lia|]. intros H3. apply H2. lia.
Qed.

(** The order of a request: a block of that order is large enough. *)
Lemma ba_order_spec len :
  0 <= len < 2 ^ 32 ->
  0 <= ba_order len <= 32 /\ (ba_order len < 32 -> len <= 2 ^ ba_order len * BA_MIN_ALLOC).
Proof.
  intros Hl. unfold ba_order.
  set (L := u32 (len + BA_MIN_ALLOC - 1) / BA_MIN_ALLOC).
  destruct (ba_order_loop_spec 32 0 (u32 (L - 1))) as [H1 H2]; [lia|apply u32_range|].
  split; [lia|]. intros H3. specialize (H2 ltac:(lia)).
  set (k := ba_order_loop _ _ _) in *. change BA_MIN_ALLOC with 1048576 in *.
  assert (HL : 0 <= L < 4096).
  { pose proof (u32_range (len + 1048576 - 1)). unfold L. zdm. }
  destruct (Z.eq_dec L 0) as [E|E].
  - exfalso. rewrite E in H2. change (u32 (0 - 1)) with (2 ^ 32 - 1) in H2.
    assert (2 ^ k <= 2 ^ 31) by (apply Z.pow_le_mono_r; lia). lia.
  - rewrite u32_small in H2 by lia. unfold L, u32 in *. zdm.
Qed.

(** An aligned place lies in one half of a larger block. *)
Lemma aligned_half a o j k :
  aligned a (S o) -> aligned j k -> (k <= o)%nat -> j + size k <= a + size o \/ a + size o <= j.
Proof.
  intros [_ Ha] [_ Hj] Hk. pose proof (size_pos k). apply Z.mod_divide in Hj as [x ->]; [|lia].
  assert (Hd : (size k | a + size o)).
  { replace (size (S o)) with (size k * 2 ^ (Z.of_nat (S o) - Z.of_nat k)) in Ha
      by (rewrite <- Z.pow_add_r by lia; f_equal; lia).
    apply Z.divide_add_r.
    - apply Z.mod_divide in Ha as [y ->].
      + exists (y * 2 ^ (Z.of_nat (S o) - Z.of_nat k)). ring.
      + pose proof (Z.pow_pos_nonneg 2 (Z.of_nat (S o) - Z.of_nat k)). nia.
    - exists (2 ^ (Z.of_nat o - Z.of_nat k)). rewrite <- Z.pow_add_r by lia. f_equal. lia. }
  destruct Hd as [y Hy]. rewrite Hy. destruct (Z.le_gt_cases y x); [right | left]; nia.
Qed.

(** When no free block is large enough, every place overlaps an allocated block. *)
Lemma no_place t a o j k :
  aligned a o -> coalesced t o ->
  (forall b, b ∈ blocks t a o -> fits (Z.of_nat k) b = false) ->
  aligned j k -> a <= j -> j + size k <= a + size o ->
  exists b, b ∈ used t a o /\ ~ disjoint_blocks (mkBlock j (Z.of_nat k) true) b.
Proof.
  revert a o. induction t as [| |l IHl r IHr]; intros a o Ha Hc Hf Hj H1 H2; pose proof (size_pos k).
  - exfalso. specialize (Hf (mkBlock a (Z.of_nat o) false) ltac:(by left)). unfold fits in Hf. simpl in Hf.
    apply Z.leb_gt in Hf. assert (size o < size k) by (apply Z.pow_lt_mono_r; lia). lia.
  - exists (mkBlock a (Z.of_nat o) true). split; [by left|]. unfold disjoint_blocks. simpl. lia.
  - destruct o as [|o]; [done|]. pose proof (size_pos o). pose proof (size_S o) as ES.
    destruct (decide (S o <= k)%nat) as [Hk|Hk].
    + destruct (used (TSplit l r) a (S o)) as [|b bs] eqn:Eu.
      { apply unused_free in Eu; done. }
      exists b. split; [by left|]. assert (Hb : b ∈ used (TSplit l r) a (S o)) by (rewrite Eu; by left).
      apply list_elem_of_filter in Hb as [_ Hb].
      destruct (blocks_range _ _ _ _ Ha Hb) as (k' & Ek & _ & _ & H3 & H4).
      assert (size (S o) <= size k) by (apply Z.pow_le_mono_r; lia). pose proof (size_pos k').
      unfold disjoint_blocks. cbn [bidx bord]. rewrite Ek. lia.
    + assert (Hhalf := aligned_half a o j k Ha Hj ltac:(lia)).
      destruct Hc as (C1 & C2 & _). rewrite used_split. destruct Hhalf as [Hh|Hh].
      * destruct (IHl a o) as (b & Hb & Hd); [by apply aligned_left|done| |done|done|lia|].
        { intros b Hb. apply Hf. apply elem_of_app. by left. }
        exists b. split; [apply elem_of_app; by left|done].
      * destruct (IHr (a + size o) o) as (b & Hb & Hd); [by apply aligned_right|done| |done|done|lia|].
        { intros b Hb. apply Hf. apply elem_of_app. by right. }
        exists b. split; [apply elem_of_app; by right|done].
Qed.

Lemma split_used d a k : used (split_tree d TUsed) a (d + k) = [mkBlock a (Z.of_nat k) true].
Proof.
  induction d as [|d IH]; [done|]. cbn [split_tree Nat.add]. rewrite used_split, IH. done.
Qed.

Lemma split_coalesced d k : coalesced (split_tree d TUsed) (d + k) /\ split_tree d TUsed <> TFree.
Proof.
  induction d as [|d [IH1 IH2]]; [done|]. cbn [split_tree Nat.add coalesced]. split; [|done].
  split_and!; try done. intros [H _]. done.
Qed.

(** Marking the left-most block of a split free block. *)
Lemma mark_repr d k a bm :
  0 <= a -> a + size (d + k) <= Z.of_nat (length bm) -> repr bm (split_tree d TFree) a (d + k) ->
  bm !! Z.to_nat a = Some (mkBits 0 (Z.of_nat k)) /\
  repr (<[Z.to_nat a := mkBits 1 (Z.of_nat k)]> bm) (split_tree d TUsed) a (d + k).
Proof.
  intros Ha. induction d as [|d IH]; intros Hl Hr; cbn [split_tree Nat.add repr] in *;
    pose proof (size_pos k) as Hp.
  - simpl Nat.add in *. destruct Hr as [H1 H2]. split; [done|]. split.
    + rewrite insert_at by lia. by rewrite decide_True.
    + intros i Hi. rewrite insert_at by lia. rewrite decide_False by lia. auto.
  - destruct Hr as [H1 H2]. simpl Nat.add in Hl. rewrite size_S in Hl.
    pose proof (size_pos (d + k)). destruct IH as [E R]; [lia|done|]. split; [done|].
    split; [done|]. refine (repr_outside bm _ a 1 TFree _ _ _ _ _ H2); [lia| |lia].
    apply same_outside_insert; lia.
Qed.

(** The block found by the search is split and marked. *)
Lemma ba_place t bm b k :
  length bm = 256%nat -> coalesced t 8 -> repr bm t 0 8 -> b ∈ blocks t 0 8 ->
  bused b = false -> Z.of_nat k <= bord b ->
  exists bm1 bm2 t', ba_split 128 (Z.of_nat k) (bidx b) bm = CVal bm1 /\
    aget bm1 (bidx b) = CVal (mkBits 0 (Z.of_nat k)) /\
    aset bm1 (bidx b) (mkBits 1 (Z.of_nat k)) = CVal bm2 /\ length bm2 = 256%nat /\
    coalesced t' 8 /\ repr bm2 t' 0 8 /\
    used t' 0 8 ≡ₚ mkBlock (bidx b) (Z.of_nat k) true :: used t 0 8.
Proof.
  intros Hlen Hc Hr Hb Hu Hk.
  destruct (blocks_range t 0 8 b root_aligned Hb) as (ko & Eo & Hko & Hal & H1 & H2).
  change (0 + size 8) with 256 in H2. rewrite Eo in Hk.
  destruct (Nat.le_exists_sub k ko ltac:(lia)) as (d & -> & _). clear Hk. pose proof (size_pos (d + k)).
  assert (Hleaf : leaf_repr bm (bidx b) (d + k) false).
  { clear -Hr Hb Hu Eo. revert Hr Hb. generalize 0 8%nat. induction t as [| |l IHl r IHr]; intros a o.
    - intros H ->%list_elem_of_singleton. simpl in *. by apply Nat2Z.inj in Eo as ->.
    - by intros _ ->%list_elem_of_singleton.
    - destruct o as [|o]; [done|]. intros [R1 R2] [Hb|Hb]%elem_of_app; eauto. }
  destruct (ba_split_spec d k 128 (bidx b) bm Hal) as (bm1 & E1 & R1 & S1); [lia|lia|lia|done|].
  assert (L1 : length bm1 = 256%nat) by (rewrite (proj1 S1); done).
  destruct (mark_repr d k (bidx b) bm1) as [E2 R2]; [lia|lia|done|].
  eexists bm1, _, (tput t 0 8 (bidx b) (split_tree d TUsed)).
  split; [exact E1|]. split; [by apply aget_val|]. split; [apply aset_val; lia|].
  split; [by rewrite length_insert|]. destruct (split_coalesced d k) as [Q1 Q2]. split_and!.
  - by eapply (tput_coalesced t 0 8 b (d + k)).
  - eapply (tput_repr bm); [done|done|exact Eo| |done|exact R2].
    eapply same_outside_trans; [exact S1|]. apply same_outside_insert; lia.
  - rewrite (tput_used t 0 8 b (d + k)) by done. by rewrite split_used.
Qed.

(** The effect of ba_allocate. *)
Lemma ba_allocate_spec (bm : bitmap) (bs : list block) (len : Z) :
  ba_ok bm bs -> 0 <= len < 2 ^ 32 ->
  let k := ba_order len in
  exists r bm', ba_allocate len bm = CVal (r, bm') /\
    ((r = -1 /\ bm' = bm /\
      forall j, 0 <= j -> j mod 2 ^ k = 0 -> j + 2 ^ k <= num_entries ->
        exists b, b ∈ bs /\ ~ disjoint_blocks (mkBlock j k true) b) \/
     (0 <= r /\ r + 2 ^ k <= num_entries /\ len <= 2 ^ k * BA_MIN_ALLOC /\
      (forall b, b ∈ bs -> disjoint_blocks (mkBlock r k true) b) /\
      ba_ok bm' (mkBlock r k true :: bs))).
Proof.
  intros (Hlen & t & Hc & Hr & Hp) Hl k. destruct (ba_order_spec len Hl) as [Hk1 Hk2]. fold k in Hk1, Hk2.
  unfold ba_allocate. fold k. change BA_MAX_ORDER with 128. zif.
  assert (Hfu : (length (blocks t 0 8) <= Z.to_nat num_entries)%nat).
  { pose proof (blocks_length t 0 8) as H. change num_entries with 256. change (size 8) with 256 in H. lia. }
  assert (He : forall b, b ∈ [] ++ blocks t 0 8 -> bm !! Z.to_nat (bidx b) = Some (entry_of b)).
  { intros b Hb. by eapply blocks_entries. }
  destruct (ba_search_spec k bm ltac:(apply u8_small; lia) (blocks t 0 8) [] (Z.to_nat num_entries) 0 (-1)
    ltac:(lia) (blocks_chain bm t 0 8 Hr) Hfu He) as (r & Es & Hbest).
  { left. split; [done|]. intros b Hb. by apply elem_of_nil in Hb. }
  rewrite Es. cbn [mbind cres_bind]. simpl app in Hbest.
  destruct Hbest as [[-> Hn]|(b & Hb & <- & H0 & Hf & _)].
  - exists (-1), bm. split; [done|]. left. split_and!; try done. intros j Hj0 Hj Hjn.
    destruct (no_place t 0 8 j (Z.to_nat k)) as (b & Hb & Hd); rewrite ?Z2Nat.id in * by lia;
      [done|done|done|by split; rewrite ?Z2Nat.id by lia|done|done|]. exists b. by rewrite <- Hp.
  - zif. unfold fits in Hf. apply andb_true_iff in Hf as [Hu Hf%Z.leb_le].
    destruct (ba_place t bm b (Z.to_nat k)) as (bm1 & bm2 & t' & E1 & E2 & E3 & L2 & Q1 & Q2 & Q3);
      [done|done|done|done|by destruct (bused b)|lia|].
    rewrite Z2Nat.id in * by lia. rewrite E1. cbn [mbind cres_bind]. rewrite E2. cbn [mbind cres_bind border].
    rewrite E3. cbn [mbind cres_bind]. exists (bidx b), bm2. split; [done|]. right.
    assert (Hin : mkBlock (bidx b) k true ∈ used t' 0 8) by (rewrite Q3; by left).
    apply list_elem_of_filter in Hin as [_ Hin].
    destruct (blocks_range t' 0 8 _ root_aligned Hin) as (k' & Ek & Hk' & _ & _ & H2). simpl in Ek, H2.
    rewrite <- Ek in H2. split_and!; try (done || lia).
    + intros b' Hb'. rewrite <- Hp in Hb'. apply list_elem_of_filter in Hb' as [Hu' Hb'].
      destruct (blocks_disjoint t 0 8 b b' root_aligned Hb Hb') as [->|Hd].
      { by rewrite Hu' in Hu. }
      assert (2 ^ k <= 2 ^ bord b) by (apply Z.pow_le_mono_r; lia).
      unfold disjoint_blocks in *. simpl. lia.
    + split; [done|]. exists t'. split_and!; try done. by rewrite Q3, Hp.
Qed.

(** C8: ba_allocate places libraries without overlap: on a bitmap in which the
    blocks bs are allocated, a request for len bytes either returns the index of a
    block of at least len bytes that lies in the region, does not overlap any of
    them and is then allocated too, nothing else changing; or it returns -1 and
    leaves the bitmap alone, and then every aligned place of the required size
    overlaps an allocated block. *)
Theorem ba_allocate_fresh (bm : bitmap) (bs : list block) (len : Z) :
  ba_ok bm bs -> 0 <= len < 2 ^ 32 ->
  let k := ba_order len in
  exists r bm', ba_allocate len bm = CVal (r, bm') /\
    ((r = -1 /\ bm' = bm /\
      forall j, 0 <= j -> j mod 2 ^ k = 0 -> j + 2 ^ k <= num_entries ->
        exists b, b ∈ bs /\ ~ disjoint_blocks (mkBlock j k true) b) \/
     (0 <= r /\ r + 2 ^ k <= num_entries /\ len <= 2 ^ k * BA_MIN_ALLOC /\
      (forall b, b ∈ bs -> disjoint_blocks (mkBlock r k true) b) /\
      ba_ok bm' (mkBlock r k true :: bs))).
Proof. apply ba_allocate_spec. Qed.

(** The representation, checked by evaluation. *)
Definition unmarked (bm : bitmap) (i : Z) : bool :=
  match bm !! Z.to_nat i with Some b => allocated b =? 0 | None => false end.

Definition leaf_check (bm : bitmap) (a : Z) (o : nat) (u : bool) : bool :=
  match bm !! Z.to_nat a with
  | Some b => (allocated b =? b2z u) && (border b =? Z.of_nat o)
  | None => false
  end && all_from (unmarked bm) (Z.to_nat (size o - 1)) (a + 1).

Fixpoint repr_check (bm : bitmap) (t : tree) (a : Z) (o : nat) : bool :=
  match t, o with
  | TFree, _ => leaf_check bm a o false
  | TUsed, _ => leaf_check bm a o true
  | TSplit l r, S o' => repr_check bm l a o' && repr_check bm r (a + size o') o'
  | TSplit _ _, O => false
  end.

Lemma leaf_check_ok bm a o u : leaf_check bm a o u = true -> leaf_repr bm a o u.
Proof.
  unfold leaf_check. intros [H1 H2]%andb_true_iff. split.
  - destruct (bm !! Z.to_nat a) as [[x y]|]; [|done]. simpl in H1. zbool. by subst.
  - intros i Hi. pose proof (range_check _ _ _ H2 i ltac:(lia)) as H. unfold unmarked in H.
    destruct (bm !! Z.to_nat i) as [[x y]|]; [|done]. simpl in H. zbool. subst. eauto.
Qed.

Lemma repr_check_ok bm t a o : repr_check bm t a o = true -> repr bm t a o.
Proof.
  revert a o. induction t as [| |l IHl r IHr]; intros a o; cbn [repr_check repr].
  1,2: apply leaf_check_ok.
  destruct o as [|o]; [done|]. intros [H1 H2]%andb_true_iff. eauto.
Qed.

(** The region after placing libraries of 1 MB and of 3 MB. *)
Definition ba_ex_bm : bitmap :=
  match ba_allocate 1000000 bitmap1 with
  | CVal (_, bm) => match ba_allocate 3000000 bm with CVal (_, bm') => bm' | _ => bm end
  | _ => bitmap1
  end.
Definition ba_ex_blocks : list block := [mkBlock 0 0 true; mkBlock 4 2 true].
Definition ba_ex_tree : tree :=
  TSplit (TSplit (TSplit (TSplit (TSplit (TSplit (TSplit (TSplit TUsed TFree) TFree) TUsed)
    TFree) TFree) TFree) TFree) TFree.

Lemma ba_ex_ok : ba_ok ba_ex_bm ba_ex_blocks.
Proof.
  split; [vm_compute; reflexivity|]. exists ba_ex_tree. split_and!.
  - vm_compute. intuition discriminate.
  - apply repr_check_ok. vm_compute. reflexivity.
  - vm_compute. done.
Qed.

Lemma ba_allocate_fresh_witness :
  exists r bm', ba_allocate 5000000 ba_ex_bm = CVal (r, bm') /\ 0 <= r /\
    ba_ok bm' (mkBlock r (ba_order 5000000) true :: ba_ex_blocks).
Proof.
  destruct (ba_allocate_fresh ba_ex_bm ba_ex_blocks 5000000) as (r & bm' & E & H).
  - apply ba_ex_ok.
  - lia.
  - exists r, bm'. destruct H as [(-> & _)|(H1 & _ & _ & _ & H2)].
    + exfalso. apply (f_equal (fun c => match c with CVal (i, _) => i | _ => 0 end)) in E.
      vm_compute in E. discriminate.
    + split; [exact E|]. split; [exact H1 | exact H2].
Defined.

(** The effect of ba_free. *)
Lemma ba_free_spec (bm : bitmap) (b : block) (bs : list block) :
  ba_ok bm (b :: bs) ->
  match bs with
  | [] => ba_free (bidx b) bm = CUndef
  | _ => exists bm', ba_free (bidx b) bm = CVal bm' /\ ba_ok bm' bs
  end.
Proof.
  intros (Hlen & t & Hc & Hr & Hp).
  assert (Hin : b ∈ used t 0 8) by (rewrite Hp; by left).
  apply list_elem_of_filter in Hin as [Hu Hin].
  destruct (blocks_range t 0 8 b root_aligned Hin) as (k & Ek & Hk & Hal & H1 & H2).
  change (0 + size 8) with 256 in H2. pose proof (size_pos k).
  destruct (ba_free_subtree t 0 8 bm b root_aligned Hlen ltac:(done) ltac:(lia) Hin Hu Hr)
    as (bm' & n & Hn & S1 & R1 & E1).
  assert (L1 : length bm' = 256%nat) by (rewrite (proj1 S1); done).
  pose proof (tfree_used t 0 8 b root_aligned Hin Hu) as Hused. rewrite Hp in Hused.
  apply Permutation.Permutation_cons_inv in Hused.
  assert (E : ba_free (bidx b) bm =
    if is_tfree (tfree t 0 8 (bidx b)) then ba_free_loop (128 - n) 0 bm' else CVal bm').
  { rewrite <- (E1 (128 - n)%nat) by lia. unfold ba_free.
    rewrite (aget_val bm (bidx b) _ ltac:(lia) (blocks_entries bm t 0 8 b Hr Hin)). cbn [mbind cres_bind].
    rewrite aset_val by lia. cbn [mbind cres_bind]. by replace (n + (128 - n))%nat with 128%nat by lia. }
  destruct (is_tfree (tfree t 0 8 (bidx b))) eqn:Ef.
  - apply is_tfree_spec in Ef. rewrite Ef in Hused, R1. simpl in Hused.
    apply Permutation_nil_r in Hused as ->. rewrite E. destruct (128 - n)%nat eqn:En; [lia|].
    cbn [ba_free_loop]. rewrite (aget_val bm' 0 _ ltac:(done) (proj1 R1)). cbn [mbind cres_bind].
    change (BA_BUDDY_INDEX 0 _) with 256. unfold aget.
    by rewrite (proj2 (lookup_ge_None bm' (Z.to_nat 256))) by (rewrite L1; simpl; lia).
  - destruct bs as [|b' bs].
    + exfalso. symmetry in Hused. apply Permutation_nil_r in Hused.
      apply unused_free in Hused; [|by apply tfree_coalesced]. by rewrite Hused in Ef.
    + exists bm'. split; [done|]. split; [done|]. exists (tfree t 0 8 (bidx b)).
      split_and!; [by apply tfree_coalesced|done|done].
Qed.

(** C9: ba_free releases exactly one block and merges it with its free buddies:
    on a bitmap in which b and the blocks bs are allocated it succeeds and leaves
    exactly bs allocated, fully merged, provided that another block is still
    allocated.  Releasing the last one merges the region into a single block of
    order 8 and then looks at the entry of its buddy, 256, which is out of the
    bounds of ba_bitmap. *)
Theorem ba_free_releases (bm : bitmap) (b : block) (bs : list block) :
  ba_ok bm (b :: bs) ->
  match bs with
  | [] => ba_free (bidx b) bm = CUndef
  | _ => exists bm', ba_free (bidx b) bm = CVal bm' /\ ba_ok bm' bs
  end.
Proof. apply ba_free_spec. Qed.

Lemma ba_free_releases_witness :
  exists bm', ba_free 0 ba_ex_bm = CVal bm' /\ ba_ok bm' [mkBlock 4 2 true].
Proof. apply (ba_free_releases ba_ex_bm (mkBlock 0 0 true) [mkBlock 4 2 true]). apply ba_ex_ok. Defined.
