(* ===== verification/Digest.v ===== *)
(** * Block hashing in pieces

    MD5 and SHA-1 hash a message in blocks of 64 bytes and keep the unfinished
    block in a buffer between two updates.  This file states what such a digest
    computes of a whole message ([hashed], [pending]), independently of how it
    was cut into updates, as the interface that the two implementations are
    proved against. *)

From Stdlib Require Import ZArith Lia.
From stdpp Require Import base list numbers.
From S2P Require Import Prelude.

Open Scope Z_scope.

Notation byte := Z (only parsing).
Definition block_size : nat := 64.

(** The full blocks of a message, and the bytes after them. *)
Fixpoint chunks_fuel (fuel : nat) (l : list byte) : list (list byte) :=
  match fuel with
  | O => []
  | S f => if decide (length l < block_size)%nat then []
           else take block_size l :: chunks_fuel f (drop block_size l)
  end.
Definition chunks (l : list byte) : list (list byte) := chunks_fuel (length l) l.
Definition pending (l : list byte) : list byte := drop (length l / block_size * block_size) l.

Lemma chunks_fuel_enough f l : (length l <= f)%nat -> chunks_fuel f l = chunks l.
Proof.
  unfold chunks. revert l. assert (G : forall f g l, (length l <= f)%nat -> (length l <= g)%nat ->
    chunks_fuel f l = chunks_fuel g l); [|intros l H; by apply G].
  clear f. induction f as [|f IH]; intros g l H1 H2.
  - destruct l; [|simpl in H1; lia]. by destruct g.
  - destruct g as [|g].
    + by destruct l; [|simpl in H2; lia].
    + cbn [chunks_fuel]. case_decide; [done|]. f_equal. unfold block_size in *.
      apply IH; rewrite length_drop; lia.
Qed.

Lemma chunks_short l : (length l < block_size)%nat -> chunks l = [].
Proof. intros H. unfold chunks. destruct l; [done|]. cbn [length chunks_fuel]. by rewrite decide_True. Qed.

Lemma chunks_block b l : length b = block_size -> chunks (b ++ l) = b :: chunks l.
Proof.
  intros Hb. rewrite <- (chunks_fuel_enough (S (length (b ++ l)))) by lia. cbn [chunks_fuel].
  rewrite decide_False by (rewrite length_app, Hb; lia).
  rewrite take_app_length' by done. rewrite drop_app_length' by done. f_equal.
  apply chunks_fuel_enough. rewrite length_app. lia.
Qed.

Lemma pending_short l : (length l < block_size)%nat -> pending l = l.
Proof. intros H. unfold pending. by rewrite Nat.div_small. Qed.

Lemma pending_block b l : length b = block_size -> pending (b ++ l) = pending l.
Proof.
  intros Hb. unfold pending. rewrite length_app, Hb.
  replace (block_size + length l)%nat with (length l + 1 * block_size)%nat by (unfold block_size; lia).
  rewrite Nat.div_add by (unfold block_size; lia).
  rewrite drop_app_ge by (rewrite Hb; nia). f_equal. rewrite Hb. nia.
Qed.

Lemma pending_length l : length (pending l) = (length l mod block_size)%nat.
Proof.
  unfold pending. rewrite length_drop.
  pose proof (Nat.div_mod_eq (length l) block_size). lia.
Qed.

Lemma pending_lt l : (length (pending l) < block_size)%nat.
Proof. rewrite pending_length. apply Nat.mod_upper_bound. unfold block_size. lia. Qed.

(** Every list is full blocks and a pending rest. *)
Lemma chunks_ind (P : list byte -> Prop) :
  (forall l, (length l < block_size)%nat -> P l) ->
  (forall b l, length b = block_size -> P l -> P (b ++ l)) -> forall l, P l.
Proof.
  intros H1 H2 l. remember (length l) as n eqn:E. revert l E.
  induction (lt_wf n) as [n _ IH]. intros l ->.
  destruct (decide (length l < block_size)%nat) as [Hs|Hs]; [by apply H1|].
  rewrite <- (take_drop block_size l). apply H2; [rewrite length_take; lia|].
  eapply IH; [|reflexivity]. rewrite length_drop. unfold block_size in *. lia.
Qed.

Lemma chunks_app l1 l2 : chunks (l1 ++ l2) = chunks l1 ++ chunks (pending l1 ++ l2).
Proof.
  revert l1. apply (chunks_ind (fun l1 => chunks (l1 ++ l2) = chunks l1 ++ chunks (pending l1 ++ l2))).
  - intros l H. by rewrite (chunks_short l H), (pending_short l H).
  - intros b l Hb IH.
    rewrite <- (app_assoc b l l2), (chunks_block b (l ++ l2)), (chunks_block b l), (pending_block b l), IH by done.
    done.
Qed.

Lemma pending_app l1 l2 : pending (l1 ++ l2) = pending (pending l1 ++ l2).
Proof.
  revert l1. apply (chunks_ind (fun l1 => pending (l1 ++ l2) = pending (pending l1 ++ l2))).
  - intros l H. by rewrite (pending_short l H).
  - intros b l Hb IH.
    by rewrite <- (app_assoc b l l2), (pending_block b (l ++ l2)), (pending_block b l).
Qed.

Lemma chunks_bytes (P : byte -> Prop) l : Forall P l -> Forall (fun b => Forall P b /\ length b = block_size) (chunks l).
Proof.
  revert l. apply (chunks_ind (fun l => Forall P l -> Forall _ (chunks l))).
  - intros l H _. by rewrite chunks_short.
  - intros b l Hb IH [H1 H2]%Forall_app. rewrite chunks_block by done. constructor; auto.
Qed.

Section Hash.
Context {St : Type} (compress : St -> list byte -> St).

(** The chaining value after the full blocks of a message. *)
Definition hashed (st : St) (l : list byte) : St := fold_left compress (chunks l) st.

Lemma hashed_app st l1 l2 : hashed st (l1 ++ l2) = hashed (hashed st l1) (pending l1 ++ l2).
Proof. unfold hashed. by rewrite chunks_app, fold_left_app. Qed.

Lemma hashed_block st b l : length b = block_size -> hashed st (b ++ l) = hashed (compress st b) l.
Proof. intros H. unfold hashed. by rewrite chunks_block. Qed.

Lemma hashed_short st l : (length l < block_size)%nat -> hashed st l = st.
Proof. intros H. unfold hashed. by rewrite chunks_short. Qed.
End Hash.

(** ** Bytes and words *)

(** Four bytes, least significant or most significant first. *)
Definition le32 (b0 b1 b2 b3 : byte) : Z := b0 + 256 * b1 + 65536 * b2 + 16777216 * b3.

Fixpoint words_with (f : byte -> byte -> byte -> byte -> Z) (l : list byte) : list Z :=
  match l with
  | b0 :: b1 :: b2 :: b3 :: l' => f b0 b1 b2 b3 :: words_with f l'
  | _ => []
  end.

(** The four bytes of a word, least significant first; eight bytes of a count. *)
Definition bytes32_le (w : Z) : list byte :=
  [Z.land w 255; Z.land (Z.shiftr w 8) 255; Z.land (Z.shiftr w 16) 255; Z.land (Z.shiftr w 24) 255].

Definition is_u8 (b : Z) : Prop := 0 <= b < 256.

(** Every second byte of a word. *)
Lemma land_ff00ff x : 0 <= x ->
  Z.land x 0x00ff00ff = x mod 256 + 65536 * ((x / 65536) mod 256).
Proof.
  intros Hx. change 0x00ff00ff with (Z.lor (Z.ones 8) (Z.shiftl (Z.ones 8) 16)).
  rewrite Z.land_lor_distr_r, Z.land_ones by lia.
  assert (E : Z.land x (Z.shiftl (Z.ones 8) 16) = Z.shiftl (Z.land (Z.shiftr x 16) (Z.ones 8)) 16).
  { apply Z.bits_inj'. intros i Hi. rewrite Z.land_spec, !Z.shiftl_spec by lia.
    destruct (Z.lt_ge_cases i 16).
    - rewrite !(Z.testbit_neg_r _ (i - 16)) by lia. by rewrite andb_false_r.
    - rewrite Z.land_spec, Z.shiftr_spec by lia. by replace (i - 16 + 16) with i by lia. }
  rewrite E, Z.land_ones, Z.shiftr_div_pow2, Z.shiftl_mul_pow2 by lia.
  change (2 ^ 8) with 256. change (2 ^ 16) with 65536. rewrite lor_add; [lia|].
  rewrite Z.mul_comm, (Z.land_comm _ (65536 * _)).
  replace (65536 * ((x / 65536) mod 256)) with (Z.shiftl ((x / 65536) mod 256) 16)
    by (rewrite Z.shiftl_mul_pow2; lia).
  apply Z.bits_inj'. intros i Hi. rewrite Z.land_spec, Z.bits_0, Z.shiftl_spec by lia.
  destruct (Z.lt_ge_cases i 16).
  - by rewrite Z.testbit_neg_r by lia.
  - rewrite (Z.bits_above_log2 (x mod 256)); [by rewrite andb_false_r|apply Z.mod_pos_bound; lia|].
    pose proof (Z.mod_pos_bound x 256 ltac:(lia)).
    assert (Hlog : Z.log2 (x mod 256) <= Z.log2 255) by (apply Z.log2_le_mono; lia).
    change (Z.log2 255) with 7 in Hlog. lia.
Qed.

Lemma land_ff00ff00 x : 0 <= x ->
  Z.land x 0xff00ff00 = 256 * ((x / 256) mod 256 + 65536 * ((x / 16777216) mod 256)).
Proof.
  intros Hx. change 0xff00ff00 with (Z.shiftl 0x00ff00ff 8).
  assert (E : Z.land x (Z.shiftl 0x00ff00ff 8) = Z.shiftl (Z.land (Z.shiftr x 8) 0x00ff00ff) 8).
  { apply Z.bits_inj'. intros i Hi. rewrite Z.land_spec, !Z.shiftl_spec by lia.
    destruct (Z.lt_ge_cases i 8).
    - rewrite !(Z.testbit_neg_r _ (i - 8)) by lia. by rewrite andb_false_r.
    - rewrite Z.land_spec, Z.shiftr_spec by lia. by replace (i - 8 + 8) with i by lia. }
  rewrite E, Z.shiftr_div_pow2, Z.shiftl_mul_pow2 by lia. change (2 ^ 8) with 256.
  rewrite land_ff00ff by zdm. rewrite Z.div_div by lia. change (256 * 65536) with 16777216. lia.
Qed.

(** The length of the padding: a 1 bit, zeros and eight bytes of length fill the
    last block. *)
Definition pad_zeros (n : nat) : nat := ((55 + 64 - n mod 64) mod 64)%nat.

Lemma pad_fills n : ((n + 1 + pad_zeros n + 8) mod 64 = 0)%nat.
Proof.
  unfold pad_zeros. pose proof (Nat.div_mod_eq n 64) as E. pose proof (Nat.mod_upper_bound n 64).
  set (r := (n mod 64)%nat) in *. set (q := (n / 64)%nat) in *.
  destruct (decide (r <= 55)%nat).
  - replace ((55 + 64 - r) mod 64)%nat with (55 - r)%nat.
    + replace (n + 1 + (55 - r) + 8)%nat with ((q + 1) * 64)%nat by lia. apply Nat.Div0.mod_mul.
    + replace (55 + 64 - r)%nat with ((55 - r) + 1 * 64)%nat by lia.
      rewrite Nat.Div0.mod_add. rewrite Nat.mod_small; lia.
  - rewrite (Nat.mod_small (55 + 64 - r)) by lia.
    replace (n + 1 + (55 + 64 - r) + 8)%nat with ((q + 2) * 64)%nat by lia. apply Nat.Div0.mod_mul.
Qed.
