(* ===== verification/Md5.v ===== *)
(** * MD5: libc/bionic/md5.c

    The context is a record, messages are lists of bytes.  The words of a block
    are read in the byte order of the host; the code swaps them when it is built
    with WORDS_BIGENDIAN. *)

From Stdlib Require Import ZArith Lia.
From stdpp Require Import base list numbers.
From S2P Require Import Prelude Digest.

Open Scope Z_scope.
Local Open Scope cint_scope.

(** ** The code *)

Record md5 := mkMd5 { sz0 : Z; sz1 : Z; counter : Z * Z * Z * Z; save : list byte }.

(** The save area of a new context holds whatever memory held. *)
Definition MD5_Init (m : md5) : md5 :=
  mkMd5 0 0 (0x67452301, 0xefcdab89, 0x98badcfe, 0x10325476) (save m).

Definition cshift (x n : Z) : Z := u32 (Z.shiftl x n) .| Z.shiftr x (32 - n).
Definition not32 (x : Z) : Z := u32 (Z.lnot x).

Definition F (x y z : Z) : Z := (x .& y) .| (not32 x .& z).
Definition G (x y z : Z) : Z := (x .& z) .| (y .& not32 z).
Definition H (x y z : Z) : Z := (x .^ y) .^ z.
Definition I (x y z : Z) : Z := y .^ (x .| not32 z).

Definition DOIT (OP : Z -> Z -> Z -> Z) (X : list Z) (a b c d : Z) (k : nat) (s i : Z) : Z :=
  u32 (b + cshift (u32 (a + OP b c d + nth k X 0 + i)) s).
Definition DO1 := DOIT F.
Definition DO2 := DOIT G.
Definition DO3 := DOIT H.
Definition DO4 := DOIT I.

(** The four rounds of calc, sixteen operations each. *)
Definition calc_round1 (X : list Z) (c : Z * Z * Z * Z) : Z * Z * Z * Z :=
  let '(A, B, C, D) := c in
  let A := DO1 X A B C D 0 7 0xd76aa478 in
  let D := DO1 X D A B C 1 12 0xe8c7b756 in
  let C := DO1 X C D A B 2 17 0x242070db in
  let B := DO1 X B C D A 3 22 0xc1bdceee in
  let A := DO1 X A B C D 4 7 0xf57c0faf in
  let D := DO1 X D A B C 5 12 0x4787c62a in
  let C := DO1 X C D A B 6 17 0xa8304613 in
  let B := DO1 X B C D A 7 22 0xfd469501 in
  let A := DO1 X A B C D 8 7 0x698098d8 in
  let D := DO1 X D A B C 9 12 0x8b44f7af in
  let C := DO1 X C D A B 10 17 0xffff5bb1 in
  let B := DO1 X B C D A 11 22 0x895cd7be in
  let A := DO1 X A B C D 12 7 0x6b901122 in
  let D := DO1 X D A B C 13 12 0xfd987193 in
  let C := DO1 X C D A B 14 17 0xa679438e in
  let B := DO1 X B C D A 15 22 0x49b40821 in
  (A, B, C, D).

Definition calc_round2 (X : list Z) (c : Z * Z * Z * Z) : Z * Z * Z * Z :=
  let '(A, B, C, D) := c in
  let A := DO2 X A B C D 1 5 0xf61e2562 in
  let D := DO2 X D A B C 6 9 0xc040b340 in
  let C := DO2 X C D A B 11 14 0x265e5a51 in
  let B := DO2 X B C D A 0 20 0xe9b6c7aa in
  let A := DO2 X A B C D 5 5 0xd62f105d in
  let D := DO2 X D A B C 10 9 0x2441453 in
  let C := DO2 X C D A B 15 14 0xd8a1e681 in
  let B := DO2 X B C D A 4 20 0xe7d3fbc8 in
  let A := DO2 X A B C D 9 5 0x21e1cde6 in
  let D := DO2 X D A B C 14 9 0xc33707d6 in
  let C := DO2 X C D A B 3 14 0xf4d50d87 in
  let B := DO2 X B C D A 8 20 0x455a14ed in
  let A := DO2 X A B C D 13 5 0xa9e3e905 in
  let D := DO2 X D A B C 2 9 0xfcefa3f8 in
  let C := DO2 X C D A B 7 14 0x676f02d9 in
  let B := DO2 X B C D A 12 20 0x8d2a4c8a in
  (A, B, C, D).

Definition calc_round3 (X : list Z) (c : Z * Z * Z * Z) : Z * Z * Z * Z :=
  let '(A, B, C, D) := c in
  let A := DO3 X A B C D 5 4 0xfffa3942 in
  let D := DO3 X D A B C 8 11 0x8771f681 in
  let C := DO3 X C D A B 11 16 0x6d9d6122 in
  let B := DO3 X B C D A 14 23 0xfde5380c in
  let A := DO3 X A B C D 1 4 0xa4beea44 in
  let D := DO3 X D A B C 4 11 0x4bdecfa9 in
  let C := DO3 X C D A B 7 16 0xf6bb4b60 in
  let B := DO3 X B C D A 10 23 0xbebfbc70 in
  let A := DO3 X A B C D 13 4 0x289b7ec6 in
  let D := DO3 X D A B C 0 11 0xeaa127fa in
  let C := DO3 X C D A B 3 16 0xd4ef3085 in
  let B := DO3 X B C D A 6 23 0x4881d05 in
  let A := DO3 X A B C D 9 4 0xd9d4d039 in
  let D := DO3 X D A B C 12 11 0xe6db99e5 in
  let C := DO3 X C D A B 15 16 0x1fa27cf8 in
  let B := DO3 X B C D A 2 23 0xc4ac5665 in
  (A, B, C, D).

Definition calc_round4 (X : list Z) (c : Z * Z * Z * Z) : Z * Z * Z * Z :=
  let '(A, B, C, D) := c in
  let A := DO4 X A B C D 0 6 0xf4292244 in
  let D := DO4 X D A B C 7 10 0x432aff97 in
  let C := DO4 X C D A B 14 15 0xab9423a7 in
  let B := DO4 X B C D A 5 21 0xfc93a039 in
  let A := DO4 X A B C D 12 6 0x655b59c3 in
  let D := DO4 X D A B C 3 10 0x8f0ccc92 in
  let C := DO4 X C D A B 10 15 0xffeff47d in
  let B := DO4 X B C D A 1 21 0x85845dd1 in
  let A := DO4 X A B C D 8 6 0x6fa87e4f in
  let D := DO4 X D A B C 15 10 0xfe2ce6e0 in
  let C := DO4 X C D A B 6 15 0xa3014314 in
  let B := DO4 X B C D A 13 21 0x4e0811a1 in
  let A := DO4 X A B C D 4 6 0xf7537e82 in
  let D := DO4 X D A B C 11 10 0xbd3af235 in
  let C := DO4 X C D A B 2 15 0x2ad7d2bb in
  let B := DO4 X B C D A 9 21 0xeb86d391 in
  (A, B, C, D).

Definition calc (counter : Z * Z * Z * Z) (X : list Z) : Z * Z * Z * Z :=
  let '(A, B, C, D) := counter in
  let AA := A in let BB := B in let CC := C in let DD := D in
  let '(A, B, C, D) := calc_round4 X (calc_round3 X (calc_round2 X (calc_round1 X (A, B, C, D)))) in
  (u32 (A + AA), u32 (B + BB), u32 (C + CC), u32 (D + DD)).

Definition swap_u_int32_t (t : Z) : Z :=
  let temp1 := cshift t 16 in
  let temp2 := Z.shiftr temp1 8 in
  let temp1 := temp1 .& 0x00ff00ff in
  let temp2 := temp2 .& 0x00ff00ff in
  let temp1 := u32 (Z.shiftl temp1 8) in
  temp1 .| temp2.

Section Code.
(** The byte order of the host, and whether WORDS_BIGENDIAN is defined. *)
Context (big_endian words_bigendian : bool).

(** A word of memory as the host reads it. *)
Definition host_word (b0 b1 b2 b3 : byte) : Z :=
  if big_endian then le32 b3 b2 b1 b0 else le32 b0 b1 b2 b3.

(** The words that calc sees of the save area. *)
Definition save_words (l : list byte) : list Z :=
  let u := words_with host_word l in
  if words_bigendian then map swap_u_int32_t u else u.

(** The loop of MD5_Update: [offset] bytes of the save area are in use. *)
Fixpoint update_loop (fuel : nat) (offset : nat) (p : list byte) (counter : Z * Z * Z * Z)
    (save : list byte) : Z * Z * Z * Z * list byte :=
  match fuel with
  | O => (counter, save)
  | S fuel' =>
      match p with
      | [] => (counter, save)
      | _ =>
          let l := Nat.min (length p) (64 - offset) in
          let save := take offset save ++ take l p ++ drop (offset + l) save in
          let offset := (offset + l)%nat in
          if Nat.eqb offset 64
          then update_loop fuel' 0 (drop l p) (calc counter (save_words save)) save
          else update_loop fuel' offset (drop l p) counter save
      end
  end.

(** Every iteration consumes a byte. *)
Definition MD5_Update (m : md5) (v : list byte) : md5 :=
  let len := Z.of_nat (length v) in
  let old_sz := sz0 m in
  let s0 := u32 (sz0 m + u32 (len * 8)) in
  let s1 := if s0 <? old_sz then u32 (sz1 m + 1) else sz1 m in
  let offset := Z.to_nat ((old_sz / 8) mod 64) in
  let '(c, s) := update_loop (length v) offset v (counter m) (save m) in
  mkMd5 s0 s1 c s.

(** The padding: the bytes of [zeros] that are hashed. *)
Definition md5_padding (m : md5) : list byte :=
  let offset := (sz0 m / 8) mod 64 in
  let dstart := u32 (120 - offset - 1) mod 64 + 1 in
  let zeros := 0x80 :: replicate 71 0 in
  let put (k : Z) (b : byte) (l : list byte) := <[Z.to_nat (dstart + k) := b]> l in
  let zeros := put 0 (Z.shiftr (sz0 m) 0 .& 0xff) zeros in
  let zeros := put 1 (Z.shiftr (sz0 m) 8 .& 0xff) zeros in
  let zeros := put 2 (Z.shiftr (sz0 m) 16 .& 0xff) zeros in
  let zeros := put 3 (Z.shiftr (sz0 m) 24 .& 0xff) zeros in
  let zeros := put 4 (Z.shiftr (sz1 m) 0 .& 0xff) zeros in
  let zeros := put 5 (Z.shiftr (sz1 m) 8 .& 0xff) zeros in
  let zeros := put 6 (Z.shiftr (sz1 m) 16 .& 0xff) zeros in
  let zeros := put 7 (Z.shiftr (sz1 m) 24 .& 0xff) zeros in
  take (Z.to_nat (dstart + 8)) zeros.

Definition md5_result (c : Z * Z * Z * Z) : list byte :=
  let '(A, B, C, D) := c in bytes32_le A ++ bytes32_le B ++ bytes32_le C ++ bytes32_le D.

Definition MD5_Final (m : md5) : list byte :=
  md5_result (counter (MD5_Update m (md5_padding m))).
End Code.

(** ** The digest of RFC 1321

    Written from the RFC, with none of the functions above: the table T is
    computed from the sine, the operations of a round come from the RFC's index
    and shift patterns, words are read and written by plain arithmetic. *)

Section Rfc1321.

(** Twice the precision of T and more: the Taylor series of the sine of a whole
    number of radians, in fixed point with 160 binary places. *)
Fixpoint sin_sum (n : nat) (k xx term : Z) : Z :=
  match n with
  | O => 0
  | S n => term + sin_sum n (k + 2) xx (- (term * xx) / ((k + 1) * (k + 2)))
  end.

(** T[i]: the integer part of 4294967296 times abs(sin(i)). *)
Definition rfc_T (i : Z) : Z := Z.abs (sin_sum 150 1 (i * i) (i * 2 ^ 160)) / 2 ^ 128.

(** The word and the shift of operation [i], of 64. *)
Definition rfc_k (i : nat) : nat :=
  (match i / 16 with 0 => i | 1 => 5 * i + 1 | 2 => 3 * i + 5 | _ => 7 * i end mod 16)%nat.
Definition rfc_s (i : nat) : Z :=
  nth (i mod 4) (nth (i / 16) [[7; 12; 17; 22]; [5; 9; 14; 20]; [4; 11; 16; 23]; [6; 10; 15; 21]] []) 0.

Definition rfc_not (x : Z) : Z := 2 ^ 32 - 1 - x mod 2 ^ 32.
Definition rfc_rotate (x s : Z) : Z := (x * 2 ^ s) mod 2 ^ 32 + x / 2 ^ (32 - s).

(** The auxiliary functions F, G, H and I. *)
Definition rfc_aux (round : nat) (x y z : Z) : Z :=
  match round with
  | 0%nat => Z.lor (Z.land x y) (Z.land (rfc_not x) z)
  | 1%nat => Z.lor (Z.land x z) (Z.land y (rfc_not z))
  | 2%nat => Z.lxor x (Z.lxor y z)
  | _ => Z.lxor y (Z.lor x (rfc_not z))
  end.

(** Operation [abcd k s i]: a = b + ((a + f(b,c,d) + X[k] + T[i]) <<< s); the
    next one has the registers turned by one place. *)
Definition rfc_op (X : nat -> Z) (c : Z * Z * Z * Z) (p : nat * nat * Z * Z) : Z * Z * Z * Z :=
  let '(A, B, C, D) := c in
  let '(round, k, s, t) := p in
  (D, (B + rfc_rotate ((A + rfc_aux round B C D + X k + t) mod 2 ^ 32) s) mod 2 ^ 32, B, C).

Definition rfc_ops : list (nat * nat * Z * Z) :=
  map (fun i => ((i / 16)%nat, rfc_k i, rfc_s i, rfc_T (Z.of_nat i + 1))) (seq 0 64).

Definition rfc_block (c : Z * Z * Z * Z) (X : nat -> Z) : Z * Z * Z * Z :=
  let '(A, B, C, D) := c in
  let '(A', B', C', D') := fold_left (rfc_op X) rfc_ops c in
  ((A + A') mod 2 ^ 32, (B + B') mod 2 ^ 32, (C + C') mod 2 ^ 32, (D + D') mod 2 ^ 32).

(** Words of a block, bytes of a number: the low-order byte first. *)
Definition rfc_word (b : list byte) (k : nat) : Z :=
  nth (4 * k) b 0 + 2 ^ 8 * nth (4 * k + 1) b 0 + 2 ^ 16 * nth (4 * k + 2) b 0 + 2 ^ 24 * nth (4 * k + 3) b 0.
Definition rfc_bytes (n : nat) (w : Z) : list byte :=
  map (fun i => (w / 2 ^ (8 * Z.of_nat i)) mod 2 ^ 8) (seq 0 n).

(** The four registers at the start. *)
Definition rfc_init : Z * Z * Z * Z := (0x67452301, 0xefcdab89, 0x98badcfe, 0x10325476).

(** The message, a 1 bit, zeros up to 56 bytes modulo 64, and its length in bits
    modulo 2^64 in eight bytes. *)
Definition md5_pad (n : nat) : list byte :=
  0x80 :: replicate (pad_zeros n) 0 ++ rfc_bytes 8 ((8 * Z.of_nat n) mod 2 ^ 64).

Definition md5_ref (msg : list byte) : list byte :=
  let '(A, B, C, D) :=
    hashed (fun c b => rfc_block c (rfc_word b)) rfc_init (msg ++ md5_pad (length msg)) in
  flat_map (rfc_bytes 4) [A; B; C; D].
End Rfc1321.

(** The digests of RFC 1321, A.5. *)
Example md5_ref_empty : md5_ref [] =
  [0xd4; 0x1d; 0x8c; 0xd9; 0x8f; 0x00; 0xb2; 0x04; 0xe9; 0x80; 0x09; 0x98; 0xec; 0xf8; 0x42; 0x7e].
Proof. vm_compute. reflexivity. Qed.

Example md5_ref_a : md5_ref [97] =
  [0x0c; 0xc1; 0x75; 0xb9; 0xc0; 0xf1; 0xb6; 0xa8; 0x31; 0xc3; 0x99; 0xe2; 0x69; 0x77; 0x26; 0x61].
Proof. vm_compute. reflexivity. Qed.

(** What calc does to a block, as a step of the hash. *)
Definition md5_compress (c : Z * Z * Z * Z) (b : list byte) : Z * Z * Z * Z :=
  calc c (words_with le32 b).

(** ** Operations and rounds *)

Lemma cshift_rotate x s : 0 <= x < 2 ^ 32 -> 0 <= s <= 32 -> cshift x s = rfc_rotate x s.
Proof.
  intros Hx Hs. unfold cshift, rfc_rotate, u32. rewrite Z.shiftl_mul_pow2, Z.shiftr_div_pow2 by lia.
  apply lor_add. assert (0 <= x / 2 ^ (32 - s) < 2 ^ s) as Hq.
  { pose proof (Z.pow_pos_nonneg 2 (32 - s) ltac:(lia) ltac:(lia)).
    split; [apply Z.div_pos; lia|]. apply Z.div_lt_upper_bound; [done|].
    rewrite <- Z.pow_add_r by lia. replace (32 - s + s) with 32 by lia. lia. }
  rewrite (land_low s) by lia.
  replace (((x * 2 ^ s) mod 2 ^ 32) mod 2 ^ s) with 0; [apply Z.land_0_l|].
  replace 32 with (s + (32 - s)) at 1 by lia. rewrite Z.pow_add_r by lia.
  rewrite (Z.mul_comm x), Zmult_mod_distr_l. symmetry. rewrite Z.mul_comm. apply Z.mod_mul.
  apply Z.pow_nonzero; lia.
Qed.

Lemma not32_rfc x : not32 x = rfc_not x.
Proof.
  unfold not32, rfc_not, u32. change (2 ^ 32) with 4294967296. unfold Z.lnot. zdm.
Qed.

Lemma F_rfc x y z : F x y z = rfc_aux 0 x y z.
Proof. unfold F, rfc_aux. by rewrite not32_rfc. Qed.

Lemma G_rfc x y z : G x y z = rfc_aux 1 x y z.
Proof. unfold G, rfc_aux. by rewrite not32_rfc. Qed.

Lemma H_rfc x y z : H x y z = rfc_aux 2 x y z.
Proof. unfold H, rfc_aux. by rewrite Z.lxor_assoc. Qed.

Lemma I_rfc x y z : I x y z = rfc_aux 3 x y z.
Proof. unfold I, rfc_aux. by rewrite not32_rfc. Qed.

(** One assignment of calc is one operation of the RFC. *)
Lemma DOIT_rfc OP round X A B C D k s t l {R} (body : Z -> R) (rest : Z * Z * Z * Z -> R) :
  (forall x y z, OP x y z = rfc_aux round x y z) -> 0 <= s <= 32 ->
  (forall x, body x = rest (fold_left (rfc_op (fun k => nth k X 0)) l (D, x, B, C))) ->
  (let x := DOIT OP X A B C D k s t in body x) =
  rest (fold_left (rfc_op (fun k => nth k X 0)) ((round, k, s, t) :: l) (A, B, C, D)).
Proof.
  intros HO Hs Hb. cbn [fold_left rfc_op]. unfold DOIT. rewrite HO, cshift_rotate by (done || apply u32_range).
  apply Hb.
Qed.

Ltac rfc_step o n L :=
  lazymatch goal with
  | |- (let x := ?op ?X ?A ?B ?C ?D ?k ?s ?t in @?b x) = fold_left _ (_ :: ?l) _ =>
      refine (DOIT_rfc o n X A B C D k s t l b (fun r => r) L _ _); [lia|intros ?; cbv beta]
  end.

(** A round: the goal's sixteen assignments against sixteen operations of the
    computed table. *)
Ltac rfc_round o n L :=
  intros [[[A B] C] D];
  lazymatch goal with |- _ = fold_left _ ?ops _ =>
    let l := eval vm_compute in ops in
    assert (ops = l) as -> by (vm_compute; reflexivity)
  end;
  lazymatch goal with |- ?f ?X _ = _ => cbv beta iota delta [f] end; do 16 rfc_step o n L; reflexivity.

Lemma round1_rfc X : forall c, calc_round1 X c = fold_left (rfc_op (fun k => nth k X 0)) (take 16 rfc_ops) c.
Proof. rfc_round F 0%nat F_rfc. Qed.

Lemma round2_rfc X : forall c, calc_round2 X c = fold_left (rfc_op (fun k => nth k X 0)) (take 16 (drop 16 rfc_ops)) c.
Proof. rfc_round G 1%nat G_rfc. Qed.

Lemma round3_rfc X : forall c, calc_round3 X c = fold_left (rfc_op (fun k => nth k X 0)) (take 16 (drop 32 rfc_ops)) c.
Proof. rfc_round H 2%nat H_rfc. Qed.

Lemma round4_rfc X : forall c, calc_round4 X c = fold_left (rfc_op (fun k => nth k X 0)) (drop 48 rfc_ops) c.
Proof. rfc_round I 3%nat I_rfc. Qed.

Lemma rfc_ops_rounds :
  rfc_ops = take 16 rfc_ops ++ take 16 (drop 16 rfc_ops) ++ take 16 (drop 32 rfc_ops) ++ drop 48 rfc_ops.
Proof. vm_compute. reflexivity. Qed.

Lemma calc_rfc c X : calc c X = rfc_block c (fun k => nth k X 0).
Proof.
  destruct c as [[[A B] C] D]. unfold calc, rfc_block.
  rewrite round1_rfc, round2_rfc, round3_rfc, round4_rfc, <- !fold_left_app, <- rfc_ops_rounds.
  destruct (fold_left _ _ _) as [[[A' B'] C'] D']. unfold u32.
  by rewrite (Z.add_comm A), (Z.add_comm B), (Z.add_comm C), (Z.add_comm D).
Qed.

(** The words of whole groups of four bytes. *)
Lemma words_rfc n l : length l = (4 * n)%nat -> forall k, nth k (words_with le32 l) 0 = rfc_word l k.
Proof.
  revert l. induction n as [|n IH]; intros l Hl k.
  - destruct l; [|simpl in Hl; lia]. unfold rfc_word. rewrite !nth_overflow by (simpl; lia). done.
  - destruct l as [|b0 [|b1 [|b2 [|b3 l]]]]; try (simpl in Hl; lia). cbn [words_with].
    destruct k as [|k]; [unfold rfc_word, le32; simpl; lia|].
    cbn [nth]. rewrite IH by (simpl in Hl; lia). unfold rfc_word.
    replace (4 * S k)%nat with (S (S (S (S (4 * k))))) by lia. done.
Qed.

Lemma fold_left_ext_in {A B} (f g : A -> B -> A) l :
  Forall (fun b => forall a, f a b = g a b) l -> forall a, fold_left f l a = fold_left g l a.
Proof. induction 1 as [|b l H _ IH]; intros a; [done|]. simpl. by rewrite H. Qed.

Lemma rfc_block_ext c X Y : (forall k, X k = Y k) -> rfc_block c X = rfc_block c Y.
Proof.
  intros H. unfold rfc_block. destruct c as [[[A B] C] D].
  rewrite (fold_left_ext_in (rfc_op X) (rfc_op Y)); [done|].
  apply list.Forall_forall. intros [[[r k] s] t] _ [[[? ?] ?] ?]. simpl. by rewrite H.
Qed.

(** The whole hash. *)
Lemma hashed_rfc c l :
  hashed md5_compress c l = hashed (fun c b => rfc_block c (rfc_word b)) c l.
Proof.
  assert (Ht : Forall (fun _ : byte => True) l) by by apply Forall_true.
  apply fold_left_ext_in. eapply Forall_impl; [|exact (chunks_bytes _ l Ht)].
  intros b [_ Hb] a. unfold md5_compress. rewrite calc_rfc. apply rfc_block_ext.
  intros k. by apply (words_rfc 16).
Qed.

Lemma bytes32_rfc w : bytes32_le w = rfc_bytes 4 w.
Proof.
  unfold bytes32_le, rfc_bytes. change 255 with (Z.ones 8). rewrite !Z.land_ones, !Z.shiftr_div_pow2 by lia.
  cbn [map seq]. change (2 ^ (8 * Z.of_nat 0)) with 1. by rewrite Z.div_1_r.
Qed.

Lemma bytes64_rfc w : 0 <= w -> rfc_bytes 8 w = bytes32_le (w mod 2 ^ 32) ++ bytes32_le (w / 2 ^ 32).
Proof.
  intros Hw. rewrite !bytes32_rfc. unfold rfc_bytes. cbn [map seq app].
  repeat match goal with |- context [2 ^ (8 * Z.of_nat ?n)] =>
    let v := eval vm_compute in (2 ^ (8 * Z.of_nat n)) in change (2 ^ (8 * Z.of_nat n)) with v end.
  change (2 ^ 32) with 4294967296. change (2 ^ 8) with 256. rewrite !Z.div_div by lia.
  repeat (f_equal; try zdm).
Qed.

(** ** Words and byte order *)

(** swap_u_int32_t reverses the four bytes of a word. *)
Lemma swap_bytes b0 b1 b2 b3 :
  is_u8 b0 -> is_u8 b1 -> is_u8 b2 -> is_u8 b3 ->
  swap_u_int32_t (le32 b0 b1 b2 b3) = le32 b3 b2 b1 b0.
Proof.
  unfold is_u8. intros H0 H1 H2 H3. unfold swap_u_int32_t.
  assert (E : cshift (le32 b0 b1 b2 b3) 16 = le32 b2 b3 b0 b1).
  { unfold cshift. rewrite Z.shiftl_mul_pow2, Z.shiftr_div_pow2 by lia. change (32 - 16) with 16.
    rewrite lor_add.
    - unfold u32, le32. change (2 ^ 16) with 65536. change (2 ^ 32) with 4294967296. zdm.
    - rewrite (land_low 16) by (unfold le32; change (2 ^ 16) with 65536; zdm).
      replace (u32 (le32 b0 b1 b2 b3 * 2 ^ 16) mod 2 ^ 16) with 0; [apply Z.land_0_l|].
      unfold u32, le32. change (2 ^ 16) with 65536. change (2 ^ 32) with 4294967296. zdm. }
  rewrite E, Z.shiftr_div_pow2 by lia. change (2 ^ 8) with 256.
  rewrite !land_ff00ff by (unfold le32; zdm).
  replace (le32 b2 b3 b0 b1 mod 256 + 65536 * ((le32 b2 b3 b0 b1 / 65536) mod 256)) with (b2 + 65536 * b0)
    by (unfold le32; zdm).
  replace ((le32 b2 b3 b0 b1 / 256) mod 256 + 65536 * ((le32 b2 b3 b0 b1 / 256 / 65536) mod 256))
    with (b3 + 65536 * b1) by (unfold le32; zdm).
  rewrite Z.shiftl_mul_pow2 by lia. change (2 ^ 8) with 256. rewrite u32_small by lia.
  rewrite lor_add; [unfold le32; lia|].
  pose proof (land_ff00ff (b3 + 65536 * b1) ltac:(lia)) as L.
  assert (X : b3 + 65536 * b1 = Z.land (b3 + 65536 * b1) 0x00ff00ff) by (rewrite L; zdm).
  rewrite X, (Z.land_comm _ 0x00ff00ff), Z.land_assoc, land_ff00ff by lia.
  replace (((b2 + 65536 * b0) * 256) mod 256 + 65536 * (((b2 + 65536 * b0) * 256 / 65536) mod 256)) with 0
    by zdm.
  apply Z.land_0_l.
Qed.

Lemma save_words_le be l : Forall is_u8 l -> save_words be be l = words_with le32 l.
Proof.
  unfold save_words. destruct be; [|done]. remember (length l) as n eqn:En. revert l En.
  induction (lt_wf n) as [n _ IH]. intros l -> Hl.
  destruct l as [|b0 [|b1 [|b2 [|b3 l]]]]; try done. cbn [words_with map].
  repeat match goal with X : Forall is_u8 (_ :: _) |- _ => inversion X; clear X; subst end.
  f_equal; [by apply swap_bytes|]. eapply IH; [|reflexivity|done]. simpl. lia.
Qed.

(** ** The update loop *)

#[local] Opaque calc.

Section Update.
Context (be : bool).

Lemma update_loop_spec fuel o p c s t :
  (length p <= fuel)%nat -> length s = 64%nat -> length t = o -> (o < 64)%nat -> take o s = t ->
  Forall is_u8 (t ++ p) ->
  let '(c', s') := update_loop be be fuel o p c s in
  c' = hashed md5_compress c (t ++ p) /\ length s' = 64%nat /\
  take (length (pending (t ++ p))) s' = pending (t ++ p).
Proof.
  revert o p c s t. induction fuel as [|fuel IH]; intros o p c s t Hp Hs Ht Ho Hts Hb.
  - destruct p; [|simpl in Hp; lia]. simpl. rewrite app_nil_r, hashed_short, pending_short, Ht by (unfold block_size; lia). done.
  - cbn [update_loop]. destruct p as [|x p].
    { rewrite app_nil_r, hashed_short, pending_short, Ht by (unfold block_size; lia). done. }
    remember (x :: p) as q eqn:Eq. assert (Hq : (0 < length q)%nat) by (subst; simpl; lia). clear Eq.
    set (l := Nat.min (length q) (64 - o)).
    set (s1 := take o s ++ take l q ++ drop (o + l) s).
    assert (Hs1 : length s1 = 64%nat).
    { unfold s1. rewrite !length_app, !length_take, length_drop. lia. }
    assert (Hpre : take (o + l) s1 = t ++ take l q).
    { unfold s1. rewrite Hts, app_assoc. apply take_app_length'. rewrite length_app, length_take. lia. }
    destruct (Nat.eqb_spec (o + l) 64) as [E|E].
    + assert (Es1 : s1 = t ++ take l q) by (rewrite <- Hpre; symmetry; apply take_ge; lia).
      assert (Hb1 : Forall is_u8 s1).
      { rewrite Es1. apply Forall_app in Hb as [H1 H2]. apply Forall_app. split; [done|by apply Forall_take]. }
      specialize (IH 0%nat (drop l q) (calc c (save_words be be s1)) s1 []).
      rewrite save_words_le in * by done.
      change (calc c (words_with le32 s1)) with (md5_compress c s1) in *.
      destruct (update_loop _ _ _ _ _ _ _) as [c' s']. simpl app in IH.
      rewrite <- (take_drop l q), app_assoc, <- Es1.
      rewrite hashed_block, pending_block by done. apply IH; try done; try lia.
      * rewrite length_drop. lia.
      * apply Forall_app in Hb as [_ H2]. by apply Forall_drop.
    + assert (El : l = length q) by lia.
      specialize (IH (o + l)%nat (drop l q) c s1 (t ++ take l q)).
      destruct (update_loop _ _ _ _ _ _ _) as [c' s'].
      rewrite <- app_assoc, take_drop in IH. apply IH; try done; try lia.
      * rewrite length_drop. lia.
      * rewrite length_app, length_take. lia.
Qed.

(** ** The context after a message *)

Record md5_inv (m : md5) (msg : list byte) : Prop := {
  mi_bytes : Forall is_u8 msg;
  mi_sz0 : 0 <= sz0 m < 2 ^ 32; mi_sz1 : 0 <= sz1 m < 2 ^ 32;
  mi_size : sz0 m + 2 ^ 32 * sz1 m = (8 * Z.of_nat (length msg)) mod 2 ^ 64;
  mi_counter : counter m = hashed md5_compress rfc_init msg;
  mi_save : length (save m) = 64%nat;
  mi_pending : take (length (pending msg)) (save m) = pending msg
}.

Lemma md5_offset m msg : md5_inv m msg ->
  Z.to_nat ((sz0 m / 8) mod 64) = length (pending msg).
Proof.
  intros [_ H0 H1 Hs _ _ _]. rewrite pending_length. unfold block_size. rewrite <- (Nat2Z.id (length msg mod 64)).
  f_equal. rewrite Nat2Z.inj_mod. change (Z.of_nat 64) with 64. change (2 ^ 32) with 4294967296 in *.
  change (2 ^ 64) with 18446744073709551616 in *. zdm.
Qed.

Lemma MD5_Update_inv m msg v :
  md5_inv m msg -> Forall is_u8 v -> Z.of_nat (length v) < 2 ^ 29 ->
  md5_inv (MD5_Update be be m v) (msg ++ v).
Proof.
  intros Hm Hv Hl. unfold MD5_Update. rewrite (md5_offset m msg Hm).
  destruct Hm as [Hb H0 H1 Hs Hc Hsave Hpend].
  pose proof (update_loop_spec (length v) (length (pending msg)) v (counter m) (save m) (pending msg)
    ltac:(lia) Hsave eq_refl (pending_lt msg) Hpend) as Hloop.
  destruct (update_loop _ _ _ _ _ _ _) as [c s].
  destruct Hloop as (E1 & E2 & E3).
  { apply Forall_app. split; [|done]. unfold pending. by apply Forall_drop. }
  change (2 ^ 32) with 4294967296 in *. change (2 ^ 29) with 536870912 in *.
  assert (Hu : u32 (Z.of_nat (length v) * 8) = Z.of_nat (length v) * 8)
    by (apply u32_small; change (2 ^ 32) with 4294967296; lia).
  rewrite Hu. split; cbn [sz0 sz1 counter save].
  - by apply Forall_app.
  - apply u32_range.
  - bcase; [apply u32_range|done].
  - rewrite length_app, Nat2Z.inj_add, Z.mul_add_distr_l.
    unfold u32. change (2 ^ 64) with 18446744073709551616 in *. change (2 ^ 32) with 4294967296.
    bcase; zdm.
  - rewrite E1, Hc. symmetry. apply hashed_app.
  - done.
  - by rewrite pending_app.
Qed.

Lemma MD5_Updates_inv vs m msg :
  md5_inv m msg -> Forall (fun v => Forall is_u8 v /\ Z.of_nat (length v) < 2 ^ 29) vs ->
  md5_inv (fold_left (MD5_Update be be) vs m) (msg ++ concat vs).
Proof.
  revert m msg. induction vs as [|v vs IH]; intros m msg Hm Hvs; simpl.
  - by rewrite app_nil_r.
  - inversion Hvs as [|? ? [Hv Hl] Hvs']; subst. rewrite app_assoc. apply IH; [|done].
    by apply MD5_Update_inv.
Qed.
End Update.

(** ** The padding *)

(** MD5_Final writes the padding of the reference into [zeros], for each of the
    64 offsets. *)
Lemma padding_bytes o b0 b1 b2 b3 b4 b5 b6 b7 :
  (o < 64)%nat ->
  let d := Z.to_nat (u32 (120 - Z.of_nat o - 1) mod 64 + 1) in
  take (d + 8) (<[(d + 7)%nat := b7]> (<[(d + 6)%nat := b6]> (<[(d + 5)%nat := b5]>
    (<[(d + 4)%nat := b4]> (<[(d + 3)%nat := b3]> (<[(d + 2)%nat := b2]> (<[(d + 1)%nat := b1]>
      (<[(d + 0)%nat := b0]> (0x80 :: replicate 71 0))))))))) =
  0x80 :: replicate (pad_zeros o) 0 ++ [b0; b1; b2; b3; b4; b5; b6; b7].
Proof.
  intros Ho. do 64 (destruct o as [|o]; [reflexivity|]). lia.
Qed.

Lemma pad_zeros_mod n : pad_zeros (n mod 64) = pad_zeros n.
Proof. unfold pad_zeros. by rewrite Nat.Div0.mod_mod. Qed.

Lemma md5_padding_ref m msg : md5_inv m msg -> md5_padding m = md5_pad (length msg).
Proof.
  intros Hm. pose proof (md5_offset m msg Hm) as Ho. pose proof (pending_lt msg) as Hlt.
  rewrite pending_length in Ho, Hlt. unfold block_size in Ho, Hlt. destruct Hm as [_ H0 H1 Hs _ _ _].
  unfold md5_padding.
  assert (E : (sz0 m / 8) mod 64 = Z.of_nat (length msg mod 64)).
  { rewrite <- Ho, Z2Nat.id; [done|]. apply Z.mod_pos_bound. lia. }
  rewrite E. set (o := (length msg mod 64)%nat) in *.
  pose proof (Z.mod_pos_bound (u32 (120 - Z.of_nat o - 1)) 64 ltac:(lia)) as Hd.
  set (d := u32 (120 - Z.of_nat o - 1) mod 64 + 1) in *.
  assert (N : forall k, 0 <= k -> Z.to_nat (d + k) = (Z.to_nat d + Z.to_nat k)%nat) by (intros; lia).
  rewrite !N by lia. simpl (Z.to_nat 0). simpl (Z.to_nat 1). simpl (Z.to_nat 2). simpl (Z.to_nat 3).
  simpl (Z.to_nat 4). simpl (Z.to_nat 5). simpl (Z.to_nat 6). simpl (Z.to_nat 7). simpl (Z.to_nat 8).
  unfold d. rewrite (padding_bytes o) by done. unfold md5_pad.
  rewrite <- Hs. unfold o. rewrite pad_zeros_mod. do 2 f_equal.
  rewrite bytes64_rfc by lia.
  replace ((sz0 m + 2 ^ 32 * sz1 m) mod 2 ^ 32) with (sz0 m).
  2: { rewrite Z.mul_comm, Z.mod_add by lia. by rewrite Z.mod_small. }
  replace ((sz0 m + 2 ^ 32 * sz1 m) / 2 ^ 32) with (sz1 m).
  2: { rewrite Z.mul_comm, Z.div_add by lia. rewrite Z.div_small by done. lia. }
  unfold bytes32_le. by rewrite !Z.shiftr_0_r.
Qed.

Lemma md5_pad_bytes n : Forall is_u8 (md5_pad n) /\ Z.of_nat (length (md5_pad n)) < 2 ^ 29.
Proof.
  split.
  - constructor; [unfold is_u8; lia|]. apply Forall_app. split; [apply Forall_replicate; unfold is_u8; lia|].
    apply Forall_map, list.Forall_forall. intros i _. apply Z.mod_pos_bound. lia.
  - unfold md5_pad. cbn [length]. rewrite !length_app, length_replicate. simpl length.
    unfold pad_zeros. pose proof (Nat.mod_upper_bound (55 + 64 - n mod 64) 64). lia.
Qed.

(** ** The property *)

(** C39: MD5 in pieces computes the digest of RFC 1321: initialising a context,
    passing it a message cut into updates in any way, and finishing it gives the
    digest that the RFC prescribes for the whole message (table T from the sine,
    rounds, padding and byte order written from the RFC), on hosts of either byte
    order provided that WORDS_BIGENDIAN is defined exactly on the big-endian ones
    (this tree defines it nowhere: [md5_big_endian_wrong]); updates are shorter
    than 2^29 bytes. *)
Theorem md5_digest (be words_bigendian : bool) (m : md5) (vs : list (list byte)) :
  words_bigendian = be -> length (save m) = 64%nat ->
  Forall (fun v => Forall is_u8 v /\ Z.of_nat (length v) < 2 ^ 29) vs ->
  MD5_Final be words_bigendian (fold_left (MD5_Update be words_bigendian) vs (MD5_Init m)) =
  md5_ref (concat vs).
Proof.
  intros -> Hs Hvs.
  assert (H0 : md5_inv (MD5_Init m) []) by (split; try done; simpl; lia).
  pose proof (MD5_Updates_inv be vs _ [] H0 Hvs) as H1. simpl app in H1.
  unfold MD5_Final, md5_ref. rewrite (md5_padding_ref _ _ H1).
  destruct (md5_pad_bytes (length (concat vs))) as [P1 P2].
  pose proof (MD5_Update_inv be _ _ _ H1 P1 P2) as H2. rewrite (mi_counter _ _ H2), hashed_rfc.
  destruct (hashed _ _ _) as [[[A B] C] D]. unfold md5_result. rewrite !bytes32_rfc. cbn [flat_map].
  by rewrite app_nil_r.
Qed.

(** "abc" in two pieces, with the digest of RFC 1321. *)
Lemma md5_digest_witness :
  MD5_Final false false (fold_left (MD5_Update false false) [[97]; [98; 99]]
    (MD5_Init (mkMd5 0 0 (0, 0, 0, 0) (replicate 64 0)))) =
  [0x90; 0x01; 0x50; 0x98; 0x3c; 0xd2; 0x4f; 0xb0; 0xd6; 0x96; 0x3f; 0x7d; 0x28; 0xe1; 0x7f; 0x72].
Proof.
  rewrite (md5_digest false false).
  - vm_compute. reflexivity.
  - reflexivity.
  - reflexivity.
  - repeat constructor; unfold is_u8; simpl; lia.
Defined.

(** Without the macro, a big-endian host computes something else. *)
Lemma md5_big_endian_wrong :
  MD5_Final true false (MD5_Update true false
    (MD5_Init (mkMd5 0 0 (0, 0, 0, 0) (replicate 64 0))) [97; 98; 99]) <> md5_ref [97; 98; 99].
Proof. vm_compute. discriminate. Qed.
