(* ===== verification/Sha1.v ===== *)
(** * SHA-1: libc/bionic/sha1.c

    The context is a record, messages are lists of bytes.  The 80 operations of
    SHA1Transform work on a circular buffer of 16 words and on five registers
    whose roles rotate; they are proved equal to the schedule and the loop of
    FIPS 180-1. *)

From Stdlib Require Import ZArith Lia Btauto.
From stdpp Require Import base list numbers.
From S2P Require Import Prelude Digest.

Open Scope Z_scope.
Local Open Scope cint_scope.

(** ** The code *)

Definition rol (value bits : Z) : Z := u32 (Z.shiftl value bits) .| Z.shiftr value (32 - bits).

Notation regs := (Z * Z * Z * Z * Z)%type.

Definition at_ (l : list Z) (i : nat) : Z := nth i l 0.

(** An operation of the round: the new values of z, w and of the block. *)
Definition op (f K : Z) (v w z wi : Z) (l : list Z) : Z * Z * list Z :=
  (u32 (z + f + wi + K + rol v 5), rol w 30, l).

(** blk(i): the next word, stored in the circular buffer. *)
Definition blk (i : nat) (l : list Z) : Z * list Z :=
  let w := rol (((at_ l ((i + 13) mod 16) .^ at_ l ((i + 8) mod 16)) .^ at_ l ((i + 2) mod 16))
                .^ at_ l (i mod 16)) 1 in
  (w, <[(i mod 16)%nat := w]> l).

Section Code.
(** The byte order of the host, which BYTE_ORDER names. *)
Context (big_endian : bool).

(** blk0(i): the word in network order. *)
Definition blk0 (i : nat) (l : list Z) : Z * list Z :=
  if big_endian then (at_ l i, l)
  else let w := (rol (at_ l i) 24 .& 0xFF00FF00) .| (rol (at_ l i) 8 .& 0x00FF00FF) in
       (w, <[i := w]> l).

Definition R0 (v w x y z : Z) (i : nat) (l : list Z) : Z * Z * list Z :=
  let '(wi, l) := blk0 i l in op ((w .& (x .^ y)) .^ y) 0x5A827999 v w z wi l.
Definition R1 (v w x y z : Z) (i : nat) (l : list Z) : Z * Z * list Z :=
  let '(wi, l) := blk i l in op ((w .& (x .^ y)) .^ y) 0x5A827999 v w z wi l.
Definition R2 (v w x y z : Z) (i : nat) (l : list Z) : Z * Z * list Z :=
  let '(wi, l) := blk i l in op ((w .^ x) .^ y) 0x6ED9EBA1 v w z wi l.
Definition R3 (v w x y z : Z) (i : nat) (l : list Z) : Z * Z * list Z :=
  let '(wi, l) := blk i l in op (((w .| x) .& y) .| (w .& x)) 0x8F1BBCDC v w z wi l.
Definition R4 (v w x y z : Z) (i : nat) (l : list Z) : Z * Z * list Z :=
  let '(wi, l) := blk i l in op ((w .^ x) .^ y) 0xCA62C1D6 v w z wi l.

(** A word of the buffer as the host reads it. *)
Definition host_word (b0 b1 b2 b3 : byte) : Z :=
  if big_endian then le32 b3 b2 b1 b0 else le32 b0 b1 b2 b3.

(** The unrolled rounds. *)
Definition rounds (st : regs) (l : list Z) : regs :=
  let '(a, b, c, d, e) := st in
  let '(e, b, l) := R0 a b c d e 0 l in
  let '(d, a, l) := R0 e a b c d 1 l in
  let '(c, e, l) := R0 d e a b c 2 l in
  let '(b, d, l) := R0 c d e a b 3 l in
  let '(a, c, l) := R0 b c d e a 4 l in
  let '(e, b, l) := R0 a b c d e 5 l in
  let '(d, a, l) := R0 e a b c d 6 l in
  let '(c, e, l) := R0 d e a b c 7 l in
  let '(b, d, l) := R0 c d e a b 8 l in
  let '(a, c, l) := R0 b c d e a 9 l in
  let '(e, b, l) := R0 a b c d e 10 l in
  let '(d, a, l) := R0 e a b c d 11 l in
  let '(c, e, l) := R0 d e a b c 12 l in
  let '(b, d, l) := R0 c d e a b 13 l in
  let '(a, c, l) := R0 b c d e a 14 l in
  let '(e, b, l) := R0 a b c d e 15 l in
  let '(d, a, l) := R1 e a b c d 16 l in
  let '(c, e, l) := R1 d e a b c 17 l in
  let '(b, d, l) := R1 c d e a b 18 l in
  let '(a, c, l) := R1 b c d e a 19 l in
  let '(e, b, l) := R2 a b c d e 20 l in
  let '(d, a, l) := R2 e a b c d 21 l in
  let '(c, e, l) := R2 d e a b c 22 l in
  let '(b, d, l) := R2 c d e a b 23 l in
  let '(a, c, l) := R2 b c d e a 24 l in
  let '(e, b, l) := R2 a b c d e 25 l in
  let '(d, a, l) := R2 e a b c d 26 l in
  let '(c, e, l) := R2 d e a b c 27 l in
  let '(b, d, l) := R2 c d e a b 28 l in
  let '(a, c, l) := R2 b c d e a 29 l in
  let '(e, b, l) := R2 a b c d e 30 l in
  let '(d, a, l) := R2 e a b c d 31 l in
  let '(c, e, l) := R2 d e a b c 32 l in
  let '(b, d, l) := R2 c d e a b 33 l in
  let '(a, c, l) := R2 b c d e a 34 l in
  let '(e, b, l) := R2 a b c d e 35 l in
  let '(d, a, l) := R2 e a b c d 36 l in
  let '(c, e, l) := R2 d e a b c 37 l in
  let '(b, d, l) := R2 c d e a b 38 l in
  let '(a, c, l) := R2 b c d e a 39 l in
  let '(e, b, l) := R3 a b c d e 40 l in
  let '(d, a, l) := R3 e a b c d 41 l in
  let '(c, e, l) := R3 d e a b c 42 l in
  let '(b, d, l) := R3 c d e a b 43 l in
  let '(a, c, l) := R3 b c d e a 44 l in
  let '(e, b, l) := R3 a b c d e 45 l in
  let '(d, a, l) := R3 e a b c d 46 l in
  let '(c, e, l) := R3 d e a b c 47 l in
  let '(b, d, l) := R3 c d e a b 48 l in
  let '(a, c, l) := R3 b c d e a 49 l in
  let '(e, b, l) := R3 a b c d e 50 l in
  let '(d, a, l) := R3 e a b c d 51 l in
  let '(c, e, l) := R3 d e a b c 52 l in
  let '(b, d, l) := R3 c d e a b 53 l in
  let '(a, c, l) := R3 b c d e a 54 l in
  let '(e, b, l) := R3 a b c d e 55 l in
  let '(d, a, l) := R3 e a b c d 56 l in
  let '(c, e, l) := R3 d e a b c 57 l in
  let '(b, d, l) := R3 c d e a b 58 l in
  let '(a, c, l) := R3 b c d e a 59 l in
  let '(e, b, l) := R4 a b c d e 60 l in
  let '(d, a, l) := R4 e a b c d 61 l in
  let '(c, e, l) := R4 d e a b c 62 l in
  let '(b, d, l) := R4 c d e a b 63 l in
  let '(a, c, l) := R4 b c d e a 64 l in
  let '(e, b, l) := R4 a b c d e 65 l in
  let '(d, a, l) := R4 e a b c d 66 l in
  let '(c, e, l) := R4 d e a b c 67 l in
  let '(b, d, l) := R4 c d e a b 68 l in
  let '(a, c, l) := R4 b c d e a 69 l in
  let '(e, b, l) := R4 a b c d e 70 l in
  let '(d, a, l) := R4 e a b c d 71 l in
  let '(c, e, l) := R4 d e a b c 72 l in
  let '(b, d, l) := R4 c d e a b 73 l in
  let '(a, c, l) := R4 b c d e a 74 l in
  let '(e, b, l) := R4 a b c d e 75 l in
  let '(d, a, l) := R4 e a b c d 76 l in
  let '(c, e, l) := R4 d e a b c 77 l in
  let '(b, d, l) := R4 c d e a b 78 l in
  let '(a, c, l) := R4 b c d e a 79 l in
  (a, b, c, d, e).

Definition SHA1Transform (st : regs) (buffer : list byte) : regs :=
  let '(s0, s1, s2, s3, s4) := st in
  let '(a, b, c, d, e) := rounds st (words_with host_word buffer) in
  (u32 (s0 + a), u32 (s1 + b), u32 (s2 + c), u32 (s3 + d), u32 (s4 + e)).

Record sha1_ctx := mkSha1 { state : regs; count0 : Z; count1 : Z; buffer : list byte }.

Definition sha1_init : regs := (0x67452301, 0xEFCDAB89, 0x98BADCFE, 0x10325476, 0xC3D2E1F0).

Definition SHA1Init (context : sha1_ctx) : sha1_ctx := mkSha1 sha1_init 0 0 (buffer context).

(** for ( ; i + 63 < len; i += 64) SHA1Transform(state, &data[i]) *)
Fixpoint transform_loop (fuel i : nat) (data : list byte) (st : regs) : nat * regs :=
  match fuel with
  | O => (i, st)
  | S fuel' =>
      if decide (i + 63 < length data)%nat
      then transform_loop fuel' (i + 64) data (SHA1Transform st (take 64 (drop i data)))
      else (i, st)
  end.

(** memcpy of [d] to [buf + j]. *)
Definition copy_to (buf : list byte) (j : nat) (d : list byte) : list byte :=
  take j buf ++ d ++ drop (j + length d) buf.

Definition SHA1Update (context : sha1_ctx) (data : list byte) : sha1_ctx :=
  let len := Z.of_nat (length data) in
  let c0 := u32 (count0 context + u32 (Z.shiftl len 3)) in
  let c1 := if c0 <? count0 context then u32 (count1 context + (Z.shiftr len 29 + 1)) else count1 context in
  let j := Z.to_nat (Z.shiftr (count0 context) 3 .& 63) in
  if 63 <? u32 (Z.of_nat j + len) then
    let i := (64 - j)%nat in
    let buf := copy_to (buffer context) j (take i data) in
    let '(i, st) := transform_loop (length data) i data (SHA1Transform (state context) buf) in
    mkSha1 st c0 c1 (copy_to buf 0 (drop i data))
  else
    mkSha1 (state context) c0 c1 (copy_to (buffer context) j data).

(** The bytes of a word, most significant first. *)
Definition bytes32_be (w : Z) : list byte :=
  [Z.shiftr w 24 .& 255; Z.shiftr w 16 .& 255; Z.shiftr w 8 .& 255; Z.shiftr w 0 .& 255].

(** while ((count[0] & 504) != 448) SHA1Update(context, "\0", 1); at most 63 are
    needed. *)
Fixpoint pad_loop (fuel : nat) (context : sha1_ctx) : sha1_ctx :=
  match fuel with
  | O => context
  | S fuel' =>
      if negb (count0 context .& 504 =? 448) then pad_loop fuel' (SHA1Update context [0]) else context
  end.

Definition SHA1Final (context : sha1_ctx) : list byte :=
  let finalcount := bytes32_be (count1 context) ++ bytes32_be (count0 context) in
  let context := SHA1Update context [0x80] in
  let context := pad_loop 64 context in
  let context := SHA1Update context finalcount in
  let '(s0, s1, s2, s3, s4) := state context in
  bytes32_be s0 ++ bytes32_be s1 ++ bytes32_be s2 ++ bytes32_be s3 ++ bytes32_be s4.
End Code.

(** ** SHA-1 as FIPS 180-1 defines it *)

(** The schedule: 16 words of the block, and [n] more. *)
Fixpoint sched (ws : list Z) (n : nat) : list Z :=
  match n with
  | O => ws
  | S n' =>
      let l := sched ws n' in
      let t := (16 + n')%nat in
      l ++ [rol (((at_ l (t - 3) .^ at_ l (t - 8)) .^ at_ l (t - 14)) .^ at_ l (t - 16)) 1]
  end.

Definition W (ws : list Z) (t : nat) : Z := at_ (sched ws 64) t.

Definition fips_f (t : nat) (B C D : Z) : Z :=
  if decide (t < 20)%nat then (B .& C) .| (Z.lnot B .& D)
  else if decide (t < 40)%nat then (B .^ C) .^ D
  else if decide (t < 60)%nat then ((B .& C) .| (B .& D)) .| (C .& D)
  else (B .^ C) .^ D.

Definition fips_K (t : nat) : Z :=
  if decide (t < 20)%nat then 0x5A827999 else if decide (t < 40)%nat then 0x6ED9EBA1
  else if decide (t < 60)%nat then 0x8F1BBCDC else 0xCA62C1D6.

Definition fips_step (ws : list Z) (st : regs) (t : nat) : regs :=
  let '(A, B, C, D, E) := st in
  let TEMP := u32 (rol A 5 + fips_f t B C D + E + W ws t + fips_K t) in
  (TEMP, A, rol B 30, C, D).

Definition be32 (b0 b1 b2 b3 : byte) : Z := le32 b3 b2 b1 b0.

Definition sha1_compress (st : regs) (block : list byte) : regs :=
  let '(H0, H1, H2, H3, H4) := st in
  let '(A, B, C, D, E) := fold_left (fips_step (words_with be32 block)) (seq 0 80) st in
  (u32 (H0 + A), u32 (H1 + B), u32 (H2 + C), u32 (H3 + D), u32 (H4 + E)).

Definition sha1_pad (n : nat) : list byte :=
  let bits := (8 * Z.of_nat n) mod 2 ^ 64 in
  0x80 :: replicate (pad_zeros n) 0 ++ bytes32_be (bits / 2 ^ 32) ++ bytes32_be (bits mod 2 ^ 32).

Definition sha1_ref (msg : list byte) : list byte :=
  let '(s0, s1, s2, s3, s4) := hashed sha1_compress sha1_init (msg ++ sha1_pad (length msg)) in
  bytes32_be s0 ++ bytes32_be s1 ++ bytes32_be s2 ++ bytes32_be s3 ++ bytes32_be s4.

(** ** The unrolled rounds are a loop *)

Section Rounds.
Context (be : bool).

Definition Rsel (i : nat) : Z -> Z -> Z -> Z -> Z -> nat -> list Z -> Z * Z * list Z :=
  if decide (i < 16)%nat then R0 be
  else if decide (i < 20)%nat then R1
  else if decide (i < 40)%nat then R2
  else if decide (i < 60)%nat then R3 else R4.

(** The registers rotate. *)
Definition rstep (s : regs * list Z) (i : nat) : regs * list Z :=
  let '(v, w, x, y, z, l) := s in
  let '(z', w', l') := Rsel i v w x y z i l in
  (z', v, w', x, y, l').

Lemma rstep_cons i ks v w x y z l :
  fold_left rstep (i :: ks) (v, w, x, y, z, l) =
  let '(z', w', l') := Rsel i v w x y z i l in fold_left rstep ks (z', v, w', x, y, l').
Proof. simpl. by destruct (Rsel i v w x y z i l) as [[z' w'] l']. Qed.

(** Run one operation on both sides. *)
Ltac run_op R :=
  rewrite rstep_cons;
  match goal with |- context [Rsel ?i ?v ?w ?x ?y ?z ?i ?l] =>
    change (Rsel i v w x y z i l) with (R v w x y z i l);
    destruct (R v w x y z i l) as [[? ?] ?]
  end; cbv beta iota.

Lemma rounds_loop st l : rounds be st l = (fold_left rstep (seq 0 80) (st, l)).1.
Proof.
  destruct st as [[[[a b] c] d] e]. unfold rounds. cbn [seq].
  do 16 run_op (R0 be). do 4 run_op R1. do 20 run_op R2. do 20 run_op R3. do 20 run_op R4.
  reflexivity.
Qed.
End Rounds.

(** ** The circular buffer holds the schedule *)

Lemma sched_length ws n : length ws = 16%nat -> length (sched ws n) = (16 + n)%nat.
Proof. intros Hl. induction n as [|n IH]; simpl; [lia|]. rewrite length_app, IH. simpl. lia. Qed.

Lemma sched_prefix ws n k t :
  length ws = 16%nat -> (t < 16 + n)%nat -> at_ (sched ws (n + k)) t = at_ (sched ws n) t.
Proof.
  intros Hl Ht. induction k as [|k IH]; [by rewrite Nat.add_0_r|].
  rewrite Nat.add_succ_r. cbn [sched]. unfold at_ in *.
  rewrite app_nth1; [done|]. rewrite sched_length by done. lia.
Qed.

Lemma W_start ws t : length ws = 16%nat -> (t < 16)%nat -> W ws t = at_ ws t.
Proof. intros Hl Ht. unfold W. by rewrite (sched_prefix ws 0 64) by lia. Qed.

Lemma W_next ws t : length ws = 16%nat -> (16 <= t < 80)%nat ->
  W ws t = rol (((W ws (t - 3) .^ W ws (t - 8)) .^ W ws (t - 14)) .^ W ws (t - 16)) 1.
Proof.
  intros Hl Ht. destruct (Nat.le_exists_sub 16 t ltac:(lia)) as (n & -> & _).
  assert (P : forall s, (s < 16 + n)%nat -> W ws s = at_ (sched ws n) s).
  { intros s Hs. unfold W. replace 64%nat with (n + (64 - n))%nat by lia. by apply sched_prefix. }
  rewrite (P (n + 16 - 3)%nat), (P (n + 16 - 8)%nat), (P (n + 16 - 14)%nat), (P (n + 16 - 16)%nat) by lia.
  unfold W. replace 64%nat with (S n + (63 - n))%nat by lia.
  rewrite sched_prefix by lia. cbn [sched]. unfold at_ at 1.
  rewrite app_nth2; rewrite sched_length by done; [|lia].
  replace (n + 16 - (16 + n))%nat with 0%nat by lia. cbn [nth]. by replace (16 + n)%nat with (n + 16)%nat by lia.
Qed.

Lemma at_insert (l : list Z) i j v :
  (i < length l)%nat -> at_ (<[i := v]> l) j = if decide (j = i) then v else at_ l j.
Proof.
  intros Hi. unfold at_. rewrite !nth_lookup. case_decide as E.
  - subst. by rewrite list_lookup_insert_eq.
  - by rewrite list_lookup_insert_ne.
Qed.

(** The boolean functions of the code and of the standard. *)
Lemma choose w x y : (w .& (x .^ y)) .^ y = (w .& x) .| (Z.lnot w .& y).
Proof.
  apply Z.bits_inj'. intros i Hi.
  rewrite !Z.lxor_spec, Z.lor_spec, !Z.land_spec, Z.lxor_spec, Z.lnot_spec by lia.
  destruct (Z.testbit w i), (Z.testbit x i), (Z.testbit y i); done.
Qed.

Lemma majority w x y : ((w .| x) .& y) .| (w .& x) = ((w .& x) .| (w .& y)) .| (x .& y).
Proof.
  apply Z.bits_inj'. intros i Hi. rewrite !Z.lor_spec, !Z.land_spec, !Z.lor_spec by lia.
  destruct (Z.testbit w i), (Z.testbit x i), (Z.testbit y i); done.
Qed.

Section Schedule.
Context (be : bool) (hw ws : list Z) (Hhw : length hw = 16%nat) (Hws : length ws = 16%nat).
(** Swapping a word of the host gives the word in network order. *)
Context (Hswap : forall i, (i < 16)%nat -> (blk0 be i hw).1 = at_ ws i).

(** The block before operation [i]. *)
Definition buf_ok (i : nat) (l : list Z) : Prop :=
  length l = 16%nat /\
  (forall t, (t < i)%nat -> (i <= t + 16)%nat -> at_ l (t mod 16) = W ws t) /\
  (forall k, (i <= k < 16)%nat -> at_ l k = at_ hw k).

Lemma blk0_ok i l : (i < 16)%nat -> buf_ok i l ->
  (blk0 be i l).1 = W ws i /\ buf_ok (S i) (blk0 be i l).2.
Proof using Hhw Hws Hswap.
  intros Hi (Hl & H1 & H2). rewrite W_start by done. specialize (Hswap i Hi). unfold blk0 in *.
  rewrite (H2 i) by lia. destruct be; simpl in *.
  - split; [done|]. split; [done|]. split.
    + intros t Ht Ht'. destruct (decide (t = i)) as [->|]; [|apply H1; lia].
      rewrite Nat.mod_small, W_start, (H2 i) by lia. done.
    + intros k Hk. apply H2. lia.
  - split; [done|]. split; [by rewrite length_insert|]. split.
    + intros t Ht Ht'. rewrite at_insert by lia. rewrite Nat.mod_small by lia. case_decide as E.
      * subst t. by rewrite W_start.
      * rewrite <- (Nat.mod_small t 16) at 1 by lia. apply H1; lia.
    + intros k Hk. rewrite at_insert, decide_False by lia. apply H2. lia.
Qed.

Lemma blk_ok i l : (16 <= i < 80)%nat -> buf_ok i l -> (blk i l).1 = W ws i /\ buf_ok (S i) (blk i l).2.
Proof using Hhw Hws.
  intros Hi (Hl & H1 & _).
  assert (Hm : forall k j, (k + j = 16)%nat -> (0 < j)%nat -> at_ l ((i + k) mod 16) = W ws (i - j)).
  { intros k j Hkj Hj. rewrite <- H1 by lia. f_equal.
    replace (i + k)%nat with (i - j + 1 * 16)%nat by lia. by rewrite Nat.Div0.mod_add. }
  assert (H0 : at_ l (i mod 16) = W ws (i - 16)).
  { rewrite <- H1 by lia. f_equal. replace i with (i - 16 + 1 * 16)%nat at 1 by lia. by rewrite Nat.Div0.mod_add. }
  unfold blk. rewrite (Hm 13%nat 3%nat), (Hm 8%nat 8%nat), (Hm 2%nat 14%nat), H0 by lia.
  rewrite <- W_next by done. cbn [fst snd]. split; [done|]. split; [by rewrite length_insert|].
  pose proof (Nat.mod_upper_bound i 16). split.
  - intros t Ht Ht'. rewrite at_insert by lia. case_decide as E.
    + assert (t = i) as ->; [|done]. pose proof (Nat.div_mod_eq t 16). pose proof (Nat.div_mod_eq i 16). nia.
    + apply H1; [|lia]. assert (t <> i) by congruence. lia.
  - intros k Hk. lia.
Qed.

(** ** The operations are the steps of the standard *)

Lemma rstep_fips i st l : (i < 80)%nat -> buf_ok i l ->
  (rstep be (st, l) i).1 = fips_step ws st i /\ buf_ok (S i) (rstep be (st, l) i).2.
Proof using Hhw Hws Hswap.
  intros Hi Hb. destruct st as [[[[v w] x] y] z]. unfold rstep, Rsel, fips_step, fips_f, fips_K.
  destruct (decide (i < 16)%nat) as [H16|H16].
  { destruct (blk0_ok i l H16 Hb) as [E1 E2]. rewrite decide_True by lia. unfold R0.
    destruct (blk0 be i l) as [wi l']. simpl in *. split; [|done]. rewrite E1, decide_True, choose by lia.
    do 5 f_equal. lia. }
  destruct (blk_ok i l ltac:(lia) Hb) as [E1 E2].
  repeat case_decide; try lia; unfold R1, R2, R3, R4; destruct (blk i l) as [wi l']; simpl in *;
    (split; [|done]); rewrite E1, ?choose, ?majority; do 5 f_equal; lia.
Qed.

Lemma rounds_fips st : rounds be st hw = fold_left (fips_step ws) (seq 0 80) st.
Proof using Hhw Hws Hswap.
  rewrite rounds_loop.
  assert (G : forall n i st l, (i + n <= 80)%nat -> buf_ok i l ->
    (fold_left (rstep be) (seq i n) (st, l)).1 = fold_left (fips_step ws) (seq i n) st).
  { induction n as [|n IH]; intros i s l Hn Hb; [done|]. cbn [seq fold_left].
    destruct (rstep_fips i s l ltac:(lia) Hb) as [E1 E2].
    destruct (rstep be (s, l) i) as [s' l'] eqn:E. simpl in E1, E2. subst s'. apply IH; [lia|done]. }
  apply G; [lia|]. split; [done|]. split; [lia|]. done.
Qed.
End Schedule.

(** ** One block *)

Lemma words_with_length f l : length (words_with f l) = (length l / 4)%nat.
Proof.
  remember (length l) as n eqn:En. revert l En. induction (lt_wf n) as [n _ IH]. intros l ->.
  destruct l as [|b0 [|b1 [|b2 [|b3 l]]]]; try done. cbn [words_with length].
  rewrite (IH (length l)); [|simpl; lia|done].
  replace (S (S (S (S (length l))))) with (length l + 1 * 4)%nat by lia. rewrite Nat.div_add by lia. lia.
Qed.

(** The i-th word. *)
Lemma words_with_at f l i :
  (4 * i + 4 <= length l)%nat ->
  exists b0 b1 b2 b3, slice (4 * i) 4 l = [b0; b1; b2; b3] /\ at_ (words_with f l) i = f b0 b1 b2 b3.
Proof.
  revert l. induction i as [|i IH]; intros l Hl.
  - destruct l as [|b0 [|b1 [|b2 [|b3 l]]]]; simpl in Hl; try lia. exists b0, b1, b2, b3. done.
  - destruct l as [|b0 [|b1 [|b2 [|b3 l]]]]; simpl in Hl; try lia.
    destruct (IH l ltac:(lia)) as (c0 & c1 & c2 & c3 & E1 & E2). exists c0, c1, c2, c3.
    split; [|done]. replace (4 * S i)%nat with (S (S (S (S (4 * i))))) by lia. done.
Qed.

Lemma rol_bytes8 b0 b1 b2 b3 : is_u8 b0 -> is_u8 b1 -> is_u8 b2 -> is_u8 b3 ->
  rol (le32 b0 b1 b2 b3) 8 = le32 b3 b0 b1 b2.
Proof.
  unfold is_u8. intros H0 H1 H2 H3. unfold rol. change (32 - 8) with 24.
  rewrite Z.shiftl_mul_pow2, Z.shiftr_div_pow2 by lia.
  change (2 ^ 8) with 256. change (2 ^ 24) with 16777216.
  rewrite lor_add.
  - unfold u32, le32. change (2 ^ 32) with 4294967296. zdm.
  - rewrite (land_low 8) by (unfold le32; change (2 ^ 8) with 256; zdm).
    replace (u32 (le32 b0 b1 b2 b3 * 256) mod 2 ^ 8) with 0; [apply Z.land_0_l|].
    unfold u32, le32. change (2 ^ 8) with 256. change (2 ^ 32) with 4294967296. zdm.
Qed.

Lemma rol_bytes24 b0 b1 b2 b3 : is_u8 b0 -> is_u8 b1 -> is_u8 b2 -> is_u8 b3 ->
  rol (le32 b0 b1 b2 b3) 24 = le32 b1 b2 b3 b0.
Proof.
  unfold is_u8. intros H0 H1 H2 H3. unfold rol. change (32 - 24) with 8.
  rewrite Z.shiftl_mul_pow2, Z.shiftr_div_pow2 by lia.
  change (2 ^ 8) with 256. change (2 ^ 24) with 16777216.
  rewrite lor_add.
  - unfold u32, le32. change (2 ^ 32) with 4294967296. zdm.
  - rewrite (land_low 24) by (unfold le32; change (2 ^ 24) with 16777216; zdm).
    replace (u32 (le32 b0 b1 b2 b3 * 16777216) mod 2 ^ 24) with 0; [apply Z.land_0_l|].
    unfold u32, le32. change (2 ^ 24) with 16777216. change (2 ^ 32) with 4294967296. zdm.
Qed.

(** blk0 puts a word in network order. *)
Lemma swap_word b0 b1 b2 b3 : is_u8 b0 -> is_u8 b1 -> is_u8 b2 -> is_u8 b3 ->
  (rol (le32 b0 b1 b2 b3) 24 .& 0xFF00FF00) .| (rol (le32 b0 b1 b2 b3) 8 .& 0x00FF00FF) = le32 b3 b2 b1 b0.
Proof.
  intros H0 H1 H2 H3. rewrite rol_bytes8, rol_bytes24 by done. unfold is_u8 in *.
  rewrite land_ff00ff, land_ff00ff00 by (unfold le32; lia).
  replace ((le32 b1 b2 b3 b0 / 256) mod 256 + 65536 * ((le32 b1 b2 b3 b0 / 16777216) mod 256))
    with (b2 + 65536 * b0) by (unfold le32; zdm).
  replace (le32 b3 b0 b1 b2 mod 256 + 65536 * ((le32 b3 b0 b1 b2 / 65536) mod 256))
    with (b3 + 65536 * b1) by (unfold le32; zdm).
  rewrite lor_add; [unfold le32; lia|].
  assert (X : b3 + 65536 * b1 = Z.land (b3 + 65536 * b1) 0x00ff00ff) by (rewrite land_ff00ff by lia; zdm).
  rewrite X, (Z.land_comm _ 0x00ff00ff), Z.land_assoc, land_ff00ff by lia.
  replace ((256 * (b2 + 65536 * b0)) mod 256 + 65536 * ((256 * (b2 + 65536 * b0) / 65536) mod 256)) with 0 by zdm.
  apply Z.land_0_l.
Qed.

Lemma SHA1Transform_fips be st b :
  length b = 64%nat -> Forall is_u8 b -> SHA1Transform be st b = sha1_compress st b.
Proof.
  intros Hl Hb. unfold SHA1Transform, sha1_compress.
  rewrite (rounds_fips be _ (words_with be32 b)); [done|..].
  - by rewrite words_with_length, Hl.
  - by rewrite words_with_length, Hl.
  - intros i Hi. destruct (words_with_at (host_word be) b i) as (b0 & b1 & b2 & b3 & E1 & E2); [lia|].
    destruct (words_with_at be32 b i) as (c0 & c1 & c2 & c3 & E3 & E4); [lia|].
    rewrite E1 in E3. injection E3 as <- <- <- <-. rewrite E4. unfold blk0, host_word in *.
    assert (Hs : Forall is_u8 (slice (4 * i) 4 b)) by (by apply Forall_take, Forall_drop).
    rewrite E1 in Hs. repeat match goal with X : Forall is_u8 (_ :: _) |- _ => inversion X; clear X; subst end.
    destruct be; simpl; rewrite E2; [done|]. unfold be32. by apply swap_word.
Qed.

(** ** Updates *)

#[local] Opaque SHA1Transform sha1_compress.

Section Update.
Context (be : bool).

Lemma copy_to_length buf j d : (j + length d <= length buf)%nat -> length (copy_to buf j d) = length buf.
Proof using. intros H. unfold copy_to. rewrite !length_app, length_take, length_drop. lia. Qed.

Lemma copy_to_prefix buf j d :
  (j + length d <= length buf)%nat -> take (j + length d) (copy_to buf j d) = take j buf ++ d.
Proof using.
  intros H. unfold copy_to. rewrite app_assoc. apply take_app_length'. rewrite length_app, length_take. lia.
Qed.

(** The full blocks of the data from [i] on. *)
Lemma transform_loop_spec fuel i data st :
  (length data - i <= fuel)%nat -> (i <= length data)%nat -> Forall is_u8 data ->
  let '(i', st') := transform_loop be fuel i data st in
  st' = hashed sha1_compress st (drop i data) /\ drop i' data = pending (drop i data).
Proof using.
  revert i st. induction fuel as [|fuel IH]; intros i st Hf Hi Hb.
  - simpl. rewrite hashed_short, pending_short by (rewrite length_drop; unfold block_size; lia). done.
  - cbn [transform_loop]. case_decide as E.
    + specialize (IH (i + 64)%nat (SHA1Transform be st (take 64 (drop i data))) ltac:(lia) ltac:(lia) Hb).
      assert (Hlen : length (take 64 (drop i data)) = 64%nat) by (rewrite length_take, length_drop; lia).
      rewrite SHA1Transform_fips in * by (try done; by apply Forall_take, Forall_drop).
      destruct (transform_loop _ _ _ _ _) as [i' st']. rewrite <- drop_drop in IH.
      rewrite <- (take_drop 64 (drop i data)), hashed_block, pending_block by done. exact IH.
    + rewrite hashed_short, pending_short by (rewrite length_drop; unfold block_size; lia). done.
Qed.

Record sha1_inv (c : sha1_ctx) (msg : list byte) : Prop := {
  sh_bytes : Forall is_u8 msg;
  sh_c0 : 0 <= count0 c < 2 ^ 32; sh_c1 : 0 <= count1 c < 2 ^ 32;
  sh_count : count0 c + 2 ^ 32 * count1 c = (8 * Z.of_nat (length msg)) mod 2 ^ 64;
  sh_state : state c = hashed sha1_compress sha1_init msg;
  sh_buffer : length (buffer c) = 64%nat;
  sh_pending : take (length (pending msg)) (buffer c) = pending msg
}.

Lemma sha1_offset c msg : sha1_inv c msg ->
  Z.to_nat (Z.shiftr (count0 c) 3 .& 63) = length (pending msg).
Proof using.
  intros [_ H0 H1 Hs _ _ _]. rewrite pending_length. unfold block_size.
  rewrite (Z.land_ones _ 6), Z.shiftr_div_pow2 by lia. rewrite <- (Nat2Z.id (length msg mod 64)).
  f_equal. rewrite Nat2Z.inj_mod. change (Z.of_nat 64) with 64. change (2 ^ 32) with 4294967296 in *.
  change (2 ^ 64) with 18446744073709551616 in *. change (2 ^ 3) with 8. change (2 ^ 6) with 64. zdm.
Qed.

(** The state and the buffer after an update. *)
Lemma SHA1Update_data c msg data :
  sha1_inv c msg -> Forall is_u8 data -> Z.of_nat (length data) < 2 ^ 29 ->
  let c' := SHA1Update be c data in
  state c' = hashed sha1_compress sha1_init (msg ++ data) /\ length (buffer c') = 64%nat /\
  take (length (pending (msg ++ data))) (buffer c') = pending (msg ++ data).
Proof using.
  intros Hc Hd Hl. pose proof (sha1_offset c msg Hc) as Ho. pose proof (pending_lt msg) as Hlt.
  destruct Hc as [Hb _ _ _ Hst Hbuf Hpend]. unfold block_size in Hlt.
  set (j := length (pending msg)) in *. rewrite hashed_app, pending_app, <- Hst. unfold SHA1Update.
  rewrite Ho, u32_small by lia. bcase.
  - set (i := (64 - j)%nat). set (buf := copy_to (buffer c) j (take i data)).
    assert (Hi : length (take i data) = i) by (rewrite length_take; lia).
    assert (Hbl : length buf = 64%nat) by (unfold buf; rewrite copy_to_length; rewrite ?Hi; lia).
    assert (Ebuf : buf = pending msg ++ take i data).
    { rewrite <- Hpend. unfold buf. rewrite <- copy_to_prefix by (rewrite Hi; lia).
      symmetry. apply take_ge. fold buf. rewrite Hbl, Hi. lia. }
    assert (Hbb : Forall is_u8 buf).
    { rewrite Ebuf. apply Forall_app. split; [by apply Forall_drop | by apply Forall_take]. }
    pose proof (transform_loop_spec (length data) i data (SHA1Transform be (state c) buf)
      ltac:(lia) ltac:(lia) Hd) as Hloop.
    destruct (transform_loop _ _ _ _ _) as [i' st']. destruct Hloop as [E1 E2]. cbn [state buffer].
    assert (Esplit : pending msg ++ data = buf ++ drop i data) by (by rewrite Ebuf, <- app_assoc, take_drop).
    rewrite Esplit, hashed_block, pending_block by done.
    rewrite SHA1Transform_fips in E1 by done. pose proof (pending_lt (drop i data)) as Hp. unfold block_size in Hp.
    split_and!; [done| |].
    + rewrite copy_to_length by (rewrite E2; lia). done.
    + rewrite E2. pose proof (copy_to_prefix buf 0 (pending (drop i data)) ltac:(lia)) as P. exact P.
  - cbn [state buffer]. assert (Hs : (length (pending msg ++ data) < 64)%nat) by (rewrite length_app; fold j; lia).
    rewrite hashed_short, pending_short by done. split_and!; [done| |].
    + rewrite copy_to_length; lia.
    + rewrite length_app. fold j. rewrite copy_to_prefix by lia. by rewrite Hpend.
Qed.

Lemma SHA1Update_inv c msg data :
  sha1_inv c msg -> Forall is_u8 data -> Z.of_nat (length data) < 2 ^ 29 ->
  sha1_inv (SHA1Update be c data) (msg ++ data).
Proof using.
  intros Hc Hd Hl. destruct (SHA1Update_data c msg data Hc Hd Hl) as (E1 & E2 & E3).
  assert (Ecount : count0 (SHA1Update be c data) = u32 (count0 c + 8 * Z.of_nat (length data)) /\
    count1 (SHA1Update be c data) = if u32 (count0 c + 8 * Z.of_nat (length data)) <? count0 c
                                    then u32 (count1 c + 1) else count1 c).
  { unfold SHA1Update.
    rewrite Z.shiftl_mul_pow2, (Z.shiftr_div_pow2 (Z.of_nat (length data)) 29),
      (Z.div_small (Z.of_nat (length data)) (2 ^ 29)) by lia.
    change (2 ^ 3) with 8. change (2 ^ 29) with 536870912 in Hl.
    rewrite (u32_small (Z.of_nat (length data) * 8)) by (change (2 ^ 32) with 4294967296; lia).
    rewrite Z.mul_comm. destruct (63 <? _); [destruct (transform_loop _ _ _ _ _)|]; done. }
  destruct Ecount as [F0 F1], Hc as [Hb H0 H1 Hs _ _ _]. split; try done.
  - by apply Forall_app.
  - rewrite F0. apply u32_range.
  - rewrite F1. bcase; [apply u32_range|done].
  - rewrite F0, F1, length_app, Nat2Z.inj_add, Z.mul_add_distr_l. unfold u32.
    change (2 ^ 64) with 18446744073709551616 in *. change (2 ^ 32) with 4294967296 in *.
    change (2 ^ 29) with 536870912 in *. bcase; zdm.
Qed.

Lemma SHA1Updates_inv vs c msg :
  sha1_inv c msg -> Forall (fun v => Forall is_u8 v /\ Z.of_nat (length v) < 2 ^ 29) vs ->
  sha1_inv (fold_left (SHA1Update be) vs c) (msg ++ concat vs).
Proof using.
  revert c msg. induction vs as [|v vs IH]; intros c msg Hm Hvs; simpl.
  - by rewrite app_nil_r.
  - inversion Hvs as [|? ? [Hv Hl] Hvs']; subst. rewrite app_assoc. apply IH; [|done].
    by apply SHA1Update_inv.
Qed.

(** The padding loop stops 8 bytes before the end of a block. *)
Lemma pad_loop_inv fuel c msg k :
  sha1_inv c msg -> ((length msg + k) mod 64 = 56)%nat -> (k < 64)%nat -> (k < fuel)%nat ->
  sha1_inv (pad_loop be fuel c) (msg ++ replicate k 0).
Proof using.
  revert fuel c msg. induction k as [|k IH]; intros fuel c msg Hc Hk Hlt Hf;
    (destruct fuel as [|fuel]; [lia|]); cbn [pad_loop];
    assert (E : count0 c .& 504 = 8 * (Z.of_nat (length msg mod 64))).
  1,3: pose proof (sha1_offset c msg Hc) as Ho; rewrite pending_length in Ho; unfold block_size in Ho;
       rewrite <- Ho, Z2Nat.id by (apply Z.land_nonneg; lia);
       change 504 with (Z.shiftl 63 3); apply Z.bits_inj'; intros i Hi;
       replace (8 * (Z.shiftr (count0 c) 3 .& 63)) with (Z.shiftl (Z.shiftr (count0 c) 3 .& 63) 3)
         by (rewrite Z.shiftl_mul_pow2; lia);
       rewrite Z.land_spec, !Z.shiftl_spec by lia;
       destruct (Z.lt_ge_cases i 3);
       [rewrite !(Z.testbit_neg_r _ (i - 3)) by lia; by rewrite andb_false_r
       |rewrite Z.land_spec, Z.shiftr_spec by lia; by replace (i - 3 + 3) with i by lia].
  - rewrite Nat.add_0_r in Hk. rewrite E, Hk. simpl. by rewrite app_nil_r.
  - rewrite E. assert (Hne : (length msg mod 64 <> 56)%nat).
    { intros E'. rewrite Nat.Div0.add_mod, E', (Nat.mod_small (S k)) in Hk by lia.
      destruct (decide (56 + S k < 64)%nat).
      - rewrite Nat.mod_small in Hk by lia. lia.
      - replace (56 + S k)%nat with (S k - 8 + 1 * 64)%nat in Hk by lia.
        rewrite Nat.Div0.mod_add, Nat.mod_small in Hk by lia. lia. }
    zif. replace (replicate (S k) 0) with ([0] ++ replicate k 0) by done. rewrite app_assoc.
    apply IH; [| |lia|lia].
    2: { rewrite length_app. cbn [length]. by replace (length msg + 1 + k)%nat with (length msg + S k)%nat by lia. }
    apply SHA1Update_inv; [done|repeat constructor; lia|simpl; lia].
Qed.
End Update.

(** ** The property *)

(** SHA-1 in pieces computes the digest of FIPS 180-1: initialising a
    context, passing it a message cut into updates in any way, and finishing it
    gives the digest of the padded whole message, computed with the 80-word
    schedule of the standard; updates are shorter than 2^29 bytes. *)
Theorem sha1_digest (be : bool) (c : sha1_ctx) (vs : list (list byte)) :
  length (buffer c) = 64%nat -> Forall (fun v => Forall is_u8 v /\ Z.of_nat (length v) < 2 ^ 29) vs ->
  SHA1Final be (fold_left (SHA1Update be) vs (SHA1Init c)) = sha1_ref (concat vs).
Proof.
  intros Hs Hvs. assert (H0 : sha1_inv (SHA1Init c) []) by (split; try done; simpl; lia).
  pose proof (SHA1Updates_inv be vs _ [] H0 Hvs) as H1. simpl app in H1.
  set (c1 := fold_left (SHA1Update be) vs (SHA1Init c)) in *. set (msg := concat vs) in *.
  assert (H2 : sha1_inv (SHA1Update be c1 [0x80]) (msg ++ [0x80]))
    by (apply SHA1Update_inv; [done|repeat constructor; unfold is_u8; lia|simpl; lia]).
  assert (H3 : sha1_inv (pad_loop be 64 (SHA1Update be c1 [0x80])) ((msg ++ [0x80]) ++ replicate (pad_zeros (length msg)) 0)).
  { assert (pad_zeros (length msg) < 64)%nat by (apply Nat.mod_upper_bound; lia).
    apply pad_loop_inv; try done. rewrite length_app. simpl length.
    pose proof (pad_fills (length msg)) as P. set (k := pad_zeros (length msg)) in *.
    pose proof (Nat.div_mod_eq (length msg + 1 + k) 64). pose proof (Nat.mod_upper_bound (length msg + 1 + k) 64).
    pose proof (Nat.div_mod_eq (length msg + 1 + k + 8) 64). lia. }
  assert (G : forall w, Forall is_u8 (bytes32_be w)).
  { intros w. repeat constructor; rewrite (Z.land_ones _ 8) by lia; unfold is_u8;
      change 256 with (2 ^ 8); apply Z.mod_pos_bound; lia. }
  pose proof (SHA1Update_inv be _ _ (bytes32_be (count1 c1) ++ bytes32_be (count0 c1)) H3
    ltac:(apply Forall_app; split; apply G) ltac:(simpl; lia)) as H4.
  unfold SHA1Final, sha1_ref. cbv zeta. rewrite (sh_state _ _ H4).
  assert (Emsg : ((msg ++ [0x80]) ++ replicate (pad_zeros (length msg)) 0) ++ bytes32_be (count1 c1) ++ bytes32_be (count0 c1)
    = msg ++ sha1_pad (length msg)); [|by rewrite Emsg].
  destruct H1 as [_ I0 I1 Is _ _ _].
  assert (Q1 : (count0 c1 + 2 ^ 32 * count1 c1) / 2 ^ 32 = count1 c1)
    by (rewrite (Z.mul_comm (2 ^ 32)), Z.div_add, Z.div_small by lia; lia).
  assert (Q2 : (count0 c1 + 2 ^ 32 * count1 c1) mod 2 ^ 32 = count0 c1)
    by (rewrite (Z.mul_comm (2 ^ 32)), Z.mod_add, Z.mod_small by lia; lia).
  unfold sha1_pad. rewrite <- Is, Q1, Q2, <- !app_assoc. done.
Qed.

(** The test vectors of sha1.c, the first one in two pieces. *)
Lemma sha1_digest_witness :
  SHA1Final false (fold_left (SHA1Update false) [[97]; [98; 99]]
    (SHA1Init (mkSha1 (0, 0, 0, 0, 0) 0 0 (replicate 64 0)))) =
  [0xA9; 0x99; 0x3E; 0x36; 0x47; 0x06; 0x81; 0x6A; 0xBA; 0x3E; 0x25; 0x71; 0x78; 0x50; 0xC2; 0x6C;
   0x9C; 0xD0; 0xD8; 0x9D].
Proof.
  rewrite (sha1_digest false).
  - vm_compute. reflexivity.
  - reflexivity.
  - repeat constructor; unfold is_u8; simpl; lia.
Defined.
