(* ===== verification/Time64.v ===== *)
(** * 64-bit calendar time: libc/bionic/time64.c

    Dates are counted from the Epoch in the proleptic Gregorian calendar.  The
    code adds and subtracts year and month lengths in loops, after skipping
    whole 400-year cycles; the specification is a closed formula for the number
    of days before a year. *)

From Stdlib Require Import ZArith Lia.
From stdpp Require Import base list numbers.
From S2P Require Import Prelude.

Open Scope Z_scope.

(** ** The code *)

(** The fields of struct tm the functions use; tm_year counts from 1900. *)
Record TM := mkTM {
  tm_sec : Z; tm_min : Z; tm_hour : Z; tm_mday : Z; tm_mon : Z; tm_year : Z;
  tm_wday : Z; tm_yday : Z; tm_isdst : Z; tm_gmtoff : Z }.

Definition days_in_month (leap : bool) : list Z :=
  if leap then [31; 29; 31; 30; 31; 30; 31; 31; 30; 31; 30; 31]
  else [31; 28; 31; 30; 31; 30; 31; 31; 30; 31; 30; 31].

Definition julian_days_by_month (leap : bool) : list Z :=
  if leap then [0; 31; 60; 91; 121; 152; 182; 213; 244; 274; 305; 335]
  else [0; 31; 59; 90; 120; 151; 181; 212; 243; 273; 304; 334].

Definition length_of_year (leap : bool) : Z := if leap then 366 else 365.

Definition days_in_gregorian_cycle : Z := 365 * 400 + 100 - 4 + 1.
Definition years_in_gregorian_cycle : Z := 400.
Definition seconds_in_gregorian_cycle : Z := days_in_gregorian_cycle * 60 * 60 * 24.
Definition MAX_SAFE_YEAR : Z := 2037.
Definition MIN_SAFE_YEAR : Z := 1971.
Definition SOLAR_CYCLE_LENGTH : Z := 28.

Definition safe_years_high : list Z :=
  [2016; 2017; 2018; 2019; 2020; 2021; 2022; 2023; 2024; 2025; 2026; 2027; 2028; 2029;
   2030; 2031; 2032; 2033; 2034; 2035; 2036; 2037; 2010; 2011; 2012; 2013; 2014; 2015].
Definition safe_years_low : list Z :=
  [1996; 1997; 1998; 1971; 1972; 1973; 1974; 1975; 1976; 1977; 1978; 1979; 1980; 1981;
   1982; 1983; 1984; 1985; 1986; 1987; 1988; 1989; 1990; 1991; 1992; 1993; 1994; 1995].

Definition CHEAT_DAYS : Z := 1199145600 / 24 / 60 / 60.
Definition CHEAT_YEARS : Z := 108.

Definition IS_LEAP (n : Z) : bool :=
  (Z.rem (n + 1900) 400 =? 0) || ((Z.rem (n + 1900) 4 =? 0) && negb (Z.rem (n + 1900) 100 =? 0)).

(** The entry [i] of a table; the functions index within bounds. *)
Definition tab (l : list Z) (i : Z) : Z := nth (Z.to_nat i) l 0.

Definition is_exception_century (year : Z) : bool :=
  (Z.rem year 100 =? 0) && negb (Z.rem year 400 =? 0).

(** while( year < orig_year ) of timegm64, for the years left. *)
Fixpoint add_years (n : nat) (year days : Z) : Z :=
  match n with O => days | S n' => add_years n' (year + 1) (days + length_of_year (IS_LEAP year)) end.

(** do ... while( year >= orig_year ) of timegm64, [n] times. *)
Fixpoint sub_years (n : nat) (year days : Z) : Z :=
  match n with O => days | S n' => sub_years n' (year - 1) (days - length_of_year (IS_LEAP year)) end.

Definition timegm64 (date : TM) : Z :=
  let orig_year := tm_year date in
  let '(orig_year, days) :=
    if 100 <? orig_year then
      let cycles := Z.quot (orig_year - 100) 400 in
      (orig_year - cycles * 400, cycles * days_in_gregorian_cycle)
    else if orig_year <? -300 then
      let cycles := Z.quot (orig_year - 100) 400 in
      (orig_year - cycles * 400, cycles * days_in_gregorian_cycle)
    else (orig_year, 0) in
  let days :=
    if 70 <? orig_year then add_years (Z.to_nat (orig_year - 70)) 70 days
    else if orig_year <? 70 then sub_years (Z.to_nat (70 - orig_year)) 69 days
    else days in
  let days := days + tab (julian_days_by_month (IS_LEAP orig_year)) (tm_mon date) in
  let days := days + (tm_mday date - 1) in
  days * 60 * 60 * 24 + tm_hour date * 60 * 60 + tm_min date * 60 + tm_sec date.

(** tm_year + 1900 on the int field of a struct tm. *)
Definition int_year (tm_year : Z) : Z := s32 (tm_year + 1900).

(** IS_LEAP applied to the int field. *)
Definition is_leap_int (tm_year : Z) : bool := IS_LEAP (int_year tm_year - 1900).

Definition check_tm (tm : TM) : bool :=
  (0 <=? tm_sec tm) && (tm_sec tm <=? 61) && (0 <=? tm_min tm) && (tm_min tm <=? 59) &&
  (0 <=? tm_hour tm) && (tm_hour tm <=? 23) && (1 <=? tm_mday tm) &&
  (tm_mday tm <=? tab (days_in_month (is_leap_int (tm_year tm))) (tm_mon tm)) &&
  (0 <=? tm_mon tm) && (tm_mon tm <=? 11) && (0 <=? tm_wday tm) && (tm_wday tm <=? 6) &&
  (0 <=? tm_yday tm) && (tm_yday tm <=? length_of_year (is_leap_int (tm_year tm))) &&
  (-86400 <=? tm_gmtoff tm) && (tm_gmtoff tm <=? 86400).

Definition cycle_offset (year : Z) : Z :=
  let start_year := 2000 in
  let year_diff := year - start_year in
  let year_diff := if start_year <? year then year_diff - 1 else year_diff in
  let exceptions := Z.quot year_diff 100 - Z.quot year_diff 400 in
  exceptions * 16.

Definition safe_year (year : Z) : Z :=
  if (MIN_SAFE_YEAR <=? year) && (year <=? MAX_SAFE_YEAR) then year
  else
    let year_cycle := year + cycle_offset year in
    let year_cycle := if year <? MIN_SAFE_YEAR then year_cycle - 8 else year_cycle in
    let year_cycle := if is_exception_century year then year_cycle + 11 else year_cycle in
    let year_cycle := if is_exception_century (year - 1) then year_cycle + 17 else year_cycle in
    let year_cycle := Z.rem year_cycle SOLAR_CYCLE_LENGTH in
    let year_cycle := if year_cycle <? 0 then SOLAR_CYCLE_LENGTH + year_cycle else year_cycle in
    if year <? MIN_SAFE_YEAR then tab safe_years_low year_cycle else tab safe_years_high year_cycle.

(** while( left_year != right_year ) of seconds_between_years; [None] when the
    fuel does not suffice. *)
Fixpoint between_loop (fuel : nat) (left_year right_year increment seconds : Z) : option Z :=
  match fuel with
  | O => None
  | S f =>
      if left_year =? right_year then Some seconds
      else between_loop f left_year (right_year + increment) increment
             (seconds + length_of_year (IS_LEAP (right_year - 1900)) * 60 * 60 * 24)
  end.

Definition seconds_between_years (left_year right_year : Z) : option Z :=
  let increment := if right_year <? left_year then 1 else -1 in
  let '(left_year, seconds) :=
    if 2400 <? left_year then
      let cycles := Z.quot (left_year - 2400) 400 in
      (left_year - cycles * 400, cycles * seconds_in_gregorian_cycle)
    else if left_year <? 1600 then
      let cycles := Z.quot (left_year - 1600) 400 in
      (left_year + cycles * 400, cycles * seconds_in_gregorian_cycle)
    else (left_year, 0) in
  seconds ← between_loop (S (Z.to_nat (Z.abs (left_year - right_year)))) left_year right_year increment seconds;
  Some (seconds * increment).

Definition with_year (tm : TM) (y : Z) : TM :=
  mkTM (tm_sec tm) (tm_min tm) (tm_hour tm) (tm_mday tm) (tm_mon tm) y (tm_wday tm) (tm_yday tm)
    (tm_isdst tm) (tm_gmtoff tm).
Definition with_yday (tm : TM) (d : Z) : TM :=
  mkTM (tm_sec tm) (tm_min tm) (tm_hour tm) (tm_mday tm) (tm_mon tm) (tm_year tm) (tm_wday tm) d
    (tm_isdst tm) (tm_gmtoff tm).

(** mktime (libc/tzcode) is a parameter: the time_t, and the date it leaves in
    its argument. *)
Definition mktime64 (mktime : TM -> Z * TM) (input_date : TM) : option Z :=
  let year := int_year (tm_year input_date) in
  if (MIN_SAFE_YEAR <=? year) && (year <=? MAX_SAFE_YEAR) then Some (mktime input_date).1
  else
    let '(time, safe_date) := mktime (with_year input_date (safe_year year - 1900)) in
    seconds ← seconds_between_years year (int_year (tm_year safe_date));
    Some (time + seconds).

Definition timelocal64 := mktime64.

(** WRAP(a,b,m), which borrows from the next unit: the new a and b. *)
Definition WRAP (a b m : Z) : Z * Z := if a <? 0 then (a + m, b - 1) else (a, b).

(** The loops over the years and the months of gmtime64_r; [None] when the fuel
    does not suffice. *)
Fixpoint years_up (fuel : nat) (m year : Z) : option (Z * Z) :=
  match fuel with
  | O => None
  | S f => let len := length_of_year (IS_LEAP year) in
           if len <=? m then years_up f (m - len) (year + 1) else Some (m, year)
  end.

Fixpoint months_up (fuel : nat) (leap : bool) (m mon : Z) : option (Z * Z) :=
  match fuel with
  | O => None
  | S f => let len := tab (days_in_month leap) mon in
           if len <=? m then months_up f leap (m - len) (mon + 1) else Some (m, mon)
  end.

Fixpoint years_down (fuel : nat) (m year : Z) : option (Z * Z) :=
  match fuel with
  | O => None
  | S f => let len := length_of_year (IS_LEAP year) in
           if m <? - len then years_down f (m + len) (year - 1) else Some (m, year)
  end.

Fixpoint months_down (fuel : nat) (leap : bool) (m mon : Z) : option (Z * Z) :=
  match fuel with
  | O => None
  | S f => let len := tab (days_in_month leap) mon in
           if m <? - len then months_down f leap (m + len) (mon - 1) else Some (m, mon)
  end.

(** The year, the month and the day of the month (from 0) of day [m] after
    year [year]. *)
Definition split_days (m year : Z) : option (Z * Z * Z) :=
  if 0 <=? m then
    let cycles := Z.quot m days_in_gregorian_cycle in
    let m := m - cycles * days_in_gregorian_cycle in
    let year := year + cycles * years_in_gregorian_cycle in
    '(m, year) ← years_up 401 m year;
    '(m, mon) ← months_up 13 (IS_LEAP year) m 0;
    Some (year, mon, m)
  else
    let year := year - 1 in
    let cycles := Z.quot m days_in_gregorian_cycle + 1 in
    let m := m - cycles * days_in_gregorian_cycle in
    let year := year + cycles * years_in_gregorian_cycle in
    '(m, year) ← years_down 801 m year;
    '(m, mon) ← months_down 13 (IS_LEAP year) m 11;
    Some (year, mon, m + tab (days_in_month (IS_LEAP year)) mon).

(** The outcome of gmtime64_r and localtime64_r: a date, NULL with an errno
    value, or a failed assertion. *)
Inductive tm_result := GotTM (tm : TM) | GotNULL (errno : option Z) | AssertFailed.

Definition assert_check_tm (tm : TM) : tm_result := if check_tm tm then GotTM tm else AssertFailed.

Definition EOVERFLOW : Z := 75.

(** The seconds, minutes and hours of a time and its day. *)
Definition clock_fields (time : Z) : Z * Z * Z * Z :=
  let v_tm_sec := Z.rem time 60 in
  let time := Z.quot time 60 in
  let v_tm_min := Z.rem time 60 in
  let time := Z.quot time 60 in
  let v_tm_hour := Z.rem time 24 in
  let time := Z.quot time 24 in
  let v_tm_tday := time in
  let '(v_tm_sec, v_tm_min) := WRAP v_tm_sec v_tm_min 60 in
  let '(v_tm_min, v_tm_hour) := WRAP v_tm_min v_tm_hour 60 in
  let '(v_tm_hour, v_tm_tday) := WRAP v_tm_hour v_tm_tday 24 in
  (v_tm_sec, v_tm_min, v_tm_hour, v_tm_tday).

Definition gmtime64_r (in_time : Z) : option tm_result :=
  let '(v_tm_sec, v_tm_min, v_tm_hour, v_tm_tday) := clock_fields in_time in
  let v_tm_wday := Z.rem (v_tm_tday + 4) 7 in
  let v_tm_wday := if v_tm_wday <? 0 then v_tm_wday + 7 else v_tm_wday in
  let '(m, year) := if CHEAT_DAYS <=? v_tm_tday then (v_tm_tday - CHEAT_DAYS, CHEAT_YEARS)
                    else (v_tm_tday, 70) in
  '(year, v_tm_mon, m) ← split_days m year;
  if negb (s32 year =? year) then Some (GotNULL (Some EOVERFLOW))
  else Some (assert_check_tm (mkTM v_tm_sec v_tm_min v_tm_hour (m + 1) v_tm_mon year v_tm_wday
               (tab (julian_days_by_month (IS_LEAP year)) v_tm_mon + m) 0 0)).

Definition SYSTEM_LOCALTIME_MAX : Z := 2147483647.
Definition SYSTEM_LOCALTIME_MIN : Z := -2147483647.

(** The corrections of localtime64_r: the year of a local date on the other side
    of a new year, and the day of the year in a year without a leap day. *)
Definition correct_local (local_tm : TM) (gm_tm_mon : Z) : TM :=
  let month_diff := tm_mon local_tm - gm_tm_mon in
  let local_tm := if month_diff =? 11 then with_year local_tm (tm_year local_tm - 1) else local_tm in
  let local_tm := if month_diff =? -11 then with_year local_tm (tm_year local_tm + 1) else local_tm in
  if negb (is_leap_int (tm_year local_tm)) && (tm_yday local_tm =? 365)
  then with_yday local_tm (tm_yday local_tm - 1) else local_tm.

(** localtime_r (libc/tzcode) is a parameter: the date it stores, and whether
    the pointer it returns is not NULL.  time_t has 32 bits. *)
Definition localtime64_r (localtime_r : Z -> TM * bool) (time : Z) : option tm_result :=
  if (time <=? SYSTEM_LOCALTIME_MAX) && (SYSTEM_LOCALTIME_MIN <=? time) then
    Some (assert_check_tm (localtime_r time).1)
  else
    g ← gmtime64_r time;
    match g with
    | GotTM gm_tm =>
        let orig_year := tm_year gm_tm in
        let gm_tm :=
          if (2037 - 1900 <? tm_year gm_tm) || (tm_year gm_tm <? 1970 - 1900)
          then with_year gm_tm (safe_year (int_year (tm_year gm_tm)) - 1900) else gm_tm in
        let safe_time := s32 (timegm64 gm_tm) in
        let '(safe_date, ok) := localtime_r safe_time in
        if negb ok then Some (GotNULL None)
        else
          let local_tm := with_year safe_date orig_year in
          Some (assert_check_tm (correct_local local_tm (tm_mon gm_tm)))
    | r => Some r
    end.

Definition valid_tm_wday (date : TM) : bool := (0 <=? tm_wday date) && (tm_wday date <=? 6).
Definition valid_tm_mon (date : TM) : bool := (0 <=? tm_mon date) && (tm_mon date <=? 11).

(** ** The calendar

    [day_number y] counts the days from the Epoch to the first day of the year
    1900 + [y] by the Gregorian rule. *)

Definition leap_days_before (y : Z) : Z := (1899 + y) / 4 - (1899 + y) / 100 + (1899 + y) / 400.

Definition day_number (y : Z) : Z := 365 * (y - 70) + leap_days_before y - leap_days_before 70.

(** The day number of a date. *)
Definition date_number (y mon mday : Z) : Z :=
  day_number y + tab (julian_days_by_month (IS_LEAP y)) mon + mday - 1.

(** The date exists in the calendar. *)
Definition valid_date (y mon mday : Z) : Prop :=
  0 <= mon <= 11 /\ 1 <= mday <= tab (days_in_month (IS_LEAP y)) mon.

Definition valid_clock (tm : TM) : Prop :=
  0 <= tm_hour tm < 24 /\ 0 <= tm_min tm < 60 /\ 0 <= tm_sec tm < 60.

(** The time at which a clock shows [tm]. *)
Definition tm_time (tm : TM) : Z :=
  date_number (tm_year tm) (tm_mon tm) (tm_mday tm) * 86400
  + tm_hour tm * 3600 + tm_min tm * 60 + tm_sec tm.

(** [tm] is the date and time of day of time [t], its derived fields included;
    day 0 was a Thursday. *)
Definition is_tm (t : Z) (tm : TM) : Prop :=
  valid_date (tm_year tm) (tm_mon tm) (tm_mday tm) /\ valid_clock tm /\ tm_time tm = t /\
  tm_wday tm = (date_number (tm_year tm) (tm_mon tm) (tm_mday tm) + 4) mod 7 /\
  tm_yday tm = date_number (tm_year tm) (tm_mon tm) (tm_mday tm) - day_number (tm_year tm).

(** ** Years *)

Lemma rem_mod_eqb a b : b <> 0 -> (Z.rem a b =? 0) = (a mod b =? 0).
Proof.
  intros Hb. apply eq_true_iff_eq. rewrite !Z.eqb_eq.
  rewrite (Z.rem_divide a b Hb), (Z.mod_divide a b Hb). done.
Qed.

Lemma is_leap_spec y :
  IS_LEAP y = ((y + 1900) mod 400 =? 0) || (((y + 1900) mod 4 =? 0) && negb ((y + 1900) mod 100 =? 0)).
Proof. unfold IS_LEAP. rewrite !rem_mod_eqb by lia. done. Qed.

Lemma day_number_next y : day_number (y + 1) = day_number y + length_of_year (IS_LEAP y).
Proof.
  rewrite is_leap_spec. unfold day_number, leap_days_before.
  replace (1899 + (y + 1)) with (y + 1900) by lia. replace (1899 + y) with (y + 1900 - 1) by lia.
  generalize (y + 1900). intros n.
  repeat bcase; cbn [orb andb negb length_of_year]; zdm.
Qed.

Lemma day_number_cycle y k : day_number (y + 400 * k) = day_number y + 146097 * k.
Proof.
  unfold day_number, leap_days_before.
  replace (1899 + (y + 400 * k)) with (1899 + y + 100 * k * 4) by lia.
  rewrite Z.div_add by lia.
  replace (1899 + y + 100 * k * 4) with (1899 + y + 4 * k * 100) by lia.
  rewrite Z.div_add by lia.
  replace (1899 + y + 4 * k * 100) with (1899 + y + k * 400) by lia.
  rewrite Z.div_add by lia. lia.
Qed.

Lemma is_leap_cycle y k : IS_LEAP (y + 400 * k) = IS_LEAP y.
Proof.
  rewrite !is_leap_spec. replace (y + 400 * k + 1900) with (y + 1900 + 100 * k * 4) by lia.
  rewrite (Z.mod_add _ _ 4) by lia.
  replace (y + 1900 + 100 * k * 4) with (y + 1900 + 4 * k * 100) by lia.
  rewrite (Z.mod_add _ _ 100) by lia.
  replace (y + 1900 + 4 * k * 100) with (y + 1900 + k * 400) by lia.
  rewrite (Z.mod_add _ _ 400) by lia. done.
Qed.

Lemma length_of_year_bounds b : 365 <= length_of_year b <= 366.
Proof. destruct b; cbn; lia. Qed.

Lemma day_number_mono y z : y < z -> day_number (y + 1) <= day_number z.
Proof.
  intros H. replace z with (y + 1 + Z.of_nat (Z.to_nat (z - (y + 1)))) by lia.
  induction (Z.to_nat (z - (y + 1))) as [|n IH]; [rewrite Z.add_0_r; lia|].
  replace (y + 1 + Z.of_nat (S n)) with (y + 1 + Z.of_nat n + 1) by lia.
  rewrite (day_number_next (y + 1 + Z.of_nat n)).
  pose proof (length_of_year_bounds (IS_LEAP (y + 1 + Z.of_nat n))). lia.
Qed.

(** ** Months *)

Ltac month mon :=
  let H := fresh in
  assert (mon = 0 \/ mon = 1 \/ mon = 2 \/ mon = 3 \/ mon = 4 \/ mon = 5 \/ mon = 6 \/ mon = 7 \/
          mon = 8 \/ mon = 9 \/ mon = 10 \/ mon = 11) as H by lia;
  repeat (destruct H as [H | H]; [subst mon|]); try subst mon.

(** The day of the year on which month [mon] ends. *)
Definition month_end (leap : bool) (mon : Z) : Z :=
  tab (julian_days_by_month leap) mon + tab (days_in_month leap) mon.

Lemma month_end_next leap mon :
  0 <= mon < 11 -> month_end leap mon = tab (julian_days_by_month leap) (mon + 1).
Proof. intros H. month mon; try lia; destruct leap; reflexivity. Qed.

Lemma month_end_last leap : month_end leap 11 = length_of_year leap.
Proof. destruct leap; reflexivity. Qed.

Lemma month_start_first leap : tab (julian_days_by_month leap) 0 = 0.
Proof. destruct leap; reflexivity. Qed.

Lemma january_december leap :
  tab (days_in_month leap) 0 = 31 /\ tab (days_in_month leap) 11 = 31 /\
  tab (julian_days_by_month leap) 0 = 0 /\ tab (julian_days_by_month leap) 11 = length_of_year leap - 31.
Proof. destruct leap; repeat split. Qed.

Lemma month_bounds leap mon :
  0 <= mon <= 11 ->
  0 <= tab (julian_days_by_month leap) mon /\ month_end leap mon <= length_of_year leap /\
  28 <= tab (days_in_month leap) mon <= 31.
Proof. intros H. month mon; destruct leap; cbv; repeat split; discriminate. Qed.

Lemma month_mono leap a b :
  0 <= a -> a < b -> b <= 11 -> month_end leap a <= tab (julian_days_by_month leap) b.
Proof.
  intros Ha Hab Hb. month a; try lia; month b; try lia; destruct leap; cbv; discriminate.
Qed.

Lemma date_number_bounds y mon mday :
  valid_date y mon mday -> day_number y <= date_number y mon mday < day_number (y + 1).
Proof.
  intros (Hm & Hd). rewrite day_number_next. unfold date_number.
  destruct (month_bounds (IS_LEAP y) mon Hm) as (H1 & H2 & H3). unfold month_end in H2. lia.
Qed.

(** A day has one date. *)
Lemma date_unique y mon mday y' mon' mday' :
  valid_date y mon mday -> valid_date y' mon' mday' ->
  date_number y mon mday = date_number y' mon' mday' -> y = y' /\ mon = mon' /\ mday = mday'.
Proof.
  intros H H' E. pose proof (date_number_bounds _ _ _ H). pose proof (date_number_bounds _ _ _ H').
  assert (y = y') as ->.
  { destruct (Z.lt_trichotomy y y') as [C|[C|C]]; [|done|]; pose proof (day_number_mono _ _ C); lia. }
  destruct H as (Hm & Hd), H' as (Hm' & Hd'). unfold date_number in E.
  assert (mon = mon') as ->.
  { destruct (Z.lt_trichotomy mon mon') as [C|[C|C]]; [|done|].
    - pose proof (month_mono (IS_LEAP y') mon mon' ltac:(lia) C ltac:(lia)). unfold month_end in *. lia.
    - pose proof (month_mono (IS_LEAP y') mon' mon ltac:(lia) C ltac:(lia)). unfold month_end in *. lia. }
  repeat split; lia.
Qed.

(** A time has one broken-down date. *)
Lemma is_tm_unique t tm tm' :
  is_tm t tm -> is_tm t tm' -> tm_isdst tm = tm_isdst tm' -> tm_gmtoff tm = tm_gmtoff tm' -> tm = tm'.
Proof.
  intros (D & (C1 & C2 & C3) & T & W & Yd) (D' & (C1' & C2' & C3') & T' & W' & Yd') E1 E2.
  unfold tm_time in *.
  assert (date_number (tm_year tm) (tm_mon tm) (tm_mday tm)
          = date_number (tm_year tm') (tm_mon tm') (tm_mday tm')) as E by lia.
  destruct (date_unique _ _ _ _ _ _ D D' E) as (E3 & E4 & E5).
  rewrite E in *. rewrite E3 in Yd. destruct tm, tm'; cbn in *. f_equal; lia.
Qed.

(** ** timegm64 *)

Lemma add_years_spec n year days :
  add_years n year days = days + day_number (year + Z.of_nat n) - day_number year.
Proof.
  revert year days. induction n as [|n IH]; intros year days; cbn [add_years].
  - rewrite Z.add_0_r. lia.
  - rewrite IH, day_number_next. replace (year + 1 + Z.of_nat n) with (year + Z.of_nat (S n)) by lia. lia.
Qed.

Lemma sub_years_spec n year days :
  sub_years n year days = days + day_number (year + 1 - Z.of_nat n) - day_number (year + 1).
Proof.
  revert year days. induction n as [|n IH]; intros year days; cbn [sub_years].
  - rewrite Z.sub_0_r. lia.
  - rewrite IH. replace (year - 1 + 1) with year by lia. rewrite (day_number_next year).
    replace (year + 1 - Z.of_nat (S n)) with (year - Z.of_nat n) by lia. lia.
Qed.

(** The day count timegm64 starts from, for an offset of whole cycles. *)
Lemma years_from_70 y days :
  (if 70 <? y then add_years (Z.to_nat (y - 70)) 70 days
   else if y <? 70 then sub_years (Z.to_nat (70 - y)) 69 days else days) = days + day_number y.
Proof.
  assert (day_number 70 = 0) as E by reflexivity.
  repeat bcase.
  - rewrite add_years_spec, E. replace (70 + Z.of_nat (Z.to_nat (y - 70))) with y by lia. lia.
  - rewrite sub_years_spec. change (69 + 1) with 70. rewrite E.
    replace (70 - Z.of_nat (Z.to_nat (70 - y))) with y by lia. lia.
  - replace y with 70 by lia. rewrite E. lia.
Qed.

Lemma timegm64_value date : timegm64 date = tm_time date.
Proof.
  unfold timegm64, tm_time, date_number. set (y := tm_year date).
  set (q := Z.quot (y - 100) 400).
  assert (forall y' d, y = y' + 400 * d ->
    ((let days := (if 70 <? y' then add_years (Z.to_nat (y' - 70)) 70 (d * days_in_gregorian_cycle)
       else if y' <? 70 then sub_years (Z.to_nat (70 - y')) 69 (d * days_in_gregorian_cycle)
       else d * days_in_gregorian_cycle) in
      let days := days + tab (julian_days_by_month (IS_LEAP y')) (tm_mon date) in
      let days := days + (tm_mday date - 1) in
      days * 60 * 60 * 24 + tm_hour date * 60 * 60 + tm_min date * 60 + tm_sec date)
     = (day_number y + tab (julian_days_by_month (IS_LEAP y)) (tm_mon date) + tm_mday date - 1) * 86400 +
       tm_hour date * 3600 + tm_min date * 60 + tm_sec date)) as K.
  { intros y' d ->. cbv zeta. rewrite years_from_70, day_number_cycle, is_leap_cycle.
    change days_in_gregorian_cycle with 146097. lia. }
  bcase; [|bcase].
  - apply (K (y - q * 400) q). lia.
  - apply (K (y - q * 400) q). lia.
  - apply (K y 0). lia.
Qed.

(** ** gmtime64_r *)

Lemma years_up_spec fuel m year :
  0 <= m < 365 * Z.of_nat fuel ->
  exists m' year', years_up fuel m year = Some (m', year') /\
    m' + day_number year' = m + day_number year /\ 0 <= m' < length_of_year (IS_LEAP year').
Proof.
  revert m year. induction fuel as [|f IH]; intros m year H; [lia|]. cbn [years_up].
  pose proof (length_of_year_bounds (IS_LEAP year)). bcase; [|exists m, year; repeat split; lia].
  destruct (IH (m - length_of_year (IS_LEAP year)) (year + 1)) as (m' & y' & E & Hs & Hb); [lia|].
  exists m', y'. rewrite day_number_next in Hs. repeat split; [done|lia..].
Qed.

Lemma years_down_spec fuel m year :
  - 365 * Z.of_nat fuel <= m < 0 ->
  exists m' year', years_down fuel m year = Some (m', year') /\
    m' + day_number (year' + 1) = m + day_number (year + 1) /\ - length_of_year (IS_LEAP year') <= m' < 0.
Proof.
  revert m year. induction fuel as [|f IH]; intros m year H; [lia|]. cbn [years_down].
  pose proof (length_of_year_bounds (IS_LEAP year)). bcase; [|exists m, year; repeat split; lia].
  destruct (IH (m + length_of_year (IS_LEAP year)) (year - 1)) as (m' & y' & E & Hs & Hb); [lia|].
  exists m', y'. replace (year - 1 + 1) with year in Hs by lia. rewrite (day_number_next year).
  repeat split; [done|lia..].
Qed.

Lemma months_up_spec fuel leap m mon :
  0 <= mon <= 11 -> 11 - mon < Z.of_nat fuel -> 0 <= m ->
  tab (julian_days_by_month leap) mon + m < length_of_year leap ->
  exists m' mon', months_up fuel leap m mon = Some (m', mon') /\ 0 <= mon' <= 11 /\
    tab (julian_days_by_month leap) mon' + m' = tab (julian_days_by_month leap) mon + m /\
    0 <= m' < tab (days_in_month leap) mon'.
Proof.
  revert m mon. induction fuel as [|f IH]; intros m mon Hm Hf H0 Hl; [lia|]. cbn [months_up].
  bcase; [|exists m, mon; repeat split; lia].
  assert (mon < 11) by (destruct (decide (mon = 11)) as [->|]; [rewrite <- month_end_last in Hl; unfold month_end in Hl; lia|lia]).
  pose proof (month_end_next leap mon ltac:(lia)) as E. unfold month_end in E.
  destruct (IH (m - tab (days_in_month leap) mon) (mon + 1)) as (m' & mon' & R & Hb & Hs & Hr); [lia..|].
  exists m', mon'. repeat split; [done|lia..].
Qed.

Lemma months_down_spec fuel leap m mon :
  0 <= mon <= 11 -> mon < Z.of_nat fuel -> m < 0 -> 0 <= month_end leap mon + m ->
  exists m' mon', months_down fuel leap m mon = Some (m', mon') /\ 0 <= mon' <= 11 /\
    month_end leap mon' + m' = month_end leap mon + m /\ - tab (days_in_month leap) mon' <= m' < 0.
Proof.
  revert m mon. induction fuel as [|f IH]; intros m mon Hm Hf H0 Hl; [lia|]. cbn [months_down].
  bcase; [|exists m, mon; repeat split; lia].
  assert (0 < mon).
  { destruct (decide (mon = 0)) as [->|]; [|lia]. unfold month_end in Hl. rewrite month_start_first in Hl. lia. }
  assert (month_end leap (mon - 1) = month_end leap mon - tab (days_in_month leap) mon) as E.
  { rewrite month_end_next by lia. replace (mon - 1 + 1) with mon by lia. unfold month_end. lia. }
  destruct (IH (m + tab (days_in_month leap) mon) (mon - 1)) as (m' & mon' & R & Hb & Hs & Hr); [lia..|].
  exists m', mon'. repeat split; [done|lia..].
Qed.

Lemma split_days_spec m year :
  exists y mon d, split_days m year = Some (y, mon, d) /\ valid_date y mon (d + 1) /\
    date_number y mon (d + 1) = m + day_number year.
Proof.
  unfold split_days. change days_in_gregorian_cycle with 146097. change years_in_gregorian_cycle with 400.
  bcase.
  - set (q := Z.quot m 146097).
    assert (0 <= m - q * 146097 < 146097) as Hq by (subst q; rewrite Z.quot_div_nonneg by lia; zdm).
    destruct (years_up_spec 401 (m - q * 146097) (year + q * 400)) as (m' & y' & -> & Hs & Hb); [lia|].
    cbn [mbind option_bind].
    destruct (months_up_spec 13 (IS_LEAP y') m' 0) as (m'' & mon & -> & Hm & Hms & Hmb); [lia..| |].
    { rewrite month_start_first. lia. }
    cbn [mbind option_bind]. exists y', mon, m''. split; [done|]. split; [split; lia|].
    unfold date_number. replace (year + q * 400) with (year + 400 * q) in Hs by lia.
    rewrite day_number_cycle in Hs.
    rewrite month_start_first in Hms. lia.
  - set (q := Z.quot m 146097).
    assert (- 2 * 146097 < m - (q + 1) * 146097 <= - 146097) as Hq.
    { subst q. pose proof (Z.quot_rem' m 146097). pose proof (Z.rem_nonpos m 146097 ltac:(lia) ltac:(lia)).
      pose proof (Z.rem_bound_abs m 146097 ltac:(lia)). lia. }
    destruct (years_down_spec 801 (m - (q + 1) * 146097) (year - 1 + (q + 1) * 400)) as (m' & y' & -> & Hs & Hb); [lia|].
    cbn [mbind option_bind].
    destruct (months_down_spec 13 (IS_LEAP y') m' 11) as (m'' & mon & -> & Hm & Hms & Hmb); [lia..| |].
    { rewrite month_end_last. lia. }
    cbn [mbind option_bind]. eexists y', mon, _. split; [done|].
    rewrite month_end_last in Hms. unfold month_end in Hms. split; [split; lia|].
    unfold date_number. replace (year - 1 + (q + 1) * 400 + 1) with (year + 400 * (q + 1)) in Hs by lia.
    rewrite day_number_cycle, day_number_next in Hs. lia.
Qed.

Lemma WRAP_spec a b m : - m <= a < m -> WRAP a b m = (a mod m, b + a / m).
Proof.
  intros H. unfold WRAP. bcase; f_equal.
  - apply (Z.mod_unique_pos _ _ (-1)); lia.
  - rewrite <- (Z.div_unique_pos a m (-1) (a + m)); lia.
  - apply (Z.mod_unique_pos _ _ 0); lia.
  - rewrite Z.div_small; lia.
Qed.

Lemma quot_rem_sign n m :
  0 < m -> (0 <= n /\ 0 <= Z.rem n m < m /\ 0 <= Z.quot n m) \/
           (n < 0 /\ - m < Z.rem n m <= 0 /\ Z.quot n m <= 0).
Proof.
  intros Hm. pose proof (Z.rem_bound_abs n m ltac:(lia)).
  destruct (Z.le_gt_cases 0 n).
  - left. split; [done|]. split; [apply Z.rem_bound_pos; lia|apply Z.quot_pos; lia].
  - right. split; [done|]. pose proof (Z.rem_nonpos n m ltac:(lia) ltac:(lia)). split; [lia|].
    pose proof (Z.quot_pos (- n) m ltac:(lia) ltac:(lia)) as Q. rewrite Z.quot_opp_l in Q; lia.
Qed.

(** Truncating division, corrected by the borrow of the smaller unit [r]. *)
Lemma quot_carry n m r :
  0 < m -> -1 <= r <= 0 -> (n <= 0 \/ r = 0) ->
  - m <= Z.rem n m + r < m /\ (Z.rem n m + r) mod m = (n + r) mod m /\
  Z.quot n m + (Z.rem n m + r) / m = (n + r) / m.
Proof.
  intros Hm Hr Hn. pose proof (Z.quot_rem' n m) as E. pose proof (Z.rem_bound_abs n m ltac:(lia)).
  split; [lia|]. replace (n + r) with (Z.rem n m + r + Z.quot n m * m) by lia.
  rewrite Z.mod_add, Z.div_add by lia. split; lia.
Qed.

Lemma clock_fields_spec t :
  clock_fields t = (t mod 60, t / 60 mod 60, t / 60 / 60 mod 24, t / 60 / 60 / 24).
Proof.
  unfold clock_fields. set (q1 := Z.quot t 60). set (q2 := Z.quot q1 60).
  destruct (quot_carry t 60 0) as (B1 & M1 & D1); [lia..|]. rewrite !Z.add_0_r in *. fold q1 in D1.
  rewrite WRAP_spec by lia.
  assert (-1 <= Z.rem t 60 / 60 <= 0 /\ (q1 <= 0 \/ Z.rem t 60 / 60 = 0)) as (R1 & S1).
  { subst q1. clear -B1. pose proof (quot_rem_sign t 60 ltac:(lia)) as Q. revert Q.
    generalize (Z.rem t 60) (Z.quot t 60). intros. zdm. }
  destruct (quot_carry q1 60 (Z.rem t 60 / 60)) as (B2 & M2 & D2); [lia..|]. fold q2 in D2.
  rewrite D1 in M2, D2. rewrite WRAP_spec by lia.
  set (r2 := (Z.rem q1 60 + Z.rem t 60 / 60) / 60) in *.
  assert (-1 <= r2 <= 0 /\ (q2 <= 0 \/ r2 = 0)) as (R2 & S2).
  { subst q2 r2. clear -B2 S1 R1. pose proof (quot_rem_sign q1 60 ltac:(lia)) as Q.
    pose proof (Z.quot_rem' q1 60) as Q'. revert Q Q' S1 R1.
    generalize (Z.rem q1 60) (Z.quot q1 60) (Z.rem t 60 / 60). intros. zdm. }
  destruct (quot_carry q2 24 r2) as (B3 & M3 & D3); [lia..|]. rewrite D2 in M3, D3.
  rewrite WRAP_spec by lia. rewrite M1, M2, M3, D3. done.
Qed.

Lemma is_leap_int_small y : INT_MIN <= y <= INT_MAX - 1900 -> is_leap_int y = IS_LEAP y.
Proof.
  intros H. unfold is_leap_int, int_year, INT_MIN, INT_MAX in *. rewrite s32_small by lia. f_equal. lia.
Qed.

Lemma is_tm_check t tm :
  is_tm t tm -> INT_MIN <= tm_year tm <= INT_MAX - 1900 -> -86400 <= tm_gmtoff tm <= 86400 ->
  check_tm tm = true.
Proof.
  intros (D & (C1 & C2 & C3) & _ & W & Yd) Hy Hg. unfold check_tm. rewrite is_leap_int_small by done.
  pose proof (date_number_bounds _ _ _ D) as B. rewrite day_number_next in B.
  pose proof (Z.mod_pos_bound (date_number (tm_year tm) (tm_mon tm) (tm_mday tm) + 4) 7 ltac:(lia)).
  destruct D as (D1 & D2). rewrite !andb_true_iff, !Z.leb_le. repeat split; lia.
Qed.

(** The date of a time is what gmtime64_r computes before it stores the year. *)
Lemma gmtime64_core t :
  exists tm, is_tm t tm /\ tm_isdst tm = 0 /\ tm_gmtoff tm = 0 /\
    gmtime64_r t = Some (if s32 (tm_year tm) =? tm_year tm then assert_check_tm tm
                         else GotNULL (Some EOVERFLOW)).
Proof.
  unfold gmtime64_r. rewrite clock_fields_spec. set (d := t / 60 / 60 / 24).
  assert ((if CHEAT_DAYS <=? d then (d - CHEAT_DAYS, CHEAT_YEARS) else (d, 70))
          = (d - day_number (if CHEAT_DAYS <=? d then CHEAT_YEARS else 70),
             if CHEAT_DAYS <=? d then CHEAT_YEARS else 70)) as ->.
  { change CHEAT_DAYS with 13879. bcase; f_equal.
    change (day_number 70) with 0. lia. }
  set (y0 := if CHEAT_DAYS <=? d then CHEAT_YEARS else 70).
  destruct (split_days_spec (d - day_number y0) y0) as (y & mon & m & -> & V & N).
  cbn [mbind option_bind].
  set (w := Z.rem (d + 4) 7).
  assert ((if w <? 0 then w + 7 else w) = (d + 4) mod 7) as ->.
  { pose proof (WRAP_spec w 0 7) as Hw. unfold WRAP in Hw.
    destruct (quot_carry (d + 4) 7 0) as (Hb & Hm & _); [lia..|]. rewrite !Z.add_0_r in *. fold w in Hb, Hm.
    specialize (Hw Hb). rewrite Hm in Hw. destruct (w <? 0); congruence. }
  eexists (mkTM _ _ _ _ _ _ _ _ _ _). split; [|split; [|split; [|destruct (s32 y =? y) eqn:E; cbn; rewrite E; reflexivity]]];
    [|done|done].
  assert (date_number y mon (m + 1) = d) as E by lia.
  unfold is_tm, valid_clock, tm_time. cbn. rewrite E. split; [done|].
  pose proof (Z.mod_pos_bound t 60). pose proof (Z.mod_pos_bound (t / 60) 60). pose proof (Z.mod_pos_bound (t / 60 / 60) 24).
  repeat split; try lia.
  - subst d. zdm.
  - unfold date_number in E. lia.
Qed.

(** ** Safe years *)

(** The weekday (from Sunday) of the first day of the year [y] AD. *)
Definition jan1 (y : Z) : Z := (day_number (y - 1900) + 4) mod 7.

(** Year [s] has the calendar of year [y], and the years around them start on
    the same days of the week. *)
Definition same_calendar (s y : Z) : bool :=
  (jan1 s =? jan1 y) && Bool.eqb (IS_LEAP (s - 1900)) (IS_LEAP (y - 1900)) &&
  (jan1 (s - 1) =? jan1 (y - 1)) && (jan1 (s + 1) =? jan1 (y + 1)).

Definition good_safe_year (y : Z) : bool :=
  (MIN_SAFE_YEAR <=? safe_year y) && (safe_year y <=? MAX_SAFE_YEAR) && same_calendar (safe_year y) y.

Lemma jan1_cycle y k : jan1 (y + 400 * k) = jan1 y.
Proof.
  unfold jan1. replace (y + 400 * k - 1900) with (y - 1900 + 400 * k) by lia.
  rewrite day_number_cycle.
  replace (day_number (y - 1900) + 146097 * k + 4) with (day_number (y - 1900) + 4 + 20871 * k * 7) by lia.
  apply Z.mod_add. lia.
Qed.

Lemma same_calendar_cycle s y k : same_calendar s (y + 400 * k) = same_calendar s y.
Proof.
  unfold same_calendar. replace (y + 400 * k - 1900) with (y - 1900 + 400 * k) by lia.
  replace (y + 400 * k - 1) with (y - 1 + 400 * k) by lia.
  replace (y + 400 * k + 1) with (y + 1 + 400 * k) by lia.
  rewrite !jan1_cycle, is_leap_cycle. done.
Qed.

Lemma is_exception_century_cycle y k : is_exception_century (y + 400 * k) = is_exception_century y.
Proof.
  unfold is_exception_century. rewrite !rem_mod_eqb by lia.
  replace (y + 400 * k) with (y + 4 * k * 100) by lia. rewrite Z.mod_add by lia.
  replace (y + 4 * k * 100) with (y + k * 400) by lia. rewrite Z.mod_add by lia. done.
Qed.

(** The position in the 28-year cycle that safe_year looks up. *)
Definition safe_cycle (year : Z) : Z :=
  let year_cycle := year + cycle_offset year in
  let year_cycle := if year <? MIN_SAFE_YEAR then year_cycle - 8 else year_cycle in
  let year_cycle := if is_exception_century year then year_cycle + 11 else year_cycle in
  if is_exception_century (year - 1) then year_cycle + 17 else year_cycle.

Lemma safe_year_cycle y :
  y < MIN_SAFE_YEAR \/ MAX_SAFE_YEAR < y ->
  safe_year y = tab (if y <? MIN_SAFE_YEAR then safe_years_low else safe_years_high) (safe_cycle y mod 28).
Proof.
  intros H. unfold safe_year. fold (safe_cycle y). unfold MIN_SAFE_YEAR, MAX_SAFE_YEAR in *.
  replace ((1971 <=? y) && (y <=? 2037)) with false by (repeat bcase; cbn; lia).
  unfold SOLAR_CYCLE_LENGTH. cbv zeta. unfold safe_cycle. cbv zeta. unfold MIN_SAFE_YEAR.
  match goal with |- context [Z.rem ?x 28] => set (c := x) end.
  assert ((if Z.rem c 28 <? 0 then 28 + Z.rem c 28 else Z.rem c 28) = c mod 28) as ->.
  { destruct (quot_carry c 28 0) as (Hb & Hm & _); [lia..|]. rewrite !Z.add_0_r in *.
    pose proof (WRAP_spec (Z.rem c 28) 0 28 Hb) as Hw. unfold WRAP in Hw. rewrite Hm in Hw.
    destruct (Z.rem c 28 <? 0); simplify_eq; lia. }
  destruct (y <? 1971); done.
Qed.

Lemma quot_small_cycle n m k : 0 < m -> 0 <= n -> 0 <= n + m * k -> Z.quot (n + m * k) m = Z.quot n m + k.
Proof.
  intros Hm H1 H2. rewrite !Z.quot_div_nonneg by lia. replace (n + m * k) with (n + k * m) by lia.
  apply Z.div_add. lia.
Qed.

(** Moving away from the safe range by 400 years moves the cycle by 448 = 16 * 28. *)
Lemma cycle_offset_high y : 2000 < y -> cycle_offset (y + 400) = cycle_offset y + 48.
Proof.
  intros H. unfold cycle_offset. repeat zif.
  replace (y + 400 - 2000 - 1) with (y - 2000 - 1 + 400) by lia.
  pose proof (quot_small_cycle (y - 2000 - 1) 100 4 ltac:(lia) ltac:(lia) ltac:(lia)) as E1.
  pose proof (quot_small_cycle (y - 2000 - 1) 400 1 ltac:(lia) ltac:(lia) ltac:(lia)) as E2.
  change (100 * 4) with 400 in E1. change (400 * 1) with 400 in E2. rewrite E1, E2. lia.
Qed.

Lemma cycle_offset_low y : y <= 2000 -> cycle_offset (y - 400) = cycle_offset y - 48.
Proof.
  intros H. unfold cycle_offset. repeat zif.
  replace (y - 400 - 2000) with (- (2000 - y + 400)) by lia. replace (y - 2000) with (- (2000 - y)) by lia.
  rewrite !Z.quot_opp_l by lia.
  pose proof (quot_small_cycle (2000 - y) 100 4 ltac:(lia) ltac:(lia) ltac:(lia)) as E1.
  pose proof (quot_small_cycle (2000 - y) 400 1 ltac:(lia) ltac:(lia) ltac:(lia)) as E2.
  change (100 * 4) with 400 in E1. change (400 * 1) with 400 in E2. rewrite E1, E2. lia.
Qed.

Lemma safe_year_period y :
  (MAX_SAFE_YEAR < y -> safe_year (y + 400) = safe_year y) /\
  (y < MIN_SAFE_YEAR -> safe_year (y - 400) = safe_year y).
Proof.
  unfold MIN_SAFE_YEAR, MAX_SAFE_YEAR. split; intros H.
  - rewrite !safe_year_cycle by (unfold MIN_SAFE_YEAR, MAX_SAFE_YEAR; lia).
    unfold MIN_SAFE_YEAR. repeat zif. f_equal. unfold safe_cycle. rewrite cycle_offset_high by lia.
    pose proof (is_exception_century_cycle y 1) as E. pose proof (is_exception_century_cycle (y - 1) 1) as E'.
    replace (y + 400 - 1) with (y - 1 + 400) by lia. change (400 * 1) with 400 in *. rewrite E, E'.
    unfold MIN_SAFE_YEAR. repeat zif.
    destruct (is_exception_century y), (is_exception_century (y - 1)); zdm.
  - rewrite !safe_year_cycle by (unfold MIN_SAFE_YEAR, MAX_SAFE_YEAR; lia).
    unfold MIN_SAFE_YEAR. repeat zif. f_equal. unfold safe_cycle. rewrite cycle_offset_low by lia.
    pose proof (is_exception_century_cycle y (-1)) as E. pose proof (is_exception_century_cycle (y - 1) (-1)) as E'.
    replace (y - 400 - 1) with (y - 1 + 400 * -1) by lia. replace (y + 400 * -1) with (y - 400) in E by lia.
    rewrite E, E'. unfold MIN_SAFE_YEAR. repeat zif.
    destruct (is_exception_century y), (is_exception_century (y - 1)); zdm.
Qed.

Lemma safe_year_high_check : all_from good_safe_year (Z.to_nat 400) 2038 = true.
Proof. vm_compute. reflexivity. Qed.

Lemma safe_year_mid_check : all_from good_safe_year (Z.to_nat 467) 1571 = true.
Proof. vm_compute. reflexivity. Qed.

Lemma good_safe_year_high y n : 2038 <= y -> good_safe_year y = true -> good_safe_year (y + 400 * Z.of_nat n) = true.
Proof.
  intros Hy H. induction n as [|n IH]; [by rewrite Z.add_0_r|].
  replace (y + 400 * Z.of_nat (S n)) with (y + 400 * Z.of_nat n + 400) by lia.
  unfold good_safe_year in *. destruct (safe_year_period (y + 400 * Z.of_nat n)) as (-> & _); [|unfold MAX_SAFE_YEAR; lia].
  pose proof (same_calendar_cycle (safe_year (y + 400 * Z.of_nat n)) (y + 400 * Z.of_nat n) 1) as E.
  change (400 * 1) with 400 in E. rewrite E. done.
Qed.

Lemma good_safe_year_low y n : y < 1971 -> good_safe_year y = true -> good_safe_year (y - 400 * Z.of_nat n) = true.
Proof.
  intros Hy H. induction n as [|n IH]; [by rewrite Z.sub_0_r|].
  replace (y - 400 * Z.of_nat (S n)) with (y - 400 * Z.of_nat n - 400) by lia.
  unfold good_safe_year in *. destruct (safe_year_period (y - 400 * Z.of_nat n)) as (_ & ->); [|unfold MIN_SAFE_YEAR; lia].
  pose proof (same_calendar_cycle (safe_year (y - 400 * Z.of_nat n)) (y - 400 * Z.of_nat n) (-1)) as E.
  replace (y - 400 * Z.of_nat n + 400 * -1) with (y - 400 * Z.of_nat n - 400) in E by lia. rewrite E. done.
Qed.

Lemma good_safe_years y : good_safe_year y = true.
Proof.
  destruct (Z.le_gt_cases 2038 y); [|destruct (Z.le_gt_cases 1571 y)].
  - replace y with (2038 + (y - 2038) mod 400 + 400 * Z.of_nat (Z.to_nat ((y - 2038) / 400))) by zdm.
    apply good_safe_year_high; [zdm|]. apply (range_check _ _ _ safe_year_high_check). zdm.
  - apply (range_check _ _ _ safe_year_mid_check). lia.
  - replace y with (1970 - (1970 - y) mod 400 - 400 * Z.of_nat (Z.to_nat ((1970 - y) / 400))) by zdm.
    apply good_safe_year_low; [zdm|]. apply (range_check _ _ _ safe_year_mid_check). zdm.
Qed.

Lemma safe_year_calendar year :
  1971 <= safe_year year <= 2037 /\
  jan1 (safe_year year) = jan1 year /\
  IS_LEAP (safe_year year - 1900) = IS_LEAP (year - 1900) /\
  jan1 (safe_year year - 1) = jan1 (year - 1) /\ jan1 (safe_year year + 1) = jan1 (year + 1).
Proof.
  pose proof (good_safe_years year) as H. unfold good_safe_year, same_calendar, MIN_SAFE_YEAR, MAX_SAFE_YEAR in H.
  rewrite !andb_true_iff, Bool.eqb_true_iff, !Z.eqb_eq, !Z.leb_le in H. tauto.
Qed.

(** The years around [y] are those around its safe year, a multiple of 7 days away. *)
Lemma safe_year_shift y :
  let s := safe_year (y + 1900) - 1900 in
  exists k, day_number y = day_number s + 7 * k /\ IS_LEAP s = IS_LEAP y /\
    IS_LEAP (s - 1) = IS_LEAP (y - 1) /\
    day_number (y - 1) = day_number (s - 1) + 7 * k /\ day_number (y + 1) = day_number (s + 1) + 7 * k.
Proof.
  intros s. destruct (safe_year_calendar (y + 1900)) as (_ & J & L & J1 & _).
  unfold jan1 in J, J1.
  replace (y + 1900 - 1900) with y in * by lia. replace (y + 1900 - 1 - 1900) with (y - 1) in J1 by lia.
  replace (safe_year (y + 1900) - 1 - 1900) with (s - 1) in J1 by (subst s; lia). fold s in J, L.
  pose proof (day_number_next s) as N1. pose proof (day_number_next y) as N2.
  pose proof (day_number_next (s - 1)) as N3. pose proof (day_number_next (y - 1)) as N4.
  replace (s - 1 + 1) with s in N3 by lia. replace (y - 1 + 1) with y in N4 by lia.
  assert (IS_LEAP (s - 1) = IS_LEAP (y - 1)) as L'.
  { destruct (IS_LEAP (s - 1)), (IS_LEAP (y - 1)); cbn [length_of_year] in *; try done; exfalso; zdm. }
  exists ((day_number y - day_number s) / 7). rewrite L in N1. rewrite L' in N3.
  assert (day_number y = day_number s + 7 * ((day_number y - day_number s) / 7)) by zdm.
  repeat split; [done|done|done|lia..].
Qed.

(** for every year, safe_year picks a year of 1971 to 2037 with the same
    calendar: it starts on the same day of the week and has the same leap
    status, the previous year has the same leap status too, and the previous and
    the next year start on the same days of the week as the neighbours of the
    given year. *)
Theorem safe_year_matches (year : Z) :
  1971 <= safe_year year <= 2037 /\
  jan1 (safe_year year) = jan1 year /\
  IS_LEAP (safe_year year - 1900) = IS_LEAP (year - 1900) /\
  IS_LEAP (safe_year year - 1 - 1900) = IS_LEAP (year - 1 - 1900) /\
  jan1 (safe_year year - 1) = jan1 (year - 1) /\ jan1 (safe_year year + 1) = jan1 (year + 1).
Proof.
  destruct (safe_year_calendar year) as (R & J & L & J1 & J2).
  destruct (safe_year_shift (year - 1900)) as (k & _ & _ & L' & _).
  replace (year - 1900 + 1900) with year in L' by lia.
  replace (safe_year year - 1 - 1900) with (safe_year year - 1900 - 1) by lia.
  replace (year - 1 - 1900) with (year - 1900 - 1) by lia. done.
Qed.

(** ** Dates and times *)

Lemma is_tm_year t tm a b :
  is_tm t tm -> day_number a * 86400 <= t < day_number b * 86400 -> a <= tm_year tm < b.
Proof.
  intros (D & (C1 & C2 & C3) & T & _) H. pose proof (date_number_bounds _ _ _ D) as B. unfold tm_time in T.
  split.
  - destruct (Z.le_gt_cases a (tm_year tm)) as [|C]; [done|]. pose proof (day_number_mono _ _ C). lia.
  - destruct (Z.lt_ge_cases (tm_year tm) b) as [|C]; [done|].
    destruct (decide (b = tm_year tm)) as [->|]; [lia|]. pose proof (day_number_mono b (tm_year tm) ltac:(lia)).
    pose proof (day_number_next b). pose proof (length_of_year_bounds (IS_LEAP b)). lia.
Qed.

Lemma gmtime64_in_range t :
  day_number INT_MIN * 86400 <= t < day_number (INT_MAX - 1899) * 86400 ->
  exists tm, gmtime64_r t = Some (GotTM tm) /\ is_tm t tm /\ tm_isdst tm = 0 /\ tm_gmtoff tm = 0.
Proof.
  intros H. destruct (gmtime64_core t) as (tm & I & E1 & E2 & ->).
  destruct (is_tm_year _ _ _ _ I H) as (Y1 & Y2). exists tm.
  rewrite s32_small, Z.eqb_refl by (unfold INT_MIN, INT_MAX in *; lia). unfold assert_check_tm.
  rewrite (is_tm_check t tm I) by lia. done.
Qed.

(** C31: gmtime64_r breaks every 64-bit time down.  When the year of the day
    fits in the int field (and can still be shifted by 1900), the result is the
    Gregorian date of the time in all its fields, day of the week and of the year
    included, it passes the assertion, and timegm64 takes it back to the time;
    when the year does not fit, the result is NULL with EOVERFLOW. *)
Theorem gmtime64_breaks_down (t : Z) (Ht : - 2 ^ 63 <= t < 2 ^ 63) :
  exists y, day_number y <= t / 86400 < day_number (y + 1) /\
    (y < INT_MIN \/ INT_MAX < y -> gmtime64_r t = Some (GotNULL (Some EOVERFLOW))) /\
    (INT_MIN <= y <= INT_MAX - 1900 ->
     exists tm, gmtime64_r t = Some (GotTM tm) /\ tm_year tm = y /\ is_tm t tm /\ timegm64 tm = t).
Proof.
  destruct (gmtime64_core t) as (tm & I & _ & Eg & E). exists (tm_year tm).
  pose proof I as (D & (C1 & C2 & C3) & T & _). unfold tm_time in T.
  pose proof (date_number_bounds _ _ _ D) as B.
  assert (t / 86400 = date_number (tm_year tm) (tm_mon tm) (tm_mday tm)) as -> by zdm.
  split; [done|]. split; intros Hy; rewrite E.
  - pose proof (s32_range (tm_year tm)). unfold INT_MIN, INT_MAX in Hy. zif. done.
  - exists tm. rewrite s32_small, Z.eqb_refl by (unfold INT_MIN, INT_MAX in *; lia).
    unfold assert_check_tm. rewrite (is_tm_check t tm I) by lia. rewrite timegm64_value.
    destruct I as (I1 & I2 & I3 & I4). done.
Qed.

Lemma gmtime64_breaks_down_witness :
  exists tm, gmtime64_r (-1) = Some (GotTM tm) /\ timegm64 tm = -1 /\ gmtime64_r (2 ^ 62) = Some (GotNULL (Some EOVERFLOW)).
Proof.
  destruct (gmtime64_breaks_down (-1) ltac:(lia)) as (y & B & _ & H).
  destruct H as (tm & E & _ & _ & T).
  { change (-1 / 86400) with (-1) in B. unfold day_number, leap_days_before in B.
    change ((1899 + 70) / 4 - (1899 + 70) / 100 + (1899 + 70) / 400) with 477 in B.
    unfold INT_MIN, INT_MAX. zdm. }
  exists tm. split; [done|]. split; [done|]. vm_compute. reflexivity.
Defined.

(** timegm64 counts the seconds from the Epoch to a date by the Gregorian
    rule, and gmtime64_r takes the time back to the same date and time of day. *)
Theorem timegm64_inverts (date : TM) (Hd : valid_date (tm_year date) (tm_mon date) (tm_mday date))
  (Hc : valid_clock date) (Hy : INT_MIN <= tm_year date <= INT_MAX - 1900) :
  timegm64 date = (day_number (tm_year date) + tab (julian_days_by_month (IS_LEAP (tm_year date))) (tm_mon date)
                   + tm_mday date - 1) * 86400 + tm_hour date * 3600 + tm_min date * 60 + tm_sec date /\
  exists wday yday, gmtime64_r (timegm64 date)
    = Some (GotTM (mkTM (tm_sec date) (tm_min date) (tm_hour date) (tm_mday date) (tm_mon date)
                     (tm_year date) wday yday 0 0)).
Proof.
  rewrite timegm64_value. split; [done|].
  pose proof (date_number_bounds _ _ _ Hd) as B. pose proof Hc as (C1 & C2 & C3).
  destruct (gmtime64_core (tm_time date)) as (tm & I & E1 & E2 & E). pose proof I as (D & C & T & _).
  exists (tm_wday tm), (tm_yday tm). unfold tm_time in T. destruct C as (C1' & C2' & C3').
  assert (date_number (tm_year tm) (tm_mon tm) (tm_mday tm)
          = date_number (tm_year date) (tm_mon date) (tm_mday date)) as N by lia.
  destruct (date_unique _ _ _ _ _ _ D Hd N) as (F1 & F2 & F3).
  rewrite E, s32_small, Z.eqb_refl by (unfold INT_MIN, INT_MAX in *; lia).
  unfold assert_check_tm. rewrite (is_tm_check _ tm I) by lia. do 2 f_equal.
  rewrite N in T. destruct tm, date; cbn in *. f_equal; lia.
Qed.

Lemma timegm64_inverts_witness :
  timegm64 (mkTM 59 59 23 29 1 100 0 0 0 0) = 951868799 /\
  exists wday yday, gmtime64_r 951868799 = Some (GotTM (mkTM 59 59 23 29 1 100 wday yday 0 0)).
Proof.
  pose proof (timegm64_inverts (mkTM 59 59 23 29 1 100 0 0 0 0)) as H.
  split; [reflexivity|]. apply H; cbn; unfold valid_date, valid_clock, INT_MIN, INT_MAX; cbn; repeat split; try lia.
  all: vm_compute; discriminate.
Defined.

(** ** Local time

    A time zone with a fixed offset from UTC, as the two functions of
    libc/tzcode present it in their range. *)

Definition fixed_localtime (localtime_r : Z -> TM * bool) (off : Z) : Prop :=
  -86400 <= off <= 86400 /\
  forall t, - 2 ^ 31 <= t < 2 ^ 31 ->
    (localtime_r t).2 = true /\ is_tm (t + off) (localtime_r t).1 /\
    tm_isdst (localtime_r t).1 = 0 /\ tm_gmtoff (localtime_r t).1 = off.

Definition fixed_mktime (mktime : TM -> Z * TM) (off : Z) : Prop :=
  forall date, valid_date (tm_year date) (tm_mon date) (tm_mday date) -> valid_clock date ->
    71 <= tm_year date <= 137 ->
    (mktime date).1 = tm_time date - off /\ tm_year (mktime date).2 = tm_year date.

(** A date and its year moved by [7 * k] days. *)
Lemma is_tm_shift t tm y k :
  is_tm t tm -> IS_LEAP (tm_year tm) = IS_LEAP y -> day_number y = day_number (tm_year tm) + 7 * k ->
  is_tm (t + 7 * k * 86400) (with_year tm y).
Proof.
  intros (D & C & T & W & Yd) L N.
  assert (date_number y (tm_mon tm) (tm_mday tm)
          = date_number (tm_year tm) (tm_mon tm) (tm_mday tm) + 7 * k) as E.
  { unfold date_number. rewrite N, L. lia. }
  unfold is_tm, valid_date, tm_time in *. cbn. rewrite E, <- L. split; [done|]. split; [done|].
  split; [lia|]. rewrite W, Yd, N. split; [|lia].
  replace (date_number (tm_year tm) (tm_mon tm) (tm_mday tm) + 7 * k + 4)
    with (date_number (tm_year tm) (tm_mon tm) (tm_mday tm) + 4 + k * 7) by lia.
  by rewrite Z.mod_add.
Qed.

(** January needs only the year to start on the same weekday. *)
Lemma is_tm_shift_january t tm y k :
  is_tm t tm -> tm_mon tm = 0 -> day_number y = day_number (tm_year tm) + 7 * k ->
  is_tm (t + 7 * k * 86400) (with_year tm y).
Proof.
  intros ((D1 & D2) & C & T & W & Yd) M N.
  assert (date_number y (tm_mon tm) (tm_mday tm)
          = date_number (tm_year tm) (tm_mon tm) (tm_mday tm) + 7 * k) as E.
  { unfold date_number. rewrite N, M, !month_start_first. lia. }
  assert (forall b, tab (days_in_month b) 0 = 31) as J by (intros b; apply january_december).
  unfold is_tm, valid_date, tm_time in *. cbn. rewrite E. rewrite M, J in *. split; [lia|]. split; [done|].
  split; [lia|]. rewrite W, Yd, N. split; [|lia].
  replace (date_number (tm_year tm) 0 (tm_mday tm) + 7 * k + 4)
    with (date_number (tm_year tm) 0 (tm_mday tm) + 4 + k * 7) by lia.
  by rewrite Z.mod_add.
Qed.

(** The corrections have nothing to do when the year is right. *)
Lemma correct_yday t tm :
  is_tm t tm -> INT_MIN <= tm_year tm <= INT_MAX - 1900 ->
  negb (is_leap_int (tm_year tm)) && (tm_yday tm =? 365) = false.
Proof.
  intros (D & _ & _ & _ & Yd) H. rewrite is_leap_int_small by done.
  pose proof (date_number_bounds _ _ _ D) as B. rewrite day_number_next in B.
  destruct (IS_LEAP (tm_year tm)); cbn [negb andb length_of_year] in *; [done|]. zif. done.
Qed.

Lemma first_day y mon mday :
  valid_date y mon mday -> date_number y mon mday = day_number y -> mon = 0.
Proof.
  intros D E. apply (date_unique y mon mday y 0 1); [done| |].
  - unfold valid_date. destruct (january_december (IS_LEAP y)) as (J1 & J2 & _). lia.
  - unfold date_number at 2. rewrite month_start_first. lia.
Qed.

Lemma last_day y mon mday :
  valid_date y mon mday -> date_number y mon mday = day_number (y + 1) - 1 -> mon = 11.
Proof.
  intros D E. apply (date_unique y mon mday y 11 31); [done| |].
  - unfold valid_date. destruct (january_december (IS_LEAP y)) as (J1 & J2 & _). lia.
  - rewrite E, day_number_next, <- month_end_last. unfold date_number, month_end.
    destruct (january_december (IS_LEAP y)) as (_ & -> & _). lia.
Qed.

(** Two dates of one year at most two days apart are not in January and December. *)
Lemma same_year_months y mon mday mon' mday' :
  valid_date y mon mday -> valid_date y mon' mday' ->
  date_number y mon mday <= date_number y mon' mday' + 2 -> mon - mon' <> 11.
Proof.
  intros (D1 & D2) (D1' & D2') H M. assert (mon = 11 /\ mon' = 0) as (-> & ->) by lia.
  unfold date_number in H. destruct (january_december (IS_LEAP y)) as (J1 & J2 & J3 & J4).
  pose proof (length_of_year_bounds (IS_LEAP y)). lia.
Qed.

(** correct_local undoes the move to the safe year [s]. *)
Lemma correct_local_spec off t gm s k L :
  let y := tm_year gm in
  is_tm (t - 7 * k * 86400) (with_year gm s) -> is_tm (t - 7 * k * 86400 + off) L -> -86400 <= off <= 86400 ->
  day_number y = day_number s + 7 * k -> IS_LEAP s = IS_LEAP y -> IS_LEAP (s - 1) = IS_LEAP (y - 1) ->
  day_number (y - 1) = day_number (s - 1) + 7 * k -> day_number (y + 1) = day_number (s + 1) + 7 * k ->
  INT_MIN < y < INT_MAX - 1900 ->
  is_tm (t + off) (correct_local (with_year L y) (tm_mon gm)) /\
  tm_isdst (correct_local (with_year L y) (tm_mon gm)) = tm_isdst L /\
  tm_gmtoff (correct_local (with_year L y) (tm_mon gm)) = tm_gmtoff L.
Proof.
  intros y IG IL Hoff N L0 L1 N1 N2 Hy.
  pose proof IG as (DG & CG & TG & _). pose proof IL as (DL & CL & TL & _).
  unfold tm_time in TG, TL. cbn in DG, TG.
  destruct CG as (G1 & G2 & G3), CL as (K1 & K2 & K3). cbn in G1, G2, G3.
  pose proof (date_number_bounds _ _ _ DG) as BG.
  assert (s - 1 <= tm_year L < s + 2) as Hl.
  { apply (is_tm_year _ _ _ _ IL). replace (s + 2) with (s + 1 + 1) by lia.
    pose proof (day_number_next (s - 1)) as E. replace (s - 1 + 1) with s in E by lia.
    pose proof (length_of_year_bounds (IS_LEAP (s - 1))). pose proof (day_number_next (s + 1)).
    pose proof (length_of_year_bounds (IS_LEAP (s + 1))). lia. }
  assert (exists y', correct_local (with_year L y) (tm_mon gm) = with_year L y' /\
            is_tm (t + off) (with_year L y')) as (y' & -> & H); [|done].
  unfold correct_local. cbn [tm_mon with_year].
  pose proof (date_number_bounds _ _ _ DL) as BL.
  assert (tm_year L = s - 1 \/ tm_year L = s \/ tm_year L = s + 1) as [C | [C | C]] by lia; rewrite C in *.
  - replace (s - 1 + 1) with s in BL by lia.
    assert (tm_mon gm = 0) as M0 by (apply (first_day _ _ _ DG); lia).
    assert (tm_mon L = 11) as M11.
    { apply (last_day _ _ _ DL). replace (s - 1 + 1) with s by lia. lia. }
    rewrite M0, M11. change (11 - 0 =? 11) with true. change (11 - 0 =? -11) with false. cbv iota zeta.
    exists (y - 1). rewrite <- C in L1, N1. pose proof (is_tm_shift _ L (y - 1) k IL L1 N1) as R.
    replace (t - 7 * k * 86400 + off + 7 * k * 86400) with (t + off) in R by lia.
    pose proof (correct_yday _ _ R ltac:(cbn; lia)) as Q. cbn [tm_year tm_yday with_year] in Q |- *. rewrite Q. done.
  - pose proof (same_year_months _ _ _ _ _ DL DG ltac:(lia)). pose proof (same_year_months _ _ _ _ _ DG DL ltac:(lia)).
    do 2 zif. exists y. rewrite <- C in L0, N. pose proof (is_tm_shift _ L y k IL L0 N) as R.
    replace (t - 7 * k * 86400 + off + 7 * k * 86400) with (t + off) in R by lia.
    pose proof (correct_yday _ _ R ltac:(cbn; lia)) as Q. cbn [tm_year tm_yday with_year] in Q |- *. rewrite Q. done.
  - assert (tm_mon gm = 11) as M11 by (apply (last_day _ _ _ DG); lia).
    assert (tm_mon L = 0) as M0 by (apply (first_day _ _ _ DL); lia).
    rewrite M0, M11. change (0 - 11 =? 11) with false. change (0 - 11 =? -11) with true. cbv iota zeta.
    exists (y + 1). rewrite <- C in N2. pose proof (is_tm_shift_january _ L (y + 1) k IL M0 N2) as R.
    replace (t - 7 * k * 86400 + off + 7 * k * 86400) with (t + off) in R by lia.
    pose proof (correct_yday _ _ R ltac:(cbn; lia)) as Q. cbn [tm_year tm_yday with_year] in Q |- *. rewrite Q. done.
Qed.

(** A time in a safe year fits in a time_t, with a day to spare. *)
Lemma safe_time_range t tm : is_tm t tm -> 71 <= tm_year tm <= 137 -> 31536000 <= t < 2145916800.
Proof.
  intros (D & (C1 & C2 & C3) & <- & _) H. unfold tm_time.
  pose proof (date_number_bounds _ _ _ D) as B.
  pose proof (day_number_mono 70 (tm_year tm) ltac:(lia)) as B1.
  pose proof (day_number_mono (tm_year tm) 138 ltac:(lia)) as B2.
  change (day_number (70 + 1)) with 365 in B1. change (day_number 138) with 24837 in B2. lia.
Qed.

(** A time localtime64_r does not pass on is in a year it has to map. *)
Lemma unsafe_year t tm :
  is_tm t tm -> t < -2147483647 \/ 2147483647 < t ->
  (2037 - 1900 <? tm_year tm) || (tm_year tm <? 1970 - 1900) = true.
Proof.
  intros (D & (C1 & C2 & C3) & <- & _) H. pose proof (date_number_bounds _ _ _ D) as B. unfold tm_time in H.
  apply orb_true_iff. rewrite !Z.ltb_lt. destruct H as [H|H].
  - right. destruct (Z.lt_ge_cases (tm_year tm) (1970 - 1900)) as [|C]; [done|].
    pose proof (day_number_mono 69 (tm_year tm) ltac:(lia)). change (day_number (69 + 1)) with 0 in *. lia.
  - left. destruct (Z.lt_ge_cases (2037 - 1900) (tm_year tm)) as [|C]; [done|].
    pose proof (day_number_mono (tm_year tm) 138 ltac:(lia)). change (day_number 138) with 24837 in *. lia.
Qed.

(** in a time zone with a fixed offset of at most a day, localtime64_r
    gives the date of time + offset in all its fields for every time whose year
    fits in a struct tm, although it asks the 32-bit localtime_r only about safe
    years: the mapped year, the day of the week, the day of the year and the new
    year corrections come out right. *)
Theorem localtime64_fixed_zone (localtime_r : Z -> TM * bool) (off t : Z) (Hz : fixed_localtime localtime_r off)
  (Ht : day_number (INT_MIN + 1) * 86400 <= t < day_number (INT_MAX - 1900) * 86400) :
  exists tm, localtime64_r localtime_r t = Some (GotTM tm) /\ is_tm (t + off) tm /\
    tm_isdst tm = 0 /\ tm_gmtoff tm = off.
Proof.
  destruct Hz as (Hoff & Hz). unfold localtime64_r, SYSTEM_LOCALTIME_MAX, SYSTEM_LOCALTIME_MIN.
  assert (forall tm, is_tm (t + off) tm -> INT_MIN <= tm_year tm <= INT_MAX - 1900) as Hyr.
  { intros tm I. assert (INT_MIN <= tm_year tm < INT_MAX - 1900 + 1); [|lia].
    apply (is_tm_year _ _ _ _ I). rewrite !day_number_next in *.
    pose proof (length_of_year_bounds (IS_LEAP INT_MIN)). pose proof (length_of_year_bounds (IS_LEAP (INT_MAX - 1900))). lia. }
  destruct ((t <=? 2147483647) && (-2147483647 <=? t)) eqn:S; zbool.
  { destruct (Hz t ltac:(lia)) as (_ & I & E1 & E2). exists (localtime_r t).1. unfold assert_check_tm.
    rewrite (is_tm_check _ _ I (Hyr _ I)) by lia. done. }
  assert (t < -2147483647 \/ 2147483647 < t) as Hs.
  { apply andb_false_iff in S as [S|S]; zbool; lia. }
  destruct (gmtime64_in_range t) as (gm & -> & I & _).
  { assert (day_number INT_MIN <= day_number (INT_MIN + 1) /\ day_number (INT_MAX - 1900) <= day_number (INT_MAX - 1899))
      by (vm_compute; split; discriminate). lia. }
  cbn [mbind option_bind]. set (y := tm_year gm).
  pose proof (is_tm_year _ _ _ _ I Ht) as Hy. fold y in Hy.
  pose proof (unsafe_year t gm I Hs) as U. fold y in U. rewrite U. clear U.
  unfold int_year. rewrite (s32_small (y + 1900)) by (unfold INT_MIN, INT_MAX in *; lia).
  destruct (safe_year_shift y) as (k & N & L0 & L1 & N1 & N2).
  destruct (safe_year_calendar (y + 1900)) as (R & _).
  set (s := safe_year (y + 1900) - 1900) in *.
  assert (is_tm (t - 7 * k * 86400) (with_year gm s)) as IG.
  { replace (t - 7 * k * 86400) with (t + 7 * (- k) * 86400) by lia.
    apply is_tm_shift; [done| |]; fold y; [by rewrite L0|lia]. }
  rewrite timegm64_value. pose proof IG as (DG & CG & TG & _). rewrite TG.
  pose proof (safe_time_range _ _ IG ltac:(cbn; subst s; lia)) as Bst.
  rewrite s32_small by lia. destruct (Hz (t - 7 * k * 86400) ltac:(lia)) as (Eok & IL & E1 & E2).
  destruct (localtime_r (t - 7 * k * 86400)) as (L & ok). cbn [fst snd] in *. subst ok. cbn [negb].
  destruct (correct_local_spec off t gm s k L IG IL Hoff N L0 L1 N1 N2 ltac:(unfold INT_MIN, INT_MAX in *; lia)) as (I' & F1 & F2).
  fold y in I', F1, F2. eexists. unfold assert_check_tm. change (tm_mon (with_year gm s)) with (tm_mon gm).
  rewrite (is_tm_check _ _ I' (Hyr _ I')) by lia. split; [done|]. rewrite F1, F2. done.
Qed.

(** between_loop adds up the years it walks over. *)
Lemma between_loop_up n left right seconds :
  left = right + Z.of_nat n ->
  between_loop (S n) left right 1 seconds
  = Some (seconds + 86400 * (day_number (left - 1900) - day_number (right - 1900))).
Proof.
  revert right seconds. induction n as [|n IH]; intros right seconds H; cbn [between_loop].
  - zif. do 2 f_equal. replace left with right by lia. lia.
  - zif. cbn [between_loop] in IH. rewrite IH by lia. f_equal.
    replace (right + 1 - 1900) with (right - 1900 + 1) by lia. rewrite day_number_next. lia.
Qed.

Lemma between_loop_down n left right seconds :
  left = right - Z.of_nat n ->
  between_loop (S n) left right (-1) seconds
  = Some (seconds + 86400 * (day_number (right - 1900 + 1) - day_number (left - 1900 + 1))).
Proof.
  revert right seconds. induction n as [|n IH]; intros right seconds H; cbn [between_loop].
  - zif. do 2 f_equal. replace left with right by lia. lia.
  - zif. cbn [between_loop] in IH. rewrite IH by lia. f_equal.
    replace (right + -1 - 1900 + 1) with (right - 1900) by lia. rewrite (day_number_next (right - 1900)). lia.
Qed.

(** The seconds between two years of the same leap status; the loop ends because
    the cycles the code skips do not carry [left] past [right]. *)
Lemma seconds_between_spec left right :
  1600 <= right < 2400 -> IS_LEAP (left - 1900) = IS_LEAP (right - 1900) ->
  seconds_between_years left right
  = Some (86400 * (day_number (left - 1900) - day_number (right - 1900))).
Proof.
  intros Hr L. unfold seconds_between_years. change seconds_in_gregorian_cycle with (146097 * 86400).
  assert (forall left' c,
    day_number (left - 1900) - day_number (left' - 1900) = 146097 * c ->
    day_number (left - 1900 + 1) - day_number (left' - 1900 + 1) = 146097 * c ->
    ((right <? left) = true -> right < left') -> ((right <? left) = false -> left' <= right) ->
    (seconds ← between_loop (S (Z.to_nat (Z.abs (left' - right)))) left' right
       (if right <? left then 1 else -1)
       ((if right <? left then c else - c) * (146097 * 86400));
     Some (seconds * (if right <? left then 1 else -1)))
    = Some (86400 * (day_number (left - 1900) - day_number (right - 1900)))) as K.
  { intros left' c E1 E2 Hup Hdn. destruct (right <? left).
    - rewrite between_loop_up by lia. cbn [mbind option_bind]. f_equal. lia.
    - rewrite between_loop_down by lia. cbn [mbind option_bind]. f_equal.
      rewrite (day_number_next (left - 1900)) in E2. rewrite (day_number_next (right - 1900)), <- L. lia. }
  bcase; [|bcase].
  - set (q := Z.quot (left - 2400) 400).
    assert (2400 <= left - q * 400) by (subst q; rewrite Z.quot_div_nonneg by lia; zdm).
    specialize (K (left - q * 400) q). replace (right <? left) with true in * by (symmetry; apply Z.ltb_lt; lia).
    apply K; [| |intros _; lia|done].
    + replace (left - 1900) with (left - q * 400 - 1900 + 400 * q) by lia. rewrite day_number_cycle. lia.
    + replace (left - 1900 + 1) with (left - q * 400 - 1900 + 1 + 400 * q) by lia. rewrite day_number_cycle. lia.
  - set (q := Z.quot (left - 1600) 400).
    assert (q <= 0) by (subst q; destruct (quot_rem_sign (left - 1600) 400) as [|]; lia).
    specialize (K (left + q * 400) (- q)). replace (right <? left) with false in * by (symmetry; apply Z.ltb_ge; lia).
    rewrite Z.opp_involutive in K. apply K; [| |done|intros _; lia].
    + replace (left + q * 400 - 1900) with (left - 1900 + 400 * q) by lia. rewrite day_number_cycle. lia.
    + replace (left + q * 400 - 1900 + 1) with (left - 1900 + 1 + 400 * q) by lia. rewrite day_number_cycle. lia.
  - specialize (K left 0). destruct (Z.ltb_spec right left); apply K; lia.
Qed.

(** in a time zone with a fixed offset, mktime64 gives the time of a local
    date for every year that fits in a struct tm, although it asks the 32-bit
    mktime only about safe years: the seconds between the year and its safe year
    are added exactly, and the loop that counts them ends. *)
Theorem mktime64_fixed_zone (mktime : TM -> Z * TM) (off : Z) (date : TM) (Hz : fixed_mktime mktime off)
  (Hd : valid_date (tm_year date) (tm_mon date) (tm_mday date)) (Hc : valid_clock date)
  (Hy : INT_MIN <= tm_year date <= INT_MAX - 1900) :
  mktime64 mktime date = Some (tm_time date - off).
Proof.
  unfold mktime64, int_year, MIN_SAFE_YEAR, MAX_SAFE_YEAR. set (y := tm_year date).
  rewrite (s32_small (y + 1900)) by (unfold INT_MIN, INT_MAX in *; lia).
  destruct ((1971 <=? y + 1900) && (y + 1900 <=? 2037)) eqn:S; zbool.
  { destruct (Hz date Hd Hc ltac:(lia)) as (-> & _). done. }
  destruct (safe_year_shift y) as (k & N & L0 & _). destruct (safe_year_calendar (y + 1900)) as (R & _).
  set (s := safe_year (y + 1900) - 1900) in *.
  destruct (Hz (with_year date s)) as (E1 & E2).
  { unfold valid_date in *. cbn. rewrite L0. done. } { done. } { cbn. lia. }
  destruct (mktime (with_year date s)) as (time & safe_date). cbn in E1, E2. rewrite E2.
  rewrite (s32_small (s + 1900)) by lia.
  rewrite seconds_between_spec; [|lia|replace (y + 1900 - 1900) with y by lia; replace (s + 1900 - 1900) with s by lia; done].
  cbn [mbind option_bind]. f_equal. rewrite E1. unfold tm_time, date_number. cbn. fold y.
  replace (y + 1900 - 1900) with y by lia. replace (s + 1900 - 1900) with s by lia. rewrite L0. lia.
Qed.

(** A zone [off] seconds east of Greenwich. *)
Definition zone_localtime (off t : Z) : TM * bool :=
  match gmtime64_r (t + off) with
  | Some (GotTM tm) =>
      (mkTM (tm_sec tm) (tm_min tm) (tm_hour tm) (tm_mday tm) (tm_mon tm) (tm_year tm) (tm_wday tm)
         (tm_yday tm) 0 off, true)
  | _ => (mkTM 0 0 0 0 0 0 0 0 0 0, false)
  end.

Definition zone_mktime (off : Z) (date : TM) : Z * TM := (tm_time date - off, date).

Lemma zone_localtime_fixed off : -86400 <= off <= 86400 -> fixed_localtime (zone_localtime off) off.
Proof.
  intros H. split; [done|]. intros t Ht. unfold zone_localtime.
  destruct (gmtime64_in_range (t + off)) as (tm & -> & I & _).
  { change (day_number INT_MIN) with (-784352321872). change (day_number (INT_MAX - 1899)) with 784351576777. lia. }
  cbn. destruct I as (D & C & T & W & Yd). done.
Qed.

Lemma localtime64_fixed_zone_witness :
  exists tm, localtime64_r (zone_localtime 3600) (2 ^ 40) = Some (GotTM tm) /\ is_tm (2 ^ 40 + 3600) tm /\
    tm_isdst tm = 0 /\ tm_gmtoff tm = 3600.
Proof.
  apply (localtime64_fixed_zone (zone_localtime 3600) 3600 (2 ^ 40)).
  - apply zone_localtime_fixed. lia.
  - vm_compute. split; [discriminate|reflexivity].
Defined.

Lemma mktime64_fixed_zone_witness :
  mktime64 (zone_mktime 3600) (mkTM 0 0 0 1 0 (-900) 0 0 0 0) = Some (-30610224000 - 3600).
Proof.
  apply (mktime64_fixed_zone (zone_mktime 3600) 3600 (mkTM 0 0 0 1 0 (-900) 0 0 0 0)).
  - intros date _ _ _. done.
  - cbv. repeat split; discriminate.
  - cbv. repeat split; discriminate.
  - cbv. split; discriminate.
Defined.
