(* ===== verification/Tz.v ===== *)
(** * Local time from zone data (libc/tzcode/localtime.c, localtime)

    A zone has a list of transitions, the types of local time between them and a table of
    leap seconds.  timesub breaks a time down by walking from the Epoch to its year; localsub
    finds the type in force by bisection.  The specification is the calendar of [Time64]. *)

From Stdlib Require Import ZArith Lia.
From stdpp Require Import base list numbers.
From S2P Require Import Prelude Time64.

Open Scope Z_scope.

Definition SECSPERMIN : Z := 60.
Definition MINSPERHOUR : Z := 60.
Definition HOURSPERDAY : Z := 24.
Definition DAYSPERWEEK : Z := 7.
Definition DAYSPERNYEAR : Z := 365.
Definition DAYSPERLYEAR : Z := 366.
Definition SECSPERHOUR : Z := SECSPERMIN * MINSPERHOUR.
Definition SECSPERDAY : Z := SECSPERHOUR * HOURSPERDAY.
Definition MONSPERYEAR : Z := 12.
Definition TM_YEAR_BASE : Z := 1900.
Definition EPOCH_YEAR : Z := 1970.
Definition EPOCH_WDAY : Z := 4.
Definition YEARSPERREPEAT : Z := 400.
Definition AVGSECSPERYEAR : Z := 31556952.

Definition isleap (y : Z) : bool :=
  (Z.rem y 4 =? 0) && (negb (Z.rem y 100 =? 0) || (Z.rem y 400 =? 0)).

Record ttinfo := mkTT { tt_gmtoff : Z; tt_isdst : Z; tt_abbrind : Z; tt_ttisstd : bool; tt_ttisgmt : bool }.
Record lsinfo := mkLS { ls_trans : Z; ls_corr : Z }.

(** The counts of the arrays are the lengths of the lists.  (With an empty name tzset leaves
    typecnt 0 and one type in place: that state has the type in its list.) *)
Record state := mkState {
  lsis : list lsinfo; ats : list Z; types : list Z; ttis : list ttinfo; chars : list Z;
  goback : bool; goahead : bool }.

Definition mon_lengths (leap : bool) : list Z :=
  if leap then [31; 29; 31; 30; 31; 30; 31; 31; 30; 31; 30; 31]
  else [31; 28; 31; 30; 31; 30; 31; 31; 30; 31; 30; 31].
Definition year_lengths (leap : bool) : Z := if leap then DAYSPERLYEAR else DAYSPERNYEAR.

(** Steps that may return NULL, WRONG or -1. *)
Definition or_wrong {A B} (m : cres (option A)) (k : A -> cres (option B)) : cres (option B) :=
  r ← m; match r with Some a => k a | None => CVal None end.

(** ** timesub *)

(** The new number, and whether it overflowed. *)
Definition increment_overflow (number delta : Z) : Z * bool :=
  let n := s32 (number + delta) in (n, xorb (n <? number) (delta <? 0)).

Definition leaps_thru_end_of (y : Z) : Z :=
  let pos y := Z.quot y 4 - Z.quot y 100 + Z.quot y 400 in
  if 0 <=? y then pos y else - (pos (- (y + 1)) + 1).

(** Leap seconds in a row: while (i > 0 && ...) ++hit, --i. *)
Fixpoint leap_hits (i : nat) (ls : list lsinfo) (hit : Z) : cres Z :=
  match i with
  | O => CVal hit
  | S j =>
      a ← aget ls (Z.of_nat i); b ← aget ls (Z.of_nat j);
      if (ls_trans a =? ls_trans b + 1) && (ls_corr a =? ls_corr b + 1) then leap_hits j ls (hit + 1) else CVal hit
  end.

(** while (--i >= 0): the correction, and the leap seconds that are shown as :60. *)
Fixpoint leap_scan (i : nat) (ls : list lsinfo) (t : Z) : cres (Z * Z) :=
  match i with
  | O => CVal (0, 0)
  | S j =>
      lp ← aget ls (Z.of_nat j);
      if ls_trans lp <=? t then
        hit ← (if t =? ls_trans lp then
                 h ← (if (Z.of_nat j =? 0) && (0 <? ls_corr lp) then CVal true
                      else prev ← aget ls (Z.of_nat j - 1); CVal (ls_corr prev <? ls_corr lp));
                 if h : bool then leap_hits j ls 1 else CVal 0
               else CVal 0);
        CVal (ls_corr lp, hit)
      else leap_scan j ls t
  end.

(** The walk to the year of a day: the year and the day in it, or None on overflow. *)
Fixpoint year_loop (fuel : nat) (y tdays : Z) : cres (option (Z * Z)) :=
  match fuel with
  | O => CFuel
  | S f =>
      if (tdays <? 0) || (year_lengths (isleap y) <=? tdays) then
        let tdelta := Z.quot tdays DAYSPERLYEAR in
        let idelta := if tdelta =? 0 then if tdays <? 0 then -1 else 1 else tdelta in
        let '(newy, overflow) := increment_overflow y idelta in
        if overflow : bool then CVal None
        else
          let leapdays := leaps_thru_end_of (newy - 1) - leaps_thru_end_of (y - 1) in
          year_loop f newy (tdays - (newy - y) * DAYSPERNYEAR - leapdays)
      else CVal (Some (y, tdays))
  end.

(** The loops that carry from seconds to days, and from days to years. *)
Fixpoint rem_up (fuel : nat) (rem idays : Z) : cres (Z * Z) :=
  match fuel with O => CFuel | S f => if rem <? 0 then rem_up f (rem + SECSPERDAY) (idays - 1) else CVal (rem, idays) end.
Fixpoint rem_down (fuel : nat) (rem idays : Z) : cres (Z * Z) :=
  match fuel with O => CFuel | S f => if SECSPERDAY <=? rem then rem_down f (rem - SECSPERDAY) (idays + 1) else CVal (rem, idays) end.
Fixpoint year_down (fuel : nat) (y idays : Z) : cres (option (Z * Z)) :=
  match fuel with
  | O => CFuel
  | S f =>
      if idays <? 0 then
        let '(y, overflow) := increment_overflow y (-1) in
        if overflow : bool then CVal None else year_down f y (idays + year_lengths (isleap y))
      else CVal (Some (y, idays))
  end.
Fixpoint year_up (fuel : nat) (y idays : Z) : cres (option (Z * Z)) :=
  match fuel with
  | O => CFuel
  | S f =>
      if year_lengths (isleap y) <=? idays then
        let '(y', overflow) := increment_overflow y 1 in
        if overflow : bool then CVal None else year_up f y' (idays - year_lengths (isleap y))
      else CVal (Some (y, idays))
  end.

(** The month, and the day in it. *)
Fixpoint mon_loop (ip : list Z) (mon idays : Z) : cres (Z * Z) :=
  match ip with
  | [] => CUndef
  | n :: ip => if n <=? idays then mon_loop ip (mon + 1) (idays - n) else CVal (mon, idays)
  end.

(** tm_gmtoff is what it was in *tmp: TM_GMTOFF is not defined. *)
Definition timesub (t offset : Z) (sp : state) (tmp : TM) : cres (option TM) :=
  ch ← leap_scan (length (lsis sp)) (lsis sp) t;
  let '(corr, hit) := ch in
  let tdays := Z.quot t SECSPERDAY in
  let rem := t - tdays * SECSPERDAY in
  r ← year_loop (2 + Z.to_nat (Z.abs tdays)) EPOCH_YEAR tdays;
  match r with
  | None => CVal None
  | Some (y, tdays) =>
      let seconds := tdays * SECSPERDAY in
      let tdays := Z.quot seconds SECSPERDAY in
      let rem := s32 (s32 (rem + (seconds - tdays * SECSPERDAY)) + s32 (offset - corr)) in
      let fuel := (2 + Z.to_nat (Z.abs rem / SECSPERDAY))%nat in
      r ← rem_up fuel rem tdays;
      r ← rem_down fuel r.1 r.2;
      let '(rem, idays) := r in
      let fuel := (1 + Z.to_nat (Z.abs idays))%nat in
      r ← year_down fuel y idays;
      match r with
      | None => CVal None
      | Some (y, idays) =>
          r ← year_up fuel y idays;
          match r with
          | None => CVal None
          | Some (y, idays) =>
              let '(tm_year, overflow) := increment_overflow y (- TM_YEAR_BASE) in
              if overflow : bool then CVal None
              else
                let wday := Z.rem (EPOCH_WDAY + Z.rem (y - EPOCH_YEAR) DAYSPERWEEK * Z.rem DAYSPERNYEAR DAYSPERWEEK +
                                   leaps_thru_end_of (y - 1) - leaps_thru_end_of (EPOCH_YEAR - 1) + idays) DAYSPERWEEK in
                let wday := if wday <? 0 then wday + DAYSPERWEEK else wday in
                let hour := Z.quot rem SECSPERHOUR in
                let rem := Z.rem rem SECSPERHOUR in
                m ← mon_loop (mon_lengths (isleap y)) 0 idays;
                let '(mon, mdays) := m in
                CVal (Some (mkTM (Z.rem rem SECSPERMIN + hit) (Z.quot rem SECSPERMIN) hour (mdays + 1) mon tm_year wday idays 0 (tm_gmtoff tmp)))
          end
      end
  end.

(** gmtsub; [sp] is gmtptr, which gmtload has set. *)
Definition gmtsub (sp : state) (t offset : Z) (tmp : TM) : cres (option TM) := timesub t offset sp tmp.

(** ** localsub *)

(** The bisection for the last transition that is not after t. *)
Fixpoint bisect (fuel : nat) (ats : list Z) (t lo hi : Z) : cres Z :=
  match fuel with
  | O => CFuel
  | S f =>
      if lo <? hi then
        let mid := Z.shiftr (lo + hi) 1 in
        a ← aget ats mid;
        if t <? a then bisect f ats t lo mid else bisect f ats t (mid + 1) hi
      else CVal lo
  end.

(** The first type that is not summer time, or the first. *)
Fixpoint first_std (l : list ttinfo) (i : Z) : Z :=
  match l with
  | [] => 0
  | x :: l => if tt_isdst x =? 0 then i else first_std l (i + 1)
  end.

(** Before the first transition: ttis[0] is read whatever typecnt is. *)
Definition type_before (sp : state) : cres Z :=
  match ttis sp with [] => CUndef | _ => CVal (first_std (ttis sp) 0) end.

Definition type_at (sp : state) (t : Z) : cres Z :=
  match ats sp with
  | [] => type_before sp
  | a :: _ =>
      if t <? a then type_before sp
      else
        lo ← bisect (S (length (ats sp))) (ats sp) t 1 (Z.of_nat (length (ats sp)));
        aget (types sp) (lo - 1)
  end.

(** localsub inside the table: the broken-down time, and the index of its abbreviation. *)
Definition local_in (sp : state) (t : Z) (tmp : TM) : cres (option (TM * Z)) :=
  i ← type_at sp t;
  ttisp ← aget (ttis sp) i;
  r ← timesub t (tt_gmtoff ttisp) sp tmp;
  CVal (match r with
        | Some tm => Some (mkTM (tm_sec tm) (tm_min tm) (tm_hour tm) (tm_mday tm) (tm_mon tm) (tm_year tm) (tm_wday tm) (tm_yday tm)
                             (tt_isdst ttisp) (tm_gmtoff tm), tt_abbrind ttisp)
        | None => None
        end).

(** The last transition. *)
Definition last_at (sp : state) : cres Z := aget (ats sp) (Z.of_nat (length (ats sp)) - 1).

(** Beyond a table that repeats after 400 years the time is moved by whole repeats; a time_t
    wraps around. *)
Definition local_repeat (sp : state) (t : Z) (tmp : TM) (first last : Z) : cres (option (TM * Z)) :=
  let seconds := s32 (s32 (if t <? first then first - t else t - last) - 1) in
  let cycles := Z.quot (Z.quot seconds YEARSPERREPEAT) AVGSECSPERYEAR + 1 in
  let seconds := s32 (s32 (cycles * YEARSPERREPEAT) * AVGSECSPERYEAR) in
  let newt := if t <? first then s32 (t + seconds) else s32 (t - seconds) in
  if (newt <? first) || (last <? newt) then CVal None
  else
    r ← local_in sp newt tmp;
    match r with
    | None => CVal None
    | Some (tm, ab) =>
        let newy := if t <? first then tm_year tm - cycles * YEARSPERREPEAT else tm_year tm + cycles * YEARSPERREPEAT in
        CVal (if s32 newy =? newy then Some (with_year tm newy, ab) else None)
    end.

Definition localsub (sp : state) (t : Z) (tmp : TM) : cres (option (TM * Z)) :=
  if goback sp || goahead sp then
    match ats sp with
    | [] => CUndef
    | first :: _ =>
        last ← last_at sp;
        if (goback sp && (t <? first)) || (goahead sp && (last <? t)) then local_repeat sp t tmp first last
        else local_in sp t tmp
    end
  else local_in sp t tmp.

(** A result that is WRONG, or as it should be; [safe] says that it is not WRONG. *)
Definition sound {A} (r : cres (option A)) (safe : Prop) (P : A -> Prop) : Prop :=
  exists o, r = CVal o /\ (safe -> is_Some o) /\ (forall a, o = Some a -> P a).

Lemma sound_some {A} (a : A) (safe : Prop) (P : A -> Prop) : P a -> sound (CVal (Some a)) safe P.
Proof. intros Ha. exists (Some a). split; [done|]. split; [by eexists|]. by intros ? [= <-]. Qed.

Lemma sound_none {A} (safe : Prop) (P : A -> Prop) : ~ safe -> sound (CVal None) safe P.
Proof. intros Hs. exists None. by split_and!. Qed.

Lemma sound_weaken {A} r (safe safe' : Prop) (P Q : A -> Prop) : sound r safe P -> (safe' -> safe) -> (forall a, P a -> Q a) -> sound r safe' Q.
Proof. intros (o & -> & H1 & H2) Hs Hp. exists o. split; [done|]. split; [by auto|]. by auto. Qed.

Lemma sound_bind {A B} (r : cres (option A)) (k : A -> cres (option B)) safe (P : A -> Prop) (Q : B -> Prop) :
  sound r safe P -> (forall a, P a -> sound (k a) safe Q) -> sound (or_wrong r k) safe Q.
Proof.
  intros (o & -> & Hs & HP) Hk. unfold or_wrong. cbn [mbind cres_bind]. destruct o as [a|]; [by apply Hk, HP|].
  exists None. split; [done|]. split; [|done]. intros H. by destruct (Hs H).
Qed.

(** ** The calendar of the code *)

(** The days from the Epoch to the first day of a year. *)
Definition year_day (y : Z) : Z := day_number (y - TM_YEAR_BASE).

Lemma isleap_spec y : isleap y = IS_LEAP (y - TM_YEAR_BASE).
Proof.
  unfold isleap, IS_LEAP, TM_YEAR_BASE. replace (y - 1900 + 1900) with y by lia.
  rewrite !rem_mod_eqb by lia. repeat bcase; try done; exfalso; zdm.
Qed.

Lemma year_lengths_spec b : year_lengths b = length_of_year b.
Proof. by destruct b. Qed.

Lemma year_day_next y : year_day (y + 1) = year_day y + year_lengths (isleap y).
Proof.
  unfold year_day. rewrite year_lengths_spec, isleap_spec. replace (y + 1 - TM_YEAR_BASE) with (y - TM_YEAR_BASE + 1) by lia.
  apply day_number_next.
Qed.

Lemma year_lengths_bounds b : 365 <= year_lengths b <= 366.
Proof. destruct b; cbv; split; discriminate. Qed.

(** A leap year in four, but not in a hundred: whole years have 365 or 366 days. *)
Lemma year_day_plus y k : 0 <= k -> 365 * k <= year_day (y + k) - year_day y <= 366 * k.
Proof.
  revert k. apply natlike_ind; [rewrite Z.add_0_r; lia|]. intros k Hk IH.
  replace (y + Z.succ k) with (y + k + 1) by lia. rewrite year_day_next. pose proof (year_lengths_bounds (isleap (y + k))). lia.
Qed.

Lemma leaps_thru_end_of_spec y : leaps_thru_end_of y = y / 4 - y / 100 + y / 400.
Proof.
  unfold leaps_thru_end_of. destruct (Z.leb_spec 0 y); rewrite !Z.quot_div_nonneg by lia; [done|]. zdm.
Qed.

Lemma leaps_year_day y y' : (y' - y) * 365 + (leaps_thru_end_of (y' - 1) - leaps_thru_end_of (y - 1)) = year_day y' - year_day y.
Proof.
  rewrite !leaps_thru_end_of_spec. unfold year_day, day_number, leap_days_before, TM_YEAR_BASE.
  replace (1899 + (y' - 1900)) with (y' - 1) by lia. replace (1899 + (y - 1900)) with (y - 1) by lia. lia.
Qed.

Lemma increment_ok n d : INT_MIN <= n + d <= INT_MAX -> increment_overflow n d = (n + d, false).
Proof.
  intros H. unfold increment_overflow, INT_MIN, INT_MAX in *. rewrite s32_small by lia. f_equal.
  destruct (Z.ltb_spec (n + d) n), (Z.ltb_spec d 0); done || lia.
Qed.

Lemma increment_fails n d : - 2 ^ 31 <= n < 2 ^ 31 -> - 2 ^ 31 <= d < 2 ^ 31 -> ~ (INT_MIN <= n + d <= INT_MAX) ->
  (increment_overflow n d).2 = true.
Proof.
  intros Hn Hd H. unfold increment_overflow, INT_MIN, INT_MAX, s32 in *. cbn [snd].
  destruct (Z.ltb_spec ((n + d + 2 ^ 31) mod 2 ^ 32 - 2 ^ 31) n), (Z.ltb_spec d 0); try done; exfalso; zdm.
Qed.

(** ** The loops of timesub *)

(** Years are far from the ends of an int. *)
Definition near (y d : Z) : Prop := - 2 ^ 30 <= y - d /\ y + d <= 2 ^ 30.

Lemma year_loop_up fuel y d : 0 <= d -> near y d -> (Z.to_nat d < fuel)%nat ->
  exists y' d', year_loop fuel y d = CVal (Some (y', d')) /\ year_day y' + d' = year_day y + d /\ 0 <= d' < year_lengths (isleap y') /\ y <= y' <= y + d.
Proof.
  revert y d. induction fuel as [|fuel IH]; intros y d Hd [Hy1 Hy2] Hf; [lia|]. cbn [year_loop]. rewrite (proj2 (Z.ltb_ge d 0)) by lia. cbn [orb].
  destruct (Z.leb_spec (year_lengths (isleap y)) d) as [Hlen|Hlen]; [|exists y, d; split_and!; done || lia].
  pose proof (year_lengths_bounds (isleap y)) as Hyl. unfold DAYSPERLYEAR, DAYSPERNYEAR.
  set (k := if Z.quot d 366 =? 0 then 1 else Z.quot d 366).
  assert (1 <= k /\ (k = 1 \/ 366 * k <= d) /\ k <= d) as (Hk1 & Hk2 & Hk3).
  { subst k. rewrite Z.quot_div_nonneg by lia. destruct (Z.eqb_spec (d / 366) 0); zdm. }
  rewrite increment_ok by (unfold INT_MIN, INT_MAX; lia). pose proof (leaps_year_day y (y + k)) as E.
  replace (d - (y + k - y) * 365 - (leaps_thru_end_of (y + k - 1) - leaps_thru_end_of (y - 1))) with (d - (year_day (y + k) - year_day y)) by lia.
  pose proof (year_day_plus y k ltac:(lia)) as Hp.
  assert (year_day (y + k) - year_day y <= d) as Hle by (destruct Hk2 as [-> |]; [rewrite year_day_next|]; lia).
  destruct (IH (y + k) (d - (year_day (y + k) - year_day y))) as (y' & d' & E' & Hs & Hr & Hyy); [lia|split; lia|lia|].
  exists y', d'. rewrite E'. split_and!; done || lia.
Qed.

Lemma year_loop_down fuel y d : d < 0 -> near y (- d) -> (S (Z.to_nat (- d)) < fuel)%nat ->
  exists y' d', year_loop fuel y d = CVal (Some (y', d')) /\ year_day y' + d' = year_day y + d /\ 0 <= d' < year_lengths (isleap y') /\ y + d <= y' <= y.
Proof.
  revert y d. induction fuel as [|fuel IH]; intros y d Hd [Hy1 Hy2] Hf; [lia|]. cbn [year_loop]. rewrite (proj2 (Z.ltb_lt d 0)) by lia. cbn [orb].
  unfold DAYSPERLYEAR, DAYSPERNYEAR.
  set (k := if Z.quot d 366 =? 0 then -1 else Z.quot d 366).
  assert (k <= -1 /\ (k = -1 \/ d <= 366 * k) /\ d <= k) as (Hk1 & Hk2 & Hk3).
  { subst k. rewrite <- (Z.opp_involutive d), Z.quot_opp_l, Z.quot_div_nonneg by lia. destruct (Z.eqb_spec (- (- d / 366)) 0); zdm. }
  rewrite increment_ok by (unfold INT_MIN, INT_MAX; lia). pose proof (leaps_year_day y (y + k)) as E.
  replace (d - (y + k - y) * 365 - (leaps_thru_end_of (y + k - 1) - leaps_thru_end_of (y - 1))) with (d - (year_day (y + k) - year_day y)) by lia.
  pose proof (year_day_plus (y + k) (- k) ltac:(lia)) as Hp. replace (y + k + - k) with y in Hp by lia.
  set (d' := d - (year_day (y + k) - year_day y)). destruct (Z.lt_ge_cases d' 0) as [Hneg|Hpos].
  - destruct (IH (y + k) d') as (y' & d2 & E' & Hs & Hr & Hyy); [done|split; lia|lia|].
    exists y', d2. rewrite E'. split_and!; try done; lia.
  - assert (d' < year_lengths (isleap (y + k))) as Hlt.
    { destruct Hk2 as [-> |Hk2]; [|pose proof (year_lengths_bounds (isleap (y + k))); lia].
      pose proof (year_day_next (y + -1)) as En. replace (y + -1 + 1) with y in En by lia. lia. }
    exists (y + k), d'. destruct fuel as [|fuel]; [lia|]. cbn [year_loop].
    rewrite (proj2 (Z.ltb_ge d' 0)), (proj2 (Z.leb_gt _ d')) by lia. cbn [orb]. split_and!; try done; lia.
Qed.

Lemma year_loop_spec y d : near y (Z.abs d) -> exists y' d', year_loop (2 + Z.to_nat (Z.abs d)) y d = CVal (Some (y', d')) /\
  year_day y' + d' = year_day y + d /\ 0 <= d' < year_lengths (isleap y') /\ y - Z.abs d <= y' <= y + Z.abs d.
Proof.
  intros Hn. destruct (Z.lt_ge_cases d 0) as [Hd|Hd].
  - rewrite Z.abs_neq in * by lia. destruct (year_loop_down (2 + Z.to_nat (- d)) y d) as (y' & d' & E & H1 & H2 & H3); [done|done|lia|].
    exists y', d'. split_and!; done || lia.
  - rewrite Z.abs_eq in * by lia. destruct (year_loop_up (2 + Z.to_nat d) y d) as (y' & d' & E & H1 & H2 & H3); [done|done|lia|].
    exists y', d'. split_and!; done || lia.
Qed.

Lemma rem_up_spec fuel rem d : (Z.to_nat (- rem / 86400)%Z + (if decide (rem < 0)%Z then 1 else 0) < fuel)%nat ->
  exists rem' d', rem_up fuel rem d = CVal (rem', d') /\ rem' + d' * 86400 = rem + d * 86400 /\ 0 <= rem' /\ (0 <= rem -> rem' = rem) /\ (rem < 0 -> rem' < 86400).
Proof.
  revert rem d. induction fuel as [|fuel IH]; intros rem d Hf; [lia|]. cbn [rem_up]. change SECSPERDAY with 86400.
  destruct (Z.ltb_spec rem 0) as [Hr|Hr]; [|exists rem, d; split_and!; done || lia].
  rewrite decide_True in Hf by done.
  destruct (IH (rem + 86400) (d - 1)) as (rem' & d' & -> & H1 & H2 & H3 & H4).
  { replace (- rem) with (- (rem + 86400) + 1 * 86400) in Hf by lia. rewrite Z.div_add in Hf by lia.
    destruct (decide (rem + 86400 < 0)); [assert (0 <= - (rem + 86400) / 86400) by (apply Z.div_pos; lia); lia|].
    assert (- (rem + 86400) / 86400 <= 0) by (apply Z.div_le_upper_bound; lia). lia. }
  exists rem', d'. split_and!; try done; lia.
Qed.

Lemma rem_down_spec fuel rem d : 0 <= rem -> (Z.to_nat (rem / 86400)%Z < fuel)%nat ->
  exists rem' d', rem_down fuel rem d = CVal (rem', d') /\ rem' + d' * 86400 = rem + d * 86400 /\ 0 <= rem' < 86400.
Proof.
  revert rem d. induction fuel as [|fuel IH]; intros rem d Hr Hf; [lia|]. cbn [rem_down]. change SECSPERDAY with 86400.
  destruct (Z.leb_spec 86400 rem) as [Hle|Hlt]; [|exists rem, d; split_and!; done || lia].
  destruct (IH (rem - 86400) (d + 1)) as (rem' & d' & -> & H1 & H2); [lia| |exists rem', d'; split_and!; done || lia].
  replace rem with (rem - 86400 + 1 * 86400) in Hf by lia. rewrite Z.div_add in Hf by lia.
  assert (0 <= (rem - 86400) / 86400) by (apply Z.div_pos; lia). lia.
Qed.

Lemma year_down_spec fuel y d : near y (Z.abs d) -> (Z.to_nat (- d) < fuel)%nat -> exists y' d', year_down fuel y d = CVal (Some (y', d')) /\
  year_day y' + d' = year_day y + d /\ 0 <= d' /\ (0 <= d -> y' = y /\ d' = d) /\ (d < 0 -> d' < year_lengths (isleap y')) /\ y - Z.abs d <= y' <= y.
Proof.
  revert y d. induction fuel as [|fuel IH]; intros y d [Hy1 Hy2] Hf; [lia|]. cbn [year_down].
  destruct (Z.ltb_spec d 0) as [Hd|Hd]; [|exists y, d; split_and!; done || lia].
  rewrite increment_ok by (unfold INT_MIN, INT_MAX; lia). replace (y + -1) with (y - 1) by lia.
  pose proof (year_day_next (y - 1)) as E. replace (y - 1 + 1) with y in E by lia. pose proof (year_lengths_bounds (isleap (y - 1))).
  destruct (Z.lt_ge_cases (d + year_lengths (isleap (y - 1))) 0) as [Hneg|Hpos].
  - destruct (IH (y - 1) (d + year_lengths (isleap (y - 1)))) as (y' & d' & -> & H1 & H2 & H3 & H4 & H5); [split; lia|lia|].
    exists y', d'. split_and!; try done; lia.
  - exists (y - 1), (d + year_lengths (isleap (y - 1))). destruct fuel as [|fuel]; [lia|]. cbn [year_down].
    rewrite (proj2 (Z.ltb_ge _ 0)) by lia. split_and!; try done; lia.
Qed.

Lemma year_up_spec fuel y d : 0 <= d -> near y d -> (Z.to_nat d < fuel)%nat -> exists y' d', year_up fuel y d = CVal (Some (y', d')) /\
  year_day y' + d' = year_day y + d /\ 0 <= d' < year_lengths (isleap y') /\ y <= y' <= y + d.
Proof.
  revert y d. induction fuel as [|fuel IH]; intros y d Hd [Hy1 Hy2] Hf; [lia|]. cbn [year_up].
  destruct (Z.leb_spec (year_lengths (isleap y)) d) as [Hlen|Hlen]; [|exists y, d; split_and!; done || lia].
  rewrite increment_ok by (unfold INT_MIN, INT_MAX; lia). pose proof (year_lengths_bounds (isleap y)). pose proof (year_day_next y).
  destruct (IH (y + 1) (d - year_lengths (isleap y))) as (y' & d' & -> & H1 & H2 & H3); [lia|split; lia|lia|].
  exists y', d'. split_and!; try done; lia.
Qed.

Definition mon_check (leap : bool) (d : Z) : bool :=
  match mon_loop (mon_lengths leap) 0 d with
  | CVal (mon, m) => (0 <=? mon) && (mon <=? 11) && (tab (julian_days_by_month leap) mon + m =? d) && (0 <=? m) && (m <? tab (days_in_month leap) mon)
  | _ => false
  end.

Lemma mon_loop_spec leap d : 0 <= d < year_lengths leap -> exists mon m, mon_loop (mon_lengths leap) 0 d = CVal (mon, m) /\
  0 <= mon <= 11 /\ tab (julian_days_by_month leap) mon + m = d /\ 0 <= m < tab (days_in_month leap) mon.
Proof.
  intros Hd. assert (mon_check leap d = true) as H.
  { destruct leap; [apply (range_check (mon_check true) 0 366)|apply (range_check (mon_check false) 0 365)]; try exact Hd; vm_compute; reflexivity. }
  unfold mon_check in H. destruct (mon_loop _ _ _) as [[mon m]| |]; [|done|done]. exists mon, m. zbool. split_and!; done || lia.
Qed.

(** The day of the week. *)
Lemma wday_spec y d : 0 <= d ->
  (let w := Z.rem (EPOCH_WDAY + Z.rem (y - EPOCH_YEAR) DAYSPERWEEK * Z.rem DAYSPERNYEAR DAYSPERWEEK +
                   leaps_thru_end_of (y - 1) - leaps_thru_end_of (EPOCH_YEAR - 1) + d) DAYSPERWEEK in
   if w <? 0 then w + DAYSPERWEEK else w) = (year_day y + d + 4) mod 7.
Proof.
  intros Hd. pose proof (leaps_year_day EPOCH_YEAR y) as E. change (year_day EPOCH_YEAR) with 0 in E.
  replace (year_day y + d + 4) with ((y - EPOCH_YEAR) * 365 + (leaps_thru_end_of (y - 1) - leaps_thru_end_of (EPOCH_YEAR - 1)) + d + 4) by lia.
  unfold EPOCH_WDAY, DAYSPERWEEK, DAYSPERNYEAR.
  change (Z.rem 365 7) with 1. set (n := y - EPOCH_YEAR). cbv zeta.
  replace (4 + Z.rem n 7 * 1 + leaps_thru_end_of (y - 1) - leaps_thru_end_of (EPOCH_YEAR - 1) + d) with (4 + Z.rem n 7 + (leaps_thru_end_of (y - 1) - leaps_thru_end_of (EPOCH_YEAR - 1)) + d) by lia.
  generalize (leaps_thru_end_of (y - 1) - leaps_thru_end_of (EPOCH_YEAR - 1)). clear - Hd. intros L.
  pose proof (Z.quot_rem' n 7). set (q := Z.quot n 7) in *. set (r := Z.rem n 7) in *.
  assert (exists k, n * 365 + L + d + 4 = 4 + r + L + d + k * 7) as [k ->] by (exists (52 * n + q); lia).
  rewrite Z.mod_add by lia. generalize (4 + r + L + d). intros a. pose proof (Z.quot_rem' a 7).
  destruct (Z.ltb_spec (Z.rem a 7) 0) as [Hn|Hn]; pose proof (Z.rem_bound_abs a 7 ltac:(lia)).
  - apply (Z.mod_unique_pos a 7 (Z.quot a 7 - 1)); lia.
  - apply (Z.mod_unique_pos a 7 (Z.quot a 7)); lia.
Qed.

Definition with_sec (tm : TM) (s : Z) : TM :=
  mkTM s (tm_min tm) (tm_hour tm) (tm_mday tm) (tm_mon tm) (tm_year tm) (tm_wday tm) (tm_yday tm) (tm_isdst tm) (tm_gmtoff tm).

(** The local time that timesub shows: the seconds of the day and the offset are added in a long. *)
Definition shown_time (t offset corr : Z) : Z :=
  Z.quot t SECSPERDAY * SECSPERDAY + s32 (t - Z.quot t SECSPERDAY * SECSPERDAY + s32 (offset - corr)).

Lemma shown_time_small t offset corr : - 2 ^ 31 <= t < 2 ^ 31 -> - 2 ^ 30 <= offset - corr <= 2 ^ 30 -> shown_time t offset corr = t + offset - corr.
Proof.
  intros Ht Ho. unfold shown_time. change SECSPERDAY with 86400. pose proof (Z.quot_rem' t 86400). pose proof (Z.rem_bound_abs t 86400 ltac:(lia)).
  rewrite (s32_small (offset - corr)), s32_small by lia. lia.
Qed.

(** timesub: the date of the time, moved by the offset and the leap seconds, whatever these are. *)
Lemma timesub_total t offset sp tmp corr hit : leap_scan (length (lsis sp)) (lsis sp) t = CVal (corr, hit) ->
  - 2 ^ 31 <= t < 2 ^ 31 -> exists tm,
  timesub t offset sp tmp = CVal (Some tm) /\ is_tm (shown_time t offset corr) (with_sec tm (tm_sec tm - hit)) /\
  tm_isdst tm = 0 /\ tm_gmtoff tm = tm_gmtoff tmp.
Proof.
  intros Hl Ht. unfold shown_time. change SECSPERDAY with 86400. unfold timesub. rewrite Hl. cbn [mbind cres_bind]. change SECSPERDAY with 86400.
  pose proof (Z.quot_rem' t 86400) as Eq. pose proof (Z.rem_bound_abs t 86400 ltac:(lia)) as Hrem.
  set (q := Z.quot t 86400) in *. assert (Z.abs q <= 24856) as Hq by (subst q; zdm || lia).
  destruct (year_loop_spec EPOCH_YEAR q) as (y1 & d1 & -> & Hd1 & Hr1 & Hy1); [unfold near, EPOCH_YEAR; lia|]. cbn [mbind cres_bind].
  rewrite Z.quot_mul, Z.sub_diag, Z.add_0_r by lia. rewrite (s32_small (t - q * 86400)) by lia.
  pose proof (s32_range (t - q * 86400 + s32 (offset - corr))) as Hrr. set (rem := s32 (t - q * 86400 + s32 (offset - corr))) in *.
  pose proof (year_lengths_bounds (isleap y1)) as Hyl1. change EPOCH_YEAR with 1970 in Hy1. change (year_day EPOCH_YEAR) with 0 in Hd1.
  assert (Z.abs rem / 86400 <= 24855) as Hrd by (apply Z.lt_succ_r, Z.div_lt_upper_bound; lia). assert (0 <= Z.abs rem / 86400) by (apply Z.div_pos; lia).
  destruct (rem_up_spec (2 + Z.to_nat (Z.abs rem / 86400)) rem d1) as (rem2 & d2 & -> & E2 & Hpos2 & Hk2 & Hl2).
  { destruct (decide (rem < 0)); [rewrite (Z.abs_neq rem) by lia; lia|]. assert (- rem / 86400 <= 0) by (apply Z.div_le_upper_bound; lia). lia. }
  cbn [mbind cres_bind fst snd]. destruct (rem_down_spec (2 + Z.to_nat (Z.abs rem / 86400)) rem2 d2) as (rem3 & d3 & -> & E3 & Hr3); [done| |].
  { destruct (Z.lt_ge_cases rem 0) as [Hn|Hn]; [rewrite Z.div_small by lia; lia|]. rewrite (Hk2 Hn), (Z.abs_eq rem) by lia. lia. }
  cbn [mbind cres_bind]. assert (Z.abs d3 <= 50000) as Hd3 by lia.
  destruct (year_down_spec (1 + Z.to_nat (Z.abs d3)) y1 d3) as (y4 & d4 & -> & E4 & Hp4 & Hk4 & Hl4 & Hy4); [unfold near; lia|lia|].
  cbn [mbind cres_bind].
  assert (exists y5 d5, year_up (1 + Z.to_nat (Z.abs d3)) y4 d4 = CVal (Some (y5, d5)) /\ year_day y5 + d5 = year_day y4 + d4 /\
    0 <= d5 < year_lengths (isleap y5) /\ y4 <= y5 <= y4 + d4) as (y5 & d5 & -> & E5 & Hr5 & Hy5).
  { destruct (Z.lt_ge_cases d3 0) as [Hn|Hn].
    - specialize (Hl4 Hn). exists y4, d4. cbn [year_up Nat.add]. rewrite (proj2 (Z.leb_gt _ _)) by done. split_and!; done || lia.
    - destruct (Hk4 Hn) as [-> ->]. apply year_up_spec; [done|unfold near; lia|lia]. }
  cbn [mbind cres_bind]. assert (d4 <= 50000) by (destruct (Z.lt_ge_cases d3 0) as [Hn|Hn]; [specialize (Hl4 Hn); pose proof (year_lengths_bounds (isleap y4)); lia|destruct (Hk4 Hn); lia]).
  rewrite increment_ok by (unfold INT_MIN, INT_MAX, TM_YEAR_BASE; lia). pose proof (wday_spec y5 d5 ltac:(lia)) as Hw. cbv zeta in *. rewrite Hw.
  destruct (mon_loop_spec (isleap y5) d5 Hr5) as (mon & m & -> & Hmon & Hm1 & Hm2). cbn [mbind cres_bind].
  eexists. split; [done|]. split; [|done].
  unfold is_tm, valid_date, valid_clock, tm_time, date_number, with_sec. cbn [tm_sec tm_min tm_hour tm_mday tm_mon tm_year tm_wday tm_yday].
  change (y5 + - TM_YEAR_BASE) with (y5 - TM_YEAR_BASE). rewrite <- isleap_spec. fold (year_day y5).
  change SECSPERHOUR with 3600. change SECSPERMIN with 60. rewrite !(Z.quot_div_nonneg rem3), !(Z.rem_mod_nonneg rem3) by lia.
  assert (0 <= rem3 mod 3600 < 3600) by (apply Z.mod_pos_bound; lia). rewrite !Z.quot_div_nonneg, !Z.rem_mod_nonneg by lia.
  pose proof (Z.div_mod rem3 3600 ltac:(lia)). pose proof (Z.div_mod (rem3 mod 3600) 60 ltac:(lia)).
  pose proof (Z.mod_pos_bound (rem3 mod 3600) 60 ltac:(lia)).
  assert (0 <= rem3 / 3600 < 24) by (split; [apply Z.div_pos|apply Z.div_lt_upper_bound]; lia).
  assert (0 <= (rem3 mod 3600) / 60 < 60) by (split; [apply Z.div_pos|apply Z.div_lt_upper_bound]; lia).
  split_and!; try lia. f_equal. lia.
Qed.

Lemma timesub_spec t offset sp tmp corr hit : leap_scan (length (lsis sp)) (lsis sp) t = CVal (corr, hit) ->
  - 2 ^ 31 <= t < 2 ^ 31 -> - 2 ^ 30 <= offset - corr <= 2 ^ 30 -> exists tm,
  timesub t offset sp tmp = CVal (Some tm) /\ is_tm (t + offset - corr) (with_sec tm (tm_sec tm - hit)) /\
  tm_isdst tm = 0 /\ tm_gmtoff tm = tm_gmtoff tmp.
Proof. intros Hl Ht Ho. rewrite <- shown_time_small by done. by apply timesub_total. Qed.

(** ** Leap seconds *)

(** The correction in force: that of the last leap second that is not after t. *)
Fixpoint corr_at (i : nat) (ls : list lsinfo) (t : Z) : Z :=
  match i with
  | O => 0
  | S j => match ls !! j with Some lp => if ls_trans lp <=? t then ls_corr lp else corr_at j ls t | None => 0 end
  end.

(** The first leap second was inserted. *)
Definition first_leap_ok (ls : list lsinfo) : Prop := match ls with [] => True | lp :: _ => 0 < ls_corr lp end.

Lemma leap_hits_spec i ls hit : (i < length ls)%nat -> exists h, leap_hits i ls hit = CVal h /\ hit <= h <= hit + Z.of_nat i.
Proof.
  revert hit. induction i as [|j IH]; intros hit Hi; [exists hit; split; [done|lia]|]. cbn [leap_hits].
  destruct (lookup_lt_is_Some_2 ls (S j)) as [a Ha]; [lia|]. destruct (lookup_lt_is_Some_2 ls j) as [b Hb]; [lia|].
  rewrite (aget_val ls (Z.of_nat (S j)) a) by (rewrite ?Nat2Z.id; done || lia). cbn [mbind cres_bind].
  rewrite (aget_val ls (Z.of_nat j) b) by (rewrite ?Nat2Z.id; done || lia). cbn [mbind cres_bind].
  destruct (_ && _); [|exists hit; split; [done|lia]]. destruct (IH (hit + 1)) as (h & -> & Hh); [lia|]. exists h. split; [done|lia].
Qed.

Lemma leap_scan_spec i ls t : (i <= length ls)%nat -> first_leap_ok ls -> exists hit, leap_scan i ls t = CVal (corr_at i ls t, hit) /\
  0 <= hit <= Z.of_nat (length ls) /\ (0 < hit -> exists lp, lp ∈ ls /\ ls_trans lp = t).
Proof.
  intros Hi Hf. induction i as [|j IH]; [exists 0; split_and!; done || lia|]. cbn [leap_scan corr_at].
  destruct (lookup_lt_is_Some_2 ls j) as [lp Hlp]; [lia|]. rewrite (aget_val ls (Z.of_nat j) lp) by (rewrite ?Nat2Z.id; done || lia).
  rewrite Hlp. cbn [mbind cres_bind]. destruct (ls_trans lp <=? t); [|apply IH; lia].
  destruct (Z.eqb_spec t (ls_trans lp)) as [->|Hne]; [|exists 0; split_and!; done || lia].
  assert (exists h : bool, (if (Z.of_nat j =? 0) && (0 <? ls_corr lp) then CVal true else prev ← aget ls (Z.of_nat j - 1); CVal (ls_corr prev <? ls_corr lp)) = CVal h) as [h ->].
  { destruct j as [|j]; [destruct ls as [|lp' ls]; [done|]; injection Hlp as <-; cbn in Hf; rewrite (proj2 (Z.ltb_lt _ _) Hf); by exists true|].
    rewrite (proj2 (Z.eqb_neq _ 0)) by lia. cbn [andb]. destruct (lookup_lt_is_Some_2 ls j) as [p Hp]; [lia|].
    rewrite (aget_val ls _ p) by (replace (Z.to_nat (Z.of_nat (S j) - 1)) with j by lia; done || lia). by eexists. }
  cbn [mbind cres_bind]. destruct h; [|exists 0; split_and!; done || lia].
  destruct (leap_hits_spec j ls 1) as (h & -> & Hh); [lia|]. exists h. split; [done|]. split; [lia|]. intros _. exists lp. split; [|done].
  by eapply list_elem_of_lookup_2.
Qed.

(** ** The type in force *)

Definition in_force (sp : state) (t i : Z) : Prop :=
  match ats sp with
  | [] => i = first_std (ttis sp) 0
  | a :: _ =>
      if t <? a then i = first_std (ttis sp) 0
      else exists k a', ats sp !! k = Some a' /\ a' <= t /\ (forall j x, (k < j)%nat -> ats sp !! j = Some x -> t < x) /\ types sp !! k = Some i
  end.

Record zone_ok (sp : state) : Prop := {
  zo_sorted : forall i j a b, (i < j)%nat -> ats sp !! i = Some a -> ats sp !! j = Some b -> a <= b;
  zo_types : length (types sp) = length (ats sp);
  zo_range : forall i, i ∈ types sp -> 0 <= i < Z.of_nat (length (ttis sp));
  zo_ttis : ttis sp <> [];
  zo_offsets : forall x, x ∈ ttis sp -> - 2 ^ 29 <= tt_gmtoff x <= 2 ^ 29;
  zo_isdst : forall x, x ∈ ttis sp -> tt_isdst x = 0 \/ tt_isdst x = 1;
  zo_leaps : first_leap_ok (lsis sp);
  zo_leapcnt : (length (lsis sp) <= 50)%nat;
  zo_corrs : forall lp, lp ∈ lsis sp -> - 2 ^ 29 <= ls_corr lp <= 2 ^ 29;
  zo_repeat : goback sp = false /\ goahead sp = false
}.

Lemma corr_at_bound sp i t : zone_ok sp -> - 2 ^ 29 <= corr_at i (lsis sp) t <= 2 ^ 29.
Proof.
  intros Hz. induction i as [|j IH]; cbn [corr_at]; [lia|]. destruct (lsis sp !! j) as [lp|] eqn:E; [|lia].
  destruct (ls_trans lp <=? t); [|done]. apply (zo_corrs _ Hz). by eapply list_elem_of_lookup_2.
Qed.

Lemma first_std_bound l i : l <> [] -> 0 <= i -> 0 <= first_std l i < i + Z.of_nat (length l).
Proof.
  revert i. induction l as [|x l IH]; intros i Hne Hi; [done|]. cbn [first_std length]. destruct (_ =? 0); [lia|].
  destruct l as [|y l]; [cbn; lia|]. specialize (IH (i + 1) ltac:(done)). cbn [length] in *. lia.
Qed.

(** The transitions before [n] are in order; those from it on are not looked at. *)
Lemma bisect_spec fuel (l : list Z) n t lo hi : 1 <= lo <= hi -> hi <= n <= Z.of_nat (length l) -> (Z.to_nat (hi - lo) < fuel)%nat ->
  (forall i j a b, (i < j)%nat -> (j < Z.to_nat n)%nat -> l !! i = Some a -> l !! j = Some b -> a <= b) ->
  (exists a, l !! Z.to_nat (lo - 1) = Some a /\ a <= t) -> (forall j x, (Z.to_nat hi <= j < Z.to_nat n)%nat -> l !! j = Some x -> t < x) ->
  exists r a, bisect fuel l t lo hi = CVal r /\ 1 <= r <= n /\ l !! Z.to_nat (r - 1) = Some a /\ a <= t /\
  (forall j x, (Z.to_nat (r - 1) < j < Z.to_nat n)%nat -> l !! j = Some x -> t < x).
Proof.
  revert lo hi. induction fuel as [|fuel IH]; intros lo hi Hlo Hhi Hf Hsort Hbelow Habove; [lia|]. cbn [bisect].
  destruct (Z.ltb_spec lo hi) as [Hlt|Hge].
  - rewrite Z.shiftr_div_pow2 by lia. change (2 ^ 1) with 2. set (mid := (lo + hi) / 2). assert (lo <= mid < hi) as Hmid by (subst mid; zdm).
    destruct (lookup_lt_is_Some_2 l (Z.to_nat mid)) as [a Ha]; [lia|]. rewrite (aget_val l mid a) by done || lia. cbn [mbind cres_bind].
    destruct (Z.ltb_spec t a) as [Hta|Hta].
    + apply IH; try done; try lia. intros j x Hj Hx. destruct (decide (j = Z.to_nat mid)) as [->|]; [congruence|].
      pose proof (Hsort (Z.to_nat mid) j a x ltac:(lia) ltac:(lia) Ha Hx). lia.
    + apply IH; try done; try lia. exists a. split; [|done]. by replace (Z.to_nat (mid + 1 - 1)) with (Z.to_nat mid) by lia.
  - destruct Hbelow as (a & Ha & Hat). exists lo, a. split; [done|]. split; [lia|]. split; [done|]. split; [done|].
    intros j x Hj Hx. apply (Habove j x); [lia|done].
Qed.

Lemma type_at_spec sp t : zone_ok sp -> exists i, type_at sp t = CVal i /\ in_force sp t i /\ 0 <= i < Z.of_nat (length (ttis sp)).
Proof.
  intros Hz. pose proof (first_std_bound (ttis sp) 0 (zo_ttis _ Hz) ltac:(lia)) as Hfs.
  assert (type_before sp = CVal (first_std (ttis sp) 0)) as Hbef by (unfold type_before; pose proof (zo_ttis _ Hz); by destruct (ttis sp)).
  unfold type_at, in_force. destruct (ats sp) as [|a l] eqn:El; [by eexists|]. destruct (Z.ltb_spec t a) as [Hta|Hta]; [by eexists|].
  rewrite <- El. assert (Z.of_nat (length (ats sp)) = Z.of_nat (length l) + 1) as Hlen by (rewrite El; cbn; lia).
  destruct (bisect_spec (S (length (ats sp))) (ats sp) (Z.of_nat (length (ats sp))) t 1 (Z.of_nat (length (ats sp)))) as (r & a' & -> & Hr & Ha' & Hle & Hnext);
    [lia|lia|lia|intros i j x y Hij _; by apply (zo_sorted _ Hz)|exists a; split; [by rewrite El|done]|intros j x Hj Hx; apply lookup_lt_Some in Hx; lia|].
  cbn [mbind cres_bind]. destruct (lookup_lt_is_Some_2 (types sp) (Z.to_nat (r - 1))) as [i Hi]; [rewrite (zo_types _ Hz); lia|].
  rewrite (aget_val _ _ i) by done || lia. exists i. split; [done|].
  split; [exists (Z.to_nat (r - 1)), a'; split_and!; try done; intros j x Hj Hx; apply (Hnext j x); [apply lookup_lt_Some in Hx; lia|done]|].
  apply (zo_range _ Hz). by eapply list_elem_of_lookup_2.
Qed.

(** What localtime shows at t: the type in force, and the leap seconds that are shown as :60. *)
Definition shows (sp : state) (t : Z) (tmp : TM) (tm : TM) (ab : Z) : Prop :=
  exists i x hit, in_force sp t i /\ ttis sp !! Z.to_nat i = Some x /\
    is_tm (t + tt_gmtoff x - corr_at (length (lsis sp)) (lsis sp) t) (with_sec tm (tm_sec tm - hit)) /\
    tm_isdst tm = tt_isdst x /\ ab = tt_abbrind x /\ tm_gmtoff tm = tm_gmtoff tmp /\
    0 <= hit <= 50 /\ (0 < hit -> exists lp, lp ∈ lsis sp /\ ls_trans lp = t).

Lemma local_in_spec sp t tmp : zone_ok sp -> - 2 ^ 31 <= t < 2 ^ 31 -> exists tm ab, local_in sp t tmp = CVal (Some (tm, ab)) /\ shows sp t tmp tm ab.
Proof.
  intros Hz Ht. unfold local_in. destruct (type_at_spec sp t Hz) as (i & -> & Hi & Hr). cbn [mbind cres_bind].
  destruct (lookup_lt_is_Some_2 (ttis sp) (Z.to_nat i)) as [x Hx]; [lia|]. rewrite (aget_val _ _ x) by done || lia. cbn [mbind cres_bind].
  destruct (leap_scan_spec (length (lsis sp)) (lsis sp) t) as (hit & Hl & Hh & Hh2); [lia|apply (zo_leaps _ Hz)|].
  pose proof (corr_at_bound sp (length (lsis sp)) t Hz) as Hc. pose proof (zo_offsets _ Hz x ltac:(by eapply list_elem_of_lookup_2)) as Hof.
  destruct (timesub_spec t (tt_gmtoff x) sp tmp _ _ Hl Ht ltac:(lia)) as (tm & -> & Htm & _ & Hg). cbn [mbind cres_bind].
  pose proof (zo_leapcnt _ Hz). eexists _, _. split; [done|]. exists i, x, hit. split_and!; try done; lia.
Qed.

(** C32: for every time_t and every zone whose data are in order, localtime ends and shows the
    Gregorian date of the time, moved by the offset of the type that is in force (that of the
    last transition not after the time, or the first standard type) and by the leap seconds
    so far; the fields of the date and of the week and the year are right, a leap second is
    shown beyond the other seconds of its minute, and tm_gmtoff is left as it was. *)
Theorem localtime_shows sp t tmp (Hz : zone_ok sp) (Ht : - 2 ^ 31 <= t < 2 ^ 31) :
  exists tm ab, localsub sp t tmp = CVal (Some (tm, ab)) /\ shows sp t tmp tm ab.
Proof. unfold localsub. destruct (zo_repeat _ Hz) as [-> ->]. by apply local_in_spec. Qed.

(** New York in 2007, and a leap second at the end of 2005. *)
Definition new_york : state :=
  mkState [mkLS 1136073600 1] [1173596400; 1194156000] [1; 0] [mkTT (-18000) 0 0 false false; mkTT (-14400) 1 4 false false]
    [69; 83; 84; 0; 69; 68; 84; 0] false false.
Definition no_tm : TM := mkTM 0 0 0 0 0 0 0 0 0 0.

Lemma new_york_ok : zone_ok new_york.
Proof.
  split; cbn.
  - intros [|[|i]] [|[|j]] a b Hij Ha Hb; try lia; cbn in *; simplify_eq; try lia. all: by destruct j.
  - done.
  - intros i. rewrite !elem_of_cons. intros [->|[->|[]%not_elem_of_nil]]; lia.
  - done.
  - intros x. rewrite !elem_of_cons. intros [->|[->|[]%not_elem_of_nil]]; cbn; lia.
  - intros x. rewrite !elem_of_cons. intros [->|[->|[]%not_elem_of_nil]]; cbn; auto.
  - lia.
  - lia.
  - intros x. rewrite !elem_of_cons. intros [->|[]%not_elem_of_nil]; cbn; lia.
  - done.
Qed.

(** 4 July 2007, 08:59:59 summer time, and the leap second itself. *)
Lemma localtime_shows_witness :
  localsub new_york 1183553999 no_tm = CVal (Some (mkTM 58 59 8 4 6 107 3 184 1 0, 4)) /\
  shows new_york 1183553999 no_tm (mkTM 58 59 8 4 6 107 3 184 1 0) 4 /\
  localsub new_york 1136073600 no_tm = CVal (Some (mkTM 60 59 18 31 11 105 6 364 0 0, 0)).
Proof.
  destruct (localtime_shows new_york 1183553999 no_tm new_york_ok ltac:(lia)) as (tm & ab & E & Hs).
  assert (localsub new_york 1183553999 no_tm = CVal (Some (mkTM 58 59 8 4 6 107 3 184 1 0, 4))) as E' by (vm_compute; reflexivity).
  rewrite E' in E. injection E as <- <-. split; [exact E'|]. split; [exact Hs|]. vm_compute. reflexivity.
Defined.

(** A first leap second that was removed: the entry before the table is read. *)
Lemma leap_before_table : leap_scan 1 [mkLS 1000 (-1)] 1000 = CUndef.
Proof. reflexivity. Qed.
