(* ===== verification/TzMk.v ===== *)
(** * From local time to time_t (libc/tzcode/localtime.c, mktime)

    time2sub carries the fields of a struct tm into their ranges, then looks for the time_t
    that localtime shows as these fields, by bisection of the whole time_t; time1 tries again
    with the offset of another type.  A long and a time_t have 32 bits. *)

From Stdlib Require Import ZArith Lia.
From stdpp Require Import base list numbers.
From S2P Require Import Prelude Time64 Tz.

Open Scope Z_scope.

Definition WRONG : Z := -1.

(** The new number, and whether it overflowed. *)
Definition long_increment_overflow (number delta : Z) : Z * bool :=
  let n := s32 (number + delta) in (n, xorb (n <? number) (delta <? 0)).

(** The tens, the units, and whether the tens overflowed. *)
Definition normalize_overflow (tens units base : Z) : Z * Z * bool :=
  let tensdelta := if 0 <=? units then Z.quot units base else -1 - Z.quot (-1 - units) base in
  let '(tens, overflow) := increment_overflow tens tensdelta in
  (tens, s32 (units - s32 (tensdelta * base)), overflow).

Definition long_normalize_overflow (tens units base : Z) : Z * Z * bool :=
  let tensdelta := if 0 <=? units then Z.quot units base else -1 - Z.quot (-1 - units) base in
  let '(tens, overflow) := long_increment_overflow tens tensdelta in
  (tens, s32 (units - s32 (tensdelta * base)), overflow).

(** if (..._overflow(...)) return WRONG *)
Definition checked {A} (r : A * bool) : cres (option A) := CVal (if r.2 then None else Some r.1).

Definition tmcomp (a b : TM) : Z :=
  let result := s32 (tm_year a - tm_year b) in
  if negb (result =? 0) then result else
  let result := s32 (tm_mon a - tm_mon b) in
  if negb (result =? 0) then result else
  let result := s32 (tm_mday a - tm_mday b) in
  if negb (result =? 0) then result else
  let result := s32 (tm_hour a - tm_hour b) in
  if negb (result =? 0) then result else
  let result := s32 (tm_min a - tm_min b) in
  if negb (result =? 0) then result else s32 (tm_sec a - tm_sec b).

(** The day of the month into 1..366, by whole years. *)
Fixpoint mday_up (fuel : nat) (y mon mday : Z) : cres (option (Z * Z)) :=
  match fuel with
  | O => CFuel
  | S f =>
      if mday <=? 0 then
        let '(y, overflow) := long_increment_overflow y (-1) in
        if overflow : bool then CVal None
        else mday_up f y mon (s32 (mday + year_lengths (isleap (s32 (y + b2z (1 <? mon))))))
      else CVal (Some (y, mday))
  end.
Fixpoint mday_down (fuel : nat) (y mon mday : Z) : cres (option (Z * Z)) :=
  match fuel with
  | O => CFuel
  | S f =>
      if DAYSPERLYEAR <? mday then
        let mday := s32 (mday - year_lengths (isleap (s32 (y + b2z (1 <? mon))))) in
        let '(y, overflow) := long_increment_overflow y 1 in
        if overflow : bool then CVal None else mday_down f y mon mday
      else CVal (Some (y, mday))
  end.

(** The day of the month into its month. *)
Fixpoint mon_walk (fuel : nat) (y mon mday : Z) : cres (option (Z * Z * Z)) :=
  match fuel with
  | O => CFuel
  | S f =>
      i ← aget (mon_lengths (isleap y)) mon;
      if mday <=? i then CVal (Some (y, mon, mday))
      else if MONSPERYEAR <=? mon + 1 then
        let '(y, overflow) := long_increment_overflow y 1 in
        if overflow : bool then CVal None else mon_walk f y 0 (mday - i)
      else mon_walk f y (mon + 1) (mday - i)
  end.

(** The day of the month into its year, then into its month. *)
Definition norm_days (y mon mday : Z) : cres (option (Z * Z * Z)) :=
  or_wrong (mday_up (2 + Z.to_nat (Z.abs mday / 365)) y mon mday) (fun '(y, mday) =>
  or_wrong (mday_down (2 + Z.to_nat (Z.abs mday / 365)) y mon mday) (fun '(y, mday) =>
  mon_walk 24 y mon mday)).

(** The fields in their ranges, the seconds when [do_norm_secs]. *)
Definition norm_tm (tm : TM) (do_norm_secs : bool) : cres (option TM) :=
  or_wrong (if do_norm_secs then checked (normalize_overflow (tm_min tm) (tm_sec tm) SECSPERMIN)
            else CVal (Some (tm_min tm, tm_sec tm))) (fun '(min, sec) =>
  or_wrong (checked (normalize_overflow (tm_hour tm) min MINSPERHOUR)) (fun '(hour, min) =>
  or_wrong (checked (normalize_overflow (tm_mday tm) hour HOURSPERDAY)) (fun '(mday, hour) =>
  or_wrong (checked (long_normalize_overflow (tm_year tm) (tm_mon tm) MONSPERYEAR)) (fun '(y, mon) =>
  or_wrong (checked (long_increment_overflow y TM_YEAR_BASE)) (fun y =>
  or_wrong (norm_days y mon mday) (fun '(y, mon, mday) =>
  or_wrong (checked (long_increment_overflow y (- TM_YEAR_BASE))) (fun y =>
  CVal (Some (mkTM sec min hour mday mon y (tm_wday tm) (tm_yday tm) (tm_isdst tm) (tm_gmtoff tm)))))))))).

(** The seconds to look for, and those that are added in the end. *)
Definition save_seconds (tm : TM) : option (TM * Z) :=
  if (0 <=? tm_sec tm) && (tm_sec tm <? SECSPERMIN) then Some (tm, 0)
  else if s32 (tm_year tm + TM_YEAR_BASE) <? EPOCH_YEAR then
    let '(sec, overflow) := increment_overflow (tm_sec tm) (1 - SECSPERMIN) in
    if overflow : bool then None else Some (with_sec tm (SECSPERMIN - 1), sec)
  else Some (with_sec tm 0, tm_sec tm).

(** [funcp] is localsub or gmtsub; what it was called with is kept in tm_gmtoff only.  The
    struct tm mytm is not initialised. *)
Section Time2.
Context (funcp : Z -> TM -> cres (option TM)) (sp : state).

Fixpoint search_time (fuel : nat) (yourtm : TM) (lo hi : Z) : cres (option (Z * TM)) :=
  match fuel with
  | O => CFuel
  | S f =>
      let t := Z.quot lo 2 + Z.quot hi 2 in
      let t := if t <? lo then lo else if hi <? t then hi else t in
      let next (dir : Z) :=
        if t =? lo then
          let t := s32 (t + 1) in
          if t <=? lo then CVal None
          else
            let lo := lo + 1 in
            if hi <? lo then CVal None else if 0 <? dir then search_time f yourtm lo t else search_time f yourtm t hi
        else if t =? hi then
          let t := s32 (t - 1) in
          if hi <=? t then CVal None
          else
            let hi := hi - 1 in
            if hi <? lo then CVal None else if 0 <? dir then search_time f yourtm lo t else search_time f yourtm t hi
        else if hi <? lo then CVal None
        else if 0 <? dir then search_time f yourtm lo t else search_time f yourtm t hi in
      r ← funcp t no_tm;
      match r with
      | None => next (if 0 <? t then 1 else -1)
      | Some mytm => let dir := tmcomp mytm yourtm in if negb (dir =? 0) then next dir else CVal (Some (t, mytm))
      end
  end.

(** Right time, wrong type: the loops over the types, from the last. *)
Fixpoint hunt_other (l : list ttinfo) (t : Z) (ti : ttinfo) (yourtm : TM) : cres (option Z) :=
  match l with
  | [] => CVal None
  | tj :: l =>
      if tt_isdst tj =? tm_isdst yourtm then hunt_other l t ti yourtm
      else
        let newt := s32 (s32 (t + tt_gmtoff tj) - tt_gmtoff ti) in
        r ← funcp newt no_tm;
        match r with
        | None => hunt_other l t ti yourtm
        | Some mytm =>
            if negb (tmcomp mytm yourtm =? 0) then hunt_other l t ti yourtm
            else if negb (tm_isdst mytm =? tm_isdst yourtm) then hunt_other l t ti yourtm
            else CVal (Some newt)
        end
  end.
Fixpoint hunt_type (l : list ttinfo) (t : Z) (yourtm : TM) : cres (option Z) :=
  match l with
  | [] => CVal None
  | ti :: l =>
      if negb (tt_isdst ti =? tm_isdst yourtm) then hunt_type l t yourtm
      else
        r ← hunt_other (rev (ttis sp)) t ti yourtm;
        match r with Some newt => CVal (Some newt) | None => hunt_type l t yourtm end
  end.

(** The time, and *tmp when *okayp is set. *)
Definition time2sub (tmp : TM) (do_norm_secs : bool) : cres (Z * option TM) :=
  r ← or_wrong (norm_tm tmp do_norm_secs) (fun yourtm =>
      or_wrong (CVal (save_seconds yourtm)) (fun '(yourtm, saved_seconds) =>
      or_wrong (search_time 40 yourtm INT_MIN INT_MAX) (fun '(t, mytm) =>
      or_wrong (if (tm_isdst yourtm <? 0) || (tm_isdst mytm =? tm_isdst yourtm) then CVal (Some t)
                else hunt_type (rev (ttis sp)) t yourtm) (fun t =>
      let newt := s32 (t + saved_seconds) in
      if xorb (newt <? t) (saved_seconds <? 0) then CVal None else CVal (Some newt)))));
  match r with
  | None => CVal (WRONG, None)
  | Some t => tm ← funcp t tmp; CVal (t, tm)
  end.

Definition time2 (tmp : TM) : cres (Z * option TM) :=
  r ← time2sub tmp false;
  match r.2 with Some _ => CVal r | None => time2sub tmp true end.

(** The types of the transitions, each once, from the last transition. *)
Fixpoint seen_types (l : list Z) (types : list Z) : list Z :=
  match l with
  | [] => types
  | i :: l => if bool_decide (i ∈ types) then seen_types l types else seen_types l (types ++ [i])
  end.

Definition with_dst (tm : TM) (sec isdst : Z) : TM :=
  mkTM sec (tm_min tm) (tm_hour tm) (tm_mday tm) (tm_mon tm) (tm_year tm) (tm_wday tm) (tm_yday tm) isdst (tm_gmtoff tm).

(** The fields moved from another type to the type that was asked for. *)
Fixpoint try_others (l : list Z) (same : ttinfo) (tmp : TM) : cres (option (Z * TM)) :=
  match l with
  | [] => CVal None
  | otheri :: l =>
      other ← aget (ttis sp) otheri;
      if tt_isdst other =? tm_isdst tmp then try_others l same tmp
      else
        let moved := with_dst tmp (s32 (tm_sec tmp + s32 (tt_gmtoff other - tt_gmtoff same))) (b2z (tm_isdst tmp =? 0)) in
        r ← time2 moved;
        match r with
        | (t, Some tm) => CVal (Some (t, tm))
        | (_, None) =>
            try_others l same (with_dst moved (s32 (tm_sec moved - s32 (tt_gmtoff other - tt_gmtoff same))) (b2z (tm_isdst moved =? 0)))
        end
  end.
Fixpoint try_types (l types : list Z) (tmp : TM) : cres (option (Z * TM)) :=
  match l with
  | [] => CVal None
  | samei :: l =>
      same ← aget (ttis sp) samei;
      if negb (tt_isdst same =? tm_isdst tmp) then try_types l types tmp
      else
        r ← try_others types same tmp;
        match r with Some tm => CVal (Some tm) | None => try_types l types tmp end
  end.

(** The time, and *tmp when the time was found. *)
Definition time1 (tmp : TM) : cres (Z * option TM) :=
  let tmp := if 1 <? tm_isdst tmp then with_dst tmp (tm_sec tmp) 1 else tmp in
  r ← time2 tmp;
  match r.2 with
  | Some _ => CVal r
  | None =>
      if tm_isdst tmp <? 0 then CVal r
      else
        let types := seen_types (rev (types sp)) [] in
        r ← try_types types types tmp;
        CVal (match r with Some (t, tm) => (t, Some tm) | None => (WRONG, None) end)
  end.
End Time2.

(** localsub; tm_zone is not a field of [TM]. *)
Definition localtime_of (sp : state) (t : Z) (tmp : TM) : cres (option TM) :=
  r ← localsub sp t tmp; CVal (match r with Some (tm, _) => Some tm | None => None end).

Definition mktime (sp : state) (tmp : TM) : cres (Z * option TM) := time1 (localtime_of sp) sp tmp.

(** ** Carries *)

Definition int_range (z : Z) : Prop := - 2 ^ 31 <= z < 2 ^ 31.

Lemma s32_sub a b : s32 (a - s32 b) = s32 (a - b).
Proof.
  unfold s32. f_equal. replace (a - ((b + 2 ^ 31) mod 2 ^ 32 - 2 ^ 31) + 2 ^ 31) with (a + 2 ^ 32 - (b + 2 ^ 31) mod 2 ^ 32) by lia.
  rewrite Zminus_mod_idemp_r. f_equal. lia.
Qed.

Lemma long_increment_spec n d : int_range n -> int_range d -> exists n' o, long_increment_overflow n d = (n', o) /\
  int_range n' /\ (o = false -> n' = n + d) /\ (int_range (n + d) -> o = false).
Proof.
  intros Hn Hd. unfold long_increment_overflow. eexists _, _. split; [done|]. split; [apply s32_range|].
  unfold int_range in *. split.
  - intros Ho. apply s32_small. destruct (decide (INT_MIN <= n + d <= INT_MAX)) as [|Hr]; [unfold INT_MIN, INT_MAX in *; lia|].
    pose proof (increment_fails n d Hn Hd Hr) as Hf. unfold increment_overflow in Hf. cbn [snd] in Hf. congruence.
  - intros Hr. pose proof (increment_ok n d ltac:(unfold INT_MIN, INT_MAX; lia)) as E. by injection E as _ ->.
Qed.

Lemma long_normalize_spec tens units base : int_range tens -> int_range units -> 2 <= base < 2 ^ 31 -> exists tens' o,
  long_normalize_overflow tens units base = (tens', units mod base, o) /\ int_range tens' /\
  (o = false -> tens' = tens + units / base) /\ (int_range (tens + units / base) -> o = false).
Proof.
  intros Ht Hu Hb. unfold long_normalize_overflow. pose proof (Z.mod_pos_bound units base ltac:(lia)) as Hm.
  assert ((if 0 <=? units then Z.quot units base else -1 - Z.quot (-1 - units) base) = units / base) as ->.
  { destruct (Z.leb_spec 0 units); rewrite Z.quot_div_nonneg by lia; [done|].
    apply (Z.div_unique_pos _ _ _ (base - 1 - (-1 - units) mod base)); [pose proof (Z.mod_pos_bound (-1 - units) base ltac:(lia)); lia|].
    pose proof (Z.div_mod (-1 - units) base ltac:(lia)). nia. }
  assert (int_range (units / base)) as Hq.
  { unfold int_range in *. split; [apply Z.div_le_lower_bound; nia|apply Z.div_lt_upper_bound; nia]. }
  destruct (long_increment_spec tens (units / base) Ht Hq) as (t' & o & -> & H). exists t', o. split; [|done].
  rewrite s32_sub. do 2 f_equal. pose proof (Z.div_mod units base ltac:(lia)). rewrite s32_small; lia.
Qed.

Lemma normalize_long tens units base : normalize_overflow tens units base = long_normalize_overflow tens units base.
Proof. done. Qed.

(** ** Days *)

(** The days from the Epoch to the first of a month. *)
Definition month_day (y mon : Z) : Z := year_day y + tab (julian_days_by_month (isleap y)) mon.

(** From a month to the same month of the next year. *)
Lemma month_day_year y mon : 0 <= mon <= 11 ->
  month_day (y + 1) mon = month_day y mon + year_lengths (isleap (y + b2z (1 <? mon))).
Proof.
  intros Hm. unfold month_day. rewrite year_day_next. generalize (year_day y). intros d.
  destruct (Z.ltb_spec 1 mon); cbn [b2z]; [|rewrite Z.add_0_r]; destruct (isleap y), (isleap (y + 1)); month mon; try lia; cbv -[Z.add]; lia.
Qed.

(** A year number that wraps around is a leap year when the year it stands for is. *)
Lemma isleap_wrap y mon : int_range y -> isleap (s32 (y + b2z (1 <? mon))) = isleap (y + b2z (1 <? mon)).
Proof.
  intros Hy. unfold int_range in *. destruct (decide (y + b2z (1 <? mon) = 2 ^ 31)) as [-> |]; [reflexivity|].
  rewrite s32_small; [done|]. destruct (1 <? mon); cbn [b2z] in *; lia.
Qed.

Lemma mon_lengths_month leap mon : 0 <= mon <= 11 -> aget (mon_lengths leap) mon = CVal (tab (days_in_month leap) mon).
Proof. intros H. month mon; destruct leap; reflexivity. Qed.

Lemma mday_up_spec fuel y mon mday : int_range y -> int_range mday -> 0 <= mon <= 11 -> (Z.to_nat (- mday / 365 + 1) < fuel)%nat ->
  sound (mday_up fuel y mon mday) (near y (Z.max 0 (1 - mday))) (fun '(y', m') =>
    int_range y' /\ 1 <= m' <= Z.max mday 366 /\ month_day y' mon + m' = month_day y mon + mday /\ y - Z.max 0 (1 - mday) <= y' <= y).
Proof.
  revert y mday. induction fuel as [|fuel IH]; intros y mday Hy Hd Hm Hf; [lia|]. cbn [mday_up]. unfold int_range in *.
  destruct (Z.leb_spec mday 0) as [Hle|Hgt]; [|apply sound_some; split_and!; done || lia].
  destruct (long_increment_spec y (-1)) as (y' & o & -> & Hy' & Ho & Hr); [done|done|].
  destruct o; [apply sound_none; unfold near; intros [? ?]; enough (true = false) by done; apply Hr; unfold int_range; lia|].
  specialize (Ho eq_refl) as ->. rewrite isleap_wrap by done.
  pose proof (month_day_year (y + -1) mon Hm) as E. replace (y + -1 + 1) with y in E by lia.
  pose proof (year_lengths_bounds (isleap (y + -1 + b2z (1 <? mon)))) as Hl. set (n := year_lengths _) in *. unfold int_range in *.
  rewrite s32_small by lia. assert (0 <= - mday / 365) by (apply Z.div_pos; lia).
  eapply sound_weaken; [apply (IH (y + -1) (mday + n)); try done; try lia| |].
  - assert (- (mday + n) / 365 <= - mday / 365 - 1) by zdm. lia.
  - unfold near. lia.
  - intros [y2 m2] (H1 & H2 & H3 & H4). split; [done|]. split; [lia|]. split; lia.
Qed.

Lemma mday_down_spec fuel y mon mday : int_range y -> int_range mday -> 0 <= mon <= 11 -> 1 <= mday -> (Z.to_nat (mday / 365 + 1) < fuel)%nat ->
  sound (mday_down fuel y mon mday) (near y mday) (fun '(y', m') =>
    int_range y' /\ 1 <= m' <= 366 /\ month_day y' mon + m' = month_day y mon + mday /\ y <= y' <= y + mday).
Proof.
  revert y mday. induction fuel as [|fuel IH]; intros y mday Hy Hd Hm Hpos Hf; [lia|]. cbn [mday_down]. unfold int_range, DAYSPERLYEAR in *.
  destruct (Z.ltb_spec 366 mday) as [Hlt|Hge]; [|apply sound_some; split_and!; done || lia].
  rewrite isleap_wrap by done. pose proof (month_day_year y mon Hm) as E. pose proof (year_lengths_bounds (isleap (y + b2z (1 <? mon)))) as Hl.
  set (n := year_lengths _) in *. rewrite s32_small by lia.
  destruct (long_increment_spec y 1) as (y' & o & -> & Hy' & Ho & Hr); [done|done|].
  destruct o; [apply sound_none; unfold near; intros [? ?]; enough (true = false) by done; apply Hr; unfold int_range; lia|].
  specialize (Ho eq_refl) as ->. unfold int_range in *. assert (1 <= mday / 365) by (apply Z.div_le_lower_bound; lia).
  eapply sound_weaken; [apply (IH (y + 1) (mday - n)); try done; try lia| |].
  - assert ((mday - n) / 365 <= mday / 365 - 1) by zdm. lia.
  - unfold near. lia.
  - intros [y2 m2] (H1 & H2 & H3 & H4). split; [done|]. split; [lia|]. split; lia.
Qed.

Lemma month_day_next y mon : 0 <= mon < 11 -> month_day y (mon + 1) = month_day y mon + tab (days_in_month (isleap y)) mon.
Proof. intros H. unfold month_day. rewrite <- month_end_next by lia. unfold month_end. lia. Qed.

Lemma month_day_january y : month_day (y + 1) 0 = month_day y 11 + tab (days_in_month (isleap y)) 11.
Proof.
  unfold month_day. rewrite year_day_next. destruct (january_december (isleap y)) as (_ & -> & _ & ->).
  destruct (january_december (isleap (y + 1))) as (_ & _ & -> & _). rewrite year_lengths_spec. lia.
Qed.

Lemma mon_walk_spec fuel y mon mday : int_range y -> 0 <= mon <= 11 -> 1 <= mday -> (Z.to_nat (mday / 28) < fuel)%nat ->
  sound (mon_walk fuel y mon mday) (near y mday) (fun '(y', mon', m') =>
    int_range y' /\ 0 <= mon' <= 11 /\ 1 <= m' <= tab (days_in_month (isleap y')) mon' /\
    month_day y' mon' + m' = month_day y mon + mday /\ y <= y' <= y + mday).
Proof.
  revert y mon mday. induction fuel as [|fuel IH]; intros y mon mday Hy Hm Hpos Hf; [lia|]. cbn [mon_walk].
  rewrite mon_lengths_month by done. cbn [mbind cres_bind]. destruct (month_bounds (isleap y) mon Hm) as (_ & _ & Hb).
  destruct (Z.leb_spec mday (tab (days_in_month (isleap y)) mon)) as [Hle|Hgt]; [apply sound_some; split_and!; done || lia|].
  set (n := tab (days_in_month (isleap y)) mon) in *. assert (1 <= mday / 28) by (apply Z.div_le_lower_bound; lia).
  assert (Z.to_nat ((mday - n) / 28) < fuel)%nat as Hf'.
  { assert ((mday - n) / 28 <= mday / 28 - 1) by zdm. lia. }
  unfold int_range, MONSPERYEAR in *. destruct (Z.leb_spec 12 (mon + 1)) as [Hd|Hd].
  - assert (mon = 11) as -> by lia. destruct (long_increment_spec y 1) as (y' & o & -> & Hy' & Ho & Hr); [done|done|].
    destruct o; [apply sound_none; unfold near; intros [? ?]; enough (true = false) by done; apply Hr; unfold int_range; lia|].
    specialize (Ho eq_refl) as ->. eapply sound_weaken; [apply (IH (y + 1) 0 (mday - n)); try done; lia|unfold near; lia|].
    intros [[y2 mon2] m2] (H1 & H2 & H3 & H4 & H5). pose proof (month_day_january y). split_and!; try done; lia.
  - eapply sound_weaken; [apply (IH y (mon + 1) (mday - n)); try done; lia|unfold near; lia|].
    intros [[y2 mon2] m2] (H1 & H2 & H3 & H4 & H5). pose proof (month_day_next y mon ltac:(lia)). split_and!; try done; lia.
Qed.

(** ** The fields in their ranges *)

Record int_fields (tm : TM) : Prop := {
  if_sec : int_range (tm_sec tm); if_min : int_range (tm_min tm); if_hour : int_range (tm_hour tm);
  if_mday : int_range (tm_mday tm); if_mon : int_range (tm_mon tm); if_year : int_range (tm_year tm);
  if_isdst : int_range (tm_isdst tm)
}.

(** Fields far from the ends of an int. *)
Definition small_fields (tm : TM) : Prop :=
  Z.abs (tm_sec tm) <= 2 ^ 26 /\ Z.abs (tm_min tm) <= 2 ^ 26 /\ Z.abs (tm_hour tm) <= 2 ^ 26 /\ Z.abs (tm_mday tm) <= 2 ^ 26 /\
  Z.abs (tm_mon tm) <= 2 ^ 26 /\ Z.abs (tm_year tm) <= 2 ^ 26.

Lemma norm_days_spec y mon mday : int_range y -> int_range mday -> 0 <= mon <= 11 ->
  sound (norm_days y mon mday) (Z.abs y + Z.abs mday <= 2 ^ 29) (fun '(y', mon', m') =>
    int_range y' /\ 0 <= mon' <= 11 /\ 1 <= m' <= tab (days_in_month (isleap y')) mon' /\
    month_day y' mon' + m' = month_day y mon + mday /\ Z.abs y' <= Z.abs y + Z.abs mday + 800).
Proof.
  intros Hy Hd Hm. unfold norm_days, near, int_range in *. assert (0 <= Z.abs mday / 365) by (apply Z.div_pos; lia).
  assert (- mday / 365 <= Z.abs mday / 365) by (apply Z.div_le_mono; lia).
  eapply sound_bind; [eapply sound_weaken; [apply mday_up_spec; try done; lia|unfold near; lia|intros a Ha; exact Ha]|].
  intros [y2 m2] (H6 & B6 & E6 & R6). assert (1 <= Z.max mday 366 < 2 ^ 31) by lia. rewrite (Z.abs_eq m2) by lia.
  assert (0 <= m2 / 365) by (apply Z.div_pos; lia). unfold int_range in *.
  eapply sound_bind; [eapply sound_weaken; [apply (mday_down_spec _ _ mon m2); try done; unfold int_range; lia|unfold near; lia|intros a Ha; exact Ha]|].
  intros [y3 m3] (H7 & B7 & E7 & R7). assert (m3 / 28 < 14) by (apply Z.div_lt_upper_bound; lia).
  eapply sound_weaken; [apply (mon_walk_spec 24 _ mon m3); try done; lia|unfold near; lia|].
  intros [[y4 mon4] m4] (H8 & B8 & C8 & E8 & R8). unfold int_range in *. split_and!; try done; lia.
Qed.

(** The local time that fields stand for, in or out of their ranges: seconds by the calendar. *)
Definition wide_time (tm : TM) : Z :=
  date_number (tm_year tm + tm_mon tm / 12) (tm_mon tm mod 12) (tm_mday tm) * 86400
  + tm_hour tm * 3600 + tm_min tm * 60 + tm_sec tm.

Lemma wide_time_valid tm : 0 <= tm_mon tm <= 11 -> wide_time tm = tm_time tm.
Proof. intros H. unfold wide_time, tm_time. rewrite Z.div_small, Z.mod_small, Z.add_0_r by lia. done. Qed.

Lemma month_day_date Y mon mday : month_day Y mon + mday - 1 = date_number (Y - 1900) mon mday.
Proof. unfold month_day, date_number, year_day. rewrite isleap_spec. done. Qed.

Lemma sound_checked {A} (a : A) o (safe : Prop) (P : A -> Prop) : (safe -> o = false) -> (o = false -> P a) -> sound (checked (a, o)) safe P.
Proof.
  intros Hs Hp. unfold checked. cbn [fst snd]. destruct o; [apply sound_none; intros H; by specialize (Hs H)|]. by apply sound_some, Hp.
Qed.

(** A carry that is checked. *)
Lemma sound_carry tens units base safe : int_range tens -> int_range units -> 2 <= base < 2 ^ 31 -> (safe -> int_range (tens + units / base)) ->
  sound (checked (long_normalize_overflow tens units base)) safe (fun r => int_range r.1 /\ r = (tens + units / base, units mod base)).
Proof.
  intros Ht Hu Hb Hs. destruct (long_normalize_spec tens units base Ht Hu Hb) as (t' & o & -> & Hi & Ho & Hr).
  apply sound_checked; [by auto|]. intros ->. specialize (Ho eq_refl) as ->. done.
Qed.

Lemma sound_add n d safe : int_range n -> int_range d -> (safe -> int_range (n + d)) ->
  sound (checked (long_increment_overflow n d)) safe (fun r => int_range r /\ r = n + d).
Proof.
  intros Hn Hd Hs. destruct (long_increment_spec n d Hn Hd) as (n' & o & -> & Hi & Ho & Hr).
  apply sound_checked; [by auto|]. intros ->. specialize (Ho eq_refl) as ->. done.
Qed.

(** What carrying gives: a date of the calendar, at the same local time. *)
Record normal (tm : TM) (do_norm_secs : bool) (tm' : TM) : Prop := {
  no_date : valid_date (tm_year tm') (tm_mon tm') (tm_mday tm');
  no_hour : 0 <= tm_hour tm' < 24;
  no_min : 0 <= tm_min tm' < 60;
  no_sec : if do_norm_secs then 0 <= tm_sec tm' < 60 else tm_sec tm' = tm_sec tm;
  no_year : int_range (tm_year tm');
  no_time : tm_time tm' = wide_time tm;
  no_isdst : tm_isdst tm' = tm_isdst tm
}.

Lemma div_abs a b : 1 <= b -> Z.abs (a / b) <= Z.abs a.
Proof.
  intros Hb. destruct (Z.le_gt_cases 0 a).
  - assert (0 <= a / b <= a) by (split; [apply Z.div_pos|apply Z.div_le_upper_bound]; nia). lia.
  - assert (a <= a / b < 0) by (split; [apply Z.div_le_lower_bound; nia|apply Z.div_lt_upper_bound; lia]). lia.
Qed.

Ltac small_lia :=
  let Hs := fresh in
  intros Hs; repeat match goal with H : small_fields _ -> _ |- _ => specialize (H Hs) end;
  destruct Hs as (? & ? & ? & ? & ? & ?); unfold int_range in *; lia.

Lemma norm_tm_spec tm b : int_fields tm -> sound (norm_tm tm b) (small_fields tm) (normal tm b).
Proof.
  intros [Hs Hmi Hh Hmd Hmo Hy Hi]. unfold norm_tm. rewrite !normalize_long. change SECSPERMIN with 60. change MINSPERHOUR with 60.
  change HOURSPERDAY with 24. change MONSPERYEAR with 12. change TM_YEAR_BASE with 1900. 
  pose proof (div_abs (tm_sec tm) 60 ltac:(lia)) as D1. pose proof (div_abs (tm_mon tm) 12 ltac:(lia)) as D4.
  eapply (sound_bind _ _ _ (fun '(min, sec) => int_range min /\ min * 60 + sec = tm_min tm * 60 + tm_sec tm /\ (small_fields tm -> Z.abs min <= 2 ^ 27) /\
    (if b then 0 <= sec < 60 else sec = tm_sec tm))).
  { pose proof (Z.div_mod (tm_sec tm) 60 ltac:(lia)). destruct b; [|apply sound_some; split_and!; try done; try lia; small_lia].
    eapply sound_weaken; [apply (sound_carry _ _ 60 (small_fields tm)); try done; small_lia|done|].
    intros [min sec] [F1 [= -> ->]]. cbn [fst] in F1. split; [done|]. split; [lia|]. split; [small_lia|apply Z.mod_pos_bound; lia]. }
  intros [min sec] (H1 & E1 & S1 & B1). pose proof (div_abs min 60 ltac:(lia)) as D2. 
  eapply sound_bind; [apply (sound_carry _ _ 60 (small_fields tm)); [done|done|done|small_lia]|].
  intros [hour min'] [H2 [= -> ->]]. cbn [fst] in H2. set (hour := tm_hour tm + min / 60) in *. pose proof (div_abs hour 24 ltac:(lia)) as D3.
  assert (small_fields tm -> Z.abs hour <= 2 ^ 26 + 2 ^ 27) as S2 by (subst hour; small_lia). 
  eapply sound_bind; [apply (sound_carry _ _ 24 (small_fields tm)); [done|done|done|small_lia]|].
  intros [mday hour'] [H3 [= -> ->]]. cbn [fst] in H3. set (mday := tm_mday tm + hour / 24) in *.
  eapply sound_bind; [apply (sound_carry _ _ 12 (small_fields tm)); [done|done|done|small_lia]|].
  intros [y mon] [H4 [= -> ->]]. cbn [fst] in H4.
  eapply sound_bind; [apply (sound_add _ 1900 (small_fields tm)); [done|done|small_lia]|].
  intros y1 [H5 ->]. set (y1 := tm_year tm + _ + 1900) in *. set (mon := tm_mon tm mod 12) in *.
  assert (0 <= mon <= 11) as Hmon by (pose proof (Z.mod_pos_bound (tm_mon tm) 12 ltac:(lia)); subst mon; lia).
  assert (small_fields tm -> Z.abs y1 + Z.abs mday <= 2 ^ 29) as Hsm by (clear H2 H3 H4 H5 E1 B1 H1; subst y1 mday; small_lia).
  eapply sound_bind; [eapply sound_weaken; [apply norm_days_spec; done|exact Hsm|intros a Ha; exact Ha]|].
  intros [[y2 mon2] m2] (H6 & B6 & C6 & E6 & R6).
  eapply sound_bind; [apply (sound_add _ (- 1900) (small_fields tm)); [done|done|]; intros Hs1; specialize (Hsm Hs1); clear - Hsm R6; unfold int_range; lia|].
  intros y3 [H7 ->]. apply sound_some. rewrite isleap_spec in C6. split; cbn [tm_year tm_mon tm_mday tm_hour tm_min tm_sec tm_isdst]; try done.
  - apply Z.mod_pos_bound; lia.
  - apply Z.mod_pos_bound; lia.
  - unfold tm_time, wide_time. cbn [tm_year tm_mon tm_mday tm_hour tm_min tm_sec]. pose proof (month_day_date y2 mon2 m2) as F.
    pose proof (month_day_date y1 mon mday) as G. replace (y2 + -1900) with (y2 - 1900) by lia.
    rewrite <- F.
    replace (y1 - 1900) with (tm_year tm + tm_mon tm / 12) in G by (subst y1; lia). fold mon.
    assert (date_number (tm_year tm + tm_mon tm / 12) mon mday = date_number (tm_year tm + tm_mon tm / 12) mon (tm_mday tm) + hour / 24) as G2
      by (unfold date_number; subst mday; lia).
    pose proof (Z.div_mod min 60 ltac:(lia)). pose proof (Z.div_mod hour 24 ltac:(lia)). subst hour. lia.
Qed.
