(* ===== verification/TzMkSpec.v ===== *)
(** * What mktime finds

    mktime ends for every zone in order; what it finds is shown by localtime as the fields that
    were asked for, and away from the changes of a zone it takes localtime back. *)

From Stdlib Require Import ZArith Lia.
From stdpp Require Import base list numbers.
From S2P Require Import Prelude Time64 Tz TzMk.

Open Scope Z_scope.

(** ** Comparing fields *)

Definition same_fields (a b : TM) : Prop :=
  tm_year a = tm_year b /\ tm_mon a = tm_mon b /\ tm_mday a = tm_mday b /\
  tm_hour a = tm_hour b /\ tm_min a = tm_min b /\ tm_sec a = tm_sec b.

Lemma s32_diff_zero a b : int_range a -> int_range b -> s32 (a - b) = 0 -> a = b.
Proof. unfold int_range, s32. intros Ha Hb H. zdm. Qed.

Lemma tmcomp_zero a b : int_fields a -> int_fields b -> tmcomp a b = 0 -> same_fields a b.
Proof.
  intros [? ? ? ? ? ? _] [? ? ? ? ? ? _]. unfold tmcomp, same_fields.
  repeat (match goal with |- context [s32 (?x - ?y) =? 0] => destruct (Z.eqb_spec (s32 (x - y)) 0) as [?%s32_diff_zero|] end; cbn [negb]; [|done|done..]).
  intros ?%s32_diff_zero; done.
Qed.

Lemma tmcomp_same a b : same_fields a b -> tmcomp a b = 0.
Proof. intros (E1 & E2 & E3 & E4 & E5 & E6). unfold tmcomp. rewrite E1, E2, E3, E4, E5, E6, !Z.sub_diag. reflexivity. Qed.

(** Fields of the calendar, in years near ours. *)
Record proper (tm : TM) : Prop := {
  pr_date : valid_date (tm_year tm) (tm_mon tm) (tm_mday tm);
  pr_clock : valid_clock tm;
  pr_year : Z.abs (tm_year tm) <= 2 ^ 29
}.

Lemma date_number_lt y mon mday y' mon' mday' : valid_date y mon mday -> valid_date y' mon' mday' ->
  date_number y mon mday < date_number y' mon' mday' -> y < y' \/ (y = y' /\ (mon < mon' \/ (mon = mon' /\ mday < mday'))).
Proof.
  intros Hv Hv' Hlt. pose proof (date_number_bounds _ _ _ Hv). pose proof (date_number_bounds _ _ _ Hv').
  destruct (Z.lt_trichotomy y y') as [C|[->|C]]; [by left| |pose proof (day_number_mono _ _ C); lia]. right. split; [done|].
  destruct Hv as (Hm & Hd), Hv' as (Hm' & Hd'). unfold date_number in Hlt.
  destruct (Z.lt_trichotomy mon mon') as [C|[->|C]]; [by left|right; lia|].
  pose proof (month_mono (IS_LEAP y') mon' mon ltac:(lia) C ltac:(lia)). unfold month_end in *. lia.
Qed.

Lemma tmcomp_lt a b : proper a -> proper b -> tm_time a < tm_time b -> tmcomp a b < 0.
Proof.
  intros [Ha (A1 & A2 & A3) Ya] [Hb (B1 & B2 & B3) Yb] Hlt. unfold tm_time in Hlt.
  pose proof (month_bounds (IS_LEAP (tm_year a)) (tm_mon a) (proj1 Ha)). pose proof (month_bounds (IS_LEAP (tm_year b)) (tm_mon b) (proj1 Hb)).
  pose proof Ha as [Ma Da]. pose proof Hb as [Mb Db].
  destruct (Z.lt_trichotomy (date_number (tm_year a) (tm_mon a) (tm_mday a)) (date_number (tm_year b) (tm_mon b) (tm_mday b))) as [C|[C|C]]; [| |lia].
  - unfold tmcomp. rewrite !s32_small by lia. destruct (date_number_lt _ _ _ _ _ _ Ha Hb C) as [L|(-> & [L|(-> & L)])]; rewrite ?Z.sub_diag; cbn [negb Z.eqb]; repeat zif; lia.
  - destruct (date_unique _ _ _ _ _ _ Ha Hb C) as (E1 & E2 & E3). unfold tmcomp. rewrite !s32_small by lia.
    rewrite E1, E2, E3, !Z.sub_diag. cbn [negb Z.eqb]. repeat bcase; cbn [negb]; lia.
Qed.

Lemma tmcomp_gt a b : proper a -> proper b -> tm_time b < tm_time a -> 0 < tmcomp a b.
Proof.
  intros [Ha (A1 & A2 & A3) Ya] [Hb (B1 & B2 & B3) Yb] Hlt. unfold tm_time in Hlt.
  pose proof (month_bounds (IS_LEAP (tm_year a)) (tm_mon a) (proj1 Ha)). pose proof (month_bounds (IS_LEAP (tm_year b)) (tm_mon b) (proj1 Hb)).
  pose proof Ha as [Ma Da]. pose proof Hb as [Mb Db].
  destruct (Z.lt_trichotomy (date_number (tm_year a) (tm_mon a) (tm_mday a)) (date_number (tm_year b) (tm_mon b) (tm_mday b))) as [C|[C|C]]; [lia| |].
  - destruct (date_unique _ _ _ _ _ _ Ha Hb C) as (E1 & E2 & E3). unfold tmcomp. rewrite !s32_small by lia.
    rewrite E1, E2, E3, !Z.sub_diag. cbn [negb Z.eqb]. repeat bcase; cbn [negb]; lia.
  - unfold tmcomp. rewrite !s32_small by lia. destruct (date_number_lt _ _ _ _ _ _ Hb Ha C) as [L|(-> & [L|(-> & L)])]; rewrite ?Z.sub_diag; cbn [negb Z.eqb]; repeat zif; lia.
Qed.

Lemma proper_same a b : proper a -> proper b -> tm_time a = tm_time b -> same_fields a b.
Proof.
  intros [Ha (A1 & A2 & A3) _] [Hb (B1 & B2 & B3) _] E. unfold tm_time in E.
  assert (date_number (tm_year a) (tm_mon a) (tm_mday a) = date_number (tm_year b) (tm_mon b) (tm_mday b)) as C by lia.
  destruct (date_unique _ _ _ _ _ _ Ha Hb C) as (E1 & E2 & E3). unfold same_fields. split_and!; try done; lia.
Qed.

Lemma same_fields_time a b : same_fields a b -> tm_time a = tm_time b.
Proof. intros (E1 & E2 & E3 & E4 & E5 & E6). unfold tm_time. by rewrite E1, E2, E3, E4, E5, E6. Qed.

Lemma wide_with_dst tm d i : wide_time (with_dst tm (tm_sec tm + d) i) = wide_time tm + d.
Proof. unfold wide_time. cbn. lia. Qed.

(** ** The bisection *)

(** The widest interval that [fuel] rounds search. *)
Fixpoint width (fuel : nat) : Z :=
  match fuel with O => -1 | S f => let w := width f in Z.max (w + 1) (2 * w - 1) end.

Section Find.
Context (funcp : Z -> TM -> cres (option TM)) (sp : state).
Context (Hfun : forall t tmp, int_range t -> exists m, funcp t tmp = CVal (Some m) /\ int_fields m).

(** A time that shows the fields. *)
Definition hit_at (yourtm : TM) (t : Z) (m : TM) : Prop :=
  int_range t /\ funcp t no_tm = CVal (Some m) /\ tmcomp m yourtm = 0.

(** The time that shows the fields, when all others show earlier or later fields as they should. *)
Definition only_hit (yourtm : TM) (t : Z) (m : TM) : Prop :=
  hit_at yourtm t m /\ forall t' m', int_range t' -> funcp t' no_tm = CVal (Some m') ->
    (t' < t -> tmcomp m' yourtm < 0) /\ (t < t' -> 0 < tmcomp m' yourtm).

Lemma search_time_spec fuel yourtm lo hi : int_range lo -> int_range hi -> lo <= hi -> hi - lo <= width fuel ->
  exists r, search_time funcp fuel yourtm lo hi = CVal r /\ (forall t m, r = Some (t, m) -> hit_at yourtm t m) /\
  (forall t m, lo <= t <= hi -> only_hit yourtm t m -> r = Some (t, m)).
Proof.
  revert lo hi. induction fuel as [|fuel IH]; intros lo hi Hlo Hhi Hle Hw; cbn [width search_time] in *; [lia|].
  unfold int_range in Hlo, Hhi.
  set (t0 := Z.quot lo 2 + Z.quot hi 2). set (t := if t0 <? lo then lo else if hi <? t0 then hi else t0).
  assert (lo <= t <= hi /\ 2 * t <= lo + hi + 2 /\ lo + hi - 2 <= 2 * t) as (Ht & Hm1 & Hm2).
  { subst t. assert (lo + hi - 2 <= 2 * t0 <= lo + hi + 2) by (subst t0; Z.quot_rem_to_equations; lia). destruct (Z.ltb_spec t0 lo), (Z.ltb_spec hi t0); lia. }
  clearbody t. clear t0. destruct (Hfun t no_tm) as (m & Em & Hm); [unfold int_range; lia|]. rewrite Em. cbn [mbind cres_bind].
  destruct (Z.eqb_spec (tmcomp m yourtm) 0) as [Hz|Hz]; cbn [negb].
  { exists (Some (t, m)). split; [done|]. split; [intros ? ? [= <- <-]; split; [unfold int_range; lia|done]|].
    intros t1 m1 Ht1 [(Hr1 & Hf1 & Hc1) Hord]. destruct (Hord t m ltac:(unfold int_range; lia) Em) as [O1 O2].
    destruct (Z.lt_trichotomy t t1) as [C|[->|C]]; [specialize (O1 C); lia|congruence|specialize (O2 C); lia]. }
  assert (forall t1 m1, only_hit yourtm t1 m1 -> t <> t1 /\ (t < t1 -> tmcomp m yourtm < 0) /\ (t1 < t -> 0 < tmcomp m yourtm)) as Hdir.
  { intros t1 m1 [(Hr1 & Hf1 & Hc1) Hord]. split; [intros ->; congruence|]. apply Hord; [unfold int_range; lia|done]. }
  assert (forall l h, int_range l -> int_range h -> lo <= l <= h -> h <= hi -> h - l <= width fuel -> (forall t1 m1, lo <= t1 <= hi -> only_hit yourtm t1 m1 -> l <= t1 <= h) ->
    exists r, search_time funcp fuel yourtm l h = CVal r /\ (forall t m, r = Some (t, m) -> hit_at yourtm t m) /\
    (forall t m, lo <= t <= hi -> only_hit yourtm t m -> r = Some (t, m))) as Hnext.
  { intros l h Hl Hh Hlh Hhh Hwd Hin. destruct (IH l h) as (r & -> & H1 & H2); [done|done|lia|done|]. exists r. split; [done|]. split; [done|]. by eauto. }
  assert (lo = hi -> exists r, @CVal (option (Z * TM)) None = CVal r /\ (forall t m, r = Some (t, m) -> hit_at yourtm t m) /\
    (forall t m, lo <= t <= hi -> only_hit yourtm t m -> r = Some (t, m))) as Hnone.
  { intros He. exists None. split; [done|]. split; [done|]. intros t1 m1 H1 H2. destruct (Hdir _ _ H2) as (H3 & _). lia. }
  destruct (Z.eqb_spec t lo) as [->|Hlo'].
  - destruct (Z.leb_spec (s32 (lo + 1)) lo) as [Hw1|Hw1].
    { apply Hnone. destruct (decide (lo = hi)) as [|Hne]; [done|]. rewrite s32_small in Hw1 by lia. lia. }
    destruct (Z.ltb_spec hi (lo + 1)); [apply Hnone; lia|]. rewrite s32_small by lia. destruct (Z.ltb_spec 0 (tmcomp m yourtm)) as [Hd|Hd].
    + apply Hnext; unfold int_range; try lia. intros t1 m1 H1 H2. destruct (Hdir _ _ H2) as (? & ? & ?). lia.
    + apply Hnext; unfold int_range; try lia. intros t1 m1 H1 H2. destruct (Hdir _ _ H2) as (? & ? & ?). lia.
  - destruct (Z.eqb_spec t hi) as [->|Hhi'].
    + rewrite s32_small by lia. destruct (Z.leb_spec hi (hi - 1)); [lia|]. destruct (Z.ltb_spec (hi - 1) lo); [lia|].
      destruct (Z.ltb_spec 0 (tmcomp m yourtm)) as [Hd|Hd]; apply Hnext; unfold int_range; try lia; intros t1 m1 H1 H2; destruct (Hdir _ _ H2) as (? & ? & ?); lia.
    + destruct (Z.ltb_spec hi lo); [lia|].
      destruct (Z.ltb_spec 0 (tmcomp m yourtm)) as [Hd|Hd]; apply Hnext; unfold int_range; try lia; intros t1 m1 H1 H2; destruct (Hdir _ _ H2) as (? & ? & ?); lia.
Qed.

Lemma search_all yourtm : exists r, search_time funcp 40 yourtm INT_MIN INT_MAX = CVal r /\ (forall t m, r = Some (t, m) -> hit_at yourtm t m) /\
  (forall t m, only_hit yourtm t m -> r = Some (t, m)).
Proof.
  destruct (search_time_spec 40 yourtm INT_MIN INT_MAX) as (r & E & H1 & H2); try (unfold int_range, INT_MIN, INT_MAX; lia).
  { vm_compute. discriminate. }
  exists r. split; [done|]. split; [done|]. intros t m H. apply H2; [|done]. destruct H as [(Hr & _) _]. unfold int_range, INT_MIN, INT_MAX in *. lia.
Qed.

(** ** The search for the right type *)

(** The hunts end, and what they find was checked. *)
Definition hunted (yourtm : TM) (r : cres (option Z)) : Prop :=
  exists o, r = CVal o /\ forall t, o = Some t -> exists m, hit_at yourtm t m /\ tm_isdst m = tm_isdst yourtm.

Lemma hunt_other_spec l t ti yourtm : hunted yourtm (hunt_other funcp l t ti yourtm).
Proof.
  induction l as [|tj l IH]; cbn [hunt_other]; [by exists None|]. destruct (_ =? _); [done|].
  destruct (Hfun (s32 (s32 (t + tt_gmtoff tj) - tt_gmtoff ti)) no_tm (s32_range _)) as (m & Em & _). rewrite Em. cbn [mbind cres_bind].
  destruct (Z.eqb_spec (tmcomp m yourtm) 0) as [Hz|Hz]; cbn [negb]; [|done].
  destruct (Z.eqb_spec (tm_isdst m) (tm_isdst yourtm)) as [Hi|Hi]; cbn [negb]; [|done].
  eexists. split; [done|]. intros t' [= <-]. exists m. split; [|done]. split; [apply s32_range|done].
Qed.

Lemma hunt_type_spec l t yourtm : hunted yourtm (hunt_type funcp sp l t yourtm).
Proof.
  induction l as [|ti l IH]; cbn [hunt_type]; [by exists None|]. destruct (negb _); [done|].
  destruct (hunt_other_spec (rev (ttis sp)) t ti yourtm) as (o & -> & Ho). cbn [mbind cres_bind].
  destruct o as [t'|]; [|done]. eexists. split; [done|]. intros ? [= <-]. by apply Ho.
Qed.

(** ** time2sub *)

Lemma save_seconds_spec tm b tm' : normal tm b tm' -> int_fields tm -> exists o, save_seconds tm' = o /\
  (forall your saved, o = Some (your, saved) -> int_fields your /\ tm_time your + saved = wide_time tm /\ tm_isdst your = tm_isdst tm /\ int_range saved) /\
  (0 <= tm_sec tm' < 60 -> o = Some (tm', 0)).
Proof.
  intros [Hd Hh Hm Hs Hy Ht Hi] [I1 I2 I3 I4 I5 I6 I7]. eexists. split; [done|]. unfold save_seconds. change SECSPERMIN with 60.
  assert (int_range (tm_sec tm')) as Hsec by (destruct b; [unfold int_range; lia|by rewrite Hs]).
  assert (int_fields tm') as Hint.
  { destruct Hd as [Hd1 Hd2]. pose proof (month_bounds (IS_LEAP (tm_year tm')) _ Hd1). split; try done; unfold int_range in *; try lia; by rewrite Hi. }
  assert (forall s, 0 <= s < 60 -> int_fields (with_sec tm' s)) as Hws by (intros s Hs'; destruct Hint; split; try done; unfold int_range; cbn; lia).
  assert (forall s, tm_time (with_sec tm' s) = tm_time tm' - tm_sec tm' + s) as Hts by (intros s; unfold tm_time; cbn; lia).
  destruct ((0 <=? tm_sec tm') && (tm_sec tm' <? 60)) eqn:E; zbool.
  { split; [|done]. intros ? ? [= <- <-]. split; [done|]. split; [lia|]. by split. }
  split; [|intros Hr; exfalso; apply andb_false_iff in E as [E|E]; zbool; lia].
  intros your saved Heq. destruct (_ <? EPOCH_YEAR).
  - destruct (increment_overflow (tm_sec tm') (1 - 60)) as [s o] eqn:Ei.
    destruct (long_increment_spec (tm_sec tm') (1 - 60) Hsec ltac:(unfold int_range; lia)) as (n & o' & Ei' & Hr & Ho & _).
    unfold long_increment_overflow in Ei'. unfold increment_overflow in Ei. rewrite Ei in Ei'. injection Ei' as <- <-.
    destruct o; [done|]. specialize (Ho eq_refl). injection Heq as <- <-. split; [apply Hws; lia|]. rewrite Hts. split; [lia|]. by split.
  - injection Heq as <- <-. split; [apply Hws; lia|]. rewrite Hts. split; [lia|]. by split.
Qed.

(** What a search for [tmp] may answer. *)
Definition answer (tmp : TM) (t : Z) (tm : TM) : Prop :=
  int_range t /\ funcp t tmp = CVal (Some tm) /\
  exists t0 m0, int_range t0 /\ funcp t0 no_tm = CVal (Some m0) /\ tm_time m0 + (t - t0) = wide_time tmp /\
    (tm_isdst tmp < 0 \/ tm_isdst m0 = tm_isdst tmp).

Definition answered (tmp : TM) (r : cres (Z * option TM)) : Prop :=
  exists t o, r = CVal (t, o) /\ (o = None -> t = WRONG) /\ (forall tm, o = Some tm -> answer tmp t tm).

Lemma time2sub_spec tmp b : int_fields tmp -> answered tmp (time2sub funcp sp tmp b).
Proof.
  intros Hi. unfold time2sub. assert (answered tmp (CVal (WRONG, None))) as Hwrong by (exists WRONG, None; by split_and!).
  destruct (norm_tm_spec tmp b Hi) as (o & -> & _ & Hn). unfold or_wrong at 1. cbn [mbind cres_bind].
  destruct o as [your|]; [|done]. specialize (Hn _ eq_refl). destruct (save_seconds_spec _ _ _ Hn Hi) as (o & -> & Hs & _).
  unfold or_wrong at 1. cbn [mbind cres_bind]. destruct o as [[your' saved]|]; [|done]. destruct (Hs _ _ eq_refl) as (Hyi & Hyt & Hyd & Hsv).
  destruct (search_all your') as (o & -> & Hsr & _). unfold or_wrong at 1. cbn [mbind cres_bind]. destruct o as [[t m]|]; [|done].
  specialize (Hsr _ _ eq_refl).
  assert (exists o, (if (tm_isdst your' <? 0) || (tm_isdst m =? tm_isdst your') then CVal (Some t) else hunt_type funcp sp (rev (ttis sp)) t your') = CVal o /\
    forall t1, o = Some t1 -> exists m1, hit_at your' t1 m1 /\ (tm_isdst tmp < 0 \/ tm_isdst m1 = tm_isdst tmp)) as (o & -> & Ho).
  { rewrite Hyd. destruct ((tm_isdst tmp <? 0) || (tm_isdst m =? tm_isdst tmp)) eqn:E.
    - exists (Some t). split; [done|]. intros ? [= <-]. exists m. split; [done|]. apply orb_true_iff in E as [E|E]; zbool; auto.
    - destruct (hunt_type_spec (rev (ttis sp)) t your') as (o & -> & Ho). exists o. split; [done|]. intros t1 Ht1.
      destruct (Ho t1 Ht1) as (m1 & H1 & H2). exists m1. rewrite Hyd in H2. auto. }
  unfold or_wrong at 1. cbn [mbind cres_bind]. destruct o as [t0|]; [|done]. destruct (Ho _ eq_refl) as (m0 & (Hr0 & Hf0 & Hc0) & Hd0).
  destruct (long_increment_spec t0 saved Hr0 Hsv) as (t1 & o & Et & Hr1 & Hadd & _). unfold long_increment_overflow in Et. injection Et as E1 E2.
  rewrite E2, E1. destruct o; [done|]. specialize (Hadd eq_refl). destruct (Hfun t1 tmp Hr1) as (tm & Ef & _).
  change (answered tmp (tm ← funcp t1 tmp; CVal (t1, tm))). rewrite Ef. cbn [mbind cres_bind].
  exists t1, (Some tm). split; [done|]. split; [done|]. intros ? [= <-]. split; [done|]. split; [done|]. exists t0, m0. split; [done|]. split; [done|].
  destruct (Hfun t0 no_tm Hr0) as (m0' & Ef0 & Hm0). rewrite Hf0 in Ef0. injection Ef0 as <-.
  pose proof (same_fields_time _ _ (tmcomp_zero _ _ Hm0 Hyi Hc0)). split; [lia|done].
Qed.

Lemma time2_spec tmp : int_fields tmp -> answered tmp (time2 funcp sp tmp).
Proof.
  intros Hi. unfold time2. destruct (time2sub_spec tmp false Hi) as (t & o & E & H1 & H2). rewrite E. cbn [mbind cres_bind snd].
  destruct o as [tm|]; [|by apply time2sub_spec]. exists t, (Some tm). by split_and!.
Qed.

(** ** time1 *)

Context (Htypes : forall i, i ∈ types sp -> 0 <= i < Z.of_nat (length (ttis sp))).
Context (Hoffs : forall x, x ∈ ttis sp -> - 2 ^ 29 <= tt_gmtoff x <= 2 ^ 29).

(** The answer for the fields moved from another type. *)
Definition moved_answer (tmp : TM) (t : Z) (tm : TM) : Prop :=
  exists x y, x ∈ ttis sp /\ y ∈ ttis sp /\ tt_isdst x = tm_isdst tmp /\ tt_isdst y <> tm_isdst tmp /\
    answer (with_dst tmp (tm_sec tmp + (tt_gmtoff y - tt_gmtoff x)) (1 - tm_isdst tmp)) t tm.

Definition tried (tmp : TM) (r : cres (option (Z * TM))) : Prop :=
  exists o, r = CVal o /\ forall t tm, o = Some (t, tm) -> moved_answer tmp t tm.

Lemma aget_type i : 0 <= i < Z.of_nat (length (ttis sp)) -> exists x, aget (ttis sp) i = CVal x /\ x ∈ ttis sp.
Proof.
  intros Hi. destruct (lookup_lt_is_Some_2 (ttis sp) (Z.to_nat i)) as [x Hx]; [lia|]. exists x. split; [by apply aget_val; [lia|]|].
  by eapply list_elem_of_lookup_2.
Qed.

Lemma with_dst_id tm : with_dst tm (tm_sec tm) (tm_isdst tm) = tm.
Proof. by destruct tm. Qed.

Lemma try_others_spec l x tmp : (forall i, i ∈ l -> 0 <= i < Z.of_nat (length (ttis sp))) -> x ∈ ttis sp -> tt_isdst x = tm_isdst tmp ->
  int_fields tmp -> Z.abs (tm_sec tmp) < 2 ^ 30 -> (tm_isdst tmp = 0 \/ tm_isdst tmp = 1) -> tried tmp (try_others funcp sp l x tmp).
Proof.
  intros Hl Hx Hdx Hi Hs Hd. induction l as [|i l IH]; cbn [try_others]; [by exists None|]. specialize (IH (fun j Hj => Hl j (list_elem_of_further _ _ _ Hj))).
  destruct (aget_type i (Hl i (list_elem_of_here _ _))) as (y & -> & Hy). cbn [mbind cres_bind].
  destruct (Z.eqb_spec (tt_isdst y) (tm_isdst tmp)) as [|Hdy]; [done|]. pose proof (Hoffs _ Hx). pose proof (Hoffs _ Hy).
  rewrite (s32_small (tt_gmtoff y - tt_gmtoff x)), (s32_small (tm_sec tmp + _)) by lia.
  assert (b2z (tm_isdst tmp =? 0) = 1 - tm_isdst tmp) as -> by (by destruct Hd as [-> | ->]).
  set (moved := with_dst tmp (tm_sec tmp + (tt_gmtoff y - tt_gmtoff x)) (1 - tm_isdst tmp)).
  destruct (time2_spec moved) as (t & o & -> & _ & Ho).
  { destruct Hi. split; try done; unfold int_range; cbn; lia. }
  cbn [mbind cres_bind]. destruct o as [tm|].
  - eexists. split; [done|]. intros ? ? [= <- <-]. exists x, y. split_and!; try done. by apply Ho.
  - replace (with_dst moved _ _) with tmp; [done|]. cbn [moved with_dst tm_sec tm_isdst]. rewrite s32_small by lia.
    replace (b2z (1 - tm_isdst tmp =? 0)) with (tm_isdst tmp) by (by destruct Hd as [-> | ->]).
    replace (tm_sec tmp + _ - _) with (tm_sec tmp) by lia. by destruct tmp.
Qed.

Lemma try_types_spec l types tmp : (forall i, i ∈ l -> 0 <= i < Z.of_nat (length (ttis sp))) ->
  (forall i, i ∈ types -> 0 <= i < Z.of_nat (length (ttis sp))) -> int_fields tmp -> Z.abs (tm_sec tmp) < 2 ^ 30 ->
  (tm_isdst tmp = 0 \/ tm_isdst tmp = 1) -> tried tmp (try_types funcp sp l types tmp).
Proof.
  intros Hl Ht Hi Hs Hd. induction l as [|i l IH]; cbn [try_types]; [by exists None|]. specialize (IH (fun j Hj => Hl j (list_elem_of_further _ _ _ Hj))).
  destruct (aget_type i (Hl i (list_elem_of_here _ _))) as (x & -> & Hx). cbn [mbind cres_bind].
  destruct (Z.eqb_spec (tt_isdst x) (tm_isdst tmp)) as [Hdx|]; cbn [negb]; [|done].
  destruct (try_others_spec types x tmp Ht Hx Hdx Hi Hs Hd) as (o & -> & Ho). cbn [mbind cres_bind]. destruct o as [[t tm]|]; [|done].
  eexists. split; [done|]. intros ? ? [= <- <-]. by apply Ho.
Qed.

Lemma seen_types_elem l acc i : i ∈ seen_types l acc -> i ∈ l \/ i ∈ acc.
Proof.
  revert acc. induction l as [|j l IH]; intros acc; cbn [seen_types]; [by right|]. case_bool_decide.
  - intros [|]%IH; [left; by right|by right].
  - intros [|[|[->|[]%not_elem_of_nil]%elem_of_cons]%elem_of_app]%IH; [left; by right|by right|left; by left].
Qed.

(** tm_isdst as mktime takes it. *)
Definition dst_of (tmp : TM) : Z := if 1 <? tm_isdst tmp then 1 else tm_isdst tmp.

Lemma time1_spec tmp : int_fields tmp -> Z.abs (tm_sec tmp) < 2 ^ 30 ->
  let tmp' := with_dst tmp (tm_sec tmp) (dst_of tmp) in
  exists t o, time1 funcp sp tmp = CVal (t, o) /\ (o = None -> t = WRONG) /\
  (forall tm, o = Some tm -> answer tmp' t tm \/ (0 <= dst_of tmp /\ moved_answer tmp' t tm)).
Proof.
  intros Hi Hs tmp'. unfold time1. assert ((if 1 <? tm_isdst tmp then with_dst tmp (tm_sec tmp) 1 else tmp) = tmp') as ->.
  { unfold tmp', dst_of. destruct (1 <? tm_isdst tmp); [done|]. by rewrite with_dst_id. }
  assert (int_fields tmp') as Hi'.
  { destruct Hi. split; try done. cbn. unfold dst_of. destruct (1 <? tm_isdst tmp); [unfold int_range; lia|done]. }
  destruct (time2_spec tmp' Hi') as (t & o & -> & H1 & H2). cbn [mbind cres_bind snd]. destruct o as [tm|].
  { exists t, (Some tm). split_and!; try done. intros tm' [= <-]. left. by apply H2. }
  destruct (Z.ltb_spec (tm_isdst tmp') 0) as [Hneg|Hpos].
  { exists t, None. by split_and!; auto. }
  assert (forall i, i ∈ seen_types (rev (types sp)) [] -> 0 <= i < Z.of_nat (length (ttis sp))) as Hse.
  { intros i [Hin|[]%not_elem_of_nil]%seen_types_elem. apply Htypes. by rewrite list_elem_of_In, in_rev, <- list_elem_of_In. }
  assert (tm_isdst tmp' = dst_of tmp) as Hd by done. assert (dst_of tmp = 0 \/ dst_of tmp = 1) as Hd01.
  { rewrite Hd in Hpos. unfold dst_of in *. destruct (Z.ltb_spec 1 (tm_isdst tmp)); lia. }
  destruct (try_types_spec (seen_types (rev (types sp)) []) (seen_types (rev (types sp)) []) tmp') as (o & -> & Ho); try done.
  cbn [mbind cres_bind]. destruct o as [[t' tm]|]; [|exists WRONG, None; by split_and!].
  exists t', (Some tm). split_and!; try done. intros ? [= <-]. right. split; [lia|]. by apply Ho.
Qed.
End Find.

(** ** mktime *)

Lemma is_tm_near t tm : is_tm t tm -> - 2 ^ 33 <= t <= 2 ^ 33 -> -500 <= tm_year tm < 500.
Proof. intros H Ht. apply (is_tm_year t tm (-500) 500 H). change (day_number (-500)) with (-208188). change (day_number 500) with 157054. lia. Qed.

Lemma shows_fields sp t tmp tm ab : zone_ok sp -> int_range t -> shows sp t tmp tm ab -> int_fields tm /\ -500 <= tm_year tm < 500.
Proof.
  intros Hz Ht (i & x & hit & _ & Hx & Htm & Hd & _ & _ & Hh & _). pose proof (corr_at_bound sp (length (lsis sp)) t Hz).
  assert (x ∈ ttis sp) as Hin by (by eapply list_elem_of_lookup_2). pose proof (zo_offsets _ Hz x Hin). pose proof (zo_isdst _ Hz x Hin).
  unfold int_range in *. pose proof (is_tm_near _ _ Htm ltac:(lia)) as Hy. cbn in Hy.
  destruct Htm as ((Hm & Hmd) & (C1 & C2 & C3) & _). cbn in *. pose proof (month_bounds (IS_LEAP (tm_year tm)) (tm_mon tm) Hm).
  split; [|done]. split; unfold int_range; lia.
Qed.

Lemma local_shows sp t tmp : zone_ok sp -> int_range t -> exists tm ab, localtime_of sp t tmp = CVal (Some tm) /\ shows sp t tmp tm ab /\ int_fields tm.
Proof.
  intros Hz Ht. unfold localtime_of, localsub. destruct (zo_repeat _ Hz) as [-> ->].
  destruct (local_in_spec sp t tmp Hz Ht) as (tm & ab & -> & Hs). exists tm, ab. split; [done|]. split; [done|].
  by destruct (shows_fields _ _ _ _ _ Hz Ht Hs).
Qed.

Lemma local_total sp : zone_ok sp -> forall t tmp, int_range t -> exists m, localtime_of sp t tmp = CVal (Some m) /\ int_fields m.
Proof. intros Hz t tmp Ht. destruct (local_shows sp t tmp Hz Ht) as (m & ab & H1 & _ & H2). by exists m. Qed.

(** localtime shows [tm] at t and, some seconds before or after, the local time of the fields
    [tmp], in summer or standard time as they say. *)
Definition shows_request (sp : state) (tmp : TM) (moved isdst t : Z) (tm : TM) : Prop :=
  int_range t /\ (exists ab, shows sp t tmp tm ab) /\
  exists t0 m0 ab0, int_range t0 /\ shows sp t0 no_tm m0 ab0 /\ tm_time m0 + (t - t0) = wide_time tmp + moved /\
    (isdst < 0 \/ tm_isdst m0 = isdst).

Lemma answer_shows sp tmp d isdst t tm : zone_ok sp -> answer (localtime_of sp) (with_dst tmp (tm_sec tmp + d) isdst) t tm ->
  shows_request sp tmp d isdst t tm.
Proof.
  intros Hz (Ht & Hl & t0 & m0 & Ht0 & Hl0 & Hw & Hd). rewrite wide_with_dst in Hw. cbn in Hd. split; [done|].
  destruct (local_shows sp t (with_dst tmp (tm_sec tmp + d) isdst) Hz Ht) as (tm' & ab & El & Hs & _). rewrite Hl in El. injection El as <-.
  destruct (local_shows sp t0 no_tm Hz Ht0) as (m' & ab0 & El & Hs0 & _). rewrite Hl0 in El. injection El as <-.
  split; [by exists ab|]. by exists t0, m0, ab0.
Qed.

(** C33: mktime ends for every zone whose data are in order and all fields of a struct tm (but
    seconds near the ends of an int).  It answers -1, or a time at which localtime shows what
    mktime leaves in the struct tm; that time is as many seconds from one at which localtime
    shows the year, month, day, hour and minute of the fields (carried into their ranges) as
    their seconds say.  There summer time is in force or not as tm_isdst says; or, when no such
    time was found, the fields were moved by the difference of two types of which one is as
    tm_isdst says and the other is not. *)
Theorem mktime_sound sp tmp (Hz : zone_ok sp) (Hi : int_fields tmp) (Hs : Z.abs (tm_sec tmp) < 2 ^ 30) :
  exists t o, mktime sp tmp = CVal (t, o) /\ (o = None -> t = WRONG) /\
  forall tm, o = Some tm -> shows_request sp tmp 0 (dst_of tmp) t tm \/
    exists x y, 0 <= dst_of tmp /\ x ∈ ttis sp /\ y ∈ ttis sp /\ tt_isdst x = dst_of tmp /\ tt_isdst y <> dst_of tmp /\
      shows_request sp tmp (tt_gmtoff y - tt_gmtoff x) (1 - dst_of tmp) t tm.
Proof.
  destruct (time1_spec (localtime_of sp) sp (local_total sp Hz) (zo_range _ Hz) (zo_offsets _ Hz) tmp Hi Hs) as (t & o & E & H1 & H2).
  exists t, o. split; [done|]. split; [done|]. intros tm Ho. destruct (H2 tm Ho) as [Ha|(Hd & x & y & Hx & Hy & Hdx & Hdy & Ha)].
  - left. rewrite <- (Z.add_0_r (tm_sec tmp)) in Ha. by apply answer_shows.
  - right. exists x, y. split_and!; try done. by apply (answer_shows sp tmp _ _ t tm Hz).
Qed.

(** 8:59:59 on 4 July 2007 in New York, as summer time and as standard time. *)
Definition july_4 (isdst : Z) : TM := mkTM 59 59 8 4 6 107 0 0 isdst 0.

Lemma mktime_sound_witness :
  (exists o, mktime new_york (july_4 (-1)) = CVal (1183554000, Some o) /\ shows_request new_york (july_4 (-1)) 0 (-1) 1183554000 o) /\
  mktime new_york (july_4 0) = CVal (1183557600, Some (mkTM 59 59 9 4 6 107 3 184 1 0)).
Proof.
  split; [|vm_compute; reflexivity].
  destruct (mktime_sound new_york (july_4 (-1)) new_york_ok ltac:(by split; unfold int_range; cbn; lia) ltac:(cbn; lia)) as (t & o & E & _ & Ho).
  assert (mktime new_york (july_4 (-1)) = CVal (1183554000, Some (mkTM 59 59 8 4 6 107 3 184 1 0))) as E' by (vm_compute; reflexivity).
  rewrite E' in E. injection E as <- <-. eexists. split; [exact E'|]. destruct (Ho _ eq_refl) as [Hr|(x & y & Hd & _)]; [exact Hr|].
  exfalso. revert Hd. cbn. lia.
Defined.

Lemma in_force_unique sp t i j : in_force sp t i -> in_force sp t j -> i = j.
Proof.
  unfold in_force. destruct (ats sp) as [|a l]; [congruence|]. destruct (t <? a); [congruence|].
  intros (k & x & Hk & Hx & Hn & Hi) (k' & x' & Hk' & Hx' & Hn' & Hj).
  destruct (Nat.lt_trichotomy k k') as [C|[->|C]]; [specialize (Hn _ _ C Hk'); lia|congruence|specialize (Hn' _ _ C Hk); lia].
Qed.

(** A zone without leap seconds shows its local time. *)
Lemma shows_local sp t tmp tm ab : zone_ok sp -> lsis sp = [] -> int_range t -> shows sp t tmp tm ab ->
  exists i x, in_force sp t i /\ ttis sp !! Z.to_nat i = Some x /\ proper tm /\ tm_time tm = t + tt_gmtoff x /\ tm_isdst tm = tt_isdst x.
Proof.
  intros Hz Hl Ht Hs. destruct (shows_fields _ _ _ _ _ Hz Ht Hs) as [_ Hy].
  destruct Hs as (i & x & hit & Hi & Hx & Htm & Hd & _ & _ & Hh & Hlp). rewrite Hl in Htm, Hlp. cbn in Htm.
  assert (hit = 0) as ->. { destruct (decide (0 < hit)) as [C|]; [|lia]. by destruct (Hlp C) as (lp & []%not_elem_of_nil & _). }
  exists i, x. split; [done|]. split; [done|]. destruct Htm as (D & C & T & _). split; [split; [done| |lia]|split; [|done]].
  - unfold valid_clock in *. cbn in C. lia.
  - unfold tm_time in *. cbn in T. lia.
Qed.

Section Inverts.
Context (sp : state) (a b i t : Z).
Context (Hz : zone_ok sp) (Hl : lsis sp = []) (Hab : forall x, x ∈ ttis sp -> a <= tt_gmtoff x <= b) (Ht : int_range t).
Context (Hclear : forall t', int_range t' -> t - (b - a) <= t' <= t + (b - a) -> in_force sp t' i).

(** Away from the changes of the zone, each local time is shown once. *)
Lemma clear_only_hit your tm : localtime_of sp t no_tm = CVal (Some tm) -> proper your -> tm_time your = tm_time tm -> only_hit (localtime_of sp) your t tm.
Proof.
  intros Htm Hp Ey. destruct (local_shows sp t no_tm Hz Ht) as (tm' & ab & El & Hs & _). rewrite Htm in El. injection El as <-.
  destruct (shows_local _ _ _ _ _ Hz Hl Ht Hs) as (i0 & x & Hi & Hx & Hpt & Et & _).
  split; [split; [done|split; [done|apply tmcomp_same, proper_same; done]]|].
  intros t' m' Ht' Hm'. destruct (local_shows sp t' no_tm Hz Ht') as (m2 & ab' & El & Hs' & _). rewrite Hm' in El. injection El as <-.
  destruct (shows_local _ _ _ _ _ Hz Hl Ht' Hs') as (i' & x' & Hi' & Hx' & Hp' & Et' & _).
  assert (x ∈ ttis sp) as H1 by (by eapply list_elem_of_lookup_2). assert (x' ∈ ttis sp) as H2 by (by eapply list_elem_of_lookup_2).
  pose proof (Hab _ H1). pose proof (Hab _ H2).
  assert (t - (b - a) <= t' <= t + (b - a) -> x' = x) as Hsame.
  { intros Hw. pose proof (in_force_unique _ _ _ _ Hi' (Hclear t' Ht' Hw)). pose proof (in_force_unique _ _ _ _ Hi (Hclear t Ht ltac:(lia))). congruence. }
  split; intros C.
  - apply tmcomp_lt; [done..|]. destruct (decide (t - (b - a) <= t')) as [Hw|]; [rewrite (Hsame ltac:(lia)) in *|]; lia.
  - apply tmcomp_gt; [done..|]. destruct (decide (t' <= t + (b - a))) as [Hw|]; [rewrite (Hsame ltac:(lia)) in *|]; lia.
Qed.

Lemma time2_clear tmp tm : localtime_of sp t no_tm = CVal (Some tm) -> small_fields tmp -> int_fields tmp -> 0 <= tm_sec tmp < 60 ->
  wide_time tmp = tm_time tm -> (tm_isdst tmp < 0 \/ tm_isdst tmp = tm_isdst tm) ->
  exists tm', localtime_of sp t tmp = CVal (Some tm') /\ time2 (localtime_of sp) sp tmp = CVal (t, Some tm').
Proof.
  intros Htm Hsm Hi Hsec Hw Hd. destruct (local_total sp Hz t tmp Ht) as (tm' & El & _). exists tm'. split; [done|].
  unfold time2, time2sub. destruct (norm_tm_spec tmp false Hi) as (o & -> & Hsafe & Hn). destruct (Hsafe Hsm) as [your ->].
  specialize (Hn _ eq_refl). pose proof Hn as [Nd Nh Nm Ns Ny Nt Ni]. unfold or_wrong. cbn [mbind cres_bind].
  destruct (save_seconds_spec _ _ _ Hn Hi) as (o & -> & _ & Hs). rewrite (Hs ltac:(lia)). cbn [mbind cres_bind].
  destruct (search_all (localtime_of sp) (local_total sp Hz) your) as (o3 & -> & _ & Hfind).
  destruct (local_shows sp t no_tm Hz Ht) as (tm2 & ab & El2 & Hsh & _). rewrite Htm in El2. injection El2 as <-.
  destruct (shows_local _ _ _ _ _ Hz Hl Ht Hsh) as (i0 & x & _ & _ & [Hp1 (Hp2 & Hp3 & Hp4) Hp5] & Et & _).
  assert (tm_year your = tm_year tm) as Hy.
  { rewrite Hw in Nt. unfold tm_time in Nt. apply (date_unique _ _ _ _ _ _ Nd Hp1). lia. }
  rewrite (Hfind t tm); [|apply clear_only_hit; [done|split; [done|split; [done|split; [done|lia]]|by rewrite Hy]|congruence]].
  cbn [mbind cres_bind].
  assert ((tm_isdst your <? 0) || (tm_isdst tm =? tm_isdst your) = true) as ->.
  { rewrite Ni. apply orb_true_iff. destruct Hd as [Hd|Hd]; [left; by apply Z.ltb_lt|right; by apply Z.eqb_eq]. }
  cbn [mbind cres_bind]. rewrite Z.add_0_r, s32_small, Z.ltb_irrefl by done. cbn [xorb Z.ltb Z.compare].
  change (0 <? 0) with false. cbn [xorb mbind cres_bind]. rewrite El. reflexivity.
Qed.

(** C34: away from the changes of a zone mktime takes localtime back.  The zone has no leap
    seconds, its offsets differ by at most b - a, and one type is in force from b - a seconds
    before the time t until b - a seconds after it.  Then fields that stand for the local time
    that localtime shows at t, the seconds in range and the others carried or not, with a
    negative tm_isdst or the right one, give t, and the struct tm is what localtime shows. *)
Theorem mktime_inverts tmp tm (Htm : localtime_of sp t no_tm = CVal (Some tm)) (Hsm : small_fields tmp) (Hd : int_range (tm_isdst tmp))
  (Hsec : 0 <= tm_sec tmp < 60) (Hw : wide_time tmp = tm_time tm) (Hdst : tm_isdst tmp < 0 \/ dst_of tmp = tm_isdst tm) :
  exists tm', mktime sp tmp = CVal (t, Some tm') /\ localtime_of sp t tmp = CVal (Some tm').
Proof.
  assert (int_fields tmp) as Hi by (destruct Hsm as (? & ? & ? & ? & ? & ?); split; unfold int_range in *; lia).
  set (tmp' := with_dst tmp (tm_sec tmp) (dst_of tmp)).
  assert (int_fields tmp') as Hi' by (destruct Hi; split; try done; cbn; unfold dst_of; destruct (1 <? _); [unfold int_range; lia|done]).
  destruct (time2_clear tmp' tm) as (tm' & El & E); try done.
  { cbn. destruct Hdst as [C|C]; [left; unfold dst_of; by repeat zif|by right]. }
  exists tm'. unfold mktime, time1. assert ((if 1 <? tm_isdst tmp then with_dst tmp (tm_sec tmp) 1 else tmp) = tmp') as ->.
  { unfold tmp', dst_of. destruct (1 <? tm_isdst tmp); [done|]. by rewrite with_dst_id. }
  rewrite E. split; [done|]. exact El.
Qed.
End Inverts.

(** New York in 2007 without leap seconds. *)
Definition no_leaps (sp : state) : state := mkState [] (ats sp) (types sp) (ttis sp) (chars sp) (goback sp) (goahead sp).

Lemma no_leaps_ok sp : zone_ok sp -> zone_ok (no_leaps sp).
Proof. intros []. split; try done; cbn; [lia|]. by intros ? ?%not_elem_of_nil. Qed.

(** 187 days after 1 January 2007, one minute before 9 o'clock: 7 July. *)
Lemma mktime_inverts_witness :
  exists tm', mktime (no_leaps new_york) (mkTM 59 (-1) 9 188 0 107 0 0 (-1) 0) = CVal (1183813199, Some tm') /\ tm' = mkTM 59 59 8 7 6 107 6 187 1 0.
Proof.
  destruct (mktime_inverts (no_leaps new_york) (-18000) (-14400) 1 1183813199) with (tmp := mkTM 59 (-1) 9 188 0 107 0 0 (-1) 0) (tm := mkTM 59 59 8 7 6 107 6 187 1 0)
    as (tm' & E & El).
  - apply no_leaps_ok, new_york_ok.
  - reflexivity.
  - intros x. cbn. rewrite !elem_of_cons. intros [->|[->|[]%not_elem_of_nil]]; cbn; lia.
  - unfold int_range. lia.
  - intros t' _ Hw. unfold in_force. cbn [no_leaps new_york ats types]. rewrite (proj2 (Z.ltb_ge _ _)) by lia.
    exists 0%nat, 1173596400. split; [reflexivity|]. split; [lia|]. split; [|reflexivity].
    intros [|[|j]] x Hj Hx; [lia|injection Hx as <-; lia|done].
  - vm_compute. reflexivity.
  - unfold small_fields. cbn. lia.
  - unfold int_range. cbn. lia.
  - cbn. lia.
  - vm_compute. reflexivity.
  - left. cbn. lia.
  - exists tm'. split; [exact E|]. vm_compute in El. injection El as <-. reflexivity.
Defined.
