(* ===== verification/Base64.v ===== *)
(** * Base64: libc/netbsd/net/base64.c

    The encoder and the decoder over byte arrays; the decoder's target buffer is
    updated in place, bit group by bit group. *)

From Stdlib Require Import ZArith Lia.
From stdpp Require Import base list numbers.
From S2P Require Import Prelude Ctype.

Open Scope Z_scope.
Open Scope cint_scope.

(** ** The code *)

(** A-Z, a-z, 0-9, + and /. *)
Definition Base64 : list Z :=
  [65; 66; 67; 68; 69; 70; 71; 72; 73; 74; 75; 76; 77; 78; 79; 80; 81; 82; 83; 84; 85; 86; 87; 88; 89; 90;
   97; 98; 99; 100; 101; 102; 103; 104; 105; 106; 107; 108; 109; 110; 111; 112; 113; 114; 115; 116; 117;
   118; 119; 120; 121; 122; 48; 49; 50; 51; 52; 53; 54; 55; 56; 57; 43; 47].
Definition Pad64 : Z := 61.

(** output[0] to output[3] of a group of three input bytes. *)
Definition output0 (i0 : Z) : Z := Z.shiftr i0 2.
Definition output1 (i0 i1 : Z) : Z := u8 (Z.shiftl (i0 .& 0x03) 4 + Z.shiftr i1 4).
Definition output2 (i1 i2 : Z) : Z := u8 (Z.shiftl (i1 .& 0x0f) 2 + Z.shiftr i2 6).
Definition output3 (i2 : Z) : Z := i2 .& 0x3f.

(** Store four characters from datalength on. *)
Definition store4 (target : list Z) (datalength c0 c1 c2 c3 : Z) : cres (list Z) :=
  target ← aset target datalength c0;
  target ← aset target (datalength + 1) c1;
  target ← aset target (datalength + 2) c2;
  aset target (datalength + 3) c3.

(** What b64_ntop does with the last zero, one or two bytes. *)
Definition ntop_rest (src target : list Z) (datalength targsize : Z) : cres (Z * list Z) :=
  let finish (target : list Z) (datalength : Z) :=
    if targsize <=? datalength then CVal (-1, target)
    else target ← aset target datalength 0; CVal (datalength, target) in
  match src with
  | [] => finish target datalength
  | _ =>
      let input := src ++ repeat 0 (3 - length src) in
      i0 ← aget input 0; i1 ← aget input 1; i2 ← aget input 2;
      if targsize <? datalength + 4 then CVal (-1, target)
      else
        c0 ← aget Base64 (output0 i0);
        c1 ← aget Base64 (output1 i0 i1);
        c2 ← (if Z.of_nat (length src) =? 1 then CVal Pad64 else aget Base64 (output2 i1 i2));
        target ← store4 target datalength c0 c1 c2 Pad64;
        finish target (datalength + 4)
  end.

(** while (2 < srclength): [src] is what is left of the input. *)
Fixpoint ntop_loop (src target : list Z) (datalength targsize : Z) : cres (Z * list Z) :=
  match src with
  | i0 :: i1 :: i2 :: src' =>
      if targsize <? datalength + 4 then CVal (-1, target)
      else
        c0 ← aget Base64 (output0 i0);
        c1 ← aget Base64 (output1 i0 i1);
        c2 ← aget Base64 (output2 i1 i2);
        c3 ← aget Base64 (output3 i2);
        target ← store4 target datalength c0 c1 c2 c3;
        ntop_loop src' target (datalength + 4) targsize
  | _ => ntop_rest src target datalength targsize
  end.

(** The return value and the target array. *)
Definition b64_ntop (src target : list Z) (targsize : Z) : cres (Z * list Z) :=
  ntop_loop src target 0 targsize.

(** strchr(Base64, ch) - Base64. *)
Fixpoint index_from (ch i : Z) (l : list Z) : option Z :=
  match l with [] => None | c :: l' => if c =? ch then Some i else index_from ch (i + 1) l' end.
Definition b64_pos (ch : Z) : option Z := index_from ch 0 Base64.

(** for (; ch != 0; ch = *src++) if (!isspace(ch)) break: the text from the
    character that stops the loop; [[]] is the end of the string. *)
Fixpoint skip_space (src : list Z) : list Z :=
  match src with [] => [] | ch :: src' => if truthy (isspace ch) then skip_space src' else src end.

(** The checks after a pad character; [src] is the text behind it. *)
Definition pton_pad (src : list Z) (state tarindex : Z) (target : list Z) : cres (Z * list Z) :=
  let single (src : list Z) :=
    match skip_space src with
    | _ :: _ => CVal (-1, target)
    | [] => t ← aget target tarindex; CVal (if truthy t then -1 else tarindex, target)
    end in
  if (state =? 0) || (state =? 1) then CVal (-1, target)
  else if state =? 2 then
    match skip_space src with
    | ch :: src' => if ch =? Pad64 then single src' else CVal (-1, target)
    | [] => CVal (-1, target)
    end
  else single src.

(** The loop over the characters before the NUL. *)
Fixpoint pton_loop (src : list Z) (state tarindex : Z) (target : list Z) (targsize : Z) : cres (Z * list Z) :=
  match src with
  | [] => CVal (if truthy state then -1 else tarindex, target)
  | ch :: src' =>
      if truthy (isspace ch) then pton_loop src' state tarindex target targsize
      else if ch =? Pad64 then pton_pad src' state tarindex target
      else
        match b64_pos ch with
        | None => CVal (-1, target)
        | Some pos =>
            if state =? 0 then
              if targsize <=? tarindex then CVal (-1, target)
              else
                target ← aset target tarindex (u8 (Z.shiftl pos 2));
                pton_loop src' 1 tarindex target targsize
            else if state =? 1 then
              if targsize <=? tarindex + 1 then CVal (-1, target)
              else
                t ← aget target tarindex;
                target ← aset target tarindex (u8 (t .| Z.shiftr pos 4));
                target ← aset target (tarindex + 1) (u8 (Z.shiftl (pos .& 0x0f) 4));
                pton_loop src' 2 (tarindex + 1) target targsize
            else if state =? 2 then
              if targsize <=? tarindex + 1 then CVal (-1, target)
              else
                t ← aget target tarindex;
                target ← aset target tarindex (u8 (t .| Z.shiftr pos 2));
                target ← aset target (tarindex + 1) (u8 (Z.shiftl (pos .& 0x03) 6));
                pton_loop src' 3 (tarindex + 1) target targsize
            else
              if targsize <=? tarindex then CVal (-1, target)
              else
                t ← aget target tarindex;
                target ← aset target tarindex (u8 (t .| pos));
                pton_loop src' 0 (tarindex + 1) target targsize
        end
  end.

Definition b64_pton (src target : list Z) (targsize : Z) : cres (Z * list Z) :=
  pton_loop src 0 0 target targsize.

(** ** Specification: RFC 1521 *)

Definition is_byte (b : Z) : Prop := 0 <= b < 256.

(** The character of a 6-bit digit. *)
Definition b64_char (d : Z) : Z := nth (Z.to_nat d) Base64 0.

(** The four digits of a 24-bit group. *)
Definition digit (n i : Z) : Z := n / 64 ^ (3 - i) mod 64.

Fixpoint b64_spec (data : list Z) : list Z :=
  match data with
  | a :: b :: c :: rest =>
      let n := (a * 256 + b) * 256 + c in
      b64_char (digit n 0) :: b64_char (digit n 1) :: b64_char (digit n 2) :: b64_char (digit n 3) :: b64_spec rest
  | [a; b] =>
      let n := (a * 256 + b) * 256 in [b64_char (digit n 0); b64_char (digit n 1); b64_char (digit n 2); Pad64]
  | [a] => let n := a * 256 * 256 in [b64_char (digit n 0); b64_char (digit n 1); Pad64; Pad64]
  | [] => []
  end.

(** ** Arrays *)

(** The same one place further. *)
Lemma aset_app1 {A} (pre post : list A) x y a :
  aset (pre ++ x :: y :: post) (Z.of_nat (length pre) + 1) a = CVal (pre ++ x :: a :: post).
Proof.
  pose proof (aset_app (pre ++ [x]) post y a) as H. rewrite length_app in H. cbn [length] in H.
  rewrite <- !app_assoc in H. cbn [app] in H. rewrite Nat2Z.inj_add in H. exact H.
Qed.

Lemma store4_app pre post x0 x1 x2 x3 c0 c1 c2 c3 :
  store4 (pre ++ x0 :: x1 :: x2 :: x3 :: post) (Z.of_nat (length pre)) c0 c1 c2 c3
  = CVal (pre ++ c0 :: c1 :: c2 :: c3 :: post).
Proof.
  unfold store4. rewrite aset_app. cbn [mbind cres_bind].
  rewrite aset_app1. cbn [mbind cres_bind].
  pose proof (aset_app (pre ++ [c0; c1]) (x3 :: post) x2 c2) as H.
  pose proof (aset_app (pre ++ [c0; c1; c2]) post x3 c3) as H'.
  rewrite length_app in H, H'. cbn [length] in H, H'. rewrite <- !app_assoc in H, H'. cbn [app] in H, H'.
  rewrite Nat2Z.inj_add in H, H'. change (Z.of_nat 2) with 2 in H. change (Z.of_nat 3) with 3 in H'.
  rewrite H. cbn [mbind cres_bind]. exact H'.
Qed.

Lemma aget_Base64 d : 0 <= d < 64 -> aget Base64 d = CVal (b64_char d).
Proof.
  intros H. apply aget_val; [lia|]. unfold b64_char.
  destruct (lookup_lt_is_Some_2 Base64 (Z.to_nat d)) as [x E]; [change (length Base64) with 64%nat; lia|].
  rewrite nth_lookup, E. done.
Qed.

(** ** Bits *)

Lemma land_mod x n : 0 <= n -> x .& Z.ones n = x mod 2 ^ n.
Proof. intros H. by apply Z.land_ones. Qed.

(** Or-ing low bits into a multiple. *)
Lemma lor_mul_add x y n : 0 <= n -> 0 <= y < 2 ^ n -> (x * 2 ^ n) .| y = x * 2 ^ n + y.
Proof.
  intros Hn Hy. apply lor_add. apply Z.bits_inj'. intros i Hi. rewrite Z.land_spec, Z.bits_0.
  destruct (Z.lt_ge_cases i n).
  - rewrite Z.mul_pow2_bits_low by lia. done.
  - rewrite andb_comm. replace (Z.testbit y i) with false; [done|]. symmetry.
    destruct (decide (y = 0)) as [->|]; [apply Z.bits_0|].
    apply Z.bits_above_log2; [lia|]. apply Z.log2_lt_pow2; [lia|].
    apply Z.lt_le_trans with (2 ^ n); [lia|]. apply Z.pow_le_mono_r; lia.
Qed.

(** Cutting a number after its low digits. *)
Lemma div_digits k d r : 0 <= r < k -> (d * k + r) / k = d.
Proof. intros H. rewrite Z.div_add_l, Z.div_small by lia. lia. Qed.

Lemma digits4 a1 a0 b1 b0 c1 c0 :
  0 <= a1 < 64 -> 0 <= a0 < 4 -> 0 <= b1 < 16 -> 0 <= b0 < 16 -> 0 <= c1 < 4 -> 0 <= c0 < 64 ->
  let n := ((a1 * 4 + a0) * 256 + (b1 * 16 + b0)) * 256 + (c1 * 64 + c0) in
  digit n 0 = a1 /\ digit n 1 = a0 * 16 + b1 /\ digit n 2 = b0 * 4 + c1 /\ digit n 3 = c0.
Proof.
  intros H1 H2 H3 H4 H5 H6 n. unfold digit.
  change (64 ^ (3 - 0)) with 262144. change (64 ^ (3 - 1)) with 4096. change (64 ^ (3 - 2)) with 64.
  change (64 ^ (3 - 3)) with 1. rewrite Z.div_1_r.
  replace (n / 262144) with a1
    by (symmetry; replace n with (a1 * 262144 + (n - a1 * 262144)) by lia; apply div_digits; lia).
  replace (n / 4096) with (a1 * 64 + (a0 * 16 + b1))
    by (symmetry; replace n with ((a1 * 64 + (a0 * 16 + b1)) * 4096 + (b0 * 256 + c1 * 64 + c0)) by lia;
        apply div_digits; lia).
  replace (n / 64) with ((a1 * 64 + (a0 * 16 + b1)) * 64 + (b0 * 4 + c1))
    by (symmetry; replace n with (((a1 * 64 + (a0 * 16 + b1)) * 64 + (b0 * 4 + c1)) * 64 + c0) by lia;
        apply div_digits; lia).
  replace n with (((a1 * 64 + (a0 * 16 + b1)) * 64 + (b0 * 4 + c1)) * 64 + c0) by lia.
  repeat split; zdm.
Qed.

Lemma outputs_spec a b c :
  is_byte a -> is_byte b -> is_byte c ->
  let n := (a * 256 + b) * 256 + c in
  output0 a = digit n 0 /\ output1 a b = digit n 1 /\ output2 b c = digit n 2 /\ output3 c = digit n 3.
Proof.
  intros Ha Hb Hc n. unfold is_byte in *. unfold output0, output1, output2, output3.
  change 0x03 with (Z.ones 2). change 0x0f with (Z.ones 4). change 0x3f with (Z.ones 6).
  rewrite !land_mod, !Z.shiftr_div_pow2, !Z.shiftl_mul_pow2 by lia.
  change (2 ^ 2) with 4. change (2 ^ 4) with 16. change (2 ^ 6) with 64.
  destruct (digits4 (a / 4) (a mod 4) (b / 16) (b mod 16) (c / 64) (c mod 64)) as (D0 & D1 & D2 & D3); [zdm..|].
  replace (a / 4 * 4 + a mod 4) with a in * by zdm. replace (b / 16 * 16 + b mod 16) with b in * by zdm.
  replace (c / 64 * 64 + c mod 64) with c in * by zdm. subst n. change (Z.ones 2) with 3. rewrite D0, D1, D2, D3.
  rewrite !u8_small by zdm. done.
Qed.

Lemma digit_range n i : 0 <= digit n i < 64.
Proof. apply Z.mod_pos_bound. lia. Qed.

(** ** Encoding *)

Lemma list_ind3 {A} (P : list A -> Prop) :
  P [] -> (forall a, P [a]) -> (forall a b, P [a; b]) -> (forall a b c l, P l -> P (a :: b :: c :: l)) ->
  forall l, P l.
Proof.
  intros H0 H1 H2 H3. fix IH 1. intros [|a [|b [|c l]]]; [done|apply H1|apply H2|apply H3, IH].
Qed.

Lemma length_b64_spec data : Z.of_nat (length (b64_spec data)) = 4 * ((Z.of_nat (length data) + 2) / 3).
Proof.
  induction data as [|a|a b|a b c l IH] using list_ind3; [done|done|done|].
  cbn [b64_spec length]. rewrite !Nat2Z.inj_succ, IH. zdm.
Qed.

(** Four places of the target. *)
Lemma four_places {A} (l : list A) : 4 <= Z.of_nat (length l) -> exists a b c d l', l = a :: b :: c :: d :: l'.
Proof. intros H. destruct l as [|a [|b [|c [|d l']]]]; cbn in H; try lia. eauto 6. Qed.

Definition ntop_ok (src pre post : list Z) (targsize : Z) (r : cres (Z * list Z)) : Prop :=
  (Z.of_nat (length pre + length (b64_spec src)) < targsize ->
   r = CVal (Z.of_nat (length pre + length (b64_spec src)),
             pre ++ b64_spec src ++ 0 :: drop (S (length (b64_spec src))) post)) /\
  (targsize <= Z.of_nat (length pre + length (b64_spec src)) ->
   exists t, r = CVal (-1, t) /\ length t = length (pre ++ post)).

Lemma ntop_rest_spec src pre post targsize :
  (length src <= 2)%nat -> Forall is_byte src -> targsize <= Z.of_nat (length (pre ++ post)) ->
  ntop_ok src pre post targsize (ntop_rest src (pre ++ post) (Z.of_nat (length pre)) targsize).
Proof.
  intros Hl Hb Ht. unfold ntop_ok, ntop_rest. rewrite length_app in Ht.
  destruct src as [|a src].
  { cbn [b64_spec length]. rewrite Nat.add_0_r. bcase; (split; [|try lia]); try lia.
    - eauto.
    - intros _. destruct post as [|x post]; [cbn in Ht; lia|]. rewrite aset_app. done. }
  assert (exists b, is_byte b /\ (src = [] /\ b = 0 \/ src = [b])) as (b & Bb & Hs).
  { destruct src as [|b [|]]; [exists 0; split; [split; lia|auto]| |cbn in Hl; lia].
    exists b. inversion Hb as [|? ? ? Hb']; subst. inversion Hb'; subst. auto. }
  assert (is_byte a) as Ba by (inversion Hb; done).
  destruct (outputs_spec a b 0 Ba Bb ltac:(split; lia)) as (O0 & O1 & O2 & _). rewrite Z.add_0_r in *.
  assert (aget ((a :: src) ++ repeat 0 (3 - length (a :: src))) 0 = CVal a /\
          aget ((a :: src) ++ repeat 0 (3 - length (a :: src))) 1 = CVal b /\
          aget ((a :: src) ++ repeat 0 (3 - length (a :: src))) 2 = CVal 0) as (-> & -> & ->).
  { destruct Hs as [(-> & ->) | ->]; done. }
  cbn [mbind cres_bind].
  assert (length (b64_spec (a :: src)) = 4%nat) as E4 by (destruct Hs as [(-> & ->) | ->]; done).
  rewrite E4. destruct (Z.ltb_spec targsize (Z.of_nat (length pre) + 4)); [split; [lia|eauto]|].
  rewrite O0, O1, O2, !aget_Base64 by apply digit_range. cbn [mbind cres_bind].
  destruct (four_places post) as (x0 & x1 & x2 & x3 & post' & ->); [lia|].
  assert (exists c2, (if Z.of_nat (length (a :: src)) =? 1 then CVal Pad64
            else CVal (b64_char (digit ((a * 256 + b) * 256) 2))) = CVal c2 /\
          b64_spec (a :: src) = [b64_char (digit ((a * 256 + b) * 256) 0);
                                 b64_char (digit ((a * 256 + b) * 256) 1); c2; Pad64]) as (c2 & -> & ->).
  { destruct Hs as [(-> & ->) | ->]; cbn [length b64_spec]; eexists; (split; [reflexivity|]); [|done].
    rewrite Z.add_0_r. done. }
  cbn [mbind cres_bind]. rewrite store4_app. cbn [mbind cres_bind length app drop].
  set (c0 := b64_char (digit _ 0)). set (c1 := b64_char (digit _ 1)).
  bcase; (split; [|try lia]); try lia.
  - exists (pre ++ c0 :: c1 :: c2 :: Pad64 :: post'). rewrite !length_app. done.
  - intros _. cbn [length] in Ht. destruct post' as [|x4 post']; [cbn in Ht; lia|].
    pose proof (aset_app (pre ++ [c0; c1; c2; Pad64]) post' x4 0) as H'.
    rewrite <- !app_assoc, length_app, Nat2Z.inj_add in H'. cbn [app length] in H'. change (Z.of_nat 4) with 4 in H'.
    rewrite H'. cbn [mbind cres_bind drop]. do 2 f_equal. lia.
Qed.

Lemma ntop_loop_spec src pre post targsize :
  Forall is_byte src -> targsize <= Z.of_nat (length (pre ++ post)) ->
  ntop_ok src pre post targsize (ntop_loop src (pre ++ post) (Z.of_nat (length pre)) targsize).
Proof.
  revert pre post. induction src as [|a|a b|a b c l IH] using list_ind3; intros pre post Hb Ht.
  1-3: apply ntop_rest_spec; cbn; [lia|done..].
  inversion Hb as [|? ? Ba Hb1]; inversion Hb1 as [|? ? Bb Hb2]; inversion Hb2 as [|? ? Bc Hl]; subst.
  cbn [ntop_loop]. destruct (outputs_spec a b c Ba Bb Bc) as (-> & -> & -> & ->).
  rewrite !aget_Base64 by apply digit_range. cbn [mbind cres_bind].
  set (c0 := b64_char (digit _ 0)). set (c1 := b64_char (digit _ 1)). set (c2 := b64_char (digit _ 2)).
  set (c3 := b64_char (digit _ 3)). rewrite length_app in Ht.
  destruct (Z.ltb_spec targsize (Z.of_nat (length pre) + 4)).
  { split; [cbn [b64_spec length]; lia|eauto]. }
  destruct (four_places post) as (x0 & x1 & x2 & x3 & post' & ->); [lia|]. rewrite store4_app.
  cbn [mbind cres_bind]. specialize (IH (pre ++ [c0; c1; c2; c3]) post' Hl).
  rewrite <- !app_assoc, !length_app in IH. cbn [length app] in IH, Ht.
  replace (Z.of_nat (length pre) + 4) with (Z.of_nat (length pre + 4)) by lia.
  destruct IH as (IH1 & IH2); [lia|]. rewrite !length_app in IH1, IH2. cbn [length] in IH1, IH2.
  split; cbn [b64_spec length]; intros H'.
  - rewrite IH1 by lia. f_equal. f_equal; [lia|]. rewrite <- !app_assoc. done.
  - destruct IH2 as (t & -> & Hlen); [lia|]. exists t. split; [done|]. rewrite Hlen. rewrite !length_app. cbn [length]. lia.
Qed.

(** ** Decoding *)

Lemma list_ind4 {A} (P : list A -> Prop) :
  P [] -> (forall a, P [a]) -> (forall a b, P [a; b]) -> (forall a b c, P [a; b; c]) ->
  (forall a b c d l, P l -> P (a :: b :: c :: d :: l)) -> forall l, P l.
Proof.
  intros H0 H1 H2 H3 H4. fix IH 1.
  intros [|a [|b [|c [|d l]]]]; [done|apply H1|apply H2|apply H3|apply H4, IH].
Qed.

(** The characters that are not white space. *)
Fixpoint nonspace (s : list Z) : list Z :=
  match s with [] => [] | c :: s' => if truthy (isspace c) then nonspace s' else c :: nonspace s' end.

(** A decoder of whole groups without white space. *)
Fixpoint b64_decode (w : list Z) : option (list Z) :=
  match w with
  | [] => Some []
  | a :: b :: c :: d :: r =>
      x ← b64_pos a; y ← b64_pos b;
      if c =? Pad64 then
        if (d =? Pad64) && (y mod 16 =? 0) && bool_decide (r = []) then Some [x * 4 + y / 16] else None
      else
        z ← b64_pos c;
        if d =? Pad64 then
          if (z mod 4 =? 0) && bool_decide (r = []) then Some [x * 4 + y / 16; y mod 16 * 16 + z / 4] else None
        else
          u ← b64_pos d; rest ← b64_decode r;
          Some (x * 4 + y / 16 :: y mod 16 * 16 + z / 4 :: z mod 4 * 64 + u :: rest)
  | _ => None
  end.

Lemma index_from_range ch i l x :
  index_from ch i l = Some x -> i <= x < i + Z.of_nat (length l) /\ nth (Z.to_nat (x - i)) l 0 = ch.
Proof.
  revert i. induction l as [|c l IH]; intros i H; [done|]. cbn [index_from length] in *.
  destruct (Z.eqb_spec c ch) as [->|].
  - simplify_eq. replace (x - x) with 0 by lia. split; [lia|done].
  - destruct (IH _ H) as (B & N). split; [lia|].
    replace (Z.to_nat (x - i)) with (S (Z.to_nat (x - (i + 1)))) by lia. done.
Qed.

Lemma b64_pos_some ch x : b64_pos ch = Some x -> 0 <= x < 64 /\ b64_char x = ch.
Proof.
  intros H. apply index_from_range in H as (B & N). rewrite Z.sub_0_r in N. split; [exact B|exact N].
Qed.

Definition pos_char_ok (x : Z) : bool :=
  match b64_pos (b64_char x) with Some y => y =? x | None => false end &&
  negb (b64_char x =? Pad64) && negb (truthy (isspace (b64_char x))).

Lemma pos_char_check : all_from pos_char_ok (Z.to_nat 64) 0 = true.
Proof. vm_compute. reflexivity. Qed.

Lemma b64_pos_char x :
  0 <= x < 64 -> b64_pos (b64_char x) = Some x /\ (b64_char x =? Pad64) = false /\ truthy (isspace (b64_char x)) = false.
Proof.
  intros H. pose proof (range_check _ _ _ pos_char_check x ltac:(lia)) as C. unfold pos_char_ok in C.
  rewrite !andb_true_iff, !negb_true_iff in C. destruct C as ((C1 & C2) & C3).
  destruct (b64_pos (b64_char x)); [|done]. apply Z.eqb_eq in C1. by subst.
Qed.

(** White space anywhere is skipped. *)
Lemma skip_space_cases s :
  (skip_space s = [] /\ nonspace s = []) \/
  exists ch s', skip_space s = ch :: s' /\ nonspace s = ch :: nonspace s'.
Proof.
  induction s as [|c s IH]; [by left|]. cbn. destruct (truthy (isspace c)); [done|]. right. eauto.
Qed.

Lemma skip_space_nonspace s : skip_space (nonspace s) = nonspace s.
Proof.
  induction s as [|c s IH]; [done|]. cbn. destruct (truthy (isspace c)) eqn:E; [done|]. cbn. by rewrite E.
Qed.

Lemma nonspace_idemp s : nonspace (nonspace s) = nonspace s.
Proof.
  induction s as [|c s IH]; [done|]. cbn. destruct (truthy (isspace c)) eqn:E; [done|]. cbn. by rewrite E, IH.
Qed.

Lemma pton_pad_nonspace s state k target : pton_pad s state k target = pton_pad (nonspace s) state k target.
Proof.
  unfold pton_pad. cbv zeta. rewrite skip_space_nonspace.
  destruct (skip_space_cases s) as [(-> & ->) | (ch & s' & -> & ->)]; [done|].
  rewrite skip_space_nonspace. destruct (skip_space_cases s') as [(-> & ->) | (ch' & s'' & -> & ->)]; done.
Qed.

Lemma pton_loop_nonspace s state k target size :
  pton_loop s state k target size = pton_loop (nonspace s) state k target size.
Proof.
  revert state k target. induction s as [|c s IH]; intros state k target; [done|].
  cbn [nonspace]. destruct (truthy (isspace c)) eqn:E; [cbn [pton_loop]; rewrite E; apply IH|]. cbn [pton_loop]. rewrite E.
  destruct (c =? Pad64); [apply pton_pad_nonspace|]. destruct (b64_pos c); [|done].
  repeat (match goal with
    | |- context [if ?b then _ else _] => destruct b
    | |- context [aget ?a ?b] => destruct (aget a b)
    | |- context [aset ?a ?b ?c] => destruct (aset a b c)
    end; cbn [mbind cres_bind]; try done); apply IH.
Qed.

(** The decoder of groups inverts the specification, and accepts nothing else. *)
Lemma b64_decode_spec d : Forall is_byte d -> b64_decode (b64_spec d) = Some d.
Proof.
  assert (forall n i, b64_pos (b64_char (digit n i)) = Some (digit n i) /\ (b64_char (digit n i) =? Pad64) = false) as P.
  { intros n i. destruct (b64_pos_char (digit n i) (digit_range n i)) as (-> & -> & _). done. }
  assert (forall a b c, is_byte a -> is_byte b -> is_byte c ->
    let n := (a * 256 + b) * 256 + c in
    digit n 0 * 4 + digit n 1 / 16 = a /\ digit n 1 mod 16 * 16 + digit n 2 / 4 = b /\
    digit n 2 mod 4 * 64 + digit n 3 = c /\ (digit n 1 mod 16 = b / 16) /\ (digit n 2 mod 4 = c / 64)) as R.
  { intros a b c Ha Hb Hc n. unfold is_byte in *.
    destruct (digits4 (a / 4) (a mod 4) (b / 16) (b mod 16) (c / 64) (c mod 64)) as (D0 & D1 & D2 & D3); [zdm..|].
    replace (a / 4 * 4 + a mod 4) with a in * by zdm. replace (b / 16 * 16 + b mod 16) with b in * by zdm.
    replace (c / 64 * 64 + c mod 64) with c in * by zdm. subst n. rewrite D0, D1, D2, D3. zdm. }
  induction d as [|a|a b|a b c l IH] using list_ind3; intros H; [done|..].
  - inversion_clear H. cbn [b64_spec b64_decode].
    destruct (R a 0 0) as (R1 & _ & _ & R2 & _); [done|split; lia..|]. rewrite Z.add_0_r in *.
    rewrite Z.add_0_r in *. rewrite !(proj1 (P _ _)). cbn [mbind option_bind]. rewrite !Z.eqb_refl.
    rewrite R2, R1. done.
  - inversion_clear H as [|? ? Ha Hb]. inversion_clear Hb. cbn [b64_spec b64_decode].
    destruct (R a b 0) as (R1 & R2 & _ & _ & R3); [done|done|split; lia|]. rewrite Z.add_0_r in *.
    rewrite !(proj1 (P _ _)), !(proj2 (P _ _)). cbn [mbind option_bind]. rewrite !Z.eqb_refl, R3, R1, R2. done.
  - inversion_clear H as [|? ? Ha Hb]. inversion_clear Hb as [|? ? Hb' Hc]. inversion_clear Hc. cbn [b64_spec b64_decode].
    destruct (R a b c) as (R1 & R2 & R3 & _); [done..|].
    rewrite !(proj1 (P _ _)), !(proj2 (P _ _)). cbn [mbind option_bind]. rewrite IH by done. cbn [mbind option_bind].
    rewrite R1, R2, R3. done.
Qed.

Lemma b64_decode_sound w d : b64_decode w = Some d -> w = b64_spec d /\ Forall is_byte d.
Proof.
  revert d. induction w as [|a|a b|a b c|a b c e r IH] using list_ind4; intros d H; cbn [b64_decode] in H; try done.
  { simplify_eq. split; [done|constructor]. }
  destruct (b64_pos a) as [x|] eqn:Ea; [|done]. destruct (b64_pos b) as [y|] eqn:Eb; [|done].
  cbn [mbind option_bind] in H. apply b64_pos_some in Ea as (Hx & <-), Eb as (Hy & <-).
  destruct (Z.eqb_spec c Pad64) as [->|].
  { destruct (Z.eqb_spec e Pad64) as [->|]; [|done]. destruct (Z.eqb_spec (y mod 16) 0); [|done].
    case_bool_decide; [|done]. cbn in H. simplify_eq. split; [|repeat constructor; zdm].
    cbn [b64_spec]. destruct (digits4 x (y / 16) 0 0 0 0) as (D0 & D1 & _); [zdm..|].
    replace ((x * 4 + y / 16) * 256 * 256) with (((x * 4 + y / 16) * 256 + (0 * 16 + 0)) * 256 + (0 * 64 + 0)) by lia.
    rewrite D0, D1. replace (y / 16 * 16 + 0) with y by zdm. done. }
  destruct (b64_pos c) as [z|] eqn:Ec; [|done]. apply b64_pos_some in Ec as (Hz & <-). cbn [mbind option_bind] in H.
  destruct (Z.eqb_spec e Pad64) as [->|].
  { destruct (Z.eqb_spec (z mod 4) 0); [|done].
    case_bool_decide; [|done]. cbn in H. simplify_eq. split; [|repeat constructor; zdm].
    cbn [b64_spec]. destruct (digits4 x (y / 16) (y mod 16) (z / 4) 0 0) as (D0 & D1 & D2 & _); [zdm..|].
    replace (((x * 4 + y / 16) * 256 + (y mod 16 * 16 + z / 4)) * 256)
      with (((x * 4 + y / 16) * 256 + (y mod 16 * 16 + z / 4)) * 256 + (0 * 64 + 0)) by lia.
    rewrite D0, D1, D2. replace (y / 16 * 16 + y mod 16) with y by zdm. replace (z / 4 * 4 + 0) with z by zdm. done. }
  destruct (b64_pos e) as [u|] eqn:Ee; [|done]. apply b64_pos_some in Ee as (Hu & <-). cbn [mbind option_bind] in H.
  destruct (b64_decode r) as [rest|]; [|done]. cbn in H. simplify_eq. destruct (IH rest eq_refl) as (-> & Hr).
  split; [|repeat constructor; [zdm..|done]].
  cbn [b64_spec]. destruct (digits4 x (y / 16) (y mod 16) (z / 4) (z mod 4) u) as (D0 & D1 & D2 & D3); [zdm..|].
  rewrite D0, D1, D2, D3. replace (y / 16 * 16 + y mod 16) with y by zdm. replace (z / 4 * 4 + z mod 4) with z by zdm.
  done.
Qed.

(** One digit of the decoder, in each state. *)
Section Steps.
Variables (ch pos size : Z) (w pre post : list Z).
Hypotheses (Hns : truthy (isspace ch) = false) (Hpos : b64_pos ch = Some pos).

Let Hpad : (ch =? Pad64) = false.
Proof. destruct (b64_pos_some _ _ Hpos) as (H & <-). by apply b64_pos_char. Qed.

Let Hrange : 0 <= pos < 64.
Proof. exact (proj1 (b64_pos_some _ _ Hpos)). Qed.

Lemma pton_step0 v :
  Z.of_nat (length pre) < size ->
  pton_loop (ch :: w) 0 (Z.of_nat (length pre)) (pre ++ v :: post) size
  = pton_loop w 1 (Z.of_nat (length pre)) (pre ++ pos * 4 :: post) size.
Proof.
  intros H. cbn [pton_loop]. rewrite Hns, Hpad, Hpos. cbn [Z.eqb Pos.eqb]. zif. rewrite aset_app. cbn [mbind cres_bind].
  rewrite Z.shiftl_mul_pow2, u8_small by lia. done.
Qed.

Lemma pton_step1 x v :
  0 <= x < 64 -> Z.of_nat (length pre) + 1 < size ->
  pton_loop (ch :: w) 1 (Z.of_nat (length pre)) (pre ++ x * 4 :: v :: post) size
  = pton_loop w 2 (Z.of_nat (length (pre ++ [x * 4 + pos / 16]))) ((pre ++ [x * 4 + pos / 16]) ++ pos mod 16 * 16 :: post) size.
Proof.
  intros Hx H. cbn [pton_loop]. rewrite Hns, Hpad, Hpos. cbn [Z.eqb Pos.eqb]. zif. rewrite aget_app. cbn [mbind cres_bind].
  rewrite aset_app. cbn [mbind cres_bind]. rewrite aset_app1. cbn [mbind cres_bind].
  change (pos .& 0x0f) with (pos .& Z.ones 4). rewrite land_mod, Z.shiftr_div_pow2, Z.shiftl_mul_pow2 by lia.
  change (2 ^ 4) with 16. pose proof (lor_mul_add x (pos / 16) 2 ltac:(lia) ltac:(zdm)) as E. change (2 ^ 2) with 4 in E.
  rewrite E, !u8_small by zdm. rewrite length_app, <- app_assoc, Nat2Z.inj_add. done.
Qed.

Lemma pton_step2 x v :
  0 <= x < 16 -> Z.of_nat (length pre) + 1 < size ->
  pton_loop (ch :: w) 2 (Z.of_nat (length pre)) (pre ++ x * 16 :: v :: post) size
  = pton_loop w 3 (Z.of_nat (length (pre ++ [x * 16 + pos / 4]))) ((pre ++ [x * 16 + pos / 4]) ++ pos mod 4 * 64 :: post) size.
Proof.
  intros Hx H. cbn [pton_loop]. rewrite Hns, Hpad, Hpos. cbn [Z.eqb Pos.eqb]. zif. rewrite aget_app. cbn [mbind cres_bind].
  rewrite aset_app. cbn [mbind cres_bind]. rewrite aset_app1. cbn [mbind cres_bind].
  change (pos .& 0x03) with (pos .& Z.ones 2). rewrite land_mod, Z.shiftr_div_pow2, Z.shiftl_mul_pow2 by lia.
  change (2 ^ 2) with 4. change (2 ^ 6) with 64.
  pose proof (lor_mul_add x (pos / 4) 4 ltac:(lia) ltac:(zdm)) as E. change (2 ^ 4) with 16 in E.
  rewrite E, !u8_small by zdm. rewrite length_app, <- app_assoc, Nat2Z.inj_add. done.
Qed.

Lemma pton_step3 x :
  0 <= x < 4 -> Z.of_nat (length pre) < size ->
  pton_loop (ch :: w) 3 (Z.of_nat (length pre)) (pre ++ x * 64 :: post) size
  = pton_loop w 0 (Z.of_nat (length (pre ++ [x * 64 + pos]))) ((pre ++ [x * 64 + pos]) ++ post) size.
Proof.
  intros Hx H. cbn [pton_loop]. rewrite Hns, Hpad, Hpos. cbn [Z.eqb Pos.eqb]. zif. rewrite aget_app. cbn [mbind cres_bind].
  rewrite aset_app. cbn [mbind cres_bind].
  pose proof (lor_mul_add x pos 6 ltac:(lia) ltac:(lia)) as E. change (2 ^ 6) with 64 in E.
  rewrite E, !u8_small by lia. rewrite length_app, <- app_assoc, Nat2Z.inj_add. done.
Qed.

(** The target is too small for the digit. *)
Lemma pton_full state target k :
  0 <= state <= 3 -> size <= k + (if (state =? 1) || (state =? 2) then 1 else 0) ->
  pton_loop (ch :: w) state k target size = CVal (-1, target).
Proof.
  intros Hs H. cbn [pton_loop]. rewrite Hns, Hpad, Hpos.
  destruct (Z.eqb_spec state 1), (Z.eqb_spec state 2), (Z.eqb_spec state 0); cbn in H; by zif.
Qed.
End Steps.

(** A character that is no digit, and a pad in the first half of a group. *)
Lemma pton_bad ch w state k target size :
  truthy (isspace ch) = false -> b64_pos ch = None -> ch <> Pad64 \/ state = 0 \/ state = 1 ->
  pton_loop (ch :: w) state k target size = CVal (-1, target).
Proof.
  intros Hns Hp H. cbn [pton_loop]. rewrite Hns, Hp. destruct (Z.eqb_spec ch Pad64); [|done].
  unfold pton_pad. destruct H as [|[-> | ->]]; done.
Qed.

(** The bytes of target that decoding writes: the data, and the byte it starts
    before it sees that there are no more. *)
Definition b64_room (d : list Z) : Z :=
  Z.of_nat (length d) + (if Z.of_nat (length d) mod 3 =? 0 then 0 else 1).

Definition pton_ok (w pre post : list Z) (size : Z) (r : cres (Z * list Z)) : Prop :=
  exists n t, r = CVal (n, t) /\ length t = length (pre ++ post) /\
    match b64_decode w with
    | Some d => if Z.of_nat (length pre) + b64_room d <=? size
                then n = Z.of_nat (length pre + length d) /\ take (length pre + length d) t = pre ++ d
                else n = -1
    | None => n = -1
    end.

Lemma pton_pad_end state pre v post :
  state = 2 \/ state = 3 ->
  pton_pad (if state =? 2 then [Pad64] else []) state (Z.of_nat (length pre)) (pre ++ v :: post)
  = CVal (if v =? 0 then Z.of_nat (length pre) else -1, pre ++ v :: post).
Proof.
  intros [-> | ->]; unfold pton_pad; cbn [Z.eqb orb skip_space]; change (truthy (isspace Pad64)) with false;
    cbn [Z.eqb]; cbv iota; try rewrite Z.eqb_refl; cbn [skip_space]; rewrite aget_app; cbn [mbind cres_bind];
    unfold truthy; destruct (v =? 0); done.
Qed.

Lemma pton_pad_more state k target w :
  Forall (fun c => truthy (isspace c) = false) w -> state = 2 \/ state = 3 ->
  w <> (if state =? 2 then [Pad64] else []) -> pton_pad w state k target = CVal (-1, target).
Proof.
  intros Hw [-> | ->] H; unfold pton_pad; cbn [Z.eqb orb] in *.
  - destruct w as [|c w]; [done|]. inversion_clear Hw as [|? ? Hc Hw']. cbn [skip_space]. rewrite Hc.
    destruct (Z.eqb_spec c Pad64) as [->|]; [|done]. destruct w as [|c' w]; [done|].
    inversion_clear Hw' as [|? ? Hc' _]. cbn [skip_space]. by rewrite Hc'.
  - destruct w as [|c w]; [done|]. inversion_clear Hw as [|? ? Hc _]. cbn [skip_space]. by rewrite Hc.
Qed.

(** The end of a group, from its third character on. *)
Lemma pton_fail_ok w pre post size target :
  b64_decode w = None \/ (exists d, b64_decode w = Some d /\ size < Z.of_nat (length pre) + b64_room d) ->
  length target = length (pre ++ post) -> pton_ok w pre post size (CVal (-1, target)).
Proof.
  intros H L. exists (-1), target. split; [done|]. split; [done|].
  destruct H as [-> | (d & -> & H)]; [done|]. by zif.
Qed.

Lemma room_cons3 a b c d : b64_room (a :: b :: c :: d) = 3 + b64_room d.
Proof.
  unfold b64_room. cbn [length]. replace (Z.of_nat (S (S (S (length d))))) with (Z.of_nat (length d) + 1 * 3) by lia.
  rewrite Z.mod_add by lia. lia.
Qed.

Lemma room_nonneg d : 0 <= b64_room d.
Proof. unfold b64_room. bcase; lia. Qed.

(** Three bytes are more than the start of any group decodes to. *)
Lemma decode_room a b c d r dd :
  b64_decode (a :: b :: c :: d :: r) = Some dd ->
  2 <= b64_room dd /\ (c <> Pad64 -> 3 <= b64_room dd).
Proof.
  cbn [b64_decode]. destruct (b64_pos a) as [x|]; [|done]. destruct (b64_pos b) as [y|]; [|done]. cbn [mbind option_bind].
  destruct (Z.eqb_spec c Pad64).
  { destruct ((d =? Pad64) && (y mod 16 =? 0) && bool_decide (r = [])); [|done].
    intros H. simplify_eq. split; [vm_compute; discriminate|done]. }
  destruct (b64_pos c) as [z|]; [|done]. cbn [mbind option_bind]. destruct (Z.eqb_spec d Pad64).
  { destruct ((z mod 4 =? 0) && bool_decide (r = [])); [|done]. intros H. simplify_eq.
    split; [|intros _]; vm_compute; discriminate. }
  destruct (b64_pos d); [|done]. cbn [mbind option_bind]. destruct (b64_decode r) as [rest|]; [|done]. cbn.
  intros H. simplify_eq. rewrite room_cons3. pose proof (room_nonneg rest). lia.
Qed.

Lemma pton_loop_short w pre post size :
  (0 < length w < 4)%nat -> Forall (fun c => truthy (isspace c) = false) w ->
  size <= Z.of_nat (length (pre ++ post)) ->
  exists t, pton_loop w 0 (Z.of_nat (length pre)) (pre ++ post) size = CVal (-1, t) /\ length t = length (pre ++ post).
Proof.
  intros Hl Hw Hs. rewrite length_app in Hs.
  destruct w as [|a w]; [cbn in Hl; lia|]. inversion_clear Hw as [|? ? Ha Hw'].
  destruct (b64_pos a) as [x|] eqn:Ea; [|rewrite pton_bad by auto; eauto].
  destruct (Z.lt_ge_cases (Z.of_nat (length pre)) size) as [S1|S1];
    [|rewrite (pton_full a x) by (done || cbn; lia); eauto].
  destruct post as [|v0 post]; [cbn in Hs; lia|]. rewrite (pton_step0 a x) by done.
  destruct w as [|b w]; [cbn; eexists; split; [done|]; rewrite !length_app; done|].
  inversion_clear Hw' as [|? ? Hb Hw].
  destruct (b64_pos b) as [y|] eqn:Eb; [|rewrite pton_bad by auto; eexists; split; [done|]; rewrite !length_app; done].
  destruct (Z.lt_ge_cases (Z.of_nat (length pre) + 1) size) as [S2|S2];
    [|rewrite (pton_full b y) by (done || cbn; lia); eexists; split; [done|]; rewrite !length_app; done].
  destruct post as [|v1 post]; [cbn in Hs; lia|]. cbn [length] in Hs.
  pose proof (b64_pos_some _ _ Ea) as (Hx & _). rewrite (pton_step1 b y) by done.
  destruct w as [|c w]; [cbn; eexists; split; [done|]; rewrite !length_app; cbn; lia|].
  destruct w as [|? ?]; [|cbn in Hl; lia]. inversion_clear Hw as [|? ? Hc _].
  destruct (b64_pos c) as [z|] eqn:Ec.
  - destruct (Z.lt_ge_cases (Z.of_nat (length pre) + 2) size) as [S3|S3];
      [|rewrite (pton_full c z) by (done || rewrite length_app; cbn; lia); eexists; split; [done|]; rewrite !length_app; cbn; lia].
    destruct post as [|v2 post]; [cbn in Hs; lia|].
    pose proof (b64_pos_some _ _ Eb) as (Hy & _). rewrite (pton_step2 c z) by (done || zdm || (rewrite length_app; cbn; lia)).
    cbn. eexists; split; [done|]; rewrite !length_app; cbn; lia.
  - destruct (Z.eqb_spec c Pad64) as [->|].
    + cbn [pton_loop]. rewrite Hc, Z.eqb_refl. rewrite pton_pad_more; [|constructor|auto|done].
      eexists; split; [done|]; rewrite !length_app; cbn; lia.
    + rewrite pton_bad by auto. eexists; split; [done|]; rewrite !length_app; cbn; lia.
Qed.

(** The second half of a group; [pre] ends with the first byte. *)
Lemma pton_loop_half a b x y c d r pre v post size :
  Forall (fun c => truthy (isspace c) = false) (c :: d :: r) ->
  b64_pos a = Some x -> b64_pos b = Some y -> 
  Z.of_nat (length pre) + 2 <= size <= Z.of_nat (length pre + 2 + length post) ->
  (forall post', Z.of_nat (length pre) + 3 <= size -> S (length post') = length post ->
     forall p, length p = (length pre + 3)%nat -> pton_ok r p post' size (pton_loop r 0 (Z.of_nat (length p)) (p ++ post') size)) ->
  pton_ok (a :: b :: c :: d :: r) pre (v :: y mod 16 * 16 :: post) size
    (pton_loop (c :: d :: r) 2 (Z.of_nat (length (pre ++ [x * 4 + y / 16])))
       ((pre ++ [x * 4 + y / 16]) ++ y mod 16 * 16 :: post) size).
Proof.
  intros Hw Ea Eb Hs IH. inversion_clear Hw as [|? ? Hc Hw']. inversion_clear Hw' as [|? ? Hd Hr].
  set (p0 := x * 4 + y / 16) in *. pose proof (b64_pos_some _ _ Eb) as (Hy & _).
  assert (forall q, length ((pre ++ [p0]) ++ q :: post) = length (pre ++ v :: y mod 16 * 16 :: post)) as L1.
  { intros q. rewrite !length_app. cbn. lia. }
  destruct (Z.eqb_spec c Pad64) as [->|Hcp].
  { cbn [pton_loop]. rewrite Hc, Z.eqb_refl. destruct (decide (d :: r = [Pad64])) as [E|E].
    - simplify_eq. pose proof (pton_pad_end 2 (pre ++ [p0]) (y mod 16 * 16) post ltac:(auto)) as P. cbn [Z.eqb Pos.eqb] in P.
      rewrite P. eexists _, _. split; [reflexivity|]. split; [apply L1|].
      cbn [b64_decode]. rewrite Ea, Eb. cbn [mbind option_bind]. rewrite !Z.eqb_refl. cbn [andb].
      destruct (Z.eqb_spec (y mod 16) 0) as [->|]; cbn [andb bool_decide]; [|zif; done].
      rewrite bool_decide_true by done. change (b64_room [x * 4 + y / 16]) with 2. zif.
      change (0 * 16 =? 0) with true. cbv iota. rewrite length_app. split; [done|].
      change (length [x * 4 + y / 16]) with (length [p0]). rewrite <- length_app. apply take_app_length.
    - rewrite pton_pad_more; [|by constructor|auto|done]. apply pton_fail_ok; [|apply L1]. left.
      cbn [b64_decode]. rewrite Ea, Eb. cbn [mbind option_bind]. rewrite Z.eqb_refl.
      destruct (Z.eqb_spec d Pad64) as [->|]; [|done]. rewrite bool_decide_false by congruence. by rewrite andb_false_r. }
  destruct (b64_pos c) as [z|] eqn:Ec.
  2:{ rewrite pton_bad by auto. apply pton_fail_ok; [|apply L1]. left. cbn [b64_decode]. rewrite Ea, Eb, Ec.
      cbn [mbind option_bind]. by zif. }
  destruct (Z.lt_ge_cases (Z.of_nat (length pre) + 2) size) as [S3|S3].
  2:{ rewrite (pton_full c z) by (done || rewrite length_app; cbn; lia). apply pton_fail_ok; [|apply L1].
      destruct (b64_decode (a :: b :: c :: d :: r)) as [dd|] eqn:E; [|by left]. right. exists dd. split; [done|].
      apply decode_room in E as (_ & E). specialize (E Hcp). lia. }
  destruct post as [|v2 post]; [cbn in Hs; lia|]. pose proof (b64_pos_some _ _ Ec) as (Hz & _).
  rewrite (pton_step2 c z) by (done || zdm || (rewrite length_app; cbn; lia)).
  set (p1 := y mod 16 * 16 + z / 4).
  assert (forall q, length (((pre ++ [p0]) ++ [p1]) ++ q :: post) = length (pre ++ v :: y mod 16 * 16 :: v2 :: post)) as L2.
  { intros q. rewrite !length_app. cbn. lia. }
  destruct (Z.eqb_spec d Pad64) as [->|Hdp].
  { cbn [pton_loop]. rewrite Hd, Z.eqb_refl. destruct (decide (r = [])) as [->|E].
    - pose proof (pton_pad_end 3 ((pre ++ [p0]) ++ [p1]) (z mod 4 * 64) post ltac:(auto)) as P. cbn [Z.eqb Pos.eqb] in P.
      rewrite P. eexists _, _. split; [reflexivity|]. split; [apply L2|].
      cbn [b64_decode]. rewrite Ea, Eb, Ec. cbn [mbind option_bind]. rewrite !Z.eqb_refl. zif. cbn [andb].
      destruct (Z.eqb_spec (z mod 4) 0) as [->|]; cbn [andb bool_decide]; [|zif; done].
      rewrite bool_decide_true by done. change (b64_room [x * 4 + y / 16; y mod 16 * 16 + z / 4]) with 3. zif.
      change (0 * 64 =? 0) with true. cbv iota. rewrite !length_app. cbn [length]. split; [lia|].
      fold p0 p1. replace (length pre + 2)%nat with (length ((pre ++ [p0]) ++ [p1])) by (rewrite !length_app; cbn; lia).
      rewrite take_app_length, <- app_assoc. done.
    - rewrite pton_pad_more; [|done|auto|done]. apply pton_fail_ok; [|apply L2]. left.
      cbn [b64_decode]. rewrite Ea, Eb, Ec. cbn [mbind option_bind]. rewrite Z.eqb_refl. zif.
      rewrite bool_decide_false by congruence. by rewrite andb_false_r. }
  destruct (b64_pos d) as [u|] eqn:Ed.
  2:{ rewrite pton_bad by auto. apply pton_fail_ok; [|apply L2]. left. cbn [b64_decode]. rewrite Ea, Eb, Ec, Ed.
      cbn [mbind option_bind]. by do 2 zif. }
  rewrite (pton_step3 d u) by (done || zdm || (rewrite !length_app; cbn; lia)).
  set (p2 := z mod 4 * 64 + u). destruct (IH post ltac:(lia) ltac:(done) (((pre ++ [p0]) ++ [p1]) ++ [p2])) as (n & t & -> & Lt & Hn).
  { rewrite !length_app. cbn. lia. }
  exists n, t. split; [done|]. split; [rewrite Lt, !length_app; cbn; lia|].
  cbn [b64_decode]. rewrite Ea, Eb, Ec, Ed. cbn [mbind option_bind]. do 2 zif.
  destruct (b64_decode r) as [rest|]; cbn [mbind option_bind]; [|done]. rewrite room_cons3.
  rewrite !length_app in Hn. cbn [length] in *.
  replace (Z.of_nat (length pre + 1 + 1 + 1) + b64_room rest) with (Z.of_nat (length pre) + (3 + b64_room rest)) in Hn by lia.
  destruct (_ <=? size); [|done]. destruct Hn as (-> & Ht). split; [lia|].
  replace (length pre + S (S (S (length rest))))%nat with (length pre + 1 + 1 + 1 + length rest)%nat by lia.
  rewrite Ht, <- !app_assoc. done.
Qed.

Lemma pton_loop_spec w pre post size :
  Forall (fun c => truthy (isspace c) = false) w -> Z.of_nat (length pre) <= size <= Z.of_nat (length pre + length post) ->
  pton_ok w pre post size (pton_loop w 0 (Z.of_nat (length pre)) (pre ++ post) size).
Proof.
  revert pre post. induction w as [|a|a b|a b c|a b c d r IH] using list_ind4; intros pre post Hw Hs.
  { exists (Z.of_nat (length pre)), (pre ++ post). split; [done|]. split; [done|]. cbn.
    rewrite Nat.add_0_r, Z.add_0_r, app_nil_r, take_app_length. by zif. }
  1-3: edestruct pton_loop_short as (t & -> & L); [|exact Hw| |]; [cbn; lia|rewrite length_app; lia|];
    apply pton_fail_ok; [by left|done].
  inversion_clear Hw as [|? ? Ha Hw']. inversion_clear Hw' as [|? ? Hb Hcd].
  assert (forall t, length t = length (pre ++ post) ->
    b64_decode (a :: b :: c :: d :: r) = None \/ size < Z.of_nat (length pre) + 2 ->
    pton_ok (a :: b :: c :: d :: r) pre post size (CVal (-1, t))) as Fail.
  { intros t L H. apply pton_fail_ok; [|done].
    destruct (b64_decode (a :: b :: c :: d :: r)) as [dd|] eqn:E; [|by left]. destruct H as [|H]; [done|]. right.
    exists dd. apply decode_room in E as (E & _). split; [done|lia]. }
  destruct (b64_pos a) as [x|] eqn:Ea; [|rewrite pton_bad by auto; apply Fail; [done|left; cbn [b64_decode]; by rewrite Ea]].
  destruct (Z.lt_ge_cases (Z.of_nat (length pre)) size) as [S1|S1];
    [|rewrite (pton_full a x) by (done || cbn; lia); apply Fail; [done|right; lia]].
  destruct post as [|v0 post]; [cbn in Hs; lia|]. rewrite (pton_step0 a x) by done. cbn [length] in Hs.
  destruct (b64_pos b) as [y|] eqn:Eb;
    [|rewrite pton_bad by auto; apply Fail; [by rewrite !length_app|left; cbn [b64_decode]; by rewrite Ea, Eb]].
  destruct (Z.lt_ge_cases (Z.of_nat (length pre) + 1) size) as [S2|S2];
    [|rewrite (pton_full b y) by (done || cbn; lia); apply Fail; [by rewrite !length_app|right; lia]].
  destruct post as [|v1 post]; [cbn in Hs; lia|]. cbn [length] in Hs.
  pose proof (b64_pos_some _ _ Ea) as (Hx & _). rewrite (pton_step1 b y) by done.
  destruct (pton_loop_half a b x y c d r pre v0 post size Hcd Ea Eb) as (n & t & -> & L & H).
  - lia.
  - intros post' H3 L p Hp. apply IH; [by inversion_clear Hcd as [|? ? ? Hd]; inversion_clear Hd|]. lia.
  - exists n, t. split; [done|]. split; [rewrite L, !length_app; done|done].
Qed.

(** ** The functions *)

Ltac bytes := repeat (apply Forall_cons_2; [unfold is_byte; lia|]); apply Forall_nil_2.

(** b64_ntop writes the RFC 1521 encoding of the bytes and a NUL behind it
    and returns the length of the encoding, four characters for every group of
    three bytes; when the encoding and the NUL do not fit in targsize it returns
    -1.  It never accesses the target beyond targsize. *)
Theorem b64_ntop_encodes (data target : list Z) (targsize : Z)
  (Hd : Forall is_byte data) (Ht : targsize <= Z.of_nat (length target)) :
  let len := 4 * ((Z.of_nat (length data) + 2) / 3) in
  (len < targsize ->
   b64_ntop data target targsize = CVal (len, b64_spec data ++ 0 :: drop (S (Z.to_nat len)) target)) /\
  (targsize <= len -> exists t, b64_ntop data target targsize = CVal (-1, t) /\ length t = length target).
Proof.
  intros len. unfold b64_ntop. destruct (ntop_loop_spec data [] target targsize Hd Ht) as (H1 & H2).
  change (Z.of_nat (length (@nil Z))) with 0 in *. cbn [length app Nat.add] in *.
  assert (Z.of_nat (length (b64_spec data)) = len) as E by apply length_b64_spec. rewrite E in *.
  replace (length (b64_spec data)) with (Z.to_nat len) in H1 by lia. split; done.
Qed.

Lemma b64_ntop_encodes_witness :
  b64_ntop [77; 97; 110; 33] (repeat 7 9) 9 = CVal (8, [84; 87; 70; 117; 73; 81; 61; 61; 0]).
Proof. apply (b64_ntop_encodes [77; 97; 110; 33] (repeat 7 9) 9); [bytes|vm_compute; discriminate|vm_compute; reflexivity]. Defined.

(** C38: b64_pton accepts exactly the RFC 1521 encodings, with white space
    anywhere: a result other than -1 means that the text without its white space
    is the encoding of the bytes stored, down to the unused bits of the last
    digit, and the encoding of any data is decoded when the target has room, one
    byte more than the data when its length is not a multiple of three. *)
Theorem b64_pton_decodes (src target : list Z) (targsize : Z)
  (Ht : 0 <= targsize <= Z.of_nat (length target)) :
  exists n t, b64_pton src target targsize = CVal (n, t) /\ length t = length target /\
    (n <> -1 -> nonspace src = b64_spec (take (Z.to_nat n) t)) /\
    (forall data, Forall is_byte data -> nonspace src = b64_spec data ->
       if b64_room data <=? targsize then n = Z.of_nat (length data) /\ take (length data) t = data else n = -1).
Proof.
  unfold b64_pton. rewrite pton_loop_nonspace.
  assert (Forall (fun c => truthy (isspace c) = false) (nonspace src)) as Hw.
  { clear. induction src as [|c s IH]; cbn [nonspace]; [constructor|].
    destruct (truthy (isspace c)) eqn:E; [done|by constructor]. }
  destruct (pton_loop_spec (nonspace src) [] target targsize Hw) as (n & t & E & L & H); [cbn [length Nat.add]; lia|].
  cbn [app length Nat.add] in *. change (Z.of_nat 0) with 0 in *. exists n, t. rewrite E. split; [done|]. split; [done|].
  split.
  - intros Hn. destruct (b64_decode (nonspace src)) as [d|] eqn:Ed; [|done].
    destruct (0 + b64_room d <=? targsize); [|done]. destruct H as (-> & Hd). rewrite Nat2Z.id, Hd.
    exact (proj1 (b64_decode_sound _ _ Ed)).
  - intros data Hb Es. rewrite Es, (b64_decode_spec data Hb) in H. rewrite Z.add_0_l in H. exact H.
Qed.

Lemma b64_pton_decodes_witness :
  exists t, b64_pton [32; 84; 87; 70; 10; 117; 73; 81; 61; 32; 61] (repeat 7 5) 5 = CVal (4, t) /\ take 4 t = [77; 97; 110; 33].
Proof.
  destruct (b64_pton_decodes [32; 84; 87; 70; 10; 117; 73; 81; 61; 32; 61] (repeat 7 5) 5) as (n & t & E & _ & _ & H).
  - cbn; lia.
  - specialize (H [77; 97; 110; 33] ltac:(bytes) eq_refl). change (b64_room [77; 97; 110; 33] <=? 5) with true in H. destruct H as (Hn & Ht). change (Z.of_nat (length [77; 97; 110; 33])) with 4 in Hn. subst n.
    exists t. done.
Defined.
