(* ===== verification/Sort.v ===== *)
(** * Sorting and searching: qsort and bsearch of libc/stdlib

    An array is a list of elements of [es] bytes and a pointer into it an index;
    a call on a part of the array is a call on the slice.  The differences of
    pointers that the code keeps in an int are in bytes and wrap to 32 bits.  The
    comparison function is a parameter. *)

From Stdlib Require Import ZArith Lia Sorting.Sorted.
From stdpp Require Import base list numbers sorting.
From S2P Require Import Prelude.

Open Scope Z_scope.

Section Code.
Context {A : Type} (cmp : A -> A -> Z) (es : Z).

(** ** qsort.c *)

(** swap(a, b) exchanges the es bytes of two elements, in units of long or char
    as swaptype says. *)
Definition swap (l : list A) (i j : Z) : cres (list A) :=
  x ← aget l i; y ← aget l j; l ← aset l i y; aset l j x.

(** vecswap(a, b, n): swapfunc exchanges n bytes, [n / es] elements, from the
    front. *)
Fixpoint swapfunc (l : list A) (i j : Z) (n : nat) : cres (list A) :=
  match n with O => CVal l | S n' => l ← swap l i j; swapfunc l (i + 1) (j + 1) n' end.
Definition vecswap (l : list A) (i j n : Z) : cres (list A) :=
  if 0 <? n then swapfunc l i j (Z.to_nat (n / es)) else CVal l.

Definition med3 (l : list A) (a b c : Z) : cres Z :=
  x ← aget l a; y ← aget l b; z ← aget l c;
  CVal (if cmp x y <? 0 then (if cmp y z <? 0 then b else if cmp x z <? 0 then c else a)
        else (if 0 <? cmp y z then b else if cmp x z <? 0 then a else c)).

(** for (pl = pm; pl > a && cmp(pl - es, pl) > 0; pl -= es) swap(pl, pl - es) *)
Fixpoint sink (l : list A) (pl : nat) : cres (list A) :=
  match pl with
  | O => CVal l
  | S pl' =>
      x ← aget l (Z.of_nat pl'); y ← aget l (Z.of_nat pl);
      if 0 <? cmp x y then l ← swap l (Z.of_nat pl) (Z.of_nat pl'); sink l pl' else CVal l
  end.

(** for (pm = a + es; pm < a + n * es; pm += es), [k] elements before the end. *)
Fixpoint insertion (l : list A) (pm : nat) (k : nat) : cres (list A) :=
  match k with O => CVal l | S k' => l ← sink l pm; insertion l (S pm) k' end.

Definition insertion_sort (l : list A) : cres (list A) := insertion l 1 (length l - 1).

(** while (pb <= pc && (r = cmp(pb, a)) <= 0): the array, pa, pb and swap_cnt. *)
Fixpoint scan_up (fuel : nat) (l : list A) (pa pb pc : Z) (swap_cnt : bool) : cres (list A * Z * Z * bool) :=
  match fuel with
  | O => CFuel
  | S f =>
      if pb <=? pc then
        x ← aget l pb; v ← aget l 0;
        let r := cmp x v in
        if r <=? 0 then
          if r =? 0 then l ← swap l pa pb; scan_up f l (pa + 1) (pb + 1) pc true
          else scan_up f l pa (pb + 1) pc swap_cnt
        else CVal (l, pa, pb, swap_cnt)
      else CVal (l, pa, pb, swap_cnt)
  end.

(** while (pb <= pc && (r = cmp(pc, a)) >= 0): the array, pc, pd and swap_cnt. *)
Fixpoint scan_down (fuel : nat) (l : list A) (pb pc pd : Z) (swap_cnt : bool) : cres (list A * Z * Z * bool) :=
  match fuel with
  | O => CFuel
  | S f =>
      if pb <=? pc then
        x ← aget l pc; v ← aget l 0;
        let r := cmp x v in
        if 0 <=? r then
          if r =? 0 then l ← swap l pc pd; scan_down f l pb (pc - 1) (pd - 1) true
          else scan_down f l pb (pc - 1) pd swap_cnt
        else CVal (l, pc, pd, swap_cnt)
      else CVal (l, pc, pd, swap_cnt)
  end.

(** for (;;) of the partition: the array, pa, pb, pc, pd and swap_cnt. *)
Fixpoint partition (fuel : nat) (l : list A) (pa pb pc pd : Z) (swap_cnt : bool)
    : cres (list A * (Z * Z * Z * Z) * bool) :=
  match fuel with
  | O => CFuel
  | S f =>
      '(l, pa, pb, swap_cnt) ← scan_up (S (length l)) l pa pb pc swap_cnt;
      '(l, pc, pd, swap_cnt) ← scan_down (S (length l)) l pb pc pd swap_cnt;
      if pc <? pb then CVal (l, (pa, pb, pc, pd), swap_cnt)
      else l ← swap l pb pc; partition f l pa (pb + 1) (pc - 1) pd true
  end.

(** The index of the pivot. *)
Definition pivot (l : list A) (n : Z) : cres Z :=
  let pm := n / 2 in
  if 7 <? n then
    let pl := 0 in
    let pn := n - 1 in
    '(pl, pm, pn) ←
      (if 40 <? n then
         let d := s32 (n / 8 * es) / es in
         pl ← med3 l pl (pl + d) (pl + 2 * d);
         pm ← med3 l (pm - d) pm (pm + d);
         pn ← med3 l (pn - 2 * d) (pn - d) pn;
         CVal (pl, pm, pn)
       else CVal (pl, pm, pn));
    med3 l pl pm pn
  else CVal pm.

Fixpoint qsort_fuel (fuel : nat) (l : list A) : cres (list A) :=
  match fuel with
  | O => CFuel
  | S f =>
      let n := Z.of_nat (length l) in
      if n <? 7 then insertion_sort l
      else
        pm ← pivot l n;
        l ← swap l 0 pm;
        '(l, (pa, pb, pc, pd), swap_cnt) ← partition (S (length l)) l 1 1 (n - 1) (n - 1) false;
        if negb swap_cnt then insertion_sort l
        else
          let pn := n in
          l ← (let r := s32 (Z.min pa (pb - pa) * es) in vecswap l 0 (pb - r / es) r);
          l ← (let r := s32 (Z.min ((pd - pc) * es) ((pn - pd) * es - s32 es)) in vecswap l pb (pn - r / es) r);
          l ← (let r := s32 ((pb - pa) * es) in
               if s32 es <? r then
                 s ← qsort_fuel f (take (Z.to_nat (r / es)) l); CVal (s ++ drop (Z.to_nat (r / es)) l)
               else CVal l);
          let r := s32 ((pd - pc) * es) in
          if s32 es <? r then
            s ← qsort_fuel f (drop (Z.to_nat (pn - r / es)) l); CVal (take (Z.to_nat (pn - r / es)) l ++ s)
          else CVal l
  end.

(** Each call is on fewer elements. *)
Definition qsort (l : list A) : cres (list A) := qsort_fuel (S (length l)) l.
End Code.

(** ** bsearch.c *)

(** The comparison of the key with an element; the index of the element found. *)
Fixpoint bsearch_loop {A} (compar : A -> Z) (fuel : nat) (l : list A) (base lim : Z) : cres (option Z) :=
  match fuel with
  | O => CFuel
  | S f =>
      if lim =? 0 then CVal None
      else
        let p := base + Z.shiftr lim 1 in
        x ← aget l p;
        let cmp := compar x in
        if cmp =? 0 then CVal (Some p)
        else if 0 <? cmp then bsearch_loop compar f l (p + 1) (Z.shiftr (lim - 1) 1)
        else bsearch_loop compar f l base (Z.shiftr lim 1)
  end.

Definition bsearch {A} (compar : A -> Z) (l : list A) : cres (option Z) :=
  bsearch_loop compar (S (length l)) l 0 (s32 (Z.of_nat (length l))).

(** ** What the code relies on

    A comparison function orders the elements: exchanging its arguments reverses
    the sign, and "not greater" is transitive. *)
Class CmpOrder {A : Type} (cmp : A -> A -> Z) : Prop := {
  cmp_flip x y : Z.sgn (cmp x y) = - Z.sgn (cmp y x);
  cmp_trans x y z : cmp x y <= 0 -> cmp y z <= 0 -> cmp x z <= 0
}.

(** Every element of [l[a .. b)] satisfies [P]. *)
Definition rng {A} (P : A -> Prop) (l : list A) (a b : Z) : Prop :=
  forall k x, a <= k < b -> l !! Z.to_nat k = Some x -> P x.

(** ** Exchanges *)
Section Swaps.
Context {A : Type}.
Implicit Types l : list A.

Lemma swap_spec l i j :
  0 <= i < Z.of_nat (length l) -> 0 <= j < Z.of_nat (length l) ->
  exists l' x y, swap l i j = CVal l' /\ l' ≡ₚ l /\ l !! Z.to_nat i = Some x /\ l !! Z.to_nat j = Some y /\
    forall k, 0 <= k -> l' !! Z.to_nat k = if k =? j then Some x else if k =? i then Some y else l !! Z.to_nat k.
Proof.
  intros Hi Hj.
  destruct (lookup_lt_is_Some_2 l (Z.to_nat i)) as [x Hx]; [lia|].
  destruct (lookup_lt_is_Some_2 l (Z.to_nat j)) as [y Hy]; [lia|].
  exists (<[Z.to_nat j := x]> (<[Z.to_nat i := y]> l)), x, y. unfold swap.
  rewrite (aget_val l i x), (aget_val l j y) by (lia || done). cbn [mbind cres_bind].
  rewrite aset_val by lia. cbn [mbind cres_bind]. rewrite aset_val by (rewrite length_insert; lia).
  split; [done|]. split.
  - by apply Permutation_insert_swap.
  - split; [done|]. split; [done|]. intros k Hk.
    repeat bcase; subst.
    + apply list_lookup_insert_eq. rewrite length_insert. lia.
    + rewrite list_lookup_insert_ne by lia. apply list_lookup_insert_eq. lia.
    + by rewrite !list_lookup_insert_ne by lia.
Qed.

(** An exchange of neighbours. *)
Lemma swap_adj (a b : list A) x y :
  swap (a ++ x :: y :: b) (Z.of_nat (S (length a))) (Z.of_nat (length a)) = CVal (a ++ y :: x :: b).
Proof.
  unfold swap. rewrite aget_app.
  pose proof (aget_app (a ++ [x]) b y) as G. pose proof (aset_app (a ++ [x]) b y x) as G'.
  rewrite <- !app_assoc, length_app, Nat.add_1_r in G, G'. cbn [app] in *. rewrite G. cbn [mbind cres_bind].
  rewrite G', <- app_assoc. cbn [mbind cres_bind app]. apply aset_app.
Qed.

(** An exchange of two disjoint blocks. *)
Lemma swapfunc_spec n : forall l i j,
  0 <= i -> i + Z.of_nat n <= j -> j + Z.of_nat n <= Z.of_nat (length l) ->
  exists l', swapfunc l i j n = CVal l' /\ l' ≡ₚ l /\
    forall k, 0 <= k -> l' !! Z.to_nat k =
      if (i <=? k) && (k <? i + Z.of_nat n) then l !! Z.to_nat (k + (j - i))
      else if (j <=? k) && (k <? j + Z.of_nat n) then l !! Z.to_nat (k - (j - i))
      else l !! Z.to_nat k.
Proof.
  induction n as [|n IH]; intros l i j Hi Hij Hj.
  - exists l. split; [done|]. split; [done|]. intros k Hk. repeat bcase; cbn [andb]; done || lia.
  - destruct (swap_spec l i j) as (l1 & x & y & Hs & Hp & Hx & Hy & Hl); [lia..|].
    assert (length l1 = length l) as Hlen by by apply Permutation_length.
    destruct (IH l1 (i + 1) (j + 1)) as (l2 & Hs2 & Hp2 & Hl2); [lia..|].
    exists l2. cbn [swapfunc]. rewrite Hs. cbn [mbind cres_bind]. split; [done|]. split; [by rewrite Hp2|].
    intros k Hk. rewrite Hl2 by done. replace (j + 1 - (i + 1)) with (j - i) by lia.
    destruct (Z.eq_dec k i) as [->|]; [|destruct (Z.eq_dec k j) as [->|]].
    + repeat zif. rewrite Hl by done. repeat zif. rewrite <- Hy. f_equal. lia.
    + repeat zif. rewrite Hl by lia. repeat zif. rewrite <- Hx. f_equal. lia.
    + repeat bcase; cbn [andb]; try lia; rewrite Hl by lia; repeat zif; done.
Qed.
End Swaps.

(** ** Insertion sort *)
Section Sorting.
Context {A : Type} (cmp : A -> A -> Z) `{!CmpOrder cmp}.
Implicit Types l : list A.

Definition le (x y : A) : Prop := cmp x y <= 0.
#[local] Abbreviation sorted := (StronglySorted le).

Lemma gt_le x y : 0 <= cmp x y -> le y x.
Proof. intros H. unfold le. pose proof (cmp_flip x y). lia. Qed.

Lemma sink_spec n : forall a x b s,
  length a = n -> sorted (a ++ b) -> Forall (le x) b ->
  exists r, sink cmp (a ++ x :: b ++ s) n = CVal (r ++ s) /\ r ≡ₚ a ++ x :: b /\ sorted r.
Proof.
  induction n as [|n IH]; intros a x b s Hn Hs Hb.
  - destruct a; [|done]. exists (x :: b). split; [done|]. split; [done|]. by apply SSorted_cons.
  - destruct (exists_last (l := a)) as (a' & y & ->); [by destruct a|].
    rewrite length_app in Hn. cbn [length] in Hn. assert (length a' = n) as Hn' by lia. clear Hn.
    cbn [sink]. rewrite <- app_assoc in Hs. rewrite <- app_assoc. cbn [app] in *. rewrite <- Hn', aget_app.
    pose proof (aget_app (a' ++ [y]) (b ++ s) x) as G.
    rewrite <- app_assoc, length_app, Nat.add_1_r in G. cbn [app length] in G. rewrite G. cbn [mbind cres_bind].
    bcase.
    + rewrite swap_adj. cbn [mbind cres_bind]. rewrite Hn'.
      destruct (IH a' x (y :: b) s) as (r & Hr & Hp & Hsr); [done|done| |].
      * apply Forall_cons_2; [by apply gt_le; lia | done].
      * exists r. split; [exact Hr|]. split; [|done]. rewrite Hp, <- app_assoc. apply Permutation_app_head, perm_swap.
    + exists (a' ++ y :: x :: b). split; [by rewrite <- app_assoc|]. split; [by rewrite <- app_assoc|].
      apply StronglySorted_app in Hs as (Hab & Ha & Hsb). apply StronglySorted_inv in Hsb as [Hsb Hyb].
      apply StronglySorted_app. split_and!; [|done|].
      * intros u w Hu Hw. apply elem_of_cons in Hw as [->|[->|Hw]%elem_of_cons].
        -- apply Hab; [done|]. by left.
        -- unfold le in *. apply (cmp_trans u y x); [|lia]. apply Hab; [done|]. by left.
        -- apply Hab; [done|]. by right.
      * apply SSorted_cons; [by apply SSorted_cons|]. apply Forall_cons_2; [unfold le; lia | done].
Qed.

Lemma insertion_spec k : forall a b,
  sorted a -> (a <> [] \/ b = []) -> length b = k ->
  exists r, insertion cmp (a ++ b) (length a) k = CVal r /\ r ≡ₚ a ++ b /\ sorted r.
Proof.
  induction k as [|k IH]; intros a b Hs Ha Hk.
  - destruct b; [|done]. rewrite app_nil_r. exists a. done.
  - destruct b as [|x b]; [done|]. injection Hk as Hk. cbn [insertion].
    destruct (sink_spec (length a) a x [] b) as (r & Hr & Hp & Hsr); [done|by rewrite app_nil_r|done|].
    cbn [app] in Hr. rewrite Hr. cbn [mbind cres_bind].
    assert (S (length a) = length r) as -> by (rewrite Hp, length_app; cbn [length]; lia).
    destruct (IH r b Hsr) as (r' & Hr' & Hp' & Hs'); [|done|].
    { left. intros ->. apply Permutation_nil in Hp. by destruct a. }
    exists r'. split; [done|]. split; [|done]. rewrite Hp', Hp, <- app_assoc. done.
Qed.

Lemma insertion_sort_spec l : exists r, insertion_sort cmp l = CVal r /\ r ≡ₚ l /\ sorted r.
Proof.
  destruct l as [|x l]; [by exists []; repeat split; constructor|].
  unfold insertion_sort. cbn [length]. replace (S (length l) - 1)%nat with (length l) by lia.
  apply (insertion_spec (length l) [x] l); [|by left|done]. by constructor; constructor.
Qed.

(** ** The pivot *)
Lemma med3_spec l a b c :
  0 <= a < Z.of_nat (length l) -> 0 <= b < Z.of_nat (length l) -> 0 <= c < Z.of_nat (length l) ->
  exists r, med3 cmp l a b c = CVal r /\ 0 <= r < Z.of_nat (length l).
Proof.
  intros Ha Hb Hc. unfold med3.
  destruct (lookup_lt_is_Some_2 l (Z.to_nat a)) as [x Hx]; [lia|].
  destruct (lookup_lt_is_Some_2 l (Z.to_nat b)) as [y Hy]; [lia|].
  destruct (lookup_lt_is_Some_2 l (Z.to_nat c)) as [z Hz]; [lia|].
  rewrite (aget_val l a x), (aget_val l b y), (aget_val l c z) by (lia || done). cbn [mbind cres_bind].
  eexists. split; [done|]. repeat bcase; lia.
Qed.

Lemma pivot_spec es l :
  0 < es -> Z.of_nat (length l) * es < 2 ^ 31 -> 7 <= Z.of_nat (length l) ->
  exists r, pivot cmp es l (Z.of_nat (length l)) = CVal r /\ 0 <= r < Z.of_nat (length l).
Proof.
  intros Hes Hsz Hl. set (n := Z.of_nat (length l)) in *. unfold pivot. cbv zeta.
  assert (0 <= n / 2 < n) by zdm.
  bcase; [|by eexists].
  assert (Hd : s32 (n / 8 * es) / es = n / 8).
  { rewrite s32_small; [apply Z.div_mul; lia|]. assert (0 <= n / 8 <= n) by zdm. nia. }
  rewrite Hd. bcase; cbn [mbind cres_bind].
  - destruct (med3_spec l 0 (0 + n / 8) (0 + 2 * (n / 8))) as (p1 & -> & ?); [lia|zdm|zdm|].
    destruct (med3_spec l (n / 2 - n / 8) (n / 2) (n / 2 + n / 8)) as (p2 & -> & ?); [zdm|zdm|zdm|].
    destruct (med3_spec l (n - 1 - 2 * (n / 8)) (n - 1 - n / 8) (n - 1)) as (p3 & -> & ?); [zdm|zdm|zdm|].
    cbn [mbind cres_bind]. by apply med3_spec.
  - apply med3_spec; lia.
Qed.

(** ** The partition

    Elements equal to the pivot, smaller ones, the part still to be looked at,
    larger ones, equal ones. *)
Record part_inv (v : A) (l0 l : list A) (pa pb pc pd : Z) : Prop := {
  pi_perm : l ≡ₚ l0;
  pi_pivot : l !! 0%nat = Some v;
  pi_idx : 1 <= pa <= pb /\ pb <= pc + 1 /\ pc <= pd <= Z.of_nat (length l) - 1;
  pi_eq1 : rng (fun x => cmp x v = 0) l 1 pa;
  pi_lt : rng (fun x => cmp x v < 0) l pa pb;
  pi_gt : rng (fun x => 0 < cmp x v) l (pc + 1) (pd + 1);
  pi_eq2 : rng (fun x => cmp x v = 0) l (pd + 1) (Z.of_nat (length l))
}.

(** What [rng] says of an array after an exchange, [Hl] giving its elements. *)
Ltac rng_swap Hl :=
  let k := fresh "k" in let w := fresh "w" in let Hk := fresh "Hk" in let Hw := fresh "Hw" in
  intros k w Hk Hw; rewrite Hl in Hw by lia;
  repeat match type of Hw with context [?a =? ?b] => destruct (Z.eqb_spec a b) end; simplify_eq;
  try lia; auto;
  match goal with
  | R : rng _ ?l _ _, E : ?l !! _ = Some ?w |- _ => solve [refine (R _ _ _ E); lia]
  | E : ?l !! Z.to_nat ?a = Some ?x, F : ?l !! Z.to_nat ?b = Some ?w |- context [cmp ?w _] =>
      assert (a = b) by lia; solve [simplify_eq; lia]
  end.

(** An element added to a part without an exchange. *)
Lemma rng_snoc (P : A -> Prop) l a b x :
  rng P l a b -> l !! Z.to_nat b = Some x -> P x -> rng P l a (b + 1).
Proof.
  intros R Hx Px k y Hk Hy. destruct (Z.eq_dec k b) as [->|]; [by simplify_eq|]. apply (R k); [lia|done].
Qed.

Lemma rng_cons (P : A -> Prop) l a b x :
  rng P l (a + 1) b -> l !! Z.to_nat a = Some x -> P x -> rng P l a b.
Proof.
  intros R Hx Px k y Hk Hy. destruct (Z.eq_dec k a) as [->|]; [by simplify_eq|]. apply (R k); [lia|done].
Qed.

Lemma part_get v l0 l pa pb pc pd k :
  part_inv v l0 l pa pb pc pd -> pb <= k <= pc -> exists x, aget l k = CVal x /\ l !! Z.to_nat k = Some x.
Proof.
  intros [] Hk. destruct (lookup_lt_is_Some_2 l (Z.to_nat k)) as [x Hx]; [lia|].
  exists x. split; [|done]. apply aget_val; [lia|done].
Qed.

Lemma scan_up_spec fuel : forall v l0 l pa pb pc pd sc,
  part_inv v l0 l pa pb pc pd -> pc - pb + 1 < Z.of_nat fuel ->
  exists l' pa' pb' sc', scan_up cmp fuel l pa pb pc sc = CVal (l', pa', pb', sc') /\
    part_inv v l0 l' pa' pb' pc pd /\ pb <= pb' /\
    (forall x, pb' <= pc -> l' !! Z.to_nat pb' = Some x -> 0 < cmp x v).
Proof.
  induction fuel as [|f IH]; intros v l0 l pa pb pc pd sc I Hf; [destruct I; lia|].
  cbn [scan_up]. destruct (Z.leb_spec pb pc); [|by eexists _, _, _, _; split_and!; [done..|lia]].
  destruct (part_get v l0 l pa pb pc pd pb I) as (x & Gx & Hx); [lia|]. rewrite Gx. cbn [mbind cres_bind].
  rewrite (aget_val l 0 v) by (lia || apply I). cbn [mbind cres_bind].
  destruct (Z.leb_spec (cmp x v) 0).
  2: { eexists _, _, _, _. split_and!; [done|done|lia|]. intros y _ Hy. simplify_eq. lia. }
  destruct I as [Hp Hv Hi E1 Lt Gt E2].
  destruct (Z.eqb_spec (cmp x v) 0) as [Hxv|Hxv].
  - destruct (swap_spec l pa pb) as (l1 & y & x' & Hs & Hp1 & Hy & Hx' & Hl); [lia..|].
    rewrite Hs. cbn [mbind cres_bind]. assert (length l1 = length l) as Hlen by by apply Permutation_length.
    simplify_eq.
    destruct (IH v l0 l1 (pa + 1) (pb + 1) pc pd true) as (l2 & a2 & b2 & sc2 & R & I2 & Hb & Hx2); [|lia|].
    + split; rewrite ?Hlen; [by rewrite Hp1| |lia|rng_swap Hl..].
      change 0%nat with (Z.to_nat 0). rewrite Hl by lia. by repeat zif.
    + exists l2, a2, b2, sc2. split_and!; [done|done|lia|done].
  - destruct (IH v l0 l pa (pb + 1) pc pd sc) as (l2 & a2 & b2 & sc2 & R & I2 & Hb & Hx2); [|lia|].
    + split; [done|done|lia|done| |done|done]. apply (rng_snoc _ _ _ _ x); [done|done|lia].
    + exists l2, a2, b2, sc2. split_and!; [done|done|lia|done].
Qed.

Lemma scan_down_spec fuel : forall v l0 l pa pb pc pd sc,
  part_inv v l0 l pa pb pc pd -> pc - pb + 1 < Z.of_nat fuel ->
  (forall x, pb <= pc -> l !! Z.to_nat pb = Some x -> 0 < cmp x v) ->
  exists l' pc' pd' sc', scan_down cmp fuel l pb pc pd sc = CVal (l', pc', pd', sc') /\
    part_inv v l0 l' pa pb pc' pd' /\ pc' <= pc /\
    (forall x, pb <= pc' -> l' !! Z.to_nat pb = Some x -> 0 < cmp x v) /\
    (forall x, pb <= pc' -> l' !! Z.to_nat pc' = Some x -> cmp x v < 0).
Proof.
  induction fuel as [|f IH]; intros v l0 l pa pb pc pd sc I Hf Hb; [destruct I; lia|].
  cbn [scan_down]. destruct (Z.leb_spec pb pc); [|by eexists _, _, _, _; split_and!; [done..|lia|lia]].
  destruct (part_get v l0 l pa pb pc pd pc I) as (x & Gx & Hx); [lia|]. rewrite Gx. cbn [mbind cres_bind].
  rewrite (aget_val l 0 v) by (lia || apply I). cbn [mbind cres_bind].
  destruct (Z.leb_spec 0 (cmp x v)).
  2: { eexists _, _, _, _. split_and!; [done|done|lia|done|]. intros y _ Hy. simplify_eq. lia. }
  destruct I as [Hp Hv Hi E1 Lt Gt E2].
  destruct (Z.eqb_spec (cmp x v) 0) as [Hxv|Hxv].
  - assert (pb <> pc) by (intros ->; specialize (Hb x); lia || (specialize (Hb ltac:(lia) Hx); lia)).
    destruct (swap_spec l pc pd) as (l1 & x' & y & Hs & Hp1 & Hx' & Hy & Hl); [lia..|].
    rewrite Hs. cbn [mbind cres_bind]. assert (length l1 = length l) as Hlen by by apply Permutation_length.
    simplify_eq.
    destruct (IH v l0 l1 pa pb (pc - 1) (pd - 1) true) as (l2 & c2 & d2 & sc2 & R & I2 & Hc & Hb2 & Hx2); [|lia| |].
    + split; rewrite ?Hlen, ?Z.sub_add; [by rewrite Hp1| |lia|rng_swap Hl..].
      change 0%nat with (Z.to_nat 0). rewrite Hl by lia. by repeat zif.
    + intros w Hw. rewrite Hl by lia. repeat zif. apply Hb; lia.
    + exists l2, c2, d2, sc2. split_and!; [done|done|lia|done|done].
  - destruct (IH v l0 l pa pb (pc - 1) pd sc) as (l2 & c2 & d2 & sc2 & R & I2 & Hc & Hb2 & Hx2); [|lia| |].
    + split; rewrite ?Z.sub_add; [done|done|lia|done|done| |done]. apply (rng_cons _ _ _ _ x); [done|done|lia].
    + intros w Hw. apply Hb. lia.
    + exists l2, c2, d2, sc2. split_and!; [done|done|lia|done|done].
Qed.

Lemma partition_spec fuel : forall v l0 l pa pb pc pd sc,
  part_inv v l0 l pa pb pc pd -> pc - pb + 1 < Z.of_nat fuel ->
  exists l' pa' pb' pd' sc', partition cmp fuel l pa pb pc pd sc = CVal (l', (pa', pb', pb' - 1, pd'), sc') /\
    part_inv v l0 l' pa' pb' (pb' - 1) pd'.
Proof.
  induction fuel as [|f IH]; intros v l0 l pa pb pc pd sc I Hf; [destruct I; lia|].
  cbn [partition].
  destruct (scan_up_spec (S (length l)) v l0 l pa pb pc pd sc I) as (l1 & a1 & b1 & sc1 & R1 & I1 & Hb1 & Hx1);
    [destruct I; lia|].
  rewrite R1. cbn [mbind cres_bind].
  destruct (scan_down_spec (S (length l1)) v l0 l1 a1 b1 pc pd sc1 I1) as (l2 & c2 & d2 & sc2 & R2 & I2 & Hc2 & Hx2 & Hy2);
    [destruct I1; lia|done|].
  rewrite R2. cbn [mbind cres_bind]. destruct (Z.ltb_spec c2 b1).
  - exists l2, a1, b1, d2, sc2. assert (c2 = b1 - 1) as -> by (destruct I2; lia). done.
  - destruct I2 as [Hp Hv Hi E1 Lt Gt E2].
    destruct (swap_spec l2 b1 c2) as (l3 & x & y & Hs & Hp1 & Hx & Hy & Hl); [lia..|].
    rewrite Hs. cbn [mbind cres_bind]. assert (length l3 = length l2) as Hlen by by apply Permutation_length.
    specialize (Hx2 x ltac:(lia) Hx). specialize (Hy2 y ltac:(lia) Hy).
    apply IH; [|lia]. assert (b1 <> c2) by (intros ->; simplify_eq; lia).
    split; rewrite ?Hlen, ?Z.sub_add; [by rewrite Hp1| |lia|rng_swap Hl..].
    change 0%nat with (Z.to_nat 0). rewrite Hl by lia. by repeat zif.
Qed.

(** ** The recursion *)

(** vecswap makes neighbouring blocks change places, up to their inner order. *)
Lemma vecswap_spec (P Q : A -> Prop) es l a b c :
  0 < es -> 0 <= a <= b -> b <= c <= Z.of_nat (length l) -> rng P l a b -> rng Q l b c ->
  let r := Z.min (b - a) (c - b) in
  exists l', vecswap es l a (c - r) (r * es) = CVal l' /\ l' ≡ₚ l /\
    rng Q l' a (a + (c - b)) /\ rng P l' (a + (c - b)) c /\
    (forall k, 0 <= k < a \/ c <= k -> l' !! Z.to_nat k = l !! Z.to_nat k).
Proof.
  intros Hes Ha Hc HP HQ r. unfold vecswap. destruct (Z.ltb_spec 0 (r * es)).
  2: { exists l. assert (r = 0) by nia. split_and!; [done|done| | |done].
       - intros k x Hk. apply HQ. lia.
       - intros k x Hk. apply HP. lia. }
  rewrite Z.div_mul by lia. assert (0 < r) by nia.
  destruct (swapfunc_spec (Z.to_nat r) l a (c - r)) as (l' & -> & Hp & Hl); [lia..|].
  exists l'. split_and!; [done|done| | |].
  - intros k x Hk. rewrite Hl by lia. repeat bcase; cbn [andb]; try lia; apply HQ; lia.
  - intros k x Hk. rewrite Hl by lia. repeat bcase; cbn [andb]; try lia; apply HP; lia.
  - intros k Hk. rewrite Hl by lia. repeat bcase; cbn [andb]; lia || done.
Qed.

Lemma rng_out (P : A -> Prop) l l' a b :
  (forall k, a <= k < b -> l' !! Z.to_nat k = l !! Z.to_nat k) -> rng P l a b -> rng P l' a b.
Proof. intros H R k x Hk. rewrite H by done. by apply R. Qed.

Lemma rng_app (P : A -> Prop) l a b c : rng P l a b -> rng P l b c -> rng P l a c.
Proof. intros R1 R2 k x Hk. destruct (Z.lt_ge_cases k b); [apply R1 | apply R2]; lia. Qed.

Lemma rng_Forall (P : A -> Prop) l a n :
  rng P l (Z.of_nat a) (Z.of_nat (a + n)) -> Forall P (take n (drop a l)).
Proof.
  intros R. apply Forall_lookup. intros i x Hi. apply lookup_take_Some in Hi as [Hi Hn].
  rewrite lookup_drop in Hi. apply (R (Z.of_nat (a + i))); [lia|]. by rewrite Nat2Z.id.
Qed.

Lemma le_through v x y : cmp x v <= 0 -> 0 <= cmp y v -> le x y.
Proof. intros Hx Hy. apply (cmp_trans x v y); [lia|]. by apply gt_le. Qed.

(** Sorted smaller elements, equal ones, sorted larger ones. *)
Lemma sorted_three v s1 m s2 :
  sorted s1 -> sorted s2 -> Forall (fun x => cmp x v < 0) s1 -> Forall (fun x => cmp x v = 0) m ->
  Forall (fun x => 0 < cmp x v) s2 -> sorted (s1 ++ m ++ s2).
Proof.
  intros H1 H2 F1 Fm F2. rewrite Forall_forall in F1, F2.
  assert (sorted m) as Hm.
  { clear -Fm CmpOrder0. induction Fm as [|x m Hx Fm IH]; [constructor|]. apply SSorted_cons; [done|].
    apply (Forall_impl _ _ _ Fm). intros y Hy. cbv beta in Hy. apply (le_through v); lia. }
  rewrite Forall_forall in Fm.
  apply StronglySorted_app. split_and!; [|done|].
  - intros x y Hx [Hy|Hy]%elem_of_app; apply (le_through v).
    all: try (specialize (F1 x Hx); lia). all: [> specialize (Fm y Hy) | specialize (F2 y Hy)]; lia.
  - apply StronglySorted_app. split_and!; [|done|done].
    intros x y Hx Hy. specialize (Fm x Hx). specialize (F2 y Hy). apply (le_through v); lia.
Qed.

(** A recursive call, or none when it has at most one element. *)
Lemma sub_sort es (rec : list A -> cres (list A)) (x : list A) k :
  0 < es < 2 ^ 31 -> 0 <= k -> k = Z.of_nat (length x) -> k * es < 2 ^ 31 ->
  (exists r, rec x = CVal r /\ r ≡ₚ x /\ sorted r) ->
  exists r, (forall B (f : list A -> B), (if s32 es <? s32 (k * es) then s ← rec x; CVal (f s) else CVal (f x)) = CVal (f r)) /\
    r ≡ₚ x /\ sorted r.
Proof.
  intros Hes Hk Hx Hsz (r & Hr & Hp & Hs). rewrite !s32_small by nia.
  destruct (Z.ltb_spec es (k * es)).
  - exists r. split; [|done]. intros B f. by rewrite Hr.
  - exists x. split; [done|]. split; [done|]. assert (k <= 1) by nia.
    destruct x as [|y [|z x]]; [constructor|by constructor; constructor|]. cbn [length] in *. lia.
Qed.

(** What the partition and the two exchanges leave: [p] smaller elements, the
    elements equal to the pivot, the larger ones from [q]. *)
Record parts (v : A) (l0 l : list A) (p q : Z) : Prop := {
  pt_perm : l ≡ₚ l0;
  pt_idx : 0 <= p /\ p < q <= Z.of_nat (length l);
  pt_first : 1 <= q;
  pt_lt : rng (fun x => cmp x v < 0) l 0 p;
  pt_eq : rng (fun x => cmp x v = 0) l p q;
  pt_gt : rng (fun x => 0 < cmp x v) l q (Z.of_nat (length l))
}.

Lemma exchange_blocks es v l0 l pa pb pd :
  0 < es < 2 ^ 31 -> Z.of_nat (length l) * es < 2 ^ 31 -> part_inv v l0 l pa pb (pb - 1) pd ->
  let pc := pb - 1 in
  let pn := Z.of_nat (length l) in
  exists l1 l2,
    (let r := s32 (Z.min pa (pb - pa) * es) in vecswap es l 0 (pb - r / es) r) = CVal l1 /\
    (let r := s32 (Z.min ((pd - pc) * es) ((pn - pd) * es - s32 es)) in vecswap es l1 pb (pn - r / es) r) = CVal l2 /\
    parts v l0 l2 (pb - pa) (pn - (pd - pc)).
Proof.
  intros Hes Hsz [Hp Hv Hi E1 Lt Gt E2] pc pn.
  assert (cmp v v = 0) by (pose proof (cmp_flip v v); lia).
  destruct (vecswap_spec (fun x => cmp x v = 0) (fun x => cmp x v < 0) es l 0 pa pb)
    as (l1 & H1 & Hp1 & Q1 & P1 & O1); [lia|lia|lia| |done|].
  { by apply (rng_cons _ _ _ _ v). }
  assert (length l1 = length l) as Hl1 by by apply Permutation_length.
  destruct (vecswap_spec (fun x => 0 < cmp x v) (fun x => cmp x v = 0) es l1 pb (pd + 1) pn)
    as (l2 & H2 & Hp2 & Q2 & P2 & O2); [lia|lia|lia| | |].
  { apply (rng_out _ l); [intros; apply O1; lia|]. by replace pb with (pb - 1 + 1) by lia. }
  { apply (rng_out _ l); [intros; apply O1; lia|done]. }
  assert (length l2 = length l1) as Hl2 by by apply Permutation_length.
  exists l1, l2. split_and!.
  - cbv zeta in *. rewrite Z.sub_0_r in H1. rewrite s32_small, Z.div_mul by nia. done.
  - cbv zeta in *. rewrite (s32_small es) by lia.
    replace (Z.min ((pd - pc) * es) ((pn - pd) * es - es)) with (Z.min (pd + 1 - pb) (pn - (pd + 1)) * es) by nia.
    rewrite s32_small, Z.div_mul by nia. done.
  - split; [by rewrite Hp2, Hp1|lia|lia| | |].
    + apply (rng_out _ l1); [intros; apply O2; lia|]. by replace (pb - pa) with (0 + (pb - pa)) by lia.
    + apply (rng_app _ _ _ pb); [apply (rng_out _ l1); [intros; apply O2; lia|done]|].
      intros k x Hk. apply Q2. lia.
    + intros k x Hk. apply P2. lia.
Qed.

(** The two recursive calls. *)
Lemma sort_parts es (rec : list A -> cres (list A)) v l0 l p q :
  0 < es < 2 ^ 31 -> Z.of_nat (length l) * es < 2 ^ 31 -> parts v l0 l p q ->
  (forall x, (length x < length l)%nat -> exists r, rec x = CVal r /\ r ≡ₚ x /\ sorted r) ->
  let pn := Z.of_nat (length l) in
  exists r,
    (l ← (let r := s32 (p * es) in
          if s32 es <? r then s ← rec (take (Z.to_nat (r / es)) l); CVal (s ++ drop (Z.to_nat (r / es)) l)
          else CVal l);
     let r := s32 ((pn - q) * es) in
     if s32 es <? r then s ← rec (drop (Z.to_nat (pn - r / es)) l); CVal (take (Z.to_nat (pn - r / es)) l ++ s)
     else CVal l) = CVal r /\ r ≡ₚ l0 /\ sorted r.
Proof.
  intros Hes Hsz [Hp Hi Hq Lt Eq Gt] Hrec pn. cbv zeta.
  assert (s32 (p * es) / es = p) as -> by (rewrite s32_small by nia; apply Z.div_mul; lia).
  assert (s32 ((pn - q) * es) / es = pn - q) as -> by (rewrite s32_small by nia; apply Z.div_mul; lia).
  replace (pn - (pn - q)) with q by lia.
  set (t := take (Z.to_nat p) l). set (d := drop (Z.to_nat p) l).
  assert (length t = Z.to_nat p) as Ht by (unfold t; rewrite length_take; lia).
  destruct (sub_sort es rec t p) as (s1 & H1 & P1 & S1); [lia..|nia|apply Hrec; lia|].
  specialize (H1 (list A) (fun s => s ++ d)). cbv beta in H1.
  assert (t ++ d = l) as Htd by apply take_drop. rewrite Htd in H1.
  rewrite H1. cbn [mbind cres_bind].
  assert (length s1 = Z.to_nat p) as Hs1 by (rewrite P1; done).
  assert (drop (Z.to_nat q) (s1 ++ d) = drop (Z.to_nat q) l) as Hd.
  { rewrite drop_app_ge, Hs1 by lia. unfold d. rewrite drop_drop. f_equal. lia. }
  set (g := drop (Z.to_nat q) l) in *. rewrite Hd.
  destruct (sub_sort es rec g (pn - q)) as (s2 & H2 & P2 & S2);
    [lia|lia|unfold g; rewrite length_drop; lia|nia|apply Hrec; unfold g; rewrite length_drop; lia|].
  specialize (H2 (list A) (fun s => take (Z.to_nat q) (s1 ++ d) ++ s)). cbv beta in H2.
  rewrite <- Hd, take_drop, Hd in H2. rewrite H2.
  set (m := take (Z.to_nat q - Z.to_nat p) d).
  assert (take (Z.to_nat q) (s1 ++ d) = s1 ++ m) as -> by (rewrite take_app_ge, Hs1 by lia; done).
  assert (l = t ++ m ++ g) as Hl.
  { rewrite <- (take_drop (Z.to_nat p) l) at 1. f_equal. fold d.
    rewrite <- (take_drop (Z.to_nat q - Z.to_nat p) d) at 1. f_equal. unfold d, g. rewrite drop_drop. f_equal. lia. }
  exists (s1 ++ m ++ s2). split; [by rewrite <- app_assoc|]. split.
  - by rewrite P1, P2, <- Hl.
  - apply (sorted_three v); [done|done| | |].
    + rewrite P1. apply (rng_Forall _ l 0). by rewrite Nat.add_0_l, Z2Nat.id by lia.
    + apply (rng_Forall _ l (Z.to_nat p)). by rewrite Nat.add_comm, Nat.sub_add, !Z2Nat.id by lia.
    + rewrite P2. assert (g = take (length l - Z.to_nat q) (drop (Z.to_nat q) l)) as ->.
      { symmetry. apply take_ge. fold g. unfold g. rewrite length_drop. lia. }
      apply rng_Forall. by rewrite Nat.add_comm, Nat.sub_add, !Z2Nat.id by lia.
Qed.

Lemma qsort_fuel_spec es fuel : forall l,
  0 < es < 2 ^ 31 -> Z.of_nat (length l) * es < 2 ^ 31 -> (length l < fuel)%nat ->
  exists r, qsort_fuel cmp es fuel l = CVal r /\ r ≡ₚ l /\ sorted r.
Proof.
  induction fuel as [|f IH]; intros l Hes Hsz Hf; [lia|]. cbn [qsort_fuel].
  destruct (Z.ltb_spec (Z.of_nat (length l)) 7); [apply insertion_sort_spec|].
  destruct (pivot_spec es l) as (pm & -> & Hpm); [lia..|]. cbn [mbind cres_bind].
  destruct (swap_spec l 0 pm) as (l1 & x & v & -> & Hp1 & Hx & Hv & Hl1); [lia..|]. cbn [mbind cres_bind].
  assert (length l1 = length l) as Hlen by by apply Permutation_length.
  destruct (partition_spec (S (length l1)) v l l1 1 1 (Z.of_nat (length l) - 1) (Z.of_nat (length l) - 1) false)
    as (l2 & pa & pb & pd & sc & -> & I2); [|lia|].
  { split; rewrite ?Hlen, ?Z.sub_add; [done| |lia|intros ? ?; lia..].
    change 0%nat with (Z.to_nat 0). rewrite Hl1 by lia. destruct (Z.eqb_spec 0 pm) as [<-|]; [congruence|done]. }
  cbn [mbind cres_bind]. pose proof (pi_perm _ _ _ _ _ _ _ I2) as Hp2.
  assert (length l2 = length l) as Hlen2 by by apply Permutation_length.
  destruct sc; cbn [negb].
  2: { destruct (insertion_sort_spec l2) as (r & Hr & Hpr & Hs). exists r. split_and!; [done| |done]. by rewrite Hpr. }
  rewrite <- Hlen2 in Hsz, Hf. rewrite <- Hlen2.
  destruct (exchange_blocks es v l l2 pa pb pd) as (l3 & l4 & E3 & E4 & I4); [lia|lia|done|].
  cbv zeta in E3, E4 |- *. rewrite E3. cbn [mbind cres_bind]. rewrite E4. cbn [mbind cres_bind].
  assert (length l4 = length l2) as Hlen4 by (apply Permutation_length; rewrite Hp2; apply I4).
  rewrite <- Hlen4 in I4, Hsz, Hf. rewrite <- Hlen4.
  destruct (sort_parts es (qsort_fuel cmp es f) v l l4 (pb - pa) (Z.of_nat (length l4) - (pd - (pb - 1))))
    as (r & Hr & Hpr & Hs); [lia|lia|done| |].
  { intros y Hy. apply IH; [lia| |lia]. nia. }
  exists r. split_and!; [|done|done]. rewrite <- Hr. cbv zeta.
  by replace (Z.of_nat (length l4) - (Z.of_nat (length l4) - (pd - (pb - 1)))) with (pd - (pb - 1)) by lia.
Qed.
End Sorting.

(** C21: qsort sorts.  For every comparison function that orders the elements and
    every array of fewer than 2^31 bytes (where the code's int byte counts are
    exact) it terminates, stays inside the array, and leaves a permutation of the
    elements in which none is greater than a later one, whichever of insertion
    sort, median of three, ninther and early switch to insertion sort it takes. *)
Theorem qsort_sorts {A} (cmp : A -> A -> Z) `{!CmpOrder cmp} (es : Z) (l : list A) :
  0 < es < 2 ^ 31 -> Z.of_nat (length l) * es < 2 ^ 31 ->
  exists r, qsort cmp es l = CVal r /\ r ≡ₚ l /\ StronglySorted (fun x y => cmp x y <= 0) r.
Proof. intros Hes Hsz. apply (qsort_fuel_spec cmp es (S (length l)) l); lia. Qed.

#[export] Instance sub_order : CmpOrder (fun x y : Z => x - y).
Proof. split; intros; lia. Qed.

Definition sample : list Z := [5; 3; 9; 1; 3; 8; 2; 7; 3; 6; 0; 4].

Lemma qsort_sorts_witness :
  qsort (fun x y => x - y) 4 sample = CVal [0; 1; 2; 3; 3; 3; 4; 5; 6; 7; 8; 9] /\
  exists r, qsort (fun x y => x - y) 4 sample = CVal r /\ r ≡ₚ sample /\ StronglySorted (fun x y => x - y <= 0) r.
Proof.
  split; [vm_compute; reflexivity|].
  apply (qsort_sorts (fun x y => x - y) 4 sample); vm_compute; [split|]; reflexivity.
Defined.

(** ** Binary search *)
Lemma bsearch_loop_spec {A} (compar : A -> Z) l fuel : forall base lim,
  (forall i j x y, (i < j)%nat -> l !! i = Some x -> l !! j = Some y ->
     (compar x < 0 -> compar y < 0) /\ (0 < compar y -> 0 < compar x)) ->
  0 <= base -> 0 <= lim -> base + lim <= Z.of_nat (length l) -> lim < Z.of_nat fuel ->
  rng (fun x => 0 < compar x) l 0 base -> rng (fun x => compar x < 0) l (base + lim) (Z.of_nat (length l)) ->
  (exists p x, bsearch_loop compar fuel l base lim = CVal (Some p) /\
     0 <= p < Z.of_nat (length l) /\ l !! Z.to_nat p = Some x /\ compar x = 0) \/
  (bsearch_loop compar fuel l base lim = CVal None /\ Forall (fun x => compar x <> 0) l).
Proof.
  induction fuel as [|f IH]; intros base lim Hm Hb Hl0 Hle Hf Lo Hi; [lia|]. cbn [bsearch_loop].
  destruct (Z.eqb_spec lim 0) as [->|Hne].
  { right. split; [done|]. apply Forall_lookup. intros i x Hx. pose proof (lookup_lt_Some _ _ _ Hx).
    rewrite <- (Nat2Z.id i) in Hx. destruct (Z.lt_ge_cases (Z.of_nat i) base).
    - specialize (Lo (Z.of_nat i) x ltac:(lia) Hx). cbv beta in Lo. lia.
    - specialize (Hi (Z.of_nat i) x ltac:(lia) Hx). cbv beta in Hi. lia. }
  rewrite !Z.shiftr_div_pow2 by lia. change (2 ^ 1) with 2.
  remember (base + lim / 2) as p eqn:Hp. assert (base <= p < base + lim) by zdm.
  destruct (lookup_lt_is_Some_2 l (Z.to_nat p)) as [x Hx]; [lia|].
  rewrite (aget_val l p x) by (lia || done). cbn [mbind cres_bind].
  destruct (Z.eqb_spec (compar x) 0); [left; exists p, x; split_and!; done || lia|].
  assert (forall k y, l !! Z.to_nat k = Some y -> 0 <= k ->
    (compar x < 0 -> p <= k -> compar y < 0) /\ (0 < compar x -> k <= p -> 0 < compar y)) as Hside.
  { intros k y Hy Hk. split; intros Hc Hkp; (destruct (Z.eq_dec k p) as [->|]; [by simplify_eq|]).
    - apply (Hm (Z.to_nat p) (Z.to_nat k) x y); [lia|done..].
    - apply (Hm (Z.to_nat k) (Z.to_nat p) y x); [lia|done..]. }
  destruct (Z.ltb_spec 0 (compar x)).
  - apply IH; [done|lia|zdm|zdm|zdm| |].
    + intros k y Hk Hy. apply (Hside k y Hy); lia.
    + intros k y Hk Hy. apply (Hi k y); [|done]. zdm.
  - apply IH; [done|lia|zdm|zdm|zdm|done|].
    intros k y Hk Hy. rewrite <- Hp in Hk. apply (Hside k y Hy); lia.
Qed.

Lemma sorted_lookup {A} (cmp : A -> A -> Z) l i j x y :
  StronglySorted (fun x y => cmp x y <= 0) l -> (i < j)%nat -> l !! i = Some x -> l !! j = Some y -> cmp x y <= 0.
Proof.
  intros Hs. revert i j. induction Hs as [|z l Hs IH Hz]; intros [|i] [|j] Hij Hx Hy; simplify_eq/=; try lia.
  - rewrite Forall_forall in Hz. apply Hz. by apply list_elem_of_lookup_2 in Hy.
  - apply (IH i j); [lia|done..].
Qed.

(** bsearch, on an array a comparison function sorts (as [qsort_sorts] leaves
    it), terminates without leaving the array and finds the key: the index it
    returns holds an element equal to the key, and when it returns NULL no element
    is. *)
Theorem bsearch_finds {A} (cmp : A -> A -> Z) `{!CmpOrder cmp} (key : A) (l : list A) :
  StronglySorted (fun x y => cmp x y <= 0) l -> Z.of_nat (length l) < 2 ^ 31 ->
  (exists p x, bsearch (cmp key) l = CVal (Some p) /\
     0 <= p < Z.of_nat (length l) /\ l !! Z.to_nat p = Some x /\ cmp key x = 0) \/
  (bsearch (cmp key) l = CVal None /\ Forall (fun x => cmp key x <> 0) l).
Proof.
  intros Hs Hsz. unfold bsearch. rewrite s32_small by lia.
  apply bsearch_loop_spec; [|lia..|intros k x; lia|intros k x; lia].
  intros i j x y Hij Hx Hy. pose proof (sorted_lookup cmp l i j x y Hs Hij Hx Hy).
  pose proof (cmp_flip key x). pose proof (cmp_flip key y).
  pose proof (cmp_trans key x y). pose proof (cmp_trans x y key). pose proof (cmp_trans y key x).
  pose proof (cmp_flip x y). split; intros; lia.
Qed.

Lemma bsearch_finds_witness :
  bsearch (fun y => 7 - y) [0; 2; 3; 7; 9] = CVal (Some 3) /\
  ((exists p x, bsearch (fun y => 7 - y) [0; 2; 3; 7; 9] = CVal (Some p) /\
     0 <= p < 5 /\ [0; 2; 3; 7; 9] !! Z.to_nat p = Some x /\ 7 - x = 0) \/
   (bsearch (fun y => 7 - y) [0; 2; 3; 7; 9] = CVal None /\ Forall (fun x => 7 - x <> 0) [0; 2; 3; 7; 9])).
Proof.
  split; [vm_compute; reflexivity|].
  apply (bsearch_finds (fun x y => x - y) 7 [0; 2; 3; 7; 9]); [|vm_compute; reflexivity].
  repeat constructor; lia.
Defined.
