(* ===== verification/Links.v ===== *)
(** * Singly linked lists

    Several components keep their objects in lists that are linked through a field
    of the objects (the hash chains of the resolver cache, the libraries of the
    dynamic linker, the symbols of a hash bucket).  The link field is a partial
    function from addresses; 0 is the end of a list. *)

From Stdlib Require Import ZArith Lia.
From stdpp Require Import base list numbers sets.
From S2P Require Import Prelude.

Open Scope Z_scope.

Definition NULL : Z := 0.

(** The list that starts at [p] has the nodes [xs]. *)
Fixpoint lchain (nx : Z -> option Z) (p : Z) (xs : list Z) : Prop :=
  match xs with
  | [] => p = NULL
  | x :: xs' => p = x /\ x <> NULL /\ exists v, nx x = Some v /\ lchain nx v xs'
  end.

Lemma lchain_frame nx nx' p xs : (forall x, x ∈ xs -> nx' x = nx x) -> lchain nx p xs -> lchain nx' p xs.
Proof.
  revert p. induction xs as [|x xs IH]; intros p F; [done|]. cbn [lchain]. intros (-> & Hx & v & Hv & C).
  split_and!; [done..|]. exists v. rewrite F by left. split; [done|]. apply IH; [|done]. intros y Hy. apply F. by right.
Qed.

Lemma lchain_hd nx p xs : lchain nx p xs -> p = hd NULL xs.
Proof. destruct xs; cbn; naive_solver. Qed.

Lemma lchain_at nx p ys a zs : lchain nx p (ys ++ a :: zs) -> a <> NULL /\ exists v, nx a = Some v /\ lchain nx v zs.
Proof.
  revert p. induction ys as [|y ys IH]; intros p; cbn [app lchain]; [naive_solver|]. intros (_ & _ & v & _ & C). by apply (IH v).
Qed.

Lemma lchain_in nx p xs a : lchain nx p xs -> a ∈ xs -> a <> NULL /\ is_Some (nx a).
Proof.
  intros C Ha. apply list_elem_of_split in Ha as (ys & zs & ->). apply lchain_at in C as (Hn & v & Hv & _). by rewrite Hv.
Qed.

(** Another tail behind the node [a]. *)
Lemma lchain_tail nx nx' p ys a zs us v :
  lchain nx p (ys ++ a :: zs) -> NoDup (ys ++ [a]) -> nx' a = Some v -> lchain nx' v us ->
  (forall x, x ∈ ys -> nx' x = nx x) -> lchain nx' p (ys ++ a :: us).
Proof.
  intros C N Ha Cv F. revert p C. induction ys as [|y ys IH]; intros p; cbn [app lchain].
  - intros (-> & Hn & _). split_and!; [done..|]. by exists v.
  - intros (-> & Hn & w & Hw & C). split_and!; [done..|]. exists w. rewrite F by left. split; [done|].
    cbn [app] in N. apply list.NoDup_cons in N as [_ N]. apply IH; [done| |done]. intros x Hx. apply F. by right.
Qed.
