(* ===== verification/DnsQuery.v ===== *)
(** * DNS query packets: the first half of libc/netbsd/resolv/res_cache.c

    The resolver cache is keyed by raw query packets.  This file models how the
    code checks, hashes and compares them: a packet is its bytes and a cursor,
    and every byte is read through [aget], so that a read outside the packet is a
    distinct outcome.  The specification of a query is an encoder: header,
    questions (a name, a type and the class IN each), trailing bytes. *)

From Stdlib Require Import ZArith Lia.
From stdpp Require Import base list numbers sets.
From S2P Require Import Prelude.

Open Scope Z_scope.

Record DnsPacket := mkPacket { base : list Z; cursor : Z }.

(** packet->end - packet->base *)
Definition pend (packet : DnsPacket) : Z := Z.of_nat (length (base packet)).
Definition seek (packet : DnsPacket) (p : Z) : DnsPacket := mkPacket (base packet) p.

Definition DNS_HEADER_SIZE : Z := 12.

(** The string literals of the macros.  An octal escape has at most three digits,
    so the literal of DNS_TYPE_ALL, which ends in \0377, is 0, 31 and the
    character '7'. *)
Definition DNS_TYPE_A : list Z := [0; 1; 0].
Definition DNS_TYPE_PTR : list Z := [0; 12; 0].
Definition DNS_TYPE_MX : list Z := [0; 15; 0].
Definition DNS_TYPE_AAAA : list Z := [0; 28; 0].
Definition DNS_TYPE_ALL : list Z := [0; 31; 55; 0].
Definition DNS_CLASS_IN : list Z := [0; 1; 0].

Definition _dnsPacket_init (buff : list Z) : DnsPacket := mkPacket buff 0.
Definition _dnsPacket_rewind (packet : DnsPacket) : DnsPacket := seek packet 0.

Definition _dnsPacket_skip (packet : DnsPacket) (count : Z) : DnsPacket :=
  let p := cursor packet + count in
  seek packet (if pend packet <? p then pend packet else p).

Definition _dnsPacket_readInt16 (packet : DnsPacket) : cres (Z * DnsPacket) :=
  let p := cursor packet in
  if pend packet <? p + 2 then CVal (-1, packet)
  else
    b0 ← aget (base packet) p; b1 ← aget (base packet) (p + 1);
    CVal (Z.lor (Z.shiftl b0 8) b1, seek packet (p + 2)).

(** memcmp(d1 + i, d2 + j, n) != 0 *)
Fixpoint memcmp_ne (d1 d2 : list Z) (i j : Z) (n : nat) : cres bool :=
  match n with
  | O => CVal false
  | S n' =>
      x ← aget d1 i; y ← aget d2 j;
      if x =? y then memcmp_ne d1 d2 (i + 1) (j + 1) n' else CVal true
  end.

(** ** Checking *)

Definition _dnsPacket_checkBytes (packet : DnsPacket) (numBytes : Z) (bytes : list Z) : cres (bool * DnsPacket) :=
  let p := cursor packet in
  if pend packet <? p + numBytes then CVal (false, packet)
  else
    ne ← memcmp_ne (base packet) bytes p 0 (Z.to_nat numBytes);
    if (ne : bool) then CVal (false, packet) else CVal (true, seek packet (p + numBytes)).

Fixpoint checkQName_loop (fuel : nat) (packet : DnsPacket) (p : Z) : cres (bool * DnsPacket) :=
  match fuel with
  | O => CFuel
  | S f =>
      if pend packet <=? p then CVal (false, packet)
      else
        c ← aget (base packet) p;
        let p := p + 1 in
        if c =? 0 then CVal (true, seek packet p)
        else if 64 <=? c then CVal (false, packet)
        else checkQName_loop f packet (p + c)
  end.

(** Each round consumes a byte: the packet's length bounds the loops. *)
Definition _dnsPacket_checkQName (packet : DnsPacket) : cres (bool * DnsPacket) :=
  checkQName_loop (S (S (length (base packet)))) packet (cursor packet).

(** The && chain over the TYPEs: true as soon as one matches. *)
Fixpoint checkType (packet : DnsPacket) (types : list (list Z)) : cres (bool * DnsPacket) :=
  match types with
  | [] => CVal (false, packet)
  | t :: types' =>
      '(ok, packet) ← _dnsPacket_checkBytes packet 2 t;
      if (ok : bool) then CVal (true, packet) else checkType packet types'
  end.

Definition _dnsPacket_checkQR (packet : DnsPacket) : cres (bool * DnsPacket) :=
  '(ok, packet) ← _dnsPacket_checkQName packet;
  if negb ok then CVal (false, packet)
  else
    '(ok, packet) ← checkType packet [DNS_TYPE_A; DNS_TYPE_PTR; DNS_TYPE_MX; DNS_TYPE_AAAA; DNS_TYPE_ALL];
    if negb ok then CVal (false, packet)
    else
      '(ok, packet) ← _dnsPacket_checkBytes packet 2 DNS_CLASS_IN;
      if negb ok then CVal (false, packet) else CVal (true, packet).

(** for (; qdCount > 0; qdCount--) *)
Fixpoint checkQRs (qdCount : nat) (packet : DnsPacket) : cres bool :=
  match qdCount with
  | O => CVal true
  | S n => '(ok, packet) ← _dnsPacket_checkQR packet; if negb ok then CVal false else checkQRs n packet
  end.

Definition _dnsPacket_checkQuery (packet : DnsPacket) : cres bool :=
  let p := base packet in
  if pend packet <? DNS_HEADER_SIZE then CVal false
  else
    p2 ← aget p 2; p3 ← aget p 3;
    if negb (Z.land p2 0xFC =? 0) || negb (p3 =? 0) then CVal false
    else
      p4 ← aget p 4; p5 ← aget p 5; p6 ← aget p 6; p7 ← aget p 7;
      p8 ← aget p 8; p9 ← aget p 9; p10 ← aget p 10; p11 ← aget p 11;
      let qdCount := Z.lor (Z.shiftl p4 8) p5 in
      let anCount := Z.lor (Z.shiftl p6 8) p7 in
      let dnCount := Z.lor (Z.shiftl p8 8) p9 in
      let arCount := Z.lor (Z.shiftl p10 8) p11 in
      if negb (anCount =? 0) || negb (dnCount =? 0) || negb (arCount =? 0) then CVal false
      else if qdCount =? 0 then CVal false
      else checkQRs (Z.to_nat qdCount) (seek packet DNS_HEADER_SIZE).

(** ** Hashing *)

Definition FNV_MULT : Z := 16777619.
Definition FNV_BASIS : Z := 2166136261.
Definition fnv (hash b : Z) : Z := Z.lxor (u32 (hash * FNV_MULT)) b.

(** The loop of _dnsPacket_hashBytes: [numBytes] is not decremented. *)
Fixpoint hashBytes_loop (fuel : nat) (packet : DnsPacket) (numBytes hash p : Z) : cres (Z * Z) :=
  match fuel with
  | O => CFuel
  | S f =>
      if (0 <? numBytes) && (p <? pend packet) then
        b ← aget (base packet) p; hashBytes_loop f packet numBytes (fnv hash b) (p + 1)
      else CVal (hash, p)
  end.

Definition _dnsPacket_hashBytes (packet : DnsPacket) (numBytes hash : Z) : cres (Z * DnsPacket) :=
  '(hash, p) ← hashBytes_loop (S (length (base packet))) packet numBytes hash (cursor packet);
  CVal (hash, seek packet p).

(** while (c > 0) { hash = hash*FNV_MULT ^ *p++; c -= 1; } *)
Fixpoint hashLabel (c : nat) (packet : DnsPacket) (hash p : Z) : cres (Z * Z) :=
  match c with
  | O => CVal (hash, p)
  | S c' => b ← aget (base packet) p; hashLabel c' packet (fnv hash b) (p + 1)
  end.

Fixpoint hashQName_loop (fuel : nat) (packet : DnsPacket) (hash p : Z) : cres (Z * Z) :=
  match fuel with
  | O => CFuel
  | S f =>
      if pend packet <=? p then CVal (hash, p)
      else
        c ← aget (base packet) p;
        let p := p + 1 in
        if c =? 0 then CVal (hash, p)
        else if 64 <=? c then CVal (hash, p)
        else if pend packet <=? p + c then CVal (hash, p)
        else '(hash, p) ← hashLabel (Z.to_nat c) packet hash p; hashQName_loop f packet hash p
  end.

Definition _dnsPacket_hashQName (packet : DnsPacket) (hash : Z) : cres (Z * DnsPacket) :=
  '(hash, p) ← hashQName_loop (S (length (base packet))) packet hash (cursor packet);
  CVal (hash, seek packet p).

Definition _dnsPacket_hashQR (packet : DnsPacket) (hash : Z) : cres (Z * DnsPacket) :=
  '(hash, packet) ← _dnsPacket_hashQName packet hash; _dnsPacket_hashBytes packet 4 hash.

Fixpoint hashQRs (count : nat) (packet : DnsPacket) (hash : Z) : cres Z :=
  match count with
  | O => CVal hash
  | S n => '(hash, packet) ← _dnsPacket_hashQR packet hash; hashQRs n packet hash
  end.

Definition _dnsPacket_hashQuery (packet : DnsPacket) : cres Z :=
  let hash := FNV_BASIS in
  let packet := _dnsPacket_rewind packet in
  p2 ← aget (base packet) 2;
  let hash := fnv hash (Z.land p2 1) in
  let packet := _dnsPacket_skip packet 4 in
  '(count, packet) ← _dnsPacket_readInt16 packet;
  let packet := _dnsPacket_skip packet 6 in
  hashQRs (Z.to_nat count) packet hash.

(** ** Comparison *)

Fixpoint isEqualName_loop (fuel : nat) (pack1 pack2 : DnsPacket) (p1 p2 : Z)
    : cres (bool * DnsPacket * DnsPacket) :=
  match fuel with
  | O => CFuel
  | S f =>
      if (pend pack1 <=? p1) || (pend pack2 <=? p2) then CVal (false, pack1, pack2)
      else
        c1 ← aget (base pack1) p1; c2 ← aget (base pack2) p2;
        let p1 := p1 + 1 in
        let p2 := p2 + 1 in
        if negb (c1 =? c2) then CVal (false, pack1, pack2)
        else if c1 =? 0 then CVal (true, seek pack1 p1, seek pack2 p2)
        else if 64 <=? c1 then CVal (false, pack1, pack2)
        else if (pend pack1 <? p1 + c1) || (pend pack2 <? p2 + c1) then CVal (false, pack1, pack2)
        else
          ne ← memcmp_ne (base pack1) (base pack2) p1 p2 (Z.to_nat c1);
          if (ne : bool) then CVal (false, pack1, pack2) else isEqualName_loop f pack1 pack2 (p1 + c1) (p2 + c1)
  end.

Definition _dnsPacket_isEqualDomainName (pack1 pack2 : DnsPacket) : cres (bool * DnsPacket * DnsPacket) :=
  isEqualName_loop (S (length (base pack1))) pack1 pack2 (cursor pack1) (cursor pack2).

Definition _dnsPacket_isEqualBytes (pack1 pack2 : DnsPacket) (numBytes : Z) : cres (bool * DnsPacket * DnsPacket) :=
  let p1 := cursor pack1 in
  let p2 := cursor pack2 in
  if (pend pack1 <? p1 + numBytes) || (pend pack2 <? p2 + numBytes) then CVal (false, pack1, pack2)
  else
    ne ← memcmp_ne (base pack1) (base pack2) p1 p2 (Z.to_nat numBytes);
    if (ne : bool) then CVal (false, pack1, pack2) else CVal (true, seek pack1 (p1 + numBytes), seek pack2 (p2 + numBytes)).

Definition _dnsPacket_isEqualQR (pack1 pack2 : DnsPacket) : cres (bool * DnsPacket * DnsPacket) :=
  '(ok, pack1, pack2) ← _dnsPacket_isEqualDomainName pack1 pack2;
  if negb ok then CVal (false, pack1, pack2)
  else _dnsPacket_isEqualBytes pack1 pack2 4.

Fixpoint isEqualQRs (count1 : nat) (pack1 pack2 : DnsPacket) : cres bool :=
  match count1 with
  | O => CVal true
  | S n =>
      '(ok, pack1, pack2) ← _dnsPacket_isEqualQR pack1 pack2;
      if negb ok then CVal false else isEqualQRs n pack1 pack2
  end.

Definition _dnsPacket_isEqualQuery (pack1 pack2 : DnsPacket) : cres bool :=
  let pack1 := _dnsPacket_rewind pack1 in
  let pack2 := _dnsPacket_rewind pack2 in
  a ← aget (base pack1) 2; b ← aget (base pack2) 2;
  if negb (Z.land a 1 =? Z.land b 1) then CVal false
  else
    let pack1 := _dnsPacket_skip pack1 4 in
    let pack2 := _dnsPacket_skip pack2 4 in
    '(count1, pack1) ← _dnsPacket_readInt16 pack1;
    '(count2, pack2) ← _dnsPacket_readInt16 pack2;
    if negb (count1 =? count2) || (count1 <? 0) then CVal false
    else
      let pack1 := _dnsPacket_skip pack1 6 in
      let pack2 := _dnsPacket_skip pack2 6 in
      isEqualQRs (Z.to_nat count1) pack1 pack2.

(** ** What a query is *)

Definition octet (b : Z) : Prop := 0 <= b < 256.

Definition wf_label (label : list Z) : Prop := (1 <= length label <= 63)%nat.
Definition enc_label (label : list Z) : list Z := Z.of_nat (length label) :: label.
Definition enc_name (labels : list (list Z)) : list Z := concat (map enc_label labels) ++ [0].

Record question := mkQuestion { qname : list (list Z); qtype : Z }.

(** The types the code supports: A, PTR, MX, AAAA, and 31 in place of 255. *)
Definition wf_question (q : question) : Prop :=
  Forall wf_label (qname q) /\ qtype q ∈ [1; 12; 15; 28; 31].
Definition enc_question (q : question) : list Z := enc_name (qname q) ++ [0; qtype q; 0; 1].
Definition enc_questions (qs : list question) : list Z := concat (map enc_question qs).

(** [d] is a query with the flag byte [flags] (TC and RD free), the questions [qs]
    and further bytes [trail]. *)
Definition is_query (d : list Z) (flags : Z) (qs : list question) (trail : list Z) : Prop :=
  exists id0 id1,
    let n := Z.of_nat (length qs) in
    d = [id0; id1; flags; 0; n / 256; n mod 256; 0; 0; 0; 0; 0; 0] ++ enc_questions qs ++ trail /\
    Z.land flags 0xFC = 0 /\ 1 <= n < 65536 /\ Forall wf_question qs.

(** ** Decoding is unambiguous *)

Lemma enc_name_cons label labels : enc_name (label :: labels) = Z.of_nat (length label) :: label ++ enc_name labels.
Proof. unfold enc_name, enc_label. cbn [map concat app]. by rewrite <- app_assoc. Qed.

Lemma enc_name_inj l1 : forall l2 r1 r2,
  Forall wf_label l1 -> Forall wf_label l2 -> enc_name l1 ++ r1 = enc_name l2 ++ r2 -> l1 = l2 /\ r1 = r2.
Proof.
  induction l1 as [|x l1 IH]; intros [|y l2] r1 r2 H1 H2 E.
  - split; [done|]. by apply app_inv_head in E.
  - exfalso. apply Forall_cons_1 in H2 as [H2 _]. rewrite enc_name_cons in E. unfold wf_label in H2.
    cbn in E. injection E as E _. lia.
  - exfalso. apply Forall_cons_1 in H1 as [H1 _]. rewrite enc_name_cons in E. unfold wf_label in H1.
    cbn in E. injection E as E _. lia.
  - apply Forall_cons_1 in H1 as [_ H1]. apply Forall_cons_1 in H2 as [_ H2]. rewrite !enc_name_cons in E. cbn [app] in E.
    injection E as E1 E2. rewrite <- !app_assoc in E2.
    apply app_inj_1 in E2 as [-> E2]; [|lia]. apply IH in E2 as [-> ->]; done.
Qed.

Lemma enc_question_inj q1 q2 r1 r2 :
  wf_question q1 -> wf_question q2 -> enc_question q1 ++ r1 = enc_question q2 ++ r2 -> q1 = q2 /\ r1 = r2.
Proof.
  intros [H1 _] [H2 _] E. unfold enc_question in E. rewrite <- !app_assoc in E.
  apply enc_name_inj in E as [E1 E2]; [|done..]. destruct q1, q2. cbn in *. by simplify_eq.
Qed.

Lemma enc_questions_inj qs1 : forall qs2 r1 r2,
  Forall wf_question qs1 -> Forall wf_question qs2 -> length qs1 = length qs2 ->
  enc_questions qs1 ++ r1 = enc_questions qs2 ++ r2 -> qs1 = qs2 /\ r1 = r2.
Proof.
  induction qs1 as [|q1 qs1 IH]; intros [|q2 qs2] r1 r2 H1 H2 Hl E; [done..|].
  apply Forall_cons_1 in H1 as [Hq1 H1]. apply Forall_cons_1 in H2 as [Hq2 H2]. unfold enc_questions in E. cbn [map concat] in E.
  rewrite <- !app_assoc in E. apply enc_question_inj in E as [-> E]; [|done..].
  injection Hl as Hl. apply IH in E as [-> ->]; done.
Qed.

(** ** Reading at the cursor *)

(** A packet whose cursor is behind [pre]. *)
Definition at_ (pre rest : list Z) : DnsPacket := mkPacket (pre ++ rest) (Z.of_nat (length pre)).

Lemma at_pend pre rest : pend (at_ pre rest) = Z.of_nat (length pre + length rest).
Proof. unfold pend, at_. cbn [base]. by rewrite length_app. Qed.

Lemma pend_mk d c : pend (mkPacket d c) = Z.of_nat (length d).
Proof. done. Qed.

Lemma skip_mk d c n :
  _dnsPacket_skip (mkPacket d c) n =
  mkPacket d (if Z.of_nat (length d) <? c + n then Z.of_nat (length d) else c + n).
Proof. done. Qed.

Lemma at_seek pre x rest :
  seek (at_ pre (x ++ rest)) (Z.of_nat (length pre) + Z.of_nat (length x)) = at_ (pre ++ x) rest.
Proof. unfold seek, at_. cbn [base]. f_equal; [by rewrite app_assoc | rewrite length_app; lia]. Qed.

Lemma memcmp_spec x : forall y pre1 pre2 r1 r2,
  length x = length y ->
  memcmp_ne (pre1 ++ x ++ r1) (pre2 ++ y ++ r2) (Z.of_nat (length pre1)) (Z.of_nat (length pre2)) (length x) =
  CVal (negb (bool_decide (x = y))).
Proof.
  induction x as [|a x IH]; intros [|b y] pre1 pre2 r1 r2 Hl; try done. injection Hl as Hl.
  cbn [length memcmp_ne app]. rewrite !aget_app. cbn [mbind cres_bind]. destruct (Z.eqb_spec a b) as [->|Hne].
  - specialize (IH y (pre1 ++ [b]) (pre2 ++ [b]) r1 r2 Hl). rewrite <- !app_assoc, !length_app in IH. cbn [app length] in IH.
    rewrite !Nat2Z.inj_add in IH. change (Z.of_nat 1) with 1 in IH. rewrite IH. do 2 f_equal.
    apply bool_decide_ext. split; [by intros ->|by intros [= ->]].
  - f_equal. rewrite bool_decide_false; [done|]. by intros [= -> _].
Qed.

Lemma checkBytes_spec b0 b1 t pre rest :
  (exists rest', rest = b0 :: b1 :: rest' /\
     _dnsPacket_checkBytes (at_ pre rest) 2 (b0 :: b1 :: t) = CVal (true, at_ (pre ++ [b0; b1]) rest')) \/
  (_dnsPacket_checkBytes (at_ pre rest) 2 (b0 :: b1 :: t) = CVal (false, at_ pre rest) /\
   forall rest', rest <> b0 :: b1 :: rest').
Proof.
  unfold _dnsPacket_checkBytes. rewrite at_pend. cbn [cursor at_].
  destruct (Z.ltb_spec (Z.of_nat (length pre + length rest)) (Z.of_nat (length pre) + 2)).
  { right. split; [done|]. intros r ->. cbn [length] in *. lia. }
  destruct rest as [|x [|y rest]]; [cbn [length] in *; lia..|].
  pose proof (memcmp_spec [x; y] [b0; b1] pre [] rest t eq_refl) as M. cbn [app length] in M. change (Z.of_nat 0) with 0 in M.
  change (Z.to_nat 2) with 2%nat. cbn [base at_]. rewrite M. cbn [mbind cres_bind].
  destruct (bool_decide_reflect ([x; y] = [b0; b1])) as [[= -> ->]|Hne]; cbn [negb].
  - left. exists rest. split; [done|]. do 2 f_equal. by apply (at_seek pre [b0; b1] rest).
  - right. split; [done|]. intros r [= -> -> _]. done.
Qed.

(** ** The checks accept exactly the queries *)

Lemma checkQName_loop_spec fuel : forall pk c0 pre rest,
  Forall octet rest -> (S (length rest) < fuel)%nat -> pk = mkPacket (pre ++ rest) c0 ->
  (exists labels rest', Forall wf_label labels /\ rest = enc_name labels ++ rest' /\
     checkQName_loop fuel pk (Z.of_nat (length pre)) = CVal (true, at_ (pre ++ enc_name labels) rest')) \/
  (checkQName_loop fuel pk (Z.of_nat (length pre)) = CVal (false, pk) /\
   forall labels rest', Forall wf_label labels -> rest <> enc_name labels ++ rest').
Proof.
  induction fuel as [|f IH]; intros pk c0 pre rest Hb Hf ->; [lia|]. cbn [checkQName_loop].
  rewrite pend_mk, length_app.
  destruct rest as [|c rest].
  { right. rewrite (proj2 (Z.leb_le _ _)) by (cbn [length]; lia). split; [done|].
    intros [|x l] r _; [|rewrite enc_name_cons]; done. }
  rewrite (proj2 (Z.leb_gt _ _)) by (cbn [length]; lia). cbn [base]. rewrite aget_app. cbn [mbind cres_bind].
  apply Forall_cons_1 in Hb as [Hc Hb]. unfold octet in Hc. cbn [length] in Hf.
  destruct (Z.eqb_spec c 0) as [->|Hc0].
  { left. exists [], rest. split; [done|]. split; [done|]. do 2 f_equal.
    by apply (at_seek pre [0] rest). }
  destruct (Z.leb_spec 64 c).
  { right. split; [done|]. intros [|x l] r Hw E; [by injection E as -> _|]. rewrite enc_name_cons in E.
    apply Forall_cons_1 in Hw as [Hw _]. unfold wf_label in Hw. injection E as -> _. lia. }
  destruct (Nat.le_gt_cases (Z.to_nat c) (length rest)) as [Hle|Hgt].
  - assert (exists x r, rest = x ++ r /\ length x = Z.to_nat c) as (x & r & -> & Hx).
    { exists (take (Z.to_nat c) rest), (drop (Z.to_nat c) rest). rewrite take_drop, length_take. split; [done|lia]. }
    destruct (IH (mkPacket (pre ++ c :: x ++ r) c0) c0 (pre ++ c :: x) r) as [(l & r' & Hw & Hr & E)|[E Hno]].
    + by apply Forall_app in Hb as [_ Hb].
    + rewrite length_app in Hf. lia.
    + by rewrite <- app_assoc.
    + left. exists (x :: l), r'. split; [by apply Forall_cons_2; [unfold wf_label; lia|]|].
      rewrite enc_name_cons, Hx, Z2Nat.id by lia. split; [by rewrite Hr; cbn [app]; rewrite <- app_assoc|].
      replace (Z.of_nat (length pre) + 1 + c) with (Z.of_nat (length (pre ++ c :: x)))
        by (rewrite length_app; cbn [length]; lia).
      rewrite E. by rewrite <- app_assoc.
    + right. replace (Z.of_nat (length pre) + 1 + c) with (Z.of_nat (length (pre ++ c :: x)))
        by (rewrite length_app; cbn [length]; lia).
      split; [done|]. intros [|y l] r2 Hw E2; [by injection E2 as -> _|]. rewrite enc_name_cons in E2.
      cbn [app] in E2. injection E2 as Ec E2. rewrite <- app_assoc in E2.
      apply app_inj_1 in E2 as [-> E2]; [|lia]. apply Forall_cons_1 in Hw as [_ Hw]. by apply (Hno l r2).
  - right. destruct f as [|f]; [lia|]. cbn [checkQName_loop].
    rewrite pend_mk, length_app. cbn [length].
    rewrite (proj2 (Z.leb_le _ _)) by lia. split; [done|].
    intros [|y l] r2 Hw E2; [by injection E2 as -> _|]. rewrite enc_name_cons in E2.
    injection E2 as Ec E2. apply (f_equal length) in E2. rewrite !length_app in E2. lia.
Qed.

Lemma checkQName_spec pre rest :
  Forall octet rest ->
  (exists labels rest', Forall wf_label labels /\ rest = enc_name labels ++ rest' /\
     _dnsPacket_checkQName (at_ pre rest) = CVal (true, at_ (pre ++ enc_name labels) rest')) \/
  (_dnsPacket_checkQName (at_ pre rest) = CVal (false, at_ pre rest) /\
   forall labels rest', Forall wf_label labels -> rest <> enc_name labels ++ rest').
Proof.
  intros Hb. apply (checkQName_loop_spec _ _ (Z.of_nat (length pre))); [done| |done].
  cbn [base at_]. rewrite length_app. lia.
Qed.

Lemma checkType_spec types pre rest :
  Forall (fun t => exists v s, t = 0 :: v :: s) types ->
  (exists v s rest', (0 :: v :: s) ∈ types /\ rest = 0 :: v :: rest' /\
     checkType (at_ pre rest) types = CVal (true, at_ (pre ++ [0; v]) rest')) \/
  (checkType (at_ pre rest) types = CVal (false, at_ pre rest) /\
   forall v s rest', (0 :: v :: s) ∈ types -> rest <> 0 :: v :: rest').
Proof.
  induction 1 as [|t types (v & s & ->) _ IH]; [right; split; [done|]; by intros v s r H%not_elem_of_nil|].
  cbn [checkType]. destruct (checkBytes_spec 0 v s pre rest) as [(r & -> & ->)|[-> Hno]]; cbn [mbind cres_bind].
  { left. exists v, s, r. split; [by left|done]. }
  destruct IH as [(v' & s' & r & Hin & -> & ->)|[-> Hno']].
  - left. exists v', s', r. split; [by right|done].
  - right. split; [done|]. intros v' s' r [[= -> ->]|Hin]%elem_of_cons; [apply Hno|by apply (Hno' _ s')].
Qed.

Lemma checkQR_spec pre rest :
  Forall octet rest ->
  (exists q rest', wf_question q /\ rest = enc_question q ++ rest' /\
     _dnsPacket_checkQR (at_ pre rest) = CVal (true, at_ (pre ++ enc_question q) rest')) \/
  (exists pk, _dnsPacket_checkQR (at_ pre rest) = CVal (false, pk) /\
   forall q rest', wf_question q -> rest <> enc_question q ++ rest').
Proof.
  intros Hb. unfold _dnsPacket_checkQR.
  destruct (checkQName_spec pre rest Hb) as [(l & r & Hw & -> & ->)|[-> Hno]]; cbn [mbind cres_bind negb].
  2: { right. eexists. split; [done|]. intros q r [Hq _] ->. apply (Hno (qname q) ([0; qtype q; 0; 1] ++ r)); [done|].
       unfold enc_question. by rewrite <- app_assoc. }
  set (types := [DNS_TYPE_A; DNS_TYPE_PTR; DNS_TYPE_MX; DNS_TYPE_AAAA; DNS_TYPE_ALL]).
  destruct (checkType_spec types (pre ++ enc_name l) r) as [(v & s & r' & Hin & -> & ->)|[-> Hno]].
  { unfold types. repeat apply Forall_cons_2; [by eexists _, _..|constructor]. }
  all: cbn [mbind cres_bind negb].
  2: { right. eexists. split; [done|]. intros q r' [Hq Ht] E. unfold enc_question in E. rewrite <- app_assoc in E.
       apply enc_name_inj in E as [_ ->]; [|done..].
       apply (Hno (qtype q) (if qtype q =? 31 then [55; 0] else [0]) (0 :: 1 :: r')); [|done].
       unfold types, DNS_TYPE_A, DNS_TYPE_PTR, DNS_TYPE_MX, DNS_TYPE_AAAA, DNS_TYPE_ALL.
       repeat (apply elem_of_cons in Ht as [->|Ht]; [cbn [Z.eqb Pos.eqb]; set_solver|]).
       by apply not_elem_of_nil in Ht. }
  assert (v ∈ [1; 12; 15; 28; 31]) as Hv.
  { unfold types in Hin. repeat (apply elem_of_cons in Hin as [[= -> _]|Hin]; [set_solver|]).
    by apply not_elem_of_nil in Hin. }
  unfold DNS_CLASS_IN.
  destruct (checkBytes_spec 0 1 [0] ((pre ++ enc_name l) ++ [0; v]) r') as [(r2 & -> & ->)|[-> Hno]];
    cbn [mbind cres_bind negb].
  - left. exists (mkQuestion l v), r2. split; [done|]. unfold enc_question. cbn [qname qtype].
    split; [by rewrite <- app_assoc|]. do 3 f_equal. by rewrite <- !app_assoc.
  - right. eexists. split; [done|]. intros q r2 [Hq _] E. unfold enc_question in E. rewrite <- app_assoc in E.
    apply enc_name_inj in E as [_ E]; [|done..]. cbn [app] in E. injection E as _ ->. by apply (Hno r2).
Qed.

Lemma checkQRs_spec n : forall pre rest,
  Forall octet rest ->
  (exists qs rest', length qs = n /\ Forall wf_question qs /\ rest = enc_questions qs ++ rest' /\
     checkQRs n (at_ pre rest) = CVal true) \/
  (checkQRs n (at_ pre rest) = CVal false /\
   forall qs rest', length qs = n -> Forall wf_question qs -> rest <> enc_questions qs ++ rest').
Proof.
  induction n as [|n IH]; intros pre rest Hb; [left; by exists [], rest|]. cbn [checkQRs].
  destruct (checkQR_spec pre rest Hb) as [(q & r & Hq & -> & ->)|(pk & -> & Hno)]; cbn [mbind cres_bind negb].
  - apply Forall_app in Hb as [_ Hb].
    destruct (IH (pre ++ enc_question q) r Hb) as [(qs & r' & Hl & Hw & -> & ->)|[-> Hno]].
    + left. exists (q :: qs), r'. split; [by cbn; rewrite Hl|]. split; [by apply Forall_cons_2|].
      unfold enc_questions. cbn [map concat]. by rewrite <- app_assoc.
    + right. split; [done|]. intros [|q' qs] r' [= Hl] Hw E. apply Forall_cons_1 in Hw as [Hq' Hw].
      unfold enc_questions in E. cbn [map concat] in E. rewrite <- app_assoc in E.
      apply enc_question_inj in E as [-> ->]; [|done..]. by apply (Hno qs r').
  - right. split; [done|]. intros [|q' qs] r' [= Hl] Hw E. apply Forall_cons_1 in Hw as [Hq' Hw].
    unfold enc_questions in E. cbn [map concat] in E. rewrite <- app_assoc in E. by apply (Hno q' _ Hq' E).
Qed.

Lemma be16 a b : octet a -> octet b -> Z.lor (Z.shiftl a 8) b = a * 256 + b.
Proof.
  unfold octet. intros Ha Hb. rewrite Z.shiftl_mul_pow2 by lia. change (2 ^ 8) with 256. apply lor_add.
  apply Z.bits_inj'. intros i Hi. rewrite Z.land_spec, Z.bits_0. change 256 with (2 ^ 8).
  destruct (Z.lt_ge_cases i 8).
  - by rewrite Z.mul_pow2_bits_low by lia.
  - rewrite (Z.bits_above_log2 b); [apply andb_false_r|lia|].
    destruct (Z.eq_dec b 0) as [->|]; [cbn; lia|]. pose proof (Z.log2_lt_pow2 b 8). lia.
Qed.

(** A packet of at least twelve bytes. *)
Lemma header_split (d : list Z) :
  12 <= Z.of_nat (length d) -> Forall octet d ->
  exists b0 b1 b2 b3 b4 b5 b6 b7 b8 b9 b10 b11 rest,
    d = [b0; b1; b2; b3; b4; b5; b6; b7; b8; b9; b10; b11] ++ rest /\
    Forall octet [b0; b1; b2; b3; b4; b5; b6; b7; b8; b9; b10; b11] /\ Forall octet rest.
Proof.
  intros Hl Hb. do 12 (destruct d as [|? d]; [cbn [length] in Hl; lia|]).
  eexists _, _, _, _, _, _, _, _, _, _, _, _, d. split; [done|]. by apply Forall_app.
Qed.

Lemma checkQuery_spec d :
  Forall octet d ->
  exists r, _dnsPacket_checkQuery (_dnsPacket_init d) = CVal r /\
    (r = true <-> exists flags qs trail, is_query d flags qs trail).
Proof.
  intros Hb. unfold _dnsPacket_checkQuery. change (pend (_dnsPacket_init d)) with (Z.of_nat (length d)).
  unfold DNS_HEADER_SIZE. destruct (Z.ltb_spec (Z.of_nat (length d)) 12) as [Hl|Hl].
  { exists false. split; [done|]. split; [done|]. intros (fl & qs & tr & i0 & i1 & -> & _).
    rewrite length_app in Hl. cbn [length] in Hl. lia. }
  destruct (header_split d Hl Hb) as (b0 & b1 & b2 & b3 & b4 & b5 & b6 & b7 & b8 & b9 & b10 & b11 & rest & -> & Hh & Hr).
  repeat (apply Forall_cons_1 in Hh as [? Hh]). clear Hh.
  set (hdr := [b0; b1; b2; b3; b4; b5; b6; b7; b8; b9; b10; b11]) in *. cbn [base _dnsPacket_init].
  assert (forall i b, 0 <= i -> hdr !! Z.to_nat i = Some b -> aget (hdr ++ rest) i = CVal b) as G.
  { intros i b Hi E. apply aget_val; [done|]. by apply lookup_app_l_Some. }
  rewrite (G 2 b2), (G 3 b3), (G 4 b4), (G 5 b5), (G 6 b6), (G 7 b7), (G 8 b8), (G 9 b9), (G 10 b10), (G 11 b11) by done.
  cbn [mbind cres_bind]. rewrite !be16 by done. unfold octet in *.
  destruct (decide (Z.land b2 252 = 0 /\ b3 = 0 /\ b6 = 0 /\ b7 = 0 /\ b8 = 0 /\ b9 = 0 /\ b10 = 0 /\ b11 = 0 /\
    b4 * 256 + b5 <> 0)) as [(Hf & -> & -> & -> & -> & -> & -> & -> & Hn)|Hbad].
  2: { exists false. split; [|split; [done|]].
       - repeat bcase; cbn [negb orb]; try done. exfalso. apply Hbad. lia.
       - intros (fl & qs & tr & i0 & i1 & E & Hfl & Hn & _). exfalso. apply Hbad.
         unfold hdr in E. cbn [app] in E. injection E as -> -> -> -> -> -> -> -> -> -> -> -> _. zdm. }
  repeat zif.
  destruct (checkQRs_spec (Z.to_nat (b4 * 256 + b5)) hdr rest Hr) as [(qs & r' & Hlq & Hw & -> & E)|[E Hno]].
  - exists true. split; [exact E|]. split; [|done]. intros _. exists b2, qs, r', b0, b1. rewrite Hlq, Z2Nat.id by lia.
    split; [|split_and!; done || lia]. unfold hdr. do 6 f_equal; [zdm|f_equal; zdm].
  - exists false. split; [exact E|]. split; [done|]. intros (fl & qs & tr & i0 & i1 & E2 & Hfl & Hn2 & Hw). exfalso.
    unfold hdr in E2. cbn [app] in E2. injection E2 as _ _ _ E4 E5 E6. apply (Hno qs tr); [|done|done]. zdm.
Qed.

(** ** The comparison decides whether two queries ask the same *)

#[export] Instance question_eq_dec : EqDecision question.
Proof. solve_decision. Defined.

Lemma isEqualName_loop_spec l1 : forall fuel l2 pk1 pk2 c1 c2 pre1 pre2 r1 r2,
  Forall wf_label l1 -> Forall wf_label l2 -> (length (enc_name l1) <= fuel)%nat ->
  pk1 = mkPacket (pre1 ++ enc_name l1 ++ r1) c1 -> pk2 = mkPacket (pre2 ++ enc_name l2 ++ r2) c2 ->
  isEqualName_loop fuel pk1 pk2 (Z.of_nat (length pre1)) (Z.of_nat (length pre2)) =
    CVal (if bool_decide (l1 = l2) then (true, at_ (pre1 ++ enc_name l1) r1, at_ (pre2 ++ enc_name l2) r2)
          else (false, pk1, pk2)).
Proof.
  induction l1 as [|x l1 IH]; intros [|f] l2 pk1 pk2 c1 c2 pre1 pre2 r1 r2 H1 H2 Hf -> ->;
    try (rewrite ?enc_name_cons in Hf; cbn in Hf; lia); cbn [isEqualName_loop]; rewrite !pend_mk; cbn [base].
  - destruct l2 as [|y l2].
    + rewrite !length_app. cbn [enc_name map concat app length]. do 2 zif. rewrite !aget_app. cbn [mbind cres_bind].
      rewrite Z.eqb_refl. cbn [negb]. do 2 f_equal; [f_equal|].
      * apply (at_seek pre1 [0] r1).
      * apply (at_seek pre2 [0] r2).
    + rewrite enc_name_cons, !length_app. cbn [enc_name map concat app length]. do 2 zif. rewrite !aget_app. cbn [mbind cres_bind].
      apply Forall_cons_1 in H2 as [H2 _]. unfold wf_label in H2. rewrite (proj2 (Z.eqb_neq 0 _)) by lia. by rewrite bool_decide_false.
  - apply Forall_cons_1 in H1 as [Hx H1]. unfold wf_label in Hx. rewrite enc_name_cons in *. destruct l2 as [|y l2].
    + rewrite !length_app. cbn [enc_name map concat app length]. do 2 zif. rewrite !aget_app. cbn [mbind cres_bind].
      rewrite (proj2 (Z.eqb_neq _ 0)) by lia. by rewrite bool_decide_false.
    + apply Forall_cons_1 in H2 as [Hy H2]. unfold wf_label in Hy. rewrite enc_name_cons.
      rewrite !length_app. cbn [app length]. rewrite !length_app. do 2 zif. rewrite !aget_app. cbn [mbind cres_bind].
      destruct (Z.eqb_spec (Z.of_nat (length x)) (Z.of_nat (length y))) as [Hl|Hl]; cbn [negb].
      2: { by rewrite bool_decide_false by congruence. }
      do 4 zif. rewrite Nat2Z.id.
      pose proof (memcmp_spec x y (pre1 ++ [Z.of_nat (length x)]) (pre2 ++ [Z.of_nat (length y)])
        (enc_name l1 ++ r1) (enc_name l2 ++ r2) ltac:(lia)) as M.
      rewrite <- !app_assoc, !length_app in M. cbn [app length] in M. rewrite !Nat2Z.inj_add in M.
      change (Z.of_nat 1) with 1 in M. rewrite <- !app_assoc, M. cbn [mbind cres_bind].
      destruct (bool_decide_reflect (x = y)) as [->|Hne]; cbn [negb].
      2: { by rewrite bool_decide_false by congruence. }
      specialize (IH f l2 (mkPacket (pre1 ++ Z.of_nat (length y) :: y ++ enc_name l1 ++ r1) c1)
        (mkPacket (pre2 ++ Z.of_nat (length y) :: y ++ enc_name l2 ++ r2) c2) c1 c2
        (pre1 ++ Z.of_nat (length y) :: y) (pre2 ++ Z.of_nat (length y) :: y) r1 r2 H1 H2).
      rewrite !length_app in IH. cbn [length] in IH.
      replace (Z.of_nat (length pre1) + 1 + Z.of_nat (length y)) with (Z.of_nat (length pre1 + S (length y))) by lia.
      replace (Z.of_nat (length pre2) + 1 + Z.of_nat (length y)) with (Z.of_nat (length pre2 + S (length y))) by lia.
      rewrite IH; [|cbn [length] in Hf; rewrite length_app in Hf; lia|by rewrite <- app_assoc..].
      rewrite <- !app_assoc.
      destruct (bool_decide_reflect (l1 = l2)) as [->|]; [by rewrite bool_decide_true|by rewrite bool_decide_false by congruence].
Qed.

Lemma isEqualQR_spec q1 q2 pre1 pre2 r1 r2 :
  wf_question q1 -> wf_question q2 ->
  exists pk1 pk2,
    _dnsPacket_isEqualQR (at_ pre1 (enc_question q1 ++ r1)) (at_ pre2 (enc_question q2 ++ r2)) =
    CVal (if bool_decide (q1 = q2) then (true, at_ (pre1 ++ enc_question q1) r1, at_ (pre2 ++ enc_question q2) r2)
          else (false, pk1, pk2)).
Proof.
  intros [H1 _] [H2 _]. unfold _dnsPacket_isEqualQR, _dnsPacket_isEqualDomainName, enc_question. rewrite <- !app_assoc.
  set (t1 := [0; qtype q1; 0; 1]). set (t2 := [0; qtype q2; 0; 1]). cbn [base cursor at_].
  rewrite (isEqualName_loop_spec (qname q1) _ (qname q2) _ _ (Z.of_nat (length pre1)) (Z.of_nat (length pre2))
    pre1 pre2 (t1 ++ r1) (t2 ++ r2)); [|done|done|rewrite !length_app; lia|done|done].
  destruct (bool_decide_reflect (qname q1 = qname q2)) as [Hn|Hn]; cbn [mbind cres_bind negb].
  2: { eexists _, _. by rewrite bool_decide_false by congruence. }
  unfold _dnsPacket_isEqualBytes. rewrite !at_pend. cbn [cursor at_ base].
  rewrite !(proj2 (Z.ltb_ge _ _)) by (rewrite !length_app; unfold t1, t2; cbn [length]; lia). cbn [orb]. change (Z.to_nat 4) with (length t1). rewrite memcmp_spec by done.
  cbn [mbind cres_bind]. destruct (bool_decide_reflect (t1 = t2)) as [Ht|Ht]; cbn [negb].
  - eexists (at_ [] []), (at_ [] []). rewrite bool_decide_true by (destruct q1, q2; cbn in *; unfold t1, t2 in Ht; congruence).
    rewrite !app_assoc. do 2 f_equal; [f_equal|].
    + rewrite <- !app_assoc, (app_assoc pre1). apply (at_seek (pre1 ++ enc_name (qname q1)) t1 r1).
    + rewrite <- !app_assoc, (app_assoc pre2). apply (at_seek (pre2 ++ enc_name (qname q2)) t2 r2).
  - eexists _, _. by rewrite bool_decide_false by (intros ->; done).
Qed.

Lemma isEqualQRs_spec qs1 : forall qs2 pre1 pre2 r1 r2,
  Forall wf_question qs1 -> Forall wf_question qs2 -> length qs1 = length qs2 ->
  isEqualQRs (length qs1) (at_ pre1 (enc_questions qs1 ++ r1)) (at_ pre2 (enc_questions qs2 ++ r2)) =
  CVal (bool_decide (qs1 = qs2)).
Proof.
  induction qs1 as [|q1 qs1 IH]; intros [|q2 qs2] pre1 pre2 r1 r2 H1 H2 Hl; [done..|].
  apply Forall_cons_1 in H1 as [Hq1 H1]. apply Forall_cons_1 in H2 as [Hq2 H2]. injection Hl as Hl.
  unfold enc_questions. cbn [length isEqualQRs map concat]. rewrite <- !app_assoc.
  destruct (isEqualQR_spec q1 q2 pre1 pre2 (concat (map enc_question qs1) ++ r1) (concat (map enc_question qs2) ++ r2) Hq1 Hq2)
    as (pk1 & pk2 & ->).
  destruct (bool_decide_reflect (q1 = q2)) as [->|Hq]; cbn [mbind cres_bind negb].
  - rewrite (IH qs2 _ _ r1 r2 H1 H2 Hl). f_equal. apply bool_decide_ext. split; congruence.
  - by rewrite bool_decide_false by congruence.
Qed.

(** Skipping the flags, reading QDCOUNT and skipping the other counts. *)
Lemma header_walk b0 b1 b2 b3 b4 b5 b6 b7 b8 b9 b10 b11 rest :
  octet b4 -> octet b5 ->
  let hdr := [b0; b1; b2; b3; b4; b5; b6; b7; b8; b9; b10; b11] in
  exists pk, _dnsPacket_readInt16 (_dnsPacket_skip (_dnsPacket_rewind (_dnsPacket_init (hdr ++ rest))) 4) =
    CVal (b4 * 256 + b5, pk) /\ _dnsPacket_skip pk 6 = at_ hdr rest.
Proof.
  intros H4 H5 hdr. exists (mkPacket (hdr ++ rest) 6).
  assert (pend (mkPacket (hdr ++ rest) 6) = 12 + Z.of_nat (length rest)) as Hp.
  { rewrite pend_mk, length_app. cbn [length hdr]. lia. }
  unfold _dnsPacket_skip at 1, _dnsPacket_rewind, _dnsPacket_init, seek. cbn [base cursor].
  change (pend (mkPacket (hdr ++ rest) 0)) with (pend (mkPacket (hdr ++ rest) 6)). rewrite Hp. zif. split.
  - unfold _dnsPacket_readInt16. cbn [base cursor].
    change (pend (mkPacket (hdr ++ rest) (0 + 4))) with (pend (mkPacket (hdr ++ rest) 6)). rewrite Hp. zif.
    rewrite (aget_val _ (0 + 4) b4), (aget_val _ (0 + 4 + 1) b5) by done. cbn [mbind cres_bind].
    by rewrite be16.
  - unfold _dnsPacket_skip, seek. cbn [base cursor]. rewrite Hp. zif. done.
Qed.

Lemma isEqualQuery_spec d1 d2 f1 f2 qs1 qs2 t1 t2 :
  is_query d1 f1 qs1 t1 -> is_query d2 f2 qs2 t2 ->
  _dnsPacket_isEqualQuery (_dnsPacket_init d1) (_dnsPacket_init d2) =
  CVal (bool_decide (Z.land f1 1 = Z.land f2 1 /\ qs1 = qs2)).
Proof.
  intros (i0 & i1 & E1 & _ & Hn1 & Hw1) (j0 & j1 & E2 & _ & Hn2 & Hw2). cbv zeta in E1, E2.
  set (n1 := Z.of_nat (length qs1)) in *. set (n2 := Z.of_nat (length qs2)) in *.
  unfold _dnsPacket_isEqualQuery. cbv zeta. cbn [base _dnsPacket_rewind seek _dnsPacket_init].
  rewrite (aget_val d1 2 f1), (aget_val d2 2 f2) by (done || by rewrite ?E1, ?E2). cbn [mbind cres_bind].
  destruct (Z.eqb_spec (Z.land f1 1) (Z.land f2 1)) as [Hf|Hf]; cbn [negb].
  2: { by rewrite bool_decide_false by naive_solver. }
  destruct (header_walk i0 i1 f1 0 (n1 / 256) (n1 mod 256) 0 0 0 0 0 0 (enc_questions qs1 ++ t1)) as (pk1 & R1 & S1);
    [unfold octet; zdm..|].
  destruct (header_walk j0 j1 f2 0 (n2 / 256) (n2 mod 256) 0 0 0 0 0 0 (enc_questions qs2 ++ t2)) as (pk2 & R2 & S2);
    [unfold octet; zdm..|].
  rewrite <- E1 in R1. rewrite <- E2 in R2.
  rewrite R1. cbn [mbind cres_bind]. rewrite R2. cbn [mbind cres_bind]. rewrite S1, S2.
  replace (n1 / 256 * 256 + n1 mod 256) with n1 by zdm. replace (n2 / 256 * 256 + n2 mod 256) with n2 by zdm.
  destruct (Z.eqb_spec n1 n2) as [Hn|Hn]; cbn [negb orb].
  2: { rewrite bool_decide_false; [done|]. intros [_ ->]. done. }
  zif. unfold n1. rewrite Nat2Z.id, isEqualQRs_spec; [|done|done|lia].
  f_equal. apply bool_decide_ext. naive_solver.
Qed.

(** ** The hash reads only the packet, and only what follows its first four bytes *)

Section Hash.
Context (d1 d2 : list Z) (Hb : Forall octet d1) (Hlen : length d1 = length d2).
Context (Hag : forall i, 4 <= i -> aget d1 i = aget d2 i).

Lemma get_in p : 4 <= p < Z.of_nat (length d1) -> exists b, aget d1 p = CVal b /\ aget d2 p = CVal b /\ octet b.
Proof.
  intros Hp. destruct (lookup_lt_is_Some_2 d1 (Z.to_nat p)) as [b Hx]; [lia|].
  exists b. rewrite <- Hag by lia. rewrite (aget_val d1 p b) by (lia || done). split; [done|]. split; [done|].
  by apply (Forall_lookup_1 octet d1 (Z.to_nat p)).
Qed.

Lemma hashBytes_both fuel : forall c n h p,
  4 <= p -> (0 < fuel)%nat -> Z.of_nat (length d1) - p < Z.of_nat fuel ->
  exists h' p', 4 <= p' /\ hashBytes_loop fuel (mkPacket d1 c) n h p = CVal (h', p') /\
    hashBytes_loop fuel (mkPacket d2 c) n h p = CVal (h', p').
Proof.
  induction fuel as [|f IH]; intros c n h p Hp H0 Hf; [lia|].
  cbn [hashBytes_loop]. rewrite !pend_mk, <- !Hlen. cbn [base].
  destruct (Z.ltb_spec 0 n); cbn [andb]; [|by exists h, p].
  destruct (Z.ltb_spec p (Z.of_nat (length d1))); [|by exists h, p].
  destruct (get_in p) as (b & -> & -> & _); [lia|]. cbn [mbind cres_bind]. apply IH; lia.
Qed.

Lemma hashLabel_both k : forall c h p,
  4 <= p -> p + Z.of_nat k <= Z.of_nat (length d1) ->
  exists h', hashLabel k (mkPacket d1 c) h p = CVal (h', p + Z.of_nat k) /\
    hashLabel k (mkPacket d2 c) h p = CVal (h', p + Z.of_nat k).
Proof.
  induction k as [|k IH]; intros c h p Hp Hk; cbn [hashLabel base]; [exists h; by rewrite Z.add_0_r|].
  destruct (get_in p) as (b & -> & -> & _); [lia|]. cbn [mbind cres_bind].
  destruct (IH c (fnv h b) (p + 1)) as (h' & -> & ->); [lia..|]. exists h'.
  by replace (p + 1 + Z.of_nat k) with (p + Z.of_nat (S k)) by lia.
Qed.

Lemma hashQName_both fuel : forall c h p,
  4 <= p -> (0 < fuel)%nat -> Z.of_nat (length d1) - p < Z.of_nat fuel ->
  exists h' p', 4 <= p' /\ hashQName_loop fuel (mkPacket d1 c) h p = CVal (h', p') /\
    hashQName_loop fuel (mkPacket d2 c) h p = CVal (h', p').
Proof.
  induction fuel as [|f IH]; intros c h p Hp H0 Hf; [lia|].
  cbn [hashQName_loop]. rewrite !pend_mk, <- !Hlen. cbn [base].
  destruct (Z.leb_spec (Z.of_nat (length d1)) p); [by exists h, p|].
  destruct (get_in p) as (b & -> & -> & Hbo); [lia|]. cbn [mbind cres_bind]. unfold octet in Hbo.
  destruct (Z.eqb_spec b 0); [exists h, (p + 1); split_and!; [lia|done..]|].
  destruct (Z.leb_spec 64 b); [exists h, (p + 1); split_and!; [lia|done..]|].
  destruct (Z.leb_spec (Z.of_nat (length d1)) (p + 1 + b)); [exists h, (p + 1); split_and!; [lia|done..]|].
  destruct (hashLabel_both (Z.to_nat b) c h (p + 1)) as (h' & -> & ->); [lia..|]. cbn [mbind cres_bind].
  apply IH; lia.
Qed.

Lemma hashQR_both c h :
  4 <= c -> exists h' c', 4 <= c' /\ _dnsPacket_hashQR (mkPacket d1 c) h = CVal (h', mkPacket d1 c') /\
    _dnsPacket_hashQR (mkPacket d2 c) h = CVal (h', mkPacket d2 c').
Proof.
  intros Hc. unfold _dnsPacket_hashQR, _dnsPacket_hashQName, _dnsPacket_hashBytes. cbn [base cursor]. rewrite <- Hlen.
  destruct (hashQName_both (S (length d1)) c h c) as (h1 & p1 & Hp1 & -> & ->); [lia..|]. cbn [mbind cres_bind].
  unfold seek. cbn [base cursor].
  destruct (hashBytes_both (S (length d1)) p1 4 h1 p1) as (h2 & p2 & Hp2 & E1 & E2); [lia..|].
  rewrite <- Hlen, E1, E2. cbn [mbind cres_bind]. by exists h2, p2.
Qed.

Lemma hashQRs_both n : forall c h,
  4 <= c -> exists h', hashQRs n (mkPacket d1 c) h = CVal h' /\ hashQRs n (mkPacket d2 c) h = CVal h'.
Proof.
  induction n as [|n IH]; intros c h Hc; cbn [hashQRs]; [by exists h|].
  destruct (hashQR_both c h Hc) as (h1 & c1 & Hc1 & -> & ->). cbn [mbind cres_bind]. by apply IH.
Qed.

Lemma hashQuery_both b1 b2 :
  3 <= Z.of_nat (length d1) -> aget d1 2 = CVal b1 -> aget d2 2 = CVal b2 -> Z.land b1 1 = Z.land b2 1 ->
  exists h, _dnsPacket_hashQuery (_dnsPacket_init d1) = CVal h /\ _dnsPacket_hashQuery (_dnsPacket_init d2) = CVal h.
Proof.
  intros Hl H1 H2 Hland. unfold _dnsPacket_hashQuery. cbn [base _dnsPacket_rewind seek _dnsPacket_init].
  rewrite H1, H2. cbn [mbind cres_bind]. rewrite Hland. set (h := fnv FNV_BASIS _).
  change (_dnsPacket_rewind (_dnsPacket_init d1)) with (mkPacket d1 0).
  change (_dnsPacket_rewind (_dnsPacket_init d2)) with (mkPacket d2 0). rewrite !skip_mk, <- !Hlen.
  unfold _dnsPacket_readInt16. cbn [base cursor]. rewrite !pend_mk, <- !Hlen.
  destruct (Z.ltb_spec (Z.of_nat (length d1)) (0 + 4)).
  - rewrite (proj2 (Z.ltb_lt _ _)) by lia. cbn [mbind cres_bind]. by exists h.
  - bcase; [cbn [mbind cres_bind]; by exists h|].
    destruct (get_in (0 + 4)) as (x & -> & -> & _); [lia|]. destruct (get_in (0 + 4 + 1)) as (y & -> & -> & _); [lia|].
    cbn [mbind cres_bind]. unfold seek. cbn [base cursor]. rewrite !skip_mk, <- !Hlen.
    bcase; apply hashQRs_both; lia.
Qed.
End Hash.

(** The hash is defined for three bytes or more. *)
Lemma hashQuery_total d :
  Forall octet d -> 3 <= Z.of_nat (length d) -> exists h, _dnsPacket_hashQuery (_dnsPacket_init d) = CVal h.
Proof.
  intros Hb Hl. destruct (lookup_lt_is_Some_2 d 2) as [b Hx]; [lia|].
  destruct (hashQuery_both d d Hb eq_refl ltac:(done) b b) as (h & E & _); [done|..|done|by exists h].
  all: by apply aget_val.
Qed.

(** It reads the flags of shorter packets outside of them. *)
Lemma hashQuery_short d :
  Z.of_nat (length d) < 3 -> _dnsPacket_hashQuery (_dnsPacket_init d) = CUndef.
Proof.
  intros Hl. unfold _dnsPacket_hashQuery, aget. cbn [base _dnsPacket_rewind seek _dnsPacket_init Z.ltb Z.compare].
  rewrite lookup_ge_None_2 by lia. done.
Qed.

(** Two queries without trailing bytes that ask the same differ in the identifier
    and in TC only. *)
Lemma same_query_agree d1 d2 f1 f2 qs :
  is_query d1 f1 qs [] -> is_query d2 f2 qs [] ->
  length d1 = length d2 /\ (forall i, 4 <= i -> aget d1 i = aget d2 i) /\
  aget d1 2 = CVal f1 /\ aget d2 2 = CVal f2 /\ 3 <= Z.of_nat (length d1).
Proof.
  intros (i0 & i1 & -> & _) (j0 & j1 & -> & _). rewrite !length_app. cbn [length]. split_and!; [done| |done|done|lia].
  intros i Hi. unfold aget. zif. replace (Z.to_nat i) with (4 + Z.to_nat (i - 4))%nat by lia. done.
Qed.

(** _dnsPacket_checkQuery reads only inside the packet, terminates, and accepts
    exactly the queries: a header without other flags than TC and RD and without
    answer, authority and additional records, followed by as many well-formed
    questions (labels of 1 to 63 bytes, a supported type, the class IN) as QDCOUNT
    says. *)
Theorem check_query_exact (d : list Z) :
  Forall octet d ->
  exists r, _dnsPacket_checkQuery (_dnsPacket_init d) = CVal r /\
    (r = true <-> exists flags qs trail, is_query d flags qs trail).
Proof. apply checkQuery_spec. Qed.

(** A query for the address (type 1) of "a.bc", and one of another type. *)
Definition sample_query (ty : Z) : list Z :=
  [7; 7; 1; 0; 0; 1; 0; 0; 0; 0; 0; 0] ++ [1; 97; 2; 98; 99; 0] ++ [0; ty; 0; 1].

Lemma check_query_exact_witness :
  _dnsPacket_checkQuery (_dnsPacket_init (sample_query 1)) = CVal true /\
  exists r, _dnsPacket_checkQuery (_dnsPacket_init (sample_query 1)) = CVal r /\
    (r = true <-> exists flags qs trail, is_query (sample_query 1) flags qs trail).
Proof.
  split; [reflexivity|]. apply (check_query_exact (sample_query 1)).
  unfold sample_query, octet. cbn [app]. repeat (apply Forall_cons_2; [lia|]). constructor.
Defined.

(** The type 255 that DNS_TYPE_ALL is meant to be is rejected, 31 is accepted. *)
Lemma type_all_unsupported :
  _dnsPacket_checkQuery (_dnsPacket_init (sample_query 255)) = CVal false /\
  _dnsPacket_checkQuery (_dnsPacket_init (sample_query 31)) = CVal true.
Proof. split; reflexivity. Qed.

(** On queries, _dnsPacket_isEqualQuery and _dnsPacket_hashQuery read only inside
    the packets and terminate; the comparison is true exactly when both have the
    same RD bit and the same questions, whatever their identifiers; and two such
    queries without trailing bytes have the same hash, so that they meet in the
    hash table. *)
Theorem query_equal_hash (d1 d2 : list Z) (f1 f2 : Z) (qs1 qs2 : list question) :
  Forall octet d1 -> Forall octet d2 -> is_query d1 f1 qs1 [] -> is_query d2 f2 qs2 [] ->
  exists b h1 h2,
    _dnsPacket_isEqualQuery (_dnsPacket_init d1) (_dnsPacket_init d2) = CVal b /\
    _dnsPacket_hashQuery (_dnsPacket_init d1) = CVal h1 /\ _dnsPacket_hashQuery (_dnsPacket_init d2) = CVal h2 /\
    (b = true <-> Z.land f1 1 = Z.land f2 1 /\ qs1 = qs2) /\ (b = true -> h1 = h2).
Proof.
  intros B1 B2 Q1 Q2. exists (bool_decide (Z.land f1 1 = Z.land f2 1 /\ qs1 = qs2)).
  rewrite (isEqualQuery_spec d1 d2 f1 f2 qs1 qs2 [] [] Q1 Q2).
  destruct (same_query_agree d1 d1 f1 f1 qs1 Q1 Q1) as (_ & _ & _ & _ & L1).
  destruct (same_query_agree d2 d2 f2 f2 qs2 Q2 Q2) as (_ & _ & _ & _ & L2).
  destruct (bool_decide_reflect (Z.land f1 1 = Z.land f2 1 /\ qs1 = qs2)) as [[Hf <-]|Hne].
  - destruct (same_query_agree d1 d2 f1 f2 qs1 Q1 Q2) as (Hl & Ha & G1 & G2 & _).
    destruct (hashQuery_both d1 d2 B1 Hl Ha f1 f2 L1 G1 G2 Hf) as (h & -> & ->). exists h, h. naive_solver.
  - destruct (hashQuery_total d1 B1 L1) as [h1 ->], (hashQuery_total d2 B2 L2) as [h2 ->]. exists h1, h2. naive_solver.
Qed.

Lemma query_equal_hash_witness :
  let q := mkQuestion [[97]; [98; 99]] 1 in
  exists b h1 h2,
    _dnsPacket_isEqualQuery (_dnsPacket_init (sample_query 1)) (_dnsPacket_init (0 :: tail (sample_query 1))) = CVal b /\
    _dnsPacket_hashQuery (_dnsPacket_init (sample_query 1)) = CVal h1 /\
    _dnsPacket_hashQuery (_dnsPacket_init (0 :: tail (sample_query 1))) = CVal h2 /\
    (b = true <-> Z.land 1 1 = Z.land 1 1 /\ [q] = [q]) /\ (b = true -> h1 = h2).
Proof.
  intros q. apply (query_equal_hash _ _ 1 1 [q] [q]).
  - unfold sample_query, octet. cbn [app]. repeat (apply Forall_cons_2; [lia|]). constructor.
  - unfold sample_query, octet. cbn [app tail]. repeat (apply Forall_cons_2; [lia|]). constructor.
  - exists 7, 7. split; [reflexivity|]. split; [reflexivity|]. split; [split; reflexivity || discriminate|].
    apply Forall_cons_2; [|constructor]. split; [|by left].
    apply Forall_cons_2; [split; cbn; lia|]. apply Forall_cons_2; [split; cbn; lia|constructor].
  - exists 0, 7. split; [reflexivity|]. split; [reflexivity|]. split; [split; reflexivity || discriminate|].
    apply Forall_cons_2; [|constructor]. split; [|by left].
    apply Forall_cons_2; [split; cbn; lia|]. apply Forall_cons_2; [split; cbn; lia|constructor].
Defined.
