(* ===== verification/DnsCache.v ===== *)
(** * The resolver cache: the second half of libc/netbsd/resolv/res_cache.c

    Entries live in a heap and are linked twice, by address: into the collision
    chain of their hash value (hlink) and into the circular most-recently-used
    list (mru_prev, mru_next), whose head is a member of the cache.  Freed entries
    leave the heap, and an access to an address outside of it is undefined.  The
    functions run under cache->lock.  The abstract cache is a list of queries with
    their answers and times, most recently used first; every operation refines the
    operation on that list. *)

From Stdlib Require Import ZArith Lia.
From stdpp Require Import base gmap list numbers sets.
From S2P Require Import Prelude Links DnsQuery.

Open Scope Z_scope.

Definition CONFIG_SECONDS : Z := 60 * 10.
Definition CONFIG_MAX_ENTRIES : Z := 64.
Definition MAX_HASH_ENTRIES : Z := 2 * CONFIG_MAX_ENTRIES.

(** Of the addresses 0 is NULL, and [mru_list] is the address of cache->mru_list. *)
Definition mru_list : Z := 1.

(** querylen and answerlen are the lengths of the byte lists. *)
Record Entry := mkEntry {
  hash : Z; hlink : Z; mru_prev : Z; mru_next : Z;
  query : list Z; answer : list Z; when : Z; id : Z
}.

Definition set_hlink (e : Entry) (v : Z) : Entry :=
  mkEntry (hash e) v (mru_prev e) (mru_next e) (query e) (answer e) (when e) (id e).
Definition set_prev (e : Entry) (v : Z) : Entry :=
  mkEntry (hash e) (hlink e) v (mru_next e) (query e) (answer e) (when e) (id e).
Definition set_next (e : Entry) (v : Z) : Entry :=
  mkEntry (hash e) (hlink e) (mru_prev e) v (query e) (answer e) (when e) (id e).
Definition set_id (e : Entry) (v : Z) : Entry :=
  mkEntry (hash e) (hlink e) (mru_prev e) (mru_next e) (query e) (answer e) (when e) v.

Abbreviation Heap := (gmap Z Entry).

Record Cache := mkCache { num_entries : Z; heap : Heap; generation : Z; last_id : Z; entries : list Z }.

Definition with_heap (c : Cache) (h : Heap) : Cache :=
  mkCache (num_entries c) h (generation c) (last_id c) (entries c).

Definition hget (h : Heap) (a : Z) : cres Entry := match h !! a with Some e => CVal e | None => CUndef end.
(** a->field = v *)
Definition hset (h : Heap) (a : Z) (set : Entry -> Z -> Entry) (v : Z) : cres Heap :=
  e ← hget h a; CVal (<[a := set e v]> h).

(** free(e): the entry must be there. *)
Definition entry_free (h : Heap) (e : Z) : cres Heap :=
  if e =? NULL then CVal h else match h !! e with Some _ => CVal (delete e h) | None => CUndef end.

Definition entry_mru_remove (h : Heap) (e : Z) : cres Heap :=
  x ← hget h e; h ← hset h (mru_prev x) set_next (mru_next x);
  x ← hget h e; hset h (mru_next x) set_prev (mru_prev x).

Definition entry_mru_add (h : Heap) (e list : Z) : cres Heap :=
  l ← hget h list;
  let first := mru_next l in
  h ← hset h e set_next first;
  h ← hset h e set_prev list;
  h ← hset h list set_next e;
  hset h first set_prev e.

Definition entry_hash (q : list Z) : cres Z := _dnsPacket_hashQuery (_dnsPacket_init q).

(** The key and whether the query is supported; the hash is computed first. *)
Definition entry_init_key (q : list Z) : cres (bool * Entry) :=
  hv ← entry_hash q;
  ok ← _dnsPacket_checkQuery (_dnsPacket_init q);
  CVal (ok, mkEntry hv 0 0 0 q [] 0 0).

(** [a] is what calloc returns: NULL, or an address that is not in use.  [now] is
    the time. *)
Definition entry_alloc (h : Heap) (init : Entry) (ans : list Z) (a now : Z) : Heap :=
  if a =? NULL then h else <[a := mkEntry (hash init) 0 0 0 (query init) ans now 0]> h.

Definition entry_equals (e1 e2 : Entry) : cres bool :=
  if negb (Z.of_nat (length (query e1)) =? Z.of_nat (length (query e2))) then CVal false
  else _dnsPacket_isEqualQuery (_dnsPacket_init (query e1)) (_dnsPacket_init (query e2)).

(** An Entry**: a slot of the table or the hlink of an entry. *)
Inductive place := Slot (i : Z) | Hlink (a : Z).

Definition deref (c : Cache) (p : place) : cres Z :=
  match p with Slot i => aget (entries c) i | Hlink a => e ← hget (heap c) a; CVal (hlink e) end.

Definition assign (c : Cache) (p : place) (v : Z) : cres Cache :=
  match p with
  | Slot i => es ← aset (entries c) i v; CVal (mkCache (num_entries c) (heap c) (generation c) (last_id c) es)
  | Hlink a => h ← hset (heap c) a set_hlink v; CVal (with_heap c h)
  end.

(** while ( *pnode != NULL) { ... free(node) } of the flush *)
Fixpoint flush_chain (fuel : nat) (c : Cache) (pnode : place) : cres Cache :=
  match fuel with
  | O => CFuel
  | S f =>
      node ← deref c pnode;
      if node =? NULL then CVal c
      else
        e ← hget (heap c) node;
        c ← assign c pnode (hlink e);
        h ← entry_free (heap c) node;
        flush_chain f (with_heap c h) pnode
  end.

(** for (nn = 0; nn < MAX_HASH_ENTRIES; nn++), [k] slots before the end.  A chain is
    not longer than the heap is large. *)
Fixpoint flush_slots (k : nat) (c : Cache) (nn : Z) : cres Cache :=
  match k with
  | O => CVal c
  | S k' => c ← flush_chain (S (size (heap c))) c (Slot nn); flush_slots k' c (nn + 1)
  end.

Definition _cache_flush_locked (c : Cache) : cres Cache :=
  c ← flush_slots (Z.to_nat MAX_HASH_ENTRIES) c 0;
  h ← hset (heap c) mru_list set_prev mru_list;
  h ← hset h mru_list set_next mru_list;
  CVal (mkCache 0 h (generation c) 0 (entries c)).

Definition _resolv_cache_create : Cache :=
  mkCache 0 {[mru_list := mkEntry 0 0 mru_list mru_list [] [] 0 0]} (u32 (Z.lnot 0)) 0
    (replicate (Z.to_nat MAX_HASH_ENTRIES) NULL).

Fixpoint lookup_loop (fuel : nat) (c : Cache) (key : Entry) (pnode : place) : cres place :=
  match fuel with
  | O => CFuel
  | S f =>
      node ← deref c pnode;
      if node =? NULL then CVal pnode
      else
        e ← hget (heap c) node;
        eq ← (if hash e =? hash key then entry_equals e key else CVal false);
        if (eq : bool) then CVal pnode else lookup_loop f c key (Hlink node)
  end.

Definition _cache_lookup_p (c : Cache) (key : Entry) : cres place :=
  lookup_loop (S (size (heap c))) c key (Slot (hash key mod MAX_HASH_ENTRIES)).

Definition _cache_add_p (c : Cache) (lookup : place) (e : Z) : cres Cache :=
  c ← assign c lookup e;
  let last := s32 (last_id c + 1) in
  h ← hset (heap c) e set_id last;
  h ← entry_mru_add h e mru_list;
  CVal (mkCache (s32 (num_entries c + 1)) h (generation c) last (entries c)).

Definition _cache_remove_p (c : Cache) (lookup : place) : cres Cache :=
  e ← deref c lookup;
  h ← entry_mru_remove (heap c) e;
  x ← hget h e;
  c ← assign (with_heap c h) lookup (hlink x);
  h ← entry_free (heap c) e;
  CVal (mkCache (s32 (num_entries c - 1)) h (generation c) (last_id c) (entries c)).

Definition _cache_remove_oldest (c : Cache) : cres Cache :=
  l ← hget (heap c) mru_list;
  oldest ← hget (heap c) (mru_prev l);
  lookup ← _cache_lookup_p c oldest;
  e ← deref c lookup;
  if e =? NULL then CVal c else _cache_remove_p c lookup.

Inductive ResolvCacheStatus := RESOLV_CACHE_UNSUPPORTED | RESOLV_CACHE_NOTFOUND | RESOLV_CACHE_FOUND.

(** The status, what is stored in *answerlen and what is copied to the answer
    buffer of [answersize] bytes. *)
Definition _resolv_cache_lookup (c : Cache) (q : list Z) (answersize now : Z)
    : cres (ResolvCacheStatus * option Z * option (list Z) * Cache) :=
  '(ok, key) ← entry_init_key q;
  if negb ok then CVal (RESOLV_CACHE_UNSUPPORTED, None, None, c)
  else
    lookup ← _cache_lookup_p c key;
    e ← deref c lookup;
    if e =? NULL then CVal (RESOLV_CACHE_NOTFOUND, None, None, c)
    else
      x ← hget (heap c) e;
      if CONFIG_SECONDS <=? u32 (now - when x) then
        c ← _cache_remove_p c lookup; CVal (RESOLV_CACHE_NOTFOUND, None, None, c)
      else
        let answerlen := Z.of_nat (length (answer x)) in
        if answersize <? answerlen then CVal (RESOLV_CACHE_UNSUPPORTED, Some answerlen, None, c)
        else
          l ← hget (heap c) mru_list;
          h ← (if negb (e =? mru_next l) then h ← entry_mru_remove (heap c) e; entry_mru_add h e mru_list
               else CVal (heap c));
          CVal (RESOLV_CACHE_FOUND, Some answerlen, Some (answer x), with_heap c h).

(** entry_alloc and _cache_add_p at the end of _resolv_cache_add *)
Definition add_new (c : Cache) (lookup : place) (key : Entry) (ans : list Z) (a now : Z) : cres Cache :=
  let c := with_heap c (entry_alloc (heap c) key ans a now) in
  if negb (a =? NULL) then _cache_add_p c lookup a else CVal c.

Definition _resolv_cache_add (c : Cache) (q ans : list Z) (a now : Z) : cres Cache :=
  '(ok, key) ← entry_init_key q;
  if negb ok then CVal c
  else
    lookup ← _cache_lookup_p c key;
    e ← deref c lookup;
    if negb (e =? NULL) then CVal c
    else if CONFIG_MAX_ENTRIES <=? num_entries c then
      c ← _cache_remove_oldest c;
      lookup ← _cache_lookup_p c key;
      e ← deref c lookup;
      if negb (e =? NULL) then CVal c else add_new c lookup key ans a now
    else add_new c lookup key ans a now.

(** _res_cache_init: [env] is what getenv and atoi give for CONFIG_ENV; [ok] whether
    calloc succeeds. *)
Definition _res_cache_init (env : option Z) (ok : bool) : option Cache :=
  match env with
  | Some 0 => None
  | _ => if ok then Some _resolv_cache_create else None
  end.

Definition _resolv_cache_reset (res_cache : option Cache) (gen : Z) : cres (option Cache) :=
  match res_cache with
  | None => CVal None
  | Some c =>
      if negb (generation c =? gen) then
        c ← _cache_flush_locked c;
        CVal (Some (mkCache (num_entries c) (heap c) gen (last_id c) (entries c)))
      else CVal (Some c)
  end.

(** ** The fields of the heap *)

Definition nxt (h : Heap) (a : Z) : option Z := mru_next <$> h !! a.
Definition prv (h : Heap) (a : Z) : option Z := mru_prev <$> h !! a.
Definition hlk (h : Heap) (a : Z) : option Z := hlink <$> h !! a.
(** What does not change while an entry lives. *)
Definition dat (h : Heap) (a : Z) : option (Z * list Z * list Z * Z) :=
  (fun e => (hash e, query e, answer e, when e)) <$> h !! a.

Lemma dat_get h a hv q ans w :
  dat h a = Some (hv, q, ans, w) ->
  exists e, h !! a = Some e /\ hget h a = CVal e /\ hash e = hv /\ query e = q /\ answer e = ans /\ when e = w.
Proof. unfold dat, hget. destruct (h !! a) as [e|] eqn:E; [|done]. intros [= <- <- <- <-]. by exists e. Qed.

Lemma dat_some h a : is_Some (dat h a) <-> is_Some (h !! a).
Proof. unfold dat. by rewrite fmap_is_Some. Qed.

(** [h'] is [h] but for one link of [a]. *)
Ltac field_update a :=
  intros [e He]; unfold hset, hget; rewrite He; cbn [mbind cres_bind]; eexists; split; [reflexivity|];
  unfold nxt, prv, hlk, dat; split_and!; intros b; destruct (Z.eqb_spec b a) as [->|];
  rewrite ?lookup_insert_eq, ?lookup_insert_ne, ?He by done; done.

Lemma hset_next h a v :
  is_Some (h !! a) -> exists h', hset h a set_next v = CVal h' /\
    (forall b, nxt h' b = if b =? a then Some v else nxt h b) /\ (forall b, prv h' b = prv h b) /\
    (forall b, hlk h' b = hlk h b) /\ (forall b, dat h' b = dat h b).
Proof. field_update a. Qed.

Lemma hset_prev h a v :
  is_Some (h !! a) -> exists h', hset h a set_prev v = CVal h' /\
    (forall b, prv h' b = if b =? a then Some v else prv h b) /\ (forall b, nxt h' b = nxt h b) /\
    (forall b, hlk h' b = hlk h b) /\ (forall b, dat h' b = dat h b).
Proof. field_update a. Qed.

Lemma hset_hlink h a v :
  is_Some (h !! a) -> exists h', hset h a set_hlink v = CVal h' /\
    (forall b, hlk h' b = if b =? a then Some v else hlk h b) /\ (forall b, nxt h' b = nxt h b) /\
    (forall b, prv h' b = prv h b) /\ (forall b, dat h' b = dat h b).
Proof. field_update a. Qed.

Lemma hset_id h a v :
  is_Some (h !! a) -> exists h', hset h a set_id v = CVal h' /\
    (forall b, hlk h' b = hlk h b) /\ (forall b, nxt h' b = nxt h b) /\
    (forall b, prv h' b = prv h b) /\ (forall b, dat h' b = dat h b).
Proof. field_update a. Qed.

Lemma dat_in h h' a : (forall b, dat h' b = dat h b) -> is_Some (h !! a) -> is_Some (h' !! a).
Proof. intros E H. apply dat_some. rewrite E. by apply dat_some. Qed.

(** ** The doubly linked list *)

Fixpoint links (h : Heap) (l : list Z) : Prop :=
  match l with
  | a :: (b :: _) as r => nxt h a = Some b /\ prv h b = Some a /\ links h r
  | _ => True
  end.

Lemma links_app h u a w : links h (u ++ a :: w) <-> links h (u ++ [a]) /\ links h (a :: w).
Proof.
  induction u as [|x [|y u] IH]; cbn [app links] in *; [naive_solver..|]. rewrite IH. naive_solver.
Qed.

Lemma links_cons2 h a b w : links h (a :: b :: w) <-> nxt h a = Some b /\ prv h b = Some a /\ links h (b :: w).
Proof. done. Qed.

Lemma links_frame h h' l :
  links h l -> (forall a, a ∈ removelast l -> nxt h' a = nxt h a) -> (forall b, b ∈ tail l -> prv h' b = prv h b) ->
  links h' l.
Proof.
  induction l as [|a [|b l] IH]; [done..|]. intros (H1 & H2 & H3) Hn Hp.
  change (removelast (a :: b :: l)) with (a :: removelast (b :: l)) in Hn. cbn [tail] in Hp.
  rewrite links_cons2, Hn, Hp by left. split_and!; [done..|]. apply IH; [done| |].
  - intros x Hx. apply Hn. by right.
  - intros x Hx. apply Hp. by right.
Qed.

Lemma nxt_some h a b : nxt h a = Some b -> is_Some (h !! a).
Proof. unfold nxt. intros H. apply fmap_is_Some with mru_next. by rewrite H. Qed.
Lemma prv_some h a b : prv h a = Some b -> is_Some (h !! a).
Proof. unfold prv. intros H. apply fmap_is_Some with mru_prev. by rewrite H. Qed.

Lemma removelast_sub {A} (l : list A) a : a ∈ removelast l -> a ∈ l.
Proof.
  induction l as [|x [|y l] IH]; [done|by intros H%not_elem_of_nil|].
  intros [->|H]%elem_of_cons; [left|right; by apply IH].
Qed.

Lemma removelast_snoc {A} (l : list A) x : removelast (l ++ [x]) = l.
Proof. apply removelast_last. Qed.

Lemma get_links h a p n :
  prv h a = Some p -> nxt h a = Some n -> exists e, hget h a = CVal e /\ mru_prev e = p /\ mru_next e = n.
Proof.
  unfold prv, nxt, hget. destruct (h !! a) as [e|]; [|done]. intros [= <-] [= <-]. by exists e.
Qed.

Lemma mru_remove_spec h u p e n w :
  links h (u ++ p :: e :: n :: w) -> NoDup (u ++ p :: e :: removelast (n :: w)) -> NoDup (tail (u ++ [p]) ++ e :: n :: w) ->
  exists h', entry_mru_remove h e = CVal h' /\ links h' (u ++ p :: n :: w) /\
    (forall b, hlk h' b = hlk h b) /\ (forall b, dat h' b = dat h b).
Proof.
  intros L N1 N2. apply links_app in L as [Lu L]. apply links_cons2 in L as (P1 & P2 & L).
  apply links_cons2 in L as (P3 & P4 & Lw).
  apply list.NoDup_app in N1 as (_ & N1u & N1). apply list.NoDup_cons in N1 as [Npe N1].
  apply list.NoDup_cons in N1 as [_ _]. apply list.NoDup_app in N2 as (_ & N2u & N2).
  apply list.NoDup_cons in N2 as [Nen N2]. apply list.NoDup_cons in N2 as [Nnw _].
  unfold entry_mru_remove. destruct (get_links h e p n P2 P3) as (x & -> & <- & <-). cbn [mbind cres_bind].
  set (p := mru_prev x) in *. set (n := mru_next x) in *.
  assert (p <> e) as Hpe by (intros ->; apply Npe; left).
  destruct (hset_next h p n) as (h1 & -> & F1 & F2 & F3 & F4); [by eapply nxt_some|]. cbn [mbind cres_bind].
  destruct (get_links h1 e p n) as (x1 & -> & E1 & E2).
  { by rewrite F2. } { rewrite F1. zif. done. }
  cbn [mbind cres_bind]. rewrite E1, E2.
  destruct (hset_prev h1 n p) as (h2 & E3 & G1 & G2 & G3 & G4).
  { apply (dat_in h); [done|]. by eapply prv_some. }
  exists h2. split; [done|]. split_and!; [|intros b; by rewrite G3, F3|intros b; by rewrite G4, F4].
  apply links_app. split; [|apply links_cons2; split_and!].
  - apply (links_frame h); [done| |].
    + intros a Ha. rewrite removelast_snoc in Ha. rewrite G2, F1. destruct (Z.eqb_spec a p) as [->|]; [|done].
      exfalso. apply (N1u p Ha). left.
    + intros b Hb. rewrite G1, F2. destruct (Z.eqb_spec b n) as [->|]; [|done].
      exfalso. apply (N2u n Hb). right; left.
  - rewrite G2, F1. by rewrite Z.eqb_refl.
  - rewrite G1. by rewrite Z.eqb_refl.
  - apply (links_frame h); [done| |].
    + intros a Ha. rewrite G2, F1. destruct (Z.eqb_spec a p) as [->|]; [|done].
      exfalso. apply Npe. by right.
    + intros b Hb. cbn [tail] in Hb. rewrite G1, F2. destruct (Z.eqb_spec b n) as [->|]; done.
Qed.

Lemma mru_add_spec h e l f w :
  links h (l :: f :: w) -> is_Some (h !! e) -> e ∉ l :: f :: w -> l ∉ removelast (f :: w) -> f ∉ w ->
  exists h', entry_mru_add h e l = CVal h' /\ links h' (l :: e :: f :: w) /\
    (forall b, hlk h' b = hlk h b) /\ (forall b, dat h' b = dat h b).
Proof.
  intros L He Ne Nl Nf. apply links_cons2 in L as (P1 & P2 & L).
  assert (e <> l /\ e <> f /\ e ∉ w) as (Hel & Hef & Hew) by set_solver.
  unfold entry_mru_add. assert (exists x, hget h l = CVal x /\ mru_next x = f) as (x & -> & <-).
  { unfold nxt, hget in *. destruct (h !! l) as [x|]; [|done]. injection P1 as <-. by exists x. }
  cbn [mbind cres_bind]. set (f := mru_next x) in *.
  destruct (hset_next h e f) as (h1 & -> & A1 & A2 & A3 & A4); [done|]. cbn [mbind cres_bind].
  destruct (hset_prev h1 e l) as (h2 & -> & B1 & B2 & B3 & B4); [by apply (dat_in h)|]. cbn [mbind cres_bind].
  destruct (hset_next h2 l e) as (h3 & -> & C1 & C2 & C3 & C4).
  { apply (dat_in h); [intros b; by rewrite B4, A4|]. by eapply nxt_some. } cbn [mbind cres_bind].
  destruct (hset_prev h3 f e) as (h4 & -> & D1 & D2 & D3 & D4).
  { apply (dat_in h); [intros b; by rewrite C4, B4, A4|]. by eapply prv_some. }
  exists h4. split; [done|]. split_and!.
  - apply links_cons2. split_and!; [| |apply links_cons2; split_and!].
    + rewrite D2, C1. by rewrite Z.eqb_refl.
    + rewrite D1. zif. rewrite C2, B1. by rewrite Z.eqb_refl.
    + rewrite D2, C1. zif. rewrite B2, A1. by rewrite Z.eqb_refl.
    + rewrite D1. by rewrite Z.eqb_refl.
    + apply (links_frame h); [done| |].
      * intros a Ha. rewrite D2, C1, B2, A1.
        apply removelast_sub in Ha as Ha'.
        destruct (Z.eqb_spec a l) as [->|]; [done|]. destruct (Z.eqb_spec a e) as [->|]; [set_solver|done].
      * intros b Hb. cbn [tail] in Hb. rewrite D1, C2, B1, A2.
        destruct (Z.eqb_spec b f) as [->|]; [done|]. destruct (Z.eqb_spec b e) as [->|]; done.
  - intros b. by rewrite D3, C3, B3, A3.
  - intros b. by rewrite D4, C4, B4, A4.
Qed.

(** ** Keys *)

(** A supported query. *)
Definition ok_query (q : list Z) : Prop := Forall octet q /\ exists flags qs trail, is_query q flags qs trail.

(** Two queries the cache takes for the same. *)
Definition same (q1 q2 : list Z) : bool :=
  match entry_hash q1, entry_hash q2, _dnsPacket_isEqualQuery (_dnsPacket_init q1) (_dnsPacket_init q2) with
  | CVal h1, CVal h2, CVal b => (h1 =? h2) && (Z.of_nat (length q1) =? Z.of_nat (length q2)) && b
  | _, _, _ => false
  end.

Lemma ok_hash q : ok_query q -> exists hv, entry_hash q = CVal hv.
Proof.
  intros [Hb (f & qs & t & i0 & i1 & E & _)]. apply hashQuery_total; [done|]. rewrite E, length_app. cbn [length]. lia.
Qed.

Lemma ok_check q : ok_query q -> _dnsPacket_checkQuery (_dnsPacket_init q) = CVal true.
Proof. intros [Hb H]. destruct (checkQuery_spec q Hb) as (r & -> & Hr). f_equal. by apply Hr. Qed.

Lemma entry_equals_same e1 e2 q1 q2 :
  query e1 = q1 -> query e2 = q2 -> ok_query q1 -> ok_query q2 ->
  entry_hash q1 = CVal (hash e1) -> entry_hash q2 = CVal (hash e2) ->
  (if hash e1 =? hash e2 then entry_equals e1 e2 else CVal false) = CVal (same q1 q2).
Proof.
  intros <- <- [_ (f1 & qs1 & t1 & Q1)] [_ (f2 & qs2 & t2 & Q2)] E1 E2. unfold same, entry_equals.
  rewrite E1, E2, (isEqualQuery_spec _ _ _ _ _ _ _ _ Q1 Q2). repeat bcase; done.
Qed.

(** What [same] compares. *)
Definition key_of (q : list Z) (k : Z * Z * Z * list question) : Prop :=
  exists h f qs t, entry_hash q = CVal h /\ is_query q f qs t /\ k = (h, Z.of_nat (length q), Z.land f 1, qs).

Lemma ok_key q : ok_query q -> exists k, key_of q k.
Proof.
  intros Hok. destruct (ok_hash q Hok) as [h Hh]. destruct Hok as [_ (f & qs & t & Q)].
  by exists (h, Z.of_nat (length q), Z.land f 1, qs), h, f, qs, t.
Qed.

Lemma same_keys q1 q2 k1 k2 : key_of q1 k1 -> key_of q2 k2 -> same q1 q2 = true <-> k1 = k2.
Proof.
  intros (h1 & f1 & qs1 & t1 & E1 & Q1 & ->) (h2 & f2 & qs2 & t2 & E2 & Q2 & ->). unfold same.
  rewrite E1, E2, (isEqualQuery_spec _ _ _ _ _ _ _ _ Q1 Q2), !andb_true_iff, !Z.eqb_eq, bool_decide_eq_true.
  split; [intros [[? ?] [? ?]]; congruence | intros [= -> -> -> ->]; done].
Qed.

Lemma same_refl q : ok_query q -> same q q = true.
Proof. intros [k K]%ok_key. by apply (same_keys q q k k). Qed.

Lemma same_sym q1 q2 : ok_query q1 -> ok_query q2 -> same q1 q2 = true -> same q2 q1 = true.
Proof. intros [k1 K1]%ok_key [k2 K2]%ok_key. rewrite (same_keys q1 q2 k1 k2), (same_keys q2 q1 k2 k1); done. Qed.

Lemma same_trans q1 q2 q3 :
  ok_query q1 -> ok_query q2 -> ok_query q3 -> same q1 q2 = true -> same q2 q3 = true -> same q1 q3 = true.
Proof.
  intros [k1 K1]%ok_key [k2 K2]%ok_key [k3 K3]%ok_key.
  rewrite (same_keys q1 q2 k1 k2), (same_keys q2 q3 k2 k3), (same_keys q1 q3 k1 k3) by done. congruence.
Qed.

Lemma same_hash q1 q2 h1 h2 : entry_hash q1 = CVal h1 -> entry_hash q2 = CVal h2 -> same q1 q2 = true -> h1 = h2.
Proof.
  unfold same. intros -> ->. destruct (_dnsPacket_isEqualQuery _ _); [|done..]. bcase; [done|]. by cbn.
Qed.

(** ** Collision chains *)

Abbreviation chain h := (lchain (hlk h)).

(** The Entry** behind the entries [ys] of the chain of slot [i]. *)
Definition at_prefix (i : nat) (ys : list Z) : place :=
  match last ys with None => Slot (Z.of_nat i) | Some a => Hlink a end.

Lemma at_prefix_snoc i ys a : at_prefix i (ys ++ [a]) = Hlink a.
Proof. unfold at_prefix. by rewrite last_snoc. Qed.

Lemma deref_prefix c i p ys zs :
  entries c !! i = Some p -> chain (heap c) p (ys ++ zs) -> deref c (at_prefix i ys) = CVal (hd NULL zs).
Proof.
  intros Hi C. destruct ys as [|y0 ys0 _] using rev_ind.
  - cbn [app] in C. apply lchain_hd in C as <-. cbn [at_prefix last deref]. apply aget_val; [lia|]. by rewrite Nat2Z.id.
  - rewrite <- app_assoc in C. apply lchain_at in C as (_ & v & Hv & C). apply lchain_hd in C as ->.
    rewrite at_prefix_snoc. cbn [deref]. unfold hlk, hget in *.
    destruct (heap c !! y0); [|done]. injection Hv as Hv. cbn [mbind cres_bind]. by rewrite Hv.
Qed.

Lemma assign_prefix c i p ys zs v us :
  entries c !! i = Some p -> chain (heap c) p (ys ++ zs) -> NoDup ys -> chain (heap c) v us ->
  (forall a, a ∈ ys -> a ∉ us) ->
  exists c' p', assign c (at_prefix i ys) v = CVal c' /\ entries c' = <[i := p']> (entries c) /\
    chain (heap c') p' (ys ++ us) /\ num_entries c' = num_entries c /\ generation c' = generation c /\
    last_id c' = last_id c /\
    (forall b, b ∉ ys -> hlk (heap c') b = hlk (heap c) b) /\ (forall b, nxt (heap c') b = nxt (heap c) b) /\
    (forall b, prv (heap c') b = prv (heap c) b) /\ (forall b, dat (heap c') b = dat (heap c) b).
Proof.
  intros Hi C N Cv D. pose proof (lookup_lt_Some _ _ _ Hi). destruct ys as [|y ys _] using rev_ind.
  - cbn [at_prefix last assign]. rewrite aset_val by lia. cbn [mbind cres_bind]. rewrite Nat2Z.id.
    eexists _, v. split; [done|]. cbn [entries heap]. split_and!; done.
  - rewrite at_prefix_snoc. cbn [assign].
    rewrite <- app_assoc in C. destruct (lchain_at _ _ ys y zs C) as (Hy & w & Hw & _).
    destruct (hset_hlink (heap c) y v) as (h' & -> & F1 & F2 & F3 & F4).
    { unfold hlk in Hw. apply fmap_is_Some with hlink. by rewrite Hw. }
    cbn [mbind cres_bind]. exists (with_heap c h'), p. cbn [with_heap entries heap num_entries generation last_id].
    rewrite list_insert_id by done. split_and!; try done.
    + rewrite <- app_assoc. apply (lchain_tail (hlk (heap c)) _ p ys y zs us v); [done|done|by rewrite F1, Z.eqb_refl| |].
      * apply (lchain_frame (hlk (heap c))); [|done]. intros x Hx. rewrite F1.
        destruct (Z.eqb_spec x y) as [->|]; [|done]. exfalso. apply (D y); [set_solver|done].
      * intros x Hx. rewrite F1. destruct (Z.eqb_spec x y) as [->|]; [|done]. exfalso.
        apply list.NoDup_app in N as (_ & N & _). apply (N y Hx). left.
    + intros b Hb. rewrite F1. destruct (Z.eqb_spec b y) as [->|]; [|done]. exfalso. apply Hb, elem_of_app. right; left.
Qed.

(** ** The structure of a cache

    [ml] are the entries in the order of the list, [chs] the chains. *)
Definition good (h : Heap) (a : Z) : Prop :=
  exists hv q ans w, dat h a = Some (hv, q, ans, w) /\ entry_hash q = CVal hv /\ ok_query q.

Record store (c : Cache) (ml : list Z) (chs : list (list Z)) : Prop := {
  st_nodup : NoDup (mru_list :: ml);
  st_null : NULL ∉ ml;
  st_links : links (heap c) (mru_list :: ml ++ [mru_list]);
  st_dom : forall a, is_Some (heap c !! a) <-> a ∈ mru_list :: ml;
  st_good : forall a, a ∈ ml -> good (heap c) a;
  st_len : length chs = Z.to_nat MAX_HASH_ENTRIES /\ length (entries c) = Z.to_nat MAX_HASH_ENTRIES;
  st_chain : forall i p xs, entries c !! i = Some p -> chs !! i = Some xs -> chain (heap c) p xs;
  st_hash : forall i xs a hv q ans w, chs !! i = Some xs -> a ∈ xs -> dat (heap c) a = Some (hv, q, ans, w) ->
    hv mod MAX_HASH_ENTRIES = Z.of_nat i;
  st_perm : concat chs ≡ₚ ml;
  st_num : num_entries c = Z.of_nat (length ml)
}.

(** The entry at [a] is for a query the cache takes for [q]. *)
Definition matches (h : Heap) (q : list Z) (a : Z) : Prop :=
  exists hv q' ans w, dat h a = Some (hv, q', ans, w) /\ same q' q = true.

Definition good_key (key : Entry) : Prop := ok_query (query key) /\ entry_hash (query key) = CVal (hash key).

Lemma lookup_loop_spec c key i p fuel : forall ys zs,
  entries c !! i = Some p -> chain (heap c) p (ys ++ zs) -> good_key key ->
  (forall a, a ∈ zs -> good (heap c) a) -> (length zs < fuel)%nat ->
  exists us vs, zs = us ++ vs /\ lookup_loop fuel c key (at_prefix i ys) = CVal (at_prefix i (ys ++ us)) /\
    (forall a, a ∈ us -> ~ matches (heap c) (query key) a) /\
    match vs with [] => True | a :: _ => matches (heap c) (query key) a end.
Proof.
  induction fuel as [|f IH]; intros ys zs Hi C [Hk1 Hk2] Hg Hf; [lia|].
  cbn [lookup_loop]. rewrite (deref_prefix c i p ys zs Hi C). cbn [mbind cres_bind].
  destruct zs as [|a zs]; cbn [hd].
  { rewrite Z.eqb_refl. exists [], []. rewrite (app_nil_r ys). split_and!; try done. by intros a H%not_elem_of_nil. }
  destruct (lchain_at _ _ ys a zs C) as [Ha _]. zif.
  destruct (Hg a) as (hv & q & ans & w & Hd & Hh & Hq); [left|].
  destruct (dat_get _ _ _ _ _ _ Hd) as (e & He & -> & <- & <- & _ & _). cbn [mbind cres_bind].
  rewrite (entry_equals_same e key (query e) (query key)) by done. cbn [mbind cres_bind].
  destruct (same (query e) (query key)) eqn:Hs.
  - exists [], (a :: zs). rewrite (app_nil_r ys). split_and!; [done|done|by intros b H%not_elem_of_nil|]. by eexists _, _, _, _.
  - destruct (IH (ys ++ [a]) zs) as (us & vs & -> & E & Hus & Hvs); [done|by rewrite <- app_assoc|done| | |].
    { intros b Hb. apply Hg. by right. } { cbn [length] in Hf. lia. }
    exists (a :: us), vs. rewrite at_prefix_snoc in E. rewrite E, <- app_assoc. split_and!; try done.
    intros b [->|Hb]%elem_of_cons; [|by apply Hus]. intros (hv' & q' & ans' & w' & Hd' & Hs'). rewrite Hd in Hd'.
    simplify_eq. congruence.
Qed.

Lemma elem_of_concat {A} (x : A) i (chs : list (list A)) xs : chs !! i = Some xs -> x ∈ xs -> x ∈ concat chs.
Proof.
  revert i. induction chs as [|c chs IH]; intros [|i] E Hx; simplify_eq/=; apply elem_of_app; [by left|right; by apply (IH i)].
Qed.

Lemma concat_elem_of {A} (x : A) (chs : list (list A)) : x ∈ concat chs -> exists i xs, chs !! i = Some xs /\ x ∈ xs.
Proof.
  induction chs as [|c chs IH]; cbn; [by intros H%not_elem_of_nil|].
  intros [H|H]%elem_of_app; [by exists 0%nat, c|]. destruct (IH H) as (i & xs & E & Hx). by exists (S i), xs.
Qed.

Lemma NoDup_concat_in {A} (chs : list (list A)) i xs : NoDup (concat chs) -> chs !! i = Some xs -> NoDup xs.
Proof.
  revert i. induction chs as [|c chs IH]; intros [|i] N E; simplify_eq/=; apply list.NoDup_app in N as (N1 & _ & N2);
    [done|by apply (IH i)].
Qed.

(** Two chains have no entry in common. *)
Lemma NoDup_concat_disj {A} (chs : list (list A)) i j xs ys a :
  NoDup (concat chs) -> chs !! i = Some xs -> chs !! j = Some ys -> a ∈ xs -> a ∈ ys -> i = j.
Proof.
  revert i j. induction chs as [|c chs IH]; intros [|i] [|j] N Ei Ej Hx Hy; simplify_eq/=; try done;
    apply list.NoDup_app in N as (N1 & N2 & N3).
  - exfalso. apply (N2 a Hx). by apply (elem_of_concat a j _ ys).
  - exfalso. apply (N2 a Hy). by apply (elem_of_concat a i _ xs).
  - f_equal. by apply IH.
Qed.

Lemma concat_insert {A} (chs : list (list A)) i xs xs' a :
  chs !! i = Some xs -> xs ≡ₚ a :: xs' -> concat chs ≡ₚ a :: concat (<[i := xs']> chs).
Proof.
  revert i. induction chs as [|c chs IH]; intros [|i] E P; simplify_eq/=.
  - by rewrite P.
  - rewrite (IH i E P). by rewrite Permutation_middle.
Qed.

Section Store.
Context (c : Cache) (ml : list Z) (chs : list (list Z)) (ST : store c ml chs).

Lemma st_ml_nodup : NoDup ml.
Proof. pose proof (st_nodup _ _ _ ST) as N. by apply list.NoDup_cons in N as [_ N]. Qed.

Lemma st_concat_nodup : NoDup (concat chs).
Proof. rewrite (st_perm _ _ _ ST). apply st_ml_nodup. Qed.

Lemma st_slot i : (i < Z.to_nat MAX_HASH_ENTRIES)%nat ->
  exists p xs, entries c !! i = Some p /\ chs !! i = Some xs /\ chain (heap c) p xs /\ NoDup xs /\
    (forall a, a ∈ xs -> a ∈ ml).
Proof.
  intros Hi. destruct ST as [? ? ? ? ? [L1 L2] C ? P ?].
  destruct (lookup_lt_is_Some_2 (entries c) i) as [p Hp]; [lia|].
  destruct (lookup_lt_is_Some_2 chs i) as [xs Hx]; [lia|]. exists p, xs. split_and!; [done|done|by apply (C i)| |].
  - apply (NoDup_concat_in chs i); [apply st_concat_nodup|done].
  - intros a Ha. rewrite <- P. by apply (elem_of_concat a i _ xs).
Qed.

Lemma st_size : (length ml <= size (heap c))%nat.
Proof.
  rewrite <- (size_list_to_set (C := gset Z) ml) by apply st_ml_nodup.
  rewrite <- size_dom. apply subseteq_size. intros a Ha%elem_of_list_to_set.
  apply elem_of_dom, (st_dom _ _ _ ST). by right.
Qed.

Lemma lookup_p_spec key :
  good_key key -> exists i ys zs,
    Z.of_nat i = hash key mod MAX_HASH_ENTRIES /\ chs !! i = Some (ys ++ zs) /\
    _cache_lookup_p c key = CVal (at_prefix i ys) /\ deref c (at_prefix i ys) = CVal (hd NULL zs) /\
    match zs with
    | [] => forall a, a ∈ ml -> ~ matches (heap c) (query key) a
    | a :: _ => a ∈ ml /\ a <> NULL /\ matches (heap c) (query key) a
    end.
Proof.
  intros Hk. unfold _cache_lookup_p.
  assert (0 <= hash key mod MAX_HASH_ENTRIES < MAX_HASH_ENTRIES) as Hm by (apply Z.mod_pos_bound; done).
  set (i := Z.to_nat (hash key mod MAX_HASH_ENTRIES)).
  destruct (st_slot i) as (p & xs & Hp & Hx & Hc & Hn & Hin); [lia|].
  destruct (lookup_loop_spec c key i p (S (size (heap c))) [] xs) as (us & vs & -> & E & Hus & Hvs); [done|done|done| | |].
  { intros a Ha. by apply (st_good _ _ _ ST), Hin. }
  { pose proof st_size. assert (length xs <= length ml)%nat; [|lia].
    apply submseteq_length, NoDup_submseteq; [done|]. intros a. apply Hin. }
  exists i, us, vs. cbn [app] in E. unfold at_prefix at 1 in E. cbn [last] in E.
  replace (Z.of_nat i) with (hash key mod MAX_HASH_ENTRIES) in E by lia.
  split_and!; [lia|done|done|by apply (deref_prefix c i p us vs)|].
  destruct vs as [|a vs].
  - intros a Ha Hmt. rewrite app_nil_r in Hx. destruct Hk as [Hk1 Hk2].
    rewrite <- (st_perm _ _ _ ST) in Ha. apply concat_elem_of in Ha as (j & xs & Hj & Ha).
    destruct Hmt as (hv & q & ans & w & Hd & Hs).
    assert (a ∈ ml) as Hml by (rewrite <- (st_perm _ _ _ ST); by apply (elem_of_concat a j _ xs)).
    destruct (st_good _ _ _ ST a Hml) as (hv' & q' & ans' & w' & Hd' & Hh & Hq). rewrite Hd in Hd'. simplify_eq.
    pose proof (same_hash _ _ _ _ Hh Hk2 Hs) as ->.
    pose proof (st_hash _ _ _ ST j xs a _ _ _ _ Hj Ha Hd) as Hj'. assert (j = i) as -> by lia.
    rewrite Hx in Hj. simplify_eq. apply (Hus a Ha). by eexists _, _, _, _.
  - assert (a ∈ ml) by (apply Hin, elem_of_app; right; left). split_and!; [done| |done].
    intros ->. by apply (st_null _ _ _ ST).
Qed.
End Store.

(** ** Operations on the list as a whole *)

Lemma cons_snoc {A} (a : A) l : exists u p, a :: l = u ++ [p].
Proof. destruct (exists_last (l := a :: l)) as (u & p & E); [done|]. by exists u, p. Qed.

Lemma mru_remove_list h L l1 e l2 :
  links h (L :: (l1 ++ e :: l2) ++ [L]) -> NoDup (L :: l1 ++ e :: l2) ->
  exists h', entry_mru_remove h e = CVal h' /\ links h' (L :: (l1 ++ l2) ++ [L]) /\
    (forall b, hlk h' b = hlk h b) /\ (forall b, dat h' b = dat h b).
Proof.
  intros Hl N. destruct (cons_snoc L l1) as (u & p & E).
  assert (exists n w, l2 ++ [L] = n :: w) as (n & w & F) by (destruct l2 as [|n w]; eexists _, _; done).
  assert (L :: (l1 ++ e :: l2) ++ [L] = u ++ p :: e :: n :: w) as E1.
  { change (L :: (l1 ++ e :: l2) ++ [L]) with (((L :: l1) ++ e :: l2) ++ [L]).
    rewrite E, <- !app_assoc. cbn [app]. by rewrite F. }
  assert (L :: (l1 ++ l2) ++ [L] = u ++ p :: n :: w) as E2.
  { change (L :: (l1 ++ l2) ++ [L]) with (((L :: l1) ++ l2) ++ [L]). rewrite E, <- !app_assoc. by rewrite F. }
  rewrite E2. rewrite E1 in Hl. apply mru_remove_spec; [done| |].
  - rewrite <- F, removelast_snoc. change (u ++ p :: e :: l2) with (u ++ [p] ++ e :: l2). by rewrite app_assoc, <- E.
  - rewrite <- E. cbn [tail]. rewrite <- F. change (e :: l2 ++ [L]) with ((e :: l2) ++ [L]). rewrite app_assoc.
    by rewrite <- Permutation_cons_append.
Qed.

Lemma mru_add_list h L e ml :
  links h (L :: ml ++ [L]) -> NoDup (L :: ml) -> is_Some (h !! e) -> e ∉ L :: ml ->
  exists h', entry_mru_add h e L = CVal h' /\ links h' (L :: (e :: ml) ++ [L]) /\
    (forall b, hlk h' b = hlk h b) /\ (forall b, dat h' b = dat h b).
Proof.
  intros Hl N He Ne. assert (exists f w, ml ++ [L] = f :: w) as (f & w & F) by (destruct ml as [|f w]; eexists _, _; done).
  cbn [app]. rewrite F in *. assert (NoDup (f :: w)) as N2 by (rewrite <- F; by rewrite <- Permutation_cons_append).
  apply mru_add_spec; [done|done| | |].
  - rewrite <- F. set_solver.
  - rewrite <- F, removelast_snoc. by apply list.NoDup_cons in N as [N _].
  - by apply list.NoDup_cons in N2 as [N2 _].
Qed.

(** After free(e), the other entries are as before. *)
Lemma delete_fields h e b :
  b <> e -> nxt (delete e h) b = nxt h b /\ prv (delete e h) b = prv h b /\ hlk (delete e h) b = hlk h b /\
    dat (delete e h) b = dat h b.
Proof. intros Hb. unfold nxt, prv, hlk, dat. by rewrite lookup_delete_ne. Qed.

Lemma links_delete h e l : links h l -> e ∉ l -> links (delete e h) l.
Proof.
  intros Hl Ne. apply (links_frame h); [done| |].
  - intros a Ha. apply delete_fields. intros ->. by apply Ne, removelast_sub.
  - intros b Hb. apply delete_fields. intros ->. apply Ne. destruct l; [done|by right].
Qed.

(** The same heap, seen through the parts an invariant speaks of. *)
Lemma good_frame h h' a : dat h' a = dat h a -> good h a -> good h' a.
Proof. unfold good. by intros ->. Qed.

(** A table in which the chain of one slot has changed. *)
Section Table.
Context (c : Cache) (ml : list Z) (chs : list (list Z)) (ST : store c ml chs).
Context (i : nat) (xs' : list Z) (h' : Heap).

Lemma table_chain p' :
  chain h' p' xs' -> (forall j xs b, j <> i -> chs !! j = Some xs -> b ∈ xs -> hlk h' b = hlk (heap c) b) ->
  forall j p xs, <[i := p']> (entries c) !! j = Some p -> <[i := xs']> chs !! j = Some xs -> chain h' p xs.
Proof.
  intros C F j p xs Hp Hx. apply list_lookup_insert_Some in Hp as [(<- & -> & _)|[Hij Hp]].
  - apply list_lookup_insert_Some in Hx as [(_ & -> & _)|[Hij _]]; done.
  - rewrite list_lookup_insert_ne in Hx by done. apply (lchain_frame (hlk (heap c))); [|by apply (st_chain _ _ _ ST j)].
    intros b Hb. by apply (F j xs).
Qed.

Lemma table_hash :
  (forall j xs b, j <> i -> chs !! j = Some xs -> b ∈ xs -> dat h' b = dat (heap c) b) ->
  (forall b hv q ans w, b ∈ xs' -> dat h' b = Some (hv, q, ans, w) -> hv mod MAX_HASH_ENTRIES = Z.of_nat i) ->
  forall j xs b hv q ans w, <[i := xs']> chs !! j = Some xs -> b ∈ xs -> dat h' b = Some (hv, q, ans, w) ->
    hv mod MAX_HASH_ENTRIES = Z.of_nat j.
Proof.
  intros F G j xs b hv q ans w Hx Hb Hd. apply list_lookup_insert_Some in Hx as [(<- & -> & _)|[Hij Hx]].
  - by apply (G b hv q ans w).
  - rewrite (F j xs b) in Hd by done. by apply (st_hash _ _ _ ST j xs b hv q ans w).
Qed.
End Table.

(** What _cache_remove_p does to the heap and the table. *)
Lemma remove_p_effect c l1 e l2 chs i p ys zs :
  store c (l1 ++ e :: l2) chs -> entries c !! i = Some p -> chain (heap c) p (ys ++ e :: zs) -> NoDup (ys ++ e :: zs) ->
  e ∉ mru_list :: l1 ++ l2 ->
  exists c' p', _cache_remove_p c (at_prefix i ys) = CVal c' /\ entries c' = <[i := p']> (entries c) /\
    chain (heap c') p' (ys ++ zs) /\ links (heap c') (mru_list :: (l1 ++ l2) ++ [mru_list]) /\ heap c' !! e = None /\
    (forall b, b ∉ ys -> b <> e -> hlk (heap c') b = hlk (heap c) b) /\
    (forall b, b <> e -> dat (heap c') b = dat (heap c) b) /\
    num_entries c' = s32 (num_entries c - 1) /\ generation c' = generation c.
Proof.
  intros ST Hp Hc Nx Ne. destruct (lchain_at _ _ _ _ _ Hc) as (Hnull & v & Hv & Cz).
  unfold _cache_remove_p. rewrite (deref_prefix c i p ys (e :: zs) Hp Hc). cbn [hd mbind cres_bind].
  destruct (mru_remove_list (heap c) mru_list l1 e l2) as (h1 & -> & Lk1 & Hh1 & Hd1); [apply ST..|]. cbn [mbind cres_bind].
  assert (hlk h1 e = Some v) as Hv1 by by rewrite Hh1.
  unfold hlk in Hv1. destruct (h1 !! e) as [x|] eqn:Hex; [|done]. injection Hv1 as Hxv.
  unfold hget. rewrite Hex. cbn [mbind cres_bind]. rewrite Hxv.
  apply list.NoDup_app in Nx as (Ny & Nyz & Nz). apply list.NoDup_cons in Nz as [Nez _].
  destruct (assign_prefix (with_heap c h1) i p ys (e :: zs) v zs) as (c2 & p' & -> & He2 & Hc2 & Hn2 & Hg2 & _ & F1 & F2 & F3 & F4).
  { done. } { by apply (lchain_frame (hlk (heap c))). } { done. } { by apply (lchain_frame (hlk (heap c))). }
  { intros a Ha Hz. apply (Nyz a Ha). by right. }
  cbn [with_heap heap entries num_entries generation] in *. cbn [mbind cres_bind].
  unfold entry_free. zif. assert (is_Some (heap c2 !! e)) as [x2 Hx2] by (apply (dat_in h1); [done|by rewrite Hex]).
  rewrite Hx2. cbn [mbind cres_bind]. eexists _, p'. split; [done|]. cbn [heap generation entries num_entries].
  split_and!; [done| | | | | |by rewrite Hn2|done].
  - apply (lchain_frame (hlk (heap c2))); [|done]. intros a Ha. apply delete_fields. intros ->.
    apply elem_of_app in Ha as [Ha|Ha]; [|done]. apply (Nyz e Ha). left.
  - apply links_delete; [|set_solver]. apply (links_frame h1); [done|intros; apply F2|intros; apply F3].
  - apply lookup_delete_eq.
  - intros b Hb Hbe. destruct (delete_fields (heap c2) e b Hbe) as (_ & _ & -> & _). by rewrite F1, Hh1.
  - intros b Hb. destruct (delete_fields (heap c2) e b Hb) as (_ & _ & _ & ->). by rewrite F4, Hd1.
Qed.

Lemma remove_p_spec c l1 e l2 chs i ys zs :
  store c (l1 ++ e :: l2) chs -> Z.of_nat (length (l1 ++ e :: l2)) <= CONFIG_MAX_ENTRIES -> chs !! i = Some (ys ++ e :: zs) ->
  exists c', _cache_remove_p c (at_prefix i ys) = CVal c' /\ store c' (l1 ++ l2) (<[i := ys ++ zs]> chs) /\
    (forall b, b <> e -> dat (heap c') b = dat (heap c) b) /\ generation c' = generation c.
Proof.
  intros ST Hnum Hi. pose proof (st_concat_nodup _ _ _ ST) as Nc. pose proof (st_null _ _ _ ST) as Nn.
  destruct (st_slot _ _ _ ST i) as (p & xs & Hp & Hx & Hc & Nx & Hin).
  { apply lookup_lt_Some in Hi. destruct (st_len _ _ _ ST). lia. }
  rewrite Hi in Hx. injection Hx as <-. pose proof (st_nodup _ _ _ ST) as N.
  rewrite <- Permutation_middle, Permutation_swap in N. apply list.NoDup_cons in N as [Ne N].
  destruct (remove_p_effect c l1 e l2 chs i p ys zs ST Hp Hc Nx Ne) as (c' & p' & E & He & Hc' & L & Hf & F1 & D & Hn & G).
  exists c'. split_and!; [done| |done|done].
  assert (forall j xs b, j <> i -> chs !! j = Some xs -> b ∈ xs -> b ∉ ys /\ b <> e) as Hother.
  { intros j xs b Hj Hx Hb. assert (b ∉ ys ++ e :: zs); [|set_solver].
    intros Hb'. by apply Hj, (NoDup_concat_disj chs j i xs (ys ++ e :: zs) b). }
  rewrite <- Permutation_middle in Nx. apply list.NoDup_cons in Nx as [Nex _].
  split; [done|set_solver|done| | | | | | |].
  - intros a. destruct (decide (a = e)) as [->|Hae]; [rewrite Hf; split; [by intros [? ?]|done]|].
    rewrite <- dat_some, D, dat_some, (st_dom _ _ _ ST a) by done. set_solver.
  - intros a Ha. apply (good_frame (heap c)); [apply D; set_solver|]. apply (st_good _ _ _ ST). set_solver.
  - rewrite He, !length_insert. apply ST.
  - rewrite He. apply (table_chain c _ chs ST); [done|]. intros j xs b Hj Hx Hb. by apply F1; apply (Hother j xs).
  - apply (table_hash c _ chs ST).
    + intros j xs b Hj Hx Hb. by apply D, (Hother j xs).
    + intros b hv q ans w Hb Hd. rewrite D in Hd by (intros ->; done).
      apply (st_hash _ _ _ ST i (ys ++ e :: zs) b hv q ans w); [done|set_solver|done].
  - assert (e :: concat (<[i := ys ++ zs]> chs) ≡ₚ e :: (l1 ++ l2)) as P; [|by apply Permutation_cons_inv in P].
    rewrite Permutation_middle, <- (st_perm _ _ _ ST). symmetry. apply (concat_insert chs i (ys ++ e :: zs)); [done|].
    by rewrite Permutation_middle.
  - rewrite Hn, (st_num _ _ _ ST), s32_small; rewrite !length_app in *; cbn [length] in *; unfold CONFIG_MAX_ENTRIES in *; lia.
Qed.

(** A new entry leaves the others as they are. *)
Lemma insert_fields h a x b :
  b <> a -> nxt (<[a := x]> h) b = nxt h b /\ prv (<[a := x]> h) b = prv h b /\ hlk (<[a := x]> h) b = hlk h b /\
    dat (<[a := x]> h) b = dat h b.
Proof. intros Hb. unfold nxt, prv, hlk, dat. by rewrite lookup_insert_ne. Qed.

(** What entry_alloc and _cache_add_p do to the heap and the table. *)
Lemma add_new_effect c ml chs i p ys key ans a now :
  store c ml chs -> entries c !! i = Some p -> chain (heap c) p ys -> NoDup ys ->
  a <> NULL -> a ∉ mru_list :: ml -> a ∉ ys ->
  exists c' p', add_new c (at_prefix i ys) key ans a now = CVal c' /\ entries c' = <[i := p']> (entries c) /\
    chain (heap c') p' (ys ++ [a]) /\ links (heap c') (mru_list :: (a :: ml) ++ [mru_list]) /\
    (forall b, b ∉ ys -> b <> a -> hlk (heap c') b = hlk (heap c) b) /\
    dat (heap c') a = Some (hash key, query key, ans, now) /\ (forall b, b <> a -> dat (heap c') b = dat (heap c) b) /\
    num_entries c' = s32 (num_entries c + 1) /\ generation c' = generation c.
Proof.
  intros ST Hp Hc Nx Ha Na Nys. unfold add_new. zif. unfold entry_alloc. zif.
  set (x := mkEntry (hash key) 0 0 0 (query key) ans now 0). set (h0 := <[a := x]> (heap c)).
  assert (forall b, b <> a -> dat h0 b = dat (heap c) b) as D0 by (intros b Hb; by apply insert_fields).
  assert (dat h0 a = Some (hash key, query key, ans, now)) as Da by (unfold dat, h0; by rewrite lookup_insert_eq).
  assert (hlk h0 a = Some 0) as Ha0 by (unfold hlk, h0; by rewrite lookup_insert_eq).
  assert (links h0 (mru_list :: ml ++ [mru_list])) as L0.
  { apply (links_frame (heap c)); [apply ST| |].
    - intros b Hb%removelast_sub. apply insert_fields. set_solver.
    - intros b Hb. apply insert_fields. cbn [tail] in Hb. set_solver. }
  unfold _cache_add_p.
  destruct (assign_prefix (with_heap c h0) i p ys [] a [a])
    as (c1 & p' & -> & He1 & Hc1 & Hn1 & Hg1 & _ & F1 & F2 & F3 & F4).
  { done. } { rewrite app_nil_r. apply (lchain_frame (hlk (heap c))); [|done]. intros b Hb. apply insert_fields. set_solver. }
  { done. } { cbn [lchain]. split_and!; [done..|]. by exists 0. } { set_solver. }
  cbn [with_heap heap entries num_entries generation last_id] in *. cbn [mbind cres_bind].
  destruct (hset_id (heap c1) a (s32 (last_id c1 + 1))) as (h2 & -> & G1 & G2 & G3 & G4).
  { apply dat_some. by rewrite F4, Da. }
  cbn [mbind cres_bind].
  destruct (mru_add_list h2 mru_list a ml) as (h3 & -> & L3 & H1 & H2); [|apply ST| |done|].
  { apply (links_frame h0); [done|intros; by rewrite G2, F2|intros; by rewrite G3, F3]. }
  { apply dat_some. by rewrite G4, F4, Da. }
  cbn [mbind cres_bind]. eexists _, p'. split; [done|]. cbn [heap generation entries num_entries].
  split_and!; [done| |done| |by rewrite H2, G4, F4| |by rewrite Hn1|done].
  - apply (lchain_frame (hlk (heap c1))); [|done]. intros b _. by rewrite H1, G1.
  - intros b Hb Hba. rewrite H1, G1, F1 by done. by apply insert_fields.
  - intros b Hb. rewrite H2, G4, F4. by apply D0.
Qed.

Lemma add_p_spec c ml chs i ys key ans a now :
  store c ml chs -> Z.of_nat (length ml) < CONFIG_MAX_ENTRIES -> good_key key ->
  chs !! i = Some ys -> hash key mod MAX_HASH_ENTRIES = Z.of_nat i -> a <> NULL -> heap c !! a = None ->
  exists c', add_new c (at_prefix i ys) key ans a now = CVal c' /\ store c' (a :: ml) (<[i := ys ++ [a]]> chs) /\
    dat (heap c') a = Some (hash key, query key, ans, now) /\
    (forall b, b <> a -> dat (heap c') b = dat (heap c) b) /\ generation c' = generation c.
Proof.
  intros ST Hnum [Hk1 Hk2] Hi Hmod Ha Hfresh. pose proof (st_nodup _ _ _ ST) as N. pose proof (st_null _ _ _ ST) as Nn.
  assert (a ∉ mru_list :: ml) as Na by (rewrite <- (st_dom _ _ _ ST a), Hfresh; by intros [? ?]).
  destruct (st_slot _ _ _ ST i) as (p & xs & Hp & Hx & Hc & Nx & Hin).
  { apply lookup_lt_Some in Hi. destruct (st_len _ _ _ ST). lia. }
  rewrite Hi in Hx. injection Hx as <-. assert (a ∉ ys) as Nys by set_solver.
  destruct (add_new_effect c ml chs i p ys key ans a now ST Hp Hc Nx Ha Na Nys)
    as (c' & p' & E & He & Hc' & L & F1 & Da & D & Hn & G).
  exists c'. split_and!; [done| |done|done|done].
  assert (forall j xs b, j <> i -> chs !! j = Some xs -> b ∈ xs -> b ∉ ys /\ b <> a) as Hother.
  { intros j xs b Hj Hx Hb. split.
    - intros Hb'. apply Hj, (NoDup_concat_disj chs j i xs ys b); [apply (st_concat_nodup _ _ _ ST)|done..].
    - intros ->. apply Na. right. rewrite <- (st_perm _ _ _ ST). by apply (elem_of_concat a j _ xs). }
  split; [|set_solver|done| | | | | | |].
  - rewrite Permutation_swap. by apply list.NoDup_cons.
  - intros b. destruct (decide (b = a)) as [->|Hba].
    + split; [set_solver|]. intros _. apply dat_some. by rewrite Da.
    + rewrite <- dat_some, D, dat_some, (st_dom _ _ _ ST b) by done. set_solver.
  - intros b [->|Hb]%elem_of_cons.
    + exists (hash key), (query key), ans, now. by split_and!.
    + apply (good_frame (heap c)); [apply D; set_solver|]. by apply (st_good _ _ _ ST).
  - rewrite He, !length_insert. apply ST.
  - rewrite He. apply (table_chain c _ chs ST); [done|]. intros j xs b Hj Hx Hb. by apply F1; apply (Hother j xs).
  - apply (table_hash c _ chs ST).
    + intros j xs b Hj Hx Hb. by apply D, (Hother j xs).
    + intros b hv q ans' w Hb Hd. destruct (decide (b = a)) as [->|Hba]; [rewrite Da in Hd; by simplify_eq|].
      rewrite D in Hd by done. apply (st_hash _ _ _ ST i ys b hv q ans' w); [done|set_solver|done].
  - rewrite <- (st_perm _ _ _ ST), (concat_insert (<[i := ys ++ [a]]> chs) i (ys ++ [a]) ys a).
    + by rewrite list_insert_insert_eq, (list_insert_id chs).
    + by apply list_lookup_insert_eq, (lookup_lt_Some _ _ _ Hi).
    + by rewrite <- Permutation_cons_append.
  - rewrite Hn, (st_num _ _ _ ST), s32_small; cbn [length]; unfold CONFIG_MAX_ENTRIES in *; lia.
Qed.

(** A change of the list only. *)
Lemma store_relink c ml chs h' ml' :
  store c ml chs -> ml' ≡ₚ ml -> links h' (mru_list :: ml' ++ [mru_list]) ->
  (forall b, hlk h' b = hlk (heap c) b) -> (forall b, dat h' b = dat (heap c) b) -> store (with_heap c h') ml' chs.
Proof.
  intros [] P L Hh Hd. split; cbn [with_heap heap entries num_entries]; try done.
  - by rewrite P.
  - by rewrite P.
  - intros a. rewrite P, <- dat_some, Hd, dat_some. done.
  - intros a Ha. rewrite P in Ha. apply (good_frame (heap c)); [done|]. by auto.
  - intros i p xs Hi Hx. apply (lchain_frame (hlk (heap c))); [done|]. by eauto.
  - intros i xs a hv q ans w Hi Ha D. rewrite Hd in D. by eauto.
  - by rewrite P.
  - by rewrite P.
Qed.

(** bump an entry to the front *)
Lemma bump_spec c l1 e l2 chs :
  store c (l1 ++ e :: l2) chs ->
  exists h', (l ← hget (heap c) mru_list;
    if negb (e =? mru_next l) then h ← entry_mru_remove (heap c) e; entry_mru_add h e mru_list
    else CVal (heap c)) = CVal h' /\
    store (with_heap c h') (e :: l1 ++ l2) chs /\ (forall b, dat h' b = dat (heap c) b).
Proof.
  intros ST. pose proof (st_links _ _ _ ST) as L. pose proof (st_nodup _ _ _ ST) as N.
  destruct (proj2 (st_dom _ _ _ ST mru_list)) as [x Hx]; [left|]. unfold hget at 1. rewrite Hx. cbn [mbind cres_bind].
  assert (forall f w, (l1 ++ e :: l2) ++ [mru_list] = f :: w -> mru_next x = f) as Hf.
  { intros f w E. rewrite E in L. destruct L as [L _]. unfold nxt in L. rewrite Hx in L. by injection L. }
  destruct (Z.eqb_spec e (mru_next x)) as [E|E]; cbn [negb].
  - exists (heap c). split; [done|]. split; [|done]. destruct l1 as [|f l1].
    + apply (store_relink c _ chs (heap c) _ ST); done.
    + exfalso. cbn [app] in Hf. rewrite <- E in Hf. specialize (Hf f _ eq_refl). subst f.
      apply list.NoDup_cons in N as [_ N]. apply list.NoDup_cons in N as [N _]. set_solver.
  - destruct (mru_remove_list (heap c) mru_list l1 e l2 L N) as (h1 & -> & L1 & A1 & A2). cbn [mbind cres_bind].
    rewrite <- Permutation_middle, Permutation_swap in N. apply list.NoDup_cons in N as [N1 N2].
    destruct (mru_add_list h1 mru_list e (l1 ++ l2)) as (h2 & -> & L2 & B1 & B2); [done|done| |done|].
    { apply (dat_in (heap c)); [done|]. apply (st_dom _ _ _ ST). set_solver. }
    exists h2. split; [done|]. split; [|intros b; by rewrite B2, A2].
    apply (store_relink c (l1 ++ e :: l2)); [done|by rewrite Permutation_middle|done|intros b; by rewrite B1, A1|
      intros b; by rewrite B2, A2].
Qed.

(** ** Flushing *)

Lemma chain_in h p xs a : chain h p xs -> a ∈ xs -> is_Some (h !! a).
Proof. intros C Ha. apply (lchain_in _ _ _ _ C) in Ha as [_ Ha]. unfold hlk in Ha. by apply fmap_is_Some in Ha. Qed.

Lemma chain_size h p xs : chain h p xs -> NoDup xs -> (length xs <= size h)%nat.
Proof.
  intros C N. rewrite <- (size_list_to_set (C := gset Z) xs), <- size_dom by done. apply subseteq_size.
  intros a Ha%elem_of_list_to_set. apply elem_of_dom. by apply (chain_in h p xs).
Qed.

Lemma flush_chain_spec fuel : forall c i p xs,
  entries c !! i = Some p -> chain (heap c) p xs -> NoDup xs -> (length xs < fuel)%nat ->
  exists c', flush_chain fuel c (Slot (Z.of_nat i)) = CVal c' /\ entries c' = <[i := NULL]> (entries c) /\
    (forall b, heap c' !! b = if bool_decide (b ∈ xs) then None else heap c !! b) /\ generation c' = generation c.
Proof.
  induction fuel as [|f IH]; intros c i p xs Hi C N Hf; [lia|]. pose proof (lookup_lt_Some _ _ _ Hi).
  cbn [flush_chain]. cbn [deref]. rewrite (aget_val (entries c) (Z.of_nat i) p) by (lia || by rewrite Nat2Z.id).
  cbn [mbind cres_bind]. destruct xs as [|x xs].
  - cbn in C. subst p. rewrite Z.eqb_refl. exists c. rewrite list_insert_id by done. split_and!; try done.
  - pose proof (chain_in _ _ _ x C ltac:(left)) as [y Hy]. destruct C as (-> & Hx & v & Hv & C). zif.
    unfold hget. rewrite Hy. cbn [mbind cres_bind assign]. rewrite aset_val by lia. cbn [mbind cres_bind heap].
    unfold entry_free. zif. rewrite Hy. cbn [mbind cres_bind]. unfold with_heap. cbn [num_entries heap generation last_id entries].
    rewrite Nat2Z.id. unfold hlk in Hv. rewrite Hy in Hv. injection Hv as ->.
    apply list.NoDup_cons in N as [N1 N2].
    destruct (IH (mkCache (num_entries c) (delete x (heap c)) (generation c) (last_id c) (<[i := v]> (entries c))) i v xs)
      as (c' & -> & E & Hh & Hg); cbn [entries heap] in *.
    { by apply list_lookup_insert_eq. }
    { apply (lchain_frame (hlk (heap c))); [|done]. intros b Hb. apply delete_fields. set_solver. }
    { done. } { cbn [length] in Hf. lia. }
    exists c'. split; [done|]. split_and!; [by rewrite E, list_insert_insert_eq| |done].
    intros b. rewrite Hh. destruct (decide (b = x)) as [->|Hbx].
    + rewrite lookup_delete_eq, (bool_decide_true (x ∈ x :: xs)) by left. by destruct (bool_decide _).
    + rewrite lookup_delete_ne by done. destruct (bool_decide_reflect (b ∈ xs)) as [Hb|Hb].
      * by rewrite bool_decide_true by (by right).
      * rewrite bool_decide_false; [done|]. set_solver.
Qed.

Lemma flush_slots_spec rem : forall c nn,
  (forall j xs, rem !! j = Some xs -> exists p, entries c !! (nn + j)%nat = Some p /\ chain (heap c) p xs) ->
  NoDup (concat rem) ->
  exists c', flush_slots (length rem) c (Z.of_nat nn) = CVal c' /\ length (entries c') = length (entries c) /\
    (forall b, heap c' !! b = if bool_decide (b ∈ concat rem) then None else heap c !! b) /\
    (forall j, (j < nn)%nat -> entries c' !! j = entries c !! j) /\
    (forall j, (j < length rem)%nat -> entries c' !! (nn + j)%nat = Some NULL) /\ generation c' = generation c.
Proof.
  induction rem as [|xs rem IH]; intros c nn Hch N; cbn [length flush_slots].
  { exists c. split_and!; try done. intros j Hj. lia. }
  cbn [concat] in N. apply list.NoDup_app in N as (N1 & N2 & N3).
  destruct (Hch 0%nat xs eq_refl) as (p & Hp & C). rewrite Nat.add_0_r in Hp.
  destruct (flush_chain_spec (S (size (heap c))) c nn p xs) as (c1 & -> & E1 & H1 & G1); [done|done|done| |].
  { pose proof (chain_size _ _ _ C N1). lia. }
  cbn [mbind cres_bind]. destruct (IH c1 (S nn)) as (c2 & E2 & L2 & H2 & F2 & Z2 & G2); [|done|].
  - intros j ys Hj. destruct (Hch (S j) ys Hj) as (q & Hq & Cq). exists q. split.
    + rewrite E1, list_lookup_insert_ne by lia. rewrite <- Hq. f_equal. lia.
    + apply (lchain_frame (hlk (heap c))); [|done]. intros b Hb. unfold hlk. rewrite H1, bool_decide_false; [done|].
      intros Hb'. apply (N2 b Hb'). by apply (elem_of_concat b j _ ys).
  - replace (Z.of_nat nn + 1) with (Z.of_nat (S nn)) by lia. exists c2. split; [done|].
    split_and!; [by rewrite L2, E1, length_insert| | | |by rewrite G2].
    + intros b. rewrite H2, H1. cbn [concat]. repeat case_bool_decide; set_solver.
    + intros j Hj. rewrite F2 by lia. rewrite E1. by apply list_lookup_insert_ne; lia.
    + intros [|j] Hj.
      * rewrite Nat.add_0_r, F2, E1 by lia. by apply list_lookup_insert_eq, (lookup_lt_Some _ _ _ Hp).
      * rewrite <- (Z2 j) by lia. f_equal. lia.
Qed.

Lemma empty_store c :
  (forall a, is_Some (heap c !! a) <-> a = mru_list) -> nxt (heap c) mru_list = Some mru_list ->
  prv (heap c) mru_list = Some mru_list -> entries c = replicate (Z.to_nat MAX_HASH_ENTRIES) NULL -> num_entries c = 0 ->
  store c [] (replicate (Z.to_nat MAX_HASH_ENTRIES) []).
Proof.
  intros Hd Hn Hp He Hnum. assert (forall n, concat (replicate n (@nil Z)) = []) as Hc by (induction n; done).
  split; [by apply NoDup_singleton|set_solver|done| | | | | |by rewrite Hc|done].
  - intros a. rewrite Hd. set_solver.
  - intros a Ha. by apply not_elem_of_nil in Ha.
  - by rewrite He, !length_replicate.
  - intros i p xs Hi Hx. rewrite He in Hi. apply lookup_replicate in Hi as [-> _]. by apply lookup_replicate in Hx as [-> _].
  - intros i xs a hv q ans w Hx Ha. apply lookup_replicate in Hx as [-> _].
    by apply not_elem_of_nil in Ha.
Qed.

Lemma flush_spec c ml chs :
  store c ml chs ->
  exists c', _cache_flush_locked c = CVal c' /\ store c' [] (replicate (Z.to_nat MAX_HASH_ENTRIES) []) /\ generation c' = generation c.
Proof.
  intros ST. destruct (st_len _ _ _ ST) as [L1 L2]. unfold _cache_flush_locked. rewrite <- L1.
  destruct (flush_slots_spec chs c 0) as (c1 & E1 & Le & H1 & _ & Hz & G1); [|by apply (st_concat_nodup _ _ _ ST)|].
  { intros j xs Hj. destruct (st_slot _ _ _ ST j) as (p & ys & Hp & Hy & C & _).
    - apply lookup_lt_Some in Hj. lia.
    - rewrite Hj in Hy. injection Hy as <-. by exists p. }
  change (Z.of_nat 0) with 0 in E1. rewrite E1. cbn [mbind cres_bind].
  assert (forall a, is_Some (heap c1 !! a) <-> a = mru_list) as D1.
  { intros a. rewrite H1. pose proof (st_dom _ _ _ ST a) as Hd. pose proof (st_nodup _ _ _ ST) as N.
    apply list.NoDup_cons in N as [N _]. rewrite <- (st_perm _ _ _ ST) in Hd, N. case_bool_decide.
    - split; [by intros [? ?]|]. intros ->. done.
    - rewrite Hd. set_solver. }
  destruct (hset_prev (heap c1) mru_list mru_list) as (h2 & -> & P1 & P2 & P3 & P4); [by apply D1|]. cbn [mbind cres_bind].
  destruct (hset_next h2 mru_list mru_list) as (h3 & -> & Q1 & Q2 & Q3 & Q4).
  { apply (dat_in (heap c1)); [done|]. by apply D1. } cbn [mbind cres_bind].
  eexists. split; [done|]. split; [|done]. rewrite L1. apply empty_store; cbn [heap entries num_entries]; [|..|done].
  - intros a. rewrite <- dat_some, Q4, P4, dat_some. apply D1.
  - by rewrite Q1, Z.eqb_refl.
  - by rewrite Q2, P1, Z.eqb_refl.
  - apply list_eq. intros j. destruct (Nat.lt_ge_cases j (Z.to_nat MAX_HASH_ENTRIES)) as [Hj|Hj].
    + rewrite <- (Nat.add_0_l j), Hz by lia. symmetry. apply lookup_replicate_2; lia.
    + rewrite !lookup_ge_None_2; [done|rewrite length_replicate; lia|lia].
Qed.
