(* ===== verification/DnsRefine.v ===== *)
(** * The resolver cache as a bounded list of answers

    What _resolv_cache_lookup, _resolv_cache_add and _resolv_cache_reset of
    libc/netbsd/resolv/res_cache.c promise: the cache is a list of at most
    CONFIG_MAX_ENTRIES answers, most recently used first.  The hash table and the
    linked list of DnsCache.v refine it. *)

From Stdlib Require Import ZArith Lia.
From stdpp Require Import base gmap list numbers sets.
From S2P Require Import Prelude Links DnsQuery DnsCache.

Open Scope Z_scope.

(** ** The abstract cache *)

Record item := mkItem { iquery : list Z; ianswer : list Z; iwhen : Z }.
Record acache := mkACache { agen : Z; items : list item }.

Definition supported (q : list Z) : bool :=
  match _dnsPacket_checkQuery (_dnsPacket_init q) with CVal b => b | _ => false end.

Definition hit (q : list Z) (it : item) : bool := same (iquery it) q.
Definition others (q : list Z) (A : list item) : list item := List.filter (fun it => negb (hit q it)) A.

(** An entry of CONFIG_SECONDS or more is dropped; one that does not fit the buffer
    is kept in its place; one that is found moves to the front. *)
Definition abs_lookup (A : acache) (q : list Z) (size now : Z)
    : (ResolvCacheStatus * option Z * option (list Z)) * acache :=
  if negb (supported q) then ((RESOLV_CACHE_UNSUPPORTED, None, None), A)
  else match List.find (hit q) (items A) with
  | None => ((RESOLV_CACHE_NOTFOUND, None, None), A)
  | Some it =>
      let len := Z.of_nat (length (ianswer it)) in
      if CONFIG_SECONDS <=? u32 (now - iwhen it) then
        ((RESOLV_CACHE_NOTFOUND, None, None), mkACache (agen A) (others q (items A)))
      else if size <? len then ((RESOLV_CACHE_UNSUPPORTED, Some len, None), A)
      else ((RESOLV_CACHE_FOUND, Some len, Some (ianswer it)), mkACache (agen A) (it :: others q (items A)))
  end.

(** A query that is there stays; a full cache loses its last item, also when there
    is no memory ([ok]) for the new one. *)
Definition abs_add (A : acache) (q ans : list Z) (ok : bool) (now : Z) : acache :=
  if negb (supported q) then A
  else match List.find (hit q) (items A) with
  | Some _ => A
  | None =>
      let l := if CONFIG_MAX_ENTRIES <=? Z.of_nat (length (items A)) then removelast (items A) else items A in
      mkACache (agen A) (if ok then mkItem q ans now :: l else l)
  end.

Definition abs_reset (A : acache) (gen : Z) : acache :=
  if agen A =? gen then A else mkACache gen [].

(** ** The representation *)

Definition item_at (h : Heap) (a : Z) (it : item) : Prop :=
  exists hv, dat h a = Some (hv, iquery it, ianswer it, iwhen it).

(** No two entries are for the same query. *)
Definition uniq (h : Heap) (ml : list Z) : Prop :=
  forall a b x y, a ∈ ml -> b ∈ ml -> item_at h a x -> item_at h b y -> same (iquery x) (iquery y) = true -> a = b.

Record repr_at (c : Cache) (A : acache) (ml : list Z) (chs : list (list Z)) : Prop := {
  rp_store : store c ml chs;
  rp_items : Forall2 (item_at (heap c)) ml (items A);
  rp_bound : Z.of_nat (length ml) <= CONFIG_MAX_ENTRIES;
  rp_uniq : uniq (heap c) ml;
  rp_gen : generation c = agen A
}.

Definition repr (c : Cache) (A : acache) : Prop := exists ml chs, repr_at c A ml chs.

Lemma item_at_inj h a x y : item_at h a x -> item_at h a y -> x = y.
Proof. intros [hx Hx] [hy Hy]. rewrite Hx in Hy. destruct x, y. cbn in *. by simplify_eq. Qed.

Lemma item_at_frame h h' a it : dat h' a = dat h a -> item_at h a it -> item_at h' a it.
Proof. unfold item_at. by intros ->. Qed.

Lemma items_frame h h' ml A :
  (forall a, a ∈ ml -> dat h' a = dat h a) -> Forall2 (item_at h) ml A -> Forall2 (item_at h') ml A.
Proof.
  intros F H. induction H as [|a it ml A Ha _ IH]; constructor.
  - apply (item_at_frame h); [|done]. apply F. left.
  - apply IH. intros b Hb. apply F. by right.
Qed.

Lemma uniq_frame h h' ml ml' :
  (forall a, a ∈ ml' -> a ∈ ml /\ dat h' a = dat h a) -> uniq h ml -> uniq h' ml'.
Proof.
  intros F U a b x y Ha Hb Hx Hy. destruct (F a Ha) as [Ha' Ea], (F b Hb) as [Hb' Eb].
  apply (U a b x y); [done..| |]; unfold item_at in *; by rewrite <- ?Ea, <- ?Eb.
Qed.

Lemma repr_query c A ml chs a it :
  repr_at c A ml chs -> a ∈ ml -> item_at (heap c) a it -> ok_query (iquery it).
Proof.
  intros R Ha [hv Hd]. destruct (st_good _ _ _ (rp_store _ _ _ _ R) a Ha) as (hv' & q & ans & w & E & _ & Hok).
  rewrite Hd in E. by simplify_eq.
Qed.

Lemma repr_item c A ml chs it :
  repr_at c A ml chs -> it ∈ items A -> exists a, a ∈ ml /\ item_at (heap c) a it.
Proof.
  intros R [i Hi]%list_elem_of_lookup. destruct (Forall2_lookup_r _ _ _ _ _ (rp_items _ _ _ _ R) Hi) as (a & Ha & Hit).
  exists a. split; [by apply list_elem_of_lookup_2 in Ha|done].
Qed.

Lemma supported_ok q : Forall octet q -> supported q = true -> ok_query q.
Proof.
  unfold supported. intros Hb. destruct (checkQuery_spec q Hb) as (r & -> & Hr). intros ->. split; [done|]. by apply Hr.
Qed.

(** The key of a query. *)
Lemma init_key_spec q :
  Forall octet q -> 3 <= Z.of_nat (length q) ->
  exists key, entry_init_key q = CVal (supported q, key) /\ (supported q = true -> good_key key /\ query key = q).
Proof.
  intros Hb Hl. unfold entry_init_key. destruct (hashQuery_total q Hb Hl) as [hv Hh]. unfold entry_hash at 1. rewrite Hh.
  cbn [mbind cres_bind]. destruct (checkQuery_spec q Hb) as (r & Hr & _).
  assert (supported q = r) as Hs by (unfold supported; by rewrite Hr). rewrite Hr. cbn [mbind cres_bind].
  eexists. split; [by rewrite Hs|]. intros Hsup. split; [|done]. split; [|done]. by apply supported_ok.
Qed.

(** ** Lookups agree *)

Lemma find_none_iff {B} (f : B -> bool) l : (forall x, x ∈ l -> f x = false) -> List.find f l = None.
Proof.
  induction l as [|x l IH]; intros H; cbn; [done|]. rewrite (H x) by left. apply IH. intros y Hy. apply H. by right.
Qed.

Lemma filter_all {B} (f : B -> bool) l : (forall x, x ∈ l -> f x = true) -> List.filter f l = l.
Proof.
  induction l as [|x l IH]; intros H; cbn; [done|]. rewrite (H x) by left. f_equal. apply IH. intros y Hy. apply H. by right.
Qed.

(** The only item that is hit. *)
Lemma hit_split q A1 it A2 :
  (forall x, x ∈ A1 ++ A2 -> hit q x = false) -> hit q it = true ->
  List.find (hit q) (A1 ++ it :: A2) = Some it /\ others q (A1 ++ it :: A2) = A1 ++ A2.
Proof.
  intros Hno Hit. split.
  - assert (List.find (hit q) A1 = None) as E by (apply find_none_iff; intros x Hx; apply Hno; set_solver).
    revert E. clear Hno. induction A1 as [|x A1 IH]; cbn; [by rewrite Hit|]. destruct (hit q x); [done|apply IH].
  - unfold others. rewrite List.filter_app. cbn [List.filter]. rewrite Hit. cbn [negb].
    f_equal; apply filter_all; intros x Hx; by rewrite Hno by set_solver.
Qed.

Lemma lookup_abs c A ml chs key :
  repr_at c A ml chs -> good_key key -> exists i ys zs,
    Z.of_nat i = hash key mod MAX_HASH_ENTRIES /\ chs !! i = Some (ys ++ zs) /\
    _cache_lookup_p c key = CVal (at_prefix i ys) /\ deref c (at_prefix i ys) = CVal (hd NULL zs) /\
    ((zs = [] /\ List.find (hit (query key)) (items A) = None) \/
     (exists e zs' l1 l2 A1 it A2, zs = e :: zs' /\ e <> NULL /\ ml = l1 ++ e :: l2 /\ items A = A1 ++ it :: A2 /\
        item_at (heap c) e it /\ hit (query key) it = true /\
        Forall2 (item_at (heap c)) l1 A1 /\ Forall2 (item_at (heap c)) l2 A2 /\
        List.find (hit (query key)) (items A) = Some it /\ others (query key) (items A) = A1 ++ A2)).
Proof.
  intros R Hk. destruct (lookup_p_spec c ml chs (rp_store _ _ _ _ R) key Hk) as (i & ys & zs & Hi & Hc & Hl & Hd & Hm).
  exists i, ys, zs. split_and!; [done..|]. destruct zs as [|e zs].
  - left. split; [done|]. apply find_none_iff. intros it Hit. apply not_true_iff_false. intros Hh.
    destruct (repr_item _ _ _ _ it R Hit) as (a & Ha & hv & Hda). apply (Hm a Ha). by eexists _, _, _, _.
  - right. destruct Hm as (He & Hn & hv & q' & ans & w & Hde & Hs).
    apply list_elem_of_split in He as (l1 & l2 & E). pose proof (rp_items _ _ _ _ R) as F. rewrite E in F.
    apply Forall2_app_inv_l in F as (A1 & A2' & F1 & F2 & EA). apply Forall2_cons_inv_l in F2 as (it & A2 & Hit & F2 & ->).
    assert (it = mkItem q' ans w) as Eit by (apply (item_at_inj (heap c) e); [done|by exists hv]).
    assert (hit (query key) it = true) as Hh by (unfold hit; by rewrite Eit).
    destruct (hit_split (query key) A1 it A2) as [G1 G2]; [|done|].
    { intros x Hx. apply not_true_iff_false. intros Hhx. destruct Hk as [Hk1 Hk2].
      pose proof (st_ml_nodup _ _ _ (rp_store _ _ _ _ R)) as N. rewrite E, <- Permutation_middle in N.
      apply list.NoDup_cons in N as [N _]. apply N.
      assert (exists b, b ∈ l1 ++ l2 /\ item_at (heap c) b x) as (b & Hb & Hbx).
      { apply list_elem_of_lookup in Hx as [k Hx].
        destruct (Forall2_lookup_r _ _ _ _ _ (Forall2_app F1 F2) Hx) as (b & Hb & Hbx).
        exists b. split; [by apply list_elem_of_lookup_2 in Hb|done]. }
      assert (b ∈ ml) as Hbm by (rewrite E; set_solver). assert (e ∈ ml) as Hem by (rewrite E; set_solver).
      rewrite (rp_uniq _ _ _ _ R e b it x); [done|done|done|done|done|].
      pose proof (repr_query _ _ _ _ b x R Hbm Hbx). pose proof (repr_query _ _ _ _ e it R Hem Hit).
      apply (same_trans _ (query key)); [done|done|done|done|]. by apply same_sym. }
    exists e, zs, l1, l2, A1, it, A2. rewrite EA. by split_and!.
Qed.

(** ** Every operation refines its abstract one *)

(** Removing the entry that a lookup found. *)
Lemma remove_repr c A i ys e zs l1 l2 chs A1 it A2 :
  repr_at c A (l1 ++ e :: l2) chs -> chs !! i = Some (ys ++ e :: zs) -> items A = A1 ++ it :: A2 ->
  Forall2 (item_at (heap c)) l1 A1 -> Forall2 (item_at (heap c)) l2 A2 ->
  exists c', _cache_remove_p c (at_prefix i ys) = CVal c' /\
    repr_at c' (mkACache (agen A) (A1 ++ A2)) (l1 ++ l2) (<[i := ys ++ zs]> chs).
Proof.
  intros R Hi EA F1 F2.
  destruct (remove_p_spec c l1 e l2 chs i ys zs (rp_store _ _ _ _ R) (rp_bound _ _ _ _ R) Hi) as (c' & E & ST & D & G).
  pose proof (st_ml_nodup _ _ _ (rp_store _ _ _ _ R)) as N. rewrite <- Permutation_middle in N.
  apply list.NoDup_cons in N as [N _].
  exists c'. split; [done|]. split; cbn [items agen].
  - done.
  - apply (items_frame (heap c)); [|by apply Forall2_app]. intros a Ha. apply D. by intros ->.
  - pose proof (rp_bound _ _ _ _ R) as B. rewrite length_app in *. cbn [length] in B. lia.
  - apply (uniq_frame (heap c) _ (l1 ++ e :: l2)); [|apply R]. intros a Ha. split; [set_solver|]. apply D. by intros ->.
  - rewrite G. apply R.
Qed.

Lemma lookup_refines c A q size now :
  repr c A -> Forall octet q -> 3 <= Z.of_nat (length q) ->
  exists c', _resolv_cache_lookup c q size now = CVal (fst (abs_lookup A q size now), c') /\
    repr c' (snd (abs_lookup A q size now)).
Proof.
  intros (ml & chs & R) Hb Hl. unfold _resolv_cache_lookup, abs_lookup.
  destruct (init_key_spec q Hb Hl) as (key & -> & Hkey). cbn [mbind cres_bind].
  destruct (supported q) eqn:Hs; cbn [negb]; [|by exists c; split; [done|by exists ml, chs]].
  destruct (Hkey eq_refl) as [Hk Hq]. clear Hkey.
  destruct (lookup_abs c A ml chs key R Hk) as (i & ys & zs & _ & Hc & -> & D & Cases). cbn [mbind cres_bind].
  rewrite D. cbn [mbind cres_bind]. rewrite Hq in Cases.
  destruct Cases as [[-> ->]|(e & zs' & l1 & l2 & A1 & it & A2 & -> & Hn & -> & EA & Hit & _ & F1 & F2 & -> & EO)]; cbn [hd].
  { rewrite Z.eqb_refl. exists c. split; [done|by exists ml, chs]. }
  zif. destruct Hit as [hv Hd]. destruct (dat_get _ _ _ _ _ _ Hd) as (x & Hx & Hg & _ & _ & Ea & Ew).
  rewrite Hg. cbn [mbind cres_bind]. rewrite Ea, Ew, EO.
  destruct (Z.leb_spec CONFIG_SECONDS (u32 (now - iwhen it))).
  { destruct (remove_repr c A i ys e zs' l1 l2 chs A1 it A2 R Hc EA F1 F2) as (c' & -> & R'). cbn [mbind cres_bind].
    exists c'. split; [done|]. by eexists _, _. }
  destruct (Z.ltb_spec size (Z.of_nat (length (ianswer it)))).
  { exists c. split; [done|]. by exists (l1 ++ e :: l2), chs. }
  destruct (bump_spec c l1 e l2 chs (rp_store _ _ _ _ R)) as (h' & E & ST & D').
  unfold hget in E |- *. destruct (heap c !! mru_list) as [l|]; [|done]. cbn [mbind cres_bind] in E |- *. rewrite E.
  cbn [mbind cres_bind]. eexists. split; [done|]. cbn [snd]. exists (e :: l1 ++ l2), chs. split; cbn [items agen heap with_heap].
  - done.
  - constructor; [by exists hv; rewrite D'|]. apply (items_frame (heap c)); [done|by apply Forall2_app].
  - pose proof (rp_bound _ _ _ _ R) as B. cbn [length]. rewrite length_app in *. cbn [length] in B. lia.
  - apply (uniq_frame (heap c) _ (l1 ++ e :: l2)); [|apply R]. intros a Ha. split; [set_solver|done].
  - apply R.
Qed.

Lemma last_unique (l1 l2 l1' : list Z) o : NoDup (l1 ++ [o]) -> l1 ++ [o] = l1' ++ o :: l2 -> l1' = l1 /\ l2 = [].
Proof.
  intros N E. destruct l2 as [|y l2 _] using rev_ind; [by apply app_inj_tail in E as [-> _]|].
  exfalso. change (l1' ++ o :: l2 ++ [y]) with (l1' ++ (o :: l2) ++ [y]) in E. rewrite app_assoc in E.
  apply app_inj_tail in E as [-> ->]. apply list.NoDup_app in N as (_ & N & _). apply (N y); set_solver.
Qed.

Lemma remove_oldest_refines c A ml chs :
  repr_at c A ml chs -> ml <> [] ->
  exists c' ml' chs', _cache_remove_oldest c = CVal c' /\
    repr_at c' (mkACache (agen A) (removelast (items A))) ml' chs' /\ S (length ml') = length ml /\
    (forall a, heap c !! a = None -> heap c' !! a = None).
Proof.
  intros R Hne. pose proof (rp_store _ _ _ _ R) as ST. pose proof (st_ml_nodup _ _ _ ST) as N.
  destruct (exists_last Hne) as (l1 & o & ->). pose proof (st_links _ _ _ ST) as L. rewrite <- app_assoc in L.
  change (mru_list :: l1 ++ [o] ++ [mru_list]) with ((mru_list :: l1) ++ o :: [mru_list]) in L.
  apply links_app in L as [_ (_ & L & _)]. unfold prv in L.
  destruct (heap c !! mru_list) as [lx|] eqn:Hlx; [|done]. injection L as Lo.
  destruct (st_good _ _ _ ST o) as (hv & q & ans & w & Hd & Hh & Hok); [set_solver|].
  destruct (dat_get _ _ _ _ _ _ Hd) as (x & Hx & Hg & <- & <- & Ea & Ew).
  assert (hget (heap c) mru_list = CVal lx) as Hgl by (unfold hget; by rewrite Hlx).
  unfold _cache_remove_oldest. rewrite Hgl. cbn [mbind cres_bind]. rewrite Lo, Hg. cbn [mbind cres_bind].
  destruct (lookup_abs c A _ chs x R) as (i & ys & zs & _ & Hc & -> & D & Cases); [done|]. cbn [mbind cres_bind].
  rewrite D. cbn [mbind cres_bind].
  assert (item_at (heap c) o (mkItem (query x) ans w)) as Hio by (exists (hash x); done).
  destruct Cases as [[-> Hno]|(e & zs' & l1' & l2 & A1 & it & A2 & -> & Hn & El & EA & Hit & Hh2 & F1 & F2 & _)]; cbn [hd].
  { exfalso. destruct (Forall2_lookup_l _ _ _ (length l1) o (rp_items _ _ _ _ R)) as (it & Hit & Hoit);
      [by rewrite lookup_app_r, Nat.sub_diag by lia|].
    rewrite (item_at_inj _ _ _ _ Hoit Hio) in Hit. apply list_elem_of_lookup_2, list_elem_of_In in Hit.
    apply (List.find_none _ _ Hno) in Hit. unfold hit in Hit. cbn [iquery] in Hit. by rewrite same_refl in Hit. }
  zif. assert (e = o) as ->.
  { apply (rp_uniq _ _ _ _ R e o it (mkItem (query x) ans w)); [rewrite El; set_solver|set_solver|done..]. }
  apply last_unique in El as [-> ->]; [|done]. apply Forall2_nil_inv_l in F2 as ->.
  destruct (remove_repr c A i ys o zs' l1 [] chs A1 it [] R Hc EA F1) as (c' & E & R'); [constructor|].
  rewrite app_nil_r in R'. rewrite EA, removelast_snoc. eexists c', _, _. split; [done|]. split; [by rewrite app_nil_r in R'|].
  rewrite length_app. cbn [length]. split; [lia|]. intros a Ha.
  destruct (heap c' !! a) as [y|] eqn:Hy; [|done]. exfalso.
  pose proof (st_dom _ _ _ (rp_store _ _ _ _ R') a) as [Hd' _]. rewrite Hy in Hd'. specialize (Hd' ltac:(done)).
  pose proof (st_dom _ _ _ ST a) as [_ Hd2]. destruct Hd2 as [z Hz]; [set_solver|]. congruence.
Qed.

(** The entry is linked in, or there was no memory. *)
Lemma add_new_refines c A ml chs i ys key ans a now :
  repr_at c A ml chs -> Z.of_nat (length ml) < CONFIG_MAX_ENTRIES -> good_key key ->
  chs !! i = Some ys -> Z.of_nat i = hash key mod MAX_HASH_ENTRIES -> (a = NULL \/ heap c !! a = None) ->
  List.find (hit (query key)) (items A) = None ->
  exists c', add_new c (at_prefix i ys) key ans a now = CVal c' /\
    repr c' (mkACache (agen A) (if negb (a =? NULL) then mkItem (query key) ans now :: items A else items A)).
Proof.
  intros R Hl Hk Hi Hm Ha Hno. destruct (Z.eqb_spec a NULL) as [->|Hn]; cbn [negb].
  { exists c. split; [unfold add_new, entry_alloc, with_heap; by destruct c|]. exists ml, chs. destruct A. done. }
  destruct Ha as [->|Hf]; [done|].
  destruct (add_p_spec c ml chs i ys key ans a now (rp_store _ _ _ _ R) Hl Hk Hi (eq_sym Hm) Hn Hf) as (c' & -> & ST & Da & D & G).
  exists c'. split; [done|]. exists (a :: ml), (<[i := ys ++ [a]]> chs).
  assert (a ∉ ml) as Na.
  { intros Hin. destruct (proj2 (st_dom _ _ _ (rp_store _ _ _ _ R) a)) as [y Hy]; [by right|]. congruence. }
  assert (forall b, b ∈ ml -> dat (heap c') b = dat (heap c) b) as D' by (intros b Hb; apply D; by intros ->).
  assert (forall b y, b ∈ ml -> item_at (heap c') b y -> same (iquery y) (query key) = true -> False) as Hnew.
  { intros b y Hb Hy Hs. apply (item_at_frame _ (heap c)) in Hy; [|by rewrite D'].
    apply list_elem_of_lookup in Hb as [k Hb]. destruct (Forall2_lookup_l _ _ _ _ _ (rp_items _ _ _ _ R) Hb) as (y' & Hy' & Hby).
    rewrite (item_at_inj _ _ _ _ Hby Hy) in Hy'. apply list_elem_of_lookup_2, list_elem_of_In in Hy'.
    apply (List.find_none _ _ Hno) in Hy'. unfold hit in Hy'. congruence. }
  split; cbn [items agen].
  - done.
  - constructor; [by exists (hash key)|]. apply (items_frame (heap c)); [done|apply R].
  - cbn [length]. lia.
  - assert (forall y, item_at (heap c') a y -> iquery y = query key) as Hqa.
    { intros y [hv Hy]. rewrite Da in Hy. by simplify_eq. }
    assert (ok_query (query key)) as Hok by apply Hk.
    assert (forall b y, b ∈ ml -> item_at (heap c') b y -> ok_query (iquery y)) as Hoks.
    { intros b y Hb Hy. apply (repr_query _ _ _ _ b y R Hb). apply (item_at_frame (heap c')); [by rewrite D'|done]. }
    intros b1 b2 x y [->|H1]%elem_of_cons [->|H2]%elem_of_cons Hx Hy Hs; [done|exfalso|exfalso|].
    + rewrite (Hqa x Hx) in Hs. apply (Hnew b2 y H2 Hy). apply same_sym; [done|by apply (Hoks b2)|done].
    + rewrite (Hqa y Hy) in Hs. by apply (Hnew b1 x).
    + apply (rp_uniq _ _ _ _ R b1 b2 x y); [done..| | |done]; apply (item_at_frame (heap c')); [by rewrite D'|done|by rewrite D'|done].
  - rewrite G. apply R.
Qed.

Lemma add_refines c A q ans a now :
  repr c A -> Forall octet q -> 3 <= Z.of_nat (length q) -> (a = NULL \/ heap c !! a = None) ->
  exists c', _resolv_cache_add c q ans a now = CVal c' /\ repr c' (abs_add A q ans (negb (a =? NULL)) now).
Proof.
  intros (ml & chs & R) Hb Hl Ha. unfold _resolv_cache_add, abs_add.
  destruct (init_key_spec q Hb Hl) as (key & -> & Hkey). cbn [mbind cres_bind].
  destruct (supported q) eqn:Hs; cbn [negb]; [|by exists c; split; [done|by exists ml, chs]].
  destruct (Hkey eq_refl) as [Hk Hq]. clear Hkey.
  destruct (lookup_abs c A ml chs key R Hk) as (i & ys & zs & Hi & Hc & -> & D & Cases). cbn [mbind cres_bind].
  rewrite D. cbn [mbind cres_bind]. rewrite <- Hq.
  destruct Cases as [[-> Hno]|(e & zs' & l1 & l2 & A1 & it & A2 & -> & Hn & -> & EA & Hit & _ & F1 & F2 & -> & EO)]; cbn [hd].
  2: { zif. exists c. split; [done|]. by exists (l1 ++ e :: l2), chs. }
  rewrite Z.eqb_refl, Hno. cbn [negb]. rewrite app_nil_r in Hc.
  rewrite (st_num _ _ _ (rp_store _ _ _ _ R)). pose proof (Forall2_length _ _ _ (rp_items _ _ _ _ R)) as Hlen. rewrite <- Hlen.
  destruct (Z.leb_spec CONFIG_MAX_ENTRIES (Z.of_nat (length ml))); [|by apply (add_new_refines c A ml chs)].
  destruct (remove_oldest_refines c A ml chs R) as (c1 & ml1 & chs1 & -> & R1 & Hl1 & Hf1).
  { intros ->. done. }
  cbn [mbind cres_bind].
  destruct (lookup_abs c1 _ ml1 chs1 key R1 Hk) as (j & ys1 & zs1 & Hj & Hc1 & -> & D1 & Cases). cbn [mbind cres_bind].
  rewrite D1. cbn [mbind cres_bind items] in *.
  destruct Cases as [[-> Hno1]|(e & zs' & l1 & l2 & A1 & it & A2 & _ & _ & _ & EA & _ & Hh & _ & _ & Hfind & _)].
  - cbn [hd]. rewrite Z.eqb_refl. cbn [negb]. rewrite app_nil_r in Hc1.
    apply (add_new_refines c1 (mkACache (agen A) (removelast (items A))) ml1 chs1); [done| |done|done|done| |done].
    + pose proof (rp_bound _ _ _ _ R). lia.
    + destruct Ha as [->|Ha]; [by left|right; by apply Hf1].
  - exfalso. assert (it ∈ items A) as Hin by (apply removelast_sub; rewrite EA; set_solver).
    apply list_elem_of_In in Hin. apply (List.find_none _ _ Hno) in Hin. congruence.
Qed.

Lemma reset_refines c A gen :
  repr c A -> exists c', _resolv_cache_reset (Some c) gen = CVal (Some c') /\ repr c' (abs_reset A gen).
Proof.
  intros (ml & chs & R). unfold _resolv_cache_reset, abs_reset. rewrite (rp_gen _ _ _ _ R).
  destruct (Z.eqb_spec (agen A) gen); cbn [negb]; [exists c; split; [done|by exists ml, chs]|].
  destruct (flush_spec c ml chs (rp_store _ _ _ _ R)) as (c1 & -> & ST & G). cbn [mbind cres_bind].
  eexists. split; [done|]. eexists [], _. split; cbn [items agen generation].
  - destruct ST. split; cbn [heap entries num_entries]; done.
  - constructor.
  - cbn. done.
  - intros a b x y Ha. by apply not_elem_of_nil in Ha.
  - done.
Qed.

Lemma create_repr : repr _resolv_cache_create (mkACache UINT_MAX []).
Proof.
  eexists [], _. split; cbn [items agen].
  - apply empty_store; [|done..]. intros a. unfold _resolv_cache_create. cbn [heap].
    rewrite lookup_singleton_is_Some. done.
  - constructor.
  - done.
  - intros a b x y Ha. by apply not_elem_of_nil in Ha.
  - done.
Qed.

(** C30: The resolver cache refines a bounded list of answers in the order of their
    last use.  From every representation of an abstract cache, and for every query
    of at least three bytes, _resolv_cache_lookup, _resolv_cache_add and
    _resolv_cache_reset terminate without touching memory that is not theirs,
    return what the abstract operation returns (a stale entry is dropped, a hit
    moves to the front, a full cache loses its least recently used entry, a new
    generation empties the cache), and leave a representation of its result. *)
Theorem dns_cache_refines (c : Cache) (A : acache) (q ans : list Z) (a now size gen : Z) :
  repr c A -> Forall octet q -> 3 <= Z.of_nat (length q) -> (a = NULL \/ heap c !! a = None) ->
  (exists c', _resolv_cache_lookup c q size now = CVal (fst (abs_lookup A q size now), c') /\
     repr c' (snd (abs_lookup A q size now))) /\
  (exists c', _resolv_cache_add c q ans a now = CVal c' /\ repr c' (abs_add A q ans (negb (a =? NULL)) now)) /\
  (exists c', _resolv_cache_reset (Some c) gen = CVal (Some c') /\ repr c' (abs_reset A gen)).
Proof.
  intros R Hb Hl Ha. split; [by apply lookup_refines|]. split; [by apply add_refines | by apply reset_refines].
Qed.

Lemma dns_cache_refines_witness :
  exists c, _resolv_cache_add _resolv_cache_create (sample_query 1) [1; 2] 2 1000 = CVal c /\
    repr c (mkACache UINT_MAX [mkItem (sample_query 1) [1; 2] 1000]).
Proof.
  destruct (dns_cache_refines _resolv_cache_create (mkACache UINT_MAX []) (sample_query 1) [1; 2] 2 1000 512 0)
    as (_ & (c & E & R) & _).
  - exact create_repr.
  - unfold sample_query, octet. cbn [app]. repeat (apply Forall_cons_2; [lia|]). constructor.
  - vm_compute. discriminate.
  - right. reflexivity.
  - exists c. split; [exact E|]. exact R.
Defined.

(** ** Runs *)

Inductive op :=
| Lookup (q : list Z) (size now : Z)
| Add (q ans : list Z) (a now : Z)
| Reset (gen : Z).

Definition op_ok (c : Cache) (o : op) : Prop :=
  match o with
  | Lookup q _ _ => Forall octet q /\ 3 <= Z.of_nat (length q)
  | Add q _ a _ => Forall octet q /\ 3 <= Z.of_nat (length q) /\ (a = NULL \/ heap c !! a = None)
  | Reset _ => True
  end.

Definition op_run (c : Cache) (o : op) : cres Cache :=
  match o with
  | Lookup q size now => '(_, c) ← _resolv_cache_lookup c q size now; CVal c
  | Add q ans a now => _resolv_cache_add c q ans a now
  | Reset gen => r ← _resolv_cache_reset (Some c) gen; CVal (default c r)
  end.

(** Operations of any number of threads, in the order in which they hold the lock. *)
Inductive run : list op -> Cache -> Prop :=
| run_create : run [] _resolv_cache_create
| run_op ops c o c' : run ops c -> op_ok c o -> op_run c o = CVal c' -> run (ops ++ [o]) c'.

(** The generation, and the additions since it began. *)
Definition live_step (s : Z * list op) (o : op) : Z * list op :=
  match o with
  | Reset gen => if s.1 =? gen then s else (gen, [])
  | Add _ _ _ _ => (s.1, o :: s.2)
  | Lookup _ _ _ => s
  end.
Definition live (ops : list op) : Z * list op := fold_left live_step ops (UINT_MAX, []).

Definition from_adds (ops : list op) (it : item) : Prop := exists a, Add (iquery it) (ianswer it) a (iwhen it) ∈ ops.

Lemma live_snoc ops o : live (ops ++ [o]) = live_step (live ops) o.
Proof. unfold live. by rewrite fold_left_app. Qed.

Lemma others_sub q l it : it ∈ others q l -> it ∈ l.
Proof. unfold others. rewrite !list_elem_of_In, filter_In. tauto. Qed.

Lemma lookup_items A q size now it : it ∈ items (snd (abs_lookup A q size now)) -> it ∈ items A.
Proof.
  unfold abs_lookup. destruct (negb _); [done|]. destruct (List.find _ _) as [x|] eqn:E; [|done].
  apply List.find_some in E as [E _]. apply list_elem_of_In in E.
  repeat bcase; cbn [snd items]; try done; try apply others_sub.
  intros [->|Hin]%elem_of_cons; [done|by apply (others_sub q)].
Qed.

Lemma add_items A q ans ok now it :
  it ∈ items (abs_add A q ans ok now) -> it ∈ items A \/ (ok = true /\ it = mkItem q ans now).
Proof.
  unfold abs_add. destruct (negb _); [by left|]. destruct (List.find _ _); [by left|]. cbn [items].
  assert (forall l, it ∈ (if CONFIG_MAX_ENTRIES <=? l then removelast (items A) else items A) -> it ∈ items A) as H.
  { intros l. bcase; [apply removelast_sub|done]. }
  destruct ok; [|by intros Hi%H; left]. intros [->|Hi%H]%elem_of_cons; [by right|by left].
Qed.

Lemma lookup_agen A q size now : agen (snd (abs_lookup A q size now)) = agen A.
Proof. unfold abs_lookup. destruct (negb _); [done|]. destruct (List.find _ _); [|done]. by repeat bcase. Qed.

Lemma add_agen A q ans ok now : agen (abs_add A q ans ok now) = agen A.
Proof. unfold abs_add. destruct (negb _); [done|]. by destruct (List.find _ _). Qed.

Lemma run_repr ops c :
  run ops c -> exists A, repr c A /\ agen A = (live ops).1 /\ (forall it, it ∈ items A -> from_adds (live ops).2 it).
Proof.
  induction 1 as [|ops c o c' _ (A & R & G & I) Hok E].
  { exists (mkACache UINT_MAX []). split_and!; [exact create_repr|done|]. intros it H. by apply not_elem_of_nil in H. }
  rewrite live_snoc. destruct o as [q size now|q ans a now|gen]; cbn [op_ok op_run live_step] in *.
  - destruct Hok as [Hb Hl]. destruct (lookup_refines c A q size now R Hb Hl) as (c1 & E1 & R1). rewrite E1 in E.
    destruct (fst (abs_lookup A q size now)) as [[? ?] ?]. cbn [mbind cres_bind] in E. injection E as <-.
    eexists. split_and!; [exact R1|by rewrite lookup_agen|]. intros it Hit%lookup_items. by apply I.
  - destruct Hok as (Hb & Hl & Ha). destruct (add_refines c A q ans a now R Hb Hl Ha) as (c1 & E1 & R1). rewrite E1 in E.
    injection E as <-. eexists. split_and!; [exact R1|by rewrite add_agen|].
    intros it [Hit|[_ ->]]%add_items; cbn [snd].
    + destruct (I it Hit) as [b Hb']. exists b. by right.
    + exists a. left.
  - destruct (reset_refines c A gen R) as (c1 & E1 & R1). rewrite E1 in E. cbn [mbind cres_bind default] in E. injection E as <-.
    eexists. split; [exact R1|]. unfold abs_reset. rewrite <- G.
    destruct (Z.eqb_spec (agen A) gen); cbn [agen items]; [done|]. split; [done|]. intros it H. by apply not_elem_of_nil in H.
Qed.

(** In every run of lookups, additions and resets on a fresh cache, the cache
    holds at most 64 entries, no operation gets stuck, and an answer that a lookup
    returns is one that was added for a query the cache takes for the same, since
    the last change of generation and less than ten minutes before, and fits the
    caller's buffer. *)
Theorem dns_cache_answers (ops : list op) (c : Cache) (q : list Z) (size now : Z) :
  run ops c -> Forall octet q -> 3 <= Z.of_nat (length q) ->
  0 <= num_entries c <= CONFIG_MAX_ENTRIES /\
  (forall o, op_ok c o -> exists c', op_run c o = CVal c') /\
  exists st len b c', _resolv_cache_lookup c q size now = CVal (st, len, b, c') /\
    (st = RESOLV_CACHE_FOUND -> exists q' ans a w,
       b = Some ans /\ Add q' ans a w ∈ (live ops).2 /\ same q' q = true /\ u32 (now - w) < CONFIG_SECONDS /\
       Z.of_nat (length ans) <= size).
Proof.
  intros Hrun Hb Hl. destruct (run_repr ops c Hrun) as (A & R & _ & I). split_and!.
  - destruct R as (ml & chs & R). rewrite (st_num _ _ _ (rp_store _ _ _ _ R)). pose proof (rp_bound _ _ _ _ R). lia.
  - destruct R as (ml & chs & R). rewrite (st_num _ _ _ (rp_store _ _ _ _ R)). pose proof (rp_bound _ _ _ _ R). lia.
  - intros [q' s' n'|q' ans a n'|gen] Ho; cbn [op_ok op_run] in *.
    + destruct (lookup_refines c A q' s' n' R) as (c' & -> & _); [tauto..|]. by destruct (fst _) as [[? ?] ?]; eexists.
    + destruct (add_refines c A q' ans a n' R) as (c' & -> & _); [tauto..|]. by eexists.
    + destruct (reset_refines c A gen R) as (c' & -> & _). by eexists.
  - destruct (lookup_refines c A q size now R Hb Hl) as (c' & E & _). revert E. unfold abs_lookup.
    destruct (negb (supported q)); [intros E; by eexists _, _, _, _|].
    destruct (List.find (hit q) (items A)) as [it|] eqn:F; [|intros E; by eexists _, _, _, _].
    apply List.find_some in F as [F Hh]. apply list_elem_of_In in F. destruct (I it F) as [a Ha].
    repeat bcase; intros E; eexists _, _, _, _; (split; [exact E|]); try done.
    intros _. exists (iquery it), (ianswer it), a, (iwhen it). by split_and!.
Qed.

Definition sample_cache : Cache :=
  match op_run _resolv_cache_create (Add (sample_query 1) [1; 2] 2 1000) with CVal c => c | _ => _resolv_cache_create end.

Lemma sample_octets : Forall octet (sample_query 1).
Proof. unfold sample_query, octet. cbn [app]. repeat (apply Forall_cons_2; [lia|]). constructor. Qed.

Lemma dns_cache_answers_witness :
  0 <= num_entries sample_cache <= CONFIG_MAX_ENTRIES /\
  (forall o, op_ok sample_cache o -> exists c', op_run sample_cache o = CVal c') /\
  exists st len b c', _resolv_cache_lookup sample_cache (sample_query 1) 512 1100 = CVal (st, len, b, c') /\
    (st = RESOLV_CACHE_FOUND -> exists q' ans a w,
       b = Some ans /\ Add q' ans a w ∈ (live ([] ++ [Add (sample_query 1) [1; 2] 2 1000])).2 /\
       same q' (sample_query 1) = true /\ u32 (1100 - w) < CONFIG_SECONDS /\ Z.of_nat (length ans) <= 512).
Proof.
  apply (dns_cache_answers ([] ++ [Add (sample_query 1) [1; 2] 2 1000]) sample_cache (sample_query 1) 512 1100).
  - apply (run_op [] _resolv_cache_create _ sample_cache); [constructor| |vm_compute; reflexivity].
    split; [exact sample_octets|]. split; [vm_compute; discriminate|right; reflexivity].
  - exact sample_octets.
  - vm_compute. discriminate.
Defined.

(** A lookup that does not find its query leaves a cache without it. *)
Lemma not_found_abs A q size now :
  supported q = true -> (fst (abs_lookup A q size now)).1.1 = RESOLV_CACHE_NOTFOUND ->
  List.find (hit q) (items (snd (abs_lookup A q size now))) = None.
Proof.
  intros Hs. unfold abs_lookup. rewrite Hs. cbn [negb].
  destruct (List.find (hit q) (items A)) as [it|] eqn:F; [|intros _; cbn [snd]; by rewrite F].
  repeat bcase; cbn [fst snd items]; try done; intros _; apply find_none_iff; intros x Hx;
    unfold others in Hx; apply list_elem_of_In, filter_In in Hx as [_ Hx]; by destruct (hit q x).
Qed.

(** An answer that is added after its query was not found is found: when
    _resolv_cache_lookup has returned RESOLV_CACHE_NOTFOUND for a query of a
    supported kind and there is memory, _resolv_cache_add stores the answer, and a
    lookup of the query within ten minutes returns exactly its bytes, if the buffer
    is large enough. *)
Theorem dns_cache_add_found (ops : list op) (c c1 : Cache) (q ans : list Z) (size0 now0 a now size now' : Z) len b :
  run ops c -> Forall octet q -> 3 <= Z.of_nat (length q) -> supported q = true ->
  _resolv_cache_lookup c q size0 now0 = CVal (RESOLV_CACHE_NOTFOUND, len, b, c1) ->
  a <> NULL -> heap c1 !! a = None ->
  u32 (now' - now) < CONFIG_SECONDS -> Z.of_nat (length ans) <= size ->
  exists c2 c3, _resolv_cache_add c1 q ans a now = CVal c2 /\
    _resolv_cache_lookup c2 q size now' = CVal (RESOLV_CACHE_FOUND, Some (Z.of_nat (length ans)), Some ans, c3).
Proof.
  intros Hrun Hb Hl Hs Hlk Hn Hf Ht Hsz. destruct (run_repr ops c Hrun) as (A & R & _).
  destruct (lookup_refines c A q size0 now0 R Hb Hl) as (c1' & E1 & R1). rewrite Hlk in E1.
  set (A1 := snd (abs_lookup A q size0 now0)) in *. injection E1 as Est <-.
  assert (List.find (hit q) (items A1) = None) as Hno by (apply not_found_abs; [done|by rewrite <- Est]).
  destruct (add_refines c1 A1 q ans a now R1 Hb Hl) as (c2 & E2 & R2); [by right|].
  destruct (lookup_refines c2 _ q size now' R2 Hb Hl) as (c3 & E3 & _). exists c2, c3. split; [done|]. rewrite E3. do 2 f_equal.
  unfold abs_add. rewrite Hs, Hno. cbn [negb]. rewrite (proj2 (Z.eqb_neq a NULL)) by done. cbn [negb].
  unfold abs_lookup. rewrite Hs. cbn [negb items List.find]. unfold hit at 1. cbn [iquery].
  rewrite (same_refl q) by by apply supported_ok. cbn [ianswer iwhen]. repeat zif. done.
Qed.

Lemma dns_cache_add_found_witness :
  exists c2 c3, _resolv_cache_add _resolv_cache_create (sample_query 1) [1; 2; 3] 7 1000 = CVal c2 /\
    _resolv_cache_lookup c2 (sample_query 1) 512 1500 = CVal (RESOLV_CACHE_FOUND, Some 3, Some [1; 2; 3], c3).
Proof.
  apply (dns_cache_add_found [] _resolv_cache_create _resolv_cache_create (sample_query 1) [1; 2; 3] 512 0 7 1000 512 1500 None None).
  - constructor.
  - exact sample_octets.
  - vm_compute. discriminate.
  - vm_compute. reflexivity.
  - vm_compute. reflexivity.
  - discriminate.
  - reflexivity.
  - vm_compute. reflexivity.
  - vm_compute. discriminate.
Defined.
