(* ===== verification/Bytes.v ===== *)
(** * Bytes at offsets

    A message or a string is the list of the bytes that can be read from its start, and
    what is written goes to the end of a list: the view of memory of the domain names and
    the addresses, where the code walks one buffer and fills another. *)

From Stdlib Require Import ZArith Lia.
From stdpp Require Import base list numbers sets.
From S2P Require Import Prelude.

Open Scope Z_scope.

(** Reading [n] bytes, and writing at the end of [out]. *)
Definition aslice (m : list Z) (p n : Z) : cres (list Z) :=
  if (0 <=? p) && (0 <=? n) && (p + n <=? Z.of_nat (length m)) then CVal (slice (Z.to_nat p) (Z.to_nat n) m) else CUndef.
Definition put (lim : Z) (out l : list Z) : cres (list Z) :=
  if Z.of_nat (length out + length l) <=? lim then CVal (out ++ l) else CUndef.

(** The bytes at an offset of the message. *)
Definition at_off (m : list Z) (p : Z) (l : list Z) : Prop := exists pre post, m = pre ++ l ++ post /\ p = Z.of_nat (length pre).

Definition octets (m : list Z) : Prop := forall x, x ∈ m -> 0 <= x < 256.

Lemma at_off_get m p l i x : at_off m p l -> l !! i = Some x -> aget m (p + Z.of_nat i) = CVal x.
Proof.
  intros (pre & post & -> & ->) Hi. apply aget_val; [lia|].
  replace (Z.to_nat (Z.of_nat (length pre) + Z.of_nat i)) with (length pre + i)%nat by lia.
  rewrite lookup_app_r by lia. replace (length pre + i - length pre)%nat with i by lia.
  rewrite lookup_app_l; [done|]. by apply lookup_lt_Some in Hi.
Qed.

Lemma at_off_head m p x l : at_off m p (x :: l) -> aget m p = CVal x.
Proof. intros H. rewrite <- (Z.add_0_r p). by apply (at_off_get m p (x :: l) 0 x). Qed.

Lemma at_off_app m p l1 l2 : at_off m p (l1 ++ l2) <-> at_off m p l1 /\ at_off m (p + Z.of_nat (length l1)) l2.
Proof.
  split.
  - intros (pre & post & -> & ->). split; [exists pre, (l2 ++ post)|exists (pre ++ l1), post]; rewrite <- ?app_assoc, ?length_app; split; lia || done.
  - intros [(pre & post & -> & ->) (pre2 & post2 & E & Hp)]. rewrite app_assoc in E.
    assert (length (pre ++ l1) = length pre2) as Hlen by (rewrite length_app; lia).
    apply app_inj_1 in E as [<- E]; [|done]. exists pre, post2. rewrite E, <- !app_assoc. split; done.
Qed.

Lemma at_off_slice m p l : at_off m p l -> aslice m p (Z.of_nat (length l)) = CVal l.
Proof.
  intros (pre & post & -> & ->). unfold aslice. rewrite !length_app.
  repeat zif. rewrite !Nat2Z.id. unfold slice. rewrite drop_app_length, take_app_length. done.
Qed.

Lemma at_off_take m p l n : at_off m p l -> 0 <= n <= Z.of_nat (length l) ->
  aslice m p n = CVal (take (Z.to_nat n) l) /\ at_off m (p + n) (drop (Z.to_nat n) l).
Proof.
  intros H Hn. rewrite <- (take_drop (Z.to_nat n) l) in H. apply at_off_app in H as [H1 H2].
  rewrite length_take_le in H2 by lia. apply at_off_slice in H1. rewrite length_take_le in H1 by lia.
  rewrite Z2Nat.id in H1, H2 by lia. done.
Qed.

Lemma at_off_ext m m' p l : at_off m p l -> at_off (m ++ m') p l.
Proof. intros (pre & post & -> & ->). exists pre, (post ++ m'). by rewrite <- !app_assoc. Qed.

Lemma at_off_inner m m' p l : at_off (m ++ m') p l -> p + Z.of_nat (length l) <= Z.of_nat (length m) -> at_off m p l.
Proof.
  intros (pre & post & E & ->) Hb. rewrite app_assoc in E.
  exists pre, (drop (length (pre ++ l)) m). split; [|done]. rewrite app_assoc.
  rewrite <- (take_drop (length (pre ++ l)) m) at 1. f_equal.
  rewrite <- (take_app_le m m') by (rewrite length_app; lia). by rewrite E, take_app_length.
Qed.

Lemma at_off_bound m p l : at_off m p l -> 0 <= p /\ p + Z.of_nat (length l) <= Z.of_nat (length m).
Proof. intros (pre & post & -> & ->). rewrite !length_app. lia. Qed.

Lemma put_ok lim out l : Z.of_nat (length out + length l) <= lim -> put lim out l = CVal (out ++ l).
Proof. intros H. unfold put. by zif. Qed.

(** What is read is there. *)
Lemma get_at_off m p : 0 <= p < Z.of_nat (length m) -> exists x, aget m p = CVal x /\ at_off m p [x] /\ x ∈ m.
Proof.
  intros Hp. destruct (lookup_lt_is_Some_2 m (Z.to_nat p)) as [x Hx]; [lia|]. exists x.
  split_and!; [by apply aget_val; [lia|]| |by apply list_elem_of_lookup_2 in Hx].
  exists (take (Z.to_nat p) m), (drop (S (Z.to_nat p)) m). rewrite length_take_le by lia.
  split; [|lia]. cbn. symmetry. by apply take_drop_middle.
Qed.

Lemma slice_at_off m p n : 0 <= p -> 0 <= n -> p + n <= Z.of_nat (length m) ->
  exists l, aslice m p n = CVal l /\ at_off m p l /\ Z.of_nat (length l) = n.
Proof.
  intros Hp Hn Hl. unfold aslice. repeat zif. eexists. split; [done|].
  assert (length (slice (Z.to_nat p) (Z.to_nat n) m) = Z.to_nat n) as Hlen by (apply slice_length; lia). split; [|lia].
  exists (take (Z.to_nat p) m), (drop (Z.to_nat n) (drop (Z.to_nat p) m)). rewrite length_take_le by lia. split; [|lia].
  unfold slice. by rewrite !take_drop.
Qed.

Lemma octets_cons b l : octets (b :: l) -> 0 <= b < 256 /\ octets l.
Proof. intros H. split; [apply H; left|]. intros x Hx. apply H. by right. Qed.

Lemma octets_app m1 m2 : octets (m1 ++ m2) -> octets m1 /\ octets m2.
Proof. intros H. split; intros x Hx; apply H, elem_of_app; [by left|by right]. Qed.

Lemma octets_at m p l : octets m -> at_off m p l -> octets l.
Proof. intros Ho (pre & post & -> & _) x Hx. apply Ho. rewrite !elem_of_app. by right; left. Qed.
