(* ===== verification/Digits.v ===== *)
(** * Digits

    Decimal and hexadecimal digits as the functions of libc/netbsd and libc/inet print
    and read them, shared by the text of domain names and of addresses. *)

From Stdlib Require Import ZArith Lia.
From stdpp Require Import base list numbers.
From S2P Require Import Prelude.

Open Scope Z_scope.

Definition digits (n : Z) : Z := 0x30 + n.
Definition hex_digit (n : Z) : Z := if n <? 10 then 0x30 + n else 0x57 + n.
Definition decimal (c : Z) : bool := (0x30 <=? c) && (c <=? 0x39).

Definition hexval (c : Z) : option Z :=
  if decimal c then Some (c - 0x30)
  else if (0x61 <=? c) && (c <=? 0x66) then Some (c - 0x57)
  else if (0x41 <=? c) && (c <=? 0x46) then Some (c - 0x37) else None.

(** %d of a number below 1000, %x of one below 65536. *)
Definition fmt_d (v : Z) : list Z :=
  (if v <? 100 then [] else [digits (v / 100)]) ++ (if v <? 10 then [] else [digits ((v / 10) mod 10)]) ++ [digits (v mod 10)].
Definition fmt_x (v : Z) : list Z :=
  (if v <? 4096 then [] else [hex_digit (v / 4096)]) ++ (if v <? 256 then [] else [hex_digit ((v / 256) mod 16)]) ++
  (if v <? 16 then [] else [hex_digit ((v / 16) mod 16)]) ++ [hex_digit (v mod 16)].

Lemma digits_decimal n : 0 <= n < 10 -> decimal (digits n) = true /\ digits n - 0x30 = n /\ digits n <> 0 /\ digits n <> 0x5b /\ digits n <> 0x5c /\ digits n <> 0x2e.
Proof. intros Hn. unfold decimal, digits. rewrite andb_true_iff, !Z.leb_le. lia. Qed.

Lemma octet_digits c : 0 <= c < 256 -> (0 <= c / 100 < 10 /\ 0 <= (c mod 100) / 10 < 10 /\ 0 <= c mod 10 < 10) /\
  c / 100 * 100 + (c mod 100) / 10 * 10 + c mod 10 = c.
Proof. intros Hc. zdm. Qed.

Lemma fmt_d_length v : (1 <= length (fmt_d v) <= 3)%nat.
Proof. unfold fmt_d. destruct (v <? 100), (v <? 10); cbn; lia. Qed.

Lemma fmt_x_length v : (1 <= length (fmt_x v) <= 4)%nat.
Proof. unfold fmt_x. destruct (v <? 4096), (v <? 256), (v <? 16); cbn; lia. Qed.
