(* ===== verification/NsName.v ===== *)
(** * Domain names in messages: netbsd/nameser/ns_name.c

    The labels of a name, expansion of compressed names (ns_name_unpack), skipping
    and lower-casing.  A message is the list of the bytes that can be read from its
    start; [eom] is the end of the message in it, and pointers are offsets.  What is
    written goes to the end of [out], which may grow to the size of the destination.
    A result is [inl errno] where the C function returns -1. *)

From Stdlib Require Import ZArith Lia.
From stdpp Require Import base list numbers sets.
From S2P Require Import Prelude Bytes.

Open Scope Z_scope.

Definition NS_MAXCDNAME : Z := 255.
Definition NS_CMPRSFLGS : Z := 0xc0.
Definition NS_TYPE_ELT : Z := 0x40.
Definition DNS_LABELTYPE_BITSTRING : Z := 0x41.

(** The length of a label after its first byte, -1 for one of unknown type. *)
Definition labellen (m : list Z) (lp : Z) : cres Z :=
  l ← aget m lp;
  if Z.land l NS_CMPRSFLGS =? NS_CMPRSFLGS then CVal (-1)
  else if Z.land l NS_CMPRSFLGS =? NS_TYPE_ELT then
    if l =? DNS_LABELTYPE_BITSTRING then
      b ← aget m (lp + 1); CVal (((if b =? 0 then 256 else b) + 7) / 8 + 1)
    else CVal (-1)
  else CVal l.

(** The offset in a compression pointer. *)
Definition ptr_offset (n lo : Z) : Z := Z.lor (Z.shiftl (Z.land n 0x3f) 8) (Z.land lo 0xff).

(** The loop of ns_name_unpack: the octets that were consumed and what was written. *)
Fixpoint unpack_loop (fuel : nat) (m : list Z) (eom src dstsiz srcp checked len : Z) (out : list Z) : cres (Z + Z * list Z) :=
  match fuel with
  | O => CFuel
  | S f =>
      n ← aget m srcp;
      let srcp := srcp + 1 in
      if n =? 0 then
        out ← put dstsiz out [0];
        CVal (inr (if len <? 0 then srcp - src else len, out))
      else
        let t := Z.land n NS_CMPRSFLGS in
        if (t =? 0) || (t =? NS_TYPE_ELT) then
          l ← labellen m (srcp - 1);
          if l <? 0 then CVal (inl EMSGSIZE)
          else if (dstsiz <=? Z.of_nat (length out) + l + 1) || (eom <=? srcp + l) then CVal (inl EMSGSIZE)
          else
            lab ← aslice m srcp l;
            out ← put dstsiz out (n :: lab);
            unpack_loop f m eom src dstsiz (srcp + l) (checked + l + 1) len out
        else if t =? NS_CMPRSFLGS then
          if eom <=? srcp then CVal (inl EMSGSIZE)
          else
            let len := if len <? 0 then srcp - src + 1 else len in
            lo ← aget m srcp;
            let srcp := ptr_offset n lo in
            if eom <=? srcp then CVal (inl EMSGSIZE)
            else if eom <=? checked + 2 then CVal (inl EMSGSIZE)
            else unpack_loop f m eom src dstsiz srcp (checked + 2) len out
        else CVal (inl EMSGSIZE)
  end.

(** Every label is written, and every pointer is checked. *)
Definition ns_name_unpack (m : list Z) (eom src dstsiz : Z) : cres (Z + Z * list Z) :=
  if (src <? 0) || (eom <=? src) then CVal (inl EMSGSIZE)
  else unpack_loop (Z.to_nat (dstsiz + eom) + 2) m eom src dstsiz src 0 (-1) [].

(** ns_name_skip: the loop, and the pointer after the name. *)
Fixpoint skip_loop (fuel : nat) (m : list Z) (eom cp : Z) : cres (Z + Z) :=
  match fuel with
  | O => CFuel
  | S f =>
      if negb (cp <? eom) then CVal (inr cp)
      else
        n ← aget m cp;
        let cp := cp + 1 in
        if n =? 0 then CVal (inr cp)
        else
          let t := Z.land n NS_CMPRSFLGS in
          if t =? 0 then skip_loop f m eom (cp + n)
          else if t =? NS_TYPE_ELT then
            l ← labellen m (cp - 1);
            if l <? 0 then CVal (inl EMSGSIZE) else skip_loop f m eom (cp + l)
          else if t =? NS_CMPRSFLGS then CVal (inr (cp + 1))
          else CVal (inl EMSGSIZE)
  end.

Definition ns_name_skip (m : list Z) (eom cp : Z) : cres (Z + Z) :=
  r ← skip_loop (Z.to_nat (eom - cp) + 1) m eom cp;
  match r with
  | inl e => CVal (inl e)
  | inr cp => if eom <? cp then CVal (inl EMSGSIZE) else CVal (inr cp)
  end.

Definition dn_skipname (m : list Z) (eom ptr : Z) : cres Z :=
  r ← ns_name_skip m eom ptr; CVal (match r with inl _ => -1 | inr p => p - ptr end).

(** ns_name_ntol: a name in lower case; [src] is not compressed. *)
Definition lower (c : Z) : Z := if (0x41 <=? c) && (c <=? 0x5a) then c + 0x20 else c.

Fixpoint ntol_loop (fuel : nat) (m : list Z) (cp dstsiz : Z) (out : list Z) : cres (Z + list Z) :=
  match fuel with
  | O => CFuel
  | S f =>
      n ← aget m cp;
      if n =? 0 then out ← put dstsiz out [0]; CVal (inr out)
      else if Z.land n NS_CMPRSFLGS =? NS_CMPRSFLGS then CVal (inl EMSGSIZE)
      else
        out ← put dstsiz out [n];
        l ← labellen m cp;
        if l <? 0 then CVal (inl EMSGSIZE)
        else if dstsiz <=? Z.of_nat (length out) + l then CVal (inl EMSGSIZE)
        else
          lab ← aslice m (cp + 1) l;
          out ← put dstsiz out (map lower lab);
          ntol_loop f m (cp + 1 + l) dstsiz out
  end.

Definition ns_name_ntol (m : list Z) (src dstsiz : Z) : cres (Z + list Z) :=
  if dstsiz <=? 0 then CVal (inl EMSGSIZE) else ntol_loop (Z.to_nat dstsiz + 1) m src dstsiz [].

(** ** Names *)

(** A label with its first byte: up to 63 bytes, or a bit string. *)
Definition lab_ok (lab : list Z) : Prop :=
  exists n d, lab = n :: d /\
    (0 < n < 64 /\ Z.of_nat (length d) = n \/
     n = DNS_LABELTYPE_BITSTRING /\ exists b r, d = b :: r /\ Z.of_nat (length r) = ((if b =? 0 then 256 else b) + 7) / 8).

(** The octets of a name that is not compressed. *)
Definition wire (labs : list (list Z)) : list Z := concat labs ++ [0].

(** The name at [p] has the labels [labs], takes [c] octets there, and [t] octets
    are visited in all. *)
Inductive decodes (m : list Z) : Z -> list (list Z) -> Z -> Z -> Prop :=
| dec_root p : at_off m p [0] -> decodes m p [] 1 1
| dec_label p lab labs c t : at_off m p lab -> lab_ok lab -> decodes m (p + Z.of_nat (length lab)) labs c t ->
    decodes m p (lab :: labs) (Z.of_nat (length lab) + c) (Z.of_nat (length lab) + t)
| dec_ptr p h lo labs c t : at_off m p [h; lo] -> NS_CMPRSFLGS <= h < 256 -> decodes m (ptr_offset h lo) labs c t ->
    decodes m p labs 2 (2 + t).

(** The name at [p] takes [c] octets there; where a pointer leads does not matter. *)
Inductive skips (m : list Z) : Z -> Z -> Prop :=
| sk_root p : at_off m p [0] -> skips m p 1
| sk_label p lab c : at_off m p lab -> lab_ok lab -> skips m (p + Z.of_nat (length lab)) c -> skips m p (Z.of_nat (length lab) + c)
| sk_ptr p h lo : at_off m p [h; lo] -> NS_CMPRSFLGS <= h < 256 -> skips m p 2.

(** ** Octets *)

(** The two upper bits of an octet. *)
Lemma flag_bits n : 0 <= n < 256 ->
  (n < 64 /\ Z.land n NS_CMPRSFLGS = 0) \/ (64 <= n < 128 /\ Z.land n NS_CMPRSFLGS = NS_TYPE_ELT) \/
  (128 <= n < 192 /\ Z.land n NS_CMPRSFLGS = 0x80) \/ (192 <= n /\ Z.land n NS_CMPRSFLGS = NS_CMPRSFLGS).
Proof.
  intros Hn. pose proof (range_check (fun n =>
    ((n <? 64) && (Z.land n NS_CMPRSFLGS =? 0)) || ((64 <=? n) && (n <? 128) && (Z.land n NS_CMPRSFLGS =? NS_TYPE_ELT)) ||
    ((128 <=? n) && (n <? 192) && (Z.land n NS_CMPRSFLGS =? 0x80)) || ((192 <=? n) && (Z.land n NS_CMPRSFLGS =? NS_CMPRSFLGS))) 0 256
    ltac:(vm_compute; reflexivity) n ltac:(lia)) as H.
  rewrite !orb_true_iff, !andb_true_iff, ?Z.ltb_lt, ?Z.leb_le, !Z.eqb_eq in H. tauto.
Qed.

Lemma ptr_offset_range h lo : 0 <= ptr_offset h lo < 2 ^ 14.
Proof.
  unfold ptr_offset. change 0x3f with (Z.ones 6). change 0xff with (Z.ones 8). rewrite !Z.land_ones by lia.
  pose proof (Z.mod_pos_bound h (2 ^ 6) ltac:(lia)). pose proof (Z.mod_pos_bound lo (2 ^ 8) ltac:(lia)).
  rewrite lor_add.
  - rewrite Z.shiftl_mul_pow2 by lia. lia.
  - apply Z.bits_inj'. intros i Hi. rewrite Z.land_spec, Z.bits_0. destruct (Z.ltb_spec i 8).
    + by rewrite Z.shiftl_spec_low.
    + rewrite Z.mod_pow2_bits_high by lia. apply andb_false_r.
Qed.

Lemma lab_ok_length lab : lab_ok lab -> (2 <= length lab)%nat.
Proof.
  intros (n & d & -> & [[Hn Hd]|(-> & b & r & -> & Hr)]); cbn [length]; lia.
Qed.

Lemma decodes_pos m p labs c t : decodes m p labs c t -> (1 <= c /\ 1 <= t) /\ 0 <= p < Z.of_nat (length m).
Proof.
  induction 1 as [p Ha|p lab labs c t Ha Hl H IH|p h lo labs c t Ha Hh H IH];
    apply at_off_bound in Ha; cbn [length] in Ha; lia.
Qed.

(** labellen of a label. *)
Lemma labellen_ok m p lab : at_off m p lab -> lab_ok lab -> labellen m p = CVal (Z.of_nat (length lab) - 1).
Proof.
  intros Ha (n & d & -> & Hd). unfold labellen. rewrite (at_off_head m p n d Ha). cbn [mbind cres_bind length].
  destruct Hd as [[Hn Hl]|(-> & b & r & -> & Hl)].
  - destruct (flag_bits n ltac:(lia)) as [[_ ->]|[[? _]|[[? _]|[? _]]]]; [|lia..]. cbn. f_equal. lia.
  - cbn. change (p + 1) with (p + Z.of_nat 1). rewrite (at_off_get m p _ 1 b Ha) by done. cbn [mbind cres_bind]. f_equal. cbn [length] in *. lia.
Qed.

(** The label at an offset, or an unknown type. *)
Lemma labellen_at m p n : octets m -> at_off m p [n] -> 0 < n < 128 -> p + 1 < Z.of_nat (length m) ->
  exists l, labellen m p = CVal l /\
    (l < 0 \/ 0 < l /\ (p + 1 + l <= Z.of_nat (length m) -> exists lab, at_off m (p + 1) lab /\ Z.of_nat (length lab) = l /\ lab_ok (n :: lab))).
Proof.
  intros Ho Hn Hr Hl. unfold labellen. rewrite (at_off_head m p n [] Hn). cbn [mbind cres_bind].
  pose proof (at_off_bound _ _ _ Hn) as [Hp _].
  destruct (flag_bits n ltac:(lia)) as [[Hlt ->]|[[Hlt ->]|[[? _]|[? _]]]]; [| |lia..].
  - cbn. exists n. split; [done|]. right. split; [lia|]. intros Hb.
    destruct (slice_at_off m (p + 1) n) as (l & _ & Ha & Hlen); [lia..|]. exists l. split_and!; [done..|].
    exists n, l. split; [done|]. left. lia.
  - cbn. destruct (Z.eqb_spec n DNS_LABELTYPE_BITSTRING) as [->|]; [|exists (-1); split; [done|left; lia]].
    destruct (get_at_off m (p + 1)) as (b & -> & Hb & Hbm); [lia|]. cbn [mbind cres_bind]. apply Ho in Hbm.
    set (k := ((if b =? 0 then 256 else b) + 7) / 8). assert (0 < k) as Hk.
    { unfold k. apply Z.div_str_pos. destruct (Z.eqb_spec b 0); lia. }
    exists (k + 1). split; [done|]. right. split; [lia|]. intros Hl2.
    destruct (slice_at_off m (p + 2) k) as (l & _ & Ha & Hlen); [lia..|]. exists (b :: l). split_and!.
    + change (b :: l) with ([b] ++ l). apply at_off_app. split; [done|].
      by replace (p + 1 + Z.of_nat (length [b])) with (p + 2) by (cbn [length]; lia).
    + cbn [length]. lia.
    + exists DNS_LABELTYPE_BITSTRING, (b :: l). split; [done|]. right. split; [done|]. by exists b, l.
Qed.

(** ** Expansion *)

(** What the loop returns is the name at the pointer. *)
Definition unpacked (msg : list Z) (src dstsiz srcp len : Z) (out : list Z) (r : Z + Z * list Z) : Prop :=
  match r with
  | inl e => e = EMSGSIZE
  | inr (c, out') => exists labs cc t, out' = out ++ wire labs /\ decodes msg srcp labs cc t /\
      Z.of_nat (length out') <= dstsiz /\ 0 < cc /\ srcp + cc <= Z.of_nat (length msg) /\
      c = (if len <? 0 then srcp + cc - src else len)
  end.

Section unpack.
Context (msg : list Z) (x : Z) (rest : list Z) (src dstsiz : Z).
Local Notation m := (msg ++ x :: rest).
Local Notation eom := (Z.of_nat (length msg)).
Hypothesis Ho : octets m.
Hypothesis Hsrc : 0 <= src.

Lemma m_len : eom + 1 <= Z.of_nat (length m).
Proof. rewrite length_app. cbn [length]. lia. Qed.

Lemma unpacked_label srcp len out lab r : at_off msg srcp lab -> lab_ok lab ->
  unpacked msg src dstsiz (srcp + Z.of_nat (length lab)) len (out ++ lab) r -> unpacked msg src dstsiz srcp len out r.
Proof.
  intros Ha Hl. destruct r as [e|[c out']]; [done|]. intros (labs & cc & t & -> & Hd & Hb & Hc & He & ->).
  exists (lab :: labs), (Z.of_nat (length lab) + cc), (Z.of_nat (length lab) + t). unfold wire in *. cbn [concat].
  rewrite <- !app_assoc in *. split_and!; [done|by apply dec_label|done|lia|lia|]. destruct (len <? 0); lia.
Qed.

Lemma unpacked_ptr srcp len out h lo r : (len < 0 -> src <= srcp) -> at_off msg srcp [h; lo] -> NS_CMPRSFLGS <= h < 256 ->
  unpacked msg src dstsiz (ptr_offset h lo) (if len <? 0 then srcp + 1 - src + 1 else len) out r ->
  unpacked msg src dstsiz srcp len out r.
Proof.
  intros Hs Ha Hh. destruct r as [e|[c out']]; [done|]. intros (labs & cc & t & -> & Hd & Hb & Hc & He & ->).
  pose proof (at_off_bound _ _ _ Ha) as Hab. cbn [length] in Hab.
  exists labs, 2, (2 + t). split_and!; [done|by eapply dec_ptr|done|lia|lia|].
  destruct (Z.ltb_spec len 0); [|destruct (Z.ltb_spec len 0); lia]. destruct (Z.ltb_spec (srcp + 1 - src + 1) 0); lia.
Qed.

(** A step of the loop at each kind of octet. *)
Lemma unpack_root f srcp checked len out : at_off msg srcp [0] -> Z.of_nat (length out) < dstsiz ->
  unpack_loop (S f) m eom src dstsiz srcp checked len out = CVal (inr (if len <? 0 then srcp + 1 - src else len, out ++ [0])).
Proof.
  intros Ha Ho'. cbn [unpack_loop]. rewrite (at_off_head m srcp 0 []) by by apply at_off_ext.
  cbn [mbind cres_bind]. cbn -[put wire]. unfold put. cbn [length]. by zif.
Qed.

Lemma unpack_label f srcp checked len out n d : at_off msg srcp (n :: d) -> lab_ok (n :: d) ->
  srcp + Z.of_nat (length (n :: d)) < eom ->
  unpack_loop (S f) m eom src dstsiz srcp checked len out =
  if dstsiz <=? Z.of_nat (length out) + Z.of_nat (length (n :: d)) then CVal (inl EMSGSIZE)
  else unpack_loop f m eom src dstsiz (srcp + Z.of_nat (length (n :: d))) (checked + Z.of_nat (length (n :: d))) len (out ++ n :: d).
Proof.
  intros Ha Hl Hb. pose proof (labellen_ok m srcp (n :: d) (at_off_ext _ _ _ _ Ha) Hl) as Hlab.
  assert (at_off m (srcp + 1) d) as Hd by (apply (at_off_app m srcp [n] d), at_off_ext, Ha).
  cbn [unpack_loop]. rewrite (at_off_head m srcp n d) by by apply at_off_ext. cbn [mbind cres_bind].
  replace (srcp + 1 - 1) with srcp by lia. rewrite Hlab. cbn [length] in *.
  assert (0 < n < 128 /\ ((Z.land n NS_CMPRSFLGS =? 0) || (Z.land n NS_CMPRSFLGS =? NS_TYPE_ELT)) = true) as [Hn ->].
  { destruct Hl as (n' & d' & [= <- <-] & [[Hn _]|[-> _]]); [|done].
    destruct (flag_bits n ltac:(lia)) as [[_ ->]|[[? _]|[[? _]|[? _]]]]; [split; [lia|done]|lia..]. }
  destruct (Z.eqb_spec n 0); [lia|]. cbn [mbind cres_bind].
  replace (Z.of_nat (S (length d)) - 1) with (Z.of_nat (length d)) by lia.
  destruct (Z.ltb_spec (Z.of_nat (length d)) 0); [lia|].
  replace (Z.of_nat (length out) + Z.of_nat (length d) + 1) with (Z.of_nat (length out) + Z.of_nat (S (length d))) by lia.
  destruct (Z.leb_spec dstsiz (Z.of_nat (length out) + Z.of_nat (S (length d)))); [done|].
  destruct (Z.leb_spec eom (srcp + 1 + Z.of_nat (length d))); [lia|]. cbn [orb].
  rewrite (at_off_slice m (srcp + 1) d Hd). cbn [mbind cres_bind]. rewrite put_ok by (cbn [length]; lia). cbn [mbind cres_bind].
  f_equal; lia.
Qed.

(** The loop at any octet of the message. *)
Lemma unpack_step f srcp checked len out : 0 <= srcp < eom ->
  (exists n, at_off msg srcp [n] /\ 0 <= n < 256 /\
    (n = 0 \/
     (exists d, at_off msg srcp (n :: d) /\ lab_ok (n :: d) /\ srcp + Z.of_nat (length (n :: d)) < eom) \/
     (exists lo, at_off msg srcp [n; lo] /\ NS_CMPRSFLGS <= n < 256))) \/
  unpack_loop (S f) m eom src dstsiz srcp checked len out = CVal (inl EMSGSIZE).
Proof.
  intros Hs. destruct (get_at_off m srcp) as (n & Hg & Ha & Hn); [pose proof m_len; lia|]. apply Ho in Hn.
  assert (at_off msg srcp [n]) as Ham by (eapply at_off_inner; [done|]; cbn [length]; lia).
  cbn [unpack_loop]. rewrite Hg. cbn [mbind cres_bind]. destruct (Z.eqb_spec n 0) as [->|Hn0].
  { left. exists 0. split_and!; [done|lia..|by left]. }
  destruct (flag_bits n Hn) as [[Hr ->]|[[Hr ->]|[[Hr ->]|[Hr ->]]]]; [| |by right|].
  1,2: cbn [orb]; replace (srcp + 1 - 1) with srcp by lia;
    destruct (labellen_at m srcp n Ho Ha ltac:(lia) ltac:(pose proof m_len; lia)) as (l & -> & Hl); cbn [mbind cres_bind];
    destruct (Z.ltb_spec l 0); [by right|];
    destruct (Z.leb_spec eom (srcp + 1 + l)); [right; by destruct (dstsiz <=? Z.of_nat (length out) + l + 1)|];
    destruct Hl as [?|[_ Hl]]; [lia|]; destruct Hl as (d & Hd & Hlen & Hlab); [pose proof m_len; lia|];
    left; exists n; split_and!; [done|lia..|right; left]; exists d; split_and!; [|done|cbn [length]; lia];
    apply (at_off_app msg srcp [n] d); split; [done|]; eapply at_off_inner; [done|]; cbn [length]; lia.
  destruct (Z.leb_spec eom (srcp + 1)); [by right|]. left. exists n. split_and!; [done|lia..|]. right. right.
  destruct (get_at_off m (srcp + 1)) as (lo & _ & Hlo & _); [pose proof m_len; lia|]. exists lo. split; [|change NS_CMPRSFLGS with 192; lia].
  apply (at_off_app msg srcp [n] [lo]). split; [done|]. eapply at_off_inner; [done|]. cbn [length]. lia.
Qed.

Lemma unpack_ptr f srcp checked len out h lo : at_off msg srcp [h; lo] -> NS_CMPRSFLGS <= h < 256 ->
  unpack_loop (S f) m eom src dstsiz srcp checked len out =
  if (eom <=? ptr_offset h lo) || (eom <=? checked + 2) then CVal (inl EMSGSIZE)
  else unpack_loop f m eom src dstsiz (ptr_offset h lo) (checked + 2) (if len <? 0 then srcp + 1 - src + 1 else len) out.
Proof.
  intros Ha Hh. pose proof (at_off_bound _ _ _ Ha) as Hb. cbn [length] in Hb.
  cbn [unpack_loop]. rewrite (at_off_head m srcp h [lo]) by by apply at_off_ext. cbn [mbind cres_bind].
  change NS_CMPRSFLGS with 192 in Hh. destruct (Z.eqb_spec h 0); [lia|].
  destruct (flag_bits h ltac:(lia)) as [[? _]|[[? _]|[[? _]|[_ ->]]]]; [lia..|]. cbn [orb Z.eqb].
  change (NS_CMPRSFLGS =? 0) with false. change (NS_CMPRSFLGS =? NS_TYPE_ELT) with false. cbn [orb]. rewrite Z.eqb_refl.
  destruct (Z.leb_spec eom (srcp + 1)); [lia|].
  assert (aget m (srcp + 1) = CVal lo) as -> by (apply (at_off_get m srcp [h; lo] 1 lo); [by apply at_off_ext|done]).
  cbn [mbind cres_bind]. destruct (eom <=? ptr_offset h lo); [done|]. by destruct (eom <=? checked + 2).
Qed.

Lemma unpack_loop_ok : forall fuel srcp checked len out,
  0 <= srcp < eom -> (len < 0 -> src <= srcp) -> Z.of_nat (length out) < dstsiz ->
  dstsiz - Z.of_nat (length out) + Z.max 0 (eom - checked) < Z.of_nat fuel ->
  exists r, unpack_loop fuel m eom src dstsiz srcp checked len out = CVal r /\ unpacked msg src dstsiz srcp len out r.
Proof.
  induction fuel as [|f IH]; intros srcp checked len out Hs Hlen Hout Hf; [lia|].
  destruct (unpack_step f srcp checked len out Hs) as [(n & Ha & Hn & Hc)| ->]; [|by eexists].
  destruct Hc as [->|[(d & Hd & Hl & Hb)|(lo & Hp & Hh)]].
  - rewrite unpack_root by done. eexists. split; [done|]. exists [], 1, 1. unfold wire. cbn [concat app].
    split_and!; [done|by apply dec_root|rewrite length_app; cbn [length]; lia|lia..|]. destruct (len <? 0); lia.
  - rewrite (unpack_label f srcp checked len out n d) by done. destruct (Z.leb_spec dstsiz (Z.of_nat (length out) + Z.of_nat (length (n :: d)))); [by eexists|].
    cbn [length] in *. edestruct IH as (r & -> & Hr); [| | | |eexists; split; [done|]; eapply unpacked_label; [done..|]; exact Hr];
      rewrite ?length_app; cbn [length]; lia.
  - rewrite (unpack_ptr f srcp checked len out n lo) by done. pose proof (ptr_offset_range n lo).
    destruct (Z.leb_spec eom (ptr_offset n lo)); [by eexists|]. destruct (Z.leb_spec eom (checked + 2)); [by eexists|]. cbn [orb].
    edestruct IH as (r & -> & Hr); [| | | |eexists; split; [done|]; eapply unpacked_ptr; [done..|]; exact Hr]; try lia.
    destruct (Z.ltb_spec len 0); lia.
Qed.

(** A name whose visited octets and whose expansion fit is found. *)
Lemma unpack_loop_complete srcp labs c t : decodes msg srcp labs c t -> forall fuel checked len out,
  checked + t <= eom -> Z.of_nat (length out + length (wire labs)) <= dstsiz -> t <= Z.of_nat fuel ->
  (len < 0 -> src <= srcp) ->
  unpack_loop fuel m eom src dstsiz srcp checked len out = CVal (inr (if len <? 0 then srcp + c - src else len, out ++ wire labs)).
Proof.
  induction 1 as [p Ha|p lab labs c t Ha Hl H IH|p h lo labs c t Ha Hh H IH]; intros fuel checked len out Hc Hb Hf Hlen;
    try pose proof (decodes_pos _ _ _ _ _ H) as [Ht Hp]; (destruct fuel as [|f]; [lia|]).
  - unfold wire in *. cbn [concat app length] in *. apply unpack_root; [done|lia].
  - destruct Hl as (n & d & -> & Hl).
    unfold wire in *. cbn [concat] in *. rewrite <- !app_assoc in *. rewrite !length_app in Hb. cbn [length] in Hb.
    rewrite (unpack_label f p checked len out n d); [|done|by exists n, d|cbn [length] in *; lia]. cbn [length] in *. zif.
    rewrite app_assoc, IH; [|lia|rewrite !length_app; cbn [length]; lia|lia..].
    do 3 f_equal. destruct (len <? 0); lia.
  - rewrite (unpack_ptr f p checked len out h lo) by done. repeat zif. rewrite IH; [|lia..|destruct (Z.ltb_spec len 0); lia].
    do 3 f_equal. destruct (Z.ltb_spec len 0); [destruct (Z.ltb_spec (p + 1 - src + 1) 0); lia|by zif].
Qed.

Lemma ns_name_unpack_decodes labs c t : decodes msg src labs c t -> t <= eom -> Z.of_nat (length (wire labs)) <= dstsiz ->
  ns_name_unpack m eom src dstsiz = CVal (inr (c, wire labs)).
Proof.
  intros Hd Ht Hw. pose proof (decodes_pos _ _ _ _ _ Hd). unfold ns_name_unpack. repeat zif.
  rewrite (unpack_loop_complete src labs c t Hd) by (cbn [length]; lia). do 3 f_equal. cbn. lia.
Qed.
End unpack.

(** ns_name_unpack never reads outside the message and the byte after it, and never writes
    outside the destination; it returns the number of octets that the name takes and its
    expansion, and fails only on a name whose visited octets do not fit in the message, or
    whose expansion does not fit in the destination. *)
Lemma unpack_spec msg x rest src dstsiz : octets (msg ++ x :: rest) -> 1 <= dstsiz ->
  exists r, ns_name_unpack (msg ++ x :: rest) (Z.of_nat (length msg)) src dstsiz = CVal r /\
    match r with
    | inl e => e = EMSGSIZE /\ forall labs c t, decodes msg src labs c t -> t <= Z.of_nat (length msg) ->
                 dstsiz < Z.of_nat (length (wire labs))
    | inr (c, out) => exists labs t, out = wire labs /\ decodes msg src labs c t /\ Z.of_nat (length out) <= dstsiz /\
                        0 < c /\ src + c <= Z.of_nat (length msg)
    end.
Proof.
  intros Ho Hd. set (eom := Z.of_nat (length msg)). set (m := msg ++ x :: rest) in *.
  destruct ((src <? 0) || (eom <=? src)) eqn:E; unfold ns_name_unpack at 1; rewrite E.
  { rewrite orb_true_iff, Z.ltb_lt, Z.leb_le in E. eexists. split; [done|]. split; [done|]. intros labs c t Hdec. apply decodes_pos in Hdec. lia. }
  assert (ns_name_unpack m eom src dstsiz = unpack_loop (Z.to_nat (dstsiz + eom) + 2) m eom src dstsiz src 0 (-1) []) as Eu
    by (unfold ns_name_unpack; by rewrite E).
  zbool. destruct (unpack_loop_ok msg x rest src dstsiz Ho (Z.to_nat (dstsiz + eom) + 2) src 0 (-1) []) as (r & Hr & Hu);
    [lia..|cbn [length]; lia|cbn [length]; lia|].
  fold m eom in Hr. exists r. split; [done|]. rewrite <- Eu in Hr. destruct r as [e|[c out]]; cbn in Hu.
  - split; [done|]. intros labs c t Hdec Ht. apply Z.nle_gt. intros Hle.
    pose proof (ns_name_unpack_decodes msg x rest src dstsiz ltac:(lia) labs c t Hdec Ht Hle) as Hc. fold m eom in Hc. congruence.
  - destruct Hu as (labs & cc & t & -> & Hdec & Hb & Hcc & He & ->). cbn [app] in *. exists labs, t.
    split_and!; [done| |done|lia|lia]. by replace (src + cc - src) with cc by lia.
Qed.

(** ** Messages with nothing behind them *)

Lemma aget_inside (l m : list Z) i : 0 <= i < Z.of_nat (length l) -> aget (l ++ m) i = aget l i.
Proof. intros Hi. unfold aget. zif. by rewrite lookup_app_l by lia. Qed.

Lemma aslice_inside (l m : list Z) p n : 0 <= p -> p + n <= Z.of_nat (length l) -> aslice (l ++ m) p n = aslice l p n.
Proof.
  intros Hp Hn. unfold aslice. rewrite length_app. destruct (Z.leb_spec 0 n) as [H0|]; [|by rewrite !andb_false_r].
  rewrite !(proj2 (Z.leb_le _ _)) by lia. cbn [andb]. f_equal. unfold slice.
  rewrite drop_app_le by lia. by rewrite take_app_le by (rewrite length_drop; lia).
Qed.

Lemma aget_last (l : list Z) i c : i + 1 = Z.of_nat (length l) -> aget l i = CVal c -> list.last l = Some c.
Proof.
  intros Hi H. rewrite last_lookup. unfold aget in H. destruct (i <? 0); [done|].
  replace (pred (length l)) with (Z.to_nat i) by lia. destruct (l !! Z.to_nat i); congruence.
Qed.

(** The octet behind the message is read only when the last one of the message begins
    a bit string. *)
Lemma labellen_inside msg behind lp : list.last msg <> Some DNS_LABELTYPE_BITSTRING -> 0 <= lp < Z.of_nat (length msg) ->
  labellen (msg ++ behind) lp = labellen msg lp.
Proof.
  intros Hl Hp. unfold labellen. rewrite (aget_inside msg behind lp) by done. destruct (aget msg lp) as [c| |] eqn:E; try done. cbn [mbind cres_bind].
  destruct (_ =? _); [done|]. destruct (_ =? _); [|done]. destruct (Z.eqb_spec c DNS_LABELTYPE_BITSTRING) as [->|]; [|done].
  rewrite aget_inside; [done|]. destruct (decide (lp + 1 = Z.of_nat (length msg))) as [He|]; [|lia]. by rewrite (aget_last msg lp _ He E) in Hl.
Qed.

Lemma unpack_loop_inside msg behind src dstsiz : list.last msg <> Some DNS_LABELTYPE_BITSTRING ->
  forall fuel srcp checked len out, 0 <= srcp < Z.of_nat (length msg) ->
  unpack_loop fuel (msg ++ behind) (Z.of_nat (length msg)) src dstsiz srcp checked len out =
  unpack_loop fuel msg (Z.of_nat (length msg)) src dstsiz srcp checked len out.
Proof.
  intros Hl. induction fuel as [|f IH]; intros srcp checked len out Hs; [done|]. cbn [unpack_loop]. rewrite (aget_inside msg behind srcp) by done.
  destruct (aget msg srcp) as [n| |] eqn:En; try done. cbn [mbind cres_bind]. destruct (n =? 0); [done|].
  replace (srcp + 1 - 1) with srcp by lia. rewrite labellen_inside by done. destruct (_ || _).
  - destruct (labellen msg srcp) as [l| |]; try done. cbn [mbind cres_bind]. destruct (Z.ltb_spec l 0); [done|].
    destruct (Z.leb_spec (Z.of_nat (length msg)) (srcp + 1 + l)); [by rewrite orb_true_r|]. destruct (_ || _); [done|].
    rewrite aslice_inside by lia. destruct (aslice msg (srcp + 1) l) as [lab| |]; try done. cbn [mbind cres_bind].
    destruct (put dstsiz out (n :: lab)) as [out'| |]; try done. cbn [mbind cres_bind]. apply IH. lia.
  - destruct (_ =? _); [|done]. destruct (Z.leb_spec (Z.of_nat (length msg)) (srcp + 1)); [done|]. rewrite aget_inside by lia.
    destruct (aget msg (srcp + 1)) as [lo| |]; try done. cbn [mbind cres_bind]. pose proof (ptr_offset_range n lo).
    destruct (Z.leb_spec (Z.of_nat (length msg)) (ptr_offset n lo)); [done|]. destruct (_ <=? _); [done|]. apply IH. lia.
Qed.

Lemma ns_name_unpack_inside msg behind src dstsiz : list.last msg <> Some DNS_LABELTYPE_BITSTRING ->
  ns_name_unpack (msg ++ behind) (Z.of_nat (length msg)) src dstsiz = ns_name_unpack msg (Z.of_nat (length msg)) src dstsiz.
Proof.
  intros Hl. unfold ns_name_unpack. destruct (_ || _) eqn:E; [done|]. zbool. apply unpack_loop_inside; [done|lia].
Qed.

(** ** Skipping and lower case *)

Lemma skips_pos m p c : skips m p c -> 1 <= c /\ 0 <= p /\ p + c <= Z.of_nat (length m).
Proof. induction 1 as [p Ha|p lab c Ha Hl H IH|p h lo Ha Hh]; apply at_off_bound in Ha; cbn [length] in Ha; lia. Qed.

Lemma decodes_skips m p labs c t : decodes m p labs c t -> skips m p c.
Proof. induction 1; econstructor; done. Qed.

Lemma skip_loop_skips m' msg p c : skips msg p c -> forall fuel, c <= Z.of_nat fuel ->
  skip_loop fuel (msg ++ m') (Z.of_nat (length msg)) p = CVal (inr (p + c)).
Proof.
  induction 1 as [p Ha|p lab c Ha Hl H IH|p h lo Ha Hh]; intros fuel Hf;
    try pose proof (skips_pos _ _ _ H) as Hc; (destruct fuel as [|f]; [lia|]);
    pose proof (at_off_bound _ _ _ Ha) as Hb; cbn [skip_loop].
  - cbn [length] in Hb. zif. rewrite (at_off_head _ p 0 []) by by apply at_off_ext. done.
  - pose proof (labellen_ok _ p lab (at_off_ext msg m' p lab Ha) Hl) as Hlab. destruct Hl as (n & d & -> & Hl).
    cbn [length] in *. zif. rewrite (at_off_head _ p n d) by by apply at_off_ext. cbn [mbind cres_bind].
    assert (0 < n) as Hn by (destruct Hl as [[? _]|[-> _]]; [lia|done]). zif.
    replace (p + 1 - 1) with p by lia. rewrite Hlab. cbn [mbind cres_bind].
    replace (p + (Z.of_nat (S (length d)) + c)) with (p + Z.of_nat (S (length d)) + c) by lia.
    destruct Hl as [[Hr Hlen]|[-> _]].
    + destruct (flag_bits n ltac:(lia)) as [[_ ->]|[[? _]|[[? _]|[? _]]]]; [|lia..]. cbn.
      replace (p + 1 + n) with (p + Z.of_nat (S (length d))) by lia. apply IH. lia.
    + change (Z.land DNS_LABELTYPE_BITSTRING NS_CMPRSFLGS) with 64. change (64 =? 0) with false. change (64 =? NS_TYPE_ELT) with true.
      cbv iota. zif. replace (p + 1 + (Z.of_nat (S (length d)) - 1)) with (p + Z.of_nat (S (length d))) by lia. apply IH. lia.
  - cbn [length] in Hb. zif. rewrite (at_off_head _ p h [lo]) by by apply at_off_ext. cbn [mbind cres_bind].
    change NS_CMPRSFLGS with 192 in Hh. zif.
    destruct (flag_bits h ltac:(lia)) as [[? _]|[[? _]|[[? _]|[_ ->]]]]; [lia..|]. cbn. f_equal. f_equal. lia.
Qed.

(** dn_skipname passes over what ns_name_unpack consumes. *)
Lemma dn_skipname_skips m' msg p c : skips msg p c -> dn_skipname (msg ++ m') (Z.of_nat (length msg)) p = CVal c.
Proof.
  intros H. pose proof (skips_pos _ _ _ H). unfold dn_skipname, ns_name_skip.
  rewrite (skip_loop_skips m' msg p c H) by lia. cbn [mbind cres_bind]. zif. cbn [mbind cres_bind]. f_equal. lia.
Qed.

Lemma skips_det m p c c' : skips m p c -> skips m p c' -> c = c'.
Proof. intros H H'. apply (dn_skipname_skips []) in H, H'. congruence. Qed.

(** The label that ns_name_ntol writes. *)
Definition lower_lab (lab : list Z) : list Z := match lab with [] => [] | n :: d => n :: map lower d end.

Lemma ntol_loop_lower m dstsiz labs : Forall lab_ok labs -> forall p fuel out, at_off m p (wire labs) ->
  Z.of_nat (length out + length (wire labs)) <= dstsiz -> Z.of_nat (length (wire labs)) <= Z.of_nat fuel ->
  ntol_loop fuel m p dstsiz out = CVal (inr (out ++ wire (map lower_lab labs))).
Proof.
  unfold wire. induction 1 as [|lab labs Hl _ IH]; intros p fuel out Ha Hb Hf;
    (destruct fuel as [|f]; [rewrite length_app in Hf; cbn [length] in Hf; lia|]); cbn [ntol_loop map concat app] in *.
  - rewrite (at_off_head m p 0 []) by done. cbn [mbind cres_bind Z.eqb]. unfold put. by zif.
  - rewrite <- app_assoc in *. apply at_off_app in Ha as [Ha Hr]. pose proof (labellen_ok m p lab Ha Hl) as Hlab.
    rewrite !length_app in Hb, Hf. destruct Hl as (n & d & -> & Hl). cbn [length lower_lab] in *.
    rewrite (at_off_head m p n d) by done. cbn [mbind cres_bind].
    assert (0 < n /\ (Z.land n NS_CMPRSFLGS =? NS_CMPRSFLGS) = false) as [Hn ->].
    { destruct Hl as [[Hn _]|[-> _]]; [|done]. destruct (flag_bits n ltac:(lia)) as [[_ ->]|[[? _]|[[? _]|[? _]]]]; [split; [lia|done]|lia..]. }
    zif. rewrite (put_ok dstsiz out [n]) by (cbn [length]; lia). cbn [mbind cres_bind]. rewrite Hlab. cbn [mbind cres_bind].
    rewrite length_app. cbn [length]. repeat zif.
    replace (Z.of_nat (S (length d)) - 1) with (Z.of_nat (length d)) by lia.
    rewrite (at_off_slice m (p + 1) d) by (apply (at_off_app m p [n] d), Ha). cbn [mbind cres_bind].
    rewrite put_ok by (rewrite length_app, length_map; cbn [length]; lia). cbn [mbind cres_bind].
    replace (p + 1 + Z.of_nat (length d)) with (p + Z.of_nat (S (length d))) by lia.
    rewrite IH; [rewrite <- !app_assoc; done|done|rewrite !length_app, length_map; cbn [length]; lia|rewrite length_app; cbn [length]; lia].
Qed.

(** ns_name_ntol lower-cases the bytes of a name that is not compressed: of every label,
    bit strings too. *)
Lemma ns_name_ntol_lower rest labs dstsiz : Forall lab_ok labs -> Z.of_nat (length (wire labs)) <= dstsiz ->
  ns_name_ntol (wire labs ++ rest) 0 dstsiz = CVal (inr (wire (map lower_lab labs))).
Proof.
  intros Hl Hb. assert (1 <= Z.of_nat (length (wire labs))) by (unfold wire; rewrite length_app; cbn [length]; lia).
  unfold ns_name_ntol. zif. apply (ntol_loop_lower _ dstsiz labs Hl 0 _ []); [by exists [], rest|done|lia].
Qed.

(** The length byte of a bit string is read after the end of the message, and the bits of
    a bit string are taken for letters. *)
Lemma bitstring_overread :
  ns_name_unpack [0x41] 1 0 255 = CUndef /\ ns_name_skip [0x41] 1 0 = CUndef /\
  ns_name_ntol [0x41; 8; 0x41; 0] 0 255 = CVal (inr [0x41; 8; 0x61; 0]).
Proof. vm_compute. done. Qed.

(** C24: On any octets, ns_name_unpack terminates without reading outside the message or
    writing outside a destination of at least one byte, unless the last octet of the
    message is the first one of a bit string: then it reads one byte behind the message
    ([bitstring_overread]), and all is as below if that byte can be read.  When it succeeds
    it returns the number of octets the name takes in the message, which dn_skipname also
    returns, and the expansion: the labels that the octets and the compression pointers
    denote.  It fails, with EMSGSIZE, only on a name whose visited octets are more than the
    message has or whose expansion is longer than the destination.  [behind] are the bytes
    behind the message that can be read, in general none. *)
Theorem ns_name_unpack_safe msg behind src dstsiz : octets (msg ++ behind) -> 1 <= dstsiz ->
  list.last msg <> Some DNS_LABELTYPE_BITSTRING \/ behind <> [] ->
  exists r, ns_name_unpack (msg ++ behind) (Z.of_nat (length msg)) src dstsiz = CVal r /\
    match r with
    | inl e => e = EMSGSIZE /\ forall labs c t, decodes msg src labs c t -> t <= Z.of_nat (length msg) ->
                 dstsiz < Z.of_nat (length (wire labs))
    | inr (c, out) =>
        (exists labs t, out = wire labs /\ decodes msg src labs c t /\ Z.of_nat (length out) <= dstsiz) /\
        0 < c /\ src + c <= Z.of_nat (length msg) /\
        dn_skipname (msg ++ behind) (Z.of_nat (length msg)) src = CVal c
    end.
Proof.
  intros Ho Hd Hb.
  assert (exists x rest, octets (msg ++ x :: rest) /\
    ns_name_unpack (msg ++ behind) (Z.of_nat (length msg)) src dstsiz = ns_name_unpack (msg ++ x :: rest) (Z.of_nat (length msg)) src dstsiz) as (x & rest & Hx & ->).
  { destruct behind as [|x rest]; [|by exists x, rest]. destruct Hb as [Hb|Hb]; [|done]. rewrite app_nil_r in *. exists 0, []. split.
    - intros y [Hy|Hy]%elem_of_app; [by apply Ho|]. apply list_elem_of_singleton in Hy as ->. lia.
    - symmetry. by apply ns_name_unpack_inside. }
  destruct (unpack_spec msg x rest src dstsiz Hx Hd) as (r & -> & H). exists r. split; [done|].
  destruct r as [e|[c out]]; [done|]. destruct H as (labs & t & -> & Hdec & Hbd & Hc & He).
  pose proof (dn_skipname_skips behind _ _ _ (decodes_skips _ _ _ _ _ Hdec)). eauto 10.
Qed.

(** A message alone. *)
Lemma ns_name_unpack_safe_witness :
  let msg := [0x1; 0x61; 0x0; 0x2; 0x62; 0x63; 0xc0; 0x0] in
  ns_name_unpack msg 8 3 255 = CVal (inr (5, [2; 0x62; 0x63; 1; 0x61; 0])) /\
  ns_name_unpack msg 8 3 5 = CVal (inl EMSGSIZE) /\
  exists r, ns_name_unpack (msg ++ []) 8 3 255 = CVal r /\
    match r with
    | inl e => e = EMSGSIZE /\ forall labs c t, decodes msg 3 labs c t -> t <= 8 -> 255 < Z.of_nat (length (wire labs))
    | inr (c, out) =>
        (exists labs t, out = wire labs /\ decodes msg 3 labs c t /\ Z.of_nat (length out) <= 255) /\
        0 < c /\ 3 + c <= 8 /\ dn_skipname (msg ++ []) 8 3 = CVal c
    end.
Proof.
  split; [reflexivity|]. split; [reflexivity|].
  apply (ns_name_unpack_safe [0x1; 0x61; 0x0; 0x2; 0x62; 0x63; 0xc0; 0x0] [] 3 255); [|lia|left; discriminate].
  intros y Hy. cbn [app] in Hy. rewrite !elem_of_cons in Hy. destruct_or! Hy; subst; try lia. by apply not_elem_of_nil in Hy.
Defined.
