(* ===== verification/NsPack.v ===== *)
(** * Compression of domain names: ns_name_pack, dn_find and ns_name_rollback

    The message before the name is [m]; what ns_name_pack writes comes after it.  [dnptrs]
    is the list of the offsets after its first entry, which is the start of the message;
    its capacity counts the entries of the array with the first one and the NULL at the end.
    Packing then expanding a name gives the name back, up to the case of its letters. *)

From Stdlib Require Import ZArith Lia.
From stdpp Require Import base list numbers sets.
From S2P Require Import Prelude Bytes NsName.

Open Scope Z_scope.

Definition mklower (ch : Z) : Z := if (0x41 <=? ch) && (ch <=? 0x5a) then ch + 0x20 else ch.

(** The bytes of two labels, without case. *)
Fixpoint match_bytes (n : nat) (dom : list Z) (dn : Z) (mem : list Z) (cp : Z) : cres bool :=
  match n with
  | O => CVal true
  | S n =>
      a ← aget dom dn;
      b ← aget mem cp;
      if negb (mklower a =? mklower b) then CVal false else match_bytes n dom (dn + 1) mem (cp + 1)
  end.

(** The inner loop of dn_find: the name at [cp] is the domain, is not, or has a label of unknown type. *)
Inductive found : Type := Found | Next | Illegal.

Fixpoint find_name (fuel : nat) (dom : list Z) (dn : Z) (mem : list Z) (cp : Z) : cres found :=
  match fuel with
  | O => CFuel
  | S f =>
      n ← aget mem cp;
      let cp := cp + 1 in
      if n =? 0 then CVal Next
      else
        let t := Z.land n NS_CMPRSFLGS in
        if t =? 0 then
          n ← labellen mem (cp - 1);
          c ← aget dom dn;
          let dn := dn + 1 in
          if negb (n =? c) then CVal Next
          else
            same ← match_bytes (Z.to_nat n) dom dn mem cp;
            if negb same then CVal Next
            else
              let dn := dn + n in
              let cp := cp + n in
              d ← aget dom dn;
              if d =? 0 then e ← aget mem cp; CVal (if e =? 0 then Found else Next)
              else find_name f dom dn mem cp
        else if t =? NS_CMPRSFLGS then lo ← aget mem cp; find_name f dom dn mem (ptr_offset n lo)
        else CVal Illegal
  end.

(** The suffixes of the name at [sp]: the offset where the domain is. *)
Fixpoint find_suffix (fuel : nat) (dom : list Z) (dn : Z) (mem : list Z) (sp : Z) : cres (found * Z) :=
  match fuel with
  | O => CFuel
  | S f =>
      n ← aget mem sp;
      if negb (n =? 0) && (Z.land n NS_CMPRSFLGS =? 0) && (sp <? 0x4000) then
        r ← find_name (S (length mem)) dom dn mem sp;
        match r with Next => find_suffix f dom dn mem (sp + (n + 1)) | _ => CVal (r, sp) end
      else CVal (Next, sp)
  end.

(** dn_find: the offset, or -1. *)
Fixpoint dn_find (dom : list Z) (dn : Z) (mem : list Z) (dnptrs : list Z) : cres Z :=
  match dnptrs with
  | [] => CVal (-1)
  | sp :: rest =>
      r ← find_suffix (Z.to_nat 0x4001) dom dn mem sp;
      match r with
      | (Found, o) => CVal o
      | (Next, _) => dn_find dom dn mem rest
      | (Illegal, _) => CVal (-1)
      end
  end.

(** The array of the offsets, and its length when it may be updated. *)
Record dntab := mkTab { tab_ptrs : list Z; tab_cap : option Z }.

(** Whether the name can be added: the error otherwise. *)
Fixpoint legal_loop (fuel : nat) (src : list Z) (srcp l : Z) : cres (option Z) :=
  match fuel with
  | O => CFuel
  | S f =>
      n ← aget src srcp;
      if Z.land n NS_CMPRSFLGS =? NS_CMPRSFLGS then CVal (Some EMSGSIZE)
      else
        l0 ← labellen src srcp;
        if l0 <? 0 then CVal (Some EINVAL)
        else
          let l := l + l0 + 1 in
          if NS_MAXCDNAME <? l then CVal (Some EMSGSIZE)
          else if n =? 0 then CVal None else legal_loop f src (srcp + l0 + 1) l
  end.

(** The pointer to the name at [dstp] is saved if there is room for it. *)
Definition save_ptr (tab : option dntab) (dstp n : Z) (first : bool) : option dntab * bool :=
  match tab with
  | Some {| tab_ptrs := ptrs; tab_cap := Some cap |} =>
      if negb (n =? 0) && (1 + Z.of_nat (length ptrs) <? cap - 1) && (dstp <? 0x4000) && first
      then (Some (mkTab (ptrs ++ [dstp]) (Some cap)), false) else (tab, first)
  | _ => (tab, first)
  end.

(** The loop of ns_name_pack; [tab0] is what cleanup leaves. *)
Fixpoint pack_loop (fuel : nat) (src m : list Z) (dstsiz : Z) (tab0 : option dntab) (srcp : Z) (out : list Z)
    (tab : option dntab) (first : bool) : cres ((Z + list Z) * option dntab) :=
  match fuel with
  | O => CFuel
  | S f =>
      n ← aget src srcp;
      l ← match tab0 with
          | Some t => if n =? 0 then CVal (-1) else dn_find src srcp (m ++ out) (tab_ptrs t)
          | None => CVal (-1)
          end;
      if 0 <=? l then
        if dstsiz <=? Z.of_nat (length out) + 1 then CVal (inl EMSGSIZE, tab0)
        else out ← put dstsiz out [Z.lor (Z.shiftr l 8) NS_CMPRSFLGS; l mod 256]; CVal (inr out, tab)
      else
        let '(tab, first) := save_ptr tab (Z.of_nat (length m + length out)) n first in
        if Z.land n NS_CMPRSFLGS =? NS_CMPRSFLGS then CVal (inl EMSGSIZE, tab0)
        else
          n ← labellen src srcp;
          if dstsiz <=? Z.of_nat (length out) + 1 + n then CVal (inl EMSGSIZE, tab0)
          else
            lab ← aslice src srcp (n + 1);
            out ← put dstsiz out lab;
            if n =? 0 then CVal (if dstsiz <? Z.of_nat (length out) then (inl EMSGSIZE, tab0) else (inr out, tab))
            else pack_loop f src m dstsiz tab0 (srcp + (n + 1)) out tab first
  end.

Definition ns_name_pack (src m : list Z) (dstsiz : Z) (tab : option dntab) : cres ((Z + list Z) * option dntab) :=
  e ← legal_loop (Z.to_nat NS_MAXCDNAME + 1) src 0 0;
  match e with
  | Some e => CVal (inl e, tab)
  | None => pack_loop (Z.to_nat NS_MAXCDNAME + 1) src m dstsiz tab 0 [] tab true
  end.

(** ns_name_rollback: the entries before the first one at or after [src]; the whole array. *)
Fixpoint ns_name_rollback (cap : nat) (dnptrs : list Z) (src : Z) : list Z :=
  match cap, dnptrs with
  | S cap, p :: rest => if src <=? p then [] else p :: ns_name_rollback cap rest src
  | _, _ => dnptrs
  end.

(** ** Names whose pointers go backwards *)

(** The name at [p] of a segment that starts at [s] and ends at [e]: a pointer leads to a
    segment before this one. *)
Inductive name_at (m : list Z) : Z -> Z -> list (list Z) -> Z -> Prop :=
| na_root s p : 0 <= s <= p -> at_off m p [0] -> name_at m s p [] (p + 1)
| na_label s p lab labs e : 0 <= s <= p -> at_off m p lab -> lab_ok lab ->
    name_at m s (p + Z.of_nat (length lab)) labs e -> name_at m s p (lab :: labs) e
| na_ptr s p h lo s' labs e : 0 <= s <= p -> at_off m p [h; lo] -> NS_CMPRSFLGS <= h < 256 ->
    name_at m s' (ptr_offset h lo) labs e -> e <= s -> name_at m s p labs (p + 2).

(** Names up to case. *)
Definition ceq (labs labs' : list (list Z)) : Prop := map (map mklower) labs = map (map mklower) labs'.

Lemma ceq_cons l1 l2 ls1 ls2 : map mklower l1 = map mklower l2 -> ceq ls1 ls2 -> ceq (l1 :: ls1) (l2 :: ls2).
Proof. unfold ceq. cbn [map]. intros -> ->. done. Qed.

Lemma name_at_start m s p labs e : name_at m s p labs e -> 0 <= s <= p.
Proof. by destruct 1. Qed.

Lemma name_at_decodes m s p labs e : name_at m s p labs e -> exists t, decodes m p labs (e - p) t /\ t <= e - p + s.
Proof.
  induction 1 as [s p Hs Ha|s p lab labs e Hs Ha Hl H (t & Hd & Ht)|s p h lo s' labs e Hs Ha Hh H (t & Hd & Ht) He].
  - exists 1. replace (p + 1 - p) with 1 by lia. split; [by apply dec_root|lia].
  - exists (Z.of_nat (length lab) + t). replace (e - p) with (Z.of_nat (length lab) + (e - (p + Z.of_nat (length lab)))) by lia.
    split; [by apply dec_label|lia].
  - apply name_at_start in H. exists (2 + t). replace (p + 2 - p) with 2 by lia. split; [by eapply dec_ptr|lia].
Qed.

Lemma name_at_ext m m' s p labs e : name_at m s p labs e -> name_at (m ++ m') s p labs e.
Proof. induction 1; [apply na_root|apply na_label|eapply na_ptr]; eauto using at_off_ext. Qed.

Lemma name_at_bound m s p labs e : name_at m s p labs e -> p < e <= Z.of_nat (length m).
Proof.
  intros H. destruct (name_at_decodes _ _ _ _ _ H) as (t & Hd & Ht).
  pose proof (decodes_pos _ _ _ _ _ Hd). pose proof (skips_pos _ _ _ (decodes_skips _ _ _ _ _ Hd)). lia.
Qed.

(** The octet at a name: zero at the root only. *)
Lemma name_at_head m s p labs e : name_at m s p labs e -> exists y, aget m p = CVal y /\ (y = 0 -> labs = []).
Proof.
  destruct 1 as [s p Hs Ha|s p lab labs e Hs Ha Hl H|s p h lo s' labs e Hs Ha Hh H He].
  - exists 0. split; [by apply (at_off_head m p 0 [])|done].
  - destruct Hl as (n & d & -> & Hl). exists n. split; [by eapply at_off_head|]. intros ->. by destruct Hl as [[? _]|[? _]]; [lia|].
  - exists h. split; [by eapply at_off_head|]. change NS_CMPRSFLGS with 192 in Hh. lia.
Qed.

(** An offset of the array is that of a name. *)
Definition entry_ok (m : list Z) (p : Z) : Prop := exists s labs e, name_at m s p labs e.

Lemma entry_ok_ext m m' ptrs : Forall (entry_ok m) ptrs -> Forall (entry_ok (m ++ m')) ptrs.
Proof.
  intros H. eapply Forall_impl; [exact H|]. intros p (s & labs & e & Hn). exists s, labs, e. by apply name_at_ext.
Qed.

Lemma ptr_offset_inverse o : 0 <= o < 0x4000 ->
  NS_CMPRSFLGS <= Z.lor (Z.shiftr o 8) NS_CMPRSFLGS < 256 /\ ptr_offset (Z.lor (Z.shiftr o 8) NS_CMPRSFLGS) (o mod 256) = o.
Proof.
  intros Ho. pose proof (range_check (fun o => (NS_CMPRSFLGS <=? Z.lor (Z.shiftr o 8) NS_CMPRSFLGS) &&
    (Z.lor (Z.shiftr o 8) NS_CMPRSFLGS <? 256) && (ptr_offset (Z.lor (Z.shiftr o 8) NS_CMPRSFLGS) (o mod 256) =? o)) 0 0x4000
    ltac:(vm_compute; reflexivity) o Ho) as H.
  cbv beta in H. rewrite !andb_true_iff, Z.leb_le, Z.ltb_lt, Z.eqb_eq in H. tauto.
Qed.

(** ** dn_find *)

Lemma match_bytes_ok dom mem : forall d1 d2 dn cp, at_off dom dn d1 -> at_off mem cp d2 -> length d1 = length d2 ->
  exists b, match_bytes (length d2) dom dn mem cp = CVal b /\ (b = true -> map mklower d1 = map mklower d2).
Proof.
  induction d1 as [|x d1 IH]; intros [|y d2] dn cp H1 H2 Hlen; try done; [by eexists|].
  injection Hlen as Hlen. cbn [length match_bytes].
  rewrite (at_off_head dom dn x d1 H1), (at_off_head mem cp y d2 H2). cbn [mbind cres_bind].
  destruct (Z.eqb_spec (mklower x) (mklower y)) as [E|]; cbn [negb]; [|by eexists].
  apply (at_off_app dom dn [x] d1) in H1 as [_ H1]. apply (at_off_app mem cp [y] d2) in H2 as [_ H2].
  destruct (IH d2 (dn + 1) (cp + 1) H1 H2 Hlen) as (b & -> & Hb). exists b. split; [done|].
  intros Ht. cbn [map]. rewrite E. f_equal. by apply Hb.
Qed.

Lemma ordinary_lab n d : lab_ok (n :: d) -> n < 64 -> 0 < n /\ Z.of_nat (length d) = n.
Proof. intros (n' & d' & [= <- <-] & [[Hn Hd]|[-> _]]) Hlt; [lia|done]. Qed.

Lemma lab_head n d : lab_ok (n :: d) -> 0 < n < 128.
Proof. intros (n' & d' & [= <- <-] & [[Hn Hd]|[-> _]]); [lia|done]. Qed.

Lemma find_name_ok dom mem s cp labs e : name_at mem s cp labs e -> forall fuel dn doms,
  at_off dom dn (wire doms) -> Forall lab_ok doms -> doms <> [] -> e - cp + s <= Z.of_nat fuel ->
  exists r, find_name fuel dom dn mem cp = CVal r /\ (r = Found -> ceq doms labs).
Proof.
  induction 1 as [s p Hs Ha|s p lab labs e Hs Ha Hl H IH|s p h lo s' labs e Hs Ha Hh H IH He]; intros fuel dn doms Hdom Hok Hne Hf;
    try pose proof (name_at_bound _ _ _ _ _ H) as Hb; try pose proof (name_at_start _ _ _ _ _ H) as Hst;
    (destruct fuel as [|f]; [lia|]); cbn [find_name].
  - rewrite (at_off_head mem p 0 []) by done. by eexists.
  - pose proof (labellen_ok mem p lab Ha Hl) as Hlab. pose proof (lab_ok_length lab Hl) as Hll. destruct lab as [|n d]; [cbn in Hll; lia|].
    destruct doms as [|[|n2 d2] doms]; [done|apply Forall_cons in Hok as [Hok _]; apply lab_ok_length in Hok; cbn in Hok; lia|].
    apply Forall_cons in Hok as [Hok2 Hok]. pose proof (lab_head n d Hl). pose proof (lab_head n2 d2 Hok2).
    rewrite (at_off_head mem p n d) by done. cbn [mbind cres_bind]. zif. replace (p + 1 - 1) with p by lia.
    unfold wire in Hdom. cbn [concat] in Hdom. rewrite <- app_assoc in Hdom. apply at_off_app in Hdom as [Hd1 Hd2].
    destruct (flag_bits n ltac:(lia)) as [[Hr ->]|[[Hr ->]|[[Hr _]|[Hr _]]]]; [| |lia..]; [|by eexists].
    cbn [Z.eqb]. rewrite Hlab. cbn [mbind cres_bind]. rewrite (at_off_head dom dn n2 d2) by done. cbn [mbind cres_bind].
    destruct (ordinary_lab n d Hl Hr) as [Hn Hlen]. cbn [length] in *.
    replace (Z.of_nat (S (length d)) - 1) with n by lia.
    destruct (Z.eqb_spec n n2) as [<-|]; cbn [negb]; [|by eexists]. destruct (ordinary_lab n d2 Hok2 Hr) as [_ Hlen2].
    replace (Z.to_nat n) with (length d) by lia.
    destruct (match_bytes_ok dom mem d2 d (dn + 1) (p + 1)) as (b & -> & Hbm);
      [apply (at_off_app dom dn [n] d2), Hd1|apply (at_off_app mem p [n] d), Ha|lia|].
    cbn [mbind cres_bind]. destruct b; cbn [negb]; [|by eexists].
    assert (map mklower (n :: d2) = map mklower (n :: d)) as Elab by (cbn; by rewrite Hbm).
    replace (dn + 1 + n) with (dn + Z.of_nat (S (length d2))) by lia. replace (p + 1 + n) with (p + Z.of_nat (S (length d))) by lia.
    destruct doms as [|lab3 doms].
    + cbn [concat app] in Hd2. rewrite (at_off_head dom _ 0 []) by done. cbn [mbind cres_bind Z.eqb].
      destruct (name_at_head _ _ _ _ _ H) as (y & -> & Hy). cbn [mbind cres_bind]. eexists. split; [done|].
      destruct (Z.eqb_spec y 0) as [->|]; [|done]. intros _. rewrite Hy by done. by apply ceq_cons.
    + pose proof (Forall_inv Hok) as Hl3. pose proof (lab_ok_length _ Hl3). destruct lab3 as [|n3 d3]; [cbn in *; lia|].
      pose proof (lab_head n3 d3 Hl3). rewrite (at_off_head dom _ n3 (d3 ++ concat doms ++ [0])) by (by rewrite !app_comm_cons in * ; rewrite app_assoc).
      cbn [mbind cres_bind]. zif. destruct (IH f _ ((n3 :: d3) :: doms) Hd2 Hok) as (r & -> & Hr'); [done|lia|].
      exists r. split; [done|]. intros ->. apply ceq_cons; [done|by apply Hr'].
  - rewrite (at_off_head mem p h [lo]) by done. cbn [mbind cres_bind]. change NS_CMPRSFLGS with 192 in Hh. zif.
    destruct (flag_bits h ltac:(lia)) as [[? _]|[[? _]|[[? _]|[_ ->]]]]; [lia..|]. cbn [Z.eqb].
    change (NS_CMPRSFLGS =? 0) with false. rewrite Z.eqb_refl. cbv iota.
    assert (aget mem (p + 1) = CVal lo) as -> by (apply (at_off_get mem p [h; lo] 1 lo); done). cbn [mbind cres_bind].
    apply IH; [done..|lia].
Qed.

Lemma find_suffix_ok dom dn doms mem s sp labs e : at_off dom dn (wire doms) -> Forall lab_ok doms -> doms <> [] ->
  name_at mem s sp labs e -> forall fuel, 0x4000 - sp < Z.of_nat fuel -> (0 < fuel)%nat ->
  exists r o, find_suffix fuel dom dn mem sp = CVal (r, o) /\
    (r = Found -> 0 <= o < 0x4000 /\ exists labs', name_at mem s o labs' e /\ ceq doms labs').
Proof.
  intros Hdom Hok Hne. induction 1 as [s p Hs Ha|s p lab labs e Hs Ha Hl H IH|s p h lo s' labs e Hs Ha Hh H _ He];
    intros fuel Hf Hf0; (destruct fuel as [|f]; [lia|]); cbn [find_suffix].
  - rewrite (at_off_head mem p 0 []) by done. by do 2 eexists.
  - assert (name_at mem s p (lab :: labs) e) as Hn by by apply na_label.
    pose proof (name_at_bound _ _ _ _ _ Hn). pose proof (lab_ok_length lab Hl) as Hll. destruct lab as [|n d]; [cbn in Hll; lia|].
    rewrite (at_off_head mem p n d) by done. cbn [mbind cres_bind]. pose proof (lab_head n d Hl) as Hh.
    destruct (negb (n =? 0) && (Z.land n NS_CMPRSFLGS =? 0) && (p <? 0x4000)) eqn:E; [|by do 2 eexists]. zbool.
    destruct (flag_bits n ltac:(lia)) as [[Hr _]|[[Hr Ef]|[[Hr _]|[Hr _]]]]; [|rewrite Ef in *; done|lia..].
    destruct (find_name_ok dom mem s p _ e Hn (S (length mem)) dn doms Hdom Hok Hne) as (r & -> & Hfound); [lia|].
    cbn [mbind cres_bind]. destruct (ordinary_lab n d Hl Hr) as [_ Hlen]. destruct r; [|cbn [length] in *|].
    + do 2 eexists. split; [done|]. intros _. split; [lia|]. eauto.
    + replace (p + (n + 1)) with (p + Z.of_nat (S (length d))) by lia. apply IH; lia.
    + by do 2 eexists.
  - rewrite (at_off_head mem p h [lo]) by done. cbn [mbind cres_bind]. change NS_CMPRSFLGS with 192 in Hh.
    destruct (flag_bits h ltac:(lia)) as [[? _]|[[? _]|[[? _]|[_ ->]]]]; [lia..|].
    change (NS_CMPRSFLGS =? 0) with false. rewrite andb_false_r. by do 2 eexists.
Qed.

Lemma dn_find_ok dom dn doms m out ptrs : at_off dom dn (wire doms) -> Forall lab_ok doms -> doms <> [] ->
  Forall (entry_ok m) ptrs -> exists r, dn_find dom dn (m ++ out) ptrs = CVal r /\
    (r = -1 \/ 0 <= r < 0x4000 /\ exists s labs e, name_at (m ++ out) s r labs e /\ e <= Z.of_nat (length m) /\ ceq doms labs).
Proof.
  intros Hdom Hok Hne. induction 1 as [|p ptrs (s & labs & e & Hn) _ IH]; [eexists; split; [done|by left]|].
  cbn [dn_find]. pose proof (name_at_bound _ _ _ _ _ Hn) as Hb. pose proof (name_at_start _ _ _ _ _ Hn).
  destruct (find_suffix_ok dom dn doms (m ++ out) s p labs e Hdom Hok Hne (name_at_ext _ _ _ _ _ _ Hn) (Z.to_nat 0x4001))
    as (f & o & -> & Hf); [lia..|]. cbn [mbind cres_bind].
  destruct f; [|exact IH|eexists; split; [done|by left]].
  destruct Hf as [Ho (labs' & Hn' & Hc)]; [done|]. exists o. split; [done|]. right. split; [done|].
  exists s, labs', e. split_and!; [done|lia|done].
Qed.

(** ** ns_name_pack *)

Lemma legal_loop_ok src labs : Forall lab_ok labs -> forall p l fuel, at_off src p (wire labs) ->
  l <= NS_MAXCDNAME < l + Z.of_nat fuel ->
  legal_loop fuel src p l = CVal (if l + Z.of_nat (length (wire labs)) <=? NS_MAXCDNAME then None else Some EMSGSIZE).
Proof.
  unfold wire. induction 1 as [|lab labs Hl _ IH]; intros p l fuel Ha Hf; cbn [concat app] in *;
    (destruct fuel as [|f]; [lia|]); cbn [legal_loop].
  - rewrite (at_off_head src p 0 []) by done. assert (labellen src p = CVal 0) as -> by (unfold labellen; by rewrite (at_off_head src p 0 [])).
    cbn [mbind cres_bind]. change (Z.land 0 NS_CMPRSFLGS =? NS_CMPRSFLGS) with false. change (0 <? 0) with false. rewrite Z.eqb_refl. cbv iota.
    rewrite Z.add_0_r, Z.ltb_antisym. change (Z.of_nat (length [0])) with 1. by destruct (l + 1 <=? NS_MAXCDNAME).
  - rewrite <- app_assoc in *. apply at_off_app in Ha as [Ha Hr]. rewrite (labellen_ok src p lab Ha Hl).
    pose proof (lab_ok_length lab Hl) as Hll. destruct lab as [|n d]; [cbn in Hll; lia|]. rewrite length_app. cbn [length] in *.
    pose proof (lab_head n d Hl). rewrite (at_off_head src p n d) by done. cbn [mbind cres_bind].
    assert ((Z.land n NS_CMPRSFLGS =? NS_CMPRSFLGS) = false) as ->.
    { destruct (flag_bits n ltac:(lia)) as [[_ ->]|[[_ ->]|[[? _]|[? _]]]]; lia || done. }
    zif. replace (l + (Z.of_nat (S (length d)) - 1) + 1) with (l + Z.of_nat (S (length d))) by lia.
    destruct (Z.ltb_spec NS_MAXCDNAME (l + Z.of_nat (S (length d)))); [by zif|]. zif.
    replace (p + (Z.of_nat (S (length d)) - 1) + 1) with (p + Z.of_nat (S (length d))) by lia.
    rewrite IH by (done || lia). by replace (l + Z.of_nat (S (length d)) + Z.of_nat (length (concat labs ++ [0])))
      with (l + Z.of_nat (S (length d) + length (concat labs ++ [0]))) by lia.
Qed.

(** The array after a name was packed: offsets of names are added, within its length. *)
Definition tab_ok (m : list Z) (tab : option dntab) : Prop :=
  match tab with Some t => Forall (entry_ok m) (tab_ptrs t) | None => True end.

Definition tab_more (mem : list Z) (tab tab' : option dntab) : Prop :=
  match tab, tab' with
  | Some t, Some t' =>
      tab_cap t' = tab_cap t /\ exists more, tab_ptrs t' = tab_ptrs t ++ more /\ Forall (entry_ok mem) more /\
        (more = [] \/ exists cap, tab_cap t = Some cap /\ Z.of_nat (length (tab_ptrs t')) + 2 <= cap)
  | None, None => True
  | _, _ => False
  end.

Lemma tab_more_refl mem tab : tab_more mem tab tab.
Proof. destruct tab as [t|]; [|done]. split; [done|]. exists []. rewrite app_nil_r. auto. Qed.

Lemma tab_more_trans mem t1 t2 t3 : tab_more mem t1 t2 -> tab_more mem t2 t3 -> tab_more mem t1 t3.
Proof.
  destruct t1 as [t1|], t2 as [t2|], t3 as [t3|]; try done.
  intros (E1 & l1 & P1 & F1 & C1) (E2 & l2 & P2 & F2 & C2). split; [congruence|]. exists (l1 ++ l2).
  rewrite P2, P1, <- app_assoc. split_and!; [done|by apply Forall_app|].
  destruct C2 as [->|(cap & Hc & Hl)].
  - destruct C1 as [->|(cap & Hc & Hl)]; [by left|right]. exists cap. rewrite !app_nil_r, <- P1. done.
  - right. exists cap. rewrite E1 in Hc. rewrite app_assoc, <- P1, <- P2. done.
Qed.

Lemma save_ptr_more mem tab dstp n first : (n <> 0 -> entry_ok mem dstp) -> tab_more mem tab (fst (save_ptr tab dstp n first)).
Proof.
  intros He. destruct tab as [[ptrs [cap|]]|]; unfold save_ptr; [|apply tab_more_refl|done].
  destruct (negb (n =? 0) && (1 + Z.of_nat (length ptrs) <? cap - 1) && (dstp <? 0x4000) && first) eqn:E;
    [|apply tab_more_refl].
  rewrite !andb_true_iff, negb_true_iff in E. destruct E as [[[En E1] E2] _]. zbool. split; [done|]. cbn. exists [dstp].
  split_and!; [done|by constructor; [apply He|]|]. right. exists cap. rewrite length_app. cbn [length]. split; [done|lia].
Qed.

Section pack.
Context (src m : list Z) (dstsiz : Z) (tab0 : option dntab).
Hypothesis Htab : tab_ok m tab0.

(** What the loop returns for the labels that are left. *)
Definition packed (labs : list (list Z)) (out : list Z) (tab : option dntab) (r : (Z + list Z) * option dntab) : Prop :=
  match r with
  | (inl e, tab') => e = EMSGSIZE /\ tab' = tab0 /\ dstsiz <= Z.of_nat (length out + length (wire labs))
  | (inr out', tab') => exists l labs', out' = out ++ l /\ Z.of_nat (length out') <= dstsiz /\ (length l <= length (wire labs))%nat /\
      ceq labs labs' /\ tab_more (m ++ out') tab tab' /\
      name_at (m ++ out') (Z.of_nat (length m)) (Z.of_nat (length m + length out)) labs' (Z.of_nat (length (m ++ out')))
  end.

(** dn_find, as the loop calls it. *)
Lemma loop_find n srcp labs out : Forall lab_ok labs -> at_off src srcp (wire labs) -> (n <> 0 -> labs <> []) ->
  exists l, (match tab0 with
             | Some t => if n =? 0 then CVal (-1) else dn_find src srcp (m ++ out) (tab_ptrs t)
             | None => CVal (-1)
             end) = CVal l /\
    (l = -1 \/ n <> 0 /\ 0 <= l < 0x4000 /\
      exists s labs' e, name_at (m ++ out) s l labs' e /\ e <= Z.of_nat (length m) /\ ceq labs labs').
Proof.
  intros Hl Ha Hn. destruct tab0 as [t|]; [|eexists; split; [done|by left]].
  destruct (Z.eqb_spec n 0) as [->|Hn0]; [eexists; split; [done|by left]|].
  destruct (dn_find_ok src srcp labs m out (tab_ptrs t) Ha Hl (Hn Hn0) Htab) as (r & -> & Hr).
  exists r. split; [done|]. destruct Hr as [->|Hr]; [by left|by right].
Qed.

(** A pointer to the name that was found. *)
Lemma packed_ptr labs out tab l : labs <> [] -> Forall lab_ok labs -> 0 <= l < 0x4000 -> Z.of_nat (length out) + 1 < dstsiz ->
  (exists s labs' e, name_at (m ++ out) s l labs' e /\ e <= Z.of_nat (length m) /\ ceq labs labs') ->
  packed labs out tab (inr (out ++ [Z.lor (Z.shiftr l 8) NS_CMPRSFLGS; l mod 256]), tab).
Proof.
  intros Hne Hok Hl Hb (s & labs' & e & Hn & He & Hc). destruct (ptr_offset_inverse l Hl) as [Hh Ho].
  set (h := Z.lor (Z.shiftr l 8) NS_CMPRSFLGS) in *. eexists _, labs'. split; [done|]. rewrite length_app. cbn [length].
  split_and!; [lia| |done|apply tab_more_refl|].
  - destruct labs as [|lab labs]; [done|]. apply Forall_inv, lab_ok_length in Hok. unfold wire. cbn [concat]. rewrite !length_app. cbn [length]. lia.
  - rewrite !length_app. cbn [length]. replace (Z.of_nat (length m + (length out + 2))) with (Z.of_nat (length m + length out) + 2) by lia.
    eapply na_ptr; [lia| |done|rewrite Ho; rewrite app_assoc; by apply name_at_ext|done].
    exists (m ++ out), []. rewrite length_app, !app_assoc, app_nil_r. done.
Qed.

(** A label that is copied: what is packed after it is the rest of the name. *)
Lemma packed_label lab labs out tab tab1 r : lab_ok lab -> (tab1 = tab \/ forall mem, entry_ok mem (Z.of_nat (length m + length out)) -> tab_more mem tab tab1) ->
  packed labs (out ++ lab) tab1 r -> packed (lab :: labs) out tab r.
Proof.
  intros Hl Htab1. destruct r as [[e|out'] tab']; cbn [packed]; unfold wire; cbn [concat]; rewrite !length_app.
  - intros (-> & -> & Hb). split_and!; [done..|lia].
  - intros (l & labs' & -> & Hb & Hll & Hc & Hm & Hn). rewrite <- !app_assoc in *. rewrite !length_app in *. exists (lab ++ l), (lab :: labs').
    assert (name_at (m ++ out ++ lab ++ l) (Z.of_nat (length m)) (Z.of_nat (length m + length out)) (lab :: labs')
              (Z.of_nat (length m + (length out + (length lab + length l))))) as Hname.
    { apply na_label; [lia| |done|].
      - exists (m ++ out), l. by rewrite <- !app_assoc, length_app.
      - replace (Z.of_nat (length m + length out) + Z.of_nat (length lab)) with (Z.of_nat (length m + (length out + length lab))) by lia. done. }
    split_and!; [done|lia|rewrite length_app; lia|by apply ceq_cons| |done].
    destruct Htab1 as [->|Ht]; [done|]. eapply tab_more_trans; [apply Ht; by repeat eexists|done].
Qed.

Lemma pack_root srcp f out tab first : at_off src srcp [0] ->
  exists r, pack_loop (S f) src m dstsiz tab0 srcp out tab first = CVal r /\ packed [] out tab r.
Proof.
  intros Ha. cbn [pack_loop]. rewrite (at_off_head src srcp 0 []) by done. cbn [mbind cres_bind].
  destruct (loop_find 0 srcp [] out (Forall_nil_2 _) Ha ltac:(done)) as (l & -> & [->|[? _]]); [|done]. cbn [mbind cres_bind]. zif.
  assert (save_ptr tab (Z.of_nat (length m + length out)) 0 first = (tab, first)) as -> by (by destruct tab as [[ptrs [cap|]]|]).
  assert (labellen src srcp = CVal 0) as -> by (unfold labellen; by rewrite (at_off_head src srcp 0 [])).
  change (Z.land 0 NS_CMPRSFLGS =? NS_CMPRSFLGS) with false. cbv iota. cbn [mbind cres_bind].
  destruct (Z.leb_spec dstsiz (Z.of_nat (length out) + 1 + 0)).
  { eexists. split; [done|]. cbn [packed length]. split_and!; [done..|]. change (length (wire [])) with 1%nat. lia. }
  change (0 + 1) with (Z.of_nat (length [0])). rewrite (at_off_slice src srcp [0]) by done. cbn [mbind cres_bind].
  rewrite put_ok by (cbn [length]; lia). cbn [mbind cres_bind]. rewrite Z.eqb_refl. rewrite length_app. cbn [length]. zif.
  eexists. split; [done|]. exists [0], []. change (length (wire [])) with 1%nat. rewrite !length_app. cbn [length].
  split_and!; [done|lia|lia|done|apply tab_more_refl|].
  replace (Z.of_nat (length m + (length out + 1))) with (Z.of_nat (length m + length out) + 1) by lia.
  apply na_root; [lia|]. exists (m ++ out), []. by rewrite length_app, !app_assoc, app_nil_r.
Qed.

Lemma pack_loop_ok labs : Forall lab_ok labs -> forall srcp fuel out tab first, at_off src srcp (wire labs) ->
  Z.of_nat (length (wire labs)) <= Z.of_nat fuel ->
  exists r, pack_loop fuel src m dstsiz tab0 srcp out tab first = CVal r /\ packed labs out tab r.
Proof.
  induction 1 as [|lab labs Hl Hls IH]; intros srcp fuel out tab first Ha Hf;
    (destruct fuel as [|f]; [unfold wire in Hf; rewrite length_app in Hf; cbn [length] in Hf; lia|]).
  - by apply pack_root.
  - pose proof (lab_ok_length lab Hl) as Hll. destruct lab as [|n d] eqn:Elab; [cbn in Hll; lia|]. rewrite <- Elab in *.
    assert (at_off src srcp lab) as Hlab by (unfold wire in Ha; cbn [concat] in Ha; rewrite <- app_assoc in Ha; by apply at_off_app in Ha as [Ha _]).
    assert (at_off src (srcp + Z.of_nat (length lab)) (wire labs)) as Hr by (unfold wire in Ha; cbn [concat] in Ha; rewrite <- app_assoc in Ha; by apply at_off_app in Ha as [_ Ha]).
    assert (0 < n < 128) as Hn by (rewrite Elab in Hl; by apply lab_head in Hl).
    assert (length (wire (lab :: labs)) = (length lab + length (wire labs))%nat) as Hw by (unfold wire; cbn [concat]; by rewrite <- app_assoc, length_app).
    cbn [pack_loop]. rewrite (at_off_head src srcp n d) by (by rewrite <- Elab). cbn [mbind cres_bind].
    destruct (loop_find n srcp (lab :: labs) out) as (l & -> & Hfind); [by constructor|done..|]. cbn [mbind cres_bind].
    destruct Hfind as [->|(_ & Hl4 & Hfind)].
    2: { zif. destruct (Z.leb_spec dstsiz (Z.of_nat (length out) + 1)).
         - eexists. split; [done|]. split_and!; [done..|]. lia.
         - rewrite put_ok by (cbn [length]; lia). eexists. split; [done|]. apply packed_ptr; [done|by constructor|done|lia|done]. }
    zif. destruct (save_ptr tab (Z.of_nat (length m + length out)) n first) as [tab1 first1] eqn:Es.
    assert ((Z.land n NS_CMPRSFLGS =? NS_CMPRSFLGS) = false) as ->.
    { destruct (flag_bits n ltac:(lia)) as [[_ ->]|[[_ ->]|[[? _]|[? _]]]]; lia || done. }
    rewrite (labellen_ok src srcp lab Hlab Hl). cbn [mbind cres_bind].
    destruct (Z.leb_spec dstsiz (Z.of_nat (length out) + 1 + (Z.of_nat (length lab) - 1))).
    { eexists. split; [done|]. split_and!; [done..|]. lia. }
    replace (Z.of_nat (length lab) - 1 + 1) with (Z.of_nat (length lab)) by lia.
    rewrite (at_off_slice src srcp lab Hlab). cbn [mbind cres_bind]. rewrite put_ok by lia. cbn [mbind cres_bind]. zif.
    destruct (IH (srcp + Z.of_nat (length lab)) f (out ++ lab) tab1 first1 Hr) as (r & -> & Hp); [lia|].
    exists r. split; [done|]. eapply packed_label; [done| |exact Hp]. right. intros mem He.
    pose proof (save_ptr_more mem tab (Z.of_nat (length m + length out)) n first (fun _ => He)) as Hm. by rewrite Es in Hm.
Qed.
End pack.

(** What ns_name_pack returns. *)
Lemma ns_name_pack_ok labs rest m dstsiz tab : Forall lab_ok labs -> tab_ok m tab ->
  exists r tab', ns_name_pack (wire labs ++ rest) m dstsiz tab = CVal (r, tab') /\
    match r with
    | inl e => e = EMSGSIZE /\ tab' = tab /\ (NS_MAXCDNAME < Z.of_nat (length (wire labs)) \/ dstsiz <= Z.of_nat (length (wire labs)))
    | inr out => exists labs', Z.of_nat (length (wire labs)) <= NS_MAXCDNAME /\ ceq labs labs' /\ Z.of_nat (length out) <= dstsiz /\ (length out <= length (wire labs))%nat /\
        tab_more (m ++ out) tab tab' /\
        name_at (m ++ out) (Z.of_nat (length m)) (Z.of_nat (length m)) labs' (Z.of_nat (length (m ++ out)))
    end.
Proof.
  intros Hl Ht. assert (at_off (wire labs ++ rest) 0 (wire labs)) as Ha by by exists [], rest. unfold ns_name_pack.
  rewrite (legal_loop_ok (wire labs ++ rest) labs Hl 0 0 (Z.to_nat NS_MAXCDNAME + 1) Ha) by done. cbn [mbind cres_bind].
  destruct (Z.leb_spec (0 + Z.of_nat (length (wire labs))) NS_MAXCDNAME); [|do 2 eexists; split; [done|]; split_and!; [done..|left; lia]].
  destruct (pack_loop_ok (wire labs ++ rest) m dstsiz tab Ht labs Hl 0 (Z.to_nat NS_MAXCDNAME + 1) [] tab true Ha) as ([[e|out] tab'] & -> & Hp); [lia| |].
  - destruct Hp as (-> & -> & Hb). do 2 eexists. split; [done|]. split_and!; [done..|by right].
  - destruct Hp as (l & labs' & -> & Hb & Hll & Hc & Hm & Hn). cbn [app length] in *. rewrite Nat.add_0_r in Hn.
    do 2 eexists. split; [done|]. exists labs'. split_and!; done || lia.
Qed.

(** Without offsets to point to, the name is copied. *)
Lemma pack_loop_copies src m dstsiz cap labs : Forall lab_ok labs -> forall srcp fuel out tab first, at_off src srcp (wire labs) ->
  Z.of_nat (length out + length (wire labs)) < dstsiz -> (length (wire labs) <= fuel)%nat ->
  exists tab', pack_loop fuel src m dstsiz (Some (mkTab [] cap)) srcp out tab first = CVal (inr (out ++ wire labs), tab').
Proof.
  assert (forall n srcp out, (if n =? 0 then CVal (-1) else dn_find src srcp (m ++ out) (tab_ptrs (mkTab [] cap))) = CVal (-1)) as Hno
    by (intros n srcp out; by destruct (n =? 0)).
  unfold wire. induction 1 as [|lab labs Hl _ IH]; intros srcp fuel out tab first Ha Hd Hf; rewrite ?length_app in *; cbn [concat length app] in *;
    (destruct fuel as [|f]; [lia|]); cbn [pack_loop].
  - rewrite (at_off_head src srcp 0 []) by done. cbn [mbind cres_bind]. rewrite Hno. cbn [mbind cres_bind]. zif.
    destruct (save_ptr _ _ _ _) as [tab1 first1]. change (Z.land 0 NS_CMPRSFLGS =? NS_CMPRSFLGS) with false. cbv iota.
    unfold labellen. rewrite (at_off_head src srcp 0 []) by done. cbn [mbind cres_bind].
    change (Z.land 0 NS_CMPRSFLGS =? NS_CMPRSFLGS) with false. change (Z.land 0 NS_CMPRSFLGS =? NS_TYPE_ELT) with false. cbv iota. cbn [mbind cres_bind].
    zif. change (0 + 1) with (Z.of_nat (length [0])). rewrite (at_off_slice src srcp [0]) by done. cbn [mbind cres_bind].
    rewrite put_ok by (cbn [length]; lia). cbn [mbind cres_bind]. rewrite Z.eqb_refl, length_app. cbn [length]. zif. by eexists.
  - rewrite length_app in *. rewrite <- app_assoc in Ha. apply at_off_app in Ha as [Ha Hr]. pose proof (labellen_ok src srcp lab Ha Hl) as Hlen.
    pose proof (lab_ok_length lab Hl). destruct lab as [|n d]; [cbn in *; lia|]. pose proof (lab_head n d Hl).
    rewrite (at_off_head src srcp n d) by done. cbn [mbind cres_bind]. rewrite Hno. cbn [mbind cres_bind]. zif.
    destruct (save_ptr _ _ _ _) as [tab1 first1].
    assert ((Z.land n NS_CMPRSFLGS =? NS_CMPRSFLGS) = false) as -> by (destruct (flag_bits n ltac:(lia)) as [[_ ->]|[[_ ->]|[[? _]|[? _]]]]; lia || done).
    rewrite Hlen. cbn [mbind cres_bind]. zif. replace (Z.of_nat (length (n :: d)) - 1 + 1) with (Z.of_nat (length (n :: d))) by lia.
    rewrite (at_off_slice src srcp (n :: d) Ha). cbn [mbind cres_bind]. rewrite put_ok by lia. cbn [mbind cres_bind].
    rewrite (proj2 (Z.eqb_neq (Z.of_nat (length (n :: d)) - 1) 0)) by lia.
    destruct (IH (srcp + Z.of_nat (length (n :: d))) f (out ++ n :: d) tab1 first1 Hr) as (tab' & ->); [rewrite length_app; lia|lia|].
    exists tab'. by rewrite <- !app_assoc.
Qed.

Lemma ns_name_pack_copies labs rest m dstsiz cap : Forall lab_ok labs -> Z.of_nat (length (wire labs)) <= NS_MAXCDNAME ->
  Z.of_nat (length (wire labs)) < dstsiz ->
  exists tab', ns_name_pack (wire labs ++ rest) m dstsiz (Some (mkTab [] cap)) = CVal (inr (wire labs), tab').
Proof.
  intros Hl Hw Hd. assert (at_off (wire labs ++ rest) 0 (wire labs)) as Ha by by exists [], rest. unfold ns_name_pack.
  rewrite (legal_loop_ok _ labs Hl 0 0) by (done || (change NS_MAXCDNAME with 255 in *; lia)). cbn [mbind cres_bind]. zif.
  apply (pack_loop_copies _ m dstsiz cap labs Hl 0 _ []); [done|cbn; lia|change NS_MAXCDNAME with 255 in *; lia].
Qed.

Lemma ceq_length labs labs' : ceq labs labs' -> length (wire labs) = length (wire labs').
Proof.
  intros H. unfold wire. rewrite !length_app. f_equal. revert labs' H.
  induction labs as [|l labs IH]; intros [|l' labs'] H; try done. unfold ceq in *. cbn [map] in H. injection H as H1 H2.
  cbn [concat]. rewrite !length_app. rewrite (IH labs' H2). f_equal. apply (f_equal length) in H1. by rewrite !length_map in H1.
Qed.

(** A name whose pointers go backwards is expanded. *)
Lemma ns_name_unpack_name msg x more dstsiz s p labs e : name_at msg s p labs e -> Z.of_nat (length (wire labs)) <= dstsiz ->
  ns_name_unpack (msg ++ x :: more) (Z.of_nat (length msg)) p dstsiz = CVal (inr (e - p, wire labs)).
Proof.
  intros Hn Hw. destruct (name_at_decodes _ _ _ _ _ Hn) as (t & Hd & Ht). pose proof (name_at_bound _ _ _ _ _ Hn). pose proof (name_at_start _ _ _ _ _ Hn).
  apply (ns_name_unpack_decodes msg x more p dstsiz ltac:(lia) labs (e - p) t); [done|lia|done].
Qed.

(** Once packed, the array is still one of offsets of names of the message. *)
Lemma tab_more_ok m out tab tab' : tab_ok m tab -> tab_more (m ++ out) tab tab' -> tab_ok (m ++ out) tab'.
Proof.
  destruct tab as [t|], tab' as [t'|]; try done. intros Ht (_ & l & Hp & Hl & _). cbn [tab_ok] in *. rewrite Hp.
  apply Forall_app. split; [by apply entry_ok_ext|done].
Qed.

(** C25: With an array of offsets of names that are in the message, ns_name_pack returns.  It fails,
    with EMSGSIZE and the array as it was, only on a name of more than 255 octets or one
    that does not leave a byte of the destination free.  Otherwise it never writes more than the name
    that is not compressed, the array only gains offsets of names, within its length, and
    ns_name_unpack takes what was written back to a name that differs at most in the
    case of its letters, whatever follows it in the message. *)
Theorem ns_name_round_trip labs rest m dstsiz tab x more :
  Forall lab_ok labs -> tab_ok m tab ->
  exists r tab', ns_name_pack (wire labs ++ rest) m dstsiz tab = CVal (r, tab') /\
    match r with
    | inl e => e = EMSGSIZE /\ tab' = tab /\ (NS_MAXCDNAME < Z.of_nat (length (wire labs)) \/ dstsiz <= Z.of_nat (length (wire labs)))
    | inr out => Z.of_nat (length out) <= dstsiz /\ (length out <= length (wire labs))%nat /\
        tab_ok (m ++ out) tab' /\ tab_more (m ++ out) tab tab' /\
        exists labs', ceq labs labs' /\
          ns_name_unpack ((m ++ out) ++ x :: more) (Z.of_nat (length (m ++ out))) (Z.of_nat (length m)) NS_MAXCDNAME =
            CVal (inr (Z.of_nat (length out), wire labs'))
    end.
Proof.
  intros Hl Ht. destruct (ns_name_pack_ok labs rest m dstsiz tab Hl Ht) as (r & tab' & -> & H).
  exists r, tab'. split; [done|]. destruct r as [e|out]; [done|]. destruct H as (labs' & Hw & Hc & Hb & Hll & Hm & Hn).
  split_and!; [done|done|by eapply tab_more_ok|done|]. exists labs'. split; [done|].
  rewrite (ns_name_unpack_name _ _ _ _ _ _ _ _ Hn) by (rewrite <- (ceq_length _ _ Hc); lia).
  rewrite length_app. do 3 f_equal. lia.
Qed.

Lemma ns_name_round_trip_witness :
  let labs := [[2; 0x46; 0x6f]; [1; 0x42]] in
  let m := [0; 0; 3; 0x61; 0x62; 0x63; 1; 0x62; 0] in
  let tab := Some (mkTab [2] (Some 5)) in
  ns_name_pack (wire labs) m 100 tab = CVal (inr [2; 0x46; 0x6f; 0xc0; 6], Some (mkTab [2; 9] (Some 5))) /\
  exists r tab', ns_name_pack (wire labs ++ []) m 100 tab = CVal (r, tab') /\
    match r with
    | inl e => e = EMSGSIZE /\ tab' = tab /\ (NS_MAXCDNAME < Z.of_nat (length (wire labs)) \/ 100 <= Z.of_nat (length (wire labs)))
    | inr out => Z.of_nat (length out) <= 100 /\ (length out <= length (wire labs))%nat /\
        tab_ok (m ++ out) tab' /\ tab_more (m ++ out) tab tab' /\
        exists labs', ceq labs labs' /\
          ns_name_unpack ((m ++ out) ++ 0 :: []) (Z.of_nat (length (m ++ out))) (Z.of_nat (length m)) NS_MAXCDNAME =
            CVal (inr (Z.of_nat (length out), wire labs'))
    end.
Proof.
  split; [vm_compute; reflexivity|]. apply (ns_name_round_trip [[2; 0x46; 0x6f]; [1; 0x42]] [] _ 100).
  - repeat constructor; [exists 2, [0x46; 0x6f]|exists 1, [0x42]]; (split; [done|left; done]).
  - constructor; [|done]. exists 2, [[3; 0x61; 0x62; 0x63]; [1; 0x62]], 9.
    apply na_label; [lia|by exists [0; 0], [1; 0x62; 0]|exists 3, [0x61; 0x62; 0x63]; split; [done|left; done]|].
    apply na_label; [cbn; lia|by exists [0; 0; 3; 0x61; 0x62; 0x63], [0]|exists 1, [0x62]; split; [done|left; done]|].
    apply (na_root _ 2 8); [lia|]. by exists [0; 0; 3; 0x61; 0x62; 0x63; 1; 0x62], [].
Defined.
