(* ===== verification/NsText.v ===== *)
(** * Domain names as text: ns_name_ntop, ns_name_pton, dn_comp and dn_expand

    Strings are lists of bytes with their NUL.  What is written goes to the end of [out]; a
    result is [inl errno] where the C function returns -1.  A name that is printed, parsed,
    packed, expanded and printed again is the same text up to the case of its letters. *)

From Stdlib Require Import ZArith Lia.
From stdpp Require Import base list numbers sets.
From S2P Require Import Prelude CMem Bytes Digits NsName NsPack.

Open Scope Z_scope.

(** Results that may be an errno. *)
Definition ebind {A B} (x : cres (Z + A)) (f : A -> cres (Z + B)) : cres (Z + B) :=
  r ← x; match r with inl e => CVal (inl e) | inr a => f a end.
Notation "x '?←' a ; b" := (ebind a (fun x => b)) (at level 20, a at level 100, b at level 200).
Definition eguard (ok : bool) (e : Z) : cres (Z + unit) := CVal (if ok then inr tt else inl e).

Lemma ebind_inr {A B} (a : A) (f : A -> cres (Z + B)) : ebind (CVal (inr a)) f = f a.
Proof. done. Qed.
Lemma ebind_inl {A B} e (f : A -> cres (Z + B)) : ebind (CVal (inl e)) f = CVal (inl e).
Proof. done. Qed.

(** Bytes that are written if they fit. *)
Definition emit_text (lim : Z) (out l : list Z) : cres (Z + list Z) :=
  if lim <=? Z.of_nat (length out) + (Z.of_nat (length l) - 1) then CVal (inl EMSGSIZE) else out ← put lim out l; CVal (inr out).

Definition special (ch : Z) : bool :=
  (ch =? 0x22) || (ch =? 0x2e) || (ch =? 0x3b) || (ch =? 0x5c) || (ch =? 0x28) || (ch =? 0x29) || (ch =? 0x40) || (ch =? 0x24).
Definition printable (ch : Z) : bool := (0x20 <? ch) && (ch <? 0x7f).

(** sprintf: the text and its NUL. *)
Definition sprintf (lim : Z) (out text : list Z) : cres (list Z) :=
  if Z.of_nat (length out + length text) + 1 <=? lim then CVal (out ++ text) else CUndef.
Definition fmt_02x (v : Z) : list Z :=
  (if v <? 256 then [] else [hex_digit (v / 256)]) ++ [hex_digit ((v / 16) mod 16); hex_digit (v mod 16)].

Section bitstring.
(** Whether [char] is signed. *)
Context (cm : CharModel).
Definition char (b : Z) : Z := char_of b.

Fixpoint decode_bytes (n : nat) (m : list Z) (cp lim : Z) (out : list Z) : cres (list Z) :=
  match n with
  | O => CVal out
  | S n => b ← aget m cp; out ← sprintf lim out (fmt_02x b); decode_bytes n m (cp + 1) lim out
  end.

(** decode_bitstring: the pointer after the bit string and the text, or -1. *)
Definition decode_bitstring (m : list Z) (cp lim : Z) (out : list Z) : cres (option (Z * list Z)) :=
  b ← aget m cp;
  let blen := if b =? 0 then 256 else b in
  let plen := (blen + 3) / 4 + 6 + (if 99 <? blen then 3 else if 9 <? blen then 2 else 1) in
  if lim <=? Z.of_nat (length out) + plen then CVal None
  else
    let cp := cp + 1 in
    out ← sprintf lim out [0x5c; 0x5b; 0x78];
    out ← decode_bytes (Z.to_nat (blen / 8)) m cp lim out;
    let cp := cp + blen / 8 in
    let b := blen mod 8 in
    r ← (if 4 <? b then
           tc ← aget m cp;
           out ← sprintf lim out (fmt_02x (Z.land (char tc) (Z.shiftl 0xff (8 - b))));
           CVal (cp + 1, out)
         else if 0 <? b then
           tc ← aget m cp;
           out ← sprintf lim out [hex_digit (Z.land (Z.land (Z.shiftr (u32 (char tc)) 4) 0x0f) (Z.shiftl 0x0f (4 - b)))];
           CVal (cp + 1, out)
         else CVal (cp, out));
    let '(cp, out) := r in
    out ← sprintf lim out (0x2f :: fmt_d blen ++ [0x5d]);
    CVal (Some (cp, out)).

(** The bytes of a label of ns_name_ntop. *)
Definition ntop_char (lim : Z) (out : list Z) (c : Z) : cres (Z + list Z) :=
  if special c then emit_text lim out [0x5c; c]
  else if negb (printable c) then emit_text lim out [0x5c; digits (c / 100); digits ((c mod 100) / 10); digits (c mod 10)]
  else emit_text lim out [c].

Fixpoint ntop_chars (l : nat) (m : list Z) (cp lim : Z) (out : list Z) : cres (Z + list Z) :=
  match l with
  | O => CVal (inr out)
  | S l => c ← aget m cp; out ?← ntop_char lim out c; ntop_chars l m (cp + 1) lim out
  end.

Fixpoint name_ntop_loop (fuel : nat) (m : list Z) (cp lim : Z) (out : list Z) : cres (Z + list Z) :=
  match fuel with
  | O => CFuel
  | S f =>
      n ← aget m cp;
      let cp := cp + 1 in
      if n =? 0 then CVal (inr out)
      else if Z.land n NS_CMPRSFLGS =? NS_CMPRSFLGS then CVal (inl EMSGSIZE)
      else
        out ?← (match out with [] => CVal (inr out) | _ => emit_text lim out [0x2e] end);
        l ← labellen m (cp - 1);
        _ ?← eguard (negb (l <? 0)) EMSGSIZE;
        _ ?← eguard (negb (lim <=? Z.of_nat (length out) + l)) EMSGSIZE;
        if Z.land n NS_CMPRSFLGS =? NS_TYPE_ELT then
          _ ?← eguard (n =? DNS_LABELTYPE_BITSTRING) EINVAL;
          r ← decode_bitstring m cp lim out;
          match r with
          | None => CVal (inl EMSGSIZE)
          | Some (cp, out) => name_ntop_loop f m cp lim out
          end
        else out ?← ntop_chars (Z.to_nat l) m cp lim out; name_ntop_loop f m (cp + l) lim out
  end.

(** ns_name_ntop: the text with its NUL. *)
Definition ns_name_ntop (m : list Z) (src dstsiz : Z) : cres (Z + list Z) :=
  out ?← name_ntop_loop (S (length m)) m src dstsiz [];
  out ?← (match out with [] => emit_text dstsiz out [0x2e] | _ => CVal (inr out) end);
  emit_text dstsiz out [0].

(** ns_name_uncompress and dn_expand: the root is the empty string for the second. *)
Definition ns_name_uncompress (msg : list Z) (eom src dstsiz : Z) : cres (Z + Z * list Z) :=
  r ?← ns_name_unpack msg eom src NS_MAXCDNAME;
  out ?← ns_name_ntop (snd r) 0 dstsiz;
  CVal (inr (fst r, out)).

Definition dn_expand (msg : list Z) (eom src dstsiz : Z) : cres (Z + Z * list Z) :=
  r ?← ns_name_uncompress msg eom src dstsiz;
  let '(n, dst) := r in
  CVal (inr (n, match dst with d :: rest => if (0 <? n) && (d =? 0x2e) then 0 :: rest else dst | [] => dst end)).
End bitstring.

(** ** ns_name_pton *)

(** strchr (src + p, c), and strtol of the decimal digits from [p] up to another byte: the
    value, which stops at LONG_MAX, and where the digits end. *)
Fixpoint strchr_at (fuel : nat) (src : list Z) (p c : Z) : cres (option Z) :=
  match fuel with
  | O => CFuel
  | S f => x ← aget src p; if x =? c then CVal (Some p) else if x =? 0 then CVal None else strchr_at f src (p + 1) c
  end.
Fixpoint strtol_at (fuel : nat) (src : list Z) (p acc : Z) : cres (Z * Z) :=
  match fuel with
  | O => CFuel
  | S f => x ← aget src p; if decimal x then strtol_at f src (p + 1) (Z.min (acc * 10 + (x - 0x30)) (2 ^ 31 - 1)) else CVal (acc, p)
  end.

(** encode_bitsring: the loop, its state and where it stops. *)
Record bits := mkBits { b_data : list Z; b_slash : bool; b_beg : option Z; b_value : Z; b_count : Z; b_tbcount : Z; b_blen : Z }.

Definition bits_digit (st : bits) (d : Z) : cres (Z + bits) :=
  let value := s32 (s32 (Z.shiftl (b_value st) 4) + d) in
  let count := b_count st + 4 in
  let tbcount := b_tbcount st + 4 in
  if 256 <? tbcount then CVal (inl EINVAL)
  else CVal (inr (mkBits (if count =? 8 then b_data st ++ [u8 value] else b_data st) (b_slash st) (b_beg st) value
                    (if count =? 8 then 0 else count) tbcount (b_blen st))).

Definition bits_end (src : list Z) (st : bits) : cres (Z + bits) :=
  blen ?← (if b_slash st then
             match b_beg st with
             | None => CVal (inl EINVAL)
             | Some beg =>
                 r ← strtol_at (S (length src)) src beg 0;
                 c ← aget src (snd r);
                 CVal (if c =? 0x5d then inr (s32 (fst r)) else inl EINVAL)
             end
           else CVal (inr (b_blen st)));
  CVal (inr (mkBits (if b_count st =? 0 then b_data st else b_data st ++ [Z.land (Z.shiftl (b_value st) 4) 0xff])
               (b_slash st) (b_beg st) (b_value st) (b_count st) (b_tbcount st) blen)).

Definition bits_char (cp c : Z) (st : bits) : cres (Z + bits) :=
  if c =? 0x2f then CVal (inr (mkBits (b_data st) true (b_beg st) (b_value st) (b_count st) (b_tbcount st) (b_blen st)))
  else if b_slash st then
    if negb (decimal c) then CVal (inl EINVAL)
    else match b_beg st with
         | None => if c =? 0x30 then CVal (inl EINVAL)
                   else CVal (inr (mkBits (b_data st) true (Some cp) (b_value st) (b_count st) (b_tbcount st) (b_blen st)))
         | Some _ => CVal (inr st)
         end
  else match hexval c with None => CVal (inl EINVAL) | Some d => bits_digit st d end.

Fixpoint bits_loop (fuel : nat) (src : list Z) (cp endp tp eom : Z) (st : bits) : cres (Z + Z * bits) :=
  match fuel with
  | O => CFuel
  | S f =>
      if negb ((cp <? endp) && (tp + Z.of_nat (length (b_data st)) <? eom)) then CVal (inr (cp, st))
      else
        c ← aget src cp;
        if c =? 0x5d then st ?← bits_end src st; CVal (inr (cp + 1, st))
        else st ?← bits_char cp c st; bits_loop f src (cp + 1) endp tp eom st
  end.

(** The label byte that is written back. *)
Definition set_label (out : list Z) (label c : Z) : list Z := <[Z.to_nat label := u8 c]> out.

Definition encode_bitsring (src : list Z) (bp endp label eom : Z) (out : list Z) : cres (Z + Z * list Z) :=
  if endp - bp <? 2 then CVal (inl EINVAL)
  else
    c ← aget src bp;
    if negb (c =? 0x78) then CVal (inl EINVAL)
    else
      c ← aget src (bp + 1);
      match hexval c with
      | None => CVal (inl EINVAL)
      | Some _ =>
          let tp := Z.of_nat (length out) + 1 in
          r ?← bits_loop (S (length src)) src (bp + 1) endp tp eom (mkBits [] false None 0 0 0 0);
          let '(cp, st) := r in
          if (endp <=? cp) || (eom <=? tp + Z.of_nat (length (b_data st))) then CVal (inl EMSGSIZE)
          else
            let traillen := b_tbcount st - b_blen st in
            if (0 <? b_blen st) && (negb (Z.land (s32 (b_blen st + 3)) (-4) =? b_tbcount st) ||
                 negb (Z.land (s32 (Z.shiftl (b_value st) (8 - traillen))) 0xff =? 0)) then CVal (inl EINVAL)
            else
              let blen := if 0 <? b_blen st then b_blen st else b_tbcount st in
              let blen := if blen =? 256 then 0 else blen in
              CVal (inr (cp, set_label out label DNS_LABELTYPE_BITSTRING ++ u8 blen :: b_data st))
      end.

(** done: the last label byte is [c]. *)
Definition pton_done (dstsiz label : Z) (out : list Z) (c : Z) : cres (Z + Z * list Z) :=
  _ ?← eguard (negb (dstsiz <=? label)) EMSGSIZE;
  let out := set_label out label c in
  out ?← (if c =? 0 then CVal (inr out) else emit_text dstsiz out [0]);
  _ ?← eguard (negb (NS_MAXCDNAME <? Z.of_nat (length out))) EMSGSIZE;
  CVal (inr (0, out)).

(** A dot: the label is closed; the result if the name ends here, or the next label. *)
Definition pton_dot (src : list Z) (p dstsiz label : Z) (out : list Z) : cres (Z + (Z * list Z + Z * list Z)) :=
  let c := Z.of_nat (length out) - label - 1 in
  _ ?← eguard (Z.land c NS_CMPRSFLGS =? 0) EMSGSIZE;
  _ ?← eguard (negb (dstsiz <=? label)) EMSGSIZE;
  let out := set_label out label c in
  x ← aget src p;
  if x =? 0 then
    out ?← (if c =? 0 then CVal (inr out) else emit_text dstsiz out [0]);
    _ ?← eguard (negb (NS_MAXCDNAME <? Z.of_nat (length out))) EMSGSIZE;
    CVal (inr (inl (1, out)))
  else if (c =? 0) || (x =? 0x2e) then CVal (inl EMSGSIZE)
  else CVal (inr (inr (Z.of_nat (length out), out ++ [0]))).

(** A decimal escape after its first digit: the byte. *)
Definition pton_decimal (src : list Z) (p c : Z) : cres (Z + Z) :=
  c1 ← aget src p;
  if negb (decimal c1) then CVal (inl EMSGSIZE)
  else
    c2 ← aget src (p + 1);
    if negb (decimal c2) then CVal (inl EMSGSIZE)
    else
      let n := (c - 0x30) * 100 + (c1 - 0x30) * 10 + (c2 - 0x30) in
      CVal (if 255 <? n then inl EMSGSIZE else inr n).

(** The loop: [out] is what comes before [bp], with the byte at [label] still to be written. *)
Fixpoint name_pton_loop (fuel : nat) (src : list Z) (p dstsiz label : Z) (out : list Z) (escaped : bool) : cres (Z + Z * list Z) :=
  match fuel with
  | O => CFuel
  | S f =>
      c ← aget src p;
      let p := p + 1 in
      if c =? 0 then
        let c := Z.of_nat (length out) - label - 1 in
        _ ?← eguard (Z.land c NS_CMPRSFLGS =? 0) EMSGSIZE;
        pton_done dstsiz label out c
      else if escaped then
        if c =? 0x5b then
          cp ← strchr_at (S (length src)) src p 0x5d;
          match cp with
          | None => CVal (inl EINVAL)
          | Some cp =>
              r ?← encode_bitsring src p (cp + 2) label dstsiz out;
              let '(p, out) := r in
              let label := Z.of_nat (length out) in
              c ← aget src p;
              if c =? 0 then pton_done dstsiz label (out ++ [0]) 0
              else if negb (c =? 0x2e) then CVal (inl EINVAL)
              else name_pton_loop f src (p + 1) dstsiz label (out ++ [0]) false
          end
        else if decimal c then
          n ?← pton_decimal src p c;
          out ?← emit_text dstsiz out [n];
          name_pton_loop f src (p + 2) dstsiz label out false
        else out ?← emit_text dstsiz out [u8 c]; name_pton_loop f src p dstsiz label out false
      else if c =? 0x5c then name_pton_loop f src p dstsiz label out true
      else if c =? 0x2e then
        r ?← pton_dot src p dstsiz label out;
        match r with
        | inl r => CVal (inr r)
        | inr (label, out) => name_pton_loop f src p dstsiz label out false
        end
      else out ?← emit_text dstsiz out [c]; name_pton_loop f src p dstsiz label out false
  end.

Definition ns_name_pton (src : list Z) (dstsiz : Z) : cres (Z + Z * list Z) :=
  name_pton_loop (S (length src)) src 0 dstsiz 0 [0] false.

(** ns_name_compress, which dn_comp calls: the result and the array of offsets. *)
Definition ns_name_compress (src m : list Z) (dstsiz : Z) (tab : option dntab) : cres ((Z + list Z) * option dntab) :=
  r ← ns_name_pton src NS_MAXCDNAME;
  match r with
  | inl e => CVal (inl e, tab)
  | inr (_, tmp) => ns_name_pack tmp m (s32 dstsiz) tab
  end.
Definition dn_comp : list Z -> list Z -> Z -> option dntab -> cres ((Z + list Z) * option dntab) := ns_name_compress.

(** ** res_hnok, res_ownok, res_mailok and res_dnok *)

Definition alphachar (c : Z) : bool := ((0x41 <=? c) && (c <=? 0x5a)) || ((0x61 <=? c) && (c <=? 0x7a)).
Definition borderchar (c : Z) : bool := alphachar c || ((0x30 <=? c) && (c <=? 0x39)).
Definition middlechar (c : Z) : bool := borderchar c || (c =? 0x2d) || (c =? 0x5f).
Definition domainchar (c : Z) : bool := (0x20 <? c) && (c <? 0x7f).

Fixpoint hnok_loop (fuel : nat) (dn : list Z) (p pch ch : Z) : cres bool :=
  match fuel with
  | O => CFuel
  | S f =>
      if ch =? 0 then CVal true
      else
        nch ← aget dn p;
        if (if ch =? 0x2e then true else if pch =? 0x2e then borderchar ch
            else if (nch =? 0x2e) || (nch =? 0) then borderchar ch else middlechar ch)
        then hnok_loop f dn (p + 1) ch nch else CVal false
  end.
Definition res_hnok (dn : list Z) (p : Z) : cres bool := ch ← aget dn p; hnok_loop (S (length dn)) dn (p + 1) 0x2e ch.

Definition res_ownok (dn : list Z) (p : Z) : cres bool :=
  c0 ← aget dn p;
  if c0 =? 0x2a then
    c1 ← aget dn (p + 1);
    if c1 =? 0x2e then res_hnok dn (p + 2) else if c1 =? 0 then CVal true else res_hnok dn p
  else res_hnok dn p.

(** The first label of res_mailok: where the host name is, if there is one. *)
Fixpoint mailok_loop (fuel : nat) (dn : list Z) (p : Z) (escaped : bool) : cres (option Z) :=
  match fuel with
  | O => CFuel
  | S f =>
      ch ← aget dn p;
      if ch =? 0 then CVal None
      else if negb (domainchar ch) then CVal None
      else if negb escaped && (ch =? 0x2e) then CVal (Some (p + 1))
      else mailok_loop f dn (p + 1) (if escaped then false else ch =? 0x5c)
  end.
Definition res_mailok (dn : list Z) (p : Z) : cres bool :=
  c0 ← aget dn p;
  if c0 =? 0 then CVal true
  else r ← mailok_loop (S (length dn)) dn p false; match r with None => CVal false | Some p => res_hnok dn p end.

Fixpoint dnok_loop (fuel : nat) (dn : list Z) (p : Z) : cres bool :=
  match fuel with
  | O => CFuel
  | S f => ch ← aget dn p; if ch =? 0 then CVal true else if negb (domainchar ch) then CVal false else dnok_loop f dn (p + 1)
  end.
Definition res_dnok (dn : list Z) : cres bool := dnok_loop (S (length dn)) dn 0.

(** ** The text of a name *)

(** Labels of bytes: not bit strings. *)
Definition lab_plain (lab : list Z) : Prop := exists n d, lab = n :: d /\ 0 < n < 64 /\ Z.of_nat (length d) = n /\ octets d.

Definition esc (c : Z) : list Z :=
  if special c then [0x5c; c]
  else if negb (printable c) then [0x5c; digits (c / 100); digits ((c mod 100) / 10); digits (c mod 10)] else [c].
Definition lab_text (lab : list Z) : list Z := concat (map esc (tail lab)).
Definition tail_text (labs : list (list Z)) : list Z := concat (map (fun lab => 0x2e :: lab_text lab) labs).
Definition name_text (labs : list (list Z)) : list Z :=
  match labs with [] => [0x2e] | lab :: labs => lab_text lab ++ tail_text labs end.

Lemma lab_plain_ok lab : lab_plain lab -> lab_ok lab.
Proof. intros (n & d & -> & Hn & Hl & _). exists n, d. split; [done|]. by left. Qed.

(** The text, or an error when it leaves no room for a NUL. *)
Definition text_fits (lim : Z) (t : list Z) (r : Z + list Z) : Prop := r = inr t \/ r = inl EMSGSIZE /\ lim <= Z.of_nat (length t).

Lemma emit_fits lim out l : l <> [] ->
  emit_text lim out l = CVal (if Z.of_nat (length (out ++ l)) <=? lim then inr (out ++ l) else inl EMSGSIZE).
Proof.
  intros Hl. assert (1 <= length l)%nat by (destruct l; [done|cbn; lia]). unfold emit_text. rewrite length_app.
  destruct (Z.leb_spec lim (Z.of_nat (length out) + (Z.of_nat (length l) - 1))); zif; [done|]. by rewrite put_ok by lia.
Qed.

Lemma esc_length c : (1 <= length (esc c))%nat.
Proof. unfold esc. destruct (special c); [cbn; lia|]. destruct (printable c); cbn; lia. Qed.

Lemma ntop_char_esc lim out c :
  ntop_char lim out c = CVal (if Z.of_nat (length (out ++ esc c)) <=? lim then inr (out ++ esc c) else inl EMSGSIZE).
Proof. unfold ntop_char, esc. destruct (special c); [by apply emit_fits|]. destruct (printable c); by apply emit_fits. Qed.

Lemma ntop_chars_fits m lim d : forall cp out, at_off m cp d ->
  exists r, ntop_chars (length d) m cp lim out = CVal r /\ text_fits lim (out ++ concat (map esc d)) r.
Proof.
  induction d as [|c d IH]; intros cp out Ha; cbn [length ntop_chars map concat].
  { eexists. split; [done|]. left. by rewrite app_nil_r. }
  rewrite (at_off_head m cp c d Ha). cbn [mbind cres_bind]. rewrite ntop_char_esc.
  apply (at_off_app m cp [c] d) in Ha as [_ Ha].
  destruct (Z.leb_spec (Z.of_nat (length (out ++ esc c))) lim); rewrite ?ebind_inr, ?ebind_inl.
  - destruct (IH (cp + 1) (out ++ esc c) Ha) as (r & -> & Hr). rewrite <- app_assoc in Hr. by exists r.
  - eexists. split; [done|]. right. split; [done|]. rewrite app_assoc, length_app. lia.
Qed.

Lemma lab_text_length lab : lab_plain lab -> (length lab <= S (length (lab_text lab)))%nat.
Proof.
  intros (n & d & -> & _). unfold lab_text. cbn [tail length].
  induction d as [|c d IH]; [done|]. cbn [map concat length]. rewrite length_app. pose proof (esc_length c). lia.
Qed.

Lemma plain_flags n : 0 < n < 64 -> (n =? 0) = false /\ Z.land n NS_CMPRSFLGS = 0.
Proof. intros Hn. split; [lia|]. destruct (flag_bits n ltac:(lia)) as [[_ ->]|[[? _]|[[? _]|[? _]]]]; lia || done. Qed.

(** A label, after the text of those before it. *)
Lemma ntop_step cs m lim f cp out lab : lab_plain lab -> at_off m cp lab ->
  exists t, t = out ++ (match out with [] => [] | _ => [0x2e] end) ++ lab_text lab /\
    (name_ntop_loop cs (S f) m cp lim out = CVal (inl EMSGSIZE) /\ lim <= Z.of_nat (length t) \/
     name_ntop_loop cs (S f) m cp lim out = name_ntop_loop cs f m (cp + Z.of_nat (length lab)) lim t).
Proof.
  intros Hp Ha. pose proof (lab_text_length lab Hp) as Htl. pose proof (labellen_ok m cp lab Ha (lab_plain_ok lab Hp)) as Hll.
  destruct Hp as (n & d & -> & Hn & Hlen & _). destruct (plain_flags n Hn) as [E0 Ef]. eexists. split; [done|].
  cbn [name_ntop_loop]. rewrite (at_off_head m cp n d Ha). cbn [mbind cres_bind]. rewrite E0, Ef. change (0 =? NS_CMPRSFLGS) with false. cbv iota.
  replace (cp + 1 - 1) with cp by lia. rewrite Hll. cbn [length mbind cres_bind] in *.
  set (dot := match out with [] => [] | _ => [0x2e] end).
  assert ((match out with [] => CVal (inr out) | _ => emit_text lim out [0x2e] end) =
          CVal (if (Z.of_nat (length (out ++ dot)) <=? lim) || (length out =? 0)%nat then inr (out ++ dot) else inl EMSGSIZE)) as ->.
  { unfold dot. destruct out as [|o out]; [cbn [app length Nat.eqb]; by rewrite orb_true_r|].
    cbn [length Nat.eqb]. rewrite orb_false_r. by apply emit_fits. }
  destruct ((Z.of_nat (length (out ++ dot)) <=? lim) || (length out =? 0)%nat) eqn:E; rewrite ?ebind_inr, ?ebind_inl.
  2: { zbool. left. split; [done|]. rewrite app_assoc, length_app. lia. }
  unfold eguard. zif. rewrite !ebind_inr.
  destruct (Z.leb_spec lim (Z.of_nat (length (out ++ dot)) + (Z.of_nat (S (length d)) - 1))) as [H|H]; cbn [negb]; rewrite ?ebind_inr, ?ebind_inl.
  { left. split; [done|]. rewrite app_assoc, length_app. lia. }
  change (0 =? NS_TYPE_ELT) with false. cbv iota. replace (Z.to_nat (Z.of_nat (S (length d)) - 1)) with (length d) by lia.
  destruct (ntop_chars_fits m lim d (cp + 1) (out ++ dot)) as (r & -> & [->|[-> Hr]]); [by apply (at_off_app m cp [n] d) in Ha as [_ Ha]| |].
  - right. rewrite ebind_inr, <- app_assoc. f_equal. lia.
  - left. rewrite ebind_inl. rewrite <- app_assoc in Hr. done.
Qed.

Lemma name_ntop_loop_fits cs m lim labs : Forall lab_plain labs -> forall f cp out, at_off m cp (wire labs) -> (length labs < f)%nat -> out <> [] ->
  exists r, name_ntop_loop cs f m cp lim out = CVal r /\ text_fits lim (out ++ tail_text labs) r.
Proof.
  unfold wire. induction 1 as [|lab labs Hp _ IH]; intros f cp out Ha Hf Hne; cbn [concat app length] in *;
    (destruct f as [|f]; [lia|]).
  - cbn [name_ntop_loop]. rewrite (at_off_head m cp 0 []) by done. eexists. split; [done|]. left. by rewrite app_nil_r.
  - rewrite <- app_assoc in Ha. apply at_off_app in Ha as [Ha Hr].
    destruct (ntop_step cs m lim f cp out lab Hp Ha) as (t & Et & H). unfold tail_text. cbn [map concat]. fold (tail_text labs).
    assert (out ++ (0x2e :: lab_text lab) ++ tail_text labs = t ++ tail_text labs) as ->.
    { rewrite Et. destruct out; [done|]. by rewrite <- !app_assoc. }
    destruct H as [[-> Hl]| ->].
    + eexists. split; [done|]. right. split; [done|]. rewrite length_app. lia.
    + apply IH; [done|lia|]. rewrite Et. by destruct out.
Qed.

Lemma at_off_wire_length m cp labs : Forall lab_plain labs -> at_off m cp (wire labs) -> (length labs < length m)%nat.
Proof.
  intros Hp Ha. apply at_off_bound in Ha. enough (length labs < length (wire labs))%nat by lia. clear Ha.
  unfold wire. rewrite length_app. cbn [length]. induction Hp as [|lab labs Hp _ IH]; [cbn; lia|].
  apply lab_plain_ok, lab_ok_length in Hp. cbn [concat length]. rewrite length_app. lia.
Qed.

Lemma lab_text_cons lab : lab_plain lab -> exists c t, lab_text lab = c :: t /\ c <> 0 /\ c <> 0x2e.
Proof.
  intros (n & d & -> & Hn & Hl & _). destruct d as [|c d]; [cbn in Hl; lia|]. unfold lab_text, esc. cbn [tail map concat].
  destruct (special c) eqn:Es; [by do 2 eexists|]. destruct (printable c) eqn:Ep; cbn [negb]; [|by do 2 eexists].
  do 2 eexists. split; [done|]. unfold printable in Ep. zbool. split; [lia|]. intros ->. done.
Qed.

(** ns_name_ntop of a name of bytes. *)
Lemma ns_name_ntop_text cs labs rest dstsiz : Forall lab_plain labs ->
  ns_name_ntop cs (wire labs ++ rest) 0 dstsiz =
  CVal (if Z.of_nat (length (name_text labs)) + 1 <=? dstsiz then inr (name_text labs ++ [0]) else inl EMSGSIZE).
Proof.
  intros Hp. set (m := wire labs ++ rest). assert (at_off m 0 (wire labs)) as Ha by by exists [], rest.
  pose proof (at_off_wire_length m 0 labs Hp Ha) as Hlen. unfold ns_name_ntop.
  assert (forall t, t <> [] -> forall r, text_fits dstsiz t r ->
    ebind (CVal r) (fun out => out ?← (match out with [] => emit_text dstsiz out [0x2e] | _ => CVal (inr out) end); emit_text dstsiz out [0]) =
    CVal (if Z.of_nat (length t) + 1 <=? dstsiz then inr (t ++ [0]) else inl EMSGSIZE)) as Hend.
  { intros [|c t] Hne r [->|[-> Hr]]; [done..| |]; rewrite ?ebind_inr, ?ebind_inl; [|by zif].
    rewrite emit_fits by done. rewrite length_app. cbn [length]. by replace (Z.of_nat (S (length t) + 1)) with (Z.of_nat (S (length t)) + 1) by lia. }
  destruct Hp as [|lab labs Hp Hps].
  - cbn [name_ntop_loop]. rewrite (at_off_head m 0 0 []) by done. cbn [mbind cres_bind Z.eqb]. rewrite ebind_inr, !emit_fits by done.
    cbn [app length name_text]. change (Z.of_nat 1) with 1. change (Z.of_nat 2) with 2. change (1 + 1) with 2.
    destruct (Z.leb_spec 1 dstsiz); rewrite ?ebind_inr, ?ebind_inl; [|by zif]. rewrite emit_fits by done. done.
  - unfold wire in Ha. cbn [concat] in Ha. rewrite <- app_assoc in Ha. apply at_off_app in Ha as [Ha Hr]. cbn [length] in Hlen.
    destruct (ntop_step cs m dstsiz (length m) 0 [] lab Hp Ha) as (t & Et & H). cbn [app] in Et. cbn [name_text]. rewrite <- Et.
    destruct (lab_text_cons lab Hp) as (c & t' & Ect & _). assert (t <> []) as Hne by (rewrite Et, Ect; done).
    destruct H as [[-> Hl]| ->].
    + apply (Hend (t ++ tail_text labs)); [by destruct t|]. right. split; [done|]. rewrite length_app. lia.
    + destruct (name_ntop_loop_fits cs m dstsiz labs Hps (length m) (0 + Z.of_nat (length lab)) t) as (r & -> & Hf); [done|lia|done|].
      apply Hend; [by destruct t|done].
Qed.

(** ** Parsing the text of a name *)

Lemma emit_ok lim out l : l <> [] -> Z.of_nat (length (out ++ l)) <= lim -> emit_text lim out l = CVal (inr (out ++ l)).
Proof. intros Hl Hb. rewrite emit_fits by done. by zif. Qed.


(** An octet of a label. *)
Lemma pton_esc src dstsiz label c fuel p out : 0 <= c < 256 -> at_off src p (esc c) -> Z.of_nat (length out) + 1 <= dstsiz ->
  (length (esc c) < fuel)%nat ->
  exists f, (fuel <= f + length (esc c))%nat /\
    name_pton_loop fuel src p dstsiz label out false = name_pton_loop f src (p + Z.of_nat (length (esc c))) dstsiz label (out ++ [c]) false.
Proof.
  intros Hc Ha Hb Hf. assert (forall l, length l = 1%nat -> Z.of_nat (length (out ++ l)) <= dstsiz) as Hroom by (intros l Hl; rewrite length_app; lia).
  unfold esc in *. destruct (special c) eqn:Es; [|destruct (printable c) eqn:Ep]; cbn [negb length] in *.
  - destruct fuel as [|[|f]]; [lia..|]. exists f. split; [lia|]. cbn [name_pton_loop].
    rewrite (at_off_head src p 0x5c [c] Ha). apply (at_off_app src p [0x5c] [c]) in Ha as [_ Ha].
    change (Z.of_nat (length [0x5c])) with 1 in Ha. cbn [mbind cres_bind].
    change (0x5c =? 0) with false. rewrite Z.eqb_refl. cbv iota. rewrite (at_off_head src _ c [] Ha). cbn [mbind cres_bind].
    assert ((c =? 0) = false /\ (c =? 0x5b) = false /\ decimal c = false) as (-> & -> & ->).
    { unfold special in Es. rewrite !orb_true_iff, !Z.eqb_eq in Es. destruct_or! Es; subst; done. }
    rewrite emit_ok by (done || by apply Hroom). rewrite ebind_inr. rewrite u8_small by lia. f_equal. lia.
  - destruct fuel as [|f]; [lia|]. exists f. split; [lia|]. cbn [name_pton_loop]. rewrite (at_off_head src p c [] Ha). cbn [mbind cres_bind].
    unfold printable in Ep. zbool. unfold special in Es. rewrite !orb_false_iff in Es. destruct_and! Es. zbool. repeat zif.
    rewrite emit_ok by (done || by apply Hroom). by rewrite ebind_inr.
  - destruct fuel as [|[|f]]; [lia..|]. exists f. split; [lia|]. cbn [name_pton_loop]. destruct (octet_digits c Hc) as [(H1 & H2 & H3) Hsum].
    destruct (digits_decimal _ H1) as (I1 & D1 & N1 & B1 & _). destruct (digits_decimal _ H2) as (I2 & D2 & _). destruct (digits_decimal _ H3) as (I3 & D3 & _).
    pose proof (at_off_get _ _ _ 1 _ Ha eq_refl) as G1. pose proof (at_off_get _ _ _ 2 _ Ha eq_refl) as G2. pose proof (at_off_get _ _ _ 3 _ Ha eq_refl) as G3.
    rewrite (at_off_head src p _ _ Ha). cbn [mbind cres_bind]. change (0x5c =? 0) with false. rewrite Z.eqb_refl. cbv iota.
    change (Z.of_nat 1) with 1 in G1. rewrite G1. cbn [mbind cres_bind]. rewrite (proj2 (Z.eqb_neq _ _) N1), (proj2 (Z.eqb_neq _ _) B1), I1.
    unfold pton_decimal. replace (p + 1 + 1) with (p + Z.of_nat 2) by lia. rewrite G2. cbn [mbind cres_bind]. rewrite I2. cbn [negb].
    replace (p + Z.of_nat 2 + 1) with (p + Z.of_nat 3) by lia. rewrite G3. cbn [mbind cres_bind]. rewrite I3. cbn [negb].
    rewrite D1, D2, D3, Hsum. zif. rewrite ebind_inr. rewrite emit_ok by (done || by apply Hroom). rewrite ebind_inr. f_equal. lia.
Qed.

(** The octets of a label. *)
Lemma pton_chars src dstsiz label d : octets d -> forall fuel p out, at_off src p (concat (map esc d)) ->
  Z.of_nat (length out + length d) <= dstsiz -> (length (concat (map esc d)) < fuel)%nat ->
  exists f, (fuel <= f + length (concat (map esc d)))%nat /\
    name_pton_loop fuel src p dstsiz label out false =
    name_pton_loop f src (p + Z.of_nat (length (concat (map esc d)))) dstsiz label (out ++ d) false.
Proof.
  induction d as [|c d IH]; intros Ho fuel p out Ha Hb Hf; cbn [map concat length] in *.
  { exists fuel. split; [lia|]. by rewrite app_nil_r, Z.add_0_r. }
  apply at_off_app in Ha as [Ha Hd]. rewrite length_app in *.
  destruct (pton_esc src dstsiz label c fuel p out) as (f & Hf1 & ->); [apply Ho; left|done|lia|lia|].
  destruct (IH (fun x Hx => Ho x (list_elem_of_further _ _ _ Hx)) f (p + Z.of_nat (length (esc c))) (out ++ [c])) as (f' & Hf' & ->);
    [done|rewrite length_app; cbn [length]; lia|lia|].
  exists f'. split; [lia|]. rewrite <- app_assoc. f_equal. lia.
Qed.

(** The label byte of a label that was read. *)
Lemma set_label_lab o n d : 0 < n < 64 -> Z.of_nat (length d) = n -> set_label (o ++ 0 :: d) (Z.of_nat (length o)) n = o ++ n :: d.
Proof.
  intros Hn Hd. unfold set_label. rewrite Nat2Z.id. rewrite u8_small by lia. by rewrite insert_app_r_alt, Nat.sub_diag by lia.
Qed.

Lemma label_small n : 0 < n < 64 -> (Z.land n NS_CMPRSFLGS =? 0) = true.
Proof. intros Hn. by destruct (plain_flags n Hn) as [_ ->]. Qed.

(** The end of the text, with or without a final dot, and what ns_name_pton returns for it. *)
Definition text_end (fin : list Z) (fq : Z) : Prop := fin = [0] /\ fq = 0 \/ fin = [0x2e; 0] /\ fq = 1.

Lemma pton_end src dstsiz fuel p o n d fin fq : at_off src p fin -> text_end fin fq -> 0 < n < 64 -> Z.of_nat (length d) = n ->
  Z.of_nat (length o + length (n :: d)) + 1 <= Z.min dstsiz NS_MAXCDNAME ->
  name_pton_loop (S fuel) src p dstsiz (Z.of_nat (length o)) (o ++ 0 :: d) false = CVal (inr (fq, o ++ (n :: d) ++ [0])).
Proof.
  intros Ha Hfin Hn Hd Hb. cbn [name_pton_loop]. pose proof (label_small n Hn) as Hsm.
  assert (Z.of_nat (length (o ++ 0 :: d)) - Z.of_nat (length o) - 1 = n) as Hc by (rewrite length_app; cbn [length]; lia).
  assert (emit_text dstsiz (o ++ n :: d) [0] = CVal (inr (o ++ (n :: d) ++ [0]))) as He.
  { rewrite emit_ok; [by rewrite <- app_assoc|done|]. rewrite !length_app. cbn [length] in *. lia. }
  assert ((NS_MAXCDNAME <? Z.of_nat (length (o ++ (n :: d) ++ [0]))) = false) as Hm by (apply Z.ltb_ge; rewrite !length_app; cbn [length] in *; lia).
  cbn [length] in Hb. destruct Hfin as [[-> ->]|[-> ->]].
  - rewrite (at_off_head src p 0 []) by done. cbn [mbind cres_bind Z.eqb]. rewrite Hc, Hsm. unfold pton_done, eguard. rewrite ebind_inr. zif.
    rewrite ebind_inr, set_label_lab by done. zif. by rewrite He, ebind_inr, Hm.
  - rewrite (at_off_head src p 0x2e [0]) by done. cbn [mbind cres_bind]. change (0x2e =? 0) with false. change (0x2e =? 0x5c) with false.
    rewrite Z.eqb_refl. cbv iota. unfold pton_dot, eguard. rewrite Hc, Hsm, ebind_inr. zif. rewrite ebind_inr, set_label_lab by done.
    assert (aget src (p + 1) = CVal 0) as -> by (apply (at_off_get src p _ 1 0 Ha); done). cbn [mbind cres_bind]. change (0 =? 0) with true. cbv iota.
    rewrite (proj2 (Z.eqb_neq n 0)) by lia. rewrite He, ebind_inr, Hm. cbn [negb]. by rewrite !ebind_inr.
Qed.

(** A dot before another label. *)
Lemma pton_next src dstsiz fuel p o n d c t : at_off src p (0x2e :: c :: t) -> c <> 0 -> c <> 0x2e -> 0 < n < 64 -> Z.of_nat (length d) = n ->
  Z.of_nat (length o) < dstsiz ->
  name_pton_loop (S fuel) src p dstsiz (Z.of_nat (length o)) (o ++ 0 :: d) false =
  name_pton_loop fuel src (p + 1) dstsiz (Z.of_nat (length (o ++ n :: d))) ((o ++ n :: d) ++ [0]) false.
Proof.
  intros Ha Hc0 Hc Hn Hd Hb. cbn [name_pton_loop]. rewrite (at_off_head src p 0x2e _ Ha). cbn [mbind cres_bind].
  change (0x2e =? 0) with false. change (0x2e =? 0x5c) with false. rewrite Z.eqb_refl. cbv iota. unfold pton_dot.
  replace (Z.of_nat (length (o ++ 0 :: d)) - Z.of_nat (length o) - 1) with n by (rewrite length_app; cbn [length]; lia).
  unfold eguard. rewrite label_small by done. rewrite ebind_inr. zif. rewrite ebind_inr.
  assert (aget src (p + 1) = CVal c) as -> by (apply (at_off_get src p _ 1 c Ha); done). cbn [mbind cres_bind].
  rewrite set_label_lab by done. repeat zif. by rewrite ebind_inr.
Qed.

Lemma tail_text_cons lab labs : tail_text (lab :: labs) = 0x2e :: lab_text lab ++ tail_text labs.
Proof. done. Qed.

Lemma pton_labels src dstsiz labs fin fq : text_end fin fq -> Forall lab_plain labs -> forall lab, lab_plain lab -> forall fuel p o,
  at_off src p (lab_text lab ++ tail_text labs ++ fin) ->
  Z.of_nat (length o + length (wire (lab :: labs))) <= Z.min dstsiz NS_MAXCDNAME ->
  (length (lab_text lab ++ tail_text labs) < fuel)%nat ->
  name_pton_loop fuel src p dstsiz (Z.of_nat (length o)) (o ++ [0]) false = CVal (inr (fq, o ++ wire (lab :: labs))).
Proof.
  intros Hfin. unfold wire. induction 1 as [|lab2 labs Hp2 _ IH]; intros lab (n & d & -> & Hn & Hd & Ho) fuel p o Ha Hb Hf;
    apply at_off_app in Ha as [Ha Hr]; rewrite length_app in Hf; cbn [concat] in Hb; rewrite !length_app in Hb; cbn [length] in Hb;
    (destruct (pton_chars src dstsiz (Z.of_nat (length o)) d Ho fuel p (o ++ [0])) as (f & Hf' & ->);
      [done|rewrite length_app; cbn [length]; lia|unfold lab_text in Hf; cbn [tail] in Hf; lia|]);
    unfold lab_text in Hr, Hf; cbn [tail] in Hr, Hf; rewrite <- app_assoc; cbn [app]; (destruct f as [|f]; [cbn [length] in *; lia|]).
  - rewrite (pton_end src dstsiz f _ o n d fin fq Hr Hfin Hn Hd); [cbn [concat]; by rewrite app_nil_r|]. cbn [length concat app] in *. lia.
  - rewrite tail_text_cons in Hr, Hf. destruct (lab_text_cons lab2 Hp2) as (c & t & Et & Hc0 & Hc). rewrite Et in Hr. cbn [app] in Hr.
    rewrite (pton_next src dstsiz f _ o n d _ _ Hr Hc0 Hc Hn Hd) by lia.
    apply (at_off_app src _ [0x2e]) in Hr as [_ Hr]. cbn [length] in Hr, Hf. change (Z.of_nat 1) with 1 in Hr.
    rewrite (IH lab2 Hp2); [cbn [concat]; by rewrite <- !app_assoc| | |].
    + rewrite Et. by rewrite <- app_assoc in Hr.
    + rewrite length_app. cbn [concat length]. rewrite !length_app in *. cbn [length] in *. rewrite ?length_app in *. lia.
    + lia.
Qed.

(** ns_name_pton of the text of a name, which may have a final dot. *)
Lemma ns_name_pton_end lab labs fin fq rest dstsiz : text_end fin fq -> Forall lab_plain (lab :: labs) ->
  Z.of_nat (length (wire (lab :: labs))) <= Z.min dstsiz NS_MAXCDNAME ->
  ns_name_pton (name_text (lab :: labs) ++ fin ++ rest) dstsiz = CVal (inr (fq, wire (lab :: labs))).
Proof.
  intros Hfin Hp Hb. apply Forall_cons in Hp as [Hp Hps]. unfold ns_name_pton.
  rewrite (pton_labels _ dstsiz labs fin fq Hfin Hps lab Hp _ 0 []); [done| |done|].
  - exists [], rest. cbn [name_text]. by rewrite <- !app_assoc.
  - cbn [name_text]. rewrite !length_app. lia.
Qed.

Lemma ns_name_pton_text labs rest dstsiz : Forall lab_plain labs -> Z.of_nat (length (wire labs)) <= Z.min dstsiz NS_MAXCDNAME ->
  ns_name_pton (name_text labs ++ 0 :: rest) dstsiz = CVal (inr (match labs with [] => 1 | _ => 0 end, wire labs)).
Proof.
  intros Hp Hb. destruct Hp as [|lab labs Hp Hps].
  - unfold ns_name_pton. set (src := name_text [] ++ 0 :: rest). assert (at_off src 0 [0x2e; 0]) as Ha by by exists [], rest.
    change (Z.of_nat (length (wire []))) with 1 in Hb. cbn [name_pton_loop]. rewrite (at_off_head src 0 _ _ Ha). cbn [mbind cres_bind].
    change (0x2e =? 0) with false. change (0x2e =? 0x5c) with false. change (0x2e =? 0x2e) with true. cbv iota. unfold pton_dot, eguard.
    change (Z.of_nat (length [0]) - 0 - 1) with 0. change (Z.land 0 NS_CMPRSFLGS =? 0) with true. cbv iota. rewrite ebind_inr. rewrite (proj2 (Z.leb_gt dstsiz 0)) by lia. cbn [negb]. cbv iota. rewrite ebind_inr.
    assert (aget src (0 + 1) = CVal 0) as -> by (apply (at_off_get src 0 _ 1 0 Ha); done). done.
  - apply (ns_name_pton_end lab labs [0] 0 rest); [by left|by constructor|done].
Qed.

(** ** Text, up to case *)

Lemma mklower_eq c c' : mklower c = mklower c' -> c = c' \/ esc c = [c] /\ esc c' = [c'].
Proof.
  assert (forall x, 0x41 <= x <= 0x5a \/ 0x61 <= x <= 0x7a -> esc x = [x]) as Hl.
  { intros x Hx. unfold esc, special, printable. repeat zif. done. }
  unfold mklower. intros H.
  destruct ((0x41 <=? c) && (c <=? 0x5a)) eqn:E1, ((0x41 <=? c') && (c' <=? 0x5a)) eqn:E2;
    rewrite ?andb_true_iff, ?andb_false_iff, ?Z.leb_le, ?Z.leb_gt in *; [left; lia|right|right|by left].
  all: split; apply Hl; lia.
Qed.

Lemma esc_mklower c c' : mklower c = mklower c' -> map mklower (esc c) = map mklower (esc c').
Proof. intros H. destruct (mklower_eq c c' H) as [->|[-> ->]]; [done|]. cbn. by rewrite H. Qed.

Lemma bytes_mklower d : forall d', map mklower d = map mklower d' ->
  map mklower (concat (map esc d)) = map mklower (concat (map esc d')).
Proof.
  induction d as [|c d IH]; intros [|c' d'] H; try done. cbn [map] in H. injection H as Hc H.
  cbn [map concat]. rewrite !map_app. f_equal; [by apply esc_mklower|by apply IH].
Qed.

Lemma lab_text_mklower lab lab' : map mklower lab = map mklower lab' -> map mklower (lab_text lab) = map mklower (lab_text lab').
Proof. destruct lab, lab'; try done. cbn [map]. intros [= _ H]. by apply bytes_mklower. Qed.

Lemma ceq_inv lab labs labs' : ceq (lab :: labs) labs' -> exists lab' labs2, labs' = lab' :: labs2 /\ map mklower lab = map mklower lab' /\ ceq labs labs2.
Proof. destruct labs' as [|lab' labs2]; [done|]. unfold ceq. cbn [map]. intros [= H1 H2]. by exists lab', labs2. Qed.

Lemma tail_text_mklower labs : forall labs', ceq labs labs' -> map mklower (tail_text labs) = map mklower (tail_text labs').
Proof.
  induction labs as [|lab labs IH]; intros labs' H; [by destruct labs'|].
  apply ceq_inv in H as (lab' & labs2 & -> & H1 & H2). rewrite !tail_text_cons. cbn [map]. rewrite !map_app.
  rewrite (lab_text_mklower _ _ H1). by rewrite (IH labs2 H2).
Qed.

Lemma name_text_mklower labs labs' : ceq labs labs' -> map mklower (name_text labs) = map mklower (name_text labs').
Proof.
  destruct labs as [|lab labs]; intros H; [by destruct labs'|].
  apply ceq_inv in H as (lab' & labs2 & -> & H1 & H2). cbn [name_text]. rewrite !map_app.
  by rewrite (lab_text_mklower _ _ H1), (tail_text_mklower _ _ H2).
Qed.

(** Labels equal up to case to labels of bytes are labels of bytes. *)
Lemma mklower_range x x' : mklower x = mklower x' -> (0 <= x < 256 -> 0 <= x' < 256) /\ (x < 64 -> x = x').
Proof. unfold mklower. repeat bcase; cbn [andb]; lia. Qed.

Lemma octets_mklower d : forall d', map mklower d = map mklower d' -> octets d -> octets d'.
Proof.
  induction d as [|c d IH]; intros [|c' d'] H Ho; try done. cbn [map] in H. injection H as Hc H.
  intros x [->|Hx]%elem_of_cons; [apply (mklower_range c c' Hc), Ho; left|].
  apply (IH d' H); [|done]. intros y Hy. apply Ho. by right.
Qed.

Lemma ceq_plain labs : Forall lab_plain labs -> forall labs', ceq labs labs' -> Forall lab_plain labs'.
Proof.
  induction 1 as [|lab labs (n & d & -> & Hn & Hl & Ho) _ IH]; intros labs' H; [by destruct labs'|].
  apply ceq_inv in H as (lab' & labs2 & -> & H1 & H2). constructor; [|by apply IH].
  destruct lab' as [|n' d']; [done|]. cbn [map] in H1. injection H1 as Hn' Hd.
  exists n', d'. destruct (mklower_range n n' Hn') as [_ Hnn]. specialize (Hnn ltac:(lia)). subst n'. split_and!; [done|lia|lia| |by eapply octets_mklower].
  apply (f_equal length) in Hd. rewrite !length_map in Hd. lia.
Qed.

(** The text has no NUL. *)
Lemma esc_nonzero c : 0 <= c < 256 -> 0 ∉ esc c.
Proof.
  intros Hc. unfold esc. destruct (special c) eqn:Es.
  - unfold special in Es. rewrite !orb_true_iff, !Z.eqb_eq in Es. rewrite !not_elem_of_cons. destruct_or! Es; subst; split_and!; try done; apply not_elem_of_nil.
  - destruct (printable c) eqn:Ep; cbn [negb]; rewrite !not_elem_of_cons.
    + unfold printable in Ep. zbool. split; [lia|apply not_elem_of_nil].
    + destruct (octet_digits c Hc) as [(H1 & H2 & H3) _]. unfold digits. split_and!; try lia; try apply not_elem_of_nil.
Qed.

Lemma lab_text_nonzero lab : lab_plain lab -> 0 ∉ lab_text lab.
Proof.
  intros (n & d & -> & _ & _ & Ho). unfold lab_text. cbn [tail]. induction d as [|c d IH]; [apply not_elem_of_nil|].
  cbn [map concat]. rewrite not_elem_of_app. split; [apply esc_nonzero, Ho; left|apply IH]. intros x Hx. apply Ho. by right.
Qed.

Lemma name_text_nonzero labs : Forall lab_plain labs -> 0 ∉ name_text labs.
Proof.
  assert (forall l, Forall lab_plain l -> 0 ∉ tail_text l) as Ht.
  { induction 1 as [|lab l Hp _ IH]; [apply not_elem_of_nil|]. rewrite tail_text_cons, not_elem_of_cons, not_elem_of_app.
    split_and!; [done|by apply lab_text_nonzero|done]. }
  intros [|lab l Hp Hps]; cbn [name_text]; [by apply not_elem_of_cons; split; [|apply not_elem_of_nil]|].
  rewrite not_elem_of_app. split; [by apply lab_text_nonzero|by apply Ht].
Qed.

Lemma ceq_text_length labs labs' : ceq labs labs' -> length (name_text labs) = length (name_text labs').
Proof. intros H. apply name_text_mklower, (f_equal length) in H. by rewrite !length_map in H. Qed.

(** dn_expand of a name in the message. *)
Lemma dn_expand_decodes cs msg x more dstsiz p labs c t : decodes msg p labs c t -> t <= Z.of_nat (length msg) -> Forall lab_plain labs ->
  Z.of_nat (length (wire labs)) <= NS_MAXCDNAME -> Z.of_nat (length (name_text labs)) < dstsiz ->
  exists junk, dn_expand cs (msg ++ x :: more) (Z.of_nat (length msg)) p dstsiz =
    CVal (inr (c, match labs with [] => [] | _ => name_text labs end ++ 0 :: junk)).
Proof.
  intros Hd Ht Hp Hw Htx. pose proof (decodes_pos _ _ _ _ _ Hd) as [? ?]. unfold dn_expand, ns_name_uncompress.
  rewrite (ns_name_unpack_decodes msg x more p NS_MAXCDNAME ltac:(lia) labs c t Hd Ht Hw), ebind_inr. cbn [snd fst].
  rewrite <- (app_nil_r (wire labs)), (ns_name_ntop_text cs labs [] dstsiz Hp). zif. rewrite !ebind_inr.
  destruct Hp as [|lab labs Hp Hps]; [exists [0]; cbn; zif; done|].
  exists []. destruct (lab_text_cons lab Hp) as (ch & tx & Et & _ & Hc). cbn [name_text] in *. rewrite Et. cbn [app].
  zif. by rewrite (proj2 (Z.eqb_neq ch 0x2e) Hc).
Qed.

Lemma dn_expand_name cs msg x more dstsiz s p labs e : name_at msg s p labs e -> Forall lab_plain labs ->
  Z.of_nat (length (wire labs)) <= NS_MAXCDNAME -> Z.of_nat (length (name_text labs)) < dstsiz ->
  exists junk, dn_expand cs (msg ++ x :: more) (Z.of_nat (length msg)) p dstsiz =
    CVal (inr (e - p, match labs with [] => [] | _ => name_text labs end ++ 0 :: junk)).
Proof.
  intros Hn Hp Hw Ht. pose proof (name_at_bound _ _ _ _ _ Hn). pose proof (name_at_start _ _ _ _ _ Hn).
  destruct (name_at_decodes _ _ _ _ _ Hn) as (t & Hd & Hle). apply (dn_expand_decodes cs msg x more dstsiz p labs (e - p) t); done || lia.
Qed.

(** ** Any name

    Every name of the message is printed or does not fit, bit strings included. *)

Lemma sprintf_ok lim out text : Z.of_nat (length out + length text) + 1 <= lim -> sprintf lim out text = CVal (out ++ text).
Proof. intros H. unfold sprintf. by zif. Qed.

Lemma fmt_02x_length v : (2 <= length (fmt_02x v) <= 3)%nat /\ (v < 256 -> length (fmt_02x v) = 2%nat).
Proof. unfold fmt_02x. destruct (Z.ltb_spec v 256); cbn; lia. Qed.

Lemma decode_bytes_ok m lim l : octets l -> forall cp out, at_off m cp l -> Z.of_nat (length out + 2 * length l) + 1 <= lim ->
  exists out', decode_bytes (length l) m cp lim out = CVal out' /\ length out' = (length out + 2 * length l)%nat.
Proof.
  induction l as [|b l IH]; intros Ho cp out Ha Hl; cbn [decode_bytes length] in *.
  - eexists. split; [done|]. lia.
  - apply (at_off_app m cp [b] l) in Ha as [Hb Ha]. rewrite (at_off_head m cp b []) by done. cbn [mbind cres_bind].
    destruct (fmt_02x_length b) as [_ Hf]. specialize (Hf ltac:(apply Ho; left)).
    rewrite sprintf_ok by (rewrite Hf; lia). cbn [mbind cres_bind].
    destruct (IH ltac:(intros y Hy; apply Ho; by right) (cp + 1) (out ++ fmt_02x b)) as (out' & -> & Hlen); [done|rewrite length_app, Hf; lia|].
    exists out'. split; [done|]. rewrite Hlen, length_app, Hf. lia.
Qed.

Lemma fmt_d_digits b : length (fmt_d b) = Z.to_nat (if 99 <? b then 3 else if 9 <? b then 2 else 1).
Proof. unfold fmt_d. destruct (Z.ltb_spec b 100), (Z.ltb_spec b 10), (Z.ltb_spec 99 b), (Z.ltb_spec 9 b); cbn; lia. Qed.

(** decode_bitstring of a bit string of [blen] bits. *)
Lemma decode_bitstring_any cm m cp lim out b r : at_off m cp (b :: r) -> octets (b :: r) ->
  Z.of_nat (length r) = ((if b =? 0 then 256 else b) + 7) / 8 ->
  exists res, decode_bitstring cm m cp lim out = CVal res /\
    match res with Some (cp', out') => cp' = cp + Z.of_nat (length (b :: r)) /\ (length out < length out')%nat | None => True end.
Proof.
  intros Ha Ho Hr. unfold decode_bitstring. rewrite (at_off_head m cp b r Ha). cbn [mbind cres_bind].
  assert (0 <= b < 256) as Hb by (apply Ho; left). set (blen := if b =? 0 then 256 else b) in *.
  assert (1 <= blen <= 256) as Hbl by (unfold blen; destruct (Z.eqb_spec b 0); lia).
  pose proof (fmt_d_digits blen) as Hd. set (k := if 99 <? blen then 3 else if 9 <? blen then 2 else 1) in *.
  assert (1 <= k <= 3) as Hk by (unfold k; destruct (99 <? blen), (9 <? blen); lia).
  match goal with |- context [if lim <=? ?e then _ else _] => destruct (Z.leb_spec lim e) as [|Hlim]; [by eexists|] end.
  assert (at_off m (cp + 1) r /\ octets r) as [Har Hor].
  { split; [by apply (at_off_app m cp [b] r) in Ha as [_ ?]|]. intros y Hy. apply Ho. by right. }
  rewrite sprintf_ok by (cbn [length]; zdm). cbn [mbind cres_bind].
  set (q := Z.to_nat (blen / 8)). assert (q <= length r)%nat as Hq by (unfold q; zdm).
  rewrite <- (take_drop q r) in Har. apply at_off_app in Har as [Hf Hlast]. rewrite length_take_le in Hlast by done.
  destruct (decode_bytes_ok m lim (take q r)) with (cp := cp + 1) (out := out ++ [0x5c; 0x5b; 0x78]) as (o1 & E1 & L1);
    [intros y Hy; apply Hor; rewrite <- (take_drop q r), elem_of_app; by left|done|
     rewrite length_app, length_take_le by done; cbn [length]; unfold q; zdm|].
  rewrite length_take_le in E1, L1 by done. rewrite E1. cbn [mbind cres_bind]. rewrite length_app in L1. cbn [length] in L1.
  assert (Z.of_nat q = blen / 8) as Eq by (unfold q; zdm). rewrite <- Eq.
  set (d := blen mod 8). assert (blen = 8 * Z.of_nat q + d /\ 0 <= d < 8) as [Ebl Hdr] by (unfold d; zdm).
  assert (0 < d -> exists tc, aget m (cp + 1 + Z.of_nat q) = CVal tc) as Htc.
  { intros Hd0. destruct (drop q r) as [|tc rr] eqn:Edr.
    - apply (f_equal (@length Z)) in Edr. rewrite length_drop in Edr. cbn in Edr. zdm.
    - exists tc. by apply (at_off_head m _ tc rr). }
  assert (forall n o2, n = (if 0 <? d then 1 else 0) -> (length o1 <= length o2)%nat -> Z.of_nat (length o2) <= Z.of_nat (length o1) + (if 4 <? d then 3 else if 0 <? d then 1 else 0) ->
    exists res, (out ← sprintf lim o2 (0x2f :: fmt_d blen ++ [0x5d]); CVal (Some (cp + 1 + Z.of_nat q + n, out))) = CVal res /\
    match res with Some (cp', out') => cp' = cp + Z.of_nat (length (b :: r)) /\ (length out < length out')%nat | None => True end) as Hend.
  { intros n o2 En Ho2 Hl2. rewrite sprintf_ok.
    - eexists. split; [done|]. cbn [length]. rewrite !length_app. split; [|cbn [length]; lia]. rewrite En. destruct (Z.ltb_spec 0 d); zdm.
    - cbn [length]. rewrite length_app, Hd. cbn [length]. destruct (Z.ltb_spec 4 d), (Z.ltb_spec 0 d); zdm. }
  destruct (Z.ltb_spec 4 d).
  - destruct (Htc ltac:(lia)) as [tc ->]. cbn [mbind cres_bind]. match goal with |- context [sprintf lim o1 ?t] => destruct (fmt_02x_length (Z.land (char cm tc) (Z.shiftl 255 (8 - d)))) as [H2 _] end.
    rewrite sprintf_ok by zdm. cbn [mbind cres_bind]. apply Hend; [by zif|rewrite length_app; lia|rewrite length_app; lia].
  - destruct (Z.ltb_spec 0 d).
    + destruct (Htc ltac:(lia)) as [tc ->]. cbn [mbind cres_bind]. rewrite sprintf_ok by (cbn [length]; zdm). cbn [mbind cres_bind].
      apply Hend; [done|rewrite length_app; lia|rewrite length_app; cbn [length]; lia].
    + cbn [mbind cres_bind]. rewrite <- (Z.add_0_r (cp + 1 + Z.of_nat q)). apply Hend; [done|lia|lia].
Qed.

(** Labels with octets. *)
Definition lab_any (lab : list Z) : Prop := lab_ok lab /\ octets lab.

Lemma emit_any lim out l : l <> [] -> exists r, emit_text lim out l = CVal r /\ match r with inl e => e = EMSGSIZE | inr out' => out' = out ++ l end.
Proof. intros H. rewrite emit_fits by done. eexists. split; [done|]. by destruct (_ <=? _). Qed.

Lemma ntop_chars_any m lim d : forall cp out, at_off m cp d ->
  exists r, ntop_chars (length d) m cp lim out = CVal r /\ match r with inl e => e = EMSGSIZE | inr out' => (length out + length d <= length out')%nat end.
Proof.
  intros cp out Ha. destruct (ntop_chars_fits m lim d cp out Ha) as (r & -> & H). exists r. split; [done|].
  destruct H as [->|[-> _]]; [|done]. rewrite length_app. enough (length d <= length (concat (map esc d)))%nat by lia. clear.
  induction d as [|c d IH]; [done|]. cbn [map concat length]. rewrite length_app. pose proof (esc_length c). lia.
Qed.

Lemma name_ntop_loop_any cm m lim labs : Forall lab_any labs -> forall f cp out, at_off m cp (wire labs) -> (length labs < f)%nat ->
  exists r, name_ntop_loop cm f m cp lim out = CVal r /\ match r with inl e => e = EMSGSIZE | inr _ => True end.
Proof.
  unfold wire. induction 1 as [|lab labs [Hok Hoc] _ IH]; intros f cp out Ha Hf; cbn [concat app length] in *; (destruct f as [|f]; [lia|]); cbn [name_ntop_loop].
  - rewrite (at_off_head m cp 0 []) by done. by eexists.
  - rewrite <- app_assoc in Ha. apply at_off_app in Ha as [Ha Hr]. pose proof (labellen_ok m cp lab Ha Hok) as Hlen.
    destruct Hok as (n & d & -> & Hl). rewrite (at_off_head m cp n d Ha). cbn [mbind cres_bind]. replace (cp + 1 - 1) with cp by lia.
    assert (at_off m (cp + 1) d) as Had by (by apply (at_off_app m cp [n] d) in Ha as [_ ?]).
    assert (exists r, match out with [] => CVal (inr out) | _ => emit_text lim out [0x2e] end = CVal r /\ match r with inl e => e = EMSGSIZE | inr _ => True end) as (r & -> & Hr1).
    { destruct out; [by eexists|]. edestruct emit_any as (r & -> & H); [|by exists r; destruct r]. done. }
    assert (0 < n < 128 /\ (Z.land n NS_CMPRSFLGS =? NS_CMPRSFLGS) = false /\ (Z.land n NS_CMPRSFLGS =? NS_TYPE_ELT) = (64 <=? n)) as (Hn & E1 & E2).
    { destruct (lab_head n d) as [? ?]; [by exists n, d|]. destruct (flag_bits n) as [[? ->]|[[? ->]|[[? _]|[? _]]]]; try lia; (split; [lia|]); (split; [done|]); destruct (Z.leb_spec 64 n); done || lia. }
    zif. rewrite E1, E2. destruct r as [e|out1]; [rewrite ebind_inl; by eexists|]. rewrite ebind_inr, Hlen. cbn [mbind cres_bind length]. clear Hlen.
    unfold eguard. zif. rewrite ebind_inr. match goal with |- context [lim <=? ?e] => destruct (lim <=? e) end; cbn [negb]; rewrite ?ebind_inl, ?ebind_inr; [by eexists|].
    destruct Hl as [[Hn64 Hl]|[-> (b & r & -> & Hl)]].
    + zif. destruct (ntop_chars_any m lim d (cp + 1) out1 Had) as (r & Er & Hr2). replace (Z.to_nat (Z.of_nat (S (length d)) - 1)) with (length d) by lia.
      rewrite Er. destruct r as [e|out2]; [rewrite ebind_inl; by eexists|]. rewrite ebind_inr.
      replace (cp + 1 + (Z.of_nat (S (length d)) - 1)) with (cp + Z.of_nat (length (n :: d))) by (cbn [length]; lia). apply IH; [done|lia].
    + change (64 <=? DNS_LABELTYPE_BITSTRING) with true. change (DNS_LABELTYPE_BITSTRING =? DNS_LABELTYPE_BITSTRING) with true. cbv iota. rewrite ebind_inr.
      destruct (decode_bitstring_any cm m (cp + 1) lim out1 b r Had) as (res & -> & Hres); [intros y Hy; apply Hoc; by right|done|].
      cbn [mbind cres_bind]. destruct res as [[cp' out2]|]; [|by eexists]. destruct Hres as [-> _].
      replace (cp + 1 + Z.of_nat (length (b :: r))) with (cp + Z.of_nat (length (DNS_LABELTYPE_BITSTRING :: b :: r))) by (cbn [length]; lia).
      apply IH; [done|lia].
Qed.

Lemma decodes_any m p labs c t : octets m -> decodes m p labs c t -> Forall lab_any labs.
Proof.
  intros Ho. induction 1 as [|p lab labs c t Ha Hl _ IH|]; [constructor| |done]. constructor; [|done]. split; [done|].
  intros y Hy. destruct Ha as (pre & post & -> & _). apply Ho. rewrite !elem_of_app. by right; left.
Qed.

(** dn_expand of any octets: a name, with the number of octets that it takes, or an error. *)
Lemma dn_expand_any cm msg x rest p dstsiz : octets (msg ++ x :: rest) ->
  exists r, dn_expand cm (msg ++ x :: rest) (Z.of_nat (length msg)) p dstsiz = CVal r /\
    match r with
    | inl e => e = EMSGSIZE
    | inr (c, _) => exists labs t, decodes msg p labs c t /\ ns_name_unpack (msg ++ x :: rest) (Z.of_nat (length msg)) p NS_MAXCDNAME = CVal (inr (c, wire labs))
    end.
Proof.
  intros Ho. unfold dn_expand, ns_name_uncompress.
  destruct (unpack_spec msg x rest p NS_MAXCDNAME Ho ltac:(done)) as (r & E & Hr). rewrite E.
  destruct r as [e|[c out]]; [rewrite !ebind_inl; eexists; by destruct Hr|]. rewrite ebind_inr. cbn [snd fst].
  destruct Hr as (labs & t & -> & Hd & _ & Hc & _).
  assert (Forall lab_any labs) as Hl by (eapply decodes_any; [|done]; intros y Hy; apply Ho, elem_of_app; by left).
  unfold ns_name_ntop. destruct (name_ntop_loop_any cm (wire labs) dstsiz labs Hl (S (length (wire labs))) 0 []) as (r & -> & Hr).
  { exists [], []. by rewrite app_nil_r. }
  { unfold wire. rewrite length_app. clear -Hl. induction Hl as [|lab labs [Hok _] _ IH]; [cbn; lia|].
    apply lab_ok_length in Hok. cbn [concat length] in *. rewrite length_app. lia. }
  destruct r as [e|out]; [rewrite !ebind_inl; by eexists|]. rewrite ebind_inr.
  assert (exists r, match out with [] => emit_text dstsiz out [0x2e] | _ => CVal (inr out) end = CVal r /\ match r with inl e => e = EMSGSIZE | inr _ => True end) as (r & -> & Hr1).
  { destruct out; [|by eexists]. edestruct emit_any as (r & -> & H); [|by exists r; destruct r]. done. }
  destruct r as [e|out1]; [rewrite !ebind_inl; by eexists|]. rewrite ebind_inr.
  destruct (emit_any dstsiz out1 [0]) as (r & -> & Hr2); [done|]. destruct r as [e|out2]; [rewrite !ebind_inl; by eexists|]. rewrite !ebind_inr.
  eexists. split; [done|]. by exists labs, t.
Qed.

(** C26: A name printed by ns_name_ntop whose labels are bytes is packed by dn_comp into a message
    when it has at most 255 octets and the destination has a byte more than that; with an array of
    offsets of names that are in the message, the array is still one and what is written is
    not longer than the name.  dn_expand then gives the text back, up to the case of its
    letters (the root as the empty string), with the number of octets that were written,
    whatever follows in the message. *)
Theorem dn_comp_expand cs labs rest m dstsiz tab x more txtsiz :
  Forall lab_plain labs -> Z.of_nat (length (wire labs)) <= NS_MAXCDNAME -> tab_ok m tab ->
  Z.of_nat (length (wire labs)) < dstsiz < 2 ^ 31 -> Z.of_nat (length (name_text labs)) < txtsiz ->
  ns_name_ntop cs (wire labs) 0 txtsiz = CVal (inr (name_text labs ++ [0])) /\ 0 ∉ name_text labs /\
  exists out tab' text junk,
    dn_comp (name_text labs ++ 0 :: rest) m dstsiz tab = CVal (inr out, tab') /\
    tab_ok (m ++ out) tab' /\ (length out <= length (wire labs))%nat /\
    dn_expand cs ((m ++ out) ++ x :: more) (Z.of_nat (length (m ++ out))) (Z.of_nat (length m)) txtsiz =
      CVal (inr (Z.of_nat (length out), text ++ 0 :: junk)) /\
    map mklower text = map mklower (match labs with [] => [] | _ => name_text labs end).
Proof.
  intros Hp Hw Ht Hd Htx. rewrite <- (app_nil_r (wire labs)) at 1. rewrite (ns_name_ntop_text cs labs [] txtsiz Hp). zif.
  split; [done|]. split; [by apply name_text_nonzero|].
  assert (Forall lab_ok labs) as Hok by (eapply Forall_impl; [exact Hp|apply lab_plain_ok]).
  destruct (ns_name_pack_ok labs [] m dstsiz tab Hok Ht) as (r & tab' & Hpack & Hr). rewrite app_nil_r in Hpack.
  unfold dn_comp, ns_name_compress. rewrite ns_name_pton_text by (done || lia). cbn [mbind cres_bind].
  rewrite s32_small by lia. rewrite Hpack. destruct r as [e|out]; [lia|]. destruct Hr as (labs' & Hw' & Hc & _ & Hlen & Hm & Hn).
  destruct (dn_expand_name cs _ x more txtsiz _ _ labs' _ Hn) as (junk & He);
    [by eapply ceq_plain|rewrite <- (ceq_length _ _ Hc); lia|rewrite <- (ceq_text_length _ _ Hc); lia|].
  eexists out, tab', _, junk. split; [done|]. split; [by eapply tab_more_ok|]. split; [done|]. rewrite He.
  split; [rewrite length_app; do 3 f_equal; lia|].
  pose proof (name_text_mklower _ _ Hc). destruct labs, labs'; done.
Qed.

Lemma dn_comp_expand_witness :
  let labs := [[2; 0x46; 0x2e]; [1; 0x42]] in
  let m := [0; 0; 1; 0x62; 0] in
  name_text labs = [0x46; 0x5c; 0x2e; 0x2e; 0x42] /\
  dn_comp (name_text labs ++ [0]) m 100 (Some (mkTab [2] (Some 5))) = CVal (inr [2; 0x46; 0x2e; 0xc0; 2], Some (mkTab [2; 5] (Some 5))) /\
  ns_name_ntop false (wire labs) 0 50 = CVal (inr (name_text labs ++ [0])) /\ 0 ∉ name_text labs /\
  exists out tab' text junk,
    dn_comp (name_text labs ++ 0 :: []) m 100 (Some (mkTab [2] (Some 5))) = CVal (inr out, tab') /\
    tab_ok (m ++ out) tab' /\ (length out <= length (wire labs))%nat /\
    dn_expand false ((m ++ out) ++ 0 :: []) (Z.of_nat (length (m ++ out))) (Z.of_nat (length m)) 50 =
      CVal (inr (Z.of_nat (length out), text ++ 0 :: junk)) /\
    map mklower text = map mklower (name_text labs).
Proof.
  split; [reflexivity|]. split; [vm_compute; reflexivity|].
  apply (dn_comp_expand false [[2; 0x46; 0x2e]; [1; 0x42]] [] _ 100 (Some (mkTab [2] (Some 5))) 0 [] 50); [|unfold NS_MAXCDNAME; cbn; lia| |cbn; lia|cbn; lia].
  - repeat constructor; [exists 2, [0x46; 0x2e]|exists 1, [0x42]]; (split_and!; [done|done|done|done|]);
      intros y Hy; rewrite !elem_of_cons in Hy; destruct_or! Hy; subst; try lia; by apply not_elem_of_nil in Hy.
  - constructor; [|done]. exists 2, [[1; 0x62]], 5.
    apply na_label; [lia|by exists [0; 0], [0]|exists 1, [0x62]; split; [done|left; done]|].
    apply (na_root _ 2 4); [lia|]. by exists [0; 0; 1; 0x62], [].
Defined.

(** A bit string is written after what its label already has, so that the name that
    comes out is not one; a name that ends in a bit string and a dot is not called fully
    qualified; and a final dot does not matter elsewhere. *)
Lemma pton_bitstring_quirks :
  (* "a\[xff/8]" *)
  ns_name_pton [0x61; 0x5c; 0x5b; 0x78; 0x66; 0x66; 0x2f; 0x38; 0x5d; 0] 255 = CVal (inr (0, [0x41; 0x61; 8; 0xff; 0])) /\
  dn_comp [0x61; 0x5c; 0x5b; 0x78; 0x66; 0x66; 0x2f; 0x38; 0x5d; 0] [] 255 None = CUndef /\
  (* "\[xff/8]." and "a." *)
  ns_name_pton [0x5c; 0x5b; 0x78; 0x66; 0x66; 0x2f; 0x38; 0x5d; 0x2e; 0] 255 = CVal (inr (0, [0x41; 8; 0xff; 0])) /\
  ns_name_pton [0x61; 0x2e; 0] 255 = CVal (inr (1, [1; 0x61; 0])).
Proof. vm_compute. done. Qed.

(** Where char is signed, the last bits of a bit string are printed with the sign. *)
Lemma ntop_signed_char :
  ns_name_ntop false [0x41; 5; 0xf8; 0] 0 100 = CVal (inr [0x5c; 0x5b; 0x78; 0x66; 0x38; 0x2f; 0x35; 0x5d; 0]) /\
  ns_name_ntop true [0x41; 5; 0xf8; 0] 0 100 = CVal (inr [0x5c; 0x5b; 0x78; 0x37; 0x66; 0x38; 0x2f; 0x35; 0x5d; 0]).
Proof. vm_compute. done. Qed.
