(* ===== verification/NsParse.v ===== *)
(** * Messages of the name service: nameser/ns_parse.c and ns_netint.c

    A message is the list of the bytes that can be read from its start, with [eom] the end
    of the message in it, as in NsName.v.  ns_initparse finds the four sections;
    ns_parserr reads one record, with a cursor in the handle that goes on from the record
    before or starts again.  The sections that are found are the ones the octets have, and
    what is read of a record does not depend on what was read before. *)

From Stdlib Require Import ZArith Lia.
From stdpp Require Import base list numbers sets.
From S2P Require Import Prelude CMem Bytes NsName NsText.

Open Scope Z_scope.

Definition NS_INT16SZ : Z := 2.
Definition NS_INT32SZ : Z := 4.
Definition NS_MAXDNAME : Z := 1025.
Definition ns_s_qd : Z := 0.
Definition ns_s_max : Z := 4.

(** NS_GET16 and NS_GET32, NS_PUT16 and NS_PUT32: numbers in network order. *)
Definition ns_get16 (m : list Z) (p : Z) : cres Z :=
  b0 ← aget m p; b1 ← aget m (p + 1); CVal (Z.lor (Z.shiftl b0 8) b1).
Definition ns_get32 (m : list Z) (p : Z) : cres Z :=
  b0 ← aget m p; b1 ← aget m (p + 1); b2 ← aget m (p + 2); b3 ← aget m (p + 3);
  CVal (Z.lor (Z.lor (Z.lor (Z.shiftl b0 24) (Z.shiftl b1 16)) (Z.shiftl b2 8)) b3).
Definition ns_put16 (src : Z) : list Z := let t_s := u16 src in [u8 (Z.shiftr t_s 8); u8 t_s].
Definition ns_put32 (src : Z) : list Z :=
  let t_l := u32 src in [u8 (Z.shiftr t_l 24); u8 (Z.shiftr t_l 16); u8 (Z.shiftr t_l 8); u8 t_l].

(** The message as it is parsed; _msg and _eom are arguments here. *)
Record ns_msg := mkMsg {
  _id : Z; _flags : Z; _counts : list Z; _sections : list (option Z);
  _sect : Z; _rrnum : Z; _msg_ptr : option Z }.

Record ns_rr := mkRr { rr_name : list Z; rr_type : Z; rr_class : Z; rr_ttl : Z; rr_rdlength : Z; rr_rdata : option Z }.

(** The masks and shifts of the flags. *)
Definition _ns_flagdata : list (Z * Z) :=
  [(0x8000, 15); (0x7800, 11); (0x0400, 10); (0x0200, 9); (0x0100, 8); (0x0080, 7); (0x0040, 6); (0x0020, 5); (0x0010, 4);
   (0x000f, 0); (0, 0); (0, 0); (0, 0); (0, 0); (0, 0); (0, 0)].
Definition ns_msg_getflag (handle : ns_msg) (flag : Z) : cres Z :=
  f ← aget _ns_flagdata flag; CVal (Z.shiftr (u32 (Z.land (_flags handle) f.1)) f.2).

Definition setsection (msg : ns_msg) (sect : Z) : cres ns_msg :=
  if sect =? ns_s_max then CVal (mkMsg (_id msg) (_flags msg) (_counts msg) (_sections msg) sect (-1) None)
  else
    p ← aget (_sections msg) sect;
    CVal (mkMsg (_id msg) (_flags msg) (_counts msg) (_sections msg) sect 0 p).

(** The records of a section that are skipped: the pointer after them. *)
Fixpoint skiprr_loop (count : nat) (m : list Z) (eom section ptr : Z) : cres (Z + Z) :=
  match count with
  | O => CVal (inr ptr)
  | S count =>
      b ← dn_skipname m eom ptr;
      if b <? 0 then CVal (inl EMSGSIZE)
      else
        let ptr := ptr + (b + NS_INT16SZ + NS_INT16SZ) in
        if negb (section =? ns_s_qd) then
          if eom <? ptr + NS_INT32SZ + NS_INT16SZ then CVal (inl EMSGSIZE)
          else
            let ptr := ptr + NS_INT32SZ in
            rdlength ← ns_get16 m ptr;
            skiprr_loop count m eom section (ptr + NS_INT16SZ + rdlength)
        else skiprr_loop count m eom section ptr
  end.

Definition ns_skiprr (m : list Z) (eom ptr section count : Z) : cres (Z + Z) :=
  p ?← skiprr_loop (Z.to_nat count) m eom section ptr;
  CVal (if eom <? p then inl EMSGSIZE else inr (p - ptr)).

(** The counts of the header: the pointer after them. *)
Fixpoint counts_loop (n : nat) (m : list Z) (eom p : Z) : cres (Z + Z * list Z) :=
  match n with
  | O => CVal (inr (p, []))
  | S n =>
      if eom <? p + NS_INT16SZ then CVal (inl EMSGSIZE)
      else c ← ns_get16 m p; r ?← counts_loop n m eom (p + NS_INT16SZ); CVal (inr (r.1, c :: r.2))
  end.

(** The sections, from section [i]: where they start, and the pointer after the last one. *)
Fixpoint sections_loop (counts : list Z) (i : Z) (m : list Z) (eom p : Z) : cres (Z + Z * list (option Z)) :=
  match counts with
  | [] => CVal (inr (p, []))
  | c :: counts =>
      if c =? 0 then r ?← sections_loop counts (i + 1) m eom p; CVal (inr (r.1, None :: r.2))
      else
        b ?← ns_skiprr m eom p i c;
        r ?← sections_loop counts (i + 1) m eom (p + b); CVal (inr (r.1, Some p :: r.2))
  end.

Definition ns_initparse (m : list Z) (eom : Z) : cres (Z + ns_msg) :=
  if eom <? 0 + NS_INT16SZ then CVal (inl EMSGSIZE)
  else
    id ← ns_get16 m 0;
    if eom <? 2 + NS_INT16SZ then CVal (inl EMSGSIZE)
    else
      flags ← ns_get16 m 2;
      r ?← counts_loop (Z.to_nat ns_s_max) m eom 4;
      let '(p, counts) := r in
      r ?← sections_loop counts 0 m eom p;
      let '(p, sections) := r in
      if negb (p =? eom) then CVal (inl EMSGSIZE)
      else h ← setsection (mkMsg id flags counts sections 0 0 None) ns_s_max; CVal (inr h).

Section parserr.
Context (cm : CharModel).

Definition with_ptr (h : ns_msg) (rrnum p : Z) : ns_msg :=
  mkMsg (_id h) (_flags h) (_counts h) (_sections h) (_sect h) rrnum (Some p).

(** The record at [p]: the record or an errno, and the pointer then. *)
Definition parse_at (m : list Z) (eom section p : Z) : cres ((Z + ns_rr) * Z) :=
  r ← dn_expand cm m eom p NS_MAXDNAME;
  match r with
  | inl e => CVal (inl e, p)
  | inr (b, name) =>
      let p := p + b in
      if eom <? p + NS_INT16SZ + NS_INT16SZ then CVal (inl EMSGSIZE, p)
      else
        type ← ns_get16 m p;
        class ← ns_get16 m (p + 2);
        let p := p + 4 in
        if section =? ns_s_qd then CVal (inr (mkRr name type class 0 0 None), p)
        else if eom <? p + NS_INT32SZ + NS_INT16SZ then CVal (inl EMSGSIZE, p)
        else
          ttl ← ns_get32 m p;
          rdlength ← ns_get16 m (p + 4);
          let p := p + 6 in
          if eom <? p + rdlength then CVal (inl EMSGSIZE, p)
          else CVal (inr (mkRr name type class ttl rdlength (Some p)), p + rdlength)
  end.

(** The errno or the record, and the handle. *)
Definition ns_parserr (m : list Z) (eom : Z) (h : ns_msg) (section rrnum : Z) : cres ((Z + ns_rr) * ns_msg) :=
  if ns_s_max <=? u32 section then CVal (inl ENODEV, h)
  else
    h ← (if negb (section =? _sect h) then setsection h section else CVal h);
    let rrnum := if rrnum =? -1 then _rrnum h else rrnum in
    count ← aget (_counts h) section;
    if (rrnum <? 0) || (count <=? rrnum) then CVal (inl ENODEV, h)
    else
      h ← (if rrnum <? _rrnum h then setsection h section else CVal h);
      match _msg_ptr h with
      | None => CUndef
      | Some p =>
          b ← (if _rrnum h <? rrnum then ns_skiprr m eom p section (rrnum - _rrnum h) else CVal (inr 0));
          match b with
          | inl e => CVal (inl e, h)
          | inr b =>
              r ← parse_at m eom section (p + b);
              match r with
              | (inl e, p) => CVal (inl e, with_ptr h rrnum p)
              | (inr rr, p) =>
                  let h := with_ptr h (rrnum + 1) p in
                  h ← (if count <? _rrnum h then setsection h (section + 1) else CVal h);
                  CVal (inr rr, h)
              end
          end
      end.

(** A list of calls with one handle. *)
Fixpoint parse_calls (m : list Z) (eom : Z) (h : ns_msg) (calls : list (Z * Z)) : cres (list (Z + ns_rr) * ns_msg) :=
  match calls with
  | [] => CVal ([], h)
  | (section, rrnum) :: calls =>
      r ← ns_parserr m eom h section rrnum;
      rs ← parse_calls m eom r.2 calls; CVal (r.1 :: rs.1, rs.2)
  end.
End parserr.

(** ** What a message has *)

Definition get16_at (m : list Z) (p v : Z) : Prop := exists b0 b1, at_off m p [b0; b1] /\ v = b0 * 256 + b1.
Definition get32_at (m : list Z) (p v : Z) : Prop := exists h l, get16_at m p h /\ get16_at m (p + 2) l /\ v = h * 2 ^ 16 + l.

(** The record of a section at [p] ends at the last argument. *)
Inductive record_at (m : list Z) (section p : Z) : Z -> Prop :=
| rec_question c : section = ns_s_qd -> skips m p c -> p + c + 4 <= Z.of_nat (length m) -> record_at m section p (p + c + 4)
| rec_rr c n : section <> ns_s_qd -> skips m p c -> get16_at m (p + c + 8) n -> p + c + 10 + n <= Z.of_nat (length m) ->
    record_at m section p (p + c + 10 + n).

Inductive records (m : list Z) (section : Z) : Z -> nat -> Z -> Prop :=
| recs_nil p : 0 <= p <= Z.of_nat (length m) -> records m section p 0 p
| recs_cons p q n e : record_at m section p q -> records m section q n e -> records m section p (S n) e.

(** The sections from section [i]: a section without records has no start. *)
Fixpoint sections_at (m : list Z) (counts : list Z) (i p : Z) (starts : list (option Z)) (e : Z) : Prop :=
  match counts, starts with
  | [], [] => e = p
  | c :: counts, s :: starts =>
      exists q, records m i p (Z.to_nat c) q /\ s = (if c =? 0 then None else Some p) /\ sections_at m counts (i + 1) q starts e
  | _, _ => False
  end.

(** A message of the octets [m], all of them. *)
Definition message (m : list Z) (id flags : Z) (counts : list Z) (starts : list (option Z)) : Prop :=
  get16_at m 0 id /\ get16_at m 2 flags /\
  (exists c0 c1 c2 c3, counts = [c0; c1; c2; c3] /\ get16_at m 4 c0 /\ get16_at m 6 c1 /\ get16_at m 8 c2 /\ get16_at m 10 c3) /\
  sections_at m counts 0 12 starts (Z.of_nat (length m)).

(** ** Reading *)

Lemma get16_at_get m p v : octets m -> get16_at m p v -> ns_get16 m p = CVal v /\ 0 <= v < 2 ^ 16.
Proof.
  intros Ho (b0 & b1 & Ha & ->). pose proof (octets_at m p _ Ho Ha) as Hb. unfold ns_get16.
  rewrite (at_off_head m p b0 [b1] Ha). cbn [mbind cres_bind]. apply (at_off_app m p [b0] [b1]) in Ha as [_ Ha].
  rewrite (at_off_head m (p + 1) b1 [] Ha). cbn [mbind cres_bind].
  assert (0 <= b0 < 256) by (apply Hb; left). assert (0 <= b1 < 256) by (apply Hb; right; left).
  rewrite (lor_low b0 b1 8) by lia. split; [done|lia].
Qed.

Lemma get16_in m p : 0 <= p -> p + 2 <= Z.of_nat (length m) -> exists v, get16_at m p v.
Proof.
  intros Hp Hl. destruct (slice_at_off m p 2) as (l & _ & Ha & Hlen); [lia..|].
  destruct l as [|a [|b [|]]]; cbn in Hlen; try lia. by exists (a * 256 + b), a, b.
Qed.

Lemma get16_at_ext m m' p v : get16_at m p v -> get16_at (m ++ m') p v.
Proof. intros (a & b & Ha & ->). exists a, b. split; [by apply at_off_ext|done]. Qed.

Lemma get16_at_bound m p v : get16_at m p v -> 0 <= p /\ p + 2 <= Z.of_nat (length m).
Proof. intros (a & b & Ha & _). apply at_off_bound in Ha. cbn in Ha. lia. Qed.

Lemma get32_at_get m p v : octets m -> get32_at m p v -> ns_get32 m p = CVal v /\ 0 <= v < 2 ^ 32.
Proof.
  intros Ho (h & l & Hh & Hl & ->). destruct (get16_at_get m p h Ho Hh) as [Eh Rh], (get16_at_get m _ l Ho Hl) as [El Rl].
  destruct Hh as (a & b & Ha & Hh), Hl as (c & d & Hc & Hl).
  pose proof (octets_at m _ _ Ho Ha) as Oa. pose proof (octets_at m _ _ Ho Hc) as Oc.
  assert (0 <= a < 256) by (apply Oa; left). assert (0 <= b < 256) by (apply Oa; right; left).
  assert (0 <= c < 256) by (apply Oc; left). assert (0 <= d < 256) by (apply Oc; right; left).
  unfold ns_get32. rewrite (at_off_head m p a [b] Ha). apply (at_off_app m p [a] [b]) in Ha as [_ Ha].
  cbn [mbind cres_bind]. rewrite (at_off_head m (p + 1) b [] Ha). cbn [mbind cres_bind].
  rewrite (at_off_head m (p + 2) c [d] Hc). apply (at_off_app m _ [c] [d]) in Hc as [_ Hc]. cbn [mbind cres_bind].
  change (Z.of_nat (length [c])) with 1 in Hc. rewrite <- Z.add_assoc in Hc. rewrite (at_off_head m (p + 3) d [] Hc). cbn [mbind cres_bind].
  split; [|lia]. f_equal.
  replace (Z.shiftl a 24) with (Z.shiftl (Z.shiftl a 8) 16) by (by rewrite Z.shiftl_shiftl by lia).
  rewrite <- Z.shiftl_lor, (lor_low a b 8) by lia.
  replace (Z.shiftl (a * 2 ^ 8 + b) 16) with (Z.shiftl (Z.shiftl (a * 2 ^ 8 + b) 8) 8) by (by rewrite Z.shiftl_shiftl by lia).
  rewrite <- Z.shiftl_lor. rewrite (lor_low _ c 8) by lia. rewrite (lor_low _ d 8) by lia. lia.
Qed.

Lemma get16_at_det m p v v' : octets m -> get16_at m p v -> get16_at m p v' -> v = v'.
Proof. intros Ho H H'. destruct (get16_at_get m p v Ho H), (get16_at_get m p v' Ho H'). congruence. Qed.

Lemma record_at_det m section p e e' : octets m -> record_at m section p e -> record_at m section p e' -> e = e'.
Proof.
  intros Ho [c Hs Hc _|c n Hs Hc Hn _] [c' Hs' Hc' _|c' n' Hs' Hc' Hn' _]; try done; pose proof (skips_det m p c c' Hc Hc') as <-; [done|].
  by rewrite (get16_at_det m _ n n' Ho Hn Hn').
Qed.

Lemma records_det m section p n e e' : octets m -> records m section p n e -> records m section p n e' -> e = e'.
Proof.
  intros Ho H. revert e'. induction H as [p Hp|p q n e Hr _ IH]; intros e' H'; inversion H'; subst; [done|].
  apply IH. by rewrite (record_at_det m section p q q0 Ho).
Qed.

Lemma record_at_bound m section p e : octets m -> record_at m section p e -> 0 <= p < e /\ e <= Z.of_nat (length m).
Proof.
  intros Ho [c Hs Hc Hb|c n Hs Hc Hn Hb]; pose proof (skips_pos _ _ _ Hc); [lia|].
  destruct (get16_at_get m _ n Ho Hn). lia.
Qed.

Lemma records_bound m section p n e : octets m -> records m section p n e -> 0 <= p <= e /\ e <= Z.of_nat (length m).
Proof. intros Ho. induction 1 as [p Hp|p q n e Hr _ IH]; [lia|]. pose proof (record_at_bound _ _ _ _ Ho Hr). lia. Qed.

(** The records of a section, cut in two. *)
Lemma records_split m section n1 : octets m -> forall p n2 e, records m section p (n1 + n2) e ->
  exists q, records m section p n1 q /\ records m section q n2 e.
Proof.
  intros Ho. induction n1 as [|n1 IH]; intros p n2 e H; cbn [Nat.add] in *.
  - exists p. split; [|done]. constructor. apply records_bound in H; [lia|done].
  - inversion H; subst. edestruct IH as (q2 & Ha & Hb); [done|]. exists q2. split; [by econstructor|done].
Qed.

Lemma records_join m section p n1 q n2 e : records m section p n1 q -> records m section q n2 e -> records m section p (n1 + n2) e.
Proof. induction 1; intros; [done|]. cbn [Nat.add]. econstructor; [done|]. auto. Qed.

(** ** Skipping *)

Section skip.
Context (msg : list Z) (x : Z) (rest : list Z).
Local Notation m := (msg ++ x :: rest).
Local Notation eom := (Z.of_nat (length msg)).
Hypothesis Ho : octets m.

(** What ns_name_skip finds at any octet: a name, or the end of the message. *)
Lemma skip_loop_any fuel : forall cp, 0 <= cp -> eom - cp < Z.of_nat fuel -> (0 < fuel)%nat ->
  exists r, skip_loop fuel m eom cp = CVal r /\
    match r with inl e => e = EMSGSIZE | inr q => cp <= q /\ (eom <= q \/ skips msg cp (q - cp)) end.
Proof.
  induction fuel as [|f IH]; intros cp Hcp Hf Hf0; [lia|]. cbn [skip_loop].
  destruct (Z.ltb_spec cp eom); cbn [negb]; [|eexists; split; [done|]; cbn; lia].
  destruct (get_at_off msg cp) as (n & Hn & Hat & Hin); [lia|].
  assert (0 <= n < 256) as Hr by (apply Ho, elem_of_app; by left).
  rewrite (at_off_head m cp n []) by by apply at_off_ext. cbn [mbind cres_bind].
  assert (forall l, 0 < l -> (cp + 1 + l <= eom -> exists lab, at_off m (cp + 1) lab /\ Z.of_nat (length lab) = l /\ lab_ok (n :: lab)) ->
    exists r, skip_loop f m eom (cp + 1 + l) = CVal r /\
      match r with inl e => e = EMSGSIZE | inr q => cp <= q /\ (eom <= q \/ skips msg cp (q - cp)) end) as Hlab.
  { intros l Hl Hlab. destruct (IH (cp + 1 + l)) as (r & -> & Hs); [lia..|]. exists r. split; [done|]. destruct r as [e|q]; [done|].
    destruct Hs as [Hq Hs]. split; [lia|]. destruct Hs as [|Hs]; [by left|right]. pose proof (skips_pos _ _ _ Hs).
    destruct Hlab as (lab & Ha & Hlen & Hok); [lia|]. replace (q - cp) with (Z.of_nat (length (n :: lab)) + (q - (cp + 1 + l))) by (cbn [length]; lia).
    apply at_off_inner in Ha; [|lia]. apply sk_label; [|done|].
    - apply (at_off_app msg cp [n] lab). split; [done|]. done.
    - cbn [length]. by replace (cp + Z.of_nat (S (length lab))) with (cp + 1 + l) by lia. }
  destruct (Z.eqb_spec n 0) as [->|Hne].
  { eexists. split; [done|]. split; [lia|]. right. replace (cp + 1 - cp) with 1 by lia. by constructor. }
  destruct (flag_bits n Hr) as [[Hk ->]|[[Hk ->]|[[Hk ->]|[Hk ->]]]].
  - change (0 =? 0) with true. cbv iota. apply Hlab; [lia|]. intros Hb.
    destruct (slice_at_off msg (cp + 1) n) as (lab & _ & Ha & Hlen); [lia..|]. exists lab.
    split; [by apply at_off_ext|]. split; [done|]. exists n, lab. split; [done|]. left. lia.
  - change (NS_TYPE_ELT =? 0) with false. change (NS_TYPE_ELT =? NS_TYPE_ELT) with true. cbv iota. replace (cp + 1 - 1) with cp by lia.
    destruct (labellen_at m cp n Ho) as (l & -> & Hl); [by apply at_off_ext|lia|rewrite length_app; cbn [length]; lia|].
    cbn [mbind cres_bind]. destruct (Z.ltb_spec l 0); [by eexists|]. destruct Hl as [?|[Hl Hlb]]; [lia|]. apply Hlab; [done|].
    intros Hb. apply Hlb. rewrite length_app. cbn [length]. lia.
  - by eexists.
  - change (NS_CMPRSFLGS =? 0) with false. change (NS_CMPRSFLGS =? NS_TYPE_ELT) with false. change (NS_CMPRSFLGS =? NS_CMPRSFLGS) with true. cbv iota.
    eexists. split; [done|]. split; [lia|]. destruct (Z.ltb_spec (cp + 1) eom); [right|left; lia].
    destruct (get_at_off msg (cp + 1)) as (lo & _ & Hlo & _); [lia|]. replace (cp + 1 + 1 - cp) with 2 by lia.
    apply (sk_ptr msg cp n lo); [|change NS_CMPRSFLGS with 192; lia]. apply (at_off_app msg cp [n] [lo]). by split.
Qed.

Lemma dn_skipname_any p : 0 <= p -> exists b, dn_skipname m eom p = CVal b /\
  (b = -1 /\ (forall c, ~ skips msg p c) \/ 0 <= b /\ p + b <= eom /\ (p + b = eom \/ skips msg p b) /\ forall c, skips msg p c -> c = b).
Proof.
  intros Hp. assert (forall c, skips msg p c -> dn_skipname m eom p = CVal c) as Hc by (intros c; apply (dn_skipname_skips (x :: rest))).
  unfold dn_skipname, ns_name_skip in *.
  destruct (skip_loop_any (Z.to_nat (eom - p) + 1) p) as (r & E & H); [lia..|]. rewrite E in *. cbn [mbind cres_bind] in *.
  destruct r as [e|q]; cbn [mbind cres_bind] in *.
  - eexists. split; [done|]. left. split; [done|]. intros c Hk. pose proof (skips_pos _ _ _ Hk). specialize (Hc c Hk). injection Hc. lia.
  - destruct H as [Hq H]. destruct (Z.ltb_spec eom q); cbn [mbind cres_bind] in *; eexists; (split; [done|]).
    + left. split; [done|]. intros c Hk. pose proof (skips_pos _ _ _ Hk). specialize (Hc c Hk). injection Hc. lia.
    + right. split; [lia|]. split; [lia|]. split; [destruct H; [left; lia|by right]|]. intros c Hk. specialize (Hc c Hk). by injection Hc.
Qed.

Lemma msg_octets : octets msg.
Proof. by apply octets_app in Ho as [? _]. Qed.

Lemma get16_msg p v : get16_at msg p v -> ns_get16 m p = CVal v /\ 0 <= v < 2 ^ 16.
Proof. intros H. apply get16_at_get; [done|by apply get16_at_ext]. Qed.

(** One record: the loop goes to its end, stops, or goes beyond the message. *)
Lemma skiprr_step n section p : 0 <= p -> ns_s_qd <= section ->
  (exists q, record_at msg section p q /\ skiprr_loop (S n) m eom section p = skiprr_loop n m eom section q) \/
  (forall q, ~ record_at msg section p q) /\
    (skiprr_loop (S n) m eom section p = CVal (inl EMSGSIZE) \/
     exists q, eom < q /\ skiprr_loop (S n) m eom section p = skiprr_loop n m eom section q).
Proof.
  intros Hp Hsec. cbn [skiprr_loop]. destruct (dn_skipname_any p Hp) as (b & -> & Hb). cbn [mbind cres_bind].
  destruct Hb as [[-> Hno]|(Hb & Hend & Hk & Hdet)].
  { right. split; [|by left]. intros q Hq. destruct Hq as [c _ Hc _|c v _ Hc _ _]; by apply (Hno c). }
  zif. change NS_INT16SZ with 2. change NS_INT32SZ with 4. unfold ns_s_qd in *. destruct (Z.eqb_spec section 0) as [->|Hne]; cbn [negb].
  - destruct (Z.leb_spec (p + b + 4) eom).
    + left. exists (p + b + 4). replace (p + (b + 2 + 2)) with (p + b + 4) by lia. split; [|done].
      destruct Hk as [|Hk]; [lia|]. by constructor.
    + right. split; [|right; exists (p + (b + 2 + 2)); split; [lia|done]].
      intros q Hq. destruct Hq as [c _ Hc Hle|c v Hne _ _ _]; [|done]. specialize (Hdet c Hc). lia.
  - destruct (Z.ltb_spec eom (p + (b + 2 + 2) + 4 + 2)).
    + right. split; [|by left]. intros q Hq. destruct Hq as [c ? _ _|c v _ Hc Hv Hle]; [done|]. specialize (Hdet c Hc).
      apply get16_at_bound in Hv. lia.
    + destruct (get16_in msg (p + b + 8)) as (v & Hv); [lia..|]. destruct (get16_msg _ v Hv) as [Ev Rv].
      replace (p + (b + 2 + 2) + 4) with (p + b + 8) by lia. rewrite Ev. cbn [mbind cres_bind]. replace (p + b + 8 + 2 + v) with (p + b + 10 + v) by lia.
      destruct (Z.leb_spec (p + b + 10 + v) eom).
      * left. exists (p + b + 10 + v). split; [|done]. destruct Hk as [|Hk]; [lia|]. by constructor.
      * right. split; [|right; by exists (p + b + 10 + v)]. intros q Hq. destruct Hq as [c ? _ _|c v' _ Hc Hv' Hle]; [done|].
        specialize (Hdet c Hc). subst c. pose proof (get16_at_det msg _ v v' msg_octets Hv Hv'). lia.
Qed.

(** Beyond the message nothing is a record any more. *)
Lemma skiprr_beyond n section : ns_s_qd <= section -> forall p, eom < p -> skiprr_loop n m eom section p = CVal (inl EMSGSIZE) \/
  exists q, eom < q /\ skiprr_loop n m eom section p = CVal (inr q).
Proof.
  intros Hs. induction n as [|n IH]; intros p Hp; [right; by exists p|].
  destruct (skiprr_step n section p ltac:(lia) Hs) as [(q & Hr & _)|[_ [->|(q & Hq & ->)]]]; [|by left|by apply IH].
  apply record_at_bound in Hr; [lia|apply msg_octets].
Qed.

Lemma ns_skiprr_ok p section count : 0 <= p <= eom -> ns_s_qd <= section ->
  exists r, ns_skiprr m eom p section count = CVal r /\
    match r with
    | inl e => e = EMSGSIZE /\ forall q, ~ records msg section p (Z.to_nat count) q
    | inr b => records msg section p (Z.to_nat count) (p + b)
    end.
Proof.
  intros Hp Hs. unfold ns_skiprr. set (n := Z.to_nat count). clearbody n.
  assert (exists r, skiprr_loop n m eom section p = CVal r /\
    match r with inl e => e = EMSGSIZE /\ (forall q, ~ records msg section p n q)
    | inr q => records msg section p n q \/ eom < q /\ (forall q, ~ records msg section p n q) end) as (r & -> & Hr).
  { revert p Hp. induction n as [|n IH]; intros p Hp.
    - exists (inr p). split; [done|]. left. by constructor.
    - destruct (skiprr_step n section p ltac:(lia) Hs) as [(q & Hr & ->)|[Hno H]].
      + pose proof (record_at_bound _ _ _ _ msg_octets Hr). destruct (IH q ltac:(lia)) as (r & -> & H'). exists r. split; [done|].
        assert ((forall q', ~ records msg section q n q') -> forall q', ~ records msg section p (S n) q') as Hinv.
        { intros Hn q' Hq'. inversion Hq'; subst. eapply Hn. by rewrite (record_at_det _ _ _ _ _ msg_octets Hr H1). }
        destruct r as [e|q']; [destruct H'; auto|]. destruct H' as [H'|[? H']]; [left; by econstructor|right; auto].
      + assert (forall q', ~ records msg section p (S n) q') as Hn by (intros q' Hq'; inversion Hq'; by eapply Hno).
        destruct H as [->|(q & Hq & ->)]; [by eexists|].
        destruct (skiprr_beyond n section Hs q Hq) as [->|(q' & Hq' & ->)]; eexists; (split; [done|]); [done|by right]. }
  destruct r as [e|q]; [rewrite ebind_inl; by eexists|]. rewrite ebind_inr. eexists. split; [done|].
  destruct Hr as [Hr|[Hq Hno]].
  - pose proof (records_bound _ _ _ _ _ msg_octets Hr). zif. by replace (p + (q - p)) with q by lia.
  - by zif.
Qed.

(** ** ns_initparse *)

Lemma sections_loop_ok counts : forall i p, 0 <= p <= eom -> ns_s_qd <= i -> Forall (Z.le 0) counts ->
  exists r, sections_loop counts i m eom p = CVal r /\
    match r with
    | inl e => e = EMSGSIZE /\ forall starts q, ~ sections_at msg counts i p starts q
    | inr (q, starts) => sections_at msg counts i p starts q /\ forall starts' q', sections_at msg counts i p starts' q' -> starts' = starts /\ q' = q
    end.
Proof.
  induction counts as [|c counts IH]; intros i p Hp Hi Hc; cbn [sections_loop].
  - eexists. split; [done|]. split; [done|]. intros [|] q H; [done|by destruct H].
  - apply Forall_cons in Hc as [Hc0 Hc]. destruct (Z.eqb_spec c 0) as [->|Hne].
    + destruct (IH (i + 1) p Hp ltac:(lia) Hc) as (r & -> & H). destruct r as [e|[q starts]]; [rewrite ebind_inl|rewrite ebind_inr]; eexists; (split; [done|]).
      * destruct H as [-> H]. split; [done|]. intros [|s starts] q; [by intros ?|]. intros (q' & Hr & _ & Hs). inversion Hr; subst. by eapply H.
      * destruct H as [H Hu]. split; [exists p; split; [by constructor|done]|]. intros [|s starts'] q' H'; [by destruct H'|].
        destruct H' as (p' & Hr & -> & Hs). inversion Hr; subst. by destruct (Hu _ _ Hs) as [-> ->].
    + destruct (ns_skiprr_ok p i c Hp Hi) as (r & -> & Hr). destruct r as [e|b]; [rewrite ebind_inl|rewrite ebind_inr].
      * eexists. split; [done|]. destruct Hr as [-> Hr]. split; [done|]. intros [|s starts] q; [by intros ?|]. intros (q' & Hq & _). by eapply Hr.
      * pose proof (records_bound _ _ _ _ _ msg_octets Hr). destruct (IH (i + 1) (p + b) ltac:(lia) ltac:(lia) Hc) as (r & -> & H').
        destruct r as [e|[q starts]]; [rewrite ebind_inl|rewrite ebind_inr]; eexists; (split; [done|]).
        -- destruct H' as [-> H']. split; [done|]. intros [|s starts] q; [by intros ?|]. intros (q' & Hq & _ & Hs).
           rewrite (records_det _ _ _ _ _ _ msg_octets Hq Hr) in Hs. by eapply H'.
        -- destruct H' as [H' Hu]. split; [exists (p + b); split; [done|]; by rewrite (proj2 (Z.eqb_neq c 0) Hne)|]. intros [|s starts'] q' Hs; [by destruct Hs|].
           destruct Hs as (p' & Hq & -> & Hs). rewrite (records_det _ _ _ _ _ _ msg_octets Hq Hr) in Hs.
           destruct (Hu _ _ Hs) as [-> ->]. by rewrite (proj2 (Z.eqb_neq c 0) Hne).
Qed.

(** Sixteen bits that are read if they are in the message. *)
Lemma header_field p : 0 <= p ->
  (eom <? p + NS_INT16SZ) = true /\ (forall v, ~ get16_at msg p v) \/
  (eom <? p + NS_INT16SZ) = false /\ exists v, get16_at msg p v /\ 0 <= v < 2 ^ 16 /\ ns_get16 m p = CVal v.
Proof.
  intros Hp. change NS_INT16SZ with 2. destruct (Z.ltb_spec eom (p + 2)); [left|right]; (split; [done|]).
  - intros v Hv. apply get16_at_bound in Hv. lia.
  - destruct (get16_in msg p Hp ltac:(lia)) as (v & Hv). exists v. by destruct (get16_msg p v Hv).
Qed.

Lemma counts_loop_ok n : forall p, 0 <= p ->
  exists r, counts_loop n m eom p = CVal r /\
    match r with
    | inl e => e = EMSGSIZE /\ eom < p + 2 * Z.of_nat n
    | inr (q, cs) => q = p + 2 * Z.of_nat n /\ q <= Z.max p eom /\ length cs = n /\ forall i c, cs !! i = Some c -> get16_at msg (p + 2 * Z.of_nat i) c
    end.
Proof.
  induction n as [|n IH]; intros p Hp; cbn [counts_loop].
  - eexists. split; [done|]. split_and!; [lia|lia|done|]. intros i c Hi. by rewrite lookup_nil in Hi.
  - destruct (header_field p Hp) as [[E Hno]|(E & v & Hv & _ & ->)]; rewrite E; change NS_INT16SZ with 2 in *; zbool;
      [eexists; split; [done|]; split; [done|lia]|]. cbn [mbind cres_bind].
    destruct (IH (p + 2) ltac:(lia)) as (r & -> & H'). destruct r as [e|[q cs]]; [rewrite ebind_inl|rewrite ebind_inr]; eexists; (split; [done|]); cbn [fst snd].
    + destruct H'. split; [done|lia].
    + destruct H' as (-> & Hq & Hl & Hcs). split_and!; [lia|lia|cbn; lia|]. intros [|i] c Hi; cbn in Hi; [simplify_eq; by replace (p + 2 * Z.of_nat 0) with p by lia|].
      apply Hcs in Hi. by replace (p + 2 * Z.of_nat (S i)) with (p + 2 + 2 * Z.of_nat i) by lia.
Qed.

Lemma initparse_spec : exists r, ns_initparse m eom = CVal r /\
  match r with
  | inl e => e = EMSGSIZE /\ forall id flags counts starts, ~ message msg id flags counts starts
  | inr h => message msg (_id h) (_flags h) (_counts h) (_sections h) /\ _sect h = ns_s_max /\ _rrnum h = -1 /\ _msg_ptr h = None
  end.
Proof.
  unfold ns_initparse. destruct (header_field 0 ltac:(lia)) as [[-> Hno]|(-> & id & Hid & _ & ->)]; cbn [mbind cres_bind].
  { eexists. split; [done|]. split; [done|]. intros id f cs st (Hid & _). by eapply Hno. }
  destruct (header_field 2 ltac:(lia)) as [[-> Hno]|(-> & flags & Hf & _ & ->)]; cbn [mbind cres_bind].
  { eexists. split; [done|]. split; [done|]. intros i f cs st (_ & Hf & _). by eapply Hno. }
  destruct (counts_loop_ok (Z.to_nat ns_s_max) 4 ltac:(lia)) as (r & -> & H'). destruct r as [e|[p cs]]; [rewrite ebind_inl|rewrite ebind_inr].
  { eexists. split; [done|]. destruct H' as [-> H']. split; [done|]. intros i f cs st (_ & _ & (c0 & c1 & c2 & c3 & _ & _ & _ & _ & H3) & _).
    apply get16_at_bound in H3. change (Z.of_nat (Z.to_nat ns_s_max)) with 4 in H'. lia. }
  destruct H' as (-> & Hp & Hlen & Hcs). change (4 + 2 * Z.of_nat (Z.to_nat ns_s_max)) with 12 in *.
  destruct cs as [|c0 [|c1 [|c2 [|c3 [|]]]]]; try done.
  assert (get16_at msg 4 c0 /\ get16_at msg 6 c1 /\ get16_at msg 8 c2 /\ get16_at msg 10 c3) as (H0 & H1 & H2 & H3).
  { split_and!; [apply (Hcs 0%nat)|apply (Hcs 1%nat)|apply (Hcs 2%nat)|apply (Hcs 3%nat)]; done. }
  assert (Forall (Z.le 0) [c0; c1; c2; c3]) as Hpos by (repeat constructor; eapply get16_msg; done).
  pose proof (get16_at_bound _ _ _ H3). destruct (sections_loop_ok [c0; c1; c2; c3] 0 12 ltac:(lia) ltac:(done) Hpos) as (r & -> & Hr).
  assert (forall cs, (exists d0 d1 d2 d3, cs = [d0; d1; d2; d3] /\ get16_at msg 4 d0 /\ get16_at msg 6 d1 /\ get16_at msg 8 d2 /\ get16_at msg 10 d3) -> cs = [c0; c1; c2; c3]) as Hsame.
  { intros cs (d0 & d1 & d2 & d3 & -> & G0 & G1 & G2 & G3). pose proof msg_octets as Hm.
    by rewrite (get16_at_det msg 4 d0 c0 Hm), (get16_at_det msg 6 d1 c1 Hm), (get16_at_det msg 8 d2 c2 Hm), (get16_at_det msg 10 d3 c3 Hm). }
  destruct r as [e|[q starts]]; [rewrite ebind_inl|rewrite ebind_inr].
  { eexists. split; [done|]. destruct Hr as [-> Hr]. split; [done|]. intros i f cs st (_ & _ & Hc & Hs). rewrite (Hsame cs Hc) in Hs. by eapply Hr. }
  destruct Hr as [Hr Hu]. destruct (Z.eqb_spec q eom) as [->|Hne]; cbn [negb].
  - eexists. split; [done|]. split; [|done]. split; [done|]. split; [done|]. split; [by exists c0, c1, c2, c3|done].
  - eexists. split; [done|]. split; [done|]. intros i f cs st (_ & _ & Hc & Hs). rewrite (Hsame cs Hc) in Hs. apply Hu in Hs as [_ Hs]. lia.
Qed.

(** ** Where records are found *)

(** The record [n] of a section is at [p]. *)
Definition nth_record (h : ns_msg) (section n p : Z) : Prop :=
  exists c p0, _counts h !! Z.to_nat section = Some c /\ _sections h !! Z.to_nat section = Some (Some p0) /\
    0 <= n < c /\ records msg section p0 (Z.to_nat n) p.

(** The cursor of a handle is at a record of its section or after the last one. *)
Definition cursor_ok (h : ns_msg) : Prop :=
  _sect h = ns_s_max /\ _rrnum h = -1 /\ _msg_ptr h = None \/
  0 <= _sect h < ns_s_max /\ exists c s, _counts h !! Z.to_nat (_sect h) = Some c /\ _sections h !! Z.to_nat (_sect h) = Some s /\
    match s with
    | None => _rrnum h = 0 /\ _msg_ptr h = None
    | Some p0 => 0 <= _rrnum h <= c /\ exists p, _msg_ptr h = Some p /\ records msg (_sect h) p0 (Z.to_nat (_rrnum h)) p
    end.

Definition handle_ok (h : ns_msg) : Prop := message msg (_id h) (_flags h) (_counts h) (_sections h) /\ cursor_ok h.
Definition same_msg (h h' : ns_msg) : Prop := _id h' = _id h /\ _flags h' = _flags h /\ _counts h' = _counts h /\ _sections h' = _sections h.

Lemma sections_at_nth counts : forall i p starts e k c, sections_at msg counts i p starts e -> counts !! k = Some c -> 0 <= p <= eom ->
  exists s, starts !! k = Some s /\
    (s = None /\ c = 0 \/ c <> 0 /\ exists p0 q, s = Some p0 /\ records msg (i + Z.of_nat k) p0 (Z.to_nat c) q).
Proof.
  induction counts as [|c0 counts IH]; intros i p starts e k c Hs Hk Hp; [by rewrite lookup_nil in Hk|].
  destruct starts as [|s starts]; [done|]. destruct Hs as (q & Hr & -> & Hs). destruct k as [|k]; cbn in Hk.
  - simplify_eq. eexists. split; [done|]. rewrite Z.add_0_r. destruct (Z.eqb_spec c 0); [by left|right]. split; [done|]. by exists p, q.
  - apply records_bound in Hr; [|apply msg_octets]. replace (i + Z.of_nat (S k)) with (i + 1 + Z.of_nat k) by lia. cbn [lookup list_lookup]; apply (IH (i + 1) q starts e k c); done || lia.
Qed.

Lemma message_section id flags counts starts section : message msg id flags counts starts -> 0 <= section < ns_s_max ->
  exists c s, counts !! Z.to_nat section = Some c /\ starts !! Z.to_nat section = Some s /\ 0 <= c < 2 ^ 16 /\
    (s = None /\ c = 0 \/ c <> 0 /\ exists p0 q, s = Some p0 /\ records msg section p0 (Z.to_nat c) q).
Proof.
  intros (_ & _ & (c0 & c1 & c2 & c3 & -> & G0 & G1 & G2 & G3) & Hs) Hr. unfold ns_s_max in Hr.
  pose proof (get16_at_bound _ _ _ G3). apply get16_msg in G0 as [_ G0], G1 as [_ G1], G2 as [_ G2], G3 as [_ G3].
  assert (exists c, [c0; c1; c2; c3] !! Z.to_nat section = Some c /\ 0 <= c < 2 ^ 16) as (c & Hc & Hcr).
  { assert (section = 0 \/ section = 1 \/ section = 2 \/ section = 3) as [->|[->|[->| ->]]] by lia; by eexists. }
  destruct (sections_at_nth _ _ _ _ _ _ c Hs Hc ltac:(lia)) as (s & Hst & H'). exists c, s. split_and!; [done|done|lia|lia|].
  by rewrite Z2Nat.id in H' by lia.
Qed.

Lemma setsection_ok h section : message msg (_id h) (_flags h) (_counts h) (_sections h) -> 0 <= section < ns_s_max ->
  exists h', setsection h section = CVal h' /\ handle_ok h' /\ same_msg h h' /\ _sect h' = section /\ _rrnum h' = 0.
Proof.
  intros Hm Hs. destruct (message_section _ _ _ _ section Hm Hs) as (c & s & Hc & Hst & Hcr & Hk). unfold setsection, ns_s_max in *. zif.
  rewrite (aget_val _ section s) by (lia || done). cbn [mbind cres_bind]. eexists. split; [done|]. split; [|done]. split; [done|]. right.
  cbn [_sect _counts _sections _rrnum _msg_ptr]. split; [done|]. exists c, s. split; [done|]. split; [done|].
  destruct Hk as [[-> ->]|(Hc0 & p0 & q & -> & Hr)]; [done|]. split; [lia|]. exists p0. split; [done|].
  constructor. apply records_bound in Hr; [lia|apply msg_octets].
Qed.

(** The record after the cursor's is found without going back. *)
Lemma records_from h section n p k : nth_record h section n p -> k <= n -> 0 <= k ->
  forall p0 pk, _sections h !! Z.to_nat section = Some (Some p0) -> records msg section p0 (Z.to_nat k) pk ->
  records msg section pk (Z.to_nat (n - k)) p.
Proof.
  intros (c & p0' & _ & E & _ & Hr) Hk Hk0 p0 pk E' Hr'. simplify_eq.
  replace (Z.to_nat n) with (Z.to_nat k + Z.to_nat (n - k))%nat in Hr by lia. apply records_split in Hr as (q & H1 & H2); [|apply msg_octets].
  by rewrite (records_det _ _ _ _ _ _ msg_octets H1 Hr') in H2.
Qed.

(** ** ns_parserr *)

(** What [rr] says of the record at [p]. *)
Definition rr_says (cm : CharModel) (section p : Z) (rr : ns_rr) : Prop :=
  exists c, dn_expand cm m eom p NS_MAXDNAME = CVal (inr (c, rr_name rr)) /\
    get16_at msg (p + c) (rr_type rr) /\ get16_at msg (p + c + 2) (rr_class rr) /\
    if section =? ns_s_qd then rr_ttl rr = 0 /\ rr_rdlength rr = 0 /\ rr_rdata rr = None
    else get32_at msg (p + c + 4) (rr_ttl rr) /\ get16_at msg (p + c + 8) (rr_rdlength rr) /\ rr_rdata rr = Some (p + c + 10).

Lemma parse_at_ok cm section p q : record_at msg section p q -> exists r p', parse_at cm m eom section p = CVal (r, p') /\
  match r with inl e => p' = p /\ dn_expand cm m eom p NS_MAXDNAME = CVal (inl e) | inr rr => p' = q /\ rr_says cm section p rr end.
Proof.
  intros Hrec. unfold parse_at. destruct (dn_expand_any cm msg x rest p NS_MAXDNAME Ho) as (r & E & Hr). rewrite E. cbn [mbind cres_bind].
  destruct r as [e|[c name]]; [by exists (inl e), p|]. destruct Hr as (labs & t & Hd & _). apply decodes_skips in Hd. pose proof (skips_pos _ _ _ Hd).
  change NS_INT16SZ with 2. change NS_INT32SZ with 4.
  assert (forall k, 0 <= k -> p + c + k + 2 <= eom -> exists v, get16_at msg (p + c + k) v /\ ns_get16 m (p + c + k) = CVal v) as Hget.
  { intros k Hk0 Hk. destruct (get16_in msg (p + c + k)) as (v & Hv); [lia..|]. exists v. split; [done|]. by apply get16_msg. }
  assert (p + c + 4 <= eom) as Hfix by (destruct Hrec as [c' _ Hc Hb|c' n _ Hc Hn Hb]; pose proof (skips_det _ _ _ _ Hd Hc) as <-; [lia|apply get16_at_bound in Hn; lia]).
  destruct (Hget 0 ltac:(lia) ltac:(lia)) as (ty & Hty & Ety). destruct (Hget 2 ltac:(lia) ltac:(lia)) as (cl & Hcl & Ecl). rewrite Z.add_0_r in Hty, Ety.
  zif. rewrite Ety, Ecl. cbn [mbind cres_bind].
  destruct Hrec as [c' Hs Hc Hb|c' n Hs Hc Hn Hb]; pose proof (skips_det _ _ _ _ Hd Hc) as <-.
  - rewrite Hs. eexists _, _. split; [done|]. split; [done|]. exists c. split; [done|]. done.
  - assert ((section =? ns_s_qd) = false) as Es by by apply Z.eqb_neq. rewrite Es. apply get16_msg in Hn as Hn'. destruct Hn' as [En Rn].
    zif. destruct (Hget 4 ltac:(lia) ltac:(lia)) as (hi & Hhi & _). destruct (Hget 6 ltac:(lia) ltac:(lia)) as (lo & Hlo & _).
    assert (get32_at msg (p + c + 4) (hi * 2 ^ 16 + lo)) as H32 by (exists hi, lo; split; [done|]; split; [by replace (p + c + 4 + 2) with (p + c + 6) by lia|done]).
    assert (ns_get32 m (p + c + 4) = CVal (hi * 2 ^ 16 + lo)) as ->.
    { apply get32_at_get; [done|]. destruct H32 as (h & l & A & B & ?). exists h, l. split; [by apply get16_at_ext|]. split; [by apply get16_at_ext|done]. }
    cbn [mbind cres_bind]. replace (p + c + 4 + 4) with (p + c + 8) by lia. rewrite En. cbn [mbind cres_bind]. zif.
    eexists _, _. split; [done|]. split; [lia|]. exists c. cbn [rr_name rr_type rr_class rr_ttl rr_rdlength rr_rdata]. rewrite Es. split_and!; try done. f_equal. lia.
Qed.

Lemma nth_record_at h section n p : handle_ok h -> nth_record h section n p -> 0 <= section -> exists q, record_at msg section p q /\
  forall p0, _sections h !! Z.to_nat section = Some (Some p0) -> records msg section p0 (Z.to_nat (n + 1)) q.
Proof.
  intros [Hm _] (c & p0 & Hc & Hs & Hn & Hr) Hsec.
  assert (section < ns_s_max) as Hmax.
  { apply lookup_lt_Some in Hc. destruct Hm as (_ & _ & (c0 & c1 & c2 & c3 & E & _) & _). rewrite E in Hc. cbn in Hc. unfold ns_s_max. lia. }
  destruct (message_section _ _ _ _ section Hm ltac:(lia)) as (c' & s & Hc' & Hs' & _ & Hk). simplify_eq.
  destruct Hk as [[? _]|(_ & p0' & q & E & Hall)]; [done|]. simplify_eq.
  replace (Z.to_nat c) with (Z.to_nat n + S (Z.to_nat (c - n - 1)))%nat in Hall by lia.
  apply records_split in Hall as (p' & H1 & H2); [|apply msg_octets]. rewrite (records_det _ _ _ _ _ _ msg_octets H1 Hr) in H2.
  inversion H2 as [|p1 q1 k e Hq Hrest]; subst. exists q1. split; [done|]. intros p1 Hp1. simplify_eq.
  replace (Z.to_nat (n + 1)) with (Z.to_nat n + 1)%nat by lia. apply (records_join _ _ _ _ p); [done|]. apply recs_cons with q1; [done|]. constructor.
  apply record_at_bound in Hq; [lia|apply msg_octets].
Qed.

(** The calls as they are meant: the cursor is a section and the number of the next record
    in it, and a call asks for a record by its number, -1 for the next one. *)
Definition asked (cur : Z * Z) (section rrnum : Z) : Z :=
  if rrnum =? -1 then (if section =? cur.1 then cur.2 else 0) else rrnum.

Inductive reads (cm : CharModel) (h : ns_msg) (cur : Z * Z) (section rrnum : Z) : Z + ns_rr -> Z * Z -> Prop :=
| rd_section : ~ 0 <= section < ns_s_max -> reads cm h cur section rrnum (inl ENODEV) cur
| rd_range : 0 <= section < ns_s_max -> (forall p, ~ nth_record h section (asked cur section rrnum) p) ->
    reads cm h cur section rrnum (inl ENODEV) (section, if section =? cur.1 then cur.2 else 0)
| rd_name p e : 0 <= section < ns_s_max -> nth_record h section (asked cur section rrnum) p ->
    dn_expand cm m eom p NS_MAXDNAME = CVal (inl e) -> reads cm h cur section rrnum (inl e) (section, asked cur section rrnum)
| rd_record p rr : 0 <= section < ns_s_max -> nth_record h section (asked cur section rrnum) p -> rr_says cm section p rr ->
    reads cm h cur section rrnum (inr rr) (section, asked cur section rrnum + 1).

Definition handle_cursor (h : ns_msg) : Z * Z := (_sect h, _rrnum h).

Lemma same_nth h h' section n p : same_msg h h' -> nth_record h section n p <-> nth_record h' section n p.
Proof. intros (_ & _ & Ec & Es). unfold nth_record. by rewrite Ec, Es. Qed.

(** The handle once it is at the section that is asked for. *)
Lemma enter_section h section : handle_ok h -> 0 <= section < ns_s_max ->
  exists h1, (if negb (section =? _sect h) then setsection h section else CVal h) = CVal h1 /\
    handle_ok h1 /\ same_msg h h1 /\ handle_cursor h1 = (section, if section =? _sect h then _rrnum h else 0).
Proof.
  intros Hh Hs. destruct (Z.eqb_spec section (_sect h)) as [->|Hne]; cbn [negb].
  - exists h. done.
  - destruct (setsection_ok h section) as (h1 & -> & H1 & Hsame & E1 & E2); [by destruct Hh|done|]. exists h1. unfold handle_cursor. by rewrite E1, E2.
Qed.

(** The handle once it is before the record that is asked for, or at it. *)
Lemma rewind_section h n p : handle_ok h -> nth_record h (_sect h) n p -> 0 <= _sect h < ns_s_max ->
  exists h1 pk, (if n <? _rrnum h then setsection h (_sect h) else CVal h) = CVal h1 /\
    handle_ok h1 /\ same_msg h h1 /\ _sect h1 = _sect h /\ 0 <= _rrnum h1 <= n /\ _msg_ptr h1 = Some pk /\
    records msg (_sect h) pk (Z.to_nat (n - _rrnum h1)) p.
Proof.
  intros Hh Hn Hs.
  assert (exists h1, (if n <? _rrnum h then setsection h (_sect h) else CVal h) = CVal h1 /\ handle_ok h1 /\ same_msg h h1 /\ _sect h1 = _sect h /\ _rrnum h1 <= n) as (h1 & -> & H1 & Hsame & E1 & Hle).
  { destruct (Z.ltb_spec n (_rrnum h)); [|by exists h]. destruct (setsection_ok h (_sect h)) as (h1 & -> & H1 & Hsame & E1 & E2); [by destruct Hh|done|].
    exists h1. rewrite E2. destruct Hn as (c & p0 & _ & _ & ? & _). split_and!; try done. lia. }
  exists h1. apply (same_nth h h1) in Hn; [|done]. rewrite <- E1 in *. destruct H1 as [Hm [[Hc _]|(_ & c & s & Hc & Hst & Hcur)]].
  { rewrite Hc in Hs. unfold ns_s_max in Hs. lia. }
  pose proof Hn as (c' & p0 & Hc' & Hs' & Hn' & Hr). rewrite Hs' in Hst. simplify_eq. destruct Hcur as [Hk (pk & Hpk & Hrk)].
  exists pk. split; [done|]. split.
  { split; [done|]. right. split; [done|]. exists c, (Some p0). split_and!; try done; try lia. by exists pk. }
  split_and!; try done; [lia|]. apply (records_from h1 _ n p) with (p0 := p0); done || lia.
Qed.

(** The handle whose cursor was put at a record of its section. *)
Lemma with_ptr_ok h h2 section c k pt : handle_ok h2 -> same_msg h h2 -> 0 <= section < ns_s_max -> _sect h2 = section ->
  _counts h2 !! Z.to_nat section = Some c -> 0 < c -> 0 <= k <= c ->
  (forall p0, _sections h2 !! Z.to_nat section = Some (Some p0) -> records msg section p0 (Z.to_nat k) pt) ->
  handle_ok (with_ptr h2 k pt) /\ same_msg h (with_ptr h2 k pt) /\ handle_cursor (with_ptr h2 k pt) = (section, k).
Proof.
  intros [Hm _] Hsame Hs Es Hc Hc0 Hk Hpt. destruct (message_section _ _ _ _ section Hm Hs) as (c' & s & Hc' & Hst & _ & Hsec). simplify_eq.
  split; [|split; [done|done]]. split; [done|]. right. unfold with_ptr; cbn [_sect _counts _sections _rrnum _msg_ptr]. split; [done|].
  exists c, s. split; [done|]. split; [done|]. destruct Hsec as [[_ ?]|(_ & p0 & e & -> & _)]; [lia|]. split; [done|]. exists pt. auto.
Qed.

Lemma same_msg_trans h1 h2 h3 : same_msg h1 h2 -> same_msg h2 h3 -> same_msg h1 h3.
Proof. unfold same_msg. intuition congruence. Qed.

Lemma parserr_spec cm h section rrnum : handle_ok h -> - 2 ^ 31 <= section < 2 ^ 31 ->
  exists r h', ns_parserr cm m eom h section rrnum = CVal (r, h') /\ handle_ok h' /\ same_msg h h' /\
    reads cm h (handle_cursor h) section rrnum r (handle_cursor h').
Proof.
  intros Hh Hsec. unfold ns_parserr, u32. destruct (Z.leb_spec ns_s_max (section mod 2 ^ 32)) as [Hge|Hlt].
  { exists (inl ENODEV), h. split_and!; try done. apply rd_section. unfold ns_s_max in *. intros Hr. rewrite Z.mod_small in Hge; lia. }
  assert (0 <= section < ns_s_max) as Hs.
  { unfold ns_s_max in *. destruct (Z.lt_ge_cases section 0); [|rewrite Z.mod_small in Hlt; lia].
    rewrite <- (Z_mod_plus_full section 1), Z.mod_small in Hlt; lia. }
  destruct (enter_section h section Hh Hs) as (h1 & -> & H1 & Hsame & Ecur). cbn [mbind cres_bind].
  assert ((if rrnum =? -1 then _rrnum h1 else rrnum) = asked (handle_cursor h) section rrnum) as ->.
  { unfold handle_cursor in Ecur. injection Ecur as _ ->. done. }
  set (n := asked (handle_cursor h) section rrnum). destruct (message_section _ _ _ _ section (proj1 H1) Hs) as (c & s & Hc & Hst & Hcr & Hk).
  rewrite (aget_val _ section c) by (lia || done). cbn [mbind cres_bind].
  assert (forall p, nth_record h section n p <-> nth_record h1 section n p) as Hnth by (intros p; by apply same_nth).
  destruct ((n <? 0) || (c <=? n)) eqn:Erange.
  { exists (inl ENODEV), h1. split_and!; try done. rewrite Ecur. apply rd_range; [done|]. intros p Hp. apply Hnth in Hp as (c' & p0 & Hc' & _ & Hn & _).
    simplify_eq. rewrite orb_true_iff, Z.ltb_lt, Z.leb_le in Erange. fold n in Hn. lia. }
  zbool. assert (exists p, nth_record h1 section n p) as (p & Hp).
  { destruct Hk as [[-> ->]|(_ & p0 & e & -> & Hr)]; [lia|]. replace (Z.to_nat c) with (Z.to_nat n + Z.to_nat (c - n))%nat in Hr by lia.
    apply records_split in Hr as (p & Hp & _); [|apply msg_octets]. exists p, c, p0. split_and!; done. }
  assert (_sect h1 = section) as Es by (unfold handle_cursor in Ecur; by injection Ecur).
  rewrite <- Es. destruct (rewind_section h1 n p H1) as (h2 & pk & -> & H2 & Hsame2 & E2 & Hk2 & Hptr & Hrec); [by rewrite Es|by rewrite Es|].
  cbn [mbind cres_bind]. rewrite Hptr, Es in *. pose proof (records_bound _ _ _ _ _ msg_octets Hrec).
  assert ((if _rrnum h2 <? n then ns_skiprr m eom pk section (n - _rrnum h2) else CVal (inr 0)) = CVal (inr (p - pk))) as ->.
  { destruct (Z.ltb_spec (_rrnum h2) n).
    - destruct (ns_skiprr_ok pk section (n - _rrnum h2) ltac:(lia) (proj1 Hs)) as (r & -> & Hr). destruct r as [e|b]; [destruct Hr as [_ Hr]; by apply Hr in Hrec|].
      rewrite (records_det _ _ _ _ _ _ msg_octets Hrec Hr). do 2 f_equal. lia.
    - replace (Z.to_nat (n - _rrnum h2)) with 0%nat in Hrec by lia. inversion Hrec; subst. do 2 f_equal. lia. }
  cbn [mbind cres_bind]. replace (pk + (p - pk)) with p by lia.
  destruct (nth_record_at h1 section n p H1 Hp (proj1 Hs)) as (q & Hq & Hnext). destruct (parse_at_ok cm section p q Hq) as (r & p' & -> & Hr). cbn [mbind cres_bind].
  destruct r as [e|rr].
  - destruct Hr as [-> He]. destruct (with_ptr_ok h h2 section c n p) as (A & B & C); [done|by eapply same_msg_trans|done|done|by rewrite (proj1 (proj2 (proj2 Hsame2)))|lia|lia|rewrite (proj2 (proj2 (proj2 Hsame2))); intros p0 Hp0; destruct Hp as (? & ? & _ & G & _ & Hp); by simplify_eq|].
    exists (inl e), (with_ptr h2 n p). split_and!; try done. rewrite C. apply (rd_name _ _ _ _ _ p); [done|by apply Hnth|done].
  - destruct Hr as [-> Hrr]. destruct (with_ptr_ok h h2 section c (n + 1) q) as (A & B & C); [done|by eapply same_msg_trans|done|done|by rewrite (proj1 (proj2 (proj2 Hsame2)))|lia|lia|by rewrite (proj2 (proj2 (proj2 Hsame2)))|]. cbn [_rrnum with_ptr].
    zif. cbn [mbind cres_bind]. exists (inr rr), (with_ptr h2 (n + 1) q). split_and!; try done. rewrite C. apply (rd_record _ _ _ _ _ p); [done|by apply Hnth|done].
Qed.
End skip.

(** A list of calls, from a cursor. *)
Inductive reads_all (cm : CharModel) (msg : list Z) (x : Z) (rest : list Z) (h : ns_msg) : Z * Z -> list (Z * Z) -> list (Z + ns_rr) -> Prop :=
| ra_nil cur : reads_all cm msg x rest h cur [] []
| ra_cons cur section rrnum calls r cur' rs : reads msg x rest cm h cur section rrnum r cur' ->
    reads_all cm msg x rest h cur' calls rs -> reads_all cm msg x rest h cur ((section, rrnum) :: calls) (r :: rs).

Lemma reads_same msg x rest cm h h' cur section rrnum r cur' : same_msg h h' ->
  reads msg x rest cm h' cur section rrnum r cur' -> reads msg x rest cm h cur section rrnum r cur'.
Proof.
  intros Hs [?|? Hno|p e ? Hn ?|p rr ? Hn ?]; [by constructor|constructor; [done|]|eapply rd_name; [done| |done]|eapply rd_record; [done| |done]].
  - intros p Hp. eapply Hno. by apply (same_nth msg h h').
  - by apply (same_nth msg h h').
  - by apply (same_nth msg h h').
Qed.

Lemma parse_calls_spec cm msg x rest : octets (msg ++ x :: rest) -> forall calls h h0, handle_ok msg h -> same_msg h0 h ->
  Forall (fun c => - 2 ^ 31 <= c.1 < 2 ^ 31) calls ->
  exists results h', parse_calls cm (msg ++ x :: rest) (Z.of_nat (length msg)) h calls = CVal (results, h') /\ handle_ok msg h' /\
    reads_all cm msg x rest h0 (handle_cursor h) calls results.
Proof.
  intros Ho. induction calls as [|[section rrnum] calls IH]; intros h h0 Hh Hs Hc; cbn [parse_calls].
  - exists [], h. split; [done|]. split; [done|]. constructor.
  - apply Forall_cons in Hc as [Hc1 Hc]. destruct (parserr_spec msg x rest Ho cm h section rrnum Hh Hc1) as (r & h1 & -> & H1 & Hs1 & Hr). cbn [mbind cres_bind fst snd].
    destruct (IH h1 h0 H1) as (rs & h2 & -> & H2 & Hrs); [by eapply same_msg_trans|done|]. cbn [mbind cres_bind fst snd].
    eexists _, _. split; [done|]. split; [done|]. econstructor; [by eapply reads_same|done].
Qed.

(** ns_initparse reads inside the message and the byte after it, and accepts exactly the
    messages: twelve octets of header and, for each section, as many records as its count
    says, one after the other up to the end; it keeps the counts and where the sections
    start.  Everything else gives EMSGSIZE. *)
Theorem ns_initparse_exact msg x rest : octets (msg ++ x :: rest) ->
  exists r, ns_initparse (msg ++ x :: rest) (Z.of_nat (length msg)) = CVal r /\
    match r with
    | inl e => e = EMSGSIZE /\ forall id flags counts starts, ~ message msg id flags counts starts
    | inr h => message msg (_id h) (_flags h) (_counts h) (_sections h) /\ handle_cursor h = (ns_s_max, -1)
    end.
Proof.
  intros Ho. destruct (initparse_spec msg x rest Ho) as (r & E & H). exists r. split; [done|].
  destruct r as [e|h]; [done|]. unfold handle_cursor. destruct H as (Hm & -> & -> & _). done.
Qed.

(** C28: After ns_initparse has accepted a message, calls of ns_parserr in any order with one
    handle behave as reads with a plain cursor: each returns the record of the number and
    section it asks for, or the next one, wherever the calls before it have left the handle;
    a record's name is what dn_expand finds at its offset and its fields are the octets
    there.  Only a name that does not expand, a section that does not exist or a number
    that the section does not have gives an error, and no read leaves the message and the byte
    behind it, which can be read. *)
Theorem ns_parserr_reads cm msg x rest h calls : octets (msg ++ x :: rest) ->
  ns_initparse (msg ++ x :: rest) (Z.of_nat (length msg)) = CVal (inr h) -> Forall (fun c => - 2 ^ 31 <= c.1 < 2 ^ 31) calls ->
  exists results h', parse_calls cm (msg ++ x :: rest) (Z.of_nat (length msg)) h calls = CVal (results, h') /\
    reads_all cm msg x rest h (ns_s_max, -1) calls results.
Proof.
  intros Ho E Hc. destruct (initparse_spec msg x rest Ho) as (r & E' & H). rewrite E in E'. simplify_eq. destruct H as (Hm & Es & En & Ep).
  destruct (parse_calls_spec cm msg x rest Ho calls h h) as (rs & h' & Hr & _ & Hrs); [split; [done|by left]|done|done|].
  exists rs, h'. split; [done|]. unfold handle_cursor in Hrs. by rewrite Es, En in Hrs.
Qed.

(** A reply with one question, two answers that point back to its name, and no more. *)
Definition sample_reply : list Z :=
  [0x12; 0x34; 0x81; 0x80; 0; 1; 0; 2; 0; 0; 0; 0; 1; 0x61; 0; 0; 1; 0; 1;
   0xc0; 12; 0; 1; 0; 1; 0; 0; 0; 60; 0; 4; 10; 0; 0; 1; 0xc0; 12; 0; 1; 0; 1; 0; 0; 0; 61; 0; 4; 10; 0; 0; 2].
Definition sample_handle : ns_msg := mkMsg 0x1234 0x8180 [1; 2; 0; 0] [Some 12; Some 19; None; None] 4 (-1) None.
Definition sample_rr (ttl rdata : Z) : ns_rr := mkRr [0x61; 0] 1 1 ttl 4 (Some rdata).
Definition sample_calls : list (Z * Z) := [(1, 1); (1, 0); (1, -1); (1, -1); (0, 0); (2, 0)].

Lemma sample_reply_octets : octets (sample_reply ++ [0]).
Proof.
  intros y Hy. apply list_elem_of_lookup in Hy as [i Hi].
  assert (forallb (fun y => (0 <=? y) && (y <? 256)) (sample_reply ++ [0]) = true) as H by (vm_compute; reflexivity).
  rewrite forallb_forall in H. specialize (H y). rewrite andb_true_iff, Z.leb_le, Z.ltb_lt in H. apply H, list_elem_of_In. by eapply list_elem_of_lookup_2.
Qed.

Lemma ns_initparse_exact_witness :
  ns_initparse (sample_reply ++ [0]) 51 = CVal (inr sample_handle) /\
  ns_initparse (sample_reply ++ [0]) 50 = CVal (inl EMSGSIZE) /\
  exists r, ns_initparse (sample_reply ++ [0]) 51 = CVal r /\
    match r with
    | inl e => e = EMSGSIZE /\ forall id flags counts starts, ~ message sample_reply id flags counts starts
    | inr h => message sample_reply (_id h) (_flags h) (_counts h) (_sections h) /\ handle_cursor h = (ns_s_max, -1)
    end.
Proof. split; [vm_compute; reflexivity|]. split; [vm_compute; reflexivity|]. apply (ns_initparse_exact sample_reply 0 []), sample_reply_octets. Defined.

Lemma ns_parserr_reads_witness :
  (r ← parse_calls true (sample_reply ++ [0]) 51 sample_handle sample_calls; CVal r.1) =
    CVal [inr (sample_rr 61 47); inr (sample_rr 60 31); inr (sample_rr 61 47); inl ENODEV; inr (mkRr [0x61; 0] 1 1 0 0 None); inl ENODEV] /\
  exists results h', parse_calls true (sample_reply ++ [0]) 51 sample_handle sample_calls = CVal (results, h') /\
    reads_all true sample_reply 0 [] sample_handle (ns_s_max, -1) sample_calls results.
Proof.
  split; [vm_compute; reflexivity|].
  apply (ns_parserr_reads true sample_reply 0 [] sample_handle sample_calls sample_reply_octets); [vm_compute; reflexivity|].
  repeat constructor; cbn; lia.
Defined.
