(* ===== verification/NsQuery.v ===== *)
(** * Queries and replies: resolv/res_mkquery.c, ns_samedomain.c and the checks of res_send.c

    res_nmkquery and res_nopt make the octets of a query; ns_makecanon and ns_samename
    compare names as text; res_nameinquery and res_queriesmatch compare the questions of a
    reply with those of the query.  A query that is made is parsed back, accepted by the
    cache and matched by itself, and a well-formed reply matches a query exactly when it
    has its questions. *)

From Stdlib Require Import ZArith Lia.
From stdpp Require Import base list numbers sets.
From S2P Require Import Prelude CMem Ctype Bytes Digits NsName NsPack NsText NsParse DnsQuery.

Open Scope Z_scope.

Definition HFIXEDSZ : Z := 12.
Definition QFIXEDSZ : Z := 4.
Definition RRFIXEDSZ : Z := 10.
Definition QUERY : Z := 0.
Definition IQUERY : Z := 1.
Definition NS_NOTIFY_OP : Z := 4.
Definition ns_o_update : Z := 5.
Definition NOERROR : Z := 0.
Definition T_NULL : Z := 10.
Definition T_OPT : Z := 41.
Definition RES_RECURSE : Z := 0x40.
Definition RES_USE_DNSSEC : Z := 0x200000.
Definition NS_OPT_DNSSEC_OK : Z := 0x8000.

(** ** Making queries *)

(** The header: the octets of the bit fields are RD, TC, AA, the opcode and QR from the
    lowest bit, then the response code. *)
Definition header (id op : Z) (rd : bool) (qdcount ancount arcount : Z) : list Z :=
  ns_put16 id ++ [Z.lor (Z.shiftl (Z.land op 0xf) 3) (b2z rd); NOERROR] ++ ns_put16 qdcount ++ ns_put16 ancount ++ ns_put16 0 ++ ns_put16 arcount.

(** The octets that are stored in [buf], or [None] for -1.  [id] is what res_randomid gives
    and [options] are those of the resolver's state; the pointers start with buf and NULL in
    an array of twenty. *)
Definition res_nmkquery (options id op : Z) (dname : list Z) (class type : Z) (data : option (list Z)) (datalen : Z)
    (buf : bool) (buflen : Z) : cres (option (list Z)) :=
  if negb buf || (buflen <? HFIXEDSZ) then CVal None
  else
    let hp := header id op (negb (Z.land options RES_RECURSE =? 0)) in
    if (op =? QUERY) || (op =? NS_NOTIFY_OP) then
      if buflen - HFIXEDSZ <? QFIXEDSZ then CVal None
      else
        r ← dn_comp dname (hp 0 0 0) (buflen - HFIXEDSZ - QFIXEDSZ) (Some (mkTab [] (Some 20)));
        match r with
        | (inl _, _) => CVal None
        | (inr out, dnptrs) =>
            let cp := out ++ ns_put16 type ++ ns_put16 class in
            match data with
            | Some data =>
                if op =? QUERY then CVal (Some (hp 1 0 0 ++ cp))
                else
                  let room := buflen - HFIXEDSZ - Z.of_nat (length cp) in
                  if room <? RRFIXEDSZ then CVal None
                  else
                    r ← dn_comp data (hp 1 0 0 ++ cp) (room - RRFIXEDSZ) dnptrs;
                    match r with
                    | (inl _, _) => CVal None
                    | (inr out, _) => CVal (Some (hp 1 0 1 ++ cp ++ out ++ ns_put16 T_NULL ++ ns_put16 class ++ ns_put32 0 ++ ns_put16 0))
                    end
            | None => CVal (Some (hp 1 0 0 ++ cp))
            end
        end
    else if op =? IQUERY then
      if buflen - HFIXEDSZ <? s32 (1 + RRFIXEDSZ + datalen) then CVal None
      else
        rdata ← (if datalen =? 0 then CVal []
                 else match data with Some data => aslice data 0 datalen | None => CUndef end);
        CVal (Some (hp 0 1 0 ++ [0] ++ ns_put16 type ++ ns_put16 class ++ ns_put32 0 ++ ns_put16 datalen ++ rdata))
    else CVal None.

(** The OPT record at the end of the query [buf], and the count of additional records. *)
Definition res_nopt (options : Z) (buf : list Z) (buflen anslen : Z) : cres (option (list Z)) :=
  if buflen - Z.of_nat (length buf) <? 1 + RRFIXEDSZ then CVal None
  else
    let flags := if negb (Z.land options RES_USE_DNSSEC =? 0) then NS_OPT_DNSSEC_OK else 0 in
    let opt := [0] ++ ns_put16 T_OPT ++ ns_put16 (Z.land anslen 0xffff) ++ [NOERROR; 0] ++ ns_put16 flags ++ ns_put16 0 in
    arcount ← ns_get16 buf 10;
    CVal (Some (take 10 buf ++ ns_put16 (arcount + 1) ++ drop 12 buf ++ opt)).

(** ** Comparing names *)

Fixpoint strlen_at (fuel : nat) (s : list Z) (p : Z) : cres Z :=
  match fuel with
  | O => CFuel
  | S f => c ← aget s p; if c =? 0 then CVal p else strlen_at f s (p + 1)
  end.
Definition strlen_of (s : list Z) : cres Z := strlen_at (S (length s)) s 0.

(** strcasecmp of two strings. *)
Fixpoint strcasecmp_at (fuel : nat) (s1 s2 : list Z) (p : Z) : cres Z :=
  match fuel with
  | O => CFuel
  | S f =>
      c1 ← aget s1 p; c2 ← aget s2 p;
      if negb (cm c1 =? cm c2) then CVal (cm c1 - cm c2) else if c1 =? 0 then CVal 0 else strcasecmp_at f s1 s2 (p + 1)
  end.
Definition strcasecmp_of (s1 s2 : list Z) : cres Z := strcasecmp_at (S (length s1)) s1 s2 0.

(** The dots at the end of [dst] that are removed. *)
Fixpoint canon_loop (fuel : nat) (dst : list Z) : cres (list Z) :=
  match fuel with
  | O => CFuel
  | S f =>
      let n := Z.of_nat (length dst) in
      if n <? 1 then CVal dst
      else
        c1 ← aget dst (n - 1);
        if negb (c1 =? 0x2e) then CVal dst
        else
          c2 ← (if 2 <=? n then aget dst (n - 2) else CVal 0);
          c3 ← (if (c2 =? 0x5c) && (3 <=? n) then aget dst (n - 3) else CVal 0);
          if (c2 =? 0x5c) && ((n <? 3) || negb (c3 =? 0x5c)) then CVal dst
          else canon_loop f (take (Z.to_nat (n - 1)) dst)
  end.

Definition ns_makecanon (src : list Z) (dstsize : Z) : cres (Z + list Z) :=
  n ← strlen_of src;
  if dstsize <? n + 2 then CVal (inl EMSGSIZE)
  else dst ← canon_loop (S (length src)) (take (Z.to_nat n) src); CVal (inr (dst ++ [0x2e; 0])).

Definition ns_samename (a b : list Z) : cres Z :=
  ta ← ns_makecanon a NS_MAXDNAME;
  match ta with
  | inl _ => CVal (-1)
  | inr ta =>
      tb ← ns_makecanon b NS_MAXDNAME;
      match tb with
      | inl _ => CVal (-1)
      | inr tb => r ← strcasecmp_of ta tb; CVal (if r =? 0 then 1 else 0)
      end
  end.

(** ** Comparing questions *)

Definition MAXDNAME : Z := NS_MAXDNAME.

Section match_queries.
Context (sc : CharModel).

(** A question at [cp]: [None] where -1 is returned. *)
Definition next_question (buf : list Z) (eom cp : Z) : cres (option (list Z * Z * Z * Z)) :=
  r ← dn_expand sc buf eom cp (MAXDNAME + 1);
  match r with
  | inl _ => CVal None
  | inr (n, tname) =>
      let cp := cp + n in
      if eom <? cp + 2 * NS_INT16SZ then CVal None
      else
        ttype ← ns_get16 buf cp;
        tclass ← ns_get16 buf (cp + NS_INT16SZ);
        CVal (Some (tname, ttype, tclass, cp + 2 * NS_INT16SZ))
  end.

Fixpoint nameinquery_loop (qdcount : nat) (name : list Z) (type class : Z) (buf : list Z) (eom cp : Z) : cres Z :=
  match qdcount with
  | O => CVal 0
  | S n =>
      q ← next_question buf eom cp;
      match q with
      | None => CVal (-1)
      | Some (tname, ttype, tclass, cp) =>
          same ← (if (ttype =? type) && (tclass =? class) then ns_samename tname name else CVal 0);
          if same =? 1 then CVal 1 else nameinquery_loop n name type class buf eom cp
      end
  end.

Definition res_nameinquery (name : list Z) (type class : Z) (buf : list Z) (eom : Z) : cres Z :=
  qdcount ← ns_get16 buf 4; nameinquery_loop (Z.to_nat qdcount) name type class buf eom HFIXEDSZ.

Fixpoint queriesmatch_loop (qdcount : nat) (buf1 : list Z) (eom1 cp : Z) (buf2 : list Z) (eom2 : Z) : cres Z :=
  match qdcount with
  | O => CVal 1
  | S n =>
      q ← next_question buf1 eom1 cp;
      match q with
      | None => CVal (-1)
      | Some (tname, ttype, tclass, cp) =>
          r ← res_nameinquery tname ttype tclass buf2 eom2;
          if r =? 0 then CVal 0 else queriesmatch_loop n buf1 eom1 cp buf2 eom2
      end
  end.

Definition opcode_of (buf : list Z) : cres Z := b ← aget buf 2; CVal (Z.land (Z.shiftr b 3) 0xf).

Definition res_queriesmatch (buf1 : list Z) (eom1 : Z) (buf2 : list Z) (eom2 : Z) : cres Z :=
  qdcount ← ns_get16 buf1 4;
  if (eom1 <? HFIXEDSZ) || (eom2 <? HFIXEDSZ) then CVal (-1)
  else
    op1 ← opcode_of buf1;
    op2 ← opcode_of buf2;
    if (op1 =? ns_o_update) && (op2 =? ns_o_update) then CVal 1
    else
      qdcount2 ← ns_get16 buf2 4;
      if negb (qdcount =? qdcount2) then CVal 0
      else queriesmatch_loop (Z.to_nat qdcount) buf1 eom1 HFIXEDSZ buf2 eom2.
End match_queries.

(** ** Canonical text *)

Lemma cm_mklower c : 0 <= c < 256 -> cm c = mklower c.
Proof. unfold mklower. byte_cases c. Qed.

Lemma mklower_zero c : mklower c = 0 -> c = 0.
Proof. unfold mklower. destruct (_ && _) eqn:E; [zbool; lia|done]. Qed.

Lemma strlen_at_ok s : 0 ∉ s -> forall pre rest fuel, (length s < fuel)%nat ->
  strlen_at fuel (pre ++ s ++ 0 :: rest) (Z.of_nat (length pre)) = CVal (Z.of_nat (length pre + length s)).
Proof.
  induction s as [|c s IH]; intros Hz pre rest fuel Hf; (destruct fuel as [|f]; [lia|]); cbn [strlen_at app].
  - rewrite aget_app. cbn [mbind cres_bind Z.eqb length]. f_equal. lia.
  - rewrite aget_app. cbn [mbind cres_bind]. apply not_elem_of_cons in Hz as [Hc Hz]. rewrite (proj2 (Z.eqb_neq c 0)) by done.
    specialize (IH Hz (pre ++ [c]) rest f). rewrite <- app_assoc, length_app in IH. cbn [app length] in *.
    replace (Z.of_nat (length pre) + 1) with (Z.of_nat (length pre + 1)) by lia. rewrite IH by lia. f_equal. lia.
Qed.

Lemma strlen_of_ok s rest : 0 ∉ s -> strlen_of (s ++ 0 :: rest) = CVal (Z.of_nat (length s)).
Proof. intros Hz. apply (strlen_at_ok s Hz [] rest). rewrite length_app. lia. Qed.

Lemma strcasecmp_at_ok s1 : forall s2 p1 p2 r1 r2 fuel, octets s1 -> octets s2 -> 0 ∉ s1 -> 0 ∉ s2 -> length p1 = length p2 -> (length s1 < fuel)%nat ->
  exists r, strcasecmp_at fuel (p1 ++ s1 ++ 0 :: r1) (p2 ++ s2 ++ 0 :: r2) (Z.of_nat (length p1)) = CVal r /\
    (r = 0 <-> map mklower s1 = map mklower s2).
Proof.
  assert (forall c s, octets (c :: s) -> 0 ∉ c :: s -> 0 <= c < 256 /\ mklower c <> 0 /\ octets s /\ 0 ∉ s) as Hhd.
  { intros c s Ho Hz. apply not_elem_of_cons in Hz as [Hc Hz]. split; [apply Ho; left|]. split; [intros E; by apply mklower_zero in E|].
    split; [intros y Hy; apply Ho; by right|done]. }
  induction s1 as [|a s1 IH]; intros s2 p1 p2 r1 r2 fuel Ho1 Ho2 Hz1 Hz2 Hp Hf; (destruct fuel as [|f]; [lia|]); cbn [strcasecmp_at app];
    rewrite aget_app, Hp; (destruct s2 as [|b s2]; cbn [app]; rewrite aget_app; cbn [mbind cres_bind]).
  - by eexists.
  - destruct (Hhd b s2 Ho2 Hz2) as (Hb & Hb0 & _). rewrite (cm_mklower b Hb). change (cm 0) with 0.
    destruct (Z.eqb_spec 0 (mklower b)) as [E|_]; [by symmetry in E|]. eexists. split; [done|]. split; [lia|done].
  - destruct (Hhd a s1 Ho1 Hz1) as (Ha & Ha0 & _). rewrite (cm_mklower a Ha). change (cm 0) with 0.
    destruct (Z.eqb_spec (mklower a) 0) as [E|_]; [done|]. eexists. split; [done|]. split; [lia|done].
  - destruct (Hhd a s1 Ho1 Hz1) as (Ha & Ha0 & Ho1' & Hz1'), (Hhd b s2 Ho2 Hz2) as (Hb & Hb0 & Ho2' & Hz2'). rewrite !cm_mklower by done. cbn [map].
    destruct (Z.eqb_spec (mklower a) (mklower b)) as [E|E]; cbn [negb].
    + rewrite (proj2 (Z.eqb_neq a 0)) by (intros ->; done). rewrite <- Hp. specialize (IH s2 (p1 ++ [a]) (p2 ++ [b]) r1 r2 f Ho1' Ho2' Hz1' Hz2').
      rewrite !length_app, <- !app_assoc in IH. cbn [app length] in IH, Hf. replace (Z.of_nat (length p1) + 1) with (Z.of_nat (length p1 + 1)) by lia.
      destruct IH as (r & -> & Hr); [lia|lia|]. exists r. split; [done|]. rewrite Hr, E. split; [by intros ->|by intros [= ?]].
    + eexists. split; [done|]. split; [lia|]. by intros [= ? ?].
Qed.

(** The dots that are removed, on the reversed text. *)
Fixpoint strip (l : list Z) : list Z :=
  match l with
  | [] => []
  | c1 :: l' =>
      if negb (c1 =? 0x2e) then l
      else match l' with
           | c2 :: l2 => if (c2 =? 0x5c) && match l2 with [] => true | c3 :: _ => negb (c3 =? 0x5c) end then l else strip l'
           | [] => []
           end
  end.

Lemma aget_end (l : list Z) x post : aget (reverse l ++ x :: post) (Z.of_nat (length l)) = CVal x.
Proof. rewrite <- length_reverse. apply aget_app. Qed.

Lemma canon_loop_strip fuel : forall l, (length l < fuel)%nat -> canon_loop fuel (reverse l) = CVal (reverse (strip l)).
Proof.
  induction fuel as [|f IH]; intros l Hf; [lia|]. cbn [canon_loop strip]. rewrite length_reverse.
  destruct l as [|c1 l]; [done|]. cbn [length] in *. zif. rewrite reverse_cons.
  replace (Z.of_nat (S (length l)) - 1) with (Z.of_nat (length l)) by lia. rewrite aget_end. cbn [mbind cres_bind strip].
  destruct (Z.eqb_spec c1 0x2e) as [->|Hne]; cbn [negb]; [|by rewrite reverse_cons].
  assert (take (length l) (reverse l ++ [0x2e]) = reverse l) as Ht by (rewrite <- (length_reverse l) at 1; apply take_app_length).
  destruct l as [|c2 l]; cbn [length].
  - zif. cbn [mbind cres_bind]. change (0 =? 0x5c) with false. cbv iota. cbn [andb mbind cres_bind]. rewrite Nat2Z.id. cbn [length] in Ht. rewrite Ht. apply IH. cbn. lia.
  - zif. rewrite reverse_cons, <- app_assoc. cbn [app]. replace (Z.of_nat (S (S (length l))) - 2) with (Z.of_nat (length l)) by lia. rewrite aget_end. cbn [mbind cres_bind].
    rewrite Nat2Z.id. cbn [length] in Ht. rewrite reverse_cons, <- app_assoc in Ht. cbn [app] in Ht. rewrite Ht.
    destruct (Z.eqb_spec c2 0x5c) as [->|Hne]; cbn [andb mbind cres_bind].
    + destruct l as [|c3 l]; cbn [length].
      * cbn. done.
      * zif. rewrite (reverse_cons l c3), <- ?app_assoc. cbn [app]. replace (Z.of_nat (S (S (S (length l)))) - 3) with (Z.of_nat (length l)) by lia. rewrite aget_end. cbn [mbind cres_bind]. rewrite (proj2 (Z.ltb_ge _ 3)) by lia. cbn [orb].
        destruct (Z.eqb_spec c3 0x5c) as [->|Hne]; cbn [negb].
        -- match goal with |- canon_loop f ?t = _ => replace t with (reverse (0x5c :: 0x5c :: l)) by (rewrite !reverse_cons, <- ?app_assoc; done) end.
           apply IH. cbn in *. lia.
        -- rewrite !reverse_cons, <- ?app_assoc. done.
    + rewrite <- reverse_cons. apply IH. cbn in *. lia.
Qed.

(** The canonical form of a text without a NUL. *)
Definition canon (s : list Z) : list Z := reverse (strip (reverse s)) ++ [0x2e].

Lemma ns_makecanon_ok s rest dstsize : 0 ∉ s -> Z.of_nat (length s) + 2 <= dstsize -> ns_makecanon (s ++ 0 :: rest) dstsize = CVal (inr (canon s ++ [0])).
Proof.
  intros Hz Hl. unfold ns_makecanon. rewrite strlen_of_ok by done. cbn [mbind cres_bind]. zif. rewrite Nat2Z.id, take_app_length.
  rewrite <- (reverse_involutive s) at 2. rewrite canon_loop_strip by (rewrite length_reverse, length_app; lia). cbn [mbind cres_bind]. unfold canon. by rewrite <- app_assoc.
Qed.

Lemma strip_suffix l : exists pre, l = pre ++ strip l.
Proof.
  induction l as [|c1 l IH]; [by exists []|]. cbn [strip]. destruct (negb (c1 =? 0x2e)); [by exists []|].
  destruct IH as [pre IH]. destruct l as [|c2 l]; [by exists [c1]|]. destruct (_ && _); [by exists []|]. exists (c1 :: pre). cbn [app]. by f_equal.
Qed.

Lemma canon_in s x : x ∈ canon s -> x ∈ s \/ x = 0x2e.
Proof.
  unfold canon. rewrite elem_of_app, elem_of_reverse, list_elem_of_singleton. intros [Hx|Hx]; [left|by right].
  destruct (strip_suffix (reverse s)) as [pre E]. apply elem_of_reverse. rewrite E. apply elem_of_app. by right.
Qed.

(** ns_samename compares the canonical forms. *)
Lemma ns_samename_canon a b ra rb : octets a -> octets b -> 0 ∉ a -> 0 ∉ b -> Z.of_nat (length a) + 2 <= NS_MAXDNAME -> Z.of_nat (length b) + 2 <= NS_MAXDNAME ->
  ns_samename (a ++ 0 :: ra) (b ++ 0 :: rb) = CVal (if bool_decide (map mklower (canon a) = map mklower (canon b)) then 1 else 0).
Proof.
  intros Hoa Hob Ha Hb Hla Hlb. unfold ns_samename. rewrite ns_makecanon_ok by done. cbn [mbind cres_bind]. rewrite ns_makecanon_ok by done. cbn [mbind cres_bind].
  assert (forall s, octets s -> 0 ∉ s -> octets (canon s) /\ 0 ∉ canon s) as Hc.
  { intros s Ho Hz. split; [intros x Hx|intros Hx]; apply canon_in in Hx as [Hx|Hx]; auto; lia. }
  destruct (Hc a Hoa Ha) as [Ha1 Ha2], (Hc b Hob Hb) as [Hb1 Hb2].
  destruct (strcasecmp_at_ok (canon a) (canon b) [] [] [] [] (S (length (canon a ++ [0])))) as (r & E & Hr); try done; [rewrite length_app; lia|].
  cbn [app length] in E. change (Z.of_nat 0) with 0 in E. unfold strcasecmp_of. rewrite E. cbn [mbind cres_bind]. f_equal.
  destruct (Z.eqb_spec r 0) as [H0|H0]; case_bool_decide; try done; tauto.
Qed.

(** ** Canonical names *)

(** A text of a name: with or without a final dot; the root may be empty. *)
Definition is_text (labs : list (list Z)) (s : list Z) : Prop :=
  s = name_text labs \/ match labs with [] => s = [] | _ => s = name_text labs ++ [0x2e] end.

Lemma strip_map l : strip (map mklower l) = map mklower (strip l).
Proof.
  assert (forall c k, k = 0x2e \/ k = 0x5c -> (mklower c =? k) = (c =? k)) as Hk.
  { intros c k Hk. unfold mklower. destruct (_ && _) eqn:E; [zbool|done]. destruct (Z.eqb_spec (c + 32) k), (Z.eqb_spec c k); lia. }
  induction l as [|c1 l IH]; [done|]. cbn [map strip]. rewrite Hk by by left. destruct (negb (c1 =? 0x2e)); [done|].
  destruct l as [|c2 l]; [done|]. cbn [map] in *. rewrite Hk by by right.
  assert (match map mklower l with [] => true | c3 :: _ => negb (c3 =? 0x5c) end = match l with [] => true | c3 :: _ => negb (c3 =? 0x5c) end) as ->.
  { destruct l as [|c3 l]; [done|]. cbn [map]. by rewrite Hk by by right. }
  destruct (_ && _); [done|]. apply IH.
Qed.

Lemma canon_map s : map mklower (canon s) = canon (map mklower s).
Proof. unfold canon. rewrite map_app. f_equal. change (map mklower) with (fmap (M := list) mklower). rewrite fmap_reverse, <- (fmap_reverse mklower s). by rewrite <- strip_map. Qed.

Lemma text_last labs : Forall lab_plain labs -> labs <> [] -> exists t c, 0 <= c < 256 /\ name_text labs = t ++ esc c.
Proof.
  intros Hp Hne. destruct (exists_last Hne) as (l & lab & ->). apply Forall_app in Hp as [_ Hp]. apply Forall_cons in Hp as [(n & d & -> & Hn & Hd & Ho) _].
  assert (d <> []) as Hdne by (intros ->; cbn in Hd; lia). destruct (exists_last Hdne) as (d' & c & ->).
  assert (exists t, name_text (l ++ [n :: d' ++ [c]]) = t ++ lab_text (n :: d' ++ [c])) as (t & ->).
  { destruct l as [|lab0 l]; [exists []; cbn [name_text app tail_text map concat]; by rewrite app_nil_r|]. cbn [name_text app].
    unfold tail_text. rewrite map_app, concat_app. cbn [map concat]. rewrite app_nil_r. exists (lab_text lab0 ++ concat (map (fun lab => 0x2e :: lab_text lab) l) ++ [0x2e]).
    by rewrite <- !app_assoc. }
  unfold lab_text. cbn [tail]. rewrite map_app, concat_app. cbn [map concat]. rewrite app_nil_r, app_assoc. eexists _, c. split; [|done].
  apply Ho, elem_of_app. right. by left.
Qed.

(** The last characters of a text. *)
Lemma esc_last c : 0 <= c < 256 -> esc c = [0x5c; c] \/ exists t k, esc c = t ++ [k] /\ k <> 0x2e /\ k <> 0x5c.
Proof.
  intros Hc. unfold esc. destruct (special c) eqn:Es; [by left|right]. destruct (negb (printable c)).
  - exists [0x5c; digits (c / 100); digits (c mod 100 / 10)], (digits (c mod 10)). split; [done|]. unfold digits. split; zdm.
  - exists [], c. split; [done|]. split; intros ->; by vm_compute in Es.
Qed.

Lemma canon_escaped t c : 0 <= c < 256 -> let s := t ++ esc c in (canon s = s ++ [0x2e] \/ canon s = s) /\ canon (s ++ [0x2e]) = canon s.
Proof.
  intros Hc s. unfold s, canon. destruct (esc_last c Hc) as [->|(t' & k & -> & Hk1 & Hk2)].
  - change [0x5c; c] with ([0x5c] ++ [c]). rewrite !app_assoc, !reverse_snoc. cbn [strip].
    destruct (Z.eqb_spec c 0x2e) as [->|Hne]; cbn [negb].
    + change (0x2e =? 0x2e) with true. change (0x2e =? 0x5c) with false. change (0x5c =? 0x5c) with true. change (0x5c =? 0x2e) with false. cbn [negb andb].
      split; [|done]. destruct (reverse t) as [|c3 r] eqn:Er; cbn [negb].
      * left. rewrite <- (reverse_involutive t), Er. done.
      * destruct (negb (c3 =? 0x5c)); rewrite <- Er; [left|right]; rewrite ?reverse_cons, ?reverse_involutive; done.
    + change (0x2e =? 0x2e) with true. change (0x5c =? 0x5c) with true. cbn [negb]. split.
      * left. by rewrite !reverse_cons, reverse_involutive.
      * change (negb true) with false. by rewrite andb_false_r.
  - rewrite !app_assoc, !reverse_snoc. cbn [strip]. rewrite (proj2 (Z.eqb_neq k 0x2e) Hk1), (proj2 (Z.eqb_neq k 0x5c) Hk2). change (0x2e =? 0x2e) with true. cbn [negb andb].
    split; [|done]. left. by rewrite reverse_cons, reverse_involutive.
Qed.

Lemma canon_text labs s : Forall lab_plain labs -> labs <> [] -> is_text labs s ->
  canon s = canon (name_text labs) /\ (canon s = name_text labs ++ [0x2e] \/ canon s = name_text labs).
Proof.
  intros Hp Hne Hs. destruct (text_last labs Hp Hne) as (t & c & Hc & E). destruct (canon_escaped t c Hc) as [H1 H2]. unfold is_text in Hs. rewrite E in *.
  assert (s = t ++ esc c \/ s = (t ++ esc c) ++ [0x2e]) as [->| ->] by (destruct labs; [done|tauto]); [done|by rewrite H2].
Qed.

(** ** Names in lower case *)

Definition lower_labs (labs : list (list Z)) : list (list Z) := map (map mklower) labs.

Lemma esc_lower c : 0 <= c < 256 -> esc (mklower c) = map mklower (esc c).
Proof. byte_cases c. Qed.

Lemma lab_text_lower lab : lab_plain lab -> lab_text (map mklower lab) = map mklower (lab_text lab).
Proof.
  intros (n & d & -> & _ & _ & Ho). unfold lab_text. cbn [map tail]. induction d as [|c d IH]; [done|]. apply octets_cons in Ho as [Hc Ho].
  cbn [map concat]. rewrite map_app, <- esc_lower by done. f_equal. apply IH, Ho.
Qed.

Lemma name_text_lower labs : Forall lab_plain labs -> name_text (lower_labs labs) = map mklower (name_text labs).
Proof.
  unfold lower_labs, name_text, tail_text. destruct 1 as [|lab labs Hp Hps]; [done|]. cbn [map]. rewrite map_app, <- lab_text_lower by done. f_equal.
  induction Hps as [|lab2 labs Hp2 _ IH]; [done|]. cbn [map concat]. rewrite map_app. cbn [map]. rewrite <- lab_text_lower by done. cbn [app].
  change (mklower 0x2e) with 0x2e. by rewrite IH.
Qed.

Lemma mklower_idem c : mklower (mklower c) = mklower c.
Proof. unfold mklower. destruct ((0x41 <=? c) && (c <=? 0x5a)) eqn:E; [|by rewrite E]. zbool. by rewrite (proj2 (Z.leb_gt (c + 0x20) 0x5a)), andb_false_r by lia. Qed.

Lemma ceq_lower labs : ceq labs (lower_labs labs).
Proof.
  unfold ceq, lower_labs. rewrite map_map. apply map_ext. intros lab. rewrite map_map. apply map_ext. intros c. symmetry. apply mklower_idem.
Qed.

Lemma wire_inj l1 : Forall lab_plain l1 -> forall l2, Forall lab_plain l2 -> wire l1 = wire l2 -> l1 = l2.
Proof.
  unfold wire. assert (forall lab labs, Forall lab_plain (lab :: labs) -> [0] <> concat (lab :: labs) ++ [0]) as Hnil.
  { intros lab labs H. apply Forall_cons in H as [(n & d & -> & Hn & _) _]. cbn [concat app]. intros [= ? _]. lia. }
  induction 1 as [|lab1 l1 H1 Hs1 IH]; intros [|lab2 l2] H2 E; [done|by apply Hnil in E|symmetry in E; apply Hnil in E; [done|by constructor]|].
  apply Forall_cons in H2 as [H2 Hs2]. destruct H1 as (n1 & d1 & -> & _ & Hd1 & _), H2 as (n2 & d2 & -> & _ & Hd2 & _).
  cbn [concat app] in E. injection E as -> E. rewrite <- !app_assoc in E. apply app_inj_1 in E as [-> E]; [|lia]. by rewrite (IH l2 Hs2 E).
Qed.

(** The canonical texts of two names are the same, without case, when the names are. *)
Lemma canon_ceq la lb a b : Forall lab_plain la -> Forall lab_plain lb -> Z.of_nat (length (wire la)) <= NS_MAXCDNAME -> Z.of_nat (length (wire lb)) <= NS_MAXCDNAME ->
  is_text la a -> is_text lb b -> map mklower (canon a) = map mklower (canon b) <-> ceq la lb.
Proof.
  intros Hpa Hpb Hwa Hwb Ha Hb.
  assert (forall s, is_text [] s -> canon s = [0x2e]) as Hroot by (intros s [->| ->]; done).
  assert (forall labs s, Forall lab_plain labs -> labs <> [] -> is_text labs s -> [0x2e] <> map mklower (canon s)) as Hne.
  { intros labs s Hp Hn Hs E. destruct (canon_text labs s Hp Hn Hs) as [_ Hc]. destruct Hp as [|lab labs Hp _]; [done|].
    destruct (lab_text_cons lab Hp) as (c & t & Et & _ & Hc2e). cbn [name_text] in Hc. rewrite Et in Hc.
    assert (mklower c = 0x2e) as Hm by (destruct Hc as [Hc|Hc]; rewrite Hc in E; cbn [app map] in E; by injection E as <-).
    unfold mklower in Hm. destruct (_ && _) eqn:Ec; [zbool; lia|done]. }
  assert (forall labs, Forall lab_plain labs -> labs <> [] -> Z.of_nat (length (wire labs)) <= NS_MAXCDNAME -> forall s, is_text labs s ->
    exists fq, ns_name_pton (map mklower (canon s) ++ [0]) NS_MAXCDNAME = CVal (inr (fq, wire (lower_labs labs)))) as Hpton.
  { intros labs Hp Hn Hw s Hs. destruct (canon_text labs s Hp Hn Hs) as [_ Hc].
    assert (Forall lab_plain (lower_labs labs)) as Hpl by (eapply ceq_plain; [done|apply ceq_lower]).
    assert (length (wire (lower_labs labs)) = length (wire labs)) as Hlen by (symmetry; apply ceq_length, ceq_lower).
    assert (Z.of_nat (length (wire (lower_labs labs))) <= Z.min NS_MAXCDNAME NS_MAXCDNAME) as Hle by lia.
    destruct labs as [|lab labs]; [done|]. destruct Hc as [-> | ->]; rewrite ?map_app, <- name_text_lower by done.
    - exists 1. rewrite <- app_assoc. rewrite <- (app_nil_r (map mklower [0x2e] ++ [0])). apply ns_name_pton_end; [by right|done|exact Hle].
    - exists 0. rewrite <- (app_nil_r [0]). apply ns_name_pton_end; [by left|done|exact Hle]. }
  destruct la as [|la1 la]; [rewrite (Hroot a Ha)|]; (destruct lb as [|lb1 lb]; [rewrite (Hroot b Hb)|]).
  - done.
  - split; [intros E; by destruct (Hne (lb1 :: lb) b Hpb ltac:(done) Hb E)|done].
  - split; [intros E; symmetry in E; by destruct (Hne (la1 :: la) a Hpa ltac:(done) Ha E)|done].
  - split; intros E.
    + destruct (Hpton (la1 :: la) Hpa ltac:(done) Hwa a Ha) as (f1 & E1), (Hpton (lb1 :: lb) Hpb ltac:(done) Hwb b Hb) as (f2 & E2). rewrite E, E2 in E1. injection E1 as _ E1.
      assert (forall l, Forall lab_plain l -> Forall lab_plain (lower_labs l)) as Hpl by (intros l Hl; eapply ceq_plain; [done|apply ceq_lower]).
      symmetry in E1. apply (wire_inj _ (Hpl _ Hpa) _ (Hpl _ Hpb)) in E1. exact E1.
    + destruct (canon_text (la1 :: la) a Hpa ltac:(done) Ha) as [-> _], (canon_text (lb1 :: lb) b Hpb ltac:(done) Hb) as [-> _].
      rewrite !canon_map. f_equal. by apply name_text_mklower.
Qed.

Lemma name_text_bound labs : Forall lab_plain labs -> (length (name_text labs) <= 4 * length (wire labs))%nat /\ (labs <> [] -> length (name_text labs) < 4 * length (wire labs))%nat.
Proof.
  assert (forall c, (length (esc c) <= 4)%nat) as He by (intros c; unfold esc; destruct (special c), (negb (printable c)); cbn; lia).
  assert (forall lab, lab_plain lab -> (length (lab_text lab) + 4 <= 4 * length lab)%nat) as Hlab.
  { intros lab (n & d & -> & _). unfold lab_text. cbn [tail length]. induction d as [|c d IH]; [cbn; lia|]. cbn [map concat length]. rewrite length_app. specialize (He c). lia. }
  unfold wire. rewrite length_app. cbn [length]. destruct 1 as [|lab labs Hp Hps]; [cbn; split; [lia|done]|].
  enough (length (tail_text labs) <= 4 * length (concat labs))%nat as Ht.
  { cbn [name_text concat]. rewrite !length_app. specialize (Hlab lab Hp). split; [lia|intros _; lia]. }
  induction Hps as [|lab2 labs Hp2 _ IH]; [cbn; lia|]. rewrite tail_text_cons. cbn [length concat]. rewrite !length_app. specialize (Hlab lab2 Hp2). lia.
Qed.

Lemma name_text_octets labs : Forall lab_plain labs -> octets (name_text labs).
Proof.
  assert (forall c, 0 <= c < 256 -> octets (esc c)) as He.
  { intros c Hc x Hx. unfold esc in Hx. destruct (special c), (negb (printable c)); rewrite ?elem_of_cons in Hx; unfold digits in Hx; destruct_or! Hx; subst; try zdm;
      by apply not_elem_of_nil in Hx. }
  assert (forall l1 l2, octets l1 -> octets l2 -> octets (l1 ++ l2)) as Happ by (intros l1 l2 H1 H2 x [Hx|Hx]%elem_of_app; auto).
  assert (forall lab, lab_plain lab -> octets (lab_text lab)) as Hlab.
  { intros lab (n & d & -> & _ & _ & Ho). unfold lab_text. cbn [tail]. induction d as [|c d IH]; [by intros x ?%not_elem_of_nil|].
    apply octets_cons in Ho as [Hc Ho]. cbn [map concat]. auto. }
  assert (octets [0x2e]) as Hdot by (intros x ->%list_elem_of_singleton; lia).
  destruct 1 as [|lab labs Hp Hps]; [done|]. cbn [name_text]. apply Happ; [auto|].
  induction Hps as [|lab2 labs Hp2 _ IH]; [by intros x ?%not_elem_of_nil|]. rewrite tail_text_cons. apply (Happ [0x2e]); auto.
Qed.

#[export] Instance ceq_dec labs labs' : Decision (ceq labs labs').
Proof. unfold ceq. apply _. Defined.

(** A name that a label of the wire format can carry. *)
Definition name_ok (labs : list (list Z)) : Prop := Forall lab_plain labs /\ Z.of_nat (length (wire labs)) <= NS_MAXCDNAME.

Lemma is_text_string labs s : name_ok labs -> is_text labs s -> octets s /\ 0 ∉ s /\ Z.of_nat (length s) + 2 <= NS_MAXDNAME.
Proof.
  intros [Hp Hw] Hs. destruct (name_text_bound labs Hp) as [Hb Hb']. pose proof (name_text_octets labs Hp). pose proof (name_text_nonzero labs Hp).
  change NS_MAXDNAME with 1025. change NS_MAXCDNAME with 255 in Hw. destruct Hs as [->|Hs]; [split_and!; [done|done|lia]|].
  destruct labs as [|lab labs]; [rewrite Hs; split_and!; [by intros x ?%not_elem_of_nil|by apply not_elem_of_nil|cbn; lia]|]. rewrite Hs. specialize (Hb' ltac:(done)). rewrite length_app. cbn [length]. split_and!.
  - intros x [Hx| ->%list_elem_of_singleton]%elem_of_app; [auto|lia].
  - rewrite not_elem_of_app. split; [done|]. by intros ?%list_elem_of_singleton.
  - lia.
Qed.

(** ns_samename of two names as text. *)
Lemma ns_samename_text la lb a b ra rb : name_ok la -> name_ok lb -> is_text la a -> is_text lb b ->
  ns_samename (a ++ 0 :: ra) (b ++ 0 :: rb) = CVal (if bool_decide (ceq la lb) then 1 else 0).
Proof.
  intros Hla Hlb Ha Hb. destruct (is_text_string la a Hla Ha) as (Hoa & Hza & Hna), (is_text_string lb b Hlb Hb) as (Hob & Hzb & Hnb).
  rewrite ns_samename_canon by done. f_equal. destruct Hla, Hlb. by rewrite (bool_decide_ext _ _ (canon_ceq la lb a b ltac:(done) ltac:(done) ltac:(done) ltac:(done) Ha Hb)).
Qed.

(** ** The questions of a message *)

Record ns_question := mkNsq { q_labs : list (list Z); q_type : Z; q_class : Z }.

Inductive questions (msg : list Z) : Z -> list ns_question -> Prop :=
| qs_nil p : questions msg p []
| qs_cons p labs ty cl c t qs : decodes msg p labs c t -> t <= Z.of_nat (length msg) -> name_ok labs ->
    get16_at msg (p + c) ty -> get16_at msg (p + c + 2) cl -> questions msg (p + c + 4) qs -> questions msg p (mkNsq labs ty cl :: qs).

(** The same question, up to the case of the name. *)
Definition same_question (q q' : ns_question) : Prop := ceq (q_labs q) (q_labs q') /\ q_type q = q_type q' /\ q_class q = q_class q'.
#[export] Instance same_question_dec q q' : Decision (same_question q q').
Proof. unfold same_question. apply _. Defined.

Section matching.
Context (sc : CharModel) (msg : list Z) (x : Z) (rest : list Z).
Local Notation m := (msg ++ x :: rest).
Local Notation eom := (Z.of_nat (length msg)).
Hypothesis Ho : octets m.

Lemma next_question_ok p q qs : questions msg p (q :: qs) -> exists s junk p',
  next_question sc m eom p = CVal (Some (s ++ 0 :: junk, q_type q, q_class q, p')) /\ is_text (q_labs q) s /\ name_ok (q_labs q) /\ questions msg p' qs.
Proof.
  intros H. inversion H as [|p0 labs ty cl c t qs0 Hd Ht Hn Hty Hcl Hqs]; subst. cbn [q_labs q_type q_class]. pose proof Hn as [Hp Hw].
  assert (Z.of_nat (length (name_text labs)) < MAXDNAME + 1) as Hb.
  { destruct (name_text_bound labs Hp) as [Hb _]. change (MAXDNAME + 1) with 1026. change NS_MAXCDNAME with 255 in Hw. lia. }
  destruct (dn_expand_decodes sc msg x rest (MAXDNAME + 1) p labs c t Hd Ht Hp Hw Hb) as (junk & E).
  unfold next_question. rewrite E. cbn [mbind cres_bind].
  destruct (get16_msg msg x rest Ho _ _ Hty) as [Ety _], (get16_msg msg x rest Ho _ _ Hcl) as [Ecl _].
  apply get16_at_bound in Hcl. change NS_INT16SZ with 2. change (2 * 2) with 4. zif. rewrite Ety, Ecl. cbn [mbind cres_bind].
  eexists _, junk, _. split; [done|]. split; [|done]. destruct labs; [by right|by left].
Qed.

Lemma nameinquery_loop_ok qs : forall p q s junk, questions msg p qs -> is_text (q_labs q) s -> name_ok (q_labs q) ->
  nameinquery_loop sc (length qs) (s ++ 0 :: junk) (q_type q) (q_class q) m eom p = CVal (if decide (Exists (same_question q) qs) then 1 else 0).
Proof.
  induction qs as [|q1 qs IH]; intros p q s junk Hqs Hs Hn; cbn [nameinquery_loop length].
  - destruct (decide _) as [H|_]; [by apply Exists_nil in H|done].
  - destruct (next_question_ok p q1 qs Hqs) as (s1 & junk1 & p' & -> & Hs1 & Hn1 & Hqs'). cbn [mbind cres_bind].
    rewrite (IH p' q s junk Hqs' Hs Hn), (ns_samename_text (q_labs q1) (q_labs q) s1 s junk1 junk) by done.
    assert (Exists (same_question q) (q1 :: qs) <-> same_question q q1 \/ Exists (same_question q) qs) as Hex by apply Exists_cons.
    assert (same_question q q1 <-> ceq (q_labs q1) (q_labs q) /\ q_type q1 = q_type q /\ q_class q1 = q_class q) as Hsq
      by (unfold same_question, ceq; naive_solver).
    destruct (Z.eqb_spec (q_type q1) (q_type q)), (Z.eqb_spec (q_class q1) (q_class q)); cbn [andb mbind cres_bind];
      repeat case_bool_decide; cbn [Z.eqb mbind cres_bind]; repeat destruct (decide _); try done; tauto.
Qed.
End matching.

Lemma queriesmatch_loop_ok sc msg1 x1 rest1 msg2 x2 rest2 qs2 : octets (msg1 ++ x1 :: rest1) -> octets (msg2 ++ x2 :: rest2) ->
  questions msg2 HFIXEDSZ qs2 -> get16_at msg2 4 (Z.of_nat (length qs2)) -> forall qs1 p, questions msg1 p qs1 ->
  queriesmatch_loop sc (length qs1) (msg1 ++ x1 :: rest1) (Z.of_nat (length msg1)) p (msg2 ++ x2 :: rest2) (Z.of_nat (length msg2)) =
  CVal (if decide (Forall (fun q => Exists (same_question q) qs2) qs1) then 1 else 0).
Proof.
  intros Ho1 Ho2 H2 Hc2. induction qs1 as [|q qs1 IH]; intros p H1; cbn [queriesmatch_loop length].
  - destruct (decide _) as [_|H]; [done|]. by destruct H.
  - destruct (next_question_ok sc msg1 x1 rest1 Ho1 p q qs1 H1) as (s & junk & p' & -> & Hs & Hn & Hqs). cbn [mbind cres_bind].
    unfold res_nameinquery. destruct (get16_msg msg2 x2 rest2 Ho2 _ _ Hc2) as [-> _]. cbn [mbind cres_bind]. rewrite Nat2Z.id.
    rewrite (nameinquery_loop_ok sc msg2 x2 rest2 Ho2 qs2 HFIXEDSZ q s junk H2 Hs Hn). cbn [mbind cres_bind].
    assert (Forall (fun q => Exists (same_question q) qs2) (q :: qs1) <-> Exists (same_question q) qs2 /\ Forall (fun q => Exists (same_question q) qs2) qs1) as Hf by (split; [intros HF; by inversion HF|intros []; by constructor]).
    destruct (decide (Exists (same_question q) qs2)); cbn [Z.eqb]; [rewrite (IH p' Hqs)|]; repeat destruct (decide _); try done; tauto.
Qed.

(** The octet of the opcode. *)
Definition opcode_at (msg : list Z) (op : Z) : Prop := exists b, at_off msg 2 [b] /\ op = Z.land (Z.shiftr b 3) 0xf.

Lemma opcode_at_get msg x rest op : opcode_at msg op -> opcode_of (msg ++ x :: rest) = CVal op.
Proof. intros (b & Hb & ->). unfold opcode_of. by rewrite (at_off_head _ 2 b []) by by apply at_off_ext. Qed.

(** A header and questions, as many as it says. *)
Definition asks (msg : list Z) (op : Z) (qs : list ns_question) : Prop :=
  HFIXEDSZ <= Z.of_nat (length msg) /\ opcode_at msg op /\ get16_at msg 4 (Z.of_nat (length qs)) /\ questions msg HFIXEDSZ qs.

Lemma queriesmatch_ok sc msg1 x1 rest1 op1 qs1 msg2 x2 rest2 op2 qs2 :
  octets (msg1 ++ x1 :: rest1) -> octets (msg2 ++ x2 :: rest2) -> asks msg1 op1 qs1 -> asks msg2 op2 qs2 ->
  res_queriesmatch sc (msg1 ++ x1 :: rest1) (Z.of_nat (length msg1)) (msg2 ++ x2 :: rest2) (Z.of_nat (length msg2)) =
  CVal (if decide (op1 = ns_o_update /\ op2 = ns_o_update \/ length qs1 = length qs2 /\ Forall (fun q => Exists (same_question q) qs2) qs1) then 1 else 0).
Proof.
  intros Ho1 Ho2 (L1 & O1 & C1 & Q1) (L2 & O2 & C2 & Q2). unfold res_queriesmatch.
  destruct (get16_msg msg1 x1 rest1 Ho1 _ _ C1) as [-> _]. cbn [mbind cres_bind]. repeat zif.
  rewrite (opcode_at_get _ _ _ _ O1), (opcode_at_get _ _ _ _ O2). cbn [mbind cres_bind].
  destruct (get16_msg msg2 x2 rest2 Ho2 _ _ C2) as [-> _]. cbn [mbind cres_bind].
  rewrite Nat2Z.id, (queriesmatch_loop_ok sc msg1 x1 rest1 msg2 x2 rest2 qs2 Ho1 Ho2 Q2 C2 qs1 _ Q1).
  destruct (Z.eqb_spec op1 ns_o_update), (Z.eqb_spec op2 ns_o_update); cbn [andb];
    [destruct (decide _); [done|tauto]|..];
    (destruct (Z.eqb_spec (Z.of_nat (length qs1)) (Z.of_nat (length qs2))) as [E|E]; cbn [negb];
     [apply Nat2Z.inj in E|]; repeat destruct (decide _); try done; exfalso; naive_solver lia).
Qed.

(** ** The query that is made *)

Lemma ns_put16_bytes v : 0 <= v < 2 ^ 16 -> ns_put16 v = [v / 256; v mod 256].
Proof.
  intros Hv. unfold ns_put16, u16. rewrite (Z.mod_small v) by lia. rewrite Z.shiftr_div_pow2 by lia. change (2 ^ 8) with 256.
  rewrite u8_small by zdm. unfold u8. done.
Qed.

Lemma put16_at pre v post : 0 <= v < 2 ^ 16 -> get16_at (pre ++ ns_put16 v ++ post) (Z.of_nat (length pre)) v.
Proof. intros Hv. exists (v / 256), (v mod 256). rewrite ns_put16_bytes by done. split; [by exists pre, post|zdm]. Qed.

Lemma dn_comp_copies labs rest m dstsiz cap : name_ok labs -> Z.of_nat (length (wire labs)) < dstsiz < 2 ^ 31 ->
  exists tab', dn_comp (name_text labs ++ 0 :: rest) m dstsiz (Some (mkTab [] cap)) = CVal (inr (wire labs), tab').
Proof.
  intros [Hp Hw] Hd. unfold dn_comp, ns_name_compress. rewrite (ns_name_pton_text labs rest NS_MAXCDNAME Hp) by lia. cbn [mbind cres_bind].
  rewrite s32_small by lia.
  destruct (ns_name_pack_copies labs [] m dstsiz cap) as (tab' & E); [by eapply Forall_impl; [done|apply lab_plain_ok]|done|lia|]. exists tab'. by rewrite app_nil_r in E.
Qed.

Lemma decodes_wire m labs : Forall lab_ok labs -> forall p, at_off m p (wire labs) -> decodes m p labs (Z.of_nat (length (wire labs))) (Z.of_nat (length (wire labs))).
Proof.
  unfold wire. induction 1 as [|lab labs Hl _ IH]; intros p Ha; cbn [concat app length] in *.
  - by apply dec_root.
  - rewrite <- app_assoc in *. apply at_off_app in Ha as [Ha Hr]. rewrite length_app, Nat2Z.inj_add. by apply dec_label; [..|apply IH].
Qed.

Lemma wire_octets labs : Forall lab_plain labs -> octets (wire labs).
Proof.
  unfold wire. intros Hp y [Hy| ->%list_elem_of_singleton]%elem_of_app; [|lia]. induction Hp as [|lab ls (n & d & -> & Hlt & _ & Ho) _ IH]; [by apply not_elem_of_nil in Hy|].
  cbn [concat] in Hy. apply elem_of_app in Hy as [Hy|Hy]; [|by apply IH]. apply elem_of_cons in Hy as [->|Hy]; [lia|by apply Ho].
Qed.

(** The octets of a query: the header, the name, the type and the class. *)
Definition query_octets (id : Z) (rd : bool) (labs : list (list Z)) (type class : Z) : list Z :=
  header id QUERY rd 1 0 0 ++ wire labs ++ ns_put16 type ++ ns_put16 class.

Section query.
Context (id : Z) (rd : bool) (labs : list (list Z)) (type class : Z).
Hypothesis Hid : 0 <= id < 2 ^ 16.
Hypothesis Htype : 0 <= type < 2 ^ 16.
Hypothesis Hclass : 0 <= class < 2 ^ 16.
Hypothesis Hn : name_ok labs.
Local Notation q := (query_octets id rd labs type class).

Lemma query_header : header id QUERY rd 1 0 0 = [id / 256; id mod 256; b2z rd; 0; 0; 1; 0; 0; 0; 0; 0; 0].
Proof. unfold header. rewrite (ns_put16_bytes id Hid). by destruct rd. Qed.

Lemma query_length : Z.of_nat (length q) = HFIXEDSZ + Z.of_nat (length (wire labs)) + QFIXEDSZ.
Proof. unfold query_octets. rewrite query_header, !length_app. cbn [length]. unfold ns_put16. cbn [length]. unfold HFIXEDSZ, QFIXEDSZ. lia. Qed.

Lemma query_is_octets : octets q.
Proof.
  assert (forall v, octets (ns_put16 v)) as Hput by (intros v y Hy; unfold ns_put16 in Hy; rewrite !elem_of_cons in Hy; destruct_or! Hy; subst; try apply u8_range; by apply not_elem_of_nil in Hy).
  pose proof (wire_octets labs (proj1 Hn)) as Hw.
  unfold query_octets. rewrite query_header. intros y [Hy|[Hy|[Hy|Hy]%elem_of_app]%elem_of_app]%elem_of_app; [|by apply Hw|by eapply Hput..].
  rewrite !elem_of_cons in Hy. destruct_or! Hy; subst; try (destruct rd; cbn; lia); try zdm. by apply not_elem_of_nil in Hy.
Qed.

Lemma query_field k b0 b1 v : at_off (header id QUERY rd 1 0 0) k [b0; b1] -> v = b0 * 256 + b1 -> get16_at q k v.
Proof. intros Ha ->. exists b0, b1. split; [|done]. by apply at_off_ext. Qed.

Lemma query_asks : asks q QUERY [mkNsq labs type class].
Proof.
  pose proof query_length as Hl. unfold asks. assert (at_off q 12 (wire labs)) as Hw by (unfold query_octets; rewrite query_header; by eexists [_;_;_;_;_;_;_;_;_;_;_;_], _).
  split_and!.
  - unfold HFIXEDSZ, QFIXEDSZ in *. lia.
  - exists (b2z rd). split; [|by destruct rd]. unfold query_octets. rewrite query_header. by eexists [_; _], _.
  - apply (query_field 4 0 1); [|done]. rewrite query_header. by eexists [_; _; _; _], _.
  - destruct Hn as [Hp Hwl]. apply qs_cons with (c := Z.of_nat (length (wire labs))) (t := Z.of_nat (length (wire labs))); [|unfold HFIXEDSZ, QFIXEDSZ in *; lia|done| | |constructor].
    + apply decodes_wire; [|done]. eapply Forall_impl; [done|]. apply lab_plain_ok.
    + unfold query_octets. rewrite app_assoc. replace (HFIXEDSZ + Z.of_nat (length (wire labs))) with (Z.of_nat (length (header id QUERY rd 1 0 0 ++ wire labs))); [by apply put16_at|].
      rewrite query_header, length_app. unfold HFIXEDSZ. cbn [length]. lia.
    + unfold query_octets. rewrite !app_assoc, <- (app_nil_r (ns_put16 class)). replace (HFIXEDSZ + Z.of_nat (length (wire labs)) + 2) with (Z.of_nat (length ((header id QUERY rd 1 0 0 ++ wire labs) ++ ns_put16 type))); [by apply put16_at|].
      rewrite query_header, !length_app. unfold HFIXEDSZ, ns_put16. cbn [length]. lia.
Qed.

(** The message that the octets are. *)
Lemma query_message : message q id (256 * b2z rd) [1; 0; 0; 0] [Some 12; None; None; None].
Proof.
  pose proof query_length as Hl. destruct query_asks as (_ & _ & Hqd & Hqs). inversion Hqs as [|p0 ls ty cl c t qs0 Hd Ht _ Hty Hcl _]; subst.
  assert (forall k, 6 <= k <= 10 -> (k = 6 \/ k = 8 \/ k = 10) -> get16_at q k 0) as Hz.
  { intros k _ [->|[->| ->]]; apply (query_field _ 0 0); try done; rewrite query_header; [by eexists [_;_;_;_;_;_], _|by eexists [_;_;_;_;_;_;_;_], _|by eexists [_;_;_;_;_;_;_;_;_;_], _]. }
  assert (c = Z.of_nat (length (wire labs))) as ->.
  { eapply skips_det; [by eapply decodes_skips|]. eapply decodes_skips, decodes_wire; [destruct Hn as [Hp _]; eapply Forall_impl; [done|]; apply lab_plain_ok|].
    unfold query_octets. rewrite query_header. by eexists [_;_;_;_;_;_;_;_;_;_;_;_], _. }
  split_and!.
  - apply (query_field 0 (id / 256) (id mod 256)); [|zdm]. rewrite query_header. by exists [], [b2z rd; 0; 0; 1; 0; 0; 0; 0; 0; 0].
  - apply (query_field 2 (b2z rd) 0); [|lia]. rewrite query_header. by eexists [_; _], _.
  - exists 1, 0, 0, 0. split_and!; [done|done|apply Hz; lia..].
  - cbn [sections_at]. assert (records q 0 12 1 (Z.of_nat (length q))) as Hr.
    { rewrite Hl. unfold HFIXEDSZ, QFIXEDSZ in *. econstructor; [apply rec_question; [done|by eapply decodes_skips|lia]|]. constructor. lia. }
    exists (Z.of_nat (length q)). split; [done|]. split; [done|]. do 3 (exists (Z.of_nat (length q)); split; [constructor; lia|]; split; [done|]). done.
Qed.

(** It is parsed back. *)
Lemma query_parses sc x rest : octets (x :: rest) -> exists h text junk h',
  ns_initparse (q ++ x :: rest) (Z.of_nat (length q)) = CVal (inr h) /\ _id h = id /\ _counts h = [1; 0; 0; 0] /\ _flags h = 256 * b2z rd /\
  ns_parserr sc (q ++ x :: rest) (Z.of_nat (length q)) h ns_s_qd 0 = CVal (inr (mkRr (text ++ 0 :: junk) type class 0 0 None), h') /\ is_text labs text.
Proof.
  intros Hx. pose proof query_is_octets as Hq. assert (octets (q ++ x :: rest)) as Ho by (intros y [Hy|Hy]%elem_of_app; [by apply Hq|by apply Hx]).
  destruct (initparse_spec q x rest Ho) as (r & E & Hr). destruct r as [e|h]; [destruct Hr as [_ Hr]; by destruct (Hr _ _ _ _ query_message)|].
  destruct Hr as (Hm & Hsect & Hnum & Hptr). pose proof Hm as (I1 & F1 & C1 & S1). destruct query_message as (I2 & F2 & C2 & S2).
  assert (_counts h = [1; 0; 0; 0]) as Ec.
  { destruct C1 as (a & b & c & d & -> & A1 & B1 & D1 & E1), C2 as (a' & b' & c' & d' & E2 & A2 & B2 & D2 & G2). injection E2 as <- <- <- <-.
    by rewrite (get16_at_det q _ _ _ Hq A1 A2), (get16_at_det q _ _ _ Hq B1 B2), (get16_at_det q _ _ _ Hq D1 D2), (get16_at_det q _ _ _ Hq E1 G2). }
  assert (handle_ok q h) as Hh by (split; [done|by left]).
  destruct (parserr_spec q x rest Ho sc h ns_s_qd 0 Hh ltac:(unfold ns_s_qd; lia)) as (r & h' & Er & _ & _ & Hread).
  rewrite Ec in S1. cbn [sections_at] in S1. destruct (_sections h) as [|s0 ss] eqn:Es; [done|]. destruct S1 as (p1 & Hr1 & Hs0 & _). change (if 1 =? 0 then None else Some 12) with (Some 12) in Hs0. subst s0.
  assert (nth_record q h ns_s_qd 0 12) as Hnth.
  { exists 1, 12. rewrite Ec, Es. split_and!; [done|done|lia|lia|]. constructor. pose proof query_length. unfold HFIXEDSZ, QFIXEDSZ in *. lia. }
  destruct query_asks as (_ & _ & _ & Hqs). inversion Hqs as [|p0 ls ty cl c t qs0 Hd Ht _ Hty Hcl _]; subst. destruct Hn as [Hp Hw].
  assert (Z.of_nat (length (name_text labs)) < NS_MAXDNAME) as Hb.
  { destruct (name_text_bound labs Hp) as [Hb _]. change NS_MAXDNAME with 1025. change NS_MAXCDNAME with 255 in Hw. lia. }
  destruct (dn_expand_decodes sc q x rest NS_MAXDNAME HFIXEDSZ labs c t Hd Ht Hp Hw Hb) as (junk & Ed).
  exists h, (match labs with [] => [] | _ => name_text labs end), junk, h'. split; [done|]. split; [by apply (get16_at_det q 0)|]. split; [done|]. split; [by apply (get16_at_det q 2)|].
  split; [|destruct labs; [by right|by left]]. rewrite Er. do 2 f_equal.
  assert (forall p, nth_record q h ns_s_qd 0 p -> p = 12) as Hat.
  { intros p (c1 & p2 & _ & E2 & _ & Hrec). rewrite Es in E2. injection E2 as <-. by inversion Hrec. }
  inversion Hread as [Hno|_ Hno|p e _ Hp1 Ee|p rr _ Hp1 Hsays]; subst.
  - unfold ns_s_qd, ns_s_max in Hno. lia.
  - by destruct (Hno 12).
  - apply Hat in Hp1 as ->. change HFIXEDSZ with 12 in Ed. congruence.
  - apply Hat in Hp1 as ->. destruct Hsays as (c' & Ed' & Hty' & Hcl' & Httl & Hlen & Hdat). change HFIXEDSZ with 12 in *. rewrite Ed in Ed'. injection Ed' as <- En.
    destruct rr as [nm t1 c1 ttl len dat]; cbn in *. subst. by rewrite (get16_at_det q _ _ _ Hq Hty' Hty), (get16_at_det q _ _ _ Hq Hcl' Hcl).
Qed.

(** The resolver cache accepts it. *)
Lemma query_cached : class = 1 -> type ∈ [1; 12; 15; 28] -> _dnsPacket_checkQuery (_dnsPacket_init q) = CVal true.
Proof.
  intros Hc1 Ht. pose proof query_is_octets as Hq. destruct (checkQuery_spec q) as (r & -> & Hr); [by apply Forall_forall|]. f_equal. apply Hr.
  exists (b2z rd), [mkQuestion (map (@tail Z) labs) type], []. exists (id / 256), (id mod 256). cbn [length].
  assert (0 <= type < 256) as Htr by (rewrite !elem_of_cons in Ht; destruct_or! Ht; subst; try lia; by apply not_elem_of_nil in Ht).
  split_and!; [|by destruct rd|done|done|].
  - unfold query_octets. rewrite query_header, Hc1, (ns_put16_bytes type), (ns_put16_bytes 1) by lia. rewrite (Z.div_small type), (Z.mod_small type) by lia.
    unfold enc_questions, enc_question. cbn [map concat qname qtype app]. rewrite !app_nil_r.
    assert (enc_name (map (@tail Z) labs) = wire labs) as ->; [|done]. unfold enc_name, wire. f_equal. destruct Hn as [Hp _]. rewrite map_map. f_equal.
    rewrite <- (map_id labs) at 2. apply map_ext_in. intros lab Hin. apply list_elem_of_In in Hin. rewrite Forall_forall in Hp. destruct (Hp lab Hin) as (n & d & -> & _ & Hd & _).
    unfold enc_label. cbn [tail]. by rewrite Hd.
  - constructor; [|constructor]. split; [|cbn [qtype]; rewrite !elem_of_cons in *; tauto]. cbn [qname]. destruct Hn as [Hp _].
    apply Forall_forall. intros l Hl. apply list_elem_of_In, in_map_iff in Hl as (lab & <- & Hin). apply list_elem_of_In in Hin. rewrite Forall_forall in Hp.
    destruct (Hp lab Hin) as (n & d & -> & Hlt & Hd & _). unfold wf_label. cbn [tail]. lia.
Qed.
End query.

(** What res_nmkquery stores for a query of one name. *)
Lemma res_nmkquery_octets options id labs junk class type buflen : name_ok labs ->
  HFIXEDSZ + Z.of_nat (length (wire labs)) + QFIXEDSZ < buflen < 2 ^ 31 ->
  res_nmkquery options id QUERY (name_text labs ++ 0 :: junk) class type None 0 true buflen =
  CVal (Some (query_octets id (negb (Z.land options RES_RECURSE =? 0)) labs type class)).
Proof.
  intros Hn Hb. unfold HFIXEDSZ, QFIXEDSZ in *. unfold res_nmkquery, HFIXEDSZ, QFIXEDSZ. cbn [negb orb]. zif. change (QUERY =? QUERY) with true. cbn [orb]. cbv iota. zif.
  destruct (dn_comp_copies labs junk (header id QUERY (negb (Z.land options RES_RECURSE =? 0)) 0 0 0) (buflen - 12 - 4) (Some 20) Hn) as (tab' & ->); [lia|]. done.
Qed.

(** C27: For a name of at most 255 octets whose labels are bytes, res_nmkquery of its text
    makes, in a buffer with one byte more than it needs, a query that ns_initparse accepts
    whatever follows it, with the identifier, the opcode QUERY, the RD flag of the options and one
    question; ns_parserr reads this question back as the name, the type and the class.
    The query matches itself, and for the class IN and the types A, PTR, MX and AAAA the
    resolver cache takes it. *)
Theorem query_made sc options id labs class type buflen junk x rest :
  name_ok labs -> 0 <= id < 2 ^ 16 -> 0 <= type < 2 ^ 16 -> 0 <= class < 2 ^ 16 -> octets (x :: rest) ->
  HFIXEDSZ + Z.of_nat (length (wire labs)) + QFIXEDSZ < buflen < 2 ^ 31 ->
  exists q, res_nmkquery options id QUERY (name_text labs ++ 0 :: junk) class type None 0 true buflen = CVal (Some q) /\
    (exists h text junk' h', ns_initparse (q ++ x :: rest) (Z.of_nat (length q)) = CVal (inr h) /\ _id h = id /\ _counts h = [1; 0; 0; 0] /\
       ns_msg_getflag h 1 = CVal QUERY /\ ns_msg_getflag h 4 = CVal (b2z (negb (Z.land options RES_RECURSE =? 0))) /\
       ns_parserr sc (q ++ x :: rest) (Z.of_nat (length q)) h ns_s_qd 0 = CVal (inr (mkRr (text ++ 0 :: junk') type class 0 0 None), h') /\ is_text labs text) /\
    res_queriesmatch sc (q ++ x :: rest) (Z.of_nat (length q)) (q ++ x :: rest) (Z.of_nat (length q)) = CVal 1 /\
    (class = 1 -> type ∈ [1; 12; 15; 28] -> _dnsPacket_checkQuery (_dnsPacket_init q) = CVal true).
Proof.
  intros Hn Hid Hty Hcl Hx Hb. rewrite (res_nmkquery_octets options id labs junk class type buflen Hn Hb).
  set (rd := negb _). exists (query_octets id rd labs type class). split; [done|]. split; [|split].
  - destruct (query_parses id rd labs type class Hid Hty Hcl Hn sc x rest Hx) as (h & text & junk' & h' & E & E1 & E2 & E3 & E4 & Ht).
    exists h, text, junk', h'. unfold ns_msg_getflag. rewrite E3. destruct rd; split_and!; done.
  - pose proof (query_asks id rd labs type class Hid Hty Hcl Hn) as Ha. assert (octets (query_octets id rd labs type class ++ x :: rest)) as Ho.
    { intros y [Hy|Hy]%elem_of_app; [by apply (query_is_octets id rd labs type class) in Hy|by apply Hx]. }
    rewrite (queriesmatch_ok sc _ x rest _ _ _ x rest _ _ Ho Ho Ha Ha). destruct (decide _) as [_|Hno]; [done|]. destruct Hno. right. split; [done|].
    constructor; [|constructor]. by constructor.
  - by apply query_cached.
Qed.

(** res_queriesmatch of a query and a reply that have well-formed questions, as many as
    their headers say, reads inside them and gives 1 when both are updates, or when there are as many
    questions in both and each question of the query is one of the reply, with
    names compared without case and with or without a final dot; otherwise it gives 0. *)
Theorem queriesmatch_exact sc msg1 x1 rest1 op1 qs1 msg2 x2 rest2 op2 qs2 :
  octets (msg1 ++ x1 :: rest1) -> octets (msg2 ++ x2 :: rest2) -> asks msg1 op1 qs1 -> asks msg2 op2 qs2 ->
  exists r, res_queriesmatch sc (msg1 ++ x1 :: rest1) (Z.of_nat (length msg1)) (msg2 ++ x2 :: rest2) (Z.of_nat (length msg2)) = CVal r /\ (r = 0 \/ r = 1) /\
    (r = 1 <-> op1 = ns_o_update /\ op2 = ns_o_update \/ length qs1 = length qs2 /\ forall q1, q1 ∈ qs1 -> exists q2, q2 ∈ qs2 /\ same_question q1 q2).
Proof.
  intros Ho1 Ho2 H1 H2. rewrite (queriesmatch_ok sc msg1 x1 rest1 op1 qs1 msg2 x2 rest2 op2 qs2 Ho1 Ho2 H1 H2). eexists. split; [done|].
  assert (Forall (fun q => Exists (same_question q) qs2) qs1 <-> forall q1, q1 ∈ qs1 -> exists q2, q2 ∈ qs2 /\ same_question q1 q2) as Hall.
  { rewrite Forall_forall. split; intros Hf q1 Hq1; specialize (Hf q1 Hq1); [by apply Exists_exists in Hf|by apply Exists_exists]. }
  destruct (decide _); split; auto; split; try done; tauto.
Qed.

(** The name "A.b" and its query. *)
Definition sample_labs : list (list Z) := [[1; 0x41]; [1; 0x62]].
Definition sample_query : list Z := [0x12; 0x34; 1; 0; 0; 1; 0; 0; 0; 0; 0; 0; 1; 0x41; 1; 0x62; 0; 0; 1; 0; 1].
Definition sample_answer : list Z := [0x12; 0x34; 1; 0; 0; 1; 0; 0; 0; 0; 0; 0; 1; 0x61; 1; 0x42; 0; 0; 1; 0; 1].

Lemma sample_name_ok : name_ok sample_labs.
Proof.
  split; [|vm_compute; discriminate]. constructor; [|constructor; [|constructor]]; eexists _, _; (split; [done|]); (split; [lia|]); (split; [done|]);
    intros y ->%list_elem_of_singleton; lia.
Qed.

Lemma query_made_witness :
  res_nmkquery RES_RECURSE 0x1234 QUERY (name_text sample_labs ++ [0]) 1 1 None 0 true 100 = CVal (Some sample_query) /\
  exists q, res_nmkquery RES_RECURSE 0x1234 QUERY (name_text sample_labs ++ 0 :: []) 1 1 None 0 true 100 = CVal (Some q) /\
    (exists h text junk' h', ns_initparse (q ++ 0 :: []) (Z.of_nat (length q)) = CVal (inr h) /\ _id h = 0x1234 /\ _counts h = [1; 0; 0; 0] /\
       ns_msg_getflag h 1 = CVal QUERY /\ ns_msg_getflag h 4 = CVal (b2z (negb (Z.land RES_RECURSE RES_RECURSE =? 0))) /\
       ns_parserr true (q ++ 0 :: []) (Z.of_nat (length q)) h ns_s_qd 0 = CVal (inr (mkRr (text ++ 0 :: junk') 1 1 0 0 None), h') /\ is_text sample_labs text) /\
    res_queriesmatch true (q ++ 0 :: []) (Z.of_nat (length q)) (q ++ 0 :: []) (Z.of_nat (length q)) = CVal 1 /\
    (1 = 1 -> 1 ∈ [1; 12; 15; 28] -> _dnsPacket_checkQuery (_dnsPacket_init q) = CVal true).
Proof.
  split; [vm_compute; reflexivity|]. apply (query_made true RES_RECURSE 0x1234 sample_labs 1 1 100 [] 0 []); [apply sample_name_ok|lia..| |vm_compute; split; reflexivity].
  intros y ->%list_elem_of_singleton. lia.
Defined.

Lemma sample_asks d : octets (d ++ [0]) -> d = sample_query \/ d = sample_answer -> exists labs, asks d QUERY [mkNsq labs 1 1] /\ ceq sample_labs labs.
Proof.
  intros _ Hd. assert (exists labs, name_ok labs /\ ceq sample_labs labs /\ d = query_octets 0x1234 true labs 1 1) as (labs & Hl & Hc & ->).
  { destruct Hd as [->| ->]; [exists sample_labs|exists [[1; 0x61]; [1; 0x42]]]; (split; [|split; [done|vm_compute; reflexivity]]); [apply sample_name_ok|].
    split; [|vm_compute; discriminate]. eapply ceq_plain; [apply sample_name_ok|vm_compute; reflexivity]. }
  exists labs. split; [apply query_asks; lia || done|done].
Qed.

Lemma sample_query_octets d : d = sample_query \/ d = sample_answer -> octets (d ++ [0]).
Proof.
  intros Hd y Hy. assert (forallb (fun y => (0 <=? y) && (y <? 256)) (d ++ [0]) = true) as H by (destruct Hd as [->| ->]; vm_compute; reflexivity).
  rewrite forallb_forall in H. specialize (H y). rewrite andb_true_iff, Z.leb_le, Z.ltb_lt in H. by apply H, list_elem_of_In.
Qed.

Lemma queriesmatch_exact_witness : exists labs,
  exists r, res_queriesmatch true (sample_query ++ 0 :: []) 21 (sample_answer ++ 0 :: []) 21 = CVal r /\ (r = 0 \/ r = 1) /\
    (r = 1 <-> QUERY = ns_o_update /\ QUERY = ns_o_update \/
       length [mkNsq sample_labs 1 1] = length [mkNsq labs 1 1] /\ forall q1, q1 ∈ [mkNsq sample_labs 1 1] -> exists q2, q2 ∈ [mkNsq labs 1 1] /\ same_question q1 q2).
Proof.
  destruct (sample_asks sample_answer (sample_query_octets _ (or_intror eq_refl)) (or_intror eq_refl)) as (labs & Ha & _). exists labs.
  apply (queriesmatch_exact true sample_query 0 [] QUERY [mkNsq sample_labs 1 1] sample_answer 0 [] QUERY [mkNsq labs 1 1]); [by apply sample_query_octets; left|by apply sample_query_octets; right| |done].
  change sample_query with (query_octets 0x1234 true sample_labs 1 1). apply query_asks; [lia..|apply sample_name_ok].
Defined.

(** A reply whose question does not expand is taken for a match, and so is one that has
    one of the questions of the query twice but not the other way round. *)
Lemma malformed_reply_matches :
  res_queriesmatch true (sample_query ++ [0]) 21 ([0x12; 0x34; 1; 0; 0; 1; 0; 0; 0; 0; 0; 0; 0xc0; 0xff] ++ [0]) 14 = CVal 1 /\
  res_queriesmatch true ([0; 0; 1; 0; 0; 2; 0; 0; 0; 0; 0; 0; 1; 0x61; 0; 0; 1; 0; 1; 1; 0x61; 0; 0; 1; 0; 1] ++ [0]) 26
    ([0; 0; 1; 0; 0; 2; 0; 0; 0; 0; 0; 0; 1; 0x61; 0; 0; 1; 0; 1; 1; 0x62; 0; 0; 1; 0; 1] ++ [0]) 26 = CVal 1.
Proof. split; vm_compute; reflexivity. Qed.

(** An escaped dot at the end that comes after an escaped backslash is taken for a final
    dot, so that the text gets no other one. *)
Lemma makecanon_backslashes :
  ns_makecanon [0x5c; 0x5c; 0x5c; 0x2e; 0] 100 = CVal (inr [0x5c; 0x5c; 0x5c; 0x2e; 0]) /\
  ns_makecanon [0x5c; 0x2e; 0] 100 = CVal (inr [0x5c; 0x2e; 0x2e; 0]).
Proof. split; vm_compute; reflexivity. Qed.

(** A query with an OPT record is not taken by the resolver cache. *)
Lemma opt_not_cached : exists q, res_nopt 0 sample_query 100 1024 = CVal (Some q) /\ _dnsPacket_checkQuery (_dnsPacket_init q) = CVal false.
Proof. eexists. split; [vm_compute; reflexivity|vm_compute; reflexivity]. Qed.
