(* ===== verification/Inet.v ===== *)
(** * Internet addresses: libc/inet

    inet_pton, inet_ntop, inet_aton, inet_addr and inet_ntoa over strings with their NUL.
    An address that is printed is parsed back, for both families and both parsers. *)

From Stdlib Require Import ZArith Lia.
From stdpp Require Import base list numbers sets.
From S2P Require Import Prelude Ctype Bytes Digits.

Open Scope Z_scope.

Definition AF_INET : Z := 2.
Definition AF_INET6 : Z := 10.
Definition INADDRSZ : Z := 4.
Definition IN6ADDRSZ : Z := 16.

(** ** inet_pton *)

(** inet_pton4: [tmp] has the octets before [tp], [cur] is what it points at. *)
Fixpoint pton4_loop (fuel : nat) (src : list Z) (p : Z) (tmp : list Z) (cur : Z) (saw_digit : bool) (octets : Z) : cres (option (list Z)) :=
  match fuel with
  | O => CFuel
  | S f =>
      ch ← aget src p;
      let p := p + 1 in
      if ch =? 0 then CVal (if octets <? 4 then None else Some (tmp ++ [cur]))
      else if decimal ch then
        let new := u32 (cur * 10 + (ch - 0x30)) in
        if 255 <? new then CVal None
        else if negb saw_digit then
          if 4 <? octets + 1 then CVal None else pton4_loop f src p tmp new true (octets + 1)
        else pton4_loop f src p tmp new true octets
      else if (ch =? 0x2e) && saw_digit then
        if octets =? 4 then CVal None
        else tmp ← put (INADDRSZ - 1) tmp [cur]; pton4_loop f src p tmp 0 false octets
      else CVal None
  end.

Definition inet_pton4 (src : list Z) (p : Z) : cres (option (list Z)) := pton4_loop (S (length src)) src p [] 0 false 0.

(** The loop of inet_pton6: [out] has the octets before [tp]; what is left when it ends. *)
Record p6 := mkP6 { p6_out : list Z; p6_colonp : option Z; p6_saw : bool; p6_count : Z; p6_val : Z }.

Definition push16 (out : list Z) (val : Z) : list Z := out ++ [Z.land (u8 (Z.shiftr val 8)) 0xff; Z.land (u8 val) 0xff].

Fixpoint pton6_loop (fuel : nat) (src : list Z) (p curtok : Z) (st : p6) : cres (option p6) :=
  match fuel with
  | O => CFuel
  | S f =>
      ch ← aget src p;
      let p := p + 1 in
      let '(mkP6 out colonp saw count val) := st in
      if ch =? 0 then CVal (Some st)
      else match hexval ch with
      | Some d =>
          if 4 <=? count then CVal None
          else
            let val := Z.lor (u32 (Z.shiftl val 4)) d in
            if 0xffff <? val then CVal None else pton6_loop f src p curtok (mkP6 out colonp true (count + 1) val)
      | None =>
          if ch =? 0x3a then
            let curtok := p in
            if negb saw then
              match colonp with
              | Some _ => CVal None
              | None => pton6_loop f src p curtok (mkP6 out (Some (Z.of_nat (length out))) saw count val)
              end
            else
              nx ← aget src p;
              if nx =? 0 then CVal None
              else if IN6ADDRSZ <? Z.of_nat (length out) + 2 then CVal None
              else pton6_loop f src p curtok (mkP6 (push16 out val) colonp false 0 0)
          else if (ch =? 0x2e) && (Z.of_nat (length out) + INADDRSZ <=? IN6ADDRSZ) then
            q ← inet_pton4 src curtok;
            CVal (match q with Some q => Some (mkP6 (out ++ q) colonp false 0 val) | None => None end)
          else CVal None
      end
  end.

(** The shift of the octets after a double colon to the end. *)
Fixpoint shift_loop (k : nat) (i n colonp : Z) (tmp : list Z) : cres (list Z) :=
  match k with
  | O => CVal tmp
  | S k =>
      x ← aget tmp (colonp + (n - i));
      tmp ← aset tmp (IN6ADDRSZ - i) x;
      tmp ← aset tmp (colonp + (n - i)) 0;
      shift_loop k (i + 1) n colonp tmp
  end.

Definition pton6_end (st : p6) : cres (option (list Z)) :=
  let out := p6_out st in
  if p6_saw st && (IN6ADDRSZ <? Z.of_nat (length out) + 2) then CVal None
  else
    let out := if p6_saw st then push16 out (p6_val st) else out in
    let tmp := out ++ replicate (Z.to_nat IN6ADDRSZ - length out) 0 in
    match p6_colonp st with
    | Some colonp =>
        let n := Z.of_nat (length out) - colonp in
        tmp ← shift_loop (Z.to_nat n) 1 n colonp tmp; CVal (Some tmp)
    | None => CVal (if negb (Z.of_nat (length out) =? IN6ADDRSZ) then None else Some tmp)
    end.

Definition inet_pton6 (src : list Z) (p : Z) : cres (option (list Z)) :=
  c0 ← aget src p;
  c1 ← (if c0 =? 0x3a then aget src (p + 1) else CVal 0x3a);
  if negb (c1 =? 0x3a) then CVal None
  else
    let p := if c0 =? 0x3a then p + 1 else p in
    st ← pton6_loop (S (length src)) src p p (mkP6 [] None false 0 0);
    match st with None => CVal None | Some st => pton6_end st end.

(** The result and the bytes that are stored in [dst], or an errno. *)
Definition inet_pton (af : Z) (src : list Z) : cres (Z + Z * list Z) :=
  let result (r : option (list Z)) := inr (match r with Some l => (1, l) | None => (0, []) end) in
  if af =? AF_INET then r ← inet_pton4 src 0; CVal (result r)
  else if af =? AF_INET6 then r ← inet_pton6 src 0; CVal (result r)
  else CVal (inl EAFNOSUPPORT).

(** ** inet_ntop *)

(** %u.%u.%u.%u *)
Definition dotted (b : Z) : list Z := 0x2e :: fmt_d b.
Definition fmt_quad (src : list Z) : list Z :=
  match src with
  | a :: rest => fmt_d a ++ concat (map dotted rest)
  | [] => []
  end.

Definition inet_ntop4 (src : list Z) (size : Z) : Z + list Z :=
  let tmp := fmt_quad src in
  let l := Z.of_nat (length tmp) in
  if (l <=? 0) || (size <=? l) then inl ENOSPC else inr (tmp ++ [0]).

(** The words of the address. *)
Fixpoint words (src : list Z) : list Z :=
  match src with
  | a :: b :: rest => Z.lor (Z.shiftl a 8) b :: words rest
  | _ => []
  end.

(** The longest run of zeros: the current and the best one, as base and length; base -1 for none. *)
Fixpoint run_loop (zeros : list bool) (i : Z) (cur best : Z * Z) : Z * Z :=
  let better := if (best.1 =? -1) || (best.2 <? cur.2) then cur else best in
  match zeros with
  | [] => if negb (cur.1 =? -1) then better else best
  | z :: zeros =>
      if z then run_loop zeros (i + 1) (if cur.1 =? -1 then (i, 1) else (cur.1, cur.2 + 1)) best
      else if negb (cur.1 =? -1) then run_loop zeros (i + 1) (-1, cur.2) better
      else run_loop zeros (i + 1) cur best
  end.

Definition best_run (zeros : list bool) : Z * Z :=
  let best := run_loop zeros 0 (-1, 0) (-1, 0) in
  if negb (best.1 =? -1) && (best.2 <? 2) then (-1, best.2) else best.

Definition NTOP6_SIZE : Z := 46.

(** A character that is stored in tmp. *)
Definition tmp_put (tp : list Z) (c : Z) : option (list Z) :=
  if NTOP6_SIZE <=? Z.of_nat (length tp) + 1 then None else Some (tp ++ [c]).

(** The loop over the words from word [i]: what tmp has then, or [None] when it is full. *)
Fixpoint fmt6_loop (src all : list Z) (best : Z * Z) (ws : list Z) (i : Z) (tp : list Z) : option (list Z) :=
  match ws with
  | [] => Some tp
  | w :: ws =>
      if negb (Z.of_nat (length tp) <? NTOP6_SIZE) then Some tp
      else if negb (best.1 =? -1) && (best.1 <=? i) && (i <? best.1 + best.2) then
        if i =? best.1 then tp ← tmp_put tp 0x3a; fmt6_loop src all best ws (i + 1) tp
        else fmt6_loop src all best ws (i + 1) tp
      else
        tp ← (if i =? 0 then Some tp else tmp_put tp 0x3a);
        if (i =? 6) && (best.1 =? 0) && ((best.2 =? 6) || ((best.2 =? 5) && (nth 5 all 0 =? 0xffff))) then
          match inet_ntop4 (drop 12 src) (NTOP6_SIZE - Z.of_nat (length tp)) with
          | inl _ => None
          | inr t => Some (tp ++ removelast t)
          end
        else
          let advance := Z.of_nat (length (fmt_x w)) in
          if (advance <=? 0) || (NTOP6_SIZE - Z.of_nat (length tp) <=? advance) then None
          else fmt6_loop src all best ws (i + 1) (tp ++ fmt_x w)
  end.

(** NULL without an errno is [inl 0]. *)
Definition inet_ntop6 (src : list Z) (size : Z) : Z + list Z :=
  let ws := words src in
  let best := best_run (map (fun w => w =? 0) ws) in
  let tp :=
    tp ← fmt6_loop src ws best ws 0 [];
    tp ← (if negb (best.1 =? -1) && (best.1 + best.2 =? 8) then tmp_put tp 0x3a else Some tp);
    tmp_put tp 0 in
  match tp with
  | None => inl 0
  | Some tp => if size <? Z.of_nat (length tp) then inl ENOSPC else inr tp
  end.

Definition inet_ntop (af : Z) (src : list Z) (size : Z) : Z + list Z :=
  if af =? AF_INET then inet_ntop4 src size
  else if af =? AF_INET6 then inet_ntop6 src size
  else inl EAFNOSUPPORT.

(** inet_ntoa: the static buffer has 18 bytes, more than any quad. *)
Definition inet_ntoa (addr : list Z) : list Z := fmt_quad addr ++ [0].

(** ** inet_aton and inet_addr *)

Fixpoint aton_digits (fuel : nat) (s : list Z) (p c base val : Z) : cres (Z * Z * Z) :=
  match fuel with
  | O => CFuel
  | S f =>
      if isascii c && negb (isdigit c =? 0) then
        c' ← aget s (p + 1); aton_digits f s (p + 1) c' base (u32 (val * base + (c - 0x30)))
      else if (base =? 16) && isascii c && negb (isxdigit c =? 0) then
        c' ← aget s (p + 1);
        aton_digits f s (p + 1) c' base (Z.lor (u32 (Z.shiftl val 4)) (c + 10 - (if negb (islower c =? 0) then 0x61 else 0x41)))
      else CVal (p, c, val)
  end.

(** The parts before the last and the last number, or [None] where 0 is returned. *)
Fixpoint aton_loop (fuel : nat) (s : list Z) (p c : Z) (parts : list Z) : cres (option (list Z * Z)) :=
  match fuel with
  | O => CFuel
  | S f =>
      if isdigit c =? 0 then CVal None
      else
        start ← (if c =? 0x30 then
                   c1 ← aget s (p + 1);
                   if (c1 =? 0x78) || (c1 =? 0x58) then c2 ← aget s (p + 2); CVal (p + 2, c2, 16) else CVal (p + 1, c1, 8)
                 else CVal (p, c, 10));
        let '(p, c, base) := start in
        r ← aton_digits (S (length s)) s p c base 0;
        let '(p, c, val) := r in
        if c =? 0x2e then
          if 3 <=? Z.of_nat (length parts) then CVal None
          else c' ← aget s (p + 1); aton_loop f s (p + 1) c' (parts ++ [val])
        else if negb (c =? 0) && (negb (isascii c) || (isspace c =? 0)) then CVal None
        else CVal (Some (parts, val))
  end.

Definition aton_concoct (parts : list Z) (val : Z) : option Z :=
  match parts with
  | [] => Some val
  | [a] => if (0xffffff <? val) || (0xff <? a) then None else Some (Z.lor val (u32 (Z.shiftl a 24)))
  | [a; b] =>
      if (0xffff <? val) || (0xff <? a) || (0xff <? b) then None
      else Some (Z.lor val (Z.lor (u32 (Z.shiftl a 24)) (u32 (Z.shiftl b 16))))
  | a :: b :: c :: _ =>
      if (0xff <? val) || (0xff <? a) || (0xff <? b) || (0xff <? c) then None
      else Some (Z.lor val (Z.lor (Z.lor (u32 (Z.shiftl a 24)) (u32 (Z.shiftl b 16))) (u32 (Z.shiftl c 8))))
  end.

(** htonl: the bytes of the address as they are stored. *)
Definition htonl_bytes (v : Z) : list Z := [u8 (v / 2 ^ 24); u8 (v / 2 ^ 16); u8 (v / 2 ^ 8); u8 v].

(** The result and the bytes of [addr]. *)
Definition inet_aton (cp : list Z) : cres (Z * list Z) :=
  c ← aget cp 0;
  r ← aton_loop (S (length cp)) cp 0 c [];
  CVal (match r with
        | None => (0, [])
        | Some (parts, val) => match aton_concoct parts val with None => (0, []) | Some v => (1, htonl_bytes v) end
        end).

Definition INADDR_NONE : list Z := [0xff; 0xff; 0xff; 0xff].
Definition inet_addr (cp : list Z) : cres (list Z) :=
  r ← inet_aton cp; CVal (if r.1 =? 0 then INADDR_NONE else r.2).

(** ** Dotted quads *)

Lemma digit_facts d : 0 <= d < 10 -> decimal (digits d) = true /\ (digits d =? 0) = false /\ digits d - 0x30 = d.
Proof. intros Hd. destruct (digits_decimal d Hd) as (H1 & H2 & H3 & _). split_and!; [done|lia|done]. Qed.

(** The digits of a number below 1000. *)
Lemma fmt_d_cases v : 0 <= v < 1000 ->
  (v < 10 /\ fmt_d v = [digits v]) \/
  (10 <= v < 100 /\ exists a b, fmt_d v = [digits a; digits b] /\ 0 <= a < 10 /\ 0 <= b < 10 /\ a <> 0 /\ v = a * 10 + b) \/
  (100 <= v /\ exists a b c, fmt_d v = [digits a; digits b; digits c] /\ 0 <= a < 10 /\ 0 <= b < 10 /\ 0 <= c < 10 /\ a <> 0 /\ v = a * 100 + b * 10 + c).
Proof.
  intros Hv. unfold fmt_d. destruct (Z.ltb_spec v 10).
  - left. split; [lia|]. zif. cbn. do 2 f_equal. zdm.
  - right. destruct (Z.ltb_spec v 100); [left|right]; (split; [lia|]).
    + exists (v / 10 mod 10), (v mod 10). cbn. split_and!; [done|zdm..].
    + exists (v / 100), (v / 10 mod 10), (v mod 10). cbn. split_and!; [done|zdm..].
Qed.

Lemma pton4_digit f src p tmp cur saw k d : 0 <= d < 10 -> at_off src p [digits d] -> 0 <= cur -> cur * 10 + d < 256 ->
  (saw = false -> k < 4) ->
  pton4_loop (S f) src p tmp cur saw k = pton4_loop f src (p + 1) tmp (cur * 10 + d) true (if saw then k else k + 1).
Proof.
  intros Hd Ha Hc Hv Hk. destruct (digit_facts d Hd) as (H1 & H2 & H3). cbn [pton4_loop].
  rewrite (at_off_head src p _ [] Ha). cbn [mbind cres_bind]. rewrite H2, H1, H3, u32_small by lia. zif.
  destruct saw; cbn [negb]; [done|]. specialize (Hk eq_refl). by zif.
Qed.

(** A number of the quad. *)
Lemma pton4_number src v tmp k p fuel : 0 <= v < 256 -> k < 4 -> at_off src p (fmt_d v) -> (length (fmt_d v) < fuel)%nat ->
  exists f, (fuel <= f + length (fmt_d v))%nat /\
    pton4_loop fuel src p tmp 0 false k = pton4_loop f src (p + Z.of_nat (length (fmt_d v))) tmp v true (k + 1).
Proof.
  intros Hv Hk Ha Hf. destruct (fmt_d_cases v ltac:(lia)) as [(H & E)|[(H & a & b & E & Ha' & Hb & Hne & Ev)|(H & a & b & c & E & Ha' & Hb & Hc & Hne & Ev)]];
    rewrite E in *; cbn [length] in *.
  - destruct fuel as [|f]; [lia|]. exists f. split; [lia|]. rewrite (pton4_digit f src p tmp 0 false k v) by (done || lia). done.
  - destruct fuel as [|[|f]]; [lia..|]. exists f. split; [lia|]. apply (at_off_app src p [_] [_]) in Ha as [H1 H2].
    rewrite (pton4_digit _ src p tmp 0 false k a) by (done || lia). rewrite (pton4_digit f src _ tmp _ true _ b) by (done || lia). f_equal; lia.
  - destruct fuel as [|[|[|f]]]; [lia..|]. exists f. split; [lia|]. apply (at_off_app src p [_] [_; _]) in Ha as [H1 H2]. apply (at_off_app src _ [_] [_]) in H2 as [H2 H3].
    rewrite (pton4_digit _ src p tmp 0 false k a) by (done || lia). rewrite (pton4_digit _ src _ tmp _ true _ b) by (done || lia).
    rewrite (pton4_digit f src _ tmp _ true _ c) by (done || lia). f_equal; lia.
Qed.

(** The rest of a quad after a number. *)
Lemma pton4_rest src l : Forall (fun b => 0 <= b < 256) l -> forall (tmp : list Z) cur p fuel, Z.of_nat (length tmp + length l) = 3 ->
  at_off src p (concat (map dotted l) ++ [0]) -> (length (concat (map dotted l)) < fuel)%nat ->
  pton4_loop fuel src p tmp cur true (Z.of_nat (length tmp) + 1) = CVal (Some (tmp ++ cur :: l)).
Proof.
  induction 1 as [|b l Hb _ IH]; intros tmp cur p fuel Hl Ha Hf; unfold dotted in *; cbn [map concat length] in *; (destruct fuel as [|f]; [lia|]).
  - cbn [pton4_loop]. rewrite (at_off_head src p 0 []) by done. cbn [mbind cres_bind]. by zif.
  - rewrite <- app_assoc in Ha. cbn [app] in Ha. apply (at_off_app src p [0x2e]) in Ha as [H1 Ha]. apply at_off_app in Ha as [H2 H3].
    cbn [pton4_loop]. rewrite (at_off_head src p 0x2e []) by done. cbn [mbind cres_bind]. change (0x2e =? 0) with false.
    change (decimal 0x2e) with false. change ((0x2e =? 0x2e) && true) with true. cbv iota. zif.
    rewrite put_ok by (cbn [length]; unfold INADDRSZ; lia). cbn [mbind cres_bind]. cbn [length app] in *. rewrite length_app in *.
    change (Z.of_nat 1) with 1 in *.
    destruct (pton4_number src b (tmp ++ [cur]) (Z.of_nat (length tmp) + 1) (p + 1) f) as (f' & Hf' & ->); [done|lia|done|cbn in Hf; lia|].
    specialize (IH (tmp ++ [cur]) b (p + 1 + Z.of_nat (length (fmt_d b))) f'). rewrite length_app in IH. cbn [length] in IH.
    replace (Z.of_nat (length tmp) + 1 + 1) with (Z.of_nat (length tmp + 1) + 1) by lia. rewrite IH; [by rewrite <- app_assoc|lia|done|cbn in Hf; lia].
Qed.

Lemma octets_forall l : octets l -> Forall (fun b => 0 <= b < 256) l.
Proof. intros H. apply Forall_forall. exact H. Qed.

Lemma inet_pton4_quad src p l : octets l -> length l = 4%nat -> at_off src p (fmt_quad l ++ [0]) -> inet_pton4 src p = CVal (Some l).
Proof.
  intros Ho Hl Ha. pose proof (at_off_bound _ _ _ Ha) as Hb. destruct l as [|b l]; [done|]. apply octets_cons in Ho as [H1 H2].
  cbn [fmt_quad] in *. rewrite !length_app in Hb. cbn [length] in *. rewrite <- app_assoc in Ha. apply at_off_app in Ha as [Ha Hr].
  unfold inet_pton4. destruct (pton4_number src b [] 0 p (S (length src))) as (f & Hf & ->); [done|lia|done|lia|].
  apply (pton4_rest src l (octets_forall _ H2) [] b); [cbn; lia|done|lia].
Qed.

Lemma fmt_quad_length l : (length (fmt_quad l) <= 4 * length l)%nat.
Proof.
  destruct l as [|b l]; [done|]. cbn [fmt_quad length]. rewrite length_app. pose proof (fmt_d_length b).
  enough (length (concat (map dotted l)) <= 4 * length l)%nat by lia. clear.
  induction l as [|b l IH]; [done|]. cbn [map concat length]. rewrite length_app. change (length (dotted b)) with (S (length (fmt_d b))). pose proof (fmt_d_length b). lia.
Qed.

(** ** Words *)

Definition wbytes (ws : list Z) : list Z := concat (map (fun w => [w / 256; w mod 256]) ws).
Definition word_ok (w : Z) : Prop := 0 <= w < 65536.

Lemma wbytes_app l1 l2 : wbytes (l1 ++ l2) = wbytes l1 ++ wbytes l2.
Proof. unfold wbytes. by rewrite map_app, concat_app. Qed.

Lemma wbytes_length l : length (wbytes l) = (2 * length l)%nat.
Proof. unfold wbytes. induction l as [|w l IH]; [done|]. cbn [map concat length]. rewrite length_app, IH. cbn [length]. lia. Qed.

Lemma push16_word out w : word_ok w -> push16 out w = out ++ wbytes [w].
Proof.
  intros Hw. unfold push16, wbytes, word_ok in *. cbn [map concat app]. do 2 f_equal; [|f_equal].
  - rewrite Z.shiftr_div_pow2 by lia. change (2 ^ 8) with 256. rewrite u8_small by zdm.
    change 0xff with (Z.ones 8). rewrite Z.land_ones by lia. apply Z.mod_small. zdm.
  - change 0xff with (Z.ones 8). rewrite Z.land_ones by lia. unfold u8. zdm.
Qed.

(** The address and its words. *)
Lemma words_bytes n : forall src, octets src -> length src = (2 * n)%nat ->
  wbytes (words src) = src /\ Forall word_ok (words src) /\ length (words src) = n.
Proof.
  induction n as [|n IH]; intros src Ho Hl.
  - destruct src; [|done]. split; [done|]. split; [constructor|done].
  - destruct src as [|a [|b src]]; [done|cbn in Hl; lia|]. apply octets_cons in Ho as [Ha [Hb Ho]%octets_cons].
    destruct (IH src Ho) as (H1 & H2 & H3); [cbn in Hl; lia|]. cbn [words]. rewrite (lor_low a b 8) by lia. change (2 ^ 8) with 256.
    split_and!; [|constructor; [unfold word_ok; lia|done]|cbn; lia].
    change (?w :: words src) with ([w] ++ words src). rewrite wbytes_app, H1. unfold wbytes. cbn [map concat app].
    f_equal; [zdm|]. f_equal. zdm.
Qed.

(** ** Words as text *)

Lemma hexval_digit d : 0 <= d < 16 -> hexval (hex_digit d) = Some d /\ hex_digit d <> 0.
Proof.
  intros Hd. unfold hexval, hex_digit, decimal. destruct (Z.ltb_spec d 10); repeat zif; cbn [andb]; repeat zif; (split; [f_equal|]; lia).
Qed.

(** Hexadecimal digits, and their value. *)
Definition hex_ok (l : list Z) : Prop := Forall (fun c => c <> 0 /\ is_Some (hexval c)) l.
Definition hex_of (l : list Z) (v : Z) : Z := fold_left (fun v c => v * 16 + default 0 (hexval c)) l v.

Lemma hexval_range c d : hexval c = Some d -> 0 <= d < 16.
Proof.
  unfold hexval, decimal. intros H. repeat case_match; simplify_eq; rewrite ?andb_true_iff, ?Z.leb_le in *; lia.
Qed.

Lemma fmt_x_hex w : word_ok w -> hex_ok (fmt_x w) /\ hex_of (fmt_x w) 0 = w.
Proof.
  intros Hw. unfold word_ok in Hw. assert (forall x, hex_digit (x mod 16) <> 0 /\ is_Some (hexval (hex_digit (x mod 16)))) as Hd.
  { intros x. destruct (hexval_digit (x mod 16)) as [-> H]; [apply Z.mod_pos_bound; lia|]. split; [done|by eexists]. }
  assert (hex_digit (w / 4096) <> 0 /\ hexval (hex_digit (w / 4096)) = Some (w / 4096)) as [Ht Hv].
  { destruct (hexval_digit (w / 4096)) as [-> H]; [zdm|]. done. }
  assert (forall x, hexval (hex_digit (x mod 16)) = Some (x mod 16)) as Hm by (intros x; apply hexval_digit, Z.mod_pos_bound; lia).
  assert (w / 256 = w / 16 / 16) as E2 by (rewrite Z.div_div by lia; done).
  assert (w / 4096 = w / 16 / 16 / 16) as E3 by (rewrite !Z.div_div by lia; done).
  unfold fmt_x, hex_ok. split.
  - repeat apply Forall_app_2; try (by repeat constructor; apply Hd).
    + destruct (w <? 4096); [constructor|]. constructor; [|constructor]. rewrite Hv. split; [done|by eexists].
    + destruct (w <? 256); [constructor|]. constructor; [apply Hd|constructor].
    + destruct (w <? 16); [constructor|]. constructor; [apply Hd|constructor].
  - destruct (Z.ltb_spec w 16), (Z.ltb_spec w 256), (Z.ltb_spec w 4096); try lia; unfold hex_of; cbn [app fold_left]; rewrite ?Hv, ?Hm; cbn [default id]; rewrite ?E3, ?E2; zdm.
Qed.

Lemma fmt_d_hex v : 0 <= v < 256 -> hex_ok (fmt_d v).
Proof.
  intros Hv. assert (forall d, 0 <= d < 10 -> digits d <> 0 /\ is_Some (hexval (digits d))) as Hd.
  { intros d Hd. destruct (digit_facts d Hd) as (H1 & H2 & _). split; [lia|]. unfold hexval. rewrite H1. by eexists. }
  destruct (fmt_d_cases v ltac:(lia)) as [(H & ->)|[(H & a & b & -> & Ha & Hb & _)|(H & a & b & c & -> & Ha & Hb & Hc & _)]];
    repeat constructor; apply Hd; lia.
Qed.

(** The loop reads up to four digits. *)
Lemma pton6_digits src ct out col l : hex_ok l -> forall saw cnt v p fuel, at_off src p l -> 0 <= cnt -> cnt + Z.of_nat (length l) <= 4 ->
  0 <= v < 16 ^ cnt -> (length l < fuel)%nat ->
  exists f, (fuel <= f + length l)%nat /\ 0 <= hex_of l v < 16 ^ (cnt + Z.of_nat (length l)) /\
    pton6_loop fuel src p ct (mkP6 out col saw cnt v) =
    pton6_loop f src (p + Z.of_nat (length l)) ct (mkP6 out col (match l with [] => saw | _ => true end) (cnt + Z.of_nat (length l)) (hex_of l v)).
Proof.
  induction 1 as [|c l (Hc0 & d & Hd) _ IH]; intros saw cnt v p fuel Ha Hcnt Hl Hv Hf; cbn [length] in *.
  { exists fuel. rewrite !Z.add_0_r. cbn. split_and!; [lia|lia|lia|done]. }
  destruct fuel as [|f]; [lia|]. apply (at_off_app src p [c]) in Ha as [H1 H2]. change (Z.of_nat (length [c])) with 1 in H2.
  cbn [pton6_loop]. rewrite (at_off_head src p c [] H1). cbn [mbind cres_bind]. zif. rewrite Hd. zif.
  pose proof (hexval_range c d Hd) as Hdr. assert (16 ^ (cnt + 1) = 16 ^ cnt * 16) as Hpow by (rewrite Z.pow_add_r by lia; lia).
  assert (16 ^ (cnt + 1) <= 16 ^ 4) as Hmax by (apply Z.pow_le_mono_r; lia). change (16 ^ 4) with 65536 in Hmax.
  rewrite u32_small by (rewrite Z.shiftl_mul_pow2 by lia; lia). rewrite (lor_low v d 4) by lia. change (2 ^ 4) with 16. zif.
  destruct (IH true (cnt + 1) (v * 16 + d) (p + 1) f) as (f' & Hf' & Hb & ->); [done|lia|lia|lia|lia|].
  exists f'. cbn [hex_of fold_left]. rewrite Hd. cbn [default id]. fold (hex_of l (v * 16 + d)).
  replace (cnt + Z.of_nat (S (length l))) with (cnt + 1 + Z.of_nat (length l)) by lia.
  replace (p + Z.of_nat (S (length l))) with (p + 1 + Z.of_nat (length l)) by lia. split_and!; [lia|lia|lia|]. by destruct l.
Qed.

(** A word. *)
Lemma pton6_word src ct out col w p fuel : word_ok w -> at_off src p (fmt_x w) -> (length (fmt_x w) < fuel)%nat ->
  exists f, (fuel <= f + length (fmt_x w))%nat /\
    pton6_loop fuel src p ct (mkP6 out col false 0 0) =
    pton6_loop f src (p + Z.of_nat (length (fmt_x w))) ct (mkP6 out col true (Z.of_nat (length (fmt_x w))) w).
Proof.
  intros Hw Ha Hf. destruct (fmt_x_hex w Hw) as [Hx Hv]. pose proof (fmt_x_length w) as Hl.
  destruct (pton6_digits src ct out col (fmt_x w) Hx false 0 0 p fuel) as (f & Hf' & _ & ->); [done|lia|lia|lia|done|].
  exists f. split; [done|]. rewrite Hv. by destruct (fmt_x w); [cbn in Hl; lia|].
Qed.

(** Words each followed by a colon, and words each after one. *)
Definition front (w : Z) : list Z := fmt_x w ++ [0x3a].
Definition fronts (ws : list Z) : list Z := concat (map front ws).
Definition colons (ws : list Z) : list Z := concat (map (fun w => 0x3a :: fmt_x w) ws).

Lemma fronts_colons ws : forall w, fronts (w :: ws) = fmt_x w ++ colons ws ++ [0x3a].
Proof.
  induction ws as [|w2 ws IH]; intros w; [unfold fronts, colons; cbn; by rewrite app_nil_r|].
  change (fronts (w :: w2 :: ws)) with ((front w) ++ fronts (w2 :: ws)). rewrite IH. unfold front. rewrite <- app_assoc.
  change (colons (w2 :: ws)) with ((0x3a :: fmt_x w2) ++ colons ws). by rewrite <- !app_assoc.
Qed.

Lemma fmt_x_head w : word_ok w -> exists c t, fmt_x w = c :: t /\ c <> 0.
Proof.
  intros Hw. destruct (fmt_x_hex w Hw) as [Hx _]. pose proof (fmt_x_length w). destruct (fmt_x w) as [|c t]; [cbn in *; lia|].
  apply Forall_cons in Hx as [[Hc _] _]. eauto.
Qed.

(** A word and the colon after it, when the text goes on. *)
Lemma pton6_front src ct out col w p nx t fuel : word_ok w -> at_off src p ((front w) ++ nx :: t) -> nx <> 0 ->
  (length out <= 14)%nat -> (length (front w) < fuel)%nat ->
  exists f, (fuel <= f + length (front w))%nat /\
    pton6_loop fuel src p ct (mkP6 out col false 0 0) =
    pton6_loop f src (p + Z.of_nat (length (front w))) (p + Z.of_nat (length (front w))) (mkP6 (out ++ wbytes [w]) col false 0 0).
Proof.
  intros Hw Ha Hnx Hout Hf. unfold front in *. rewrite <- app_assoc in Ha. apply at_off_app in Ha as [H1 H2]. rewrite length_app in *. cbn [length] in *.
  destruct (pton6_word src ct out col w p fuel) as (f & Hf' & ->); [done|done|lia|]. destruct f as [|f]; [lia|]. exists f. split; [lia|].
  cbn [pton6_loop]. rewrite (at_off_head src _ 0x3a _ H2). cbn [mbind cres_bind]. change (0x3a =? 0) with false. change (hexval 0x3a) with (@None Z).
  change (0x3a =? 0x3a) with true. cbv iota. cbn [negb].
  assert (aget src (p + Z.of_nat (length (fmt_x w)) + 1) = CVal nx) as -> by (apply (at_off_get src _ ([0x3a] ++ nx :: t) 1 nx); [exact H2|done]).
  cbn [mbind cres_bind]. zif. unfold IN6ADDRSZ. zif. rewrite push16_word by done. f_equal; lia.
Qed.

Lemma pton6_fronts src col ws : Forall word_ok ws -> forall ct out p nx t fuel, at_off src p (fronts ws ++ nx :: t) -> nx <> 0 ->
  (length out + 2 * length ws <= 16)%nat -> (length (fronts ws) < fuel)%nat ->
  exists f ct', (fuel <= f + length (fronts ws))%nat /\ (ct = p -> ct' = p + Z.of_nat (length (fronts ws))) /\
    pton6_loop fuel src p ct (mkP6 out col false 0 0) =
    pton6_loop f src (p + Z.of_nat (length (fronts ws))) ct' (mkP6 (out ++ wbytes ws) col false 0 0).
Proof.
  induction 1 as [|w ws Hw Hws IH]; intros ct out p nx t fuel Ha Hnx Hout Hf.
  { exists fuel, ct. cbn. rewrite Z.add_0_r, app_nil_r. split_and!; [lia|lia|done]. }
  change (fronts (w :: ws)) with ((front w) ++ fronts ws) in *. rewrite <- app_assoc in Ha. rewrite length_app in *. cbn [length] in Hout.
  assert (exists c t', fronts ws ++ nx :: t = c :: t' /\ c <> 0) as (c & t' & Ec & Hc).
  { destruct ws as [|w2 ws]; [by eexists _, _|]. apply Forall_inv in Hws. destruct (fmt_x_head w2 Hws) as (c & t' & E & Hc).
    change (fronts (w2 :: ws)) with (front w2 ++ fronts ws). unfold front. rewrite E. by do 2 eexists. }
  rewrite Ec in Ha. destruct (pton6_front src ct out col w p c t' fuel Hw Ha Hc) as (f & Hf' & ->); [lia|lia|].
  apply at_off_app in Ha as [_ Ha]. rewrite <- Ec in Ha.
  set (k := p + Z.of_nat (length (front w))) in *.
  destruct (IH k (out ++ wbytes [w]) k nx t f Ha Hnx) as (f2 & ct' & Hf2 & Hct & ->); [rewrite length_app, wbytes_length; cbn [length]; lia|lia|].
  exists f2, ct'. split; [lia|]. split; [intros _; rewrite Hct by done; lia|].
  rewrite <- app_assoc, <- wbytes_app. f_equal; lia.
Qed.

(** The second of two colons. *)
Lemma pton6_double f src p ct out : at_off src p [0x3a] ->
  pton6_loop (S f) src p ct (mkP6 out None false 0 0) =
  pton6_loop f src (p + 1) (p + 1) (mkP6 out (Some (Z.of_nat (length out))) false 0 0).
Proof. intros Ha. cbn [pton6_loop]. by rewrite (at_off_head src p 0x3a [] Ha). Qed.

Lemma pton6_nul f src p ct st : at_off src p [0] -> pton6_loop (S f) src p ct st = CVal (Some st).
Proof. intros Ha. cbn [pton6_loop]. rewrite (at_off_head src p 0 [] Ha). by destruct st. Qed.

(** The shift after a double colon that stands for [k] octets. *)
Lemma shift_ok k B A1 : (1 <= k)%nat -> forall A2, (length B + length A1 + k + length A2 = 16)%nat ->
  shift_loop (length A1) (Z.of_nat (length A2) + 1) (Z.of_nat (length A1 + length A2)) (Z.of_nat (length B)) (B ++ A1 ++ replicate k 0 ++ A2) =
  CVal (B ++ replicate k 0 ++ A1 ++ A2).
Proof.
  intros Hk. induction A1 as [|x A1 IH] using rev_ind; intros A2 Hl; [done|]. rewrite length_app in *. cbn [length] in *.
  replace (length A1 + 1)%nat with (S (length A1)) by lia. cbn [shift_loop].
  assert (replicate k 0 = replicate (k - 1) 0 ++ [0] /\ replicate k 0 = 0 :: replicate (k - 1) 0) as [Er1 Er2].
  { split; [replace k with (k - 1 + 1)%nat at 1 by lia; by rewrite replicate_add|]. by replace k with (S (k - 1)) at 1 by lia. }
  replace (Z.of_nat (length B) + (Z.of_nat (S (length A1) + length A2) - (Z.of_nat (length A2) + 1))) with (Z.of_nat (length (B ++ A1)))
    by (rewrite length_app; lia).
  replace (B ++ (A1 ++ [x]) ++ replicate k 0 ++ A2) with ((B ++ A1) ++ x :: replicate k 0 ++ A2) by (by rewrite <- !app_assoc).
  rewrite aget_app. cbn [mbind cres_bind].
  replace (IN6ADDRSZ - (Z.of_nat (length A2) + 1)) with (Z.of_nat (length ((B ++ A1) ++ x :: replicate (k - 1) 0)))
    by (rewrite !length_app; cbn [length]; rewrite length_replicate; unfold IN6ADDRSZ; lia).
  replace ((B ++ A1) ++ x :: replicate k 0 ++ A2) with (((B ++ A1) ++ x :: replicate (k - 1) 0) ++ 0 :: A2)
    by (rewrite Er1, <- !app_assoc; cbn [app]; rewrite <- ?app_assoc; done).
  rewrite aset_app. cbn [mbind cres_bind].
  replace (((B ++ A1) ++ x :: replicate (k - 1) 0) ++ x :: A2) with ((B ++ A1) ++ x :: (replicate (k - 1) 0 ++ x :: A2)) by (by rewrite <- !app_assoc).
  rewrite aset_app. cbn [mbind cres_bind].
  replace (Z.of_nat (length A2) + 1 + 1) with (Z.of_nat (length (x :: A2)) + 1) by (cbn [length]; lia).
  replace (Z.of_nat (S (length A1) + length A2)) with (Z.of_nat (length A1 + length (x :: A2))) by (cbn [length]; lia).
  replace ((B ++ A1) ++ 0 :: replicate (k - 1) 0 ++ x :: A2) with (B ++ A1 ++ replicate k 0 ++ x :: A2) by (rewrite Er2, <- !app_assoc; done).
  rewrite (IH (x :: A2)) by (cbn [length]; lia). by rewrite <- app_assoc.
Qed.

(** ** The end of inet_pton6 *)

Definition p6_bytes (st : p6) : list Z := if p6_saw st then p6_out st ++ wbytes [p6_val st] else p6_out st.

Lemma pton6_end_eq st : (p6_saw st = true -> word_ok (p6_val st)) -> (length (p6_bytes st) <= 16)%nat ->
  pton6_end st =
  match p6_colonp st with
  | Some c => tmp ← shift_loop (Z.to_nat (Z.of_nat (length (p6_bytes st)) - c)) 1 (Z.of_nat (length (p6_bytes st)) - c) c
                     (p6_bytes st ++ replicate (16 - length (p6_bytes st)) 0);
              CVal (Some tmp)
  | None => CVal (if negb (Z.of_nat (length (p6_bytes st)) =? 16) then None else Some (p6_bytes st ++ replicate (16 - length (p6_bytes st)) 0))
  end.
Proof.
  destruct st as [out col saw cnt v]. unfold pton6_end, p6_bytes. cbn [p6_out p6_saw p6_val p6_colonp]. intros Hw Hl. destruct saw; cbn [andb].
  - rewrite push16_word by auto. rewrite length_app, wbytes_length in Hl. cbn [length] in Hl. unfold IN6ADDRSZ. by zif.
  - done.
Qed.

Lemma pton6_end_full st : p6_colonp st = None -> (p6_saw st = true -> word_ok (p6_val st)) -> length (p6_bytes st) = 16%nat ->
  pton6_end st = CVal (Some (p6_bytes st)).
Proof. intros Hc Hw Hl. rewrite pton6_end_eq, Hc, Hl by (done || lia). cbn. by rewrite app_nil_r. Qed.

Lemma pton6_end_gap st B A k : p6_colonp st = Some (Z.of_nat (length B)) -> (p6_saw st = true -> word_ok (p6_val st)) ->
  p6_bytes st = B ++ A -> (1 <= k)%nat -> (length B + length A + k = 16)%nat ->
  pton6_end st = CVal (Some (B ++ replicate k 0 ++ A)).
Proof.
  intros Hc Hw Hb Hk Hl. assert (length (p6_bytes st) = (length B + length A)%nat) as Hlen by (by rewrite Hb, length_app).
  rewrite pton6_end_eq, Hc, Hlen by (done || lia). replace (Z.of_nat (length B + length A) - Z.of_nat (length B)) with (Z.of_nat (length A)) by lia.
  rewrite Nat2Z.id, Hb. replace (16 - (length B + length A))%nat with k by lia.
  pose proof (shift_ok k B A Hk [] ltac:(cbn; lia)) as H. rewrite Nat.add_0_r, !app_nil_r in H. cbn [length] in H. change (Z.of_nat 0 + 1) with 1 in H.
  rewrite <- app_assoc, H. done.
Qed.

(** ** Texts of words *)

(** Words with colons between them; two colons for the words between. *)
Definition seg (ws : list Z) : list Z := match ws with [] => [] | w :: ws => fmt_x w ++ colons ws end.
Definition gap_text (before after : list Z) : list Z := (match before with [] => [0x3a] | _ => fronts before end) ++ 0x3a :: seg after.

Lemma colons_app a b : colons (a ++ b) = colons a ++ colons b.
Proof. unfold colons. by rewrite map_app, concat_app. Qed.

Lemma seg_last ws l : seg (ws ++ [l]) = fronts ws ++ fmt_x l.
Proof.
  destruct ws as [|w ws]; [unfold seg, colons; cbn; by rewrite app_nil_r|].
  cbn [app seg]. rewrite fronts_colons, colons_app, <- !app_assoc. unfold colons at 2. cbn. by rewrite app_nil_r.
Qed.

(** The words up to the end of the string. *)
Lemma pton6_seg src col ws ct out p fuel : Forall word_ok ws -> ws <> [] -> at_off src p (seg ws ++ [0]) -> (length out + 2 * length ws <= 16)%nat ->
  (length (seg ws) < fuel)%nat ->
  exists st, pton6_loop fuel src p ct (mkP6 out col false 0 0) = CVal (Some st) /\ p6_colonp st = col /\ p6_bytes st = out ++ wbytes ws /\
    (p6_saw st = true -> word_ok (p6_val st)).
Proof.
  intros Hw Hne Ha Hout Hf. destruct (exists_last Hne) as (ws' & l & ->). apply Forall_app in Hw as [Hw Hl]. apply Forall_inv in Hl.
  rewrite length_app in Hout. cbn [length] in Hout. rewrite seg_last in *. rewrite length_app in Hf. rewrite <- app_assoc in Ha.
  destruct (fmt_x_head l Hl) as (c & t & E & Hc). pose proof Ha as Ha1. rewrite E in Ha1.
  destruct (pton6_fronts src col ws' Hw ct out p c (t ++ [0]) fuel Ha1 Hc) as (f & ct' & Hf' & _ & ->); [lia|lia|].
  apply at_off_app in Ha as [_ Ha]. apply at_off_app in Ha as [H1 H2].
  destruct (pton6_word src ct' (out ++ wbytes ws') col l _ f Hl H1) as (f2 & Hf2 & ->); [lia|]. destruct f2 as [|f2]; [lia|].
  rewrite pton6_nul by done. eexists. split; [done|]. cbn. rewrite wbytes_app, app_assoc. done.
Qed.

Lemma inet_pton6_seg ws : Forall word_ok ws -> length ws = 8%nat -> inet_pton6 (seg ws ++ [0]) 0 = CVal (Some (wbytes ws)).
Proof.
  intros Hw Hl. set (src := seg ws ++ [0]). assert (at_off src 0 (seg ws ++ [0])) as Ha by (exists [], []; by rewrite app_nil_r).
  assert (exists c t, seg ws = c :: t /\ c <> 0x3a) as (c & t & E & Hc).
  { destruct ws as [|w ws]; [done|]. apply Forall_inv in Hw. destruct (fmt_x_hex w Hw) as [Hx _]. cbn [seg]. pose proof (fmt_x_length w).
    destruct (fmt_x w) as [|c t]; [cbn in *; lia|]. apply Forall_inv in Hx as [_ [d Hd]]. exists c, (t ++ colons ws). split; [done|]. by intros ->. }
  unfold inet_pton6. rewrite (at_off_head src 0 c (t ++ [0])) by (by rewrite E in Ha). cbn [mbind cres_bind]. rewrite (proj2 (Z.eqb_neq _ _) Hc).
  cbn [mbind cres_bind negb Z.eqb Pos.eqb].
  destruct (pton6_seg src None ws 0 [] 0 (S (length src)) Hw) as (st & -> & H1 & H2 & H3);
    [by destruct ws|done|cbn; lia|unfold src; rewrite length_app; lia|].
  cbn [mbind cres_bind]. rewrite (pton6_end_full st H1 H3); [by rewrite H2|]. rewrite H2. cbn [app]. rewrite wbytes_length. lia.
Qed.

(** After two colons. *)
Lemma inet_pton6_after src before after p ct f : Forall word_ok before -> Forall word_ok after -> at_off src p (0x3a :: seg after ++ [0]) ->
  (length before + length after <= 7)%nat -> (S (length (seg after)) < f)%nat ->
  exists st, pton6_loop f src p ct (mkP6 (wbytes before) None false 0 0) = CVal (Some st) /\
    pton6_end st = CVal (Some (wbytes before ++ replicate (16 - 2 * (length before + length after)) 0 ++ wbytes after)).
Proof.
  intros Hb Hw Ha Hl Hf. apply (at_off_app src p [0x3a]) in Ha as [H1 H2]. change (Z.of_nat (length [0x3a])) with 1 in H2.
  destruct f as [|f]; [lia|]. rewrite (pton6_double f src p ct (wbytes before) H1).
  destruct after as [|w after2] eqn:Ea.
  - cbn [seg app] in H2. destruct f as [|f]; [lia|]. rewrite pton6_nul by done. eexists. split; [done|].
    apply pton6_end_gap; [done|done|cbn; by rewrite app_nil_r|lia|]. rewrite wbytes_length. cbn [length wbytes map concat]. lia.
  - rewrite <- Ea in *. destruct (pton6_seg src (Some (Z.of_nat (length (wbytes before)))) after (p + 1) (wbytes before) (p + 1) f Hw) as (st & -> & E1 & E2 & E3);
      [by rewrite Ea|done|rewrite wbytes_length; lia|lia|].
    eexists. split; [done|]. apply pton6_end_gap; [done|done|done|lia|]. rewrite !wbytes_length. lia.
Qed.

Lemma inet_pton6_gap before after : Forall word_ok before -> Forall word_ok after -> (length before + length after <= 7)%nat ->
  inet_pton6 (gap_text before after ++ [0]) 0 =
  CVal (Some (wbytes before ++ replicate (16 - 2 * (length before + length after)) 0 ++ wbytes after)).
Proof.
  intros Hb Hw Hl. set (src := gap_text before after ++ [0]). assert (at_off src 0 (gap_text before after ++ [0])) as Ha by (exists [], []; by rewrite app_nil_r).
  assert (length src = S (length (gap_text before after))) as Hlen by (unfold src; rewrite length_app; cbn; lia).
  unfold inet_pton6. unfold gap_text in Ha, Hlen. destruct before as [|b before2] eqn:Eb; [|rewrite <- Eb in *].
  - cbn [app] in Ha. rewrite (at_off_head src 0 _ _ Ha). cbn [mbind cres_bind Z.eqb Pos.eqb].
    apply (at_off_app src 0 [0x3a]) in Ha as [_ Ha]. change (0 + Z.of_nat (length [0x3a])) with 1 in Ha.
    rewrite (at_off_head src (0 + 1) _ _ Ha). cbn [mbind cres_bind Z.eqb Pos.eqb negb]. change (0 + 1) with 1.
    destruct (inet_pton6_after src [] after 1 1 (S (length src)) Hb Hw Ha Hl) as (st & E & E2); [cbn [length app] in Hlen; lia|].
    change (wbytes []) with (@nil Z) in *. rewrite E. cbn [mbind cres_bind]. exact E2.
  - rewrite <- app_assoc in Ha. cbn [app] in Ha.
    assert (exists c t, fronts before = c :: t /\ c <> 0x3a) as (c & t & E & Hc).
    { rewrite Eb in *. apply Forall_inv in Hb. destruct (fmt_x_hex b Hb) as [Hx _]. rewrite fronts_colons. pose proof (fmt_x_length b).
      destruct (fmt_x b) as [|c t]; [cbn in *; lia|]. apply Forall_inv in Hx as [_ [d Hd]]. eexists c, _. split; [done|]. by intros ->. }
    pose proof Ha as Ha1. rewrite E in Ha1. rewrite (at_off_head src 0 _ _ Ha1). cbn [mbind cres_bind]. rewrite (proj2 (Z.eqb_neq _ _) Hc).
    cbn [mbind cres_bind negb Z.eqb Pos.eqb]. rewrite length_app in Hlen. cbn [length] in Hlen.
    destruct (pton6_fronts src None before Hb 0 [] 0 0x3a (seg after ++ [0]) (S (length src)) Ha) as (f & ct' & Hf & _ & ->);
      [done|cbn; lia|lia|]. apply at_off_app in Ha as [_ Ha].
    destruct (inet_pton6_after src before after _ ct' f Hb Hw Ha Hl) as (st & E2 & E3); [lia|]. cbn [app]. rewrite E2. cbn [mbind cres_bind]. exact E3.
Qed.

(** ** Formatting *)

Definition in_run (best : Z * Z) (i : Z) : bool := negb (best.1 =? -1) && (best.1 <=? i) && (i <? best.1 + best.2).
Definition embeds (all : list Z) (best : Z * Z) (i : Z) : bool :=
  (i =? 6) && (best.1 =? 0) && ((best.2 =? 6) || ((best.2 =? 5) && (nth 5 all 0 =? 0xffff))).

Lemma tmp_put_ok tp c : (length tp < 45)%nat -> tmp_put tp c = Some (tp ++ [c]).
Proof. intros H. unfold tmp_put, NTOP6_SIZE. by zif. Qed.

Lemma fmt6_word src all best w ws i tp : in_run best i = false -> embeds all best i = false -> (length tp < 41)%nat ->
  fmt6_loop src all best (w :: ws) i tp = fmt6_loop src all best ws (i + 1) (tp ++ (if i =? 0 then [] else [0x3a]) ++ fmt_x w).
Proof.
  intros Hr He Hl. cbn [fmt6_loop]. unfold NTOP6_SIZE at 1. rewrite (proj2 (Z.ltb_lt (Z.of_nat (length tp)) 46)) by lia. cbn [negb]. fold (in_run best i). rewrite Hr. pose proof (fmt_x_length w).
  destruct (i =? 0); [|rewrite tmp_put_ok by lia]; cbn [mbind option_bind]; fold (embeds all best i); rewrite He; unfold NTOP6_SIZE;
    rewrite ?length_app; cbn [length]; repeat zif; by rewrite <- ?app_assoc.
Qed.

Lemma fmt6_words src all best ws : forall rest i tp, 0 < i -> (forall j, i <= j < i + Z.of_nat (length ws) -> in_run best j = false /\ embeds all best j = false) ->
  (length tp + 5 * length ws < 46)%nat ->
  fmt6_loop src all best (ws ++ rest) i tp = fmt6_loop src all best rest (i + Z.of_nat (length ws)) (tp ++ colons ws).
Proof.
  induction ws as [|w ws IH]; intros rest i tp Hi Hj Hl; cbn [length app] in *; [by rewrite app_nil_r, Z.add_0_r|].
  destruct (Hj i ltac:(lia)) as [H1 H2]. rewrite fmt6_word by (done || lia). zif. pose proof (fmt_x_length w).
  rewrite IH; [|lia|intros j Hjj; apply Hj; lia|rewrite !length_app; cbn [length]; lia].
  change (colons (w :: ws)) with (([0x3a] ++ fmt_x w) ++ colons ws). rewrite <- !app_assoc. f_equal. lia.
Qed.

Lemma fmt6_first src all best ws rest : (forall j, 0 <= j < Z.of_nat (length ws) -> in_run best j = false /\ embeds all best j = false) ->
  (length ws <= 8)%nat ->
  fmt6_loop src all best (ws ++ rest) 0 [] = fmt6_loop src all best rest (Z.of_nat (length ws)) (seg ws).
Proof.
  intros Hj Hl. destruct ws as [|w ws]; [done|]. cbn [length app] in *. destruct (Hj 0 ltac:(lia)) as [H1 H2].
  rewrite fmt6_word by (done || cbn; lia). pose proof (fmt_x_length w). change (0 + 1) with 1. cbn [app Z.eqb].
  rewrite fmt6_words; [|lia|intros j Hjj; apply Hj; lia|lia]. f_equal. lia.
Qed.

Lemma fmt6_skip src all best zs : forall rest i tp, (forall j, i <= j < i + Z.of_nat (length zs) -> in_run best j = true /\ j <> best.1) ->
  (length tp < 46)%nat ->
  fmt6_loop src all best (zs ++ rest) i tp = fmt6_loop src all best rest (i + Z.of_nat (length zs)) tp.
Proof.
  induction zs as [|z zs IH]; intros rest i tp Hj Hl; cbn [length app] in *; [by rewrite Z.add_0_r|].
  destruct (Hj i ltac:(lia)) as [H1 H2]. cbn [fmt6_loop]. unfold NTOP6_SIZE at 1. rewrite (proj2 (Z.ltb_lt (Z.of_nat (length tp)) 46)) by lia. cbn [negb]. fold (in_run best i). rewrite H1. zif.
  rewrite IH; [|intros j Hjj; apply Hj; lia|done]. f_equal. lia.
Qed.

(** The run: one colon. *)
Lemma fmt6_run src all best zs rest tp : best.2 = Z.of_nat (length zs) -> 0 <= best.1 -> zs <> [] -> (length tp < 45)%nat ->
  fmt6_loop src all best (zs ++ rest) best.1 tp = fmt6_loop src all best rest (best.1 + best.2) (tp ++ [0x3a]).
Proof.
  intros Hn Hb Hne Hl. destruct zs as [|z zs]; [done|]. cbn [length app] in *.
  assert (forall j, best.1 <= j < best.1 + best.2 -> in_run best j = true) as Hr by (intros j Hj; unfold in_run; by repeat zif).
  cbn [fmt6_loop]. unfold NTOP6_SIZE at 1. rewrite (proj2 (Z.ltb_lt (Z.of_nat (length tp)) 46)) by lia. cbn [negb]. fold (in_run best best.1). rewrite Hr by lia. rewrite Z.eqb_refl, tmp_put_ok by lia.
  cbn [mbind option_bind]. rewrite fmt6_skip; [|intros j Hj; split; [apply Hr|]; lia|rewrite length_app; cbn [length]; lia].
  f_equal. lia.
Qed.

Lemma seg_length ws : (length (seg ws) <= 5 * length ws)%nat.
Proof.
  assert (length (colons ws) <= 5 * length ws)%nat as H.
  { unfold colons. induction ws as [|w ws IH]; [done|]. cbn [map concat length]. rewrite length_app. pose proof (fmt_x_length w). cbn [length]. lia. }
  destruct ws as [|w ws]; [done|]. cbn [seg].
  change (colons (w :: ws)) with ((0x3a :: fmt_x w) ++ colons ws) in H. rewrite length_app in *. cbn [length] in *. lia.
Qed.

(** The text without an embedded quad. *)
Lemma fmt6_gap src all best before zs after : best = (Z.of_nat (length before), Z.of_nat (length zs)) -> (2 <= length zs)%nat ->
  (length before + length zs + length after = 8)%nat -> embeds all best 6 = false ->
  (tp ← fmt6_loop src all best (before ++ zs ++ after) 0 [];
   if negb (best.1 =? -1) && (best.1 + best.2 =? 8) then tmp_put tp 0x3a else Some tp) = Some (gap_text before after).
Proof.
  intros -> Hz Hl He. set (best := (Z.of_nat (length before), Z.of_nat (length zs))).
  assert (forall j, j <> 6 -> embeds all best j = false) as He' by (intros j Hj; unfold embeds; by rewrite (proj2 (Z.eqb_neq j 6) Hj)).
  assert (forall j, embeds all best j = false) as He2 by (intros j; destruct (decide (j = 6)) as [->|]; auto).
  rewrite fmt6_first; [|intros j Hj; split; [unfold in_run, best; cbn; repeat zif; done|done]|lia].
  pose proof (seg_length before) as Hs. change (Z.of_nat (length before)) with best.1 at 1.
  rewrite fmt6_run; [|done|cbn; lia|by destruct zs; [cbn in Hz; lia|]|lia].
  rewrite <- (app_nil_r after) at 1. rewrite fmt6_words; [|cbn; lia|intros j Hj; split; [unfold in_run, best in *; cbn in *; repeat zif; done|done]|rewrite length_app; cbn [length]; lia].
  cbn [fmt6_loop mbind option_bind]. unfold gap_text, best. cbn [fst snd]. zif.
  assert (seg before ++ [0x3a] = match before with [] => [0x3a] | _ => fronts before end) as E.
  { destruct before as [|b before2]; [done|]. cbn [seg]. rewrite fronts_colons. by rewrite <- app_assoc. }
  rewrite E. destruct after as [|a after2]; cbn [length] in *; zif.
  - rewrite tmp_put_ok.
    + unfold colons, seg. cbn [map concat]. by rewrite app_nil_r.
    + rewrite <- E, !length_app. cbn. lia.
  - done.
Qed.

(** The text without a run. *)
Lemma fmt6_seg src all len ws : length ws = 8%nat ->
  fmt6_loop src all (-1, len) ws 0 [] = Some (seg ws).
Proof.
  intros Hl. rewrite <- (app_nil_r ws) at 1. rewrite fmt6_first; [done| |lia]. intros j Hj. split; [done|].
  unfold embeds. cbn. by rewrite andb_false_r.
Qed.

(** A quad after a colon. *)
Lemma pton6_quad src col out p q fuel : octets q -> length q = 4%nat -> at_off src p (fmt_quad q ++ [0]) -> (length out <= 12)%nat ->
  (length (fmt_quad q) < fuel)%nat ->
  exists st, pton6_loop fuel src p p (mkP6 out col false 0 0) = CVal (Some st) /\ p6_colonp st = col /\ p6_saw st = false /\ p6_bytes st = out ++ q.
Proof.
  intros Ho Hl Ha Hout Hf. pose proof (inet_pton4_quad src p q Ho Hl Ha) as H4. destruct q as [|a [|b q]]; [done|done|].
  cbn [fmt_quad map concat] in Ha, Hf. rewrite <- !app_assoc in Ha. apply at_off_app in Ha as [H1 H2]. rewrite length_app in Hf.
  apply octets_cons in Ho as [Hab _]. pose proof (fmt_d_length a) as Hla.
  destruct (pton6_digits src p out col (fmt_d a) (fmt_d_hex a Hab) false 0 0 p fuel) as (f & Hf' & _ & ->); [done|lia|lia|lia|lia|].
  change (length (dotted b ++ concat (map dotted q))) with (S (length (fmt_d b ++ concat (map dotted q)))) in Hf.
  destruct f as [|f]; [lia|]. cbn [pton6_loop]. rewrite (at_off_head src _ 0x2e _ H2). cbn [mbind cres_bind]. change (0x2e =? 0) with false.
  change (hexval 0x2e) with (@None Z). change (0x2e =? 0x3a) with false. change (0x2e =? 0x2e) with true. unfold INADDRSZ, IN6ADDRSZ. cbn [andb].
  zif. rewrite H4. cbn [mbind cres_bind]. by eexists.
Qed.

(** Two colons, the words [fs] and a quad. *)
Lemma inet_pton6_embedded fs q : Forall word_ok fs -> octets q -> length q = 4%nat -> (length fs <= 1)%nat ->
  inet_pton6 (0x3a :: 0x3a :: fronts fs ++ fmt_quad q ++ [0]) 0 = CVal (Some (replicate (12 - 2 * length fs) 0 ++ wbytes fs ++ q)).
Proof.
  intros Hw Ho Hq Hl. set (src := 0x3a :: 0x3a :: fronts fs ++ fmt_quad q ++ [0]).
  assert (at_off src 0 ([0x3a] ++ [0x3a] ++ fronts fs ++ fmt_quad q ++ [0])) as Ha by (exists [], []; by rewrite app_nil_r).
  assert (length src = (3 + length (fronts fs) + length (fmt_quad q))%nat) as Hlen by (unfold src; cbn [length]; rewrite !length_app; cbn [length]; lia).
  unfold inet_pton6. apply at_off_app in Ha as [H1 Ha]. rewrite (at_off_head src 0 _ _ H1). cbn [mbind cres_bind Z.eqb Pos.eqb].
  change (0 + Z.of_nat (length [0x3a])) with 1 in Ha. apply at_off_app in Ha as [H2 Ha]. change (0 + 1) with 1. rewrite (at_off_head src 1 _ _ H2).
  cbn [mbind cres_bind Z.eqb Pos.eqb negb]. rewrite pton6_double by done. cbn [length].
  change (1 + Z.of_nat (length [0x3a])) with (1 + 1) in Ha.
  assert (exists c t, fmt_quad q = c :: t /\ c <> 0) as (c & t & Eq & Hc).
  { destruct q as [|a q]; [done|]. apply octets_cons in Ho as [Hab _]. pose proof (fmt_d_hex a Hab) as Hx. pose proof (fmt_d_length a). cbn [fmt_quad].
    destruct (fmt_d a) as [|c t]; [cbn in *; lia|]. apply Forall_inv in Hx as [Hx _]. by do 2 eexists. }
  pose proof Ha as Ha1. rewrite Eq in Ha1.
  destruct (pton6_fronts src (Some 0) fs Hw (1 + 1) [] (1 + 1) c (t ++ [0]) (length src)) as (f & ct & Hf & Hct & E); [done|done|cbn; lia|lia|].
  change (Z.of_nat 0) with 0. rewrite E. rewrite (Hct eq_refl). apply at_off_app in Ha as [_ Ha].
  destruct (pton6_quad src (Some 0) ([] ++ wbytes fs) _ q f Ho Hq Ha) as (st & -> & E1 & E2 & E3); [cbn [app]; rewrite wbytes_length; lia|lia|].
  cbn [mbind cres_bind]. apply (pton6_end_gap st [] (wbytes fs ++ q)); [done|by rewrite E2|done|lia|]. rewrite length_app, wbytes_length. cbn [length]. lia.
Qed.

(** The text with an embedded quad: words 5 to 0, or 4 to 0 before 0xffff, are zero. *)
Lemma fmt6_embedded src all zs fs w rest : (length zs + length fs = 6)%nat -> length fs = 0%nat \/ fs = [0xffff] /\ nth 5 all 0 = 0xffff ->
  length (drop 12 src) = 4%nat ->
  fmt6_loop src all (0, Z.of_nat (length zs)) (zs ++ fs ++ w :: rest) 0 [] = Some (0x3a :: 0x3a :: fronts fs ++ fmt_quad (drop 12 src)).
Proof.
  intros Hl Hfs Hq. set (best := (0, Z.of_nat (length zs))). pose proof (fmt_quad_length (drop 12 src)) as Hql.
  assert (1 <= length (fmt_quad (drop 12 src)))%nat as Hq1.
  { destruct (drop 12 src) as [|a l]; [done|]. cbn [fmt_quad]. rewrite length_app. pose proof (fmt_d_length a). lia. }
  assert ((1 <= length zs)%nat /\ (length fs <= 1)%nat) as [Hz Hf1] by (destruct Hfs as [?|[-> _]]; cbn in *; lia).
  change 0 with best.1 at 1. rewrite (fmt6_run src all best zs); [|done|done|by destruct zs; [cbn in Hz; lia|]|cbn; lia].
  change (best.1 + best.2) with (Z.of_nat (length zs)). cbn [app].
  rewrite (fmt6_words src all best fs (w :: rest)); [|lia| |cbn [length]; lia].
  - assert (Z.of_nat (length zs) + Z.of_nat (length fs) = 6) as -> by lia.
    assert (embeds all best 6 = true) as He.
    { unfold embeds, best. cbn. destruct Hfs as [H|[-> H]]; cbn [length] in *; rewrite ?H; repeat zif; done. }
    assert (length (colons fs) <= 5 * length fs)%nat as Hc by (destruct Hfs as [H|[-> _]]; [by destruct fs|vm_compute; lia]).
    cbn [fmt6_loop]. unfold NTOP6_SIZE at 1. rewrite (proj2 (Z.ltb_lt _ 46)) by (rewrite length_app; cbn [length]; lia). cbn [negb].
    fold (in_run best 6). assert (in_run best 6 = false) as -> by (unfold in_run, best; cbn; by zif).
    change (6 =? 0) with false. cbv iota. rewrite tmp_put_ok by (rewrite length_app; cbn [length]; lia). cbn [mbind option_bind].
    fold (embeds all best 6). rewrite He. unfold inet_ntop4, NTOP6_SIZE. rewrite !length_app. cbn [length]. repeat zif.
    rewrite removelast_last. f_equal. destruct Hfs as [H|[-> _]]; [by destruct fs|done].
  - intros j Hj. split; [unfold in_run, best; cbn; by repeat zif|]. unfold embeds. by rewrite (proj2 (Z.eqb_neq j 6)) by lia.
Qed.

(** The run that is chosen is one of two zeros or more, or there is none. *)
Definition run_ok (zeros : list bool) (best : Z * Z) : bool :=
  (best.1 =? -1) || ((0 <=? best.1) && (2 <=? best.2) && (best.1 + best.2 <=? 8) &&
    forallb id (take (Z.to_nat best.2) (drop (Z.to_nat best.1) zeros))).

Fixpoint bools (n : nat) : list (list bool) :=
  match n with O => [[]] | S n => map (cons true) (bools n) ++ map (cons false) (bools n) end.

Lemma bools_in l : l ∈ bools (length l).
Proof.
  induction l as [|b l IH]; [left|]. cbn [length bools]. rewrite elem_of_app.
  destruct b; [left|right]; (eapply list_elem_of_fmap_2'; [exact IH|done]).
Qed.

Lemma best_run_ok zeros : length zeros = 8%nat -> run_ok zeros (best_run zeros) = true.
Proof.
  intros Hl. assert (forallb (fun z => run_ok z (best_run z)) (bools 8) = true) as H by (vm_compute; reflexivity).
  rewrite forallb_forall in H. apply H. apply list_elem_of_In. rewrite <- Hl. apply bools_in.
Qed.

(** ** The round trip *)

Lemma zeros_replicate zs : forallb id (map (fun w => w =? 0) zs) = true -> zs = replicate (length zs) 0.
Proof.
  induction zs as [|z zs IH]; [done|]. cbn [map forallb length replicate id]. rewrite andb_true_iff. intros [->%Z.eqb_eq H]. f_equal. by apply IH.
Qed.

Lemma wbytes_zeros n : wbytes (replicate n 0) = replicate (2 * n) 0.
Proof.
  induction n as [|n IH]; [done|]. cbn [replicate]. change (wbytes (0 :: replicate n 0)) with ([0; 0] ++ wbytes (replicate n 0)). rewrite IH.
  by replace (2 * S n)%nat with (S (S (2 * n))) by lia.
Qed.

(** The words before, in and after the run. *)
Lemma run_split ws b l : length ws = 8%nat -> run_ok (map (fun w => w =? 0) ws) (b, l) = true -> b <> -1 ->
  exists before zs after, ws = before ++ zs ++ after /\ (b, l) = (Z.of_nat (length before), Z.of_nat (length zs)) /\ (2 <= length zs)%nat /\
    zs = replicate (length zs) 0 /\ (length before + length zs + length after = 8)%nat.
Proof.
  intros Hl H Hb. unfold run_ok in H. cbn [fst snd] in H. rewrite (proj2 (Z.eqb_neq b (-1)) Hb) in H. cbn [orb] in H.
  rewrite !andb_true_iff, !Z.leb_le in H. destruct H as [[[H1 H2] H3] H4].
  exists (take (Z.to_nat b) ws), (take (Z.to_nat l) (drop (Z.to_nat b) ws)), (drop (Z.to_nat l) (drop (Z.to_nat b) ws)).
  rewrite !take_drop, !length_drop, !length_take, !length_drop. split_and!; [done|f_equal; lia|lia| |lia].
  rewrite skipn_map, firstn_map in H4. apply zeros_replicate in H4. rewrite length_take, length_drop in H4. exact H4.
Qed.

(** What inet_ntop6 gives for a text of at most 45 characters. *)
Lemma ntop6_size src size text : (length text < 45)%nat ->
  (tp ← fmt6_loop src (words src) (best_run (map (fun w => w =? 0) (words src))) (words src) 0 [];
   if negb ((best_run (map (fun w => w =? 0) (words src))).1 =? -1) && ((best_run (map (fun w => w =? 0) (words src))).1 + (best_run (map (fun w => w =? 0) (words src))).2 =? 8)
   then tmp_put tp 0x3a else Some tp) = Some text ->
  inet_ntop6 src size = if size <? Z.of_nat (length text) + 1 then inl ENOSPC else inr (text ++ [0]).
Proof.
  intros Hl H. unfold inet_ntop6. set (best := best_run _) in *.
  destruct (fmt6_loop src (words src) best (words src) 0 []) as [tp|]; [|done]. cbn [mbind option_bind] in *. rewrite H. cbn [mbind option_bind].
  rewrite tmp_put_ok by lia. rewrite length_app. cbn [length]. by replace (Z.of_nat (length text + 1)) with (Z.of_nat (length text) + 1) by lia.
Qed.

Lemma fronts_length ws : (length (fronts ws) <= 5 * length ws)%nat.
Proof.
  induction ws as [|w ws IH]; [done|]. change (fronts (w :: ws)) with (front w ++ fronts ws). unfold front at 1.
  rewrite !length_app. pose proof (fmt_x_length w). cbn [length]. lia.
Qed.

Lemma gap_text_length before after : (length before + length after <= 6)%nat -> (length (gap_text before after) < 45)%nat.
Proof.
  intros H. unfold gap_text. rewrite length_app. cbn [length]. pose proof (seg_length after). pose proof (fronts_length before).
  destruct before; cbn [length] in *; lia.
Qed.

(** The words of an embedded quad, and the word before them. *)
Lemma embedded_words ws (zs after : list Z) l : ws = zs ++ after -> l = Z.of_nat (length zs) -> (length zs + length after = 8)%nat ->
  l = 6 \/ (l = 5 /\ nth 5 ws 0 = 0xffff) ->
  exists fs w2 rest, after = fs ++ w2 :: rest /\ (length zs + length fs = 6)%nat /\ length rest = 1%nat /\
    (length fs = 0%nat \/ fs = [0xffff] /\ nth 5 ws 0 = 0xffff).
Proof.
  intros Ew Elz Hlen [->|[-> H5]].
  - destruct after as [|w6 rest]; [cbn in Hlen; lia|]. exists [], w6, rest. cbn in *. split_and!; [done|lia|lia|by left].
  - destruct after as [|w5 [|w6 rest]]; [cbn in Hlen; lia..|]. exists [w5], w6, rest. cbn in *. split_and!; [done|lia|lia|right].
    split; [|done]. rewrite Ew, app_nth2 in H5 by lia. replace (5 - length zs)%nat with 0%nat in H5 by lia. cbn in H5. by rewrite H5.
Qed.

Lemma inet_ntop6_round src size : octets src -> length src = 16%nat ->
  exists text, (length text < 45)%nat /\ inet_pton6 (text ++ [0]) 0 = CVal (Some src) /\
    inet_ntop6 src size = if size <? Z.of_nat (length text) + 1 then inl ENOSPC else inr (text ++ [0]).
Proof.
  intros Ho Hl. destruct (words_bytes 8 src Ho Hl) as (Hb & Hw & Hn). pose proof (best_run_ok (map (fun w => w =? 0) (words src))) as Hr.
  rewrite length_map in Hr. specialize (Hr Hn). pose proof (ntop6_size src size) as Hsize. destruct (best_run _) as [b l] eqn:Eb.
  destruct (decide (b = -1)) as [->|Hne].
  { exists (seg (words src)). pose proof (seg_length (words src)). rewrite inet_pton6_seg by done. rewrite Hb.
    split; [lia|]. split; [done|]. apply Hsize; [lia|]. rewrite fmt6_seg by done. done. }
  destruct (run_split (words src) b l Hn Hr Hne) as (before & zs & after & Ew & Ebl & Hz & Hzs & Hlen).
  destruct (embeds (words src) (b, l) 6) eqn:Ee.
  - unfold embeds in Ee. cbn [fst snd] in Ee. rewrite !andb_true_iff, orb_true_iff, andb_true_iff, !Z.eqb_eq in Ee.
    destruct Ee as [[_ ->] Hcase]. injection Ebl as Ebz Elz. destruct before; [|cbn in Ebz; lia]. cbn [app length] in *.
    destruct (embedded_words (words src) zs after l Ew Elz Hlen Hcase) as (fs & w2 & rest & -> & Hzf & Hrest & Hfs).
    assert (length (fs ++ w2 :: rest) <= 3)%nat as Hf3 by lia. rewrite Ew in Hw. apply Forall_app in Hw as [_ Hw]. apply Forall_app in Hw as [Hwf Hwr].
    assert (src = replicate (12 - 2 * length fs) 0 ++ wbytes fs ++ wbytes (w2 :: rest)) as Esrc.
    { rewrite <- Hb, Ew, !wbytes_app, Hzs, wbytes_zeros. by replace (12 - 2 * length fs)%nat with (2 * length zs)%nat by lia. }
    assert (drop 12 src = wbytes (w2 :: rest)) as Edrop.
    { rewrite Esrc, app_assoc. apply drop_app_length'. rewrite length_app, length_replicate, wbytes_length.
      assert (length fs <= 1)%nat by (destruct Hfs as [?|[-> _]]; cbn in *; lia). lia. }
    assert (length (drop 12 src) = 4%nat) as Hq by (rewrite length_drop; lia).
    assert (octets (drop 12 src)) as Hoq by (intros x Hx; apply Ho; rewrite <- (take_drop 12 src); apply elem_of_app; by right).
    exists (0x3a :: 0x3a :: fronts fs ++ fmt_quad (drop 12 src)). pose proof (fmt_quad_length (drop 12 src)) as Hql. pose proof (fronts_length fs) as Hfl.
    assert (length fs <= 1)%nat as Hf1 by (destruct Hfs as [?|[-> _]]; cbn in *; lia).
    split; [cbn [length]; rewrite length_app; lia|]. split.
    + cbn [app]. rewrite <- app_assoc. rewrite (inet_pton6_embedded fs (drop 12 src) Hwf Hoq Hq Hf1). rewrite Edrop. by rewrite <- Esrc.
    + apply Hsize; [cbn [length]; rewrite length_app; lia|]. cbn [fst snd]. rewrite Elz. rewrite Ew at 2.
      rewrite fmt6_embedded by done. cbn [mbind option_bind]. by rewrite (proj2 (Z.eqb_neq (0 + Z.of_nat (length zs)) 8)) by lia.
  - exists (gap_text before after). assert (length before + length after <= 6)%nat as H6 by lia. pose proof (gap_text_length before after H6).
    rewrite Ew in Hw. apply Forall_app in Hw as [Hw1 Hw]. apply Forall_app in Hw as [_ Hw2]. split; [done|]. split.
    + rewrite inet_pton6_gap by (done || lia). rewrite <- Hb, Ew, !wbytes_app. rewrite Hzs, wbytes_zeros.
      by replace (16 - 2 * (length before + length after))%nat with (2 * length zs)%nat by lia.
    + apply Hsize; [done|]. rewrite Ew at 2. by apply fmt6_gap.
Qed.

(** ** inet_aton *)

Lemma aton_concoct_quad a b c d : 0 <= a < 256 -> 0 <= b < 256 -> 0 <= c < 256 -> 0 <= d < 256 ->
  exists v, aton_concoct [a; b; c] d = Some v /\ htonl_bytes v = [a; b; c; d].
Proof.
  intros Ha Hb Hc Hd. cbn [aton_concoct]. repeat zif. eexists. split; [done|].
  rewrite !u32_small by (rewrite Z.shiftl_mul_pow2 by lia; lia).
  assert (Z.lor d (Z.lor (Z.lor (Z.shiftl a 24) (Z.shiftl b 16)) (Z.shiftl c 8)) = a * 2 ^ 24 + b * 2 ^ 16 + c * 2 ^ 8 + d) as ->.
  { replace (Z.shiftl a 24) with (Z.shiftl (Z.shiftl a 8) 16) by (by rewrite Z.shiftl_shiftl by lia).
    rewrite <- Z.shiftl_lor, (lor_low a b 8) by lia.
    replace (Z.shiftl (a * 2 ^ 8 + b) 16) with (Z.shiftl (Z.shiftl (a * 2 ^ 8 + b) 8) 8) by (by rewrite Z.shiftl_shiftl by lia).
    rewrite <- Z.shiftl_lor, (lor_low _ c 8), Z.lor_comm, (lor_low _ d 8) by lia. lia. }
  unfold htonl_bytes, u8. f_equal; [zdm|]. f_equal; [zdm|]. f_equal; [zdm|]. f_equal. zdm.
Qed.

(** The character classes of digits and of what ends a number here. *)
Lemma digit_class d : 0 <= d < 10 -> isascii (digits d) && negb (isdigit (digits d) =? 0) = true.
Proof.
  intros Hd. apply (range_check (fun d => isascii (digits d) && negb (isdigit (digits d) =? 0)) 0 10); [vm_compute; reflexivity|lia].
Qed.

Definition number_end (t : Z) : Prop := t = 0x2e \/ t = 0.

Lemma aton_stop f s p t base val : number_end t -> aton_digits (S f) s p t base val = CVal (p, t, val).
Proof. intros [->| ->]; cbn [aton_digits]; (destruct (base =? 16); reflexivity). Qed.

Lemma aton_step f s p d c' val : 0 <= d < 10 -> 0 <= val * 10 + d < 2 ^ 32 -> aget s (p + 1) = CVal c' ->
  aton_digits (S f) s p (digits d) 10 val = aton_digits f s (p + 1) c' 10 (val * 10 + d).
Proof.
  intros Hd Hv Hc. cbn [aton_digits]. rewrite (digit_class d Hd), Hc. cbn [mbind cres_bind].
  destruct (digit_facts d Hd) as (_ & _ & ->). by rewrite u32_small.
Qed.

(** A number of a quad, with what ends it. *)
Lemma aton_number s p b t f : 0 <= b < 256 -> number_end t -> at_off s p (fmt_d b ++ [t]) ->
  exists c, aget s p = CVal c /\ (isdigit c =? 0) = false /\
    (start ← (if c =? 0x30 then
                c1 ← aget s (p + 1);
                if (c1 =? 0x78) || (c1 =? 0x58) then c2 ← aget s (p + 2); CVal (p + 2, c2, 16) else CVal (p + 1, c1, 8)
              else CVal (p, c, 10));
     let '(p, c, base) := start in aton_digits (S (S (S (S f)))) s p c base 0) = CVal (p + Z.of_nat (length (fmt_d b)), t, b).
Proof.
  intros Hb Ht Ha. assert (forall d, 0 <= d < 10 -> (isdigit (digits d) =? 0) = false) as Hdig.
  { intros d Hd. pose proof (digit_class d Hd) as H. rewrite andb_true_iff, negb_true_iff in H. apply H. }
  assert (forall d, 0 <= d < 10 -> d <> 0 -> (digits d =? 0x30) = false) as Hnz by (intros d Hd Hd0; unfold digits; lia).
  destruct (fmt_d_cases b ltac:(lia)) as [(H & E)|[(H & x & y & E & Hx & Hy & Hne & Ev)|(H & x & y & z & E & Hx & Hy & Hz & Hne & Ev)]];
    rewrite E in *; cbn [app length] in *.
  - exists (digits b). split; [by eapply at_off_head|]. split; [apply Hdig; lia|].
    assert (aget s (p + 1) = CVal t) as H1 by (by apply (at_off_get s p _ 1 t Ha)).
    destruct (Z.eqb_spec (digits b) 0x30) as [E0|E0].
    + rewrite H1. cbn [mbind cres_bind]. assert ((t =? 0x78) || (t =? 0x58) = false) as -> by (by destruct Ht as [->| ->]).
      cbn [mbind cres_bind]. rewrite aton_stop by done. unfold digits in E0. replace b with 0 by lia. done.
    + cbn [mbind cres_bind]. rewrite (aton_step _ s p b t 0) by (done || lia). by rewrite aton_stop.
  - exists (digits x). split; [by eapply at_off_head|]. split; [apply Hdig; lia|]. rewrite (Hnz x Hx Hne). cbn [mbind cres_bind].
    assert (aget s (p + 1) = CVal (digits y)) as H1 by (by apply (at_off_get s p _ 1 _ Ha)).
    assert (aget s (p + 1 + 1) = CVal t) as H2 by (replace (p + 1 + 1) with (p + Z.of_nat 2) by lia; by apply (at_off_get s p _ 2 _ Ha)).
    rewrite (aton_step _ s p x _ 0 Hx) by (done || lia). rewrite (aton_step _ s (p + 1) y t _ Hy) by (done || lia). rewrite aton_stop by done.
    do 2 f_equal; [f_equal; lia|lia].
  - exists (digits x). split; [by eapply at_off_head|]. split; [apply Hdig; lia|]. rewrite (Hnz x Hx Hne). cbn [mbind cres_bind].
    assert (aget s (p + 1) = CVal (digits y)) as H1 by (by apply (at_off_get s p _ 1 _ Ha)).
    assert (aget s (p + 1 + 1) = CVal (digits z)) as H2 by (replace (p + 1 + 1) with (p + Z.of_nat 2) by lia; by apply (at_off_get s p _ 2 _ Ha)).
    assert (aget s (p + 1 + 1 + 1) = CVal t) as H3 by (replace (p + 1 + 1 + 1) with (p + Z.of_nat 3) by lia; by apply (at_off_get s p _ 3 _ Ha)).
    rewrite (aton_step _ s p x _ 0 Hx) by (done || lia). rewrite (aton_step _ s (p + 1) y _ _ Hy) by (done || lia).
    rewrite (aton_step _ s (p + 1 + 1) z t _ Hz) by (done || lia). rewrite aton_stop by done. do 2 f_equal; [f_equal; lia|lia].
Qed.

Lemma aton_loop_part f s p b t parts : 0 <= b < 256 -> number_end t -> at_off s p (fmt_d b ++ [t]) -> (4 <= length s)%nat ->
  exists c, aget s p = CVal c /\
    aton_loop (S f) s p c parts =
    if t =? 0x2e then
      if 3 <=? Z.of_nat (length parts) then CVal None
      else c' ← aget s (p + Z.of_nat (length (fmt_d b)) + 1); aton_loop f s (p + Z.of_nat (length (fmt_d b)) + 1) c' (parts ++ [b])
    else CVal (Some (parts, b)).
Proof.
  intros Hb Ht Ha Hs. assert (exists k, S (length s) = S (S (S (S k)))) as [k Hk] by (exists (length s - 3)%nat; lia).
  destruct (aton_number s p b t k Hb Ht Ha) as (c & Hc & Hd & Hrun). exists c. split; [done|]. cbn [aton_loop]. rewrite Hd.
  destruct (if c =? 0x30 then _ else _) as [[[p1 c1] b1]| |]; cbn [mbind cres_bind] in *; try done.
  rewrite Hk, Hrun. cbn [mbind cres_bind]. destruct Ht as [->| ->]; [done|]. done.
Qed.

Lemma inet_aton_quad a b c d s : octets [a; b; c; d] -> s = fmt_quad [a; b; c; d] ++ [0] -> inet_aton s = CVal (1, [a; b; c; d]).
Proof.
  intros (Ha & (Hb & (Hc & (Hd & _)%octets_cons)%octets_cons)%octets_cons)%octets_cons Es.
  assert (at_off s 0 (fmt_d a ++ [0x2e] ++ fmt_d b ++ [0x2e] ++ fmt_d c ++ [0x2e] ++ fmt_d d ++ [0])) as H0.
  { exists [], []. rewrite Es, app_nil_r. cbn [app fmt_quad map concat]. unfold dotted. repeat (rewrite <- ?app_assoc; cbn [app]). done. }
  pose proof (fmt_d_length a). pose proof (fmt_d_length b). pose proof (fmt_d_length c). pose proof (fmt_d_length d).
  assert (4 <= length s)%nat as Hs by (apply at_off_bound in H0 as [_ H0]; rewrite !length_app in H0; cbn [length] in H0; lia).
  assert (at_off s 0 (fmt_d a ++ [0x2e])) as A1 by (rewrite app_assoc in H0; by apply at_off_app in H0 as [H0 _]).
  rewrite app_assoc in H0. apply at_off_app in H0 as [_ H0]. rewrite length_app in H0. cbn [length] in H0.
  set (p1 := 0 + Z.of_nat (length (fmt_d a) + 1)) in *.
  assert (at_off s p1 (fmt_d b ++ [0x2e])) as A2 by (rewrite app_assoc in H0; by apply at_off_app in H0 as [H0 _]).
  rewrite app_assoc in H0. apply at_off_app in H0 as [_ H0]. rewrite length_app in H0. cbn [length] in H0.
  set (p2 := p1 + Z.of_nat (length (fmt_d b) + 1)) in *.
  assert (at_off s p2 (fmt_d c ++ [0x2e])) as A3 by (rewrite app_assoc in H0; by apply at_off_app in H0 as [H0 _]).
  rewrite app_assoc in H0. apply at_off_app in H0 as [_ A4]. rewrite length_app in A4. cbn [length] in A4.
  set (p3 := p2 + Z.of_nat (length (fmt_d c) + 1)) in *.
  destruct (aton_loop_part (length s) s 0 a 0x2e [] Ha (or_introl eq_refl) A1 Hs) as (c0 & E0 & L0).
  unfold inet_aton. rewrite E0. cbn [mbind cres_bind]. rewrite L0. change (3 <=? Z.of_nat (length [])) with false. cbn [Z.eqb Pos.eqb app].
  replace (0 + Z.of_nat (length (fmt_d a)) + 1) with p1 by lia.
  assert (exists n, length s = S (S (S n))) as [n Hn] by (exists (length s - 3)%nat; lia). rewrite Hn.
  destruct (aton_loop_part (S (S n)) s p1 b 0x2e [a] Hb (or_introl eq_refl) A2 Hs) as (c1 & -> & L1). cbn [mbind cres_bind]. rewrite L1.
  change (3 <=? Z.of_nat (length [a])) with false. cbn [Z.eqb Pos.eqb app].
  replace (p1 + Z.of_nat (length (fmt_d b)) + 1) with p2 by lia.
  destruct (aton_loop_part (S n) s p2 c 0x2e [a; b] Hc (or_introl eq_refl) A3 Hs) as (c2 & -> & L2). cbn [mbind cres_bind]. rewrite L2.
  change (3 <=? Z.of_nat (length [a; b])) with false. cbn [Z.eqb Pos.eqb app].
  replace (p2 + Z.of_nat (length (fmt_d c)) + 1) with p3 by lia.
  destruct (aton_loop_part n s p3 d 0 [a; b; c] Hd (or_intror eq_refl) A4 Hs) as (c3 & -> & L3). cbn [mbind cres_bind]. rewrite L3.
  cbn [Z.eqb Pos.eqb mbind cres_bind]. destruct (aton_concoct_quad a b c d Ha Hb Hc Hd) as (v & -> & ->). done.
Qed.

(** C29: An address that inet_ntop prints into a buffer of 46 bytes (INET6_ADDRSTRLEN), of 4 or 16 octets by
    its family, is a string that inet_pton reads back as the same octets, whatever run of
    zeros is written as two colons and also when it ends in a dotted quad; a smaller
    buffer gets ENOSPC or the same string.  For 4 octets inet_ntoa prints the same string,
    and inet_aton reads it back too. *)
Theorem inet_round_trip af a size : octets a -> af = AF_INET /\ length a = 4%nat \/ af = AF_INET6 /\ length a = 16%nat ->
  exists text, (length text < 45)%nat /\ inet_pton af (text ++ [0]) = CVal (inr (1, a)) /\
    inet_ntop af a size = (if size <? Z.of_nat (length text) + 1 then inl ENOSPC else inr (text ++ [0])) /\
    (af = AF_INET -> inet_ntoa a = text ++ [0] /\ inet_aton (text ++ [0]) = CVal (1, a) /\ inet_addr (text ++ [0]) = CVal a).
Proof.
  intros Ho [[-> Hl]|[-> Hl]].
  - exists (fmt_quad a). pose proof (fmt_quad_length a) as Hq. split; [lia|].
    assert (at_off (fmt_quad a ++ [0]) 0 (fmt_quad a ++ [0])) as Ha by (exists [], []; by rewrite app_nil_r).
    assert (1 <= length (fmt_quad a))%nat by (destruct a as [|b a]; [done|]; cbn [fmt_quad]; rewrite length_app; pose proof (fmt_d_length b); lia).
    destruct a as [|b [|c [|d [|e [|]]]]]; try done.
    assert (inet_aton (fmt_quad [b; c; d; e] ++ [0]) = CVal (1, [b; c; d; e])) as Haton by by apply inet_aton_quad.
    split_and!.
    + unfold inet_pton. cbn [AF_INET Z.eqb Pos.eqb]. by rewrite (inet_pton4_quad _ 0 [b; c; d; e]).
    + unfold inet_ntop. change (AF_INET =? AF_INET) with true. cbv iota. unfold inet_ntop4. rewrite (proj2 (Z.leb_gt _ 0)) by lia. cbn [orb].
      destruct (Z.leb_spec size (Z.of_nat (length (fmt_quad [b; c; d; e])))); by zif.
    + intros _. unfold inet_addr. rewrite Haton. done.
  - destruct (inet_ntop6_round a size Ho Hl) as (text & Ht & Hp & Hn). exists text. split; [done|]. unfold inet_pton, inet_ntop.
    change (AF_INET6 =? AF_INET) with false. change (AF_INET6 =? AF_INET6) with true. cbv iota. rewrite Hp. done.
Qed.

Lemma inet_round_trip_witness :
  let a := [0x20; 1; 0xd; 0xb8; 0; 0; 0; 0; 0; 1; 0; 0; 0; 0; 0; 1] in
  (* "2001:db8::1:0:0:1" *)
  inet_ntop AF_INET6 a 46 = inr [0x32; 0x30; 0x30; 0x31; 0x3a; 0x64; 0x62; 0x38; 0x3a; 0x3a; 0x31; 0x3a; 0x30; 0x3a; 0x30; 0x3a; 0x31; 0] /\
  exists text, (length text < 45)%nat /\ inet_pton AF_INET6 (text ++ [0]) = CVal (inr (1, a)) /\
    inet_ntop AF_INET6 a 46 = (if 46 <? Z.of_nat (length text) + 1 then inl ENOSPC else inr (text ++ [0])) /\
    (AF_INET6 = AF_INET -> inet_ntoa a = text ++ [0] /\ inet_aton (text ++ [0]) = CVal (1, a) /\ inet_addr (text ++ [0]) = CVal a).
Proof.
  split; [vm_compute; reflexivity|].
  apply (inet_round_trip AF_INET6 [0x20; 1; 0xd; 0xb8; 0; 0; 0; 0; 0; 1; 0; 0; 0; 0; 0; 1] 46); [|right; split; reflexivity].
  intros x Hx. rewrite !elem_of_cons in Hx. destruct_or! Hx; subst; try lia. by apply not_elem_of_nil in Hx.
Defined.

(** "1::2:3:4:5:6:7:8": two colons in a full address clear what comes after them. *)
Lemma full_address_cleared :
  inet_pton AF_INET6 [0x31; 0x3a; 0x3a; 0x32; 0x3a; 0x33; 0x3a; 0x34; 0x3a; 0x35; 0x3a; 0x36; 0x3a; 0x37; 0x3a; 0x38; 0] =
  CVal (inr (1, [0; 1; 0; 0; 0; 0; 0; 0; 0; 0; 0; 0; 0; 0; 0; 0])).
Proof. vm_compute. reflexivity. Qed.

(** "4294967297" is the address 0.0.0.1: the numbers of inet_aton wrap around; and 8 and 9 are octal digits. *)
Lemma aton_wraps :
  inet_aton [0x34; 0x32; 0x39; 0x34; 0x39; 0x36; 0x37; 0x32; 0x39; 0x37; 0] = CVal (1, [0; 0; 0; 1]) /\
  inet_aton [0x31; 0x2e; 0x32; 0x2e; 0x33; 0x2e; 0x30; 0x39; 0] = CVal (1, [1; 2; 3; 9]).
Proof. vm_compute. done. Qed.
