(* ===== verification/TzRule.v ===== *)
(** * Time zone strings (libc/tzcode/localtime.c, tzparse)

    A POSIX zone string names standard and summer time, their offsets, and the rules by which
    summer time starts and ends in each year.  tzparse makes of it the data of a zone, two
    transitions a year from 1970 on.  A pointer into a string is the list of the characters
    from it to the NUL. *)

From Stdlib Require Import ZArith Lia.
From stdpp Require Import base list numbers.
From S2P Require Import Prelude Time64 Tz.

Open Scope Z_scope.

Definition TZ_MAX_TIMES : Z := 1200.

(** sizeof sp->chars: 2 * (MY_TZNAME_MAX + 1). *)
Definition chars_size : Z := 512.

(** ",M4.1.0,M10.5.0" *)
Definition TZDEFRULESTRING : list Z := [0x2c; 0x4d; 0x34; 0x2e; 0x31; 0x2e; 0x30; 0x2c; 0x4d; 0x31; 0x30; 0x2e; 0x35; 0x2e; 0x30].

(** *strp *)
Definition peek (s : list Z) : Z := match s with [] => 0 | c :: _ => c end.

Definition is_digit (c : Z) : bool := (0x30 <=? c) && (c <=? 0x39).

Fixpoint getzname (strp : list Z) : list Z :=
  match strp with
  | [] => []
  | c :: s => if negb (c =? 0) && negb (is_digit c) && negb (c =? 0x2c) && negb (c =? 0x2d) && negb (c =? 0x2b) then getzname s else strp
  end.

Fixpoint getqzname (strp : list Z) (delim : Z) : list Z :=
  match strp with
  | [] => []
  | c :: s => if negb (c =? 0) && negb (c =? delim) then getqzname s delim else strp
  end.

(** The digits of getnum: the number and the rest, NULL above [max]. *)
Fixpoint num_loop (strp : list Z) (num max : Z) : option (Z * list Z) :=
  match strp with
  | [] => Some (num, [])
  | c :: s =>
      if is_digit c then
        let num := num * 10 + (c - 0x30) in
        if max <? num then None else num_loop s num max
      else Some (num, strp)
  end.

Definition getnum (strp : list Z) (min max : Z) : option (Z * list Z) :=
  if negb (is_digit (peek strp)) then None
  else
    '(num, strp) ← num_loop strp 0 max;
    if num <? min then None else Some (num, strp).

Definition getsecs (strp : list Z) : option (Z * list Z) :=
  '(num, strp) ← getnum strp 0 (HOURSPERDAY * DAYSPERWEEK - 1);
  let secs := num * SECSPERHOUR in
  if peek strp =? 0x3a then
    '(num, strp) ← getnum (tail strp) 0 (MINSPERHOUR - 1);
    let secs := secs + num * SECSPERMIN in
    if peek strp =? 0x3a then
      '(num, strp) ← getnum (tail strp) 0 SECSPERMIN;
      Some (secs + num, strp)
    else Some (secs, strp)
  else Some (secs, strp).

Definition getoffset (strp : list Z) : option (Z * list Z) :=
  let neg := peek strp =? 0x2d in
  let strp := if neg then tail strp else if peek strp =? 0x2b then tail strp else strp in
  '(offset, strp) ← getsecs strp;
  Some (if neg then - offset else offset, strp).

(** struct rule; r_type is the constructor. *)
Inductive rule_day :=
| JULIAN_DAY (r_day : Z)
| DAY_OF_YEAR (r_day : Z)
| MONTH_NTH_DAY_OF_WEEK (r_mon r_week r_day : Z).

Record rule := mkRule { r_date : rule_day; r_time : Z }.

(** The day of a rule. *)
Definition getrule_day (strp : list Z) : option (rule_day * list Z) :=
  if peek strp =? 0x4a then
    '(day, strp) ← getnum (tail strp) 1 DAYSPERNYEAR; Some (JULIAN_DAY day, strp)
  else if peek strp =? 0x4d then
    '(mon, strp) ← getnum (tail strp) 1 MONSPERYEAR;
    if negb (peek strp =? 0x2e) then None
    else
      '(week, strp) ← getnum (tail strp) 1 5;
      if negb (peek strp =? 0x2e) then None
      else '(day, strp) ← getnum (tail strp) 0 (DAYSPERWEEK - 1); Some (MONTH_NTH_DAY_OF_WEEK mon week day, strp)
  else if is_digit (peek strp) then
    '(day, strp) ← getnum strp 0 (DAYSPERLYEAR - 1); Some (DAY_OF_YEAR day, strp)
  else None.

Definition getrule (strp : list Z) : option (rule * list Z) :=
  '(date, strp) ← getrule_day strp;
  if peek strp =? 0x2f then '(time, strp) ← getsecs (tail strp); Some (mkRule date time, strp)
  else Some (mkRule date (2 * SECSPERHOUR), strp).

(** ** transtime *)

(** Zeller's Congruence: the day of the week of the first of a month. *)
Definition first_dow (year mon : Z) : Z :=
  let m1 := Z.rem (mon + 9) 12 + 1 in
  let yy0 := if mon <=? 2 then year - 1 else year in
  let yy1 := Z.quot yy0 100 in
  let yy2 := Z.rem yy0 100 in
  let dow := Z.rem (Z.quot (26 * m1 - 2) 10 + 1 + yy2 + Z.quot yy2 4 + Z.quot yy1 4 - 2 * yy1) 7 in
  if dow <? 0 then dow + DAYSPERWEEK else dow.

(** for (i = 1; i < r_week; ++i): [n] more weeks, as long as the day is in the month. *)
Fixpoint next_weeks (n : nat) (d len : Z) : Z :=
  match n with
  | O => d
  | S n => if len <=? d + DAYSPERWEEK then d else next_weeks n (d + DAYSPERWEEK) len
  end.

(** The months before: value += mon_lengths[leapyear][i] * SECSPERDAY. *)
Fixpoint add_months (lens : list Z) (value : Z) : Z :=
  match lens with
  | [] => value
  | n :: lens => add_months lens (s32 (value + n * SECSPERDAY))
  end.

(** A time_t wraps around. *)
Definition transtime (janfirst year : Z) (rulep : rule) (offset : Z) : cres Z :=
  let leapyear := isleap year in
  value ← match r_date rulep with
          | JULIAN_DAY day =>
              let value := s32 (janfirst + (day - 1) * SECSPERDAY) in
              CVal (if leapyear && (60 <=? day) then s32 (value + SECSPERDAY) else value)
          | DAY_OF_YEAR day => CVal (s32 (janfirst + day * SECSPERDAY))
          | MONTH_NTH_DAY_OF_WEEK mon week day =>
              let value := add_months (take (Z.to_nat (mon - 1)) (mon_lengths leapyear)) janfirst in
              let d := day - first_dow year mon in
              let d := if d <? 0 then d + DAYSPERWEEK else d in
              len ← aget (mon_lengths leapyear) (mon - 1);
              CVal (s32 (value + next_weeks (Z.to_nat (week - 1)) d len * SECSPERDAY))
          end;
  CVal (s32 (s32 (value + r_time rulep) + offset)).

(** ** tzparse *)

(** Two transitions a year: the times and their types.  [n] is the number of pairs that fit. *)
Fixpoint zone_loop (n : nat) (year janfirst : Z) (start end_ : rule) (stdoffset dstoffset : Z) : cres (list Z * list Z) :=
  match n with
  | O => CVal ([], [])
  | S n =>
      starttime ← transtime janfirst year start stdoffset;
      endtime ← transtime janfirst year end_ dstoffset;
      let '(two, typep) := if endtime <? starttime then ([endtime; starttime], [1; 0]) else ([starttime; endtime], [0; 1]) in
      let newfirst := s32 (janfirst + year_lengths (isleap year) * SECSPERDAY) in
      if newfirst <=? janfirst then CVal (two, typep)
      else
        r ← zone_loop n (year + 1) newfirst start end_ stdoffset dstoffset;
        CVal (two ++ r.1, typep ++ r.2)
  end.

(** A name, quoted or not, and what follows it. *)
Definition zone_name (name : list Z) : option (list Z * list Z) :=
  if peek name =? 0x3c then
    let stdname := tail name in
    let name := getqzname stdname 0x3e in
    if negb (peek name =? 0x3e) then None
    else Some (take (length stdname - length name) stdname, tail name)
  else
    let rest := getzname name in Some (take (length name - length rest) name, rest).

(** The standard name, its offset, and the rest of the string. *)
Definition tzparse_std (name : list Z) (lastditch : bool) : option (list Z * Z * list Z) :=
  if lastditch then Some (take (Z.to_nat (chars_size - 1)) name, 0, [])
  else
    '(stdname, name) ← zone_name name;
    if peek name =? 0 then None
    else '(stdoffset, name) ← getoffset name; Some (stdname, stdoffset, name).

(** The types and the names; the strings are copied with their NULs. *)
Definition std_type (stdoffset : Z) : ttinfo := mkTT (- stdoffset) 0 0 false false.
Definition dst_type (stdname : list Z) (dstoffset : Z) : ttinfo := mkTT (- dstoffset) 1 (Z.of_nat (length stdname) + 1) false false.
Definition zone_chars (stdname dstname : list Z) : list Z :=
  stdname ++ [0] ++ match dstname with [] => [] | _ => dstname ++ [0] end.

(** The summer time of a zone: its types, its transitions and their types.  [defrules] says
    that the default rules were loaded.  They have no transitions any more: timecnt is 0, so the
    loops over them do nothing. *)
Definition zone_rules (name stdname : list Z) (stdoffset dstoffset : Z) (defrules : bool) : cres (option (list ttinfo * list Z * list Z)) :=
  let name := if (peek name =? 0) && negb defrules then TZDEFRULESTRING else name in
  if (peek name =? 0x2c) || (peek name =? 0x3b) then
    match getrule (tail name) with
    | None => CVal None
    | Some (start, name) =>
        if negb (peek name =? 0x2c) then CVal None
        else
          match getrule (tail name) with
          | None => CVal None
          | Some (end_, name) =>
              if negb (peek name =? 0) then CVal None
              else
                r ← zone_loop (Z.to_nat (TZ_MAX_TIMES / 2)) EPOCH_YEAR 0 start end_ stdoffset dstoffset;
                CVal (Some ([dst_type stdname dstoffset; std_type stdoffset], r.1, r.2))
          end
    end
  else if negb (peek name =? 0) then CVal None
  else CVal (Some ([std_type stdoffset; dst_type stdname dstoffset], [], [])).

(** [old] is *sp before the call, [load] what tzload made of it with the default rules; None
    when it failed.  NULL is None. *)
Definition tzparse (name : list Z) (lastditch : bool) (old : state) (load : option state) : cres (option state) :=
  match tzparse_std name lastditch with
  | None => CVal None
  | Some (stdname, stdoffset, name) =>
      let sp := match load with Some sp => sp | None => mkState [] (ats old) (types old) (ttis old) (chars old) (goback old) (goahead old) end in
      let finish (dstname : list Z) (r : option (list ttinfo * list Z * list Z)) :=
        match r with
        | None => None
        | Some (ttis, ats, types) =>
            let chars := zone_chars stdname dstname in
            if chars_size <? Z.of_nat (length chars) then None
            else Some (mkState (lsis sp) ats types ttis chars (goback sp) (goahead sp))
        end in
      if negb (peek name =? 0) then
        match zone_name name with
        | None => CVal None
        | Some (dstname, name) =>
            match (if negb (peek name =? 0) && negb (peek name =? 0x2c) && negb (peek name =? 0x3b) then getoffset name
                   else Some (stdoffset - SECSPERHOUR, name)) with
            | None => CVal None
            | Some (dstoffset, name) =>
                r ← zone_rules name stdname stdoffset dstoffset (bool_decide (is_Some load));
                CVal (finish dstname r)
            end
        end
      else CVal (finish [] (Some ([std_type stdoffset], [], [])))
  end.

(** ** The days of the rules *)

(** A rule that getrule reads. *)
Definition day_ok (d : rule_day) : Prop :=
  match d with
  | JULIAN_DAY n => 1 <= n <= 365
  | DAY_OF_YEAR n => 0 <= n <= 365
  | MONTH_NTH_DAY_OF_WEEK mon week day => 1 <= mon <= 12 /\ 1 <= week <= 5 /\ 0 <= day <= 6
  end.

(** The day, counted from the Epoch, on which a rule applies in a year: the date that is the
    n-th day of years without a leap day, the n-th day after 1 January, or the w-th of the
    days of the month that fall on the day of the week, the last of them for week 5. *)
Definition on_day (year : Z) (d : rule_day) (D : Z) : Prop :=
  match d with
  | JULIAN_DAY n =>
      exists mon mday, 0 <= mon <= 11 /\ 1 <= mday <= tab (days_in_month false) mon /\
        tab (julian_days_by_month false) mon + mday = n /\ D = date_number (year - 1900) mon mday
  | DAY_OF_YEAR n => D = year_day year + n
  | MONTH_NTH_DAY_OF_WEEK mon week day =>
      exists mday, let len := tab (days_in_month (isleap year)) (mon - 1) in
        D = date_number (year - 1900) (mon - 1) mday /\ 1 <= mday <= len /\ (D + 4) mod 7 = day /\
        (if week <? 5 then 7 * (week - 1) < mday <= 7 * week else len < mday + 7)
  end.

Lemma year_day_form y : year_day y = 365 * (y - 1970) + (y - 1) / 4 - (y - 1) / 100 + (y - 1) / 400 - 477.
Proof.
  pose proof (leaps_year_day 1970 y) as E. rewrite !leaps_thru_end_of_spec in E. change (year_day 1970) with 0 in E.
  change ((1970 - 1) / 4) with 492 in E. change ((1970 - 1) / 100) with 19 in E. change ((1970 - 1) / 400) with 4 in E. lia.
Qed.

(** Days before a month: those of the year before March, of the next year from March on. *)
Lemma month_before y mon : 1 <= mon <= 12 ->
  date_number (y - 1900) (mon - 1) 1 =
  year_day (if mon <=? 2 then y else y + 1) + nth (Z.to_nat (mon - 1)) [0; 31; -306; -275; -245; -214; -184; -153; -122; -92; -61; -31] 0.
Proof.
  intros Hm. assert (0 <= mon - 1 <= 11) as Hm' by lia. replace (mon <=? 2) with (mon - 1 <=? 1) by (do 2 bcase; done || lia). set (k := mon - 1) in *. clearbody k.
  destruct (Z.leb_spec k 1).
  - unfold date_number, year_day, TM_YEAR_BASE. generalize (day_number (y - 1900)). intros d.
    month k; try lia; destruct (IS_LEAP (y - 1900)); cbv -[Z.add Z.sub]; lia.
  - rewrite year_day_next. unfold date_number, year_day. rewrite isleap_spec. unfold TM_YEAR_BASE. generalize (day_number (y - 1900)). intros d.
    month k; try lia; destruct (IS_LEAP (y - 1900)); cbv -[Z.add Z.sub]; lia.
Qed.

Lemma zeller m (c e : Z) : 1 <= m <= 12 -> 0 <= c -> 0 <= e < 100 ->
  let yy0 := 100 * c + e in
  let dow := Z.rem (Z.quot (26 * (Z.rem (m + 9) 12 + 1) - 2) 10 + 1 + e + Z.quot e 4 + Z.quot c 4 - 2 * c) 7 in
  (if dow <? 0 then dow + 7 else dow) =
  (365 * (yy0 + 1 - 1970) + yy0 / 4 - yy0 / 100 + yy0 / 400 - 477 +
   nth (Z.to_nat (m - 1)) [0; 31; -306; -275; -245; -214; -184; -153; -122; -92; -61; -31] 0 + 4) mod 7.
Proof.
  intros Hm Hc He yy0. assert (yy0 / 4 = 25 * c + e / 4) as -> by (subst yy0; zdm).
  assert (yy0 / 100 = c) as -> by (subst yy0; zdm). assert (yy0 / 400 = c / 4) as -> by (subst yy0; zdm).
  assert (forall a, (if Z.rem a 7 <? 0 then Z.rem a 7 + 7 else Z.rem a 7) = a mod 7) as Hrem.
  { intros a. destruct (Z.ltb_spec (Z.rem a 7) 0); Z.to_euclidean_division_equations; lia. }
  cbv zeta. rewrite Hrem, (Z.quot_div_nonneg e), (Z.quot_div_nonneg c) by lia.
  assert (0 <= m - 1 <= 11) as Hm' by lia. replace m with (m - 1 + 1) by lia. set (k := m - 1) in *. clearbody k. clear Hm Hrem.
  replace (k + 1 - 1) with k by lia. generalize (e / 4) (c / 4). intros e4 c4. subst yy0.
  month k;
  match goal with |- context [Z.quot ?x 10] => let v := eval vm_compute in (Z.quot x 10) in change (Z.quot x 10) with v end;
  match goal with |- context [nth ?n ?l 0] => let v := eval vm_compute in (nth n l 0) in change (nth n l 0) with v end;
  Z.div_mod_to_equations; lia.
Qed.

(** Zeller's Congruence gives the day of the week of the first of the month. *)
Lemma first_dow_spec y mon : 1 <= y -> 1 <= mon <= 12 -> first_dow y mon = (date_number (y - 1900) (mon - 1) 1 + 4) mod 7.
Proof.
  intros Hy Hm. rewrite month_before by done. unfold first_dow, DAYSPERWEEK. set (yy0 := if mon <=? 2 then y - 1 else y).
  assert (0 <= yy0) as H0 by (subst yy0; destruct (mon <=? 2); lia).
  assert ((if mon <=? 2 then y else y + 1) = yy0 + 1) as -> by (subst yy0; destruct (mon <=? 2); lia).
  rewrite (Z.quot_div_nonneg yy0), (Z.rem_mod_nonneg yy0) by lia. clearbody yy0.
  assert (0 <= yy0 / 100) as Hc by (apply Z.div_pos; lia). pose proof (Z.mod_pos_bound yy0 100 ltac:(lia)) as He.
  pose proof (zeller mon (yy0 / 100) (yy0 mod 100) Hm Hc He) as Z. cbv zeta in Z. rewrite <- Z.div_mod in Z by lia.
  rewrite Z, year_day_form. f_equal. replace (yy0 + 1 - 1) with yy0 by lia. lia.
Qed.

Lemma next_weeks_spec n d len : (n <= 4)%nat -> 0 <= d < 7 -> 28 <= len <= 31 -> exists k, next_weeks n d len = d + 7 * k /\ 0 <= k <= Z.of_nat n /\ d + 7 * k < len /\
  (k = Z.of_nat n \/ len <= d + 7 * k + 7).
Proof.
  intros Hn Hd Hlen. assert (forall m e, (m <= n)%nat -> e = d + 7 * Z.of_nat (n - m) -> e < len -> exists k, next_weeks m e len = d + 7 * k /\ 0 <= k <= Z.of_nat n /\ d + 7 * k < len /\
    (k = Z.of_nat n \/ len <= d + 7 * k + 7)) as H.
  { induction m as [|m IH]; intros e Hm He Hlt; cbn [next_weeks].
    - exists (Z.of_nat n). rewrite Nat.sub_0_r in He. split_and!; lia || auto.
    - unfold DAYSPERWEEK. destruct (Z.leb_spec len (e + 7)) as [Hge|Hlt']; [exists (Z.of_nat (n - S m)); split_and!; lia|]. apply IH; lia. }
  apply H; [done| |lia]. rewrite Nat.sub_diag. lia.
Qed.

Lemma s32_add a b : s32 (s32 a + b) = s32 (a + b).
Proof.
  unfold s32. f_equal. replace ((a + 2 ^ 31) mod 2 ^ 32 - 2 ^ 31 + b + 2 ^ 31) with ((a + 2 ^ 31) mod 2 ^ 32 + b) by lia.
  rewrite Zplus_mod_idemp_l. f_equal. lia.
Qed.

Lemma s32_add3 a b c : s32 (s32 (s32 a + b) + c) = s32 (a + b + c).
Proof. rewrite (s32_add a b). apply s32_add. Qed.

Lemma add_months_spec lens v : - 2 ^ 31 <= v < 2 ^ 31 -> add_months lens v = s32 (v + foldr Z.add 0 lens * 86400).
Proof.
  revert v. induction lens as [|n lens IH]; intros v Hv; cbn [add_months foldr]; [by rewrite Z.mul_0_l, Z.add_0_r, s32_small|].
  rewrite IH by apply s32_range. rewrite s32_add. f_equal. change SECSPERDAY with 86400. lia.
Qed.

Lemma months_before_sum leap k : 0 <= k <= 11 -> foldr Z.add 0 (take (Z.to_nat k) (mon_lengths leap)) = tab (julian_days_by_month leap) k.
Proof. intros H. month k; destruct leap; reflexivity. Qed.

Lemma month_length leap k : 0 <= k <= 11 -> aget (mon_lengths leap) k = CVal (tab (days_in_month leap) k).
Proof. intros H. month k; destruct leap; reflexivity. Qed.

Lemma julian_date n : 1 <= n <= 365 -> exists mon mday, 0 <= mon <= 11 /\ 1 <= mday <= tab (days_in_month false) mon /\
  tab (julian_days_by_month false) mon + mday = n.
Proof.
  intros Hn. destruct (mon_loop_spec false (n - 1)) as (mon & m & _ & Hm & E & Hb); [unfold year_lengths, DAYSPERNYEAR; lia|]. exists mon, (m + 1). split_and!; lia.
Qed.

(** After February a leap year is a day ahead. *)
Lemma julian_leap leap mon mday n : 0 <= mon <= 11 -> 1 <= mday <= tab (days_in_month false) mon -> tab (julian_days_by_month false) mon + mday = n ->
  tab (julian_days_by_month leap) mon + mday = if leap && (60 <=? n) then n + 1 else n.
Proof. intros Hm Hd E. revert Hd E. month mon; destruct leap; cbv -[Z.add Z.le Z.leb]; intros; cbn [andb]; repeat zif; lia. Qed.

(** transtime: the second of the rule on its day. *)
Lemma transtime_spec year r offset : 1 <= year -> - 2 ^ 31 <= year_day year * 86400 < 2 ^ 31 -> day_ok (r_date r) ->
  exists D, on_day year (r_date r) D /\ transtime (year_day year * 86400) year r offset = CVal (s32 (D * 86400 + r_time r + offset)).
Proof.
  intros Hy Hj Hok. unfold transtime. change SECSPERDAY with 86400. destruct (r_date r) as [n|n|mon week day]; cbn [day_ok on_day] in *.
  - destruct (julian_date n Hok) as (mon & mday & Hm & Hd & E). exists (date_number (year - 1900) mon mday). split; [by exists mon, mday|].
    cbn [mbind cres_bind]. pose proof (julian_leap (isleap year) mon mday n Hm Hd E) as El.
    assert ((if isleap year && (60 <=? n) then s32 (s32 (year_day year * 86400 + (n - 1) * 86400) + 86400) else s32 (year_day year * 86400 + (n - 1) * 86400)) =
      s32 (date_number (year - 1900) mon mday * 86400)) as ->.
    { unfold date_number. rewrite <- isleap_spec. unfold year_day, TM_YEAR_BASE. revert El.
      destruct (isleap year && (60 <=? n)); intros El; rewrite ?s32_add; f_equal; lia. }
    by rewrite s32_add3.
  - exists (year_day year + n). split; [done|]. cbn [mbind cres_bind]. rewrite s32_add3. do 2 f_equal. lia.
  - destruct Hok as (Hm & Hw & Hd). rewrite month_length by lia. cbn [mbind cres_bind]. rewrite first_dow_spec by done.
    rewrite add_months_spec, months_before_sum by lia. set (len := tab (days_in_month (isleap year)) (mon - 1)).
    destruct (month_bounds (isleap year) (mon - 1) ltac:(lia)) as (_ & _ & Hlen). fold len in Hlen.
    set (F := date_number (year - 1900) (mon - 1) 1). set (d := if day - (F + 4) mod 7 <? 0 then _ else _).
    pose proof (Z.mod_pos_bound (F + 4) 7 ltac:(lia)) as Hdow.
    assert (0 <= d < 7 /\ (F + d + 4) mod 7 = day) as [Hd7 Hdm].
    { subst d. unfold DAYSPERWEEK. split; [destruct (Z.ltb_spec (day - (F + 4) mod 7) 0); lia|].
      destruct (Z.ltb_spec (day - (F + 4) mod 7) 0); clear - Hd Hdow; zdm. }
    destruct (next_weeks_spec (Z.to_nat (week - 1)) d len ltac:(lia) Hd7 Hlen) as (k & -> & Hk & Hlt & Hlast).
    exists (F + d + 7 * k). split.
    + exists (d + 7 * k + 1). split; [subst F; unfold date_number; lia|]. split; [lia|].
      split; [replace (F + d + 7 * k + 4) with (F + d + 4 + k * 7) by lia; by rewrite Z.mod_add|]. destruct (Z.ltb_spec week 5); lia.
    + rewrite s32_add3, <- !(Z.add_assoc (s32 _)), s32_add. do 2 f_equal. subst F. unfold date_number. rewrite <- isleap_spec. unfold year_day. change TM_YEAR_BASE with 1900. lia.
Qed.

Lemma on_day_unique y d D D' : day_ok d -> on_day y d D -> on_day y d D' -> D = D'.
Proof.
  destruct d as [n|n|mon week day]; cbn [on_day day_ok]; [|congruence|].
  - intros _ (mon & mday & Hm & Hd & E & ->) (mon' & mday' & Hm' & Hd' & E' & ->).
    assert (mon = mon') as ->; [|f_equal; lia]. pose proof (month_mono false mon mon'). pose proof (month_mono false mon' mon). unfold month_end in *.
    destruct (Z.lt_trichotomy mon mon') as [C|[C|C]]; [lia|done|lia].
  - intros (Hm & Hw & Hd) (a & E1 & B1 & M1 & W1) (b & E2 & B2 & M2 & W2). destruct (month_bounds (isleap y) (mon - 1) ltac:(lia)) as (_ & _ & Hlen).
    set (len := tab (days_in_month (isleap y)) (mon - 1)) in *.
    assert (D' = D + (b - a)) as E by (subst D D'; unfold date_number; lia). rewrite E. rewrite E in M2. clear E1 E2 E.
    assert (-7 < b - a < 7) by (destruct (week <? 5); lia). assert ((D + 4) mod 7 = (D + 4 + (b - a)) mod 7) as Em by (rewrite M1, <- M2; f_equal; lia).
    clear - Em H. zdm.
Qed.
