(* ===== verification/TzSafe.v ===== *)
(** * Zone data in order

    What every zone that tzparse or tzload accepts satisfies, and that localtime is defined
    on all such zones: their times need not be sorted. *)

From Stdlib Require Import ZArith Lia.
From stdpp Require Import base list numbers option.
From S2P Require Import Prelude Time64 Tz TzRule.

Open Scope Z_scope.

(** The well-formed zones: as many types as times, the types and the names they refer to exist,
    and all arrays have room. *)
Record wf (sp : state) : Prop := {
  wf_times : length (types sp) = length (ats sp);
  wf_room : Z.of_nat (length (ats sp)) <= TZ_MAX_TIMES /\ Z.of_nat (length (chars sp)) <= chars_size;
  wf_types : forall i, i ∈ types sp -> 0 <= i < Z.of_nat (length (ttis sp));
  wf_ttis : (1 <= length (ttis sp) <= 256)%nat;
  wf_type : forall x, x ∈ ttis sp -> (tt_isdst x = 0 \/ tt_isdst x = 1) /\ 0 <= tt_abbrind x <= Z.of_nat (length (chars sp)) /\
    - 2 ^ 31 <= tt_gmtoff x < 2 ^ 31
}.

(** ** localtime on well-formed zones *)

Lemma bisect_total fuel l t lo hi : 1 <= lo <= hi -> hi <= Z.of_nat (length l) -> (Z.to_nat (hi - lo) < fuel)%nat ->
  exists r, bisect fuel l t lo hi = CVal r /\ lo <= r <= hi.
Proof.
  revert lo hi. induction fuel as [|fuel IH]; intros lo hi Hlo Hhi Hf; [lia|]. cbn [bisect].
  destruct (Z.ltb_spec lo hi) as [Hlt|Hge]; [|exists lo; split; [done|lia]].
  rewrite Z.shiftr_div_pow2 by lia. change (2 ^ 1) with 2. set (mid := (lo + hi) / 2). assert (lo <= mid < hi) as Hmid by (subst mid; zdm).
  destruct (lookup_lt_is_Some_2 l (Z.to_nat mid)) as [a Ha]; [lia|]. rewrite (aget_val l mid a) by done || lia. cbn [mbind cres_bind].
  destruct (t <? a); [destruct (IH lo mid) as (r & -> & Hr)|destruct (IH (mid + 1) hi) as (r & -> & Hr)]; try lia; exists r; (split; [done|lia]).
Qed.

Lemma type_at_total sp t : wf sp -> exists i, type_at sp t = CVal i /\ 0 <= i < Z.of_nat (length (ttis sp)).
Proof.
  intros [Hn _ Hty Hti _]. assert (exists i, type_before sp = CVal i /\ 0 <= i < Z.of_nat (length (ttis sp))) as Hb.
  { exists (first_std (ttis sp) 0). unfold type_before. destruct (ttis sp) as [|x l] eqn:E; [cbn in Hti; lia|]. split; [done|].
    pose proof (first_std_bound (x :: l) 0 ltac:(done) ltac:(lia)). lia. }
  unfold type_at. destruct (ats sp) as [|a l]; [done|]. destruct (t <? a); [done|]. cbn [length] in *.
  destruct (bisect_total (S (S (length l))) (a :: l) t 1 (Z.of_nat (S (length l)))) as (r & -> & Hr); [lia|cbn; lia|lia|]. cbn [mbind cres_bind].
  destruct (lookup_lt_is_Some_2 (types sp) (Z.to_nat (r - 1))) as [i Hi]; [lia|]. rewrite (aget_val _ _ i) by done || lia.
  exists i. split; [done|]. apply Hty. by eapply list_elem_of_lookup_2.
Qed.

Lemma localsub_total sp t tmp : wf sp -> first_leap_ok (lsis sp) -> goback sp = false -> goahead sp = false -> - 2 ^ 31 <= t < 2 ^ 31 ->
  exists x tm ab, x ∈ ttis sp /\ localsub sp t tmp = CVal (Some (tm, ab)) /\ 0 <= ab <= Z.of_nat (length (chars sp)) /\ tm_isdst tm = tt_isdst x /\
  exists hit, is_tm (shown_time t (tt_gmtoff x) (corr_at (length (lsis sp)) (lsis sp) t)) (with_sec tm (tm_sec tm - hit)).
Proof.
  intros Hw Hl Hb Ha Ht. unfold localsub. rewrite Hb, Ha. cbn [orb]. unfold local_in. destruct (type_at_total sp t Hw) as (i & -> & Hi). cbn [mbind cres_bind].
  destruct (lookup_lt_is_Some_2 (ttis sp) (Z.to_nat i)) as [x Hx]; [lia|]. rewrite (aget_val _ _ x) by done || lia. cbn [mbind cres_bind].
  assert (x ∈ ttis sp) as Hin by (by eapply list_elem_of_lookup_2). destruct (wf_type _ Hw x Hin) as (_ & Hab & _).
  destruct (leap_scan_spec (length (lsis sp)) (lsis sp) t) as (hit & Hls & _); [lia|done|].
  destruct (timesub_total t (tt_gmtoff x) sp tmp _ _ Hls Ht) as (tm & -> & Htm & _). cbn [mbind cres_bind].
  eexists x, _, _. split; [done|]. split; [done|]. split; [done|]. split; [done|]. exists hit. exact Htm.
Qed.

(** ** What the parts of a zone string are *)

Lemma num_loop_bound s n max v s' : 0 <= n <= max -> num_loop s n max = Some (v, s') -> 0 <= v <= max.
Proof.
  revert n. induction s as [|c s IH]; intros n Hn; cbn [num_loop]; [by intros [= <- <-]|]. destruct (is_digit c) eqn:Ed; [|by intros [= <- <-]].
  unfold is_digit in Ed. zbool. destruct (Z.ltb_spec max (n * 10 + (c - 48))); [done|]. apply IH. lia.
Qed.

Lemma getnum_bound s min max v s' : 0 <= min -> 0 <= max -> getnum s min max = Some (v, s') -> min <= v <= max.
Proof.
  intros Hmin Hmax. unfold getnum. destruct (negb _); [done|]. destruct (num_loop s 0 max) as [[n r]|] eqn:E; cbn [mbind option_bind]; [|done].
  destruct (Z.ltb_spec n min); [done|]. intros [= -> ->]. pose proof (num_loop_bound s 0 max v s' ltac:(lia) E). lia.
Qed.

(** The longest time: 167:59:60. *)
Definition secs_max : Z := 604800.

Ltac getnum_case :=
  match goal with
  | |- context [getnum ?s ?a ?b] =>
      let E := fresh "E" in destruct (getnum s a b) as [[? ?]|] eqn:E; cbn [mbind option_bind]; [apply getnum_bound in E; [|done|done]|done]
  end.

Lemma getsecs_bound s v s' : getsecs s = Some (v, s') -> 0 <= v <= secs_max.
Proof.
  unfold getsecs, secs_max. change (HOURSPERDAY * DAYSPERWEEK - 1) with 167. change (MINSPERHOUR - 1) with 59. change SECSPERHOUR with 3600. change SECSPERMIN with 60.
  getnum_case. destruct (_ =? 0x3a); [|intros [= <- <-]; lia]. getnum_case. destruct (_ =? 0x3a); [|intros [= <- <-]; lia]. getnum_case. intros [= <- <-]. lia.
Qed.

Lemma getoffset_bound s v s' : getoffset s = Some (v, s') -> - secs_max <= v <= secs_max.
Proof.
  unfold getoffset. destruct (getsecs _) as [[o r]|] eqn:E; cbn [mbind option_bind]; [|done]. apply getsecs_bound in E. unfold secs_max in *.
  destruct (_ =? 0x2d); intros [= <- <-]; lia.
Qed.

Lemma getrule_ok s r s' : getrule s = Some (r, s') -> day_ok (r_date r).
Proof.
  unfold getrule. destruct (getrule_day s) as [[d t]|] eqn:E; cbn [mbind option_bind]; [|done].
  assert (day_ok d) as Hd.
  { revert E. unfold getrule_day. change DAYSPERNYEAR with 365. change MONSPERYEAR with 12. change (DAYSPERWEEK - 1) with 6. change (DAYSPERLYEAR - 1) with 365.
    destruct (_ =? 0x4a); [getnum_case; intros [= <- <-]; cbn; lia|]. destruct (_ =? 0x4d); [|destruct (is_digit _); [getnum_case; intros [= <- <-]; cbn; lia|done]].
    getnum_case. destruct (negb _); [done|]. getnum_case. destruct (negb _); [done|]. getnum_case. intros [= <- <-]. cbn. lia. }
  destruct (_ =? 0x2f); [|by intros [= <- <-]]. destruct (getsecs _) as [[v q]|]; cbn [mbind option_bind]; [|done]. by intros [= <- <-].
Qed.

Lemma transtime_total j y r off : day_ok (r_date r) -> exists v, transtime j y r off = CVal v.
Proof.
  intros Hok. unfold transtime. destruct (r_date r) as [n|n|m w d]; cbn [mbind cres_bind]; [by eexists|by eexists|].
  cbn [day_ok] in Hok. rewrite month_length by lia. cbn [mbind cres_bind]. by eexists.
Qed.

(** A zone of two transitions a year fits its arrays. *)
Lemma zone_loop_total n y j s e std dst : day_ok (r_date s) -> day_ok (r_date e) -> exists a ty, zone_loop n y j s e std dst = CVal (a, ty) /\
  length ty = length a /\ (length a <= 2 * n)%nat /\ (forall i, i ∈ ty -> 0 <= i < 2).
Proof.
  intros Hs He. revert y j. induction n as [|n IH]; intros y j; cbn [zone_loop].
  { exists [], []. split_and!; try done. by intros i ?%not_elem_of_nil. }
  destruct (transtime_total j y s std Hs) as [v ->]. destruct (transtime_total j y e dst He) as [w ->]. cbn [mbind cres_bind].
  assert (exists two typep, (if w <? v then ([w; v], [1; 0]) else ([v; w], [0; 1])) = (two, typep) /\ length two = 2%nat /\ length typep = 2%nat /\
    (forall i, i ∈ typep -> 0 <= i < 2)) as (two & typep & -> & H1 & H2 & H3).
  { destruct (w <? v); eexists _, _; (split; [done|]); (split; [done|]); (split; [done|]); intros i; rewrite !elem_of_cons; intros [->|[->|[]%not_elem_of_nil]]; lia. }
  destruct (_ <=? j); [exists two, typep; split_and!; try done; lia|].
  destruct (IH (y + 1) (s32 (j + year_lengths (isleap y) * SECSPERDAY))) as (a & ty & -> & H4 & H5 & H6). cbn [mbind cres_bind fst snd].
  eexists _, _. split; [done|]. rewrite !length_app. split; [lia|]. split; [lia|]. intros i [|]%elem_of_app; auto.
Qed.

Lemma zone_rules_total name stdname std dst defrules : exists r, zone_rules name stdname std dst defrules = CVal r /\
  forall ti a ty, r = Some (ti, a, ty) -> length ty = length a /\ (length a <= 1200)%nat /\ (forall i, i ∈ ty -> 0 <= i < 2) /\
    (ti = [dst_type stdname dst; std_type std] \/ ti = [std_type std; dst_type stdname dst]).
Proof.
  unfold zone_rules. set (s := if (peek name =? 0) && negb defrules then TZDEFRULESTRING else name). clearbody s.
  destruct (_ || _).
  - destruct (getrule (tail s)) as [[st s1]|] eqn:E1; [|by exists None]. destruct (negb _); [by exists None|].
    destruct (getrule (tail s1)) as [[en s2]|] eqn:E2; [|by exists None]. destruct (negb _); [by exists None|].
    destruct (zone_loop_total (Z.to_nat (TZ_MAX_TIMES / 2)) EPOCH_YEAR 0 st en std dst (getrule_ok _ _ _ E1) (getrule_ok _ _ _ E2)) as (a & ty & -> & H1 & H2 & H3).
    cbn [mbind cres_bind fst snd]. change (2 * Z.to_nat (TZ_MAX_TIMES / 2))%nat with 1200%nat in H2.
    eexists. split; [done|]. intros ? ? ? [= <- <- <-]. auto.
  - destruct (negb _); [by exists None|]. eexists. split; [done|]. intros ? ? ? [= <- <- <-]. split; [done|]. split; [cbn; lia|]. split; [by intros i ?%not_elem_of_nil|auto].
Qed.

Lemma zone_chars_length stdname dstname : Z.of_nat (length stdname) + 1 <= Z.of_nat (length (zone_chars stdname dstname)).
Proof. unfold zone_chars. rewrite !length_app. cbn. lia. Qed.

Lemma zone_wf stdname dstname std dst lsis a ty ti gb ga : - secs_max <= std <= secs_max -> - 2 * secs_max <= dst <= 2 * secs_max ->
  length ty = length a -> (length a <= 1200)%nat -> Z.of_nat (length (zone_chars stdname dstname)) <= chars_size ->
  (ti = [dst_type stdname dst; std_type std] \/ ti = [std_type std; dst_type stdname dst] \/ ti = [std_type std]) ->
  (forall i, i ∈ ty -> 0 <= i < Z.of_nat (length ti)) ->
  wf (mkState lsis a ty ti (zone_chars stdname dstname) gb ga).
Proof.
  intros Hs Hd Hlen Hroom Hch Hti Hty. pose proof (zone_chars_length stdname dstname). unfold secs_max in *. split; cbn [types ats ttis chars]; try done.
  - unfold TZ_MAX_TIMES. lia.
  - destruct Hti as [->|[-> | ->]]; cbn; lia.
  - intros x Hx. assert (x = dst_type stdname dst \/ x = std_type std) as [-> | ->].
    { destruct Hti as [->|[-> | ->]]; repeat (apply elem_of_cons in Hx as [->|Hx]; [auto|]); by apply not_elem_of_nil in Hx. }
    + cbn. split; [auto|]. lia.
    + cbn. split; [auto|]. lia.
Qed.

Lemma tzparse_std_bound name lastditch stdname std rest : tzparse_std name lastditch = Some (stdname, std, rest) -> - secs_max <= std <= secs_max.
Proof.
  unfold tzparse_std. destruct lastditch; [intros [= <- <- <-]; unfold secs_max; lia|]. destruct (zone_name name) as [[n s]|]; cbn [mbind option_bind]; [|done].
  destruct (_ =? 0); [done|]. destruct (getoffset s) as [[o q]|] eqn:E; cbn [mbind option_bind]; [|done]. intros [= <- <- <-]. by eapply getoffset_bound.
Qed.

(** What tzparse accepts is well-formed. *)
Lemma tzparse_wf name lastditch old load : exists r, tzparse name lastditch old load = CVal r /\
  forall sp, r = Some sp -> wf sp /\ lsis sp = from_option lsis [] load /\ goback sp = goback (default old load) /\ goahead sp = goahead (default old load).
Proof.
  unfold tzparse. destruct (tzparse_std name lastditch) as [[[stdname std] rest]|] eqn:Es; [|by exists None]. apply tzparse_std_bound in Es.
  set (sp := match load with Some sp => sp | None => _ end).
  assert (lsis sp = from_option lsis [] load /\ goback sp = goback (default old load) /\ goahead sp = goahead (default old load)) as Hsp by (by destruct load).
  clearbody sp. destruct Hsp as (Hl & Hg & Hg').
  assert (forall dstname std dst ti a ty sp', - secs_max <= std <= secs_max -> - 2 * secs_max <= dst <= 2 * secs_max -> length ty = length a -> (length a <= 1200)%nat ->
    (ti = [dst_type stdname dst; std_type std] \/ ti = [std_type std; dst_type stdname dst] \/ ti = [std_type std]) -> (forall i, i ∈ ty -> 0 <= i < Z.of_nat (length ti)) ->
    (if chars_size <? Z.of_nat (length (zone_chars stdname dstname)) then None
     else Some (mkState (lsis sp) a ty ti (zone_chars stdname dstname) (goback sp) (goahead sp))) = Some sp' ->
    wf sp' /\ lsis sp' = from_option lsis [] load /\ goback sp' = goback (default old load) /\ goahead sp' = goahead (default old load)) as Hfin.
  { intros dstname std' dst ti a ty sp' H1 H2 H3 H4 H5 H6. destruct (Z.ltb_spec chars_size (Z.of_nat (length (zone_chars stdname dstname)))); [done|]. intros [= <-].
    split; [by eapply zone_wf|done]. }
  destruct (negb _).
  - destruct (zone_name rest) as [[dstname s]|]; [|by exists None].
    destruct (if negb (peek s =? 0) && negb (peek s =? 0x2c) && negb (peek s =? 0x3b) then getoffset s else Some (std - SECSPERHOUR, s)) as [[dst s']|] eqn:Ed; [|by exists None].
    assert (- 2 * secs_max <= dst <= 2 * secs_max) as Hd.
    { destruct (_ && _); [apply getoffset_bound in Ed|injection Ed as <- <-; change SECSPERHOUR with 3600]; unfold secs_max in *; lia. }
    destruct (zone_rules_total s' stdname std dst (bool_decide (is_Some load))) as (r & -> & Hr). cbn [mbind cres_bind].
    eexists. split; [done|]. intros sp'. destruct r as [[[ti a] ty]|]; [|done]. destruct (Hr _ _ _ eq_refl) as (H1 & H2 & H3 & H4).
    intros Hsp'. eapply (Hfin dstname std dst); try done; [by destruct H4 as [-> | ->]; auto|]. intros i Hi. specialize (H3 i Hi). destruct H4 as [-> | ->]; cbn; lia.
  - eexists. split; [done|]. intros sp' Hsp'. eapply (Hfin [] std std [std_type std] [] []); try done; [unfold secs_max in *; lia|cbn; lia|auto|by intros i ?%not_elem_of_nil].
Qed.

(** tzparse ends for every string without an access outside its arrays, and a zone that it
    accepts is well-formed: as many types as times, at most two types that exist, with names
    and offsets in range, and names that fit.  On such a zone localtime is defined for every
    time_t (times that have wrapped around and are out of order included), it shows the
    Gregorian date of the time moved by the offset of one of the types, and its abbreviation is
    inside the names or just behind them. *)
Theorem tzparse_well_formed name lastditch old load (Hl : first_leap_ok (from_option lsis [] load))
  (Hb : goback (default old load) = false) (Ha : goahead (default old load) = false) :
  exists r, tzparse name lastditch old load = CVal r /\ forall sp, r = Some sp -> wf sp /\
  forall t tmp, - 2 ^ 31 <= t < 2 ^ 31 -> exists x tm ab, x ∈ ttis sp /\ localsub sp t tmp = CVal (Some (tm, ab)) /\
    0 <= ab <= Z.of_nat (length (chars sp)) /\ tm_isdst tm = tt_isdst x /\
    exists hit, is_tm (shown_time t (tt_gmtoff x) (corr_at (length (lsis sp)) (lsis sp) t)) (with_sec tm (tm_sec tm - hit)).
Proof.
  destruct (tzparse_wf name lastditch old load) as (r & -> & Hr). exists r. split; [done|]. intros sp Hsp.
  destruct (Hr sp Hsp) as (Hw & El & Eb & Ea). split; [done|]. intros t tmp Ht. apply localsub_total; congruence || done.
Qed.

(** "A5B,0/0,0/0" with both changes at the same second, and 30 June 2037. *)
Definition empty_zone : state := mkState [] [] [] [] [] false false.

Lemma tzparse_well_formed_witness :
  exists sp, tzparse [0x41; 0x35; 0x42; 0x2c; 0x30; 0x2f; 0x30; 0x2c; 0x30; 0x2f; 0x30] false empty_zone None = CVal (Some sp) /\ wf sp /\ length (ats sp) = 138%nat /\
  exists tm ab, localsub sp 2130000000 no_tm = CVal (Some (tm, ab)).
Proof.
  destruct (tzparse_well_formed [0x41; 0x35; 0x42; 0x2c; 0x30; 0x2f; 0x30; 0x2c; 0x30; 0x2f; 0x30] false empty_zone None I eq_refl eq_refl) as (r & E & Hr).
  destruct r as [sp|]; [|vm_compute in E; discriminate E]. destruct (Hr sp eq_refl) as [Hw Ht]. exists sp. split; [exact E|]. split; [exact Hw|].
  split; [vm_compute in E; injection E as <-; reflexivity|]. destruct (Ht 2130000000 no_tm ltac:(lia)) as (x & tm & ab & _ & El & _). by exists tm, ab.
Defined.
