(* ===== verification/TzText.v ===== *)
(** * Zone strings as text

    The strings that tzparse reads, printed from their parts, and that the parts are read back. *)

From Stdlib Require Import ZArith Lia.
From stdpp Require Import base list numbers option.
From S2P Require Import Prelude Time64 Digits Tz TzRule.

Open Scope Z_scope.

(** ** Zone strings *)

(** The text of an offset or a time of day, of a rule, and of a zone. *)
Inductive clock := H_ (h : Z) | HM (h m : Z) | HMS (h m s : Z).
Inductive sign := NoSign | Plus | Minus.
Inductive zname := Plain (s : list Z) | Quoted (s : list Z).
Record zone_string := mkZone {
  z_std : zname; z_stdoff : sign * clock; z_dst : zname; z_dstoff : option (sign * clock);
  z_start : rule_day * option clock; z_end : rule_day * option clock }.

Definition print_clock (c : clock) : list Z :=
  match c with
  | H_ h => fmt_d h
  | HM h m => fmt_d h ++ [0x3a] ++ fmt_d m
  | HMS h m s => fmt_d h ++ [0x3a] ++ fmt_d m ++ [0x3a] ++ fmt_d s
  end.
Definition print_offset (o : sign * clock) : list Z :=
  match o.1 with NoSign => [] | Plus => [0x2b] | Minus => [0x2d] end ++ print_clock o.2.
Definition print_name (n : zname) : list Z := match n with Plain s => s | Quoted s => [0x3c] ++ s ++ [0x3e] end.
Definition print_day (d : rule_day) : list Z :=
  match d with
  | JULIAN_DAY n => [0x4a] ++ fmt_d n
  | DAY_OF_YEAR n => fmt_d n
  | MONTH_NTH_DAY_OF_WEEK m w d => [0x4d] ++ fmt_d m ++ [0x2e] ++ fmt_d w ++ [0x2e] ++ fmt_d d
  end.
Definition print_rule (r : rule_day * option clock) : list Z :=
  print_day r.1 ++ match r.2 with None => [] | Some c => [0x2f] ++ print_clock c end.
Definition print_zone (z : zone_string) : list Z :=
  print_name (z_std z) ++ print_offset (z_stdoff z) ++ print_name (z_dst z) ++
  match z_dstoff z with None => [] | Some o => print_offset o end ++ [0x2c] ++ print_rule (z_start z) ++ [0x2c] ++ print_rule (z_end z).

(** What the text means. *)
Definition clock_secs (c : clock) : Z :=
  match c with H_ h => h * 3600 | HM h m => h * 3600 + m * 60 | HMS h m s => h * 3600 + m * 60 + s end.
Definition offset_secs (o : sign * clock) : Z := match o.1 with Minus => - clock_secs o.2 | _ => clock_secs o.2 end.
Definition name_of (n : zname) : list Z := match n with Plain s => s | Quoted s => s end.
Definition rule_of (r : rule_day * option clock) : rule := mkRule r.1 (match r.2 with None => 7200 | Some c => clock_secs c end).
Definition stdoff (z : zone_string) : Z := offset_secs (z_stdoff z).
Definition dstoff (z : zone_string) : Z := match z_dstoff z with None => stdoff z - 3600 | Some o => offset_secs o end.

(** What getsecs, getzname and the array of names allow. *)
Definition clock_ok (c : clock) : Prop :=
  match c with
  | H_ h => 0 <= h <= 167
  | HM h m => 0 <= h <= 167 /\ 0 <= m <= 59
  | HMS h m s => 0 <= h <= 167 /\ 0 <= m <= 59 /\ 0 <= s <= 60
  end.
Definition letter (c : Z) : Prop := 0x41 <= c <= 0x5a \/ 0x61 <= c <= 0x7a.
Definition name_ok (n : zname) : Prop :=
  name_of n <> [] /\ match n with Plain s => Forall letter s | Quoted s => Forall (fun c => c <> 0 /\ c <> 0x3e) s end.
Definition rule_text_ok (r : rule_day * option clock) : Prop := day_ok r.1 /\ from_option clock_ok True r.2.
Record zone_string_ok (z : zone_string) : Prop := {
  zs_std : name_ok (z_std z); zs_stdoff : clock_ok (z_stdoff z).2;
  zs_dst : name_ok (z_dst z); zs_dstoff : from_option (fun o => clock_ok o.2) True (z_dstoff z);
  zs_start : rule_text_ok (z_start z); zs_end : rule_text_ok (z_end z);
  zs_room : (length (name_of (z_std z)) + length (name_of (z_dst z)) + 2 <= 512)%nat
}.

Lemma num_loop_end s num max : is_digit (peek s) = false -> num_loop s num max = Some (num, s).
Proof. destruct s as [|c s]; cbn [num_loop peek]; [done|]. by intros ->. Qed.

Lemma num_loop_digit n s num max : 0 <= n <= 9 -> num * 10 + n <= max -> num_loop (digits n :: s) num max = num_loop s (num * 10 + n) max.
Proof.
  intros Hn Hm. cbn [num_loop]. unfold is_digit, digits. replace (48 + n - 48) with n by lia. by repeat zif.
Qed.

Lemma peek_fmt v s : 0 <= v < 1000 -> is_digit (peek (fmt_d v ++ s)) = true.
Proof.
  intros Hv. assert (0 <= v / 100 <= 9 /\ 0 <= v / 10 mod 10 <= 9 /\ 0 <= v mod 10 <= 9) as (H1 & H2 & H3) by zdm.
  unfold fmt_d, is_digit. apply andb_true_iff. rewrite !Z.leb_le. destruct (v <? 100), (v <? 10); cbn [app peek]; unfold digits; lia.
Qed.

Lemma getnum_print v s min max : 0 <= v < 1000 -> min <= v <= max -> is_digit (peek s) = false -> getnum (fmt_d v ++ s) min max = Some (v, s).
Proof.
  intros Hv Hm Hs. unfold getnum. rewrite peek_fmt by done. cbn [negb].
  assert (num_loop (fmt_d v ++ s) 0 max = Some (v, s)) as ->.
  { pose proof (Z.div_mod v 10 ltac:(lia)) as E1. pose proof (Z.div_mod (v / 10) 10 ltac:(lia)) as E2.
    rewrite Z.div_div in E2 by lia. change (10 * 10) with 100 in E2. pose proof (Z.mod_pos_bound v 10 ltac:(lia)). pose proof (Z.mod_pos_bound (v / 10) 10 ltac:(lia)).
    assert (0 <= v / 100 <= 9) by (split; [apply Z.div_pos; lia|apply Z.lt_succ_r, Z.div_lt_upper_bound; lia]).
    unfold fmt_d. destruct (Z.ltb_spec v 100), (Z.ltb_spec v 10); cbn [app].
    - rewrite num_loop_digit, num_loop_end by (done || lia). do 2 f_equal. lia.
    - rewrite !num_loop_digit, num_loop_end by (done || lia). do 2 f_equal. lia.
    - lia.
    - rewrite !num_loop_digit, num_loop_end by (done || lia). do 2 f_equal. lia. }
  cbn. by zif.
Qed.

(** What may follow a number, and a time. *)
Definition ends (s : list Z) : Prop := is_digit (peek s) = false /\ peek s <> 0x3a.

Lemma getsecs_print c s : clock_ok c -> ends s -> getsecs (print_clock c ++ s) = Some (clock_secs c, s).
Proof.
  intros Hc [Hd Hs]. unfold getsecs. change (HOURSPERDAY * DAYSPERWEEK - 1) with 167. change (MINSPERHOUR - 1) with 59. change SECSPERHOUR with 3600. change SECSPERMIN with 60.
  apply Z.eqb_neq in Hs. destruct c as [h|h m|h m sec]; cbn [print_clock clock_ok clock_secs] in *; rewrite <- ?app_assoc; rewrite getnum_print; try done; try lia; cbn [mbind option_bind app peek tail].
  - by rewrite Hs.
  - change (58 =? 58) with true. cbv iota. rewrite getnum_print by (done || lia). cbn [mbind option_bind]. by rewrite Hs.
  - change (58 =? 58) with true. cbv iota. rewrite getnum_print by (done || lia). cbn [mbind option_bind peek tail]. change (58 =? 58) with true. cbv iota.
    rewrite getnum_print by (done || lia). done.
Qed.

Lemma clock_first c s : clock_ok c -> is_digit (peek (print_clock c ++ s)) = true.
Proof. destruct c; cbn [clock_ok print_clock]; intros H; rewrite <- ?app_assoc; apply peek_fmt; lia. Qed.

Lemma getoffset_print o s : clock_ok o.2 -> ends s -> getoffset (print_offset o ++ s) = Some (offset_secs o, s).
Proof.
  intros Hc Hs. unfold getoffset, print_offset, offset_secs. rewrite <- app_assoc. destruct o as [[] c]; cbn [fst snd app peek tail] in *.
  - pose proof (clock_first c s Hc) as Hd. unfold is_digit in Hd. zbool. rewrite (proj2 (Z.eqb_neq _ 45)), (proj2 (Z.eqb_neq _ 43)) by lia. by rewrite getsecs_print.
  - change (43 =? 45) with false. change (43 =? 43) with true. cbv iota. by rewrite getsecs_print.
  - change (45 =? 45) with true. cbv iota. by rewrite getsecs_print.
Qed.

Lemma getrule_day_print d s : day_ok d -> is_digit (peek s) = false -> getrule_day (print_day d ++ s) = Some (d, s).
Proof.
  intros Hd Hs. unfold getrule_day. change DAYSPERNYEAR with 365. change MONSPERYEAR with 12. change (DAYSPERWEEK - 1) with 6. change (DAYSPERLYEAR - 1) with 365.
  destruct d as [n|n|m w d]; cbn [day_ok print_day] in *.
  - cbn [app peek tail]. change (74 =? 74) with true. cbv iota. by rewrite getnum_print by (done || lia).
  - pose proof (peek_fmt n s ltac:(lia)) as Hp. pose proof Hp as Hp'. unfold is_digit in Hp'. zbool.
    rewrite (proj2 (Z.eqb_neq _ 74)), (proj2 (Z.eqb_neq _ 77)), Hp by lia. by rewrite getnum_print by (done || lia).
  - rewrite <- !app_assoc. cbn [app peek tail]. change (77 =? 74) with false. change (77 =? 77) with true. cbv iota. rewrite <- ?app_assoc. cbn [app].
    rewrite getnum_print by (done || lia). cbn [mbind option_bind peek tail]. change (46 =? 46) with true. cbn [negb]. cbv iota.
    rewrite <- ?app_assoc. cbn [app]. rewrite getnum_print by (done || lia). cbn [mbind option_bind peek tail]. change (46 =? 46) with true. cbn [negb]. cbv iota.
    by rewrite getnum_print by (done || lia).
Qed.

Lemma getrule_print r s : rule_text_ok r -> ends s -> peek s <> 0x2f -> getrule (print_rule r ++ s) = Some (rule_of r, s).
Proof.
  intros [Hd Hc] Hs Hne. unfold getrule, print_rule, rule_of. rewrite <- app_assoc. apply Z.eqb_neq in Hne. destruct r as [d [c|]]; cbn [fst snd app from_option] in *.
  - rewrite getrule_day_print by done. cbn [mbind option_bind peek tail]. change (47 =? 47) with true. cbv iota. by rewrite getsecs_print.
  - rewrite getrule_day_print by (done || apply Hs). cbn [mbind option_bind]. by rewrite Hne.
Qed.

(** ** Names *)

(** What may follow a name: the end, a digit, a sign or a comma. *)
Definition name_ends (s : list Z) : Prop :=
  peek s = 0 \/ is_digit (peek s) = true \/ peek s = 0x2b \/ peek s = 0x2c \/ peek s = 0x2d.

Lemma getzname_print n s : Forall letter n -> name_ends s -> getzname (n ++ s) = s.
Proof.
  intros Hn Hs. induction Hn as [|c n Hc Hn IH]; cbn [app getzname].
  - destruct s as [|c s]; [done|]. cbn [getzname]. unfold name_ends in Hs. cbn [peek] in Hs.
    destruct (is_digit c) eqn:Ed; [by rewrite andb_false_r|]. by destruct Hs as [->|[Hs|[->|[->| ->]]]].
  - unfold is_digit, letter in *. rewrite (proj2 (Z.eqb_neq c 0)), (proj2 (Z.eqb_neq c 0x2c)), (proj2 (Z.eqb_neq c 0x2d)), (proj2 (Z.eqb_neq c 0x2b)) by lia.
    destruct (Z.leb_spec 48 c), (Z.leb_spec c 57); try lia; exact IH.
Qed.

Lemma getqzname_print n s : Forall (fun c => c <> 0 /\ c <> 0x3e) n -> getqzname (n ++ 0x3e :: s) 0x3e = 0x3e :: s.
Proof.
  intros Hn. induction Hn as [|c n [Hc Hc'] Hn IH]; cbn [app getqzname]; [done|]. by rewrite (proj2 (Z.eqb_neq c 0)), (proj2 (Z.eqb_neq c 0x3e)).
Qed.

Lemma take_prefix {A} (a b : list A) : take (length (a ++ b) - length b) (a ++ b) = a.
Proof. rewrite length_app, Nat.add_sub. apply take_app_length. Qed.

Lemma zone_name_print n s : name_ok n -> name_ends s -> zone_name (print_name n ++ s) = Some (name_of n, s).
Proof.
  intros [Hne Hn] Hs. unfold zone_name. destruct n as [n|n]; cbn [print_name name_of] in *.
  - assert ((peek (n ++ s) =? 0x3c) = false) as ->.
    { destruct n as [|c n]; [done|]. apply Forall_cons_1 in Hn as [Hc _]. unfold letter in Hc. cbn [app peek]. apply Z.eqb_neq. lia. }
    rewrite getzname_print by done. by rewrite take_prefix.
  - rewrite <- !app_assoc. cbn [app peek tail]. change (60 =? 60) with true. cbv iota. rewrite getqzname_print by done. cbn [peek tail].
    change (negb (62 =? 62)) with false. cbv iota. by rewrite take_prefix.
Qed.

Lemma name_first n s : name_ok n -> peek (print_name n ++ s) <> 0 /\ ends (print_name n ++ s).
Proof.
  intros [Hne Hn]. unfold ends, is_digit. destruct n as [[|c n]|n]; cbn [print_name name_of] in *; [done| |split; [done|split; done]].
  apply Forall_cons_1 in Hn as [Hc _]. unfold letter in Hc. cbn [app peek]. split; [lia|]. split; [|lia].
  destruct (Z.leb_spec 48 c), (Z.leb_spec c 57); try done; lia.
Qed.

Lemma offset_first o s : clock_ok o.2 -> name_ends (print_offset o ++ s) /\ peek (print_offset o ++ s) <> 0 /\ peek (print_offset o ++ s) <> 0x2c /\ peek (print_offset o ++ s) <> 0x3b.
Proof.
  intros Hc. unfold print_offset, name_ends. rewrite <- app_assoc. destruct o as [[] c]; cbn [fst snd app peek] in *; [|split_and!; auto; lia..].
  pose proof (clock_first c s Hc) as Hd. pose proof Hd as Hd'. unfold is_digit in Hd'. zbool. split; [auto|]. split_and!; lia.
Qed.

(** ** The whole string *)

(** The offset of summer time and the rules: what follows the name of summer time. *)
Definition print_rules (z : zone_string) : list Z := [0x2c] ++ print_rule (z_start z) ++ [0x2c] ++ print_rule (z_end z).
Definition print_rest (z : zone_string) : list Z := match z_dstoff z with None => [] | Some o => print_offset o end ++ print_rules z.

Lemma print_rest_spec z : from_option (fun o => clock_ok o.2) True (z_dstoff z) -> name_ends (print_rest z) /\
  (if negb (peek (print_rest z) =? 0) && negb (peek (print_rest z) =? 0x2c) && negb (peek (print_rest z) =? 0x3b) then getoffset (print_rest z)
   else Some (stdoff z - SECSPERHOUR, print_rest z)) = Some (dstoff z, print_rules z).
Proof.
  intros Hdo. unfold print_rest, dstoff. destruct (z_dstoff z) as [o|]; cbn [from_option] in Hdo; [|split; [unfold name_ends; cbn; auto|done]].
  destruct (offset_first o (print_rules z) Hdo) as (P0 & P1 & P2 & P3). split; [done|].
  rewrite (proj2 (Z.eqb_neq _ 0)), (proj2 (Z.eqb_neq _ 0x2c)), (proj2 (Z.eqb_neq _ 0x3b)) by done. cbn [negb andb]. apply getoffset_print; [done|split; done].
Qed.

Lemma zone_rules_print z stdname std dst defrules : rule_text_ok (z_start z) -> rule_text_ok (z_end z) ->
  zone_rules (print_rules z) stdname std dst defrules =
  (r ← zone_loop (Z.to_nat (TZ_MAX_TIMES / 2)) EPOCH_YEAR 0 (rule_of (z_start z)) (rule_of (z_end z)) std dst;
   CVal (Some ([dst_type stdname dst; std_type std], r.1, r.2))).
Proof.
  intros Hst Hen. unfold zone_rules. change (peek (print_rules z)) with 0x2c. change ((0x2c =? 0) && negb defrules) with false. cbv iota.
  change (peek (print_rules z)) with 0x2c. change ((0x2c =? 0x2c) || (0x2c =? 0x3b)) with true. cbv iota.
  change (tail (print_rules z)) with (print_rule (z_start z) ++ [0x2c] ++ print_rule (z_end z)).
  rewrite getrule_print by (done || split; done). cbn [app peek tail]. change (negb (44 =? 44)) with false. cbv iota.
  rewrite <- (app_nil_r (print_rule (z_end z))), getrule_print by (done || split; done). reflexivity.
Qed.

(** tzparse reads back what was printed, and computes the transitions of the rules. *)
Lemma tzparse_print z old load : zone_string_ok z ->
  tzparse (print_zone z) false old load =
  (r ← zone_loop (Z.to_nat (TZ_MAX_TIMES / 2)) EPOCH_YEAR 0 (rule_of (z_start z)) (rule_of (z_end z)) (stdoff z) (dstoff z);
   CVal (Some (mkState (from_option lsis [] load) r.1 r.2 [dst_type (name_of (z_std z)) (dstoff z); std_type (stdoff z)]
     (zone_chars (name_of (z_std z)) (name_of (z_dst z))) (goback (default old load)) (goahead (default old load))))).
Proof.
  intros [Hstd Hso Hdst Hdo Hst Hen Hroom]. unfold tzparse, tzparse_std, print_zone. fold (print_rules z). fold (print_rest z).
  destruct (print_rest_spec z Hdo) as [R1 R2]. destruct (name_first (z_dst z) (print_rest z) Hdst) as (N1 & N2).
  destruct (offset_first (z_stdoff z) (print_name (z_dst z) ++ print_rest z) Hso) as (O1 & O2 & _).
  rewrite zone_name_print by done. cbn [mbind option_bind]. rewrite (proj2 (Z.eqb_neq _ 0)) by done.
  rewrite getoffset_print by done. cbn [mbind option_bind]. rewrite (proj2 (Z.eqb_neq _ 0)) by done. cbn [negb].
  rewrite zone_name_print by done. fold (stdoff z). rewrite R2, zone_rules_print by done.
  destruct (zone_loop _ _ _ _ _ _ _) as [[a t]| |]; [|done|done]. cbn [mbind cres_bind fst snd].
  assert (Z.of_nat (length (zone_chars (name_of (z_std z)) (name_of (z_dst z)))) <= chars_size) as Hroom'.
  { unfold zone_chars, chars_size. destruct Hdst as [Hd _]. destruct (name_of (z_dst z)); [done|]. cbn [app length] in *. rewrite length_app. cbn [length]. rewrite length_app. cbn [length]. lia. }
  rewrite (proj2 (Z.ltb_ge _ _)) by done. by destruct load.
Qed.
