(* ===== verification/TzRuleSpec.v ===== *)
(** * Summer time by the rules of a zone string

    The transitions that tzparse computes are those of the rules, and up to 2037 the type in
    force is the one the rules say. *)

From Stdlib Require Import ZArith Lia.
From stdpp Require Import base list numbers.
From S2P Require Import Prelude Time64 Tz TzRule TzText TzSafe.

Open Scope Z_scope.

(** The first second of a year. *)
Definition jan (y : Z) : Z := year_day y * 86400.

Lemma jan_bounds y : 1970 <= y <= 2038 -> 0 <= jan y <= 2145916800.
Proof.
  intros Hy. unfold jan. pose proof (year_day_plus 1970 (y - 1970) ltac:(lia)) as H1. pose proof (year_day_plus y (2038 - y) ltac:(lia)) as H2.
  replace (1970 + (y - 1970)) with y in H1 by lia. replace (y + (2038 - y)) with 2038 in H2 by lia.
  change (year_day 1970) with 0 in H1. change (year_day 2038) with 24837 in H2. lia.
Qed.

Lemma jan_mono y y' : y <= y' -> jan y <= jan y'.
Proof. intros H. pose proof (year_day_plus y (y' - y) ltac:(lia)) as H1. replace (y + (y' - y)) with y' in H1 by lia. unfold jan. lia. Qed.

Lemma jan_next y : 1970 <= y < 2038 -> s32 (jan y + year_lengths (isleap y) * SECSPERDAY) = jan (y + 1) /\ jan y < jan (y + 1).
Proof.
  intros Hy. change SECSPERDAY with 86400. pose proof (jan_bounds (y + 1) ltac:(lia)). pose proof (jan_bounds y ltac:(lia)).
  pose proof (year_day_next y). pose proof (year_lengths_bounds (isleap y)). unfold jan in *. rewrite s32_small by lia. lia.
Qed.

(** ** The bisection before the times that wrapped around *)

Lemma bisect_step fuel l t lo hi m a : lo < hi -> Z.shiftr (lo + hi) 1 = m -> aget l m = CVal a ->
  bisect (S fuel) l t lo hi = if t <? a then bisect fuel l t lo m else bisect fuel l t (m + 1) hi.
Proof. intros H Hm Ha. cbn [bisect]. rewrite (proj2 (Z.ltb_lt _ _) H), Hm, Ha. done. Qed.

(** The last of the first 136 times that is not after [t]. *)
Definition found (l : list Z) (t : Z) (c : cres Z) : Prop :=
  exists r a, c = CVal r /\ 1 <= r <= 136 /\ l !! Z.to_nat (r - 1) = Some a /\ a <= t /\
  (forall j x, (Z.to_nat (r - 1) < j < 136)%nat -> l !! j = Some x -> t < x).

Section Tail.
Context (l : list Z) (t : Z) (Hlen : length l = 138%nat).
Context (Hsort : forall i j a b, (i < j)%nat -> (j < 136)%nat -> l !! i = Some a -> l !! j = Some b -> a <= b).

Definition reached (m : Z) : Prop := exists a, l !! Z.to_nat m = Some a /\ a <= t.

Lemma bisect_low fuel lo m a : 1 <= lo <= m -> m < 136 -> m - lo < Z.of_nat fuel -> l !! Z.to_nat m = Some a -> t < a -> reached (lo - 1) ->
  found l t (bisect fuel l t lo m).
Proof.
  intros Hlo Hm Hf Ha Hta Hbel. apply bisect_spec; try done; try lia. intros j x Hj Hx. destruct (decide (j = Z.to_nat m)) as [->|]; [congruence|].
  pose proof (Hsort (Z.to_nat m) j a x ltac:(lia) ltac:(lia) Ha Hx). lia.
Qed.

Lemma bisect_down fuel lo hi m : m - lo < Z.of_nat fuel -> lo < hi -> Z.shiftr (lo + hi) 1 = m -> 1 <= lo <= m -> m < 136 -> reached (lo - 1) ->
  (reached m -> found l t (bisect fuel l t (m + 1) hi)) -> found l t (bisect (S fuel) l t lo hi).
Proof.
  intros Hf Hlt Hmid Hlo Hm Hbel Hnext. destruct (lookup_lt_is_Some_2 l (Z.to_nat m)) as [a Ha]; [lia|].
  rewrite (bisect_step _ _ _ _ _ _ a Hlt Hmid) by (apply aget_val; [lia|done]). destruct (Z.ltb_spec t a) as [C|C]; [by eapply bisect_low|].
  apply Hnext. by exists a.
Qed.

(** Of 138 times 136 are in order.  Before the time 134 the others are never looked at. *)
Lemma bisect_tail b : reached 0 -> l !! 134%nat = Some b -> t < b -> found l t (bisect 139 l t 1 138).
Proof.
  intros H0 Hb Htb. apply (bisect_down 138 1 138 69); [lia..|reflexivity|lia|lia|done|]. intros H1.
  apply (bisect_down 137 70 138 104); [lia..|reflexivity|lia|lia|done|]. intros H2.
  apply (bisect_down 136 105 138 121); [lia..|reflexivity|lia|lia|done|]. intros H3.
  apply (bisect_down 135 122 138 130); [lia..|reflexivity|lia|lia|done|]. intros H4.
  apply (bisect_down 134 131 138 134); [lia..|reflexivity|lia|lia|done|]. intros (a & Ha & Hat). change (Z.to_nat 134) with 134%nat in Ha.
  rewrite Hb in Ha. injection Ha as <-. lia.
Qed.
End Tail.

(** ** The transitions *)

Section Transitions.
Context (start end_ : rule) (std dst : Z) (S E : Z -> Z).
Context (HS : forall y, 1970 <= y <= 2037 -> transtime (jan y) y start std = CVal (S y)).
Context (HE : forall y, 1970 <= y <= 2037 -> transtime (jan y) y end_ dst = CVal (E y)).
Context (HS' : exists v, transtime (jan 2038) 2038 start std = CVal v) (HE' : exists v, transtime (jan 2038) 2038 end_ dst = CVal v).

(** The transitions of [n] years, with their types: 0 is summer time. *)
Fixpoint trans (n : nat) (y : Z) : list (Z * Z) :=
  match n with
  | O => []
  | Datatypes.S n => (if E y <? S y then [(E y, 1); (S y, 0)] else [(S y, 0); (E y, 1)]) ++ trans n (y + 1)
  end.

Lemma zone_loop_years m n y : 1970 <= y -> y + Z.of_nat m <= 2038 ->
  zone_loop (m + n) y (jan y) start end_ std dst =
  (r ← zone_loop n (y + Z.of_nat m) (jan (y + Z.of_nat m)) start end_ std dst; CVal ((fst <$> trans m y) ++ r.1, (snd <$> trans m y) ++ r.2)).
Proof.
  revert y. induction m as [|m IH]; intros y Hy Hm.
  - rewrite Z.add_0_r. cbn [Nat.add trans fmap list_fmap app]. by destruct (zone_loop n y _ _ _ _ _) as [[a b]| |].
  - cbn [Nat.add zone_loop]. rewrite HS, HE by lia. cbn [mbind cres_bind]. destruct (jan_next y ltac:(lia)) as [-> Hlt].
    rewrite (proj2 (Z.leb_gt _ _)) by done. specialize (IH (y + 1) ltac:(lia) ltac:(lia)).
    replace (y + 1 + Z.of_nat m) with (y + Z.of_nat (Datatypes.S m)) in IH by lia. cbn [trans].
    destruct (E y <? S y); rewrite IH; by destruct (zone_loop n _ _ _ _ _ _) as [[a b]| |].
Qed.

(** 68 years, and two times of 2038, which wrap around when they are after 18 January. *)
Lemma zone_loop_all : exists a b c d, (c = 0 /\ d = 1 \/ c = 1 /\ d = 0) /\
  zone_loop (Z.to_nat (TZ_MAX_TIMES / 2)) EPOCH_YEAR 0 start end_ std dst = CVal ((fst <$> trans 68 1970) ++ [a; b], (snd <$> trans 68 1970) ++ [c; d]).
Proof.
  pose proof (zone_loop_years 68 532 1970 ltac:(lia) ltac:(lia)) as Hz. change (68 + 532)%nat with (Z.to_nat (TZ_MAX_TIMES / 2)) in Hz.
  change (jan 1970) with 0 in Hz. change (1970 + Z.of_nat 68) with 2038 in Hz. change EPOCH_YEAR with 1970. rewrite Hz. clear Hz. change 532%nat with (Datatypes.S 531). generalize 531%nat. intros n.
  cbn [zone_loop]. destruct HS' as [v ->], HE' as [w ->]. cbn [mbind cres_bind].
  change (s32 (jan 2038 + year_lengths (isleap 2038) * SECSPERDAY) <=? jan 2038) with true.
  destruct (w <? v); cbn [mbind cres_bind fst snd]; [exists w, v, 1, 0|exists v, w, 0, 1]; auto.
Qed.

(** Both transitions of a year fall in the year. *)
Context (Hin : forall y, 1970 <= y <= 2037 -> jan y <= S y < jan (y + 1) /\ jan y <= E y < jan (y + 1)).

Lemma trans_length n y : length (trans n y) = (2 * n)%nat.
Proof. revert y. induction n as [|n IH]; intros y; cbn [trans]; [done|]. rewrite length_app, IH. destruct (_ <? _); cbn; lia. Qed.

Lemma trans_app m n y : trans (m + n) y = trans m y ++ trans n (y + Z.of_nat m).
Proof.
  revert y. induction m as [|m IH]; intros y; [by rewrite Z.add_0_r|]. cbn [trans Nat.add]. rewrite IH, <- app_assoc. do 3 f_equal. lia.
Qed.

Definition is_trans (y a ty : Z) : Prop := (a = S y /\ ty = 0) \/ (a = E y /\ ty = 1).

Lemma trans_lookup n y j a ty : trans n y !! j = Some (a, ty) -> exists y', y <= y' < y + Z.of_nat n /\ is_trans y' a ty.
Proof.
  revert y j. induction n as [|n IH]; intros y j; cbn [trans]; [done|]. rewrite lookup_app. unfold is_trans.
  destruct (E y <? S y); destruct j as [|[|j]]; cbn; intros H; try (injection H as <- <-; exists y; split; [lia|auto]);
    destruct (IH (y + 1) _ H) as (y' & Hy & Ht); exists y'; (split; [lia|done]).
Qed.

Lemma trans_find n y y' a ty : y <= y' < y + Z.of_nat n -> is_trans y' a ty -> exists j, trans n y !! j = Some (a, ty).
Proof.
  revert y. induction n as [|n IH]; intros y Hy Ht; [lia|]. cbn [trans]. destruct (decide (y' = y)) as [->|Hne].
  - destruct (E y <? S y), Ht as [[-> ->]|[-> ->]]; by first [exists 0%nat; reflexivity|exists 1%nat; reflexivity].
  - destruct (IH (y + 1)) as [j Hj]; [lia|done|]. exists (2 + j)%nat. by destruct (E y <? S y).
Qed.

(** In order, and summer time starts before it ends at the same time. *)
Lemma trans_sorted n y j j' a ty a' ty' : 1970 <= y -> y + Z.of_nat n <= 2038 -> (j < j')%nat ->
  trans n y !! j = Some (a, ty) -> trans n y !! j' = Some (a', ty') -> a < a' \/ (a = a' /\ ty = 0 /\ ty' = 1).
Proof.
  revert y j j'. induction n as [|n IH]; intros y j j' Hy Hn Hj H H'; [done|]. cbn [trans] in H, H'.
  assert (forall k b tb, trans n (y + 1) !! k = Some (b, tb) -> jan (y + 1) <= b) as Hlow.
  { intros k b tb Hk. destruct (trans_lookup _ _ _ _ _ Hk) as (y' & Hy' & Ht). pose proof (Hin y' ltac:(lia)). pose proof (jan_mono (y + 1) y' ltac:(lia)).
    destruct Ht as [[-> _]|[-> _]]; lia. }
  pose proof (Hin y ltac:(lia)) as Hy1. destruct (Z.ltb_spec (E y) (S y)) as [C|C]; cbn [app] in H, H'; destruct j as [|[|j]], j' as [|[|j']]; cbn in H, H'; simplify_eq; try lia;
    try (pose proof (Hlow _ _ _ H'); lia); try (apply (IH (y + 1) j j'); lia || done).
Qed.

(** Summer time: it has started and not ended since. *)
Definition summer (t : Z) : Prop :=
  exists y, 1970 <= y <= 2037 /\ S y <= t /\ forall y', 1970 <= y' <= 2037 -> E y' <= t -> E y' < S y.

(** The zone of the rules. *)
Context (sp : state) (a b c d : Z).
Context (Hats : ats sp = (fst <$> trans 68 1970) ++ [a; b]) (Htys : types sp = (snd <$> trans 68 1970) ++ [c; d]).
Context (ti0 ti1 : ttinfo) (Httis : ttis sp = [ti0; ti1]) (Hd0 : tt_isdst ti0 = 1) (Hd1 : tt_isdst ti1 = 0).

Lemma ats_lookup j x : (j < 136)%nat -> ats sp !! j = Some x -> exists ty, trans 68 1970 !! j = Some (x, ty) /\ types sp !! j = Some ty.
Proof.
  intros Hj. rewrite Hats, Htys, !lookup_app_l by (rewrite length_fmap, trans_length; lia). rewrite !list_lookup_fmap.
  destruct (trans 68 1970 !! j) as [[x' ty]|]; cbn; [|done]. intros [= ->]. by exists ty.
Qed.

Lemma trans_ats j x ty : trans 68 1970 !! j = Some (x, ty) -> ats sp !! j = Some x /\ (j < 136)%nat.
Proof.
  intros H. pose proof (lookup_lt_Some _ _ _ H) as Hj. rewrite trans_length in Hj. split; [|lia].
  rewrite Hats, lookup_app_l by (rewrite length_fmap, trans_length; lia). by rewrite list_lookup_fmap, H.
Qed.

Lemma ats_sorted i j x y : (i < j)%nat -> (j < 136)%nat -> ats sp !! i = Some x -> ats sp !! j = Some y -> x <= y.
Proof.
  intros Hij Hj Hx Hy. destruct (ats_lookup i x ltac:(lia) Hx) as (ty & H1 & _). destruct (ats_lookup j y Hj Hy) as (ty' & H2 & _).
  pose proof (trans_sorted 68 1970 i j x ty y ty' ltac:(lia) ltac:(lia) Hij H1 H2). lia.
Qed.

(** What the last transition says. *)
Lemma summer_last t j x ty : (j < 136)%nat -> trans 68 1970 !! j = Some (x, ty) -> x <= t ->
  (forall k z, (j < k < 136)%nat -> ats sp !! k = Some z -> t < z) -> (ty = 0 /\ summer t) \/ (ty = 1 /\ ~ summer t).
Proof.
  intros Hj Hx Hle Hnext. assert (forall y z tz, 1970 <= y <= 2037 -> is_trans y z tz -> z <= t -> exists k, (k <= j)%nat /\ trans 68 1970 !! k = Some (z, tz)) as Hbef.
  { intros y z tz Hy Hz Hzt. destruct (trans_find 68 1970 y z tz ltac:(lia) Hz) as [k Hk]. exists k. split; [|done].
    destruct (trans_ats _ _ _ Hk) as [Hk1 Hk2]. destruct (decide (j < k)%nat) as [C|]; [|lia]. specialize (Hnext k z ltac:(lia) Hk1). lia. }
  assert (forall k z tz, (k <= j)%nat -> trans 68 1970 !! k = Some (z, tz) -> tz <> ty -> z < x \/ (z = x /\ tz = 0 /\ ty = 1)) as Hord.
  { intros k z tz Hk Hz Hne. destruct (decide (k = j)) as [->|]; [congruence|]. apply (trans_sorted 68 1970 k j z tz x ty); lia || done. }
  destruct (trans_lookup _ _ _ _ _ Hx) as (y & Hy & [[-> ->]|[-> ->]]); [left|right]; (split; [done|]).
  - exists y. split; [lia|]. split; [done|]. intros y' Hy' Hle'. destruct (Hbef y' (E y') 1 Hy' (or_intror (conj eq_refl eq_refl)) Hle') as (k & Hk & Hk').
    destruct (Hord k _ _ Hk Hk' ltac:(done)) as [|(_ & C & _)]; [done|discriminate].
  - intros (y' & Hy' & Hle' & Hend). specialize (Hend y ltac:(lia) Hle). destruct (Hbef y' (S y') 0 Hy' (or_introl (conj eq_refl eq_refl)) Hle') as (k & Hk & Hk').
    destruct (Hord k _ _ Hk Hk' ltac:(done)) as [|(C & _)]; lia.
Qed.

Lemma type_at_first t a0 : ats sp !! 0%nat = Some a0 -> type_at sp t =
  if t <? a0 then type_before sp
  else lo ← bisect (Datatypes.S (length (ats sp))) (ats sp) t 1 (Z.of_nat (length (ats sp))); aget (types sp) (lo - 1).
Proof. unfold type_at. clear. destruct (ats sp); [done|]. by intros [= ->]. Qed.

(** Until the transitions of 2037 the type in force is that of the rules. *)
Lemma rule_type_at t : t < S 2037 -> t < E 2037 -> exists i, type_at sp t = CVal i /\ ((i = 0 /\ summer t) \/ (i = 1 /\ ~ summer t)).
Proof.
  intros HtS HtE. assert (length (ats sp) = 138%nat) as Hlen by (rewrite Hats, length_app, length_fmap, trans_length; done).
  assert (exists b0, ats sp !! 134%nat = Some b0 /\ t < b0) as (b0 & Hb0 & Htb).
  { rewrite Hats, lookup_app_l by (rewrite length_fmap, trans_length; lia). change 68%nat with (67 + 1)%nat. rewrite trans_app, fmap_app, lookup_app_r by (rewrite length_fmap, trans_length; lia).
    rewrite length_fmap, trans_length. change (1970 + Z.of_nat 67) with 2037. cbn [trans]. destruct (E 2037 <? S 2037); eexists; split; done. }
  destruct (lookup_lt_is_Some_2 (ats sp) 0) as [a0 Ha0]; [lia|]. rewrite (type_at_first t a0 Ha0).
  destruct (Z.ltb_spec t a0) as [C|C].
  - exists 1. unfold type_before. rewrite Httis. cbn [first_std]. rewrite Hd0, Hd1. split; [done|]. right. split; [done|].
    intros (y & Hy & Hle & _). destruct (trans_find 68 1970 y (S y) 0 ltac:(lia) (or_introl (conj eq_refl eq_refl))) as [k Hk].
    destruct (trans_ats _ _ _ Hk) as [Hk1 Hk2]. destruct k as [|k]; [rewrite Ha0 in Hk1; injection Hk1 as ->; lia|].
    pose proof (ats_sorted 0 (Datatypes.S k) a0 (S y) ltac:(lia) Hk2 Ha0 Hk1). lia.
  - rewrite Hlen. change (Z.of_nat 138) with 138. destruct (bisect_tail (ats sp) t Hlen ats_sorted b0) as (r & x & -> & Hr & Hx & Hle & Hnext); [by exists a0|done|done|].
    cbn [mbind cres_bind]. destruct (ats_lookup (Z.to_nat (r - 1)) x ltac:(lia) Hx) as (ty & H1 & H2). exists ty. split; [apply aget_val; [lia|done]|].
    by apply (summer_last t (Z.to_nat (r - 1)) x); [lia|..].
Qed.

End Transitions.

(** ** Zone strings *)

(** The second at which a rule applies in a year. *)
Definition rule_time (y : Z) (r : rule_day * option clock) (offset T : Z) : Prop :=
  exists D, on_day y r.1 D /\ T = D * 86400 + r_time (rule_of r) + offset.

(** Both changes of a year, in UTC, are in the year. *)
Definition in_year (r : rule_day * option clock) (offset : Z) : Prop :=
  forall y T, 1970 <= y <= 2037 -> rule_time y r offset T -> jan y <= T < jan (y + 1).

(** Summer time of a zone string: it has started and not ended since. *)
Definition summer_time (z : zone_string) (t : Z) : Prop :=
  exists y S, 1970 <= y <= 2037 /\ rule_time y (z_start z) (stdoff z) S /\ S <= t /\
    forall y' E, 1970 <= y' <= 2037 -> rule_time y' (z_end z) (dstoff z) E -> E <= t -> E < S.

(** Before the changes of 2037. *)
Definition before_2037 (z : zone_string) (t : Z) : Prop :=
  forall T, rule_time 2037 (z_start z) (stdoff z) T \/ rule_time 2037 (z_end z) (dstoff z) T -> t < T.

Definition rule_fun (r : rule) (offset y : Z) : Z := match transtime (jan y) y r offset with CVal v => v | _ => 0 end.

Lemma rule_fun_spec r offset y : rule_text_ok r -> in_year r offset -> 1970 <= y <= 2037 ->
  transtime (jan y) y (rule_of r) offset = CVal (rule_fun (rule_of r) offset y) /\
  forall T, rule_time y r offset T <-> T = rule_fun (rule_of r) offset y.
Proof.
  intros [Hok _] Hin Hy. pose proof (jan_bounds y ltac:(lia)) as Hj. pose proof (jan_bounds (y + 1) ltac:(lia)) as Hj'.
  destruct (transtime_spec y (rule_of r) offset ltac:(lia)) as (D & HD & E); [fold (jan y); lia|done|]. fold (jan y) in E. cbn [rule_of r_date] in HD.
  assert (rule_time y r offset (D * 86400 + r_time (rule_of r) + offset)) as HT by (by exists D). pose proof (Hin y _ Hy HT) as HR.
  rewrite s32_small in E by lia. unfold rule_fun. rewrite E. split; [done|]. intros T. split.
  - intros (D' & HD' & ->). by rewrite (on_day_unique y r.1 D' D Hok HD' HD).
  - by intros ->.
Qed.

(** The names of the types. *)
Lemma zone_chars_names stdname dstname : dstname <> [] ->
  take (length stdname + 1) (zone_chars stdname dstname) = stdname ++ [0] /\
  take (length dstname + 1) (drop (length stdname + 1) (zone_chars stdname dstname)) = dstname ++ [0].
Proof.
  intros Hne. assert (zone_chars stdname dstname = (stdname ++ [0]) ++ dstname ++ [0]) as -> by (rewrite <- app_assoc; by destruct dstname).
  rewrite drop_app_length' by (rewrite length_app; done). split; [apply take_app_length'; rewrite length_app; done|]. apply take_ge. rewrite length_app. done.
Qed.

Lemma offset_secs_bound o : clock_ok o.2 -> - secs_max <= offset_secs o <= secs_max.
Proof. unfold offset_secs, secs_max. destruct o as [[] []]; cbn; lia. Qed.

Lemma zone_offsets z : zone_string_ok z -> - secs_max <= stdoff z <= secs_max /\ - 2 * secs_max <= dstoff z <= 2 * secs_max.
Proof.
  intros [_ Hs _ Hd _ _ _]. pose proof (offset_secs_bound _ Hs) as H. split; [done|]. unfold dstoff, stdoff, secs_max in *.
  destruct (z_dstoff z) as [o|]; [pose proof (offset_secs_bound o Hd) as H'; unfold secs_max in H'|]; lia.
Qed.

Lemma CVal_inj {A} (x y : A) : CVal x = CVal y -> x = y.
Proof. by intros [= ->]. Qed.

(** localsub with the type that type_at gives, in a zone without leap seconds. *)
Lemma localsub_type sp t tmp i x : type_at sp t = CVal i -> 0 <= i -> ttis sp !! Z.to_nat i = Some x -> lsis sp = [] -> goback sp = false -> goahead sp = false ->
  - 2 ^ 31 <= t < 2 ^ 31 -> - 2 ^ 30 <= tt_gmtoff x <= 2 ^ 30 ->
  exists tm, localsub sp t tmp = CVal (Some (tm, tt_abbrind x)) /\ is_tm (t + tt_gmtoff x) tm /\ tm_isdst tm = tt_isdst x.
Proof.
  intros Hi Hpos Hx Hl Hb Ha Ht Ho. unfold localsub. rewrite Hb, Ha. cbn [orb]. unfold local_in. rewrite Hi. cbn [mbind cres_bind].
  rewrite (aget_val _ _ x) by done. cbn [mbind cres_bind].
  destruct (timesub_spec t (tt_gmtoff x) sp tmp 0 0) as (tm & -> & Htm & _); [by rewrite Hl|done|lia|]. cbn [mbind cres_bind].
  eexists. split; [done|]. split; [|done]. rewrite !Z.sub_0_r in Htm. exact Htm.
Qed.

(** C35: the zone of a string with names, offsets and rules for summer time, in any spelling
    that POSIX allows, is the one the string describes: for every time before the changes of
    2037 localtime shows summer time, with its offset and name, when summer time has started by
    the rules and not ended since, and standard time otherwise.  The days of the rules are those
    of the calendar (the last Sunday of a month, say); both changes of a year must be in that
    year, and no leap seconds are loaded. *)
Theorem tzparse_summer_time z old load (Hz : zone_string_ok z) (Hst : in_year (z_start z) (stdoff z)) (Hen : in_year (z_end z) (dstoff z))
  (Hl : from_option lsis [] load = []) (Hb : goback (default old load) = false) (Ha : goahead (default old load) = false) :
  exists sp, tzparse (print_zone z) false old load = CVal (Some sp) /\
  forall t tmp, - 2 ^ 31 <= t < 2 ^ 31 -> before_2037 z t -> exists tm ab isdst offset name,
    localsub sp t tmp = CVal (Some (tm, ab)) /\ is_tm (t - offset) tm /\ tm_isdst tm = isdst /\ take (length name + 1) (drop (Z.to_nat ab) (chars sp)) = name ++ [0] /\
    ((summer_time z t /\ isdst = 1 /\ offset = dstoff z /\ name = name_of (z_dst z)) \/
     (~ summer_time z t /\ isdst = 0 /\ offset = stdoff z /\ name = name_of (z_std z))).
Proof.
  pose proof Hz as [Hzs Hzo Hzd _ Hzst Hzen _]. set (start := rule_of (z_start z)). set (end_ := rule_of (z_end z)).
  set (S := rule_fun start (stdoff z)). set (E := rule_fun end_ (dstoff z)).
  assert (forall y, 1970 <= y <= 2037 -> transtime (jan y) y start (stdoff z) = CVal (S y)) as HS by (intros y Hy; by apply rule_fun_spec).
  assert (forall y, 1970 <= y <= 2037 -> transtime (jan y) y end_ (dstoff z) = CVal (E y)) as HE by (intros y Hy; by apply rule_fun_spec).
  assert (forall y T, 1970 <= y <= 2037 -> rule_time y (z_start z) (stdoff z) T <-> T = S y) as HTS by (intros y T Hy; by apply rule_fun_spec).
  assert (forall y T, 1970 <= y <= 2037 -> rule_time y (z_end z) (dstoff z) T <-> T = E y) as HTE by (intros y T Hy; by apply rule_fun_spec).
  destruct (zone_loop_all start end_ (stdoff z) (dstoff z) S E HS HE) as (a & b & c & d & Hcd & Hloop); [apply transtime_total, Hzst|apply transtime_total, Hzen|].
  destruct (tzparse_wf (print_zone z) false old load) as (o & Eo & Hwf).
  rewrite tzparse_print in Eo |- * by done. fold start end_ in Eo |- *. rewrite Hloop in Eo |- *. cbn [mbind cres_bind fst snd] in Eo |- *.
  apply CVal_inj in Eo as <-. destruct (Hwf _ eq_refl) as (Hw & El & Eb & Ea).
  eexists. split; [done|]. set (sp := mkState _ _ _ _ _ _ _) in *. intros t tmp Ht Hbef.
  destruct (rule_type_at S E) with (sp := sp) (a := a) (b := b) (c := c) (d := d)
    (ti0 := dst_type (name_of (z_std z)) (dstoff z)) (ti1 := std_type (stdoff z)) (t := t) as (i & Hi & Hsum); try done.
  { intros y Hy. split; [eapply Hst|eapply Hen]; try done; [by apply HTS|by apply HTE]. }
  { apply Hbef. left. by apply HTS. } { apply Hbef. right. by apply HTE. }
  destruct (zone_offsets z Hz) as [Ho1 Ho2]. unfold secs_max in *. destruct (zone_chars_names (name_of (z_std z)) (name_of (z_dst z)) (proj1 Hzd)) as [N1 N2].
  assert (summer_time z t <-> summer S E t) as Hiff.
  { split.
    - intros (y & S' & Hy & HS' & Hle & Hend). apply HTS in HS' as ->; [|done]. exists y. split; [done|]. split; [done|]. intros y' Hy' He. apply (Hend y'); [done|by apply HTE|done].
    - intros (y & Hy & Hle & Hend). exists y, (S y). split; [done|]. split; [by apply HTS|]. split; [done|]. intros y' E' Hy' He Hle'. apply HTE in He as ->; [|done]. by apply Hend. }
  destruct Hsum as [[-> Hs]|[-> Hs]]; rewrite <- Hiff in Hs.
  - destruct (localsub_type sp t tmp 0 (dst_type (name_of (z_std z)) (dstoff z))) as (tm & E1 & E2 & E3); try done; try congruence; [cbn; lia|].
    exists tm, (Z.of_nat (length (name_of (z_std z))) + 1), 1, (dstoff z), (name_of (z_dst z)). split; [exact E1|]. split; [by replace (t - dstoff z) with (t + - dstoff z) by lia|].
    split; [done|]. split; [|by left]. replace (Z.to_nat (Z.of_nat (length (name_of (z_std z))) + 1)) with (length (name_of (z_std z)) + 1)%nat by lia. exact N2.
  - destruct (localsub_type sp t tmp 1 (std_type (stdoff z))) as (tm & E1 & E2 & E3); try done; try congruence; [cbn; lia|].
    exists tm, 0, 0, (stdoff z), (name_of (z_std z)). split; [exact E1|]. split; [by replace (t - stdoff z) with (t + - stdoff z) by lia|].
    split; [done|]. split; [exact N1|by right].
Qed.

(** Rules of the months from February to November, within 30 days, are in their years. *)
Lemma in_year_month mon week day c offset : 2 <= mon <= 11 -> - 2592000 <= r_time (rule_of (MONTH_NTH_DAY_OF_WEEK mon week day, c)) + offset <= 2592000 ->
  in_year (MONTH_NTH_DAY_OF_WEEK mon week day, c) offset.
Proof.
  intros Hm Ho y T Hy (D & HD & ->). cbn [on_day fst] in HD. destruct HD as (mday & -> & Hd & _).
  assert (year_day y + 31 <= date_number (y - 1900) (mon - 1) mday /\ date_number (y - 1900) (mon - 1) mday < year_day (y + 1) - 30) as [H1 H2].
  { rewrite year_day_next, year_lengths_spec. rewrite isleap_spec in Hd |- *. unfold date_number. change (day_number (y - 1900)) with (year_day y).
    change (y - TM_YEAR_BASE) with (y - 1900) in *. set (leap := IS_LEAP (y - 1900)) in *.
    pose proof (month_mono leap 0 (mon - 1) ltac:(lia) ltac:(lia) ltac:(lia)) as M1. pose proof (month_mono leap (mon - 1) 11 ltac:(lia) ltac:(lia) ltac:(lia)) as M2.
    destruct (january_december leap) as (J1 & J2 & J3 & J4). unfold month_end in *. lia. }
  unfold jan. lia.
Qed.

(** "EST5EDT,M3.2.0,M11.1.0" *)
Definition eastern : zone_string :=
  mkZone (Plain [0x45; 0x53; 0x54]) (NoSign, H_ 5) (Plain [0x45; 0x44; 0x54]) None (MONTH_NTH_DAY_OF_WEEK 3 2 0, None) (MONTH_NTH_DAY_OF_WEEK 11 1 0, None).
Definition eastern_text : list Z :=
  [0x45; 0x53; 0x54; 0x35; 0x45; 0x44; 0x54; 0x2c; 0x4d; 0x33; 0x2e; 0x32; 0x2e; 0x30; 0x2c; 0x4d; 0x31; 0x31; 0x2e; 0x31; 0x2e; 0x30].

Lemma eastern_ok : zone_string_ok eastern.
Proof.
  split; cbn; try lia; try done.
  - split; [done|]. repeat (apply Forall_cons_2; [unfold letter; lia|]). constructor.
  - split; [done|]. repeat (apply Forall_cons_2; [unfold letter; lia|]). constructor.
Qed.

(** 4 July 2007 is summer time, 25 December is not. *)
Lemma tzparse_summer_time_witness :
  exists sp, tzparse eastern_text false empty_zone None = CVal (Some sp) /\
  localsub sp 1183554000 no_tm = CVal (Some (mkTM 0 0 9 4 6 107 3 184 1 0, 4)) /\ summer_time eastern 1183554000 /\
  localsub sp 1198591200 no_tm = CVal (Some (mkTM 0 0 9 25 11 107 2 358 0 0, 0)) /\ ~ summer_time eastern 1198591200.
Proof.
  destruct (tzparse_summer_time eastern empty_zone None eastern_ok) as (sp & E & H).
  - apply in_year_month; [lia|]. cbn. lia.
  - apply in_year_month; [lia|]. cbn. lia.
  - reflexivity.
  - reflexivity.
  - reflexivity.
  - exists sp. change (print_zone eastern) with eastern_text in E. split; [exact E|].
    assert (forall t, t < 2114380800 -> before_2037 eastern t) as Hb.
    { intros t Ht T [HT|HT].
      - pose proof (in_year_month 3 2 0 None (stdoff eastern) ltac:(lia) ltac:(cbn; lia) 2037 T ltac:(lia) HT) as HJ. change (jan 2037) with 2114380800 in HJ. lia.
      - pose proof (in_year_month 11 1 0 None (dstoff eastern) ltac:(lia) ltac:(vm_compute; split; discriminate) 2037 T ltac:(lia) HT) as HJ. change (jan 2037) with 2114380800 in HJ. lia. }
    assert (localsub sp 1183554000 no_tm = CVal (Some (mkTM 0 0 9 4 6 107 3 184 1 0, 4)) /\ localsub sp 1198591200 no_tm = CVal (Some (mkTM 0 0 9 25 11 107 2 358 0 0, 0))) as [E1 E2].
    { vm_compute in E. injection E as <-. split; vm_compute; reflexivity. }
    split; [exact E1|]. destruct (H 1183554000 no_tm ltac:(lia) (Hb 1183554000 ltac:(lia))) as (tm & ab & isdst & off & name & El & _ & Hd & _ & Hs).
    rewrite E1 in El. injection El as <- <-. destruct Hs as [(Hs & _)|(_ & Hd0 & _)]; [|exfalso; rewrite Hd0 in Hd; discriminate Hd]. split; [exact Hs|].
    split; [exact E2|]. destruct (H 1198591200 no_tm ltac:(lia) (Hb 1198591200 ltac:(lia))) as (tm & ab & isdst2 & off2 & name2 & El & _ & Hd2 & _ & Hs2).
    rewrite E2 in El. injection El as <- <-. destruct Hs2 as [(_ & Hd1 & _)|(Hs2 & _)]; [exfalso; rewrite Hd1 in Hd2; discriminate Hd2|exact Hs2].
Defined.

(** ** What goes wrong *)

(** In 2038 the times wrap around, the bisection goes astray, and summer time is lost from the
    changes of 2037 on: 30 June 2037 is shown as standard time. *)
Lemma summer_2037_lost : exists sp tm, tzparse eastern_text false empty_zone None = CVal (Some sp) /\ localsub sp 2130000000 no_tm = CVal (Some (tm, 0)) /\
  tm_year tm = 137 /\ tm_mon tm = 5 /\ tm_mday tm = 30 /\ tm_isdst tm = 0.
Proof. eexists _, _. split; [vm_compute; reflexivity|]. split; [vm_compute; reflexivity|]. done. Qed.

(** With the default rules loaded a string without rules ("EST5EDT") has no summer time. *)
Lemma default_rules_dropped sp0 : exists sp, tzparse [0x45; 0x53; 0x54; 0x35; 0x45; 0x44; 0x54] false empty_zone (Some sp0) = CVal (Some sp) /\
  ats sp = [] /\ length (ttis sp) = 2%nat.
Proof. eexists. split; [vm_compute; reflexivity|]. done. Qed.

(** The name of summer time may be empty ("A5,J1,J2"); its index is then behind the names. *)
Lemma empty_name_index : exists sp x, tzparse [0x41; 0x35; 0x2c; 0x4a; 0x31; 0x2c; 0x4a; 0x32] false empty_zone None = CVal (Some sp) /\
  x ∈ ttis sp /\ tt_abbrind x = Z.of_nat (length (chars sp)).
Proof. eexists _, _. split; [vm_compute; reflexivity|]. split; [left|reflexivity]. Qed.
