(* ===== verification/TzFile.v ===== *)
(** * Zone files (libc/tzcode/localtime.c, tzload)

    The bytes of a zone file become the data of a zone, after checks of all counts and indices.
    The file system is an argument: what was read of a file is the list of its bytes.  With a
    time_t of 32 bits the loop over the two parts of a file stops after the first.  tzload also
    reads what it has not set, some of it outside its arrays; what memory holds there is an
    argument too ([memory]). *)

From Stdlib Require Import ZArith Lia.
From stdpp Require Import base list numbers option.
From S2P Require Import Prelude Time64 Tz TzRule TzSafe.

Open Scope Z_scope.

Definition TZ_MAX_TYPES : Z := 256.
Definition TZ_MAX_CHARS : Z := 50.
Definition TZ_MAX_LEAPS : Z := 50.

(** sizeof(struct tzhead). *)
Definition tzhead_size : nat := 44.

(** What memory holds where tzload reads what it has not set: the bytes of u.buf that read did
    not write; the elements of types and ats that are no transitions, for types also those at
    negative indices, which are bytes of ats; and what is in front of ats, None where nothing
    can be read. *)
Record memory := mkMem { stale_buf : Z -> Z; stale_types : Z -> Z; stale_ats : Z -> Z; front_ats : Z -> option Z }.

(** result = (result << 8) | (codep[i] & 0xff), in a long. *)
Fixpoint detz_loop (n : nat) (codep : list Z) (result : Z) : cres Z :=
  match n with
  | O => CVal result
  | S n => c ← aget codep 0; detz_loop n (tail codep) (s32 (Z.lor (Z.shiftl result 8) (Z.land c 0xff)))
  end.

Definition detzcode (codep : list Z) : cres Z :=
  c ← aget codep 0;
  detz_loop 4 codep (if Z.land c 0x80 =? 0 then 0 else -1).

(** A loop of [n] rounds that each read from p, or return -1. *)
Fixpoint read_loop {A} (n : nat) (step : list Z -> cres (option (A * list Z))) (p : list Z) : cres (option (list A * list Z)) :=
  match n with
  | O => CVal (Some ([], p))
  | S n =>
      r ← step p;
      match r with
      | None => CVal None
      | Some (a, p) =>
          r ← read_loop n step p;
          CVal (match r with None => None | Some (l, p) => Some (a :: l, p) end)
      end
  end.

Definition read_at (p : list Z) : cres (option (Z * list Z)) :=
  t ← detzcode p; CVal (Some (t, drop 4 p)).

Definition read_type (typecnt : Z) (p : list Z) : cres (option (Z * list Z)) :=
  c ← aget p 0; CVal (if typecnt <=? u8 c then None else Some (u8 c, tail p)).

Definition read_ttinfo (charcnt : Z) (p : list Z) : cres (option (ttinfo * list Z)) :=
  off ← detzcode p;
  isdst ← aget p 4;
  if negb (u8 isdst =? 0) && negb (u8 isdst =? 1) then CVal None
  else
    abbrind ← aget p 5;
    CVal (if (u8 abbrind <? 0) || (charcnt <? u8 abbrind) then None else Some (mkTT off (u8 isdst) (u8 abbrind) false false, drop 6 p)).

Definition read_char (p : list Z) : cres (option (Z * list Z)) := c ← aget p 0; CVal (Some (c, tail p)).

Definition read_lsinfo (p : list Z) : cres (option (lsinfo * list Z)) :=
  t ← detzcode p; corr ← detzcode (drop 4 p); CVal (Some (mkLS t corr, drop 8 p)).

(** TRUE or FALSE. *)
Definition read_flag (p : list Z) : cres (option (bool * list Z)) :=
  c ← aget p 0; CVal (if negb (c =? 1) && negb (c =? 0) then None else Some (c =? 1, tail p)).

(** The flags of the types: all FALSE when there are none. *)
Definition read_flags (cnt typecnt : Z) (p : list Z) : cres (option (list bool * list Z)) :=
  if cnt =? 0 then CVal (Some (repeat false (Z.to_nat typecnt), p)) else read_loop (Z.to_nat typecnt) read_flag p.

Definition set_flags (x : ttinfo) (f : bool * bool) : ttinfo := mkTT (tt_gmtoff x) (tt_isdst x) (tt_abbrind x) f.1 f.2.

(** How many of the times are in order, the last of them not looked at: [n] is timecnt - 2. *)
Fixpoint in_order (n : nat) (l : list Z) : nat :=
  match n, l with
  | S n, a :: (b :: _) as l' => if b <? a then 1 else S (in_order n (tail l))
  | _, _ => length l
  end.

(** The counts of the header; ttisstdcnt and ttisgmtcnt are that of the types, or 0. *)
Definition counts_bad (leapcnt typecnt timecnt charcnt ttisstdcnt ttisgmtcnt : Z) : bool :=
  (leapcnt <? 0) || (TZ_MAX_LEAPS <? leapcnt) || (typecnt <=? 0) || (TZ_MAX_TYPES <? typecnt) ||
  (timecnt <? 0) || (TZ_MAX_TIMES <? timecnt) || (charcnt <? 0) || (TZ_MAX_CHARS <? charcnt) ||
  (negb (ttisstdcnt =? typecnt) && negb (ttisstdcnt =? 0)) || (negb (ttisgmtcnt =? typecnt) && negb (ttisgmtcnt =? 0)).

(** The body of the loop for stored = 4: the zone, and what u.buf holds after it.  The header
    may be longer than what was read.  The flags of the repeats are set at the end of tzload
    ([repeat_tests]). *)
Definition tz_decode (m : memory) (buf : list Z) : cres (option (state * list Z)) :=
  let head := buf ++ (stale_buf m <$> seqZ (Z.of_nat (length buf)) (Z.of_nat tzhead_size)) in
  ttisstdcnt ← detzcode (drop 24 head);
  ttisgmtcnt ← detzcode (drop 20 head);
  leapcnt ← detzcode (drop 28 head);
  timecnt ← detzcode (drop 32 head);
  typecnt ← detzcode (drop 36 head);
  charcnt ← detzcode (drop 40 head);
  let p := drop tzhead_size buf in
  if counts_bad leapcnt typecnt timecnt charcnt ttisstdcnt ttisgmtcnt then CVal None
  else if Z.of_nat (length buf) - Z.of_nat tzhead_size <? timecnt * 4 + timecnt + typecnt * 6 + charcnt + leapcnt * 8 + ttisstdcnt + ttisgmtcnt then CVal None
  else
    or_wrong (read_loop (Z.to_nat timecnt) read_at p) (fun '(ats, p) =>
    or_wrong (read_loop (Z.to_nat timecnt) (read_type typecnt) p) (fun '(types, p) =>
    or_wrong (read_loop (Z.to_nat typecnt) (read_ttinfo charcnt) p) (fun '(ttis, p) =>
    or_wrong (read_loop (Z.to_nat charcnt) read_char p) (fun '(chars, p) =>
    or_wrong (read_loop (Z.to_nat leapcnt) read_lsinfo p) (fun '(lsis, p) =>
    or_wrong (read_flags ttisstdcnt typecnt p) (fun '(isstds, p) =>
    or_wrong (read_flags ttisgmtcnt typecnt p) (fun '(isgmts, p) =>
    let n := in_order (length ats - 2) ats in
    let sp := mkState lsis (take n ats) (take n types) (zip_with set_flags ttis (zip isstds isgmts)) chars false false in
    version ← aget head 4;
    CVal (Some (sp, if version =? 0 then buf else p))))))))).

(** The string of the footer, up to its NUL. *)
Fixpoint c_string (l : list Z) : list Z :=
  match l with
  | [] => []
  | c :: l => if c =? 0 then [] else c :: c_string l
  end.

(** while (i < ts.timecnt && ts.ats[i] <= sp->ats[sp->timecnt - 1]) ++i *)
Fixpoint skip_old (l : list (Z * Z)) (last : Z) : list (Z * Z) :=
  match l with
  | [] => []
  | (a, ty) :: l' => if a <=? last then skip_old l' last else l
  end.

(** ** The tests for repeats after 400 years *)

(** TYPE_BIT(time_t) *)
Definition time_t_bits : Z := 32.
Definition SECSPERREPEAT : Z := YEARSPERREPEAT * AVGSECSPERYEAR.
Definition SECSPERREPEAT_BITS : Z := 34.

Definition differ_by_repeat (t1 t0 : Z) : bool :=
  if time_t_bits - 1 <? SECSPERREPEAT_BITS then false else t1 - t0 =? SECSPERREPEAT.

(** sp->types[i] and sp->ats[i], for any index. *)
Definition types_at (m : memory) (sp : state) (i : Z) : Z :=
  if i <? 0 then stale_types m i else default (stale_types m i) (types sp !! Z.to_nat i).

Definition ats_at (m : memory) (sp : state) (i : Z) : cres Z :=
  if i <? 0 then match front_ats m i with Some t => CVal t | None => CUndef end
  else CVal (default (stale_ats m i) (ats sp !! Z.to_nat i)).

(** sp->types[i] == sp->types[j] && differ_by_repeat(sp->ats[i], sp->ats[j]) *)
Definition same_repeat (m : memory) (sp : state) (i j : Z) : cres bool :=
  if types_at m sp i =? types_at m sp j then
    ti ← ats_at m sp i; tj ← ats_at m sp j; CVal (differ_by_repeat ti tj)
  else CVal false.

(** goback and goahead, at the end of tzload: both tests are made for every timecnt. *)
Definition repeat_tests (m : memory) (sp : state) : cres state :=
  let i := 2 * YEARSPERREPEAT in
  let timecnt := Z.of_nat (length (ats sp)) in
  let more := i <? timecnt in
  back ← same_repeat m sp i 0;
  ahead ← same_repeat m sp (timecnt - 1) (timecnt - 1 - i);
  CVal (mkState (lsis sp) (ats sp) (types sp) (ttis sp) (chars sp) (more && back) (more && ahead)).

(** The transitions of the string [ts] after those of the file. *)
Definition tz_extend (m : memory) (sp ts : state) : cres (option state) :=
  if (Z.of_nat (length (ttis ts)) =? 2) && (Z.of_nat (length (chars sp)) + Z.of_nat (length (chars ts)) <=? TZ_MAX_CHARS) then
    match ttis ts with
    | [t0; t1] =>
        let shift (x : ttinfo) := mkTT (tt_gmtoff x) (tt_isdst x) (tt_abbrind x + Z.of_nat (length (chars sp))) (tt_ttisstd x) (tt_ttisgmt x) in
        new ← (match zip (ats ts) (types ts) with
               | [] => CVal []
               | l => last ← ats_at m sp (Z.of_nat (length (ats sp)) - 1); CVal (skip_old l last)
               end);
        let new := take (Z.to_nat (TZ_MAX_TIMES - Z.of_nat (length (ats sp)))) new in
        CVal (Some (mkState (lsis sp) (ats sp ++ new.*1) (types sp ++ ((fun i => u8 (Z.of_nat (length (ttis sp)) + i)) <$> new.*2))
          (ttis sp ++ [shift t0; shift t1]) (chars sp ++ chars ts) false false))
    | _ => CVal (Some sp)
    end
  else CVal (Some sp).

(** tzload of what was read of a file; None when that failed.  [ts0] is the struct state ts of
    the extension, which is not initialised, and [defrules] what tzload makes of the default
    rules there. *)
Definition tzload (m : memory) (file : option (list Z)) (doextend : bool) (ts0 : state) (defrules : option state) : cres (option state) :=
  match file with
  | None => CVal None
  | Some buf =>
      if (length buf <=? 0)%nat then CVal None
      else
        or_wrong (tz_decode m buf) (fun '(sp, rest) =>
        or_wrong
          (if doextend && (2 <? Z.of_nat (length rest)) && (peek rest =? 0xa) && (List.last rest 0 =? 0xa) && (Z.of_nat (length (ttis sp)) + 2 <=? TZ_MAX_TYPES) then
             result ← tzparse (c_string (removelast (tail rest))) false ts0 defrules;
             match result with
             | None => CVal (Some sp)
             | Some ts => tz_extend m sp ts
             end
           else CVal (Some sp)) (fun sp =>
        sp ← repeat_tests m sp; CVal (Some sp)))
  end.

(** The memory in front of ats can be read as far as the tests for repeats go. *)
Definition readable (m : memory) : Prop := forall i, - (2 * YEARSPERREPEAT + 1) <= i < 0 -> is_Some (front_ats m i).

(** ** What is read *)

Lemma aget_head (p : list Z) : (1 <= length p)%nat -> exists c, aget p 0 = CVal c.
Proof. intros H. destruct p as [|c p]; [cbn in H; lia|]. by exists c. Qed.

Lemma aget_some (p : list Z) (i : Z) : 0 <= i < Z.of_nat (length p) -> exists c, aget p i = CVal c.
Proof. intros H. destruct (lookup_lt_is_Some_2 p (Z.to_nat i)) as [c Hc]; [lia|]. exists c. apply aget_val; [lia|done]. Qed.

Lemma detz_loop_total n p r : (n <= length p)%nat -> - 2 ^ 31 <= r < 2 ^ 31 -> exists v, detz_loop n p r = CVal v /\ - 2 ^ 31 <= v < 2 ^ 31.
Proof.
  revert p r. induction n as [|n IH]; intros p r Hn Hr; cbn [detz_loop]; [by exists r|]. destruct p as [|c p]; [cbn in Hn; lia|].
  change (aget (c :: p) 0) with (CVal c). cbn [mbind cres_bind tail]. apply IH; [cbn in Hn; lia|apply s32_range].
Qed.

Lemma detzcode_total p : (4 <= length p)%nat -> exists v, detzcode p = CVal v /\ - 2 ^ 31 <= v < 2 ^ 31.
Proof.
  intros H. unfold detzcode. destruct (aget_head p) as [c ->]; [lia|]. cbn [mbind cres_bind]. apply detz_loop_total; [done|]. destruct (_ =? 0); lia.
Qed.

(** A step that reads [k] bytes and gives what is [P]. *)
Definition reads {A} (k : nat) (P : A -> Prop) (step : list Z -> cres (option (A * list Z))) : Prop :=
  forall p, (k <= length p)%nat -> sound (step p) False (fun '(a, p') => P a /\ (length p' + k = length p)%nat).

Lemma read_loop_reads {A} k (P : A -> Prop) step n : reads k P step -> reads (n * k) (fun l => length l = n /\ forall a, a ∈ l -> P a) (read_loop n step).
Proof.
  intros Hs. induction n as [|n IH]; intros p Hp; cbn [read_loop].
  { apply sound_some. split; [|cbn; lia]. split; [done|]. by intros a ?%not_elem_of_nil. }
  destruct (Hs p) as (r & -> & _ & Hr); [lia|]. cbn [mbind cres_bind]. destruct r as [[a p']|]; [|apply sound_none; tauto].
  destruct (Hr _ eq_refl) as [Ha Hl]. destruct (IH p') as (r & -> & _ & Hr'); [lia|]. cbn [mbind cres_bind].
  destruct r as [[l p2]|]; [|apply sound_none; tauto]. destruct (Hr' _ eq_refl) as [[Hn Hall] Hl']. apply sound_some. split; [|lia].
  split; [cbn; lia|]. intros x [->|Hx]%elem_of_cons; auto.
Qed.

Lemma read_at_reads : reads 4 (fun t => - 2 ^ 31 <= t < 2 ^ 31) read_at.
Proof.
  intros p Hp. unfold read_at. destruct (detzcode_total p Hp) as (v & -> & Hv). cbn [mbind cres_bind]. apply sound_some. split; [done|]. rewrite length_drop. lia.
Qed.

Lemma read_type_reads typecnt : reads 1 (fun i => 0 <= i < typecnt) (read_type typecnt).
Proof.
  intros p Hp. unfold read_type. destruct p as [|c p]; [cbn in Hp; lia|]. change (aget (c :: p) 0) with (CVal c). cbn [mbind cres_bind tail].
  pose proof (u8_range c). destruct (Z.leb_spec typecnt (u8 c)); [apply sound_none; tauto|]. apply sound_some. split; [lia|cbn; lia].
Qed.

Lemma read_ttinfo_reads charcnt : reads 6 (fun x => (tt_isdst x = 0 \/ tt_isdst x = 1) /\ 0 <= tt_abbrind x <= charcnt /\ - 2 ^ 31 <= tt_gmtoff x < 2 ^ 31) (read_ttinfo charcnt).
Proof.
  intros p Hp. unfold read_ttinfo. destruct (detzcode_total p) as (v & -> & Hv); [lia|]. cbn [mbind cres_bind].
  destruct (aget_some p 4) as [d ->]; [lia|]. cbn [mbind cres_bind]. destruct (Z.eqb_spec (u8 d) 0), (Z.eqb_spec (u8 d) 1); cbn [negb andb]; try (apply sound_none; tauto);
    (destruct (aget_some p 5) as [a ->]; [lia|]); cbn [mbind cres_bind]; pose proof (u8_range a); destruct (Z.ltb_spec (u8 a) 0); cbn [orb]; try (apply sound_none; tauto);
    (destruct (Z.ltb_spec charcnt (u8 a)); [apply sound_none; tauto|]); apply sound_some; (split; [|rewrite length_drop; lia]); cbn; auto.
Qed.

Lemma read_char_reads : reads 1 (fun _ => True) read_char.
Proof.
  intros p Hp. unfold read_char. destruct p as [|c p]; [cbn in Hp; lia|]. change (aget (c :: p) 0) with (CVal c). cbn [mbind cres_bind tail]. apply sound_some. cbn. lia.
Qed.

Lemma read_lsinfo_reads : reads 8 (fun _ => True) read_lsinfo.
Proof.
  intros p Hp. unfold read_lsinfo. destruct (detzcode_total p) as (v & -> & Hv); [lia|]. cbn [mbind cres_bind].
  destruct (detzcode_total (drop 4 p)) as (w & -> & Hw); [rewrite length_drop; lia|]. cbn [mbind cres_bind]. apply sound_some. split; [done|]. rewrite length_drop. lia.
Qed.

Lemma read_flag_reads : reads 1 (fun _ => True) read_flag.
Proof.
  intros p Hp. unfold read_flag. destruct p as [|c p]; [cbn in Hp; lia|]. change (aget (c :: p) 0) with (CVal c). cbn [mbind cres_bind tail].
  destruct (_ && _); [apply sound_none; tauto|]. apply sound_some. cbn. lia.
Qed.

Lemma read_flags_reads cnt typecnt : (cnt = 0 \/ cnt = typecnt) -> 0 <= typecnt -> reads (Z.to_nat cnt) (fun l => length l = Z.to_nat typecnt) (read_flags cnt typecnt).
Proof.
  intros Hc Ht p Hp. unfold read_flags. destruct (Z.eqb_spec cnt 0) as [->|Hne].
  - apply sound_some. split; [by rewrite repeat_length|cbn; lia].
  - destruct Hc as [| ->]; [done|]. eapply sound_weaken; [apply (read_loop_reads 1 _ _ (Z.to_nat typecnt) read_flag_reads); lia|done|].
    intros [l q] [[H1 _] H2]. split; [done|lia].
Qed.

Lemma in_order_le n (l : list Z) : (in_order n l <= length l)%nat.
Proof. revert l. induction n as [|n IH]; intros l; cbn [in_order]; [done|]. destruct l as [|a [|b l]]; try done. destruct (b <? a); cbn [tail length] in *; [lia|]. specialize (IH (b :: l)). cbn [length] in IH. lia. Qed.

(** What tz_decode accepts. *)
Definition file_zone (sp : state) : Prop :=
  wf sp /\ Z.of_nat (length (chars sp)) <= TZ_MAX_CHARS /\ goback sp = false /\ goahead sp = false.

Lemma take_types n sp_types sp_ats (P : Z -> Prop) : length sp_types = length sp_ats -> (forall i, i ∈ sp_types -> P i) ->
  length (take n sp_types) = length (take n sp_ats : list Z) /\ forall i, i ∈ take n sp_types -> P i.
Proof.
  intros Hl Hp. rewrite !length_take, Hl. split; [done|]. intros i Hi. apply Hp. rewrite <- (take_drop n sp_types). apply elem_of_app. by left.
Qed.

Lemma elem_of_set_flags l f x : x ∈ zip_with set_flags l f -> exists y, y ∈ l /\ tt_gmtoff x = tt_gmtoff y /\ tt_isdst x = tt_isdst y /\ tt_abbrind x = tt_abbrind y.
Proof.
  revert f. induction l as [|y l IH]; intros [|g f]; cbn [zip_with]; try by intros ?%not_elem_of_nil.
  intros [->|Hx]%elem_of_cons; [exists y; split; [left|done]|]. destruct (IH f Hx) as (z & Hz & Hrest). exists z. split; [by right|done].
Qed.

Lemma head_length m buf : (44 <= length (buf ++ (stale_buf m <$> seqZ (Z.of_nat (length buf)) (Z.of_nat tzhead_size))))%nat.
Proof. rewrite length_app, length_fmap, length_seqZ. unfold tzhead_size. lia. Qed.

(** Every file is read inside its bytes, and what is accepted is well-formed. *)
Lemma tz_decode_wf m buf : sound (tz_decode m buf) False (fun '(sp, rest) => file_zone sp).
Proof.
  unfold tz_decode. pose proof (head_length m buf) as Hlen. set (head := buf ++ _) in *.
  destruct (detzcode_total (drop 24 head)) as (isstd & -> & H1); [rewrite length_drop; lia|]. destruct (detzcode_total (drop 20 head)) as (isgmt & -> & H2); [rewrite length_drop; lia|].
  destruct (detzcode_total (drop 28 head)) as (leapcnt & -> & H3); [rewrite length_drop; lia|]. destruct (detzcode_total (drop 32 head)) as (timecnt & -> & H4); [rewrite length_drop; lia|].
  destruct (detzcode_total (drop 36 head)) as (typecnt & -> & H5); [rewrite length_drop; lia|]. destruct (detzcode_total (drop 40 head)) as (charcnt & -> & H6); [rewrite length_drop; lia|].
  cbn [mbind cres_bind]. destruct (counts_bad _ _ _ _ _ _) eqn:Ec; [apply sound_none; tauto|]. unfold counts_bad, TZ_MAX_LEAPS, TZ_MAX_TYPES, TZ_MAX_TIMES, TZ_MAX_CHARS in Ec.
  apply orb_false_iff in Ec as [Ec Eg]. apply orb_false_iff in Ec as [Ec Es]. zbool.
  assert (isstd = 0 \/ isstd = typecnt) as Hs by (apply andb_false_iff in Es as [Es|Es]; apply negb_false_iff, Z.eqb_eq in Es; auto).
  assert (isgmt = 0 \/ isgmt = typecnt) as Hg by (apply andb_false_iff in Eg as [Eg|Eg]; apply negb_false_iff, Z.eqb_eq in Eg; auto).
  clear H1 H2 Es Eg.
  destruct (Z.ltb_spec (Z.of_nat (length buf) - Z.of_nat tzhead_size) (timecnt * 4 + timecnt + typecnt * 6 + charcnt + leapcnt * 8 + isstd + isgmt)) as [|Hroom0]; [apply sound_none; tauto|].
  assert (timecnt * 4 + timecnt + typecnt * 6 + charcnt + leapcnt * 8 + isstd + isgmt <= Z.of_nat (length (drop tzhead_size buf))) as Hroom by (rewrite length_drop; lia).
  set (p0 := drop tzhead_size buf) in *. clearbody p0.
  eapply sound_bind; [apply (read_loop_reads 4 _ _ (Z.to_nat timecnt) read_at_reads); lia|]. intros [ats p1] [[La _] L1].
  eapply sound_bind; [apply (read_loop_reads 1 _ _ (Z.to_nat timecnt) (read_type_reads typecnt)); lia|]. intros [types p2] [[Lt Ht] L2].
  eapply sound_bind; [apply (read_loop_reads 6 _ _ (Z.to_nat typecnt) (read_ttinfo_reads charcnt)); lia|]. intros [ttis p3] [[Li Hi] L3].
  eapply sound_bind; [apply (read_loop_reads 1 _ _ (Z.to_nat charcnt) read_char_reads); lia|]. intros [chars p4] [[Lc _] L4].
  eapply sound_bind; [apply (read_loop_reads 8 _ _ (Z.to_nat leapcnt) read_lsinfo_reads); lia|]. intros [lsis p5] [[Ll _] L5].
  eapply sound_bind; [apply (read_flags_reads isstd typecnt Hs); lia|]. intros [isstds p6] [Lf L6].
  eapply sound_bind; [apply (read_flags_reads isgmt typecnt Hg); lia|]. intros [isgmts p7] [Lg L7].
  destruct (aget_some head 4 ltac:(lia)) as [v ->]. cbn [mbind cres_bind]. apply sound_some.
  pose proof (take_types (in_order (length ats - 2) ats) types ats _ ltac:(congruence) Ht) as [T1 T2].
  assert (length (zip_with set_flags ttis (zip isstds isgmts)) = Z.to_nat typecnt) as Lz by (rewrite length_zip_with, length_zip_with; lia).
  split; [split; cbn [Tz.types Tz.ats Tz.ttis Tz.chars]|cbn [Tz.chars]; unfold TZ_MAX_CHARS; split; [lia|done]].
  - done.
  - rewrite length_take. unfold TZ_MAX_TIMES, chars_size. lia.
  - intros i Hin. rewrite Lz. specialize (T2 i Hin). lia.
  - lia.
  - intros x Hx. destruct (elem_of_set_flags _ _ _ Hx) as (y & Hy & E1 & E2 & E3). destruct (Hi y Hy) as (I1 & I2 & I3). rewrite E1, E2, E3. split; [done|]. split; [lia|done].
Qed.

Lemma skip_old_elem l last x : x ∈ skip_old l last -> x ∈ l.
Proof. induction l as [|[a ty] l IH]; cbn [skip_old]; [done|]. destruct (a <=? last); [intros Hx; right; auto|done]. Qed.

(** What is read of ats. *)
Lemma ats_at_total m sp i : readable m -> - (2 * YEARSPERREPEAT + 1) <= i -> exists t, ats_at m sp i = CVal t.
Proof.
  intros Hm Hi. unfold ats_at. destruct (Z.ltb_spec i 0); [|by eexists]. destruct (Hm i) as [t ->]; [lia|]. by exists t.
Qed.

Lemma same_repeat_false m sp i j : readable m -> - (2 * YEARSPERREPEAT + 1) <= i -> - (2 * YEARSPERREPEAT + 1) <= j -> same_repeat m sp i j = CVal false.
Proof.
  intros Hm Hi Hj. unfold same_repeat. destruct (_ =? _); [|done]. destruct (ats_at_total m sp i Hm Hi) as [ti ->], (ats_at_total m sp j Hm Hj) as [tj ->]. reflexivity.
Qed.

(** No zone repeats when a time_t has 32 bits. *)
Lemma repeat_tests_off m sp : readable m -> goback sp = false -> goahead sp = false -> repeat_tests m sp = CVal sp.
Proof.
  intros Hm Hb Ha. unfold repeat_tests. rewrite !same_repeat_false by (done || (unfold YEARSPERREPEAT; lia)). cbn [mbind cres_bind].
  rewrite !andb_false_r. destruct sp; cbn in *. by subst.
Qed.

(** The transitions of a string are appended to a zone. *)
Lemma tz_extend_wf m sp ts : readable m -> file_zone sp -> wf ts -> Z.of_nat (length (ttis sp)) + 2 <= TZ_MAX_TYPES -> sound (tz_extend m sp ts) False file_zone.
Proof.
  intros Hm Hz Ht Hn. pose proof Hz as (Hw & Hc & Hb & Ha). unfold tz_extend.
  destruct (_ && _) eqn:Eg; [|by apply sound_some]. zbool. unfold TZ_MAX_CHARS, TZ_MAX_TYPES in *.
  destruct (ttis ts) as [|t0 [|t1 [|t2 l]]] eqn:Et; try (by apply sound_some).
  assert (exists l, (match zip (ats ts) (types ts) with [] => CVal [] | l => last ← ats_at m sp (Z.of_nat (length (ats sp)) - 1); CVal (skip_old l last) end) = CVal l /\
    forall x, x ∈ l -> x ∈ zip (ats ts) (types ts)) as (new & -> & Hnew).
  { destruct (zip (ats ts) (types ts)) as [|q l] eqn:Ez; [by exists []|].
    destruct (ats_at_total m sp (Z.of_nat (length (ats sp)) - 1) Hm) as [last ->]; [unfold YEARSPERREPEAT; lia|].
    cbn [mbind cres_bind]. exists (skip_old (q :: l) last). split; [done|]. intros x. apply skip_old_elem. }
  cbn [mbind cres_bind]. set (k := Z.to_nat (TZ_MAX_TIMES - Z.of_nat (length (ats sp)))). apply sound_some. destruct (wf_room _ Hw) as [Hr _].
  assert (forall i, i ∈ (take k new).*2 -> 0 <= i < 2) as Hty.
  { intros i Hi. apply list_elem_of_fmap in Hi as ([a ty] & -> & Hx). cbn [snd].
    assert ((a, ty) ∈ zip (ats ts) (types ts)) as Hz' by (apply Hnew; rewrite <- (take_drop k new); apply elem_of_app; by left).
    apply elem_of_zip_r in Hz'. pose proof (wf_types _ Ht _ Hz') as HT. rewrite Et in HT. cbn in HT. lia. }
  split; [split; cbn [Tz.types Tz.ats Tz.ttis Tz.chars]|cbn [Tz.chars]; rewrite length_app; unfold TZ_MAX_CHARS; split; [lia|done]].
  - rewrite !length_app, !length_fmap. by rewrite (wf_times _ Hw).
  - rewrite !length_app, length_fmap, length_take. unfold chars_size. subst k. unfold TZ_MAX_TIMES in *. lia.
  - intros i. rewrite length_app. cbn [length]. intros [Hi|Hi]%elem_of_app; [pose proof (wf_types _ Hw _ Hi); lia|].
    apply list_elem_of_fmap in Hi as (j & -> & Hj). specialize (Hty j Hj). rewrite u8_small by lia. lia.
  - rewrite length_app. cbn [length]. pose proof (wf_ttis _ Hw). lia.
  - rewrite length_app. intros x [Hx|Hx]%elem_of_app; [destruct (wf_type _ Hw _ Hx) as (X1 & X2 & X3); split; [done|]; split; [lia|done]|].
    assert (t0 ∈ ttis ts /\ t1 ∈ ttis ts) as [M0 M1] by (rewrite Et; split; [left|right; left]).
    destruct (wf_type _ Ht _ M0) as (X1 & X2 & X3). destruct (wf_type _ Ht _ M1) as (Y1 & Y2 & Y3).
    apply elem_of_cons in Hx as [->|[->|[]%not_elem_of_nil]%elem_of_cons]; cbn; (split; [done|]); (split; [lia|done]).
Qed.

(** Whatever was read of a file. *)
Lemma tzload_wf m file doextend ts0 defrules : readable m -> sound (tzload m file doextend ts0 defrules) False file_zone.
Proof.
  intros Hm. unfold tzload. destruct file as [buf|]; [|apply sound_none; tauto]. destruct (Nat.leb_spec (length buf) 0); [apply sound_none; tauto|].
  eapply sound_bind; [apply tz_decode_wf|]. intros [sp rest] Hz. eapply sound_bind with (P := file_zone).
  - destruct (_ && _) eqn:Eg; [|by apply sound_some]. zbool.
    destruct (tzparse_wf (c_string (removelast (tail rest))) false ts0 defrules) as (r & -> & Ht). cbn [mbind cres_bind].
    destruct r as [ts|]; [|by apply sound_some]. destruct (Ht ts eq_refl) as [Hw _]. by apply tz_extend_wf.
  - intros sp' Hz'. pose proof Hz' as (_ & _ & Hb & Ha). rewrite (repeat_tests_off m sp' Hm Hb Ha). by apply sound_some.
Qed.

(** ** Written and read back *)

(** A step of a computation, as an equation. *)
Lemma bind_val {A B} (a : A) (k : A -> cres B) : (CVal a ≫= k) = k a.
Proof. done. Qed.

Definition enc4 (v : Z) : list Z := [(v / 2 ^ 24) mod 256; (v / 2 ^ 16) mod 256; (v / 2 ^ 8) mod 256; v mod 256].
Definition enc_ttinfo (x : ttinfo) : list Z := enc4 (tt_gmtoff x) ++ [tt_isdst x; tt_abbrind x].
Definition enc_lsinfo (l : lsinfo) : list Z := enc4 (ls_trans l) ++ enc4 (ls_corr l).
Definition enc_all {A} (enc : A -> list Z) (l : list A) : list Z := foldr (fun a s => enc a ++ s) [] l.
Definition count {A} (l : list A) : list Z := enc4 (Z.of_nat (length l)).

(** A file of the first version: "TZif", 16 zeros, the counts and the data. *)
Definition encode (sp : state) : list Z :=
  [0x54; 0x5a; 0x69; 0x66] ++ repeat 0 16 ++
  count (ttis sp) ++ count (ttis sp) ++ count (lsis sp) ++ count (ats sp) ++ count (ttis sp) ++ count (chars sp) ++
  enc_all enc4 (ats sp) ++ enc_all (fun i => [i]) (types sp) ++ enc_all enc_ttinfo (ttis sp) ++ enc_all (fun c => [c]) (chars sp) ++
  enc_all enc_lsinfo (lsis sp) ++ enc_all (fun x => [b2z (tt_ttisstd x)]) (ttis sp) ++ enc_all (fun x => [b2z (tt_ttisgmt x)]) (ttis sp).

Lemma land_byte c : 0 <= c < 256 -> Z.land c 0xff = c /\ (Z.land c 0x80 =? 0) = (c <? 128).
Proof.
  intros Hc. split; [change 0xff with (Z.ones 8); rewrite Z.land_ones by lia; by apply Z.mod_small|].
  apply (f_equal (fun b : bool => b)). apply eqb_prop. apply (range_check (fun c => Bool.eqb (Z.land c 0x80 =? 0) (c <? 128)) 0 256); [vm_compute; reflexivity|lia].
Qed.

Lemma detz_step n c p r : 0 <= c < 256 -> - 2 ^ 23 <= r < 2 ^ 23 -> detz_loop (S n) (c :: p) r = detz_loop n p (r * 256 + c).
Proof.
  intros Hc Hr. cbn [detz_loop]. change (aget (c :: p) 0) with (CVal c). cbn [mbind cres_bind tail]. destruct (land_byte c Hc) as [-> _].
  rewrite lor_low by lia. rewrite s32_small by lia. done.
Qed.

Lemma detzcode_enc v s : - 2 ^ 31 <= v < 2 ^ 31 -> detzcode (enc4 v ++ s) = CVal v.
Proof.
  intros Hv. unfold detzcode, enc4. cbn [app]. set (a := (v / 2 ^ 24) mod 256). set (b := (v / 2 ^ 16) mod 256). set (c := (v / 2 ^ 8) mod 256). set (d := v mod 256).
  assert (0 <= a < 256 /\ 0 <= b < 256 /\ 0 <= c < 256 /\ 0 <= d < 256) as (Ha & Hb & Hc & Hd) by (subst a b c d; split_and!; apply Z.mod_pos_bound; lia).
  change (aget (a :: b :: c :: d :: s) 0) with (CVal a). cbn [mbind cres_bind]. destruct (land_byte a Ha) as [_ ->].
  assert ((((if a <? 128 then 0 else -1) * 256 + a) * 256 + b) * 256 * 256 + c * 256 + d = v) as E.
  { subst a b c d. change (2 ^ 24) with 16777216. change (2 ^ 16) with 65536. change (2 ^ 8) with 256.
    destruct (Z.ltb_spec ((v / 16777216) mod 256) 128); zdm. }
  set (r := if a <? 128 then 0 else -1) in *. assert (-128 <= r * 256 + a < 128) by (subst r; destruct (Z.ltb_spec a 128); lia).
  rewrite !detz_step by (subst r; destruct (Z.ltb_spec a 128); lia). cbn [detz_loop]. f_equal. lia.
Qed.

Lemma enc4_length v : length (enc4 v) = 4%nat.
Proof. done. Qed.

Lemma enc_all_length {A} (enc : A -> list Z) k l : (forall a, length (enc a) = k) -> length (enc_all enc l) = (length l * k)%nat.
Proof. intros H. induction l as [|a l IH]; [done|]. cbn [enc_all foldr]. rewrite length_app, H. fold (enc_all enc l). rewrite IH. cbn. done. Qed.

(** The zones that a file of the first version can hold. *)
Record storable (sp : state) : Prop := {
  so_zone : file_zone sp;
  so_leaps : Z.of_nat (length (lsis sp)) <= TZ_MAX_LEAPS;
  so_ats : forall t, t ∈ ats sp -> - 2 ^ 31 <= t < 2 ^ 31;
  so_order : in_order (length (ats sp) - 2) (ats sp) = length (ats sp);
  so_lsis : forall l, l ∈ lsis sp -> (- 2 ^ 31 <= ls_trans l < 2 ^ 31) /\ (- 2 ^ 31 <= ls_corr l < 2 ^ 31)
}.

(** The types as they are read, before their flags. *)
Definition plain_type (x : ttinfo) : ttinfo := mkTT (tt_gmtoff x) (tt_isdst x) (tt_abbrind x) false false.

Lemma read_ttinfo_enc charcnt x s : (tt_isdst x = 0 \/ tt_isdst x = 1) -> 0 <= tt_abbrind x <= charcnt -> charcnt < 256 -> - 2 ^ 31 <= tt_gmtoff x < 2 ^ 31 ->
  read_ttinfo charcnt (enc_ttinfo x ++ s) = CVal (Some (plain_type x, s)).
Proof.
  intros Hd Ha Hc Ho. unfold read_ttinfo, enc_ttinfo. rewrite <- app_assoc, detzcode_enc by done. cbn [mbind cres_bind].
  change (aget (enc4 (tt_gmtoff x) ++ [tt_isdst x; tt_abbrind x] ++ s) 4) with (CVal (tt_isdst x)). cbn [mbind cres_bind]. rewrite (u8_small (tt_isdst x)) by lia.
  assert (negb (tt_isdst x =? 0) && negb (tt_isdst x =? 1) = false) as -> by (by destruct Hd as [-> | ->]).
  change (aget (enc4 (tt_gmtoff x) ++ [tt_isdst x; tt_abbrind x] ++ s) 5) with (CVal (tt_abbrind x)). cbn [mbind cres_bind]. rewrite (u8_small (tt_abbrind x)) by lia.
  repeat zif. done.
Qed.

(** A loop reads back what was written of a list. *)
Lemma read_loop_map {A B} (step : list Z -> cres (option (A * list Z))) (enc : B -> list Z) (f : B -> A) (Q : B -> Prop) l s :
  (forall b s, Q b -> step (enc b ++ s) = CVal (Some (f b, s))) -> (forall b, b ∈ l -> Q b) ->
  read_loop (length l) step (enc_all enc l ++ s) = CVal (Some (f <$> l, s)).
Proof.
  intros Hs Hl. induction l as [|b l IH]; cbn [length read_loop enc_all foldr]; [done|]. rewrite <- app_assoc, Hs by (apply Hl; left). cbn [mbind cres_bind].
  fold (enc_all enc l). rewrite IH by (intros x Hx; apply Hl; by right). done.
Qed.

Lemma set_flags_types (l : list ttinfo) : zip_with set_flags (plain_type <$> l) (zip (tt_ttisstd <$> l) (tt_ttisgmt <$> l)) = l.
Proof. induction l as [|[]]; [done|]. cbn. by f_equal. Qed.

Lemma read_loop_enc {A} (step : list Z -> cres (option (A * list Z))) enc (Q : A -> Prop) l s :
  (forall a s, Q a -> step (enc a ++ s) = CVal (Some (a, s))) -> (forall a, a ∈ l -> Q a) ->
  read_loop (length l) step (enc_all enc l ++ s) = CVal (Some (l, s)).
Proof. intros Hs Hl. rewrite (read_loop_map step enc id Q l s Hs Hl), list_fmap_id. done. Qed.

Lemma read_flags_enc (f : ttinfo -> bool) l s : l <> [] ->
  read_flags (Z.of_nat (length l)) (Z.of_nat (length l)) (enc_all (fun x => [b2z (f x)]) l ++ s) = CVal (Some (f <$> l, s)).
Proof.
  intros Hne. unfold read_flags. rewrite (proj2 (Z.eqb_neq _ 0)) by (destruct l; [done|cbn; lia]). rewrite Nat2Z.id.
  apply (read_loop_map read_flag (fun x => [b2z (f x)]) f (fun _ => True)); [|done]. intros b s' _. by destruct (f b).
Qed.

Lemma counts_ok leapcnt typecnt timecnt charcnt : 0 <= leapcnt <= 50 -> 0 < typecnt <= 256 -> 0 <= timecnt <= 1200 -> 0 <= charcnt <= 50 ->
  counts_bad leapcnt typecnt timecnt charcnt typecnt typecnt = false.
Proof.
  intros. unfold counts_bad, TZ_MAX_LEAPS, TZ_MAX_TYPES, TZ_MAX_TIMES, TZ_MAX_CHARS. by repeat zif.
Qed.

(** The counts where the code looks for them. *)
Definition header (isgmt isstd leap time type char : Z) (data : list Z) : list Z :=
  [0x54; 0x5a; 0x69; 0x66] ++ repeat 0 16 ++ enc4 isgmt ++ enc4 isstd ++ enc4 leap ++ enc4 time ++ enc4 type ++ enc4 char ++ data.

Lemma header_fields n1 n2 n3 n4 n5 n6 data : let buf := header n1 n2 n3 n4 n5 n6 data in
  drop 24 buf = enc4 n2 ++ enc4 n3 ++ enc4 n4 ++ enc4 n5 ++ enc4 n6 ++ data /\
  drop 20 buf = enc4 n1 ++ enc4 n2 ++ enc4 n3 ++ enc4 n4 ++ enc4 n5 ++ enc4 n6 ++ data /\
  drop 28 buf = enc4 n3 ++ enc4 n4 ++ enc4 n5 ++ enc4 n6 ++ data /\ drop 32 buf = enc4 n4 ++ enc4 n5 ++ enc4 n6 ++ data /\
  drop 36 buf = enc4 n5 ++ enc4 n6 ++ data /\ drop 40 buf = enc4 n6 ++ data /\ drop tzhead_size buf = data /\ aget buf 4 = CVal 0.
Proof. repeat split. Qed.

Lemma header_length n1 n2 n3 n4 n5 n6 data : Z.of_nat (length (header n1 n2 n3 n4 n5 n6 data)) = Z.of_nat tzhead_size + Z.of_nat (length data).
Proof. unfold header. rewrite !length_app. cbn [length repeat enc4]. unfold tzhead_size. lia. Qed.

Lemma read_lsinfo_enc l s : (- 2 ^ 31 <= ls_trans l < 2 ^ 31) /\ (- 2 ^ 31 <= ls_corr l < 2 ^ 31) -> read_lsinfo (enc_lsinfo l ++ s) = CVal (Some (l, s)).
Proof.
  destruct l as [tr co]. intros [H1 H2]. unfold read_lsinfo, enc_lsinfo. cbn [ls_trans ls_corr] in *. rewrite <- app_assoc, detzcode_enc by done. rewrite bind_val.
  rewrite (drop_app_length' (enc4 tr) _ 4), detzcode_enc by done. rewrite bind_val, app_assoc, drop_app_length' by done. reflexivity.
Qed.

Lemma read_type_enc typecnt i s : 0 <= i < typecnt -> typecnt <= 256 -> read_type typecnt ([i] ++ s) = CVal (Some (i, s)).
Proof. intros Hi Ht. unfold read_type. change (aget ([i] ++ s) 0) with (CVal i). cbn [mbind cres_bind]. rewrite u8_small by lia. by zif. Qed.

Lemma read_at_enc t s : - 2 ^ 31 <= t < 2 ^ 31 -> read_at (enc4 t ++ s) = CVal (Some (t, s)).
Proof. intros Ht. unfold read_at. rewrite detzcode_enc by done. reflexivity. Qed.

Lemma tz_decode_encode m sp : storable sp -> tz_decode m (encode sp) = CVal (Some (sp, encode sp)).
Proof.
  intros [(Hw & Hc & Hb & Ha) Hl Hats Hord Hls]. destruct (wf_room _ Hw) as [Hr _]. pose proof (wf_ttis _ Hw) as Hn. pose proof (wf_times _ Hw) as Ht.
  unfold TZ_MAX_LEAPS, TZ_MAX_TIMES, TZ_MAX_CHARS in *.
  set (flags := enc_all (fun x => [b2z (tt_ttisstd x)]) (ttis sp) ++ enc_all (fun x => [b2z (tt_ttisgmt x)]) (ttis sp)).
  set (data := enc_all enc4 (ats sp) ++ enc_all (fun i => [i]) (types sp) ++ enc_all enc_ttinfo (ttis sp) ++ enc_all (fun c => [c]) (chars sp) ++ enc_all enc_lsinfo (lsis sp) ++ flags).
  assert (Z.of_nat (length data) = Z.of_nat (length (ats sp)) * 4 + Z.of_nat (length (ats sp)) + Z.of_nat (length (ttis sp)) * 6 + Z.of_nat (length (chars sp)) +
    Z.of_nat (length (lsis sp)) * 8 + Z.of_nat (length (ttis sp)) + Z.of_nat (length (ttis sp))) as Hdata.
  { subst data flags. rewrite !length_app, (enc_all_length enc4 4), (enc_all_length enc_ttinfo 6), (enc_all_length enc_lsinfo 8) by done.
    repeat (rewrite (enc_all_length _ 1) by done). lia. }
  assert (encode sp = header (Z.of_nat (length (ttis sp))) (Z.of_nat (length (ttis sp))) (Z.of_nat (length (lsis sp))) (Z.of_nat (length (ats sp)))
    (Z.of_nat (length (ttis sp))) (Z.of_nat (length (chars sp))) data) as He by reflexivity.
  rewrite He. clear He. unfold tz_decode. set (st := stale_buf m <$> _). clearbody st.
  change (header ?a ?b ?c ?d ?e ?f data ++ st) with (header a b c d e f (data ++ st)).
  destruct (header_fields (Z.of_nat (length (ttis sp))) (Z.of_nat (length (ttis sp))) (Z.of_nat (length (lsis sp))) (Z.of_nat (length (ats sp)))
    (Z.of_nat (length (ttis sp))) (Z.of_nat (length (chars sp))) (data ++ st)) as (-> & -> & -> & -> & -> & -> & _ & Hv).
  rewrite header_length. change (drop tzhead_size (header ?a ?b ?c ?d ?e ?f data)) with data.
  rewrite Hv. rewrite !detzcode_enc by lia. cbn [mbind cres_bind].
  rewrite counts_ok by lia. rewrite Z.add_simpl_l, Hdata, Z.ltb_irrefl, !Nat2Z.id. unfold data at 1.
  rewrite (read_loop_enc read_at enc4 _ _ _ read_at_enc Hats). unfold or_wrong. cbn [mbind cres_bind].
  rewrite <- Ht at 1. rewrite (read_loop_enc (read_type (Z.of_nat (length (ttis sp)))) (fun i => [i]) (fun i => 0 <= i < Z.of_nat (length (ttis sp))));
    [|intros i s Hi; apply read_type_enc; lia|apply (wf_types _ Hw)]. cbn [mbind cres_bind].
  rewrite (read_loop_map (read_ttinfo (Z.of_nat (length (chars sp)))) enc_ttinfo plain_type (fun x => x ∈ ttis sp));
    [|intros x s Hx; destruct (wf_type _ Hw x Hx) as (X1 & X2 & X3); apply read_ttinfo_enc; lia || done|done]. cbn [mbind cres_bind].
  rewrite (read_loop_enc read_char (fun c => [c]) (fun _ => True)); [|done|done]. cbn [mbind cres_bind].
  rewrite (read_loop_enc read_lsinfo enc_lsinfo _ _ _ read_lsinfo_enc Hls).
  cbn [mbind cres_bind]. assert (ttis sp <> []) as Hne by (destruct (ttis sp); [cbn in Hn; lia|done]). unfold flags.
  rewrite read_flags_enc by done. cbn [mbind cres_bind]. rewrite <- (app_nil_r (enc_all (fun x => [b2z (tt_ttisgmt x)]) (ttis sp))), read_flags_enc by done. cbn [mbind cres_bind].
  change (0 =? 0) with true. cbv iota. rewrite Hord, set_flags_types, !take_ge by lia.
  destruct sp as [? ? ? ? ? gb ga]. cbn in Hb, Ha |- *. by subst gb ga.
Qed.

Lemma tzload_encode m sp doextend ts0 defrules : readable m -> storable sp -> tzload m (Some (encode sp)) doextend ts0 defrules = CVal (Some sp).
Proof.
  intros Hm H. unfold tzload. change (length (encode sp) <=? 0)%nat with false. cbv iota. rewrite tz_decode_encode by done. unfold or_wrong. rewrite bind_val.
  change (peek (encode sp) =? 0xa) with false. rewrite andb_false_r. cbn [andb]. rewrite bind_val. destruct (so_zone _ H) as (_ & _ & Hb & Ha).
  by rewrite (repeat_tests_off m sp Hm Hb Ha).
Qed.

(** C36: a zone with at most 50 leap seconds, 50 characters of names and times that are in order
    (but for the last two), written as a file of the first version, is loaded back as it was:
    every count, offset, index and flag, negative times and offsets included.  The tests for
    repeats read in front of ats, where memory has to be readable, whatever it holds. *)
Theorem tzload_reads_back m sp doextend ts0 defrules (Hm : readable m) (H : storable sp) : tzload m (Some (encode sp)) doextend ts0 defrules = CVal (Some sp).
Proof. by apply tzload_encode. Qed.

(** Memory that holds zeros, and the same with nothing to read in front of ats. *)
Definition zeros : memory := mkMem (fun _ => 0) (fun _ => 0) (fun _ => 0) (fun _ => Some 0).
Definition walled : memory := mkMem (fun _ => 0) (fun _ => 0) (fun _ => 0) (fun _ => None).

Lemma zeros_readable : readable zeros.
Proof. intros i _. by exists 0. Qed.

(** New York again, with a time before 1970. *)
Definition stored_zone : state :=
  mkState [mkLS 1136073600 1] [-1633280400; 1173596400; 1194156000] [0; 1; 0] [mkTT (-18000) 0 0 true false; mkTT (-14400) 1 4 false true]
    [69; 83; 84; 0; 69; 68; 84; 0] false false.

Lemma tzload_reads_back_witness : tzload zeros (Some (encode stored_zone)) true empty_zone None = CVal (Some stored_zone) /\ length (encode stored_zone) = 91%nat.
Proof.
  split; [|reflexivity]. apply tzload_reads_back; [exact zeros_readable|]. split.
  - split; [|split; [cbn; unfold TZ_MAX_CHARS; lia|done]]. split; cbn; unfold TZ_MAX_TIMES, chars_size; try lia; try done.
    + intros i. rewrite !elem_of_cons. intros [->|[->|[->|[]%not_elem_of_nil]]]; lia.
    + intros x. rewrite !elem_of_cons. intros [->|[->|[]%not_elem_of_nil]]; cbn; (split; [auto|lia]).
  - cbn. unfold TZ_MAX_LEAPS. lia.
  - intros t. cbn. rewrite !elem_of_cons. intros [->|[->|[->|[]%not_elem_of_nil]]]; lia.
  - reflexivity.
  - intros l. cbn. rewrite !elem_of_cons. intros [->|[]%not_elem_of_nil]. cbn. lia.
Defined.

(** ** What goes wrong *)

(** The last two times are not compared. *)
Lemma last_pair_kept : in_order (2 - 2) [5; 3] = 2%nat /\ in_order (3 - 2) [7; 5; 3] = 1%nat.
Proof. split; reflexivity. Qed.

(** The header of a short file is read from bytes of u.buf that were never set; whatever they
    are, the file is refused. *)
Lemma short_header m buf : (length buf < 44)%nat -> tz_decode m buf = CVal None.
Proof.
  intros Hs. destruct (tz_decode_wf m buf) as (r & E & _ & _). rewrite E. destruct r as [[sp rest]|]; [|done]. exfalso. revert E.
  unfold tz_decode. repeat (match goal with |- context [detzcode ?p ≫= _] => destruct (detzcode p) as [?| |]; try done; cbn [mbind cres_bind] end).
  destruct (counts_bad _ _ _ _ _ _) eqn:Ec; [done|]. unfold counts_bad, TZ_MAX_LEAPS, TZ_MAX_TYPES, TZ_MAX_TIMES, TZ_MAX_CHARS in Ec.
  apply orb_false_iff in Ec as [Ec Eg]. apply orb_false_iff in Ec as [Ec Es]. zbool.
  apply andb_false_iff in Es, Eg. rewrite !negb_false_iff, !Z.eqb_eq in Es, Eg. rewrite (proj2 (Z.ltb_lt _ _)); [done|]. unfold tzhead_size. lia.
Qed.

(** The tests for repeats are made for zones of any length: for one of at most 800 transitions
    they look at types[timecnt - 801], in front of the array, and when the byte there is the
    last type, at ats[timecnt - 801]. *)
Lemma repeats_before_array m sp : let n := Z.of_nat (length (ats sp)) in n <= 2 * YEARSPERREPEAT ->
  types_at m sp (n - 1) = stale_types m (n - 1 - 2 * YEARSPERREPEAT) -> front_ats m (n - 1 - 2 * YEARSPERREPEAT) = None ->
  repeat_tests m sp = CUndef.
Proof.
  intros n Hn Ht Hf. unfold repeat_tests, YEARSPERREPEAT in *. assert (same_repeat m sp (2 * 400) 0 = CVal false) as -> by (unfold same_repeat; by destruct (_ =? _)).
  cbn [mbind cres_bind]. fold n. unfold same_repeat at 1. replace (types_at m sp (n - 1 - 2 * 400)) with (stale_types m (n - 1 - 2 * 400)) by (unfold types_at; by zif).
  rewrite Ht, Z.eqb_refl. unfold ats_at. destruct (n - 1 <? 0); [destruct (front_ats m (n - 1)); [|done]|]; cbn [mbind cres_bind]; rewrite (proj2 (Z.ltb_lt (n - 1 - 2 * 400) 0)) by lia; by rewrite Hf.
Qed.

(** New York is an example. *)
Lemma repeats_overread : tzload walled (Some (encode stored_zone)) true empty_zone None = CUndef.
Proof. vm_compute. reflexivity. Qed.

(** A footer after a zone without transitions is compared with what is in front of ats. *)
Lemma extend_no_times : tz_extend walled (mkState [] [] [] [mkTT 0 0 0 false false] [] false false)
  (mkState [] [0] [0] [mkTT 0 1 2 false false; mkTT 0 0 0 false false] [65; 0; 66; 0] false false) = CUndef.
Proof. reflexivity. Qed.
