(* ===== verification/TzIndex.v ===== *)
(** * Finding zone files (libc/tzcode/localtime.c, the opening part of tzload)

    A zone is a file of its own under TZDIR, or a part of one large file that an index names.
    The file system is an argument: the contents of the files that can be opened and read, by
    path.  A file has at least as many bytes as read gives of it at once. *)

From Stdlib Require Import ZArith Lia.
From stdpp Require Import base list numbers option.
From S2P Require Import Prelude Tz TzRule TzSafe TzFile.

Open Scope Z_scope.

(** "/system/usr/share/zoneinfo", with "zoneinfo.idx" and "zoneinfo.dat" there. *)
Definition TZDIR : list Z :=
  [0x2f; 0x73; 0x79; 0x73; 0x74; 0x65; 0x6d; 0x2f; 0x75; 0x73; 0x72; 0x2f; 0x73; 0x68; 0x61; 0x72; 0x65; 0x2f; 0x7a; 0x6f; 0x6e; 0x65; 0x69; 0x6e;
   0x66; 0x6f].
Definition INDEXFILE : list Z :=
  [0x2f; 0x73; 0x79; 0x73; 0x74; 0x65; 0x6d; 0x2f; 0x75; 0x73; 0x72; 0x2f; 0x73; 0x68; 0x61; 0x72; 0x65; 0x2f; 0x7a; 0x6f; 0x6e; 0x65; 0x69; 0x6e;
   0x66; 0x6f; 0x2f; 0x7a; 0x6f; 0x6e; 0x65; 0x69; 0x6e; 0x66; 0x6f; 0x2e; 0x69; 0x64; 0x78].
Definition DATAFILE : list Z :=
  [0x2f; 0x73; 0x79; 0x73; 0x74; 0x65; 0x6d; 0x2f; 0x75; 0x73; 0x72; 0x2f; 0x73; 0x68; 0x61; 0x72; 0x65; 0x2f; 0x7a; 0x6f; 0x6e; 0x65; 0x69; 0x6e;
   0x66; 0x6f; 0x2f; 0x7a; 0x6f; 0x6e; 0x65; 0x69; 0x6e; 0x66; 0x6f; 0x2e; 0x64; 0x61; 0x74].
Definition NAMELEN : nat := 40.
Definition INTLEN : nat := 4.
Definition READLEN : nat := NAMELEN + 3 * INTLEN.
Definition FILENAME_MAX : Z := 1024.

(** sizeof u.buf: twice a struct tzhead, twice a struct state of 12056 bytes, 4 * TZ_MAX_TIMES. *)
Definition buf_size : nat := 2 * tzhead_size + 2 * (Z.to_nat 12056) + 4 * Z.to_nat TZ_MAX_TIMES.

Definition toint (s : list Z) : cres Z :=
  a ← aget s 0; b ← aget s 1; c ← aget s 2; d ← aget s 3;
  CVal (Z.lor (Z.lor (Z.lor (s32 (Z.shiftl (u8 a) 24)) (Z.shiftl (u8 b) 16)) (Z.shiftl (u8 c) 8)) (u8 d)).

(** The records of the index, one read each: the place and the size of the zone called
    [origname]; None is -1.  [fuel] is more than the number of records. *)
Fixpoint index_loop (fuel : nat) (fidix origname : list Z) : cres (option (Z * Z)) :=
  match fuel with
  | O => CFuel
  | S fuel =>
      let buf := take READLEN fidix in
      if negb (length buf =? READLEN)%nat then CVal None
      else if bool_decide (c_string (take NAMELEN buf ++ [0]) = origname) then
        off ← toint (drop NAMELEN buf);
        toread ← toint (drop (NAMELEN + INTLEN) buf);
        CVal (Some (off, toread))
      else index_loop fuel (drop READLEN fidix) origname
  end.

(** The path of a zone, and whether access is asked; None when the path is too long. *)
Definition zone_path (origname : list Z) : option (list Z * bool) :=
  let name := if peek origname =? 0x3a then tail origname else origname in
  if peek name =? 0x2f then Some (name, true)
  else if FILENAME_MAX + 1 <=? Z.of_nat (length TZDIR) + Z.of_nat (length name) + 1 then None
  else Some (TZDIR ++ [0x2f] ++ name, bool_decide (0x2e ∈ name)).

(** read(fid, u.buf, toread): a negative size is refused, and a write behind the end of u.buf is
    undefined. *)
Definition read_buf (data : list Z) (toread : Z) : cres (option (list Z)) :=
  if toread <? 0 then CVal None
  else
    let got := take (Z.to_nat toread) data in
    if (buf_size <? length got)%nat then CUndef else CVal (Some got).

(** What tzload has of a zone in u.buf before it decodes it. *)
Definition read_zone (fs : list Z -> option (list Z)) (origname : list Z) : cres (option (list Z)) :=
  match zone_path origname with
  | None => CVal None
  | Some (name, doaccess) =>
      match fs name with
      | Some data => read_buf data (Z.of_nat buf_size)
      | None =>
          if doaccess then CVal None
          else
            match fs INDEXFILE with
            | None => CVal None
            | Some idx =>
                found ← index_loop (S (length idx)) idx origname;
                match found with
                | None => CVal None
                | Some (off, toread) =>
                    if off <? 0 then CVal None
                    else match fs DATAFILE with None => CVal None | Some dat => read_buf (drop (Z.to_nat off) dat) toread end
                end
            end
      end
  end.

(** ** An index as it is written *)

Record entry := mkEntry { e_name : list Z; e_off : Z; e_len : Z; e_raw : Z }.

Definition enc_entry (e : entry) : list Z :=
  e_name e ++ repeat 0 (NAMELEN - length (e_name e)) ++ enc4 (e_off e) ++ enc4 (e_len e) ++ enc4 (e_raw e).

Record entry_ok (e : entry) : Prop := {
  eo_name : (length (e_name e) <= NAMELEN)%nat /\ 0 ∉ e_name e;
  eo_off : 0 <= e_off e < 2 ^ 31; eo_len : 0 <= e_len e < 2 ^ 31
}.

Lemma toint_enc v s : 0 <= v < 2 ^ 31 -> toint (enc4 v ++ s) = CVal v.
Proof.
  intros Hv. unfold toint, enc4. cbn [app]. set (a := (v / 2 ^ 24) mod 256). set (b := (v / 2 ^ 16) mod 256). set (c := (v / 2 ^ 8) mod 256). set (d := v mod 256).
  change (aget (a :: b :: c :: d :: s) 0) with (CVal a). change (aget (a :: b :: c :: d :: s) 1) with (CVal b).
  change (aget (a :: b :: c :: d :: s) 2) with (CVal c). change (aget (a :: b :: c :: d :: s) 3) with (CVal d). rewrite !bind_val. f_equal.
  assert (0 <= a < 128) as Ha by (subst a; change (2 ^ 24) with 16777216; zdm).
  assert (0 <= b < 256 /\ 0 <= c < 256 /\ 0 <= d < 256) as (Hb & Hc & Hd) by (subst b c d; split_and!; apply Z.mod_pos_bound; lia).
  rewrite !u8_small, s32_small by (rewrite ?Z.shiftl_mul_pow2 by lia; lia).
  replace 24 with (8 + 8 + 8) by done. replace 16 with (8 + 8) by done. rewrite <- !Z.shiftl_shiftl, <- !Z.shiftl_lor by lia. rewrite (lor_low a b 8), (lor_low _ c 8), (lor_low _ d 8) by lia.
  subst a b c d. change (2 ^ 24) with 16777216. change (2 ^ 16) with 65536. change (2 ^ 8) with 256. zdm.
Qed.

Lemma c_string_pad s k : 0 ∉ s -> c_string (s ++ repeat 0 k ++ [0]) = s.
Proof.
  intros Hs. induction s as [|c s IH]; [by destruct k|]. cbn [app c_string]. apply not_elem_of_cons in Hs as [Hc Hs].
  rewrite (proj2 (Z.eqb_neq c 0)) by congruence. by rewrite IH.
Qed.

(** The first record with the name is found. *)
Lemma index_finds fuel es e rest : (length es < fuel)%nat -> (forall x, x ∈ es -> entry_ok x /\ e_name x <> e_name e) -> entry_ok e ->
  index_loop fuel (enc_all enc_entry (es ++ [e]) ++ rest) (e_name e) = CVal (Some (e_off e, e_len e)).
Proof.
  revert fuel. assert (forall x s, entry_ok x -> let buf := take READLEN (enc_entry x ++ s) in
    length buf = READLEN /\ c_string (take NAMELEN buf ++ [0]) = e_name x /\ drop READLEN (enc_entry x ++ s) = s /\
    toint (drop NAMELEN buf) = CVal (e_off x) /\ toint (drop (NAMELEN + INTLEN) buf) = CVal (e_len x)) as Hrec.
  { intros x s [[Hn H0] Ho Hl]. set (name := e_name x ++ repeat 0 (NAMELEN - length (e_name x))).
    assert (length name = NAMELEN) as Hlen by (subst name; rewrite length_app, repeat_length; lia).
    assert (enc_entry x = name ++ enc4 (e_off x) ++ enc4 (e_len x) ++ enc4 (e_raw x)) as E by (unfold enc_entry, name; by rewrite <- app_assoc).
    assert (length (enc_entry x) = READLEN) as HE by (rewrite E, !length_app, Hlen; done). cbv zeta. rewrite (take_app_length' _ _ READLEN) by done.
    split; [done|]. split; [|split; [by rewrite drop_app_length'|rewrite E; split]].
    - rewrite E, take_app_length' by done. subst name. rewrite <- app_assoc. by apply c_string_pad.
    - rewrite drop_app_length' by done. by apply toint_enc.
    - rewrite app_assoc, drop_app_length' by (rewrite length_app, Hlen; done). by apply toint_enc. }
  induction es as [|x es IH]; intros [|fuel] Hf Hes He; try (cbn in Hf; lia); cbn [app enc_all foldr index_loop].
  - rewrite <- app_assoc. destruct (Hrec e ([] ++ rest) He) as (-> & -> & _ & -> & ->). rewrite bool_decide_true by done. reflexivity.
  - destruct (Hes x (list_elem_of_here _ _)) as [Hx Hne]. rewrite <- app_assoc. destruct (Hrec x (foldr (fun a s => enc_entry a ++ s) [] (es ++ [e]) ++ rest) Hx) as (-> & -> & -> & _).
    rewrite bool_decide_false by done. apply IH; [cbn in Hf; lia| |done]. intros y Hy. apply Hes. by right.
Qed.

(** The index is read to its end at most. *)
Lemma index_loop_total fuel idx name : (length idx < fuel)%nat -> exists r, index_loop fuel idx name = CVal r.
Proof.
  revert idx. induction fuel as [|fuel IH]; intros idx Hf; [lia|]. cbn [index_loop]. destruct (Nat.eqb_spec (length (take READLEN idx)) READLEN) as [E|]; [|by exists None].
  cbn [negb]. rewrite length_take in E. assert (READLEN = 52%nat) as HR by done. case_bool_decide.
  - assert (forall s, (4 <= length s)%nat -> exists v, toint s = CVal v) as Ht by (intros [|a [|b [|c [|d s]]]] Hs; try (cbn in Hs; lia); by eexists).
    destruct (Ht (drop NAMELEN (take READLEN idx))) as [off ->]; [rewrite length_drop, length_take; unfold NAMELEN; lia|].
    destruct (Ht (drop (NAMELEN + INTLEN) (take READLEN idx))) as [toread ->]; [rewrite length_drop, length_take; unfold NAMELEN, INTLEN; lia|]. by eexists.
  - apply IH. rewrite length_drop. lia.
Qed.

Lemma entries_length es : (length es <= length (enc_all enc_entry es))%nat.
Proof.
  induction es as [|e es IH]; [done|]. cbn [enc_all foldr length]. rewrite length_app. fold (enc_all enc_entry es).
  assert (1 <= length (enc_entry e))%nat by (unfold enc_entry; rewrite !length_app; cbn; lia). lia.
Qed.

(** A zone without a file of its own, with a name of the index, is the part of the data file
    that the first record of the name gives, if it fits in u.buf. *)
Lemma read_zone_index fs es e es' dat path : zone_path (e_name e) = Some (path, false) -> fs path = None ->
  fs INDEXFILE = Some (enc_all enc_entry (es ++ [e]) ++ es') -> fs DATAFILE = Some dat ->
  (forall x, x ∈ es -> entry_ok x /\ e_name x <> e_name e) -> entry_ok e -> e_len e <= Z.of_nat buf_size ->
  read_zone fs (e_name e) = CVal (Some (take (Z.to_nat (e_len e)) (drop (Z.to_nat (e_off e)) dat))).
Proof.
  intros Hp Hf Hi Hd Hes He Hl. unfold read_zone. rewrite Hp, Hf, Hi, Hd, index_finds; [|rewrite length_app; pose proof (entries_length (es ++ [e])) as HL; rewrite length_app in HL; cbn in HL; lia|done|done].
  rewrite bind_val. destruct He as [_ Ho Hlen]. zif. unfold read_buf. zif. destruct (Nat.ltb_spec buf_size (length (take (Z.to_nat (e_len e)) (drop (Z.to_nat (e_off e)) dat)))) as [H|]; [|done].
  rewrite length_take in H. lia.
Qed.

(** So a zone that is stored in the data file is loaded from there. *)
Theorem tzload_from_index m fs es e es' before after sp path doextend ts0 defrules : readable m -> storable sp ->
  zone_path (e_name e) = Some (path, false) -> fs path = None -> fs INDEXFILE = Some (enc_all enc_entry (es ++ [e]) ++ es') -> fs DATAFILE = Some (before ++ encode sp ++ after) ->
  (forall x, x ∈ es -> entry_ok x /\ e_name x <> e_name e) -> entry_ok e -> e_off e = Z.of_nat (length before) -> e_len e = Z.of_nat (length (encode sp)) -> e_len e <= Z.of_nat buf_size ->
  (file ← read_zone fs (e_name e); tzload m file doextend ts0 defrules) = CVal (Some sp).
Proof.
  intros Hm Hsp Hp Hf Hi Hd Hes He Ho Hl Hb. rewrite (read_zone_index fs es e es' _ path Hp Hf Hi Hd Hes He Hb), bind_val, Ho, Hl, !Nat2Z.id.
  rewrite drop_app_length, take_app_length. by apply tzload_encode.
Qed.

(** ** What goes wrong *)

(** The size in the index is not compared with that of u.buf. *)
Lemma index_overruns dat : (buf_size < length dat)%nat -> read_buf dat (Z.of_nat (length dat)) = CUndef.
Proof. intros H. unfold read_buf. zif. rewrite Nat2Z.id, firstn_all. by apply Nat.ltb_lt in H as ->. Qed.

(** A name with a colon is opened without it, but looked up in the index with it. *)
Lemma colon_not_found : zone_path [0x3a; 0x41] = zone_path [0x41] /\
  index_loop 2 (enc_entry (mkEntry [0x41] 0 5 0)) [0x41] = CVal (Some (0, 5)) /\ index_loop 2 (enc_entry (mkEntry [0x41] 0 5 0)) [0x3a; 0x41] = CVal None.
Proof. repeat split; reflexivity. Qed.
