(* ===== verification/TzSet.v ===== *)
(** * The zone of the process (libc/tzcode/localtime.c, tzset)

    tzset takes a zone name from the environment or from a system property, unless it has it
    already, and loads the file of the zone or reads the name as a zone string; when neither is
    possible the zone is GMT.  The files are an argument: what read_zone ([TzIndex]) reads under a name.  What the
    struct state on the stack of tzload holds before it is set is an argument too, and what the
    memory holds that tzload reads without having set it, at each of its calls. *)

From Stdlib Require Import ZArith Lia.
From stdpp Require Import base list numbers option.
From S2P Require Import Prelude Time64 Tz TzRule TzSafe TzFile.

Open Scope Z_scope.









(** The calls of tzload in tzset: of a zone, and of the default rules in tzparse, for the footer
    of a zone or for a zone string; [last] is true in gmtload, which comes after the others. *)
Inductive call := LoadZone (name : list Z) (last : bool) | FooterRules (name : list Z) (last : bool) | StringRules (name : list Z) (last : bool).

Section Files.
Context (files : list Z -> option (list Z)) (ts0 : state) (mem : call -> memory).







End Files.

(** ** The zone is in order *)








Section Ready.
Context (files : list Z -> option (list Z)) (ts0 : state) (mem : call -> memory) (Hmem : forall c, readable (mem c)).











End Ready.




