(* ===== verification/Stdio.v ===== *)
(** * Streams: the structures and shared routines of libc/stdio

    A FILE has a buffer of its own (_bf), a buffer for characters that are pushed back (the
    _ub of its extension), and a pointer into one of them.  Files are open on descriptors:
    read, write, lseek, fstat, isatty and malloc are operations of a [Device], and its
    laws are [DeviceLaws], which the theorems on streams use.  This file has the
    operations on the descriptor, the allocation of buffers and flushing. *)

From Stdlib Require Import ZArith Lia.
From stdpp Require Import base list numbers.
From S2P Require Import Prelude Bytes.

Open Scope Z_scope.

Definition EOF : Z := -1.
Definition BUFSIZ : Z := 1024.
Definition SEEK_SET : Z := 0.
Definition SEEK_CUR : Z := 1.
Definition SEEK_END : Z := 2.

Definition __SLBF : Z := 0x0001.
Definition __SNBF : Z := 0x0002.
Definition __SRD : Z := 0x0004.
Definition __SWR : Z := 0x0008.
Definition __SRW : Z := 0x0010.
Definition __SEOF : Z := 0x0020.
Definition __SERR : Z := 0x0040.
Definition __SMBF : Z := 0x0080.
Definition __SAPP : Z := 0x0100.
Definition __SSTR : Z := 0x0200.
Definition __SOPT : Z := 0x0400.
Definition __SNPT : Z := 0x0800.
Definition __SOFF : Z := 0x1000.
Definition __SMOD : Z := 0x2000.
Definition __SALC : Z := 0x4000.

(** ** The device *)

Record stat_t := mkStat { st_chr : bool; st_reg : bool; st_blksize : Z; st_size : Z }.

(** read gives a result and the bytes; malloc the memory with what is in it, or NULL. *)
Class Device (D : Type) := {
  d_read : D -> Z -> Z -> D * (Z * list Z);
  d_write : D -> Z -> list Z -> D * Z;
  d_lseek : D -> Z -> Z -> Z -> D * Z;
  d_fstat : D -> Z -> option stat_t;
  d_isatty : D -> Z -> bool;
  d_malloc : D -> Z -> D * option (list Z)
}.

(** What a device promises: [d_in] are the bytes that can still be read from a descriptor
    and [d_out] those that were written to it.  A read may be short, and reads nothing only
    at the end; a write may be short; both may fail. *)
Class DeviceLaws (D : Type) `{Device D} := {
  d_in : D -> Z -> list Z;
  d_out : D -> Z -> list Z;
  read_law d fd n d' r l : d_read d fd n = (d', (r, l)) ->
    (forall fd', d_out d' fd' = d_out d fd') /\ (forall fd', fd' <> fd -> d_in d' fd' = d_in d fd') /\
    (r < 0 /\ d_in d' fd = d_in d fd \/
     r = Z.of_nat (length l) /\ r <= n /\ d_in d fd = l ++ d_in d' fd /\ (r = 0 -> 0 < n -> d_in d fd = []));
  write_law d fd l d' t : d_write d fd l = (d', t) ->
    (forall fd', fd' <> fd -> d_in d' fd' = d_in d fd' /\ d_out d' fd' = d_out d fd') /\
    t <= Z.of_nat (length l) /\ d_out d' fd = d_out d fd ++ take (Z.to_nat t) l;
  lseek_law d fd off whence d' t : d_lseek d fd off whence = (d', t) ->
    (forall fd', d_out d' fd' = d_out d fd') /\ (forall fd', fd' <> fd -> d_in d' fd' = d_in d fd');
  fstat_law d fd st : d_fstat d fd = Some st -> 0 <= st_blksize st;
  malloc_law d n d' m : d_malloc d n = (d', m) ->
    (forall fd, d_in d' fd = d_in d fd /\ d_out d' fd = d_out d fd) /\ match m with Some l => Z.of_nat (length l) = n | None => True end
}.

(** ** FILE *)

(** A pointer into _bf or into _ub. *)
Inductive ptr : Type := PNull | PBf (o : Z) | PUb (o : Z).

(** The bytes of _bf and _lb are their buffers, whose sizes are their lengths; _ub says
    whether its buffer is _ubuf; _nbuf is the byte of an unbuffered file. *)
Record FILE := mkFILE {
  _p : ptr; _r : Z; _w : Z; _flags : Z; _file : Z; _bf : option (list Z); _lbfsize : Z;
  _ub : option (bool * list Z); _up : ptr; _ur : Z; _lb : option (list Z); _blksize : Z; _offset : Z; _nbuf : Z }.

Definition with_p fp v := mkFILE v (_r fp) (_w fp) (_flags fp) (_file fp) (_bf fp) (_lbfsize fp) (_ub fp) (_up fp) (_ur fp) (_lb fp) (_blksize fp) (_offset fp) (_nbuf fp).
Definition with_r fp v := mkFILE (_p fp) v (_w fp) (_flags fp) (_file fp) (_bf fp) (_lbfsize fp) (_ub fp) (_up fp) (_ur fp) (_lb fp) (_blksize fp) (_offset fp) (_nbuf fp).
Definition with_w fp v := mkFILE (_p fp) (_r fp) v (_flags fp) (_file fp) (_bf fp) (_lbfsize fp) (_ub fp) (_up fp) (_ur fp) (_lb fp) (_blksize fp) (_offset fp) (_nbuf fp).
Definition with_flags fp v := mkFILE (_p fp) (_r fp) (_w fp) v (_file fp) (_bf fp) (_lbfsize fp) (_ub fp) (_up fp) (_ur fp) (_lb fp) (_blksize fp) (_offset fp) (_nbuf fp).
Definition with_bf fp v := mkFILE (_p fp) (_r fp) (_w fp) (_flags fp) (_file fp) v (_lbfsize fp) (_ub fp) (_up fp) (_ur fp) (_lb fp) (_blksize fp) (_offset fp) (_nbuf fp).
Definition with_lbfsize fp v := mkFILE (_p fp) (_r fp) (_w fp) (_flags fp) (_file fp) (_bf fp) v (_ub fp) (_up fp) (_ur fp) (_lb fp) (_blksize fp) (_offset fp) (_nbuf fp).
Definition with_ub fp v := mkFILE (_p fp) (_r fp) (_w fp) (_flags fp) (_file fp) (_bf fp) (_lbfsize fp) v (_up fp) (_ur fp) (_lb fp) (_blksize fp) (_offset fp) (_nbuf fp).
Definition with_up fp p r := mkFILE (_p fp) (_r fp) (_w fp) (_flags fp) (_file fp) (_bf fp) (_lbfsize fp) (_ub fp) p r (_lb fp) (_blksize fp) (_offset fp) (_nbuf fp).
Definition with_lb fp v := mkFILE (_p fp) (_r fp) (_w fp) (_flags fp) (_file fp) (_bf fp) (_lbfsize fp) (_ub fp) (_up fp) (_ur fp) v (_blksize fp) (_offset fp) (_nbuf fp).
Definition with_blksize fp v := mkFILE (_p fp) (_r fp) (_w fp) (_flags fp) (_file fp) (_bf fp) (_lbfsize fp) (_ub fp) (_up fp) (_ur fp) (_lb fp) v (_offset fp) (_nbuf fp).
Definition with_offset fp v := mkFILE (_p fp) (_r fp) (_w fp) (_flags fp) (_file fp) (_bf fp) (_lbfsize fp) (_ub fp) (_up fp) (_ur fp) (_lb fp) (_blksize fp) v (_nbuf fp).

(** _flags & mask, as a truth value; setting and clearing. *)
Definition has (flags mask : Z) : bool := negb (Z.land flags mask =? 0).
Definition flag (fp : FILE) (mask : Z) : bool := has (_flags fp) mask.
Definition set_flag (fp : FILE) (mask : Z) : FILE := with_flags fp (Z.lor (_flags fp) mask).
Definition clear_flag (fp : FILE) (mask : Z) : FILE := with_flags fp (Z.ldiff (_flags fp) mask).

(** The size of a buffer, memory that is read and written through a pointer. *)
Definition bf_size (fp : FILE) : Z := match _bf fp with Some b => Z.of_nat (length b) | None => 0 end.
Definition store_at (l : list Z) (o : Z) (bytes : list Z) : cres (list Z) :=
  if (0 <=? o) && (o + Z.of_nat (length bytes) <=? Z.of_nat (length l))
  then CVal (take (Z.to_nat o) l ++ bytes ++ drop (Z.to_nat o + length bytes) l) else CUndef.
Definition load_p (fp : FILE) (p : ptr) (n : Z) : cres (list Z) :=
  if n =? 0 then CVal []
  else match p, _bf fp, _ub fp with
       | PBf o, Some b, _ => aslice b o n
       | PUb o, _, Some u => aslice u.2 o n
       | _, _, _ => CUndef
       end.
Definition store_p (fp : FILE) (p : ptr) (bytes : list Z) : cres FILE :=
  match p, _bf fp, _ub fp with
  | PBf o, Some b, _ => b ← store_at b o bytes; CVal (with_bf fp (Some b))
  | PUb o, _, Some u => l ← store_at u.2 o bytes; CVal (with_ub fp (Some (u.1, l)))
  | _, _, _ => CUndef
  end.
Definition padd (p : ptr) (k : Z) : ptr := match p with PNull => PNull | PBf o => PBf (o + k) | PUb o => PUb (o + k) end.

(** _p - _bf._base *)
Definition bf_offset (fp : FILE) (p : ptr) : cres Z :=
  match p, _bf fp with PBf o, Some _ => CVal o | _, _ => CUndef end.

(** HASUB and FREEUB. *)
Definition HASUB (fp : FILE) : bool := match _ub fp with Some _ => true | None => false end.
Definition FREEUB (fp : FILE) : FILE := with_ub fp None.

Section stdio.
Context {D : Type} `{!Device D}.

(** ** The operations of a file *)

Definition __sread (fp : FILE) (n : Z) (d : D) : FILE * D * (Z * list Z) :=
  let '(d, (ret, buf)) := d_read d (_file fp) n in
  (if 0 <=? ret then with_offset fp (_offset fp + ret) else clear_flag fp __SOFF, d, (ret, buf)).

Definition __swrite (fp : FILE) (buf : list Z) (d : D) : FILE * D * Z :=
  let d := if flag fp __SAPP then fst (d_lseek d (_file fp) 0 SEEK_END) else d in
  let fp := clear_flag fp __SOFF in
  let '(d, t) := d_write d (_file fp) buf in
  (fp, d, t).

Definition __sseek (fp : FILE) (offset whence : Z) (d : D) : FILE * D * Z :=
  let '(d, ret) := d_lseek d (_file fp) offset whence in
  (if ret =? -1 then clear_flag fp __SOFF else with_offset (set_flag fp __SOFF) ret, d, ret).

(** ** Flushing *)

Fixpoint sflush_loop (fuel : nat) (fp : FILE) (d : D) (p : list Z) : cres (Z * FILE * D) :=
  match fuel with
  | O => CFuel
  | S f =>
      if Z.of_nat (length p) <=? 0 then CVal (0, fp, d)
      else
        let '(fp, d, t) := __swrite fp p d in
        if t <=? 0 then CVal (EOF, set_flag fp __SERR, d) else sflush_loop f fp d (drop (Z.to_nat t) p)
  end.

Definition __sflush (fp : FILE) (d : D) : cres (Z * FILE * D) :=
  if negb (flag fp __SWR) then CVal (0, fp, d)
  else match _bf fp with
       | None => CVal (0, fp, d)
       | Some b =>
           n ← bf_offset fp (_p fp);
           bytes ← aslice b 0 n;
           let fp := with_w (with_p fp (PBf 0)) (if flag fp (Z.lor __SLBF __SNBF) then 0 else bf_size fp) in
           sflush_loop (S (length bytes)) fp d bytes
       end.

Definition fflush (fp : FILE) (d : D) : cres (Z * FILE * D) :=
  if negb (flag fp (Z.lor __SWR __SRW)) then CVal (EOF, fp, d) else __sflush fp d.

(** _fwalk (lflush): the streams that are line buffered and written. *)
Definition lflush (fp : FILE) (d : D) : cres (Z * FILE * D) :=
  if Z.land (_flags fp) (Z.lor __SLBF __SWR) =? Z.lor __SLBF __SWR then __sflush fp d else CVal (0, fp, d).

Fixpoint _fwalk (files : list FILE) (d : D) : cres (list FILE * D) :=
  match files with
  | [] => CVal ([], d)
  | fp :: files =>
      r ← (if _flags fp =? 0 then CVal (0, fp, d) else lflush fp d);
      let '(_, fp, d) := r in
      r ← _fwalk files d; CVal (fp :: r.1, r.2)
  end.

(** ** Buffers *)

(** __swhatbuf: the flags, the size and whether it could be a terminal. *)
Definition __swhatbuf (fp : FILE) (d : D) : FILE * (Z * Z * bool) :=
  match (if _file fp <? 0 then None else d_fstat d (_file fp)) with
  | None => (fp, (__SNPT, BUFSIZ, false))
  | Some st =>
      if st_blksize st =? 0 then (fp, (__SNPT, BUFSIZ, st_chr st))
      else (with_blksize fp (st_blksize st), (if st_reg st then __SOPT else __SNPT, st_blksize st, st_chr st))
  end.

(** The byte of an unbuffered file as its buffer. *)
Definition unbuffered (fp : FILE) : FILE := with_bf (with_p fp (PBf 0)) (Some [_nbuf fp]).

Definition __smakebuf (fp : FILE) (d : D) : FILE * D :=
  if flag fp __SNBF then (unbuffered fp, d)
  else
    let '(fp, (flags, size, couldbetty)) := __swhatbuf fp d in
    let '(d, p) := d_malloc d size in
    match p with
    | None => (unbuffered (set_flag fp __SNBF), d)
    | Some p =>
        let flags := Z.lor flags __SMBF in
        let fp := with_bf (with_p fp (PBf 0)) (Some p) in
        let flags := if couldbetty && d_isatty d (_file fp) then Z.lor flags __SLBF else flags in
        (set_flag fp flags, d)
    end.

(** __swsetup: 0 when the stream may be written. *)
Definition __swsetup (fp : FILE) (d : D) : Z * FILE * D :=
  let start :=
    if negb (flag fp __SWR) then
      if negb (flag fp __SRW) then None
      else
        let fp :=
          if flag fp __SRD then
            let fp := if HASUB fp then FREEUB fp else fp in
            with_p (with_r (clear_flag fp (Z.lor __SRD __SEOF)) 0) (match _bf fp with Some _ => PBf 0 | None => PNull end)
          else fp in
        Some (set_flag fp __SWR)
    else Some fp in
  match start with
  | None => (EOF, fp, d)
  | Some fp =>
      let made :=
        match _bf fp with
        | Some _ => Some (fp, d)
        | None => if flag fp __SSTR && negb (flag fp __SALC) then None else Some (__smakebuf fp d)
        end in
      match made with
      | None => (EOF, fp, d)
      | Some (fp, d) =>
          (0, (if flag fp __SLBF then with_lbfsize (with_w fp 0) (- bf_size fp)
               else with_w fp (if flag fp __SNBF then 0 else bf_size fp)), d)
      end
  end.

Definition cantwrite (fp : FILE) (d : D) : bool * FILE * D :=
  if negb (flag fp __SWR) || (match _bf fp with None => true | Some _ => false end)
  then let '(r, fp, d) := __swsetup fp d in (negb (r =? 0), fp, d)
  else (false, fp, d).
End stdio.

(** ** Flags *)

Lemma has_lor f a m : has (Z.lor f a) m = has f m || has a m.
Proof.
  unfold has. rewrite Z.land_lor_distr_l, <- negb_andb. f_equal.
  apply Bool.eq_iff_eq_true. rewrite andb_true_iff, !Z.eqb_eq. apply Z.lor_eq_0_iff.
Qed.

Lemma has_ldiff f a m : has (Z.ldiff f a) m = has f (Z.ldiff m a).
Proof. unfold has. by rewrite !Z.ldiff_land, <- Z.land_assoc, (Z.land_comm m). Qed.

Lemma has_or f a b : has f (Z.lor a b) = has f a || has f b.
Proof. unfold has. rewrite Z.land_comm, Z.land_lor_distr_l, <- negb_andb, (Z.land_comm a), (Z.land_comm b). f_equal.
  apply Bool.eq_iff_eq_true. rewrite andb_true_iff, !Z.eqb_eq. apply Z.lor_eq_0_iff.
Qed.

Lemma has_0 f : has f 0 = false.
Proof. unfold has. by rewrite Z.land_0_r. Qed.

(** Both of two flags. *)
Lemma has_both f a b : Z.land f (Z.lor a b) =? Z.lor a b = true -> a <> 0 -> has f a = true.
Proof.
  intros Hf%Z.eqb_eq Ha. unfold has. apply negb_true_iff, Z.eqb_neq. intros H0. apply Ha.
  rewrite <- (Z.land_diag a). apply Z.bits_inj'. intros i Hi. rewrite Z.bits_0.
  apply (f_equal (fun z => Z.testbit z i)) in Hf, H0. revert Hf H0.
  rewrite !Z.land_spec, Z.lor_spec, Z.bits_0. destruct (Z.testbit a i), (Z.testbit f i); cbn; done || (destruct (Z.testbit b i); done).
Qed.

(** What flags of an updated file are: the updates are pushed to the flags of the first
    file, and masks that are constants computed. *)
Ltac flag_consts :=
  cbv [flag set_flag clear_flag __SLBF __SNBF __SRD __SWR __SRW __SEOF __SERR __SMBF __SAPP __SSTR __SOPT __SNPT __SOFF __SMOD __SALC] in *;
  cbn [_flags with_p with_r with_w with_flags with_bf with_lbfsize with_ub with_up with_lb with_blksize with_offset unbuffered FREEUB] in *.
Ltac masks :=
  repeat (rewrite ?has_lor, ?has_ldiff, ?has_or, ?has_0;
    repeat match goal with
    | |- context [Z.ldiff (Zpos ?a) (Zpos ?b)] => let v := eval vm_compute in (Z.ldiff (Zpos a) (Zpos b)) in change (Z.ldiff (Zpos a) (Zpos b)) with v
    | |- context [Z.lor (Zpos ?a) (Zpos ?b)] => let v := eval vm_compute in (Z.lor (Zpos a) (Zpos b)) in change (Z.lor (Zpos a) (Zpos b)) with v
    | |- context [has (Zpos ?a) (Zpos ?b)] => let v := eval vm_compute in (has (Zpos a) (Zpos b)) in change (has (Zpos a) (Zpos b)) with v
    end; rewrite ?orb_true_r, ?orb_false_r; cbn [orb andb negb]).

(** Two files that differ in flags of a mask only. *)
Definition flags_but (m : Z) (fp fp' : FILE) : Prop := forall k, Z.land k m = 0 -> flag fp' k = flag fp k.

Lemma flags_but_set m fp fp' : flags_but m fp fp' -> forall a, Z.ldiff a m = 0 -> flags_but m fp (set_flag fp' a).
Proof.
  intros Hf a Ha k Hk. specialize (Hf k Hk). unfold flag in *. cbn. rewrite has_lor, Hf. unfold has at 2.
  replace (Z.land a k) with 0; [by rewrite orb_false_r|]. apply Z.bits_inj'. intros i Hi.
  apply (f_equal (fun z => Z.testbit z i)) in Ha, Hk. revert Ha Hk. rewrite Z.ldiff_spec, !Z.land_spec, Z.bits_0.
  by destruct (Z.testbit a i), (Z.testbit k i), (Z.testbit m i).
Qed.

Lemma flags_but_clear m fp fp' : flags_but m fp fp' -> forall a, Z.ldiff a m = 0 -> flags_but m fp (clear_flag fp' a).
Proof.
  intros Hf a Ha k Hk. specialize (Hf k Hk). unfold flag in *. cbn. rewrite has_ldiff, <- Hf. f_equal. apply Z.bits_inj'. intros i Hi.
  apply (f_equal (fun z => Z.testbit z i)) in Ha, Hk. revert Ha Hk. rewrite !Z.ldiff_spec, !Z.land_spec, Z.bits_0.
  by destruct (Z.testbit a i), (Z.testbit k i), (Z.testbit m i).
Qed.

Lemma with_flags_id fp : with_flags fp (_flags fp) = fp.
Proof. by destruct fp. Qed.

(** ** What flushing writes *)

(** The bytes of a written stream that wait in its buffer. *)
Definition buffered_out (fp : FILE) : list Z :=
  match _bf fp, _p fp with Some b, PBf o => take (Z.to_nat o) b | _, _ => [] end.
Definition unwritten (fp : FILE) : list Z := if flag fp __SWR then buffered_out fp else [].

(** The pointer of a written stream is in its buffer. *)
Definition flush_ok (fp : FILE) : Prop :=
  match _bf fp with Some b => exists o, _p fp = PBf o /\ 0 <= o <= Z.of_nat (length b) | None => True end.

Section laws.
Context {D : Type} `{L : DeviceLaws D}.

(** A descriptor is not touched. *)
Definition same_fd (fd : Z) (d d' : D) : Prop := d_in d' fd = d_in d fd /\ d_out d' fd = d_out d fd.

Lemma same_fd_trans fd d1 d2 d3 : same_fd fd d1 d2 -> same_fd fd d2 d3 -> same_fd fd d1 d3.
Proof. intros [H1 H2] [H3 H4]. split; congruence. Qed.

(** What an attempt to write [l] did: all was written, or a part of it and the error is known. *)
Definition wrote (fd : Z) (l : list Z) (d d' : D) (r : Z) (err : bool) : Prop :=
  (forall fd', fd' <> fd -> same_fd fd' d d') /\
  (r = 0 /\ d_out d' fd = d_out d fd ++ l \/ r = EOF /\ err = true /\ exists q, q `prefix_of` l /\ d_out d' fd = d_out d fd ++ q).

Lemma swrite_spec fp buf d : exists fp' d' t,
  __swrite fp buf d = (fp', d', t) /\ fp' = clear_flag fp __SOFF /\ (forall fd, fd <> _file fp -> same_fd fd d d') /\
  t <= Z.of_nat (length buf) /\ d_out d' (_file fp) = d_out d (_file fp) ++ take (Z.to_nat t) buf.
Proof.
  unfold __swrite. set (d0 := if flag fp __SAPP then _ else d).
  assert ((forall fd, fd <> _file fp -> same_fd fd d d0) /\ d_out d0 (_file fp) = d_out d (_file fp)) as [H0 H0'].
  { subst d0. destruct (flag fp __SAPP); [|done]. destruct (d_lseek d _ _ _) as [d1 t] eqn:E. cbn.
    apply lseek_law in E as [E1 E2]. split; [|apply E1]. intros fd Hfd. split; [by apply E2|apply E1]. }
  cbn [_file clear_flag with_flags]. destruct (d_write d0 _ buf) as [d' t] eqn:E. apply write_law in E as (Hother & Ht & Hout).
  eexists _, d', t. split_and!; [done|done| |done|by rewrite Hout, H0'].
  intros fd Hfd. apply (same_fd_trans _ _ d0); [by apply H0|by apply Hother].
Qed.

Lemma sflush_loop_spec fuel fp d p : (length p < fuel)%nat -> exists r fp' d',
  sflush_loop fuel fp d p = CVal (r, fp', d') /\ fp' = with_flags fp (_flags fp') /\ flags_but (Z.lor __SOFF __SERR) fp fp' /\
  wrote (_file fp) p d d' r (flag fp' __SERR) /\ (r = 0 -> flag fp' __SERR = flag fp __SERR).
Proof.
  revert fp d p. induction fuel as [|fuel IH]; intros fp d p Hf; [lia|]. cbn [sflush_loop]. destruct p as [|x p].
  { exists 0, fp, d. rewrite with_flags_id. split_and!; try done. split; [done|]. left. by rewrite app_nil_r. }
  rewrite (proj2 (Z.leb_gt _ _)) by (cbn [length]; lia).
  destruct (swrite_spec fp (x :: p) d) as (fp1 & d1 & t & -> & -> & Hother & Ht & Hout).
  assert (flags_but (Z.lor __SOFF __SERR) fp (clear_flag fp __SOFF)) as Hfl by by apply flags_but_clear.
  destruct (Z.leb_spec t 0) as [Ht0|Ht0].
  - exists EOF, (set_flag (clear_flag fp __SOFF) __SERR), d1. split_and!; try done; [by apply flags_but_set|].
    split; [done|]. right. split_and!; [done|by flag_consts; masks|]. exists []. split; [apply prefix_nil|].
    rewrite Hout. by replace (Z.to_nat t) with O by lia.
  - destruct (IH (clear_flag fp __SOFF) d1 (drop (Z.to_nat t) (x :: p))) as (r & fp2 & d2 & -> & E & Hfl2 & [Ho2 Hw2] & Hs); [rewrite length_drop; cbn [length] in *; lia|].
    exists r, fp2, d2. split_and!; [done|by rewrite E|by intros k Hk; rewrite (Hfl2 k Hk); apply Hfl| |by intros ->; rewrite (Hs eq_refl); flag_consts; masks].
    cbn [_file clear_flag with_flags] in *.
    split; [by intros fd Hfd; apply (same_fd_trans _ _ d1); [apply Hother|apply Ho2]|].
    rewrite <- (take_drop (Z.to_nat t) (x :: p)). destruct Hw2 as [[-> Hw]|(-> & He & q & Hq & Hw)].
    + left. split; [done|]. by rewrite Hw, Hout, app_assoc.
    + right. split_and!; [done|done|]. exists (take (Z.to_nat t) (x :: p) ++ q).
      split; [by apply prefix_app|by rewrite Hw, Hout, app_assoc].
Qed.

(** A stream that is written is flushed: its buffer is empty, whether or not all was written. *)
Lemma sflush_writes fp d b : flag fp __SWR = true -> _bf fp = Some b -> flush_ok fp -> exists r fp' d',
  __sflush fp d = CVal (r, fp', d') /\
  fp' = with_flags (with_w (with_p fp (PBf 0)) (if flag fp __SLBF || flag fp __SNBF then 0 else bf_size fp)) (_flags fp') /\
  flags_but (Z.lor __SOFF __SERR) fp fp' /\ wrote (_file fp) (unwritten fp) d d' r (flag fp' __SERR) /\
  (r = 0 -> flag fp' __SERR = flag fp __SERR).
Proof.
  intros Hw Hb Hok. unfold __sflush, flush_ok, unwritten, buffered_out in *. rewrite Hw, Hb in *. destruct Hok as (o & Hp & Ho).
  cbn [negb]. unfold bf_offset. rewrite Hp, Hb. cbn [mbind cres_bind]. unfold aslice. repeat zif. cbn [mbind cres_bind].
  replace (slice (Z.to_nat 0) (Z.to_nat o) b) with (take (Z.to_nat o) b) by done.
  assert (flag fp (Z.lor __SLBF __SNBF) = flag fp __SLBF || flag fp __SNBF) as -> by apply has_or.
  match goal with |- context [sflush_loop _ ?f d ?p] => destruct (sflush_loop_spec (S (length p)) f d p) as (r & fp' & d' & E & Hs) end; [lia|].
  exists r, fp', d'. split; [exact E|]. destruct Hs as (-> & Hfl & Hwr & Herr). split_and!; try done.
Qed.

Lemma sflush_spec fp d : flush_ok fp -> exists r fp' d',
  __sflush fp d = CVal (r, fp', d') /\ flush_ok fp' /\ _file fp' = _file fp /\ flags_but (Z.lor __SOFF __SERR) fp fp' /\
  wrote (_file fp) (unwritten fp) d d' r (flag fp' __SERR) /\ unwritten fp' = [].
Proof.
  intros Hok. destruct (flag fp __SWR) eqn:Hw; [destruct (_bf fp) as [b|] eqn:Hb|].
  - destruct (sflush_writes fp d b Hw Hb Hok) as (r & fp' & d' & E & Hfp & Hfl & Hwr & _). exists r, fp', d'.
    assert (_bf fp' = Some b /\ _p fp' = PBf 0 /\ _file fp' = _file fp) as (Hb' & Hp' & Hf') by by rewrite Hfp.
    unfold flush_ok. rewrite Hb', Hp'. split_and!; try done.
    + exists 0. split; [done|lia].
    + unfold unwritten, buffered_out. rewrite Hb', Hp'. by destruct (flag fp' __SWR).
  - exists 0, fp, d. unfold __sflush, unwritten, buffered_out. rewrite Hw, Hb. split_and!; try done.
    split; [done|]. left. by rewrite app_nil_r.
  - exists 0, fp, d. unfold __sflush, unwritten. rewrite Hw. split_and!; try done. split; [done|]. left. by rewrite app_nil_r.
Qed.

(** The other streams, as the flushing of line buffered ones meets them. *)
Definition other_ok (fd : Z) (f : FILE) : Prop :=
  Z.land (_flags f) (Z.lor __SLBF __SWR) = Z.lor __SLBF __SWR -> flush_ok f /\ _file f <> fd.

Lemma fwalk_spec fd files d : Forall (other_ok fd) files ->
  exists files' d', _fwalk files d = CVal (files', d') /\ Forall (other_ok fd) files' /\ same_fd fd d d'.
Proof.
  revert d. induction files as [|f files IH]; intros d Hok; [by exists [], d|]. inversion Hok as [|? ? Hf Hfs]; subst. cbn [_fwalk].
  assert (exists r f' d1, (if _flags f =? 0 then CVal (0, f, d) else lflush f d) = CVal (r, f', d1) /\ other_ok fd f' /\ same_fd fd d d1) as (r & f' & d1 & -> & Hf' & Hd1).
  { destruct (_flags f =? 0); [by exists 0, f, d|]. unfold lflush.
    destruct (Z.eqb_spec (Z.land (_flags f) (Z.lor __SLBF __SWR)) (Z.lor __SLBF __SWR)) as [Hb|Hb]; [|by exists 0, f, d].
    destruct (Hf Hb) as [Hfl Hne]. destruct (sflush_spec f d Hfl) as (r & f' & d1 & -> & Hfl' & Hfile & _ & [Hoth _] & _).
    exists r, f', d1. split_and!; [done|intros _; by rewrite Hfile|by apply Hoth]. }
  cbn. destruct (IH d1 Hfs) as (files' & d2 & -> & Hfs' & Hd2). cbn. exists (f' :: files'), d2.
  split_and!; [done|by constructor|by apply (same_fd_trans _ _ d1)].
Qed.

(** A buffer is made, though it may be the one byte of an unbuffered stream. *)
Definition buffered (fp : FILE) : Prop :=
  flag fp __SNBF = false /\ (_bf fp <> None \/ forall d n, 0 <= n -> snd (d_malloc d n) <> None).

Lemma swhatbuf_spec fp d : exists fl n tty k,
  __swhatbuf fp d = (with_blksize fp k, (fl, n, tty)) /\ 0 < n /\ (fl = __SNPT \/ fl = __SOPT).
Proof.
  unfold __swhatbuf. destruct (if _file fp <? 0 then None else d_fstat d (_file fp)) as [st|] eqn:E.
  - destruct (_file fp <? 0); [done|]. apply fstat_law in E. destruct (Z.eqb_spec (st_blksize st) 0).
    + exists __SNPT, BUFSIZ, (st_chr st), (_blksize fp). split_and!; [by destruct fp|done|by left].
    + exists (if st_reg st then __SOPT else __SNPT), (st_blksize st), (st_chr st), (st_blksize st).
      split_and!; [done|lia|by destruct (st_reg st); [right|left]].
  - exists __SNPT, BUFSIZ, false, (_blksize fp). split_and!; [by destruct fp|done|by left].
Qed.

Lemma smakebuf_spec fp d : exists fp' d' b k,
  __smakebuf fp d = (fp', d') /\ fp' = with_flags (with_blksize (with_bf (with_p fp (PBf 0)) (Some b)) k) (_flags fp') /\
  b <> [] /\ flags_but (Z.lor __SLBF (Z.lor __SNBF (Z.lor __SMBF (Z.lor __SOPT __SNPT)))) fp fp' /\
  (forall fd, same_fd fd d d') /\ (flag fp __SNBF = false -> (forall d n, 0 <= n -> snd (d_malloc d n) <> None) -> flag fp' __SNBF = false) /\
  (flag fp' __SNBF = true -> length b = 1%nat /\ flag fp' __SLBF = flag fp __SLBF).
Proof.
  unfold __smakebuf. destruct (flag fp __SNBF) eqn:Hn.
  { exists (unbuffered fp), d, [_nbuf fp], (_blksize fp). split_and!; try done; by intros; split. }
  destruct (swhatbuf_spec fp d) as (fl & n & tty & k & -> & Hpos & Hfl). destruct (d_malloc d n) as [d' m] eqn:E.
  pose proof (malloc_law _ _ _ _ E) as [Hd Hm]. destruct m as [b|].
  - eexists _, d', b, k. split; [done|]. split_and!; try done.
    + intros ->. cbn in Hm. lia.
    + apply flags_but_set; [by intros ? ?|]. by destruct Hfl as [-> | ->], (tty && _).
    + intros _ _. destruct (tty && _), Hfl as [-> | ->]; revert Hn; flag_consts; masks; intros ->; done.
    + intros Hx. exfalso. revert Hx. destruct (tty && _), Hfl as [-> | ->]; revert Hn; flag_consts; masks; intros ->; done.
  - exists (unbuffered (set_flag (with_blksize fp k) __SNBF)), d', [_nbuf fp], k. split_and!; try done.
    + by apply flags_but_set.
    + intros _ Ha. by destruct (Ha d n ltac:(lia)); rewrite E.
    + intros _. split; [done|]. flag_consts. by masks.
Qed.

End laws.

(** ** A device: a tape on descriptor 3

    It reads and writes at most three bytes at a time, can not seek, and writing fails when
    it has [t_room] bytes.  Memory is never short. *)

Record tape := mkTape { t_in : list Z; t_out : list Z; t_room : nat }.

Definition tape_chunk (n : nat) : nat := Nat.min 3 n.
Arguments tape_chunk n : simpl never.

#[export] Instance tape_device : Device tape := {
  d_read t fd n :=
    if (fd =? 3) && (0 <=? n) then
      let l := take (tape_chunk (Z.to_nat n)) (t_in t) in
      (mkTape (drop (length l) (t_in t)) (t_out t) (t_room t), (Z.of_nat (length l), l))
    else (t, (-1, []));
  d_write t fd l :=
    if (fd =? 3) && negb (t_room t <=? length (t_out t))%nat then
      let l := take (tape_chunk (t_room t - length (t_out t))) l in
      (mkTape (t_in t) (t_out t ++ l) (t_room t), Z.of_nat (length l))
    else (t, -1);
  d_lseek t _ _ _ := (t, -1);
  d_fstat t _ := Some (mkStat false false 8 0);
  d_isatty t _ := false;
  d_malloc t n := (t, if 0 <=? n then Some (replicate (Z.to_nat n) 0) else None)
}.

Definition tape_in (t : tape) (fd : Z) : list Z := if fd =? 3 then t_in t else [].
Definition tape_out (t : tape) (fd : Z) : list Z := if fd =? 3 then t_out t else [].

Lemma take_length_take (k : nat) (l : list Z) : take (length (take k l)) l = take k l /\ drop (length (take k l)) l = drop k l.
Proof.
  rewrite length_take. destruct (decide (k <= length l)%nat); [by rewrite Nat.min_l by lia|].
  rewrite Nat.min_r, !take_ge, !drop_ge by lia. done.
Qed.

Lemma tape_read_law t fd n t' r l : d_read t fd n = (t', (r, l)) ->
  (forall fd', tape_out t' fd' = tape_out t fd') /\ (forall fd', fd' <> fd -> tape_in t' fd' = tape_in t fd') /\
  (r < 0 /\ tape_in t' fd = tape_in t fd \/
   r = Z.of_nat (length l) /\ r <= n /\ tape_in t fd = l ++ tape_in t' fd /\ (r = 0 -> 0 < n -> tape_in t fd = [])).
Proof.
  unfold tape_in, tape_out. cbn. destruct (Z.eqb_spec fd 3) as [->|Hfd]; cbn [andb].
  - destruct (Z.leb_spec 0 n) as [Hn|Hn]; intros [= <- <- <-]; cbn; [|by split; [|split; [|left]]].
    split; [done|]. split; [intros fd' Hfd'; by rewrite (proj2 (Z.eqb_neq fd' 3))|]. right. split_and!; [done|rewrite length_take; unfold tape_chunk; lia| |].
    + destruct (take_length_take (tape_chunk (Z.to_nat n)) (t_in t)) as [_ ->]. by rewrite take_drop.
    + rewrite length_take. unfold tape_chunk. intros H0 Hn'. destruct (t_in t); [done|]. cbn [length] in H0. lia.
  - intros [= <- <- <-]. split; [done|]. split; [done|]. by left.
Qed.

Lemma tape_write_law t fd l t' r : d_write t fd l = (t', r) ->
  (forall fd', fd' <> fd -> tape_in t' fd' = tape_in t fd' /\ tape_out t' fd' = tape_out t fd') /\
  r <= Z.of_nat (length l) /\ tape_out t' fd = tape_out t fd ++ take (Z.to_nat r) l.
Proof.
  unfold tape_in, tape_out. cbn. destruct (Z.eqb_spec fd 3) as [->|Hfd]; cbn [andb].
  - destruct (t_room t <=? length (t_out t))%nat; cbn [negb]; intros [= <- <-]; cbn.
    + split_and!; [done|lia|]. by rewrite app_nil_r.
    + split; [intros fd' Hfd'; by rewrite (proj2 (Z.eqb_neq fd' 3))|]. rewrite Nat2Z.id.
      split; [rewrite length_take; lia|]. f_equal. symmetry. apply take_length_take.
  - intros [= <- <-]. split_and!; [done|lia|]. done.
Qed.

Lemma tape_malloc_law (t : tape) n t' m : d_malloc t n = (t', m) ->
  (forall fd, tape_in t' fd = tape_in t fd /\ tape_out t' fd = tape_out t fd) /\ match m with Some l => Z.of_nat (length l) = n | None => True end.
Proof.
  cbn. intros [= <- <-]. split; [done|]. destruct (Z.leb_spec 0 n); [|done]. rewrite length_replicate. lia.
Qed.

#[export] Program Instance tape_laws : DeviceLaws tape := {
  d_in := tape_in; d_out := tape_out;
  read_law := tape_read_law; write_law := tape_write_law; malloc_law := tape_malloc_law
}.
Next Obligation. intros t fd off wh t' r [= <- <-]. done. Qed.
Next Obligation. intros t fd st [= <-]. cbn. lia. Qed.
