(* ===== verification/StdioRead.v ===== *)
(** * Streams that are read (libc/stdio/refill.c, rget.c, fread.c, fgets.c, ungetc.c)

    Reading takes the bytes that wait in the buffers of a stream and asks the descriptor for
    more when there are none; a character can be pushed back, in front of what waits.  The
    specification is a list of bytes with an end-of-file and an error indicator: every
    sequence of reads and push-backs refines it, however the device cuts the input. *)

From Stdlib Require Import ZArith Lia.
From stdpp Require Import base list numbers.
From S2P Require Import Prelude Bytes Stdio.

Open Scope Z_scope.

(** The other streams in front of a stream and behind it, as _fwalk meets them, and the device. *)
Record world (D : Type) := mkWorld { w_before : list FILE; w_after : list FILE; w_dev : D }.
Arguments mkWorld {D} _ _ _.
Arguments w_before {D} _.
Arguments w_after {D} _.
Arguments w_dev {D} _.
Definition with_dev {D} (w : world D) (d : D) : world D := mkWorld (w_before w) (w_after w) d.

Section stdio_read.
Context {D : Type} `{!Device D}.

(** _fwalk over all streams, of which fp is one. *)
Definition walk_all (fp : FILE) (w : world D) : cres (FILE * world D) :=
  b ← _fwalk (w_before w) (w_dev w);
  r ← _fwalk [fp] b.2;
  a ← _fwalk (w_after w) r.2;
  CVal (match r.1 with [f] => f | _ => fp end, mkWorld b.1 a.1 a.2).

(** A stream that may be written and read is switched to reading; true when it can not be flushed. *)
Definition to_reading (fp : FILE) (d : D) : cres (bool * FILE * D) :=
  if flag fp __SWR then
    r ← __sflush fp d;
    let '(r, fp, d) := r in
    if negb (r =? 0) then CVal (true, fp, d)
    else CVal (false, set_flag (with_lbfsize (with_w (clear_flag fp __SWR) 0) 0) __SRD, d)
  else CVal (false, set_flag fp __SRD, d).

(** The part of __srefill that reads. *)
Definition srefill_read (fp : FILE) (w : world D) : cres (Z * FILE * world D) :=
  let '(fp, d) := match _bf fp with None => __smakebuf fp (w_dev w) | Some _ => (fp, w_dev w) end in
  r ← (if flag fp (Z.lor __SLBF __SNBF) then walk_all fp (with_dev w d) else CVal (fp, with_dev w d));
  let '(fp, w) := r in
  let fp := with_p fp (PBf 0) in
  let '(fp, d, (ret, bytes)) := __sread fp (bf_size fp) (w_dev w) in
  fp ← (if 0 <? ret then store_p fp (_p fp) bytes else CVal fp);
  let fp := clear_flag (with_r fp ret) __SMOD in
  if ret <=? 0 then
    CVal (EOF, if ret =? 0 then set_flag fp __SEOF else set_flag (with_r fp 0) __SERR, with_dev w d)
  else CVal (0, fp, with_dev w d).

Definition __srefill (fp : FILE) (w : world D) : cres (Z * FILE * world D) :=
  let fp := with_r fp 0 in
  if flag fp __SEOF then CVal (EOF, fp, w)
  else if negb (flag fp __SRD) then
    if negb (flag fp __SRW) then CVal (EOF, set_flag fp __SERR, w)
    else
      r ← to_reading fp (w_dev w);
      let '(failed, fp, d) := r in
      if failed : bool then CVal (EOF, fp, with_dev w d) else srefill_read fp (with_dev w d)
  else if HASUB fp then
    let fp := with_r (FREEUB fp) (_ur fp) in
    if negb (_ur fp =? 0) then CVal (0, with_p fp (_up fp), w) else srefill_read fp w
  else srefill_read fp w.

(** *_p++ *)
Definition next_char (fp : FILE) : cres (Z * FILE) :=
  l ← load_p fp (_p fp) 1; c ← aget l 0; CVal (c, with_p fp (padd (_p fp) 1)).

Definition __srget (fp : FILE) (w : world D) : cres (Z * FILE * world D) :=
  r ← __srefill fp w;
  let '(r, fp, w) := r in
  if r =? 0 then c ← next_char (with_r fp (_r fp - 1)); CVal (c.1, c.2, w) else CVal (EOF, fp, w).

Definition __sgetc (fp : FILE) (w : world D) : cres (Z * FILE * world D) :=
  let fp := with_r fp (_r fp - 1) in
  if _r fp <? 0 then __srget fp w else c ← next_char fp; CVal (c.1, c.2, w).

(** ** fread *)

(** The loop of a buffered stream: the items that were read when input ends, or None. *)
Fixpoint fread_loop (fuel : nat) (fp : FILE) (w : world D) (resid : Z) (p : list Z) : cres (bool * Z * list Z * FILE * world D) :=
  match fuel with
  | O => CFuel
  | S f =>
      let r := _r fp in
      if r <? resid then
        bytes ← load_p fp (_p fp) r;
        let fp := with_p fp (padd (_p fp) r) in
        let p := p ++ bytes in
        let resid := resid - r in
        x ← __srefill fp w;
        let '(r, fp, w) := x in
        if negb (r =? 0) then CVal (true, resid, p, fp, w) else fread_loop f fp w resid p
      else
        bytes ← load_p fp (_p fp) resid;
        CVal (false, 0, p ++ bytes, with_p (with_r fp (r - resid)) (padd (_p fp) resid), w)
  end.

(** The loop of an unbuffered stream, which reads into the caller's memory. *)
Fixpoint uread_loop (fuel : nat) (fp : FILE) (d : D) (resid : Z) (p : list Z) : cres (bool * Z * list Z * FILE * D) :=
  match fuel with
  | O => CFuel
  | S f =>
      if resid <=? 0 then CVal (false, 0, p, fp, d)
      else
        let '(fp, d, (len, bytes)) := __sread fp resid d in
        let fp := clear_flag fp __SMOD in
        if len <=? 0 then CVal (true, resid, p, if len =? 0 then set_flag fp __SEOF else set_flag fp __SERR, d)
        else uread_loop f fp d (resid - len) (p ++ bytes)
  end.

(** The unbuffered reads: fp with _r reset, and the bytes or the error. *)
Definition fread_unbuffered (fp : FILE) (w : world D) (total size count : Z) : cres (Z * list Z * FILE * world D) :=
  let fp := with_r fp 0 in
  let go (fp : FILE) (w : world D) :=
    r ← (if flag fp (Z.lor __SLBF __SNBF) then walk_all fp w else CVal (fp, w));
    let '(fp, w) := r in
    x ← uread_loop (S (Z.to_nat total)) fp (w_dev w) total [];
    let '(short, resid, p, fp, d) := x in
    CVal (if short : bool then (total - resid) / size else count, p, fp, with_dev w d) in
  if flag fp __SEOF then CVal (u32 EOF, [], fp, w)
  else if negb (flag fp __SRD) then
    if negb (flag fp __SRW) then CVal (u32 EOF, [], set_flag fp __SERR, w)
    else
      r ← to_reading fp (w_dev w);
      let '(failed, fp, d) := r in
      if failed : bool then CVal (u32 EOF, [], fp, with_dev w d) else go fp (with_dev w d)
  else go (if HASUB fp then FREEUB fp else fp) w.

(** The items that were read, and the bytes that were stored. *)
Definition fread (size count : Z) (fp : FILE) (w : world D) : cres (Z * list Z * FILE * world D) :=
  let resid := u32 (count * size) in
  if resid =? 0 then CVal (0, [], fp, w)
  else
    let fp := if _r fp <? 0 then with_r fp 0 else fp in
    if flag fp __SNBF && (_ur fp =? 0) then fread_unbuffered fp w resid size count
    else
      x ← fread_loop (S (S (Z.to_nat resid))) fp w resid [];
      let '(short, rem, p, fp, w) := x in
      CVal (if short : bool then (resid - rem) / size else count, p, fp, w).

(** ** fgets *)

(** The bytes that were stored, the NUL with them, or NULL. *)
Fixpoint fgets_loop (fuel : nat) (fp : FILE) (w : world D) (n : Z) (s : list Z) : cres (option (list Z) * FILE * world D) :=
  match fuel with
  | O => CFuel
  | S f =>
      if n =? 0 then CVal (Some (s ++ [0]), fp, w)
      else
        r ← (if _r fp <=? 0 then __srefill fp w else CVal (0, fp, w));
        let '(r, fp, w) := r in
        if negb (r =? 0) then CVal (match s with [] => None | _ => Some (s ++ [0]) end, fp, w)
        else
          let len := if n <? _r fp then n else _r fp in
          p ← load_p fp (_p fp) len;
          match list_find (.= 10) p with
          | Some (i, _) =>
              let len := Z.of_nat i + 1 in
              CVal (Some (s ++ take (S i) p ++ [0]), with_p (with_r fp (_r fp - len)) (padd (_p fp) len), w)
          | None => fgets_loop f (with_p (with_r fp (_r fp - len)) (padd (_p fp) len)) w (n - len) (s ++ p)
          end
  end.

Definition fgets (n : Z) (fp : FILE) (w : world D) : cres (option (list Z) * FILE * world D) :=
  if n <=? 0 then CVal (None, fp, w) else fgets_loop (Z.to_nat n) fp w (n - 1) [].

(** ** ungetc *)

(** The buffer for characters that are pushed back gets larger: what is in it is at its end. *)
Definition __submore (fp : FILE) (d : D) : cres (Z * FILE * D) :=
  match _ub fp with
  | None => CUndef
  | Some (true, ubuf) =>
      let '(d, p) := d_malloc d BUFSIZ in
      match p with
      | None => CVal (EOF, fp, d)
      | Some p =>
          p ← store_at p (BUFSIZ - Z.of_nat (length ubuf)) ubuf;
          CVal (0, with_p (with_ub fp (Some (false, p))) (PUb (BUFSIZ - Z.of_nat (length ubuf))), d)
      end
  | Some (false, u) =>
      let i := Z.of_nat (length u) in
      if INT_MAX <? Z.shiftl i 1 then CUndef
      else
        let '(d, p) := d_malloc d (Z.shiftl i 1) in
        match p with
        | None => CVal (EOF, fp, d)
        | Some p =>
            p ← store_at p 0 u;
            p ← store_at p i u;
            CVal (0, with_p (with_ub fp (Some (false, p))) (PUb i), d)
        end
  end.

(** The reserve of three bytes is written before it is read; it is 0 at first here. *)
Definition new_ubuf (c : Z) : list Z := [0; 0; c].

(** _p[-1] is c; a pointer that is not into _bf (into a push-back buffer that was freed) can
    not be compared with it. *)
Definition backs_up (fp : FILE) (c : Z) : cres bool :=
  match _bf fp, _p fp with
  | None, _ => CVal false
  | Some b, PBf o => if 0 <? o then x ← aget b (o - 1); CVal (x =? c) else CVal false
  | Some _, _ => CUndef
  end.

Definition push_back (c : Z) (fp : FILE) (w : world D) : cres (Z * FILE * world D) :=
  match _ub fp with
  | Some (_, u) =>
      x ← (if Z.of_nat (length u) <=? _r fp then __submore fp (w_dev w) else CVal (0, fp, w_dev w));
      let '(r, fp, d) := x in
      if negb (r =? 0) then CVal (EOF, fp, with_dev w d)
      else
        let fp := with_p fp (padd (_p fp) (-1)) in
        fp ← store_p fp (_p fp) [c];
        CVal (c, with_r fp (_r fp + 1), with_dev w d)
  | None =>
      let fp := clear_flag fp __SEOF in
      back ← backs_up fp c;
      if back : bool then CVal (c, with_r (with_p fp (padd (_p fp) (-1))) (_r fp + 1), w)
      else CVal (c, with_r (with_p (with_ub (with_up fp (_p fp) (_r fp)) (Some (true, new_ubuf c))) (PUb 2)) 1, w)
  end.

Definition ungetc (c : Z) (fp : FILE) (w : world D) : cres (Z * FILE * world D) :=
  if c =? EOF then CVal (EOF, fp, w)
  else if negb (flag fp __SRD) then
    if negb (flag fp __SRW) then CVal (EOF, fp, w)
    else
      r ← to_reading fp (w_dev w);
      let '(failed, fp, d) := r in
      if failed : bool then CVal (EOF, fp, with_dev w d) else push_back (u8 c) fp (with_dev w d)
  else push_back (u8 c) fp w.

(** ** The specification: the bytes that are left, and the indicators *)

Record input := mkInput { i_rest : list Z; i_eof : bool; i_err : bool }.

(** The input ended: at the end of the bytes, or by an error.  The indicator is sticky. *)
Inductive input_end (a : input) (got : list Z) (a' : input) : Prop :=
| at_eof : i_eof a' = true -> i_err a' = i_err a -> i_rest a' = [] \/ i_eof a = true /\ got = [] -> input_end a got a'
| at_err : i_eof a' = false -> i_err a' = true -> input_end a got a'.

(** [got] is what reading up to n bytes gives. *)
Inductive takes (n : Z) (a : input) (got : list Z) (a' : input) : Prop :=
| takes_all : i_rest a = got ++ i_rest a' -> Z.of_nat (length got) = n -> i_eof a' = i_eof a -> i_err a' = i_err a -> takes n a got a'
| takes_some : i_rest a = got ++ i_rest a' -> Z.of_nat (length got) < n -> input_end a got a' -> takes n a got a'.

(** A line: it ends with its only newline, or none is in it. *)
Inductive takes_line (n : Z) (a : input) (got : list Z) (a' : input) : Prop :=
| line_newline l : got = l ++ [10] -> 10 ∉ l -> i_rest a = got ++ i_rest a' -> Z.of_nat (length got) <= n ->
    i_eof a' = i_eof a -> i_err a' = i_err a -> takes_line n a got a'
| line_part : 10 ∉ got -> takes n a got a' -> takes_line n a got a'.

Inductive op : Type := Getc | Ungetc (c : Z) | Fread (size count : Z) | Fgets (n : Z).

(** What an operation returns: a number, and the bytes it stores. *)
Definition run_op (o : op) (fp : FILE) (w : world D) : cres (Z * list Z * FILE * world D) :=
  match o with
  | Getc => x ← __sgetc fp w; let '(c, fp, w) := x in CVal (c, [], fp, w)
  | Ungetc c => x ← ungetc c fp w; let '(c, fp, w) := x in CVal (c, [], fp, w)
  | Fread size count => fread size count fp w
  | Fgets n => x ← fgets n fp w; let '(s, fp, w) := x in CVal (match s with None => (0, []) | Some s => (1, s) end, fp, w)
  end.

Inductive spec_op : op -> input -> Z * list Z -> input -> Prop :=
| spec_getc a c a' : takes 1 a [c] a' -> spec_op Getc a (c, []) a'
| spec_getc_end a a' : takes 1 a [] a' -> spec_op Getc a (EOF, []) a'
| spec_ungetc a c : c <> EOF -> spec_op (Ungetc c) a (u8 c, []) (mkInput (u8 c :: i_rest a) false (i_err a))
| spec_ungetc_no a c : c = EOF \/ (exists d n, snd (d_malloc d n) = None) -> spec_op (Ungetc c) a (EOF, []) a
| spec_fread a size count got a' : takes (u32 (count * size)) a got a' ->
    spec_op (Fread size count) a
      (if Z.of_nat (length got) =? u32 (count * size) then if u32 (count * size) =? 0 then 0 else count
       else Z.of_nat (length got) / size, got) a'
| spec_fgets a n got a' : takes_line (n - 1) a got a' -> 0 < n -> got <> [] \/ n = 1 -> spec_op (Fgets n) a (1, got ++ [0]) a'
| spec_fgets_end a n a' : takes (n - 1) a [] a' -> 1 < n -> spec_op (Fgets n) a (0, []) a'
| spec_fgets_no a n : n <= 0 -> spec_op (Fgets n) a (0, []) a.

Fixpoint run_ops (os : list op) (fp : FILE) (w : world D) : cres (list (Z * list Z) * FILE * world D) :=
  match os with
  | [] => CVal ([], fp, w)
  | o :: os => x ← run_op o fp w; let '(v, s, fp, w) := x in y ← run_ops os fp w; CVal ((v, s) :: y.1.1, y.1.2, y.2)
  end.

Fixpoint spec_ops (os : list op) (a : input) (vs : list (Z * list Z)) (a' : input) : Prop :=
  match os, vs with
  | [], [] => a' = a
  | o :: os, v :: vs => exists a1, spec_op o a v a1 /\ spec_ops os a1 vs a'
  | _, _ => False
  end.
End stdio_read.

(** ** The invariant of a stream that is read *)

(** [l] are the bytes that can be read through a pointer into the buffer. *)
Definition chunk (bf : option (list Z)) (p : ptr) (r : Z) (l : list Z) : Prop :=
  match bf with
  | None => l = [] /\ r = 0
  | Some b => exists o, p = PBf o /\ at_off b o l /\ r = Z.of_nat (length l)
  end.

(** [l] are the bytes that wait: those that were pushed back and those of the buffer. *)
Definition view (fp : FILE) (l : list Z) : Prop :=
  match _ub fp with
  | None => chunk (_bf fp) (_p fp) (_r fp) l
  | Some (own, u) => exists o l1 l2, _p fp = PUb o /\ at_off u o l1 /\ o + Z.of_nat (length l1) = Z.of_nat (length u) /\
      _r fp = Z.of_nat (length l1) /\ l = l1 ++ l2 /\ chunk (_bf fp) (_up fp) (_ur fp) l2 /\
      0 < Z.of_nat (length u) /\ (own = true -> length u = 3%nat)
  end.

Record rd_ok (fp : FILE) (l : list Z) : Prop := {
  rd_view : view fp l;
  rd_srd : flag fp __SRD = true;
  rd_swr : flag fp __SWR = false;
  rd_eof : flag fp __SEOF = true -> _r fp = 0 /\ _ub fp = None;
  rd_buf : _bf fp <> Some []
}.

(** Reading forward: n of the bytes that are at the pointer. *)
Lemma chunk_advance bf p r l n : chunk bf p r l -> 0 <= n <= r -> chunk bf (padd p n) (r - n) (drop (Z.to_nat n) l).
Proof.
  destruct bf as [b|]; cbn.
  - intros (o & -> & Hat & ->) Hn. exists (o + n). split_and!; [done|by apply at_off_take|rewrite length_drop; lia].
  - intros [-> ->] Hn. split; [by rewrite drop_nil|lia].
Qed.

Lemma view_advance fp l n : view fp l -> 0 <= n <= _r fp ->
  load_p fp (_p fp) n = CVal (take (Z.to_nat n) l) /\ n <= Z.of_nat (length l) /\
  view (with_p (with_r fp (_r fp - n)) (padd (_p fp) n)) (drop (Z.to_nat n) l).
Proof.
  unfold view, load_p. cbn. destruct (_ub fp) as [[own u]|] eqn:Hub.
  - intros (o & l1 & l2 & Hp & Hat & Ho & Hr & -> & Hc & Hlen & Hown) Hn. rewrite Hp in *. cbn. rewrite length_app.
    destruct (at_off_take _ _ _ n Hat) as [Hs Ha]; [lia|]. split_and!; [|lia|].
    + rewrite take_app_le by lia. destruct (_bf fp); (destruct (Z.eqb_spec n 0) as [->|]; [done|exact Hs]).
    + exists (o + n), (drop (Z.to_nat n) l1), l2. rewrite drop_app_le, length_drop by lia. split_and!; done || lia.
  - intros Hc Hn. pose proof (chunk_advance _ _ _ _ n Hc Hn) as Ha. unfold chunk in *. destruct (_bf fp) as [b|].
    + destruct Hc as (o & Hp & Hat & Hr). split_and!; [|lia|done]. rewrite Hp.
      destruct (Z.eqb_spec n 0) as [->|]; [done|]. apply at_off_take; [done|lia].
    + destruct Hc as [-> Hr]. split; [|split; [cbn; lia|done]]. rewrite take_nil. by rewrite (proj2 (Z.eqb_eq n 0)) by lia.
Qed.

Lemma rd_advance fp l n : rd_ok fp l -> 0 <= n <= _r fp ->
  load_p fp (_p fp) n = CVal (take (Z.to_nat n) l) /\ n <= Z.of_nat (length l) /\
  rd_ok (with_p (with_r fp (_r fp - n)) (padd (_p fp) n)) (drop (Z.to_nat n) l).
Proof.
  intros [Hv Hrd Hwr He Hb] Hn. destruct (view_advance fp l n Hv Hn) as (Hl & Hle & Hv').
  split_and!; [done|done|]. split; try done. intros E. destruct (He E) as [Hr Hub]. cbn. split; [lia|done].
Qed.

Section laws.
Context {D : Type} `{L : DeviceLaws D}.

(** What a stream and its device stand for. *)
Definition inp (fp : FILE) (l : list Z) (d : D) : input :=
  mkInput (l ++ d_in d (_file fp)) (flag fp __SEOF) (flag fp __SERR).

Record st_ok (fp : FILE) (w : world D) (l : list Z) : Prop := {
  st_rd : rd_ok fp l;
  st_before : Forall (other_ok (_file fp)) (w_before w);
  st_after : Forall (other_ok (_file fp)) (w_after w)
}.

Lemma walk_all_spec fp w : flag fp __SWR = false ->
  Forall (other_ok (_file fp)) (w_before w) -> Forall (other_ok (_file fp)) (w_after w) ->
  exists w', walk_all fp w = CVal (fp, w') /\ Forall (other_ok (_file fp)) (w_before w') /\
    Forall (other_ok (_file fp)) (w_after w') /\ same_fd (_file fp) (w_dev w) (w_dev w').
Proof.
  intros Hw Hb Ha. unfold walk_all. destruct (fwalk_spec (_file fp) (w_before w) (w_dev w) Hb) as (b' & d1 & -> & Hb' & Hd1).
  cbn [mbind cres_bind snd]. assert (_fwalk [fp] d1 = CVal ([fp], d1)) as ->.
  { cbn. destruct (_flags fp =? 0); [done|]. unfold lflush.
    destruct (Z.land (_flags fp) (Z.lor __SLBF __SWR) =? Z.lor __SLBF __SWR) eqn:E; [|done].
    exfalso. unfold flag in Hw. rewrite (has_both (_flags fp) __SWR __SLBF E) in Hw by done. done. }
  cbn [mbind cres_bind fst snd]. destruct (fwalk_spec (_file fp) (w_after w) d1 Ha) as (a' & d2 & -> & Ha' & Hd2).
  cbn. exists (mkWorld b' a' d2). split_and!; try done. by apply (same_fd_trans _ _ d1).
Qed.

(** What refilling does. *)
Definition refilled (fp : FILE) (l : list Z) (w : world D) (res : Z) (fp' : FILE) (w' : world D) : Prop :=
  exists l', st_ok fp' w' l' /\ _file fp' = _file fp /\ _ub fp' = None /\ (buffered (D:=D) fp -> buffered (D:=D) fp') /\
    l ++ d_in (w_dev w) (_file fp) = l' ++ d_in (w_dev w') (_file fp) /\
    (res = 0 /\ 0 < _r fp' /\ flag fp __SEOF = false /\ flag fp' __SEOF = false /\ flag fp' __SERR = flag fp __SERR \/
     res = EOF /\ l' = [] /\ input_end (inp fp l (w_dev w)) [] (inp fp' l' (w_dev w'))).

(** The read itself, of a stream with a buffer. *)
Lemma read_spec fp (d : D) b : _bf fp = Some b -> b <> [] -> exists ret bytes fp1 d1,
  __sread fp (bf_size fp) d = (fp1, d1, (ret, bytes)) /\ fp1 = with_flags (with_offset fp (_offset fp1)) (_flags fp1) /\
  flags_but __SOFF fp fp1 /\ d_in d (_file fp) = (if 0 <? ret then bytes else []) ++ d_in d1 (_file fp) /\
  ret <= Z.of_nat (length b) /\ (0 < ret -> ret = Z.of_nat (length bytes)) /\ (ret = 0 -> d_in d1 (_file fp) = []).
Proof.
  intros Hb Hne. unfold __sread, bf_size. rewrite Hb. destruct (d_read d (_file fp) (Z.of_nat (length b))) as [d1 [ret bytes]] eqn:E.
  apply read_law in E as (_ & _ & Hin). assert (0 < Z.of_nat (length b)) by (destruct b; [done|cbn; lia]).
  eexists ret, bytes, _, d1. split; [done|].
  destruct Hin as [[Hr Hin]|(Hr & Hle & Hin & Hz)].
  - rewrite (proj2 (Z.leb_gt 0 ret)), (proj2 (Z.ltb_ge 0 ret)) by lia. split_and!; [by destruct fp| |by rewrite Hin|lia|lia|lia].
    by apply flags_but_clear.
  - rewrite (proj2 (Z.leb_le 0 ret)) by lia. split_and!; [by destruct fp|done| |lia|lia|].
    + rewrite Hin. destruct (Z.ltb_spec 0 ret); [done|]. by destruct bytes; [|cbn in *; lia].
    + intros ->. destruct bytes; [|cbn in Hr; lia]. cbn in Hin. rewrite <- Hin. by apply Hz.
Qed.

(** A stream that is about to read: nothing waits. *)
Record drained (fp : FILE) (w : world D) : Prop := {
  dr_ub : _ub fp = None;
  dr_srd : flag fp __SRD = true;
  dr_swr : flag fp __SWR = false;
  dr_eof : flag fp __SEOF = false;
  dr_buf : _bf fp <> Some [];
  dr_before : Forall (other_ok (_file fp)) (w_before w);
  dr_after : Forall (other_ok (_file fp)) (w_after w)
}.

(** A buffer is made when there is none. *)
Lemma makebuf_drained fp w : drained fp w -> exists fp' d' b,
  match _bf fp with None => __smakebuf fp (w_dev w) | Some _ => (fp, w_dev w) end = (fp', d') /\
  _bf fp' = Some b /\ b <> [] /\ _file fp' = _file fp /\ flag fp' __SERR = flag fp __SERR /\
  same_fd (_file fp) (w_dev w) d' /\ drained fp' (with_dev w d') /\ (buffered (D:=D) fp -> buffered (D:=D) fp').
Proof.
  intros [Hub Hrd Hwr He Hb Hbf Haf]. destruct (_bf fp) as [b|] eqn:Ebf.
  { exists fp, (w_dev w), b. split_and!; try done; [congruence|]. split; try done. by rewrite Ebf. }
  destruct (smakebuf_spec fp (w_dev w)) as (fp' & d' & b & k & -> & Hfp & Hne & Hfl & Hd & Hn & _).
  assert (_ub fp' = None /\ _bf fp' = Some b /\ _file fp' = _file fp) as (Hub' & Hb' & Hf') by by rewrite Hfp.
  exists fp', d', b. split_and!; try done; [by apply Hfl| |].
  - split; rewrite ?Hf'; try done; [by rewrite Hfl|by rewrite Hfl|by rewrite Hfl|congruence].
  - intros [Hnb [Hx|Hm]]; [done|]. split; [by apply Hn|left; by rewrite Hb'].
Qed.

(** One read into the buffer, after which the stream has bytes or an indicator. *)
Lemma fill_spec fp w b : drained fp w -> _bf fp = Some b -> b <> [] -> exists res fp' w',
  (let fp := with_p fp (PBf 0) in
   let '(fp, d, (ret, bytes)) := __sread fp (bf_size fp) (w_dev w) in
   fp ← (if 0 <? ret then store_p fp (_p fp) bytes else CVal fp);
   let fp := clear_flag (with_r fp ret) __SMOD in
   if ret <=? 0 then
     CVal (EOF, if ret =? 0 then set_flag fp __SEOF else set_flag (with_r fp 0) __SERR, with_dev w d)
   else CVal (0, fp, with_dev w d)) = CVal (res, fp', w') /\ refilled fp [] w res fp' w'.
Proof.
  intros [Hub Hrd Hwr He Hb Hbf Haf] Eb Hne.
  destruct (read_spec (with_p fp (PBf 0)) (w_dev w) b) as (ret & bytes & fp1 & d1 & E & Hfp1 & Hfl & Hin & Hle & Hpos & Hz); [done|done|].
  cbv zeta. rewrite E. assert (forall k, Z.land k __SOFF = 0 -> flag fp1 k = flag fp k) as Hfl' by done.
  assert (_ub fp1 = None /\ _bf fp1 = Some b /\ _file fp1 = _file fp /\ _p fp1 = PBf 0) as (Hub1 & Hb1 & Hf1 & Hp1) by by rewrite Hfp1.
  cbn [_file with_p] in Hin. destruct (Z.ltb_spec 0 ret) as [Hr|Hr].
  - specialize (Hpos Hr). rewrite (proj2 (Z.leb_gt ret 0)) by lia. rewrite Hp1. unfold store_p, store_at. rewrite Hb1.
    cbn [mbind cres_bind]. repeat zif. cbn [mbind cres_bind]. eexists _, _, _. split; [done|]. exists bytes. split_and!; try done.
    + split; cbn; try by rewrite Hf1. split; try done.
      * unfold view. cbn. rewrite Hub1. exists 0. split_and!; [done| |lia]. by exists [], (drop (length bytes) b).
      * rewrite <- Hrd, <- (Hfl' __SRD) by done. flag_consts; masks. done.
      * rewrite <- Hwr, <- (Hfl' __SWR) by done. flag_consts; masks. done.
      * intros Hx. exfalso. rewrite <- (Hfl' __SEOF) in He by done. revert Hx He. flag_consts; masks. congruence.
      * cbn. destruct bytes; [cbn in Hpos; lia|done].
    + intros [Hn _]. split; [|by left]. rewrite <- Hn, <- (Hfl' __SNBF) by done. flag_consts; masks. done.
    + left. split_and!; [done|cbn; lia|done| |].
      * rewrite <- He, <- (Hfl' __SEOF) by done. flag_consts; masks. done.
      * rewrite <- (Hfl' __SERR) by done. flag_consts; masks. done.
  - rewrite (proj2 (Z.leb_le ret 0)) by lia. cbn [mbind cres_bind].
    set (fpe := if ret =? 0 then _ else _). eexists _, fpe, _. split; [done|].
    assert (_ub fpe = None /\ _bf fpe = Some b /\ _file fpe = _file fp /\ _p fpe = PBf 0 /\ _r fpe = 0) as (Hub2 & Hb2 & Hf2 & Hp2 & Hr2).
    { subst fpe. destruct (Z.eqb_spec ret 0); cbn; done. }
    assert (forall k, Z.land k (Z.lor __SOFF (Z.lor __SMOD (Z.lor __SEOF __SERR))) = 0 -> flag fpe k = flag fp k) as Hfl2.
    { assert (flags_but (Z.lor __SOFF (Z.lor __SMOD (Z.lor __SEOF __SERR))) fp fp1) as Hg.
      { intros k Hk. apply Hfl'. revert Hk. rewrite Z.land_lor_distr_r, Z.lor_eq_0_iff. by intros []. }
      subst fpe. destruct (ret =? 0); apply flags_but_set; try done; by apply (flags_but_clear _ _ fp1). }
    exists []. split_and!; try done.
    + split; rewrite ?Hf2; try done. split; [|by rewrite Hfl2|by rewrite Hfl2|done|congruence].
      unfold view. rewrite Hub2, Hb2. exists 0. split_and!; [done|by exists [], b|done].
    + intros [Hn _]. split; [by rewrite Hfl2|left; by rewrite Hb2].
    + right. split_and!; try done. subst fpe. unfold inp. destruct (Z.eqb_spec ret 0) as [->|Hn0].
      * apply at_eof; cbn [i_eof i_err i_rest]; [by flag_consts; masks| |left; cbn; rewrite Hf1; by apply Hz].
        rewrite <- (Hfl' __SERR) by done. by flag_consts; masks.
      * apply at_err; cbn [i_eof i_err]; [|by flag_consts; masks].
        rewrite <- He, <- (Hfl' __SEOF) by done. by flag_consts; masks.
Qed.

Lemma refilled_from fp0 w0 fp w res fp' w' : refilled fp0 [] w0 res fp' w' ->
  _file fp0 = _file fp -> flag fp0 __SERR = flag fp __SERR -> flag fp0 __SEOF = flag fp __SEOF ->
  d_in (w_dev w0) (_file fp) = d_in (w_dev w) (_file fp) -> (buffered (D:=D) fp -> buffered (D:=D) fp0) ->
  refilled fp [] w res fp' w'.
Proof.
  intros (l' & Hst & Hf & Hub & Hbuf & Hin & Hres) Hf0 He Ho Hd Hb. exists l'. unfold inp in *. rewrite Hf0, Hd, He, Ho in *.
  split_and!; try done. by intros ?%Hb%Hbuf.
Qed.

Lemma srefill_read_spec fp w : drained fp w -> exists res fp' w',
  srefill_read fp w = CVal (res, fp', w') /\ refilled fp [] w res fp' w'.
Proof.
  intros Hdr. unfold srefill_read. destruct (makebuf_drained fp w Hdr) as (fp0 & d0 & b & -> & Hb & Hne & Hf & He & [Hin _] & Hdr0 & Hbuf).
  assert (exists w1, (if flag fp0 (Z.lor __SLBF __SNBF) then walk_all fp0 (with_dev w d0) else CVal (fp0, with_dev w d0)) = CVal (fp0, w1) /\
    drained fp0 w1 /\ d_in (w_dev w1) (_file fp0) = d_in d0 (_file fp0)) as (w1 & -> & Hdr1 & Hin1).
  { destruct (flag fp0 (Z.lor __SLBF __SNBF)); [|by eexists]. destruct Hdr0 as [? ? Hwr ? ? Hbf Haf].
    destruct (walk_all_spec fp0 (with_dev w d0) Hwr Hbf Haf) as (w1 & -> & Hb1 & Ha1 & [Hd1 _]). exists w1. split_and!; try done. }
  cbn [mbind cres_bind]. destruct (fill_spec fp0 w1 b Hdr1 Hb Hne) as (res & fp' & w' & E & Hr). exists res, fp', w'.
  split; [exact E|]. apply (refilled_from _ _ fp w) in Hr; try done; [|by rewrite <- Hin, <- Hf].
  by rewrite (dr_eof _ _ Hdr), (dr_eof _ _ Hdr0).
Qed.

Lemma srefill_spec fp w l : st_ok (with_r fp 0) w l -> exists res fp' w',
  __srefill fp w = CVal (res, fp', w') /\ refilled (with_r fp 0) l w res fp' w'.
Proof.
  intros [[Hv Hrd Hwr He Hb] Hbf Haf]. unfold __srefill. set (fp0 := with_r fp 0) in *. rewrite Hrd. cbn [negb]. unfold view, HASUB in *.
  destruct (flag fp0 __SEOF) eqn:Eeof.
  { destruct (He eq_refl) as [_ Hub]. rewrite Hub in *. assert (l = []) as ->.
    { revert Hv. unfold chunk. destruct (_bf fp0); [intros (? & _ & _ & Hr); by destruct l|by intros []]. }
    exists EOF, fp0, w. split; [done|]. exists []. split_and!; try done.
    - split; try done. split; try done. unfold view. by rewrite Hub.
    - right. split_and!; try done. apply at_eof; cbn; try done. by right. }
  destruct (_ub fp0) as [[own u]|] eqn:Hub.
  - destruct Hv as (o & l1 & l2 & Hp & Hat & Ho & Hr & -> & Hc & Hlen & Hown). destruct l1; [|cbn in Hr; lia]. cbn [app].
    destruct (Z.eqb_spec (_ur (with_r (FREEUB fp0) (_ur fp0))) 0) as [Hur|Hur]; cbn [negb].
    + assert (l2 = []) as ->. { revert Hc. cbn in Hur. unfold chunk. cbn. rewrite Hur. destruct (_bf fp); [intros (? & _ & _ & Hl); by destruct l2|by intros []]. }
      edestruct (srefill_read_spec (with_r (FREEUB fp0) (_ur fp0)) w) as (res & fp' & w' & E & Hr'); [by split|].
      exists res, fp', w'. split; [exact E|]. exact Hr'.
    + eexists 0, _, w. split; [done|]. exists l2. assert (0 < _ur fp0) as Hpos.
      { revert Hc Hur. unfold chunk. cbn. destruct (_bf fp); [intros (? & _ & _ & ->); lia|by intros []]. }
      split_and!; try done; [|by left].
      split; try done. split; try done. unfold flag in *. cbn in *. congruence.
  - assert (l = []) as ->.
    { revert Hv. unfold chunk. cbn. destruct (_bf fp); [intros (? & _ & _ & Hr); by destruct l|by intros []]. }
    destruct (srefill_read_spec fp0 w) as (res & fp' & w' & E & Hr); [by split|]. exists res, fp', w'. done.
Qed.

(** ** The operations *)

(** What every operation keeps; the push-back buffer does not grow by reading. *)
Definition keeps (fp fp' : FILE) : Prop :=
  _file fp' = _file fp /\ (buffered (D:=D) fp -> buffered (D:=D) fp') /\ (_ub fp' = None \/ _ub fp' = _ub fp /\ _r fp' <= _r fp).

Lemma keeps_refl fp : keeps fp fp.
Proof. split_and!; try done. right. split; [done|lia]. Qed.

Lemma keeps_trans fp1 fp2 fp3 : keeps fp1 fp2 -> keeps fp2 fp3 -> keeps fp1 fp3.
Proof.
  intros (H1 & H2 & H3) (H4 & H5 & H6). split_and!; [congruence|auto|].
  destruct H6 as [H6|[H6 H7]]; [by left|]. rewrite H6. destruct H3 as [H3|[H3 H8]]; [by left|right; split; [done|lia]].
Qed.

Lemma refilled_inv fp l w res fp' w' : refilled fp l w res fp' w' -> keeps fp fp' /\ exists l', st_ok fp' w' l' /\
  (res = 0 /\ 0 < _r fp' /\ inp fp l (w_dev w) = inp fp' l' (w_dev w') \/
   res = EOF /\ l' = [] /\ i_rest (inp fp l (w_dev w)) = i_rest (inp fp' l' (w_dev w')) /\
   input_end (inp fp l (w_dev w)) [] (inp fp' l' (w_dev w'))).
Proof.
  intros (l' & Hst & Hf & Hub & Hbuf & Hin & Hres). split; [by split_and!; [done|done|left]|]. exists l'. split; [done|].
  destruct Hres as [(-> & Hr & He1 & He2 & He3)|(-> & -> & He)]; [left|right; split_and!; try done].
  - unfold inp. by rewrite Hf, Hin, He1, He2, He3.
  - cbn. by rewrite Hf.
Qed.

Lemma view_r fp l : view fp l -> 0 <= _r fp <= Z.of_nat (length l).
Proof.
  unfold view, chunk. destruct (_ub fp) as [[own u]|].
  - intros (o & l1 & l2 & _ & _ & _ & -> & -> & _). rewrite length_app. lia.
  - destruct (_bf fp); [intros (o & _ & _ & ->); lia|intros [-> ->]; cbn; lia].
Qed.

Lemma st_r fp w l : st_ok fp w l -> 0 <= _r fp <= Z.of_nat (length l).
Proof. intros [[Hv] _ _]. by apply view_r. Qed.

(** Reading forward. *)
Lemma st_advance fp w l n : st_ok fp w l -> 0 <= n <= _r fp ->
  let fp' := with_p (with_r fp (_r fp - n)) (padd (_p fp) n) in
  load_p fp (_p fp) n = CVal (take (Z.to_nat n) l) /\ st_ok fp' w (drop (Z.to_nat n) l) /\ keeps fp fp' /\
  i_rest (inp fp l (w_dev w)) = take (Z.to_nat n) l ++ i_rest (inp fp' (drop (Z.to_nat n) l) (w_dev w)) /\
  Z.of_nat (length (take (Z.to_nat n) l)) = n /\ (take (Z.to_nat n) l <> [] -> i_eof (inp fp l (w_dev w)) = false).
Proof.
  intros [Hrd Hb Ha] Hn. destruct (rd_advance fp l n Hrd Hn) as (Hl & Hle & Hrd'). cbv zeta.
  split; [done|]. split; [by split|]. split; [split_and!; [done|done|right; cbn; split; [done|lia]]|]. split_and!.
  - cbn. by rewrite app_assoc, take_drop.
  - rewrite length_take_le; lia.
  - intros Hne. cbn. destruct (flag fp __SEOF) eqn:E; [|done]. destruct (rd_eof _ _ Hrd E) as [Hr _].
    by replace n with 0 in Hne by lia.
Qed.

Lemma takes_app a g1 a1 n g2 a2 : i_rest a = g1 ++ i_rest a1 -> i_eof a1 = i_eof a -> i_err a1 = i_err a ->
  (g1 <> [] -> i_eof a = false) -> takes n a1 g2 a2 -> takes (Z.of_nat (length g1) + n) a (g1 ++ g2) a2.
Proof.
  intros Hr He1 He2 Hg [Ht Hl E1 E2|Ht Hl He].
  - apply takes_all; [by rewrite Hr, Ht, app_assoc|rewrite length_app; lia|congruence|congruence].
  - apply takes_some; [by rewrite Hr, Ht, app_assoc|rewrite length_app; lia|].
    destruct He as [E1 E2 E3|E1 E2]; [apply at_eof; [done|congruence|]|by apply at_err].
    destruct E3 as [E3|[E3 ->]]; [by left|]. right. rewrite E3 in He1. split; [done|].
    destruct g1; [done|]. specialize (Hg ltac:(done)). congruence.
Qed.

Lemma takes_end n a a' : i_rest a = i_rest a' -> input_end a [] a' -> 0 < n -> takes n a [] a'.
Proof. intros. by apply takes_some. Qed.

Lemma with_r_id fp r : _r fp = r -> with_r fp r = fp.
Proof. intros <-. by destruct fp. Qed.

(** getc. *)
Lemma next_char_spec fp w l : st_ok fp w l -> 0 < _r fp -> exists c, next_char (with_r fp (_r fp - 1)) = CVal (c, with_p (with_r fp (_r fp - 1)) (padd (_p fp) 1)) /\
  takes 1 (inp fp l (w_dev w)) [c] (inp (with_p (with_r fp (_r fp - 1)) (padd (_p fp) 1)) (drop 1 l) (w_dev w)).
Proof.
  intros Hst Hr. destruct (st_advance fp w l 1 Hst) as (Hl & _ & _ & Hrest & Hlen & _); [lia|].
  change (Z.to_nat 1) with 1%nat in *. destruct l as [|c l]; [done|]. exists c. split.
  - unfold next_char. change (load_p (with_r fp (_r fp - 1)) (_p (with_r fp (_r fp - 1))) 1) with (load_p fp (_p fp) 1). by rewrite Hl.
  - by apply takes_all.
Qed.

Lemma getc_spec fp w l : st_ok fp w l -> exists c fp' w' l', __sgetc fp w = CVal (c, fp', w') /\ st_ok fp' w' l' /\ keeps fp fp' /\
  spec_op (D:=D) Getc (inp fp l (w_dev w)) (c, []) (inp fp' l' (w_dev w')).
Proof.
  intros Hst. pose proof (st_r _ _ _ Hst) as Hr. unfold __sgetc. cbn [_r with_r]. destruct (Z.ltb_spec (_r fp - 1) 0) as [Hlt|Hge].
  - unfold __srget. destruct (srefill_spec (with_r fp (_r fp - 1)) w l) as (res & fp1 & w1 & -> & Hre).
    { change (with_r (with_r fp (_r fp - 1)) 0) with (with_r fp 0). rewrite with_r_id by lia. done. }
    change (with_r (with_r fp (_r fp - 1)) 0) with (with_r fp 0) in Hre. rewrite with_r_id in Hre by lia.
    apply refilled_inv in Hre as [Hk (l1 & Hst1 & Hres)]. cbn [mbind cres_bind].
    destruct Hres as [(-> & Hr1 & Hin)|(-> & -> & Hrest & Hend)].
    + change (0 =? 0) with true. cbv iota. destruct (next_char_spec fp1 w1 l1 Hst1 Hr1) as (c & -> & Ht). cbn [mbind cres_bind fst snd].
      destruct (st_advance fp1 w1 l1 1 Hst1) as (_ & Hst2 & Hk2 & _); [lia|]. eexists c, _, w1, _. split; [done|]. split; [exact Hst2|].
      split; [by apply (keeps_trans _ fp1)|]. rewrite Hin. by apply spec_getc.
    + change (EOF =? 0) with false. cbv iota. exists EOF, fp1, w1, []. split; [done|]. split; [done|]. split; [done|].
      apply spec_getc_end. by apply takes_end.
  - destruct (next_char_spec fp w l Hst) as (c & -> & Ht); [lia|]. cbn [mbind cres_bind fst snd].
    destruct (st_advance fp w l 1 Hst) as (_ & Hst2 & Hk2 & _); [lia|]. eexists c, _, w, _. split; [done|]. split; [exact Hst2|].
    split; [exact Hk2|]. by apply spec_getc.
Qed.

(** fread, of a buffered stream. *)
Lemma fread_loop_spec fuel fp w l resid p : st_ok fp w l -> 0 <= resid ->
  (Z.to_nat resid + (if Z.eqb (_r fp) 0 then 1 else 0) < fuel)%nat -> exists short rem q fp' w' l',
  fread_loop fuel fp w resid p = CVal (short, rem, p ++ q, fp', w') /\ st_ok fp' w' l' /\ keeps fp fp' /\
  takes resid (inp fp l (w_dev w)) q (inp fp' l' (w_dev w')) /\
  (short = false /\ Z.of_nat (length q) = resid \/ short = true /\ rem = resid - Z.of_nat (length q) /\ Z.of_nat (length q) < resid).
Proof.
  revert fp w l resid p. induction fuel as [|fuel IH]; intros fp w l resid p Hst Hresid Hf; [lia|].
  pose proof (st_r _ _ _ Hst) as Hr. cbn [fread_loop]. destruct (Z.ltb_spec (_r fp) resid) as [Hlt|Hge].
  - destruct (st_advance fp w l (_r fp) Hst) as (-> & Hst1 & Hk1 & Hrest1 & Hlen1 & Hg); [lia|]. cbn [mbind cres_bind].
    set (fp1 := with_p fp (padd (_p fp) (_r fp))). set (g := take _ l) in *. set (l1 := drop _ l) in *.
    rewrite Z.sub_diag in Hst1, Hk1, Hrest1. change (with_p (with_r fp 0) (padd (_p fp) (_r fp))) with (with_r fp1 0) in *.
    destruct (srefill_spec fp1 w l1 Hst1) as (res & fp2 & w2 & -> & Hre). apply refilled_inv in Hre as [Hk2 (l2 & Hst2 & Hres)].
    cbn [mbind cres_bind]. assert (keeps fp fp2) as Hk by by apply (keeps_trans _ (with_r fp1 0)).
    destruct Hres as [(-> & Hr2 & Hin)|(-> & -> & Hrest2 & Hend)].
    + change (negb (0 =? 0)) with false. cbv iota.
      destruct (IH fp2 w2 l2 (resid - _r fp) (p ++ g) Hst2) as (short & rem & q & fp' & w' & l' & -> & Hst' & Hk' & Ht & Hcase);
        [lia|destruct (Z.eqb_spec (_r fp) 0), (Z.eqb_spec (_r fp2) 0); lia|].
      exists short, rem, (g ++ q), fp', w', l'. rewrite <- app_assoc. split; [done|]. split; [done|].
      split; [by apply (keeps_trans _ fp2)|]. rewrite length_app.
      split; [|destruct Hcase as [[-> ?]|(-> & -> & ?)]; [left; split; [done|lia]|right; split_and!; [done|lia|lia]]].
      replace resid with (Z.of_nat (length g) + (resid - _r fp)) by lia. rewrite <- Hin in Ht. by apply (takes_app _ _ (inp (with_r fp1 0) l1 (w_dev w))).
    + change (negb (EOF =? 0)) with true. cbv iota. exists true, (resid - _r fp), g, fp2, w2, []. split; [done|]. split; [done|]. split; [done|].
      split; [|right; split_and!; [done|lia|lia]].
      replace resid with (Z.of_nat (length g) + (resid - _r fp)) by lia. rewrite <- (app_nil_r g) at 2.
      apply (takes_app _ _ (inp (with_r fp1 0) l1 (w_dev w))); try done. apply takes_end; [done|done|lia].
  - destruct (st_advance fp w l resid Hst) as (-> & Hst1 & Hk1 & Hrest1 & Hlen1 & _); [lia|]. cbn [mbind cres_bind].
    eexists false, 0, _, _, w, _. split; [done|]. split; [exact Hst1|]. split; [exact Hk1|]. split; [|by left]. by apply takes_all.
Qed.

(** fgets. *)
Lemma takes_line_app a g1 a1 n g2 a2 : i_rest a = g1 ++ i_rest a1 -> i_eof a1 = i_eof a -> i_err a1 = i_err a ->
  (g1 <> [] -> i_eof a = false) -> 10 ∉ g1 -> takes_line n a1 g2 a2 -> takes_line (Z.of_nat (length g1) + n) a (g1 ++ g2) a2.
Proof.
  intros Hr He1 He2 Hg Hno [l -> Hl Ht Hle E1 E2|Hg2 Ht].
  - apply (line_newline _ _ _ _ (g1 ++ l)); [by rewrite app_assoc|rewrite elem_of_app; tauto|by rewrite Hr, Ht, app_assoc| |congruence|congruence].
    rewrite length_app. lia.
  - apply line_part; [rewrite elem_of_app; tauto|]. by apply (takes_app _ _ a1).
Qed.

Lemma list_find_newline (p : list Z) i x : list_find (.= 10) p = Some (i, x) -> take (S i) p = take i p ++ [10] /\ 10 ∉ take i p /\ (i < length p)%nat.
Proof.
  intros (Hi & -> & Hbefore)%list_find_Some. split_and!; [by apply take_S_r| |by apply lookup_lt_Some in Hi].
  intros (j & Hj)%list_elem_of_lookup. assert (j < i)%nat as Hji by (apply lookup_lt_Some in Hj; rewrite length_take in Hj; lia).
  rewrite lookup_take_lt in Hj by done. by apply (Hbefore j 10).
Qed.

Lemma list_find_no_newline (p : list Z) : list_find (.= 10) p = None -> 10 ∉ p.
Proof. intros Ha%list_find_None Hin. rewrite Forall_forall in Ha. by apply (Ha 10); [by apply list_elem_of_In|]. Qed.

Lemma fgets_loop_spec fuel fp w l n s : st_ok fp w l -> 0 <= n -> (Z.to_nat n < fuel)%nat -> exists res got fp' w' l',
  fgets_loop fuel fp w n s = CVal (res, fp', w') /\ st_ok fp' w' l' /\ keeps fp fp' /\
  takes_line n (inp fp l (w_dev w)) got (inp fp' l' (w_dev w')) /\
  (res = Some (s ++ got ++ [0]) /\ (s ++ got <> [] \/ n = 0) \/ res = None /\ s = [] /\ got = [] /\ n <> 0).
Proof.
  revert fp w l n s. induction fuel as [|fuel IH]; intros fp w l n s Hst Hn Hf; [lia|]. cbn [fgets_loop].
  destruct (Z.eqb_spec n 0) as [->|Hn0].
  { exists (Some (s ++ [0])), [], fp, w, l. split; [done|]. split; [done|]. split; [apply keeps_refl|]. split; [|left; split; [done|by right]].
    apply line_part; [by apply not_elem_of_nil|by apply takes_all]. }
  pose proof (st_r _ _ _ Hst) as Hr.
  assert (exists res fp1 w1 l1, (if _r fp <=? 0 then __srefill fp w else CVal (0, fp, w)) = CVal (res, fp1, w1) /\ st_ok fp1 w1 l1 /\ keeps fp fp1 /\
    (res = 0 /\ 0 < _r fp1 /\ inp fp l (w_dev w) = inp fp1 l1 (w_dev w1) \/
     res = EOF /\ l1 = [] /\ i_rest (inp fp l (w_dev w)) = i_rest (inp fp1 l1 (w_dev w1)) /\
     input_end (inp fp l (w_dev w)) [] (inp fp1 l1 (w_dev w1)))) as (res & fp1 & w1 & l1 & -> & Hst1 & Hk1 & Hres).
  { destruct (Z.leb_spec (_r fp) 0) as [Hz|Hz]; [|exists 0, fp, w, l; split_and!; [done|done|apply keeps_refl|by left]].
    pose proof (with_r_id fp 0 ltac:(lia)) as Eid. rewrite <- Eid in Hst. destruct (srefill_spec fp w l Hst) as (res & fp1 & w1 & -> & Hre).
    rewrite Eid in Hre. apply refilled_inv in Hre as [Hk (l1 & Hst1 & Hres)]. by exists res, fp1, w1, l1. }
  cbn [mbind cres_bind]. destruct Hres as [(-> & Hr1 & Hin)|(-> & -> & Hrest & Hend)].
  2:{ change (negb (EOF =? 0)) with true. cbv iota. eexists _, [], fp1, w1, []. split; [done|]. split; [done|]. split; [done|].
      split; [apply line_part; [by apply not_elem_of_nil|]; apply takes_end; [done|done|lia]|]. destruct s; [by right|left; split; [done|by left]]. }
  change (negb (0 =? 0)) with false. cbv iota. set (len := if n <? _r fp1 then n else _r fp1).
  assert (0 < len <= _r fp1 /\ len <= n) as [Hlen Hlen'] by (subst len; destruct (Z.ltb_spec n (_r fp1)); lia).
  destruct (st_advance fp1 w1 l1 len Hst1) as (-> & Hst2 & Hk2 & Hrest2 & Hlen2 & Hg); [lia|]. cbn [mbind cres_bind].
  set (g := take (Z.to_nat len) l1) in *. destruct (list_find (.= 10) g) as [[i x]|] eqn:Efind.
  - apply list_find_newline in Efind as (Etake & Hno & Hi).
    destruct (st_advance fp1 w1 l1 (Z.of_nat i + 1) Hst1) as (_ & Hst3 & Hk3 & Hrest3 & Hlen3 & _); [lia|].
    replace (Z.to_nat (Z.of_nat i + 1)) with (S i) in * by lia. assert (take (S i) l1 = take (S i) g) as Eg by (subst g; rewrite take_take; f_equal; lia).
    rewrite Eg in *. eexists _, (take (S i) g), _, w1, _. split; [done|]. split; [exact Hst3|]. split; [by apply (keeps_trans _ fp1)|].
    rewrite Hin. split; [|left; split; [done|left; rewrite Etake; by destruct s, (take i g)]].
    rewrite Etake in *. by apply (line_newline _ _ _ _ (take i g)); try done; lia.
  - apply list_find_no_newline in Efind.
    destruct (IH _ w1 _ (n - len) (s ++ g) Hst2) as (res & got & fp' & w' & l' & -> & Hst' & Hk' & Ht & Hcase); [lia|lia|].
    exists res, (g ++ got), fp', w', l'. split; [done|]. split; [done|].
    split; [apply (keeps_trans _ fp1); [done|by apply (keeps_trans _ _ _ Hk2)]|]. rewrite Hin. split.
    + replace n with (Z.of_nat (length g) + (n - len)) by lia. by apply (takes_line_app _ _ _ _ _ _ Hrest2).
    + rewrite <- !app_assoc in Hcase. assert (s ++ g <> []) as Hne by (destruct g; [cbn in Hlen2; lia|by destruct s]).
      destruct Hcase as [[-> _]|(_ & Hs & _)]; [left; split; [by rewrite <- !app_assoc|left]|done]. rewrite app_assoc. by destruct (s ++ g).
Qed.

Lemma fgets_spec n fp w l : st_ok fp w l -> exists s fp' w' l', fgets n fp w = CVal (s, fp', w') /\ st_ok fp' w' l' /\ keeps fp fp' /\
  spec_op (D:=D) (Fgets n) (inp fp l (w_dev w)) (match s with None => (0, []) | Some s => (1, s) end) (inp fp' l' (w_dev w')).
Proof.
  intros Hst. unfold fgets. destruct (Z.leb_spec n 0) as [Hn|Hn].
  { exists None, fp, w, l. split; [done|]. split; [done|]. split; [apply keeps_refl|]. by apply spec_fgets_no. }
  destruct (fgets_loop_spec (Z.to_nat n) fp w l (n - 1) [] Hst) as (res & got & fp' & w' & l' & -> & Hst' & Hk & Ht & Hcase); [lia|lia|].
  exists res, fp', w', l'. split; [done|]. split; [done|]. split; [done|]. cbn [app] in Hcase. destruct Hcase as [[-> Hne]|(-> & _ & -> & Hn0)].
  - apply spec_fgets; [done|done|]. destruct Hne; [by left|right; lia].
  - apply spec_fgets_end; [|lia]. inversion Ht as [l0 E|]; [by destruct l0|done].
Qed.

(** ungetc: its buffer is filled from its end. *)
Lemma store_at_mid (pre x post y : list Z) o : o = Z.of_nat (length pre) -> length x = length y ->
  store_at (pre ++ x ++ post) o y = CVal (pre ++ y ++ post).
Proof.
  intros -> Hlen. unfold store_at. rewrite !length_app, Hlen. repeat zif. rewrite Nat2Z.id, take_app_length, <- Hlen.
  by rewrite drop_app_add, drop_app_length.
Qed.

Lemma push_ub_spec fp l own u c : rd_ok fp l -> _ub fp = Some (own, u) -> _r fp < Z.of_nat (length u) ->
  exists u', let fp1 := with_p fp (padd (_p fp) (-1)) in
  store_p fp1 (_p fp1) [c] = CVal (with_ub fp1 (Some (own, u'))) /\ length u' = length u /\
  rd_ok (with_r (with_ub fp1 (Some (own, u'))) (_r fp + 1)) (c :: l).
Proof.
  intros [Hv Hrd Hwr He Hb] Hub Hr. unfold view in Hv. rewrite Hub in Hv.
  destruct Hv as (o & l1 & l2 & Hp & (pre & post & -> & ->) & Ho & Hr1 & -> & Hc & Hlen & Hown). rewrite !length_app in *.
  destruct post; [|cbn [length] in *; lia]. destruct pre as [|y pre _] using rev_ind; [cbn [length] in *; lia|].
  exists (pre ++ [c] ++ l1). cbv zeta. cbn [_p with_p]. rewrite Hp. cbn [padd]. split_and!.
  - unfold store_p. cbn. rewrite Hub. rewrite app_nil_r, <- app_assoc. cbn.
    pose proof (store_at_mid pre [y] l1 [c] (Z.of_nat (length (pre ++ [y])) + -1)) as E. cbn in E.
    rewrite E; [by destruct (_bf fp)|rewrite length_app; cbn; lia|done].
  - rewrite !length_app. cbn. lia.
  - split; try done.
    + unfold view. cbn. rewrite length_app in *. cbn [length] in *. exists (Z.of_nat (length pre)), (c :: l1), l2.
      split_and!; try done; [f_equal; lia| | |cbn [length]; lia| |].
      * exists pre, []. by rewrite app_nil_r.
      * rewrite length_app. cbn [length]. lia.
      * rewrite length_app. cbn [length]. lia.
      * intros Ho1. specialize (Hown Ho1). rewrite !length_app in *. cbn [length] in *. lia.
    + intros E. destruct (He E) as [_ Hx]. congruence.
Qed.

Definition no_memory : Prop := exists (d : D) n, snd (d_malloc d n) = None.

Lemma submore_spec fp l own u d : rd_ok fp l -> _ub fp = Some (own, u) -> Z.of_nat (length u) <= _r fp -> Z.of_nat (length u) < 2 ^ 30 ->
  exists r fp' d', __submore fp d = CVal (r, fp', d') /\ (forall fd, same_fd fd d d') /\
  (r = EOF /\ fp' = fp /\ no_memory \/
   r = 0 /\ exists u' q, fp' = with_p (with_ub fp (Some (false, u'))) q /\ rd_ok fp' l /\ _r fp < Z.of_nat (length u') /\
     (Z.of_nat (length u') = BUFSIZ \/ Z.of_nat (length u') = 2 * Z.of_nat (length u))).
Proof.
  intros [Hv Hrd Hwr He Hb] Hub Hr Hsmall. unfold view in Hv. rewrite Hub in Hv.
  destruct Hv as (o & l1 & l2 & Hp & Hat & Ho & Hr1 & -> & Hc & Hlen & Hown).
  assert (u = l1) as ->. { destruct Hat as (pre & post & -> & ->). rewrite !length_app in *. destruct pre, post; cbn [length] in *; try lia. by rewrite app_nil_r. }
  assert (forall m, rd_ok (with_p (with_ub fp (Some (false, m ++ l1))) (PUb (Z.of_nat (length m)))) (l1 ++ l2)) as Hok.
  { intros m. split; try done.
    - unfold view. cbn. exists (Z.of_nat (length m)), l1, l2. rewrite length_app. split_and!; try done; [|lia|lia].
      exists m, []. by rewrite app_nil_r.
    - intros E. destruct (He E) as [_ Hx]. congruence. }
  unfold __submore. rewrite Hub. destruct own.
  - specialize (Hown eq_refl). destruct (d_malloc d BUFSIZ) as [d' m] eqn:E. pose proof (malloc_law _ _ _ _ E) as [Hd Hm].
    destruct m as [m|]; [|exists EOF, fp, d'; split; [done|split; [done|left; split; [done|split; [done|by exists d, BUFSIZ; rewrite E]]]]].
    rewrite Hown. change (BUFSIZ - Z.of_nat 3) with 1021.
    assert (store_at m 1021 l1 = CVal (take 1021 m ++ l1)) as ->.
    { rewrite <- (app_nil_r (take 1021 m ++ l1)), <- app_assoc. rewrite <- (take_drop 1021 m) at 1. rewrite <- (app_nil_r (drop 1021 m)).
      apply store_at_mid; [rewrite length_take_le by (change BUFSIZ with 1024 in Hm; lia); done|].
      rewrite length_drop, Hown. change BUFSIZ with 1024 in Hm. lia. }
    cbn [mbind cres_bind]. eexists 0, _, d'. split; [done|]. split; [done|]. right. split; [done|]. eexists _, _. split; [done|].
    specialize (Hok (take 1021 m)). rewrite length_take_le in Hok by (change BUFSIZ with 1024 in Hm; lia). split; [exact Hok|].
    rewrite length_app, length_take_le, Hown by (change BUFSIZ with 1024 in Hm; lia). split; [lia|by left].
  - rewrite Z.shiftl_mul_pow2 by lia. change (2 ^ 1) with 2. change INT_MAX with (2 ^ 31 - 1). repeat zif.
    destruct (d_malloc d (Z.of_nat (length l1) * 2)) as [d' m] eqn:E. pose proof (malloc_law _ _ _ _ E) as [Hd Hm].
    destruct m as [m|]; [|exists EOF, fp, d'; split; [done|split; [done|left; split; [done|split; [done|by eexists d, _; rewrite E]]]]].
    assert (m = [] ++ take (length l1) m ++ drop (length l1) m) as -> by (cbn; by rewrite take_drop). rewrite store_at_mid; [|done|rewrite length_take_le; lia].
    cbn [mbind cres_bind app]. pose proof (store_at_mid l1 (drop (length l1) m) [] l1 (Z.of_nat (length l1)) eq_refl) as E2.
    rewrite !app_nil_r in E2. cbn [app] in *. rewrite E2 by (rewrite length_drop; lia).
    cbn [mbind cres_bind]. eexists 0, _, d'. split; [done|]. split; [done|]. right. split; [done|]. eexists _, _. split; [done|].
    split; [exact (Hok l1)|]. rewrite length_app. split; [lia|right; lia].
Qed.

Lemma flag_clear_eof fp k : Z.land k __SEOF = 0 -> flag (clear_flag fp __SEOF) k = flag fp k.
Proof. intros Hk. by apply (flags_but_clear __SEOF fp fp). Qed.

Lemma eof_cleared fp : flag (clear_flag fp __SEOF) __SEOF = false.
Proof. by flag_consts; masks. Qed.

Lemma eof_not_set fp (P : Prop) : flag (clear_flag fp __SEOF) __SEOF = true -> P.
Proof. by rewrite eof_cleared. Qed.

(** _p[-1] in the buffer. *)
Lemma backs_up_spec fp l c : rd_ok fp l -> _ub fp = None -> exists back, backs_up fp c = CVal back /\
  (back = true -> chunk (_bf fp) (padd (_p fp) (-1)) (_r fp + 1) (c :: l)).
Proof.
  intros [Hv _ _ _ _] Hub. unfold view, chunk, backs_up in *. rewrite Hub in Hv. destruct (_bf fp) as [b|]; [|by exists false].
  destruct Hv as (o & -> & (pre & post & -> & ->) & Hr). destruct pre as [|y pre _] using rev_ind; [by exists false|].
  rewrite length_app. cbn [length]. rewrite (proj2 (Z.ltb_lt _ _)) by lia. rewrite <- app_assoc.
  replace (Z.of_nat (length pre + 1) - 1) with (Z.of_nat (length pre)) by lia. cbn [app]. rewrite aget_app. cbn [mbind cres_bind].
  exists (y =? c). split; [done|]. intros ->%Z.eqb_eq. exists (Z.of_nat (length pre)). cbn [padd length].
  split_and!; [f_equal; lia|by exists pre, post|lia].
Qed.

(** The buffer stays within twice the characters that were pushed back. *)
Definition ub_bound (m : Z) (fp : FILE) : Prop :=
  match _ub fp with Some (_, u) => _r fp <= m /\ (Z.of_nat (length u) <= BUFSIZ \/ Z.of_nat (length u) <= 2 * m) | None => True end.

Lemma ub_bound_keeps m fp fp' : keeps fp fp' -> ub_bound m fp -> ub_bound m fp'.
Proof.
  unfold ub_bound. intros (_ & _ & [-> |[-> Hr]]); [done|]. destruct (_ub fp) as [[own u]|]; [|done]. intros [H1 H2]. split; [lia|done].
Qed.

Lemma push_back_spec c m fp w l : st_ok fp w l -> ub_bound m fp -> 0 <= m -> m + 1 < 2 ^ 30 -> exists r fp' w' l',
  push_back c fp w = CVal (r, fp', w') /\ st_ok fp' w' l' /\ _file fp' = _file fp /\ (buffered (D:=D) fp -> buffered (D:=D) fp') /\ ub_bound (m + 1) fp' /\
  (r = c /\ inp fp' l' (w_dev w') = mkInput (c :: i_rest (inp fp l (w_dev w))) false (flag fp __SERR) \/
   r = EOF /\ no_memory /\ inp fp' l' (w_dev w') = inp fp l (w_dev w)).
Proof.
  intros [Hrd Hbf Haf] Hm Hm0 Hm1. unfold push_back. destruct (_ub fp) as [[own u]|] eqn:Hub.
  - assert (flag fp __SEOF = false) as Heof.
    { destruct (flag fp __SEOF) eqn:E; [|done]. destruct (rd_eof _ _ Hrd E) as [_ Hx]. congruence. }
    unfold ub_bound in Hm. rewrite Hub in Hm.
    assert (exists r fp1 d1, (if Z.of_nat (length u) <=? _r fp then __submore fp (w_dev w) else CVal (0, fp, w_dev w)) = CVal (r, fp1, d1) /\
      (forall fd, same_fd fd (w_dev w) d1) /\
      (r = EOF /\ fp1 = fp /\ no_memory \/ r = 0 /\ rd_ok fp1 l /\ _r fp1 = _r fp /\ (exists own1 u1, _ub fp1 = Some (own1, u1) /\ _r fp < Z.of_nat (length u1) /\
        (Z.of_nat (length u1) <= BUFSIZ \/ Z.of_nat (length u1) <= 2 * m)) /\
        fp1 = with_p (with_ub fp (_ub fp1)) (_p fp1))) as (r & fp1 & d1 & -> & Hd & Hcase).
    { destruct (Z.leb_spec (Z.of_nat (length u)) (_r fp)) as [Hle|Hgt].
      - destruct (submore_spec fp l own u (w_dev w) Hrd Hub) as (r & fp1 & d1 & E & Hd & Hcase); [lia|lia|]. exists r, fp1, d1.
        split; [done|]. split; [done|]. destruct Hcase as [?|(-> & u1 & q & -> & Hrd1 & Hlt & Hlen)]; [by left|right].
        split_and!; try done. exists false, u1. cbn. split_and!; [done|lia|]. destruct Hlen; [left|right]; lia.
      - exists 0, fp, (w_dev w). split_and!; try done. right. split_and!; try done; [|by destruct fp]. exists own, u. split_and!; try done; lia. }
    cbn [mbind cres_bind]. destruct Hcase as [(-> & -> & Hno)|(-> & Hrd1 & Hr1 & (own1 & u1 & Hub1 & Hlt & Hlen) & Hfp1)].
    + change (negb (EOF =? 0)) with true. cbv iota. exists EOF, fp, (with_dev w d1), l.
      split; [done|]. split; [by split|]. split; [done|]. split; [done|]. split.
      * unfold ub_bound. rewrite Hub. lia.
      * right. split_and!; try done. unfold inp. cbn. by destruct (Hd (_file fp)) as [-> _].
    + change (negb (0 =? 0)) with false. cbv iota zeta.
      destruct (push_ub_spec fp1 l own1 u1 c Hrd1 Hub1) as (u2 & E & Hlen2 & Hrd2); [lia|]. cbv zeta in E, Hrd2. rewrite E. cbn [mbind cres_bind].
      assert (_file fp1 = _file fp) as Hf1 by by rewrite Hfp1. assert (forall k, flag fp1 k = flag fp k) as Hfl1 by by rewrite Hfp1.
      assert (_bf fp1 = _bf fp) as Hb1 by by rewrite Hfp1.
      eexists c, _, (with_dev w d1), (c :: l). split; [done|]. split; [split; [exact Hrd2| |]; cbn; by rewrite Hf1|]. split; [done|].
      split; [intros [Hn Hb]; split; cbn; [by rewrite <- Hn, <- Hfl1|by rewrite Hb1]|]. split.
      * unfold ub_bound. cbn. rewrite Hlen2. lia.
      * left. split; [done|]. unfold inp. cbn. rewrite Hf1. destruct (Hd (_file fp)) as [-> _]. f_equal; [by rewrite <- Heof, <- Hfl1|by rewrite <- Hfl1].
  - destruct Hrd as [Hv Hrd Hwr He Hb].
    assert (rd_ok (clear_flag fp __SEOF) l) as Hrd'.
    { split; try done; [by rewrite flag_clear_eof|by rewrite flag_clear_eof|by rewrite eof_cleared]. }
    destruct (backs_up_spec _ _ c Hrd' Hub) as (back & -> & Hback). cbn [mbind cres_bind]. destruct Hrd' as [Hv' Hrd' Hwr' _ _].
    destruct back.
    + eexists c, _, w, (c :: l). split; [done|]. split; [|split; [done|split; [|split]]].
      * split; try done. split; try done.
        { unfold view. cbn. rewrite Hub. by apply Hback. }
        { exact (eof_not_set fp _). }
      * intros [Hn Hbn]. split; [|done]. by rewrite <- Hn, <- (flag_clear_eof fp __SNBF).
      * unfold ub_bound. cbn. by rewrite Hub.
      * left. split; [done|]. unfold inp. cbn [i_rest app _file with_r with_p clear_flag with_flags]. f_equal; [apply eof_cleared|by apply flag_clear_eof].
    + eexists c, _, w, (c :: l). split; [done|]. split; [|split; [done|split; [|split]]].
      * split; try done. split; try done; [|exact (eof_not_set fp _)].
        unfold view in *. cbn in *. rewrite Hub in Hv. exists 2, [c], l. split_and!; try done. by exists [0; 0], [].
      * intros [Hn Hbn]. split; [|done]. by rewrite <- Hn, <- (flag_clear_eof fp __SNBF).
      * unfold ub_bound. cbn. change BUFSIZ with 1024. lia.
      * left. split; [done|]. unfold inp. cbn [i_rest app _file with_r with_p with_ub with_up clear_flag with_flags]. f_equal; [apply eof_cleared|by apply flag_clear_eof].
Qed.

Lemma ungetc_spec c m fp w l : st_ok fp w l -> ub_bound m fp -> 0 <= m -> m + 1 < 2 ^ 30 -> exists r fp' w' l',
  ungetc c fp w = CVal (r, fp', w') /\ st_ok fp' w' l' /\ _file fp' = _file fp /\ (buffered (D:=D) fp -> buffered (D:=D) fp') /\ ub_bound (m + 1) fp' /\
  spec_op (D:=D) (Ungetc c) (inp fp l (w_dev w)) (r, []) (inp fp' l' (w_dev w')).
Proof.
  intros Hst Hm Hm0 Hm1. unfold ungetc. destruct (Z.eqb_spec c EOF) as [->|Hc].
  - exists EOF, fp, w, l. split_and!; try done; [|by apply spec_ungetc_no; left].
    unfold ub_bound in *. destruct (_ub fp) as [[own u]|]; [lia|done].
  - rewrite (rd_srd _ _ (st_rd _ _ _ Hst)). cbn [negb].
    destruct (push_back_spec (u8 c) m fp w l Hst Hm Hm0 Hm1) as (r & fp' & w' & l' & E & Hst' & Hf & Hb & Hu & Hcase).
    exists r, fp', w', l'. split_and!; try done. destruct Hcase as [[-> ->]|(-> & Hno & ->)].
    + by apply spec_ungetc.
    + apply spec_ungetc_no. by right.
Qed.

(** A stream in which nothing waits, of which the offset and indicators are changed only. *)
Definition quiet (m : Z) (fp fp' : FILE) : Prop :=
  fp' = with_flags (with_offset fp (_offset fp')) (_flags fp') /\ flags_but m fp fp'.

Lemma st_quiet fp fp' w d : st_ok fp w [] -> _ub fp = None -> quiet (Z.lor (Z.lor __SOFF __SMOD) (Z.lor __SEOF __SERR)) fp fp' ->
  st_ok fp' (with_dev w d) [] /\ keeps fp fp' /\ _file fp' = _file fp /\ _ub fp' = None.
Proof.
  intros [[Hv Hrd Hwr _ Hb] Hbf Haf] Hub [E Hfl].
  assert (_file fp' = _file fp /\ _ub fp' = None /\ _r fp' = _r fp /\ _bf fp' = _bf fp /\ _p fp' = _p fp) as (Hf & Hu & Hr & Hbf' & Hp) by by rewrite E.
  unfold view in Hv. rewrite Hub in Hv. assert (_r fp = 0) as Hr0.
  { revert Hv. unfold chunk. destruct (_bf fp); [by intros (? & _ & _ & ->)|by intros []]. }
  split; [|split; [split_and!; [done| |by left]|done]].
  - split; rewrite ?Hf; try done. split; [|by rewrite Hfl|by rewrite Hfl|by rewrite Hr|by rewrite Hbf'].
    unfold view. by rewrite Hu, Hbf', Hp, Hr.
  - intros [Hn Hb']. split; [by rewrite Hfl|by rewrite Hbf'].
Qed.

(** One read into the caller's memory: the stream after it, and at the end of input. *)
Lemma uread_step fp (d : D) n : flag fp __SEOF = false -> 0 < n -> exists fp1 d1 len bytes,
  __sread fp n d = (fp1, d1, (len, bytes)) /\
  let fp1 := clear_flag fp1 __SMOD in let fp2 := if len =? 0 then set_flag fp1 __SEOF else set_flag fp1 __SERR in
  quiet (Z.lor (Z.lor __SOFF __SMOD) (Z.lor __SEOF __SERR)) fp fp1 /\ flag fp1 __SEOF = false /\ flag fp1 __SERR = flag fp __SERR /\
  (0 < len -> len = Z.of_nat (length bytes) /\ len <= n /\ d_in d (_file fp) = bytes ++ d_in d1 (_file fp)) /\
  (len <= 0 -> quiet (Z.lor (Z.lor __SOFF __SMOD) (Z.lor __SEOF __SERR)) fp fp2 /\ d_in d (_file fp) = d_in d1 (_file fp) /\
     input_end (inp fp [] d) [] (inp fp2 [] d1)).
Proof.
  intros Heof Hn. unfold __sread. destruct (d_read d (_file fp) n) as [d1 [len bytes]] eqn:E. apply read_law in E as (_ & _ & Hin).
  eexists _, d1, len, bytes. split; [done|]. cbv zeta. set (fp1 := clear_flag _ __SMOD). set (fp2 := if len =? 0 then _ else _).
  set (m := Z.lor _ _). assert (flags_but (Z.lor __SOFF __SMOD) fp fp1) as Hfl.
  { subst fp1. destruct (0 <=? len); apply flags_but_clear; try done. by apply flags_but_clear. }
  assert (flags_but m fp fp1) as Hflm.
  { intros k Hk. apply Hfl. revert Hk. subst m. rewrite Z.land_lor_distr_r, Z.lor_eq_0_iff. by intros []. }
  assert (quiet m fp fp1) as Hq1 by (split; [subst fp1; destruct (0 <=? len); by destruct fp|done]).
  assert (quiet m fp fp2) as Hq2.
  { split; [subst fp2 fp1; destruct (len =? 0), (0 <=? len); by destruct fp|]. subst fp2. destruct (len =? 0); by apply flags_but_set. }
  assert (flag fp1 __SEOF = false) as He1 by (rewrite <- Heof; by apply Hfl). assert (flag fp1 __SERR = flag fp __SERR) as He2 by by apply Hfl.
  split; [done|]. split; [done|]. split; [done|]. split; [intros Hl; destruct Hin as [[? _]|(? & ? & ? & _)]; [lia|done]|]. intros Hl.
  assert (d_in d (_file fp) = d_in d1 (_file fp) /\ (len = 0 -> d_in d1 (_file fp) = [])) as [Hd Hd0].
  { destruct Hin as [[? ->]|(Hl' & _ & Hi & Hz)]; [by split; [|lia]|]. assert (len = 0) as -> by lia. destruct bytes; [|cbn [length] in Hl'; lia].
    cbn in Hi. rewrite Hi in Hz. split; [done|]. intros _. by apply Hz. }
  split; [done|]. split; [done|]. assert (_file fp2 = _file fp) as Hf2 by by rewrite (proj1 Hq2).
  subst fp2. destruct (Z.eqb_spec len 0) as [->|Hne].
  - apply at_eof; cbn [i_eof i_err i_rest inp app]; [by flag_consts; masks|rewrite <- He2; by flag_consts; masks|left; rewrite Hf2; by apply Hd0].
  - apply at_err; cbn [i_eof i_err inp]; [rewrite <- He1|]; by flag_consts; masks.
Qed.

(** fread, of an unbuffered stream in which nothing waits. *)
Lemma uread_loop_spec fuel fp w resid p : st_ok fp w [] -> _ub fp = None -> flag fp __SEOF = false -> 0 <= resid -> (Z.to_nat resid < fuel)%nat ->
  exists short rem q fp' d', uread_loop fuel fp (w_dev w) resid p = CVal (short, rem, p ++ q, fp', d') /\
  st_ok fp' (with_dev w d') [] /\ keeps fp fp' /\ takes resid (inp fp [] (w_dev w)) q (inp fp' [] d') /\
  (short = false /\ Z.of_nat (length q) = resid \/ short = true /\ rem = resid - Z.of_nat (length q) /\ Z.of_nat (length q) < resid).
Proof.
  revert fp w resid p. induction fuel as [|fuel IH]; intros fp w resid p Hst Hub Heof Hr Hf; [lia|]. cbn [uread_loop].
  destruct (Z.leb_spec resid 0) as [H0|H0].
  { assert (resid = 0) as -> by lia. exists false, 0, [], fp, (w_dev w). rewrite app_nil_r. split; [done|].
    split; [by destruct w|]. split; [apply keeps_refl|]. split; [by apply takes_all|by left]. }
  destruct (uread_step fp (w_dev w) resid Heof H0) as (fp0 & d1 & len & bytes & -> & Hstep). cbv zeta in *.
  destruct Hstep as (Hq1 & He1 & He2 & Hpos & Hend). set (fp1 := clear_flag fp0 __SMOD) in *.
  destruct (Z.leb_spec len 0) as [Hle|Hgt].
  - destruct (Hend Hle) as (Hq2 & Hd & Hie). eexists true, resid, [], _, d1. rewrite app_nil_r. split; [done|].
    destruct (st_quiet _ _ w d1 Hst Hub Hq2) as (Hst2 & Hk2 & Hf2 & _). split; [done|]. split; [done|].
    split; [|right; cbn [length]; split_and!; [done|lia|lia]]. apply takes_some; [cbn [i_rest inp app]; by rewrite Hf2|cbn [length]; lia|done].
  - destruct (Hpos Hgt) as (Hl & Hle & Hd). destruct (st_quiet _ _ w d1 Hst Hub Hq1) as (Hst1 & Hk1 & Hf1 & Hub1).
    destruct (IH fp1 (with_dev w d1) (resid - len) (p ++ bytes) Hst1 Hub1 He1) as (short & rem & q & fp' & d' & E & Hst' & Hk & Ht & Hcase); [lia|lia|].
    cbn [w_dev with_dev] in E. rewrite E. exists short, rem, (bytes ++ q), fp', d'. rewrite app_assoc. split; [done|]. split; [done|].
    split; [by apply (keeps_trans _ fp1)|]. rewrite length_app.
    split; [|destruct Hcase as [[-> ?]|(-> & -> & ?)]; [left; split; [done|lia]|right; split_and!; [done|lia|lia]]].
    replace resid with (Z.of_nat (length bytes) + (resid - len)) by lia. apply (takes_app _ _ (inp fp1 [] d1)); cbn [i_rest i_eof i_err inp app]; [by rewrite Hf1|congruence|done|done|done].
Qed.

Lemma fread_result size count (short : bool) rem resid (q : list Z) : 0 < resid ->
  (short = false /\ Z.of_nat (length q) = resid \/ short = true /\ rem = resid - Z.of_nat (length q) /\ Z.of_nat (length q) < resid) ->
  (if short then (resid - rem) / size else count) =
  (if Z.of_nat (length q) =? resid then if resid =? 0 then 0 else count else Z.of_nat (length q) / size).
Proof.
  intros Hr [[-> ->]|(-> & -> & Hq)]; [by rewrite Z.eqb_refl, (proj2 (Z.eqb_neq resid 0)) by lia|].
  rewrite (proj2 (Z.eqb_neq _ resid)) by lia.
  by replace (resid - (resid - Z.of_nat (length q))) with (Z.of_nat (length q)) by lia.
Qed.

Lemma unbuffered_spec fp w total size count : st_ok fp w [] -> _ub fp = None -> flag fp __SEOF = false -> 0 < total -> exists q fp' w',
  fread_unbuffered fp w total size count =
    CVal (if Z.of_nat (length q) =? total then if total =? 0 then 0 else count else Z.of_nat (length q) / size, q, fp', w') /\
  st_ok fp' w' [] /\ keeps fp fp' /\ takes total (inp fp [] (w_dev w)) q (inp fp' [] (w_dev w')).
Proof.
  intros Hst Hub Heof Htot. unfold fread_unbuffered. pose proof (st_r _ _ _ Hst) as Hr. rewrite (with_r_id fp 0) by (cbn in Hr; lia).
  pose proof Hst as [[_ Hrd Hwr _ _] Hbf Haf]. rewrite Heof, Hrd. cbn [negb]. unfold HASUB. rewrite Hub. cbv zeta.
  assert (exists w1, (if flag fp (Z.lor __SLBF __SNBF) then walk_all fp w else CVal (fp, w)) = CVal (fp, w1) /\ st_ok fp w1 [] /\
    d_in (w_dev w1) (_file fp) = d_in (w_dev w) (_file fp)) as (w1 & -> & Hst1 & Hd1).
  { destruct (flag fp (Z.lor __SLBF __SNBF)); [|by exists w]. destruct (walk_all_spec fp w Hwr Hbf Haf) as (w1 & -> & Hb1 & Ha1 & [Hd1 _]).
    exists w1. split; [done|]. split; [|done]. by destruct Hst. }
  cbn [mbind cres_bind]. destruct (uread_loop_spec (S (Z.to_nat total)) fp w1 total [] Hst1 Hub Heof) as (short & rem & q & fp' & d' & -> & Hst' & Hk & Ht & Hcase); [lia|lia|].
  cbn [mbind cres_bind app]. eexists q, fp', _. rewrite (fread_result _ _ _ _ _ _ Htot Hcase). split; [done|]. split; [done|]. split; [done|].
  unfold inp in Ht at 1. rewrite Hd1 in Ht. exact Ht.
Qed.

Lemma fread_spec size count fp w l : st_ok fp w l ->
  flag fp __SNBF = false \/ l = [] /\ _ub fp = None /\ flag fp __SEOF = false -> exists v fp' w' l',
  fread size count fp w = CVal (v.1, v.2, fp', w') /\ st_ok fp' w' l' /\ keeps fp fp' /\
  spec_op (D:=D) (Fread size count) (inp fp l (w_dev w)) v (inp fp' l' (w_dev w')).
Proof.
  intros Hst Hn. unfold fread. pose proof (u32_range (count * size)) as Hresid.
  pose proof (spec_fread (D:=D) (inp fp l (w_dev w)) size count) as Hs. set (resid := u32 (count * size)) in *.
  destruct (Z.eqb_spec resid 0) as [H0|H0].
  { exists (0, []), fp, w, l. split; [done|]. split; [done|]. split; [apply keeps_refl|].
    specialize (Hs [] (inp fp l (w_dev w))). cbn [length] in Hs. rewrite H0 in Hs. apply Hs. by apply takes_all. }
  pose proof (st_r _ _ _ Hst) as Hr. rewrite (proj2 (Z.ltb_ge (_r fp) 0)) by lia.
  destruct (flag fp __SNBF && (_ur fp =? 0)) eqn:Eu.
  - destruct Hn as [Hn|(-> & Hub & Heof)]; [by rewrite Hn in Eu|].
    destruct (unbuffered_spec fp w resid size count Hst Hub Heof) as (q & fp' & w' & -> & Hst' & Hk & Ht); [lia|].
    eexists (_, _), fp', w', []. cbn [fst snd]. split; [done|]. split; [done|]. split; [done|].
    rewrite (proj2 (Z.eqb_neq resid 0) H0). by apply Hs.
  - destruct (fread_loop_spec (S (S (Z.to_nat resid))) fp w l resid [] Hst) as (short & rem & q & fp' & w' & l' & -> & Hst' & Hk & Ht & Hcase);
      [lia|destruct (_r fp =? 0); lia|].
    cbn [mbind cres_bind app]. eexists (_, _), fp', w', l'. cbn [fst snd]. split; [done|]. split; [done|]. split; [done|].
    rewrite (fread_result size count short rem resid q ltac:(lia) Hcase), (proj2 (Z.eqb_neq resid 0) H0). by apply Hs.
Qed.

(** ** Sequences of operations *)

(** The fast path of fread, for an unbuffered stream, drops what waits and answers
    EOF as a size_t when the indicator is set: an fread is clear of that when the
    stream does not take the fast path, or nothing waits and the indicator is not
    set.  [freads_clear]: so is every fread of a run, where it happens. *)
Definition fread_clear (fp : FILE) : Prop :=
  flag fp __SNBF = false \/ _r fp = 0 /\ _ub fp = None /\ flag fp __SEOF = false.

Fixpoint freads_clear (os : list op) (fp : FILE) (w : world D) : Prop :=
  match os with
  | [] => True
  | o :: os =>
      (match o with Fread _ _ => fread_clear fp | _ => True end) /\
      forall v s fp' w', run_op o fp w = CVal (v, s, fp', w') -> freads_clear os fp' w'
  end.

(** Nothing waits where nothing was pushed back and the count is 0. *)
Lemma nothing_waits fp w l : st_ok fp w l -> _r fp = 0 -> _ub fp = None -> l = [].
Proof.
  intros [[Hv _ _ _ _] _ _] Hr Hu. unfold view in Hv. rewrite Hu in Hv. unfold chunk in Hv.
  destruct (_bf fp); [|by destruct Hv]. destruct Hv as (o & _ & _ & Hl). destruct l; [done|]. cbn in Hl. lia.
Qed.

Lemma run_op_spec o m fp w l : st_ok fp w l -> match o with Fread _ _ => fread_clear fp | _ => True end ->
  ub_bound m fp -> 0 <= m -> m + 1 < 2 ^ 30 -> exists v fp' w' l',
  run_op o fp w = CVal (v.1, v.2, fp', w') /\ st_ok fp' w' l' /\ (buffered (D:=D) fp -> buffered (D:=D) fp') /\ ub_bound (m + 1) fp' /\
  spec_op (D:=D) o (inp fp l (w_dev w)) v (inp fp' l' (w_dev w')).
Proof.
  intros Hst Hclear Hu Hm0 Hm1.
  assert (forall fp', keeps fp fp' -> ub_bound (m + 1) fp') as Hkeep.
  { intros fp' Hk. apply (ub_bound_keeps _ fp fp' Hk). revert Hu. unfold ub_bound. destruct (_ub fp) as [[own u]|]; [lia|done]. }
  destruct o as [|c|size count|n]; cbn [run_op].
  - destruct (getc_spec fp w l Hst) as (c & fp' & w' & l' & -> & Hst' & Hk & Hs). cbn [mbind cres_bind].
    exists (c, []), fp', w', l'. split_and!; try done; [apply Hk|by apply Hkeep].
  - destruct (ungetc_spec c m fp w l Hst Hu Hm0 Hm1) as (r & fp' & w' & l' & -> & Hst' & Hf & Hb & Hu' & Hs). cbn [mbind cres_bind].
    exists (r, []), fp', w', l'. split_and!; done.
  - destruct (fread_spec size count fp w l Hst) as (v & fp' & w' & l' & -> & Hst' & Hk & Hs).
    { destruct Hclear as [Hnb|(Hr & Hub & He)]; [by left|right]. split_and!; [by apply (nothing_waits fp w)|done|done]. }
    exists v, fp', w', l'. split_and!; try done; [apply Hk|by apply Hkeep].
  - destruct (fgets_spec n fp w l Hst) as (s & fp' & w' & l' & -> & Hst' & Hk & Hs). cbn [mbind cres_bind].
    eexists (match s with None => (0, []) | Some s => (1, s) end), fp', w', l'.
    split_and!; try done; [by destruct s|apply Hk|by apply Hkeep].
Qed.

(** C13: any sequence of getc, ungetc, fread and fgets on a stream that is read returns
    (of fewer than 2^30 of them, with what was pushed back before),
    whatever the device does, and gives what the specification gives: the bytes of the
    stream in their order, characters that were pushed back in front of them, lines that end
    with the first newline, and short results only when input ended, with the indicator of
    why; the stream is left in a state for the next operation.  The stream has a buffer, or
    it has none (unbuffered, or without memory for one) and every fread of the sequence comes
    where no byte waits, no buffer of pushed-back characters is in use and the indicator of
    the end of the file is not set; what fread does otherwise to an unbuffered stream is in
    [fread_drops_pushed_back], [fread_eof_count] and [fread_leaves_pointer]. *)
Theorem reads_refine os m fp w l : st_ok fp w l -> buffered (D:=D) fp \/ freads_clear os fp w ->
  ub_bound m fp -> 0 <= m -> m + Z.of_nat (length os) < 2 ^ 30 ->
  exists vs fp' w' l', run_ops os fp w = CVal (vs, fp', w') /\ st_ok fp' w' l' /\
  spec_ops (D:=D) os (inp fp l (w_dev w)) vs (inp fp' l' (w_dev w')).
Proof.
  revert m fp w l. induction os as [|o os IH]; intros m fp w l Hst Hb Hu Hm Hlen; [by exists [], fp, w, l|]. cbn [length] in Hlen.
  assert (match o with Fread _ _ => fread_clear fp | _ => True end) as Ho.
  { destruct o; try done. destruct Hb as [[Hb _]|[Hb _]]; [by left|done]. }
  destruct (run_op_spec o m fp w l Hst Ho Hu Hm) as (v & fp1 & w1 & l1 & E & Hst1 & Hb1 & Hu1 & Hs); [lia|].
  destruct (IH (m + 1) fp1 w1 l1 Hst1) as (vs & fp2 & w2 & l2 & E2 & Hst2 & Hs2); [|done|lia|lia|].
  { destruct Hb as [Hb|[_ Hb]]; [left; auto|right; by apply (Hb _ _ _ _ E)]. }
  cbn [run_ops]. rewrite E. cbn [mbind cres_bind]. rewrite E2. cbn [mbind cres_bind fst snd].
  exists (v :: vs), fp2, w2, l2. split; [by destruct v|]. split; [done|]. cbn. eauto.
Qed.
End laws.

(** A stream on descriptor 3 that was just opened for reading, alone. *)
Definition reader (flags : Z) : FILE := mkFILE PNull 0 0 (Z.lor __SRD flags) 3 None 0 None PNull 0 None 0 0 0.
Definition alone (bytes : list Z) : world tape := mkWorld [] [] (mkTape bytes [] 100).

Lemma reader_ok flags bytes : flags = 0 \/ flags = __SNBF -> st_ok (reader flags) (alone bytes) [].
Proof. intros [-> | ->]; split; try done; split; done. Qed.

(** "ab\ncd": a is read, x pushed back, then the rest of the line, and two characters more;
    on the unbuffered stream the line is read with the pushed-back character by fgets, then
    two bytes by fread. *)
Lemma reads_refine_witness :
  (exists fp' w' l', run_ops [Getc; Ungetc 120; Fgets 10; Fread 1 3; Getc] (reader 0) (alone [97; 98; 10; 99; 100]) =
    CVal ([(97, []); (120, []); (1, [120; 98; 10; 0]); (2, [99; 100]); (EOF, [])], fp', w') /\ st_ok fp' w' l' /\
  spec_ops (D:=tape) [Getc; Ungetc 120; Fgets 10; Fread 1 3; Getc] (mkInput [97; 98; 10; 99; 100] false false)
    [(97, []); (120, []); (1, [120; 98; 10; 0]); (2, [99; 100]); (EOF, [])] (inp fp' l' (w_dev w'))) /\
  exists fp' w' l', run_ops [Getc; Ungetc 120; Fgets 10; Fread 1 3; Getc] (reader __SNBF) (alone [97; 98; 10; 99; 100]) =
    CVal ([(97, []); (120, []); (1, [120; 98; 10; 0]); (2, [99; 100]); (EOF, [])], fp', w') /\ st_ok fp' w' l' /\
  spec_ops (D:=tape) [Getc; Ungetc 120; Fgets 10; Fread 1 3; Getc] (mkInput [97; 98; 10; 99; 100] false false)
    [(97, []); (120, []); (1, [120; 98; 10; 0]); (2, [99; 100]); (EOF, [])] (inp fp' l' (w_dev w')).
Proof.
  split.
  - destruct (reads_refine [Getc; Ungetc 120; Fgets 10; Fread 1 3; Getc] 0 (reader 0) (alone [97; 98; 10; 99; 100]) []) as (vs & fp' & w' & l' & E & Hst & Hs).
    + by apply reader_ok; left.
    + left. split; [done|]. right. intros d n Hn. cbn. by rewrite (proj2 (Z.leb_le 0 n)).
    + done.
    + done.
    + done.
    + assert (vs = [(97, []); (120, []); (1, [120; 98; 10; 0]); (2, [99; 100]); (EOF, [])]) as ->
        by (revert E; clear; intros E; vm_compute in E; by injection E as <- _ _).
      exists fp', w', l'. split; [exact E|]. split; [exact Hst|exact Hs].
  - destruct (reads_refine [Getc; Ungetc 120; Fgets 10; Fread 1 3; Getc] 0 (reader __SNBF) (alone [97; 98; 10; 99; 100]) []) as (vs & fp' & w' & l' & E & Hst & Hs).
    + by apply reader_ok; right.
    + right. cbn [freads_clear].
      do 5 (split; [first [exact I|right; split_and!; reflexivity]|];
        let E := fresh in intros ? ? ? ? E; vm_compute in E; injection E as <- <- <- <-).
      exact I.
    + done.
    + done.
    + done.
    + assert (vs = [(97, []); (120, []); (1, [120; 98; 10; 0]); (2, [99; 100]); (EOF, [])]) as ->
        by (revert E; clear; intros E; vm_compute in E; by injection E as <- _ _).
      exists fp', w', l'. split; [exact E|]. split; [exact Hst|exact Hs].
Defined.

(** ** Unbuffered streams: what fread does to what waits *)

(** A character that was pushed back is lost. *)
Lemma fread_drops_pushed_back : exists fp' w',
  run_ops [Getc; Ungetc 120; Fread 1 1] (reader __SNBF) (alone [97; 98; 99]) = CVal ([(97, []); (120, []); (1, [98])], fp', w').
Proof. eexists _, _. vm_compute. reflexivity. Qed.

(** At the end of the file the number of items is (size_t)EOF. *)
Lemma fread_eof_count : exists fp' w',
  run_ops [Fread 1 2; Fread 1 2] (reader __SNBF) (alone [97]) = CVal ([(1, [97]); (2 ^ 32 - 1, [])], fp', w').
Proof. eexists _, _. vm_compute. reflexivity. Qed.

(** The pointer is left in the memory of the characters that were pushed back, which is
    freed: ungetc looks at what is in front of it. *)
Lemma fread_leaves_pointer :
  run_ops ([Getc; Ungetc 1; Ungetc 2; Ungetc 3; Ungetc 4; Getc; Getc; Getc; Getc; Fread 1 1; Ungetc 121])
    (reader __SNBF) (alone [97; 98; 99]) = CUndef.
Proof. vm_compute. reflexivity. Qed.
