(* ===== verification/StdioWrite.v ===== *)
(** * Streams that are written (libc/stdio/wbuf.c, putc.c, fvwrite.c, fwrite.c, fputs.c, puts.c)

    Writing puts bytes into the buffer of a stream, which goes to the descriptor when it is
    full, when a line ends in it (of a line buffered stream), at once (of an unbuffered one)
    or when it is flushed.  The specification is what was written to the descriptor, what is
    held back and an error indicator. *)

From Stdlib Require Import ZArith Lia.
From stdpp Require Import base list numbers.
From S2P Require Import Prelude Bytes Stdio.

Open Scope Z_scope.

Section stdio_write.
Context {D : Type} `{!Device D}.

(** ** putc *)

Definition __swbuf (c : Z) (fp : FILE) (d : D) : cres (Z * FILE * D) :=
  let fp := with_w fp (_lbfsize fp) in
  let '(bad, fp, d) := cantwrite fp d in
  if bad then CVal (EOF, fp, d)
  else
    let c := u8 c in
    n ← bf_offset fp (_p fp);
    r ← (if bf_size fp <=? n then r ← fflush fp d; CVal (r, 0) else CVal (0, fp, d, n));
    let '(r, fp, d, n) := r in
    if negb (r =? 0) then CVal (EOF, fp, d)
    else
      let fp := with_w fp (_w fp - 1) in
      fp ← store_p fp (_p fp) [c];
      let fp := with_p fp (padd (_p fp) 1) in
      if (n + 1 =? bf_size fp) || (flag fp __SLBF && (c =? 10)) then
        r ← fflush fp d;
        let '(r, fp, d) := r in
        CVal (if negb (r =? 0) then EOF else c, fp, d)
      else CVal (c, fp, d).

Definition __sputc (c : Z) (fp : FILE) (d : D) : cres (Z * FILE * D) :=
  let fp := with_w fp (_w fp - 1) in
  if (0 <=? _w fp) || ((_lbfsize fp <=? _w fp) && negb (u8 c =? 10)) then
    fp ← store_p fp (_p fp) [u8 c];
    CVal (u8 c, with_p fp (padd (_p fp) 1), d)
  else __swbuf c fp d.

(** putc_unlocked and putc. *)
Definition putc (c : Z) (fp : FILE) (d : D) : cres (Z * FILE * D) :=
  let '(bad, fp, d) := cantwrite fp d in
  if bad then CVal (EOF, fp, d) else __sputc c fp d.

(** ** __sfvwrite *)

(** GETIOV: the regions are lists of bytes; whether it went on to another one. *)
Fixpoint GETIOV (p : list Z) (iov : list (list Z)) : cres (list Z * list (list Z) * bool) :=
  match p with
  | _ :: _ => CVal (p, iov, false)
  | [] => match iov with [] => CUndef | q :: iov => r ← GETIOV q iov; CVal (r.1.1, r.1.2, true) end
  end.

(** COPY and the step of _p. *)
Definition COPY (fp : FILE) (p : list Z) (n : Z) : cres FILE :=
  bytes ← aslice p 0 n; fp ← store_p fp (_p fp) bytes; CVal (with_p fp (padd (_p fp) n)).

(** _p is behind the start of the buffer. *)
Definition partly_full (fp : FILE) : cres bool := o ← bf_offset fp (_p fp); CVal (0 <? o).

(** The three things that are done with bytes: how much was taken, or None where the code goes to err. *)
Definition fill_and_flush (fp : FILE) (d : D) (p : list Z) (w : Z) : cres (option Z * FILE * D) :=
  fp ← COPY fp p w;
  r ← fflush fp d;
  let '(r, fp, d) := r in
  CVal (if negb (r =? 0) then None else Some w, fp, d).
Definition write_directly (fp : FILE) (d : D) (p : list Z) : option Z * FILE * D :=
  let '(fp, d, w) := __swrite fp p d in (if w <=? 0 then None else Some w, fp, d).
Definition fill_and_done (fp : FILE) (p : list Z) (n : Z) : cres FILE :=
  fp ← COPY fp p n; CVal (with_w fp (_w fp - n)).

(** s bytes that are to be written to a buffer with room for w. *)
Definition buffer_step (fp : FILE) (d : D) (p : list Z) (w s : Z) : cres (option Z * FILE * D) :=
  partly ← partly_full fp;
  if partly && (w <? s) then fill_and_flush fp d p w
  else if bf_size fp <=? s then CVal (write_directly fp d (take (Z.to_nat (bf_size fp)) p))
  else fp ← fill_and_done fp p s; CVal (Some s, fp, d).

(** The step of each loop; [nl] is nldist, when it is known. *)
Definition unbuf_step (nl : option Z) (fp : FILE) (d : D) (p : list Z) : cres (option Z * option Z * FILE * D) :=
  let '(w, fp, d) := write_directly fp d p in CVal (w, nl, fp, d).

(** The sizes of an allocated string are doubled until the bytes fit. *)
Fixpoint grow_size (fuel : nat) (size need : Z) : cres Z :=
  match fuel with
  | O => CFuel
  | S f =>
      let size := Z.shiftl size 1 + 1 in
      if INT_MAX <? size then CUndef else if size <? need then grow_size f size need else CVal size
  end.

(** realloc of the buffer; the byte behind it, which is for a NUL, is not in the list. *)
Definition grow_string (fp : FILE) (d : D) (len : Z) : cres (bool * FILE * D) :=
  if flag fp __SALC && flag fp __SSTR && (_w fp <? s32 len) then
    blen ← bf_offset fp (_p fp);
    size ← grow_size 32 (bf_size fp) (s32 (blen + len));
    let '(d, m) := d_malloc d (size + 1) in
    match m, _bf fp with
    | Some m, Some b =>
        CVal (true, with_bf (with_w fp (_w fp + (size - bf_size fp))) (Some (take (Z.to_nat size) (b ++ drop (length b) m))), d)
    | _, _ => CVal (false, fp, d)
    end
  else CVal (true, fp, d).

Definition full_step (nl : option Z) (fp : FILE) (d : D) (p : list Z) : cres (option Z * option Z * FILE * D) :=
  let len := Z.of_nat (length p) in
  g ← grow_string fp d len;
  let '(ok, fp, d) := g in
  if negb ok then CVal (None, nl, fp, d)
  else
    let w := _w fp in
    if flag fp __SSTR then
      fp ← fill_and_done fp p (if s32 len <? w then s32 len else w);
      CVal (Some len, nl, fp, d)
    else
      x ← buffer_step fp d p w (s32 len);
      let '(w, fp, d) := x in CVal (w, nl, fp, d).

(** The distance to the first newline, or more than there is. *)
Definition newline_dist (p : list Z) : Z :=
  match list_find (.= 10) p with Some (i, _) => Z.of_nat i + 1 | None => s32 (Z.of_nat (length p)) + 1 end.

Definition line_step (nl : option Z) (fp : FILE) (d : D) (p : list Z) : cres (option Z * option Z * FILE * D) :=
  let len := Z.of_nat (length p) in
  let nldist := match nl with Some n => n | None => newline_dist p end in
  let s := if s32 len <? nldist then s32 len else nldist in
  x ← buffer_step fp d p (_w fp + bf_size fp) s;
  let '(w, fp, d) := x in
  match w with
  | None => CVal (None, nl, fp, d)
  | Some w =>
      if nldist - w =? 0 then
        r ← fflush fp d;
        let '(r, fp, d) := r in
        CVal (if negb (r =? 0) then None else Some w, None, fp, d)
      else CVal (Some w, Some (nldist - w), fp, d)
  end.

(** The loops, which differ in their steps: the result, and uio_resid. *)
Fixpoint uio_loop (step : option Z -> FILE -> D -> list Z -> cres (option Z * option Z * FILE * D))
    (fuel : nat) (nl : option Z) (fp : FILE) (d : D) (p : list Z) (iov : list (list Z)) (resid : Z) : cres (Z * Z * FILE * D) :=
  match fuel with
  | O => CFuel
  | S f =>
      g ← GETIOV p iov;
      let '(p, iov, next) := g in
      r ← step (if next : bool then None else nl) fp d p;
      let '(w, nl, fp, d) := r in
      match w with
      | None => CVal (EOF, resid, set_flag fp __SERR, d)
      | Some w =>
          if resid - w =? 0 then CVal (0, 0, fp, d)
          else uio_loop step f nl fp d (drop (Z.to_nat w) p) iov (resid - w)
      end
  end.

Definition __sfvwrite (fp : FILE) (d : D) (iov : list (list Z)) (uio_resid : Z) : cres (Z * Z * FILE * D) :=
  if uio_resid =? 0 then CVal (0, 0, fp, d)
  else
    let '(bad, fp, d) := cantwrite fp d in
    if bad then CVal (EOF, uio_resid, fp, d)
    else
      match iov with
      | [] => CUndef
      | p :: iov =>
          uio_loop (if flag fp __SNBF then unbuf_step else if flag fp __SLBF then line_step else full_step)
            (S (S (2 * Z.to_nat uio_resid))) None fp d p iov uio_resid
      end.

(** ** fwrite, fputs and puts *)

Definition fwrite (buf : list Z) (size count : Z) (fp : FILE) (d : D) : cres (Z * FILE * D) :=
  let n := u32 (count * size) in
  bytes ← aslice buf 0 n;
  r ← __sfvwrite fp d [bytes] (s32 n);
  let '(r, resid, fp, d) := r in
  CVal (if r =? 0 then count else u32 (n - resid) / size, fp, d).

Definition fputs (s : list Z) (fp : FILE) (d : D) : cres (Z * FILE * D) :=
  r ← __sfvwrite fp d [s] (s32 (Z.of_nat (length s)));
  let '(r, _, fp, d) := r in CVal (r, fp, d).

(** puts writes to stdout, which is fp here. *)
Definition puts (s : list Z) (fp : FILE) (d : D) : cres (Z * FILE * D) :=
  r ← __sfvwrite fp d [s; [10]] (s32 (Z.of_nat (length s) + 1));
  let '(r, _, fp, d) := r in CVal (if negb (r =? 0) then EOF else 10, fp, d).
End stdio_write.

(** ** The specification: what was written, what is held back, and the error indicator *)

Record output := mkOutput { o_done : list Z; o_held : list Z; o_err : bool }.

(** [l] is sent: all of it is behind what was sent before, or an error is known and a part of
    what was to be written is. *)
Inductive sends (a : output) (l : list Z) : bool -> output -> Prop :=
| sends_all a' : o_done a' ++ o_held a' = o_done a ++ o_held a ++ l -> o_done a `prefix_of` o_done a' -> o_err a' = o_err a -> sends a l true a'
| sends_part a' q : o_done a' = o_done a ++ q -> q `prefix_of` o_held a ++ l -> o_held a' = [] -> o_err a' = true -> sends a l false a'.

Inductive op : Type := Putc (c : Z) | Fwrite (buf : list Z) (size count : Z) | Fputs (s : list Z) | Puts (s : list Z) | Fflush.

Section run.
Context {D : Type} `{!Device D}.

Definition run_op (o : op) (fp : FILE) (d : D) : cres (Z * FILE * D) :=
  match o with
  | Putc c => putc c fp d
  | Fwrite buf size count => fwrite buf size count fp d
  | Fputs s => fputs s fp d
  | Puts s => puts s fp d
  | Fflush => fflush fp d
  end.

Fixpoint run_ops (os : list op) (fp : FILE) (d : D) : cres (list Z * FILE * D) :=
  match os with
  | [] => CVal ([], fp, d)
  | o :: os => x ← run_op o fp d; let '(v, fp, d) := x in y ← run_ops os fp d; CVal (v :: y.1.1, y.1.2, y.2)
  end.
End run.

(** What an operation returns.  A short count of fwrite counts items that were written. *)
Inductive spec_op : op -> output -> Z -> output -> Prop :=
| spec_putc a c a' : sends a [u8 c] true a' -> spec_op (Putc c) a (u8 c) a'
| spec_putc_err a c a' : sends a [u8 c] false a' -> spec_op (Putc c) a EOF a'
| spec_fwrite a buf size count a' : sends a (take (Z.to_nat (u32 (count * size))) buf) true a' -> spec_op (Fwrite buf size count) a count a'
| spec_fwrite_err a buf size count k a' : sends a (take (Z.to_nat (u32 (count * size))) buf) false a' ->
    0 <= k < u32 (count * size) -> o_done a ++ o_held a ++ take (Z.to_nat k) buf `prefix_of` o_done a' \/ k = 0 ->
    spec_op (Fwrite buf size count) a (k / size) a'
| spec_fputs a s a' : sends a s true a' -> spec_op (Fputs s) a 0 a'
| spec_fputs_err a s a' : sends a s false a' -> spec_op (Fputs s) a EOF a'
| spec_puts a s a' : sends a (s ++ [10]) true a' -> spec_op (Puts s) a 10 a'
| spec_puts_err a s a' : sends a (s ++ [10]) false a' -> spec_op (Puts s) a EOF a'
| spec_fflush a a' : sends a [] true a' -> o_held a' = [] -> spec_op Fflush a 0 a'
| spec_fflush_err a a' : sends a [] false a' -> spec_op Fflush a EOF a'.

Fixpoint spec_ops (os : list op) (a : output) (vs : list Z) (a' : output) : Prop :=
  match os, vs with
  | [], [] => a' = a
  | o :: os, v :: vs => exists a1, spec_op o a v a1 /\ spec_ops os a1 vs a'
  | _, _ => False
  end.

(** What is written fits the int that counts it. *)
Definition op_fits (o : op) : Prop :=
  match o with
  | Putc _ | Fflush => True
  | Fwrite buf size count => u32 (count * size) <= Z.of_nat (length buf) /\ u32 (count * size) < 2 ^ 31
  | Fputs s | Puts s => Z.of_nat (length s) + 1 < 2 ^ 31
  end.

Lemma sends_app a l1 a1 l2 ok a2 : sends a l1 true a1 -> sends a1 l2 ok a2 -> sends a (l1 ++ l2) ok a2.
Proof.
  inversion 1 as [? E1 [x Ex] Herr|]; subst. inversion 1 as [? E2 [y Ey] Herr2|? q E2 [y Ey] Hh Herr2]; subst.
  - apply sends_all; [by rewrite E2, app_assoc, E1, <- !app_assoc|exists (x ++ y); by rewrite Ey, Ex, app_assoc|congruence].
  - apply (sends_part _ _ _ (x ++ q)); [by rewrite E2, Ex, app_assoc| |done|done].
    rewrite Ex, <- app_assoc in E1. apply app_inv_head in E1. exists y. by rewrite <- app_assoc, <- Ey, !app_assoc, <- E1, <- !app_assoc.
Qed.

(** ** The invariant of a stream that is written *)

Record base_ok (fp : FILE) (b : list Z) (o : Z) : Prop := {
  bo_swr : flag fp __SWR = true;
  bo_sstr : flag fp __SSTR = false;
  bo_bf : _bf fp = Some b;
  bo_ne : 0 < Z.of_nat (length b);
  bo_p : _p fp = PBf o;
  bo_o : 0 <= o <= Z.of_nat (length b);
  bo_snbf : flag fp __SNBF = true -> length b = 1%nat /\ flag fp __SLBF = false;
  bo_lbfsize : _lbfsize fp = if flag fp __SLBF then - Z.of_nat (length b) else 0
}.

(** Between operations: the room that is left, and lines that are not held back. *)
Record wr_ok (fp : FILE) (b : list Z) (o : Z) : Prop := {
  wo_base : base_ok fp b o;
  wo_w : _w fp = if flag fp __SNBF then 0 else if flag fp __SLBF then - o else Z.of_nat (length b) - o;
  wo_snbf : flag fp __SNBF = true -> o = 0;
  wo_slbf : flag fp __SLBF = true -> 10 ∉ take (Z.to_nat o) b
}.

Lemma base_unwritten fp b o : base_ok fp b o -> unwritten fp = take (Z.to_nat o) b.
Proof. intros []. unfold unwritten, buffered_out. by rewrite bo_swr0, bo_bf0, bo_p0. Qed.

Lemma base_bf_size fp b o : base_ok fp b o -> bf_size fp = Z.of_nat (length b).
Proof. intros []. unfold bf_size. by rewrite bo_bf0. Qed.

Lemma base_offset fp b o : base_ok fp b o -> bf_offset fp (_p fp) = CVal o.
Proof. intros []. unfold bf_offset. by rewrite bo_bf0, bo_p0. Qed.

Lemma base_partly fp b o : base_ok fp b o -> partly_full fp = CVal (0 <? o).
Proof. intros H. unfold partly_full. by rewrite (base_offset _ _ _ H). Qed.

(** A base does not need _w, or the indicators. *)
Lemma base_indep fp fp' b o m : base_ok fp b o -> flags_but m fp fp' -> Z.land m (Z.lor (Z.lor __SWR __SSTR) (Z.lor __SNBF __SLBF)) = 0 ->
  _bf fp' = _bf fp -> _p fp' = _p fp -> _lbfsize fp' = _lbfsize fp -> base_ok fp' b o.
Proof.
  intros [] Hfl Hm Hb Hp Hl. rewrite !Z.land_lor_distr_r, !Z.lor_eq_0_iff in Hm. destruct Hm as [[H1 H2] [H3 H4]].
  split; rewrite ?Hb, ?Hp, ?Hl, ?(Hfl __SWR), ?(Hfl __SSTR), ?(Hfl __SNBF), ?(Hfl __SLBF) by by rewrite Z.land_comm. all: done.
Qed.

(** Bytes are put into the buffer. *)
Definition filled (fp : FILE) (b' : list Z) (o : Z) : FILE := with_p (with_bf fp (Some b')) (PBf o).

Lemma base_store fp b o x : base_ok fp b o -> o + Z.of_nat (length x) <= Z.of_nat (length b) -> exists b',
  store_p fp (_p fp) x = CVal (with_bf fp (Some b')) /\ base_ok (filled fp b' (o + Z.of_nat (length x))) b' (o + Z.of_nat (length x)) /\
  length b' = length b /\ take (Z.to_nat (o + Z.of_nat (length x))) b' = take (Z.to_nat o) b ++ x.
Proof.
  intros [] Hx. unfold store_p, store_at. rewrite bo_bf0, bo_p0. repeat zif. cbn [mbind cres_bind].
  set (b' := take _ b ++ x ++ _). assert (length b' = length b) as Hlen by (subst b'; rewrite !length_app, length_take, length_drop; lia).
  exists b'. split; [done|]. split; [|split; [done|]].
  - split; cbn; rewrite ?Hlen; try done. lia.
  - subst b'. replace (Z.to_nat (o + Z.of_nat (length x))) with (length (take (Z.to_nat o) b ++ x)) by (rewrite length_app, length_take; lia).
    by rewrite app_assoc, take_app_length.
Qed.

Lemma COPY_spec fp b o p n : base_ok fp b o -> 0 <= n <= Z.of_nat (length p) -> o + n <= Z.of_nat (length b) -> exists b',
  COPY fp p n = CVal (filled fp b' (o + n)) /\ base_ok (filled fp b' (o + n)) b' (o + n) /\
  length b' = length b /\ take (Z.to_nat (o + n)) b' = take (Z.to_nat o) b ++ take (Z.to_nat n) p.
Proof.
  intros Hb Hn Ho. unfold COPY, aslice. repeat zif. cbn [mbind cres_bind]. set (x := slice _ _ p).
  assert (x = take (Z.to_nat n) p) as Ex by done. assert (Z.of_nat (length x) = n) as Hx by (rewrite Ex, length_take; lia).
  destruct (base_store fp b o x Hb) as (b' & -> & Hb' & Hlen & Htake); [lia|]. rewrite Hx in *. cbn [mbind cres_bind]. exists b'.
  split; [|by rewrite <- Ex]. cbn [_p with_bf]. by rewrite (bo_p _ _ _ Hb).
Qed.

Section laws.
Context {D : Type} `{L : DeviceLaws D}.

(** What a stream and its device stand for. *)
Definition outp (fp : FILE) (d : D) : output := mkOutput (d_out d (_file fp)) (unwritten fp) (flag fp __SERR).

(** A stream after an operation that sent [l], or a part of it. *)
Definition sent (fp : FILE) (d : D) (l : list Z) (ok : bool) (fp' : FILE) (d' : D) : Prop :=
  _file fp' = _file fp /\ flags_but (Z.lor __SOFF __SERR) fp fp' /\ sends (outp fp d) l ok (outp fp' d').

Lemma sent_app fp d l1 fp1 d1 l2 ok fp2 d2 : sent fp d l1 true fp1 d1 -> sent fp1 d1 l2 ok fp2 d2 -> sent fp d (l1 ++ l2) ok fp2 d2.
Proof.
  intros (H1 & H2 & H3) (H4 & H5 & H6). split; [congruence|]. split; [|by apply (sends_app _ _ _ _ _ _ H3)].
  intros k Hk. by rewrite (H5 k Hk), (H2 k Hk).
Qed.

Lemma sent_refl fp d : sent fp d [] true fp d.
Proof. split; [done|]. split; [done|]. apply sends_all; [by rewrite app_nil_r|done|done]. Qed.

(** A flush empties the buffer; an error loses what was in it. *)
Lemma fflush_spec fp b o d : base_ok fp b o -> exists r fp' d', fflush fp d = CVal (r, fp', d') /\ wr_ok fp' b 0 /\
  (r = 0 /\ sent fp d [] true fp' d' \/ r = EOF /\ sent fp d [] false fp' d').
Proof.
  intros Hb. pose proof (base_unwritten _ _ _ Hb) as Hun. pose proof (base_bf_size _ _ _ Hb) as Hsz. pose proof Hb as [].
  unfold fflush. assert (flag fp (Z.lor __SWR __SRW) = true) as ->.
  { unfold flag in *. by rewrite has_or, bo_swr0. }
  cbn [negb]. destruct (sflush_writes fp d b) as (r & fp' & d' & -> & Hfp' & Hfl & [_ Hw] & Herr); [done|done|by unfold flush_ok; rewrite bo_bf0; exists o|].
  exists r, fp', d'. split; [done|].
  assert (_file fp' = _file fp /\ _bf fp' = Some b /\ _p fp' = PBf 0 /\ _lbfsize fp' = _lbfsize fp /\
    _w fp' = if flag fp __SLBF || flag fp __SNBF then 0 else bf_size fp) as (Hf & Hbf & Hp & Hlb & Hww) by by rewrite Hfp'.
  assert (wr_ok fp' b 0) as Hwr.
  { split.
    - split; rewrite ?Hlb, ?(Hfl __SWR), ?(Hfl __SSTR), ?(Hfl __SNBF), ?(Hfl __SLBF) by done; try done. lia.
    - rewrite Hww, (Hfl __SNBF), (Hfl __SLBF), Hsz by done. destruct (flag fp __SNBF) eqn:En.
      + by rewrite orb_true_r.
      + rewrite orb_false_r. destruct (flag fp __SLBF); lia.
    - done.
    - intros _. apply not_elem_of_nil. }
  split; [done|]. pose proof (base_unwritten _ _ _ (wo_base _ _ _ Hwr)) as Hun'. cbn in Hun'.
  destruct Hw as [[-> Hw]|(-> & He & q & Hq & Hw)]; [left|right]; split; [done| |done|]; (split; [done|]; split; [done|]).
  - apply sends_all; cbn; rewrite ?Hf, ?Hun', ?Hw, ?app_nil_r; [done|by apply prefix_app_r|by apply Herr].
  - apply (sends_part _ _ _ q); cbn; rewrite ?Hf, ?Hun', ?app_nil_r; done.
Qed.

(** Bytes in the buffer are sent. *)
Lemma sent_filled fp d b o fp' b' o' x : base_ok fp b o -> _file fp' = _file fp -> _flags fp' = _flags fp ->
  base_ok fp' b' o' -> take (Z.to_nat o') b' = take (Z.to_nat o) b ++ x -> sent fp d x true fp' d.
Proof.
  intros Hb Hf Hfl Hb' Ht. split; [done|]. split; [unfold flags_but, flag; by rewrite Hfl|].
  apply sends_all; cbn; rewrite ?Hf; [|done|unfold flag; by rewrite Hfl].
  by rewrite (base_unwritten _ _ _ Hb), (base_unwritten _ _ _ Hb'), Ht.
Qed.

(** A stream that is writable has its buffer afterwards. *)
Definition fresh (fp : FILE) : Prop :=
  flag fp __SWR = true /\ flag fp __SSTR = false /\ flag fp __SLBF = false /\ _bf fp = None /\ _lbfsize fp = 0.
Definition writable (fp : FILE) : Prop := fresh fp \/ exists b o, wr_ok fp b o.

Lemma cantwrite_ok fp d b o : base_ok fp b o -> cantwrite fp d = (false, fp, d).
Proof. intros []. unfold cantwrite. by rewrite bo_swr0, bo_bf0. Qed.

Lemma cantwrite_spec fp d : writable fp -> exists fp' d' b o, cantwrite fp d = (false, fp', d') /\ wr_ok fp' b o /\
  _file fp' = _file fp /\ sends (outp fp d) [] true (outp fp' d').
Proof.
  intros [(Hw & Hs & Hl & Hb & Hlb)|(b & o & Hwr)].
  2:{ exists fp, d, b, o. split; [by apply (cantwrite_ok _ _ b o), Hwr|]. split; [done|]. split; [done|]. apply sent_refl. }
  unfold cantwrite, __swsetup. rewrite Hw, Hb. cbn [negb orb]. cbv beta iota zeta. rewrite ?Hb, Hs. cbn [negb orb andb]. cbv iota.
  destruct (smakebuf_spec fp d) as (fp1 & d1 & b & k & -> & Hfp1 & Hne & Hfl & Hd & _ & Hn).
  assert (_file fp1 = _file fp /\ _bf fp1 = Some b /\ _p fp1 = PBf 0 /\ _lbfsize fp1 = _lbfsize fp) as (Hf1 & Hb1 & Hp1 & Hl1) by by rewrite Hfp1.
  assert (0 < Z.of_nat (length b)) as Hpos by (destruct b; [done|cbn; lia]).
  set (fp2 := if flag fp1 __SLBF then _ else _).
  assert (_file fp2 = _file fp /\ _bf fp2 = Some b /\ _p fp2 = PBf 0 /\ (forall k, flag fp2 k = flag fp1 k) /\
    _lbfsize fp2 = (if flag fp1 __SLBF then - Z.of_nat (length b) else 0) /\
    _w fp2 = if flag fp1 __SLBF then 0 else if flag fp1 __SNBF then 0 else Z.of_nat (length b)) as (Hf2 & Hb2 & Hp2 & Hfl2 & Hl2 & Hw2).
  { subst fp2. unfold bf_size. cbn. rewrite Hb1. destruct (flag fp1 __SLBF); cbn; rewrite ?Hl1; done. }
  assert (base_ok fp2 b 0) as Hbase.
  { split; rewrite ?Hfl2; try done; [by rewrite Hfl|by rewrite Hfl|lia|]. intros E. destruct (Hn E) as [? ->]. by rewrite Hl. }
  assert (wr_ok fp2 b 0) as Hwr.
  { split; rewrite ?Hfl2; try done; [|intros _; apply not_elem_of_nil]. rewrite Hw2.
    destruct (flag fp1 __SNBF) eqn:En; [by destruct (flag fp1 __SLBF)|]. destruct (flag fp1 __SLBF); lia. }
  exists fp2, d1, b, 0. split; [done|]. split; [done|]. split; [done|]. destruct (Hd (_file fp)) as [_ Ho].
  apply sends_all; cbn; rewrite ?Hf2, ?Ho; [|done|by rewrite Hfl2, Hfl].
  rewrite (base_unwritten _ _ _ Hbase). unfold unwritten, buffered_out. by rewrite Hb, Hw.
Qed.

(** ** putc *)

(** Between the decrement of _w and its repair by a flush. *)
Lemma base_with_w fp b o v : base_ok fp b o <-> base_ok (with_w fp v) b o.
Proof. split; intros []; split; done. Qed.

(** What __swbuf and __sputc return. *)
Definition put_char (c : Z) (fp : FILE) (d : D) (r : Z) (fp' : FILE) (d' : D) : Prop :=
  (exists b o, wr_ok fp' b o) /\ (r = u8 c /\ sent fp d [u8 c] true fp' d' \/ r = EOF /\ sent fp d [u8 c] false fp' d').

Lemma sends_fail_more a l1 a1 l2 : sends a l1 false a1 -> sends a (l1 ++ l2) false a1.
Proof. inversion 1 as [|? q E Hq Hh He]; subst. apply (sends_part _ _ _ q); try done. rewrite app_assoc. by apply prefix_app_r. Qed.

(** The character is stored, and the buffer is flushed if it must be. *)
Lemma swbuf_tail c fp d b o : base_ok fp b o -> o < Z.of_nat (length b) ->
  _w fp = (if flag fp __SNBF then 0 else if flag fp __SLBF then - o else Z.of_nat (length b) - o) \/ flag fp __SNBF = true \/ flag fp __SLBF = true /\ c = 10 ->
  (flag fp __SLBF = true -> 10 ∉ take (Z.to_nat o) b) -> c = u8 c -> exists r fp' d',
  (let fp := with_w fp (_w fp - 1) in
   fp ← store_p fp (_p fp) [c];
   let fp := with_p fp (padd (_p fp) 1) in
   if (o + 1 =? bf_size fp) || (flag fp __SLBF && (c =? 10)) then
     r ← fflush fp d;
     let '(r, fp, d) := r in
     CVal (if negb (r =? 0) then EOF else c, fp, d)
   else CVal (c, fp, d)) = CVal (r, fp', d') /\ put_char c fp d r fp' d'.
Proof.
  intros Hb Ho Hw Hnl Hc. cbv zeta. apply (base_with_w _ _ _ (_w fp - 1)) in Hb as Hb1.
  destruct (base_store _ _ _ [c] Hb1) as (b' & -> & Hb2 & Hlen & Htake); [cbn; lia|]. cbn [mbind cres_bind length] in *. change (Z.of_nat 1) with 1 in *.
  assert (with_p (with_bf (with_w fp (_w fp - 1)) (Some b')) (padd (_p (with_bf (with_w fp (_w fp - 1)) (Some b'))) 1) = filled (with_w fp (_w fp - 1)) b' (o + 1)) as ->.
  { cbn [_p with_bf with_w]. by rewrite (bo_p _ _ _ Hb). }
  set (fp1 := filled _ _ _) in *. assert (sent fp d [c] true fp1 d) as Hs1.
  { by apply (sent_filled fp d b o fp1 b' (o + 1)). }
  rewrite (base_bf_size _ _ _ Hb2), Hlen. change (flag fp1 __SLBF) with (flag fp __SLBF).
  destruct ((o + 1 =? Z.of_nat (length b)) || (flag fp __SLBF && (c =? 10))) eqn:Ef.
  - destruct (fflush_spec fp1 b' (o + 1) d Hb2) as (r & fp2 & d2 & -> & Hwr & Hr). cbn [mbind cres_bind].
    destruct Hr as [[-> Hs2]|[-> Hs2]].
    + exists c, fp2, d2. split; [done|]. split; [by exists b', 0|]. left. rewrite <- Hc. split; [done|]. by apply (sent_app _ _ [c] fp1 d [] true).
    + exists EOF, fp2, d2. split; [done|]. split; [by exists b', 0|]. right. rewrite <- Hc. split; [done|]. by apply (sent_app _ _ [c] fp1 d [] false).
  - apply orb_false_iff in Ef as [E1%Z.eqb_neq E2]. exists c, fp1, d. split; [done|]. split; [|left; by rewrite <- Hc].
    exists b', (o + 1). destruct (flag fp __SNBF) eqn:En.
    { exfalso. destruct (bo_snbf _ _ _ Hb En) as [Hl _]. pose proof (bo_o _ _ _ Hb). lia. }
    split; [done| |by change (flag fp1 __SNBF) with (flag fp __SNBF); rewrite En|].
    + change (flag fp1 __SNBF) with (flag fp __SNBF). change (flag fp1 __SLBF) with (flag fp __SLBF). change (_w fp1) with (_w fp - 1). rewrite En.
      destruct Hw as [-> |[Hx|[Hl ->]]]; [|done|by rewrite Hl in E2]. destruct (flag fp __SLBF); lia.
    + change (flag fp1 __SLBF) with (flag fp __SLBF). intros Hl. rewrite Htake, elem_of_app. intros [Hin|Hin%list_elem_of_singleton]; [by apply Hnl|].
      subst c. by rewrite Hl in E2.
Qed.

Lemma swbuf_spec c fp d b o : base_ok fp b o -> (o < Z.of_nat (length b) -> flag fp __SNBF = true \/ flag fp __SLBF = true /\ u8 c = 10) ->
  (flag fp __SLBF = true -> 10 ∉ take (Z.to_nat o) b) ->
  exists r fp' d', __swbuf c fp d = CVal (r, fp', d') /\ put_char c fp d r fp' d'.
Proof.
  intros Hb Ho Hnl. unfold __swbuf. set (fp0 := with_w fp (_lbfsize fp)). assert (base_ok fp0 b o) as Hb0 by by apply base_with_w.
  rewrite (cantwrite_ok fp0 d b o Hb0), (base_offset _ _ _ Hb0), (base_bf_size _ _ _ Hb0). cbn [mbind cres_bind].
  assert (u8 c = u8 (u8 c)) as Hc by (symmetry; apply u8_small, u8_range).
  assert (forall r fp' d', put_char (u8 c) fp0 d r fp' d' -> put_char c fp d r fp' d') as Hput by (unfold put_char; by rewrite <- Hc).
  destruct (Z.leb_spec (Z.of_nat (length b)) o) as [Hfull|Hroom].
  - destruct (fflush_spec fp0 b o d Hb0) as (r & fp1 & d1 & -> & Hwr & Hr). cbn [mbind cres_bind]. destruct Hr as [[-> Hs]|[-> Hs]].
    + change (negb (0 =? 0)) with false. cbv iota. destruct Hwr as [Hb1 Hw1 _ Hnl1]. pose proof (bo_ne _ _ _ Hb1).
      destruct (swbuf_tail (u8 c) fp1 d1 b 0 Hb1) as (r & fp2 & d2 & E & Hp2); [lia|by left|done|done|].
      exists r, fp2, d2. split; [exact E|]. apply Hput. destruct Hp2 as [Hex Hr2]. rewrite <- Hc in Hr2. split; [done|]. rewrite <- Hc.
      destruct Hr2 as [[-> Hs2]|[-> Hs2]]; [left|right]; (split; [done|]); by apply (sent_app _ _ [] fp1 d1).
    + change (negb (EOF =? 0)) with true. cbv iota. exists EOF, fp1, d1. split; [done|]. split; [by exists b, 0|]. right.
      split; [done|]. destruct Hs as (H1 & H2 & H3). split; [done|]. split; [done|]. by apply (sends_fail_more _ [] _ [u8 c]) in H3.
  - change (negb (0 =? 0)) with false. cbv iota.
    destruct (swbuf_tail (u8 c) fp0 d b o Hb0 Hroom) as (r & fp2 & d2 & E & Hp2); [right; by apply Ho|done|done|].
    exists r, fp2, d2. split; [exact E|]. by apply Hput.
Qed.

Lemma sputc_spec c fp d b o : wr_ok fp b o -> exists r fp' d', __sputc c fp d = CVal (r, fp', d') /\ put_char c fp d r fp' d'.
Proof.
  intros [Hb Hw Hsn Hnl]. unfold __sputc. set (fp0 := with_w fp (_w fp - 1)). assert (base_ok fp0 b o) as Hb0 by by apply base_with_w.
  cbn [_w with_w fp0]. change (_lbfsize fp0) with (_lbfsize fp). pose proof (bo_o _ _ _ Hb) as Ho.
  destruct ((0 <=? _w fp - 1) || ((_lbfsize fp <=? _w fp - 1) && negb (u8 c =? 10))) eqn:E.
  - assert (flag fp __SNBF = false /\ o + 1 <= Z.of_nat (length b) /\ (flag fp __SLBF = true -> u8 c <> 10)) as (Hn & Hroom & Hcnl).
    { rewrite Hw, (bo_lbfsize _ _ _ Hb) in E. destruct (flag fp __SNBF) eqn:En.
      - destruct (bo_snbf _ _ _ Hb En) as [_ Hl]. rewrite Hl in E. done.
      - split; [done|]. destruct (flag fp __SLBF).
        + rewrite (proj2 (Z.leb_gt 0 (- o - 1))) in E by lia. cbn in E. apply andb_true_iff in E as [E1%Z.leb_le E2%negb_true_iff%Z.eqb_neq]. split; [lia|done].
        + apply orb_true_iff in E as [E%Z.leb_le|[E%Z.leb_le _]%andb_true_iff]; split; try done; lia. }
    destruct (base_store _ _ _ [u8 c] Hb0) as (b' & -> & Hb2 & Hlen & Htake); [cbn; lia|]. cbn [mbind cres_bind length] in *. change (Z.of_nat 1) with 1 in *.
    assert (with_p (with_bf fp0 (Some b')) (padd (_p (with_bf fp0 (Some b'))) 1) = filled fp0 b' (o + 1)) as ->.
    { cbn [_p with_bf]. by rewrite (bo_p _ _ _ Hb0). }
    exists (u8 c), (filled fp0 b' (o + 1)), d. split; [done|]. split.
    + exists b', (o + 1). split; [done| | |].
      * change (flag (filled fp0 b' (o + 1)) __SNBF) with (flag fp __SNBF). change (flag (filled fp0 b' (o + 1)) __SLBF) with (flag fp __SLBF).
        change (_w (filled fp0 b' (o + 1))) with (_w fp - 1). rewrite Hw, Hn, Hlen. destruct (flag fp __SLBF); lia.
      * change (flag (filled fp0 b' (o + 1)) __SNBF) with (flag fp __SNBF). by rewrite Hn.
      * change (flag (filled fp0 b' (o + 1)) __SLBF) with (flag fp __SLBF). intros Hl. rewrite Htake, elem_of_app.
        intros [Hin|Hin%list_elem_of_singleton]; [by apply Hnl|by apply Hcnl].
    + left. split; [done|]. by apply (sent_filled fp d b o _ b' (o + 1)).
  - destruct (swbuf_spec c fp0 d b o Hb0) as (r & fp' & d' & E' & Hp); [|done|by exists r, fp', d'].
    intros Hroom. change (flag fp0 __SNBF) with (flag fp __SNBF). change (flag fp0 __SLBF) with (flag fp __SLBF).
    apply orb_false_iff in E as [E1%Z.leb_gt E2]. rewrite (bo_lbfsize _ _ _ Hb), Hw in E2. rewrite Hw in E1.
    destruct (flag fp __SNBF); [by left|right]. destruct (flag fp __SLBF); [|lia].
    rewrite (proj2 (Z.leb_le _ _)) in E2 by lia. cbn in E2. apply negb_false_iff, Z.eqb_eq in E2. done.
Qed.

(** ** __sfvwrite *)

Lemma wr_indep fp fp' b o : wr_ok fp b o -> flags_but (Z.lor __SOFF __SERR) fp fp' ->
  _bf fp' = _bf fp -> _p fp' = _p fp -> _lbfsize fp' = _lbfsize fp -> _w fp' = _w fp -> wr_ok fp' b o.
Proof.
  intros [Hb Hw Hs Hl] Hfl Hbf Hp Hlb Hww.
  split; rewrite ?Hww, ?(Hfl __SNBF), ?(Hfl __SLBF) by done; [by apply (base_indep fp fp' b o (Z.lor __SOFF __SERR))|done|done|done].
Qed.

(** After an error the loop sets the indicator. *)
Lemma sent_err fp d l fp' d' : sent fp d l false fp' d' -> sent fp d l false (set_flag fp' __SERR) d'.
Proof.
  intros (Hf & Hfl & Hs). split; [done|]. split; [by apply flags_but_set|].
  inversion Hs as [|? q E Hq Hh He]; subst. apply (sends_part _ _ _ q); [done|done| |by cbn; flag_consts; masks].
  revert Hh. cbn. unfold unwritten. by assert (flag (set_flag fp' __SERR) __SWR = flag fp' __SWR) as -> by (flag_consts; masks; done).
Qed.

Lemma wr_err fp b o : wr_ok fp b o -> wr_ok (set_flag fp __SERR) b o.
Proof. intros Hw. apply (wr_indep fp); try done. by apply flags_but_set. Qed.

Lemma sent_fail_more fp d l1 l2 fp' d' : sent fp d l1 false fp' d' -> sent fp d (l1 ++ l2) false fp' d'.
Proof. intros (H1 & H2 & H3). split; [done|]. split; [done|]. by apply sends_fail_more. Qed.

(** The outcome of a step that was given p. *)
Definition stepped (fp : FILE) (d : D) (p : list Z) (r : option Z) (fp' : FILE) (d' : D) : Prop :=
  match r with
  | Some w => 0 <= w <= Z.of_nat (length p) /\ sent fp d (take (Z.to_nat w) p) true fp' d' /\ (0 < w \/ unwritten fp <> [] /\ unwritten fp' = [])
  | None => sent fp d p false (set_flag fp' __SERR) d'
  end.

Lemma write_directly_spec fp d b n p : wr_ok fp b 0 -> 0 < n -> exists r fp' d', write_directly fp d (take (Z.to_nat n) p) = (r, fp', d') /\
  wr_ok fp' b 0 /\ stepped fp d p r fp' d' /\ match r with Some w => w <= n | None => True end.
Proof.
  intros Hwr Hn. unfold write_directly. destruct (swrite_spec fp (take (Z.to_nat n) p) d) as (fp1 & d1 & t & -> & -> & _ & Ht & Hout).
  assert (wr_ok (clear_flag fp __SOFF) b 0) as Hwr1 by (apply (wr_indep fp); try done; by apply flags_but_clear).
  pose proof (base_unwritten _ _ _ (wo_base _ _ _ Hwr)) as Hu. pose proof (base_unwritten _ _ _ (wo_base _ _ _ Hwr1)) as Hu1. cbn in Hu, Hu1.
  rewrite length_take in Ht. eexists _, _, d1. split; [done|]. split; [done|].
  assert (flag (clear_flag fp __SOFF) __SERR = flag fp __SERR) as He by (flag_consts; masks; done).
  destruct (Z.leb_spec t 0) as [Ht0|Ht0].
  - split; [|done]. cbn. assert (sends (outp fp d) p false (mkOutput (d_out d1 (_file fp)) [] true)) as Hs.
    { apply (sends_part _ _ _ []); cbn; [by rewrite Hout; replace (Z.to_nat t) with O by lia|apply prefix_nil|done|done]. }
    split; [done|]. split; [apply flags_but_set; [by apply flags_but_clear|done]|].
    assert (outp (set_flag (clear_flag fp __SOFF) __SERR) d1 = mkOutput (d_out d1 (_file fp)) [] true) as ->; [|done].
    unfold outp. rewrite (base_unwritten _ _ _ (wo_base _ _ _ (wr_err _ _ _ Hwr1))). cbn. f_equal. by flag_consts; masks.
  - split; [|lia]. cbn. split; [lia|]. split; [|by left]. split; [done|]. split; [by apply flags_but_clear|].
    apply sends_all; cbn; [|rewrite Hout; by apply prefix_app_r|done]. rewrite Hout, Hu, Hu1, app_nil_r. cbn [app]. rewrite take_take.
    change (take (Z.to_nat 0) b) with (@nil Z). cbn [app]. f_equal. f_equal. lia.
Qed.

Lemma fill_and_flush_spec fp d b o p w : base_ok fp b o -> 0 <= w <= Z.of_nat (length p) -> o + w = Z.of_nat (length b) -> 0 < o -> exists r fp' d',
  fill_and_flush fp d p w = CVal (r, fp', d') /\ (exists b', length b' = length b /\ wr_ok fp' b' 0) /\ stepped fp d p r fp' d' /\
  match r with Some k => k = w | None => True end.
Proof.
  intros Hb Hw Hroom Ho. unfold fill_and_flush. destruct (COPY_spec fp b o p w Hb Hw) as (b' & -> & Hb' & Hlen & Htake); [lia|]. cbn [mbind cres_bind].
  set (fp1 := filled fp b' (o + w)) in *. assert (sent fp d (take (Z.to_nat w) p) true fp1 d) as Hs by by apply (sent_filled fp d b o _ b' (o + w)).
  destruct (fflush_spec fp1 b' (o + w) d Hb') as (r & fp2 & d2 & -> & Hwr & Hr). cbn [mbind cres_bind].
  pose proof (base_unwritten _ _ _ (wo_base _ _ _ Hwr)) as Hu. cbn in Hu.
  eexists _, fp2, d2. split; [done|]. split; [by exists b'|]. destruct Hr as [[-> Hs2]|[-> Hs2]].
  - change (negb (0 =? 0)) with false. cbv iota. split; [|done]. cbn. split; [done|]. pose proof (sent_app _ _ _ _ _ _ _ _ _ Hs Hs2) as Hss. rewrite app_nil_r in Hss.
    split; [done|]. right. split; [|done]. rewrite (base_unwritten _ _ _ Hb). intros E. apply (f_equal length) in E.
    rewrite length_take in E. cbn in E. lia.
  - change (negb (EOF =? 0)) with true. cbv iota. split; [|done]. cbn. pose proof (sent_app _ _ _ _ _ _ _ _ _ Hs Hs2) as Hss. rewrite app_nil_r in Hss.
    apply sent_err. rewrite <- (take_drop (Z.to_nat w) p). by apply sent_fail_more.
Qed.

(** All three: the buffer is empty then, or the s bytes are in it. *)
Lemma buffer_step_spec fp d b o p s : wr_ok fp b o -> 0 < s <= Z.of_nat (length p) -> exists r fp' d' b',
  buffer_step fp d p (Z.of_nat (length b) - o) s = CVal (r, fp', d') /\ length b' = length b /\ stepped fp d p r fp' d' /\
  match r with
  | None => wr_ok fp' b' 0
  | Some k => k <= s /\ (wr_ok fp' b' 0 \/ k = s /\ base_ok fp' b' (o + k) /\ _w fp' = _w fp - k /\ _flags fp' = _flags fp /\
      take (Z.to_nat (o + k)) b' = take (Z.to_nat o) b ++ take (Z.to_nat k) p)
  end.
Proof.
  intros Hwr Hs. pose proof (wo_base _ _ _ Hwr) as Hb. pose proof (bo_o _ _ _ Hb) as Ho. pose proof (bo_ne _ _ _ Hb).
  unfold buffer_step. rewrite (base_partly _ _ _ Hb), (base_bf_size _ _ _ Hb). cbn [mbind cres_bind].
  destruct ((0 <? o) && (Z.of_nat (length b) - o <? s)) eqn:Ep.
  - apply andb_true_iff in Ep as [Ho1%Z.ltb_lt Hw%Z.ltb_lt].
    destruct (fill_and_flush_spec fp d b o p (Z.of_nat (length b) - o) Hb) as (r & fp' & d' & -> & (b' & Hlen & Hwr') & Hst & Hk); [lia|lia|lia|].
    exists r, fp', d', b'. split; [done|]. split; [done|]. split; [done|]. destruct r; [|done]. split; [lia|by left].
  - destruct (Z.leb_spec (Z.of_nat (length b)) s) as [Hle|Hgt].
    + assert (o = 0) as -> by (apply andb_false_iff in Ep as [?%Z.ltb_ge|?%Z.ltb_ge]; lia).
      destruct (write_directly_spec fp d b (Z.of_nat (length b)) p Hwr) as (r & fp' & d' & -> & Hwr' & Hst & Hk); [done|].
      exists r, fp', d', b. split; [done|]. split; [done|]. split; [done|]. destruct r; [|done]. split; [lia|by left].
    + unfold fill_and_done. destruct (COPY_spec fp b o p s Hb) as (b' & -> & Hb' & Hlen & Htake); [lia|apply andb_false_iff in Ep as [?%Z.ltb_ge|?%Z.ltb_ge]; lia|].
      cbn [mbind cres_bind]. set (fp1 := filled fp b' (o + s)) in *. apply (base_with_w _ _ _ (_w fp1 - s)) in Hb' as Hb1.
      eexists (Some s), _, d, b'. split; [done|]. split; [done|]. split.
      * cbn. split; [lia|]. split; [by apply (sent_filled fp d b o _ b' (o + s))|]. left. lia.
      * split; [done|]. right. done.
Qed.

(** The distance to the newline. *)
Lemma newline_dist_spec p : p <> [] -> Z.of_nat (length p) < 2 ^ 31 -> let n := newline_dist p in
  1 <= n <= Z.of_nat (length p) + 1 /\ 10 ∉ take (Z.to_nat (n - 1)) p /\
  forall k, 0 <= k < n -> k <= Z.of_nat (length p) -> newline_dist (drop (Z.to_nat k) p) = n - k.
Proof.
  intros Hne Hlen. unfold newline_dist. rewrite s32_small by lia. destruct (list_find (.= 10) p) as [[i x]|] eqn:E.
  - pose proof E as (Hi & -> & Hbefore)%list_find_Some. assert (i < length p)%nat by by apply lookup_lt_Some in Hi.
    split; [lia|]. split.
    + replace (Z.to_nat (Z.of_nat i + 1 - 1)) with i by lia. intros (j & Hj)%list_elem_of_lookup.
      assert (j < i)%nat as Hji by (apply lookup_lt_Some in Hj; rewrite length_take in Hj; lia). rewrite lookup_take_lt in Hj by done. by apply (Hbefore j 10).
    + intros k Hk Hkl. assert (list_find (.= 10) (drop (Z.to_nat k) p) = Some ((i - Z.to_nat k)%nat, 10)) as ->; [|lia].
      apply list_find_Some. rewrite lookup_drop. split; [by replace (Z.to_nat k + (i - Z.to_nat k))%nat with i by lia|]. split; [done|].
      intros j y. rewrite lookup_drop. intros Hj Hlt. apply (Hbefore _ _ Hj). lia.
  - apply list_find_None in E as Hno. rewrite Forall_forall in Hno. split; [lia|]. split.
    + intros Hin. apply (Hno 10); [|done]. apply list_elem_of_In. by apply elem_of_take in Hin as (? & ? & _); apply list_elem_of_lookup_2 in H0.
    + intros k Hk Hkl. assert (list_find (.= 10) (drop (Z.to_nat k) p) = None) as ->.
      { apply list_find_None, Forall_forall. intros y Hy. apply Hno. rewrite <- (take_drop (Z.to_nat k) p). apply in_or_app. by right. }
      rewrite length_drop, s32_small by lia. lia.
Qed.

(** nldist, of a line buffered stream. *)
Definition nl_ok (fp : FILE) (nl : option Z) (p : list Z) : Prop :=
  match nl with Some n => flag fp __SNBF = false -> flag fp __SLBF = true -> n = newline_dist p | None => True end.

(** The loop of a stream. *)
Definition chosen (fp : FILE) : option Z -> FILE -> D -> list Z -> cres (option Z * option Z * FILE * D) :=
  if flag fp __SNBF then unbuf_step else if flag fp __SLBF then line_step else full_step.

Definition step_post (fp : FILE) (d : D) (p : list Z) (r nl : option Z) (fp' : FILE) (d' : D) : Prop :=
  (exists b o, wr_ok fp' b o) /\ stepped fp d p r fp' d' /\
  match r with Some w => nl_ok fp nl (drop (Z.to_nat w) p) /\ (unwritten fp' = [] \/ w = Z.of_nat (length p)) | None => True end.

Lemma wr_empty fp b : wr_ok fp b 0 -> unwritten fp = [].
Proof. intros Hw. by rewrite (base_unwritten _ _ _ (wo_base _ _ _ Hw)). Qed.

Lemma full_step_spec nl fp d b o p : wr_ok fp b o -> flag fp __SNBF = false -> flag fp __SLBF = false -> p <> [] -> Z.of_nat (length p) < 2 ^ 31 ->
  exists r fp' d', full_step nl fp d p = CVal (r, nl, fp', d') /\ step_post fp d p r nl fp' d'.
Proof.
  intros Hwr Hn Hl Hne Hlen. pose proof (wo_base _ _ _ Hwr) as Hb. unfold full_step, grow_string. rewrite (bo_sstr _ _ _ Hb), andb_false_r. cbn [andb mbind cres_bind negb].
  rewrite (bo_sstr _ _ _ Hb), s32_small by lia. rewrite (wo_w _ _ _ Hwr), Hn, Hl.
  assert (0 < Z.of_nat (length p)) by (destruct p; [done|cbn; lia]).
  destruct (buffer_step_spec fp d b o p (Z.of_nat (length p)) Hwr) as (r & fp' & d' & b' & -> & Hbl & Hst & Hr); [lia|]. cbn [mbind cres_bind].
  assert (forall q, nl_ok fp nl q) as Hnl by (intros q; destruct nl; cbn; [congruence|done]).
  exists r, fp', d'. split; [done|]. destruct r as [k|]; [|by split; [exists b', 0|]].
  destruct Hr as [Hk [Hw0|(-> & Hb' & Hw' & Hf' & Ht)]].
  - split; [by exists b', 0|]. split; [done|]. split; [done|]. left. by apply (wr_empty _ b').
  - split; [|split; [done|]; split; [done|by right]]. exists b', (o + Z.of_nat (length p)). assert (forall m, flag fp' m = flag fp m) as Hfm by (intros m; unfold flag; by rewrite Hf').
    split; [done| |by rewrite Hfm, Hn|by rewrite Hfm, Hl]. rewrite !Hfm, Hn, Hl, Hw', (wo_w _ _ _ Hwr), Hn, Hl. lia.
Qed.

Lemma line_step_spec nl fp d b o p : wr_ok fp b o -> flag fp __SNBF = false -> flag fp __SLBF = true -> p <> [] -> Z.of_nat (length p) < 2 ^ 31 -> nl_ok fp nl p ->
  exists r nl' fp' d', line_step nl fp d p = CVal (r, nl', fp', d') /\ step_post fp d p r nl' fp' d'.
Proof.
  intros Hwr Hn Hl Hne Hlen Hnl. pose proof (wo_base _ _ _ Hwr) as Hb. unfold line_step. rewrite (base_bf_size _ _ _ Hb), (wo_w _ _ _ Hwr), Hn, Hl.
  assert (match nl with Some n => n | None => newline_dist p end = newline_dist p) as -> by (destruct nl; [by apply Hnl|done]).
  destruct (newline_dist_spec p Hne Hlen) as (Hd & Hno & Hdrop). set (n := newline_dist p) in *. rewrite s32_small by lia.
  set (s := if Z.of_nat (length p) <? n then _ else n).
  assert (0 < s <= Z.of_nat (length p) /\ s <= n /\ (s = n \/ s = Z.of_nat (length p) /\ s < n)) as (Hs & Hsn & Hcase).
  { subst s. assert (0 < Z.of_nat (length p)) by (destruct p; [done|cbn; lia]). destruct (Z.ltb_spec (Z.of_nat (length p)) n); lia. }
  replace (- o + Z.of_nat (length b)) with (Z.of_nat (length b) - o) by lia.
  destruct (buffer_step_spec fp d b o p s Hwr Hs) as (r & fp' & d' & b' & -> & Hbl & Hst & Hr). cbn [mbind cres_bind].
  destruct r as [k|]; [|exists None, nl, fp', d'; split; [done|]; by split; [exists b', 0|]]. destruct Hr as [Hk Hr].
  destruct (Z.eqb_spec (n - k) 0) as [Hnk|Hnk].
  - assert (exists o', base_ok fp' b' o') as [o' Hb'] by (destruct Hr as [[? _ _ _]|(_ & ? & _)]; eauto).
    destruct (fflush_spec fp' b' o' d' Hb') as (r2 & fp2 & d2 & -> & Hwr2 & Hr2). cbn [mbind cres_bind].
    destruct Hst as (Hk0 & Hsent & _). destruct Hr2 as [[-> Hs2]|[-> Hs2]]; pose proof (sent_app _ _ _ _ _ _ _ _ _ Hsent Hs2) as Hss; rewrite app_nil_r in Hss.
    + change (negb (0 =? 0)) with false. cbv iota. exists (Some k), None, fp2, d2. split; [done|]. split; [by exists b', 0|].
      split; [split; [done|]; split; [done|left; lia]|]. split; [done|]. left. by apply (wr_empty _ b').
    + change (negb (EOF =? 0)) with true. cbv iota. exists None, None, fp2, d2. split; [done|]. split; [by exists b', 0|]. split; [|done].
      apply sent_err. rewrite <- (take_drop (Z.to_nat k) p). by apply sent_fail_more.
  - exists (Some k), (Some (n - k)), fp', d'. split; [done|]. pose proof Hst as (Hk0 & _ & _).
    assert (nl_ok fp (Some (n - k)) (drop (Z.to_nat k) p)) as Hnl' by (intros _ _; symmetry; apply Hdrop; lia).
    destruct Hr as [Hw0|(-> & Hb' & Hw' & Hf' & Ht)].
    + split; [by exists b', 0|]. split; [done|]. split; [done|]. left. by apply (wr_empty _ b').
    + assert (s = Z.of_nat (length p) /\ s < n) as [Hsl Hlt] by lia. split; [|split; [done|]; split; [done|by right]]. exists b', (o + s).
      assert (forall m, flag fp' m = flag fp m) as Hfm by (intros m; unfold flag; by rewrite Hf').
      split; [done| |by rewrite Hfm, Hn|].
      * rewrite !Hfm, Hn, Hl, Hw', (wo_w _ _ _ Hwr), Hn, Hl. lia.
      * intros _. rewrite Ht, elem_of_app. intros [Hin|Hin]; [by apply (wo_slbf _ _ _ Hwr)|]. apply Hno.
        rewrite take_ge in Hin by lia. by rewrite take_ge by lia.
Qed.

Lemma unbuf_step_spec nl fp d b o p : wr_ok fp b o -> flag fp __SNBF = true -> p <> [] ->
  exists r fp' d', unbuf_step nl fp d p = CVal (r, nl, fp', d') /\ step_post fp d p r nl fp' d'.
Proof.
  intros Hwr Hn Hne. pose proof (wo_snbf _ _ _ Hwr Hn) as ->. unfold unbuf_step. assert (0 < Z.of_nat (length p)) by (destruct p; [done|cbn; lia]).
  destruct (write_directly_spec fp d b (Z.of_nat (length p)) p Hwr) as (r & fp' & d' & E & Hwr' & Hst & _); [done|].
  rewrite Nat2Z.id, take_ge in E by lia. rewrite E. exists r, fp', d'. split; [done|]. split; [by exists b, 0|]. split; [done|].
  destruct r; [|done]. split; [destruct nl; cbn; [congruence|done]|]. left. by apply (wr_empty _ b).
Qed.

Lemma step_spec nl fp d b o p : wr_ok fp b o -> p <> [] -> Z.of_nat (length p) < 2 ^ 31 -> nl_ok fp nl p ->
  exists r nl' fp' d', chosen fp nl fp d p = CVal (r, nl', fp', d') /\ step_post fp d p r nl' fp' d'.
Proof.
  intros Hwr Hne Hlen Hnl. unfold chosen. destruct (flag fp __SNBF) eqn:En; [|destruct (flag fp __SLBF) eqn:El].
  - destruct (unbuf_step_spec nl fp d b o p Hwr En Hne) as (r & fp' & d' & E & Hp). by exists r, nl, fp', d'.
  - by apply (line_step_spec nl fp d b o p).
  - destruct (full_step_spec nl fp d b o p Hwr En El Hne Hlen) as (r & fp' & d' & E & Hp). by exists r, nl, fp', d'.
Qed.

Lemma GETIOV_spec p iov : p ++ concat iov <> [] -> exists p' iov' next, GETIOV p iov = CVal (p', iov', next) /\ p' <> [] /\
  p' ++ concat iov' = p ++ concat iov /\ (next = false -> p' = p) /\ (iov = [] -> next = false /\ iov' = []).
Proof.
  revert p. induction iov as [|q iov IH]; intros p Hne.
  - destruct p; [done|]. by eexists _, [], false.
  - destruct p as [|x p]; [|by eexists _, (q :: iov), false]. cbn in *. destruct (IH q Hne) as (p' & iov' & next & -> & Hp' & Hc & _).
    cbn. by exists p', iov', true.
Qed.

(** The result of the loop, with what is left of uio_resid. *)
Definition loop_post (fp : FILE) (d : D) (p : list Z) (iov : list (list Z)) (resid r res : Z) (fp' : FILE) (d' : D) : Prop :=
  (exists b o, wr_ok fp' b o) /\
  (r = 0 /\ sent fp d (p ++ concat iov) true fp' d' \/
   r = EOF /\ sent fp d (p ++ concat iov) false fp' d' /\ 0 < res <= resid /\
   (iov = [] -> res = resid \/ d_out d (_file fp) ++ unwritten fp ++ take (Z.to_nat (resid - res)) p `prefix_of` d_out d' (_file fp))).

Lemma sent_out fp d l ok fp' d' : sent fp d l ok fp' d' -> d_out d (_file fp) `prefix_of` d_out d' (_file fp).
Proof.
  intros (Hf & _ & Hs). inversion Hs as [? _ Hp _|? q E _ _ _]; subst; cbn in *; rewrite Hf in *; [done|]. rewrite E. by apply prefix_app_r.
Qed.

Lemma uio_loop_spec fuel nl fp d b o p iov resid : wr_ok fp b o -> nl_ok fp nl p -> resid = Z.of_nat (length (p ++ concat iov)) -> 0 < resid < 2 ^ 31 ->
  (2 * Z.to_nat resid + (if decide (unwritten fp = []) then 0 else 1) < fuel)%nat -> exists r res fp' d',
  uio_loop (chosen fp) fuel nl fp d p iov resid = CVal (r, res, fp', d') /\ loop_post fp d p iov resid r res fp' d'.
Proof.
  revert nl fp d b o p iov resid. induction fuel as [|fuel IH]; intros nl fp d b o p iov resid Hwr Hnl Hres Hpos Hf; [lia|]. cbn [uio_loop].
  destruct (GETIOV_spec p iov) as (p1 & iov1 & next & -> & Hne & Hcat & Hsame & Hnil); [intros E; rewrite E in Hres; cbn in Hres; lia|]. cbn [mbind cres_bind].
  assert (Z.of_nat (length p1) <= resid) as Hle by (rewrite Hres, <- Hcat, length_app; lia).
  destruct (step_spec (if next then None else nl) fp d b o p1 Hwr Hne) as (r & nl1 & fp1 & d1 & -> & (b1 & o1 & Hwr1) & Hst & Hr);
    [lia|destruct next; [done|by rewrite Hsame]|]. cbn [mbind cres_bind].
  destruct r as [w|].
  2:{ exists EOF, resid, (set_flag fp1 __SERR), d1. split; [done|]. split; [exists b1, o1; by apply wr_err|]. right. split; [done|].
      rewrite <- Hcat. split; [by apply sent_fail_more|]. split; [lia|by left]. }
  destruct Hst as (Hw & Hsent & Hprog). destruct Hr as [Hnl1 Hu]. pose proof Hsent as (Hf1 & Hfl1 & Hs1).
  assert (p ++ concat iov = take (Z.to_nat w) p1 ++ drop (Z.to_nat w) p1 ++ concat iov1) as Hsplit by by rewrite <- Hcat, app_assoc, take_drop.
  destruct (Z.eqb_spec (resid - w) 0) as [Hdone|Hmore].
  - exists 0, 0, fp1, d1. split; [done|]. split; [by exists b1, o1|]. left. split; [done|]. rewrite Hsplit.
    assert (drop (Z.to_nat w) p1 ++ concat iov1 = []) as ->; [|by rewrite app_nil_r]. apply length_zero_iff_nil.
    apply (f_equal (@length Z)) in Hsplit. rewrite !length_app, length_take, length_drop in *. lia.
  - assert (chosen fp1 = chosen fp) as <- by (unfold chosen; by rewrite (Hfl1 __SNBF), (Hfl1 __SLBF)).
    destruct (IH nl1 fp1 d1 b1 o1 (drop (Z.to_nat w) p1) iov1 (resid - w) Hwr1) as (r & res & fp2 & d2 & -> & Hex & Hpost).
    { unfold nl_ok in *. by rewrite (Hfl1 __SNBF), (Hfl1 __SLBF). }
    { rewrite Hres, Hsplit, !length_app, length_take. lia. }
    { lia. }
    { destruct Hprog as [Hprog|[Hu0 Hu1]]; [destruct (decide (unwritten fp1 = [])), (decide (unwritten fp = [])); lia|].
      rewrite decide_False in Hf by done. rewrite decide_True by done. lia. }
    exists r, res, fp2, d2. split; [done|]. split; [done|]. rewrite Hsplit. destruct Hpost as [[-> Hs2]|(-> & Hs2 & Hres2 & Hk)]; [left|right].
    + split; [done|]. by apply (sent_app _ _ _ fp1 d1).
    + split; [done|]. split; [by apply (sent_app _ _ _ fp1 d1)|]. split; [lia|]. intros Hiov. destruct (Hnil Hiov) as [-> ->]. rewrite (Hsame eq_refl) in *.
      subst iov. cbn [concat] in *. rewrite app_nil_r in *.
      destruct Hu as [Hu|Hu]; [|exfalso; rewrite <- Hu in Hres; lia]. inversion Hs1 as [? E1 _ _|]; subst. cbn in E1. rewrite Hf1, Hu, app_nil_r in E1.
      destruct (Hk eq_refl) as [-> |Hk2]; right.
      * replace (Z.of_nat (length p) - (Z.of_nat (length p) - w)) with w by lia. rewrite <- E1. apply sent_out in Hs2. by rewrite Hf1 in Hs2.
      * rewrite Hf1, Hu, E1 in Hk2. cbn [app] in Hk2. rewrite <- !app_assoc in Hk2.
        replace (Z.to_nat (Z.of_nat (length p) - res)) with (Z.to_nat w + Z.to_nat (Z.of_nat (length p) - w - res))%nat by lia.
        by rewrite <- take_take_drop.
Qed.

Lemma sfvwrite_spec fp d iov resid : writable fp -> resid = Z.of_nat (length (concat iov)) -> 0 <= resid < 2 ^ 31 -> exists r res fp' d',
  __sfvwrite fp d iov resid = CVal (r, res, fp', d') /\ writable fp' /\ _file fp' = _file fp /\
  (r = 0 /\ sends (outp fp d) (concat iov) true (outp fp' d') \/
   r = EOF /\ sends (outp fp d) (concat iov) false (outp fp' d') /\ 0 < res <= resid /\
   (forall p, iov = [p] -> res = resid \/ d_out d (_file fp) ++ unwritten fp ++ take (Z.to_nat (resid - res)) p `prefix_of` d_out d' (_file fp))).
Proof.
  intros Hw Hres Hr. unfold __sfvwrite. destruct (Z.eqb_spec resid 0) as [->|Hne].
  { exists 0, 0, fp, d. split; [done|]. split; [done|]. split; [done|]. left. split; [done|].
    destruct (concat iov); [|cbn in Hres; lia]. apply sent_refl. }
  destruct (cantwrite_spec fp d Hw) as (fp1 & d1 & b & o & -> & Hwr & Hf & Hs).
  destruct iov as [|p iov]; [cbn in Hres; lia|]. change (if flag fp1 __SNBF then _ else _) with (chosen fp1). cbn [concat] in *.
  assert (d_out d1 (_file fp) ++ unwritten fp1 = d_out d (_file fp) ++ unwritten fp) as E by (inversion Hs as [? E _ _|]; cbn in E; by rewrite app_nil_r, Hf in E).
  destruct (uio_loop_spec (S (S (2 * Z.to_nat resid))) None fp1 d1 b o p iov resid Hwr) as (r & res & fp2 & d2 & -> & Hex & Hpost); [done|done|lia|destruct (decide _); lia|].
  exists r, res, fp2, d2. split; [done|]. split; [by right|]. destruct Hpost as [[-> (Hf2 & _ & Hs2)]|(-> & (Hf2 & _ & Hs2) & Hres2 & Hk)].
  - split; [congruence|]. left. split; [done|]. by apply (sends_app _ [] (outp fp1 d1) (p ++ concat iov)).
  - split; [congruence|]. right. split; [done|]. split; [by apply (sends_app _ [] (outp fp1 d1) (p ++ concat iov))|]. split; [done|].
    intros p' [= <- ->]. destruct (Hk eq_refl) as [? |Hk2]; [by left|right]. rewrite Hf, app_assoc, E, <- app_assoc in Hk2. exact Hk2.
Qed.

(** ** The operations *)

Lemma putc_spec c fp d : writable fp -> exists r fp' d', putc c fp d = CVal (r, fp', d') /\ writable fp' /\ _file fp' = _file fp /\
  spec_op (Putc c) (outp fp d) r (outp fp' d').
Proof.
  intros Hw. unfold putc. destruct (cantwrite_spec fp d Hw) as (fp1 & d1 & b & o & -> & Hwr & Hf & Hs).
  destruct (sputc_spec c fp1 d1 b o Hwr) as (r & fp2 & d2 & -> & Hex & Hr). exists r, fp2, d2. split; [done|]. split; [by right|].
  destruct Hr as [[-> (Hf2 & _ & Hs2)]|[-> (Hf2 & _ & Hs2)]]; (split; [congruence|]).
  - apply spec_putc. by apply (sends_app _ [] (outp fp1 d1)).
  - apply spec_putc_err. by apply (sends_app _ [] (outp fp1 d1)).
Qed.

Lemma fwrite_spec buf size count fp d : writable fp -> op_fits (Fwrite buf size count) -> exists r fp' d',
  fwrite buf size count fp d = CVal (r, fp', d') /\ writable fp' /\ _file fp' = _file fp /\
  spec_op (Fwrite buf size count) (outp fp d) r (outp fp' d').
Proof.
  intros Hw [Hlen Hfit]. unfold fwrite. pose proof (u32_range (count * size)) as Hn. set (n := u32 (count * size)) in *.
  unfold aslice. repeat zif. cbn [mbind cres_bind]. change (slice (Z.to_nat 0) (Z.to_nat n) buf) with (take (Z.to_nat n) buf).
  rewrite s32_small by lia. set (p := take (Z.to_nat n) buf). assert (Z.of_nat (length p) = n) as Hp by (subst p; rewrite length_take; lia).
  destruct (sfvwrite_spec fp d [p] n Hw) as (r & res & fp' & d' & -> & Hw' & Hf & Hr); [cbn; by rewrite app_nil_r|lia|].
  cbn [mbind cres_bind]. cbn [concat] in Hr. rewrite app_nil_r in Hr. destruct Hr as [[-> Hs]|(-> & Hs & Hres & Hk)].
  - eexists _, fp', d'. split; [done|]. split; [done|]. split; [done|]. by apply spec_fwrite.
  - change (EOF =? 0) with false. cbv iota. eexists _, fp', d'. split; [done|]. split; [done|]. split; [done|].
    rewrite u32_small by lia. apply spec_fwrite_err; [done|fold n; lia|]. cbn [o_done o_held outp]. rewrite Hf.
    destruct (Hk p eq_refl) as [->|Hpre]; [right; lia|left]. subst p. rewrite take_take in Hpre.
    by rewrite Nat.min_l in Hpre by lia.
Qed.

Lemma fputs_spec s fp d : writable fp -> op_fits (Fputs s) -> exists r fp' d', fputs s fp d = CVal (r, fp', d') /\ writable fp' /\ _file fp' = _file fp /\
  spec_op (Fputs s) (outp fp d) r (outp fp' d').
Proof.
  intros Hw Hfit. cbn in Hfit. unfold fputs. rewrite s32_small by lia.
  destruct (sfvwrite_spec fp d [s] (Z.of_nat (length s)) Hw) as (r & res & fp' & d' & -> & Hw' & Hf & Hr); [cbn; by rewrite app_nil_r|lia|].
  cbn [mbind cres_bind]. cbn [concat] in Hr. rewrite app_nil_r in Hr. exists r, fp', d'. split; [done|]. split; [done|]. split; [done|].
  destruct Hr as [[-> Hs]|(-> & Hs & _)]; [by apply spec_fputs|by apply spec_fputs_err].
Qed.

Lemma puts_spec s fp d : writable fp -> op_fits (Puts s) -> exists r fp' d', puts s fp d = CVal (r, fp', d') /\ writable fp' /\ _file fp' = _file fp /\
  spec_op (Puts s) (outp fp d) r (outp fp' d').
Proof.
  intros Hw Hfit. cbn in Hfit. unfold puts. rewrite s32_small by lia.
  destruct (sfvwrite_spec fp d [s; [10]] (Z.of_nat (length s) + 1) Hw) as (r & res & fp' & d' & -> & Hw' & Hf & Hr); [cbn; rewrite length_app; cbn; lia|lia|].
  cbn [mbind cres_bind]. change (concat [s; [10]]) with (s ++ [10]) in Hr. destruct Hr as [[-> Hs]|(-> & Hs & _)].
  - exists 10, fp', d'. split; [done|]. split; [done|]. split; [done|]. by apply spec_puts.
  - exists EOF, fp', d'. split; [done|]. split; [done|]. split; [done|]. by apply spec_puts_err.
Qed.

Lemma fflush_op_spec fp d : writable fp -> exists r fp' d', fflush fp d = CVal (r, fp', d') /\ writable fp' /\ _file fp' = _file fp /\
  spec_op Fflush (outp fp d) r (outp fp' d').
Proof.
  intros [(Hw & Hs & Hl & Hb & Hlb)|(b & o & Hwr)].
  - exists 0, fp, d. unfold fflush, __sflush. assert (flag fp (Z.lor __SWR __SRW) = true) as -> by (unfold flag in *; by rewrite has_or, Hw).
    rewrite Hw, Hb. split; [done|]. split; [by left|]. split; [done|]. apply spec_fflush; [apply sent_refl|].
    cbn. unfold unwritten, buffered_out. by rewrite Hw, Hb.
  - destruct (fflush_spec fp b o d (wo_base _ _ _ Hwr)) as (r & fp' & d' & -> & Hwr' & Hr). exists r, fp', d'. split; [done|].
    split; [right; by exists b, 0|]. destruct Hr as [[-> (Hf & _ & Hs)]|[-> (Hf & _ & Hs)]]; (split; [done|]).
    + apply spec_fflush; [done|]. by apply (wr_empty _ b).
    + by apply spec_fflush_err.
Qed.

Lemma write_op_spec o fp d : writable fp -> op_fits o -> exists r fp' d', run_op o fp d = CVal (r, fp', d') /\ writable fp' /\ _file fp' = _file fp /\
  spec_op o (outp fp d) r (outp fp' d').
Proof.
  intros Hw Ho. destruct o; cbn [run_op];
    [by apply putc_spec|by apply fwrite_spec|by apply fputs_spec|by apply puts_spec|by apply fflush_op_spec].
Qed.

(** Line buffered streams hold no newline back, unbuffered ones nothing. *)
Lemma writable_held fp : writable fp ->
  (flag fp __SNBF = true -> unwritten fp = []) /\ (flag fp __SLBF = true -> 10 ∉ unwritten fp).
Proof.
  intros [(Hw & _ & _ & Hb & _)|(b & o & Hwr)].
  - unfold unwritten, buffered_out. rewrite Hw, Hb. split; [done|]. intros _. apply not_elem_of_nil.
  - rewrite (base_unwritten _ _ _ (wo_base _ _ _ Hwr)). split; [|apply (wo_slbf _ _ _ Hwr)].
    intros Hn. by rewrite (wo_snbf _ _ _ Hwr Hn).
Qed.

(** C14: any sequence of putc, fwrite, fputs, puts and fflush on a stream that is written
    returns, however short the writes of the device are and whether or not they fail, and
    does what the specification does: all bytes are in their order on the descriptor or held
    back in the buffer, a flush leaves nothing there, line buffered streams hold no newline
    and unbuffered ones no byte; an operation that fails sets the error indicator and leaves
    a prefix of what was sent on the descriptor, and items that fwrite counts were written. *)
Theorem writes_refine os fp d : writable fp -> Forall op_fits os -> exists vs fp' d',
  run_ops os fp d = CVal (vs, fp', d') /\ writable fp' /\ spec_ops os (outp fp d) vs (outp fp' d') /\
  (flag fp' __SNBF = true -> o_held (outp fp' d') = []) /\ (flag fp' __SLBF = true -> 10 ∉ o_held (outp fp' d')).
Proof.
  revert fp d. induction os as [|o os IH]; intros fp d Hw Hos.
  { exists [], fp, d. split; [done|]. split; [done|]. split; [done|]. by apply writable_held. }
  inversion Hos as [|? ? Ho Hos']; subst.
  destruct (write_op_spec o fp d Hw Ho) as (v & fp1 & d1 & E & Hw1 & _ & Hs). destruct (IH fp1 d1 Hw1 Hos') as (vs & fp2 & d2 & E2 & Hw2 & Hs2 & Hh).
  cbn [run_ops]. rewrite E. cbn [mbind cres_bind]. rewrite E2. cbn [mbind cres_bind fst snd]. exists (v :: vs), fp2, d2.
  split; [done|]. split; [done|]. split; [|done]. exists (outp fp1 d1). done.
Qed.
End laws.

(** A stream on descriptor 3 that was just opened for writing. *)
Definition writer (flags : Z) : FILE := mkFILE PNull 0 0 (Z.lor __SWR flags) 3 None 0 None PNull 0 None 0 0 0.

(** The tape has room for 12 bytes: the buffer of 8 is written twice before it is full. *)
Lemma writes_refine_witness : exists fp' d',
  run_ops [Putc 97; Fputs [98; 99; 10]; Fwrite [1; 2; 3; 4; 5; 6] 2 3; Fflush; Puts [100; 101; 102]; Fflush] (writer 0) (mkTape [] [] 12) =
    CVal ([97; 0; 3; 0; 10; EOF], fp', d') /\ writable fp' /\
  spec_ops [Putc 97; Fputs [98; 99; 10]; Fwrite [1; 2; 3; 4; 5; 6] 2 3; Fflush; Puts [100; 101; 102]; Fflush] (mkOutput [] [] false)
    [97; 0; 3; 0; 10; EOF] (outp fp' d').
Proof.
  destruct (writes_refine [Putc 97; Fputs [98; 99; 10]; Fwrite [1; 2; 3; 4; 5; 6] 2 3; Fflush; Puts [100; 101; 102]; Fflush] (writer 0) (mkTape [] [] 12))
    as (vs & fp' & d' & E & Hw & Hs & _).
  - left. split; [done|]. split; [done|]. split; [done|]. split; done.
  - repeat constructor; done.
  - assert (vs = [97; 0; 3; 0; 10; EOF]) as -> by (revert E; clear; intros E; vm_compute in E; by injection E as <- _ _).
    exists fp', d'. split; [exact E|]. split; [exact Hw|exact Hs].
Defined.

(** What could not be written is lost: after an error the rest of the buffer is gone, and the
    next flush reports success. *)
Lemma sflush_drops : exists fp' d',
  run_ops [Fputs [1; 2; 3; 4; 5]; Fflush; Fflush] (writer 0) (mkTape [] [] 3) = CVal ([0; EOF; 0], fp', d') /\ t_out d' = [1; 2; 3].
Proof. eexists _, _. split; vm_compute; reflexivity. Qed.
