(* ===== verification/Elf.v ===== *)
(** * ELF images: symbol lookup and segments, from linker/linker.c

    The tables of an image are lists that the code indexes; names are byte lists
    without the terminating NUL, and [strtab] gives the name at an offset of the
    string table. *)

From Stdlib Require Import ZArith Lia.
From stdpp Require Import base list numbers sets.
From S2P Require Import Prelude Links.

Open Scope Z_scope.

(** ** Symbols *)

Record Elf32_Sym := mkSym { st_name : Z; st_value : Z; st_size : Z; st_info : Z; st_shndx : Z }.
Definition ELF32_ST_BIND (info : Z) : Z := Z.shiftr info 4.
Definition STB_GLOBAL : Z := 1.
Definition STB_WEAK : Z := 2.

(** The tables that link_image finds in the dynamic section. *)
Record tables := mkTables {
  nbucket : Z; bucket : list Z; chain : list Z; symtab : list Elf32_Sym; strtab : Z -> list Z
}.

(** h = (h << 4) + c and the folding of the upper four bits *)
Definition elfhash_step (h c : Z) : Z :=
  let h := u32 (u32 (Z.shiftl h 4) + c) in
  let g := Z.land h 0xf0000000 in
  let h := Z.lxor h g in
  Z.lxor h (Z.shiftr g 24).

Definition elfhash (name : list Z) : Z := fold_left elfhash_step name 0.

(** The case labels of the switch: whether the symbol is returned. *)
Definition sym_ok (s : Elf32_Sym) : bool :=
  if ELF32_ST_BIND (st_info s) =? STB_GLOBAL then negb (st_shndx s =? 0)
  else ELF32_ST_BIND (st_info s) =? STB_WEAK.

(** for (n = ...; n != 0; n = si->chain[n]) *)
Fixpoint elf_lookup_loop (fuel : nat) (si : tables) (name : list Z) (n : Z) : cres (option Elf32_Sym) :=
  match fuel with
  | O => CFuel
  | S f =>
      if n =? 0 then CVal None
      else
        s ← aget (symtab si) n;
        if negb (bool_decide (strtab si (st_name s) = name)) || negb (sym_ok s) then
          n ← aget (chain si) n; elf_lookup_loop f si name n
        else CVal (Some s)
  end.

(** A table without buckets makes hash % nbucket undefined. *)
Definition _elf_lookup (si : tables) (hash : Z) (name : list Z) : cres (option Elf32_Sym) :=
  if nbucket si =? 0 then CUndef
  else n ← aget (bucket si) (hash mod nbucket si); elf_lookup_loop (S (length (chain si))) si name n.

(** The hash is computed when it is needed for the first time. *)
Definition _do_lookup_in_so (si : tables) (name : list Z) (elf_hash : Z) : cres (option Elf32_Sym * Z) :=
  let elf_hash := if elf_hash =? 0 then elfhash name else elf_hash in
  r ← _elf_lookup si elf_hash name; CVal (r, elf_hash).

Definition lookup_in_library (si : tables) (name : list Z) : cres (option Elf32_Sym) :=
  '(r, _) ← _do_lookup_in_so si name 0; CVal r.

(** ** Segments *)

Record Elf32_Phdr := mkPhdr {
  p_type : Z; p_offset : Z; p_vaddr : Z; p_filesz : Z; p_memsz : Z; p_flags : Z
}.
Definition PT_LOAD : Z := 1.
Definition PT_DYNAMIC : Z := 2.
Definition PF_W : Z := 2.
Definition PAGE_SIZE : Z := 4096.
Definition PAGE_MASK : Z := 4095.

(** x & ~PAGE_MASK *)
Definition page_start (x : Z) : Z := x - Z.land x PAGE_MASK.

(** The loop of get_lib_extents over the program headers. *)
Fixpoint extents_loop (ph : list Elf32_Phdr) (min_vaddr max_vaddr : Z) : Z * Z :=
  match ph with
  | [] => (min_vaddr, max_vaddr)
  | p :: ph' =>
      if p_type p =? PT_LOAD then
        let e := u32 (p_vaddr p + p_memsz p) in
        extents_loop ph' (if p_vaddr p <? min_vaddr then p_vaddr p else min_vaddr)
          (if max_vaddr <? e then e else max_vaddr)
      else extents_loop ph' min_vaddr max_vaddr
  end.

(** The part of the file that the linker reads before it maps it: e_ident, whether
    e_machine is that of the host, the program headers, and the trailing
    prelink_info_t's address, 0 without one. *)
Record header := mkHeader { e_ident : list Z; machine_ok : bool; phdrs : list Elf32_Phdr; prelink : Z }.

Definition verify_elf_object (h : header) : Z :=
  if bool_decide (e_ident h = [0x7f; 69; 76; 70]) then (if machine_ok h then 0 else -1) else -1.

(** The return value and *total_sz. *)
Definition get_lib_extents (h : header) : Z * Z :=
  if verify_elf_object h <? 0 then (UINT_MAX, 0)
  else if prelink h =? UINT_MAX then (UINT_MAX, 0)
  else
    let '(min_vaddr, max_vaddr) := extents_loop (phdrs h) UINT_MAX 0 in
    if (min_vaddr =? UINT_MAX) && (max_vaddr =? 0) then (UINT_MAX, 0)
    else
      let min_vaddr := page_start min_vaddr in
      let max_vaddr := page_start (u32 (max_vaddr + PAGE_SIZE - 1)) in
      (prelink h, u32 (max_vaddr - min_vaddr)).

Lemma lib_extents_size h : 0 <= (get_lib_extents h).2 < 2 ^ 32.
Proof.
  unfold get_lib_extents. destruct (_ <? 0); [done|]. destruct (_ =? UINT_MAX); [done|].
  destruct (extents_loop _ _ _) as [a b]. destruct (_ && _); [done|]. apply u32_range.
Qed.

(** The length that load_segments maps of a segment, from the page of its start to
    the page after its end. *)
Definition seg_len (base : Z) (p : Elf32_Phdr) : Z :=
  let pbase := u32 (base + page_start (p_vaddr p)) in
  u32 (page_start (u32 (base + p_vaddr p + p_memsz p + PAGE_SIZE - 1)) - pbase).

(** load_segments: [ok] says whether the mappings of a segment succeed.  The result
    is total_sz, wrprotect_start, wrprotect_end and whether there is a PT_DYNAMIC
    segment, or none when a mapping fails. *)
Record seg_info := mkSeg { total_sz : Z; wrprotect_start : Z; wrprotect_end : Z; has_dynamic : bool }.

Fixpoint segments_loop (ok : Elf32_Phdr -> bool) (base : Z) (ph : list Elf32_Phdr) (s : seg_info) : option seg_info :=
  match ph with
  | [] => Some s
  | p :: ph' =>
      if p_type p =? PT_LOAD then
        if negb (ok p) then None
        else
          let pbase := u32 (base + page_start (p_vaddr p)) in
          let len := seg_len base p in
          let t := u32 (total_sz s + len) in
          segments_loop ok base ph'
            (if Z.land (p_flags p) PF_W =? 0 then
               mkSeg t (if pbase <? wrprotect_start s then pbase else wrprotect_start s)
                 (if wrprotect_end s <? u32 (pbase + len) then u32 (pbase + len) else wrprotect_end s) (has_dynamic s)
             else mkSeg t (wrprotect_start s) (wrprotect_end s) (has_dynamic s))
      else if p_type p =? PT_DYNAMIC then
        segments_loop ok base ph' (mkSeg (total_sz s) (wrprotect_start s) (wrprotect_end s) true)
      else segments_loop ok base ph' s
  end.

Definition load_segments (ok : Elf32_Phdr -> bool) (base size : Z) (h : header) : option seg_info :=
  match segments_loop ok base (phdrs h) (mkSeg 0 UINT_MAX 0 false) with
  | Some s => if size <? total_sz s then None else Some s
  | None => None
  end.

(** ** Symbol lookup finds what the hash table holds *)

(** The hash table of an image: the chains of its buckets end, stay inside the
    tables, and hold every symbol in the bucket of its name's hash. *)
Record wf_tables (t : tables) (chs : list (list Z)) : Prop := {
  wt_nb : 0 < nbucket t /\ Z.of_nat (length (bucket t)) = nbucket t /\ length chs = length (bucket t);
  wt_len : length (symtab t) = length (chain t);
  wt_chain : forall b p xs, bucket t !! b = Some p -> chs !! b = Some xs ->
    lchain (fun n => chain t !! Z.to_nat n) p xs /\ NoDup xs /\ forall n, n ∈ xs -> 0 < n < Z.of_nat (length (chain t));
  wt_hash : forall n s, 0 < n -> symtab t !! Z.to_nat n = Some s ->
    exists xs, chs !! Z.to_nat (elfhash (strtab t (st_name s)) mod nbucket t) = Some xs /\ n ∈ xs
}.

(** The symbol [n] is one that a lookup of [name] accepts. *)
Definition defines (t : tables) (name : list Z) (n : Z) : Prop :=
  exists s, symtab t !! Z.to_nat n = Some s /\ strtab t (st_name s) = name /\ sym_ok s = true.

Lemma elf_lookup_loop_spec fuel t name : forall p xs,
  lchain (fun n => chain t !! Z.to_nat n) p xs -> (forall n, n ∈ xs -> 0 < n < Z.of_nat (length (symtab t))) ->
  (length xs < fuel)%nat ->
  (exists n s, elf_lookup_loop fuel t name p = CVal (Some s) /\ n ∈ xs /\ symtab t !! Z.to_nat n = Some s /\
     strtab t (st_name s) = name /\ sym_ok s = true) \/
  (elf_lookup_loop fuel t name p = CVal None /\ forall n, n ∈ xs -> ~ defines t name n).
Proof.
  induction fuel as [|f IH]; intros p xs C Hin Hf; [lia|]. cbn [elf_lookup_loop]. destruct xs as [|x xs].
  { cbn in C. subst p. right. split; [done|]. by intros n H%not_elem_of_nil. }
  destruct C as (-> & Hx & v & Hv & C). zif.
  destruct (Hin x) as [Hx0 Hxl]; [left|].
  destruct (lookup_lt_is_Some_2 (symtab t) (Z.to_nat x)) as [s Hs]; [lia|].
  rewrite (aget_val (symtab t) x s) by (lia || done). cbn [mbind cres_bind].
  destruct (bool_decide_reflect (strtab t (st_name s) = name)) as [Hn|Hn]; cbn [negb orb];
    [destruct (sym_ok s) eqn:Hok; cbn [negb]|].
  { left. exists x, s. split_and!; try done. left. }
  all: rewrite (aget_val (chain t) x v) by (lia || done); cbn [mbind cres_bind];
    destruct (IH v xs C) as [(n & s' & E & Hn' & Hrest)|[E Hno]];
    [intros n Hn'; apply Hin; by right|cbn [length] in Hf; lia|left; exists n, s'; split_and!; try tauto; by right|].
  all: right; split; [done|]; intros n [->|Hn']%elem_of_cons; [|by apply Hno];
    intros (s' & Hs' & Hn' & Hok'); rewrite Hs in Hs'; injection Hs' as <-; congruence.
Qed.

Lemma xor_below a b n : 0 <= n -> 0 <= a < 2 ^ n -> 0 <= b < 2 ^ n -> 0 <= Z.lxor a b < 2 ^ n.
Proof.
  intros Hn Ha Hb. assert (Z.lxor a b = Z.lxor a b mod 2 ^ n) as ->.
  { rewrite <- Z.land_ones by done. apply Z.bits_inj'. intros i Hi.
    rewrite Z.land_spec, Z.lxor_spec, Z.testbit_ones_nonneg by done.
    destruct (Z.ltb_spec i n); [by rewrite andb_true_r|].
    assert (forall c, 0 <= c < 2 ^ n -> Z.testbit c i = false) as Hz.
    { intros c Hc. destruct (Z.eq_dec c 0) as [->|]; [apply Z.bits_0|]. apply Z.bits_above_log2; [lia|].
      pose proof (Z.log2_lt_pow2 c n). lia. }
    by rewrite !Hz. }
  apply Z.mod_pos_bound. lia.
Qed.

Lemma elfhash_bound name : 0 <= elfhash name < 2 ^ 28.
Proof.
  unfold elfhash. assert (forall h, 0 <= h < 2 ^ 28 -> 0 <= fold_left elfhash_step name h < 2 ^ 28) as H; [|by apply H].
  induction name as [|c name IH]; intros h Hh; [done|]. cbn [fold_left]. apply IH. clear IH.
  unfold elfhash_step. set (x := u32 (u32 (Z.shiftl h 4) + c)). pose proof (u32_range (u32 (Z.shiftl h 4) + c)) as Hx.
  fold x in Hx. assert (Z.land x 0xf0000000 = x - x mod 2 ^ 28) as ->.
  { assert (x = Z.lor (Z.land x 0xf0000000) (Z.land x (Z.ones 28))) as E.
    { rewrite <- Z.land_lor_distr_r. change (Z.lor 0xf0000000 (Z.ones 28)) with (Z.ones 32).
      rewrite Z.land_ones, Z.mod_small by lia. done. }
    assert (Z.land (Z.land x 0xf0000000) (Z.land x (Z.ones 28)) = 0) as D.
    { rewrite <- Z.land_assoc, (Z.land_assoc 0xf0000000), (Z.land_comm 0xf0000000), <- !Z.land_assoc.
      change (Z.land 0xf0000000 (Z.ones 28)) with 0. by rewrite !Z.land_0_r. }
    rewrite lor_add in E by done. rewrite (Z.land_ones x 28) in E by lia. lia. }
  set (g := x - x mod 2 ^ 28). assert (g = 2 ^ 28 * (x / 2 ^ 28)) as Hg by (unfold g; pose proof (Z.div_mod x (2 ^ 28)); lia).
  assert (0 <= x / 2 ^ 28 < 16) as Hq.
  { split; [apply Z.div_pos; lia|apply Z.div_lt_upper_bound; lia]. }
  apply xor_below; [lia| |].
  - assert (Z.lxor x g = x mod 2 ^ 28) as ->; [|apply Z.mod_pos_bound; lia].
    assert (x = Z.lxor g (x mod 2 ^ 28)) as E.
    { rewrite <- Z.add_nocarry_lxor; [unfold g; lia|]. rewrite Hg, Z.mul_comm, <- Z.shiftl_mul_pow2, <- Z.land_ones by lia.
      apply Z.bits_inj'. intros i Hi. rewrite !Z.land_spec, Z.bits_0, Z.testbit_ones_nonneg by lia.
      destruct (Z.ltb_spec i 28); [by rewrite Z.shiftl_spec_low by done|by rewrite !andb_false_r]. }
    rewrite E at 1. by rewrite (Z.lxor_comm g), Z.lxor_assoc, Z.lxor_nilpotent, Z.lxor_0_r.
  - rewrite Z.shiftr_div_pow2 by lia. rewrite Hg. split; [apply Z.div_pos; lia|]. apply Z.div_lt_upper_bound; lia.
Qed.

(** The search in one library; the hash is computed once. *)
Lemma do_lookup_in_so_spec (t : tables) (chs : list (list Z)) (name : list Z) (h : Z) :
  wf_tables t chs -> (h = 0 \/ h = elfhash name) -> exists r, _do_lookup_in_so t name h = CVal (r, elfhash name) /\
  match r with
  | Some s => exists n, 0 < n /\ symtab t !! Z.to_nat n = Some s /\ strtab t (st_name s) = name /\ sym_ok s = true
  | None => forall n, 0 < n -> ~ defines t name n
  end.
Proof.
  intros W Hh. destruct (wt_nb _ _ W) as (Hnb & Hb & Hc). unfold _do_lookup_in_so.
  assert ((if h =? 0 then elfhash name else h) = elfhash name) as -> by (destruct (Z.eqb_spec h 0); naive_solver).
  unfold _elf_lookup.
  zif. assert (0 <= elfhash name mod nbucket t < nbucket t) as Hm by (apply Z.mod_pos_bound; lia).
  destruct (lookup_lt_is_Some_2 (bucket t) (Z.to_nat (elfhash name mod nbucket t))) as [p Hp]; [lia|].
  destruct (lookup_lt_is_Some_2 chs (Z.to_nat (elfhash name mod nbucket t))) as [xs Hx]; [lia|].
  rewrite (aget_val (bucket t) _ p) by (lia || done). cbn [mbind cres_bind].
  destruct (wt_chain _ _ W _ _ _ Hp Hx) as (C & N & Hin).
  destruct (elf_lookup_loop_spec (S (length (chain t))) t name p xs C) as [(n & s & -> & Hn & Hs & Hrest)|[-> Hno]].
  - rewrite (wt_len _ _ W). apply Hin.
  - assert (length xs <= length (chain t))%nat; [|lia].
    rewrite <- (length_fmap Z.to_nat xs). transitivity (length (seq 0 (length (chain t)))); [|by rewrite length_seq].
    apply submseteq_length, NoDup_submseteq.
    + apply NoDup_fmap_2_strong; [|done]. intros a b Ha%Hin Hb'%Hin. lia.
    + intros k (a & -> & Ha%Hin)%list_elem_of_fmap. apply elem_of_seq. lia.
  - exists (Some s). cbn [mbind cres_bind]. split; [done|]. exists n. apply Hin in Hn. split_and!; lia || done || tauto.
  - exists None. cbn [mbind cres_bind]. split; [done|]. intros n Hn0 Hd. pose proof Hd as (s & Hs & Hname & _).
    destruct (wt_hash _ _ W n s Hn0 Hs) as (ys & Hys & Hn). rewrite Hname in Hys. rewrite Hx in Hys. injection Hys as <-.
    by apply (Hno n Hn).
Qed.

(** Symbol lookup in a library.  On tables as the ELF format describes them
    lookup_in_library terminates without leaving them, and finds a symbol exactly
    when the library has one of that name that is weak, or global and defined. *)
Theorem elf_lookup_finds (t : tables) (chs : list (list Z)) (name : list Z) :
  wf_tables t chs ->
  (exists n s, lookup_in_library t name = CVal (Some s) /\ 0 < n /\ symtab t !! Z.to_nat n = Some s /\
     strtab t (st_name s) = name /\ sym_ok s = true) \/
  (lookup_in_library t name = CVal None /\ forall n, 0 < n -> ~ defines t name n).
Proof.
  intros W. destruct (do_lookup_in_so_spec t chs name 0 W ltac:(by left)) as (r & E & Hr). unfold lookup_in_library.
  rewrite E. cbn [mbind cres_bind]. destruct r as [s|]; [left|by right]. destruct Hr as (n & Hn). exists n, s. tauto.
Qed.

(** A table with the symbols "ab" (global, defined) and "c" (global, undefined) in
    one bucket. *)
Definition sample_tables : tables :=
  mkTables 1 [2] [0; 0; 1] [mkSym 0 0 0 0 0; mkSym 1 0x100 4 0x10 3; mkSym 4 0 0 0x10 0]
    (fun o => if o =? 1 then [97; 98] else if o =? 4 then [99] else []).

Lemma sample_tables_wf : wf_tables sample_tables [[2; 1]].
Proof.
  split.
  - split; [reflexivity|]. split; reflexivity.
  - reflexivity.
  - intros [|b] p xs Hb Hx; [|destruct b; discriminate Hb]. injection Hb as <-. injection Hx as <-. split_and!.
    + cbn [lchain]. split_and!; [reflexivity|discriminate|]. exists 1. split; [reflexivity|].
      split_and!; [reflexivity|discriminate|]. exists 0. split; reflexivity.
    + apply (bool_decide_unpack _). vm_compute. exact I.
    + intros n Hn. cbn [sample_tables chain length]. apply elem_of_cons in Hn as [->|Hn]; [lia|].
      apply elem_of_cons in Hn as [->|Hn]; [lia|]. by apply not_elem_of_nil in Hn.
  - intros n s Hn Hs. pose proof (lookup_lt_Some _ _ _ Hs) as Hlt. cbn [sample_tables symtab length] in Hlt.
    exists [2; 1]. split.
    + cbn [sample_tables nbucket]. by rewrite Z.mod_1_r.
    + assert (n = 1 \/ n = 2) as [-> | ->] by lia; [right; left|left].
Qed.

Lemma elf_lookup_finds_witness :
  lookup_in_library sample_tables [97; 98] = CVal (Some (mkSym 1 0x100 4 0x10 3)) /\
  ((exists n s, lookup_in_library sample_tables [99] = CVal (Some s) /\ 0 < n /\
      symtab sample_tables !! Z.to_nat n = Some s /\ strtab sample_tables (st_name s) = [99] /\ sym_ok s = true) \/
   (lookup_in_library sample_tables [99] = CVal None /\ forall n, 0 < n -> ~ defines sample_tables [99] n)).
Proof. split; [vm_compute; reflexivity|]. apply (elf_lookup_finds sample_tables [[2; 1]] [99]). apply sample_tables_wf. Defined.
