(* ===== verification/Linker.v ===== *)
(** * The dynamic linker: libraries, dlopen and dlclose (linker/linker.c, dlfcn.c)

    The soinfo structures live in a static pool and are linked through next, into
    the list of libraries or the list of free structures.  What the linker reads
    from files and what the kernel answers is the [world], an argument of the
    functions; the buddy allocator is that of Buddy.v.  All functions run under
    dl_lock. *)

From Stdlib Require Import ZArith Lia.
From stdpp Require Import base gmap list numbers sets.
From S2P Require Import Prelude Links Buddy Elf.

Open Scope Z_scope.

Definition FLAG_LINKED : Z := 1.
Definition FLAG_ERROR : Z := 2.
Definition FLAG_EXE : Z := 4.
Definition FLAG_PRELINKED : Z := 8.
Definition SOINFO_NAME_LEN : Z := 128.
Definition SO_MAX : Z := 256.
(** The architectures other than MIPS. *)
Definition LIBBASE : Z := 0x80000000.
Definition LIBLAST : Z := 0x90000000.

Definition DT_NEEDED : Z := 1.
Definition DT_PLTRELSZ : Z := 2.
Definition DT_PLTGOT : Z := 3.
Definition DT_HASH : Z := 4.
Definition DT_STRTAB : Z := 5.
Definition DT_SYMTAB : Z := 6.
Definition DT_RELA : Z := 7.
Definition DT_RELASZ : Z := 8.
Definition DT_RELAENT : Z := 9.
Definition DT_SYMENT : Z := 11.
Definition DT_INIT : Z := 12.
Definition DT_FINI : Z := 13.
Definition DT_REL : Z := 17.
Definition DT_RELSZ : Z := 18.
Definition DT_RELENT : Z := 19.
Definition DT_PLTREL : Z := 20.
Definition DT_JMPREL : Z := 23.
Definition DT_INIT_ARRAY : Z := 25.
Definition DT_FINI_ARRAY : Z := 26.
Definition DT_INIT_ARRAYSZ : Z := 27.
Definition DT_FINI_ARRAYSZ : Z := 28.
Definition DT_PREINIT_ARRAY : Z := 32.
Definition DT_PREINIT_ARRAYSZ : Z := 33.

(** si->dynamic: NULL, the -1 of load_library, or the section, as pairs of a tag and
    a value. *)
Inductive dynptr := DynNull | DynUnset | DynAt (d : list (Z * Z)).

(** A library in memory: its dynamic section, and the tables the section points to. *)
Record image := mkImage { im_dynamic : list (Z * Z); im_tables : tables }.

(** The fields of a soinfo that steer the linker.  What the dynamic section sets is
    [so_dt], by tag. *)
Record soinfo := mkSo {
  so_name : list Z; so_flags : Z; so_base : Z; so_size : Z; so_ba_index : Z; so_next : Z; so_refcount : Z;
  so_dynamic : dynptr; so_dt : gmap Z Z; so_tables : tables
}.

Definition no_tables : tables := mkTables 0 [] [] [] (fun _ => []).
Definition zero_so : soinfo := mkSo [] 0 0 0 0 NULL 0 DynNull ∅ no_tables.

Definition set_flags (e : soinfo) (v : Z) : soinfo :=
  mkSo (so_name e) v (so_base e) (so_size e) (so_ba_index e) (so_next e) (so_refcount e) (so_dynamic e) (so_dt e) (so_tables e).
Definition set_next (e : soinfo) (v : Z) : soinfo :=
  mkSo (so_name e) (so_flags e) (so_base e) (so_size e) (so_ba_index e) v (so_refcount e) (so_dynamic e) (so_dt e) (so_tables e).
Definition set_refcount (e : soinfo) (v : Z) : soinfo :=
  mkSo (so_name e) (so_flags e) (so_base e) (so_size e) (so_ba_index e) (so_next e) v (so_dynamic e) (so_dt e) (so_tables e).
Definition set_region (e : soinfo) (base size ba : Z) : soinfo :=
  mkSo (so_name e) (so_flags e) base size ba (so_next e) (so_refcount e) (so_dynamic e) (so_dt e) (so_tables e).
Definition set_dynamic (e : soinfo) (d : dynptr) : soinfo :=
  mkSo (so_name e) (so_flags e) (so_base e) (so_size e) (so_ba_index e) (so_next e) (so_refcount e) d (so_dt e) (so_tables e).
Definition set_dt (e : soinfo) (dt : gmap Z Z) (t : tables) : soinfo :=
  mkSo (so_name e) (so_flags e) (so_base e) (so_size e) (so_ba_index e) (so_next e) (so_refcount e) (so_dynamic e) dt t.

(** What the linker does to the process, in order. *)
Inductive event := ECtor (si : Z) | EDtor (si : Z) | EUnmap (base size : Z).

(** Addresses: 0 is NULL, 1 libdl_info and 2 + k is sopool + k. *)
Definition LIBDL : Z := 1.
Definition sopool (k : Z) : Z := 2 + k.

Record lstate := mkL {
  pool : gmap Z soinfo; socount : Z; freelist : Z; sonext : Z; ba_bitmap : list ba_bits; trace : list event
}.

Definition with_pool (s : lstate) (p : gmap Z soinfo) : lstate :=
  mkL p (socount s) (freelist s) (sonext s) (ba_bitmap s) (trace s).
Definition with_bitmap (s : lstate) (bm : list ba_bits) : lstate :=
  mkL (pool s) (socount s) (freelist s) (sonext s) bm (trace s).
Definition emit (s : lstate) (e : event) : lstate :=
  mkL (pool s) (socount s) (freelist s) (sonext s) (ba_bitmap s) (trace s ++ [e]).

Definition sget (s : lstate) (a : Z) : cres soinfo := match pool s !! a with Some e => CVal e | None => CUndef end.
Definition supd (s : lstate) (a : Z) (f : soinfo -> soinfo) : cres lstate :=
  e ← sget s a; CVal (with_pool s (<[a := f e]> (pool s))).

(** The list of libraries starts at libdl_info and has at most SO_MAX more. *)
Definition solist : Z := LIBDL.
Definition list_fuel : nat := Z.to_nat (SO_MAX + 2).

(** ** The pool *)

(** Take the first free structure, clear it and append it to the list. *)
Definition take_info (s : lstate) (name : list Z) : cres (Z * lstate) :=
  let si := freelist s in
  e ← sget s si;
  let s := mkL (<[si := mkSo name 0 0 0 0 NULL 0 DynNull ∅ no_tables]> (pool s)) (socount s) (so_next e) (sonext s)
             (ba_bitmap s) (trace s) in
  s ← supd s (sonext s) (fun e => set_next e si);
  s ← supd s si (fun e => set_refcount (set_next (set_region e (so_base e) (so_size e) (-1)) NULL) 0);
  CVal (si, mkL (pool s) (socount s) (freelist s) si (ba_bitmap s) (trace s)).

Definition alloc_info (s : lstate) (name : list Z) : cres (Z * lstate) :=
  if SOINFO_NAME_LEN <=? Z.of_nat (length name) then CVal (NULL, s)
  else if freelist s =? NULL then
    if socount s =? SO_MAX then CVal (NULL, s)
    else
      let f := sopool (socount s) in
      s ← supd (mkL (pool s) (socount s + 1) f (sonext s) (ba_bitmap s) (trace s)) f (fun e => set_next e NULL);
      take_info s name
  else take_info s name.

(** for (trav = solist; trav != NULL; trav = trav->next): prev and trav *)
Fixpoint find_prev (fuel : nat) (s : lstate) (si prev trav : Z) : cres (Z * Z) :=
  match fuel with
  | O => CFuel
  | S f =>
      if trav =? NULL then CVal (prev, trav)
      else if trav =? si then CVal (prev, trav)
      else e ← sget s trav; find_prev f s si trav (so_next e)
  end.

Definition free_info (s : lstate) (si : Z) : cres lstate :=
  '(prev, trav) ← find_prev list_fuel s si NULL solist;
  if trav =? NULL then CVal s
  else
    e ← sget s si;
    s ← supd s prev (fun p => set_next p (so_next e));
    let s := mkL (pool s) (socount s) (freelist s) (if si =? sonext s then prev else sonext s) (ba_bitmap s) (trace s) in
    s ← supd s si (fun e => set_next e (freelist s));
    CVal (mkL (pool s) (socount s) si (sonext s) (ba_bitmap s) (trace s)).

(** ** The outside world

    [w_open name]: what open_library finds of a file and what is read of its first
    page and trailer, and the memory it is mapped to; [w_reserve]: whether mmap gives
    the region asked for; [w_map]: whether the mappings of a segment succeed;
    [w_reloc]: whether the relocations of a library succeed.  Their answers may
    depend on the state. *)
Record world := mkWorld {
  w_open : list Z -> option (header * image);
  w_reserve : lstate -> Z -> Z -> bool;
  w_map : lstate -> Z -> Elf32_Phdr -> bool;
  w_reloc : lstate -> Z -> bool
}.

Section Load.
Context (w : world).

Definition reserve_mem_region (s : lstate) (base size : Z) : Z := if w_reserve w s base size then 0 else -1.

Definition alloc_mem_region (s : lstate) (si : Z) : cres (Z * lstate) :=
  e ← sget s si;
  if negb (so_base e =? 0) then
    s ← supd s si (fun e => set_region e (so_base e) (so_size e) (-1));
    CVal (reserve_mem_region s (so_base e) (so_size e), s)
  else
    '(index, bm) ← ba_allocate (so_size e) (ba_bitmap s);
    let s := with_bitmap s bm in
    if 0 <=? index then
      let base := ba_start_addr LIBBASE index in
      s ← supd s si (fun e => set_region e base (so_size e) index);
      if reserve_mem_region s base (so_size e) <? 0 then
        bm ← ba_free index (ba_bitmap s);
        s ← supd (with_bitmap s bm) si (fun e => set_region e 0 (so_size e) (-1));
        CVal (-1, s)
      else CVal (0, s)
    else
      s ← supd s si (fun e => set_region e (so_base e) (so_size e) index);
      CVal (-1, s).

(** strrchr(name, '/') + 1, or name *)
Fixpoint after_slash (name : list Z) : option (list Z) :=
  match name with
  | [] => None
  | c :: r => match after_slash r with Some b => Some b | None => if c =? 47 then Some r else None end
  end.
Definition bname (name : list Z) : list Z := default name (after_slash name).

(** The failure exit of load_library: free_info(si), return NULL. *)
Definition load_fail (s : lstate) (si : Z) : cres (Z * lstate) := s ← free_info s si; CVal (NULL, s).

Definition load_library (s : lstate) (name : list Z) : cres (Z * lstate) :=
  match w_open w name with
  | None => CVal (NULL, s)
  | Some (hdr, im) =>
      let '(req_base, ext_sz) := get_lib_extents hdr in
      if req_base =? UINT_MAX then CVal (NULL, s)
      else
        '(si, s) ← alloc_info s (bname name);
        if si =? NULL then CVal (NULL, s)
        else
          s ← supd s si (fun e => set_dynamic (set_flags (set_region e req_base ext_sz (so_ba_index e)) 0) DynUnset);
          '(r, s) ← alloc_mem_region s si;
          if r <? 0 then load_fail s si
          else
            e ← sget s si;
            match load_segments (w_map w s (so_base e)) (so_base e) (so_size e) hdr with
            | None =>
                let s := emit s (EUnmap (so_base e) (so_size e)) in
                s ← supd s si (fun e => set_flags e (Z.lor (so_flags e) FLAG_ERROR));
                if 0 <=? so_ba_index e then
                  bm ← ba_free (so_ba_index e) (ba_bitmap s);
                  s ← supd (with_bitmap s bm) si (fun e => set_region e (so_base e) (so_size e) (-1));
                  load_fail s si
                else load_fail s si
            | Some seg =>
                s ← supd s si (fun e => set_dt (set_dynamic e (if has_dynamic seg then DynAt (im_dynamic im) else DynUnset))
                                          (so_dt e) (im_tables im));
                CVal (si, s)
            end
  end.

(** The entries of a dynamic section before the terminating null tag. *)
Fixpoint until_null (d : list (Z * Z)) : list (Z * Z) :=
  match d with
  | [] => []
  | (tag, v) :: d' => if tag =? 0 then [] else (tag, v) :: until_null d'
  end.

(** What the switch of link_image stores for a tag: an address in the image, the
    value, or a number of array elements. *)
Definition dt_store (base tag v : Z) : option Z :=
  if bool_decide (tag ∈ [DT_HASH; DT_STRTAB; DT_SYMTAB; DT_JMPREL; DT_REL; DT_RELA; DT_PLTGOT; DT_INIT; DT_FINI;
                         DT_INIT_ARRAY; DT_FINI_ARRAY; DT_PREINIT_ARRAY]) then Some (u32 (base + v))
  else if bool_decide (tag ∈ [DT_SYMENT; DT_PLTREL; DT_PLTRELSZ; DT_RELSZ; DT_RELASZ; DT_RELENT; DT_RELAENT]) then Some v
  else if bool_decide (tag ∈ [DT_INIT_ARRAYSZ; DT_FINI_ARRAYSZ; DT_PREINIT_ARRAYSZ]) then Some (v / 4)
  else None.

(** The loop over the dynamic section; none for an unknown DT_PLTREL. *)
Fixpoint parse_dynamic (base : Z) (d : list (Z * Z)) (dt : gmap Z Z) : option (gmap Z Z) :=
  match d with
  | [] => Some dt
  | (tag, v) :: d' =>
      if (tag =? DT_PLTREL) && negb ((v =? DT_REL) || (v =? DT_RELA)) then None
      else parse_dynamic base d' (match dt_store base tag v with Some x => <[tag := x]> dt | None => dt end)
  end.

Definition dt_of (dt : gmap Z Z) (tag : Z) : Z := default 0 (dt !! tag).

(** The sizes of the entries of DT_REL and DT_RELA, from their defaults; the counts
    divide by them where the tables have a size. *)
Definition rel_ent (dt : gmap Z Z) : Z := default 8 (dt !! DT_RELENT).
Definition rela_ent (dt : gmap Z Z) : Z := default 12 (dt !! DT_RELAENT).
Definition rel_counts_ok (dt : gmap Z Z) : bool :=
  negb (truthy (dt_of dt DT_RELSZ) && (rel_ent dt =? 0)) && negb (truthy (dt_of dt DT_RELASZ) && (rela_ent dt =? 0)).

(** The names of the DT_NEEDED entries. *)
Definition needed (t : tables) (d : list (Z * Z)) : list (list Z) :=
  map (fun e => strtab t e.2) (List.filter (fun e => e.1 =? DT_NEEDED) (until_null d)).

(** fail: si->flags |= FLAG_ERROR *)
Definition link_fail (s : lstate) (si : Z) : cres (Z * lstate) :=
  s ← supd s si (fun e => set_flags e (Z.lor (so_flags e) FLAG_ERROR)); CVal (-1, s).

(** for each DT_NEEDED: find_library, lsi->refcount++; whether all were found. *)
Fixpoint link_needed (find : lstate -> list Z -> cres (Z * lstate)) (s : lstate) (names : list (list Z)) : cres (bool * lstate) :=
  match names with
  | [] => CVal (true, s)
  | n :: names' =>
      '(lsi, s) ← find s n;
      if lsi =? NULL then CVal (false, s)
      else s ← supd s lsi (fun e => set_refcount e (u32 (so_refcount e + 1))); link_needed find s names'
  end.

(** link_image of a library (FLAG_EXE is not set). *)
Definition link_image (find : lstate -> list Z -> cres (Z * lstate)) (s : lstate) (si : Z) : cres (Z * lstate) :=
  e ← sget s si;
  match so_dynamic e with
  | DynUnset => link_fail s si
  | DynNull => CUndef
  | DynAt d =>
      match parse_dynamic (so_base e) (until_null d) (so_dt e) with
      | None => link_fail s si
      | Some dt =>
          s ← supd s si (fun e => set_dt e dt (so_tables e));
          if negb (rel_counts_ok dt) then CUndef
          else if (dt_of dt DT_STRTAB =? 0) || (dt_of dt DT_SYMTAB =? 0) then link_fail s si
          else
            '(ok, s) ← link_needed find s (needed (so_tables e) d);
            if negb ok then link_fail s si
            else if negb (w_reloc w s si) then link_fail s si
            else
              s ← supd s si (fun e => set_flags e (Z.lor (so_flags e) FLAG_LINKED));
              CVal (0, emit s (ECtor si))
      end
  end.

Definition init_library (find : lstate -> list Z -> cres (Z * lstate)) (s : lstate) (si : Z) : cres (Z * lstate) :=
  e ← sget s si;
  s ← (if (so_base e <? LIBBASE) || (LIBLAST <=? so_base e)
       then supd s si (fun e => set_flags e (Z.lor (so_flags e) FLAG_PRELINKED)) else CVal s);
  '(r, s) ← link_image find s si;
  if negb (r =? 0) then
    e ← sget s si; CVal (NULL, emit s (EUnmap (so_base e) (so_size e)))
  else CVal (si, s).

(** for (si = solist; si != 0; si = si->next) if (!strcmp(bname, si->name)) *)
Fixpoint by_name (fuel : nat) (s : lstate) (b : list Z) (si : Z) : cres Z :=
  match fuel with
  | O => CFuel
  | S f =>
      if si =? NULL then CVal NULL
      else e ← sget s si; if bool_decide (b = so_name e) then CVal si else by_name f s b (so_next e)
  end.

(** The recursion goes through link_image: each level has a library of its own in
    the pool. *)
Fixpoint find_library (fuel : nat) (s : lstate) (name : list Z) : cres (Z * lstate) :=
  match fuel with
  | O => CFuel
  | S f =>
      si ← by_name list_fuel s (bname name) solist;
      if negb (si =? NULL) then
        e ← sget s si;
        if truthy (Z.land (so_flags e) FLAG_ERROR) then CVal (NULL, s)
        else if truthy (Z.land (so_flags e) FLAG_LINKED) then CVal (si, s)
        else CVal (NULL, s)
      else
        '(si, s) ← load_library s name;
        if si =? NULL then CVal (NULL, s) else init_library (find_library f) s si
  end.

Definition find_fuel : nat := Z.to_nat (SO_MAX + 2).

(** for each DT_NEEDED of the library that goes: find_library, unload_library *)
Fixpoint unload_needed (unload : lstate -> Z -> cres lstate) (s : lstate) (names : list (list Z)) : cres lstate :=
  match names with
  | [] => CVal s
  | n :: names' =>
      '(lsi, s) ← find_library find_fuel s n;
      s ← (if negb (lsi =? NULL) then unload s lsi else CVal s);
      unload_needed unload s names'
  end.

(** The state after unload_library; the loop over a NULL or unset dynamic section
    is undefined. *)
Fixpoint unload_library (fuel : nat) (s : lstate) (si : Z) : cres lstate :=
  match fuel with
  | O => CFuel
  | S f =>
      e ← sget s si;
      if so_refcount e =? 1 then
        let s := emit s (EDtor si) in
        match so_dynamic e with
        | DynAt d =>
            s ← unload_needed (unload_library f) s (needed (so_tables e) d);
            e ← sget s si;
            let s := emit s (EUnmap (so_base e) (so_size e)) in
            s ← (if 0 <=? so_ba_index e then bm ← ba_free (so_ba_index e) (ba_bitmap s); CVal (with_bitmap s bm) else CVal s);
            s ← free_info s si;
            supd s si (fun e => set_refcount e 0)
        | _ => CUndef
        end
      else supd s si (fun e => set_refcount e (u32 (so_refcount e - 1)))
  end.

(** ** dlfcn.c *)

Definition dlopen (s : lstate) (filename : list Z) : cres (Z * lstate) :=
  '(ret, s) ← find_library find_fuel s filename;
  if ret =? NULL then CVal (NULL, s)
  else s ← supd s ret (fun e => set_refcount e (u32 (so_refcount e + 1))); CVal (ret, s).

Definition dlclose (s : lstate) (handle : Z) : cres lstate := unload_library find_fuel s handle.
End Load.
