(* ===== verification/LinkerPool.v ===== *)
(** * The pool of soinfo structures

    alloc_info and free_info of linker/linker.c keep every structure that was ever
    used either in the list of libraries, which starts with libdl_info and ends at
    sonext, or in the list of free structures. *)

From Stdlib Require Import ZArith Lia.
From stdpp Require Import base gmap list numbers sets.
From S2P Require Import Prelude Links Buddy Elf Linker.

Open Scope Z_scope.

Definition nx (s : lstate) (a : Z) : option Z := so_next <$> pool s !! a.
(** A structure without its place in the lists. *)
Definition lib (s : lstate) (a : Z) : option soinfo := (fun e => set_next e NULL) <$> pool s !! a.

(** [L] are the libraries in order, [F] the free structures. *)
Record pool_ok (s : lstate) (L F : list Z) : Prop := {
  po_list : lchain (nx s) solist L;
  po_last : last L = Some (sonext s);
  po_free : lchain (nx s) (freelist s) F;
  po_nodup : NoDup (L ++ F);
  po_part : forall a, a ∈ L ++ F <-> a = LIBDL \/ 2 <= a < 2 + socount s;
  po_cnt : 0 <= socount s <= SO_MAX;
  po_dom : forall a, is_Some (pool s !! a) <-> 1 <= a < 2 + SO_MAX;
  po_libdl : LIBDL ∈ L
}.

(** ** One step of the state *)

Lemma supd_spec s a f :
  is_Some (pool s !! a) -> exists e, pool s !! a = Some e /\ supd s a f = CVal (with_pool s (<[a := f e]> (pool s))).
Proof. intros [e He]. exists e. unfold supd, sget. by rewrite He. Qed.

Lemma lib_get s a e : lib s a = Some e -> exists x, pool s !! a = Some x /\ sget s a = CVal x /\ set_next x NULL = e.
Proof. unfold lib, sget. destruct (pool s !! a) as [x|]; [|done]. intros [= <-]. by exists x. Qed.

Lemma lib_some s a : is_Some (lib s a) <-> is_Some (pool s !! a).
Proof. unfold lib. by rewrite fmap_is_Some. Qed.

(** Two states with the same structures up to the links of [a]. *)
Lemma lib_insert_next s a e v b :
  pool s !! a = Some e -> lib (with_pool s (<[a := set_next e v]> (pool s))) b = lib s b.
Proof.
  intros He. unfold lib. cbn [with_pool pool]. destruct (decide (b = a)) as [->|Hb].
  - rewrite lookup_insert_eq, He. done.
  - by rewrite lookup_insert_ne by done.
Qed.

Lemma nx_insert p a e b s :
  pool s = p -> nx (with_pool s (<[a := e]> p)) b = if b =? a then Some (so_next e) else nx s b.
Proof.
  intros <-. unfold nx. cbn [with_pool pool]. destruct (Z.eqb_spec b a) as [->|Hb].
  - by rewrite lookup_insert_eq.
  - by rewrite lookup_insert_ne by done.
Qed.

(** An update that keeps the links. *)
Lemma supd_lib s a f :
  is_Some (pool s !! a) -> (forall e, so_next (f e) = so_next e) -> (forall e v, set_next (f e) v = f (set_next e v)) ->
  exists s', supd s a f = CVal s' /\ (forall b, nx s' b = nx s b) /\
    (forall b, lib s' b = if b =? a then f <$> lib s a else lib s b) /\
    socount s' = socount s /\ freelist s' = freelist s /\ sonext s' = sonext s /\ ba_bitmap s' = ba_bitmap s /\ trace s' = trace s.
Proof.
  intros Ha Hn Hs. destruct (supd_spec s a f Ha) as (e & He & ->). eexists. split; [done|]. split_and!; try done.
  - intros b. rewrite (nx_insert (pool s)) by done. destruct (Z.eqb_spec b a) as [->|]; [|done].
    rewrite Hn. unfold nx. by rewrite He.
  - intros b. unfold lib. cbn [with_pool pool]. destruct (Z.eqb_spec b a) as [->|].
    + rewrite lookup_insert_eq, He. cbn. by rewrite Hs.
    + by rewrite lookup_insert_ne by done.
Qed.

(** The pool does not depend on what is no link. *)
Lemma pool_frame s s' L F :
  (forall b, nx s' b = nx s b) -> socount s' = socount s -> freelist s' = freelist s -> sonext s' = sonext s ->
  (forall b, lib s' b = None <-> lib s b = None) -> pool_ok s L F -> pool_ok s' L F.
Proof.
  intros Hn Hc Hf Hs Hl []. split; rewrite ?Hc, ?Hf, ?Hs; try done.
  - apply (lchain_frame (nx s)); [|done]. intros; apply Hn.
  - apply (lchain_frame (nx s)); [|done]. intros; apply Hn.
  - intros a. rewrite <- po_dom0, <- !lib_some, !(is_Some_alt (lib _ _)). specialize (Hl a).
    destruct (lib s' a), (lib s a); naive_solver.
Qed.

Lemma pool_in s L F a : pool_ok s L F -> a ∈ L ++ F -> is_Some (pool s !! a).
Proof. intros [] Ha%po_part0. apply po_dom0. unfold LIBDL, SO_MAX in *. lia. Qed.

Lemma pool_nonnull s L F a : pool_ok s L F -> a ∈ L ++ F -> a <> NULL.
Proof. intros [] Ha%po_part0. unfold NULL, LIBDL in *. lia. Qed.

Lemma pool_length s L F : pool_ok s L F -> Z.of_nat (length L + length F) = 1 + socount s.
Proof.
  intros []. rewrite <- length_app.
  assert (L ++ F ≡ₚ LIBDL :: seqZ 2 (socount s)) as ->.
  { apply NoDup_Permutation; [done| |].
    - apply list.NoDup_cons. split; [|apply NoDup_seqZ]. rewrite elem_of_seqZ. unfold LIBDL. lia.
    - intros a. rewrite po_part0, elem_of_cons, elem_of_seqZ. lia. }
  cbn [length]. rewrite length_seqZ. lia.
Qed.

Lemma pool_head s L F : pool_ok s L F -> exists L', L = LIBDL :: L'.
Proof.
  intros []. destruct L as [|x L']; [by apply not_elem_of_nil in po_libdl0|]. destruct po_list0 as (E & _). exists L'. by rewrite <- E.
Qed.

(** ** Allocation *)

Definition new_so (name : list Z) : soinfo := mkSo name 0 0 0 (-1) NULL 0 DynNull ∅ no_tables.

Lemma take_spec s L si F name :
  pool_ok s L (si :: F) ->
  exists s', take_info s name = CVal (si, s') /\ pool_ok s' (L ++ [si]) F /\ lib s' si = Some (new_so name) /\
    (forall b, b <> si -> lib s' b = lib s b) /\ ba_bitmap s' = ba_bitmap s /\ trace s' = trace s /\ si ∉ L.
Proof.
  intros P. pose proof P as [Pl Pla (Hf & Hn & v & Hv & Pf) Nd Pp Pc Pd Plib].
  apply list.NoDup_app in Nd as (N1 & N2 & N3). apply list.NoDup_cons in N3 as [N3 N4].
  assert (si ∉ L) as Hsi by (intros Hs; apply (N2 si Hs); left).
  destruct (exists_last (l := L)) as (L0 & t & EL); [intros ->; by apply not_elem_of_nil in Plib|].
  assert (t = sonext s) as -> by (rewrite EL, last_snoc in Pla; congruence).
  assert (sonext s <> si) as Hne by (intros E; apply Hsi; rewrite EL; set_solver).
  destruct (pool_in s L (si :: F) si P) as [e He]; [set_solver|].
  destruct (pool_in s L (si :: F) (sonext s) P) as [et Het]; [rewrite EL; set_solver|].
  unfold nx in Hv. rewrite He in Hv. injection Hv as Hv.
  unfold take_info. rewrite Hf. unfold sget. rewrite He. cbn [mbind cres_bind].
  set (z := mkSo name 0 0 0 0 NULL 0 DynNull ∅ no_tables).
  unfold supd, sget. cbn [pool sonext with_pool]. rewrite lookup_insert_ne, Het by done. cbn [mbind cres_bind].
  cbn [with_pool pool socount freelist sonext ba_bitmap trace]. rewrite lookup_insert_ne, lookup_insert_eq by done. cbn [mbind cres_bind]. eexists. split; [done|].
  cbn [with_pool pool socount freelist sonext ba_bitmap trace].
  match goal with |- pool_ok (mkL ?q _ _ _ _ _) _ _ /\ _ => set (p' := q) end.
  assert (p' !! si = Some (new_so name)) as Lsi by (unfold p'; by rewrite lookup_insert_eq).
  assert (p' !! sonext s = Some (set_next et si)) as Lt.
  { unfold p'. by rewrite lookup_insert_ne, lookup_insert_eq by done. }
  assert (forall b, b <> si -> b <> sonext s -> p' !! b = pool s !! b) as Lb.
  { intros b H1 H2. unfold p'. by rewrite !lookup_insert_ne by done. }
  split_and!; try done.
  - split; cbn [pool socount freelist sonext].
    + rewrite EL in Pl |- *. rewrite <- app_assoc. cbn [app].
      apply (lchain_tail (nx s) _ _ L0 (sonext s) [] [si] si); [done|by rewrite <- EL| | |].
      * unfold nx. cbn [pool]. by rewrite Lt.
      * cbn [lchain]. split_and!; [done..|]. exists NULL. unfold nx. cbn [pool]. by rewrite Lsi.
      * intros x Hx. unfold nx. cbn [pool]. rewrite Lb; [done| |].
        -- intros ->. apply Hsi. rewrite EL. set_solver.
        -- intros ->. rewrite EL in N1. apply list.NoDup_app in N1 as (_ & N1 & _). apply (N1 _ Hx). left.
    + by rewrite last_snoc.
    + rewrite Hv. apply (lchain_frame (nx s)); [|done]. intros x Hx. unfold nx. cbn [pool]. rewrite Lb; [done| |].
      * by intros ->.
      * intros ->. apply (N2 (sonext s)); [rewrite EL; set_solver|by right].
    + rewrite <- app_assoc. apply list.NoDup_app. split_and!; [done|done|]. by apply list.NoDup_cons.
    + intros a. rewrite <- app_assoc. apply Pp.
    + done.
    + intros a. rewrite <- Pd. destruct (decide (a = si)) as [->|H1]; [by rewrite Lsi, He|].
      destruct (decide (a = sonext s)) as [->|H2]; [by rewrite Lt, Het|]. by rewrite Lb.
    + set_solver.
  - unfold lib. cbn [pool]. by rewrite Lsi.
  - intros b Hb. unfold lib. cbn [pool]. destruct (decide (b = sonext s)) as [->|H2]; [by rewrite Lt, Het|]. by rewrite Lb.
Qed.

Lemma alloc_info_spec s L F name :
  pool_ok s L F ->
  (exists si s' F', alloc_info s name = CVal (si, s') /\ pool_ok s' (L ++ [si]) F' /\ lib s' si = Some (new_so name) /\
     (forall b, b <> si -> lib s' b = lib s b) /\ ba_bitmap s' = ba_bitmap s /\ trace s' = trace s /\ si ∉ L /\ si <> NULL) \/
  (alloc_info s name = CVal (NULL, s) /\
   (SOINFO_NAME_LEN <= Z.of_nat (length name) \/ Z.of_nat (length L) = 1 + SO_MAX)).
Proof.
  intros P. unfold alloc_info. destruct (Z.leb_spec SOINFO_NAME_LEN (Z.of_nat (length name))); [by right; split; [|left]|].
  destruct F as [|si F].
  - pose proof (po_free _ _ _ P) as Hf. cbn in Hf. rewrite Hf, Z.eqb_refl. pose proof (pool_length _ _ _ P) as Hlen.
    cbn [length] in Hlen. destruct (Z.eqb_spec (socount s) SO_MAX) as [E|E]; [right; split; [done|right; lia]|].
    left. pose proof P as [Pl Pla Pf Nd Pp Pc Pd Plib]. rewrite app_nil_r in Nd, Pp.
    set (f := sopool (socount s)). assert (f ∉ L) as Hfl.
    { intros Hin%Pp. unfold f, sopool, LIBDL in Hin. lia. }
    set (s0 := mkL (pool s) (socount s + 1) f (sonext s) (ba_bitmap s) (trace s)).
    destruct (supd_spec s0 f (fun e => set_next e NULL)) as (e & He & ->).
    { apply Pd. unfold f, sopool. lia. }
    cbn [mbind cres_bind]. set (s1 := with_pool s0 _).
    assert (pool_ok s1 L [f]) as P1.
    { assert (forall b, nx s1 b = if b =? f then Some NULL else nx s b) as Hnx.
      { intros b. unfold s1. by rewrite (nx_insert (pool s0)). }
      split; unfold s1, s0; cbn [with_pool pool socount freelist sonext].
      - apply (lchain_frame (nx s)); [|done]. intros x Hx. fold s0 s1. rewrite Hnx.
        destruct (Z.eqb_spec x f) as [->|]; done.
      - done.
      - cbn [lchain]. split_and!; [done|unfold f, sopool, NULL; lia|]. exists NULL. fold s0 s1.
        by rewrite Hnx, Z.eqb_refl.
      - apply list.NoDup_app. split_and!; [done| |apply NoDup_singleton]. by intros a Ha ->%list_elem_of_singleton.
      - intros a. rewrite elem_of_app, list_elem_of_singleton, Pp. unfold f, sopool. lia.
      - lia.
      - intros a. destruct (decide (a = f)) as [->|Ha].
        + rewrite lookup_insert_eq. split; [|done]. intros _. unfold f, sopool. lia.
        + rewrite lookup_insert_ne by done. apply Pd.
      - done. }
    destruct (take_spec s1 L f [] name P1) as (s' & -> & P' & Hl & Hb & Hbm & Ht & Hni).
    exists f, s', []. split_and!; try done; [|unfold f, sopool, NULL; lia].
    intros b Hbf. rewrite Hb by done. unfold s1. by apply (lib_insert_next s0).
  - left. destruct (take_spec s L si F name P) as (s' & E & Hrest).
    assert (si <> NULL) by (apply (pool_nonnull s L (si :: F)); [done|set_solver]).
    pose proof (po_free _ _ _ P) as (Hf & _). rewrite Hf. zif. exists si, s', F. rewrite E. naive_solver.
Qed.

(** ** Release *)

Lemma find_prev_spec s si fuel : forall prev p xs ys,
  lchain (nx s) p (xs ++ si :: ys) -> si ∉ xs -> (length xs < fuel)%nat ->
  find_prev fuel s si prev p = CVal (default prev (last xs), si).
Proof.
  induction fuel as [|f IH]; intros prev p xs ys C Hni Hf; [lia|]. cbn [find_prev].
  destruct xs as [|x xs]; cbn [app] in C; destruct C as (-> & Hx & v & Hv & C).
  - zif. by rewrite Z.eqb_refl.
  - zif. destruct (Z.eqb_spec x si) as [->|Hne]; [exfalso; apply Hni; left|].
    unfold nx in Hv. unfold sget. destruct (pool s !! x) as [e|]; [|done]. injection Hv as Hv. cbn [mbind cres_bind].
    rewrite Hv, (IH x v xs ys); [|done|set_solver|cbn [length] in Hf; lia].
    destruct xs as [|y xs]; [done|]. rewrite !last_cons. by destruct (last xs).
Qed.

Lemma free_info_spec s L1 si L2 F :
  pool_ok s (L1 ++ si :: L2) F -> si <> LIBDL ->
  exists s', free_info s si = CVal s' /\ pool_ok s' (L1 ++ L2) (si :: F) /\ (forall b, lib s' b = lib s b) /\
    ba_bitmap s' = ba_bitmap s /\ trace s' = trace s.
Proof.
  intros P Hsl. pose proof P as [Pl Pla Pf Nd Pp Pc Pd Plib]. pose proof (pool_length _ _ _ P) as Hlen.
  assert (si <> NULL) as Hn by (apply (pool_nonnull _ _ _ si P); set_solver).
  assert (NoDup (L1 ++ si :: L2)) as NL by (by apply list.NoDup_app in Nd as [NL _]).
  assert (si ∉ L1 /\ si ∉ L2) as [Hn1 Hn2].
  { rewrite <- Permutation_middle in NL. apply list.NoDup_cons in NL as [NL _]. set_solver. }
  assert (L1 <> []) as HL1 by (intros ->; destruct Pl as (E & _); by apply Hsl).
  destruct (exists_last HL1) as (L0 & pr & ->). rewrite <- app_assoc in *. cbn [app] in *.
  assert (pr <> si) as Hps by (intros ->; apply Hn1; set_solver).
  unfold free_info. rewrite (find_prev_spec s si list_fuel NULL solist (L0 ++ [pr]) L2); [|by rewrite <- app_assoc|done|].
  2: { rewrite length_app in *. cbn [length] in *. unfold list_fuel. lia. }
  rewrite last_snoc. cbn [default from_option mbind cres_bind]. zif. unfold id.
  destruct (pool_in s _ _ si P) as [e He]; [set_solver|]. destruct (pool_in s _ _ pr P) as [ep Hep]; [set_solver|].
  unfold sget at 1. rewrite He. cbn [mbind cres_bind]. unfold supd, sget. rewrite Hep. cbn [mbind cres_bind].
  cbn [with_pool pool socount freelist sonext]. rewrite lookup_insert_ne, He by done. cbn [mbind cres_bind].
  cbn [with_pool pool socount freelist sonext ba_bitmap trace].
  eexists. split; [done|]. cbn [with_pool pool socount freelist sonext ba_bitmap trace].
  match goal with |- pool_ok (mkL ?q _ _ _ _ _) _ _ /\ _ => set (p' := q) end.
  assert (p' !! si = Some (set_next e (freelist s))) as Lsi by (unfold p'; by rewrite lookup_insert_eq).
  assert (p' !! pr = Some (set_next ep (so_next e))) as Lp.
  { unfold p'. cbn [with_pool pool]. by rewrite lookup_insert_ne, lookup_insert_eq by done. }
  assert (forall b, b <> si -> b <> pr -> p' !! b = pool s !! b) as Lb.
  { intros b H1 H2. unfold p'. cbn [with_pool pool]. by rewrite !lookup_insert_ne by done. }
  rewrite (list.NoDup_app L0 (pr :: si :: L2)) in NL. destruct NL as (NL0 & ND & NL2).
  apply list.NoDup_cons in NL2 as [Npr NL2]. apply list.NoDup_cons in NL2 as [_ NL2].
  split_and!; try done.
  - split; cbn [pool socount freelist sonext].
    + assert (lchain (nx s) (so_next e) L2) as C2.
      { change (L0 ++ pr :: si :: L2) with (L0 ++ [pr] ++ si :: L2) in Pl. rewrite app_assoc in Pl.
        apply lchain_at in Pl as (_ & v & Hv & C2). unfold nx in Hv. rewrite He in Hv. by injection Hv as ->. }
      apply (lchain_tail (nx s) _ _ L0 pr (si :: L2) L2 (so_next e)); [done| | | |].
      * apply list.NoDup_app. split_and!; [done| |apply NoDup_singleton].
        intros a Ha ->%list_elem_of_singleton. apply (ND pr Ha). left.
      * unfold nx. cbn [pool]. by rewrite Lp.
      * apply (lchain_frame (nx s)); [|done]. intros x Hx. unfold nx. cbn [pool]. rewrite Lb; [done|by intros ->|].
        intros ->. apply Npr. by right.
      * intros x Hx. unfold nx. cbn [pool]. rewrite Lb; [done| |].
        -- intros ->. apply Hn1. set_solver.
        -- intros ->. apply (ND pr Hx). left.
    + change (L0 ++ pr :: si :: L2) with (L0 ++ [pr] ++ si :: L2) in Pla. destruct L2 as [|y L2 _] using rev_ind.
      * rewrite app_assoc, last_snoc in Pla. injection Pla as ->. rewrite Z.eqb_refl. by rewrite last_snoc.
      * change (si :: L2 ++ [y]) with ((si :: L2) ++ [y]) in Pla. rewrite !app_assoc, last_snoc in Pla. injection Pla as <-.
        destruct (Z.eqb_spec si y) as [->|]; [exfalso; apply Hn2; set_solver|].
        change (L0 ++ pr :: L2 ++ [y]) with (L0 ++ (pr :: L2) ++ [y]). by rewrite app_assoc, last_snoc.
    + cbn [lchain]. split_and!; [done..|]. exists (freelist s). unfold nx at 1. cbn [pool]. rewrite Lsi. split; [done|].
      apply (lchain_frame (nx s)); [|done]. intros x Hx. unfold nx. cbn [pool].
      assert (x <> si /\ x <> pr) as [H1 H2]; [|by rewrite Lb].
      pose proof (po_nodup _ _ _ P) as ND'. apply list.NoDup_app in ND' as (_ & ND' & _).
      split; intros ->; eapply ND'; [|done| |done]; set_solver.
    + pose proof (po_nodup _ _ _ P) as ND'. rewrite <- Permutation_middle.
      assert ((si :: (L0 ++ pr :: L2) ++ F) ≡ₚ (L0 ++ pr :: si :: L2) ++ F) as E; [|by rewrite E].
      rewrite (Permutation_swap si pr L2). by rewrite <- (Permutation_middle L0 (pr :: L2)).
    + intros a. rewrite <- (po_part _ _ _ P). set_solver.
    + done.
    + intros a. rewrite <- Pd. destruct (decide (a = si)) as [->|H1]; [by rewrite Lsi, He|].
      destruct (decide (a = pr)) as [->|H2]; [by rewrite Lp, Hep|]. by rewrite Lb.
    + set_solver.
  - intros b. unfold lib. cbn [pool]. destruct (decide (b = si)) as [->|H1]; [by rewrite Lsi, He|].
    destruct (decide (b = pr)) as [->|H2]; [by rewrite Lp, Hep|]. by rewrite Lb.
Qed.
