(* ===== verification/LinkerInv.v ===== *)
(** * The invariant of the dynamic linker

    Beside the pool of LinkerPool.v: the libraries that can be found are linked, each
    holds a reference to every library it needs, which was linked before it, the
    reference counts count these references and those of dlopen, and the blocks of
    the buddy allocator are those of the libraries it placed. *)

From Stdlib Require Import ZArith Lia.
From stdpp Require Import base gmap list numbers sets.
From S2P Require Import Prelude Links Buddy Elf Linker LinkerPool.

Open Scope Z_scope.

(** ** Counting references *)

Definition cnt (y : Z) (l : list Z) : Z := Z.of_nat (count_occ Z.eq_dec l y).

Lemma cnt_nil y : cnt y [] = 0.
Proof. done. Qed.

Lemma cnt_cons y x l : cnt y (x :: l) = (if x =? y then 1 else 0) + cnt y l.
Proof. unfold cnt. cbn [count_occ]. destruct (Z.eq_dec x y), (Z.eqb_spec x y); lia. Qed.

Lemma cnt_app y l1 l2 : cnt y (l1 ++ l2) = cnt y l1 + cnt y l2.
Proof. unfold cnt. rewrite count_occ_app. lia. Qed.

Lemma cnt_bound y l : 0 <= cnt y l <= Z.of_nat (length l).
Proof. unfold cnt. pose proof (count_occ_bound Z.eq_dec y l). lia. Qed.

Lemma cnt_in y l : y ∈ l <-> 0 < cnt y l.
Proof. unfold cnt. rewrite list_elem_of_In, (count_occ_In Z.eq_dec). lia. Qed.

Lemma cnt_out y l : y ∉ l -> cnt y l = 0.
Proof. rewrite cnt_in. pose proof (cnt_bound y l). lia. Qed.

#[export] Hint Rewrite cnt_nil cnt_cons cnt_app : cnt.

(** The references that the libraries hold to each other. *)
Definition all_held (L : list Z) (held : Z -> list Z) : list Z := concat (held <$> L).
Definition upd {A} (f : Z -> A) (x : Z) (v : A) : Z -> A := fun y => if y =? x then v else f y.

Lemma upd_eq {A} (f : Z -> A) x v : upd f x v x = v.
Proof. unfold upd. by rewrite Z.eqb_refl. Qed.

Lemma upd_ne {A} (f : Z -> A) x v y : y <> x -> upd f x v y = f y.
Proof. intros H. unfold upd. by zif. Qed.

Lemma all_held_ext L h h' : (forall x, x ∈ L -> h' x = h x) -> all_held L h' = all_held L h.
Proof.
  intros H. unfold all_held. f_equal. induction L as [|x L IH]; [done|]. cbn. rewrite H by left. f_equal.
  apply IH. intros y Hy. apply H. by right.
Qed.

Lemma all_held_app L1 L2 h : all_held (L1 ++ L2) h = all_held L1 h ++ all_held L2 h.
Proof. unfold all_held. by rewrite fmap_app, concat_app. Qed.

Lemma all_held_in L h y : y ∈ all_held L h <-> exists x, x ∈ L /\ y ∈ h x.
Proof. unfold all_held. rewrite list_elem_of_In, in_concat. setoid_rewrite <- list_elem_of_In. set_solver. Qed.

(** Library [z] holds other references. *)
Lemma all_held_upd L h z v :
  NoDup L -> z ∈ L ->
  (forall y, cnt y (all_held L (upd h z v)) = cnt y (all_held L h) - cnt y (h z) + cnt y v) /\
  (length (all_held L (upd h z v)) + length (h z) = length (all_held L h) + length v)%nat.
Proof.
  intros N (L1 & L2 & ->)%list_elem_of_split. apply list.NoDup_app in N as (_ & N1 & N2).
  apply list.NoDup_cons in N2 as [N2 _].
  change (z :: L2) with ([z] ++ L2). rewrite !all_held_app, (all_held_ext L1 h), (all_held_ext L2 h).
  2: { intros x Hx. apply upd_ne. by intros ->. }
  2: { intros x Hx. apply upd_ne. intros ->. apply (N1 z Hx). left. }
  unfold all_held. cbn. rewrite upd_eq, !app_nil_r. split.
  - intros y. autorewrite with cnt. lia.
  - rewrite !length_app. lia.
Qed.

Lemma all_held_length L h k : (forall x, x ∈ L -> Z.of_nat (length (h x)) <= k) ->
  Z.of_nat (length (all_held L h)) <= Z.of_nat (length L) * k.
Proof.
  induction L as [|x L IH]; intros H; [done|]. change (x :: L) with ([x] ++ L). rewrite all_held_app, !length_app.
  assert (Z.of_nat (length (all_held L h)) <= Z.of_nat (length L) * k) by (apply IH; intros; apply H; by right).
  specialize (H x ltac:(left)). unfold all_held at 1. cbn. rewrite app_nil_r. cbn [length]. lia.
Qed.

(** ** The invariant *)

(** A library that find_library returns. *)
Definition ready (e : soinfo) : Prop :=
  truthy (Z.land (so_flags e) FLAG_ERROR) = false /\ truthy (Z.land (so_flags e) FLAG_LINKED) = true /\ 47 ∉ so_name e.

(** The block of the buddy allocator that a library occupies. *)
Definition blk_of (e : soinfo) : option block :=
  if 0 <=? so_ba_index e then Some (mkBlock (so_ba_index e) (ba_order (so_size e)) true) else None.
Definition blk (g : Z -> option soinfo) (x : Z) : option block :=
  if x =? LIBDL then None else e ← g x; blk_of e.
Definition placed (e : soinfo) : Prop :=
  0 <= so_ba_index e ->
  so_base e = ba_start_addr LIBBASE (so_ba_index e) /\ so_ba_index e + 2 ^ ba_order (so_size e) <= num_entries /\
  so_size e <= 2 ^ ba_order (so_size e) * BA_MIN_ALLOC.

(** The library [y] is the one that find_library looks for. *)
Definition named (g : Z -> option soinfo) (n : list Z) (y : Z) : Prop :=
  exists e, g y = Some e /\ so_name e = bname n.

(** A bound on the DT_NEEDED entries of one library. *)
Definition MAX_NEEDED : Z := 2 ^ 16.

(** [L] all libraries; [O] those that can be found, in the order in which they were
    linked; [U] those being unloaded; [held x] the references that [x] holds; [hd]
    the references from outside: the handles of dlopen, and one for each of [perm], the
    libraries of the executable; [ex] references whose release is under way. *)
Record lib_ok (perm : list Z) (g : Z -> option soinfo) (bm : bitmap) (L O U : list Z) (held : Z -> list Z) (hd : Z -> Z)
    (ex : list Z) : Prop := {
  lo_get : forall x, x ∈ L -> is_Some (g x);
  lo_nodup : NoDup L;
  lo_len : Z.of_nat (length L) <= SO_MAX + 1;
  lo_names : forall x y e e', x ∈ L -> y ∈ L -> g x = Some e -> g y = Some e' -> so_name e = so_name e' -> x = y;
  lo_ready : forall x, x ∈ O <-> x ∈ L /\ x ∉ U /\ exists e, g x = Some e /\ ready e;
  lo_order : NoDup O;
  lo_topo : forall pre x post, O = pre ++ x :: post -> held x ⊆ pre;
  lo_held : forall x, x ∈ L -> held x ⊆ O /\ Z.of_nat (length (held x)) <= MAX_NEEDED;
  lo_ex : ex ⊆ O;
  lo_deps : forall x e, x ∈ O -> x ∉ perm -> g x = Some e ->
    exists d, so_dynamic e = DynAt d /\ Forall2 (named g) (needed (so_tables e) d) (held x);
  lo_ref : forall y e, y ∈ O -> g y = Some e -> so_refcount e = hd y + cnt y (all_held L held) + cnt y ex;
  lo_cnt : Z.of_nat (length (all_held L held) + length ex) <= (SO_MAX + 1) * MAX_NEEDED + 1;
  lo_hd : forall y, 0 <= hd y < 2 ^ 31 /\ (y ∉ O -> hd y = 0);
  lo_perm : perm ⊆ O /\ LIBDL ∈ perm /\ forall y, y ∈ perm -> 1 <= hd y;
  lo_ba : ba_ok bm (omap (blk g) L);
  lo_placed : forall x e, x ∈ L -> x <> LIBDL -> g x = Some e -> placed e;
  lo_anchor : exists a, a ∈ perm /\ is_Some (blk g a)
}.

#[global] Arguments lo_get {_ _ _ _ _ _ _ _ _} _.
#[global] Arguments lo_nodup {_ _ _ _ _ _ _ _ _} _.
#[global] Arguments lo_len {_ _ _ _ _ _ _ _ _} _.
#[global] Arguments lo_names {_ _ _ _ _ _ _ _ _} _.
#[global] Arguments lo_ready {_ _ _ _ _ _ _ _ _} _.
#[global] Arguments lo_order {_ _ _ _ _ _ _ _ _} _.
#[global] Arguments lo_topo {_ _ _ _ _ _ _ _ _} _.
#[global] Arguments lo_held {_ _ _ _ _ _ _ _ _} _.
#[global] Arguments lo_ex {_ _ _ _ _ _ _ _ _} _.
#[global] Arguments lo_deps {_ _ _ _ _ _ _ _ _} _.
#[global] Arguments lo_ref {_ _ _ _ _ _ _ _ _} _.
#[global] Arguments lo_cnt {_ _ _ _ _ _ _ _ _} _.
#[global] Arguments lo_hd {_ _ _ _ _ _ _ _ _} _.
#[global] Arguments lo_perm {_ _ _ _ _ _ _ _ _} _.
#[global] Arguments lo_ba {_ _ _ _ _ _ _ _ _} _.
#[global] Arguments lo_placed {_ _ _ _ _ _ _ _ _} _.
#[global] Arguments lo_anchor {_ _ _ _ _ _ _ _ _} _.

Definition linv (perm : list Z) (s : lstate) (L F O U : list Z) (held : Z -> list Z) (hd : Z -> Z) (ex : list Z) : Prop :=
  pool_ok s L F /\ lib_ok perm (lib s) (ba_bitmap s) L O U held hd ex.

(** Every library that can be found is referenced, apart from [fr]. *)
Definition live (g : Z -> option soinfo) (O fr : list Z) : Prop :=
  forall y e, y ∈ O -> y ∉ fr -> g y = Some e -> 1 <= so_refcount e.

Definition strip (e : soinfo) : soinfo := set_refcount e 0.

Lemma ready_strip e e' : strip e' = strip e -> ready e -> ready e'.
Proof.
  intros H. pose proof (f_equal so_flags H) as H1. pose proof (f_equal so_name H) as H2. cbn in H1, H2.
  unfold ready. by rewrite H1, H2.
Qed.

Lemma blk_strip g g' x : strip <$> g' x = strip <$> g x -> blk g' x = blk g x.
Proof.
  intros H. unfold blk. destruct (x =? LIBDL); [done|]. destruct (g' x) as [e'|], (g x) as [e|]; try done. apply (inj Some) in H.
  pose proof (f_equal so_ba_index H) as H1. pose proof (f_equal so_size H) as H2. cbn in *. unfold blk_of. by rewrite H1, H2.
Qed.

Lemma blocks_ext g g' (L : list Z) : (forall x, x ∈ L -> blk g' x = blk g x) -> omap (blk g') L = omap (blk g) L.
Proof.
  induction L as [|x L IH]; intros H; [done|]. cbn. rewrite H by left. rewrite IH; [done|]. intros y Hy. apply H. by right.
Qed.

Lemma Forall2_weaken {A B} (P Q : A -> B -> Prop) l k :
  Forall2 P l k -> (forall x y, y ∈ k -> P x y -> Q x y) -> Forall2 Q l k.
Proof.
  induction 1 as [|x y l k HP HF IH]; intros H; constructor; [apply H; [left|done]|]. apply IH. intros a b Hb. apply H. by right.
Qed.

Section Updates.
Context {perm : list Z} {g : Z -> option soinfo} {bm : bitmap} {L O U : list Z} {held : Z -> list Z} {hd : Z -> Z} {ex : list Z}.
Context (I : lib_ok perm g bm L O U held hd ex).

Lemma O_in x : x ∈ O -> x ∈ L.
Proof. intros Hx. apply (lo_ready I) in Hx. tauto. Qed.

Lemma O_get x : x ∈ O -> exists e, g x = Some e /\ ready e.
Proof. intros Hx. apply (lo_ready I) in Hx. tauto. Qed.

Lemma blk_ext g' x : g' x = g x -> blk g' x = blk g x.
Proof. intros H. unfold blk. by rewrite H. Qed.

Lemma ref_range y e : y ∈ O -> g y = Some e -> 0 <= so_refcount e < 2 ^ 32 - 1.
Proof.
  intros Hy He. rewrite (lo_ref I y e Hy He).
  pose proof (lo_cnt I). pose proof (lo_hd I y) as [? _].
  pose proof (cnt_bound y (all_held L held)). pose proof (cnt_bound y ex). unfold SO_MAX, MAX_NEEDED in *. lia.
Qed.

(** The libraries that can be found keep all but their counts, the others their names. *)
Lemma lib_ok_change g' bm' held' hd' ex' :
  (forall x, x ∈ L -> so_name <$> g' x = so_name <$> g x) ->
  (forall x, x ∈ O -> strip <$> g' x = strip <$> g x) ->
  (forall x e, x ∈ L -> x ∉ O -> x ∉ U -> g' x = Some e -> ~ ready e) ->
  (forall x e, x ∈ L -> x ∉ O -> x <> LIBDL -> g' x = Some e -> placed e) -> ba_ok bm' (omap (blk g') L) ->
  (forall x, x ∈ O -> held' x = held x) ->
  (forall x, x ∈ L -> x ∉ O -> held' x ⊆ O /\ Z.of_nat (length (held' x)) <= MAX_NEEDED) -> ex' ⊆ O ->
  (forall y e, y ∈ O -> g' y = Some e -> so_refcount e = hd' y + cnt y (all_held L held') + cnt y ex') ->
  Z.of_nat (length (all_held L held') + length ex') <= (SO_MAX + 1) * MAX_NEEDED + 1 ->
  (forall y, 0 <= hd' y < 2 ^ 31 /\ (y ∉ O -> hd' y = 0)) -> (forall y, y ∈ perm -> 1 <= hd' y) ->
  lib_ok perm g' bm' L O U held' hd' ex'.
Proof.
  intros Hn HO HnO Hpl Hba Hh Hh' Hex Href Hcnt Hhd Hperm.
  assert (forall x e', x ∈ O -> g' x = Some e' -> exists e, g x = Some e /\ strip e' = strip e) as HO'.
  { intros x e' Hx E. specialize (HO x Hx). rewrite E in HO. destruct (g x) as [e|]; [|done]. exists e. by apply (inj Some) in HO. }
  assert (forall x e', x ∈ L -> g' x = Some e' -> exists e, g x = Some e /\ so_name e' = so_name e) as Hn'.
  { intros x e' Hx E. specialize (Hn x Hx). rewrite E in Hn. destruct (g x) as [e|]; [|done]. exists e. by injection Hn. }
  assert (forall x, x ∈ O -> x ∈ L) as HOL by (intros x; apply O_in). pose proof O_get as Hget. pose proof I as []. split; try done.
  - intros x Hx. specialize (Hn x Hx). destruct (lo_get0 x Hx) as [e E]. rewrite E in Hn. by destruct (g' x).
  - intros x y e1 e2 Hx1 Hy1 E1 E2 En. destruct (Hn' x e1 Hx1 E1) as (f1 & F1 & N1).
    destruct (Hn' y e2 Hy1 E2) as (f2 & F2 & N2). apply (lo_names0 x y f1 f2); congruence.
  - intros x. split.
    + intros Hx. pose proof Hx as (H1 & H2 & e & E & Hr)%lo_ready0. split_and!; [done..|]. specialize (HO x Hx).
      rewrite E in HO. destruct (g' x) as [e'|]; [|done]. exists e'. split; [done|]. apply (inj Some) in HO. by apply (ready_strip e).
    + intros (H1 & H2 & e & E & Hr). destruct (decide (x ∈ O)) as [|Hx]; [done|]. by destruct (HnO x e H1 Hx H2 E).
  - intros pre x post E. rewrite Hh by (rewrite E; set_solver). by apply (lo_topo0 pre x post).
  - intros x Hx. destruct (decide (x ∈ O)) as [HxO|HxO]; [rewrite Hh by done; by apply lo_held0|by apply Hh'].
  - intros x e' Hx Hp E. destruct (HO' x e' Hx E) as (e & Ee & Hs). destruct (lo_deps0 x e Hx Hp Ee) as (d & Hd & HF).
    exists d. rewrite Hh by done. split; [by apply (f_equal so_dynamic) in Hs; cbn in Hs; congruence|].
    assert (so_tables e' = so_tables e) as -> by (by apply (f_equal so_tables) in Hs).
    apply (Forall2_weaken _ _ _ _ HF). intros n y Hy (e0 & He0 & Hn0).
    assert (y ∈ L) as HyL by (apply HOL; destruct (lo_held0 x) as [Hsub _]; [by apply HOL|by apply Hsub]).
    specialize (Hn y HyL). rewrite He0 in Hn. unfold named. destruct (g' y) as [e1|]; [|done]. exists e1. split; [done|].
    injection Hn as Hn. congruence.
  - destruct lo_perm0 as (P1 & P2 & _). by split_and!.
  - intros x e' Hx Hne E. destruct (decide (x ∈ O)) as [HxO|HxO]; [|by apply (Hpl x)].
    destruct (HO' x e' HxO E) as (e & Ee & Hs). pose proof (lo_placed0 x e Hx Hne Ee) as P. unfold placed in *.
    pose proof (f_equal so_ba_index Hs) as H1. pose proof (f_equal so_base Hs) as H2.
    pose proof (f_equal so_size Hs) as H3. cbn in H1, H2, H3. by rewrite H1, H2, H3.
  - destruct lo_anchor0 as (a & Ha1 & Ha2). exists a. split; [done|]. rewrite (blk_strip g g'); [done|].
    destruct lo_perm0 as (P1 & _). by apply HO, P1.
Qed.

(** A library that cannot be found changes, keeping its name. *)
Lemma lib_ok_edit g' bm' si e' :
  si ∈ L -> si ∉ O -> g' si = Some e' -> so_name <$> g si = Some (so_name e') -> (si ∈ U \/ ~ ready e') ->
  (forall x, x ∈ L -> x <> si -> g' x = g x) -> ba_ok bm' (omap (blk g') L) -> (si <> LIBDL -> placed e') ->
  lib_ok perm g' bm' L O U held hd ex.
Proof.
  intros Hsi HO Hg' Hn Hr Hx Hba Hp.
  assert (forall x, x ∈ O -> g' x = g x) as HxO by (intros x H; apply Hx; [by apply O_in|by intros ->]).
  apply lib_ok_change; try done; try apply I.
  - intros x H. destruct (decide (x = si)) as [->|]; [by rewrite Hg'|by rewrite Hx].
  - intros x H. by rewrite HxO.
  - intros x e H1 H2 H3 E. destruct (decide (x = si)) as [->|]; [naive_solver congruence|]. rewrite Hx in E by done.
    intros Hre. apply H2. apply (lo_ready I). naive_solver.
  - intros x e H1 H2 H3 E. destruct (decide (x = si)) as [->|]; [naive_solver congruence|]. rewrite Hx in E by done.
    by apply (lo_placed I x).
  - intros x H _. by apply (lo_held I).
  - intros y e H. rewrite HxO by done. by apply (lo_ref I).
Qed.

(** The references to [y] change. *)
Lemma lib_ok_refs g' held' hd' ex' y e v :
  y ∈ O -> g y = Some e -> g' y = Some (set_refcount e v) -> (forall x, x ∈ L -> x <> y -> g' x = g x) ->
  (forall x, x ∈ O -> held' x = held x) ->
  (forall x, x ∈ L -> x ∉ O -> held' x ⊆ O /\ Z.of_nat (length (held' x)) <= MAX_NEEDED) -> ex' ⊆ O ->
  (forall z, hd' z + cnt z (all_held L held') + cnt z ex' =
             hd z + cnt z (all_held L held) + cnt z ex + (if z =? y then v - so_refcount e else 0)) ->
  Z.of_nat (length (all_held L held') + length ex') <= (SO_MAX + 1) * MAX_NEEDED + 1 ->
  (forall z, 0 <= hd' z < 2 ^ 31 /\ (z ∉ O -> hd' z = 0)) -> (forall z, z ∈ perm -> 1 <= hd' z) ->
  lib_ok perm g' bm L O U held' hd' ex'.
Proof.
  intros Hy Hg Hg' Hx Hh Hh' Hex Hc Hcnt Hhd Hperm.
  assert (forall x, x ∈ L -> x ∉ O -> g' x = g x) as HxO by (intros x H1 H2; apply Hx; [done|by intros ->]).
  assert (forall x, x ∈ L -> strip <$> g' x = strip <$> g x) as Hs.
  { intros x H. destruct (decide (x = y)) as [->|]; [by rewrite Hg', Hg|by rewrite Hx]. }
  apply lib_ok_change; try done.
  - intros x H. destruct (decide (x = y)) as [->|]; [by rewrite Hg', Hg|by rewrite Hx].
  - intros x H. by apply Hs, O_in.
  - intros x e0 H1 H2 H3 E Hre. apply H2. apply (lo_ready I). rewrite HxO in E by done. naive_solver.
  - intros x e0 H1 H2 H3 E. rewrite HxO in E by done. by apply (lo_placed I x).
  - rewrite (blocks_ext g); [apply I|]. intros x H. by apply blk_strip, Hs.
  - intros z e0 Hz E. rewrite Hc. destruct (Z.eqb_spec z y) as [->|Hne].
    + rewrite Hg' in E. injection E as <-. rewrite <- (lo_ref I y e) by done. cbn. lia.
    + rewrite Hx in E; [|by apply O_in|done]. rewrite <- (lo_ref I z e0) by done. lia.
Qed.

(** The library [z], which is being linked, takes a reference to [y]. *)
Lemma lib_ok_hold g' y z e :
  ex = [] -> y ∈ O -> z ∈ L -> z ∉ O -> Z.of_nat (length (held z)) < MAX_NEEDED ->
  g y = Some e -> g' y = Some (set_refcount e (so_refcount e + 1)) -> (forall x, x ∈ L -> x <> y -> g' x = g x) ->
  lib_ok perm g' bm L O U (upd held z (held z ++ [y])) hd ex.
Proof.
  intros Hex Hy Hz HzO Hl Hg Hg' Hx. destruct (all_held_upd L held z (held z ++ [y]) (lo_nodup I) Hz) as [Hc1 Hc2].
  eapply lib_ok_refs; try done; try apply I.
  - intros x H. apply upd_ne. by intros ->.
  - intros x H1 H2. destruct (decide (x = z)) as [->|]; [|rewrite upd_ne by done; by apply (lo_held I)].
    rewrite upd_eq. split; [|rewrite length_app; cbn; lia]. pose proof (lo_held I z H1). set_solver.
  - intros x. rewrite Hc1. autorewrite with cnt. rewrite (Z.eqb_sym y x). destruct (x =? y); lia.
  - assert (forall x, x ∈ L -> Z.of_nat (length (upd held z (held z ++ [y]) x)) <= MAX_NEEDED) as H.
    { intros x H. destruct (decide (x = z)) as [->|]; [rewrite upd_eq, length_app; cbn; lia|].
      rewrite upd_ne by done. by apply (lo_held I). }
    apply all_held_length in H. pose proof (lo_len I). rewrite Hex. cbn [length]. unfold MAX_NEEDED, SO_MAX in *. nia.
Qed.

(** A handle for [y]. *)
Lemma lib_ok_handle g' y e :
  y ∈ O -> g y = Some e -> hd y + 1 < 2 ^ 31 -> g' y = Some (set_refcount e (so_refcount e + 1)) ->
  (forall x, x ∈ L -> x <> y -> g' x = g x) -> lib_ok perm g' bm L O U held (upd hd y (hd y + 1)) ex.
Proof.
  intros Hy Hg Hl Hg' Hx. eapply lib_ok_refs; try done; try apply I.
  - intros x H _. by apply (lo_held I).
  - intros x. unfold upd. destruct (Z.eqb_spec x y) as [->|]; lia.
  - intros x. pose proof (lo_hd I x). pose proof (lo_hd I y). unfold upd. destruct (Z.eqb_spec x y) as [->|]; [|done].
    split; [lia|done].
  - intros x H. pose proof (lo_perm I) as (_ & _ & P). specialize (P x H). unfold upd.
    destruct (Z.eqb_spec x y) as [->|]; lia.
Qed.

(** A handle is given up: its release is under way. *)
Lemma lib_ok_close y :
  y ∈ O -> (if bool_decide (y ∈ perm) then 2 else 1) <= hd y ->
  ex = [] -> lib_ok perm g bm L O U held (upd hd y (hd y - 1)) (y :: ex).
Proof.
  intros Hy Hh Hex. destruct (O_get y Hy) as (e & He & _).
  assert (hd y - 1 >= 0) by (destruct (bool_decide _); lia).
  apply (lib_ok_refs g held (upd hd y (hd y - 1)) (y :: ex) y e (so_refcount e)); try done; try apply I.
  - rewrite He. by destruct e.
  - intros x H1 _. by apply (lo_held I).
  - pose proof (lo_ex I). set_solver.
  - intros x. autorewrite with cnt. unfold upd. rewrite (Z.eqb_sym y x). destruct (Z.eqb_spec x y) as [->|]; lia.
  - pose proof (all_held_length L held MAX_NEEDED (fun x Hx => proj2 (lo_held I x Hx))). pose proof (lo_len I).
    rewrite Hex. cbn [length]. unfold MAX_NEEDED, SO_MAX in *. nia.
  - intros x. pose proof (lo_hd I x). pose proof (lo_hd I y). unfold upd. destruct (Z.eqb_spec x y) as [->|]; [|done].
    split; [lia|done].
  - intros x H2. pose proof (lo_perm I) as (_ & _ & P). specialize (P x H2). unfold upd.
    destruct (Z.eqb_spec x y) as [->|]; [|lia]. rewrite bool_decide_true in Hh by done. lia.
Qed.

(** A reference is released. *)
Lemma lib_ok_unref g' y e ex0 :
  ex = y :: ex0 -> g y = Some e -> g' y = Some (set_refcount e (so_refcount e - 1)) ->
  (forall x, x ∈ L -> x <> y -> g' x = g x) -> lib_ok perm g' bm L O U held hd ex0.
Proof.
  intros Hex Hg Hg' Hx. pose proof (lo_ex I) as Hsub. rewrite Hex in Hsub. pose proof (lo_cnt I) as Hc.
  rewrite Hex in Hc. cbn [length] in Hc. assert (y ∈ O) as Hy by set_solver.
  eapply (lib_ok_refs g' held hd ex0 y e); try done; try apply (lo_hd I); try apply (lo_perm I); try set_solver.
  - intros x H _. by apply (lo_held I).
  - intros x. rewrite Hex. autorewrite with cnt. rewrite (Z.eqb_sym y x). destruct (Z.eqb_spec x y) as [->|]; lia.
  - lia.
Qed.

(** A new library, that is not linked yet. *)
Lemma lib_ok_add g' si e :
  si ∉ L -> si <> LIBDL -> g' si = Some e -> ~ ready e -> so_ba_index e < 0 ->
  (forall x e', x ∈ L -> g x = Some e' -> so_name e' <> so_name e) -> Z.of_nat (length L) < SO_MAX + 1 ->
  (forall x, x ∈ L -> g' x = g x) -> lib_ok perm g' bm (L ++ [si]) O U (upd held si []) hd ex.
Proof.
  intros HsL Hdl Hg' Hr Hb Hn Hlen Hx.
  assert (si ∉ O) as HsO by (intros H; by apply HsL, O_in).
  assert (forall x, x ∈ O -> upd held si [] x = held x) as Hh by (intros x H; apply upd_ne; by intros ->).
  assert (forall x, x ∈ L -> upd held si [] x = held x) as HhL by (intros x H; apply upd_ne; by intros ->).
  assert (forall x, x ∈ O -> g' x = g x) as HxO by (intros x H; by apply Hx, O_in).
  assert (all_held (L ++ [si]) (upd held si []) = all_held L held) as Hall.
  { rewrite all_held_app, (all_held_ext L held) by done. unfold all_held at 2. cbn. by rewrite upd_eq, !app_nil_r. }
  assert (forall n y, y ∈ O -> named g n y -> named g' n y) as Hnm.
  { intros n y Hy (e0 & He0 & Hn0). exists e0. by rewrite HxO. }
  pose proof O_in as Hin. pose proof I as []. split; try done.
  - intros x [H| ->%list_elem_of_singleton]%elem_of_app; [rewrite Hx by done; by apply lo_get0|by rewrite Hg'].
  - apply list.NoDup_app. split_and!; [done| |apply NoDup_singleton]. by intros x H ->%list_elem_of_singleton.
  - rewrite length_app. cbn [length]. lia.
  - intros x y e1 e2 [H1| ->%list_elem_of_singleton]%elem_of_app [H2| ->%list_elem_of_singleton]%elem_of_app E1 E2 En; [| | |done].
    + rewrite Hx in E1, E2 by done. by apply (lo_names0 x y e1 e2).
    + rewrite Hx in E1 by done. rewrite Hg' in E2. injection E2 as <-. by destruct (Hn x e1 H1 E1).
    + rewrite Hx in E2 by done. rewrite Hg' in E1. injection E1 as <-. by destruct (Hn y e2 H2 E2).
  - intros x. split.
    + intros H. rewrite HxO by done. apply lo_ready0 in H as (H1 & H2 & H3). split_and!; [set_solver|done..].
    + intros (H1 & H2 & e0 & E & Hre). apply elem_of_app in H1 as [H1| ->%list_elem_of_singleton]; [|naive_solver congruence].
      rewrite Hx in E by done. apply lo_ready0. naive_solver.
  - intros pre x post E. rewrite Hh by (rewrite E; set_solver). by apply (lo_topo0 pre x post).
  - intros x [H| ->%list_elem_of_singleton]%elem_of_app; [rewrite HhL by done; by apply lo_held0|].
    rewrite upd_eq. split; [set_solver|done].
  - intros x e0 H1 H2 E. rewrite HxO in E by done. destruct (lo_deps0 x e0 H1 H2 E) as (d & Hd & HF).
    exists d. rewrite Hh by done. split; [done|]. apply (Forall2_weaken _ _ _ _ HF). intros n y Hy. apply Hnm.
    destruct (lo_held0 x) as [Hsub _]; [by apply O_in|]. by apply Hsub.
  - intros y e0 H E. rewrite HxO in E by done. rewrite Hall. by apply lo_ref0.
  - by rewrite Hall.
  - rewrite omap_app, (blocks_ext g); [|intros x H; by apply blk_ext, Hx].
    assert (omap (blk g') [si] = []) as ->; [|by rewrite app_nil_r]. cbn. unfold blk. rewrite Hg'. zif. cbn. unfold blk_of. by zif.
  - intros x e0 [H| ->%list_elem_of_singleton]%elem_of_app H1 E; [rewrite Hx in E by done; by apply (lo_placed0 x)|].
    rewrite Hg' in E. injection E as <-. intros Hp. lia.
  - destruct lo_anchor0 as (a & Ha1 & Ha2). exists a. split; [done|]. rewrite (blk_ext g'); [done|].
    destruct lo_perm0 as (P1 & _). by apply HxO, P1.
Qed.

(** A library that holds nothing and occupies no block is taken off the list. *)
Lemma lib_ok_remove g' bm' L1 si L2 U' :
  L = L1 ++ si :: L2 -> si ∉ O -> held si = [] -> (forall x, x ∈ L1 ++ L2 -> g' x = g x) ->
  (forall x, x ∈ L1 ++ L2 -> x ∈ U <-> x ∈ U') -> ba_ok bm' (omap (blk g) (L1 ++ L2)) ->
  lib_ok perm g' bm' (L1 ++ L2) O U' held hd ex.
Proof.
  intros EL HsO Hhs Hx HU Hba.
  assert (forall x, x ∈ O -> x ∈ L1 ++ L2) as HOL.
  { intros x H. pose proof (O_in x H) as H1. rewrite EL in H1. assert (x <> si) by (by intros ->). set_solver. }
  assert (forall x, x ∈ O -> g' x = g x) as HxO by (intros x H; by apply Hx, HOL).
  assert (forall x, x ∈ L1 ++ L2 -> x ∈ L) as HL by (rewrite EL; set_solver).
  assert (all_held (L1 ++ L2) held = all_held L held) as Hall.
  { rewrite EL. change (si :: L2) with ([si] ++ L2). rewrite !all_held_app. unfold all_held at 4. cbn. by rewrite Hhs. }
  assert (forall n y, y ∈ O -> named g n y -> named g' n y) as Hnm.
  { intros n y Hy (e0 & He0 & Hn0). exists e0. by rewrite HxO. }
  pose proof O_in as Hin. pose proof I as []. split; try done.
  - intros x H. rewrite Hx by done. by apply lo_get0, HL.
  - rewrite EL in lo_nodup0. apply list.NoDup_app in lo_nodup0 as (N1 & N2 & N3). apply list.NoDup_cons in N3 as [_ N3].
    apply list.NoDup_app. split_and!; [done| |done]. intros x H H2. apply (N2 x H). by right.
  - rewrite EL in lo_len0. rewrite !length_app in *. cbn [length] in lo_len0. lia.
  - intros x y e1 e2 H1 H2 E1 E2. rewrite Hx in E1, E2 by done. apply lo_names0; [by apply HL..|done|done].
  - intros x. split.
    + intros H. rewrite HxO, <- HU by auto. pose proof H as (H1 & H2 & H3)%lo_ready0. by split_and!; [apply HOL|..].
    + intros (H1 & H2 & H3). rewrite Hx in H3 by done. apply lo_ready0. rewrite HU by done. by split_and!; [apply HL|..].
  - intros x H. by apply lo_held0, HL.
  - intros x e0 H1 H2 E. rewrite HxO in E by done. destruct (lo_deps0 x e0 H1 H2 E) as (d & Hd & HF).
    exists d. split; [done|]. apply (Forall2_weaken _ _ _ _ HF). intros n y Hy. apply Hnm.
    destruct (lo_held0 x) as [Hsub _]; [by apply O_in|]. by apply Hsub.
  - intros y e0 H E. rewrite HxO in E by done. rewrite Hall. by apply lo_ref0.
  - by rewrite Hall.
  - rewrite (blocks_ext g); [done|]. intros x H. by apply blk_ext, Hx.
  - intros x e0 H H1 E. rewrite Hx in E by done. by apply (lo_placed0 x); [apply HL|..].
  - destruct lo_anchor0 as (a & Ha1 & Ha2). exists a. split; [done|]. rewrite (blk_ext g'); [done|].
    destruct lo_perm0 as (P1 & _). by apply HxO, P1.
Qed.

(** A library has been linked. *)
Lemma lib_ok_link g' si e d :
  si ∈ L -> si ∉ O -> si ∉ U -> g' si = Some e -> so_name <$> g si = Some (so_name e) -> ready e -> so_refcount e = 0 ->
  blk g' si = blk g si -> (si <> LIBDL -> placed e) -> so_dynamic e = DynAt d -> Forall2 (named g) (needed (so_tables e) d) (held si) ->
  (forall x, x ∈ L -> x <> si -> g' x = g x) -> lib_ok perm g' bm L (O ++ [si]) U held hd ex.
Proof.
  intros Hsi HO HU Hg' Hn Hr Href Hb Hp Hd HF Hx.
  assert (forall x, x ∈ O -> g' x = g x) as HxO by (intros x H; apply Hx; [by apply O_in|by intros ->]).
  assert (forall x, x ∈ L -> so_name <$> g' x = so_name <$> g x) as Hnm.
  { intros x H. destruct (decide (x = si)) as [->|]; [by rewrite Hg', Hn|by rewrite Hx]. }
  assert (forall n y, y ∈ L -> named g n y -> named g' n y) as Hnamed.
  { intros n y Hy (e0 & He0 & Hn0). specialize (Hnm y Hy). rewrite He0 in Hnm. unfold named.
    destruct (g' y) as [e1|]; [|done]. exists e1. split; [done|]. injection Hnm as Hnm. congruence. }
  pose proof O_in as Hin. pose proof I as []. split; try done.
  - intros x H. specialize (Hnm x H). destruct (lo_get0 x H) as [e0 E]. rewrite E in Hnm. by destruct (g' x).
  - intros x y e1 e2 H1 H2 E1 E2 En. pose proof (Hnm x H1) as N1. pose proof (Hnm y H2) as N2. rewrite E1 in N1. rewrite E2 in N2.
    destruct (g x) as [f1|] eqn:F1; [|done]. destruct (g y) as [f2|] eqn:F2; [|done]. cbn in N1, N2.
    apply (lo_names0 x y f1 f2); congruence.
  - intros x. rewrite elem_of_app, list_elem_of_singleton. split.
    + intros [H| ->]; [rewrite HxO by done; by apply lo_ready0|]. split_and!; [done..|]. by exists e.
    + intros (H1 & H2 & e0 & E & Hre). destruct (decide (x = si)) as [->|]; [by right|left].
      rewrite Hx in E by done. apply lo_ready0. naive_solver.
  - apply list.NoDup_app. split_and!; [done| |apply NoDup_singleton]. by intros x H ->%list_elem_of_singleton.
  - intros pre x post E. destruct post as [|p post _] using rev_ind.
    + apply app_inj_tail in E as [-> ->]. by apply lo_held0.
    + change (x :: post ++ [p]) with ((x :: post) ++ [p]) in E. rewrite app_assoc in E. apply app_inj_tail in E as [E _].
      by apply (lo_topo0 pre x post).
  - intros x H. destruct (lo_held0 x H) as [H1 H2]. split; [|done]. set_solver.
  - set_solver.
  - intros x e0 H1 H2 E. assert (x ∈ L) as HxL by (apply elem_of_app in H1 as [H1| ->%list_elem_of_singleton]; auto).
    assert (exists d0, so_dynamic e0 = DynAt d0 /\ Forall2 (named g) (needed (so_tables e0) d0) (held x)) as (d0 & Hd0 & HF0).
    { apply elem_of_app in H1 as [H1| ->%list_elem_of_singleton]; [rewrite HxO in E by done; by apply lo_deps0|].
      rewrite Hg' in E. injection E as <-. by exists d. }
    exists d0. split; [done|]. apply (Forall2_weaken _ _ _ _ HF0). intros n y Hy. apply Hnamed, Hin.
    by apply (lo_held0 x HxL).
  - intros y e0 [H| ->%list_elem_of_singleton]%elem_of_app E; [rewrite HxO in E by done; by apply lo_ref0|].
    rewrite Hg' in E. injection E as <-. destruct (lo_hd0 si) as [_ ->]; [|done].
    rewrite !cnt_out; [lia|set_solver|]. intros (x & H1 & H2)%all_held_in. by apply HO, (lo_held0 x H1).
  - intros y. destruct (lo_hd0 y) as [H1 H2]. split; [done|]. intros H. apply H2. set_solver.
  - destruct lo_perm0 as (P1 & P2 & P3). split_and!; [set_solver|done..].
  - rewrite (blocks_ext g); [done|]. intros x H. destruct (decide (x = si)) as [->|]; [done|]. by apply blk_ext, Hx.
  - intros x e0 H1 H2 E. destruct (decide (x = si)) as [->|]; [naive_solver congruence|]. rewrite Hx in E by done.
    by apply (lo_placed0 x).
  - destruct lo_anchor0 as (a & Ha1 & Ha2). exists a. split; [done|]. rewrite (blk_ext g'); [done|].
    destruct lo_perm0 as (P1 & _). by apply HxO, P1.
Qed.

(** The last reference to a library is released: it gives up its own. *)
Lemma lib_ok_dying g' si e pre post ex0 :
  ex = si :: ex0 -> O = pre ++ si :: post -> g si = Some e -> so_refcount e = 1 -> (forall x, x ∈ L -> g' x = g x) ->
  si ∉ perm /\ hd si = 0 /\ si ∉ ex0 /\ held si ⊆ pre /\
  lib_ok perm g' bm L (pre ++ post) (si :: U) (upd held si []) hd (held si ++ ex0).
Proof.
  intros Hex EO Hg Href Hx. assert (si ∈ O) as HsO by (rewrite EO; set_solver). pose proof (O_in si HsO) as HsL.
  pose proof (lo_ref I si e HsO Hg) as Hr. rewrite Href, Hex in Hr. autorewrite with cnt in Hr. rewrite Z.eqb_refl in Hr.
  pose proof (lo_hd I si) as [Hh _]. pose proof (cnt_bound si (all_held L held)) as Hc1. pose proof (cnt_bound si ex0) as Hc2.
  assert (hd si = 0) as Hh0 by lia. assert (si ∉ ex0) as Hex0 by (rewrite cnt_in; lia).
  assert (si ∉ all_held L held) as Hall by (rewrite cnt_in; lia).
  assert (si ∉ perm) as Hp by (intros Hp; pose proof (lo_perm I) as (_ & _ & P); specialize (P si Hp); lia).
  destruct (all_held_upd L held si [] (lo_nodup I) HsL) as [U1 U2]. cbn [length] in U2.
  assert (forall x, x ∈ L -> x <> si -> upd held si [] x = held x) as Hu by (intros x _ H; by apply upd_ne).
  assert (NoDup (pre ++ si :: post)) as N by (rewrite <- EO; apply I).
  assert (si ∉ pre ++ post) as Hout.
  { rewrite <- Permutation_middle in N. by apply list.NoDup_cons in N as [N _]. }
  assert (forall x, x ∈ O -> x <> si -> x ∈ pre ++ post) as HOO by (rewrite EO; set_solver).
  assert (forall x, x ∈ pre ++ post -> x ∈ O) as HOO' by (rewrite EO; set_solver).
  pose proof (lo_topo I pre si post EO) as Htop. split_and!; try done.
  pose proof O_in as Hin. pose proof I as []. split; try done.
  - intros x H. rewrite Hx by done. by apply lo_get0.
  - intros x y e1 e2 H1 H2 E1 E2. rewrite Hx in E1, E2 by done. by apply lo_names0.
  - intros x. split.
    + intros H. pose proof (HOO' x H) as (H1 & H2 & H3)%lo_ready0. rewrite Hx by done. split_and!; [done| |done].
      rewrite elem_of_cons. intros [->|]; done.
    + intros (H1 & H2 & H3). rewrite Hx in H3 by done. rewrite elem_of_cons in H2. apply HOO; [apply lo_ready0; tauto|tauto].
  - rewrite <- Permutation_middle in N. by apply list.NoDup_cons in N as [_ N].
  - intros p x q E. assert (x ∈ pre ++ post) as Hxin by (rewrite E; set_solver). rewrite Hu by (auto; set_solver).
    assert (x <> si) as Hne by (intros ->; done). intros y Hy. assert (y <> si) as Hys.
    { intros ->. apply Hall, all_held_in. eauto. }
    apply app_eq_inv in E as [(r & -> & E2)|(r & -> & E2)]; [destruct r as [|r0 r]; cbn in E2|].
    + subst post. rewrite app_nil_r in *. assert (y ∈ p ++ [si]); [|set_solver].
      apply (lo_topo0 (p ++ [si]) x q); [|done]. by rewrite <- app_assoc.
    + injection E2 as <- ->. apply (lo_topo0 p x (r ++ si :: post)); [|done]. by rewrite EO, <- app_assoc.
    + subst post. assert (y ∈ pre ++ si :: r) as Hyr; [|rewrite elem_of_app, elem_of_cons in Hyr; apply elem_of_app; tauto]. apply (lo_topo0 (pre ++ si :: r) x q); [|done].
      by rewrite EO, <- app_assoc.
  - intros x H. destruct (decide (x = si)) as [->|Hne]; [rewrite upd_eq; split; [set_solver|done]|].
    rewrite Hu by done. destruct (lo_held0 x H) as [H1 H2]. split; [|done]. intros y Hy. apply HOO; [by apply H1|].
    intros ->. apply Hall, all_held_in. eauto.
  - intros y [Hy|Hy]%elem_of_app; [set_solver|]. apply HOO; [apply lo_ex0; rewrite Hex; by right|by intros ->].
  - intros x e0 H1 H2 E. assert (x <> si) as Hne by (by intros ->). rewrite Hx in E by auto. rewrite Hu by auto.
    destruct (lo_deps0 x e0 (HOO' x H1) H2 E) as (d & Hd & HF). exists d. split; [done|].
    apply (Forall2_weaken _ _ _ _ HF). intros n y Hy (e1 & E1 & N1). exists e1. rewrite Hx; [done|].
    apply Hin. by apply (lo_held0 x (Hin x (HOO' x H1))).
  - intros y e0 H E. rewrite Hx in E by auto. rewrite (lo_ref0 y e0 (HOO' y H) E), U1, Hex.
    autorewrite with cnt. destruct (Z.eqb_spec si y) as [->|]; [done|lia].
  - rewrite length_app. rewrite Hex in lo_cnt0. cbn [length] in lo_cnt0. lia.
  - intros y. destruct (lo_hd0 y) as [H1 H2]. split; [done|]. intros H. destruct (decide (y = si)) as [->|Hne]; [done|].
    apply H2. intros Hy. by apply H, HOO.
  - destruct lo_perm0 as (P1 & P2 & P3). split_and!; [|done..]. intros y Hy. apply HOO; [by apply P1|by intros ->].
  - rewrite (blocks_ext g); [done|]. intros x H. by apply blk_ext, Hx.
  - intros x e0 H1 H2 E. rewrite Hx in E by done. by apply (lo_placed0 x).
  - destruct lo_anchor0 as (a & Ha1 & Ha2). exists a. split; [done|]. rewrite (blk_ext g'); [done|].
    destruct lo_perm0 as (P1 & _). by apply Hx, Hin, P1.
Qed.
End Updates.
