(* ===== verification/LinkerLoad.v ===== *)
(** * Loading and linking of libraries keep the invariant

    load_library, link_image, init_library, find_library and dlopen. *)

From Stdlib Require Import ZArith Lia.
From stdpp Require Import base gmap list numbers sets.
From S2P Require Import Prelude Links Buddy Elf Linker LinkerPool LinkerInv.

Open Scope Z_scope.

(** ** Names *)

Lemma after_slash_none name : after_slash name = None <-> 47 ∉ name.
Proof.
  induction name as [|c r IH]; [by split; [intros _ H%not_elem_of_nil|]|]. cbn. rewrite not_elem_of_cons.
  destruct (after_slash r); [naive_solver|]. destruct (Z.eqb_spec c 47); naive_solver.
Qed.

Lemma bname_slashless name : 47 ∉ bname name.
Proof.
  unfold bname. destruct (after_slash name) as [b|] eqn:E; [|by apply after_slash_none]. cbn.
  revert b E. induction name as [|c r IH]; [done|]. cbn. intros b.
  destruct (after_slash r) as [b'|] eqn:Er; [intros [= <-]; by apply IH|]. destruct (c =? 47); [|done].
  intros [= <-]. by apply after_slash_none.
Qed.

Lemma bname_id name : 47 ∉ name -> bname name = name.
Proof. intros H. unfold bname. by rewrite (proj2 (after_slash_none name) H). Qed.

Lemma by_name_spec s b fuel : forall p xs,
  lchain (nx s) p xs -> (length xs < fuel)%nat ->
  (exists x e, by_name fuel s b p = CVal x /\ x ∈ xs /\ x <> NULL /\ lib s x = Some e /\ so_name e = b) \/
  (by_name fuel s b p = CVal NULL /\ forall x e, x ∈ xs -> lib s x = Some e -> so_name e <> b).
Proof.
  induction fuel as [|f IH]; intros p xs C Hf; [lia|]. cbn [by_name]. destruct xs as [|x xs].
  { cbn in C. subst p. right. split; [done|]. by intros x e H%not_elem_of_nil. }
  destruct C as (-> & Hx & v & Hv & C). zif. unfold nx in Hv. unfold sget. destruct (pool s !! x) as [e|] eqn:He; [|done].
  injection Hv as Hv. cbn [mbind cres_bind]. assert (lib s x = Some (set_next e NULL)) as Hlx by (unfold lib; by rewrite He).
  destruct (bool_decide_reflect (b = so_name e)) as [->|Hne].
  - left. exists x, (set_next e NULL). split_and!; done || left.
  - rewrite Hv. destruct (IH v xs C) as [(y & e' & -> & Hy & Hrest)|[-> Hno]]; [cbn [length] in Hf; lia| |].
    + left. exists y, e'. split_and!; try tauto. by right.
    + right. split; [done|]. intros y e' [->|Hy]%elem_of_cons E; [rewrite Hlx in E; by injection E as <-|by apply (Hno y)].
Qed.

(** ** Changes of one library *)

Definition ctors (tr : list event) : list Z := omap (fun e => match e with ECtor x => Some x | _ => None end) tr.
Definition dtors (tr : list event) : list Z := omap (fun e => match e with EDtor x => Some x | _ => None end) tr.

(** Only the library [si] differs, and no constructor or destructor ran. *)
Definition local (si : Z) (s s' : lstate) : Prop :=
  (forall b, b <> si -> lib s' b = lib s b) /\ ctors (trace s') = ctors (trace s) /\ dtors (trace s') = dtors (trace s).

Lemma local_refl si s : local si s s.
Proof. done. Qed.

Lemma local_intro si s s' : (forall b, b <> si -> lib s' b = lib s b) -> trace s' = trace s -> local si s s'.
Proof. intros H1 H2. unfold local. by rewrite H2. Qed.

Lemma local_trans si s1 s2 s3 : local si s1 s2 -> local si s2 s3 -> local si s1 s3.
Proof. intros (A1 & A2 & A3) (B1 & B2 & B3). split_and!; [|congruence..]. intros b Hb. by rewrite B1, A1. Qed.

(** The libraries of [L] stay as they are. *)
Definition keeps (L : list Z) (s s' : lstate) : Prop :=
  (forall b, b ∈ L -> lib s' b = lib s b) /\ ctors (trace s') = ctors (trace s) /\ dtors (trace s') = dtors (trace s).

Lemma local_keeps L si s s' : si ∉ L -> local si s s' -> keeps L s s'.
Proof. intros H (H1 & H2 & H3). split_and!; [|done..]. intros b Hb. apply H1. by intros ->. Qed.

Lemma supd_ok s L F a f :
  pool_ok s L F -> a ∈ L -> (forall e, so_next (f e) = so_next e) -> (forall e v, set_next (f e) v = f (set_next e v)) ->
  exists s' e, supd s a f = CVal s' /\ pool_ok s' L F /\ lib s a = Some e /\ lib s' a = Some (f e) /\
    (forall b, b <> a -> lib s' b = lib s b) /\ ba_bitmap s' = ba_bitmap s /\ trace s' = trace s.
Proof.
  intros P Ha Hn Hs. destruct (pool_in s L F a P) as [x Hx]; [set_solver|].
  destruct (supd_lib s a f) as (s' & E & N & B & H1 & H2 & H3 & H4 & H5); [by exists x|done..|].
  assert (lib s a = Some (set_next x NULL)) as Hl by (unfold lib; by rewrite Hx).
  exists s', (set_next x NULL). split_and!; try done.
  - apply (pool_frame s); try done. intros b. rewrite B. destruct (Z.eqb_spec b a) as [->|]; [by rewrite Hl|done].
  - by rewrite B, Z.eqb_refl, Hl.
  - intros b Hb. rewrite B. by zif.
Qed.

(** A field is read. *)
Lemma sget_ok s L F a :
  pool_ok s L F -> a ∈ L -> exists x e, sget s a = CVal x /\ lib s a = Some e /\ set_next x NULL = e.
Proof.
  intros P Ha. destruct (pool_in s L F a P) as [x Hx]; [set_solver|]. exists x, (set_next x NULL).
  unfold sget, lib. by rewrite Hx.
Qed.

Lemma pool_emit s L F v : pool_ok s L F -> pool_ok (emit s v) L F.
Proof. by apply pool_frame. Qed.

Lemma pool_bitmap s L F bm : pool_ok s L F -> pool_ok (with_bitmap s bm) L F.
Proof. by apply pool_frame. Qed.

Lemma ctors_app t1 t2 : ctors (t1 ++ t2) = ctors t1 ++ ctors t2.
Proof. apply omap_app. Qed.

Lemma dtors_app t1 t2 : dtors (t1 ++ t2) = dtors t1 ++ dtors t2.
Proof. apply omap_app. Qed.

Lemma local_emit si s base size : local si s (emit s (EUnmap base size)).
Proof. split_and!; [done|..]; cbn [emit trace]; rewrite ?ctors_app, ?dtors_app; by rewrite app_nil_r. Qed.

(** ** Blocks *)

Lemma ba_ok_perm bm bs bs' : bs ≡ₚ bs' -> ba_ok bm bs -> ba_ok bm bs'.
Proof. intros E (H & t & H1 & H2 & H3). split; [done|]. exists t. by rewrite <- E. Qed.

Definition opt_list {A} (o : option A) : list A := match o with Some a => [a] | None => [] end.

Lemma blocks_at g L1 si L2 : omap (blk g) (L1 ++ si :: L2) ≡ₚ opt_list (blk g si) ++ omap (blk g) (L1 ++ L2).
Proof.
  rewrite !omap_app. cbn. destruct (blk g si) as [b|]; [|done]. cbn. by rewrite <- Permutation_middle.
Qed.

(** Library [si] gets or loses its block. *)
Lemma blocks_change g g' L si :
  NoDup L -> si ∈ L -> (forall x, x ∈ L -> x <> si -> g' x = g x) -> exists bs,
  omap (blk g) L ≡ₚ opt_list (blk g si) ++ bs /\ omap (blk g') L ≡ₚ opt_list (blk g' si) ++ bs.
Proof.
  intros N (L1 & L2 & ->)%list_elem_of_split Hx. exists (omap (blk g) (L1 ++ L2)). split; [apply blocks_at|].
  rewrite blocks_at. f_equiv. rewrite (blocks_ext g); [done|]. intros x H. apply blk_ext, Hx; [set_solver|].
  intros ->. rewrite <- Permutation_middle in N. by apply list.NoDup_cons in N as [N _].
Qed.

Section Load.
Context (w : world) (perm : list Z) (hd : Z -> Z).

(** One field of a library that cannot be found changes. *)
Lemma linv_edit s L F O U held ex si f e :
  linv perm s L F O U held hd ex -> si ∈ L -> si ∉ O -> lib s si = Some e ->
  (forall e, so_next (f e) = so_next e) -> (forall e v, set_next (f e) v = f (set_next e v)) ->
  so_name (f e) = so_name e -> (si ∈ U \/ ~ ready (f e)) -> blk_of (f e) = blk_of e -> (placed e -> placed (f e)) ->
  exists s', supd s si f = CVal s' /\ linv perm s' L F O U held hd ex /\ lib s' si = Some (f e) /\ local si s s' /\
    ba_bitmap s' = ba_bitmap s.
Proof.
  intros [P I] Hsi HO He Hf1 Hf2 Hn Hr Hb Hp.
  destruct (supd_ok s L F si f P Hsi Hf1 Hf2) as (s' & e1 & E & P' & He1 & Hl & Hx & Hbm & Ht).
  rewrite He in He1. injection He1 as <-. exists s'. split_and!; try done; [|by apply local_intro].
  split; [done|]. rewrite Hbm. apply (lib_ok_edit I _ _ si (f e)); try done.
  - by rewrite He, Hn.
  - intros x _ H. by apply Hx.
  - rewrite (blocks_ext (lib s)); [apply I|]. intros x H. destruct (decide (x = si)) as [->|]; [|by apply blk_ext, Hx].
    unfold blk. rewrite He, Hl. destruct (si =? LIBDL); done.
  - intros H. by apply Hp, (lo_placed I si e Hsi H He).
Qed.

Lemma not_linked e : so_flags e = 0 -> ~ ready e.
Proof. intros H (_ & H1 & _). by rewrite H in H1. Qed.

Lemma unplaced e : so_ba_index e < 0 -> placed e /\ blk_of e = None.
Proof. intros H. split; [intros H'; lia|]. unfold blk_of. by zif. Qed.

(** A library that is about to get a place. *)
Definition fresh_lib (e : soinfo) : Prop := so_flags e = 0 /\ so_ba_index e < 0 /\ 0 <= so_size e < 2 ^ 32 /\ so_refcount e = 0.

Lemma alloc_mem_region_spec s L F O held si e :
  linv perm s L F O [] held hd [] -> si ∈ L -> si ∉ O -> lib s si = Some e -> fresh_lib e ->
  exists r s' base ba, alloc_mem_region w s si = CVal (r, s') /\ linv perm s' L F O [] held hd [] /\
    lib s' si = Some (set_region e base (so_size e) ba) /\ local si s s' /\ (r = 0 \/ r = -1 /\ ba < 0).
Proof.
  intros [P I] Hsi HO He (Hfl & Hba & Hsz & Hrc).
  assert (si <> LIBDL) as Hdl. { intros ->. pose proof (lo_perm I) as (P1 & P2 & _). set_solver. }
  assert (forall base ba, ba < 0 -> forall s' bm, pool_ok s' L F -> lib s' si = Some (set_region e base (so_size e) ba) ->
    (forall b, b <> si -> lib s' b = lib s b) -> ba_bitmap s' = bm -> ba_ok bm (omap (blk (lib s)) L) ->
    linv perm s' L F O [] held hd []) as Hno.
  { intros base ba Hneg s' bm P' Hl Hx <- Hbm. split; [done|].
    apply (lib_ok_edit I _ _ si (set_region e base (so_size e) ba)); try done.
    - by rewrite He.
    - right. by apply not_linked.
    - intros x _ H. by apply Hx.
    - rewrite (blocks_ext (lib s)); [done|]. intros x H. destruct (decide (x = si)) as [->|]; [|by apply blk_ext, Hx].
      unfold blk. rewrite He, Hl. zif. cbn. by rewrite (proj2 (unplaced (set_region e base (so_size e) ba) Hneg)), (proj2 (unplaced e Hba)).
    - intros _. by apply unplaced. }
  unfold alloc_mem_region. destruct (sget_ok s L F si P Hsi) as (x & e' & -> & He' & Hxe). rewrite He in He'.
  injection He' as <-. cbn [mbind cres_bind]. replace (so_base x) with (so_base e) by (by rewrite <- Hxe).
  replace (so_size x) with (so_size e) by (by rewrite <- Hxe).
  destruct (negb (so_base e =? 0)).
  - destruct (supd_ok s L F si (fun e => set_region e (so_base e) (so_size e) (-1)) P Hsi) as (s' & e1 & -> & P' & E1 & Hl & Hx & Hbm & Ht);
      [done..|]. rewrite He in E1. injection E1 as <-. cbn [mbind cres_bind]. unfold reserve_mem_region.
    exists (if w_reserve w s' (so_base e) (so_size e) then 0 else -1), s', (so_base e), (-1).
    split_and!; try done; [|by apply local_intro|destruct (w_reserve _ _ _ _); lia].
    by apply (Hno (so_base e) (-1) ltac:(lia) s' (ba_bitmap s)); [..|apply I].
  - destruct (ba_allocate_spec (ba_bitmap s) (omap (blk (lib s)) L) (so_size e)) as (idx & bm' & -> & Hc); [apply I|done|].
    cbn [mbind cres_bind]. destruct Hc as [(-> & -> & _)|(H0 & Hend & Hlen & _ & Hok)].
    + zif. destruct (supd_ok (with_bitmap s (ba_bitmap s)) L F si (fun e => set_region e (so_base e) (so_size e) (-1)))
        as (s' & e1 & -> & P' & E1 & Hl & Hx & Hbm & Ht); [by apply pool_bitmap|done..|].
      change (lib (with_bitmap s (ba_bitmap s))) with (lib s) in *.
      rewrite He in E1. injection E1 as <-. cbn [mbind cres_bind]. exists (-1), s', (so_base e), (-1).
      split_and!; try done; [|by apply local_intro|lia]. by apply (Hno (so_base e) (-1) ltac:(lia) s' (ba_bitmap s)); [..|apply I].
    + zif. set (base := ba_start_addr LIBBASE idx).
      destruct (supd_ok (with_bitmap s bm') L F si (fun e => set_region e base (so_size e) idx))
        as (s1 & e1 & -> & P1 & E1 & Hl & Hx & Hbm & Ht); [by apply pool_bitmap|done..|].
      change (lib (with_bitmap s bm')) with (lib s) in *. rewrite He in E1. injection E1 as <-. cbn [mbind cres_bind].
      unfold reserve_mem_region. destruct (w_reserve w s1 base (so_size e)).
      * change (0 <? 0) with false. cbv iota. exists 0, s1, base, idx. split_and!; try done; [|by apply local_intro|by left].
        split; [done|]. apply (lib_ok_edit I _ _ si (set_region e base (so_size e) idx)); try done.
        -- by rewrite He.
        -- right. by apply not_linked.
        -- intros y _ H. by apply Hx.
        -- rewrite Hbm. cbn [with_bitmap ba_bitmap]. destruct (blocks_change (lib s) (lib s1) L si) as (bs & B1 & B2);
             [apply I|done|intros y _ H; by apply Hx|].
           refine (ba_ok_perm _ _ _ _ Hok). rewrite B1, B2. unfold blk. rewrite He, Hl. zif. cbn.
           rewrite (proj2 (unplaced e Hba)). unfold blk_of. cbn. zif. done.
      * change (-1 <? 0) with true. cbv iota. rewrite Hbm. cbn [with_bitmap ba_bitmap].
        pose proof (ba_free_spec _ _ _ Hok) as Hfree. destruct (omap (blk (lib s)) L) as [|b0 bs] eqn:Ebs.
        { exfalso. destruct (lo_anchor I) as (a & Ha & [b Hb]).
          assert (b ∈ omap (blk (lib s)) L) as H; [|rewrite Ebs in H; by apply not_elem_of_nil in H].
          apply list_elem_of_omap. exists a. split; [|done]. apply (O_in I). by apply (lo_perm I). }
        destruct Hfree as (bm2 & Ef & Hok2). cbn [bidx] in Ef. rewrite Ef. cbn [mbind cres_bind].
        destruct (supd_ok (with_bitmap s1 bm2) L F si (fun e => set_region e 0 (so_size e) (-1)))
          as (s2 & e2 & -> & P2 & E2 & Hl2 & Hx2 & Hbm2 & Ht2); [by apply pool_bitmap|done..|].
        change (lib (with_bitmap s1 bm2)) with (lib s1) in *. rewrite Hl in E2. injection E2 as <-. cbn [mbind cres_bind].
        exists (-1), s2, 0, (-1). split_and!; try done; [| |lia].
        -- apply (Hno 0 (-1) ltac:(lia) s2 bm2); try done. intros b H. by rewrite Hx2, Hx.
        -- apply (local_trans si s s1 s2); apply local_intro; done.
Qed.

(** A library leaves the list again. *)
Lemma load_fail_spec s L F O held si :
  linv perm s (L ++ [si]) F O [] held hd [] -> si ∉ O -> held si = [] -> blk (lib s) si = None ->
  exists s', load_fail s si = CVal (NULL, s') /\ linv perm s' L (si :: F) O [] held hd [] /\ local si s s'.
Proof.
  intros [P I] HO Hh Hb. assert (si <> LIBDL) as Hdl.
  { intros ->. pose proof (lo_perm I) as (P1 & P2 & _). set_solver. }
  destruct (free_info_spec s L si [] F P Hdl) as (s' & E & P' & Hl & Hbm & Ht). rewrite app_nil_r in P'.
  unfold load_fail. rewrite E. cbn [mbind cres_bind]. exists s'. split_and!; [done| |by apply local_intro].
  split; [done|]. rewrite <- (app_nil_r L). apply (lib_ok_remove I _ _ L si [] []); try done.
  rewrite Hbm. pose proof (lo_ba I) as Hba. eapply ba_ok_perm; [|exact Hba]. by rewrite blocks_at, Hb.
Qed.

(** ba_free of the block of a library that cannot be found: that of the anchor stays. *)
Lemma free_block s F O U held ex L1 si L2 e b :
  linv perm s (L1 ++ si :: L2) F O U held hd ex -> si ∉ O -> lib s si = Some e -> blk (lib s) si = Some b ->
  exists bm, ba_free (so_ba_index e) (ba_bitmap s) = CVal bm /\ ba_ok bm (omap (blk (lib s)) (L1 ++ L2)).
Proof.
  intros [P I] HO He Hb.
  pose proof (lo_ba I) as Hba. apply (ba_ok_perm _ _ _ (blocks_at (lib s) L1 si L2)) in Hba.
  rewrite Hb in Hba. cbn [opt_list app] in Hba. apply ba_free_spec in Hba. destruct (omap (blk (lib s)) (L1 ++ L2)) as [|b0 bs] eqn:Ebs.
  { exfalso. destruct (lo_anchor I) as (a & Ha & [c Hc]). pose proof (lo_perm I) as (P1 & _).
    assert (a <> si) by (intros ->; by apply HO, P1). assert (a ∈ L1 ++ si :: L2) as HaL by (by apply (O_in I), P1).
    assert (c ∈ omap (blk (lib s)) (L1 ++ L2)) as H0; [|rewrite Ebs in H0; by apply not_elem_of_nil in H0].
    apply list_elem_of_omap. exists a. split; [|done]. set_solver. }
  destruct Hba as (bm & Ef & Hok). assert (bidx b = so_ba_index e) as Hi.
  { unfold blk in Hb. rewrite He in Hb. destruct (si =? LIBDL); [done|]. cbn in Hb. unfold blk_of in Hb.
    destruct (0 <=? so_ba_index e); [by injection Hb as <-|done]. }
  rewrite Hi in Ef. by exists bm.
Qed.

Lemma give_back s L F O U held ex si e b :
  linv perm s L F O U held hd ex -> si ∈ L -> si ∉ O -> lib s si = Some e -> (si ∈ U \/ ~ ready e) -> blk (lib s) si = Some b ->
  exists bm, ba_free (so_ba_index e) (ba_bitmap s) = CVal bm /\
    forall s' e', pool_ok s' L F -> ba_bitmap s' = bm -> lib s' si = Some e' -> so_name e' = so_name e -> so_flags e' = so_flags e ->
      so_ba_index e' < 0 -> (forall x, x <> si -> lib s' x = lib s x) -> linv perm s' L F O U held hd ex.
Proof.
  intros Hinv Hsi HO He Hr Hb. destruct (list_elem_of_split L si Hsi) as (L1 & L2 & EL). pose proof Hinv as [P I].
  rewrite EL in Hinv. destruct (free_block s F O U held ex L1 si L2 e b Hinv HO He Hb) as (bm & Ef & Hok). rewrite Ef.
  exists bm. split; [done|]. intros s' e' P' Hbm He' Hn Hf Hneg Hx. split; [done|].
  destruct (unplaced e' Hneg) as [Hp1 Hp2].
  apply (lib_ok_edit I _ _ si e'); try done.
  - by rewrite He, Hn.
  - unfold ready in *. by rewrite Hf, Hn.
  - intros x _ H. by apply Hx.
  - rewrite Hbm. refine (ba_ok_perm _ _ _ _ Hok). assert (blk (lib s') si = None) as Hnb.
    { unfold blk. rewrite He'. by destruct (si =? LIBDL). }
    rewrite EL, blocks_at, Hnb. cbn [opt_list app]. rewrite (blocks_ext (lib s) (lib s')); [done|]. intros x H.
    apply blk_ext, Hx. intros ->. pose proof (lo_nodup I) as N. rewrite EL, <- Permutation_middle in N.
    by apply list.NoDup_cons in N as [N _].
Qed.

Lemma linv_emit s L F O U held ex v : linv perm s L F O U held hd ex -> linv perm (emit s v) L F O U held hd ex.
Proof. intros [P I]. split; [by apply pool_emit|done]. Qed.

(** What load_library leaves of a library. *)
Definition loaded (n : list Z) (e : soinfo) : Prop :=
  so_name e = bname n /\ so_flags e = 0 /\ so_refcount e = 0 /\ so_dt e = ∅ /\
  (so_dynamic e = DynUnset \/
   exists hdr im, w_open w n = Some (hdr, im) /\ so_dynamic e = DynAt (im_dynamic im) /\ so_tables e = im_tables im).

Lemma error_not_ready e : ~ ready (set_flags e (Z.lor (so_flags e) FLAG_ERROR)).
Proof.
  intros (H & _). cbn in H. unfold truthy in H. apply negb_false_iff, Z.eqb_eq in H.
  apply (f_equal (fun z => Z.testbit z 1)) in H. rewrite Z.land_spec, Z.lor_spec, Z.bits_0 in H.
  change (Z.testbit FLAG_ERROR 1) with true in H. by destruct (Z.testbit (so_flags e) 1).
Qed.

(** The segments of the library cannot be mapped. *)
Lemma load_unmapped s L F O held si e :
  linv perm s (L ++ [si]) F O [] held hd [] -> si ∉ O -> held si = [] -> lib s si = Some e -> so_flags e = 0 ->
  exists s', (let s := emit s (EUnmap (so_base e) (so_size e)) in
     s ← supd s si (fun e => set_flags e (Z.lor (so_flags e) FLAG_ERROR));
     if 0 <=? so_ba_index e then
       bm ← ba_free (so_ba_index e) (ba_bitmap s);
       s ← supd (with_bitmap s bm) si (fun e => set_region e (so_base e) (so_size e) (-1));
       load_fail s si
     else load_fail s si) = CVal (NULL, s') /\
    linv perm s' L (si :: F) O [] held hd [] /\ local si s s'.
Proof.
  intros Hi HO Hh He Hf. cbv zeta. set (s0 := emit s _). assert (si ∈ L ++ [si]) as Hsi by set_solver.
  destruct (linv_edit s0 (L ++ [si]) F O [] held [] si (fun e => set_flags e (Z.lor (so_flags e) FLAG_ERROR)) e)
    as (s1 & -> & Hi1 & Hl1 & Hloc1 & Hbm1); try done; [by apply linv_emit|right; apply error_not_ready|].
  cbn [mbind cres_bind]. assert (local si s s1) as Hloc.
  { apply (local_trans si s s0); [apply local_emit|done]. }
  assert (si <> LIBDL) as Hdl. { intros ->. pose proof Hi as [_ I]. pose proof (lo_perm I) as (P1 & P2 & _). set_solver. }
  destruct (Z.leb_spec 0 (so_ba_index e)) as [Hb|Hb].
  - destruct (give_back s1 (L ++ [si]) F O [] held [] si _ (mkBlock (so_ba_index e) (ba_order (so_size e)) true) Hi1 Hsi HO Hl1)
      as (bm & Ebm & Hback); [right; apply error_not_ready| |].
    { unfold blk. rewrite Hl1. zif. cbn. unfold blk_of. cbn. by zif. }
    cbn [so_ba_index set_flags] in Ebm. rewrite Ebm. cbn [mbind cres_bind].
    destruct (supd_ok (with_bitmap s1 bm) (L ++ [si]) F si (fun e => set_region e (so_base e) (so_size e) (-1)))
      as (s2 & e2 & -> & P2 & E2 & Hl2 & Hx2 & Hbm2 & Ht2); [by apply pool_bitmap, Hi1|done..|]. cbn [mbind cres_bind].
    change (lib (with_bitmap s1 bm)) with (lib s1) in *. rewrite Hl1 in E2. injection E2 as <-.
    destruct (load_fail_spec s2 L F O held si) as (s3 & -> & Hi3 & Hloc3); try done.
    { by apply (Hback s2 _ P2 Hbm2 Hl2). }
    { unfold blk. rewrite Hl2. by zif. }
    exists s3. split_and!; [done..|]. apply (local_trans si s s1); [done|]. apply (local_trans si s1 s2); [by apply local_intro|done].
  - destruct (load_fail_spec s1 L F O held si) as (s3 & -> & Hi3 & Hloc3); try done.
    { unfold blk. rewrite Hl1. zif. cbn. unfold blk_of. cbn. by zif. }
    exists s3. split_and!; [done..|]. by apply (local_trans si s s1).
Qed.

(** A structure for the library. *)
Lemma alloc_info_ok s L F O held n :
  linv perm s L F O [] held hd [] -> (forall x e, x ∈ L -> lib s x = Some e -> so_name e <> bname n) ->
  (exists si s' F', alloc_info s (bname n) = CVal (si, s') /\ si ∉ L /\ si <> NULL /\ local si s s' /\
     lib s' si = Some (new_so (bname n)) /\ linv perm s' (L ++ [si]) F' O [] (upd held si []) hd []) \/
  alloc_info s (bname n) = CVal (NULL, s).
Proof.
  intros [P I] Hn. destruct (alloc_info_spec s L F (bname n) P) as [(si & s1 & F1 & E & P1 & Hl1 & Hx1 & Hbm1 & Ht1 & HsL & HsN)|[E _]];
    [left|by right].
  assert (si <> LIBDL) as Hdl. { intros ->. pose proof (lo_perm I) as (Q1 & Q2 & _). by apply HsL, (O_in I), Q1. }
  exists si, s1, F1. split_and!; try done; [by apply local_intro|]. split; [done|]. rewrite Hbm1.
  apply (lib_ok_add I _ si (new_so (bname n))); try done.
  - by apply not_linked.
  - pose proof (pool_length _ _ _ P1) as H. rewrite length_app in H. cbn [length] in H.
    pose proof (po_cnt _ _ _ P1). lia.
  - intros x H. apply Hx1. by intros ->.
Qed.

(** The libraries that were there stay as they are: the result is none, or a new one. *)
Definition load_post (s : lstate) (L O : list Z) (held : Z -> list Z) (n : list Z) (r : Z) (s' : lstate) : Prop :=
  keeps L s s' /\ exists F' held', (forall x, x ∈ L -> held' x = held x) /\
  (r = NULL /\ linv perm s' L F' O [] held' hd [] \/
   r <> NULL /\ r ∉ L /\ held' r = [] /\ linv perm s' (L ++ [r]) F' O [] held' hd [] /\ exists e, lib s' r = Some e /\ loaded n e).

Lemma load_library_spec s L F O held n :
  linv perm s L F O [] held hd [] -> (forall x e, x ∈ L -> lib s x = Some e -> so_name e <> bname n) ->
  exists r s', load_library w s n = CVal (r, s') /\ load_post s L O held n r s'.
Proof.
  intros Hi Hn. assert (exists r s', CVal (NULL, s) = CVal (r, s') /\ load_post s L O held n r s') as Hnull.
  { exists NULL, s. split; [done|]. split; [done|]. exists F, held. split; [done|]. by left. }
  unfold load_library. destruct (w_open w n) as [[hdr im]|] eqn:Ew; [|done].
  destruct (get_lib_extents hdr) as [req_base ext_sz] eqn:Ex. destruct (req_base =? UINT_MAX); [done|].
  destruct (alloc_info_ok s L F O held n Hi Hn) as [(si & s1 & F1 & -> & HsL & HsN & Hloc1 & Hl1 & Hi1)| ->];
    cbn [mbind cres_bind]; [zif|done].
  assert (0 <= ext_sz < 2 ^ 32) as Hsz by (apply (f_equal snd) in Ex; cbn in Ex; subst ext_sz; apply lib_extents_size).
  assert (si ∈ L ++ [si]) as Hsi by set_solver.
  assert (si ∉ O) as HsO by (intros H; by apply HsL, (O_in (proj2 Hi))).
  destruct (linv_edit s1 (L ++ [si]) F1 O [] (upd held si []) [] si
    (fun e => set_dynamic (set_flags (set_region e req_base ext_sz (so_ba_index e)) 0) DynUnset) _ Hi1 Hsi HsO Hl1)
    as (s2 & -> & Hi2 & Hl2 & Hloc2 & _); try done; [right; by apply not_linked|]. cbn [mbind cres_bind].
  destruct (alloc_mem_region_spec s2 (L ++ [si]) F1 O (upd held si []) si _ Hi2 Hsi HsO Hl2)
    as (r & s3 & base & ba & -> & Hi3 & Hl3 & Hloc3 & Hr); [split_and!; done || apply Hsz|]. cbn [mbind cres_bind].
  assert (local si s s3) as Hloc by (eapply local_trans; [exact Hloc1|]; by eapply local_trans).
  set (e3 := set_region _ _ _ _) in Hl3.
  assert (forall x, x ∈ L -> upd held si [] x = held x) as Hheld by (intros x Hx; apply upd_ne; by intros ->).
  assert (forall s4, local si s3 s4 -> linv perm s4 L (si :: F1) O [] (upd held si []) hd [] ->
    exists r s', CVal (NULL, s4) = CVal (r, s') /\ load_post s L O held n r s') as Hfail.
  { intros s4 Hloc4 Hi4. exists NULL, s4. split; [done|]. split; [by eapply local_keeps, local_trans|]. eexists _, _.
    split; [exact Hheld|]. by left. }
  destruct Hr as [-> |[-> Hba]].
  - change (0 <? 0) with false. cbv iota. destruct (sget_ok s3 (L ++ [si]) F1 si (proj1 Hi3) Hsi) as (x & e' & -> & He' & Hxe).
    rewrite Hl3 in He'. injection He' as <-. cbn [mbind cres_bind].
    replace (so_base x) with (so_base e3) by (by rewrite <- Hxe). replace (so_size x) with (so_size e3) by (by rewrite <- Hxe).
    replace (so_ba_index x) with (so_ba_index e3) by (by rewrite <- Hxe).
    destruct (load_segments _ _ _ _) as [seg|].
    + destruct (linv_edit s3 (L ++ [si]) F1 O [] (upd held si []) [] si
        (fun e => set_dt (set_dynamic e (if has_dynamic seg then DynAt (im_dynamic im) else DynUnset)) (so_dt e) (im_tables im))
        e3 Hi3 Hsi HsO Hl3) as (s4 & -> & Hi4 & Hl4 & Hloc4 & _); try done; [right; by apply not_linked|]. cbn [mbind cres_bind].
      exists si, s4. split; [done|]. split; [by eapply local_keeps, local_trans|]. exists F1, (upd held si []).
      split; [done|]. right. split_and!; try done; [by rewrite upd_eq|].
      eexists. split; [exact Hl4|]. split_and!; try done. cbn. destruct (has_dynamic seg); [right; eauto|by left].
    + destruct (load_unmapped s3 L F1 O (upd held si []) si e3 Hi3 HsO) as (s4 & E4 & Hi4 & Hloc4);
        [by rewrite upd_eq|done..|]. cbv zeta in E4 |- *. rewrite E4. by apply Hfail.
  - change (-1 <? 0) with true. cbv iota. destruct (load_fail_spec s3 L F1 O (upd held si []) si Hi3 HsO) as (s4 & -> & Hi4 & Hloc4);
      [by rewrite upd_eq| |by apply Hfail].
    unfold blk. rewrite Hl3. destruct (si =? LIBDL); [done|]. cbn. unfold e3, blk_of. cbn. by zif.
Qed.

(** ** Linking *)

(** The libraries [L] stay, up to their counts, and those in [On] are linked; [z] may
    take references. *)
Record grows (z : Z) (s : lstate) (L O : list Z) (held : Z -> list Z) (s' : lstate) (L' O' : list Z) (held' : Z -> list Z)
    (On : list Z) : Prop := {
  gr_L : exists Ln, L' = L ++ Ln;
  gr_O : O' = O ++ On;
  gr_new : forall x, x ∈ On -> x ∉ L;
  gr_held : forall x, x ∈ L -> x <> z -> held' x = held x;
  gr_lib : forall x, x ∈ L -> x ∉ O -> lib s' x = lib s x;
  gr_strip : forall x, x ∈ L -> strip <$> lib s' x = strip <$> lib s x;
  gr_ctors : ctors (trace s') = ctors (trace s) ++ On;
  gr_dtors : dtors (trace s') = dtors (trace s)
}.

Lemma grows_trans z s L O h s1 L1 O1 h1 On1 s2 L2 O2 h2 On2 :
  grows z s L O h s1 L1 O1 h1 On1 -> grows z s1 L1 O1 h1 s2 L2 O2 h2 On2 -> grows z s L O h s2 L2 O2 h2 (On1 ++ On2).
Proof.
  intros [[Ln1 ->] -> A1 A2 A3 A4 A5 A6] [[Ln2 ->] -> B1 B2 B3 B4 B5 B6]. split.
  - eexists. by rewrite <- app_assoc.
  - by rewrite app_assoc.
  - intros x [H|H]%elem_of_app; [by apply A1|]. intros HL. apply (B1 x H). set_solver.
  - intros x H1 H2. rewrite B2 by set_solver. by apply A2.
  - intros x H1 H2. rewrite B3; [by apply A3|set_solver|]. intros [H|H]%elem_of_app; [done|]. by apply (A1 x).
  - intros x H. rewrite B4 by set_solver. by apply A4.
  - by rewrite B5, A5, app_assoc.
  - congruence.
Qed.

(** A library [si] that is new to [L] takes references. *)
Lemma grows_new si s L O h s1 h1 s2 L2 O2 h2 On :
  si ∉ L -> keeps L s s1 -> (forall x, x ∈ L -> h1 x = h x) -> grows si s1 (L ++ [si]) O h1 s2 L2 O2 h2 On ->
  grows NULL s L O h s2 L2 O2 h2 On.
Proof.
  intros Hsi (K1 & K2 & K3) Hh [[Ln ->] -> B1 B2 B3 B4 B5 B6]. split; try done.
  - eexists. by rewrite <- app_assoc.
  - intros x H HL. apply (B1 x H). set_solver.
  - intros x H _. rewrite B2, Hh; [done..|set_solver|]. by intros ->.
  - intros x H H2. rewrite B3 by set_solver. by apply K1.
  - intros x H. rewrite B4 by set_solver. by rewrite K1.
  - by rewrite B5, K2.
  - by rewrite B6, K3.
Qed.

(** Then it changes. *)
Lemma grows_local si s L O h s2 L2 O2 h2 On s3 On3 :
  grows NULL s L O h s2 L2 O2 h2 On -> si ∉ L -> (forall b, b <> si -> lib s3 b = lib s2 b) -> (forall x, x ∈ On3 -> x ∉ L) ->
  ctors (trace s3) = ctors (trace s2) ++ On3 -> dtors (trace s3) = dtors (trace s2) ->
  grows NULL s L O h s3 L2 (O2 ++ On3) h2 (On ++ On3).
Proof.
  intros [[Ln ->] -> B1 B2 B3 B4 B5 B6] Hsi Hl Hn Hc Hd. split.
  - by eexists.
  - by rewrite app_assoc.
  - intros x [H|H]%elem_of_app; [by apply B1|by apply Hn].
  - done.
  - intros x H1 H2. rewrite Hl; [by apply B3|]. by intros ->.
  - intros x H1. rewrite Hl; [by apply B4|]. by intros ->.
  - by rewrite Hc, B5, app_assoc.
  - congruence.
Qed.

Lemma named_strip g g' n y : strip <$> g' y = strip <$> g y -> named g n y -> named g' n y.
Proof.
  intros H (e & He & Hn). rewrite He in H. unfold named. destruct (g' y) as [e'|]; [|done]. exists e'. split; [done|].
  apply (inj Some), (f_equal so_name) in H. cbn in H. congruence.
Qed.

(** What is expected of find_library: a library of that name that is linked, or none. *)
Definition find_post (s : lstate) (L O : list Z) (held : Z -> list Z) (n : list Z) (r : Z) (s' : lstate) : Prop :=
  exists L' F' O' held' On, linv perm s' L' F' O' [] held' hd [] /\ grows NULL s L O held s' L' O' held' On /\
    (r = NULL /\ live (lib s') O' [] \/ r <> NULL /\ r ∈ O' /\ named (lib s') n r /\ live (lib s') O' [r]).

Definition find_ok (find : lstate -> list Z -> cres (Z * lstate)) (k : Z) : Prop := forall s L F O held n,
  linv perm s L F O [] held hd [] -> live (lib s) O [] -> SO_MAX + 2 <= k + Z.of_nat (length L) ->
  exists r s', find s n = CVal (r, s') /\ find_post s L O held n r s'.

(** A reference is counted. *)
Lemma count_ref s L F O held si y :
  linv perm s L F O [] held hd [] -> si ∈ L -> si ∉ O -> Z.of_nat (length (held si)) < MAX_NEEDED -> y ∈ O ->
  live (lib s) O [y] ->
  exists s', supd s y (fun e => set_refcount e (u32 (so_refcount e + 1))) = CVal s' /\
    linv perm s' L F O [] (upd held si (held si ++ [y])) hd [] /\ live (lib s') O [] /\
    grows si s L O held s' L O (upd held si (held si ++ [y])) [].
Proof.
  intros [P I] Hsi HO Hl Hy Hlive. pose proof (O_in I y Hy) as HyL.
  destruct (supd_ok s L F y (fun e => set_refcount e (u32 (so_refcount e + 1))) P HyL)
    as (s' & e & -> & P' & He & Hl' & Hx & Hbm & Ht); [done..|].
  pose proof (ref_range I y e Hy He) as Hr. rewrite u32_small in Hl' by lia. exists s'. split; [done|]. split; [|split].
  - split; [done|]. rewrite Hbm. apply (lib_ok_hold I (lib s') y si e); try done. intros x _ H. by apply Hx.
  - intros x e' Hx' _ E. destruct (decide (x = y)) as [->|Hne].
    + rewrite Hl' in E. injection E as <-. cbn. lia.
    + rewrite Hx in E by done. apply (Hlive x e' Hx'); [|done]. by rewrite list_elem_of_singleton.
  - split; try done.
    + exists []. by rewrite app_nil_r.
    + by rewrite app_nil_r.
    + by intros x H%not_elem_of_nil.
    + intros x _ H. by apply upd_ne.
    + intros x _ H. apply Hx. by intros ->.
    + intros x _. destruct (decide (x = y)) as [->|]; [by rewrite Hl', He|by rewrite Hx].
    + by rewrite Ht, app_nil_r.
    + by rewrite Ht.
Qed.

Lemma link_needed_spec find k si names : find_ok find k -> forall s L F O held,
  linv perm s L F O [] held hd [] -> live (lib s) O [] -> SO_MAX + 2 <= k + Z.of_nat (length L) ->
  si ∈ L -> si ∉ O -> Z.of_nat (length (held si) + length names) <= MAX_NEEDED ->
  exists ok s' L' F' O' held' On ys, link_needed find s names = CVal (ok, s') /\
    linv perm s' L' F' O' [] held' hd [] /\ live (lib s') O' [] /\ grows si s L O held s' L' O' held' On /\
    held' si = held si ++ ys /\ (ok = true -> Forall2 (named (lib s')) names ys).
Proof.
  intros Hfind. induction names as [|n names IH]; intros s L F O held Hi Hlive Hk Hsi HO Hl.
  { exists true, s, L, F, O, held, [], []. rewrite app_nil_r. split_and!; try done.
    split; try done; rewrite ?app_nil_r; try done; [by exists []; rewrite app_nil_r|by intros x H%not_elem_of_nil]. }
  cbn [link_needed length] in *.
  destruct (Hfind s L F O held n Hi Hlive Hk) as (r & s1 & -> & L1 & F1 & O1 & h1 & On1 & Hi1 & G1 & Hr). cbn [mbind cres_bind].
  assert (si <> NULL) as HsN. { destruct Hi as [P _]. apply (pool_nonnull s L F si P). set_solver. }
  assert (h1 si = held si) as Hh1 by (by apply (gr_held _ _ _ _ _ _ _ _ _ _ G1)).
  assert (grows si s L O held s1 L1 O1 h1 On1) as G1'.
  { destruct G1 as [A1 A2 A3 A4 A5 A6 A7 A8]. split; try done. intros x H _. apply A4; [done|].
    intros ->. destruct Hi as [P _]. apply (pool_nonnull s L F NULL P); [set_solver|done]. }
  destruct Hr as [[-> Hlive1]|(HrN & HrO & Hnm & Hlive1)].
  { zif. exists false, s1, L1, F1, O1, h1, On1, []. rewrite app_nil_r. by split_and!. }
  zif. destruct (gr_L _ _ _ _ _ _ _ _ _ _ G1) as [Ln EL].
  assert (si ∈ L1) as Hsi1 by (rewrite EL; set_solver).
  assert (si ∉ O1) as HO1.
  { rewrite (gr_O _ _ _ _ _ _ _ _ _ _ G1). intros [H|H]%elem_of_app; [done|]. by apply (gr_new _ _ _ _ _ _ _ _ _ _ G1 si). }
  destruct (count_ref s1 L1 F1 O1 h1 si r Hi1 Hsi1 HO1) as (s2 & -> & Hi2 & Hlive2 & G2); [rewrite Hh1; lia|done|done|].
  cbn [mbind cres_bind]. set (h2 := upd h1 si (h1 si ++ [r])) in *.
  assert (h2 si = held si ++ [r]) as Hh2 by (unfold h2; by rewrite upd_eq, Hh1).
  destruct (IH s2 L1 F1 O1 h2 Hi2 Hlive2) as (ok & s3 & L3 & F3 & O3 & h3 & On3 & ys & -> & Hi3 & Hlive3 & G3 & Hh3 & HF); try done.
  { rewrite EL, length_app. lia. }
  { rewrite Hh2, length_app. cbn [length]. lia. }
  exists ok, s3, L3, F3, O3, h3, ((On1 ++ []) ++ On3), (r :: ys). split_and!; try done.
  - eapply grows_trans; [|exact G3]. by eapply grows_trans.
  - by rewrite Hh3, Hh2, <- app_assoc.
  - intros Hok. constructor; [|by apply HF]. assert (r ∈ L1) as HrL by (by apply (O_in (proj2 Hi1))).
    apply (named_strip (lib s2)); [by apply (gr_strip _ _ _ _ _ _ _ _ _ _ G3)|].
    apply (named_strip (lib s1)); [by apply (gr_strip _ _ _ _ _ _ _ _ _ _ G2)|done].
Qed.

Lemma linked_ready e :
  truthy (Z.land (so_flags e) FLAG_ERROR) = false -> 47 ∉ so_name e -> ready (set_flags e (Z.lor (so_flags e) FLAG_LINKED)).
Proof.
  intros H1 H2. split_and!; cbn; [| |done].
  - rewrite Z.land_lor_distr_l. change (Z.land FLAG_LINKED FLAG_ERROR) with 0. by rewrite Z.lor_0_r.
  - apply truthy_ne. intros H. apply (f_equal (fun z => Z.testbit z 0)) in H. rewrite Z.land_spec, Z.lor_spec, Z.bits_0 in H.
    change (Z.testbit FLAG_LINKED 0) with true in H. by destruct (Z.testbit (so_flags e) 0).
Qed.

(** A library that is about to be linked. *)
Definition pending (n : list Z) (e : soinfo) : Prop :=
  so_name e = bname n /\ truthy (Z.land (so_flags e) FLAG_ERROR) = false /\ truthy (Z.land (so_flags e) FLAG_LINKED) = false /\
  so_refcount e = 0 /\
  (so_dynamic e = DynUnset \/ exists d, so_dynamic e = DynAt d /\ Z.of_nat (length (needed (so_tables e) d)) <= MAX_NEEDED).

(** Its dynamic section has not been read, and has no entry sizes of zero. *)
Definition sizes_ok (d : list (Z * Z)) : Prop := forall tag v, (tag, v) ∈ d -> tag = DT_RELENT \/ tag = DT_RELAENT -> v <> 0.
Definition unread (e : soinfo) : Prop := so_dt e = ∅ /\ forall d, so_dynamic e = DynAt d -> sizes_ok d.

Lemma until_null_in d x : x ∈ until_null d -> x ∈ d.
Proof.
  induction d as [|[tag v] d IH]; [done|]. cbn. destruct (tag =? 0); [by intros H%not_elem_of_nil|].
  intros [->|H]%elem_of_cons; [left|right; by apply IH].
Qed.

Lemma parse_sizes base d : forall dt dt', parse_dynamic base d dt = Some dt' -> sizes_ok d ->
  (forall tag v, tag = DT_RELENT \/ tag = DT_RELAENT -> dt !! tag = Some v -> v <> 0) ->
  forall tag v, tag = DT_RELENT \/ tag = DT_RELAENT -> dt' !! tag = Some v -> v <> 0.
Proof.
  induction d as [|[t v0] d IH]; intros dt dt' E Hs Hdt; cbn [parse_dynamic] in E; [by injection E as <-|].
  destruct (_ && _)%bool; [done|]. apply (IH _ _ E); [intros tag v H; apply Hs; by right|]. intros tag v Htag Hv.
  destruct (dt_store base t v0) as [x|] eqn:Ex; [|by apply (Hdt tag v)]. destruct (decide (t = tag)) as [->|Hne].
  - rewrite lookup_insert_eq in Hv. injection Hv as <-. assert (x = v0) as ->.
    { unfold dt_store in Ex. rewrite bool_decide_false, bool_decide_true in Ex; [by injection Ex| |];
        destruct Htag as [->| ->]; apply (bool_decide_unpack _); vm_compute; exact I. }
    apply (Hs tag); [left|done].
  - rewrite lookup_insert_ne in Hv by done. by apply (Hdt tag v).
Qed.

Lemma parse_counts e d dt : unread e -> so_dynamic e = DynAt d ->
  parse_dynamic (so_base e) (until_null d) (so_dt e) = Some dt -> rel_counts_ok dt = true.
Proof.
  intros [Hdt Hd] He E. rewrite Hdt in E.
  assert (forall tag v, tag = DT_RELENT \/ tag = DT_RELAENT -> dt !! tag = Some v -> v <> 0) as H.
  { apply (parse_sizes _ _ _ _ E); [|by intros tag v _ H%lookup_empty_Some].
    intros tag v H. apply (Hd d He). by apply until_null_in. }
  unfold rel_counts_ok, rel_ent, rela_ent. apply andb_true_iff. split; apply negb_true_iff, andb_false_iff; right; apply Z.eqb_neq.
  - destruct (dt !! DT_RELENT) as [v|] eqn:Ev; [|done]. apply (H DT_RELENT v); [by left|done].
  - destruct (dt !! DT_RELAENT) as [v|] eqn:Ev; [|done]. apply (H DT_RELAENT v); [by right|done].
Qed.

Lemma pending_not_ready n e : pending n e -> ~ ready e.
Proof. intros (_ & _ & H & _) (_ & H' & _). congruence. Qed.

(** The end of link_image: the library [si] is linked, or marked. *)
Definition link_post (s : lstate) (L O : list Z) (held : Z -> list Z) (n : list Z) (si r : Z) (s' : lstate) : Prop :=
  exists L' F' O' held' On, linv perm s' L' F' O' [] held' hd [] /\ grows NULL s L O held s' L' O' held' On /\
    (r = -1 /\ live (lib s') O' [] /\ si ∈ L' \/
     r = 0 /\ si ∈ O' /\ named (lib s') n si /\ live (lib s') O' [si]).

Lemma link_fail_spec s0 L O held n si s L' F' O' held' On e :
  grows NULL s0 L O held s L' O' held' On -> linv perm s L' F' O' [] held' hd [] -> live (lib s) O' [] ->
  si ∉ L -> si ∈ L' -> si ∉ O' -> lib s si = Some e ->
  exists r s', link_fail s si = CVal (r, s') /\ link_post s0 L O held n si r s'.
Proof.
  intros G Hi Hlive HsL HsL' HsO He. unfold link_fail.
  destruct (linv_edit s L' F' O' [] held' [] si (fun e => set_flags e (Z.lor (so_flags e) FLAG_ERROR)) e)
    as (s' & -> & Hi' & Hl' & (Hx & Hc & Hd) & _); try done; [right; apply error_not_ready|]. cbn [mbind cres_bind].
  exists (-1), s'. split; [done|]. exists L', F', (O' ++ []), held', (On ++ []). split_and!.
  - by rewrite app_nil_r.
  - apply (grows_local si s0 L O held s L' O' held' On); try done; [by intros x H%not_elem_of_nil|by rewrite app_nil_r].
  - left. split_and!; try done. intros x e' H1 H2 E. rewrite app_nil_r in H1. rewrite Hx in E by (by intros ->).
    by apply (Hlive x e').
Qed.

Lemma link_done_spec s0 L O held n si s L' F' O' held' On e d :
  grows NULL s0 L O held s L' O' held' On -> linv perm s L' F' O' [] held' hd [] -> live (lib s) O' [] ->
  si ∉ L -> si ∈ L' -> si ∉ O' -> lib s si = Some e -> pending n e -> so_dynamic e = DynAt d ->
  Forall2 (named (lib s)) (needed (so_tables e) d) (held' si) ->
  exists s', supd s si (fun e => set_flags e (Z.lor (so_flags e) FLAG_LINKED)) = CVal s' /\
    link_post s0 L O held n si 0 (emit s' (ECtor si)).
Proof.
  intros G [P I] Hlive HsL HsL' HsO He (Hn & He1 & He2 & Hrc & _) Hd HF.
  destruct (supd_ok s L' F' si (fun e => set_flags e (Z.lor (so_flags e) FLAG_LINKED)) P HsL')
    as (s' & e1 & -> & P' & E1 & Hl & Hx & Hbm & Ht); [done..|]. rewrite He in E1. injection E1 as <-.
  exists s'. split; [done|]. exists L', F', (O' ++ [si]), held', (On ++ [si]). split_and!.
  - apply linv_emit. split; [done|]. rewrite Hbm. apply (lib_ok_link I (lib s') si (set_flags e (Z.lor (so_flags e) FLAG_LINKED)) d); try done.
    + by intros H%not_elem_of_nil.
    + by rewrite He.
    + apply linked_ready; [done|]. rewrite Hn. apply bname_slashless.
    + unfold blk. by rewrite Hl, He.
    + intros H. apply (lo_placed I si e HsL' H He).
    + intros x _ H. by apply Hx.
  - apply (grows_local si s0 L O held s L' O' held' On); try done; [by intros x ->%list_elem_of_singleton|..].
    + cbn [emit trace]. by rewrite ctors_app, Ht.
    + cbn [emit trace]. by rewrite dtors_app, Ht, app_nil_r.
  - right. split_and!; [done|set_solver|by exists (set_flags e (Z.lor (so_flags e) FLAG_LINKED))|].
    intros x e' [H1|H1]%elem_of_app H2 E; [|done]. change (lib (emit s' (ECtor si))) with (lib s') in E.
    rewrite Hx in E by (intros ->; done). apply (Hlive x e'); [done|by intros H%not_elem_of_nil|done].
Qed.

Lemma grows_add si s L O held s1 h1 :
  si ∉ L -> keeps L s s1 -> (forall x, x ∈ L -> h1 x = held x) -> grows NULL s L O held s1 (L ++ [si]) O h1 [].
Proof.
  intros H1 H2 H3. apply (grows_new si s L O held s1 h1); [done..|]. split; try done.
  - exists []. by rewrite app_nil_r.
  - by rewrite app_nil_r.
  - by intros x H%not_elem_of_nil.
  - by rewrite app_nil_r.
Qed.

Lemma link_image_spec find k s L F O held n si e :
  find_ok find k -> linv perm s (L ++ [si]) F O [] held hd [] -> live (lib s) O [] ->
  SO_MAX + 2 <= k + Z.of_nat (length (L ++ [si])) -> si ∉ L -> held si = [] -> lib s si = Some e -> pending n e -> unread e ->
  exists r s', link_image w find s si = CVal (r, s') /\ link_post s L O held n si r s'.
Proof.
  intros Hfind Hi Hlive Hk HsL Hh He Hp Hun. assert (si ∈ L ++ [si]) as Hsi by set_solver.
  assert (si ∉ O) as HsO.
  { intros H. destruct (O_get (proj2 Hi) si H) as (e' & E & Hr). rewrite He in E. injection E as <-. by apply (pending_not_ready n e). }
  pose proof (grows_add si s L O held s held HsL ltac:(done) ltac:(done)) as G0.
  unfold link_image. destruct (sget_ok s (L ++ [si]) F si (proj1 Hi) Hsi) as (x & e' & -> & E' & Hxe). rewrite He in E'.
  injection E' as <-. cbn [mbind cres_bind]. replace (so_dynamic x) with (so_dynamic e) by (by rewrite <- Hxe).
  replace (so_base x) with (so_base e) by (by rewrite <- Hxe). replace (so_dt x) with (so_dt e) by (by rewrite <- Hxe).
  replace (so_tables x) with (so_tables e) by (by rewrite <- Hxe).
  pose proof Hp as (Hn & He1 & He2 & Hrc & Hdyn). destruct Hdyn as [->|(d & Hdd & Hlen)]; [by eapply link_fail_spec|]. rewrite Hdd.
  destruct (parse_dynamic _ _ _) as [dt|] eqn:Edt; [|by eapply link_fail_spec].
  rewrite (parse_counts e d dt Hun Hdd Edt).
  destruct (linv_edit s (L ++ [si]) F O [] held [] si (fun e => set_dt e dt (so_tables e)) e)
    as (s1 & -> & Hi1 & Hl1 & Hloc1 & _); try done; [right; by apply (pending_not_ready n)|]. cbn [mbind cres_bind].
  assert (live (lib s1) O []) as Hlive1.
  { intros y e1 Hy1 Hy2 E. rewrite (proj1 Hloc1) in E by (by intros ->). by apply (Hlive y e1). }
  pose proof (local_keeps L si s s1 HsL Hloc1) as K1.
  pose proof (grows_add si s L O held s1 held HsL K1 ltac:(done)) as G1.
  cbn [negb]. destruct (_ || _)%bool; [by eapply link_fail_spec|].
  destruct (link_needed_spec find k si (needed (so_tables e) d) Hfind s1 (L ++ [si]) F O held Hi1 Hlive1 Hk Hsi HsO)
    as (ok & s2 & L2 & F2 & O2 & h2 & On2 & ys & -> & Hi2 & Hlive2 & G2 & Hh2 & HF); [rewrite Hh; cbn; lia|].
  cbn [mbind cres_bind]. destruct (gr_L _ _ _ _ _ _ _ _ _ _ G2) as [Ln EL].
  assert (si ∈ L2) as HsL2 by (rewrite EL; set_solver).
  assert (si ∉ O2) as HsO2.
  { rewrite (gr_O _ _ _ _ _ _ _ _ _ _ G2). intros [H|H]%elem_of_app; [done|]. by apply (gr_new _ _ _ _ _ _ _ _ _ _ G2 si). }
  assert (lib s2 si = Some (set_dt e dt (so_tables e))) as Hl2 by (by rewrite (gr_lib _ _ _ _ _ _ _ _ _ _ G2)).
  pose proof (grows_new si s L O held s1 held s2 L2 O2 h2 On2 HsL K1 ltac:(done) G2) as G.
  destruct ok; cbn [negb]; [|by eapply link_fail_spec].
  destruct (w_reloc w s2 si); cbn [negb]; [|by eapply link_fail_spec].
  destruct (link_done_spec s L O held n si s2 L2 F2 O2 h2 On2 (set_dt e dt (so_tables e)) d) as (s3 & -> & Hpost); try done.
  - cbn. rewrite Hh2, Hh. by apply HF.
  - cbn [mbind cres_bind]. eauto.
Qed.

(** ** find_library and dlopen *)

(** The files that can be loaded have a bounded number of DT_NEEDED entries, and no
    entry sizes of zero. *)
Context (Hworld : forall n hdr im, w_open w n = Some (hdr, im) ->
  Z.of_nat (length (needed (im_tables im) (im_dynamic im))) <= MAX_NEEDED /\ sizes_ok (im_dynamic im)).

Lemma loaded_pending n e : loaded n e -> pending n e /\ unread e.
Proof.
  intros (Hn & Hf & Hr & Hdt & Hd). split.
  2: { split; [done|]. intros d E. destruct Hd as [Hd|(hdr & im & Eo & Hd & _)]; [congruence|].
       rewrite Hd in E. injection E as <-. by apply (Hworld n hdr im). }
  unfold pending. rewrite Hf. split_and!; try done. destruct Hd as [->|(hdr & im & E & Hd & Ht)]; [by left|].
  right. exists (im_dynamic im). rewrite Ht. split; [done|]. by apply (Hworld n hdr im).
Qed.

Lemma grows_base s L O held s1 h1 s' L' O' held' On :
  keeps L s s1 -> (forall x, x ∈ L -> h1 x = held x) -> grows NULL s1 L O h1 s' L' O' held' On -> grows NULL s L O held s' L' O' held' On.
Proof.
  intros (K1 & K2 & K3) Hh [B0 -> B1 B2 B3 B4 B5 B6]. split; try done.
  - intros x H H2. by rewrite B2, Hh.
  - intros x H H2. by rewrite B3, K1.
  - intros x H. by rewrite B4, K1.
  - by rewrite B5, K2.
  - by rewrite B6, K3.
Qed.

Lemma live_keeps s s1 L F O held : linv perm s L F O [] held hd [] -> keeps L s s1 -> live (lib s) O [] -> live (lib s1) O [].
Proof.
  intros [_ I] (K & _) H y e Hy Hy2 E. rewrite K in E by (by apply (O_in I)). by apply (H y e).
Qed.

Lemma init_library_spec find k s L F O held n si e :
  find_ok find k -> linv perm s (L ++ [si]) F O [] held hd [] -> live (lib s) O [] ->
  SO_MAX + 2 <= k + Z.of_nat (length (L ++ [si])) -> si <> NULL -> si ∉ L -> held si = [] -> lib s si = Some e -> loaded n e ->
  exists r s', init_library w find s si = CVal (r, s') /\ find_post s L O held n r s'.
Proof.
  intros Hfind Hi Hlive Hk HsN HsL Hh He Hld. assert (si ∈ L ++ [si]) as Hsi by set_solver.
  pose proof (loaded_pending n e Hld) as [Hp Hun]. pose proof Hld as (_ & Hf & _).
  assert (si ∉ O) as HsO.
  { intros H. destruct (O_get (proj2 Hi) si H) as (e' & E & Hr). rewrite He in E. injection E as <-. by apply (pending_not_ready n e). }
  unfold init_library. destruct (sget_ok s (L ++ [si]) F si (proj1 Hi) Hsi) as (x & e' & -> & E' & Hxe). rewrite He in E'.
  injection E' as <-. cbn [mbind cres_bind].
  assert (exists s1 e1, (if (so_base x <? LIBBASE) || (LIBLAST <=? so_base x)
      then supd s si (fun e => set_flags e (Z.lor (so_flags e) FLAG_PRELINKED)) else CVal s) = CVal s1 /\
      linv perm s1 (L ++ [si]) F O [] held hd [] /\ local si s s1 /\ lib s1 si = Some e1 /\ pending n e1 /\ unread e1)
    as (s1 & e1 & -> & Hi1 & Hloc & Hl1 & Hp1 & Hun1).
  { destruct (_ || _)%bool; [|by exists s, e].
    assert (pending n (set_flags e (Z.lor (so_flags e) FLAG_PRELINKED))) as Hp1.
    { unfold pending in *. cbn in *. rewrite Hf in *. tauto. }
    destruct (linv_edit s (L ++ [si]) F O [] held [] si (fun e => set_flags e (Z.lor (so_flags e) FLAG_PRELINKED)) e)
      as (s1 & -> & Hi1 & Hl1 & Hloc & _); try done; [right; by apply (pending_not_ready n)|]. eauto 10. }
  cbn [mbind cres_bind]. pose proof (local_keeps L si s s1 HsL Hloc) as K.
  assert (live (lib s1) O []) as Hlive1.
  { intros y e2 Hy1 Hy2 E. rewrite (proj1 Hloc) in E by (by intros ->). by apply (Hlive y e2). }
  destruct (link_image_spec find k s1 L F O held n si e1) as (r & s2 & -> & L' & F' & O' & h' & On & Hi2 & G & Hr); try done.
  cbn [mbind cres_bind]. pose proof (grows_base s L O held s1 held s2 L' O' h' On K ltac:(done) G) as G'.
  destruct Hr as [(-> & Hlive2 & Hsi2)|(-> & Hsi2 & Hnm & Hlive2)]; cbn [Z.eqb negb].
  - destruct (sget_ok s2 L' F' si (proj1 Hi2) Hsi2) as (x2 & e2 & -> & _). cbn [mbind cres_bind].
    exists NULL, (emit s2 (EUnmap (so_base x2) (so_size x2))). split; [done|]. exists L', F', O', h', On.
    split_and!; [by apply linv_emit| |by left]. destruct G' as [A1 A2 A3 A4 A5 A6 A7 A8]. split; try done.
    + rewrite <- A7. cbn [emit trace]. rewrite ctors_app. by rewrite app_nil_r.
    + rewrite <- A8. cbn [emit trace]. rewrite dtors_app. by rewrite app_nil_r.
  - exists si, s2. split; [done|]. exists L', F', O', h', On. split_and!; [done..|]. by right.
Qed.

Lemma grows_refl s L O held s1 h1 :
  keeps L s s1 -> (forall x, x ∈ L -> h1 x = held x) -> grows NULL s L O held s1 L O h1 [].
Proof.
  intros K Hh. apply (grows_base s L O held s1 h1); [done..|]. split; try done.
  - exists []. by rewrite app_nil_r.
  - by rewrite app_nil_r.
  - by intros x H%not_elem_of_nil.
  - by rewrite app_nil_r.
Qed.

Lemma find_library_ok f : find_ok (find_library w f) (Z.of_nat f).
Proof.
  induction f as [|f IH]; intros s L F O held n Hi Hlive Hk; pose proof (lo_len (proj2 Hi)) as Hlen; [lia|].
  cbn [find_library].
  assert (forall s1 F1 h1, linv perm s1 L F1 O [] h1 hd [] -> keeps L s s1 -> (forall x, x ∈ L -> h1 x = held x) ->
    exists r s', CVal (NULL, s1) = CVal (r, s') /\ find_post s L O held n r s') as Hnull.
  { intros s1 F1 h1 Hi1 K Hh. exists NULL, s1. split; [done|]. exists L, F1, O, h1, [].
    split_and!; [done|by apply grows_refl|]. left. split; [done|]. by apply (live_keeps s s1 L F O held). }
  destruct (by_name_spec s (bname n) list_fuel solist L) as [(x & e & -> & Hx & HxN & He & Hn)|[-> Hno]];
    [apply (po_list _ _ _ (proj1 Hi))|unfold list_fuel; lia| |]; cbn [mbind cres_bind].
  - zif. destruct (sget_ok s L F x (proj1 Hi) Hx) as (y & e' & -> & E' & Hxe). rewrite He in E'. injection E' as <-.
    cbn [mbind cres_bind]. replace (so_flags y) with (so_flags e) by (by rewrite <- Hxe).
    destruct (truthy (Z.land (so_flags e) FLAG_ERROR)) eqn:E1; [by eapply Hnull|].
    destruct (truthy (Z.land (so_flags e) FLAG_LINKED)) eqn:E2; [|by eapply Hnull].
    exists x, s. split; [done|]. exists L, F, O, held, []. split_and!; [done|by apply grows_refl|]. right.
    split_and!; try done.
    + apply (lo_ready (proj2 Hi)). split_and!; [done|by intros H%not_elem_of_nil|]. exists e. split_and!; try done.
      split_and!; [done|done|rewrite Hn; apply bname_slashless].
    + by exists e.
    + intros z e' Hz _ E. apply (Hlive z e' Hz); [by intros H%not_elem_of_nil|done].
  - rewrite Z.eqb_refl. cbn [negb].
    destruct (load_library_spec s L F O held n Hi Hno) as (r & s1 & -> & K & F1 & h1 & Hh & Hr). cbn [mbind cres_bind].
    destruct Hr as [[-> Hi1]|(HrN & HrL & Hhr & Hi1 & e & He & Hld)]; [rewrite Z.eqb_refl; by eapply Hnull|]. zif.
    destruct (init_library_spec (find_library w f) (Z.of_nat f) s1 L F1 O h1 n r e) as (r' & s2 & -> & Hpost); try done.
    + by apply (live_keeps s s1 L F O held).
    + rewrite length_app. cbn [length]. lia.
    + exists r', s2. split; [done|]. destruct Hpost as (L' & F' & O' & h' & On & Hi2 & G & Hr).
      exists L', F', O', h', On. split_and!; try done. by apply (grows_base s L O held s1 h1).
Qed.

(** A library that is linked is found as it is. *)
Lemma find_hit f s L F O U held ex n y :
  linv perm s L F O U held hd ex -> y ∈ O -> named (lib s) n y -> find_library w (S f) s n = CVal (y, s).
Proof.
  intros [P I] Hy (e & He & Hn). pose proof (O_in I y Hy) as HyL. pose proof (lo_len I) as Hlen. cbn [find_library].
  destruct (by_name_spec s (bname n) list_fuel solist L) as [(x & e' & -> & Hx & HxN & He' & Hn')|[_ Hno]];
    [apply (po_list _ _ _ P)|unfold list_fuel; lia| |by destruct (Hno y e HyL He)].
  assert (x = y) as -> by (apply (lo_names I x y e' e); [done..|congruence]). rewrite He in He'. injection He' as <-.
  cbn [mbind cres_bind]. zif. destruct (sget_ok s L F y P HyL) as (z & e' & -> & E' & Hxe). rewrite He in E'. injection E' as <-.
  cbn [mbind cres_bind]. replace (so_flags z) with (so_flags e) by (by rewrite <- Hxe).
  destruct (O_get I y Hy) as (e1 & E1 & H1 & H2 & _). rewrite He in E1. injection E1 as <-. by rewrite H1, H2.
Qed.

(** dlopen: the library of that name, with one handle more, or none. *)
Definition open_post (s : lstate) (L O : list Z) (held : Z -> list Z) (n : list Z) (r : Z) (s' : lstate) : Prop :=
  exists L' F' O' held' On, linv perm s' L' F' O' [] held' (if r =? NULL then hd else upd hd r (hd r + 1)) [] /\
    live (lib s') O' [] /\ grows NULL s L O held s' L' O' held' On /\ (r <> NULL -> r ∈ O' /\ named (lib s') n r).

Lemma grows_count s L O held s1 L1 O1 h1 On r s2 e v :
  grows NULL s L O held s1 L1 O1 h1 On -> r ∈ O1 -> lib s1 r = Some e -> lib s2 r = Some (set_refcount e v) ->
  (forall b, b <> r -> lib s2 b = lib s1 b) -> trace s2 = trace s1 -> grows NULL s L O held s2 L1 O1 h1 On.
Proof.
  intros [A1 A2 A3 A4 A5 A6 A7 A8] Hr He Hl Hx Ht. split; try done; [| |by rewrite Ht..].
  - intros x H1 H2. rewrite Hx; [by apply A5|]. intros ->. rewrite A2 in Hr. apply elem_of_app in Hr as [Hr|Hr]; [done|].
    by apply (A3 r).
  - intros x H1. rewrite <- A6 by done. destruct (decide (x = r)) as [->|]; [by rewrite Hl, He|by rewrite Hx].
Qed.

Lemma dlopen_spec s L F O held n :
  linv perm s L F O [] held hd [] -> live (lib s) O [] -> (forall y, hd y + 1 < 2 ^ 31) ->
  exists r s', dlopen w s n = CVal (r, s') /\ open_post s L O held n r s'.
Proof.
  intros Hi Hlive Hhd. unfold dlopen.
  destruct (find_library_ok find_fuel s L F O held n Hi Hlive) as (r & s1 & -> & L1 & F1 & O1 & h1 & On & Hi1 & G & Hr).
  { unfold find_fuel, SO_MAX. lia. }
  cbn [mbind cres_bind]. destruct Hr as [[-> Hlive1]|(HrN & HrO & Hnm & Hlive1)].
  { rewrite Z.eqb_refl. exists NULL, s1. split; [done|]. exists L1, F1, O1, h1, On. by split_and!. }
  zif. pose proof (O_in (proj2 Hi1) r HrO) as HrL. pose proof Hi1 as [P I].
  destruct (supd_ok s1 L1 F1 r (fun e => set_refcount e (u32 (so_refcount e + 1))) P HrL)
    as (s2 & e & -> & P' & He & Hl' & Hx & Hbm & Ht); [done..|].
  pose proof (ref_range I r e HrO He) as Hrr. rewrite u32_small in Hl' by lia. cbn [mbind cres_bind].
  exists r, s2. split; [done|]. exists L1, F1, O1, h1, On. zif. split_and!.
  - split; [done|]. rewrite Hbm. apply (lib_ok_handle I (lib s2) r e); try done. intros x _ H. by apply Hx.
  - intros x e' Hx' _ E. destruct (decide (x = r)) as [->|Hne].
    + rewrite Hl' in E. injection E as <-. cbn. lia.
    + rewrite Hx in E by done. apply (Hlive1 x e' Hx'); [|done]. by rewrite list_elem_of_singleton.
  - by apply (grows_count s L O held s1 L1 O1 h1 On r s2 e (so_refcount e + 1)).
  - intros _. split; [done|]. apply (named_strip (lib s1)); [|done]. by rewrite Hl', He.
Qed.
End Load.
