(* ===== verification/LinkerUnload.v ===== *)
(** * Unloading of libraries keeps the invariant

    unload_library and dlclose: the libraries whose last reference goes are destroyed,
    and nothing else. *)

From Stdlib Require Import ZArith Lia.
From stdpp Require Import base gmap list numbers sets.
From S2P Require Import Prelude Links Buddy Elf Linker LinkerPool LinkerInv LinkerLoad.

Open Scope Z_scope.

(** A list without the libraries that are gone. *)
Definition rm (gone l : list Z) : list Z := filter (fun x => x ∉ gone) l.

Lemma rm_in gone l x : x ∈ rm gone l <-> x ∈ l /\ x ∉ gone.
Proof. unfold rm. rewrite list_elem_of_filter. tauto. Qed.

Lemma rm_nil l : rm [] l = l.
Proof.
  induction l as [|x l IH]; [done|]. unfold rm. rewrite filter_cons_True; [|by intros H%not_elem_of_nil]. by f_equal.
Qed.

Lemma rm_app gone l1 l2 : rm gone (l1 ++ l2) = rm gone l1 ++ rm gone l2.
Proof. unfold rm. apply filter_app. Qed.

Lemma rm_rm g1 g2 l : rm g2 (rm g1 l) = rm (g1 ++ g2) l.
Proof. unfold rm. rewrite list_filter_filter. apply list_filter_iff. intros x. rewrite elem_of_app. tauto. Qed.

Lemma rm_length gone l : (length (rm gone l) <= length l)%nat.
Proof. unfold rm. apply length_filter. Qed.

Lemma rm_out gone l : (forall x, x ∈ l -> x ∉ gone) -> rm gone l = l.
Proof.
  induction l as [|x l IH]; intros H; [done|]. unfold rm. rewrite filter_cons_True by (apply H; left).
  f_equal. apply IH. intros y Hy. apply H. by right.
Qed.

Lemma rm_one l1 x l2 : NoDup (l1 ++ x :: l2) -> rm [x] (l1 ++ x :: l2) = l1 ++ l2.
Proof.
  intros N. rewrite <- Permutation_middle in N. apply list.NoDup_cons in N as [N _]. rewrite rm_app. unfold rm at 2.
  rewrite filter_cons_False by set_solver. fold (rm [x] l2). rewrite !rm_out; [done|set_solver|set_solver].
Qed.

Section Unload.
Context (w : world) (perm : list Z) (hd : Z -> Z).

(** The libraries [gone] were destroyed, in that order. *)
Record shrinks (s : lstate) (L O : list Z) (held : Z -> list Z) (s' : lstate) (held' : Z -> list Z) (gone : list Z) : Prop := {
  sh_held : forall x, x ∈ L -> x ∉ gone -> held' x = held x;
  sh_lib : forall x, x ∈ L -> x ∉ O -> lib s' x = lib s x;
  sh_strip : forall x, x ∈ L -> x ∉ gone -> strip <$> lib s' x = strip <$> lib s x;
  sh_gone : forall x, x ∈ gone -> x ∈ O;
  sh_nodup : NoDup gone;
  sh_ctors : ctors (trace s') = ctors (trace s);
  sh_dtors : dtors (trace s') = dtors (trace s) ++ gone
}.

Lemma shrinks_trans s L O held s1 h1 g1 s2 h2 g2 :
  (forall x, x ∈ O -> x ∈ L) -> shrinks s L O held s1 h1 g1 -> shrinks s1 (rm g1 L) (rm g1 O) h1 s2 h2 g2 ->
  shrinks s L O held s2 h2 (g1 ++ g2).
Proof.
  intros HOL [A1 A2 A3 A4 A5 A6 A7] [B1 B2 B3 B4 B5 B6 B7]. split.
  - intros x H1 H2. rewrite B1, A1; [done|done|set_solver|rewrite rm_in; set_solver|set_solver].
  - intros x H1 H2. assert (x ∉ g1) by (intros H; by apply H2, A4). rewrite B2, A2; [done|done|done|rewrite rm_in; done|].
    rewrite rm_in. tauto.
  - intros x H1 H2. rewrite B3, A3; [done|done|set_solver|rewrite rm_in; set_solver|set_solver].
  - intros x [H|H]%elem_of_app; [by apply A4|]. apply B4, rm_in in H. tauto.
  - apply list.NoDup_app. split_and!; [done| |done]. intros x H H2. apply B4, rm_in in H2. tauto.
  - congruence.
  - by rewrite B7, A7, app_assoc.
Qed.

(** unload_library of a library with a reference that is being released. *)
Definition unload_post (s : lstate) (L O U : list Z) (held : Z -> list Z) (ex : list Z) (pre : list Z) (s' : lstate) : Prop :=
  exists F' held' gone, linv perm s' (rm gone L) F' (rm gone O) U held' hd ex /\ live (lib s') (rm gone O) [] /\
    shrinks s L O held s' held' gone /\ gone ⊆ pre.

Definition unload_ok (f : nat) : Prop := forall s L F U held ex si pre post,
  linv perm s L F (pre ++ si :: post) U held hd (si :: ex) -> live (lib s) (pre ++ si :: post) [] -> (length pre < f)%nat ->
  exists s', unload_library w f s si = CVal s' /\ unload_post s L (pre ++ si :: post) U held ex (pre ++ [si]) s'.

Lemma unload_needed_spec f : unload_ok f -> forall ns ys s L F pre post U held ex,
  Forall2 (named (lib s)) ns ys -> linv perm s L F (pre ++ post) U held hd (ys ++ ex) -> live (lib s) (pre ++ post) [] ->
  ys ⊆ pre -> (length pre <= f)%nat ->
  exists s', unload_needed w (unload_library w f) s ns = CVal s' /\ unload_post s L (pre ++ post) U held ex pre s'.
Proof.
  intros Hun. induction ns as [|n ns IH]; intros ys s L F pre post U held ex HF Hi Hlive Hys Hf.
  { apply Forall2_nil_inv_l in HF as ->. exists s. split; [done|]. exists F, held, []. rewrite !rm_nil.
    split_and!; try done. split; try done; [by intros x H%not_elem_of_nil|apply NoDup_nil_2|by rewrite app_nil_r]. }
  apply Forall2_cons_inv_l in HF as (y & ys' & Hn & HF & ->). cbn [unload_needed].
  assert (y ∈ pre) as Hy by (apply Hys; left). change find_fuel with (S 257).
  rewrite (find_hit w perm hd 257 s L F (pre ++ post) U held ((y :: ys') ++ ex) n y Hi); [|set_solver|done].
  cbn [mbind cres_bind]. assert (y <> NULL) as HyN.
  { apply (pool_nonnull s L F y (proj1 Hi)). apply elem_of_app. left. apply (O_in (proj2 Hi)). set_solver. }
  zif. destruct (list_elem_of_split pre y Hy) as (p1 & p2 & Ep).
  assert (pre ++ post = p1 ++ y :: (p2 ++ post)) as EO by (by rewrite Ep, <- app_assoc).
  assert (forall x, x ∈ pre ++ post -> x ∈ L) as HOL by (intros x; apply (O_in (proj2 Hi))).
  destruct (Hun s L F U held (ys' ++ ex) y p1 (p2 ++ post)) as (s1 & -> & F1 & h1 & g1 & Hi1 & Hlive1 & S1 & Hg1).
  { rewrite <- EO. exact Hi. }
  { by rewrite <- EO. }
  { apply (f_equal length) in Ep. rewrite length_app in Ep. cbn [length] in Ep. lia. }
  cbn [mbind cres_bind]. rewrite <- EO in Hi1, Hlive1, S1.
  assert (g1 ⊆ pre) as Hg1' by (clear -Hg1 Ep; subst pre; set_solver).
  rewrite rm_app in Hi1, Hlive1. pose proof (lo_ex (proj2 Hi1)) as Hex.
  assert (forall z, z ∈ ys' -> z ∈ pre /\ z ∉ g1) as Hz.
  { intros z H. split; [apply Hys; by right|]. assert (z ∈ rm g1 pre ++ rm g1 post) as Hin by (apply Hex; set_solver).
    rewrite elem_of_app, !rm_in in Hin. tauto. }
  destruct (IH ys' s1 (rm g1 L) F1 (rm g1 pre) (rm g1 post) U h1 ex) as (s2 & -> & F2 & h2 & g2 & Hi2 & Hlive2 & S2 & Hg2); try done.
  - apply (Forall2_weaken _ _ _ _ HF). intros a z H. apply named_strip, (sh_strip _ _ _ _ _ _ _ S1); [|by apply Hz].
    apply HOL. destruct (Hz z H). set_solver.
  - intros z H. by apply rm_in, Hz.
  - pose proof (rm_length g1 pre). lia.
  - rewrite <- rm_app in Hi2, Hlive2, S2. rewrite rm_rm in Hlive2.
    rewrite (rm_rm g1 g2 L), (rm_rm g1 g2 (pre ++ post)) in Hi2. exists s2. split; [done|]. exists F2, h2, (g1 ++ g2). split_and!; [done..| |].
    + by apply (shrinks_trans s L (pre ++ post) held s1 h1 g1).
    + intros x [H|H]%elem_of_app; [by apply Hg1'|]. apply Hg2, rm_in in H. tauto.
Qed.

(** The end of unload_library: the block and the structure are given back. *)
Lemma unload_end s L1 si L2 F O U held ex e :
  linv perm s (L1 ++ si :: L2) F O (si :: U) held hd ex -> held si = [] -> si ∉ U -> lib s si = Some e -> si <> LIBDL ->
  exists s', (s ← (if 0 <=? so_ba_index e then bm ← ba_free (so_ba_index e) (ba_bitmap s); CVal (with_bitmap s bm) else CVal s);
              s ← free_info s si; supd s si (fun e => set_refcount e 0)) = CVal s' /\
    linv perm s' (L1 ++ L2) (si :: F) O U held hd ex /\ (forall x, x <> si -> lib s' x = lib s x) /\ trace s' = trace s.
Proof.
  intros Hi Hh HU He Hdl. pose proof Hi as [P I]. pose proof (lo_nodup I) as N.
  assert (si ∉ O) as HO by (intros (_ & H & _)%(lo_ready I); set_solver).
  assert (si ∉ L1 ++ L2) as HsL by (rewrite <- Permutation_middle in N; by apply list.NoDup_cons in N as [N _]).
  assert (exists s1, (if 0 <=? so_ba_index e then bm ← ba_free (so_ba_index e) (ba_bitmap s); CVal (with_bitmap s bm) else CVal s) = CVal s1 /\
    pool_ok s1 (L1 ++ si :: L2) F /\ (forall x, lib s1 x = lib s x) /\ trace s1 = trace s /\
    ba_ok (ba_bitmap s1) (omap (blk (lib s)) (L1 ++ L2))) as (s1 & -> & P1 & Hl1 & Ht1 & Hb1).
  { destruct (Z.leb_spec 0 (so_ba_index e)) as [Hb|Hb].
    - destruct (free_block perm hd s F O (si :: U) held ex L1 si L2 e (mkBlock (so_ba_index e) (ba_order (so_size e)) true) Hi HO He)
        as (bm & -> & Hok); [unfold blk; rewrite He; zif; cbn; unfold blk_of; by zif|].
      exists (with_bitmap s bm). split_and!; try done. by apply pool_bitmap.
    - exists s. split_and!; try done. pose proof (lo_ba I) as Hba. refine (ba_ok_perm _ _ _ _ Hba).
      rewrite blocks_at. unfold blk at 1. rewrite He. zif. cbn. unfold blk_of. by zif. }
  cbn [mbind cres_bind]. destruct (free_info_spec s1 L1 si L2 F P1 Hdl) as (s2 & -> & P2 & Hl2 & Hbm2 & Ht2). cbn [mbind cres_bind].
  destruct (supd_lib s2 si (fun e => set_refcount e 0)) as (s3 & -> & N3 & B3 & C1 & C2 & C3 & C4 & C5); [|done..|].
  { apply (pool_in s2 (L1 ++ L2) (si :: F) si P2). set_solver. }
  assert (forall x, x <> si -> lib s3 x = lib s x) as Hx3 by (intros x H; rewrite B3; zif; by rewrite Hl2, Hl1).
  exists s3. split; [done|]. split_and!; [|done|congruence]. split.
  - apply (pool_frame s2); try done. intros b. rewrite B3. destruct (Z.eqb_spec b si) as [->|]; [|done].
    by destruct (lib s2 si).
  - apply (lib_ok_remove I (lib s3) (ba_bitmap s3) L1 si L2 U); try done.
    + intros x H. apply Hx3. by intros ->.
    + intros x H. rewrite elem_of_cons. split; [|by right]. intros [->|]; [|done]. by destruct HsL.
    + by rewrite C4, Hbm2.
Qed.

Lemma unload_library_ok f : unload_ok f.
Proof.
  induction f as [|f IH]; intros s L F U held ex si pre post Hi Hlive Hf; [lia|]. cbn [unload_library].
  set (O := pre ++ si :: post) in *. pose proof Hi as [P I]. assert (si ∈ O) as HsO by (unfold O; set_solver).
  pose proof (O_in I si HsO) as HsL. destruct (sget_ok s L F si P HsL) as (x & e & -> & He & Hxe). cbn [mbind cres_bind].
  replace (so_refcount x) with (so_refcount e) by (by rewrite <- Hxe). replace (so_dynamic x) with (so_dynamic e) by (by rewrite <- Hxe).
  replace (so_tables x) with (so_tables e) by (by rewrite <- Hxe).
  pose proof (ref_range I si e HsO He) as Hr. pose proof (Hlive si e HsO ltac:(by intros H%not_elem_of_nil) He) as Hr1.
  destruct (Z.eqb_spec (so_refcount e) 1) as [Hr2|Hr2].
  - set (s0 := emit s (EDtor si)). destruct (lib_ok_dying I (lib s0) si e pre post ex) as (Hp & Hh & Hex & Hheld & I0); try done.
    destruct (lo_deps I si e HsO Hp He) as (d & -> & HF).
    assert (linv perm s0 L F (pre ++ post) (si :: U) (upd held si []) hd (held si ++ ex)) as Hi0 by (split; [by apply pool_emit|done]).
    assert (NoDup (pre ++ si :: post)) as N by (apply I).
    assert (si ∉ pre ++ post) as HsO' by (rewrite <- Permutation_middle in N; by apply list.NoDup_cons in N as [N _]).
    assert (si ∉ U) as HsU by (by apply (lo_ready I) in HsO as (_ & ? & _)).
    assert (si <> LIBDL) as Hdl by (intros ->; by apply Hp, (lo_perm I)).
    destruct (unload_needed_spec f IH (needed (so_tables e) d) (held si) s0 L F pre post (si :: U) (upd held si []) ex HF Hi0)
      as (s1 & -> & F1 & h1 & g1 & Hi1 & Hlive1 & S1 & Hg1); [|done|lia|].
    { intros y e' H1 H2 E. apply (Hlive y e'); [unfold O; set_solver|done|done]. }
    cbn [mbind cres_bind]. assert (si ∉ g1) as Hsg by set_solver.
    destruct (list_elem_of_split (rm g1 L) si) as (L1 & L2 & EL); [by rewrite rm_in|].
    assert (rm (si :: g1) L = L1 ++ L2) as EL'.
    { change (si :: g1) with ([si] ++ g1). rewrite <- (rm_one L1 si L2); [|rewrite <- EL; apply (lo_nodup (proj2 Hi1))].
      rewrite <- EL, !rm_rm. unfold rm. apply list_filter_iff. set_solver. }
    assert (rm (si :: g1) O = rm g1 (pre ++ post)) as EO'.
    { change (si :: g1) with ([si] ++ g1). rewrite <- rm_rm. f_equal. by apply rm_one. }
    rewrite EL in Hi1. assert (lib s1 si = Some e) as He1 by (by rewrite (sh_lib _ _ _ _ _ _ _ S1)).
    destruct (sget_ok s1 (L1 ++ si :: L2) F1 si (proj1 Hi1)) as (x1 & e1 & -> & E1 & Hxe1); [set_solver|]. rewrite He1 in E1.
    injection E1 as <-. cbn [mbind cres_bind]. replace (so_ba_index x1) with (so_ba_index e) by (by rewrite <- Hxe1).
    set (s1' := emit s1 _).
    destruct (unload_end s1' L1 si L2 F1 (rm g1 (pre ++ post)) U h1 ex e) as (s2 & -> & Hi2 & Hl2 & Ht2); try done.
    { by apply linv_emit. }
    { rewrite (sh_held _ _ _ _ _ _ _ S1) by done. apply upd_eq. }
    exists s2. split; [done|]. exists (si :: F1), h1, (si :: g1). rewrite EL', EO'. split_and!; [done| | |].
    + intros y e' H1 H2 E. rewrite Hl2 in E by (intros ->; by apply rm_in in H1 as [H1 _]). by apply (Hlive1 y e').
    + destruct S1 as [A1 A2 A3 A4 A5 A6 A7]. split.
      * intros y H1 H2. rewrite A1, upd_ne; [done|set_solver|done|set_solver].
      * intros y H1 H2. rewrite Hl2 by (by intros ->). apply A2; [done|]. intros H. apply H2. unfold O. set_solver.
      * intros y H1 H2. rewrite Hl2 by set_solver. apply A3; set_solver.
      * intros y [->|H]%elem_of_cons; [done|]. apply A4 in H. unfold O. set_solver.
      * by apply list.NoDup_cons.
      * rewrite Ht2. unfold s1'. cbn [emit trace]. rewrite ctors_app, A6. unfold s0. cbn [emit trace]. by rewrite ctors_app, !app_nil_r.
      * rewrite Ht2. unfold s1'. cbn [emit trace]. rewrite dtors_app, A7. unfold s0. cbn [emit trace]. rewrite dtors_app, app_nil_r.
        by rewrite <- app_assoc.
    + intros y [->|H]%elem_of_cons; [set_solver|]. apply Hg1 in H. set_solver.
  - destruct (supd_ok s L F si (fun e => set_refcount e (u32 (so_refcount e - 1))) P HsL)
      as (s' & e' & -> & P' & E' & Hl' & Hx & Hbm & Ht); [done..|]. rewrite He in E'. injection E' as <-.
    rewrite u32_small in Hl' by lia. exists s'. split; [done|]. exists F, held, []. rewrite !rm_nil. split_and!.
    + split; [done|]. rewrite Hbm. apply (lib_ok_unref I (lib s') si e ex); try done. intros y _ H. by apply Hx.
    + intros y e' H1 H2 E. destruct (decide (y = si)) as [->|Hne]; [rewrite Hl' in E; injection E as <-; cbn; lia|].
      rewrite Hx in E by done. by apply (Hlive y e').
    + split; try done; [|..|by intros y H%not_elem_of_nil|apply NoDup_nil_2|by rewrite Ht|by rewrite Ht, app_nil_r].
      * intros y H1 H2. apply Hx. by intros ->.
      * intros y H1 _. destruct (decide (y = si)) as [->|]; [by rewrite Hl', He|by rewrite Hx].
    + by intros y H%not_elem_of_nil.
Qed.
End Unload.
