(* ===== verification/LinkerSpec.v ===== *)
(** * What dlopen and dlclose guarantee

    The states of a process whose executable has been linked, and the theorems on
    dlopen, dlclose and the address space. *)

From Stdlib Require Import ZArith Lia.
From stdpp Require Import base gmap list numbers sets.
From S2P Require Import Prelude Links Buddy Elf Linker LinkerPool LinkerInv LinkerLoad LinkerUnload.

Open Scope Z_scope.

(** [L] are the libraries, [O] those that are linked, in the order in which they were
    linked, and [hd] the handles from outside; the libraries [perm] of the executable
    keep one each. *)
Definition dl_ok (perm : list Z) (s : lstate) (hd : Z -> Z) (L O : list Z) : Prop :=
  exists F held, linv perm s L F O [] held hd [] /\ live (lib s) O [].

(** The files have at most 65536 dependencies, and no relocation entries of size 0. *)
Definition wf_world (w : world) : Prop := forall n hdr im, w_open w n = Some (hdr, im) ->
  Z.of_nat (length (needed (im_tables im) (im_dynamic im))) <= MAX_NEEDED /\ sizes_ok (im_dynamic im).


(** ** Blocks of different libraries *)






(** ** One call *)



Lemma dlclose_ok (w : world) (perm : list Z) (s : lstate) (hd : Z -> Z) (L O : list Z) (h : Z) :
  dl_ok perm s hd L O -> h ∈ O -> (if bool_decide (h ∈ perm) then 2 else 1) <= hd h ->
  exists s' gone, dlclose w s h = CVal s' /\
    dl_ok perm s' (upd hd h (hd h - 1)) (rm gone L) (rm gone O) /\
    ctors (trace s') = ctors (trace s) /\ dtors (trace s') = dtors (trace s) ++ gone /\ NoDup gone /\
    gone ⊆ O /\ (forall x, x ∈ L -> x ∉ gone -> strip <$> lib s' x = strip <$> lib s x).
Proof.
  intros (F & held & [P I] & Hlive) Hh Hhd. destruct (list_elem_of_split O h Hh) as (pre & post & EO).
  pose proof (lib_ok_close I h Hh Hhd eq_refl) as I'. rewrite EO in I', Hlive.
  destruct (unload_library_ok w perm (upd hd h (hd h - 1)) find_fuel s L F [] held [] h pre post) as (s' & E & F' & h' & gone & Hi' & Hlive' & S & _);
    [done|done| |].
  { assert (length (pre ++ h :: post) <= length L)%nat as Hle.
    { apply submseteq_length, NoDup_submseteq; [rewrite <- EO; apply I|]. intros x Hx. apply (O_in I). by rewrite EO. }
    rewrite length_app in Hle. cbn [length] in Hle. pose proof (lo_len I). unfold find_fuel, SO_MAX in *. lia. }
  rewrite <- EO in Hi', Hlive', S. destruct S as [A1 A2 A3 A4 A5 A6 A7]. exists s', gone. split_and!; try done. by exists F', h'.
Qed.

(** ** Runs of calls *)











(** C10: dlopen.  From a state that is in order dlopen terminates without invalid
    accesses, with the linker's structures in order again.  It returns NULL or a
    linked library of that name, which it counts; a library that was linked before
    is found again and nothing is loaded.  The new libraries [On] are linked after
    those they need, and the constructors of each run once, in that order; none is
    unloaded. *)
Theorem dlopen_loads (w : world) (perm : list Z) (s : lstate) (hd : Z -> Z) (L O : list Z) (n : list Z) :
  wf_world w -> dl_ok perm s hd L O -> (forall y, hd y + 1 < 2 ^ 31) ->
  exists r s' Ln On, dlopen w s n = CVal (r, s') /\
    dl_ok perm s' (if r =? NULL then hd else upd hd r (hd r + 1)) (L ++ Ln) (O ++ On) /\
    ctors (trace s') = ctors (trace s) ++ On /\ dtors (trace s') = dtors (trace s) /\
    (r <> NULL -> r ∈ O ++ On /\ named (lib s') n r) /\
    (forall y, y ∈ O -> named (lib s) n y -> r = y /\ On = []).
Proof.
  intros Hw (F & held & Hi & Hlive) Hhd.
  destruct (dlopen_spec w perm hd Hw s L F O held n Hi Hlive Hhd) as (r & s' & E & L' & F' & O' & h' & On & Hi' & Hlive' & G & Hr).
  destruct G as [[Ln ->] -> _ _ _ _ Hc Hd]. exists r, s', Ln, On. split_and!; try done; [by exists F', h'|].
  intros y Hy Hn. unfold dlopen in E. change find_fuel with (S 257) in E.
  rewrite (find_hit w perm hd 257 s L F O [] held [] n y Hi Hy Hn) in E. cbn [mbind cres_bind] in E.
  pose proof (O_in (proj2 Hi) y Hy) as HyL. assert (y <> NULL) as HyN by (apply (pool_nonnull s L F y (proj1 Hi)); set_solver).
  destruct (Z.eqb_spec y NULL) as [|_]; [done|].
  destruct (supd_ok s L F y (fun e => set_refcount e (u32 (so_refcount e + 1))) (proj1 Hi) HyL) as (s1 & e & E1 & _ & _ & _ & _ & _ & Ht);
    [done..|]. rewrite E1 in E. cbn [mbind cres_bind] in E. injection E as <- <-. split; [done|].
  rewrite Ht in Hc. rewrite <- (app_nil_r (ctors (trace s))) in Hc at 1. by apply app_inv_head in Hc.
Qed.

(** C11: dlclose.  With a handle from dlopen (for a library of the executable one
    beyond its own) dlclose terminates without invalid accesses and leaves the
    linker's structures in order: it gives up the handle and unloads libraries [gone]
    that nothing refers to any more, none of which has a handle or belongs to the
    executable; the destructors of each run once, in that order, and every library
    that stays linked is still referenced. *)
Theorem dlclose_unloads (w : world) (perm : list Z) (s : lstate) (hd : Z -> Z) (L O : list Z) (h : Z) :
  dl_ok perm s hd L O -> h ∈ O -> (if bool_decide (h ∈ perm) then 2 else 1) <= hd h ->
  exists s' gone, dlclose w s h = CVal s' /\
    dl_ok perm s' (upd hd h (hd h - 1)) (rm gone L) (rm gone O) /\
    ctors (trace s') = ctors (trace s) /\ dtors (trace s') = dtors (trace s) ++ gone /\ NoDup gone /\
    (forall x, x ∈ gone -> x ∈ O /\ x ∉ perm /\ upd hd h (hd h - 1) x = 0) /\
    (forall x, x ∈ L -> x ∉ gone -> strip <$> lib s' x = strip <$> lib s x).
Proof.
  intros Hok Hh Hhd. destruct (dlclose_ok w perm s hd L O h Hok Hh Hhd) as (s' & gone & E & Hok' & Hc & Hd & Hg & Hs & Hl).
  exists s', gone. split_and!; try done. destruct Hok' as (F' & h' & [_ I'] & _).
  intros x Hx. split; [by apply Hs|]. assert (x ∉ rm gone O) as Hout by (rewrite rm_in; tauto). split.
  - intros Hp. by apply Hout, (lo_perm I').
  - by apply (lo_hd I' x).
Qed.

(** ** A process and its libraries *)

Lemma pool_dom n a : (list_to_map ((fun k => (k, zero_so)) <$> seqZ 1 n) : gmap Z soinfo) !! a = if bool_decide (1 <= a < 1 + n) then Some zero_so else None.
Proof.
  case_bool_decide as H.
  - apply elem_of_list_to_map_1.
    + rewrite <- list_fmap_compose, (list_fmap_ext _ id); [rewrite list_fmap_id; apply NoDup_seqZ|done].
    + apply list_elem_of_fmap. exists a. split; [done|]. by apply elem_of_seqZ.
  - apply not_elem_of_list_to_map_1. intros (k & -> & Hk)%list_elem_of_fmap. apply list_elem_of_fmap in Hk as (j & -> & Hj).
    apply elem_of_seqZ in Hj. by apply H.
Qed.

(** The executable /a, libdl.so and libc.so, which the buddy allocator placed, and
    for which there are k - 1 handles. *)
Definition name_dl : list Z := [108; 105; 98; 100; 108; 46; 115; 111].
Definition name_c : list Z := [108; 105; 98; 99; 46; 115; 111].
Definition so_1 : soinfo := mkSo name_dl FLAG_LINKED 0 0 0 NULL 1 DynNull ∅ no_tables.
Definition so_2 : soinfo := mkSo [47; 97] 5 0 0x2000 (-1) NULL 0 (DynAt []) ∅ no_tables.
Definition so_3 (k : Z) : soinfo := mkSo name_c FLAG_LINKED LIBBASE 0x80000 0 NULL k (DynAt []) ∅ no_tables.
Definition sample_pool (k : Z) : gmap Z soinfo :=
  <[1 := set_next so_1 2]> (<[2 := set_next so_2 3]> (<[3 := so_3 k]> (list_to_map ((fun k => (k, zero_so)) <$> seqZ 1 257)))).
Definition sample_bitmap : bitmap := match ba_allocate 0x80000 bitmap1 with CVal (_, bm) => bm | _ => [] end.
Definition sample_state (k : Z) : lstate := mkL (sample_pool k) 2 NULL 3 sample_bitmap [].
Definition sample_hd (k x : Z) : Z := if x =? 1 then 1 else if x =? 3 then k else 0.

Ltac in_cases H :=
  repeat (apply elem_of_cons in H; destruct H as [H|H]; [subst|]); try (by apply not_elem_of_nil in H).

Ltac use_lib H :=
  match type of H with ?x = Some _ => match goal with E : x = Some _ |- _ => first [constr_eq E H; fail 1|rewrite E in H; injection H as <-] end end.

Lemma sample_pool_ok k : pool_ok (sample_state k) [1; 2; 3] [].
Proof.
  split; try done.
  - cbn [lchain]. split_and!; try done. exists 2. split_and!; try done. exists 3. split_and!; try done. by exists 0.
  - apply (bool_decide_unpack _). vm_compute. exact I.
  - intros a. rewrite app_nil_r, !elem_of_cons. unfold LIBDL. cbn [socount sample_state].
    split; [intros [->|[->|[->|H%not_elem_of_nil]]]; lia|]. intros H. assert (a = 1 \/ a = 2 \/ a = 3) by lia. tauto.
  - intros a. cbn [pool sample_state]. unfold sample_pool, SO_MAX. rewrite !lookup_insert_is_Some, pool_dom.
    case_bool_decide as H; [|split; [|lia]; intros [H1|(_ & [H1|(_ & [H1|(_ & [? H1])])])]; [lia..|done]].
    split; [lia|]. intros _. destruct (decide (1 = a)); [by left|right; split; [done|]]. destruct (decide (2 = a)); [by left|right; split; [done|]].
    destruct (decide (3 = a)); [by left|right; split; [done|]]. done.
  - left.
Qed.

Lemma sample_lib k : lib (sample_state k) 1 = Some so_1 /\ lib (sample_state k) 2 = Some so_2 /\ lib (sample_state k) 3 = Some (so_3 k).
Proof.
  unfold lib. cbn [pool sample_state]. unfold sample_pool. rewrite lookup_insert_eq.
  rewrite (lookup_insert_ne _ 1 2), (lookup_insert_ne _ 1 3), (lookup_insert_ne _ 2 3), !lookup_insert_eq by done. done.
Qed.

Lemma sample_lib_ok g k :
  1 <= k < 2 ^ 31 -> g 1 = Some so_1 -> g 2 = Some so_2 -> g 3 = Some (so_3 k) ->
  lib_ok [1; 3] g sample_bitmap [1; 2; 3] [1; 3] [] (fun _ => []) (sample_hd k) [] /\ live g [1; 3] [].
Proof.
  intros Hk E1 E2 E3. split.
  2: { intros y e Hy _ E. in_cases Hy; use_lib E; cbn; lia. }
  assert (all_held [1; 2; 3] (fun _ => []) = []) as Hall by done.
  split.
  - intros x Hx. in_cases Hx; eauto.
  - apply (bool_decide_unpack _). vm_compute. exact I.
  - done.
  - intros x y e e' Hx Hy E E' En. in_cases Hx; in_cases Hy; use_lib E; use_lib E'; done.
  - intros x. split.
    + intros Hx. in_cases Hx; (split_and!; [set_solver|by intros H%not_elem_of_nil|]); eexists; (split; [eassumption|]);
        (split_and!; [done..|]); apply (bool_decide_unpack _); vm_compute; exact I.
    + intros (Hx & _ & e & E & _ & _ & Hs). in_cases Hx; [left|use_lib E; exfalso; apply Hs; left|right; left].
  - apply (bool_decide_unpack _). vm_compute. exact I.
  - intros pre x post _. set_solver.
  - intros x _. split; [set_solver|done].
  - set_solver.
  - intros x e Hx Hp. done.
  - intros y e Hy E. rewrite Hall. in_cases Hy; use_lib E; reflexivity || (cbn; unfold sample_hd; cbn; rewrite ?cnt_nil; lia).
  - by rewrite Hall.
  - intros y. unfold sample_hd. split; [repeat case_match; lia|]. intros Hy. destruct (Z.eqb_spec y 1) as [->|]; [set_solver|].
    destruct (Z.eqb_spec y 3) as [->|]; [set_solver|done].
  - split_and!; [done|left|]. intros y Hy. in_cases Hy; unfold sample_hd; cbn; lia.
  - assert (omap (blk (g)) [1; 2; 3] = [mkBlock 0 0 true]) as ->.
    { cbn [omap list_omap]. unfold blk. rewrite E1, E2, E3. reflexivity. }
    destruct (ba_allocate_spec bitmap1 [] 0x80000 (proj2 ba_init_ok) ltac:(lia)) as (r & bm & E & H).
    assert (r = 0) as ->.
    { apply (f_equal (fun v => match v with CVal (x, _) => x | _ => -1 end)) in E. rewrite <- E. vm_compute. reflexivity. }
    assert (sample_bitmap = bm) as -> by (unfold sample_bitmap; by rewrite E).
    destruct H as [(H & _)|(_ & _ & _ & _ & H)]; [done|]. exact H.
  - intros x e Hx Hd E. in_cases Hx; [done| |]; use_lib E; [intros H; by cbn in H|]. intros _. split_and!; vm_compute; done.
  - exists 3. split; [set_solver|]. unfold blk. rewrite E3. by eexists.
Qed.

Lemma sample_dl_ok k : 1 <= k < 2 ^ 31 -> dl_ok [1; 3] (sample_state k) (sample_hd k) [1; 2; 3] [1; 3].
Proof.
  intros Hk. destruct (sample_lib k) as (E1 & E2 & E3). destruct (sample_lib_ok (lib (sample_state k)) k Hk E1 E2 E3) as [H1 H2].
  exists [], (fun _ => []). split; [|exact H2]. split; [apply sample_pool_ok|exact H1].
Qed.

(** Files: a needs b and libc.so, b needs libc.so, e needs b and a file that does not
    exist. *)
Definition sample_header : header :=
  mkHeader [0x7f; 69; 76; 70] true [mkPhdr PT_LOAD 0 0 0x1000 0x1000 5; mkPhdr PT_DYNAMIC 0x800 0x800 0x40 0x40 6] 0.
Definition sample_strtab (o : Z) : list Z := if o =? 1 then [98] else if o =? 2 then name_c else [122].
Definition sample_image (l : list Z) : image :=
  mkImage ([(DT_STRTAB, 0x100); (DT_SYMTAB, 0x200)] ++ map (fun o => (DT_NEEDED, o)) l ++ [(0, 0)]) (mkTables 1 [0] [0] [] sample_strtab).
Definition sample_world : world :=
  mkWorld (fun n => if bool_decide (n = [97]) then Some (sample_header, sample_image [1; 2])
                    else if bool_decide (n = [98]) then Some (sample_header, sample_image [2])
                    else if bool_decide (n = [101]) then Some (sample_header, sample_image [1; 3]) else None)
    (fun _ _ _ => true) (fun _ _ _ => true) (fun _ _ => true).

Lemma sample_wf : wf_world sample_world.
Proof.
  intros n hdr im. cbn [w_open sample_world]. repeat case_bool_decide; [..|done]; intros [= <- <-]; (split; [vm_compute; discriminate|]);
    intros tag v Hin Htag; repeat (apply elem_of_cons in Hin as [[= -> ->]|Hin]; [by destruct Htag|]); by apply not_elem_of_nil in Hin.
Qed.

Lemma sample_hd_bound y : 0 <= sample_hd 1 y <= 1.
Proof. unfold sample_hd. repeat case_match; lia. Qed.



Lemma dlopen_loads_witness :
  exists r s' Ln On, dlopen sample_world (sample_state 1) [97] = CVal (r, s') /\
    dl_ok [1; 3] s' (if r =? NULL then sample_hd 1 else upd (sample_hd 1) r (sample_hd 1 r + 1)) ([1; 2; 3] ++ Ln) ([1; 3] ++ On) /\
    ctors (trace s') = ctors (trace (sample_state 1)) ++ On /\ dtors (trace s') = dtors (trace (sample_state 1)) /\
    (r <> NULL -> r ∈ [1; 3] ++ On /\ named (lib s') [97] r) /\
    (forall y, y ∈ [1; 3] -> named (lib (sample_state 1)) [97] y -> r = y /\ On = []).
Proof.
  apply (dlopen_loads sample_world [1; 3] (sample_state 1) (sample_hd 1) [1; 2; 3] [1; 3] [97] sample_wf (sample_dl_ok 1 ltac:(lia))).
  intros y. pose proof (sample_hd_bound y). lia.
Defined.

(** dlopen of a, and dlclose of its handle. *)
Definition sample_run : cres (Z * lstate * lstate) :=
  '(r, s) ← dlopen sample_world (sample_state 1) [97]; s' ← dlclose sample_world s r; CVal (r, s, s').

(** b is linked before a, and unloaded after it. *)
Lemma sample_run_trace :
  match sample_run with
  | CVal (r, s, s') => r = 4 /\ ctors (trace s) = [5; 4] /\ dtors (trace s') = [4; 5]
  | _ => False
  end.
Proof. vm_compute. split_and!; reflexivity. Qed.

(** The counts and flags of some libraries. *)
Definition summary (s : lstate) (l : list Z) : list (option (Z * Z * Z)) :=
  map (fun x => (fun e => (so_flags e, so_refcount e, so_ba_index e)) <$> lib s x) l.

Definition failed_state : lstate :=
  match dlopen sample_world (sample_state 1) [101] with CVal (_, s) => s | _ => (sample_state 1) end.

(** When a library cannot be linked it stays in the list, marked, with its block of
    the address space, which has been unmapped, and with its references: its
    dependency b stays loaded though nobody has a handle, and the library cannot be
    loaded again, even when the missing file is there. *)
Lemma failed_link_leaks :
  dlopen sample_world (sample_state 1) [101] = CVal (NULL, failed_state) /\
  summary failed_state [4; 5] = [Some (FLAG_ERROR, 0, 1); Some (FLAG_LINKED, 1, 2)] /\
  last (trace failed_state) = Some (EUnmap 0x80100000 0x1000) /\
  forall w, dlopen w failed_state [101] = CVal (NULL, failed_state).
Proof. split_and!; [vm_compute; reflexivity..|]. intros w. vm_compute. reflexivity. Qed.

(** A process without a library that needs libdl.so: closing the only handle on it
    reads its dynamic section through NULL. *)
Lemma close_libdl_undefined w : dlclose w (sample_state 1) LIBDL = CUndef.
Proof. vm_compute. reflexivity. Qed.

Lemma dlclose_unloads_witness :
  exists s' gone, dlclose sample_world (sample_state 2) 3 = CVal s' /\
    dl_ok [1; 3] s' (upd (sample_hd 2) 3 (sample_hd 2 3 - 1)) (rm gone [1; 2; 3]) (rm gone [1; 3]) /\
    ctors (trace s') = ctors (trace (sample_state 2)) /\ dtors (trace s') = dtors (trace (sample_state 2)) ++ gone /\ NoDup gone /\
    (forall x, x ∈ gone -> x ∈ [1; 3] /\ x ∉ [1; 3] /\ upd (sample_hd 2) 3 (sample_hd 2 3 - 1) x = 0) /\
    (forall x, x ∈ [1; 2; 3] -> x ∉ gone -> strip <$> lib s' x = strip <$> lib (sample_state 2) x).
Proof.
  apply (dlclose_unloads sample_world [1; 3] (sample_state 2) (sample_hd 2) [1; 2; 3] [1; 3] 3).
  - apply sample_dl_ok. lia.
  - right. left.
  - vm_compute. discriminate.
Defined.
