(* ===== verification/LinkerSym.v ===== *)
(** * Symbols, addresses, constructors and paths (linker/linker.c, dlfcn.c)

    The search for a symbol through the libraries, dlsym, the library of an address,
    the calls of constructors and destructors, and the search for a file. *)

From Stdlib Require Import ZArith Lia.
From stdpp Require Import base gmap list numbers sets.
From S2P Require Import Prelude Links Elf Linker LinkerPool LinkerInv LinkerLoad LinkerSpec.

Open Scope Z_scope.

(** ** The search through the libraries *)

(** for (si = solist; s == NULL && si != NULL; si = si->next): libraries that could
    not be linked and [user_si] are skipped.  The symbol and *base. *)
Fixpoint lookup_loop (fuel : nat) (s : lstate) (user_si : Z) (name : list Z) (elf_hash si : Z) : cres (option (Elf32_Sym * Z)) :=
  match fuel with
  | O => CFuel
  | S f =>
      if si =? NULL then CVal None
      else
        e ← sget s si;
        if truthy (Z.land (so_flags e) FLAG_ERROR) || (si =? user_si) then lookup_loop f s user_si name elf_hash (so_next e)
        else
          '(r, elf_hash) ← _do_lookup_in_so (so_tables e) name elf_hash;
          match r with
          | Some sym => CVal (Some (sym, so_base e))
          | None => lookup_loop f s user_si name elf_hash (so_next e)
          end
  end.

Definition _do_lookup (s : lstate) (user_si : Z) (name : list Z) : cres (option (Elf32_Sym * Z)) :=
  if user_si =? NULL then lookup_loop list_fuel s user_si name 0 solist
  else
    e ← sget s user_si;
    '(r, elf_hash) ← _do_lookup_in_so (so_tables e) name 0;
    match r with
    | Some sym => CVal (Some (sym, so_base e))
    | None => lookup_loop list_fuel s user_si name elf_hash solist
    end.

Definition _do_lookup_non_local (s : lstate) (user_si : Z) (name : list Z) : cres (option (Elf32_Sym * Z)) :=
  if user_si =? NULL then CVal None else lookup_loop list_fuel s user_si name 0 solist.

Definition lookup_symbol (s : lstate) (name : list Z) : cres (option (Elf32_Sym * Z)) := _do_lookup s NULL name.

(** ** dlsym *)

Definition DL_ERR_CANNOT_LOAD_LIBRARY : Z := 1.
Definition DL_ERR_INVALID_LIBRARY_HANDLE : Z := 2.
Definition DL_ERR_BAD_SYMBOL_NAME : Z := 3.
Definition DL_ERR_SYMBOL_NOT_FOUND : Z := 4.
Definition DL_ERR_SYMBOL_NOT_GLOBAL : Z := 5.
Definition RTLD_DEFAULT : Z := 0xffffffff.
Definition RTLD_NEXT : Z := 0xfffffffe.

(** The address and the error that set_dlerror reports, 0 for none. *)
Definition dlsym (s : lstate) (handle : Z) (symbol : option (list Z)) : cres (Z * Z) :=
  if handle =? 0 then CVal (0, DL_ERR_INVALID_LIBRARY_HANDLE)
  else
    match symbol with
    | None => CVal (0, DL_ERR_BAD_SYMBOL_NAME)
    | Some name =>
        r ← (if (handle =? RTLD_DEFAULT) || (handle =? RTLD_NEXT) then lookup_symbol s name
             else e ← sget s handle; sym ← lookup_in_library (so_tables e) name; CVal (option_map (fun x => (x, so_base e)) sym));
        match r with
        | Some (sym, base) =>
            if (ELF32_ST_BIND (st_info sym) =? STB_GLOBAL) && negb (st_shndx sym =? 0) then CVal (u32 (st_value sym + base), 0)
            else CVal (0, DL_ERR_SYMBOL_NOT_GLOBAL)
        | None => CVal (0, DL_ERR_SYMBOL_NOT_FOUND)
        end
    end.

(** The pending error message, as its number, is returned once. *)
Definition dlerror (dl_err_str : Z) : Z * Z := (dl_err_str, 0).

(** ** Addresses *)

(** for (si = solist; ...) if addr is in the library *)
Fixpoint addr_loop (fuel : nat) (s : lstate) (addr si : Z) : cres Z :=
  match fuel with
  | O => CFuel
  | S f =>
      if si =? NULL then CVal NULL
      else
        e ← sget s si;
        if (so_base e <=? addr) && (addr <? u32 (so_base e + so_size e)) then CVal si else addr_loop f s addr (so_next e)
  end.

(** "linker" *)
Definition name_linker : list Z := [108; 105; 110; 107; 101; 114].
Definition addr_to_name (LINKER_BASE LINKER_TOP : Z) (s : lstate) (addr : Z) : cres (list Z) :=
  si ← addr_loop list_fuel s addr solist;
  if negb (si =? NULL) then e ← sget s si; CVal (so_name e)
  else if (LINKER_BASE <=? addr) && (addr <? LINKER_TOP) then CVal name_linker
  else CVal [].

(** dl_iterate_phdr: the callback gets one library after the other until it returns
    something else than 0; [A] is its data. *)
Fixpoint iterate_loop {A} (fuel : nat) (s : lstate) (cb : soinfo -> A -> Z * A) (data : A) (rv si : Z) : cres (Z * A) :=
  match fuel with
  | O => CFuel
  | S f =>
      if si =? NULL then CVal (rv, data)
      else
        e ← sget s si;
        let '(rv, data) := cb e data in
        if negb (rv =? 0) then CVal (rv, data) else iterate_loop f s cb data rv (so_next e)
  end.
Definition dl_iterate_phdr {A} (s : lstate) (cb : soinfo -> A -> Z * A) (data : A) : cres (Z * A) :=
  iterate_loop list_fuel s cb data 0 solist.

(** ** Constructors and destructors *)

(** The functions that call_array calls, in order: entries 0 and -1 are skipped. *)
Definition call_array (a : list Z) (reverse : bool) : list Z :=
  List.filter (fun f => negb ((f =? 0) || (f =? UINT_MAX))) (if reverse then rev a else a).

(** What a library declares: DT_PREINIT_ARRAY, DT_INIT, DT_INIT_ARRAY, DT_FINI_ARRAY
    and DT_FINI; 0 or none where it has none. *)
Record init_info := mkInit {
  preinit_array : list Z; init_func : Z; init_array : option (list Z); fini_array : option (list Z); fini_func : Z
}.
Definition call_func (f : Z) : list Z := if f =? 0 then [] else [f].
Definition call_opt (a : option (list Z)) (reverse : bool) : list Z := match a with Some a => call_array a reverse | None => [] end.

(** The functions that are called, in order. *)
Definition call_constructors (exe : bool) (i : init_info) : list Z :=
  (if exe then call_array (preinit_array i) false else []) ++ call_func (init_func i) ++ call_opt (init_array i) false.
Definition call_destructors (i : init_info) : list Z := call_opt (fini_array i) true ++ call_func (fini_func i).

(** ** Paths *)

(** "/system/lib" and "/lib" *)
Definition sopaths : list (list Z) := [[47; 115; 121; 115; 116; 101; 109; 47; 108; 105; 98]; [47; 108; 105; 98]].

(** for (path = ...): snprintf(buf, 512, "%s/%s", *path, name); [_open_lib] opens a
    regular file. *)
Fixpoint open_paths {A} (_open_lib : list Z -> option A) (paths : list (list Z)) (name : list Z) : option A :=
  match paths with
  | [] => None
  | p :: paths' =>
      let buf := p ++ 47 :: name in
      if 512 <=? Z.of_nat (length buf) then open_paths _open_lib paths' name
      else match _open_lib buf with Some fd => Some fd | None => open_paths _open_lib paths' name end
  end.

Definition open_library {A} (_open_lib : list Z -> option A) (ldpaths : list (list Z)) (name : list Z) : option A :=
  if 256 <? Z.of_nat (length name) then None
  else
    match (if bool_decide (head name = Some 47) then _open_lib name else None) with
    | Some fd => Some fd
    | None =>
        match open_paths _open_lib ldpaths name with
        | Some fd => Some fd
        | None => open_paths _open_lib sopaths name
        end
    end.

Definition LDPATH_MAX : Z := 8.
Definition LDPATH_BUFSIZE : Z := 512.

(** strsep with the delimiter [d]: the part before the first one, and the rest after
    it, none at the end. *)
Fixpoint strsep_part (d : Z) (s : list Z) : list Z * option (list Z) :=
  match s with
  | [] => ([], None)
  | c :: s' => if c =? d then ([], Some s') else let '(p, r) := strsep_part d s' in (c :: p, r)
  end.

(** The loop of parse_library_path: empty parts are overwritten by the next one.  The
    paths, and what strsep has not looked at. *)
Fixpoint split_paths (fuel : nat) (d : Z) (i : Z) (buf : option (list Z)) : list (list Z) * option (list Z) :=
  match fuel with
  | O => ([], buf)
  | S f =>
      if LDPATH_MAX <=? i then ([], buf)
      else
        match buf with
        | None => ([], None)
        | Some s =>
            let '(p, r) := strsep_part d s in
            match p with
            | [] => split_paths f d i r
            | _ => let '(ps, rest) := split_paths f d (i + 1) r in (p :: ps, rest)
            end
        end
  end.

(** ldpaths after parse_library_path: strlcpy truncates to 511 characters, and then
    the last path goes unless strsep has overwritten the last character. *)
Definition parse_library_path (path : list Z) (d : Z) : list (list Z) :=
  let buf := take (Z.to_nat (LDPATH_BUFSIZE - 1)) path in
  let '(ps, rest) := split_paths (length buf + 2) d 0 (Some buf) in
  let nul := bool_decide (last buf = Some d) && match rest with Some (_ :: _) => false | _ => true end in
  if (0 <? Z.of_nat (length ps)) && (LDPATH_BUFSIZE <=? Z.of_nat (length path)) && negb nul then removelast ps else ps.

(** ** Symbol search *)

(** The library [e] defines the symbol. *)
Definition lib_defines (e : soinfo) (name : list Z) : Prop := exists n, 0 < n /\ defines (so_tables e) name n.

(** The hash tables of the libraries that were not refused are in order. *)
Definition searchable (s : lstate) (x : Z) : Prop :=
  forall e, lib s x = Some e -> exists chs, wf_tables (so_tables e) chs.
Definition skipped (s : lstate) (user_si x : Z) : Prop :=
  x = user_si \/ exists e, lib s x = Some e /\ truthy (Z.land (so_flags e) FLAG_ERROR) = true.

(** The answer of a search: the symbol of the first library that defines the name. *)
Definition first_def (s : lstate) (order : list Z) (name : list Z) (r : option (Elf32_Sym * Z)) : Prop :=
  match r with
  | Some (sym, base) => exists pre x post e n, order = pre ++ x :: post /\ lib s x = Some e /\ base = so_base e /\
      0 < n /\ symtab (so_tables e) !! Z.to_nat n = Some sym /\ strtab (so_tables e) (st_name sym) = name /\ sym_ok sym = true /\
      forall y e', y ∈ pre -> lib s y = Some e' -> ~ lib_defines e' name
  | None => forall y e', y ∈ order -> lib s y = Some e' -> ~ lib_defines e' name
  end.

Lemma first_def_cons s x order name r e :
  lib s x = Some e -> ~ lib_defines e name -> first_def s order name r -> first_def s (x :: order) name r.
Proof.
  intros He Hno. destruct r as [[sym base]|]; cbn.
  - intros (pre & y & post & e' & n & -> & H1 & H2 & H3 & H4 & H5 & H6 & H7). exists (x :: pre), y, post, e', n.
    split_and!; try done. intros z ez [->|Hz]%elem_of_cons E; [congruence|by apply (H7 z)].
  - intros H z ez [->|Hz]%elem_of_cons E; [congruence|by apply (H z)].
Qed.

(** The search in one library. *)
Lemma search_one s x e name h order :
  lib s x = Some e -> searchable s x -> (h = 0 \/ h = elfhash name) ->
  exists r, _do_lookup_in_so (so_tables e) name h = CVal (r, elfhash name) /\
    match r with Some sym => first_def s (x :: order) name (Some (sym, so_base e)) | None => ~ lib_defines e name end.
Proof.
  intros He Hs Hh. destruct (Hs e He) as (chs & W). destruct (do_lookup_in_so_spec _ _ name h W Hh) as (r & -> & Hr).
  exists r. split; [done|]. destruct r as [sym|].
  - destruct Hr as (n & Hn & H1 & H2 & H3). exists [], x, order, e, n. split_and!; try done.
    by intros y e' H%not_elem_of_nil.
  - intros (n & Hn & H). by apply (Hr n Hn).
Qed.

#[local] Instance skipped_dec s user x : Decision (skipped s user x).
Proof.
  unfold skipped. apply or_dec; [apply _|]. destruct (lib s x) as [e|]; [|right; naive_solver].
  destruct (truthy (Z.land (so_flags e) FLAG_ERROR)) eqn:E; [left; eauto|right; naive_solver congruence].
Defined.

(** The libraries that are searched, in order. *)
Definition search_order (s : lstate) (user : Z) (L : list Z) : list Z := filter (fun x => ~ skipped s user x) L.

Lemma sym_loop_spec s user name fuel : forall p xs h,
  lchain (nx s) p xs -> (length xs < fuel)%nat -> (h = 0 \/ h = elfhash name) ->
  (forall x, x ∈ xs -> ~ skipped s user x -> searchable s x) ->
  exists r, lookup_loop fuel s user name h p = CVal r /\ first_def s (search_order s user xs) name r.
Proof.
  induction fuel as [|f IH]; intros p xs h C Hf Hh Hs; [lia|]. cbn [lookup_loop]. destruct xs as [|x xs].
  { cbn in C. subst p. exists None. split; [done|]. by intros y e H%not_elem_of_nil. }
  destruct C as (-> & Hx & v & Hv & C). zif. unfold nx in Hv. unfold sget. destruct (pool s !! x) as [e|] eqn:He; [|done].
  injection Hv as Hv. cbn [mbind cres_bind]. assert (lib s x = Some (set_next e NULL)) as Hlx by (unfold lib; by rewrite He).
  rewrite Hv. cbn [length] in Hf.
  assert (forall h, h = 0 \/ h = elfhash name -> exists r, lookup_loop f s user name h v = CVal r /\ first_def s (search_order s user xs) name r) as IHv.
  { intros h' Hh'. apply (IH v xs h'); [done|lia|done|]. intros y Hy. apply Hs. by right. }
  unfold search_order. destruct (decide (skipped s user x)) as [Hsk|Hsk].
  - assert ((truthy (Z.land (so_flags e) FLAG_ERROR) || (x =? user))%bool = true) as ->.
    { destruct Hsk as [->|(e' & E & Hfl)]; [by rewrite Z.eqb_refl, orb_true_r|]. rewrite Hlx in E. injection E as <-.
      cbn in Hfl. by rewrite Hfl. }
    rewrite filter_cons_False by tauto. by apply IHv.
  - assert ((truthy (Z.land (so_flags e) FLAG_ERROR) || (x =? user))%bool = false) as ->.
    { apply orb_false_iff. split; [|apply Z.eqb_neq; intros ->; apply Hsk; by left].
      destruct (truthy _) eqn:E; [|done]. exfalso. apply Hsk. right. eauto. }
    rewrite filter_cons_True by done.
    destruct (search_one s x (set_next e NULL) name h (filter (fun x => ~ skipped s user x) xs) Hlx) as (r & E & Hr);
      [apply Hs; [left|done]|done|]. change (so_tables (set_next e NULL)) with (so_tables e) in E. rewrite E. cbn [mbind cres_bind].
    destruct r as [sym|]; [by eexists|]. destruct (IHv (elfhash name) ltac:(by right)) as (r & -> & Hf').
    exists r. split; [done|]. by apply (first_def_cons s x _ name r (set_next e NULL)).
Qed.

Lemma do_lookup_spec s L F user name :
  pool_ok s L F -> (user = NULL \/ user ∈ L /\ searchable s user) ->
  (forall x, x ∈ L -> ~ skipped s user x -> searchable s x) ->
  exists r, _do_lookup s user name = CVal r /\
    first_def s ((if user =? NULL then [] else [user]) ++ search_order s user L) name r.
Proof.
  intros P Hu Hs. pose proof (pool_length _ _ _ P). pose proof (po_cnt _ _ _ P).
  assert (length L < list_fuel)%nat as Hf by (unfold list_fuel; lia).
  unfold _do_lookup. destruct (Z.eqb_spec user NULL) as [->|Hne].
  - apply (sym_loop_spec s NULL name list_fuel solist L 0); [apply P|done|by left|done].
  - destruct Hu as [|[HuL Hus]]; [done|]. destruct (sget_ok s L F user P HuL) as (x & e & -> & He & Hxe). cbn [mbind cres_bind].
    replace (so_tables x) with (so_tables e) by (by rewrite <- Hxe). replace (so_base x) with (so_base e) by (by rewrite <- Hxe).
    destruct (search_one s user e name 0 (search_order s user L) He Hus) as (r & -> & Hr); [by left|]. cbn [mbind cres_bind].
    destruct r as [sym|]; [by eexists|].
    destruct (sym_loop_spec s user name list_fuel solist L (elfhash name)) as (r & -> & Hr'); [apply P|done|by right|done|].
    exists r. split; [done|]. by apply (first_def_cons s user _ name r e).
Qed.

(** What dlsym makes of a symbol. *)
Definition dlsym_result (r : option (Elf32_Sym * Z)) : Z * Z :=
  match r with
  | Some (sym, base) =>
      if (ELF32_ST_BIND (st_info sym) =? STB_GLOBAL) && negb (st_shndx sym =? 0) then (u32 (st_value sym + base), 0)
      else (0, DL_ERR_SYMBOL_NOT_GLOBAL)
  | None => (0, DL_ERR_SYMBOL_NOT_FOUND)
  end.

(** Symbol resolution.  The search for a symbol terminates inside the tables and
    takes the first library that defines it: the library that asks, then the others
    in the order of the list, without those that could not be linked.  dlsym gives
    the address of a global symbol from that search, or from the library of the
    handle, and an error otherwise. *)
Theorem symbol_search_first (s : lstate) (L F : list Z) (name : list Z) :
  pool_ok s L F -> (forall x, x ∈ L -> searchable s x) ->
  (forall user, user = NULL \/ user ∈ L -> exists r, _do_lookup s user name = CVal r /\
     first_def s ((if user =? NULL then [] else [user]) ++ search_order s user L) name r) /\
  (forall handle, handle ∈ L \/ handle = RTLD_DEFAULT \/ handle = RTLD_NEXT ->
     exists r, dlsym s handle (Some name) = CVal (dlsym_result r) /\
       first_def s (if decide (handle ∈ L) then [handle] else search_order s NULL L) name r).
Proof.
  intros P Hs.
  assert (forall user, user = NULL \/ user ∈ L -> exists r, _do_lookup s user name = CVal r /\
     first_def s ((if user =? NULL then [] else [user]) ++ search_order s user L) name r) as Hl.
  { intros user Hu. apply (do_lookup_spec s L F); [done| |by auto]. destruct Hu as [|Hu]; [by left|right; auto]. }
  split; [done|]. intros handle Hh. assert (forall x, x ∈ L -> 1 <= x < 258) as Hrange.
  { intros x Hx. apply (po_dom _ _ _ P), (pool_in s L F x P). set_solver. }
  unfold dlsym. destruct (decide (handle ∈ L)) as [HL|HL].
  - specialize (Hrange handle HL). unfold RTLD_DEFAULT, RTLD_NEXT. do 3 zif.
    destruct (sget_ok s L F handle P HL) as (x & e & -> & He & Hxe). cbn [mbind cres_bind].
    replace (so_tables x) with (so_tables e) by (by rewrite <- Hxe). replace (so_base x) with (so_base e) by (by rewrite <- Hxe).
    destruct (search_one s handle e name 0 [] He (Hs handle HL)) as (r & E & Hr); [by left|]. unfold lookup_in_library.
    rewrite E. cbn [mbind cres_bind]. exists (option_map (fun sym => (sym, so_base e)) r). split.
    + destruct r as [sym|]; cbn; [by destruct (_ && _)%bool|done].
    + destruct r as [sym|]; cbn [option_map]; [done|]. intros y e' ->%list_elem_of_singleton E'. congruence.
  - assert (handle = RTLD_DEFAULT \/ handle = RTLD_NEXT) as Hd by tauto.
    assert ((handle =? 0) = false) as -> by (apply Z.eqb_neq; destruct Hd as [->| ->]; done).
    assert (((handle =? RTLD_DEFAULT) || (handle =? RTLD_NEXT))%bool = true) as -> by (by destruct Hd as [->| ->]).
    destruct (Hl NULL ltac:(by left)) as (r & E & Hr). unfold lookup_symbol. rewrite E. cbn [mbind cres_bind].
    exists r. split; [|done]. destruct r as [[sym base]|]; cbn; [by destruct (_ && _)%bool|done].
Qed.

(** The sample process, where every library has the symbol "ab". *)
Definition sym_state : lstate := with_pool (sample_state 1) ((fun e => set_dt e ∅ sample_tables) <$> pool (sample_state 1)).

Lemma sym_state_ok : pool_ok sym_state [1; 2; 3] [] /\ forall x, x ∈ [1; 2; 3] -> searchable sym_state x.
Proof.
  assert (forall x, lib sym_state x = (fun e => set_dt e ∅ sample_tables) <$> lib (sample_state 1) x) as Hl.
  { intros x. unfold lib, sym_state. cbn [with_pool pool]. rewrite lookup_fmap. by destruct (pool (sample_state 1) !! x). }
  split.
  - apply (pool_frame (sample_state 1)); [| | | | |apply sample_pool_ok]; [|exact eq_refl..|].
    + intros b. unfold nx, sym_state. cbn [with_pool pool]. rewrite lookup_fmap. by destruct (pool (sample_state 1) !! b).
    + intros b. rewrite Hl. by destruct (lib (sample_state 1) b).
  - intros x _ e He. rewrite Hl in He. destruct (lib (sample_state 1) x) as [e'|]; [|done]. injection He as <-.
    exists [[2; 1]]. apply sample_tables_wf.
Qed.

Lemma symbol_search_first_witness :
  dlsym sym_state 3 (Some [97; 98]) = CVal (0x80000100, 0) /\
  (forall user, user = NULL \/ user ∈ [1; 2; 3] -> exists r, _do_lookup sym_state user [97; 98] = CVal r /\
     first_def sym_state ((if user =? NULL then [] else [user]) ++ search_order sym_state user [1; 2; 3]) [97; 98] r) /\
  (forall handle, handle ∈ [1; 2; 3] \/ handle = RTLD_DEFAULT \/ handle = RTLD_NEXT ->
     exists r, dlsym sym_state handle (Some [97; 98]) = CVal (dlsym_result r) /\
       first_def sym_state (if decide (handle ∈ [1; 2; 3]) then [handle] else search_order sym_state NULL [1; 2; 3]) [97; 98] r).
Proof.
  split; [vm_compute; reflexivity|].
  apply (symbol_search_first sym_state [1; 2; 3] [] [97; 98] (proj1 sym_state_ok) (proj2 sym_state_ok)).
Defined.

(** A weak symbol counts as found also where it is undefined, and then hides the
    definition in a later library: dlsym reports it as not global. *)
Definition weak_tables : tables := mkTables 1 [1] [0; 0] [mkSym 0 0 0 0 0; mkSym 1 0 0 0x20 0] (strtab sample_tables).
Definition weak_state : lstate :=
  with_pool sym_state (alter (fun e => set_dt e ∅ weak_tables) 1 (pool sym_state)).

Lemma weak_undefined_hides :
  dlsym weak_state RTLD_DEFAULT (Some [97; 98]) = CVal (0, DL_ERR_SYMBOL_NOT_GLOBAL) /\
  dlsym weak_state 3 (Some [97; 98]) = CVal (0x80000100, 0).
Proof. vm_compute. split; reflexivity. Qed.

(** ** Addresses, arrays of functions and paths *)

Lemma addr_loop_spec s addr fuel : forall p xs, lchain (nx s) p xs -> (length xs < fuel)%nat ->
  (exists pre x post e, xs = pre ++ x :: post /\ addr_loop fuel s addr p = CVal x /\ lib s x = Some e /\
     so_base e <= addr < u32 (so_base e + so_size e)) \/
  (addr_loop fuel s addr p = CVal NULL /\ forall x e, x ∈ xs -> lib s x = Some e -> ~ so_base e <= addr < u32 (so_base e + so_size e)).
Proof.
  induction fuel as [|f IH]; intros p xs C Hf; [lia|]. cbn [addr_loop]. destruct xs as [|x xs].
  { cbn in C. subst p. right. split; [done|]. by intros x e H%not_elem_of_nil. }
  destruct C as (-> & Hx & v & Hv & C). zif. unfold nx in Hv. unfold sget. destruct (pool s !! x) as [e|] eqn:He; [|done].
  injection Hv as Hv. cbn [mbind cres_bind]. assert (lib s x = Some (set_next e NULL)) as Hlx by (unfold lib; by rewrite He).
  cbn [length] in Hf. destruct ((so_base e <=? addr) && (addr <? u32 (so_base e + so_size e)))%bool eqn:Hin.
  - zbool. left. exists [], x, xs, (set_next e NULL). by split_and!.
  - rewrite Hv. destruct (IH v xs C) as [(pre & y & post & e' & -> & H)|[-> Hno]]; [lia|left; by exists (x :: pre), y, post, e'|].
    right. split; [done|]. intros y e' [->|Hy]%elem_of_cons E [H1 H2]; [|by apply (Hno y e')].
    rewrite Hlx in E. injection E as <-. cbn in H1, H2. apply andb_false_iff in Hin as [Hin|Hin]; zbool; lia.
Qed.

(** Destructors run in the opposite order of the array. *)
Lemma call_array_reverse a : call_array a true = rev (call_array a false).
Proof.
  unfold call_array. induction a as [|x a IH]; [done|]. cbn [rev List.filter]. rewrite List.filter_app, IH. cbn [List.filter].
  destruct (negb _); [done|]. by rewrite app_nil_r.
Qed.

(** The search for a file: the first path at which there is one. *)
Lemma open_paths_first {A} (f : list Z -> option A) paths name :
  (forall p, p ∈ paths -> Z.of_nat (length p + length name) < 511) ->
  open_paths f paths name = head (omap (fun p => f (p ++ 47 :: name)) paths).
Proof.
  induction paths as [|p paths IH]; intros H; [done|]. cbn. specialize (H p) as Hp.
  rewrite length_app in *. cbn [length]. assert (Z.of_nat (length p + length name) < 511) by (apply Hp; left). zif.
  destruct (f (p ++ 47 :: name)) as [a|]; [done|]. apply IH. intros q Hq. apply H. by right.
Qed.

(** Eight paths, a delimiter, and 500 characters more: the eighth path is complete,
    but it goes. *)
Lemma last_path_lost :
  let paths := map (fun k => [47; 48 + k]) [1; 2; 3; 4; 5; 6; 7; 8] in
  parse_library_path (concat (map (fun p => p ++ [58]) paths) ++ replicate 500 120) 58 = removelast paths /\
  parse_library_path (concat (map (fun p => p ++ [58]) paths)) 58 = paths.
Proof. vm_compute. split; reflexivity. Qed.
